(* ===== verification/_CoqProject ===== *)
-Q . S2P
Prelude.v
GoStrings.v
Pebble.v
Proto.v
UserData.v
Mailbox.v
MailboxInv.v
MailboxLemmas.v
MailboxSteps.v
MailboxSpec.v
Utf8.v
MailText.v
MailboxStore.v
MailboxClient.v
Credentials.v
Bayes.v
Acl.v
AclThm.v
Notify.v
QueueCommand.v
AttSplit.v
AttSplitThm.v
Queue.v
QueueWorker.v
QueueThm.v
QueueRun.v
Dnssec.v
DnssecThm.v
TlsPolicy.v
Relay.v
RelayThm.v
RateLimit.v
RateLimitThm.v
Srs.v
SrsThm.v
Rules.v
Envelope.v
RulesStage.v
RulesThm.v
RulesMigrate.v
Directory.v
Domains.v
Preferences.v
ForwardTargets.v
DomainCascade.v
DomainsThm.v
Resolver.v
ResolverThm.v
DeliverHeaders.v
DeliverHeadersThm.v
MailHeaders.v
DeliverBase.v
Vacation.v
Deliver.v
DeliverThm.v
Spool.v
BlobStore.v
BlobGC.v
Pipeline.v
PipelineThm.v
PoolThm.v
BlobThm.v
BlobGCThm.v
Sweeps.v
Fsm.v
FsmThm.v
Accounts.v
AccountsThm.v
Smtp.v
SmtpThm.v
Pop3.v
Pop3Thm.v
Node.v
TagStore.v
Imap.v
ImapThm.v
ImapView.v
Netx.v
Web.v
WebThm.v
