(* ===== verification/Prelude.v ===== *)
(** * Verification of the Bongo mail server

    Bongo is a replicated mail server.  Its state is a Pebble key-value store
    that every node holds a copy of; all writes are commands ([RaftCommand]:
    put or delete a key, or a synthetic key that names an operation) ordered by
    Raft and applied by the state machine of each node.  Front ends read the
    local store and submit commands; mail comes in over SMTP into a spool,
    passes a pipeline of stages whose last one delivers it into mailboxes, and
    goes out through a queue; message bodies are files in a content-addressed
    blob store.  This library models these parts as executable functions, one
    definition per Go function, and proves what makes them correct.

    ** Files and the sources they model (under [src/internal] unless said)

    - [Prelude]: errors, results, the state-and-error monad [GoM] (a function
      of the state; changes made before an error stay), machine integers and
      the clock, tactics ([ginv], [gcase]) and hint databases.
    - [GoStrings], [Utf8], [MailText]: the parts of [strings], [strconv],
      [fmt], [encoding/binary], [unicode/utf8] and of [mail/header.go] that the
      code uses.
    - [Pebble]: [store/pebble.go] over the class [PebbleDB] of an engine that
      may fail; [PebbleLaws] is its documented behaviour, [MemDB] an instance
      with injectable faults.  [Proto]: protocol records, codec classes with
      their laws, the interface [RaftApplier].  [UserData]: the account profile
      and the interface [UserApplier] of plain writes.
    - [Mailbox], [MailboxInv], [MailboxLemmas], [MailboxSteps], [MailboxSpec]:
      the synthetic mailbox commands of [store/mailbox.go] as the state machine
      applies them.  [MailboxStore], [MailboxClient]: its client side.
      [MailHeaders]: [store/mailheaders.go], [store/tags.go].  [TagStore]:
      [store/tag_store.go] and [tagname].
    - [Directory], [Domains], [Preferences], [ForwardTargets], [DomainCascade],
      [DomainsThm]: addresses, domains with their administrators, quotas,
      aliases and catch-alls, preferences, vacation settings, forward targets,
      address verification and the purge of a domain ([store/address*.go],
      [store/domain*.go], [store/catchall_store.go], [store/sendas*.go],
      [store/user_domain*.go], [store/preferences*.go],
      [store/forward_target_store.go]).
    - [Resolver], [ResolverThm]: [store/recipient_resolver.go].
    - [Credentials]: [store/apppassword*.go], device links.  [Accounts],
      [AccountsThm]: [auth/local.go], [auth/apppassword.go], [auth/totp.go],
      [security/session_epoch.go].
    - [Bayes]: [store/bayes*.go].  [Acl], [AclThm]: calendar sharing.
      [Notify]: change notifications.  [QueueCommand], [Queue], [QueueWorker],
      [QueueThm], [QueueRun]: the outbound queue, its store, its worker's
      attempts and its polling loop.
    - [AttSplit], [AttSplitThm]: splitting attachments from stored messages.
    - [BlobStore], [BlobThm]: [store/blobstore.go].  [BlobGC], [BlobGCThm]: the
      blob collector of [agent/agent.go] and [store/mailmeta_key.go].
      [Sweeps]: the agent's sweeps of orphaned mail metadata,
      expired tickets and accounts.
    - [RateLimit], [RateLimitThm]: the two message limiters and [authlimit].
    - [Srs], [SrsThm]: [srs/srs.go].
    - [Rules], [RulesStage], [RulesThm], [RulesMigrate]: [rules/engine.go],
      [rules/store.go], [rules/migrate.go], [store/rule_actions.go] and the
      stage [pipeline/rules/rules.go].
    - [DeliverHeaders], [DeliverHeadersThm], [DeliverBase], [Vacation],
      [Deliver], [DeliverThm]: the stage [pipeline/deliver]:
      trace headers, vacation replies, and delivery with its forwards.
    - [Envelope], [Spool], [Pipeline], [PipelineThm], [PoolThm]:
      [pipeline/flags.go], [rescan.go], [spool.go], [spool_group.go],
      [errorpurge.go], [runner.go].
    - [Smtp], [SmtpThm]: [smtp/server.go], [smtp/delivery.go],
      [smtp/auth_throttle.go], [netx/connlimit.go].
    - [Dnssec], [DnssecThm]: [dnssec/dnssec.go].  [TlsPolicy], [Relay],
      [RelayThm]: MTA-STS, DANE and the SMTP client ([smtp/mtasts.go],
      [smtp/dane.go], [smtp/relay*.go], [smtp/helo.go]).
    - [Pop3], [Pop3Thm]: [pop3/session.go].
    - [Imap]: [imap/backend.go], [imap/search.go] and the hub of
      [imap/notify.go].  [ImapThm], [ImapView]: the client's view and what
      sessions may do, with concrete sessions.
    - [Netx]: [netx/trustedproxies.go], [netx/safeclient.go].  [Web], [WebThm]:
      the cookies, guards and route groups of [web/], requests between nodes
      ([security/internal_http_auth.go]), and the handlers of sign-in, logout,
      second factor and password change.
    - [Fsm], [FsmThm], [Node]: [cluster/fsm.go] with its watermark, index queue
      and worker, [Restore], and the leader's apply path.  [Node] discharges
      the interfaces [MailboxApplier], [QueueApplier], [ReliableQueue],
      [UserApplier] and [MailboxSeqApplier] that the clients are proved
      against, and holds the end-to-end theorems.

    ** State

    A store is any type with [PebbleDB]; theorems speak of its [contents], a
    [gmap], and of [healthy] stores where a step must not fail.  Mailboxes are
    read off the contents by [meta_at] and [msg_at]; [mbox_inv] is their
    invariant.  The spool is a map of files with a count of system calls and an
    oracle that makes some of them fail, a write possibly torn; the blob files
    are the same with modification times and a lock.  SMTP and POP3 sessions,
    the account service and the world of a delivery are records threaded
    through their handlers.

    Concurrency is a step relation: [pool_step] and [world_step] for the
    pipeline's workers, crashes and restarts, [pop_step] for a POP3 session
    among other activity, [smtp_step] for an SMTP session, whose calls go-smtp
    orders and between which the server's data may change, the interleavings of
    applies and index work in [FsmThm], [web_reach] for the requests a node serves
    in any order, with its store changing arbitrarily between them.  Blob operations are programs of atomic
    calls ([prog]): [load_step] interleaves any number of them with crashes,
    and [observe] and [effects] run one program, the collector's pass, against
    arbitrary states between its calls.

    ** What is shown

    - Mailboxes: every command keeps the invariant and is all-or-nothing; UIDs
      are never reused; delivery, rename, expunge and move do exactly what they
      should; listings and views are exact; tags stay well formed.
    - Addresses: the first entry that claims an address decides where its mail
      goes; accounts are found only through explicit entries; a purge removes a
      domain's configuration and nothing else; quotas and delegated
      administration are enforced.
    - Credentials: a device link is consumed once; a protocol login is exact
      and costs one hash comparison on every branch; an app password works from
      creation to revocation and not beyond.
    - Sharing and training: the grant families agree and access needs an
      accepted grant; training refines an abstract classifier.
    - Replication: replay after a restart, order of index work, [Restore],
      refinement of direct application by the replicated path.
    - Messages: splitting and reconstruction are byte-exact; POP3 clients read
      back what is stored.
    - Blobs: whatever is read under a hash has that hash, under any
      interleaving, faults and crashes; the collector removes no referenced
      blob, and only blobs that two passes found old and unreferenced.
    - Outbound: the ready batch, no loss in transitions, no backscatter, every
      recipient accounted for, retries end; rate bounds; rewritten senders
      reverse, and only those this server issued and within their age.
    - Relay: a delivery without error has accounted for every recipient; under
      an enforced MTA-STS policy credentials and mail go only to named hosts
      over valid TLS or DANE; an answer reported as secure was published by an
      operator at or above the name.
    - SMTP: no open relay; local mail is accepted and trusted only as
      vouched for; login attempts, connections and message sizes are bounded.
    - Inbound: the rules stage honours its documented combination of actions
      and keeps spam in Junk; the first-match migration keeps the effect of
      old rules; an interrupted run repeats at most one stage; the spool never
      loses an envelope under failures, crashes and restarts, and drains.
    - Delivery: every recipient is served once; what leaves is a vetted
      forward, a returned bounce or a vacation reply, which one sender gets at
      most once per interval; the stored header block is exact.
    - IMAP: a poll brings a client to exactly the mailbox's UIDs; the view
      recorded for a client is what it was told; EXAMINE changes nothing; a
      revoked account gets nothing more; a refused APPEND leaves nothing; flags
      and keywords round-trip; partial sections and structures are exact.
    - Sweeps: the orphan sweep keeps every message and its metadata.
    - Web: a request reaches an admin handler only as a signed, current, vetted
      session; in every run a session was earned by a password and, where
      enrolled, a second factor, whose code is spent first; a password change
      ends every other session; a request between nodes is signed, recent and
      accepted once; feeds are fetched from public addresses only.
    - POP3: a session never panics, changes the store only in QUIT of a live
      login, and then moves only what it listed and the client marked.

    Theorems named for a defect ([..._is_delivered], [..._reuses_uid],
    [..._delivers_twice] and others) show concrete runs where the code departs
    from its intent or its comments.

    ** Recursion and bounds

    Loops over Go slices and strings are structural.  Fuel appears where a
    loop's progress is numeric, and is proved or chosen to suffice: [Split] has
    one more than the string's length, decimal printing one more than [log2] of
    the number, the multipart scan one more than the length of the message and
    nesting up to the source's [MaxDepth], [FormatAppPassword] the length of
    its input, the POP3 client one more than the length of the wire, and the
    collapsing of dashes in a tag name its length.  The chain of DNSSEC
    delegations need not end ([self_delegation_never_ends]); its fuel is part
    of the statements, and suffices where signers are above what they sign.  Integers
    wrap at their width with [u32], [i32], [i64] where the source's do; UIDs
    are kept below 2^32 by the hypotheses [uid_room] and [room].

    ** Parameters

    The Pebble engine; protobuf and JSON codecs; case mapping and folding
    outside ASCII ([GoUnicode]); [net/mail] and MIME parsing; HMAC, SHA-256,
    bcrypt, one-time passwords and random draws; Go's regular expressions; the
    SQLite and Bleve indexes (a log of calls, or a query function); the DKIM
    signer of an outbound attempt; DNS, its record and signature library,
    HTTPS, TLS and the calls of the go-smtp client; the IMAP library's list
    patterns; the parsing of URLs, IP addresses, HTTP requests and forms, and
    the rendering of pages; SPF and DKIM verdicts; the
    pipeline's stages other than rules and deliver; clocks, map iteration
    orders and TLS handshakes.  A run of the deliver stage reads the clock once
    and its collaborators answer alike throughout.  Laws assumed of parameters
    are class fields with instances in the Demo sections.

    ** Not modelled

    The wire format of IMAP, which the go-imap library reads and writes; the DAV
    front ends and the web handlers other than sign-in and account security,
    which wrap network libraries and templates; the antispam and antivirus stages and the calendar
    side of delivery; account creation and other code that is mostly SQL;
    certificates, gossip and the Raft library; blob transfer between nodes;
    polling intervals, deadlines and log output.

    ** Plan

    Next: calendars and recurrence, then the web handlers that manage app
    passwords and devices. *)

From stdpp Require Export base tactics list gmap strings sorting.
From Stdlib Require Export ZArith Lia.

#[global] Open Scope Z_scope.
#[global] Set Default Goal Selector "!".

(** * Go errors

    An [error] value is [option err]: [None] is Go's [nil].  A sentinel
    (declared once with [errors.New] and compared with [errors.Is]) keeps its
    identity through wrapping; [Errorf] is an anonymous error and [Wrap p e]
    is [fmt.Errorf("p: %w", e)]. *)

Inductive err : Type :=
| Sentinel (text : string)
| Errorf (text : string)
| Wrap (text : string) (inner : err).

#[global] Instance err_eq_dec : EqDecision err.
Proof. solve_decision. Defined.

(** [err.Error()]: the text of an error. *)
Fixpoint err_text (e : err) : string :=
  match e with
  | Sentinel t | Errorf t => t
  | Wrap t e' => t +:+ ": " +:+ err_text e'
  end.

(** [errors.Is(e, target)] for a sentinel target. *)
Fixpoint errors_is (e target : err) : bool :=
  bool_decide (e = target) ||
  match e with
  | Wrap _ e' => errors_is e' target
  | _ => false
  end.

(** * Results: a value or a non-nil error *)

Inductive result (A : Type) : Type :=
| Ok (a : A)
| Err (e : err).
Arguments Ok {A} _.
Arguments Err {A} _.

#[global] Instance result_eq_dec `{EqDecision A} : EqDecision (result A).
Proof. solve_decision. Defined.

Definition result_bind {A B} (r : result A) (k : A -> result B) : result B :=
  match r with Ok a => k a | Err e => Err e end.

(** [fmt.Errorf("text: %w", err)] around a failing call. *)
Definition wrapf {A} (text : string) (r : result A) : result A :=
  match r with Ok a => Ok a | Err e => Err (Wrap text e) end.

Definition is_ok {A} (r : result A) : bool :=
  match r with Ok _ => true | Err _ => false end.

Definition of_option {A} (e : err) (o : option A) : result A :=
  match o with Some a => Ok a | None => Err e end.

(** * Stateful Go code

    [GoM S A] is a function body that reads and writes a state [S] and returns
    a value or an error.  State changes made before an error is returned stay. *)

Definition GoM (S A : Type) : Type := S -> S * result A.

Definition gret {S A} (a : A) : GoM S A := fun s => (s, Ok a).
Definition gfail {S A} (e : err) : GoM S A := fun s => (s, Err e).
Definition glift {S A} (r : result A) : GoM S A := fun s => (s, r).
Definition gread {S A} (f : S -> result A) : GoM S A := fun s => (s, f s).
Definition gbind {S A B} (m : GoM S A) (k : A -> GoM S B) : GoM S B :=
  fun s => match m s with
           | (s', Ok a) => k a s'
           | (s', Err e) => (s', Err e)
           end.
Definition gwrap {S A} (text : string) (m : GoM S A) : GoM S A :=
  fun s => let (s', r) := m s in (s', wrapf text r).

Declare Scope go_scope.
Delimit Scope go_scope with go.
Notation "'let?' x ':=' r 'in' k" := (result_bind r (fun x => k))
  (at level 10, x pattern, r at level 100, k at level 200,
   format "'let?'  x  ':='  r  'in' '//' k") : go_scope.
Notation "'let!' x ':=' m 'in' k" := (gbind m (fun x => k))
  (at level 10, x pattern, m at level 100, k at level 200,
   format "'let!'  x  ':='  m  'in' '//' k") : go_scope.
#[global] Open Scope go_scope.

(** ** Inversion of monadic runs *)

Lemma result_bind_Ok {A B} (r : result A) (k : A -> result B) b :
  result_bind r k = Ok b <-> exists a, r = Ok a /\ k a = Ok b.
Proof. destruct r; naive_solver. Qed.

Lemma wrapf_Ok {A} t (r : result A) a : wrapf t r = Ok a <-> r = Ok a.
Proof. destruct r; naive_solver. Qed.

Lemma gbind_Ok {S A B} (m : GoM S A) (k : A -> GoM S B) s s' b :
  gbind m k s = (s', Ok b) <-> exists s1 a, m s = (s1, Ok a) /\ k a s1 = (s', Ok b).
Proof. unfold gbind. destruct (m s) as [s1 [a|e]]; naive_solver. Qed.

Lemma gbind_Err {S A B} (m : GoM S A) (k : A -> GoM S B) s s' e :
  gbind m k s = (s', Err e) <->
  m s = (s', Err e) \/ exists s1 a, m s = (s1, Ok a) /\ k a s1 = (s', Err e).
Proof. unfold gbind. destruct (m s) as [s1 [a|e']]; naive_solver. Qed.

Lemma gwrap_Ok {S A} t (m : GoM S A) s s' a :
  gwrap t m s = (s', Ok a) <-> m s = (s', Ok a).
Proof. unfold gwrap. destruct (m s) as [s1 [b|e]]; naive_solver. Qed.

Lemma gwrap_Err {S A} t (m : GoM S A) s s' e :
  gwrap t m s = (s', Err e) <-> exists e', m s = (s', Err e') /\ e = Wrap t e'.
Proof. unfold gwrap. destruct (m s) as [s1 [b|e']]; naive_solver. Qed.

Lemma of_option_Ok {A} e (o : option A) a : of_option e o = Ok a <-> o = Some a.
Proof. destruct o; naive_solver. Qed.

(** A run of [gbind m k] whose first part is known. *)
Lemma gbind_run {S A B} (m : GoM S A) (k : A -> GoM S B) s s1 a :
  m s = (s1, Ok a) -> gbind m k s = k a s1.
Proof. unfold gbind. by intros ->. Qed.

(** [ginv] takes apart every successful (or failing) run in the context. *)
Ltac ginv :=
  repeat match goal with
  | H : result_bind _ _ = Ok _ |- _ => apply result_bind_Ok in H as (?&?&?)
  | H : wrapf _ _ = Ok _ |- _ => apply wrapf_Ok in H
  | H : of_option _ _ = Ok _ |- _ => apply of_option_Ok in H
  | H : gbind _ _ _ = (_, Ok _) |- _ => apply gbind_Ok in H as (?&?&?&?)
  | H : gwrap _ _ _ = (_, Ok _) |- _ => apply gwrap_Ok in H
  | H : gwrap _ _ _ = (_, Err _) |- _ => apply gwrap_Err in H as (?&?&?)
  | H : gret _ _ = _ |- _ => unfold gret in H
  | H : gfail _ _ = _ |- _ => unfold gfail in H
  | H : glift _ _ = _ |- _ => unfold glift in H
  | H : gread _ _ = _ |- _ => unfold gread in H
  | p : _ * _ |- _ => destruct p
  | _ => progress simplify_eq/=
  end.

(** Case analysis on the innermost [match]/[if] of a hypothesis or the goal. *)
Ltac gcase H :=
  match type of H with
  | context [match ?x with _ => _ end] =>
      lazymatch x with
      | context [match _ with _ => _ end] => fail
      | _ => destruct x eqn:?
      end
  end.

(** * Machine integers *)

Definition u32 (z : Z) : Z := z mod 2 ^ 32.
Definition u64 (z : Z) : Z := z mod 2 ^ 64.
Definition i32 (z : Z) : Z := (z + 2 ^ 31) mod 2 ^ 32 - 2 ^ 31.
Definition i64 (z : Z) : Z := (z + 2 ^ 63) mod 2 ^ 64 - 2 ^ 63.
Definition MaxInt32 : Z := 2 ^ 31 - 1.
Definition MaxInt64 : Z := 2 ^ 63 - 1.
Definition MinInt64 : Z := - 2 ^ 63.

Definition in_u32 (z : Z) : Prop := 0 <= z < 2 ^ 32.
Definition in_i32 (z : Z) : Prop := - 2 ^ 31 <= z < 2 ^ 31.
Definition in_i64 (z : Z) : Prop := - 2 ^ 63 <= z < 2 ^ 63.

Lemma u32_range z : in_u32 (u32 z).
Proof. apply Z.mod_pos_bound. lia. Qed.

Lemma u32_small z : in_u32 z -> u32 z = z.
Proof. apply Z.mod_small. Qed.

Lemma i32_small z : in_i32 z -> i32 z = z.
Proof. unfold in_i32, i32. intros. rewrite Z.mod_small; lia. Qed.

Lemma i64_small z : in_i64 z -> i64 z = z.
Proof. unfold in_i64, i64. intros. rewrite Z.mod_small; lia. Qed.

(** [flags &^ mask] on uint32. *)
Definition andnot (flags mask : Z) : Z := Z.ldiff flags mask.

(** [flags & mask != 0]. *)
Definition has_bits (flags mask : Z) : bool := negb (Z.land flags mask =? 0).

(** * Time

    [time.Time] is a number of nanoseconds since the Unix epoch and
    [time.Duration] an int64 number of nanoseconds; [Time.Sub] saturates at
    the int64 bounds as the standard library does. *)

Definition Second : Z := 1000000000.
Definition Minute : Z := 60 * Second.
Definition Hour : Z := 60 * Minute.
Definition time_unix (sec : Z) : Z := sec * Second.
Definition unix_of (t : Z) : Z := t / Second.
Definition time_sub (a b : Z) : Z := Z.max MinInt64 (Z.min MaxInt64 (a - b)).
Definition time_add (t d : Z) : Z := t + d.

Lemma time_sub_gt a b w : in_i64 w -> w < MaxInt64 -> (w < time_sub a b <-> w < a - b).
Proof. unfold time_sub, in_i64, MaxInt64, MinInt64. lia. Qed.

(** * Generic list lemmas *)

Create HintDb bongo.

Lemma filter_length_le {A} (P : A -> Prop) `{!forall x, Decision (P x)} (l : list A) :
  (length (filter P l) <= length l)%nat.
Proof. apply length_filter. Qed.

Lemma Forall_filter_intro {A} (P Q : A -> Prop) `{!forall x, Decision (P x)} (l : list A) :
  Forall Q l -> Forall Q (filter P l).
Proof. rewrite !Forall_forall. intros Hall x ?%list_elem_of_filter. naive_solver. Qed.

Lemma filter_all {A} (P : A -> Prop) `{!forall x, Decision (P x)} (l : list A) :
  Forall P l -> filter P l = l.
Proof. induction 1; [done|]. rewrite filter_cons_True; congruence. Qed.

(** * Stable sorting *)

(** [sort.SliceStable]: the stable sort by a strict weak order. *)
Fixpoint insert_stable {A} (less : A -> A -> bool) (x : A) (l : list A) : list A :=
  match l with
  | [] => [x]
  | y :: l' => if less y x then y :: insert_stable less x l' else x :: y :: l'
  end.
Definition SliceStable {A} (less : A -> A -> bool) (l : list A) : list A :=
  foldr (insert_stable less) [] l.

Section Sorting.
Context {A : Type} (less : A -> A -> bool).
Hypothesis less_asym : forall a b, less a b = true -> less b a = false.
Hypothesis less_trans : forall a b c, less b a = false -> less c b = false -> less c a = false.

Lemma insert_stable_Permutation x l : insert_stable less x l ≡ₚ x :: l.
Proof.
  induction l as [|y l IH]; cbn; [done|]. case_match; [|done]. rewrite IH. apply Permutation_swap.
Qed.

Lemma SliceStable_Permutation l : SliceStable less l ≡ₚ l.
Proof.
  induction l as [|x l IH]; [done|]. unfold SliceStable in *. cbn. by rewrite insert_stable_Permutation, IH.
Qed.

Lemma insert_stable_sorted x l :
  StronglySorted (fun a b => less b a = false) l -> StronglySorted (fun a b => less b a = false) (insert_stable less x l).
Proof.
  induction 1 as [|y l Hs IH Hall]; cbn; [by repeat constructor|]. destruct (less y x) eqn:E.
  - constructor; [done|]. rewrite insert_stable_Permutation. constructor; [by apply less_asym|done].
  - constructor; [by constructor|]. constructor; [done|]. eapply Forall_impl; [done|]. cbn. eauto.
Qed.

Lemma SliceStable_sorted l : StronglySorted (fun a b => less b a = false) (SliceStable less l).
Proof.
  induction l as [|x l IH]; [constructor|]. unfold SliceStable in *. cbn. by apply insert_stable_sorted.
Qed.
End Sorting.
