(* ===== verification/GoStrings.v ===== *)
(** Go strings: byte strings, the [strings] and [strconv] functions the source
    uses, decimal formatting, and the lexicographic key order of the store. *)

From S2P Require Import Prelude.
From Stdlib Require Import Ascii.

(** * Bytes *)

Definition byte_of (c : ascii) : Z := Z.of_N (N_of_ascii c).
Definition char_of (z : Z) : ascii := ascii_of_N (Z.to_N z).

Definition in_range (lo hi : Z) (c : ascii) : bool :=
  (lo <=? byte_of c) && (byte_of c <=? hi).
Definition is_digit (c : ascii) : bool := in_range 48 57 c.
Definition is_upper (c : ascii) : bool := in_range 65 90 c.
Definition is_lower (c : ascii) : bool := in_range 97 122 c.

Definition lower_char (c : ascii) : ascii := if is_upper c then char_of (byte_of c + 32) else c.
Definition upper_char (c : ascii) : ascii := if is_lower c then char_of (byte_of c - 32) else c.

(** ASCII white space as [strings.TrimSpace] sees it. *)
Definition is_space (c : ascii) : bool := in_range 9 13 c || (byte_of c =? 32).

Fixpoint str_all (p : ascii -> bool) (s : string) : bool :=
  match s with "" => true | String c s' => p c && str_all p s' end.
Fixpoint str_map (f : ascii -> ascii) (s : string) : string :=
  match s with "" => "" | String c s' => String (f c) (str_map f s') end.
Definition has_char (c : ascii) (s : string) : bool := negb (str_all (fun x => negb (Ascii.eqb x c)) s).
Definition is_ascii (s : string) : bool := str_all (fun c => byte_of c <? 128) s.

(** [s[n:]] and [s[:n]] within bounds. *)
Fixpoint str_drop (n : nat) (s : string) : string :=
  match n, s with O, _ => s | S n, "" => "" | S n, String _ s' => str_drop n s' end.
Fixpoint str_take (n : nat) (s : string) : string :=
  match n, s with O, _ => "" | S n, "" => "" | S n, String c s' => String c (str_take n s') end.
Definition len (s : string) : Z := Z.of_nat (String.length s).

(** * The [strings] package

    Go's [ToLower], [TrimSpace] and [EqualFold] have an ASCII path, written out
    here, and a Unicode path for inputs with a byte above 127.  The Unicode
    tables are not part of this development: the second path is a parameter. *)

Class GoUnicode := {
  uni_lower : string -> string;
  uni_upper : string -> string;
  uni_trim : string -> string;
  uni_fold : string -> string -> bool;
}.

(** A concrete instance for evaluation: non-ASCII bytes are left alone. *)
Definition bytewise_unicode : GoUnicode :=
  {| uni_lower s := str_map lower_char s;
     uni_upper s := str_map upper_char s;
     uni_trim s := s;
     uni_fold s t := String.eqb (str_map lower_char s) (str_map lower_char t) |}.

Fixpoint trim_left (p : ascii -> bool) (s : string) : string :=
  match s with
  | "" => ""
  | String c s' => if p c then trim_left p s' else s
  end.
(** [strings.TrimRight]-style trimming: drop the longest suffix of [p] bytes. *)
Fixpoint trim_right (p : ascii -> bool) (s : string) : string :=
  match s with
  | "" => ""
  | String c s' =>
      match trim_right p s' with
      | "" => if p c then "" else String c ""
      | t => String c t
      end
  end.

Section Unicode.
Context `{GoUnicode}.

Definition ToLower (s : string) : string :=
  if is_ascii s then str_map lower_char s else uni_lower s.
Definition ToUpper (s : string) : string :=
  if is_ascii s then str_map upper_char s else uni_upper s.
Definition TrimSpace (s : string) : string :=
  if is_ascii s then trim_right is_space (trim_left is_space s) else uni_trim s.
Definition EqualFold (s t : string) : bool :=
  if is_ascii s && is_ascii t
  then String.eqb (str_map lower_char s) (str_map lower_char t)
  else uni_fold s t.

End Unicode.

Definition HasPrefix (s p : string) : bool := String.prefix p s.
Definition TrimPrefix (s p : string) : string :=
  if HasPrefix s p then str_drop (String.length p) s else s.
Definition HasSuffix (s p : string) : bool :=
  (String.length p <=? String.length s)%nat &&
  String.eqb (str_drop (String.length s - String.length p) s) p.
Definition TrimSuffix (s p : string) : string :=
  if HasSuffix s p then str_take (String.length s - String.length p) s else s.

(** [strings.Cut]: split at the first occurrence of [sep]. *)
Fixpoint Cut (s sep : string) : option (string * string) :=
  if String.prefix sep s then Some ("", str_drop (String.length sep) s)
  else match s with
       | "" => None
       | String c s' => match Cut s' sep with
                        | Some (a, b) => Some (String c a, b)
                        | None => None
                        end
       end.
Definition Contains (s sub : string) : bool :=
  match Cut s sub with Some _ => true | None => false end.

(** [strings.SplitN(s, sep, n)] for [n >= 1], and [strings.Split] (a string of
    length [l] has at most [l] occurrences of a non-empty separator). *)
Fixpoint SplitN (s sep : string) (n : nat) : list string :=
  match n with
  | O => []
  | S O => [s]
  | S n' => match Cut s sep with
            | Some (a, b) => a :: SplitN b sep n'
            | None => [s]
            end
  end.
Definition Split (s sep : string) : list string := SplitN s sep (S (String.length s)).
(** [strings.Count] for a non-empty [sep]. *)
Definition Count (s sep : string) : Z := Z.of_nat (length (Split s sep)) - 1.
Fixpoint Join (l : list string) (sep : string) : string :=
  match l with
  | [] => ""
  | [x] => x
  | x :: l' => x +:+ sep +:+ Join l' sep
  end.

(** [strings.LastIndexByte]: the parts before and after the last [c]. *)
Fixpoint CutLast (s : string) (c : ascii) : option (string * string) :=
  match s with
  | "" => None
  | String x s' =>
      match CutLast s' c with
      | Some (a, b) => Some (String x a, b)
      | None => if Ascii.eqb x c then Some ("", s') else None
      end
  end.

(** * Decimal numbers *)

Definition digit (d : Z) : ascii := char_of (48 + d).
Fixpoint dec_go (fuel : nat) (z : Z) (acc : string) : string :=
  match fuel with
  | O => acc
  | S f => let acc' := String (digit (z mod 10)) acc in
           if z <? 10 then acc' else dec_go f (z / 10) acc'
  end.
(** The decimal digits of [z >= 0]; the fuel exceeds the number of digits. *)
Definition digits (z : Z) : string := dec_go (S (Z.to_nat (Z.log2 z))) z "".
(** [strconv.FormatInt(z, 10)], [%d]. *)
Definition FormatInt (z : Z) : string :=
  if z <? 0 then "-" +:+ digits (- z) else digits z.

Fixpoint zeros (n : nat) : string := match n with O => "" | S n => String (digit 0) (zeros n) end.
Definition pad0 (w : nat) (s : string) : string := zeros (w - String.length s) +:+ s.
(** [%0wd]: zero padding to width [w], the sign counted in the width. *)
Definition fmt_0d (w : nat) (z : Z) : string :=
  if z <? 0 then "-" +:+ pad0 (w - 1) (digits (- z)) else pad0 w (digits z).

(** [strconv.ParseInt(s, 10, 64)] and [strconv.Atoi]: an optional sign, at
    least one digit, digits only, and a value within int64. *)
Fixpoint parse_digits (s : string) (acc : Z) : option Z :=
  match s with
  | "" => Some acc
  | String c s' => if is_digit c then parse_digits s' (acc * 10 + (byte_of c - 48)) else None
  end.
Definition parse_nat (s : string) : option Z :=
  match s with "" => None | _ => parse_digits s 0 end.
Definition ParseInt (s : string) : option Z :=
  let signed := match s with
                | String "-" s' => option_map Z.opp (parse_nat s')
                | String "+" s' => parse_nat s'
                | _ => parse_nat s
                end in
  match signed with
  | Some z => if (MinInt64 <=? z) && (z <=? MaxInt64) then Some z else None
  | None => None
  end.

(** The fixed-width form that [%0wd] takes on numbers that fit. *)
Fixpoint dec_fixed (w : nat) (z : Z) (acc : string) : string :=
  match w with
  | O => acc
  | S w => dec_fixed w (z / 10) (String (digit (z mod 10)) acc)
  end.

(** * Big-endian integers, [encoding/binary] *)

Fixpoint be_put (w : nat) (n : Z) : string :=
  match w with
  | O => ""
  | S w' => String (char_of (n / 256 ^ Z.of_nat w' mod 256)) (be_put w' n)
  end.
Fixpoint be_get (acc : Z) (s : string) : Z :=
  match s with "" => acc | String c s' => be_get (acc * 256 + byte_of c) s' end.

(** * Lemmas on append, prefixes and cuts *)

Lemma app_nil_l' (s : string) : "" +:+ s = s.
Proof. done. Qed.

Lemma app_cons' c (s t : string) : String c s +:+ t = String c (s +:+ t).
Proof. done. Qed.

Lemma str_app_nil_r (s : string) : s +:+ "" = s.
Proof. induction s; [done|]. rewrite app_cons'. congruence. Qed.

Lemma str_app_assoc (a b c : string) : (a +:+ b) +:+ c = a +:+ (b +:+ c).
Proof. induction a; [done|]. rewrite !app_cons'. congruence. Qed.

Lemma str_app_inv_head (a b c : string) : a +:+ b = a +:+ c -> b = c.
Proof. apply (inj _). Qed.

Lemma str_length_app (a b : string) :
  String.length (a +:+ b) = (String.length a + String.length b)%nat.
Proof. induction a; [done|]. rewrite app_cons'. cbn. congruence. Qed.

Lemma str_app_inj_len (a b c d : string) :
  String.length a = String.length c -> a +:+ b = c +:+ d -> a = c /\ b = d.
Proof.
  revert c. induction a as [|x a IH]; intros [|y c] Hl; try done.
  rewrite !app_cons'. intros [= -> Heq]. cbn in Hl.
  destruct (IH c) as [-> ->]; auto.
Qed.

Lemma str_app_inj_len_r (a b c d : string) :
  String.length b = String.length d -> a +:+ b = c +:+ d -> a = c /\ b = d.
Proof.
  intros Hl Heq. apply str_app_inj_len; [|done].
  apply (f_equal String.length) in Heq. rewrite !str_length_app in Heq. lia.
Qed.

Lemma str_drop_app (a b : string) : str_drop (String.length a) (a +:+ b) = b.
Proof. induction a; [done|]. rewrite app_cons'. done. Qed.

Lemma str_take_app (a b : string) : str_take (String.length a) (a +:+ b) = a.
Proof. induction a; [done|]. rewrite app_cons'. cbn. congruence. Qed.

Lemma prefix_app (a b : string) : String.prefix a (a +:+ b) = true.
Proof.
  induction a as [|c a IH]; [by destruct b|]. rewrite app_cons'. cbn.
  destruct (ascii_dec c c); [done|congruence].
Qed.

Lemma prefix_spec (p s : string) : String.prefix p s = true <-> exists r, s = p +:+ r.
Proof.
  split; [|intros [r ->]; apply prefix_app].
  revert s. induction p as [|c p IH]; intros s Hp; [by exists s|].
  destruct s as [|d s]; cbn in Hp; [done|].
  destruct (ascii_dec c d) as [->|]; [|done].
  destruct (IH _ Hp) as [r ->]. by exists r.
Qed.

Lemma prefix_refl s : String.prefix s s = true.
Proof. rewrite <- (str_app_nil_r s) at 2. apply prefix_app. Qed.

Lemma TrimPrefix_app p s : TrimPrefix (p +:+ s) p = s.
Proof. unfold TrimPrefix, HasPrefix. by rewrite prefix_app, str_drop_app. Qed.

Lemma has_char_cons c x s : has_char c (String x s) = Ascii.eqb x c || has_char c s.
Proof. unfold has_char. cbn. rewrite negb_andb, negb_involutive. done. Qed.

Lemma has_char_app c s t : has_char c (s +:+ t) = has_char c s || has_char c t.
Proof.
  induction s as [|x s IH]; [done|]. rewrite app_cons', !has_char_cons, IH.
  by rewrite orb_assoc.
Qed.

(** Cutting at a one-byte separator that the first part does not contain. *)
Lemma Cut_char c a b :
  has_char c a = false -> Cut (a +:+ String c "" +:+ b) (String c "") = Some (a, b).
Proof.
  induction a as [|x a IH]; intros Ha.
  - change (Cut (String c b) (String c "") = Some ("", b)). cbn.
    destruct (ascii_dec c c); [|done]. by destruct b.
  - rewrite has_char_cons in Ha. apply orb_false_iff in Ha as [Hx Ha].
    rewrite app_cons'. cbn. destruct (ascii_dec c x) as [->|].
    + by rewrite Ascii.eqb_refl in Hx.
    + by rewrite IH.
Qed.

Lemma Cut_None_char c a : has_char c a = false -> Cut a (String c "") = None.
Proof.
  induction a as [|x a IH]; intros Ha; [done|].
  rewrite has_char_cons in Ha. apply orb_false_iff in Ha as [Hx Ha].
  cbn. destruct (ascii_dec c x) as [->|]; [by rewrite Ascii.eqb_refl in Hx|].
  by rewrite IH.
Qed.

(** What [Cut] returns when it succeeds, and that it fails only without [sep]. *)
Lemma Cut_Some s sep a b : Cut s sep = Some (a, b) -> s = a +:+ sep +:+ b.
Proof.
  revert a b. induction s as [|c s IH]; intros a b; cbn [Cut].
  - destruct sep; [|done]. cbn. intros Heq. by simplify_eq.
  - destruct (String.prefix sep (String c s)) eqn:Hp.
    + intros Heq. simplify_eq. apply prefix_spec in Hp as [r Hr].
      rewrite Hr, str_drop_app. done.
    + destruct (Cut s sep) as [[a' b']|]; [|done].
      intros Heq. simplify_eq. rewrite app_cons'. f_equal. by apply IH.
Qed.

Lemma Cut_app_Some a sep b : exists x y, Cut (a +:+ sep +:+ b) sep = Some (x, y).
Proof.
  induction a as [|c a IH].
  - rewrite app_nil_l'. pose proof (prefix_app sep b) as Hp.
    destruct (sep +:+ b); cbn [Cut]; rewrite Hp; eauto.
  - rewrite app_cons'. cbn [Cut].
    destruct (String.prefix sep _); [eauto|]. destruct IH as (x&y&->). eauto.
Qed.

Lemma CutLast_None c s : has_char c s = false -> CutLast s c = None.
Proof.
  induction s as [|x s IH]; [done|]. rewrite has_char_cons.
  intros [Hx Hs]%orb_false_iff. cbn. by rewrite IH, Hx.
Qed.

Lemma CutLast_app a c b :
  has_char c b = false -> CutLast (a +:+ String c "" +:+ b) c = Some (a, b).
Proof.
  intros Hb. induction a as [|x a IH].
  - change (CutLast (String c b) c = Some ("", b)). cbn [CutLast].
    rewrite CutLast_None by done. by rewrite Ascii.eqb_refl.
  - rewrite app_cons'. cbn [CutLast]. by rewrite IH.
Qed.

Lemma Join_SplitN s sep n : Join (SplitN s sep (S n)) sep = s.
Proof.
  revert s. induction n as [|n IH]; intros s; [done|]. cbn [SplitN].
  destruct (Cut s sep) as [[a b]|] eqn:E; [|done]. apply Cut_Some in E as ->.
  specialize (IH b). cbn [SplitN] in IH |- *. cbn [Join].
  match goal with |- context [match ?l with [] => _ | _ => _ end] => destruct l as [|x l'] eqn:El end; [|by rewrite IH].
  destruct n; [done|]. by destruct (Cut b sep) as [[]|].
Qed.

Lemma SplitN_2_char c a b :
  has_char c a = false -> SplitN (a +:+ String c "" +:+ b) (String c "") 2 = [a; b].
Proof. intros Ha. cbn [SplitN]. by rewrite Cut_char. Qed.

(** * Lemmas on decimal formatting *)

Lemma digit_compare x y :
  0 <= x < 10 -> 0 <= y < 10 -> Ascii.compare (digit x) (digit y) = (x ?= y).
Proof.
  intros Hx Hy.
  assert (x = 0 \/ x = 1 \/ x = 2 \/ x = 3 \/ x = 4 \/ x = 5 \/ x = 6 \/ x = 7 \/ x = 8 \/ x = 9)
    as Ex by lia.
  assert (y = 0 \/ y = 1 \/ y = 2 \/ y = 3 \/ y = 4 \/ y = 5 \/ y = 6 \/ y = 7 \/ y = 8 \/ y = 9)
    as Ey by lia.
  by destruct_or!; subst.
Qed.

Lemma div10_bounds z w : 0 <= z < 10 ^ Z.of_nat (S w) -> 0 <= z / 10 < 10 ^ Z.of_nat w.
Proof.
  rewrite Nat2Z.inj_succ, Z.pow_succ_r by lia. intros. split.
  - apply Z.div_pos; lia.
  - apply Z.div_lt_upper_bound; lia.
Qed.

Lemma dec_fixed_length w z acc : String.length (dec_fixed w z acc) = (w + String.length acc)%nat.
Proof. revert z acc. induction w; intros; cbn [dec_fixed]; [done|]. rewrite IHw. cbn. lia. Qed.

Lemma dec_fixed_app w z acc : dec_fixed w z acc = dec_fixed w z "" +:+ acc.
Proof.
  revert z acc. induction w as [|w IH]; intros; cbn [dec_fixed]; [done|].
  rewrite IH, (IH _ (String _ "")), str_app_assoc. done.
Qed.

(** Fixed-width decimals compare as the numbers do, then by what follows. *)
Lemma dec_fixed_compare w a b s t :
  0 <= a < 10 ^ Z.of_nat w -> 0 <= b < 10 ^ Z.of_nat w ->
  String.compare (dec_fixed w a s) (dec_fixed w b t) =
  match a ?= b with Eq => String.compare s t | c => c end.
Proof.
  revert a b s t. induction w as [|w IH]; intros a b s t Ha Hb.
  - cbn in *. assert (a = 0) as -> by lia. assert (b = 0) as -> by lia. done.
  - cbn [dec_fixed]. rewrite IH by (by apply div10_bounds).
    pose proof (Z.mod_pos_bound a 10). pose proof (Z.mod_pos_bound b 10).
    pose proof (Z.div_mod a 10). pose proof (Z.div_mod b 10).
    cbn [String.compare]. rewrite digit_compare by lia.
    destruct (Z.compare_spec (a / 10) (b / 10)).
    + destruct (Z.compare_spec (a mod 10) (b mod 10)); destruct (Z.compare_spec a b); (lia || done).
    + destruct (Z.compare_spec a b); (lia || done).
    + destruct (Z.compare_spec a b); (lia || done).
Qed.

Lemma ascii_compare_refl c : Ascii.compare c c = Eq.
Proof. unfold Ascii.compare. apply N.compare_refl. Qed.

Lemma compare_refl s : String.compare s s = Eq.
Proof. induction s as [|c s IH]; [done|]. cbn. by rewrite ascii_compare_refl. Qed.

Lemma dec_fixed_inj w a b :
  0 <= a < 10 ^ Z.of_nat w -> 0 <= b < 10 ^ Z.of_nat w ->
  dec_fixed w a "" = dec_fixed w b "" -> a = b.
Proof.
  intros Ha Hb Heq. pose proof (dec_fixed_compare w a b "" "" Ha Hb) as Hc.
  rewrite Heq, compare_refl in Hc.
  destruct (Z.compare_spec a b); done.
Qed.

Lemma dec_fixed_zeros w k z acc :
  0 <= z < 10 ^ Z.of_nat k -> dec_fixed (w + k) z acc = zeros w +:+ dec_fixed k z acc.
Proof.
  revert z acc. induction k as [|k IH]; intros z acc Hz.
  - cbn in Hz. assert (z = 0) as -> by lia. rewrite Nat.add_0_r. cbn [dec_fixed].
    revert acc. induction w as [|w IHw]; intros acc; [done|]. cbn [dec_fixed].
    rewrite IHw. clear. change (0 mod 10) with 0. induction w as [|w IHw]; [done|].
    cbn [zeros]. rewrite !app_cons'. f_equal. exact IHw.
  - rewrite Nat.add_succ_r. cbn [dec_fixed]. apply IH. by apply div10_bounds.
Qed.

(** The digits produced by [dec_go] are the fixed-width form at the least width. *)
Lemma dec_go_fixed f z acc :
  0 <= z < 10 ^ Z.of_nat (S f) ->
  exists k, 0 <= z < 10 ^ Z.of_nat (S k) /\ (k = 0%nat \/ 10 ^ Z.of_nat k <= z) /\ dec_go (S f) z acc = dec_fixed (S k) z acc.
Proof.
  revert z acc. induction f as [|f IH]; intros z acc Hz.
  - exists 0%nat. split; [done|]. split; [by left|]. cbn [dec_go].
    destruct (Z.ltb_spec z 10); [done|]. change (10 ^ Z.of_nat 1) with 10 in Hz. lia.
  - cbn [dec_go]. destruct (Z.ltb_spec z 10).
    + exists 0%nat. change (10 ^ Z.of_nat 1) with 10. auto with lia.
    + destruct (IH (z / 10) (String (digit (z mod 10)) acc)) as (k&Hz'&Hmin&Heq);
        [by apply div10_bounds|].
      pose proof (Z.div_mod z 10). pose proof (Z.mod_pos_bound z 10).
      exists (S k). cbn [dec_go] in Heq. split.
      { rewrite (Nat2Z.inj_succ (S k)), Z.pow_succ_r by lia. lia. }
      split; [right|done].
      rewrite Nat2Z.inj_succ, Z.pow_succ_r by lia.
      destruct Hmin as [->|Hmin]; [change (10 ^ Z.of_nat 0) with 1; lia|lia].
Qed.

Lemma log2_fuel z : 0 <= z -> z < 10 ^ Z.of_nat (S (Z.to_nat (Z.log2 z))).
Proof.
  intros Hz. destruct (Z.eq_dec z 0) as [->|]; [done|].
  pose proof (Z.log2_nonneg z).
  rewrite Nat2Z.inj_succ, Z2Nat.id by lia.
  eapply Z.lt_le_trans; [apply Z.log2_spec; lia|].
  apply Z.pow_le_mono_l. lia.
Qed.

(** [%0wd] of a number that fits in [w] digits is its fixed-width form. *)
Lemma fmt_0d_fixed w z : (0 < w)%nat -> 0 <= z < 10 ^ Z.of_nat w -> fmt_0d w z = dec_fixed w z "".
Proof.
  intros Hw Hz. unfold fmt_0d. destruct (Z.ltb_spec z 0); [lia|].
  unfold pad0, digits.
  destruct (dec_go_fixed (Z.to_nat (Z.log2 z)) z "") as (k&Hk&Hmin&->).
  { split; [lia|]. apply log2_fuel. lia. }
  assert (S k <= w)%nat as Hle.
  { destruct Hmin as [->|Hmin]; [lia|].
    destruct (Nat.le_gt_cases w k); [|lia].
    assert (10 ^ Z.of_nat w <= 10 ^ Z.of_nat k) by (apply Z.pow_le_mono_r; lia). lia. }
  rewrite dec_fixed_length, Nat.add_0_r, <- dec_fixed_zeros by done.
  f_equal. lia.
Qed.

Lemma fmt_0d_length w z :
  (0 < w)%nat -> 0 <= z < 10 ^ Z.of_nat w -> String.length (fmt_0d w z) = w.
Proof. intros. rewrite fmt_0d_fixed, dec_fixed_length by done. apply Nat.add_0_r. Qed.

Lemma fmt_0d_inj w a b :
  (0 < w)%nat -> 0 <= a < 10 ^ Z.of_nat w -> 0 <= b < 10 ^ Z.of_nat w ->
  fmt_0d w a = fmt_0d w b -> a = b.
Proof. intros ? Ha Hb. rewrite !fmt_0d_fixed by done. by apply dec_fixed_inj. Qed.

(** [%q] on text without control or non-ASCII bytes: quotes and backslashes are
    escaped.  It only appears inside error texts. *)
Definition dquote : ascii := char_of 34.
Definition backslash : ascii := char_of 92.
Fixpoint quote_body (s : string) : string :=
  match s with
  | "" => String dquote ""
  | String c s' =>
      if Ascii.eqb c dquote || Ascii.eqb c backslash
      then String backslash (String c (quote_body s'))
      else String c (quote_body s')
  end.
Definition quote (s : string) : string := String dquote (quote_body s).

(** * The key order of the store: bytewise lexicographic *)

Definition str_lt (a b : string) : Prop := String.compare a b = Lt.

Lemma compare_app_head p a b : String.compare (p +:+ a) (p +:+ b) = String.compare a b.
Proof.
  induction p as [|c p IH]; [done|]. rewrite !app_cons'. cbn.
  by rewrite ascii_compare_refl.
Qed.

Lemma str_le_compare a b : String.le a b <-> String.compare a b <> Gt.
Proof. unfold String.le, String.leb. destruct (String.compare a b); naive_solver. Qed.

Lemma str_le_antisym a b : String.le a b -> String.le b a -> a = b.
Proof. apply (anti_symm String.le). Qed.

Lemma str_le_trans a b c : String.le a b -> String.le b c -> String.le a c.
Proof. apply (transitivity (R := String.le)). Qed.

Lemma str_lt_le a b : str_lt a b <-> String.le a b /\ a <> b.
Proof.
  rewrite str_le_compare. unfold str_lt. split.
  - intros Hlt. rewrite Hlt. split; [done|]. intros ->. by rewrite compare_refl in Hlt.
  - intros [Hle Hne]. destruct (String.compare a b) eqn:E; [|done|done].
    by apply String.compare_eq_iff in E.
Qed.

(** ** Cutting and character classes *)

Lemma str_drop_length n s : String.length (str_drop n s) = (String.length s - n)%nat.
Proof. revert s. induction n as [|n IH]; intros s; [cbn; lia|]. destruct s; cbn; [done|apply IH]. Qed.
Lemma str_take_length n s : String.length (str_take n s) = (n `min` String.length s)%nat.
Proof. revert s. induction n as [|n IH]; intros s; [done|]. destruct s; cbn; [done|]. by rewrite IH. Qed.
Lemma str_take_drop n s : str_take n s +:+ str_drop n s = s.
Proof.
  revert s. induction n as [|n IH]; intros s; [done|]. destruct s as [|c s]; [done|].
  cbn [str_take str_drop]. by rewrite app_cons', IH.
Qed.
Lemma has_char_take c n s : has_char c s = false -> has_char c (str_take n s) = false.
Proof. intros Hs. rewrite <-(str_take_drop n s), has_char_app in Hs. by apply orb_false_iff in Hs as [? _]. Qed.
Lemma has_char_drop c n s : has_char c s = false -> has_char c (str_drop n s) = false.
Proof. intros Hs. rewrite <-(str_take_drop n s), has_char_app in Hs. by apply orb_false_iff in Hs as [_ ?]. Qed.
Lemma str_drop_drop a b s : str_drop b (str_drop a s) = str_drop (a + b) s.
Proof. revert s. induction a as [|a IH]; intros s; [done|]. destruct s; [by destruct b|]. apply IH. Qed.
Lemma str_drop_all n s : (String.length s <= n)%nat -> str_drop n s = "".
Proof. revert s. induction n as [|n IH]; intros [|c s] Hn; cbn in *; try done; [lia|]. apply IH. lia. Qed.
Lemma str_take_all n s : (String.length s <= n)%nat -> str_take n s = s.
Proof. revert s. induction n as [|n IH]; intros [|c s] Hn; cbn in *; try done; [lia|]. rewrite IH; [done|lia]. Qed.
Lemma str_all_app p s t : str_all p (s +:+ t) = str_all p s && str_all p t.
Proof. induction s as [|c s IH]; [done|]. rewrite app_cons'. cbn. by rewrite IH, andb_assoc. Qed.
Lemma str_all_impl (p q : ascii -> bool) s : (forall c, p c = true -> q c = true) -> str_all p s = true -> str_all q s = true.
Proof. intros Hpq. induction s as [|c s IH]; [done|]. cbn. intros [? ?]%andb_true_iff. rewrite Hpq, IH; done. Qed.
Lemma str_all_map p f s : (forall c, p (f c) = p c) -> str_all p (str_map f s) = str_all p s.
Proof. intros Hp. induction s as [|c s IH]; [done|]. cbn. by rewrite Hp, IH. Qed.

(** The first part of a cut holds no separator byte. *)
Lemma Cut_head_char c s a b : Cut s (String c "") = Some (a, b) -> has_char c a = false.
Proof.
  revert a b. induction s as [|x s IH]; intros a b; cbn; [done|]. destruct (ascii_dec c x) as [->|Hx].
  - destruct s; intros [= <- <-]; done.
  - destruct (Cut s (String c "")) as [[a' b']|]; [|done]. intros [= <- <-]. rewrite has_char_cons, (IH a' b') by done.
    destruct (Ascii.eqb_spec x c); [congruence|done].
Qed.

Lemma be_put_length w n : String.length (be_put w n) = w.
Proof. induction w; [done|]. cbn. by rewrite IHw. Qed.

(** Splitting at a byte. *)
Lemma SplitN_one c a n : has_char c a = false -> SplitN a (String c "") (S n) = [a].
Proof. intros Ha. destruct n; [done|]. cbn [SplitN]. by rewrite Cut_None_char. Qed.
Lemma SplitN_cons c a b n :
  has_char c a = false -> SplitN (a +:+ String c "" +:+ b) (String c "") (S (S n)) = a :: SplitN b (String c "") (S n).
Proof. intros Ha. cbn [SplitN]. by rewrite Cut_char. Qed.
(** The pieces of a whole split hold no separator. *)
Lemma SplitN_pieces c n s : (String.length s < n)%nat -> Forall (fun p => has_char c p = false) (SplitN s (String c "") n).
Proof.
  revert s. induction n as [|n IH]; intros s Hn; [lia|]. destruct n as [|n].
  - destruct s; [by repeat constructor|cbn in Hn; lia].
  - cbn [SplitN]. destruct (Cut s (String c "")) as [[a b]|] eqn:E.
    + constructor; [by eapply Cut_head_char|]. apply IH. apply Cut_Some in E as ->. rewrite !str_length_app in Hn. cbn [String.length] in Hn. lia.
    + repeat constructor. destruct (has_char c s) eqn:Hc; [|done]. exfalso. clear -E Hc. induction s as [|x s IHs]; [done|].
      rewrite has_char_cons in Hc. cbn in E. destruct (ascii_dec c x) as [->|Hx]; [by destruct s|].
      destruct (Ascii.eqb_spec x c); [congruence|]. destruct (Cut s (String c "")) as [[]|]; [done|]. by apply IHs.
Qed.
Lemma Split_pieces c s : Forall (fun p => has_char c p = false) (Split s (String c "")).
Proof. apply SplitN_pieces. lia. Qed.

(** Keys with the same prefix and a fixed-width number compare by number first. *)
Lemma fmt_0d_key_order w p a b s t :
  (0 < w)%nat -> 0 <= a < 10 ^ Z.of_nat w -> 0 <= b < 10 ^ Z.of_nat w ->
  String.le (p +:+ fmt_0d w a +:+ s) (p +:+ fmt_0d w b +:+ t) -> a <= b.
Proof.
  intros Hw Ha Hb. rewrite str_le_compare, compare_app_head, !fmt_0d_fixed by done.
  rewrite <- !dec_fixed_app, dec_fixed_compare by done.
  destruct (Z.compare_spec a b); (lia || done).
Qed.

#[export] Hint Rewrite str_app_assoc str_app_nil_r : gostr.

(** * Suffixes *)

Lemma HasSuffix_app a b : HasSuffix (a +:+ b) b = true.
Proof.
  unfold HasSuffix. rewrite str_length_app.
  replace (String.length a + String.length b - String.length b)%nat with (String.length a) by lia.
  rewrite str_drop_app, String.eqb_refl, andb_true_r. apply Nat.leb_le. lia.
Qed.

Lemma HasSuffix_inv s p : HasSuffix s p = true -> exists a, s = a +:+ p.
Proof.
  unfold HasSuffix. intros [_ E%String.eqb_eq]%andb_true_iff.
  exists (str_take (String.length s - String.length p) s). rewrite <- E at 2. by rewrite str_take_drop.
Qed.

Lemma TrimSuffix_app a b : TrimSuffix (a +:+ b) b = a.
Proof.
  unfold TrimSuffix. rewrite HasSuffix_app, str_length_app.
  replace (String.length a + String.length b - String.length b)%nat with (String.length a) by lia. apply str_take_app.
Qed.
Lemma Contains_char c s : Contains s (String c "") = has_char c s.
Proof.
  unfold Contains. destruct (has_char c s) eqn:Hc; [|by rewrite Cut_None_char].
  destruct (Cut s (String c "")) as [[a b]|] eqn:E; [done|]. exfalso. revert E Hc. induction s as [|x s IH]; [done|].
  rewrite has_char_cons. cbn [Cut]. replace (String.prefix (String c "") (String x s)) with (Ascii.eqb x c).
  - destruct (Ascii.eqb x c); [done|]. cbn. destruct (Cut s (String c "")) as [[? ?]|]; [done|]. auto.
  - cbn. rewrite Ascii.eqb_sym. destruct (Ascii.eqb_spec c x) as [->|]; [by destruct (ascii_dec x x), s|by destruct (ascii_dec c x)].
Qed.
