(* ===== verification/Pebble.v ===== *)
(** The key-value store: [internal/store/pebble.go].

    [github.com/cockroachdb/pebble] is a library the source calls.  It is the
    parameter [PebbleDB]: point reads, iterators over a key range, and atomic
    batches.  What the code relies on is the class [PebbleLaws], stated over
    the map [contents] that a database stores.  [MemDB] is a concrete database
    with injectable faults, used to evaluate the model. *)

From S2P Require Import Prelude GoStrings.
From Stdlib Require Import Ascii.

(** * The Pebble interface *)

Inductive batch_op : Type :=
| BSet (k v : string)
| BDelete (k : string)
| BDeleteRange (start stop : string).

Definition pebbleErrNotFound : err := Sentinel "pebble: not found".
Definition pebbleErrClosed : err := Sentinel "pebble: closed".

(** [store.ErrNotFound], declared by the store and unknown to Pebble. *)
Definition ErrNotFound : err := Sentinel "key not found".

Class PebbleDB (DB : Type) := {
  db_get : DB -> string -> result string;
  (** [NewIter] over [[lo, hi)], [hi = None] meaning no upper bound: the keys
      in order, each with the outcome of [ValueAndErr]. *)
  db_iter : DB -> string -> option string -> result (list (string * result string));
  (** [Batch.Commit(pebble.Sync)]; [db.Set] and [db.Delete] are batches of one. *)
  db_commit : DB -> list batch_op -> DB * option err;
}.

(** The range an iterator covers. *)
Definition in_bounds (lo : string) (hi : option string) (k : string) : Prop :=
  String.le lo k /\ match hi with None => True | Some h => str_lt k h end.

#[global] Instance str_lt_dec a b : Decision (str_lt a b).
Proof. unfold str_lt. solve_decision. Defined.
#[global] Instance in_bounds_dec lo hi k : Decision (in_bounds lo hi k).
Proof. unfold in_bounds. destruct hi; solve_decision. Defined.

Definition apply_op (o : batch_op) (m : gmap string string) : gmap string string :=
  match o with
  | BSet k v => <[k := v]> m
  | BDelete k => delete k m
  | BDeleteRange a b => filter (fun kv => ~ in_bounds a (Some b) kv.1) m
  end.
Definition apply_batch (b : list batch_op) (m : gmap string string) : gmap string string :=
  foldl (fun m o => apply_op o m) m b.

(** The entries of a map within bounds, in key order. *)
Definition key_le (p q : string * string) : Prop := String.le p.1 q.1.
#[global] Instance key_le_dec p q : Decision (key_le p q).
Proof. unfold key_le. apply _. Defined.
#[global] Instance key_le_total : Total key_le.
Proof. intros p q. apply (total String.le). Qed.
#[global] Instance key_le_trans : Transitive key_le.
Proof. intros p q r. apply str_le_trans. Qed.

Definition range (lo : string) (hi : option string) (m : gmap string string) : list (string * string) :=
  merge_sort key_le (filter (fun kv => in_bounds lo hi kv.1) (map_to_list m)).

(** What the code relies on.  [healthy] databases report no I/O fault. *)
Class PebbleLaws (DB : Type) `{PebbleDB DB} := {
  contents : DB -> gmap string string;
  healthy : DB -> Prop;
  db_get_ok d k v : db_get d k = Ok v -> contents d !! k = Some v;
  db_get_absent d k e :
    db_get d k = Err e -> errors_is e pebbleErrNotFound = true -> contents d !! k = None;
  db_get_foreign d k e : db_get d k = Err e -> errors_is e ErrNotFound = false;
  db_get_healthy d k :
    healthy d -> db_get d k = of_option pebbleErrNotFound (contents d !! k);
  db_iter_sound d lo hi l k v :
    db_iter d lo hi = Ok l -> (k, Ok v) ∈ l -> contents d !! k = Some v /\ in_bounds lo hi k;
  db_iter_healthy d lo hi :
    healthy d ->
    db_iter d lo hi = Ok ((fun kv => (kv.1, Ok kv.2)) <$> range lo hi (contents d));
  db_commit_ok d b d' : db_commit d b = (d', None) -> contents d' = apply_batch b (contents d);
  db_commit_err d b d' e : db_commit d b = (d', Some e) -> contents d' = contents d;
  db_commit_healthy d b : healthy d -> exists d', db_commit d b = (d', None) /\ healthy d';
}.

(** * PebbleStore *)

Section Store.
Context {DB : Type} `{PebbleDB DB}.

Definition Get (s : DB) (key : string) : result string :=
  match db_get s key with
  | Ok v => Ok v
  | Err e => if errors_is e pebbleErrNotFound then Err ErrNotFound
             else Err (Wrap "pebble get" e)
  end.

Definition commit (b : list batch_op) : GoM DB unit :=
  fun s => match db_commit s b with
           | (s', None) => (s', Ok tt)
           | (s', Some e) => (s', Err e)
           end.

Definition Set_ (key value : string) : GoM DB unit :=
  gwrap "pebble set" (commit [BSet key value]).

Definition Delete (key : string) : GoM DB unit :=
  gwrap "pebble delete" (commit [BDelete key]).

(** [prefixUpperBound] and [keySuccessor]: increment the last byte below 0xFF
    and cut what follows; [None] (nil) when there is none. *)
Fixpoint prefixUpperBound (p : string) : option string :=
  match p with
  | "" => None
  | String c p' =>
      match prefixUpperBound p' with
      | Some u => Some (String c u)
      | None => if byte_of c <? 255 then Some (String (char_of (byte_of c + 1)) "") else None
      end
  end.
Definition keySuccessor (key : string) : option string := prefixUpperBound key.

Definition PrefixScan (s : DB) (prefix : string) : result (list (string * result string)) :=
  wrapf "pebble prefix scan" (db_iter s prefix (prefixUpperBound prefix)).

(** [pebbleIterator.Value]. *)
Definition iter_value (v : result string) : result string := wrapf "pebble iterator value" v.

Definition LastKeyWithPrefix (s : DB) (prefix : string) : result (option string) :=
  let? l := wrapf "pebble last key scan" (db_iter s prefix (prefixUpperBound prefix)) in
  Ok (fst <$> last l).

Definition DeleteRange (start stop : string) : GoM DB unit :=
  match keySuccessor stop with
  | Some upper => gwrap "pebble delete range" (commit [BDeleteRange start upper])
  | None => fun s =>
      match db_iter s start None with
      | Err e => (s, Err (Wrap "pebble delete range scan" e))
      | Ok l => foldl (fun (m : GoM DB unit) kv =>
                  let! _ := m in gwrap "pebble delete range key" (commit [BDelete kv.1]))
                  (gret tt) l s
      end
  end.

(** [commitSyncBatch] (mailbox.go): run the batch builder, then commit all of
    it or nothing.  A builder fails before anything is written. *)
Definition commitSyncBatch (fn : result (list batch_op)) : GoM DB unit :=
  let! b := glift fn in
  gwrap "committing mailbox batch" (commit b).

End Store.

(** * Facts about batches and ranges *)

Lemma elem_of_range lo hi m k v :
  (k, v) ∈ range lo hi m <-> m !! k = Some v /\ in_bounds lo hi k.
Proof.
  unfold range. rewrite merge_sort_Permutation, list_elem_of_filter, elem_of_map_to_list.
  naive_solver.
Qed.

Lemma range_sorted lo hi m : StronglySorted key_le (range lo hi m).
Proof. apply StronglySorted_merge_sort; apply _. Qed.

Lemma range_NoDup lo hi m : NoDup (range lo hi m).*1.
Proof.
  unfold range. rewrite merge_sort_Permutation.
  pose proof (NoDup_fst_map_to_list m) as Hnd.
  induction (map_to_list m) as [|kv l IH]; [done|].
  apply NoDup_cons in Hnd as [Hn Hnd]. rewrite filter_cons. case_decide; [|auto].
  cbn. apply NoDup_cons. split; [|auto].
  intros ([k' v']&Hk&[_ Hin]%list_elem_of_filter)%list_elem_of_fmap.
  apply Hn, list_elem_of_fmap. eauto.
Qed.

Lemma byte_of_range c : 0 <= byte_of c < 256.
Proof. unfold byte_of. pose proof (N_ascii_bounded c). lia. Qed.

Lemma byte_char z : 0 <= z < 256 -> byte_of (char_of z) = z.
Proof. intros. unfold byte_of, char_of. rewrite N_ascii_embedding; lia. Qed.

Lemma char_of_byte c : char_of (byte_of c) = c.
Proof. unfold char_of, byte_of. rewrite N2Z.id. apply ascii_N_embedding. Qed.

Lemma byte_inj c d : byte_of c = byte_of d -> c = d.
Proof.
  unfold byte_of. intros Heq%N2Z.inj.
  rewrite <- (ascii_N_embedding c), <- (ascii_N_embedding d). congruence.
Qed.

Lemma compare_byte c d : Ascii.compare c d = (byte_of c ?= byte_of d).
Proof. unfold Ascii.compare, byte_of. by rewrite N2Z.inj_compare. Qed.

Lemma str_le_nil_r s : String.le s "" <-> s = "".
Proof. rewrite str_le_compare. destruct s; cbn; naive_solver. Qed.

Lemma str_le_cons c s d t :
  String.le (String c s) (String d t) <->
  byte_of c < byte_of d \/ (c = d /\ String.le s t).
Proof.
  rewrite !str_le_compare. cbn. rewrite compare_byte.
  destruct (Z.compare_spec (byte_of c) (byte_of d)) as [Heq|Hlt|Hgt].
  - apply byte_inj in Heq as ->. split; [by right|]. intros [|[_ ?]]; [lia|done].
  - split; [by left|done].
  - split; [done|]. intros [|[-> _]]; lia.
Qed.

Lemma str_lt_cons c s d t :
  str_lt (String c s) (String d t) <->
  byte_of c < byte_of d \/ (c = d /\ str_lt s t).
Proof.
  unfold str_lt. cbn. rewrite compare_byte.
  destruct (Z.compare_spec (byte_of c) (byte_of d)) as [Heq|Hlt|Hgt].
  - apply byte_inj in Heq as ->. split; [by right|]. intros [|[_ ?]]; [lia|done].
  - split; [by left|done].
  - split; [done|]. intros [|[-> _]]; lia.
Qed.

Lemma str_lt_nil_r s : ~ str_lt s "".
Proof. unfold str_lt. by destruct s. Qed.

Lemma prefix_cons c p d k :
  String.prefix (String c p) (String d k) = true <-> c = d /\ String.prefix p k = true.
Proof. cbn. destruct (ascii_dec c d); naive_solver. Qed.

(** The half-open range of a prefix scan holds exactly the keys with the prefix. *)
Lemma prefix_bounds p k :
  in_bounds p (prefixUpperBound p) k <-> String.prefix p k = true.
Proof.
  revert k. induction p as [|c p IH]; intros k.
  { split; [by destruct k|]. intros _. split; [by destruct k|done]. }
  destruct k as [|d k].
  { split; [|done]. intros [Hle _]. by apply str_le_nil_r in Hle. }
  rewrite prefix_cons, <- IH. unfold in_bounds. rewrite str_le_cons.
  cbn [prefixUpperBound]. pose proof (byte_of_range c). pose proof (byte_of_range d).
  destruct (prefixUpperBound p) as [u|].
  - rewrite str_lt_cons. split; [|naive_solver].
    intros [[?|[-> ?]] [?|[? ?]]]; subst; (lia || naive_solver).
  - destruct (Z.ltb_spec (byte_of c) 255).
    + rewrite str_lt_cons, byte_char by lia. split.
      * intros [[?|[-> ?]] [?|[_ Hn]]]; try (by apply str_lt_nil_r in Hn); [|done].
        assert (byte_of d = byte_of c) by lia. lia.
      * intros (->&?&_). split; [by right|left; lia].
    + split; [|naive_solver]. intros [[?|[-> ?]] _]; [lia|done].
Qed.

Lemma apply_batch_app b1 b2 m : apply_batch (b1 ++ b2) m = apply_batch b2 (apply_batch b1 m).
Proof. apply foldl_app. Qed.

Lemma apply_batch_cons o b m : apply_batch (o :: b) m = apply_batch b (apply_op o m).
Proof. done. Qed.

(** Deleting a list of keys in one batch. *)
Lemma apply_deletes {A} (key : A -> string) (l : list A) m k :
  apply_batch (BDelete <$> (key <$> l)) m !! k =
  if decide (k ∈ key <$> l) then None else m !! k.
Proof.
  revert m. induction l as [|x l IH]; intros m; [done|].
  cbn -[decide]. fold (apply_batch (BDelete <$> (key <$> l)) (delete (key x) m)).
  rewrite IH. destruct (decide (k = key x)) as [->|Hne].
  - rewrite lookup_delete_eq. by repeat case_decide; try set_solver.
  - rewrite lookup_delete_ne by done. repeat case_decide; try set_solver; done.
Qed.

Section Laws.
Context {DB : Type} `{PebbleLaws DB}.

Lemma Get_Ok s k v : Get s k = Ok v -> contents s !! k = Some v.
Proof.
  unfold Get. destruct (db_get s k) eqn:E; [|by case_match].
  intros [= ->]. by apply db_get_ok.
Qed.

Lemma Get_NotFound s k e :
  Get s k = Err e -> errors_is e ErrNotFound = true -> contents s !! k = None.
Proof.
  unfold Get. destruct (db_get s k) as [|e'] eqn:E; [done|].
  destruct (errors_is e' pebbleErrNotFound) eqn:E'.
  - intros _ _. by eapply db_get_absent.
  - intros [= <-]. cbn. by rewrite (db_get_foreign s k e' E).
Qed.

Lemma Get_healthy s k :
  healthy s -> Get s k = of_option ErrNotFound (contents s !! k).
Proof.
  intros Hs. unfold Get. rewrite db_get_healthy by done.
  by destruct (contents s !! k).
Qed.

Lemma commit_Ok s b s' u : commit b s = (s', Ok u) -> contents s' = apply_batch b (contents s).
Proof.
  unfold commit. destruct (db_commit s b) as [s1 [e|]] eqn:E; [done|].
  intros [= <- _]. by apply db_commit_ok.
Qed.

Lemma commit_Err s b s' e : commit b s = (s', Err e) -> contents s' = contents s.
Proof.
  unfold commit. destruct (db_commit s b) as [s1 [e'|]] eqn:E; [|done].
  intros [= <- _]. by eapply db_commit_err.
Qed.

Lemma Set_Ok s k v s' u : Set_ k v s = (s', Ok u) -> contents s' = <[k := v]> (contents s).
Proof. unfold Set_. intros Hr%gwrap_Ok. by apply commit_Ok in Hr. Qed.
Lemma Set_Err s k v s' e : Set_ k v s = (s', Err e) -> contents s' = contents s.
Proof. unfold Set_. intros (?&Hr&_)%gwrap_Err. by apply commit_Err in Hr. Qed.
Lemma Delete_Ok s k s' u : Delete k s = (s', Ok u) -> contents s' = delete k (contents s).
Proof. unfold Delete. intros Hr%gwrap_Ok. by apply commit_Ok in Hr. Qed.
Lemma Delete_Err s k s' e : Delete k s = (s', Err e) -> contents s' = contents s.
Proof. unfold Delete. intros (?&Hr&_)%gwrap_Err. by apply commit_Err in Hr. Qed.

Lemma commit_healthy s b : healthy s -> exists s', commit b s = (s', Ok tt) /\ healthy s'.
Proof.
  intros Hs. destruct (db_commit_healthy s b Hs) as (s'&E&?).
  exists s'. unfold commit. by rewrite E.
Qed.

Lemma Set_healthy s k v : healthy s -> exists s', Set_ k v s = (s', Ok tt) /\ healthy s'.
Proof. intros Hs. destruct (commit_healthy s [BSet k v] Hs) as (s'&E&?). exists s'. unfold Set_, gwrap. by rewrite E. Qed.
Lemma Delete_healthy s k : healthy s -> exists s', Delete k s = (s', Ok tt) /\ healthy s'.
Proof. intros Hs. destruct (commit_healthy s [BDelete k] Hs) as (s'&E&?). exists s'. unfold Delete, gwrap. by rewrite E. Qed.

Lemma commitSyncBatch_Ok s fn s' u :
  commitSyncBatch fn s = (s', Ok u) ->
  exists b, fn = Ok b /\ contents s' = apply_batch b (contents s).
Proof. unfold commitSyncBatch. intros. ginv. eauto using commit_Ok. Qed.

Lemma commitSyncBatch_Err s fn s' e :
  commitSyncBatch fn s = (s', Err e) -> contents s' = contents s.
Proof.
  unfold commitSyncBatch. rewrite gbind_Err. intros [?|(?&?&?&?)]; ginv; [done|].
  eauto using commit_Err.
Qed.

Lemma commitSyncBatch_healthy s b :
  healthy s ->
  exists s', commitSyncBatch (Ok b) s = (s', Ok tt) /\ healthy s' /\
             contents s' = apply_batch b (contents s).
Proof.
  intros Hs. destruct (commit_healthy s b Hs) as (s'&E&?). exists s'.
  split; [|split; [done|by eapply commit_Ok]].
  unfold commitSyncBatch, gbind, glift, gwrap. by rewrite E.
Qed.

Lemma PrefixScan_sound s p l k v :
  PrefixScan s p = Ok l -> (k, Ok v) ∈ l ->
  contents s !! k = Some v /\ String.prefix p k = true.
Proof.
  unfold PrefixScan. intros ?%wrapf_Ok Hin.
  rewrite <- prefix_bounds. by eapply db_iter_sound.
Qed.

(** The entries under a prefix, in key order. *)
Definition scan (p : string) (m : gmap string string) : list (string * string) :=
  range p (prefixUpperBound p) m.

Lemma elem_of_scan p m k v :
  (k, v) ∈ scan p m <-> m !! k = Some v /\ String.prefix p k = true.
Proof. unfold scan. by rewrite elem_of_range, prefix_bounds. Qed.

Lemma PrefixScan_healthy s p :
  healthy s -> PrefixScan s p = Ok ((fun kv => (kv.1, Ok kv.2)) <$> scan p (contents s)).
Proof. intros. unfold PrefixScan. by rewrite db_iter_healthy. Qed.

End Laws.

(** * A concrete database *)

Record MemDB := mkMemDB {
  mem : gmap string string;
  read_fault : gset string;   (* keys whose read fails with an I/O error *)
  scan_fault : bool;          (* NewIter fails *)
  write_fault : bool;         (* Commit fails *)
}.

Definition io_error : err := Errorf "input/output error".

#[global] Instance mem_pebble : PebbleDB MemDB := {|
  db_get d k := if decide (k ∈ read_fault d) then Err io_error
                else of_option pebbleErrNotFound (mem d !! k);
  db_iter d lo hi :=
    if scan_fault d then Err pebbleErrClosed
    else Ok ((fun kv => (kv.1, if decide (kv.1 ∈ read_fault d) then Err io_error else Ok kv.2))
               <$> range lo hi (mem d));
  db_commit d b :=
    if write_fault d then (d, Some io_error)
    else (mkMemDB (apply_batch b (mem d)) (read_fault d) (scan_fault d) false, None);
|}.

#[global] Program Instance mem_laws : PebbleLaws MemDB := {|
  contents := mem;
  healthy d := read_fault d = ∅ /\ scan_fault d = false /\ write_fault d = false;
|}.
Next Obligation. intros d k v. cbn. case_decide; [done|]. by intros ?%of_option_Ok. Qed.
Next Obligation.
  intros d k e. cbn. case_decide; [by intros [= <-]|].
  destruct (mem d !! k); [done|]. done.
Qed.
Next Obligation.
  intros d k e. cbn. case_decide; [by intros [= <-]|].
  destruct (mem d !! k); [done|]. by intros [= <-].
Qed.
Next Obligation. intros d k (Hr&_&_). cbn. rewrite Hr. case_decide; [set_solver|done]. Qed.
Next Obligation.
  intros d lo hi l k v. cbn. destruct (scan_fault d); [done|].
  intros [= <-] ([k' v']&Heq&Hin)%list_elem_of_fmap. cbn in Heq.
  case_decide; simplify_eq. by apply elem_of_range.
Qed.
Next Obligation.
  intros d lo hi (Hr&Hs&_). cbn. rewrite Hs, Hr. f_equal.
Qed.
Next Obligation. intros d b d'. cbn. destruct (write_fault d); [done|]. by intros [= <-]. Qed.
Next Obligation. intros d b d' e. cbn. destruct (write_fault d); [by intros [= <-]|done]. Qed.
Next Obligation. intros d b (?&?&Hw). cbn. rewrite Hw. eexists. split; [done|done]. Qed.

Definition mem_of (l : list (string * string)) : MemDB := mkMemDB (list_to_map l) ∅ false false.
