(* ===== verification/Proto.v ===== *)
(** Protobuf and JSON records ([proto/bongo/v1/*.proto] and the payload
    structs of [internal/store]), and their wire codecs.

    [google.golang.org/protobuf] is a library and the exact JSON text is not
    observable by the code, so encoding is the class [Codec]; [ProtoLaws] and
    [JsonLaws] state the round trips the code relies on.  [countable_codec] is
    a concrete codec used to evaluate the model. *)

From S2P Require Import Prelude GoStrings.
From Stdlib Require Import Ascii.

(** * Codecs *)

Class Codec (A : Type) := {
  marshal : A -> result string;
  unmarshal : string -> result A;
}.

(** [proto.Marshal] fails on a message that is not [clean] (a string field that
    is not valid UTF-8); what it produces decodes to the same message. *)
Class ProtoLaws (A : Type) `{Codec A} := {
  clean : A -> Prop;
  proto_total a : clean a -> exists b, marshal a = Ok b;
  proto_roundtrip a b : marshal a = Ok b -> unmarshal b = Ok a;
}.

(** [json.Marshal] of a payload struct never fails; it replaces invalid UTF-8,
    so only [json_clean] values survive the round trip. *)
Class JsonLaws (A : Type) `{Codec A} := {
  json_clean : A -> Prop;
  json_total a : exists b, marshal a = Ok b;
  json_roundtrip a b : marshal a = Ok b -> json_clean a -> unmarshal b = Ok a;
}.

(** ** A concrete codec for any countable type *)

Fixpoint pos_bits (p : positive) : string :=
  match p with
  | xH => ""
  | xO p => String "0" (pos_bits p)
  | xI p => String "1" (pos_bits p)
  end.
Fixpoint bits_pos (s : string) : option positive :=
  match s with
  | "" => Some xH
  | String "0" s => xO <$> bits_pos s
  | String "1" s => xI <$> bits_pos s
  | _ => None
  end.

Lemma bits_pos_bits p : bits_pos (pos_bits p) = Some p.
Proof. induction p; cbn; [by rewrite IHp..|done]. Qed.

Definition countable_codec `{Countable A} : Codec A := {|
  marshal a := Ok (pos_bits (encode a));
  unmarshal s := of_option (Errorf "proto: cannot parse invalid wire-format data")
                   (bits_pos s ≫= decode);
|}.

(** The same with a range check on the fields, as the Go types have it. *)
Definition checked_codec `{Countable A} (P : A -> Prop) `{!forall a, Decision (P a)} : Codec A := {|
  marshal a := if decide (P a) then Ok (pos_bits (encode a)) else Err (Errorf "proto: invalid message");
  unmarshal s := match bits_pos s ≫= decode with
                 | Some a => if decide (P a) then Ok a else Err (Errorf "proto: cannot parse invalid wire-format data")
                 | None => Err (Errorf "proto: cannot parse invalid wire-format data")
                 end;
|}.

Definition checked_proto `{Countable A} (P : A -> Prop) `{!forall a, Decision (P a)} :
  @ProtoLaws A (checked_codec P).
Proof.
  refine (@Build_ProtoLaws A (checked_codec P) P _ _).
  - intros a Ha. cbn. rewrite decide_True by done. eauto.
  - intros a b. cbn. case_decide; [|done]. intros [= <-].
    rewrite bits_pos_bits. cbn. rewrite decode_encode. by rewrite decide_True.
Defined.

Lemma checked_decode `{Countable A} (P : A -> Prop) `{!forall a, Decision (P a)} v a :
  @unmarshal A (checked_codec P) v = Ok a -> P a.
Proof. cbn. destruct (_ ≫= _); [|done]. case_decide; [|done]. by intros [= <-]. Qed.

(** A codec whose output is never empty: a tag byte, then the value. *)
Definition tagged_codec `{Countable A} (t : ascii) : Codec A := {|
  marshal a := Ok (String t (pos_bits (encode a)));
  unmarshal s := match s with
                 | String t' s' => if Ascii.eqb t t' then of_option (Errorf "proto: cannot parse invalid wire-format data") (bits_pos s' ≫= decode)
                                   else Err (Errorf "proto: cannot parse invalid wire-format data")
                 | "" => Err (Errorf "proto: cannot parse invalid wire-format data")
                 end;
|}.
Definition tagged_proto `{Countable A} (t : ascii) : @ProtoLaws A (tagged_codec t).
Proof.
  refine (@Build_ProtoLaws A (tagged_codec t) (fun _ => True) _ _); [cbn; eauto|].
  intros a b [= <-]. cbn. rewrite Ascii.eqb_refl, bits_pos_bits. cbn. by rewrite decode_encode.
Defined.

(** JSON into a struct with bounded fields: any value is written, out-of-range
    ones are rejected on the way back. *)
Definition json_codec `{Countable A} (P : A -> Prop) `{!forall a, Decision (P a)} : Codec A := {|
  marshal a := Ok (pos_bits (encode a));
  unmarshal s := match bits_pos s ≫= decode with
                 | Some a => if decide (P a) then Ok a else Err (Errorf "json: cannot unmarshal number")
                 | None => Err (Errorf "json: cannot unmarshal")
                 end;
|}.

Definition json_laws `{Countable A} (P : A -> Prop) `{!forall a, Decision (P a)} :
  @JsonLaws A (json_codec P).
Proof.
  refine (@Build_JsonLaws A (json_codec P) P _ _); [cbn; eauto|].
  intros a b [= <-] Ha. cbn. rewrite bits_pos_bits. cbn. rewrite decode_encode. by rewrite decide_True.
Defined.

Lemma json_decode `{Countable A} (P : A -> Prop) `{!forall a, Decision (P a)} v a :
  @unmarshal A (json_codec P) v = Ok a -> P a.
Proof. cbn. destruct (_ ≫= _); [|done]. case_decide; [|done]. by intros [= <-]. Qed.

#[local] Existing Instance countable_codec.

Definition countable_proto `{Countable A} : ProtoLaws A.
Proof.
  refine {| clean := fun _ => True |}; [by eauto|].
  intros a b [= <-]. cbn. rewrite bits_pos_bits. cbn. by rewrite decode_encode.
Defined.

Definition countable_json `{Countable A} : JsonLaws A.
Proof.
  refine {| json_clean := fun _ => True |}; [by eauto|].
  intros a b [= <-] _. cbn. rewrite bits_pos_bits. cbn. by rewrite decode_encode.
Defined.

(** * command.proto *)

Inductive Op := OP_UNSPECIFIED | OP_PUT | OP_DELETE.
#[global] Instance Op_eq_dec : EqDecision Op.
Proof. solve_decision. Defined.

#[global] Instance Op_countable : Countable Op.
Proof.
  apply (inj_countable (fun o => match o with OP_UNSPECIFIED => 0%nat | OP_PUT => 1%nat | OP_DELETE => 2%nat end)
           (fun n => match n with 0%nat => Some OP_UNSPECIFIED | 1%nat => Some OP_PUT
                             | 2%nat => Some OP_DELETE | _ => None end)).
  by intros [].
Defined.

Record RaftCommand := mkCmd { cmd_Op : Op; cmd_Key : string; cmd_Value : string }.
#[global] Instance RaftCommand_eq_dec : EqDecision RaftCommand.
Proof. solve_decision. Defined.
#[global] Instance RaftCommand_countable : Countable RaftCommand.
Proof.
  apply (inj_countable' (fun c => (cmd_Op c, cmd_Key c, cmd_Value c)) (fun '(a, b, c) => mkCmd a b c)).
  by intros [].
Defined.

(** * blob.proto, mail.proto, mailbox.proto *)

Record BlobRef := mkBlobRef {
  br_Hash : string; br_Size : Z; br_ContentType : string; br_Filename : string }.
#[global] Instance BlobRef_eq_dec : EqDecision BlobRef.
Proof. solve_decision. Defined.
#[global] Instance BlobRef_countable : Countable BlobRef.
Proof.
  apply (inj_countable' (fun b => (br_Hash b, br_Size b, br_ContentType b, br_Filename b))
           (fun '(a, b, c, d) => mkBlobRef a b c d)).
  by intros [].
Defined.

Inductive SegKind := KIND_UNSPECIFIED | LITERAL | ATTACHMENT.
#[global] Instance SegKind_eq_dec : EqDecision SegKind.
Proof. solve_decision. Defined.
#[global] Instance SegKind_countable : Countable SegKind.
Proof.
  apply (inj_countable (fun k => match k with KIND_UNSPECIFIED => 0%nat | LITERAL => 1%nat | ATTACHMENT => 2%nat end)
           (fun n => match n with 0%nat => Some KIND_UNSPECIFIED | 1%nat => Some LITERAL
                             | 2%nat => Some ATTACHMENT | _ => None end)).
  by intros [].
Defined.

Record MessageSegment := mkSegment { seg_Kind : SegKind; seg_Length : Z; seg_AttachmentIndex : Z }.
#[global] Instance MessageSegment_eq_dec : EqDecision MessageSegment.
Proof. solve_decision. Defined.
#[global] Instance MessageSegment_countable : Countable MessageSegment.
Proof.
  apply (inj_countable' (fun s => (seg_Kind s, seg_Length s, seg_AttachmentIndex s))
           (fun '(a, b, c) => mkSegment a b c)).
  by intros [].
Defined.

(** [SpamScore] holds the bits of the float32. *)
Record MailMeta := mkMailMeta {
  mm_Guid : string; mm_MessageId : string; mm_Subject : string; mm_From : string;
  mm_To : list string; mm_ReceivedAt : Z; mm_RawMessage : option BlobRef;
  mm_Attachments : list BlobRef; mm_FolderGuid : string; mm_Flags : Z;
  mm_InReplyTo : string; mm_References : string; mm_Cc : list string; mm_SpamScore : Z;
  mm_SpfResult : string; mm_DkimResult : string; mm_DkimDomain : string;
  mm_TargetMailbox : string; mm_Tags : list string; mm_Layout : list MessageSegment;
  mm_ReplyTo : string; mm_ListId : string; mm_ListPost : string }.
#[global] Instance MailMeta_eq_dec : EqDecision MailMeta.
Proof. solve_decision. Defined.
#[global] Instance MailMeta_countable : Countable MailMeta.
Proof.
  apply (inj_countable'
    (fun m => ((mm_Guid m, mm_MessageId m, mm_Subject m, mm_From m, mm_To m, mm_ReceivedAt m,
                mm_RawMessage m, mm_Attachments m, mm_FolderGuid m, mm_Flags m, mm_InReplyTo m),
               (mm_References m, mm_Cc m, mm_SpamScore m, mm_SpfResult m, mm_DkimResult m,
                mm_DkimDomain m, mm_TargetMailbox m, mm_Tags m, mm_Layout m, mm_ReplyTo m,
                mm_ListId m, mm_ListPost m)))
    (fun '((a, b, c, d, e, f, g, h, i, j, k), (l, m, n, o, p, q, r, s, t, u, v, w)) =>
       mkMailMeta a b c d e f g h i j k l m n o p q r s t u v w)).
  by intros [].
Defined.

Record MailboxMeta := mkMailboxMeta {
  mb_Name : string; mb_UidValidity : Z; mb_UidNext : Z; mb_Unsubscribed : bool }.
#[global] Instance MailboxMeta_eq_dec : EqDecision MailboxMeta.
Proof. solve_decision. Defined.
#[global] Instance MailboxMeta_countable : Countable MailboxMeta.
Proof.
  apply (inj_countable' (fun m => (mb_Name m, mb_UidValidity m, mb_UidNext m, mb_Unsubscribed m))
           (fun '(a, b, c, d) => mkMailboxMeta a b c d)).
  by intros [].
Defined.

Record MailboxMessage := mkMailboxMessage {
  msg_Uid : Z; msg_MailGuid : string; msg_Flags : Z; msg_InternalDate : Z;
  msg_Tags : list string }.
#[global] Instance MailboxMessage_eq_dec : EqDecision MailboxMessage.
Proof. solve_decision. Defined.
#[global] Instance MailboxMessage_countable : Countable MailboxMessage.
Proof.
  apply (inj_countable' (fun m => (msg_Uid m, msg_MailGuid m, msg_Flags m, msg_InternalDate m, msg_Tags m))
           (fun '(a, b, c, d, e) => mkMailboxMessage a b c d e)).
  by intros [].
Defined.

(** * JSON payloads of the synthetic mailbox commands (mailbox.go) *)

Record mailboxTransferPayload := mkTransfer {
  tp_SrcMailbox : string; tp_SrcUID : Z; tp_DstMailbox : string }.
#[global] Instance transfer_eq_dec : EqDecision mailboxTransferPayload.
Proof. solve_decision. Defined.
#[global] Instance transfer_countable : Countable mailboxTransferPayload.
Proof.
  apply (inj_countable' (fun p => (tp_SrcMailbox p, tp_SrcUID p, tp_DstMailbox p))
           (fun '(a, b, c) => mkTransfer a b c)).
  by intros [].
Defined.

Record mailboxRenamePayload := mkRename { rp_OldName : string; rp_NewName : string }.
#[global] Instance rename_eq_dec : EqDecision mailboxRenamePayload.
Proof. solve_decision. Defined.
#[global] Instance rename_countable : Countable mailboxRenamePayload.
Proof.
  apply (inj_countable' (fun p => (rp_OldName p, rp_NewName p)) (fun '(a, b) => mkRename a b)).
  by intros [].
Defined.

Record mailboxDeliveryPayload := mkDelivery { dp_Meta : string; dp_Flags : Z }.
#[global] Instance delivery_eq_dec : EqDecision mailboxDeliveryPayload.
Proof. solve_decision. Defined.
#[global] Instance delivery_countable : Countable mailboxDeliveryPayload.
Proof.
  apply (inj_countable' (fun p => (dp_Meta p, dp_Flags p)) (fun '(a, b) => mkDelivery a b)).
  by intros [].
Defined.

Record mailboxSubscribePayload := mkSubscribe { sp_Subscribed : bool }.
#[global] Instance subscribe_eq_dec : EqDecision mailboxSubscribePayload.
Proof. solve_decision. Defined.
#[global] Instance subscribe_countable : Countable mailboxSubscribePayload.
Proof. apply (inj_countable' sp_Subscribed mkSubscribe). by intros []. Defined.

Record queueMovePayload := mkQueueMove { qm_OldKey : string; qm_NewKey : string; qm_Value : string }.
#[global] Instance queueMove_eq_dec : EqDecision queueMovePayload.
Proof. solve_decision. Defined.
#[global] Instance queueMove_countable : Countable queueMovePayload.
Proof.
  apply (inj_countable' (fun p => (qm_OldKey p, qm_NewKey p, qm_Value p))
           (fun '(a, b, c) => mkQueueMove a b c)).
  by intros [].
Defined.

(** * The Raft interface the stores write through ([store.RaftApplier])

    The 5 second timeout of every call bounds only how long the entry waits to
    be enqueued and is not observable in the result. *)
Class RaftApplier (S : Type) := ApplyCommand : RaftCommand -> GoM S unit.
