(* ===== verification/UserData.v ===== *)
(** User data shared by several components: the account profile
    ([proto/bongo/v1/profile.proto]), its key, and the interface of an applier
    for plain writes below [/user/]. *)

From S2P Require Import Prelude GoStrings Pebble Proto.

Record UserProfile := mkProfile {
  up_Email : string; up_DisplayName : string; up_PasswordHash : string; up_TotpSecret : string; up_QuotaBytes : Z;
  up_IsAdmin : bool; up_Disabled : bool; up_RecoveryCodes : list string; up_TotpEnabled : bool;
  up_SessionGeneration : Z; up_TotpLastStep : Z; up_Kind : string; up_Capacity : Z; up_ResourceType : string;
  up_RequireAppPasswords : bool }.

#[global] Instance UserProfile_eq_dec : EqDecision UserProfile.
Proof. solve_decision. Defined.
#[global] Instance UserProfile_countable : Countable UserProfile.
Proof.
  apply (inj_countable'
    (fun p => (up_Email p, up_DisplayName p, up_PasswordHash p, up_TotpSecret p, up_QuotaBytes p, up_IsAdmin p, up_Disabled p,
               (up_RecoveryCodes p, up_TotpEnabled p, up_SessionGeneration p, up_TotpLastStep p, up_Kind p, up_Capacity p,
                up_ResourceType p, up_RequireAppPasswords p)))
    (fun '(a, b, c, d, e, f, g, (h, i, j, k, l, m, n, o)) => mkProfile a b c d e f g h i j k l m n o)).
  by intros [].
Defined.

Definition profileKey (userID : string) : string := "/user/" +:+ userID +:+ "/profile".

(** What a sequence of plain writes of user data relies on: each is applied
    as written or refused whole, whatever else the applier writes is its own
    bookkeeping, and it can take [n] more commands when [uready n]. *)
Class UserApplier (DB : Type) `{PebbleLaws DB} `{RaftApplier DB} := {
  uown : string -> bool;
  uready : nat -> DB -> Prop;
  uown_user k : uown k = true -> HasPrefix k "/user/" = false;
  uready_le n n' s : (n' <= n)%nat -> uready n s -> uready n' s;
  uap_put n key v s s' r :
    uready (S n) s -> healthy s -> HasPrefix key "/user/" = true ->
    ApplyCommand (mkCmd OP_PUT key v) s = (s', r) ->
    healthy s' /\ uready n s' /\
    forall k, uown k = false -> contents s' !! k = if is_ok r then <[key := v]> (contents s) !! k else contents s !! k;
  uap_delete n key v s s' r :
    uready (S n) s -> healthy s -> HasPrefix key "/user/" = true ->
    ApplyCommand (mkCmd OP_DELETE key v) s = (s', r) ->
    healthy s' /\ uready n s' /\
    forall k, uown k = false -> contents s' !! k = if is_ok r then delete key (contents s) !! k else contents s !! k;
}.

(** ** Plain writes anywhere below [/user/] and [/system/] *)

Definition plain_command (cmd : RaftCommand) : Prop :=
  (HasPrefix (cmd_Key cmd) "/user/" = true \/ HasPrefix (cmd_Key cmd) "/system/" = true) /\ cmd_Op cmd <> OP_UNSPECIFIED.
Definition plain_result (cmd : RaftCommand) (c : gmap string string) : gmap string string :=
  match cmd_Op cmd with
  | OP_PUT => <[cmd_Key cmd := cmd_Value cmd]> c
  | OP_DELETE => delete (cmd_Key cmd) c
  | OP_UNSPECIFIED => c
  end.
Class PlainApplier (DB : Type) `{PebbleLaws DB} `{RaftApplier DB} := {
  pown : string -> bool;
  pready : nat -> DB -> Prop;
  pown_raft k : pown k = true -> HasPrefix k "/system/raft/" = true;
  pready_le n n' s : (n' <= n)%nat -> pready n s -> pready n' s;
  pap n cmd s s' r :
    pready (S n) s -> healthy s -> plain_command cmd -> ApplyCommand cmd s = (s', r) ->
    healthy s' /\ pready n s' /\
    forall k, pown k = false -> contents s' !! k = (if is_ok r then plain_result cmd (contents s) else contents s) !! k;
}.

Section Owned.
Context {DB : Type} `{UserApplier DB}.
Lemma user_not_uown k : HasPrefix k "/user/" = true -> uown k = false.
Proof. intros Hk. destruct (uown k) eqn:E; [|done]. apply uown_user in E. congruence. Qed.
End Owned.

(** An applier for plain writes is one for user data. *)
Section PlainUser.
Context {DB : Type} `{PlainApplier DB}.
Definition plain_user : UserApplier DB.
Proof.
  refine {| uown := pown; uready := pready |}.
  - intros k Hk%pown_raft. apply prefix_spec in Hk as [x ->]. done.
  - exact pready_le.
  - intros n key v s s' r Hr Hs Hk Ha. assert (plain_command (mkCmd OP_PUT key v)) as Hp by (split; [by left|done]).
    destruct (pap _ _ _ _ _ Hr Hs Hp Ha) as (?&?&Hc).
    split; [done|]. split; [done|]. intros k Hn. rewrite (Hc k Hn). by destruct r.
  - intros n key v s s' r Hr Hs Hk Ha. assert (plain_command (mkCmd OP_DELETE key v)) as Hp by (split; [by left|done]).
    destruct (pap _ _ _ _ _ Hr Hs Hp Ha) as (?&?&Hc).
    split; [done|]. split; [done|]. intros k Hn. rewrite (Hc k Hn). by destruct r.
Defined.
End PlainUser.

(** ** An applier without a log *)

Definition plain_apply (cmd : RaftCommand) : GoM MemDB unit :=
  match cmd_Op cmd with
  | OP_PUT => Set_ (cmd_Key cmd) (cmd_Value cmd)
  | OP_DELETE => Delete (cmd_Key cmd)
  | OP_UNSPECIFIED => gfail (Errorf "unknown op")
  end.
Definition plain_raft : RaftApplier MemDB := plain_apply.
Definition plain_applier : @PlainApplier MemDB _ _ plain_raft.
Proof.
  refine (@Build_PlainApplier _ _ _ _ (fun _ => false) (fun _ _ => True) _ _ _); [done|done|].
  intros _ [op key v] s s' r _ Hs [_ Hop] Ha. unfold ApplyCommand, plain_raft, plain_apply in Ha. cbn [cmd_Op cmd_Key cmd_Value] in *.
  destruct op; [done|..].
  - destruct (commit_healthy s [BSet key v] Hs) as (s1&Hc&Hs1). unfold Set_, gwrap in Ha. rewrite Hc in Ha. injection Ha as <- <-.
    split; [exact Hs1|]. split; [done|]. intros k _. by apply commit_Ok in Hc as ->.
  - destruct (commit_healthy s [BDelete key] Hs) as (s1&Hc&Hs1). unfold Delete, gwrap in Ha. rewrite Hc in Ha. injection Ha as <- <-.
    split; [exact Hs1|]. split; [done|]. intros k _. by apply commit_Ok in Hc as ->.
Defined.
