(* ===== verification/Mailbox.v ===== *)
(** The mailbox store: [internal/store/mailbox.go].

    Keys and values are byte strings in the Pebble store, as in the source; a
    synthetic mailbox command is decoded, read, and applied as one batch. *)

From S2P Require Import Prelude GoStrings Pebble Proto.
From Stdlib Require Import Ascii.

(** The wire codecs the mailbox store uses. *)
Class MailCodecs := {
  mc_meta :: Codec MailboxMeta;
  mc_msg :: Codec MailboxMessage;
  mc_mail :: Codec MailMeta;
  mc_transfer :: Codec mailboxTransferPayload;
  mc_rename :: Codec mailboxRenamePayload;
  mc_delivery :: Codec mailboxDeliveryPayload;
  mc_subscribe :: Codec mailboxSubscribePayload;
}.
Class MailCodecLaws `{MailCodecs} := {
  ml_meta :: ProtoLaws MailboxMeta;
  ml_msg :: ProtoLaws MailboxMessage;
  ml_mail :: ProtoLaws MailMeta;
  ml_transfer :: JsonLaws mailboxTransferPayload;
  ml_rename :: JsonLaws mailboxRenamePayload;
  ml_delivery :: JsonLaws mailboxDeliveryPayload;
  ml_subscribe :: JsonLaws mailboxSubscribePayload;
  (** Decoded [uint32] fields are 32-bit values. *)
  ml_meta_range v (x : MailboxMeta) : unmarshal v = Ok x -> in_u32 (mb_UidNext x);
  ml_msg_range v (x : MailboxMessage) : unmarshal v = Ok x -> in_u32 (msg_Uid x);
  (** Byte strings are base64 in JSON: a delivery payload always survives. *)
  ml_delivery_clean (x : mailboxDeliveryPayload) : in_u32 (dp_Flags x) -> json_clean x;
  ml_transfer_range v (x : mailboxTransferPayload) : unmarshal v = Ok x -> in_u32 (tp_SrcUID x);
  (** ASCII names survive JSON. *)
  ml_transfer_clean src uid dst : is_ascii src = true -> is_ascii dst = true -> in_u32 uid -> json_clean (mkTransfer src uid dst);
}.

(** * Flags *)

Definition FlagSeen : Z := 1.
Definition FlagAnswered : Z := 2.
Definition FlagFlagged : Z := 4.
Definition FlagDeleted : Z := 8.
Definition FlagDraft : Z := 16.
Definition FlagRecent : Z := 32.

(** * Keys *)

Definition mailboxAppendPrefix : string := "/__mailbox_append__/".
Definition mailboxCopyPrefix : string := "/__mailbox_copy__/".
Definition mailboxDeletePrefix : string := "/__mailbox_delete__/".
Definition mailboxDeliverPrefix : string := "/__mailbox_deliver__/".
Definition mailboxExpungePrefix : string := "/__mailbox_expunge__/".
Definition mailboxMovePrefix : string := "/__mailbox_move__/".
Definition mailboxRenamePrefix : string := "/__mailbox_rename__/".
Definition mailboxSubscribePrefix : string := "/__mailbox_subscribe__/".

Definition mailboxPrefix (userID : string) : string := "/user/" +:+ userID +:+ "/mailbox/".
Definition mailboxMetaKey (userID name : string) : string :=
  "/user/" +:+ userID +:+ "/mailbox/" +:+ name +:+ "/meta".
Definition mailboxMsgPrefix (userID name : string) : string :=
  "/user/" +:+ userID +:+ "/mailbox/" +:+ name +:+ "/msg/".
Definition mailboxMsgKey (userID name : string) (uid : Z) : string :=
  "/user/" +:+ userID +:+ "/mailbox/" +:+ name +:+ "/msg/" +:+ fmt_0d 10 uid.
Definition mailMetaKey (userID guid : string) : string :=
  "/user/" +:+ userID +:+ "/mail/" +:+ guid.
Definition mailMetaPrefix (userID : string) : string := "/user/" +:+ userID +:+ "/mail/".

Definition mailboxAppendKey (userID mailbox : string) : string :=
  mailboxAppendPrefix +:+ userID +:+ "/" +:+ mailbox.
Definition mailboxCopyKey (userID : string) : string := mailboxCopyPrefix +:+ userID.
Definition mailboxDeleteKey (userID mailbox : string) : string :=
  mailboxDeletePrefix +:+ userID +:+ "/" +:+ mailbox.
Definition mailboxDeliverKey (userID mailbox : string) : string :=
  mailboxDeliverPrefix +:+ userID +:+ "/" +:+ mailbox.
Definition mailboxExpungeKey (userID mailbox : string) : string :=
  mailboxExpungePrefix +:+ userID +:+ "/" +:+ mailbox.
Definition mailboxMoveKey (userID : string) : string := mailboxMovePrefix +:+ userID.
Definition mailboxRenameKey (userID : string) : string := mailboxRenamePrefix +:+ userID.
Definition mailboxSubscribeKey (userID mailbox : string) : string :=
  mailboxSubscribePrefix +:+ userID +:+ "/" +:+ mailbox.

Definition IsMailboxAppendCommand (key : string) : bool := HasPrefix key mailboxAppendPrefix.
Definition IsMailboxSyntheticCommand (key : string) : bool :=
  HasPrefix key mailboxAppendPrefix || HasPrefix key mailboxCopyPrefix ||
  HasPrefix key mailboxDeletePrefix || HasPrefix key mailboxDeliverPrefix ||
  HasPrefix key mailboxExpungePrefix || HasPrefix key mailboxMovePrefix ||
  HasPrefix key mailboxRenamePrefix || HasPrefix key mailboxSubscribePrefix.

(** * Results of a synthetic command *)

Record MailboxMessageRef := mkRef { ref_UserID : string; ref_Mailbox : string; ref_UID : Z }.
#[global] Instance MailboxMessageRef_eq_dec : EqDecision MailboxMessageRef.
Proof. solve_decision. Defined.

Record MailboxNewMail := mkNewMail {
  nm_UserID : string; nm_Mailbox : string; nm_UID : Z; nm_GUID : string;
  nm_Meta : option MailMeta }.

Record MailboxCommandResult := mkCmdResult {
  cr_NewMail : option MailboxNewMail;
  cr_Arrivals : list MailboxMessageRef;
  cr_Expunged : list MailboxMessageRef }.

Section Mailbox.
Context {DB : Type} `{PebbleDB DB} `{MailCodecs} `{GoUnicode}.

(** * Reading and staging records *)

Definition readMailboxMeta (ps : DB) (userID mailbox : string) : result MailboxMeta :=
  let? data := wrapf ("reading mailbox " +:+ quote mailbox) (Get ps (mailboxMetaKey userID mailbox)) in
  wrapf "parsing mailbox meta" (unmarshal data).

(** The missing-mailbox test compares error texts, as the source does. *)
Definition readOrInitMailboxMeta (ps : DB) (userID mailbox : string) : result MailboxMeta :=
  match readMailboxMeta ps userID mailbox with
  | Ok meta => Ok meta
  | Err e => if Contains (err_text e) (err_text ErrNotFound)
             then Ok (mkMailboxMeta mailbox 1 1 false)
             else Err e
  end.

Definition parseMailboxScopedKey (key prefix : string) : result (string * string) :=
  let rest := TrimPrefix key prefix in
  match SplitN rest "/" 2 with
  | [a; b] => if String.eqb a "" || String.eqb b ""
              then Err (Errorf ("invalid mailbox-scoped key " +:+ quote key))
              else Ok (a, b)
  | _ => Err (Errorf ("invalid mailbox-scoped key " +:+ quote key))
  end.

Definition writeMailboxMetaBatch (userID mailbox : string) (meta : MailboxMeta) : result (list batch_op) :=
  let? metaBytes := wrapf "marshaling mailbox meta" (marshal meta) in
  Ok [BSet (mailboxMetaKey userID mailbox) metaBytes].

Definition readMailboxMessage (ps : DB) (userID mailbox : string) (uid : Z) : result MailboxMessage :=
  let? data := wrapf "reading mailbox message" (Get ps (mailboxMsgKey userID mailbox uid)) in
  wrapf "parsing mailbox message" (unmarshal data).

Definition writeMailboxMessageBatch (userID mailbox : string) (uid : Z) (msg : MailboxMessage)
  : result (list batch_op) :=
  let? msgBytes := wrapf "marshaling mailbox message" (marshal msg) in
  Ok [BSet (mailboxMsgKey userID mailbox uid) msgBytes].

Fixpoint parse_messages (l : list (string * result string)) : result (list MailboxMessage) :=
  match l with
  | [] => Ok []
  | (_, v) :: l' =>
      let? val := wrapf "reading message" (iter_value v) in
      let? msg := wrapf "parsing mailbox message" (unmarshal val) in
      let? msgs := parse_messages l' in
      Ok (msg :: msgs)
  end.

Definition listMailboxMessages (ps : DB) (userID mailbox : string) : result (list MailboxMessage) :=
  let? l := wrapf "listing messages" (PrefixScan ps (mailboxMsgPrefix userID mailbox)) in
  parse_messages l.

Definition parseMailboxTransferCommand (key value prefix : string)
  : result (string * mailboxTransferPayload) :=
  let userID := TrimPrefix key prefix in
  if String.eqb userID "" then Err (Errorf ("invalid mailbox transfer key " +:+ quote key)) else
  let? payload := wrapf "parsing mailbox transfer payload" (unmarshal value) in
  if String.eqb (tp_SrcMailbox payload) "" || String.eqb (tp_DstMailbox payload) "" || (tp_SrcUID payload =? 0)
  then Err (Errorf "invalid mailbox transfer payload")
  else Ok (userID, payload).

Definition parseMailboxRenameCommand (key value : string) : result (string * mailboxRenamePayload) :=
  let userID := TrimPrefix key mailboxRenamePrefix in
  if String.eqb userID "" then Err (Errorf ("invalid mailbox rename key " +:+ quote key)) else
  let? payload := wrapf "parsing mailbox rename payload" (unmarshal value) in
  if String.eqb (rp_OldName payload) "" || String.eqb (rp_NewName payload) ""
  then Err (Errorf "invalid mailbox rename payload")
  else Ok (userID, payload).

(** Two staged writes, in order; the first failure is the builder's failure. *)
Definition stage2 (a b : result (list batch_op)) : result (list batch_op) :=
  let? x := a in let? y := b in Ok (x ++ y).

(** * The synthetic commands *)

Definition applyMailboxAppend (cmd : RaftCommand) : GoM DB (option MailboxCommandResult) :=
  let rest := TrimPrefix (cmd_Key cmd) mailboxAppendPrefix in
  let! (userID, mailbox) := glift
    match SplitN rest "/" 2 with
    | [a; b] => if String.eqb a "" || String.eqb b ""
                then Err (Errorf ("invalid mailbox append key " +:+ quote (cmd_Key cmd)))
                else Ok (a, b)
    | _ => Err (Errorf ("invalid mailbox append key " +:+ quote (cmd_Key cmd)))
    end in
  let! msg := glift (wrapf "parsing mailbox append payload" (unmarshal (cmd_Value cmd))) in
  if String.eqb (msg_MailGuid msg) "" then gfail (Errorf "mailbox append payload missing mail guid") else
  let! meta := gread (fun ps => readMailboxMeta ps userID mailbox) in
  let uid := mb_UidNext meta in
  let meta' := mkMailboxMeta (mb_Name meta) (mb_UidValidity meta) (u32 (uid + 1)) (mb_Unsubscribed meta) in
  let msg' := mkMailboxMessage uid (msg_MailGuid msg) (msg_Flags msg) (msg_InternalDate msg) (msg_Tags msg) in
  let! _ := commitSyncBatch (stage2 (writeMailboxMetaBatch userID mailbox meta')
                                    (writeMailboxMessageBatch userID mailbox uid msg')) in
  gret (Some (mkCmdResult (Some (mkNewMail userID mailbox uid (msg_MailGuid msg) None)) [] [])).

Definition applyMailboxDelivery (cmd : RaftCommand) : GoM DB (option MailboxCommandResult) :=
  let! (userID, mailbox) := glift (parseMailboxScopedKey (cmd_Key cmd) mailboxDeliverPrefix) in
  let! payload := glift (wrapf "parsing mailbox delivery payload" (unmarshal (cmd_Value cmd))) in
  let! meta := glift (wrapf "parsing mail meta payload" (unmarshal (dp_Meta payload))) in
  if String.eqb (mm_Guid meta) "" then gfail (Errorf "mailbox delivery payload missing guid") else
  let! mbMeta := gread (fun ps => readOrInitMailboxMeta ps userID mailbox) in
  let uid := mb_UidNext mbMeta in
  let mbMeta' := mkMailboxMeta (mb_Name mbMeta) (mb_UidValidity mbMeta) (u32 (uid + 1)) (mb_Unsubscribed mbMeta) in
  let msg := mkMailboxMessage uid (mm_Guid meta) (dp_Flags payload) (mm_ReceivedAt meta) (mm_Tags meta) in
  let! _ := commitSyncBatch
    (stage2 (Ok [BSet (mailMetaKey userID (mm_Guid meta)) (dp_Meta payload)])
       (stage2 (writeMailboxMetaBatch userID mailbox mbMeta')
               (writeMailboxMessageBatch userID mailbox uid msg))) in
  gret (Some (mkCmdResult (Some (mkNewMail userID mailbox uid (mm_Guid meta) (Some meta))) [] [])).

(** The copy written by COPY and MOVE. *)
Definition transferred (srcMsg : MailboxMessage) (newUID : Z) : MailboxMessage :=
  mkMailboxMessage newUID (msg_MailGuid srcMsg) (andnot (msg_Flags srcMsg) FlagRecent)
    (msg_InternalDate srcMsg) (msg_Tags srcMsg).

Definition applyMailboxCopy (cmd : RaftCommand) : GoM DB (option MailboxCommandResult) :=
  let! (userID, payload) := glift (parseMailboxTransferCommand (cmd_Key cmd) (cmd_Value cmd) mailboxCopyPrefix) in
  let! srcMsg := gread (fun ps => wrapf "reading source message"
                   (readMailboxMessage ps userID (tp_SrcMailbox payload) (tp_SrcUID payload))) in
  let! dstMeta := gread (fun ps => wrapf "reading dest mailbox"
                   (readMailboxMeta ps userID (tp_DstMailbox payload))) in
  let newUID := mb_UidNext dstMeta in
  let dstMeta' := mkMailboxMeta (mb_Name dstMeta) (mb_UidValidity dstMeta) (u32 (newUID + 1)) (mb_Unsubscribed dstMeta) in
  let newMsg := transferred srcMsg newUID in
  let! _ := commitSyncBatch (stage2 (writeMailboxMetaBatch userID (tp_DstMailbox payload) dstMeta')
                                    (writeMailboxMessageBatch userID (tp_DstMailbox payload) newUID newMsg)) in
  gret (Some (mkCmdResult None [mkRef userID (tp_DstMailbox payload) newUID] [])).

Definition applyMailboxMove (cmd : RaftCommand) : GoM DB (option MailboxCommandResult) :=
  let! (userID, payload) := glift (parseMailboxTransferCommand (cmd_Key cmd) (cmd_Value cmd) mailboxMovePrefix) in
  let! srcMsg := gread (fun ps => wrapf "reading source message"
                   (readMailboxMessage ps userID (tp_SrcMailbox payload) (tp_SrcUID payload))) in
  let! dstMeta := gread (fun ps => wrapf "reading dest mailbox"
                   (readMailboxMeta ps userID (tp_DstMailbox payload))) in
  let newUID := mb_UidNext dstMeta in
  let dstMeta' := mkMailboxMeta (mb_Name dstMeta) (mb_UidValidity dstMeta) (u32 (newUID + 1)) (mb_Unsubscribed dstMeta) in
  let newMsg := transferred srcMsg newUID in
  let! _ := commitSyncBatch
    (stage2 (stage2 (writeMailboxMetaBatch userID (tp_DstMailbox payload) dstMeta')
                    (writeMailboxMessageBatch userID (tp_DstMailbox payload) newUID newMsg))
            (Ok [BDelete (mailboxMsgKey userID (tp_SrcMailbox payload) (tp_SrcUID payload))])) in
  gret (Some (mkCmdResult None [mkRef userID (tp_DstMailbox payload) newUID]
                               [mkRef userID (tp_SrcMailbox payload) (tp_SrcUID payload)])).

Definition applyMailboxDelete (cmd : RaftCommand) : GoM DB unit :=
  let! (userID, mailbox) := glift (parseMailboxScopedKey (cmd_Key cmd) mailboxDeletePrefix) in
  if EqualFold mailbox "INBOX" then gfail (Errorf "cannot delete INBOX") else
  let! msgs := gread (fun ps => wrapf "listing messages for delete" (listMailboxMessages ps userID mailbox)) in
  commitSyncBatch (Ok ((BDelete <$> ((fun m => mailboxMsgKey userID mailbox (msg_Uid m)) <$> msgs))
                       ++ [BDelete (mailboxMetaKey userID mailbox)])).

Definition applyMailboxExpunge (cmd : RaftCommand) : GoM DB (option MailboxCommandResult) :=
  let! (userID, mailbox) := glift (parseMailboxScopedKey (cmd_Key cmd) mailboxExpungePrefix) in
  let! msgs := gread (fun ps => wrapf "listing for expunge" (listMailboxMessages ps userID mailbox)) in
  let gone := filter (fun m => has_bits (msg_Flags m) FlagDeleted = true) msgs in
  let! _ := commitSyncBatch (Ok (BDelete <$> ((fun m => mailboxMsgKey userID mailbox (msg_Uid m)) <$> gone))) in
  gret (Some (mkCmdResult None [] ((fun m => mkRef userID mailbox (msg_Uid m)) <$> gone))).

(** The per-message writes of a rename: the message under its new name, then
    the removal of the old key. *)
Fixpoint renameMessages (userID oldName newName : string) (msgs : list MailboxMessage)
  : result (list batch_op) :=
  match msgs with
  | [] => Ok []
  | m :: msgs' =>
      stage2 (writeMailboxMessageBatch userID newName (msg_Uid m) m)
        (stage2 (Ok [BDelete (mailboxMsgKey userID oldName (msg_Uid m))])
                (renameMessages userID oldName newName msgs'))
  end.

Definition applyMailboxRename (cmd : RaftCommand) : GoM DB unit :=
  let! (userID, payload) := glift (parseMailboxRenameCommand (cmd_Key cmd) (cmd_Value cmd)) in
  let oldName := rp_OldName payload in
  let newName := rp_NewName payload in
  if EqualFold oldName "INBOX" then gfail (Errorf "cannot rename INBOX") else
  let! oldMeta := gread (fun ps => wrapf "reading old mailbox" (readMailboxMeta ps userID oldName)) in
  if EqualFold newName "INBOX" || String.eqb newName oldName
  then gfail (Errorf ("mailbox " +:+ quote newName +:+ " already exists")) else
  let! _ := gread (fun ps =>
    match Get ps (mailboxMetaKey userID newName) with
    | Ok _ => Err (Errorf ("mailbox " +:+ quote newName +:+ " already exists"))
    | Err e => if errors_is e ErrNotFound then Ok tt else Err (Wrap "checking rename target" e)
    end) in
  let newMeta := mkMailboxMeta newName (mb_UidValidity oldMeta) (mb_UidNext oldMeta) (mb_Unsubscribed oldMeta) in
  let! msgs := gread (fun ps => wrapf "listing messages for rename" (listMailboxMessages ps userID oldName)) in
  commitSyncBatch
    (stage2 (writeMailboxMetaBatch userID newName newMeta)
       (stage2 (renameMessages userID oldName newName msgs)
               (Ok [BDelete (mailboxMetaKey userID oldName)]))).

Definition applyMailboxSubscribe (cmd : RaftCommand) : GoM DB unit :=
  let! (userID, mailbox) := glift (parseMailboxScopedKey (cmd_Key cmd) mailboxSubscribePrefix) in
  let! payload := glift (wrapf "parsing mailbox subscribe payload" (unmarshal (cmd_Value cmd))) in
  let! meta := gread (fun ps => wrapf "reading mailbox for subscribe" (readMailboxMeta ps userID mailbox)) in
  let meta' := mkMailboxMeta (mb_Name meta) (mb_UidValidity meta) (mb_UidNext meta) (negb (sp_Subscribed payload)) in
  commitSyncBatch (writeMailboxMetaBatch userID mailbox meta').

(** Commands that report no result return a nil [*MailboxCommandResult]. *)
Definition no_result (m : GoM DB unit) : GoM DB (option MailboxCommandResult) :=
  let! _ := m in gret None.

Definition ApplyMailboxCommand (cmd : RaftCommand) : GoM DB (option MailboxCommandResult) :=
  let key := cmd_Key cmd in
  if IsMailboxAppendCommand key then applyMailboxAppend cmd
  else if HasPrefix key mailboxCopyPrefix then applyMailboxCopy cmd
  else if HasPrefix key mailboxDeletePrefix then no_result (applyMailboxDelete cmd)
  else if HasPrefix key mailboxDeliverPrefix then applyMailboxDelivery cmd
  else if HasPrefix key mailboxExpungePrefix then applyMailboxExpunge cmd
  else if HasPrefix key mailboxMovePrefix then applyMailboxMove cmd
  else if HasPrefix key mailboxRenamePrefix then no_result (applyMailboxRename cmd)
  else if HasPrefix key mailboxSubscribePrefix then no_result (applyMailboxSubscribe cmd)
  else gfail (Errorf "not a synthetic mailbox command").

End Mailbox.
#[global] Arguments stage2 : simpl never.
#[global] Arguments renameMessages : simpl never.
