(* ===== verification/MailboxInv.v ===== *)
(** Invariants of the mailbox store.

    [mbox_inv]: every stored message sits at the key of its UID, in a mailbox
    whose metadata exists, below that mailbox's UIDNEXT.  Every synthetic
    command preserves it, and from it follow that UIDs are never reused and
    that no delivery, append, copy or move overwrites a message. *)

From S2P Require Import Prelude GoStrings Pebble Proto Mailbox.
From Stdlib Require Import Ascii.

(** A user ID is one path segment of a key. *)
Definition safe (u : string) : Prop := has_char "/" u = false.
#[global] Instance safe_dec u : Decision (safe u).
Proof. unfold safe. solve_decision. Defined.

(** * Distinctness of keys *)

Lemma u32_fits uid : in_u32 uid -> 0 <= uid < 10 ^ Z.of_nat 10.
Proof. unfold in_u32. change (10 ^ Z.of_nat 10) with 10000000000. lia. Qed.

(** The first segment of a path decides the user. *)
Lemma user_split u u' (a b : string) :
  safe u -> safe u' -> u +:+ "/" +:+ a = u' +:+ "/" +:+ b -> u = u' /\ a = b.
Proof.
  intros Hu Hu' Heq. pose proof (Cut_char "/" u a Hu) as Hc.
  rewrite Heq, (Cut_char "/" u' b Hu') in Hc. naive_solver.
Qed.

Lemma user_path u u' (a b : string) :
  safe u -> safe u' ->
  "/user/" +:+ u +:+ String "/" a = "/user/" +:+ u' +:+ String "/" b -> u = u' /\ a = b.
Proof. intros ?? Heq%str_app_inv_head. by apply user_split. Qed.

Lemma msgKey_inj u m uid u' m' uid' :
  safe u -> safe u' -> in_u32 uid -> in_u32 uid' ->
  mailboxMsgKey u m uid = mailboxMsgKey u' m' uid' -> u = u' /\ m = m' /\ uid = uid'.
Proof.
  intros Hu Hu' Hd%u32_fits Hd'%u32_fits Heq.
  apply user_path in Heq as [-> Heq]; [|done..].
  apply (str_app_inv_head "mailbox/") in Heq.
  rewrite <- !(str_app_assoc m), <- !(str_app_assoc m') in Heq.
  apply str_app_inj_len_r in Heq as [Hm Hd'']; [|by rewrite !fmt_0d_length by (lia || done)].
  apply str_app_inj_len_r in Hm as [-> _]; [|done].
  split_and!; [done..|]. apply (fmt_0d_inj 10); by try lia.
Qed.

Lemma metaKey_inj u m u' m' :
  safe u -> safe u' -> mailboxMetaKey u m = mailboxMetaKey u' m' -> u = u' /\ m = m'.
Proof.
  intros Hu Hu' Heq. apply user_path in Heq as [-> Heq]; [|done..].
  apply (str_app_inv_head "mailbox/"), str_app_inj_len_r in Heq as [-> _]; done.
Qed.

(** The last byte tells metadata keys ("...a") from message keys (a digit). *)
Fixpoint last_char (s : string) : option ascii :=
  match s with "" => None | String c "" => Some c | String _ s' => last_char s' end.

Lemma last_char_app (a b : string) : b <> "" -> last_char (a +:+ b) = last_char b.
Proof.
  intros Hb. induction a as [|c a IH]; [done|]. rewrite app_cons'. cbn.
  destruct (a +:+ b) eqn:E; [|done]. destruct a; [by rewrite app_nil_l' in E|done].
Qed.

Lemma dec_fixed_last w z : 0 <= z -> (0 < w)%nat ->
  exists d, 0 <= d < 10 /\ last_char (dec_fixed w z "") = Some (digit d).
Proof.
  intros Hz Hw. destruct w as [|w]; [lia|]. cbn [dec_fixed].
  exists (z mod 10). split; [apply Z.mod_pos_bound; lia|].
  rewrite dec_fixed_app. by rewrite last_char_app.
Qed.

Lemma digit_not_a d : 0 <= d < 10 -> digit d <> "a"%char.
Proof.
  intros Hd Heq. apply (f_equal byte_of) in Heq. unfold digit in Heq.
  rewrite byte_char in Heq by lia. change (byte_of "a") with 97 in Heq. lia.
Qed.

Lemma metaKey_msgKey u m u' m' uid : in_u32 uid -> mailboxMetaKey u m <> mailboxMsgKey u' m' uid.
Proof.
  intros Hd Heq. apply (f_equal last_char) in Heq.
  unfold mailboxMetaKey, mailboxMsgKey in Heq. rewrite <- !str_app_assoc in Heq.
  apply u32_fits in Hd. rewrite fmt_0d_fixed in Heq by (lia || done).
  destruct (dec_fixed_last 10 uid) as (d&Hb&Hl); [lia..|].
  assert (dec_fixed 10 uid "" <> "") as Hne by (intros E; by rewrite E in Hl).
  rewrite !last_char_app in Heq by done. rewrite Hl in Heq.
  injection Heq as Heq. by apply (digit_not_a d).
Qed.

Lemma mailKey_metaKey u g u' m : safe u -> safe u' -> mailMetaKey u g <> mailboxMetaKey u' m.
Proof. intros ?? Heq. by apply user_path in Heq as [_ Heq]. Qed.

Lemma mailKey_msgKey u g u' m uid : safe u -> safe u' -> mailMetaKey u g <> mailboxMsgKey u' m uid.
Proof. intros ?? Heq. by apply user_path in Heq as [_ Heq]. Qed.

Lemma msgKey_prefix u m uid : String.prefix (mailboxMsgPrefix u m) (mailboxMsgKey u m uid) = true.
Proof.
  apply prefix_spec. exists (fmt_0d 10 uid).
  unfold mailboxMsgPrefix, mailboxMsgKey. by rewrite !str_app_assoc.
Qed.

(** The user ID in a [userID/mailbox] key is safe by construction. *)
Lemma Cut_safe s a b : Cut s "/" = Some (a, b) -> safe a.
Proof.
  unfold safe. revert a b. induction s as [|c s IH]; intros a b; [done|].
  cbn [Cut]. destruct (String.prefix "/" (String c s)) eqn:E.
  - intros Heq. by simplify_eq.
  - destruct (Cut s "/") as [[a' b']|]; [|done]. intros Heq. simplify_eq.
    rewrite has_char_cons. erewrite IH by done. rewrite orb_false_r.
    apply Ascii.eqb_neq. intros ->. cbn in E. by destruct s.
Qed.

Lemma SplitN2_safe s a b : SplitN s "/" 2 = [a; b] -> safe a.
Proof.
  cbn [SplitN]. destruct (Cut s "/") as [[x y]|] eqn:E; [|done].
  intros. simplify_eq. by eapply Cut_safe.
Qed.

Section Inv.
Context {DB : Type} `{PebbleLaws DB} `{MailCodecLaws} `{GoUnicode}.
Implicit Types c : gmap string string.

(** Decoded views of the stored records. *)
Definition meta_at c u m : option MailboxMeta :=
  v ← c !! mailboxMetaKey u m;
  match unmarshal v with Ok x => Some x | Err _ => None end.
Definition msg_at c u m uid : option MailboxMessage :=
  v ← c !! mailboxMsgKey u m uid;
  match unmarshal v with Ok x => Some x | Err _ => None end.

Definition mbox_inv c : Prop :=
  (forall u m v, safe u -> c !! mailboxMetaKey u m = Some v ->
     exists meta, meta_at c u m = Some meta /\ in_u32 (mb_UidNext meta)) /\
  (forall u m uid v, safe u -> in_u32 uid -> c !! mailboxMsgKey u m uid = Some v ->
     exists msg meta, msg_at c u m uid = Some msg /\ msg_Uid msg = uid /\
                      meta_at c u m = Some meta /\ uid < mb_UidNext meta).

(** No key below the message prefix of a mailbox belongs to another mailbox. *)
Definition unnested c u m : Prop :=
  forall k, is_Some (c !! k) -> String.prefix (mailboxMsgPrefix u m) k = true ->
  exists uid, in_u32 uid /\ k = mailboxMsgKey u m uid.

(** ** Lookup of updated stores *)

Lemma meta_at_congr c c' u m :
  c !! mailboxMetaKey u m = c' !! mailboxMetaKey u m -> meta_at c u m = meta_at c' u m.
Proof. unfold meta_at. by intros ->. Qed.

Lemma msg_at_congr c c' u m uid :
  c !! mailboxMsgKey u m uid = c' !! mailboxMsgKey u m uid -> msg_at c u m uid = msg_at c' u m uid.
Proof. unfold msg_at. by intros ->. Qed.

Lemma meta_at_insert c u m v meta :
  unmarshal v = Ok meta -> meta_at (<[mailboxMetaKey u m := v]> c) u m = Some meta.
Proof. unfold meta_at. intros Hv. rewrite lookup_insert_eq. cbn. by rewrite Hv. Qed.

Lemma msg_at_insert c u m uid v msg :
  unmarshal v = Ok msg -> msg_at (<[mailboxMsgKey u m uid := v]> c) u m uid = Some msg.
Proof. unfold msg_at. intros Hv. rewrite lookup_insert_eq. cbn. by rewrite Hv. Qed.

Lemma meta_at_insert_msg c u m u' m' uid v :
  in_u32 uid -> meta_at (<[mailboxMsgKey u' m' uid := v]> c) u m = meta_at c u m.
Proof.
  intros. apply meta_at_congr, lookup_insert_ne. symmetry. by apply metaKey_msgKey.
Qed.

Lemma msg_at_insert_meta c u m uid u' m' v :
  in_u32 uid -> msg_at (<[mailboxMetaKey u' m' := v]> c) u m uid = msg_at c u m uid.
Proof. intros. apply msg_at_congr, lookup_insert_ne. by apply metaKey_msgKey. Qed.

(** ** Preservation by elementary updates *)

(** A key that is neither a metadata nor a message key of a safe user. *)
Definition foreign (k : string) : Prop :=
  (forall u m, safe u -> k <> mailboxMetaKey u m) /\
  (forall u m uid, safe u -> in_u32 uid -> k <> mailboxMsgKey u m uid).

Lemma mailMetaKey_foreign u g : safe u -> foreign (mailMetaKey u g).
Proof. split; intros; [by apply mailKey_metaKey|by apply mailKey_msgKey]. Qed.

Lemma inv_congr c c' :
  (forall u m, safe u -> c' !! mailboxMetaKey u m = c !! mailboxMetaKey u m) ->
  (forall u m uid, safe u -> in_u32 uid -> c' !! mailboxMsgKey u m uid = c !! mailboxMsgKey u m uid) ->
  mbox_inv c -> mbox_inv c'.
Proof.
  intros Hm Hk [I1 I2]. split.
  - intros u m v Hu. rewrite Hm by done. intros (meta&?&?)%I1; [|done].
    exists meta. by rewrite (meta_at_congr _ c) by auto.
  - intros u m uid v Hu Hd. rewrite Hk by done. intros (msg&meta&?&?&?&?)%I2; [|done..].
    exists msg, meta. by rewrite (meta_at_congr _ c), (msg_at_congr _ c) by auto.
Qed.

Lemma inv_insert_foreign c k v : foreign k -> mbox_inv c -> mbox_inv (<[k := v]> c).
Proof.
  intros [F1 F2]. apply inv_congr; intros; apply lookup_insert_ne.
  - by apply F1.
  - by apply F2.
Qed.

Lemma inv_delete_msg c u m uid : in_u32 uid -> mbox_inv c -> mbox_inv (delete (mailboxMsgKey u m uid) c).
Proof.
  intros Hd [I1 I2].
  assert (forall u' m', meta_at (delete (mailboxMsgKey u m uid) c) u' m' = meta_at c u' m') as Hm.
  { intros. apply meta_at_congr, lookup_delete_ne. symmetry. by apply metaKey_msgKey. }
  split.
  - intros u' m' v Hu [_ Hl]%lookup_delete_Some. rewrite Hm. eauto.
  - intros u' m' uid' v Hu Hd' [Hne Hl]%lookup_delete_Some. rewrite Hm.
    rewrite (msg_at_congr _ c) by (by apply lookup_delete_ne). eauto.
Qed.

(** Allocation of the next UID of a mailbox: metadata, then the message. *)
Lemma inv_alloc c u m uid vm meta v msg :
  safe u -> in_u32 uid -> in_u32 (uid + 1) ->
  unmarshal vm = Ok meta -> mb_UidNext meta = uid + 1 ->
  unmarshal v = Ok msg -> msg_Uid msg = uid ->
  (forall uid', in_u32 uid' -> is_Some (c !! mailboxMsgKey u m uid') -> uid' < uid) ->
  mbox_inv c ->
  mbox_inv (<[mailboxMsgKey u m uid := v]> (<[mailboxMetaKey u m := vm]> c)).
Proof.
  intros Hu Hd Hd1 Hvm Hn Hv Huid Hold [I1 I2]. split.
  - intros u' m' v' Hu'. rewrite meta_at_insert_msg by done.
    destruct (decide (u' = u /\ m' = m)) as [[-> ->]|Hne].
    + intros _. exists meta. rewrite (meta_at_insert _ _ _ _ meta), Hn; auto.
    + assert (mailboxMetaKey u m <> mailboxMetaKey u' m') as Hk
        by (intros []%metaKey_inj; naive_solver).
      rewrite lookup_insert_ne by (symmetry; by apply metaKey_msgKey).
      rewrite lookup_insert_ne by done.
      rewrite (meta_at_congr _ c) by (by rewrite lookup_insert_ne). eauto.
  - intros u' m' uid' v' Hu' Hd' Hl. rewrite meta_at_insert_msg by done.
    destruct (decide (u' = u /\ m' = m)) as [[-> ->]|Hne].
    + rewrite (meta_at_insert _ _ _ _ meta) by done.
      destruct (decide (uid' = uid)) as [->|Hne].
      * exists msg, meta. rewrite (msg_at_insert _ _ _ _ _ msg) by done. auto with lia.
      * assert (mailboxMsgKey u m uid <> mailboxMsgKey u m uid') as Hk
          by (intros (?&?&?)%msgKey_inj; naive_solver).
        rewrite lookup_insert_ne, lookup_insert_ne in Hl by (done || by apply metaKey_msgKey).
        destruct (I2 u m uid' v') as (msg'&meta'&?&?&?&?); [done..|].
        exists msg', meta. rewrite (msg_at_congr _ (<[mailboxMetaKey u m:=vm]> c))
          by (by rewrite lookup_insert_ne).
        rewrite msg_at_insert_meta by done. assert (uid' < uid) by eauto. auto with lia.
    + assert (mailboxMsgKey u m uid <> mailboxMsgKey u' m' uid') as Hk
        by (intros (?&?&?)%msgKey_inj; naive_solver).
      assert (mailboxMetaKey u m <> mailboxMetaKey u' m') as Hk'
        by (intros []%metaKey_inj; naive_solver).
      rewrite lookup_insert_ne, lookup_insert_ne in Hl by (done || by apply metaKey_msgKey).
      destruct (I2 u' m' uid' v') as (msg'&meta'&?&?&?&?); [done..|].
      exists msg', meta'. rewrite (meta_at_congr _ c) by (by rewrite lookup_insert_ne).
      rewrite (msg_at_congr _ (<[mailboxMetaKey u m:=vm]> c)) by (by rewrite lookup_insert_ne).
      by rewrite msg_at_insert_meta.
Qed.

(** In a store that satisfies the invariant the next UID's key is free. *)
Lemma inv_below c u m meta uid' :
  mbox_inv c -> safe u -> meta_at c u m = Some meta -> in_u32 uid' ->
  is_Some (c !! mailboxMsgKey u m uid') -> uid' < mb_UidNext meta.
Proof.
  intros [_ I2] Hu Hm Hd [v Hl].
  destruct (I2 u m uid' v) as (?&meta'&_&_&?&?); [done..|]. by simplify_eq.
Qed.

Lemma inv_next_free c u m meta :
  mbox_inv c -> safe u -> meta_at c u m = Some meta -> in_u32 (mb_UidNext meta) ->
  c !! mailboxMsgKey u m (mb_UidNext meta) = None.
Proof.
  intros I Hu Hm Hd. destruct (c !! _) eqn:E; [|done].
  assert (mb_UidNext meta < mb_UidNext meta); [|lia]. by eapply inv_below.
Qed.

Lemma inv_no_meta_no_msg c u m uid :
  mbox_inv c -> safe u -> in_u32 uid -> c !! mailboxMetaKey u m = None ->
  c !! mailboxMsgKey u m uid = None.
Proof.
  intros [_ I2] Hu Hd Hm. destruct (c !! mailboxMsgKey u m uid) eqn:E; [|done].
  destruct (I2 u m uid _ Hu Hd E) as (?&?&_&_&Hm'&_).
  unfold meta_at in Hm'. by rewrite Hm in Hm'.
Qed.

End Inv.
#[export] Hint Resolve mailMetaKey_foreign inv_insert_foreign inv_delete_msg : bongo.
