(* ===== verification/MailboxLemmas.v ===== *)
(** What the reads, scans and staged batches of the mailbox store do to the
    decoded view of the store, and the effect of each synthetic command. *)

From S2P Require Import Prelude GoStrings Pebble Proto Mailbox MailboxInv.
From Stdlib Require Import Ascii.

Section Lemmas.
Context {DB : Type} `{PebbleLaws DB} `{MailCodecLaws} `{GoUnicode}.
Implicit Types c : gmap string string.

(** * Reads *)

Lemma readMailboxMeta_Ok s u m meta :
  readMailboxMeta s u m = Ok meta -> meta_at (contents s) u m = Some meta.
Proof.
  unfold readMailboxMeta, meta_at. intros. ginv.
  match goal with Hg : Get _ _ = Ok _ |- _ => apply Get_Ok in Hg as -> end. cbn.
  by match goal with Hu : unmarshal _ = Ok _ |- _ => rewrite Hu end.
Qed.

Lemma readMailboxMessage_Ok s u m uid msg :
  readMailboxMessage s u m uid = Ok msg -> msg_at (contents s) u m uid = Some msg.
Proof.
  unfold readMailboxMessage, msg_at. intros. ginv.
  match goal with Hg : Get _ _ = Ok _ |- _ => apply Get_Ok in Hg as -> end. cbn.
  by match goal with Hu : unmarshal _ = Ok _ |- _ => rewrite Hu end.
Qed.

Lemma readMailboxMeta_healthy s u m meta :
  healthy s -> meta_at (contents s) u m = Some meta -> readMailboxMeta s u m = Ok meta.
Proof.
  unfold readMailboxMeta, meta_at. intros Hs Hm. rewrite Get_healthy by done.
  destruct (contents s !! _); [|done]. cbn in *. by destruct (unmarshal s0); simplify_eq.
Qed.

(** On a healthy store the fallback of [readOrInitMailboxMeta] is taken exactly
    when the mailbox does not exist. *)
Lemma readOrInit_Ok s u m meta :
  healthy s -> safe u -> mbox_inv (contents s) ->
  readOrInitMailboxMeta s u m = Ok meta ->
  meta_at (contents s) u m = Some meta \/
  (contents s !! mailboxMetaKey u m = None /\ meta = mkMailboxMeta m 1 1 false).
Proof.
  unfold readOrInitMailboxMeta. intros Hs Hu [I1 _] Hr.
  destruct (readMailboxMeta s u m) as [x|e] eqn:E.
  { left. simplify_eq. by apply readMailboxMeta_Ok. }
  right. destruct (contents s !! mailboxMetaKey u m) eqn:El.
  - destruct (I1 _ _ _ Hu El) as (meta'&Hm&_).
    by rewrite (readMailboxMeta_healthy _ _ _ meta') in E.
  - split; [done|]. by case_match; simplify_eq.
Qed.

Lemma readOrInit_absent s u m :
  healthy s -> contents s !! mailboxMetaKey u m = None ->
  readOrInitMailboxMeta s u m = Ok (mkMailboxMeta m 1 1 false).
Proof.
  intros Hs Hn. unfold readOrInitMailboxMeta, readMailboxMeta.
  rewrite Get_healthy, Hn by done. cbn [of_option wrapf result_bind err_text].
  destruct (Cut_app_Some ("reading mailbox " +:+ quote m +:+ ": ") "key not found" "") as (x&y&E).
  rewrite str_app_nil_r, !str_app_assoc in E.
  unfold Contains. cbn [ErrNotFound err_text]. rewrite !str_app_assoc. by rewrite E.
Qed.

(** * Staged writes *)

Lemma writeMeta_Ok u m meta b :
  writeMailboxMetaBatch u m meta = Ok b ->
  exists v, b = [BSet (mailboxMetaKey u m) v] /\ unmarshal v = Ok meta.
Proof. unfold writeMailboxMetaBatch. intros. ginv. eexists. split; [done|]. by apply proto_roundtrip. Qed.

Lemma writeMsg_Ok u m uid msg b :
  writeMailboxMessageBatch u m uid msg = Ok b ->
  exists v, b = [BSet (mailboxMsgKey u m uid) v] /\ unmarshal v = Ok msg.
Proof. unfold writeMailboxMessageBatch. intros. ginv. eexists. split; [done|]. by apply proto_roundtrip. Qed.

Lemma stage2_Ok a b r : stage2 a b = Ok r <-> exists x y, a = Ok x /\ b = Ok y /\ r = x ++ y.
Proof. unfold stage2. destruct a, b; cbn; naive_solver. Qed.

(** The pair of writes every UID allocation makes. *)
Lemma alloc_batch_Ok u m meta uid msg b :
  stage2 (writeMailboxMetaBatch u m meta) (writeMailboxMessageBatch u m uid msg) = Ok b ->
  exists vm v, b = [BSet (mailboxMetaKey u m) vm; BSet (mailboxMsgKey u m uid) v] /\
               unmarshal vm = Ok meta /\ unmarshal v = Ok msg.
Proof.
  rewrite stage2_Ok. intros (x&y&(vm&->&?)%writeMeta_Ok&(v&->&?)%writeMsg_Ok&->). eauto 6.
Qed.

(** * Scans *)

Lemma parse_messages_Ok l msgs :
  parse_messages l = Ok msgs ->
  Forall2 (fun kv msg => exists v, kv.2 = Ok v /\ unmarshal v = Ok msg) l msgs.
Proof.
  revert msgs. induction l as [|[k r] l IH]; cbn; intros msgs Hp; [by simplify_eq|].
  unfold iter_value in Hp. ginv. constructor; eauto.
Qed.

(** A complete scan lists every message of the mailbox. *)
Lemma list_complete s u m msgs uid msg :
  healthy s -> listMailboxMessages s u m = Ok msgs ->
  msg_at (contents s) u m uid = Some msg -> msg ∈ msgs.
Proof.
  unfold listMailboxMessages, msg_at. intros Hs Hl Hm.
  rewrite PrefixScan_healthy in Hl by done. cbn in Hl. apply parse_messages_Ok in Hl.
  destruct (contents s !! _) as [v|] eqn:E; [|done]. cbn in Hm.
  assert ((mailboxMsgKey u m uid, v) ∈ scan (mailboxMsgPrefix u m) (contents s)) as Hin.
  { apply elem_of_scan. split; [done|apply msgKey_prefix]. }
  apply (list_elem_of_fmap_2 (fun kv => (kv.1, Ok kv.2))) in Hin.
  apply list_elem_of_lookup in Hin as [i Hi].
  destruct (Forall2_lookup_l _ _ _ _ _ Hl Hi) as (msg'&Hi'&v'&Hv'&Hu). cbn in Hv'.
  simplify_eq. rewrite Hu in Hm. simplify_eq. by eapply list_elem_of_lookup_2.
Qed.

(** Under [unnested] it lists nothing else. *)
Lemma list_sound s u m msgs msg :
  healthy s -> safe u -> mbox_inv (contents s) -> unnested (contents s) u m ->
  listMailboxMessages s u m = Ok msgs -> msg ∈ msgs ->
  in_u32 (msg_Uid msg) /\ msg_at (contents s) u m (msg_Uid msg) = Some msg.
Proof.
  unfold listMailboxMessages. intros Hs Hu [_ I2] Hn Hl Hm.
  rewrite PrefixScan_healthy in Hl by done. cbn in Hl. apply parse_messages_Ok in Hl.
  apply list_elem_of_lookup in Hm as [i Hi].
  destruct (Forall2_lookup_r _ _ _ _ _ Hl Hi) as ([k r]&Hi'&v&Hv&Hdec). cbn in Hv. subst r.
  apply list_elem_of_lookup_2, list_elem_of_fmap in Hi' as ([k' v']&Heq&Hin).
  simplify_eq. apply elem_of_scan in Hin as [Hc Hp].
  destruct (Hn k') as (uid&Hd&->); [eauto|done|].
  destruct (I2 u m uid v') as (msg'&?&Hat&<-&_); [done..|].
  assert (msg' = msg) as -> by (unfold msg_at in Hat; rewrite Hc in Hat; cbn in Hat;
    rewrite Hdec in Hat; by simplify_eq). done.
Qed.

(** A listing of a mailbox without nested names succeeds. *)
Lemma parse_messages_total l :
  Forall (fun kv => exists v (msg : MailboxMessage), kv.2 = Ok v /\ unmarshal v = Ok msg) l ->
  exists msgs, parse_messages l = Ok msgs.
Proof.
  induction 1 as [|[k r] l (v&msg&Hv&Hm) _ [msgs IH]]; [by eexists|].
  cbn in Hv. subst r. cbn. rewrite Hm. cbn. rewrite IH. by eexists.
Qed.

Lemma list_total s u m :
  healthy s -> safe u -> mbox_inv (contents s) -> unnested (contents s) u m ->
  exists msgs, listMailboxMessages s u m = Ok msgs.
Proof.
  intros Hs Hu [_ I2] Hn. unfold listMailboxMessages. rewrite PrefixScan_healthy by done. cbn.
  apply parse_messages_total, Forall_forall. intros kv ([k v]&->&Hin)%list_elem_of_fmap.
  apply elem_of_scan in Hin as [Hc Hp]. cbn.
  destruct (Hn k) as (uid&Hd&->); [eauto|done|].
  destruct (I2 u m uid v) as (msg&_&Hat&_); [done..|].
  exists v, msg. split; [done|]. unfold msg_at in Hat. rewrite Hc in Hat. cbn in Hat.
  by destruct (unmarshal v); simplify_eq.
Qed.

(** * Rename batches *)

Lemma renameMessages_spec u old new msgs b c :
  renameMessages u old new msgs = Ok b -> safe u -> old <> new ->
  Forall (fun m => in_u32 (msg_Uid m)) msgs ->
  (forall k, (forall m, m ∈ msgs -> k <> mailboxMsgKey u new (msg_Uid m) /\ k <> mailboxMsgKey u old (msg_Uid m)) ->
     apply_batch b c !! k = c !! k) /\
  (forall m, m ∈ msgs -> apply_batch b c !! mailboxMsgKey u old (msg_Uid m) = None) /\
  (forall m, m ∈ msgs -> exists m' v, m' ∈ msgs /\ msg_Uid m' = msg_Uid m /\ unmarshal v = Ok m' /\
     apply_batch b c !! mailboxMsgKey u new (msg_Uid m) = Some v).
Proof.
  intros Hb Hu Hne Hall. revert b c Hb.
  induction Hall as [|x msgs Hx Hall IH]; intros b c Hb; unfold renameMessages in Hb; fold (renameMessages u old new) in Hb.
  { simplify_eq. split_and!; [done|by intros ? ?%not_elem_of_nil..]. }
  apply stage2_Ok in Hb as (b1&b2&(v&->&Hv)%writeMsg_Ok&Hb&->).
  apply stage2_Ok in Hb as (b3&b4&[= <-]&Hb&->).
  cbn [app]. rewrite !apply_batch_cons. cbn [apply_op].
  set (c1 := delete _ _). destruct (IH b4 c1 Hb) as (P1&P2&P3).
  assert (forall d d', in_u32 d -> in_u32 d' -> mailboxMsgKey u new d <> mailboxMsgKey u old d') as Hon.
  { intros d d' Hd Hd' (?&?&?)%msgKey_inj; naive_solver. }
  assert (forall m, m ∈ msgs -> in_u32 (msg_Uid m)) as Hu32 by (by apply Forall_forall).
  split_and!.
  - intros k Hk. destruct (Hk x) as [? ?]; [set_solver|].
    rewrite P1 by (intros; apply Hk; set_solver). subst c1.
    by rewrite lookup_delete_ne, lookup_insert_ne.
  - intros m [->|Hm]%elem_of_cons; [|by apply P2].
    destruct (decide (msg_Uid x ∈ msg_Uid <$> msgs)) as [(m'&->&Hm')%list_elem_of_fmap|Hn]; [by apply P2|].
    rewrite P1; [by apply lookup_delete_eq|].
    intros m' Hm'. split; [apply not_eq_sym, Hon; auto|].
    intros (_&_&Heq)%msgKey_inj; auto. apply Hn, list_elem_of_fmap. eauto.
  - intros m [->|Hm]%elem_of_cons; [|destruct (P3 m Hm) as (m'&v'&?&?); set_solver].
    destruct (decide (msg_Uid x ∈ msg_Uid <$> msgs)) as [(m'&Heq&Hm')%list_elem_of_fmap|Hn].
    + rewrite Heq. destruct (P3 m' Hm') as (m''&v'&?&?&?&?). exists m'', v'. set_solver.
    + exists x, v. split_and!; [set_solver|done|done|].
      rewrite P1; [subst c1; rewrite lookup_delete_ne by (apply not_eq_sym, Hon; auto); apply lookup_insert_eq|].
      intros m' Hm'. split; [|apply Hon; auto].
      intros (_&_&Heq)%msgKey_inj; auto. apply Hn, list_elem_of_fmap. eauto.
Qed.

End Lemmas.

(** * Concrete codecs

    An instance of the codec classes, with which the model is evaluated. *)

(** Mail metadata with nothing but a GUID, which also names its blob, written
    as that GUID. *)
Definition demo_mail (guid : string) : MailMeta :=
  mkMailMeta guid "" "" "" [] 0 (Some (mkBlobRef guid 0 "" "")) [] "" 0 "" "" [] 0 "" "" "" "" [] [] "" "" "".
Definition demo_mail_codec : Codec MailMeta := {|
  marshal m := if decide (m = demo_mail (mm_Guid m)) then Ok (mm_Guid m) else Err (Errorf "proto: invalid message");
  unmarshal s := Ok (demo_mail s);
|}.
Definition demo_mail_laws : @ProtoLaws MailMeta demo_mail_codec.
Proof.
  refine (@Build_ProtoLaws MailMeta demo_mail_codec (fun m => m = demo_mail (mm_Guid m)) _ _); cbn.
  - intros a Ha. rewrite decide_True by done. eauto.
  - intros a b. case_decide; [|done]. intros [= <-]. congruence.
Defined.

(** Mailbox records carry a type tag.  Protobuf skips a field whose wire type
    does not match: mailbox metadata read as a message gives a message without
    UID and GUID whose flags are the UIDNEXT (field 3 of both). *)
Definition demo_meta_codec : Codec MailboxMeta := {|
  marshal x := if decide (in_u32 (mb_UidNext x)) then Ok (String "B" (pos_bits (encode x)))
               else Err (Errorf "proto: invalid message");
  unmarshal s := match s with
    | String "B" r => @unmarshal _ (checked_codec (fun x => in_u32 (mb_UidNext x))) r
    | _ => Err (Errorf "proto: cannot parse invalid wire-format data") end;
|}.
Definition demo_msg_codec : Codec MailboxMessage := {|
  marshal x := if decide (in_u32 (msg_Uid x)) then Ok (String "M" (pos_bits (encode x)))
               else Err (Errorf "proto: invalid message");
  unmarshal s := match s with
    | String "M" r => @unmarshal _ (checked_codec (fun x => in_u32 (msg_Uid x))) r
    | String "B" r =>
        let? x := @unmarshal _ (checked_codec (fun x => in_u32 (mb_UidNext x))) r in
        Ok (mkMailboxMessage 0 "" (mb_UidNext x) (if mb_Unsubscribed x then 1 else 0) [])
    | _ => Err (Errorf "proto: cannot parse invalid wire-format data") end;
|}.

Definition demo_meta_laws : @ProtoLaws MailboxMeta demo_meta_codec.
Proof.
  refine (@Build_ProtoLaws MailboxMeta demo_meta_codec (fun x => in_u32 (mb_UidNext x)) _ _).
  - intros a Ha. cbn. rewrite decide_True by done. eauto.
  - intros a b. cbn. case_decide; [|done]. intros [= <-].
    rewrite bits_pos_bits. cbn. rewrite decode_encode. by rewrite decide_True.
Defined.
Definition demo_msg_laws : @ProtoLaws MailboxMessage demo_msg_codec.
Proof.
  refine (@Build_ProtoLaws MailboxMessage demo_msg_codec (fun x => in_u32 (msg_Uid x)) _ _).
  - intros a Ha. cbn. rewrite decide_True by done. eauto.
  - intros a b. cbn. case_decide; [|done]. intros [= <-].
    rewrite bits_pos_bits. cbn. rewrite decode_encode. by rewrite decide_True.
Defined.

Definition demo_codecs : MailCodecs := {|
  mc_meta := demo_meta_codec;
  mc_msg := demo_msg_codec;
  mc_mail := demo_mail_codec;
  mc_transfer := json_codec (fun x => in_u32 (tp_SrcUID x));
  mc_rename := json_codec (fun _ => True);
  mc_delivery := json_codec (fun _ => True);
  mc_subscribe := json_codec (fun _ => True);
|}.

Definition demo_codec_laws : @MailCodecLaws demo_codecs.
Proof.
  refine (@Build_MailCodecLaws demo_codecs demo_meta_laws demo_msg_laws demo_mail_laws
           (json_laws _) (json_laws _) (json_laws _) (json_laws _) _ _ _ _ _).
  - intros v x. cbn. repeat case_match; try done. intros. by simplify_eq.
  - intros v x. cbn. repeat case_match; try done; intros; by simplify_eq/=.
  - done.
  - apply (json_decode (fun x : mailboxTransferPayload => in_u32 (tp_SrcUID x))).
  - by intros src uid dst _ _ Hd.
Defined.
