(* ===== verification/MailboxSteps.v ===== *)
(** Theorems on the synthetic mailbox commands: effect of each command,
    preservation of [mbox_inv], atomicity of failures, UID stability over
    arbitrary command sequences. *)

From S2P Require Import Prelude GoStrings Pebble Proto Mailbox MailboxInv MailboxLemmas.
From Stdlib Require Import Ascii.

(** Walk through a failing run: every read leaves the state alone. *)
Ltac gerr :=
  repeat match goal with
  | H : gbind _ _ _ = (_, Err _) |- _ => apply gbind_Err in H as [H|(?&?&?&H)]
  | H : (let (_, _) := ?p in _) _ = _ |- _ => destruct p
  | H : (if ?b then _ else _) _ = _ |- _ => destruct b eqn:?
  | _ => progress ginv
  end.

(** The same for a successful run. *)
Ltac gok :=
  repeat match goal with
  | H : (let (_, _) := ?p in _) _ = _ |- _ => destruct p
  | H : (if ?b then _ else _) _ = (_, Ok _) |- _ => destruct b eqn:?
  | H : (if ?b then _ else _) = Ok _ |- _ => destruct b eqn:?
  | _ => progress ginv
  end.

Section Effects.
Context {DB : Type} `{PebbleLaws DB} `{MailCodecLaws} `{GoUnicode}.
Implicit Types (c : gmap string string) (s : DB).

(** The metadata after one allocation. *)
Definition bump (meta : MailboxMeta) : MailboxMeta :=
  mkMailboxMeta (mb_Name meta) (mb_UidValidity meta) (u32 (mb_UidNext meta + 1)) (mb_Unsubscribed meta).

(** [c'] is [c] with [msg] allocated as the next message of [u]/[m], where
    [meta] is the metadata the allocation started from. *)
Definition allocates c c' u m meta msg : Prop :=
  exists vm v,
    unmarshal vm = Ok (bump meta) /\ unmarshal v = Ok msg /\ msg_Uid msg = mb_UidNext meta /\
    c' = <[mailboxMsgKey u m (mb_UidNext meta) := v]> (<[mailboxMetaKey u m := vm]> c).

Lemma scoped_key_Ok key prefix u m :
  parseMailboxScopedKey key prefix = Ok (u, m) -> safe u /\ u <> "" /\ m <> "".
Proof.
  unfold parseMailboxScopedKey. intros Hp.
  destruct (SplitN (TrimPrefix key prefix) "/" 2) as [|a [|b [|]]] eqn:E; try done.
  destruct (String.eqb_spec a ""), (String.eqb_spec b ""); simplify_eq/=.
  eauto using SplitN2_safe.
Qed.

(** The scoped keys the store builds parse back. *)
Lemma parse_scoped prefix u m :
  safe u -> u <> "" -> m <> "" ->
  parseMailboxScopedKey (prefix +:+ u +:+ "/" +:+ m) prefix = Ok (u, m).
Proof.
  intros Hu Hu' Hm. unfold parseMailboxScopedKey. rewrite TrimPrefix_app.
  rewrite SplitN_2_char by done.
  by destruct (String.eqb_spec u ""), (String.eqb_spec m "").
Qed.

Lemma transfer_Ok key value prefix u p :
  parseMailboxTransferCommand key value prefix = Ok (u, p) ->
  u = TrimPrefix key prefix /\ unmarshal value = Ok p /\ tp_SrcUID p <> 0.
Proof.
  unfold parseMailboxTransferCommand. intros. gok.
  split_and!; [done..|]. intros Hz. rewrite Hz in *. by rewrite orb_true_r in *.
Qed.

Lemma append_effect cmd s s' r :
  applyMailboxAppend cmd s = (s', Ok r) ->
  exists u m meta msg, safe u /\ meta_at (contents s) u m = Some meta /\
    allocates (contents s) (contents s') u m meta msg /\
    r = Some (mkCmdResult (Some (mkNewMail u m (mb_UidNext meta) (msg_MailGuid msg) None)) [] []).
Proof.
  unfold applyMailboxAppend. intros.
  destruct (SplitN _ "/" 2) as [|a [|b [|]]] eqn:Hsp; gok; try done.
  match goal with Hr : readMailboxMeta _ _ _ = Ok _ |- _ => apply readMailboxMeta_Ok in Hr end.
  match goal with Hb : commitSyncBatch _ _ = _ |- _ =>
    apply commitSyncBatch_Ok in Hb as (?&(vm&v&->&?&?)%alloc_batch_Ok&Hc) end.
  eexists _, _, _, _. split; [exact (SplitN2_safe (TrimPrefix (cmd_Key cmd) mailboxAppendPrefix) _ _ Hsp)|].
  split; [eassumption|].
  split; [exists vm, v; split_and!; [eassumption|eassumption|done|by rewrite Hc]|done].
Qed.

Lemma delivery_effect cmd s s' r :
  applyMailboxDelivery cmd s = (s', Ok r) ->
  exists u m p mail meta msg, safe u /\
    parseMailboxScopedKey (cmd_Key cmd) mailboxDeliverPrefix = Ok (u, m) /\
    unmarshal (cmd_Value cmd) = Ok p /\ unmarshal (dp_Meta p) = Ok mail /\ mm_Guid mail <> "" /\
    readOrInitMailboxMeta s u m = Ok meta /\
    msg = mkMailboxMessage (mb_UidNext meta) (mm_Guid mail) (dp_Flags p) (mm_ReceivedAt mail) (mm_Tags mail) /\
    allocates (<[mailMetaKey u (mm_Guid mail) := dp_Meta p]> (contents s)) (contents s') u m meta msg /\
    r = Some (mkCmdResult (Some (mkNewMail u m (mb_UidNext meta) (mm_Guid mail) (Some mail))) [] []).
Proof.
  unfold applyMailboxDelivery. intros. gok.
  match goal with Hb : commitSyncBatch _ _ = _ |- _ =>
    apply commitSyncBatch_Ok in Hb as (?&HB&Hc) end.
  apply stage2_Ok in HB as (?&?&[= <-]&(vm&v&->&?&?)%alloc_batch_Ok&->).
  do 6 eexists. split_and!; try done; [by eapply scoped_key_Ok|by apply String.eqb_neq|].
  exists vm, v. by rewrite Hc.
Qed.

(** COPY and MOVE share their reads and the allocation in the destination. *)
Lemma copy_effect cmd s s' r :
  applyMailboxCopy cmd s = (s', Ok r) ->
  exists p src dst, let u := TrimPrefix (cmd_Key cmd) mailboxCopyPrefix in
    unmarshal (cmd_Value cmd) = Ok p /\
    msg_at (contents s) u (tp_SrcMailbox p) (tp_SrcUID p) = Some src /\
    meta_at (contents s) u (tp_DstMailbox p) = Some dst /\
    allocates (contents s) (contents s') u (tp_DstMailbox p) dst (transferred src (mb_UidNext dst)) /\
    r = Some (mkCmdResult None [mkRef u (tp_DstMailbox p) (mb_UidNext dst)] []).
Proof.
  unfold applyMailboxCopy. intros. gok.
  repeat match goal with
  | Ht : parseMailboxTransferCommand _ _ _ = Ok _ |- _ => apply transfer_Ok in Ht as (->&?&?)
  | Hr : readMailboxMeta _ _ _ = Ok _ |- _ => apply readMailboxMeta_Ok in Hr
  | Hr : readMailboxMessage _ _ _ _ = Ok _ |- _ => apply readMailboxMessage_Ok in Hr
  | Hb : commitSyncBatch _ _ = _ |- _ =>
    apply commitSyncBatch_Ok in Hb as (?&(vm&v&->&?&?)%alloc_batch_Ok&Hc)
  end.
  do 3 eexists. split_and!; try done. exists vm, v. by rewrite Hc.
Qed.

Lemma move_effect cmd s s' r :
  applyMailboxMove cmd s = (s', Ok r) ->
  exists p src dst c1, let u := TrimPrefix (cmd_Key cmd) mailboxMovePrefix in
    unmarshal (cmd_Value cmd) = Ok p /\
    msg_at (contents s) u (tp_SrcMailbox p) (tp_SrcUID p) = Some src /\
    meta_at (contents s) u (tp_DstMailbox p) = Some dst /\
    allocates (contents s) c1 u (tp_DstMailbox p) dst (transferred src (mb_UidNext dst)) /\
    contents s' = delete (mailboxMsgKey u (tp_SrcMailbox p) (tp_SrcUID p)) c1 /\
    r = Some (mkCmdResult None [mkRef u (tp_DstMailbox p) (mb_UidNext dst)]
                               [mkRef u (tp_SrcMailbox p) (tp_SrcUID p)]).
Proof.
  unfold applyMailboxMove. intros. gok.
  repeat match goal with
  | Ht : parseMailboxTransferCommand _ _ _ = Ok _ |- _ => apply transfer_Ok in Ht as (->&?&?)
  | Hr : readMailboxMeta _ _ _ = Ok _ |- _ => apply readMailboxMeta_Ok in Hr
  | Hr : readMailboxMessage _ _ _ _ = Ok _ |- _ => apply readMailboxMessage_Ok in Hr
  | Hb : commitSyncBatch _ _ = _ |- _ => apply commitSyncBatch_Ok in Hb as (?&HB&Hc)
  end.
  match goal with Hb : stage2 _ _ = Ok _ |- _ =>
    apply stage2_Ok in Hb as (?&?&(vm&v&->&?&?)%alloc_batch_Ok&[= <-]&->) end.
  do 4 eexists. split_and!; try done; [|by rewrite Hc]. by exists vm, v.
Qed.

Lemma delete_effect cmd s s' r :
  applyMailboxDelete cmd s = (s', Ok r) ->
  exists u m msgs, safe u /\ EqualFold m "INBOX" = false /\ listMailboxMessages s u m = Ok msgs /\
    parseMailboxScopedKey (cmd_Key cmd) mailboxDeletePrefix = Ok (u, m) /\
    contents s' = delete (mailboxMetaKey u m)
      (apply_batch (BDelete <$> ((fun x => mailboxMsgKey u m (msg_Uid x)) <$> msgs)) (contents s)).
Proof.
  unfold applyMailboxDelete. intros. gok.
  match goal with Hb : commitSyncBatch _ _ = _ |- _ =>
    apply commitSyncBatch_Ok in Hb as (?&[= <-]&Hc) end.
  do 3 eexists. split_and!; try done; [by eapply scoped_key_Ok|].
  rewrite Hc, apply_batch_app. done.
Qed.

Lemma expunge_effect cmd s s' r :
  applyMailboxExpunge cmd s = (s', Ok r) ->
  exists u m msgs, safe u /\ listMailboxMessages s u m = Ok msgs /\
    parseMailboxScopedKey (cmd_Key cmd) mailboxExpungePrefix = Ok (u, m) /\
    let gone := filter (fun x => has_bits (msg_Flags x) FlagDeleted = true) msgs in
    contents s' = apply_batch (BDelete <$> ((fun x => mailboxMsgKey u m (msg_Uid x)) <$> gone)) (contents s) /\
    r = Some (mkCmdResult None [] ((fun x => mkRef u m (msg_Uid x)) <$> gone)).
Proof.
  unfold applyMailboxExpunge. intros. gok.
  match goal with Hb : commitSyncBatch _ _ = _ |- _ =>
    apply commitSyncBatch_Ok in Hb as (?&[= <-]&Hc) end.
  do 3 eexists. split_and!; try done. by eapply scoped_key_Ok.
Qed.

Lemma rename_effect cmd s s' r :
  applyMailboxRename cmd s = (s', Ok r) ->
  exists p old msgs vm b, let u := TrimPrefix (cmd_Key cmd) mailboxRenamePrefix in
    unmarshal (cmd_Value cmd) = Ok p /\ rp_OldName p <> rp_NewName p /\
    EqualFold (rp_OldName p) "INBOX" = false /\ EqualFold (rp_NewName p) "INBOX" = false /\
    meta_at (contents s) u (rp_OldName p) = Some old /\
    contents s !! mailboxMetaKey u (rp_NewName p) = None /\
    listMailboxMessages s u (rp_OldName p) = Ok msgs /\
    unmarshal vm = Ok (mkMailboxMeta (rp_NewName p) (mb_UidValidity old) (mb_UidNext old) (mb_Unsubscribed old)) /\
    renameMessages u (rp_OldName p) (rp_NewName p) msgs = Ok b /\
    contents s' = delete (mailboxMetaKey u (rp_OldName p))
      (apply_batch b (<[mailboxMetaKey u (rp_NewName p) := vm]> (contents s))).
Proof.
  unfold applyMailboxRename, parseMailboxRenameCommand. intros. gok.
  match goal with Hg : context [Get ?st ?k] |- _ => destruct (Get st k) as [|e] eqn:Hget end; [done|].
  match goal with Hg : context [errors_is ?e1 ?e2] |- _ => destruct (errors_is e1 e2) eqn:His end; [|done].
  simplify_eq.
  match goal with Hr : readMailboxMeta _ _ _ = Ok _ |- _ => apply readMailboxMeta_Ok in Hr end.
  match goal with Hb : commitSyncBatch _ _ = _ |- _ =>
    apply commitSyncBatch_Ok in Hb as (?&HB&Hc) end.
  apply stage2_Ok in HB as (?&?&(vm&->&?)%writeMeta_Ok&HB&->).
  apply stage2_Ok in HB as (b&?&?&[= <-]&->).
  match goal with Hn : orb (EqualFold (rp_NewName _) _) _ = false |- _ =>
    apply orb_false_iff in Hn as [? ?%String.eqb_neq] end.
  eexists _, _, _, vm, b. split_and!; try done.
  - by eapply Get_NotFound.
  - rewrite Hc, !apply_batch_app. done.
Qed.

Lemma subscribe_effect cmd s s' r :
  applyMailboxSubscribe cmd s = (s', Ok r) ->
  exists u m p meta vm, safe u /\
    parseMailboxScopedKey (cmd_Key cmd) mailboxSubscribePrefix = Ok (u, m) /\
    unmarshal (cmd_Value cmd) = Ok p /\ meta_at (contents s) u m = Some meta /\
    unmarshal vm = Ok (mkMailboxMeta (mb_Name meta) (mb_UidValidity meta) (mb_UidNext meta) (negb (sp_Subscribed p))) /\
    contents s' = <[mailboxMetaKey u m := vm]> (contents s).
Proof.
  unfold applyMailboxSubscribe. intros. gok.
  match goal with Hr : readMailboxMeta _ _ _ = Ok _ |- _ => apply readMailboxMeta_Ok in Hr end.
  match goal with Hb : commitSyncBatch _ _ = _ |- _ =>
    apply commitSyncBatch_Ok in Hb as (?&(vm&->&?)%writeMeta_Ok&Hc) end.
  eexists _, _, _, _, vm. split_and!; try done. by eapply scoped_key_Ok.
Qed.

(** A failing command leaves the store as it was. *)
Lemma command_error cmd s s' e :
  ApplyMailboxCommand cmd s = (s', Err e) -> contents s' = contents s.
Proof.
  unfold ApplyMailboxCommand, no_result, applyMailboxAppend, applyMailboxCopy, applyMailboxDelete,
    applyMailboxDelivery, applyMailboxExpunge, applyMailboxMove, applyMailboxRename, applyMailboxSubscribe.
  intros Hr. repeat case_match; gerr; try done; eauto using commitSyncBatch_Err.
Qed.

(** * Preservation of the invariant and stability of UIDs *)

(** No mailbox has used up its 32-bit UIDs. *)
Definition uid_room c : Prop :=
  forall u m meta, safe u -> meta_at c u m = Some meta -> mb_UidNext meta + 1 < 2 ^ 32.

(** One step never lowers the UIDNEXT of a mailbox that stays, keeps its
    UIDVALIDITY, and an old UID either keeps its message or loses it. *)
Definition evolves c c' : Prop :=
  forall u m meta meta', safe u -> meta_at c u m = Some meta -> meta_at c' u m = Some meta' ->
  mb_UidNext meta <= mb_UidNext meta' /\ mb_UidValidity meta' = mb_UidValidity meta /\
  forall uid, in_u32 uid -> uid < mb_UidNext meta ->
    msg_at c' u m uid = msg_at c u m uid \/ msg_at c' u m uid = None.

Lemma evolves_congr c c' :
  (forall u m, safe u -> c' !! mailboxMetaKey u m = c !! mailboxMetaKey u m) ->
  (forall u m uid, safe u -> in_u32 uid ->
     c' !! mailboxMsgKey u m uid = c !! mailboxMsgKey u m uid \/ c' !! mailboxMsgKey u m uid = None) ->
  evolves c c'.
Proof.
  intros Hm Hk u m meta meta' Hu Hat Hat'. rewrite (meta_at_congr _ c) in Hat' by auto.
  simplify_eq. split_and!; [done..|]. intros uid Hd _.
  destruct (Hk u m uid Hu Hd) as [Heq|Hn]; [left; by apply msg_at_congr|right].
  unfold msg_at. by rewrite Hn.
Qed.

(** The state an allocation starts from: an existing mailbox, or none. *)
Definition alloc_from c u m meta : Prop :=
  meta_at c u m = Some meta \/ (c !! mailboxMetaKey u m = None /\ mb_UidNext meta = 1).

Lemma alloc_from_below c u m meta uid :
  mbox_inv c -> safe u -> alloc_from c u m meta -> in_u32 uid ->
  is_Some (c !! mailboxMsgKey u m uid) -> uid < mb_UidNext meta.
Proof.
  intros I Hu [Hm|[Hn _]] Hd Hs; [by eapply inv_below|].
  rewrite inv_no_meta_no_msg in Hs by done. by destruct Hs.
Qed.

Lemma alloc_from_range c u m meta : alloc_from c u m meta -> in_u32 (mb_UidNext meta).
Proof.
  intros [Hm|[_ ->]]; [|done]. unfold meta_at in Hm.
  destruct (c !! _) as [v|]; [|done]. cbn in Hm.
  destruct (unmarshal v) eqn:E; simplify_eq. by eapply ml_meta_range.
Qed.

Lemma bump_next meta : in_u32 (mb_UidNext meta + 1) -> mb_UidNext (bump meta) = mb_UidNext meta + 1.
Proof. intros. cbn. by apply u32_small. Qed.

Lemma allocates_inv c c' u m meta msg :
  mbox_inv c -> safe u -> alloc_from c u m meta -> in_u32 (mb_UidNext meta + 1) ->
  allocates c c' u m meta msg -> mbox_inv c'.
Proof.
  intros I Hu Hf Hr (vm&v&Hvm&Hv&Huid&->).
  eapply inv_alloc; eauto using alloc_from_below, alloc_from_range, bump_next.
Qed.

Lemma allocates_evolves c c' u m meta msg :
  safe u -> alloc_from c u m meta -> in_u32 (mb_UidNext meta + 1) ->
  allocates c c' u m meta msg -> evolves c c'.
Proof.
  intros Hu Hf Hr (vm&v&Hvm&Hv&Huid&->) u' m' x x' Hu' Hx Hx'.
  pose proof (alloc_from_range _ _ _ _ Hf) as Hd.
  rewrite meta_at_insert_msg in Hx' by done.
  destruct (decide (u' = u /\ m' = m)) as [[-> ->]|Hne].
  - rewrite (meta_at_insert _ _ _ _ (bump meta)) in Hx' by done. injection Hx' as <-.
    destruct Hf as [Hm|[Hn _]]; [|unfold meta_at in Hx; by rewrite Hn in Hx].
    simplify_eq. rewrite bump_next by done. split_and!; [lia|done|].
    intros uid Hd' Hlt. left. rewrite <- (msg_at_insert_meta c u m uid u m vm) by done.
    apply msg_at_congr, lookup_insert_ne. intros (_&_&?)%msgKey_inj; auto with lia.
  - assert (mailboxMetaKey u m <> mailboxMetaKey u' m') as Hk
      by (intros []%metaKey_inj; naive_solver).
    rewrite (meta_at_congr _ c) in Hx' by (by rewrite lookup_insert_ne). simplify_eq.
    split_and!; [done..|]. intros uid Hd' Hlt. left.
    rewrite <- (msg_at_insert_meta c u' m' uid u m vm) by done.
    apply msg_at_congr, lookup_insert_ne. intros (?&?&?)%msgKey_inj; naive_solver.
Qed.

(** Deleting any set of message keys. *)
Lemma deletes_lookup_meta c u m (uids : list MailboxMessage) u' m' :
  Forall (fun x => in_u32 (msg_Uid x)) uids ->
  apply_batch (BDelete <$> ((fun x => mailboxMsgKey u m (msg_Uid x)) <$> uids)) c !! mailboxMetaKey u' m'
  = c !! mailboxMetaKey u' m'.
Proof.
  intros Hall. rewrite apply_deletes. case_decide as Hin; [|done].
  apply list_elem_of_fmap in Hin as (x&Hk&Hx). rewrite Forall_forall in Hall.
  exfalso. eapply metaKey_msgKey; [|exact Hk]. by apply Hall.
Qed.

Lemma deletes_lookup_msg c u m (uids : list MailboxMessage) k :
  let c' := apply_batch (BDelete <$> ((fun x => mailboxMsgKey u m (msg_Uid x)) <$> uids)) c in
  c' !! k = c !! k \/ c' !! k = None.
Proof. cbn. rewrite apply_deletes. case_decide; auto. Qed.

Lemma list_range s u m msgs :
  listMailboxMessages s u m = Ok msgs -> Forall (fun x => in_u32 (msg_Uid x)) msgs.
Proof.
  unfold listMailboxMessages. intros. ginv.
  match goal with Hp : parse_messages _ = _ |- _ => apply parse_messages_Ok in Hp as Hall end.
  apply Forall_forall. intros y [i Hi]%list_elem_of_lookup.
  destruct (Forall2_lookup_r _ _ _ _ _ Hall Hi) as (?&_&v&_&Hv). by eapply ml_msg_range.
Qed.

Lemma deletes_inv c u m (uids : list MailboxMessage) :
  Forall (fun x => in_u32 (msg_Uid x)) uids -> mbox_inv c ->
  mbox_inv (apply_batch (BDelete <$> ((fun x => mailboxMsgKey u m (msg_Uid x)) <$> uids)) c).
Proof.
  intros Hall. revert c. induction Hall as [|x l Hx Hall IH]; intros c I; [done|].
  cbn. apply IH. by apply inv_delete_msg.
Qed.

Lemma delete_inv cmd s s' r :
  applyMailboxDelete cmd s = (s', Ok r) -> healthy s -> mbox_inv (contents s) ->
  mbox_inv (contents s') /\ evolves (contents s) (contents s').
Proof.
  intros (u&m&msgs&Hu&_&Hl&_&->)%delete_effect Hs I.
  pose proof (list_range _ _ _ _ Hl) as Hr.
  set (c1 := apply_batch _ _).
  assert (forall u' m', (u', m') <> (u, m) -> safe u' ->
    delete (mailboxMetaKey u m) c1 !! mailboxMetaKey u' m' = contents s !! mailboxMetaKey u' m') as Hmeta.
  { intros u' m' Hne Hu'. rewrite lookup_delete_ne by (intros []%metaKey_inj; naive_solver).
    by apply deletes_lookup_meta. }
  assert (forall u' m' uid, in_u32 uid ->
    delete (mailboxMetaKey u m) c1 !! mailboxMsgKey u' m' uid = c1 !! mailboxMsgKey u' m' uid) as Hmsg.
  { intros. apply lookup_delete_ne. by apply metaKey_msgKey. }
  assert (mbox_inv c1) as [J1 J2] by (by apply deletes_inv).
  split; [split|].
  - intros u' m' v Hu' Hv. destruct (decide ((u', m') = (u, m))) as [[= -> ->]|Hne];
      [by rewrite lookup_delete_eq in Hv|].
    rewrite (meta_at_congr _ (contents s)) by auto. rewrite Hmeta in Hv by done.
    by eapply (proj1 I).
  - intros u' m' uid v Hu' Hd Hv. rewrite Hmsg in Hv by done.
    destruct (J2 _ _ _ _ Hu' Hd Hv) as (msg&meta&Hm&Huid&Hmt&Hlt).
    rewrite (msg_at_congr _ c1) by auto. exists msg, meta. split_and!; try done.
    destruct (decide ((u', m') = (u, m))) as [[= -> ->]|Hne].
    + (* every message of the deleted mailbox was listed, hence removed *)
      exfalso. assert (contents s !! mailboxMsgKey u m uid = Some v) as Hv0.
      { destruct (deletes_lookup_msg (contents s) u m msgs (mailboxMsgKey u m uid)); subst c1; congruence. }
      destruct (proj2 I _ _ _ _ Hu Hd Hv0) as (x&_&Hx&Hxu&_).
      pose proof (list_complete _ _ _ _ _ _ Hs Hl Hx) as Hin.
      subst c1. rewrite apply_deletes, decide_True in Hv; [done|].
      apply list_elem_of_fmap. exists x. by rewrite Hxu.
    + rewrite (meta_at_congr _ (contents s)) by auto.
      by rewrite (meta_at_congr c1 (contents s)) in Hmt by (by apply deletes_lookup_meta).
  - intros u' m' x x' Hu' Hx Hx'. destruct (decide ((u', m') = (u, m))) as [[= -> ->]|Hne].
    { unfold meta_at in Hx'. by rewrite lookup_delete_eq in Hx'. }
    rewrite (meta_at_congr _ (contents s)) in Hx' by auto. simplify_eq.
    split_and!; [done..|]. intros uid Hd _.
    destruct (deletes_lookup_msg (contents s) u m msgs (mailboxMsgKey u' m' uid)) as [Heq|Hn].
    + left. apply msg_at_congr. by rewrite Hmsg.
    + right. unfold msg_at. rewrite Hmsg by done. subst c1. by rewrite Hn.
Qed.

Lemma expunge_inv cmd s s' r :
  applyMailboxExpunge cmd s = (s', Ok r) -> mbox_inv (contents s) ->
  mbox_inv (contents s') /\ evolves (contents s) (contents s').
Proof.
  intros (u&m&msgs&Hu&Hl&_&->&_)%expunge_effect I.
  pose proof (Forall_filter_intro (fun x => has_bits (msg_Flags x) FlagDeleted = true) _ _
                (list_range _ _ _ _ Hl)) as Hr.
  split; [by apply deletes_inv|]. apply evolves_congr; intros.
  - by apply deletes_lookup_meta.
  - apply deletes_lookup_msg.
Qed.

Lemma meta_rewrite_inv c u m meta meta' vm :
  mbox_inv c -> safe u -> meta_at c u m = Some meta -> unmarshal vm = Ok meta' ->
  mb_UidNext meta' = mb_UidNext meta -> mb_UidValidity meta' = mb_UidValidity meta ->
  mbox_inv (<[mailboxMetaKey u m := vm]> c) /\ evolves c (<[mailboxMetaKey u m := vm]> c).
Proof.
  intros I Hu Hm Hvm Hn Hval. set (c' := <[_ := _]> c).
  assert (forall u' m', safe u' -> (u', m') <> (u, m) -> meta_at c' u' m' = meta_at c u' m') as Hoth.
  { intros. apply meta_at_congr, lookup_insert_ne. intros []%metaKey_inj; naive_solver. }
  assert (meta_at c' u m = Some meta') as Hm' by (by apply meta_at_insert).
  assert (forall u' m' uid, in_u32 uid -> msg_at c' u' m' uid = msg_at c u' m' uid) as Hmsg
    by (intros; by apply msg_at_insert_meta).
  split; [split|].
  - intros u' m' v Hu' Hv. destruct (decide ((u', m') = (u, m))) as [[= -> ->]|Hne].
    + exists meta'. split; [done|]. by eapply ml_meta_range.
    + rewrite Hoth by done. subst c'.
      rewrite lookup_insert_ne in Hv by (intros []%metaKey_inj; naive_solver). by eapply (proj1 I).
  - intros u' m' uid v Hu' Hd Hv. subst c'. rewrite lookup_insert_ne in Hv by (by apply metaKey_msgKey).
    destruct (proj2 I _ _ _ _ Hu' Hd Hv) as (msg&x&?&?&?&?). rewrite Hmsg by done.
    destruct (decide ((u', m') = (u, m))) as [[= -> ->]|Hne].
    + exists msg, meta'. simplify_eq. auto with lia.
    + exists msg, x. by rewrite Hoth.
  - intros u' m' x x' Hu' Hx Hx'. destruct (decide ((u', m') = (u, m))) as [[= -> ->]|Hne].
    + simplify_eq. split_and!; [lia|done|]. intros uid Hd _. left. auto.
    + rewrite Hoth in Hx' by done. simplify_eq. split_and!; [done..|]. intros uid Hd _. left. auto.
Qed.

(** ** Rename *)

(** The store after [old] became [new]. *)
Record renamed c c' u old new meta : Prop := {
  rn_meta_new : meta_at c' u new =
    Some (mkMailboxMeta new (mb_UidValidity meta) (mb_UidNext meta) (mb_Unsubscribed meta));
  rn_meta_old : c' !! mailboxMetaKey u old = None;
  rn_msg_new uid : in_u32 uid -> msg_at c' u new uid = msg_at c u old uid;
  rn_msg_new_some uid : in_u32 uid -> is_Some (c' !! mailboxMsgKey u new uid) -> is_Some (c !! mailboxMsgKey u old uid);
  rn_msg_old uid : in_u32 uid -> c' !! mailboxMsgKey u old uid = None;
  rn_meta_other u' m' : safe u' -> (u', m') <> (u, old) -> (u', m') <> (u, new) ->
    c' !! mailboxMetaKey u' m' = c !! mailboxMetaKey u' m';
  rn_msg_other u' m' uid : safe u' -> in_u32 uid -> (u', m') <> (u, old) -> (u', m') <> (u, new) ->
    c' !! mailboxMsgKey u' m' uid = c !! mailboxMsgKey u' m' uid }.

Lemma listed_uid s u m msgs uid v :
  healthy s -> safe u -> mbox_inv (contents s) -> listMailboxMessages s u m = Ok msgs -> in_u32 uid ->
  contents s !! mailboxMsgKey u m uid = Some v -> exists x, x ∈ msgs /\ msg_Uid x = uid.
Proof.
  intros Hs Hu I Hl Hd Hv. destruct (proj2 I _ _ _ _ Hu Hd Hv) as (x&_&Hx&Hxu&_).
  eauto using list_complete.
Qed.

(** A key of [u] with a UID is either one of a listed message or untouched. *)
Lemma listed_or_free s u m msgs uid :
  healthy s -> safe u -> mbox_inv (contents s) -> listMailboxMessages s u m = Ok msgs -> in_u32 uid ->
  (exists x, x ∈ msgs /\ msg_Uid x = uid) \/
  (contents s !! mailboxMsgKey u m uid = None /\
   forall m' new x, x ∈ msgs -> mailboxMsgKey u m' uid <> mailboxMsgKey u new (msg_Uid x)).
Proof.
  intros Hs Hu I Hl Hd. pose proof (list_range _ _ _ _ Hl) as Hr. rewrite Forall_forall in Hr.
  destruct (decide (uid ∈ msg_Uid <$> msgs)) as [(x&->&Hx)%list_elem_of_fmap|Hout]; [eauto|].
  right. split.
  - destruct (contents s !! _) eqn:E; [|done].
    destruct (listed_uid _ _ _ _ _ _ Hs Hu I Hl Hd E) as (x&Hx&<-).
    destruct Hout. apply list_elem_of_fmap. eauto.
  - intros m' new x Hx (_&_&->)%msgKey_inj; auto. apply Hout, list_elem_of_fmap. eauto.
Qed.

Lemma rename_batch_view s c' u old new meta vm msgs b :
  healthy s -> mbox_inv (contents s) -> safe u -> old <> new -> unnested (contents s) u old ->
  contents s !! mailboxMetaKey u new = None ->
  listMailboxMessages s u old = Ok msgs ->
  unmarshal vm = Ok (mkMailboxMeta new (mb_UidValidity meta) (mb_UidNext meta) (mb_Unsubscribed meta)) ->
  renameMessages u old new msgs = Ok b ->
  c' = delete (mailboxMetaKey u old) (apply_batch b (<[mailboxMetaKey u new := vm]> (contents s))) ->
  renamed (contents s) c' u old new meta.
Proof.
  intros Hs I Hu Hne Hn Hfree Hl Hvm Hb ->.
  pose proof (list_range _ _ _ _ Hl) as Hr.
  destruct (renameMessages_spec u _ _ _ _ (<[mailboxMetaKey u new := vm]> (contents s)) Hb Hu Hne Hr) as (P1&P2&P3).
  rewrite Forall_forall in Hr. set (c2 := apply_batch _ _) in *.
  assert (forall u' m' uid, in_u32 uid ->
    delete (mailboxMetaKey u old) c2 !! mailboxMsgKey u' m' uid = c2 !! mailboxMsgKey u' m' uid) as Hd2.
  { intros. by apply lookup_delete_ne, metaKey_msgKey. }
  assert (forall u' m', c2 !! mailboxMetaKey u' m' =
    <[mailboxMetaKey u new := vm]> (contents s) !! mailboxMetaKey u' m') as Hm2.
  { intros. apply P1. intros x Hx. split; apply metaKey_msgKey; auto. }
  assert (forall u' m' uid, in_u32 uid -> (forall x, x ∈ msgs ->
      mailboxMsgKey u' m' uid <> mailboxMsgKey u new (msg_Uid x) /\
      mailboxMsgKey u' m' uid <> mailboxMsgKey u old (msg_Uid x)) ->
    c2 !! mailboxMsgKey u' m' uid = contents s !! mailboxMsgKey u' m' uid) as Hk2.
  { intros. rewrite P1 by done. by apply lookup_insert_ne, metaKey_msgKey. }
  assert (forall uid, in_u32 uid -> msg_at c2 u new uid = msg_at (contents s) u old uid /\
    (is_Some (c2 !! mailboxMsgKey u new uid) -> is_Some (contents s !! mailboxMsgKey u old uid)) /\
    c2 !! mailboxMsgKey u old uid = None) as Hmsgs.
  { intros uid Hd. destruct (listed_or_free s u old msgs uid) as [(x&Hx&<-)|[Hno Hfar]]; try done.
    - destruct (P3 x Hx) as (x'&v&Hx'&Hxu&Hdec&Hk).
      destruct (list_sound s u old msgs x') as [_ Hat]; try done. rewrite Hxu in Hat.
      split_and!; [|intros _|by apply P2].
      + rewrite Hat. unfold msg_at. rewrite Hk. cbn. by rewrite Hdec.
      + unfold msg_at in Hat. by destruct (contents s !! mailboxMsgKey u old _); [|done].
    - assert (c2 !! mailboxMsgKey u new uid = None) as Hnn.
      { rewrite Hk2 by auto. by apply inv_no_meta_no_msg. }
      split_and!; [|rewrite Hnn; by intros []|by rewrite Hk2 by auto]. unfold msg_at. by rewrite Hnn, Hno. }
  assert (forall m', m' <> old -> mailboxMetaKey u old <> mailboxMetaKey u m') as Hmk.
  { intros m' Hm []%metaKey_inj; naive_solver. }
  split.
  - rewrite (meta_at_congr _ (<[mailboxMetaKey u new := vm]> (contents s))); [by apply meta_at_insert|].
    rewrite lookup_delete_ne by auto. apply Hm2.
  - apply lookup_delete_eq.
  - intros uid Hd. rewrite (msg_at_congr _ c2) by auto. by apply Hmsgs.
  - intros uid Hd. rewrite Hd2 by done. by apply Hmsgs.
  - intros uid Hd. rewrite Hd2 by done. by apply Hmsgs.
  - intros u' m' Hu' Ho Hw. rewrite lookup_delete_ne by (intros []%metaKey_inj; naive_solver).
    rewrite Hm2. apply lookup_insert_ne. intros []%metaKey_inj; naive_solver.
  - intros u' m' uid Hu' Hd Ho Hw. rewrite Hd2 by done. apply Hk2; [done|].
    intros x Hx. split; intros (?&?&?)%msgKey_inj; naive_solver.
Qed.

Lemma renamed_inv c c' u old new meta :
  mbox_inv c -> safe u -> meta_at c u old = Some meta -> c !! mailboxMetaKey u new = None ->
  renamed c c' u old new meta -> mbox_inv c' /\ evolves c c'.
Proof.
  intros I Hu Hmo Hfree R.
  assert (in_u32 (mb_UidNext meta)) as Hrange by (eapply alloc_from_range; by left).
  split; [split|].
  - intros u' m' v Hu' Hv.
    destruct (decide ((u', m') = (u, old))) as [[= -> ->]|]; [by rewrite (rn_meta_old _ _ _ _ _ _ R) in Hv|].
    destruct (decide ((u', m') = (u, new))) as [[= -> ->]|].
    { eexists. split; [exact (rn_meta_new _ _ _ _ _ _ R)|done]. }
    rewrite (rn_meta_other _ _ _ _ _ _ R) in Hv by done.
    rewrite (meta_at_congr _ c) by (by apply (rn_meta_other _ _ _ _ _ _ R)). by eapply (proj1 I).
  - intros u' m' uid v Hu' Hd Hv.
    destruct (decide ((u', m') = (u, old))) as [[= -> ->]|]; [by rewrite (rn_msg_old _ _ _ _ _ _ R) in Hv|].
    destruct (decide ((u', m') = (u, new))) as [[= -> ->]|].
    + destruct (rn_msg_new_some _ _ _ _ _ _ R uid Hd) as [v' Hv']; [done|].
      destruct (proj2 I _ _ _ _ Hu Hd Hv') as (x&meta'&?&?&?&?). simplify_eq.
      exists x. eexists. rewrite (rn_msg_new _ _ _ _ _ _ R) by done.
      split_and!; [done..|exact (rn_meta_new _ _ _ _ _ _ R)|done].
    + rewrite (rn_msg_other _ _ _ _ _ _ R) in Hv by done.
      rewrite (meta_at_congr _ c) by (by apply (rn_meta_other _ _ _ _ _ _ R)).
      rewrite (msg_at_congr _ c) by (by apply (rn_msg_other _ _ _ _ _ _ R)). by eapply (proj2 I).
  - intros u' m' x x' Hu' Hx Hx'.
    destruct (decide ((u', m') = (u, old))) as [[= -> ->]|].
    { unfold meta_at in Hx'. by rewrite (rn_meta_old _ _ _ _ _ _ R) in Hx'. }
    destruct (decide ((u', m') = (u, new))) as [[= -> ->]|].
    { unfold meta_at in Hx. by rewrite Hfree in Hx. }
    rewrite (meta_at_congr _ c) in Hx' by (by apply (rn_meta_other _ _ _ _ _ _ R)).
    simplify_eq. split_and!; [done..|].
    intros uid Hd _. left. apply msg_at_congr. by apply (rn_msg_other _ _ _ _ _ _ R).
Qed.

(** ** Every command *)

(** What the callers of the synthetic commands guarantee: user IDs are single
    path segments, and a mailbox that is renamed holds no nested mailbox named
    below its message prefix. *)
Definition admissible c (cmd : RaftCommand) : Prop :=
  (HasPrefix (cmd_Key cmd) mailboxCopyPrefix = true -> safe (TrimPrefix (cmd_Key cmd) mailboxCopyPrefix)) /\
  (HasPrefix (cmd_Key cmd) mailboxMovePrefix = true -> safe (TrimPrefix (cmd_Key cmd) mailboxMovePrefix)) /\
  (HasPrefix (cmd_Key cmd) mailboxRenamePrefix = true ->
   let u := TrimPrefix (cmd_Key cmd) mailboxRenamePrefix in
   safe u /\ forall p, unmarshal (cmd_Value cmd) = Ok p -> unnested c u (rp_OldName p)).

Lemma evolves_refl c : evolves c c.
Proof. apply evolves_congr; auto. Qed.

Lemma evolves_foreign c k v : foreign k -> evolves c (<[k := v]> c).
Proof.
  intros [F1 F2]. apply evolves_congr; intros; [|left]; apply lookup_insert_ne; auto.
Qed.

(** Two steps compose when the mailbox is there in between. *)
Lemma alloc_step c c' u m meta msg :
  mbox_inv c -> safe u -> meta_at c u m = Some meta -> uid_room c ->
  allocates c c' u m meta msg -> mbox_inv c' /\ evolves c c'.
Proof.
  intros I Hu Hm Hroom Ha. assert (alloc_from c u m meta) as Hf by (by left).
  assert (in_u32 (mb_UidNext meta + 1)) as Hr.
  { pose proof (alloc_from_range _ _ _ _ Hf) as [? _]. pose proof (Hroom _ _ _ Hu Hm).
    unfold in_u32. lia. }
  split; [by eapply allocates_inv|by eapply allocates_evolves].
Qed.

Lemma delivery_step cmd s s' r :
  applyMailboxDelivery cmd s = (s', Ok r) -> healthy s -> mbox_inv (contents s) -> uid_room (contents s) ->
  mbox_inv (contents s') /\ evolves (contents s) (contents s').
Proof.
  intros (u&m&p&mail&meta&msg&Hu&_&_&_&_&Hinit&_&Ha&_)%delivery_effect Hs I Hroom.
  set (c1 := <[mailMetaKey u (mm_Guid mail) := _]> _) in *.
  assert (foreign (mailMetaKey u (mm_Guid mail))) as Hfor by auto with bongo.
  assert (mbox_inv c1) as I1 by (by apply inv_insert_foreign).
  assert (alloc_from c1 u m meta /\ in_u32 (mb_UidNext meta + 1)) as [Hf Hr].
  { destruct (readOrInit_Ok _ _ _ _ Hs Hu I Hinit) as [Hm|[Hn ->]].
    - split; [left; rewrite <- Hm; apply meta_at_congr, lookup_insert_ne; by apply Hfor|].
      assert (in_u32 (mb_UidNext meta)) as [? _] by (eapply alloc_from_range; by left).
      pose proof (Hroom _ _ _ Hu Hm). unfold in_u32. lia.
    - split; [right; split; [|done]|done]. subst c1. rewrite lookup_insert_ne; [done|by apply Hfor]. }
  split; [by eapply allocates_inv|].
  assert (evolves c1 (contents s')) as E by (by eapply allocates_evolves).
  intros u' m' x x' Hu' Hx Hx'. destruct (E u' m' x x' Hu') as (?&?&Hmsg); [|done|].
  { rewrite <- Hx. apply meta_at_congr, lookup_insert_ne. by apply Hfor. }
  split_and!; [done..|]. intros uid Hd Hlt. destruct (Hmsg uid Hd Hlt) as [->|]; [left|by right].
  apply msg_at_congr, lookup_insert_ne. by apply Hfor.
Qed.

Lemma move_step cmd s s' r :
  applyMailboxMove cmd s = (s', Ok r) -> safe (TrimPrefix (cmd_Key cmd) mailboxMovePrefix) ->
  mbox_inv (contents s) -> uid_room (contents s) ->
  mbox_inv (contents s') /\ evolves (contents s) (contents s').
Proof.
  intros (p&src&dst&c1&Hp&Hsrc&Hdst&Ha&Hc&_)%move_effect Hu I Hroom.
  destruct (alloc_step _ _ _ _ _ _ I Hu Hdst Hroom Ha) as [I1 E]. rewrite Hc.
  apply ml_transfer_range in Hp. split; [by apply inv_delete_msg|].
  intros u' m' x x' Hu' Hx Hx'.
  rewrite (meta_at_congr _ c1) in Hx' by (by apply lookup_delete_ne, not_eq_sym, metaKey_msgKey).
  destruct (E u' m' x x' Hu' Hx Hx') as (?&?&Hmsg). split_and!; [done..|].
  intros uid Hd Hlt. destruct (decide (mailboxMsgKey u' m' uid =
    mailboxMsgKey (TrimPrefix (cmd_Key cmd) mailboxMovePrefix) (tp_SrcMailbox p) (tp_SrcUID p))) as [Heq|Hne].
  - right. unfold msg_at. by rewrite Heq, lookup_delete_eq.
  - rewrite (msg_at_congr _ c1) by (by apply lookup_delete_ne, not_eq_sym). auto.
Qed.

Lemma no_result_Ok (f : GoM DB unit) s s' r : no_result f s = (s', Ok r) -> f s = (s', Ok tt) /\ r = None.
Proof.
  unfold no_result. intros. ginv.
  match goal with x : unit |- _ => destruct x end. done.
Qed.

Lemma command_step cmd s s' r :
  ApplyMailboxCommand cmd s = (s', r) ->
  healthy s -> mbox_inv (contents s) -> uid_room (contents s) -> admissible (contents s) cmd ->
  mbox_inv (contents s') /\ evolves (contents s) (contents s').
Proof.
  destruct r as [r|e].
  2: { intros Hr%command_error ????. rewrite Hr. auto using evolves_refl. }
  unfold ApplyMailboxCommand. intros Hr Hs I Hroom (Ac&Am&Arn). repeat case_match.
  - apply append_effect in Hr as (?&?&?&?&?&?&?&_). by eapply alloc_step.
  - apply copy_effect in Hr as (?&?&?&_&_&?&?&_). eapply alloc_step; eauto.
  - apply no_result_Ok in Hr as [Hr _]. by eapply delete_inv.
  - by eapply delivery_step.
  - by eapply expunge_inv.
  - eapply move_step; eauto.
  - apply no_result_Ok in Hr as [Hr _]. destruct Arn as [Hu Hn]; [done|].
    apply rename_effect in Hr as (p&old&msgs&vm&b&Hp&Hne&_&_&Hmo&Hfree&Hl&Hvm&Hb&Hc').
    eapply renamed_inv; [done..|]. eapply rename_batch_view; eauto.
  - apply no_result_Ok in Hr as [Hr _]. apply subscribe_effect in Hr as (u&m&p&meta&vm&?&_&_&?&?&->).
    by eapply meta_rewrite_inv.
  - done.
Qed.

(** ** Dispatch *)

(** Dispatch on a literal command prefix. *)
Ltac dispatch :=
  unfold ApplyMailboxCommand, IsMailboxAppendCommand; cbn [cmd_Key];
  repeat match goal with
  | |- context [if HasPrefix ?k ?p then _ else _] =>
      first [replace (HasPrefix k p) with false by (by vm_compute)
            |replace (HasPrefix k p) with true by (symmetry; apply prefix_app)]; cbn iota beta
  end; reflexivity.

Lemma expunge_dispatch u m v s :
  ApplyMailboxCommand (mkCmd OP_PUT (mailboxExpungeKey u m) v) s =
  applyMailboxExpunge (mkCmd OP_PUT (mailboxExpungeKey u m) v) s.
Proof. dispatch. Qed.

Lemma deliver_dispatch u m v s :
  ApplyMailboxCommand (mkCmd OP_PUT (mailboxDeliverKey u m) v) s =
  applyMailboxDelivery (mkCmd OP_PUT (mailboxDeliverKey u m) v) s.
Proof. dispatch. Qed.

Lemma move_dispatch u v s :
  ApplyMailboxCommand (mkCmd OP_PUT (mailboxMoveKey u) v) s =
  applyMailboxMove (mkCmd OP_PUT (mailboxMoveKey u) v) s.
Proof. dispatch. Qed.

Lemma rename_dispatch u v s :
  ApplyMailboxCommand (mkCmd OP_PUT (mailboxRenameKey u) v) s =
  no_result (applyMailboxRename (mkCmd OP_PUT (mailboxRenameKey u) v)) s.
Proof. dispatch. Qed.

Lemma deliver_key_synthetic u m : IsMailboxSyntheticCommand (mailboxDeliverKey u m) = true.
Proof.
  unfold IsMailboxSyntheticCommand. replace (HasPrefix (mailboxDeliverKey u m) mailboxDeliverPrefix) with true
    by (symmetry; apply prefix_app). by rewrite ?orb_true_r.
Qed.

End Effects.
