(* ===== verification/MailboxSpec.v ===== *)
(** What the synthetic mailbox commands guarantee: the properties of
    [internal/store/mailbox.go] that the IMAP and delivery paths rely on. *)

From S2P Require Import Prelude GoStrings Pebble Proto Mailbox MailboxInv MailboxLemmas MailboxSteps.
From Stdlib Require Import Ascii.

Section Spec.
Context {DB : Type} `{PebbleLaws DB} `{MailCodecLaws} `{GoUnicode}.
Implicit Types (c : gmap string string) (s : DB).

(** A run of synthetic commands during which mailbox [u]/[m] is never removed. *)
Inductive mailbox_run (u m : string) : DB -> DB -> Prop :=
| run_done s : mailbox_run u m s s
| run_step s s1 s2 cmd r :
    healthy s -> uid_room (contents s) -> admissible (contents s) cmd ->
    ApplyMailboxCommand cmd s = (s1, r) ->
    is_Some (meta_at (contents s1) u m) ->
    mailbox_run u m s1 s2 -> mailbox_run u m s s2.

(** The metadata a delivery starts from. *)
Definition deliver_base c u m meta : Prop :=
  meta_at c u m = Some meta \/
  (c !! mailboxMetaKey u m = None /\ meta = mkMailboxMeta m 1 1 false).

Lemma readOrInit_base s u m meta :
  healthy s -> deliver_base (contents s) u m meta -> readOrInitMailboxMeta s u m = Ok meta.
Proof.
  intros Hs [Hm|[Hn ->]]; [|by apply readOrInit_absent].
  unfold readOrInitMailboxMeta. by erewrite readMailboxMeta_healthy.
Qed.

(** Which messages an expunge of [msgs] removes. *)
Lemma expunge_lookup s u m msgs u' m' uid :
  healthy s -> safe u -> mbox_inv (contents s) -> unnested (contents s) u m ->
  listMailboxMessages s u m = Ok msgs -> safe u' -> in_u32 uid ->
  let gone := filter (fun x => has_bits (msg_Flags x) FlagDeleted = true) msgs in
  msg_at (apply_batch (BDelete <$> ((fun x => mailboxMsgKey u m (msg_Uid x)) <$> gone)) (contents s)) u' m' uid =
  match msg_at (contents s) u' m' uid with
  | Some x => if decide ((u', m') = (u, m)) then
                if has_bits (msg_Flags x) FlagDeleted then None else Some x else Some x
  | None => None
  end.
Proof.
  intros Hs Hu I Hn Hl Hu' Hd gone. pose proof (list_range _ _ _ _ Hl) as Hr. rewrite Forall_forall in Hr.
  unfold msg_at at 1. rewrite apply_deletes. case_decide as Hin.
  - apply list_elem_of_fmap in Hin as (x&Hk&[Hf Hx]%list_elem_of_filter).
    destruct (msgKey_inj u' m' uid u m (msg_Uid x)) as (->&->&->); auto.
    destruct (list_sound s u m msgs x) as [_ ->]; try done. by rewrite decide_True, Hf.
  - transitivity (msg_at (contents s) u' m' uid); [done|].
    destruct (msg_at (contents s) u' m' uid) as [x|] eqn:Hx; [|done].
    case_decide as Heq; [|done]. simplify_eq. destruct (has_bits _ _) eqn:Hf; [|done].
    destruct Hin. apply list_elem_of_fmap. exists x.
    pose proof (list_complete _ _ _ _ _ _ Hs Hl Hx) as Hin.
    split; [|by apply list_elem_of_filter].
    destruct (contents s !! mailboxMsgKey u m uid) as [v|] eqn:Hv;
      [|unfold msg_at in Hx; by rewrite Hv in Hx].
    destruct (proj2 I _ _ _ _ Hu Hd Hv) as (y&_&Hy&Huid&_). simplify_eq. done.
Qed.

(** A mailbox over a run. *)
Lemma run_stable u m s s' meta :
  safe u -> mailbox_run u m s s' -> mbox_inv (contents s) -> meta_at (contents s) u m = Some meta ->
  exists meta', meta_at (contents s') u m = Some meta' /\
    mb_UidValidity meta' = mb_UidValidity meta /\ mb_UidNext meta <= mb_UidNext meta' /\
    forall uid, in_u32 uid -> uid < mb_UidNext meta ->
      msg_at (contents s') u m uid = msg_at (contents s) u m uid \/ msg_at (contents s') u m uid = None.
Proof.
  intros Hu Hrun. revert meta. induction Hrun as [s|s s1 s2 cmd r Hs Hroom Hadm Hstep [m1 Hm1] _ IH]; intros meta I Hm.
  { exists meta. split_and!; auto with lia. }
  destruct (command_step _ _ _ _ Hstep Hs I Hroom Hadm) as [I1 E].
  destruct (E u m meta m1 Hu Hm Hm1) as (Hle&Hval&Hmsg).
  destruct (IH m1 I1 Hm1) as (m2&Hm2&Hval2&Hle2&Hmsg2).
  exists m2. split_and!; [done|congruence|lia|]. intros uid Hd Hlt.
  destruct (Hmsg2 uid Hd) as [->|]; [lia| |by right]. by apply Hmsg.
Qed.

(** One move. *)
Lemma move_spec u v s s' r :
  mbox_inv (contents s) -> safe u -> uid_room (contents s) ->
  ApplyMailboxCommand (mkCmd OP_PUT (mailboxMoveKey u) v) s = (s', Ok r) ->
  exists p src dst, unmarshal v = Ok p /\
    let new := mb_UidNext dst in
    meta_at (contents s) u (tp_DstMailbox p) = Some dst /\
    msg_at (contents s) u (tp_SrcMailbox p) (tp_SrcUID p) = Some src /\
    msg_at (contents s) u (tp_DstMailbox p) new = None /\
    msg_at (contents s') u (tp_DstMailbox p) new = Some (transferred src new) /\
    msg_at (contents s') u (tp_SrcMailbox p) (tp_SrcUID p) = None /\
    (forall u' m' uid, safe u' -> in_u32 uid -> (u', m', uid) <> (u, tp_DstMailbox p, new) ->
       (u', m', uid) <> (u, tp_SrcMailbox p, tp_SrcUID p) ->
       msg_at (contents s') u' m' uid = msg_at (contents s) u' m' uid).
Proof.
  intros I Hu Hroom. rewrite move_dispatch. intros Hr.
  apply move_effect in Hr as (p&src&dst&c1&Hp&Hsrc&Hdst&(vm&vg&Hvm&Hvg&Huid&Hc1)&Hc&_).
  cbn [cmd_Key cmd_Value] in *. unfold mailboxMoveKey in *. rewrite TrimPrefix_app in *.
  pose proof (ml_transfer_range _ _ Hp) as Hsu.
  assert (in_u32 (mb_UidNext dst)) as Hd by (eapply alloc_from_range; by left).
  assert (mailboxMsgKey u (tp_SrcMailbox p) (tp_SrcUID p) <> mailboxMsgKey u (tp_DstMailbox p) (mb_UidNext dst)) as Hne.
  { intros (_&Hm&Heq)%msgKey_inj; [|done..]. rewrite Hm, Heq in Hsrc. unfold msg_at in Hsrc.
    by rewrite (inv_next_free _ _ _ _ I Hu Hdst Hd) in Hsrc. }
  exists p, src, dst. cbn zeta. split_and!; [done..| | | |].
  - unfold msg_at. by rewrite (inv_next_free _ _ _ _ I Hu Hdst Hd).
  - rewrite (msg_at_congr _ c1) by (rewrite Hc; by apply lookup_delete_ne). rewrite Hc1. by apply msg_at_insert.
  - unfold msg_at. by rewrite Hc, lookup_delete_eq.
  - intros u' m' uid Hu' Hd' Hn1 Hn2.
    rewrite (msg_at_congr _ c1) by (rewrite Hc; apply lookup_delete_ne; intros (?&?&?)%msgKey_inj; naive_solver).
    rewrite Hc1, <- (msg_at_insert_meta (contents s) u' m' uid u (tp_DstMailbox p) vm) by done.
    apply msg_at_congr, lookup_insert_ne. intros (?&?&?)%msgKey_inj; naive_solver.
Qed.

(** * Claims *)


(** C16: a synthetic mailbox command that reports an error has changed nothing,
    whatever the storage engine's faults: a command is applied whole or not at
    all. *)
Theorem mailbox_command_all_or_nothing cmd s s' e :
  ApplyMailboxCommand cmd s = (s', Err e) -> contents s' = contents s.
Proof. apply command_error. Qed.

(** C17: a delivery on a healthy store succeeds; it files the message under
    exactly the mailbox's UIDNEXT (creating the mailbox when it is missing), a
    key that was free, stores the mail metadata byte for byte, advances UIDNEXT
    by one and changes no other key. *)
Theorem delivery_files_message s u m mail metaBytes flags v meta msg :
  healthy s -> mbox_inv (contents s) -> safe u -> u <> "" -> m <> "" -> mm_Guid mail <> "" ->
  marshal mail = Ok metaBytes ->
  marshal (mkDelivery metaBytes flags) = Ok v -> json_clean (mkDelivery metaBytes flags) ->
  deliver_base (contents s) u m meta -> mb_UidNext meta + 1 < 2 ^ 32 ->
  msg = mkMailboxMessage (mb_UidNext meta) (mm_Guid mail) flags (mm_ReceivedAt mail) (mm_Tags mail) ->
  clean (bump meta) -> clean msg ->
  exists s', ApplyMailboxCommand (mkCmd OP_PUT (mailboxDeliverKey u m) v) s =
      (s', Ok (Some (mkCmdResult (Some (mkNewMail u m (mb_UidNext meta) (mm_Guid mail) (Some mail))) [] []))) /\
    healthy s' /\
    contents s !! mailboxMsgKey u m (mb_UidNext meta) = None /\
    msg_at (contents s') u m (mb_UidNext meta) = Some msg /\
    meta_at (contents s') u m = Some (bump meta) /\
    contents s' !! mailMetaKey u (mm_Guid mail) = Some metaBytes /\
    (forall k, k <> mailboxMsgKey u m (mb_UidNext meta) -> k <> mailboxMetaKey u m ->
       k <> mailMetaKey u (mm_Guid mail) -> contents s' !! k = contents s !! k).
Proof.
  intros Hs I Hu Hu0 Hm0 Hg Hmail Hv Hcl Hbase Hroom Hmsg Hc1 Hc2. rewrite deliver_dispatch.
  destruct (proto_total _ Hc1) as [vm Hvm], (proto_total _ Hc2) as [vg Hvg].
  assert (in_u32 (mb_UidNext meta)) as Hd.
  { destruct Hbase as [Hb|[_ ->]]; [eapply alloc_from_range; by left|done]. }
  destruct (commitSyncBatch_healthy s [BSet (mailMetaKey u (mm_Guid mail)) metaBytes;
    BSet (mailboxMetaKey u m) vm; BSet (mailboxMsgKey u m (mb_UidNext meta)) vg] Hs) as (s'&Hrun&Hs'&Hc').
  exists s'. split.
  - unfold applyMailboxDelivery, gbind, glift, gread. cbn [cmd_Key cmd_Value].
    unfold mailboxDeliverKey. rewrite parse_scoped by done.
    rewrite (json_roundtrip _ _ Hv Hcl). cbn [wrapf dp_Meta]. rewrite (proto_roundtrip _ _ Hmail). cbn [wrapf].
    destruct (String.eqb_spec (mm_Guid mail) ""); [done|]. rewrite (readOrInit_base _ _ _ _ Hs Hbase).
    unfold stage2, writeMailboxMetaBatch, writeMailboxMessageBatch, bump in *. subst msg.
    cbn [dp_Flags]. rewrite Hvm, Hvg. cbn [wrapf result_bind app]. by rewrite Hrun.
  - rewrite Hc'. cbn. assert (mailboxMetaKey u m <> mailboxMsgKey u m (mb_UidNext meta)) by (by apply metaKey_msgKey).
    split_and!; [done| | | | |].
    + destruct Hbase as [Hb|[Hn ->]]; [by apply inv_next_free|by apply inv_no_meta_no_msg].
    + apply msg_at_insert. by apply proto_roundtrip.
    + rewrite meta_at_insert_msg by done. apply meta_at_insert. by apply proto_roundtrip.
    + rewrite !lookup_insert_ne by (apply not_eq_sym; by (apply mailKey_msgKey || apply mailKey_metaKey)).
      apply lookup_insert_eq.
    + intros. by rewrite !lookup_insert_ne by done.
Qed.


(** RENAME carries a mailbox over whole: the new name has the old
    UIDVALIDITY, UIDNEXT and subscription state and exactly the old messages
    under the same UIDs; nothing is left under the old name and no other
    mailbox changes. INBOX is never renamed, nor an existing name replaced. *)
Theorem rename_keeps_messages u v s s' r :
  healthy s -> mbox_inv (contents s) -> safe u ->
  admissible (contents s) (mkCmd OP_PUT (mailboxRenameKey u) v) ->
  ApplyMailboxCommand (mkCmd OP_PUT (mailboxRenameKey u) v) s = (s', Ok r) ->
  exists p meta, unmarshal v = Ok p /\
    EqualFold (rp_OldName p) "INBOX" = false /\ EqualFold (rp_NewName p) "INBOX" = false /\
    meta_at (contents s) u (rp_OldName p) = Some meta /\
    meta_at (contents s) u (rp_NewName p) = None /\
    renamed (contents s) (contents s') u (rp_OldName p) (rp_NewName p) meta.
Proof.
  intros Hs I Hu (_&_&Hadm). rewrite rename_dispatch. intros [Hr _]%no_result_Ok.
  apply rename_effect in Hr as (p&meta&msgs&vm&b&Hp&Hne&Ho&Hw&Hmo&Hfree&Hl&Hvm&Hb&Hc).
  cbn [cmd_Key cmd_Value] in *. unfold mailboxRenameKey in *. rewrite TrimPrefix_app in *.
  destruct Hadm as [_ Hn]; [by apply prefix_app|].
  exists p, meta. split_and!; [done..| |].
  - unfold meta_at. by rewrite Hfree.
  - eapply rename_batch_view; eauto.
Qed.

(** EXPUNGE of a mailbox without nested names succeeds on a healthy store;
    it removes exactly the messages flagged \Deleted of that mailbox, reports
    exactly those, and leaves every message of every other mailbox. *)
Theorem expunge_removes_exactly_deleted s u m v :
  healthy s -> mbox_inv (contents s) -> safe u -> u <> "" -> m <> "" -> unnested (contents s) u m ->
  exists s' refs, ApplyMailboxCommand (mkCmd OP_PUT (mailboxExpungeKey u m) v) s =
      (s', Ok (Some (mkCmdResult None [] refs))) /\
    (forall u' m' uid, safe u' -> in_u32 uid ->
      msg_at (contents s') u' m' uid =
      match msg_at (contents s) u' m' uid with
      | Some x => if decide ((u', m') = (u, m)) then
                    if has_bits (msg_Flags x) FlagDeleted then None else Some x else Some x
      | None => None
      end) /\
    (forall ref, ref ∈ refs <-> exists x, ref = mkRef u m (msg_Uid x) /\
       msg_at (contents s) u m (msg_Uid x) = Some x /\ has_bits (msg_Flags x) FlagDeleted = true).
Proof.
  intros Hs I Hu Hu0 Hm0 Hn. rewrite expunge_dispatch.
  destruct (list_total s u m Hs Hu I Hn) as [msgs Hl].
  set (gone := filter (fun x => has_bits (msg_Flags x) FlagDeleted = true) msgs).
  destruct (commitSyncBatch_healthy s (BDelete <$> ((fun x => mailboxMsgKey u m (msg_Uid x)) <$> gone)) Hs)
    as (s'&Hrun&_&Hc').
  exists s', ((fun x => mkRef u m (msg_Uid x)) <$> gone). split_and!.
  - unfold applyMailboxExpunge, gbind, glift, gread. cbn [cmd_Key].
    unfold mailboxExpungeKey. rewrite parse_scoped, Hl by done. cbn [wrapf]. fold gone. by rewrite Hrun.
  - intros. rewrite Hc'. by apply expunge_lookup.
  - intros ref. rewrite list_elem_of_fmap. split.
    + intros (x&->&[Hf Hx]%list_elem_of_filter). exists x.
      destruct (list_sound s u m msgs x) as [_ ?]; done.
    + intros (x&->&Hat&Hf). exists x. split; [done|]. apply list_elem_of_filter.
      split; [done|]. by eapply list_complete.
Qed.

(** C18: MOVE never loses or duplicates mail: the message leaves its source UID
    and appears, with its content, date and tags and without \Recent, under the
    destination's UIDNEXT, which was free; every other message is untouched,
    also when source and destination are the same mailbox. *)
Theorem move_conserves_messages u v s s' r :
  mbox_inv (contents s) -> safe u -> uid_room (contents s) ->
  ApplyMailboxCommand (mkCmd OP_PUT (mailboxMoveKey u) v) s = (s', Ok r) ->
  exists p src dst, unmarshal v = Ok p /\
    let new := mb_UidNext dst in
    meta_at (contents s) u (tp_DstMailbox p) = Some dst /\
    msg_at (contents s) u (tp_SrcMailbox p) (tp_SrcUID p) = Some src /\
    msg_at (contents s) u (tp_DstMailbox p) new = None /\
    msg_at (contents s') u (tp_DstMailbox p) new = Some (transferred src new) /\
    msg_at (contents s') u (tp_SrcMailbox p) (tp_SrcUID p) = None /\
    (forall u' m' uid, safe u' -> in_u32 uid -> (u', m', uid) <> (u, tp_DstMailbox p, new) ->
       (u', m', uid) <> (u, tp_SrcMailbox p, tp_SrcUID p) ->
       msg_at (contents s') u' m' uid = msg_at (contents s) u' m' uid).
Proof. apply move_spec. Qed.

End Spec.

(** * The model on concrete stores *)

Section Demo.
#[local] Existing Instances demo_codecs demo_codec_laws bytewise_unicode.

Definition demo_deliver (m guid : string) (flags : Z) : RaftCommand :=
  mkCmd OP_PUT (mailboxDeliverKey "u1" m)
    (match marshal (mkDelivery guid flags) with Ok v => v | Err _ => "" end).
Definition demo_move (src : string) (uid : Z) (dst : string) : RaftCommand :=
  mkCmd OP_PUT (mailboxMoveKey "u1")
    (match marshal (mkTransfer src uid dst) with Ok v => v | Err _ => "" end).
Definition demo_rename (old new : string) : RaftCommand :=
  mkCmd OP_PUT (mailboxRenameKey "u1")
    (match marshal (mkRename old new) with Ok v => v | Err _ => "" end).

(** The store after a list of commands. *)
Definition apply_all (cmds : list RaftCommand) (s : MemDB) : MemDB :=
  fold_left (fun s cmd => (ApplyMailboxCommand cmd s).1) cmds s.

Definition demo1 : MemDB := apply_all [demo_deliver "INBOX" "g1" 0] (mem_of []).
Definition demo2 : MemDB :=
  apply_all [demo_deliver "INBOX" "g1" FlagDeleted; demo_deliver "INBOX" "g2" FlagSeen;
             demo_deliver "Archive" "g3" 0] (mem_of []).

Lemma inv_empty : mbox_inv ∅.
Proof. split; intros; by rewrite lookup_empty in *. Qed.

(** Decidable sufficient conditions for the hypotheses of the claims. *)
Definition room_check (c : gmap string string) : bool :=
  forallb (fun kv => match unmarshal kv.2 with Ok meta => mb_UidNext meta + 1 <? 2 ^ 32 | Err _ => true end)
          (map_to_list c).
Definition healthy_check (s : MemDB) : bool :=
  bool_decide (read_fault s = ∅) && negb (scan_fault s) && negb (write_fault s).
Definition plain_check (cmd : RaftCommand) : bool :=
  negb (HasPrefix (cmd_Key cmd) mailboxCopyPrefix) && negb (HasPrefix (cmd_Key cmd) mailboxMovePrefix) &&
  negb (HasPrefix (cmd_Key cmd) mailboxRenamePrefix).
Definition unnested_check (c : gmap string string) (u m : string) (uids : list Z) : bool :=
  forallb (fun kv => negb (String.prefix (mailboxMsgPrefix u m) kv.1) ||
                     existsb (fun uid => String.eqb kv.1 (mailboxMsgKey u m uid)) uids) (map_to_list c) &&
  forallb (fun uid => (0 <=? uid) && (uid <? 2 ^ 32)) uids.
Fixpoint run_check (cmds : list RaftCommand) (s : MemDB) : bool :=
  match cmds with
  | [] => healthy_check s
  | cmd :: cmds' => healthy_check s && room_check (mem s) && plain_check cmd &&
                    run_check cmds' (ApplyMailboxCommand cmd s).1
  end.

Lemma room_check_ok c : room_check c = true -> uid_room c.
Proof.
  intros Hc u m meta _. unfold meta_at. destruct (c !! _) as [v|] eqn:E; [|done]. cbn.
  apply elem_of_map_to_list in E. apply forallb_forall with (x := (mailboxMetaKey u m, v)) in Hc;
    [|by apply list_elem_of_In].
  cbn in Hc |- *. case_match; [|done]. intros [= <-]. by apply Z.ltb_lt.
Qed.

Lemma healthy_check_ok s : healthy_check s = true -> healthy s.
Proof.
  unfold healthy_check. intros [[?%bool_decide_eq_true ?%negb_true_iff]%andb_true_iff ?%negb_true_iff]%andb_true_iff.
  done.
Qed.

Lemma plain_check_ok c cmd : plain_check cmd = true -> admissible c cmd.
Proof.
  unfold plain_check. intros [[H1%negb_true_iff H2%negb_true_iff]%andb_true_iff H3%negb_true_iff]%andb_true_iff.
  unfold admissible. rewrite H1, H2, H3. done.
Qed.

Lemma unnested_check_ok c u m uids : unnested_check c u m uids = true -> unnested c u m.
Proof.
  intros [Hc Hr]%andb_true_iff k [v E] Hp. apply elem_of_map_to_list in E.
  apply forallb_forall with (x := (k, v)) in Hc; [|by apply list_elem_of_In].
  cbn in Hc. rewrite Hp in Hc. cbn in Hc. apply existsb_exists in Hc as (uid&Hin&->%String.eqb_eq).
  exists uid. split; [|done]. apply forallb_forall with (x := uid) in Hr; [|done].
  unfold in_u32. lia.
Qed.

Lemma run_check_ok cmds s :
  run_check cmds s = true -> mbox_inv (mem s) -> mbox_inv (mem (apply_all cmds s)) /\ healthy (apply_all cmds s).
Proof.
  revert s. induction cmds as [|cmd cmds IH]; intros s Hc I; [by split; [|apply healthy_check_ok]|].
  cbn in Hc. apply andb_true_iff in Hc as [[[Hh Hr]%andb_true_iff Hp]%andb_true_iff Hc].
  apply IH; [done|]. destruct (ApplyMailboxCommand cmd s) as [s' r] eqn:E.
  destruct (command_step cmd s s' r) as [I' _];
    eauto using healthy_check_ok, room_check_ok, plain_check_ok.
Qed.

Lemma demo1_ok : mbox_inv (mem demo1) /\ healthy demo1.
Proof. apply run_check_ok; [by vm_compute|apply inv_empty]. Qed.
Lemma demo2_ok : mbox_inv (mem demo2) /\ healthy demo2.
Proof. apply run_check_ok; [by vm_compute|apply inv_empty]. Qed.

(** ** Witnesses *)


(** A commit that fails: the disk is full. *)
Definition demo_full : MemDB := mkMemDB (mem demo1) ∅ false true.
Lemma mailbox_command_all_or_nothing_witness :
  contents (ApplyMailboxCommand (demo_move "INBOX" 1 "INBOX") demo_full).1 = contents demo_full.
Proof.
  eapply (mailbox_command_all_or_nothing (demo_move "INBOX" 1 "INBOX") demo_full _ (Wrap "committing mailbox batch" io_error)).
  vm_compute. reflexivity.
Defined.

Definition demo_meta2 : MailboxMeta := mkMailboxMeta "INBOX" 1 2 false.
Lemma delivery_files_message_witness :
  exists s', msg_at (contents s') "u1" "INBOX" 2 = Some (mkMailboxMessage 2 "g2" 0 0 []) /\
             (ApplyMailboxCommand (demo_deliver "INBOX" "g2" 0) demo1).1 = s'.
Proof.
  edestruct (delivery_files_message demo1 "u1" "INBOX" (demo_mail "g2") "g2" 0
    (match marshal (mkDelivery "g2" 0) with Ok v => v | Err _ => "" end) demo_meta2
    (mkMailboxMessage 2 "g2" 0 0 [])) as (s'&Hrun&_&_&Hmsg&_).
  1, 2: apply demo1_ok.
  1-7: reflexivity || discriminate || exact I.
  1: left; by vm_compute.
  1-4: reflexivity || (split; discriminate || reflexivity).
  - exists s'. split; [exact Hmsg|]. unfold demo_deliver. by rewrite Hrun.
Defined.


Lemma rename_keeps_messages_witness :
  exists p meta, unmarshal (cmd_Value (demo_rename "Archive" "Old")) = Ok p /\
    renamed (contents demo2) (contents (ApplyMailboxCommand (demo_rename "Archive" "Old") demo2).1)
      "u1" (rp_OldName p) (rp_NewName p) meta.
Proof.
  destruct (rename_keeps_messages "u1" (cmd_Value (demo_rename "Archive" "Old")) demo2
    (ApplyMailboxCommand (demo_rename "Archive" "Old") demo2).1 None) as (p&meta&Hp&_&_&_&_&Hr).
  - apply demo2_ok.
  - apply demo2_ok.
  - reflexivity.
  - split_and!; [by vm_compute..|]. intros _. split; [by vm_compute|].
    intros p Hp. assert (p = mkRename "Archive" "Old") as -> by (vm_compute in Hp; congruence).
    apply (unnested_check_ok _ _ _ [1]). by vm_compute.
  - vm_compute. reflexivity.
  - exists p, meta. exact (conj Hp Hr).
Defined.

Lemma expunge_removes_exactly_deleted_witness :
  exists s' refs, ApplyMailboxCommand (mkCmd OP_PUT (mailboxExpungeKey "u1" "INBOX") "") demo2 =
    (s', Ok (Some (mkCmdResult None [] refs))) /\
    msg_at (contents s') "u1" "INBOX" 1 = None /\ msg_at (contents s') "u1" "INBOX" 2 = msg_at (contents demo2) "u1" "INBOX" 2.
Proof.
  destruct (expunge_removes_exactly_deleted demo2 "u1" "INBOX" "") as (s'&refs&Hrun&Hmsg&_).
  - apply demo2_ok.
  - apply demo2_ok.
  - reflexivity.
  - discriminate.
  - discriminate.
  - apply (unnested_check_ok _ _ _ [1; 2]). by vm_compute.
  - exists s', refs. split; [exact Hrun|].
    assert (in_u32 1 /\ in_u32 2) as [H1 H2] by (clear; unfold in_u32; lia).
    split; [exact (eq_trans (Hmsg "u1" "INBOX" 1 eq_refl H1) ltac:(vm_compute; reflexivity))|].
    exact (eq_trans (Hmsg "u1" "INBOX" 2 eq_refl H2) ltac:(vm_compute; reflexivity)).
Defined.

Lemma move_conserves_messages_witness :
  exists (p : mailboxTransferPayload) src dst, unmarshal (cmd_Value (demo_move "INBOX" 2 "Archive")) = Ok p /\
    msg_at (contents demo2) "u1" "INBOX" 2 = Some src /\
    msg_at (contents (ApplyMailboxCommand (demo_move "INBOX" 2 "Archive") demo2).1) "u1" "Archive" (mb_UidNext dst) =
      Some (transferred src (mb_UidNext dst)).
Proof.
  destruct (move_conserves_messages "u1" (cmd_Value (demo_move "INBOX" 2 "Archive")) demo2
    (ApplyMailboxCommand (demo_move "INBOX" 2 "Archive") demo2).1
    (Some (mkCmdResult None [mkRef "u1" "Archive" 2] [mkRef "u1" "INBOX" 2])))
    as (p&src&dst&Hp&_&Hsrc&_&Hnew&_).
  - apply demo2_ok.
  - done.
  - apply room_check_ok. by vm_compute.
  - vm_compute. reflexivity.
  - assert (p = mkTransfer "INBOX" 2 "Archive") as -> by (vm_compute in Hp; congruence).
    exists (mkTransfer "INBOX" 2 "Archive"), src, dst. exact (conj Hp (conj Hsrc Hnew)).
Defined.

(** ** Corner cases

    The hypotheses [unnested] and "not removed" above are needed. *)

(** A mailbox may be named below another one's message prefix (IMAP CREATE does
    not look at the name): then expunging [Lists] scans the messages of
    [Lists/msg/x] too, and the \Deleted flag of one of those removes a message
    of [Lists] that was never flagged, by its UID. *)
Definition nested_store : MemDB :=
  apply_all [demo_deliver "Lists" "keep" 0; demo_deliver "Lists/msg/x" "gone" FlagDeleted] (mem_of []).
Theorem nested_name_expunges_unflagged :
  let s' := (ApplyMailboxCommand (mkCmd OP_PUT (mailboxExpungeKey "u1" "Lists") "") nested_store).1 in
  msg_at (contents nested_store) "u1" "Lists" 1 = Some (mkMailboxMessage 1 "keep" 0 0 []) /\
  msg_at (contents s') "u1" "Lists" 1 = None /\
  msg_at (contents s') "u1" "Lists/msg/x" 1 = Some (mkMailboxMessage 1 "gone" FlagDeleted 0 []).
Proof. vm_compute. split_and!; reflexivity. Qed.

(** A mailbox that is deleted and created again by a delivery starts over with
    UIDVALIDITY 1 and UID 1: the same pair denotes two different messages. *)
Definition recreated : MemDB :=
  apply_all [demo_deliver "Lists" "old" 0; mkCmd OP_PUT (mailboxDeleteKey "u1" "Lists") "";
             demo_deliver "Lists" "new" 0] (mem_of []).
Theorem recreated_mailbox_reuses_uid :
  let before := apply_all [demo_deliver "Lists" "old" 0] (mem_of []) in
  meta_at (contents before) "u1" "Lists" = meta_at (contents recreated) "u1" "Lists" /\
  msg_at (contents before) "u1" "Lists" 1 = Some (mkMailboxMessage 1 "old" 0 0 []) /\
  msg_at (contents recreated) "u1" "Lists" 1 = Some (mkMailboxMessage 1 "new" 0 0 []).
Proof. vm_compute. split_and!; reflexivity. Qed.

(** An I/O error on the metadata of a mailbox whose name contains the text of
    the not-found error is taken for a missing mailbox: the delivery resets
    UIDNEXT and overwrites message 1. *)
Definition misnamed : MemDB :=
  let s := apply_all [demo_deliver "key not found" "old" 0; demo_deliver "key not found" "old2" 0] (mem_of []) in
  mkMemDB (mem s) {[ mailboxMetaKey "u1" "key not found" ]} false false.
Theorem io_error_taken_for_missing_mailbox :
  let s' := (ApplyMailboxCommand (demo_deliver "key not found" "new" 0) misnamed).1 in
  msg_at (contents misnamed) "u1" "key not found" 1 = Some (mkMailboxMessage 1 "old" 0 0 []) /\
  msg_at (contents s') "u1" "key not found" 1 = Some (mkMailboxMessage 1 "new" 0 0 []).
Proof. vm_compute. split_and!; reflexivity. Qed.

End Demo.
