(* ===== verification/Utf8.v ===== *)
(** UTF-8 validity as in Go's [unicode/utf8] and [strings.ToValidUTF8], and
    [sanitizeUTF8] of [internal/store/mailbox.go]. *)

From S2P Require Import Prelude GoStrings.
From Stdlib Require Import Ascii.

(** The acceptance range of the second byte and the width, by first byte. *)
Definition lead (a : Z) : option (Z * Z * nat) :=
  if a <? 194 then None
  else if a <=? 223 then Some (128, 191, 2%nat)
  else if a =? 224 then Some (160, 191, 3%nat)
  else if a =? 237 then Some (128, 159, 3%nat)
  else if a <=? 239 then Some (128, 191, 3%nat)
  else if a =? 240 then Some (144, 191, 4%nat)
  else if a <=? 243 then Some (128, 191, 4%nat)
  else if a =? 244 then Some (128, 143, 4%nat)
  else None.

Definition byte_in (lo hi : Z) (c : ascii) : bool := (lo <=? byte_of c) && (byte_of c <=? hi).

(** Width of the valid rune a string starts with; 0 when it starts with none
    ([DecodeRuneInString] then returns [RuneError] of width 1). *)
Definition rune_width (s : string) : nat :=
  match s with
  | "" => 0
  | String a s1 =>
      if byte_of a <? 128 then 1 else
      match lead (byte_of a), s1 with
      | Some (lo, hi, w), String b s2 =>
          if negb (byte_in lo hi b) then 0
          else match w, s2 with
               | 2%nat, _ => 2
               | 3%nat, String c _ => if byte_in 128 191 c then 3 else 0
               | _, String c (String d _) => if byte_in 128 191 c && byte_in 128 191 d then 4 else 0
               | _, _ => 0
               end
      | _, _ => 0
      end
  end.

Fixpoint ValidString (s : string) : bool :=
  match s with
  | "" => true
  | String _ s1 =>
      match rune_width s, s1 with
      | 1%nat, _ => ValidString s1
      | 2%nat, String _ s2 => ValidString s2
      | 3%nat, String _ (String _ s3) => ValidString s3
      | 4%nat, String _ (String _ (String _ s4)) => ValidString s4
      | _, _ => false
      end
  end.

(** [invalid]: the previous byte was part of an invalid sequence. *)
Fixpoint to_valid (replacement : string) (invalid : bool) (s : string) : string :=
  match s with
  | "" => ""
  | String a s1 =>
      match rune_width s, s1 with
      | 1%nat, _ => String a (to_valid replacement false s1)
      | 2%nat, String b s2 => String a (String b (to_valid replacement false s2))
      | 3%nat, String b (String c s3) => String a (String b (String c (to_valid replacement false s3)))
      | 4%nat, String b (String c (String d s4)) =>
          String a (String b (String c (String d (to_valid replacement false s4))))
      | _, _ => (if invalid then "" else replacement) +:+ to_valid replacement true s1
      end
  end.
Definition ToValidUTF8 (s replacement : string) : string := to_valid replacement false s.

(** U+FFFD. *)
Definition RuneError : string := String (char_of 239) (String (char_of 191) (String (char_of 189) "")).

Definition sanitizeUTF8 (s : string) : string :=
  if ValidString s then s else ToValidUTF8 s RuneError.

(** ** Facts *)

Lemma ValidString_RuneError t : ValidString (RuneError +:+ t) = ValidString t.
Proof. reflexivity. Qed.

(** The width is decided by the bytes of the rune. *)
Lemma width1_ext a s t : rune_width (String a s) = 1%nat -> rune_width (String a t) = 1%nat.
Proof. unfold rune_width. repeat case_match; done || lia. Qed.
Lemma width2_ext a b s t : rune_width (String a (String b s)) = 2%nat -> rune_width (String a (String b t)) = 2%nat.
Proof. unfold rune_width. repeat case_match; done || lia. Qed.
Lemma width3_ext a b c s t :
  rune_width (String a (String b (String c s))) = 3%nat -> rune_width (String a (String b (String c t))) = 3%nat.
Proof. unfold rune_width. repeat case_match; simplify_eq; done || lia. Qed.
Lemma width4_ext a b c d s t :
  rune_width (String a (String b (String c (String d s)))) = 4%nat ->
  rune_width (String a (String b (String c (String d t)))) = 4%nat.
Proof. unfold rune_width. repeat case_match; simplify_eq; done || lia. Qed.

Lemma to_valid_valid n s inv : (String.length s <= n)%nat -> ValidString (to_valid RuneError inv s) = true.
Proof.
  revert s inv. induction n as [|n IH]; intros [|a s1] inv Hn; cbn [String.length] in *; try done; [lia|].
  assert (forall inv' : bool, ValidString ((if inv' then "" else RuneError) +:+ to_valid RuneError true s1) = true) as Hbad.
  { intros []; [rewrite app_nil_l'|rewrite ValidString_RuneError]; apply IH; lia. }
  cbn [to_valid].
  destruct (rune_width (String a s1)) as [|[|[|[|[|w]]]]] eqn:Hw; try done.
  - cbn [ValidString]. erewrite width1_ext by done. apply IH. lia.
  - destruct s1 as [|b s2]; [done|]. cbn [ValidString]. erewrite width2_ext by done. apply IH. cbn in Hn. lia.
  - destruct s1 as [|b [|c s3]]; [done..|]. cbn [ValidString]. erewrite width3_ext by done. apply IH. cbn in Hn. lia.
  - destruct s1 as [|b [|c [|d s4]]]; [done..|]. cbn [ValidString]. erewrite width4_ext by done. apply IH. cbn in Hn. lia.
Qed.

Lemma sanitizeUTF8_valid s : ValidString (sanitizeUTF8 s) = true.
Proof.
  unfold sanitizeUTF8, ToValidUTF8. destruct (ValidString s) eqn:E; [done|]. by eapply to_valid_valid.
Qed.

Lemma sanitizeUTF8_id s : ValidString s = true -> sanitizeUTF8 s = s.
Proof. unfold sanitizeUTF8. by intros ->. Qed.

Example sanitize_latin1 :
  sanitizeUTF8 (String (char_of 99) (String (char_of 233) (String (char_of 232) (String (char_of 33) "")))) =
  String (char_of 99) (RuneError +:+ "!").
Proof. reflexivity. Qed.
