(* ===== verification/MailText.v ===== *)
(** Text of mail headers: runes of a Go string and [strings.Map],
    [internal/mail/header.go], single-precision floats as bit patterns with
    their comparison and [strconv.FormatFloat(_, 'f', 2, 32)]. *)

From S2P Require Import Prelude GoStrings Pebble Utf8.
From Stdlib Require Import Ascii.

(** * Runes *)

(** The runes a [range] loop visits, each as its UTF-8 bytes; an invalid byte
    is visited as U+FFFD. *)
Fixpoint runes_go (n : nat) (s : string) : list string :=
  match n, s with
  | O, _ | _, "" => []
  | S n, String _ s1 =>
      match rune_width s with
      | O => RuneError :: runes_go n s1
      | w => str_take w s :: runes_go n (str_drop w s)
      end
  end.
Definition runes (s : string) : list string := runes_go (String.length s) s.

(** The code point of the bytes of one rune. *)
Definition code_point (r : string) : Z :=
  match r with
  | String a "" => byte_of a
  | String a (String b "") => Z.land (byte_of a) 31 * 64 + Z.land (byte_of b) 63
  | String a (String b (String c "")) => Z.land (byte_of a) 15 * 4096 + Z.land (byte_of b) 63 * 64 + Z.land (byte_of c) 63
  | String a (String b (String c (String d ""))) =>
      Z.land (byte_of a) 7 * 262144 + Z.land (byte_of b) 63 * 4096 + Z.land (byte_of c) 63 * 64 + Z.land (byte_of d) 63
  | _ => 0
  end.
Definition concat_str (l : list string) : string := foldr String.append "" l.
(** [strings.Map] of a function that drops some runes. *)
Definition drop_runes (drop : Z -> bool) (s : string) : string :=
  concat_str (List.filter (fun r => negb (drop (code_point r))) (runes s)).

Definition SanitizeHeaderValue : string -> string := drop_runes (fun r => (r <? 32) || (r =? 127)).
Definition SanitizeHeaderFilename : string -> string := drop_runes (fun r => (r <? 32) || (r =? 127) || (r =? 34)).

(** * Single-precision floats *)

Definition f32_nan (b : Z) : bool := 2139095040 <? Z.land b 2147483647.
(** Order of the values of two bit patterns that are not NaN. *)
Definition f32_key (b : Z) : Z := if Z.testbit b 31 then - Z.land b 2147483647 else b.
Definition f32_ge (a b : Z) : bool := negb (f32_nan a) && negb (f32_nan b) && (f32_key b <=? f32_key a).

(** The nearest integer to [n / 2^k], halves to even. *)
Definition round_shift (n k : Z) : Z :=
  if k <=? 0 then Z.shiftl n (- k) else
  let q := Z.shiftr n k in
  let r := n - Z.shiftl q k in
  let half := Z.shiftl 1 (k - 1) in
  if (half <? r) || (r =? half) && Z.odd q then q + 1 else q.
Definition f32_format2 (b : Z) : string :=
  let e := Z.land (Z.shiftr b 23) 255 in
  let m := Z.land b 8388607 in
  if e =? 255 then (if m =? 0 then (if Z.testbit b 31 then "-Inf" else "+Inf") else "NaN") else
  let h := round_shift (100 * (if e =? 0 then m else m + 8388608)) (150 - (if e =? 0 then 1 else e)) in
  (if Z.testbit b 31 then "-" else "") +:+ digits (h / 100) +:+ "." +:+ fmt_0d 2 (h mod 100).

Example format_half : f32_format2 1056964608 = "0.50".
Proof. vm_compute. reflexivity. Qed.
(** 2.675 is stored below the tie; 0.125 is a tie and goes to the even digit. *)
Example format_ties : f32_format2 1076572979 = "2.67" /\ f32_format2 1040187392 = "0.12" /\ f32_format2 3240099840 = "-10.00" /\ f32_format2 0 = "0.00".
Proof. vm_compute. done. Qed.

(** * Facts *)

Lemma concat_str_app l m : concat_str (l ++ m) = concat_str l +:+ concat_str m.
Proof. induction l as [|s l IH]; [done|]. change (s +:+ concat_str (l ++ m) = (s +:+ concat_str l) +:+ concat_str m). by rewrite IH, str_app_assoc. Qed.
Lemma has_char_concat c l : has_char c (concat_str l) = existsb (has_char c) l.
Proof. induction l as [|s l IH]; [done|]. change (has_char c (s +:+ concat_str l) = has_char c s || existsb (has_char c) l). by rewrite has_char_app, IH. Qed.

(** The bytes of a rune of two or more bytes are all above 127. *)
Lemma rune_bytes s :
  match rune_width s with
  | O => True
  | 1%nat => exists a t, s = String a t /\ byte_of a < 128
  | w => str_all (fun c => 128 <=? byte_of c) (str_take w s) = true
  end.
Proof.
  destruct s as [|a s]; [done|]. cbn [rune_width].
  destruct (Z.ltb_spec (byte_of a) 128); [eauto|].
  destruct (lead (byte_of a)) as [[[lo hi] w]|] eqn:Hl; [|done].
  assert (128 <= lo) as Hlo by (unfold lead in Hl; repeat case_match; simplify_eq; lia).
  destruct s as [|b s]; [done|]. unfold byte_in.
  destruct w as [|[|[|[|[|w]]]]]; repeat case_match; simplify_eq; try done; cbn [str_take str_all];
    repeat match goal with
           | H : negb _ = false |- _ => apply negb_false_iff in H
           | H : _ && _ = true |- _ => apply andb_true_iff in H as [? ?]
           end;
    repeat match goal with H : (_ <=? _) = true |- _ => apply Z.leb_le in H end;
    rewrite ?andb_true_iff, ?Z.leb_le; repeat split; done || lia.
Qed.

Lemma high_no_char c s : byte_of c < 128 -> str_all (fun x => 128 <=? byte_of x) s = true -> has_char c s = false.
Proof.
  intros Hc. induction s as [|x s IH]; [done|]. cbn [str_all]. rewrite andb_true_iff, Z.leb_le, has_char_cons. intros [Hx Hs].
  rewrite IH by done. destruct (Ascii.eqb_spec x c) as [->|]; [lia|done].
Qed.

(** A control character that is dropped is not in the result. *)
Lemma drop_runes_no_char drop c s : byte_of c < 128 -> drop (byte_of c) = true -> has_char c (drop_runes drop s) = false.
Proof.
  intros Hc Hd. unfold drop_runes, runes. rewrite has_char_concat. generalize (String.length s) as n. intros n. revert s.
  induction n as [|n IH]; intros [|a s]; try done. cbn [runes_go].
  pose proof (rune_bytes (String a s)) as Hb. destruct (rune_width (String a s)) as [|w]; cbn [List.filter].
  - destruct (negb _); cbn [existsb]; rewrite IH; [|done]. rewrite orb_false_r. apply high_no_char; [done|]. done.
  - set (r := str_take (S w) (String a s)) in *.
    assert (negb (drop (code_point r)) = true -> has_char c r = false) as Hr.
    { destruct w as [|w].
      - destruct Hb as (a'&t&[= <- <-]&Ha). unfold r. cbn [str_take code_point]. intros Hn. rewrite has_char_cons.
        destruct (Ascii.eqb_spec a c) as [->|]; [by rewrite Hd in Hn|done].
      - intros _. by apply high_no_char. }
    destruct (negb _) eqn:E; cbn [existsb]; rewrite IH; [rewrite Hr by done; done|done].
Qed.

(** * Big-endian round trip *)

Lemma be_get_put w n acc : 0 <= n -> be_get acc (be_put w n) = acc * 256 ^ Z.of_nat w + n mod 256 ^ Z.of_nat w.
Proof.
  intros Hn. revert acc. induction w as [|w IH]; intros acc; [cbn; rewrite Z.mod_1_r; lia|].
  cbn [be_put be_get]. rewrite byte_char by (apply Z.mod_pos_bound; lia). rewrite IH.
  replace (Z.of_nat (S w)) with (Z.of_nat w + 1) by lia. rewrite Z.pow_add_r, Z.pow_1_r by lia.
  rewrite Z.rem_mul_r by lia. lia.
Qed.

Lemma be_roundtrip n : 0 <= n < 2 ^ 64 -> be_get 0 (be_put 8 n) = n.
Proof.
  intros Hn. rewrite be_get_put by lia. change (256 ^ Z.of_nat 8) with (2 ^ 64). rewrite Z.mod_small by lia. lia.
Qed.
