(* ===== verification/MailboxStore.v ===== *)
(** The client side of the mailbox store ([MailboxStore] of
    [internal/store/mailbox.go]): reads of the local Pebble store and writes
    through the [RaftApplier] interface. *)

From S2P Require Import Prelude GoStrings Utf8 Pebble Proto Mailbox.
From Stdlib Require Import Ascii.

(** * Paging *)

(** [all[lo:hi]]; [None] is the run-time panic of an index out of range. *)
Definition goSlice {A} (l : list A) (lo hi : Z) : option (list A) :=
  if (0 <=? lo) && (lo <=? hi) && (hi <=? Z.of_nat (length l))
  then Some (take (Z.to_nat (hi - lo)) (drop (Z.to_nat lo) l)) else None.

Record located := mkLocated { loc_msg : MailboxMessage; loc_mailbox : string }.

(** Newest first, then one page; [offset] and [limit] are 64-bit ints. *)
Definition page_of {A} (all : list A) (offset limit : Z) : option (list A) :=
  let all := reverse all in
  let len := Z.of_nat (length all) in
  if len <=? offset then Some []
  else let e := i64 (offset + limit) in
       goSlice all offset (if len <? e then len else e).

Definition pageLocated (all : list located) (offset limit : Z)
  : option (list MailboxMessage * list string * Z) :=
  let total := Z.of_nat (length all) in
  match page_of all offset limit with
  | None => None
  | Some page => Some (loc_msg <$> page, loc_mailbox <$> page, total)
  end.

(** The order of the header-based views. *)
Definition view_less (a b : located) : bool :=
  if negb (msg_InternalDate (loc_msg a) =? msg_InternalDate (loc_msg b))
  then msg_InternalDate (loc_msg b) <? msg_InternalDate (loc_msg a)
  else if negb (String.eqb (loc_mailbox a) (loc_mailbox b))
  then bool_decide (str_lt (loc_mailbox a) (loc_mailbox b))
  else msg_Uid (loc_msg b) <? msg_Uid (loc_msg a).

Definition headerViewExcluded : list string := ["Junk"; "Trash"; "Sent"; "Drafts"].
Definition HeaderViewExcludes (mailbox : string) : bool :=
  existsb (fun name => String.eqb mailbox name || HasPrefix mailbox (name +:+ "/")) headerViewExcluded.

(** Which messages of a real mailbox a virtual folder lists. *)
Definition virtual_lists (virtual mbName : string) (msg : MailboxMessage) : bool :=
  if String.eqb virtual "unread" then negb (has_bits (msg_Flags msg) FlagSeen)
  else if String.eqb virtual "starred" then has_bits (msg_Flags msg) FlagFlagged
  else if String.eqb virtual "all-mail" then negb (String.eqb mbName "Trash")
  else false.

(** Email headers hold arbitrary bytes; protobuf strings must be UTF-8. *)
Definition SanitizeMailMeta (m : MailMeta) : MailMeta :=
  mkMailMeta (mm_Guid m) (sanitizeUTF8 (mm_MessageId m)) (sanitizeUTF8 (mm_Subject m))
    (sanitizeUTF8 (mm_From m)) (sanitizeUTF8 <$> mm_To m) (mm_ReceivedAt m) (mm_RawMessage m)
    (mm_Attachments m) (mm_FolderGuid m) (mm_Flags m) (sanitizeUTF8 (mm_InReplyTo m))
    (sanitizeUTF8 (mm_References m)) (sanitizeUTF8 <$> mm_Cc m) (mm_SpamScore m) (mm_SpfResult m)
    (mm_DkimResult m) (mm_DkimDomain m) (mm_TargetMailbox m) (mm_Tags m) (mm_Layout m)
    (sanitizeUTF8 (mm_ReplyTo m)) (sanitizeUTF8 (mm_ListId m)) (sanitizeUTF8 (mm_ListPost m)).

Section Client.
Context {DB : Type} `{PebbleDB DB} `{MailCodecs} `{GoUnicode} `{RaftApplier DB}.
Implicit Types (ps : DB).

(** * Mailboxes *)

Fixpoint list_metas (seen : gset string) (l : list (string * result string)) : result (list MailboxMeta) :=
  match l with
  | [] => Ok []
  | (key, v) :: l' =>
      if negb (HasSuffix key "/meta") then list_metas seen l' else
      let? val := wrapf "reading mailbox meta" (iter_value v) in
      match unmarshal val with
      | Err _ => list_metas seen l'
      | Ok meta =>
          if decide (mb_Name meta ∈ seen) then list_metas seen l' else
          let? rest := list_metas ({[mb_Name meta]} ∪ seen) l' in
          Ok (meta :: rest)
      end
  end.

Definition ListMailboxes ps (userID : string) : result (list MailboxMeta) :=
  let? l := wrapf "listing mailboxes" (PrefixScan ps (mailboxPrefix userID)) in
  list_metas ∅ l.

Definition GetMailbox ps (userID name : string) : result MailboxMeta :=
  let? data := wrapf ("mailbox " +:+ quote name) (Get ps (mailboxMetaKey userID name)) in
  wrapf "parsing mailbox meta" (unmarshal data).

(** [now] is the clock reading of the call, in Unix seconds. *)
Definition CreateMailbox (now : Z) (userID name : string) : GoM DB unit := fun ps =>
  match Get ps (mailboxMetaKey userID name) with
  | Ok _ => (ps, Err (Errorf ("mailbox " +:+ quote name +:+ " already exists")))
  | Err _ =>
      (let meta := mkMailboxMeta name (u32 (Z.land now 4294967295)) 1 false in
       let! metaBytes := glift (wrapf "marshaling mailbox meta" (marshal meta)) in
       ApplyCommand (mkCmd OP_PUT (mailboxMetaKey userID name) metaBytes)) ps
  end.

Definition DeleteMailbox (userID name : string) : GoM DB unit :=
  if EqualFold name "INBOX" then gfail (Errorf "cannot delete INBOX")
  else ApplyCommand (mkCmd OP_PUT (mailboxDeleteKey userID name) "").

Definition RenameMailbox (userID oldName newName : string) : GoM DB unit :=
  if EqualFold oldName "INBOX" then gfail (Errorf "cannot rename INBOX") else
  let! payload := glift (wrapf "marshaling mailbox rename payload" (marshal (mkRename oldName newName))) in
  ApplyCommand (mkCmd OP_PUT (mailboxRenameKey userID) payload).

Definition SetSubscribed (userID name : string) (subscribed : bool) : GoM DB unit :=
  let! _ := gread (fun ps => GetMailbox ps userID name) in
  let! payload := glift (wrapf "marshaling mailbox subscribe payload" (marshal (mkSubscribe subscribed))) in
  ApplyCommand (mkCmd OP_PUT (mailboxSubscribeKey userID name) payload).

Definition DefaultMailboxes : list string := ["INBOX"; "Sent"; "Drafts"; "Trash"; "Junk"].

Fixpoint ensure_mailboxes (now : Z) (userID : string) (names : list string) : GoM DB unit :=
  match names with
  | [] => gret tt
  | name :: names' => fun ps =>
      match Get ps (mailboxMetaKey userID name) with
      | Ok _ => ensure_mailboxes now userID names' ps
      | Err _ =>
          match CreateMailbox now userID name ps with
          | (ps', Ok _) => ensure_mailboxes now userID names' ps'
          | (ps', Err e) =>
              if negb (Contains (err_text e) "already exists")
              then (ps', Err (Wrap ("creating mailbox " +:+ quote name) e))
              else ensure_mailboxes now userID names' ps'
          end
      end
  end.
Definition EnsureDefaultMailboxes (now : Z) (userID : string) : GoM DB unit :=
  ensure_mailboxes now userID DefaultMailboxes.

(** * Listing messages *)

(** Unlike [listMailboxMessages] this skips records that do not parse. *)
Fixpoint list_parsed (l : list (string * result string)) : result (list MailboxMessage) :=
  match l with
  | [] => Ok []
  | (_, v) :: l' =>
      let? val := wrapf "reading message" (iter_value v) in
      match unmarshal val with
      | Err _ => list_parsed l'
      | Ok msg => let? msgs := list_parsed l' in Ok (msg :: msgs)
      end
  end.

Definition ListMessages ps (userID mailbox : string) : result (list MailboxMessage) :=
  let? l := wrapf "listing messages" (PrefixScan ps (mailboxMsgPrefix userID mailbox)) in
  list_parsed l.

Definition ListMessagesPaged ps (userID mailbox : string) (offset limit : Z)
  : option (result (list MailboxMessage * Z)) :=
  match ListMessages ps userID mailbox with
  | Err e => Some (Err e)
  | Ok all => (fun page => Ok (page, Z.of_nat (length all))) <$> page_of all offset limit
  end.

(** The three counters are [uint32]. *)
Definition CountMessages ps (userID mailbox : string) : result (Z * Z * Z) :=
  let? msgs := ListMessages ps userID mailbox in
  Ok (foldl (fun '(total, recent, unseen) msg =>
        (u32 (total + 1),
         if has_bits (msg_Flags msg) FlagRecent then u32 (recent + 1) else recent,
         if has_bits (msg_Flags msg) FlagSeen then unseen else u32 (unseen + 1))) (0, 0, 0) msgs).

(** The messages of the given mailboxes that pass a test; a mailbox that cannot
    be listed is skipped. *)
Definition gather ps (userID : string) (mailboxes : list MailboxMeta)
    (keep : string -> MailboxMessage -> bool) : list located :=
  mailboxes ≫= fun mb =>
    match ListMessages ps userID (mb_Name mb) with
    | Err _ => []
    | Ok msgs => (fun msg => mkLocated msg (mb_Name mb)) <$> filter (fun msg => keep (mb_Name mb) msg = true) msgs
    end.

Definition ListVirtualMessages ps (userID virtual : string) (offset limit : Z)
  : option (result (list MailboxMessage * list string * Z)) :=
  match ListMailboxes ps userID with
  | Err e => Some (Err e)
  | Ok mailboxes => Ok <$> pageLocated (gather ps userID mailboxes (virtual_lists virtual)) offset limit
  end.

Definition ListMessagesByGUIDs ps (userID : string) (guidSet : gset string) (offset limit : Z)
  : option (result (list MailboxMessage * list string * Z)) :=
  match ListMailboxes ps userID with
  | Err e => Some (Err e)
  | Ok mailboxes =>
      Ok <$> pageLocated (gather ps userID mailboxes (fun _ msg => bool_decide (msg_MailGuid msg ∈ guidSet))) offset limit
  end.

Definition ListViewMessagesFiltered ps (userID : string) (guidSet : gset string)
    (keep : option (MailboxMessage -> bool)) (offset limit : Z)
  : option (result (list MailboxMessage * list string * Z)) :=
  if decide (guidSet = ∅) then Some (Ok ([], [], 0)) else
  match ListMailboxes ps userID with
  | Err e => Some (Err e)
  | Ok mailboxes =>
      let all := SliceStable view_less
        (gather ps userID (filter (fun mb => HeaderViewExcludes (mb_Name mb) = false) mailboxes)
           (fun _ msg => bool_decide (msg_MailGuid msg ∈ guidSet) &&
                         match keep with None => true | Some k => k msg end)) in
      let total := Z.of_nat (length all) in
      if total <=? offset then Some (Ok ([], [], total)) else
      let e := if limit <? i64 (total - offset) then i64 (offset + limit) else total in
      match goSlice all offset e with
      | None => None
      | Some page => Some (Ok (loc_msg <$> page, loc_mailbox <$> page, total))
      end
  end.
Definition ListViewMessages ps (userID : string) (guidSet : gset string) (offset limit : Z) :=
  ListViewMessagesFiltered ps userID guidSet None offset limit.

Definition UnreadCount ps (userID mailbox : string) : Z :=
  match CountMessages ps userID mailbox with Ok (_, _, unseen) => unseen | Err _ => 0 end.
Definition TotalUnreadCount ps (userID : string) : Z :=
  match ListMailboxes ps userID with
  | Err _ => 0
  | Ok mailboxes => foldl (fun count mb => i64 (count + UnreadCount ps userID (mb_Name mb))) 0 mailboxes
  end.

(** The scan of [GetMessageVirtual] over one mailbox: [Ok None] goes on. *)
Fixpoint find_virtual (virtual mbName : string) (uid : Z) (msgs : list MailboxMessage)
  : result (option MailboxMessage) :=
  match msgs with
  | [] => Ok None
  | msg :: msgs' =>
      if negb (msg_Uid msg =? uid) then find_virtual virtual mbName uid msgs'
      else if String.eqb virtual "unread" then
        if has_bits (msg_Flags msg) FlagSeen then find_virtual virtual mbName uid msgs' else Ok (Some msg)
      else if String.eqb virtual "starred" then
        if has_bits (msg_Flags msg) FlagFlagged then Ok (Some msg) else find_virtual virtual mbName uid msgs'
      else if String.eqb virtual "all-mail" then Ok (Some msg)
      else Err (Errorf ("unknown virtual mailbox: " +:+ virtual))
  end.
Fixpoint get_virtual ps (userID virtual : string) (uid : Z) (mailboxes : list MailboxMeta)
  : result (MailboxMessage * string) :=
  match mailboxes with
  | [] => Err (Errorf ("message uid " +:+ FormatInt uid +:+ " not found in virtual mailbox " +:+ virtual))
  | mb :: mailboxes' =>
      match ListMessages ps userID (mb_Name mb) with
      | Err _ => get_virtual ps userID virtual uid mailboxes'
      | Ok msgs =>
          let? found := find_virtual virtual (mb_Name mb) uid msgs in
          match found with
          | Some msg => Ok (msg, mb_Name mb)
          | None => get_virtual ps userID virtual uid mailboxes'
          end
      end
  end.
Definition GetMessageVirtual ps (userID virtual : string) (uid : Z) : result (MailboxMessage * string) :=
  let? mailboxes := ListMailboxes ps userID in
  get_virtual ps userID virtual uid mailboxes.

(** * Single messages *)

Definition GetMessage ps (userID mailbox : string) (uid : Z) : result MailboxMessage :=
  let? data := wrapf ("message uid " +:+ FormatInt uid) (Get ps (mailboxMsgKey userID mailbox uid)) in
  wrapf "parsing message" (unmarshal data).

Definition writeMessage (userID mailbox : string) (uid : Z) (msg : MailboxMessage) : GoM DB unit :=
  let! msgBytes := glift (wrapf "marshaling message" (marshal msg)) in
  ApplyCommand (mkCmd OP_PUT (mailboxMsgKey userID mailbox uid) msgBytes).

Definition with_flags (msg : MailboxMessage) (flags : Z) : MailboxMessage :=
  mkMailboxMessage (msg_Uid msg) (msg_MailGuid msg) flags (msg_InternalDate msg) (msg_Tags msg).
Definition with_tags (msg : MailboxMessage) (tags : list string) : MailboxMessage :=
  mkMailboxMessage (msg_Uid msg) (msg_MailGuid msg) (msg_Flags msg) (msg_InternalDate msg) tags.

(** Read, change, write back: the shape of the four setters. *)
Definition update_message (userID mailbox : string) (uid : Z) (f : MailboxMessage -> MailboxMessage) : GoM DB unit :=
  let! msg := gread (fun ps => GetMessage ps userID mailbox uid) in
  writeMessage userID mailbox uid (f msg).

Definition SetFlags (userID mailbox : string) (uid flags : Z) : GoM DB unit :=
  update_message userID mailbox uid (fun msg => with_flags msg flags).
Definition AddFlags (userID mailbox : string) (uid flags : Z) : GoM DB unit :=
  update_message userID mailbox uid (fun msg => with_flags msg (Z.lor (msg_Flags msg) flags)).
Definition RemoveFlags (userID mailbox : string) (uid flags : Z) : GoM DB unit :=
  update_message userID mailbox uid (fun msg => with_flags msg (andnot (msg_Flags msg) flags)).
Definition WriteMessageTags (userID mailbox : string) (uid : Z) (tags : list string) : GoM DB unit :=
  update_message userID mailbox uid (fun msg => with_tags msg tags).

Definition CopyMessage (userID srcMailbox : string) (uid : Z) (dstMailbox : string) : GoM DB unit :=
  let! payload := glift (wrapf "marshaling mailbox copy payload" (marshal (mkTransfer srcMailbox uid dstMailbox))) in
  ApplyCommand (mkCmd OP_PUT (mailboxCopyKey userID) payload).
Definition MoveMessage (userID srcMailbox : string) (uid : Z) (dstMailbox : string) : GoM DB unit :=
  let! payload := glift (wrapf "marshaling mailbox move payload" (marshal (mkTransfer srcMailbox uid dstMailbox))) in
  ApplyCommand (mkCmd OP_PUT (mailboxMoveKey userID) payload).

(** The UIDs are reported even when the command fails after the scan. *)
Definition Expunge (userID mailbox : string) (ps : DB) : DB * list Z * option err :=
  match ListMessages ps userID mailbox with
  | Err e => (ps, [], Some (Wrap "listing for expunge" e))
  | Ok msgs =>
      let expunged := msg_Uid <$> filter (fun msg => has_bits (msg_Flags msg) FlagDeleted = true) msgs in
      if decide (expunged = []) then (ps, [], None) else
      match ApplyCommand (mkCmd OP_PUT (mailboxExpungeKey userID mailbox) "") ps with
      | (ps', Ok _) => (ps', expunged, None)
      | (ps', Err e) => (ps', expunged, Some (Wrap "expunging mailbox" e))
      end
  end.

(** * Orphaned metadata *)

Fixpoint referenced_guids ps (userID : string) (mailboxes : list MailboxMeta) : result (gset string) :=
  match mailboxes with
  | [] => Ok ∅
  | mb :: mailboxes' =>
      let? msgs := wrapf ("listing messages in " +:+ quote (mb_Name mb)) (listMailboxMessages ps userID (mb_Name mb)) in
      let? rest := referenced_guids ps userID mailboxes' in
      Ok (list_to_set (msg_MailGuid <$> msgs) ∪ rest)
  end.
Fixpoint orphans_of (prefix : string) (referenced : gset string) (cutoff : Z)
    (l : list (string * result string)) : result (list string) :=
  match l with
  | [] => Ok []
  | (key, v) :: l' =>
      let guid := TrimPrefix key prefix in
      if String.eqb guid "" || Contains guid "/" || bool_decide (guid ∈ referenced)
      then orphans_of prefix referenced cutoff l' else
      let? val := wrapf "reading mail meta" (iter_value v) in
      match unmarshal val with
      | Err _ => orphans_of prefix referenced cutoff l'
      | Ok meta =>
          if cutoff <? mm_ReceivedAt meta then orphans_of prefix referenced cutoff l' else
          let? rest := orphans_of prefix referenced cutoff l' in
          Ok (guid :: rest)
      end
  end.
(** [now] in nanoseconds; [minAge] a duration. *)
Definition OrphanedMailGUIDs (now minAge : Z) ps (userID : string) : result (list string) :=
  let? mailboxes := wrapf "listing mailboxes" (ListMailboxes ps userID) in
  let? referenced := referenced_guids ps userID mailboxes in
  let? l := wrapf "scanning mail meta" (PrefixScan ps (mailMetaPrefix userID)) in
  orphans_of (mailMetaPrefix userID) referenced (unix_of (time_add now (- minAge))) l.

(** * Delivery *)

Definition StoreMailMeta (userID : string) (meta : MailMeta) : GoM DB unit :=
  let meta := SanitizeMailMeta meta in
  let! metaBytes := glift (wrapf "marshaling mail meta" (marshal meta)) in
  ApplyCommand (mkCmd OP_PUT (mailMetaKey userID (mm_Guid meta)) metaBytes).

Definition buildMailboxDeliveryCommand (userID mailbox : string) (meta : MailMeta) (flags : Z) : result RaftCommand :=
  let meta := SanitizeMailMeta meta in
  let? metaBytes := wrapf "marshaling mail meta" (marshal meta) in
  let? payload := wrapf "marshaling mailbox delivery payload" (marshal (mkDelivery metaBytes flags)) in
  Ok (mkCmd OP_PUT (mailboxDeliverKey userID mailbox) payload).
Definition BuildDeliverMailCommand := buildMailboxDeliveryCommand.

Definition DeliverMessage (userID mailbox : string) (meta : MailMeta) (flags : Z) : GoM DB Z :=
  let! cmd := glift (buildMailboxDeliveryCommand userID mailbox meta flags) in
  let! _ := gwrap "delivering mailbox message" (ApplyCommand cmd) in
  let! mbMeta := gread (fun ps => wrapf "reloading mailbox after delivery" (GetMailbox ps userID mailbox)) in
  gret (u32 (mb_UidNext mbMeta - 1)).

Definition AppendMessage (userID mailbox mailGuid : string) (flags internalDate : Z) : GoM DB Z :=
  let msg := mkMailboxMessage 0 mailGuid flags internalDate [] in
  let! msgBytes := glift (wrapf "marshaling mailbox append payload" (marshal msg)) in
  let! _ := gwrap "appending mailbox message" (ApplyCommand (mkCmd OP_PUT (mailboxAppendKey userID mailbox) msgBytes)) in
  let! meta := gread (fun ps => wrapf "reloading mailbox after append" (GetMailbox ps userID mailbox)) in
  gret (u32 (mb_UidNext meta - 1)).

Definition DeliverMail (userID mailbox : string) (meta : MailMeta) (flags : Z) : GoM DB unit :=
  let! cmd := glift (BuildDeliverMailCommand userID mailbox meta flags) in
  gwrap "delivering mailbox message" (ApplyCommand cmd).

End Client.
