(* ===== verification/MailboxClient.v ===== *)
(** Theorems on the client side of the mailbox store, proved against the
    interface [MailboxApplier] that a Raft applier offers. *)

From S2P Require Import Prelude GoStrings Utf8 Pebble Proto Mailbox MailboxInv MailboxLemmas MailboxSteps MailboxSpec MailboxStore.
From Stdlib Require Import Ascii.

(** What the mailbox store relies on: a command acknowledged without error has
    been applied to the local store; apart from that the applier only touches
    [own] keys, its bookkeeping, which are not user data.  [ready] states are
    those in which the applier accepts and applies a command. *)
Class MailboxApplier (DB : Type) `{PebbleLaws DB} `{MailCodecs} `{GoUnicode} `{RaftApplier DB} := {
  own : string -> bool;
  ready : DB -> Prop;
  own_user k : own k = true -> HasPrefix k "/user/" = false;
  ap_synthetic cmd s s' :
    ready s ->
    cmd_Op cmd = OP_PUT -> IsMailboxSyntheticCommand (cmd_Key cmd) = true ->
    ApplyCommand cmd s = (s', Ok tt) ->
    exists s1 r, ApplyMailboxCommand cmd s = (s1, Ok r) /\
      forall k, own k = false -> contents s' !! k = contents s1 !! k;
  ap_put key v s s' :
    ready s ->
    HasPrefix key "/user/" = true ->
    ApplyCommand (mkCmd OP_PUT key v) s = (s', Ok tt) ->
    forall k, own k = false -> contents s' !! k = <[key := v]> (contents s) !! k;
}.

Lemma str_lt_asym a b : str_lt a b -> ~ str_lt b a.
Proof. rewrite !str_lt_le. intros [? Hn] [? _]. by apply Hn, str_le_antisym. Qed.
Lemma str_nlt_trans a b c : ~ str_lt b a -> ~ str_lt c b -> ~ str_lt c a.
Proof.
  assert (forall x y, ~ str_lt x y <-> String.le y x) as Hn.
  { intros x y. unfold str_lt. rewrite str_le_compare, (String.compare_antisym x y).
    destruct (String.compare y x); cbn; naive_solver. }
  rewrite !Hn. intros Hab Hbc. by eapply str_le_trans.
Qed.

Lemma str_nlt_antisym a b : ~ str_lt a b -> ~ str_lt b a -> a = b.
Proof.
  unfold str_lt. intros Hab Hba. apply String.compare_eq_iff. rewrite (String.compare_antisym b a) in Hba.
  destruct (String.compare a b); cbn in *; naive_solver.
Qed.

Lemma view_less_false a b :
  view_less b a = false <->
  msg_InternalDate (loc_msg b) < msg_InternalDate (loc_msg a) \/
  (msg_InternalDate (loc_msg b) = msg_InternalDate (loc_msg a) /\
   (loc_mailbox b <> loc_mailbox a /\ ~ str_lt (loc_mailbox b) (loc_mailbox a) \/
    loc_mailbox b = loc_mailbox a /\ msg_Uid (loc_msg b) <= msg_Uid (loc_msg a))).
Proof.
  unfold view_less. destruct (Z.eqb_spec (msg_InternalDate (loc_msg b)) (msg_InternalDate (loc_msg a))) as [->|Hne]; cbn.
  - destruct (String.eqb_spec (loc_mailbox b) (loc_mailbox a)) as [->|Hm]; cbn.
    + rewrite Z.ltb_ge. split; [auto|]. intros [?|[_ [[? _]|[_ ?]]]]; [lia|done|done].
    + rewrite bool_decide_eq_false. split; [auto|]. intros [?|[_ [[_ ?]|[? _]]]]; [lia|done|done].
  - rewrite Z.ltb_ge. split; [intros; left; lia|]. intros [?|[? _]]; lia.
Qed.

Lemma view_less_asym a b : view_less a b = true -> view_less b a = false.
Proof.
  intros Hab. apply not_false_iff_true in Hab. rewrite view_less_false in *.
  destruct (Z.lt_trichotomy (msg_InternalDate (loc_msg b)) (msg_InternalDate (loc_msg a))) as [|[Heq|]];
    [by left|right|exfalso; apply Hab; by left].
  split; [done|]. destruct (decide (loc_mailbox b = loc_mailbox a)) as [Hm|Hm].
  - right. split; [done|]. destruct (Z.le_ge_cases (msg_Uid (loc_msg b)) (msg_Uid (loc_msg a))); [done|].
    exfalso. apply Hab. right. naive_solver.
  - left. split; [done|]. intros Hlt. apply Hab. right. split; [done|]. left. split; [done|]. by apply str_lt_asym.
Qed.

Lemma view_less_trans a b c : view_less b a = false -> view_less c b = false -> view_less c a = false.
Proof.
  rewrite !view_less_false.
  intros [?|[Hd Hab]] [?|[Hd' Hbc]]; [left; lia|left; lia|left; lia|]. right. split; [lia|].
  destruct Hab as [[? Hab]|[Hab ?]], Hbc as [[? Hbc]|[Hbc ?]].
  - left. split; [|by eapply str_nlt_trans]. intros Heq. rewrite Heq in *.
    by destruct (str_nlt_antisym (loc_mailbox b) (loc_mailbox a)).
  - left. by rewrite Hbc.
  - left. by rewrite <- Hab.
  - right. split; [congruence|lia].
Qed.

Section Listing.
Context {DB : Type} `{PebbleLaws DB} `{MailCodecLaws} `{GoUnicode}.
Implicit Types (c : gmap string string) (s : DB).

(** Where the strict listing succeeds the lenient one agrees. *)
Lemma list_parsed_parse l msgs : parse_messages l = Ok msgs -> list_parsed l = Ok msgs.
Proof.
  revert msgs. induction l as [|[k v] l IH]; intros msgs; [done|]. cbn. intros. ginv.
  match goal with Hv : iter_value v = _ |- _ => rewrite Hv end. cbn.
  match goal with Hu : unmarshal _ = _ |- _ => rewrite Hu end. by erewrite IH.
Qed.

Lemma list_keys s u m msgs :
  healthy s -> safe u -> mbox_inv (contents s) -> unnested (contents s) u m ->
  listMailboxMessages s u m = Ok msgs ->
  Forall2 (fun kv msg => kv.1 = mailboxMsgKey u m (msg_Uid msg) /\ in_u32 (msg_Uid msg))
    (scan (mailboxMsgPrefix u m) (contents s)) msgs.
Proof.
  unfold listMailboxMessages. intros Hs Hu [_ I2] Hn Hl.
  rewrite PrefixScan_healthy in Hl by done. cbn in Hl. apply parse_messages_Ok in Hl.
  rewrite Forall2_fmap_l in Hl. apply Forall2_same_length_lookup. split; [by eapply Forall2_length|].
  intros i [k v] msg Hi Hj. destruct (Forall2_lookup_lr _ _ _ _ _ _ Hl Hi Hj) as (v'&[= <-]&Hdec).
  apply list_elem_of_lookup_2, elem_of_scan in Hi as [Hc Hp].
  destruct (Hn k) as (uid&Hd&->); [eauto|done|].
  destruct (I2 u m uid v) as (msg'&?&Hat&<-&_); [done..|]. unfold msg_at in Hat. rewrite Hc in Hat.
  cbn in Hat. rewrite Hdec in Hat. by simplify_eq.
Qed.

Lemma msgKey_split u m uid : mailboxMsgKey u m uid = mailboxMsgPrefix u m +:+ fmt_0d 10 uid +:+ "".
Proof. unfold mailboxMsgKey, mailboxMsgPrefix. by rewrite str_app_nil_r, !str_app_assoc. Qed.

Lemma keys_sorted u m l (msgs : list MailboxMessage) :
  Forall2 (fun kv msg => kv.1 = mailboxMsgKey u m (msg_Uid msg) /\ in_u32 (msg_Uid msg)) l msgs ->
  StronglySorted key_le l -> NoDup l.*1 ->
  StronglySorted (fun a b => msg_Uid a < msg_Uid b) msgs.
Proof.
  induction 1 as [|kv msg l msgs [Hk Hd] Hall IH]; intros Hs Hnd; [constructor|].
  apply StronglySorted_inv in Hs as [Hs Hle]. cbn in Hnd. apply NoDup_cons in Hnd as [Hnin Hnd].
  constructor; [by apply IH|]. apply Forall_forall. intros msg' [i Hi]%list_elem_of_lookup.
  destruct (Forall2_lookup_r _ _ _ _ _ Hall Hi) as (kv'&Hi'&Hk'&Hd').
  rewrite Forall_forall in Hle. apply list_elem_of_lookup_2 in Hi'. specialize (Hle _ Hi').
  unfold key_le in Hle. rewrite Hk, Hk' in Hle.
  rewrite !msgKey_split in Hle. apply fmt_0d_key_order in Hle; auto using u32_fits with lia.
  assert (msg_Uid msg <> msg_Uid msg'); [|lia]. intros Heq. apply Hnin.
  rewrite Hk, Heq, <- Hk'. by apply list_elem_of_fmap_2.
Qed.

(** On a healthy store, listing a mailbox without nested names succeeds and
    returns exactly its messages, each once, in ascending UID order. *)
Theorem list_messages_exact s u m :
  healthy s -> safe u -> mbox_inv (contents s) -> unnested (contents s) u m ->
  exists msgs, ListMessages s u m = Ok msgs /\
    StronglySorted (fun a b => msg_Uid a < msg_Uid b) msgs /\
    forall msg, msg ∈ msgs <->
      in_u32 (msg_Uid msg) /\ msg_at (contents s) u m (msg_Uid msg) = Some msg.
Proof.
  intros Hs Hu I Hn. destruct (list_total s u m) as [msgs Hl]; [done..|].
  exists msgs. split_and!.
  - unfold ListMessages. unfold listMailboxMessages in Hl. ginv.
    match goal with Hp : PrefixScan _ _ = _ |- _ => rewrite Hp end. cbn. by apply list_parsed_parse.
  - eapply keys_sorted; [by eapply list_keys|apply range_sorted|apply range_NoDup].
  - intros msg. split; [by eapply list_sound|]. intros [_ Hat]. by eapply list_complete.
Qed.

(** ** The mailboxes and references of a user *)

(** Every mailbox record carries the name it is stored under. *)
Definition named c u : Prop :=
  forall m meta, meta_at c u m = Some meta -> mb_Name meta = m.

Lemma metaKey_prefix u m : String.prefix (mailboxPrefix u) (mailboxMetaKey u m) = true.
Proof.
  apply prefix_spec. exists (m +:+ "/meta").
  unfold mailboxPrefix, mailboxMetaKey. by rewrite !str_app_assoc.
Qed.

Lemma metaKey_suffix u m : HasSuffix (mailboxMetaKey u m) "/meta" = true.
Proof.
  unfold mailboxMetaKey. rewrite <- !str_app_assoc. set (p := _ +:+ m).
  unfold HasSuffix. rewrite str_length_app, Nat.add_sub, str_drop_app.
  rewrite String.eqb_refl, andb_true_r. apply Nat.leb_le. lia.
Qed.

(** Every parseable record is listed, under its name, unless the name was seen. *)
Lemma list_metas_complete seen (l : list (string * string)) metas k v meta :
  list_metas seen ((fun kv => (kv.1, Ok kv.2)) <$> l) = Ok metas ->
  (k, v) ∈ l -> HasSuffix k "/meta" = true -> unmarshal v = Ok meta ->
  mb_Name meta ∈ seen \/ exists meta', meta' ∈ metas /\ mb_Name meta' = mb_Name meta.
Proof.
  revert seen metas. induction l as [|[k0 v0] l IH]; intros seen metas Hl Hin Hsuf Hdec; [set_solver|].
  cbn in Hl. apply elem_of_cons in Hin as [[= <- <-]|Hin].
  - rewrite Hsuf in Hl. cbn in Hl. rewrite Hdec in Hl. case_decide; [by left|]. ginv. right. exists meta. set_solver.
  - destruct (negb _); [by eapply IH|]. destruct (unmarshal v0) as [meta0|]; [|by eapply IH].
    case_decide; [by eapply IH|]. ginv.
    match goal with Hr : list_metas _ _ = _ |- _ => destruct (IH _ _ Hr Hin Hsuf Hdec) as [Hs|(y&?&?)] end.
    + apply elem_of_union in Hs as [->%elem_of_singleton|]; [right; exists meta0; set_solver|by left].
    + right. exists y. set_solver.
Qed.

Lemma ListMailboxes_complete s u metas m meta :
  healthy s -> named (contents s) u -> ListMailboxes s u = Ok metas ->
  meta_at (contents s) u m = Some meta -> exists meta', meta' ∈ metas /\ mb_Name meta' = m.
Proof.
  unfold ListMailboxes. intros Hs Hnm Hl Hm. rewrite PrefixScan_healthy in Hl by done. cbn in Hl.
  pose proof (Hnm _ _ Hm) as Hname. unfold meta_at in Hm.
  destruct (contents s !! _) as [v|] eqn:E; [|done]. cbn in Hm. destruct (unmarshal v) eqn:Hdec; simplify_eq.
  destruct (list_metas_complete _ _ _ (mailboxMetaKey u (mb_Name meta)) v meta Hl) as [Hs'|?]; try done.
  - apply elem_of_scan. split; [done|apply metaKey_prefix].
  - apply metaKey_suffix.
Qed.

Lemma referenced_complete s u metas refs mb msgs msg :
  referenced_guids s u metas = Ok refs -> mb ∈ metas ->
  listMailboxMessages s u (mb_Name mb) = Ok msgs -> msg ∈ msgs -> msg_MailGuid msg ∈ refs.
Proof.
  revert refs. induction metas as [|mb0 metas IH]; intros refs Hr Hin Hl Hm; [set_solver|].
  cbn in Hr. ginv. apply elem_of_union. apply elem_of_cons in Hin as [->|Hin].
  - left. assert (x = msgs) as -> by congruence. apply elem_of_list_to_set, list_elem_of_fmap. eauto.
  - right. eauto.
Qed.

Lemma referenced_lists s u metas refs mb :
  referenced_guids s u metas = Ok refs -> mb ∈ metas -> exists msgs, listMailboxMessages s u (mb_Name mb) = Ok msgs.
Proof.
  revert refs. induction metas as [|mb0 metas IH]; intros refs Hr Hin; [set_solver|].
  cbn in Hr. ginv. apply elem_of_cons in Hin as [->|Hin]; eauto.
Qed.

Lemma orphans_of_spec p refs cutoff (l : list (string * string)) gs g :
  orphans_of p refs cutoff ((fun kv => (kv.1, Ok kv.2)) <$> l) = Ok gs -> g ∈ gs ->
  g ∉ refs /\ exists k v (meta : MailMeta), (k, v) ∈ l /\ g = TrimPrefix k p /\
    unmarshal v = Ok meta /\ mm_ReceivedAt meta <= cutoff.
Proof.
  revert gs. induction l as [|[k v] l IH]; intros gs Hl Hg; cbn in Hl; [simplify_eq; set_solver|].
  assert (forall gs', orphans_of p refs cutoff ((fun kv => (kv.1, Ok kv.2)) <$> l) = Ok gs' -> g ∈ gs' ->
    g ∉ refs /\ exists k' v' (meta : MailMeta), (k', v') ∈ (k, v) :: l /\ g = TrimPrefix k' p /\
      unmarshal v' = Ok meta /\ mm_ReceivedAt meta <= cutoff) as Hrec.
  { intros gs' Hl' Hg'. destruct (IH _ Hl' Hg') as (?&k'&v'&mt&?&?&?&?).
    split; [done|]. exists k', v', mt. split_and!; [by right|done..]. }
  destruct (_ || _) eqn:E; [by eapply Hrec|]. destruct (unmarshal v) as [meta|] eqn:Hdec; [|by eapply Hrec].
  destruct (cutoff <? _) eqn:Hc; [by eapply Hrec|]. ginv. apply elem_of_cons in Hg as [->|Hg]; [|by eapply Hrec].
  apply orb_false_iff in E as [_ Hn%bool_decide_eq_false]. split; [done|].
  exists k, v, meta. split_and!; [set_solver|done|done|lia].
Qed.

(** The orphan sweep is safe: a GUID it returns is referenced by no message
    of any mailbox of the user, and its metadata is older than [minAge], so no
    delivery in flight is swept. *)
Theorem orphans_are_unreferenced now minAge s u gs g :
  healthy s -> named (contents s) u -> OrphanedMailGUIDs now minAge s u = Ok gs -> g ∈ gs ->
  (forall m uid meta msg, meta_at (contents s) u m = Some meta ->
     msg_at (contents s) u m uid = Some msg -> msg_MailGuid msg <> g) /\
  exists v (meta : MailMeta), contents s !! mailMetaKey u g = Some v /\ unmarshal v = Ok meta /\
    mm_ReceivedAt meta <= unix_of (now - minAge).
Proof.
  intros Hs Hnm Ho Hg. unfold OrphanedMailGUIDs in Ho.
  rewrite PrefixScan_healthy in Ho by done. ginv. simplify_eq/=.
  match goal with Ho : orphans_of _ _ _ _ = _, Hr : referenced_guids _ _ _ = _, Hl : ListMailboxes _ _ = _ |- _ =>
    destruct (orphans_of_spec _ _ _ _ _ _ Ho Hg) as (Hn&k&v&meta&Hin&->&Hdec&Hage); rename Hr into HR, Hl into HL end.
  split.
  - intros m uid mb msg Hm Hmsg Heq. apply Hn. rewrite <- Heq.
    destruct (ListMailboxes_complete _ _ _ _ _ Hs Hnm HL Hm) as (mb'&Hmb&<-).
    destruct (referenced_lists _ _ _ _ _ HR Hmb) as [msgs Hl].
    eapply referenced_complete; eauto using list_complete.
  - apply elem_of_scan in Hin as [Hc [r ->]%prefix_spec]. exists v, meta. split_and!; [|done|].
    + rewrite TrimPrefix_app. unfold mailMetaKey. unfold mailMetaPrefix in Hc. by rewrite !str_app_assoc in Hc.
    + unfold time_add in Hage. by replace (now - minAge) with (now + - minAge) by lia.
Qed.

(** A header-based view pages through a complete list: the matching
    messages of every non-excluded mailbox, newest first, cut at any
    non-negative offset and limit without panicking, with each message paired
    with its own mailbox and the total counting all matches. *)
Theorem view_pages_newest_first s u guids keep offset limit mailboxes :
  ListMailboxes s u = Ok mailboxes -> guids <> ∅ -> 0 <= offset -> 0 <= limit ->
  let all := gather s u (filter (fun mb => HeaderViewExcludes (mb_Name mb) = false) mailboxes)
    (fun _ msg => bool_decide (msg_MailGuid msg ∈ guids) && match keep with None => true | Some k => k msg end) in
  Z.of_nat (length all) <= MaxInt64 ->
  exists sorted, sorted ≡ₚ all /\ StronglySorted (fun a b => view_less b a = false) sorted /\
    let page := take (Z.to_nat limit) (drop (Z.to_nat offset) sorted) in
    ListViewMessagesFiltered s u guids keep offset limit =
      Some (Ok (loc_msg <$> page, loc_mailbox <$> page, Z.of_nat (length all))).
Proof.
  intros Hl Hg Ho Hlim all Hmax. exists (SliceStable view_less all).
  pose proof (SliceStable_Permutation view_less all) as Hp. split_and!; [done| |].
  { apply SliceStable_sorted; eauto using view_less_asym, view_less_trans. }
  cbn zeta. unfold ListViewMessagesFiltered. rewrite decide_False, Hl by done. fold all.
  rewrite (Permutation_length Hp). set (total := Z.of_nat (length all)) in *.
  destruct (Z.leb_spec total offset).
  { rewrite drop_ge by (rewrite (Permutation_length Hp); lia). by rewrite take_nil. }
  rewrite i64_small by (unfold in_i64, MinInt64, MaxInt64 in *; lia).
  destruct (Z.ltb_spec limit (total - offset)).
  - rewrite i64_small by (unfold in_i64, MinInt64, MaxInt64 in *; lia).
    unfold goSlice. rewrite (Permutation_length Hp). fold total.
    rewrite !(proj2 (Z.leb_le _ _)) by lia. cbn. by rewrite Z.add_simpl_l.
  - unfold goSlice. rewrite (Permutation_length Hp). fold total.
    rewrite !(proj2 (Z.leb_le _ _)) by lia. cbn.
    rewrite !take_ge by (rewrite length_drop, (Permutation_length Hp); lia). done.
Qed.

End Listing.

Section Writes.
Context {DB : Type} `{PebbleLaws DB} `{MailCodecLaws} `{GoUnicode} `{RaftApplier DB} `{!MailboxApplier DB}.
Implicit Types (c : gmap string string) (s : DB).

Lemma user_not_own k : HasPrefix k "/user/" = true -> own k = false.
Proof. intros Hk. destruct (own k) eqn:E; [|done]. apply own_user in E. congruence. Qed.

Lemma msgKey_user u m uid : HasPrefix (mailboxMsgKey u m uid) "/user/" = true.
Proof. apply prefix_app. Qed.
Lemma metaKey_user u m : HasPrefix (mailboxMetaKey u m) "/user/" = true.
Proof. apply prefix_app. Qed.
Lemma mailKey_user u g : HasPrefix (mailMetaKey u g) "/user/" = true.
Proof. apply prefix_app. Qed.

Lemma GetMessage_Ok s u m uid msg : GetMessage s u m uid = Ok msg -> msg_at (contents s) u m uid = Some msg.
Proof.
  unfold GetMessage, msg_at. intros. ginv.
  match goal with Hg : Get _ _ = Ok _ |- _ => apply Get_Ok in Hg as -> end. cbn.
  by match goal with Hu : unmarshal _ = Ok _ |- _ => rewrite Hu end.
Qed.

Lemma GetMailbox_Ok s u m meta : GetMailbox s u m = Ok meta -> meta_at (contents s) u m = Some meta.
Proof.
  unfold GetMailbox, meta_at. intros. ginv.
  match goal with Hg : Get _ _ = Ok _ |- _ => apply Get_Ok in Hg as -> end. cbn.
  by match goal with Hu : unmarshal _ = Ok _ |- _ => rewrite Hu end.
Qed.

(** [s'] is [s] with the message at [u]/[m]/[uid] mapped through [f]. *)
Definition updated s s' u m uid (f : MailboxMessage -> MailboxMessage) : Prop :=
  exists msg, msg_at (contents s) u m uid = Some msg /\ msg_at (contents s') u m uid = Some (f msg) /\
    forall k, HasPrefix k "/user/" = true -> k <> mailboxMsgKey u m uid -> contents s' !! k = contents s !! k.

Lemma update_message_updated s s' u m uid f :
  ready s -> update_message u m uid f s = (s', Ok tt) -> updated s s' u m uid f.
Proof.
  unfold update_message, writeMessage. intros Hrd Hrun. ginv.
  match goal with Hg : GetMessage _ _ _ _ = Ok _ |- _ => apply GetMessage_Ok in Hg end.
  match goal with Ha : ApplyCommand _ _ = _ |- _ => pose proof (ap_put _ _ _ _ Hrd (msgKey_user u m uid) Ha) as Hput end.
  eexists. split; [eassumption|]. split.
  - match goal with Hm : marshal _ = Ok _ |- _ => apply proto_roundtrip in Hm end.
    rewrite (msg_at_congr _ _ _ _ _ (Hput _ (user_not_own _ (msgKey_user u m uid)))). by apply msg_at_insert.
  - intros k Hk Hne. rewrite Hput by (by apply user_not_own). by apply lookup_insert_ne, not_eq_sym.
Qed.

(** The flag operations do what IMAP STORE asks: FLAGS replaces the set,
    +FLAGS is the union and -FLAGS the difference, bit by bit; the other fields
    of the message and every other record of the user data stay as they were. *)
Theorem flag_operations_exact s s' u m uid fl op f :
  ready s ->
  (op, f) ∈ [(SetFlags u m uid fl, fun _ b => b);
             (AddFlags u m uid fl, orb); (RemoveFlags u m uid fl, fun a b => a && negb b)] ->
  op s = (s', Ok tt) ->
  exists msg msg', msg_at (contents s) u m uid = Some msg /\ msg_at (contents s') u m uid = Some msg' /\
    (forall i, Z.testbit (msg_Flags msg') i = f (Z.testbit (msg_Flags msg) i) (Z.testbit fl i)) /\
    with_flags msg' (msg_Flags msg) = msg /\
    forall k, HasPrefix k "/user/" = true -> k <> mailboxMsgKey u m uid -> contents s' !! k = contents s !! k.
Proof.
  intros Hrd Hop Hrun.
  assert (exists g, updated s s' u m uid (fun msg => with_flags msg (g (msg_Flags msg))) /\
    forall x i, Z.testbit (g x) i = f (Z.testbit x i) (Z.testbit fl i)) as (g&(msg&?&?&?)&Hg).
  { rewrite !elem_of_cons in Hop. destruct Hop as [[= -> ->]|[[= -> ->]|[[= -> ->]|[]%not_elem_of_nil]]];
      apply update_message_updated in Hrun; try exact Hrd.
    - by exists (fun _ => fl).
    - exists (fun x => Z.lor x fl). split; [exact Hrun|]. intros. apply Z.lor_spec.
    - exists (fun x => andnot x fl). split; [exact Hrun|]. intros. apply Z.ldiff_spec. }
  exists msg. eexists. split_and!; [done|done|intros i; cbn; apply Hg|by destruct msg|done].
Qed.

(** A delivery through the client returns the UID the message was filed
    under, a UID that was free before, and the stored mail metadata decodes to
    the metadata given, with its header fields made valid UTF-8. *)
Theorem deliver_returns_assigned_uid s s' u m meta flags uid :
  ready s -> healthy s -> mbox_inv (contents s) -> uid_room (contents s) ->
  safe u -> u <> "" -> m <> "" -> in_u32 flags ->
  DeliverMessage u m meta flags s = (s', Ok uid) ->
  msg_at (contents s) u m uid = None /\
  msg_at (contents s') u m uid =
    Some (mkMailboxMessage uid (mm_Guid meta) flags (mm_ReceivedAt meta) (mm_Tags meta)) /\
  exists v, contents s' !! mailMetaKey u (mm_Guid meta) = Some v /\ unmarshal v = Ok (SanitizeMailMeta meta).
Proof.
  intros Hrd Hs I Hroom Hu Hu0 Hm0 Hfl Hrun. unfold DeliverMessage, buildMailboxDeliveryCommand in Hrun. ginv.
  rename select (ApplyCommand _ _ = _) into Ha. rename select (marshal (SanitizeMailMeta meta) = _) into Hmeta.
  rename select (marshal (mkDelivery _ _) = _) into Hpay. rename select (GetMailbox _ _ _ = _) into Hget.
  match goal with x : unit |- _ => destruct x end. rename x into s.
  apply ap_synthetic in Ha as (s1&r&Hr&Hag); [|done|done|apply deliver_key_synthetic].
  rewrite deliver_dispatch in Hr.
  apply delivery_effect in Hr as (u'&m'&p&mail&base&msg&_&Hk&Hp&Hmail&_&Hbase&Hmsg&(vm&vg&Hvm&Hvg&_&Hc)&_).
  cbn [cmd_Key cmd_Value] in Hk, Hp. unfold mailboxDeliverKey in Hk. rewrite parse_scoped in Hk by done.
  injection Hk as <- <-. rewrite (json_roundtrip _ _ Hpay (ml_delivery_clean (mkDelivery _ flags) Hfl)) in Hp. injection Hp as <-.
  cbn [dp_Meta dp_Flags] in *. rewrite (proto_roundtrip _ _ Hmeta) in Hmail. injection Hmail as <-.
  assert (in_u32 (mb_UidNext base) /\ in_u32 (mb_UidNext base + 1) /\ contents s !! mailboxMsgKey u m (mb_UidNext base) = None)
    as (Hd&Hd1&Hfree).
  { destruct (readOrInit_Ok _ _ _ _ Hs Hu I Hbase) as [Hm|[Hn ->]].
    - assert (in_u32 (mb_UidNext base)) as Hd by (eapply alloc_from_range; by left).
      split_and!; [done| |by apply inv_next_free]. pose proof (Hroom _ _ _ Hu Hm). destruct Hd. split; lia.
    - split_and!; [done|done|]. by apply inv_no_meta_no_msg. }
  apply GetMailbox_Ok in Hget. rewrite (meta_at_congr _ (contents s1)) in Hget by (apply Hag, user_not_own, metaKey_user).
  rewrite Hc, meta_at_insert_msg, (meta_at_insert _ _ _ _ _ Hvm) in Hget by done. injection Hget as <-.
  rewrite bump_next, Z.add_simpl_r, u32_small by done. split_and!.
  - unfold msg_at. by rewrite Hfree.
  - rewrite (msg_at_congr _ (contents s1)) by (apply Hag, user_not_own, msgKey_user).
    rewrite Hc. by rewrite (msg_at_insert _ _ _ _ _ _ Hvg), Hmsg.
  - rewrite Hag by (apply user_not_own, mailKey_user). rewrite Hc.
    rewrite !lookup_insert_ne by (apply not_eq_sym; by (apply mailKey_msgKey || apply mailKey_metaKey)).
    cbn [mm_Guid SanitizeMailMeta]. rewrite lookup_insert_eq. eexists. split; [done|]. by apply proto_roundtrip.
Qed.

End Writes.

(** * The client on concrete stores *)

Section Demo.
#[local] Existing Instances demo_codecs demo_codec_laws bytewise_unicode.

(** An applier without a log: commands go straight to the store. *)
Definition direct_apply (cmd : RaftCommand) (s : MemDB) : MemDB * result unit :=
  match cmd_Op cmd with
  | OP_PUT =>
      if IsMailboxSyntheticCommand (cmd_Key cmd)
      then (let! _ := ApplyMailboxCommand cmd in gret tt) s
      else Set_ (cmd_Key cmd) (cmd_Value cmd) s
  | _ => (s, Err (Errorf "unknown op"))
  end.
#[local] Instance direct_applier : RaftApplier MemDB := direct_apply.

Lemma user_key_plain k : HasPrefix k "/user/" = true -> IsMailboxSyntheticCommand k = false.
Proof. intros [r ->]%prefix_spec. by vm_compute. Qed.

#[local] Instance direct_mailbox : MailboxApplier MemDB.
Proof.
  refine {| own := fun _ => false; ready := fun _ => True |}; [done| |].
  - intros cmd s s' _ Hop Hk. unfold ApplyCommand, direct_applier, direct_apply. rewrite Hop, Hk.
    intros. ginv. eauto.
  - intros key v s s' _ Hk. unfold ApplyCommand, direct_applier, direct_apply. cbn [cmd_Op cmd_Key cmd_Value].
    rewrite user_key_plain by done. unfold Set_. intros Hr k _. apply gwrap_Ok, commit_Ok in Hr.
    cbn in Hr |- *. by rewrite Hr.
Defined.

Definition named_check (c : gmap string string) (u : string) : bool :=
  forallb (fun kv => match unmarshal kv.2 with
    | Ok meta => negb (HasSuffix kv.1 "/meta") || String.eqb kv.1 (mailboxMetaKey u (mb_Name meta))
    | Err _ => true end) (map_to_list c).
Lemma named_check_ok c u : safe u -> named_check c u = true -> named c u.
Proof.
  intros Hu Hc m meta. unfold meta_at. destruct (c !! _) as [v|] eqn:E; [|done].
  apply elem_of_map_to_list in E.
  apply forallb_forall with (x := (mailboxMetaKey u m, v)) in Hc; [|by apply list_elem_of_In].
  cbn [fst snd mbind option_bind] in *. rewrite metaKey_suffix in Hc.
  destruct (unmarshal v) as [x|]; [|done]. intros [= ->].
  apply String.eqb_eq, metaKey_inj in Hc as [_ <-]; done.
Qed.

Lemma list_messages_exact_witness :
  exists msgs, ListMessages demo2 "u1" "INBOX" = Ok msgs /\ StronglySorted (fun a b => msg_Uid a < msg_Uid b) msgs.
Proof.
  destruct (list_messages_exact demo2 "u1" "INBOX") as (msgs&Hl&Hs&_).
  - apply demo2_ok.
  - reflexivity.
  - apply demo2_ok.
  - apply (unnested_check_ok _ _ _ [1; 2]). by vm_compute.
  - exists msgs. exact (conj Hl Hs).
Defined.

(** Expunging leaves the metadata of [g1] behind. *)
Definition demo_orphan : MemDB := apply_all [mkCmd OP_PUT (mailboxExpungeKey "u1" "INBOX") ""] demo2.
Lemma demo_orphan_found : OrphanedMailGUIDs (100 * Hour) Hour demo_orphan "u1" = Ok ["g1"].
Proof. vm_compute. reflexivity. Qed.
Lemma orphans_are_unreferenced_witness :
  OrphanedMailGUIDs (100 * Hour) Hour demo_orphan "u1" = Ok ["g1"] /\
  forall m uid meta msg, meta_at (contents demo_orphan) "u1" m = Some meta ->
    msg_at (contents demo_orphan) "u1" m uid = Some msg -> msg_MailGuid msg <> "g1".
Proof.
  split; [exact demo_orphan_found|].
  destruct (orphans_are_unreferenced (100 * Hour) Hour demo_orphan "u1" ["g1"] "g1") as [Hn _].
  - apply healthy_check_ok. by vm_compute.
  - apply named_check_ok; [reflexivity|by vm_compute].
  - apply demo_orphan_found.
  - apply list_elem_of_singleton. reflexivity.
  - exact Hn.
Defined.

Lemma flag_operations_exact_witness :
  exists msg msg', msg_at (contents demo2) "u1" "INBOX" 1 = Some msg /\
    msg_at (contents (AddFlags "u1" "INBOX" 1 FlagSeen demo2).1) "u1" "INBOX" 1 = Some msg' /\
    Z.testbit (msg_Flags msg') 0 = Z.testbit (msg_Flags msg) 0 || true.
Proof.
  destruct (flag_operations_exact demo2 (AddFlags "u1" "INBOX" 1 FlagSeen demo2).1 "u1" "INBOX" 1 FlagSeen
    (AddFlags "u1" "INBOX" 1 FlagSeen) orb) as (msg&msg'&H1&H2&Hf&_).
  - exact I.
  - right. left.
  - vm_compute. reflexivity.
  - exists msg, msg'. exact (conj H1 (conj H2 (Hf 0))).
Defined.

Lemma deliver_returns_assigned_uid_witness :
  msg_at (contents (DeliverMessage "u1" "INBOX" (demo_mail "g4") 0 demo2).1) "u1" "INBOX" 3 =
    Some (mkMailboxMessage 3 "g4" 0 0 []).
Proof.
  destruct (deliver_returns_assigned_uid demo2 (DeliverMessage "u1" "INBOX" (demo_mail "g4") 0 demo2).1
    "u1" "INBOX" (demo_mail "g4") 0 3) as (_&Hm&_).
  - exact I.
  - apply demo2_ok.
  - apply demo2_ok.
  - apply room_check_ok. by vm_compute.
  - reflexivity.
  - discriminate.
  - discriminate.
  - unfold in_u32; lia.
  - vm_compute. reflexivity.
  - exact Hm.
Defined.

Lemma view_pages_newest_first_witness :
  exists sorted, ListViewMessagesFiltered demo2 "u1" {["g1"; "g3"]} None 1 1 =
    Some (Ok (loc_msg <$> take 1 (drop 1 sorted), loc_mailbox <$> take 1 (drop 1 sorted), 2)).
Proof.
  destruct (view_pages_newest_first demo2 "u1" {["g1"; "g3"]} None 1 1
    (match ListMailboxes demo2 "u1" with Ok l => l | Err _ => [] end)) as (sorted&Hp&_&Hv).
  - vm_compute. reflexivity.
  - intros E. assert ("g1" ∈ (∅ : gset string)) as Hin by (rewrite <- E; set_solver). set_solver.
  - lia.
  - lia.
  - vm_compute. discriminate.
  - exists sorted. exact Hv.
Defined.

(** ** Interleavings

    The client reads, then writes, in separate steps. *)

(** Setting a flag on a message that is expunged between the read and the
    write puts the message back. *)
Theorem stale_flag_write_resurrects :
  let msg := mkMailboxMessage 1 "g1" FlagDeleted 0 [] in
  let s1 := (ApplyMailboxCommand (mkCmd OP_PUT (mailboxExpungeKey "u1" "INBOX") "") demo2).1 in
  let s2 := (writeMessage "u1" "INBOX" 1 (with_flags msg (Z.lor FlagDeleted FlagSeen)) s1).1 in
  GetMessage demo2 "u1" "INBOX" 1 = Ok msg /\
  msg_at (contents s1) "u1" "INBOX" 1 = None /\
  msg_at (contents s2) "u1" "INBOX" 1 = Some (with_flags msg (Z.lor FlagDeleted FlagSeen)).
Proof. vm_compute. split_and!; reflexivity. Qed.

(** Two deliveries that both apply before the first reloads the metadata: the
    first caller is given the UID of the second message. *)
Theorem concurrent_delivery_returns_other_uid :
  let s1 := (ApplyMailboxCommand (demo_deliver "INBOX" "mine" 0) demo2).1 in
  let s2 := (ApplyMailboxCommand (demo_deliver "INBOX" "other" 0) s1).1 in
  (fun meta => u32 (mb_UidNext meta - 1)) <$> meta_at (contents s2) "u1" "INBOX" = Some 4 /\
  msg_MailGuid <$> msg_at (contents s2) "u1" "INBOX" 4 = Some "other" /\
  msg_MailGuid <$> msg_at (contents s2) "u1" "INBOX" 3 = Some "mine".
Proof. vm_compute. split_and!; reflexivity. Qed.

(** [SanitizeMailMeta] leaves string fields other than the headers alone: a
    tag that is not UTF-8 stays, and [proto.Marshal] rejects the message. *)
Theorem sanitize_leaves_tags :
  let bad := String (char_of 255) "" in
  let meta := mkMailMeta "g" "" "" "" [] 0 None [] "" 0 "" "" [] 0 "" "" "" "" [bad] [] "" "" "" in
  forallb ValidString (mm_Tags (SanitizeMailMeta meta)) = false.
Proof. vm_compute. reflexivity. Qed.

End Demo.
