(* ===== verification/Credentials.v ===== *)
(** App passwords and device links: [internal/store/apppassword.go],
    [apppasswordcommand.go] and [apppasswordticket.go].

    Both kinds of record change through conditional commands decided inside the
    replicated state machine: the last-used touch, which never creates a
    record, and the consume, which lets a one-time link be used once. *)

From S2P Require Import Prelude GoStrings Pebble Proto.
From Stdlib Require Import Ascii.

Record AppPassword := mkAppPassword {
  ap_Id : string; ap_Label : string; ap_CreatedAt : Z; ap_LastUsedAt : Z; ap_PasswordHash : string }.
#[global] Instance AppPassword_eq_dec : EqDecision AppPassword.
Proof. solve_decision. Defined.
#[global] Instance AppPassword_countable : Countable AppPassword.
Proof.
  apply (inj_countable' (fun r => (ap_Id r, ap_Label r, ap_CreatedAt r, ap_LastUsedAt r, ap_PasswordHash r))
           (fun '(a, b, c, d, e) => mkAppPassword a b c d e)).
  by intros [].
Defined.

Record AppPasswordTicket := mkTicket {
  tk_Label : string; tk_Host : string; tk_Epoch : string; tk_CreatedAt : Z; tk_ExpiresAt : Z; tk_UsedAt : Z }.
#[global] Instance AppPasswordTicket_eq_dec : EqDecision AppPasswordTicket.
Proof. solve_decision. Defined.
#[global] Instance AppPasswordTicket_countable : Countable AppPasswordTicket.
Proof.
  apply (inj_countable' (fun r => (tk_Label r, tk_Host r, tk_Epoch r, tk_CreatedAt r, tk_ExpiresAt r, tk_UsedAt r))
           (fun '(a, b, c, d, e, f) => mkTicket a b c d e f)).
  by intros [].
Defined.

Record appPasswordTouchPayload := mkTouch { tt_User : string; tt_ID : string; tt_Day : Z }.
#[global] Instance touch_eq_dec : EqDecision appPasswordTouchPayload.
Proof. solve_decision. Defined.
#[global] Instance touch_countable : Countable appPasswordTouchPayload.
Proof.
  apply (inj_countable' (fun r => (tt_User r, tt_ID r, tt_Day r)) (fun '(a, b, c) => mkTouch a b c)). by intros [].
Defined.

Record appPasswordTicketPayload := mkConsume { tc_User : string; tc_Hash : string; tc_At : Z }.
#[global] Instance consume_eq_dec : EqDecision appPasswordTicketPayload.
Proof. solve_decision. Defined.
#[global] Instance consume_countable : Countable appPasswordTicketPayload.
Proof.
  apply (inj_countable' (fun r => (tc_User r, tc_Hash r, tc_At r)) (fun '(a, b, c) => mkConsume a b c)). by intros [].
Defined.

Class CredCodecs := {
  cc_password :: Codec AppPassword;
  cc_ticket :: Codec AppPasswordTicket;
  cc_touch :: Codec appPasswordTouchPayload;
  cc_consume :: Codec appPasswordTicketPayload;
}.
Class CredCodecLaws `{CredCodecs} := {
  cl_password :: ProtoLaws AppPassword;
  cl_ticket :: ProtoLaws AppPasswordTicket;
  cl_touch :: JsonLaws appPasswordTouchPayload;
  cl_consume :: JsonLaws appPasswordTicketPayload;
  (** A record with a non-zero field has a non-empty encoding. *)
  cl_ticket_nonempty t v : marshal t = Ok v -> tk_UsedAt t <> 0 -> v <> "";
  cl_password_nonempty (r : AppPassword) v : marshal r = Ok v -> ap_LastUsedAt r <> 0 -> v <> "";
}.

(** * Keys and validation *)

Definition AppPasswordAlphabet : string := "abcdefghjkmnpqrstuvwxyz".
Definition AppPasswordIDLen : nat := 6.
Definition ErrInvalidAppPasswordID : err := Sentinel "invalid app password id".

Definition ValidAppPasswordID (id : string) : bool :=
  Nat.eqb (String.length id) AppPasswordIDLen && str_all (fun c => has_char c AppPasswordAlphabet) id.

Definition appPasswordPrefix (userID : string) : string := "/user/" +:+ userID +:+ "/apppassword/".
Definition AppPasswordKey (userID id : string) : string := appPasswordPrefix userID +:+ id.

Definition appPasswordTouchPrefix : string := "/__apppassword_touch__/".
Definition appPasswordTicketPrefix : string := "/__apppassword_ticket__/".
Definition ErrTicketRefused : err := Sentinel "device link refused".
Definition ErrInvalidDeviceLink : err := Sentinel "invalid device link".

(** [blobstore.go]: a lowercase hex SHA-256. *)
Definition IsValidHash (h : string) : bool :=
  Nat.eqb (String.length h) 64 &&
  str_all (fun c => ((48 <=? byte_of c) && (byte_of c <=? 57)) || ((97 <=? byte_of c) && (byte_of c <=? 102))) h.

Definition validDeviceLinkUser (u : string) : bool := negb (String.eqb u "") && negb (Contains u "/").
Definition DeviceLinkPrefix (userID : string) : string := "/user/" +:+ userID +:+ "/devicelink/".
Definition DeviceLinkKey (userID hash : string) : result string :=
  if negb (validDeviceLinkUser userID) || negb (IsValidHash hash) then Err ErrInvalidDeviceLink
  else Ok (DeviceLinkPrefix userID +:+ hash).

Definition deviceTokenLen : nat := 43.
Definition base64url_char (c : ascii) : bool :=
  let b := byte_of c in
  ((65 <=? b) && (b <=? 90)) || ((97 <=? b) && (b <=? 122)) || ((48 <=? b) && (b <=? 57)) || (b =? 45) || (b =? 95).

(** [hex(sha256(token))]; the digest is a parameter. *)
Definition DeviceTokenHash (sha256_hex : string -> string) (token : string) : option string :=
  if Nat.eqb (String.length token) deviceTokenLen && str_all base64url_char token
  then Some (sha256_hex token) else None.

(** [unix - ((unix%86400)+86400)%86400] on int64, with Go's truncated [%]. *)
Definition DayStart (unix : Z) : Z := i64 (unix - Z.rem (Z.rem unix 86400 + 86400) 86400).

Section Credentials.
Context {DB : Type} `{PebbleDB DB} `{CredCodecs} `{RaftApplier DB}.
Implicit Types ps : DB.

(** * The last-used touch *)

Definition validateAppPasswordTouch (p : appPasswordTouchPayload) : result unit :=
  if String.eqb (tt_User p) "" || Contains (tt_User p) "/" then Err (Errorf "app password touch: invalid user")
  else if negb (ValidAppPasswordID (tt_ID p)) then Err ErrInvalidAppPasswordID
  else if tt_Day p <=? 0 then Err (Errorf "app password touch: invalid day")
  else Ok tt.

Definition BuildAppPasswordTouchCommand (userID id : string) (at_ : Z) : result RaftCommand :=
  let p := mkTouch userID id (DayStart at_) in
  let? _ := validateAppPasswordTouch p in
  let? data := wrapf "marshaling app password touch" (marshal p) in
  Ok (mkCmd OP_PUT (appPasswordTouchPrefix +:+ "touch") data).

Definition IsAppPasswordSyntheticCommand (key : string) : bool := HasPrefix key appPasswordTouchPrefix.

(** [ps.Get], with the missing key as an empty value. *)
Definition get_or_empty (what : string) ps (k : string) : result string :=
  match Get ps k with
  | Ok v => Ok v
  | Err e => if errors_is e ErrNotFound then Ok "" else Err (Wrap what e)
  end.

(** [None]: nothing to write. *)
Definition PlanAppPasswordTouch ps (cmd : RaftCommand) : result (option (string * string)) :=
  if negb (IsAppPasswordSyntheticCommand (cmd_Key cmd)) then Err (Errorf "not a synthetic app password command") else
  let? p := wrapf "parsing app password touch" (unmarshal (cmd_Value cmd)) in
  let? _ := validateAppPasswordTouch p in
  let k := AppPasswordKey (tt_User p) (tt_ID p) in
  let? prev := get_or_empty "reading app password" ps k in
  if String.eqb prev "" then Ok None else
  let? rec := wrapf "unmarshaling app password" (unmarshal prev) in
  if tt_Day p <=? ap_LastUsedAt rec then Ok None else
  let rec' := mkAppPassword (ap_Id rec) (ap_Label rec) (ap_CreatedAt rec) (tt_Day p) (ap_PasswordHash rec) in
  let? val := wrapf "marshaling app password" (marshal rec') in
  Ok (Some (k, val)).

Definition ApplyAppPasswordTouch (cmd : RaftCommand) : GoM DB unit :=
  let! plan := gread (fun ps => PlanAppPasswordTouch ps cmd) in
  match plan with None => gret tt | Some (k, v) => Set_ k v end.

(** ** The store methods *)

Definition aps_err (what userID : string) : string := "app password store " +:+ what +:+ " (" +:+ userID +:+ ")".

Definition aps_Put (userID : string) (rec : AppPassword) : GoM DB unit :=
  if negb (ValidAppPasswordID (ap_Id rec)) then gfail ErrInvalidAppPasswordID else
  let! data := glift (wrapf (aps_err "put" userID +:+ ": marshal") (marshal rec)) in
  gwrap (aps_err "put" userID +:+ ": raft") (ApplyCommand (mkCmd OP_PUT (AppPasswordKey userID (ap_Id rec)) data)).

Definition aps_Get ps (userID id : string) : result (option AppPassword) :=
  if negb (ValidAppPasswordID id) then Err ErrInvalidAppPasswordID else
  match Get ps (AppPasswordKey userID id) with
  | Err e => if errors_is e ErrNotFound then Ok None else Err (Wrap (aps_err "get" userID) e)
  | Ok data => let? rec := wrapf (aps_err "get" userID +:+ ": unmarshal") (unmarshal data) in Ok (Some rec)
  end.

Fixpoint aps_collect (userID : string) (l : list (string * result string)) : result (list AppPassword) :=
  match l with
  | [] => Ok []
  | (_, v) :: l' =>
      let? val := wrapf (aps_err "list" userID) (iter_value v) in
      let? rec := wrapf (aps_err "list" userID +:+ ": unmarshal") (unmarshal val) in
      let? rest := aps_collect userID l' in
      Ok (rec :: rest)
  end.
Definition aps_List ps (userID : string) : result (list AppPassword) :=
  let? l := wrapf (aps_err "list" userID) (PrefixScan ps (appPasswordPrefix userID)) in
  aps_collect userID l.

Definition aps_Delete (userID id : string) : GoM DB unit :=
  if negb (ValidAppPasswordID id) then gfail ErrInvalidAppPasswordID else
  gwrap (aps_err "delete" userID +:+ ": raft") (ApplyCommand (mkCmd OP_DELETE (AppPasswordKey userID id) "")).

Definition aps_Touch (userID id : string) (at_ : Z) : GoM DB unit :=
  let! cmd := glift (BuildAppPasswordTouchCommand userID id at_) in
  gwrap (aps_err "touch" userID +:+ ": raft") (ApplyCommand cmd).

(** * Device links *)

Definition validate_consume (p : appPasswordTicketPayload) : result unit :=
  if negb (validDeviceLinkUser (tc_User p)) || negb (IsValidHash (tc_Hash p)) then Err ErrInvalidDeviceLink
  else if tc_At p <=? 0 then Err (Errorf "device link consume: invalid time")
  else Ok tt.

Definition BuildAppPasswordTicketConsumeCommand (userID hash : string) (at_ : Z) : result RaftCommand :=
  let p := mkConsume userID hash at_ in
  let? _ := validate_consume p in
  let? data := wrapf "marshaling device link consume" (marshal p) in
  Ok (mkCmd OP_PUT (appPasswordTicketPrefix +:+ "consume") data).

Definition IsAppPasswordTicketCommand (key : string) : bool := HasPrefix key appPasswordTicketPrefix.

Definition PlanAppPasswordTicketConsume ps (cmd : RaftCommand) : result (string * string) :=
  if negb (IsAppPasswordTicketCommand (cmd_Key cmd)) then Err (Errorf "not a device link command") else
  let? p := wrapf "parsing device link consume" (unmarshal (cmd_Value cmd)) in
  let? _ := validate_consume p in
  let? k := DeviceLinkKey (tc_User p) (tc_Hash p) in
  let? prev := get_or_empty "reading device link" ps k in
  if String.eqb prev "" then Err ErrTicketRefused else
  let? rec := wrapf "unmarshaling device link" (unmarshal prev) in
  if negb (tk_UsedAt rec =? 0) || (tk_ExpiresAt rec <=? tc_At p) then Err ErrTicketRefused else
  let rec' := mkTicket (tk_Label rec) (tk_Host rec) (tk_Epoch rec) (tk_CreatedAt rec) (tk_ExpiresAt rec) (tc_At p) in
  let? val := wrapf "marshaling device link" (marshal rec') in
  Ok (k, val).

Definition ApplyAppPasswordTicketConsume (cmd : RaftCommand) : GoM DB unit :=
  let! (k, v) := gread (fun ps => PlanAppPasswordTicketConsume ps cmd) in
  Set_ k v.

Definition dls_Put (userID hash : string) (rec : AppPasswordTicket) : GoM DB unit :=
  let! key := glift (DeviceLinkKey userID hash) in
  let! data := glift (wrapf "marshaling device link" (marshal rec)) in
  gwrap "storing device link" (ApplyCommand (mkCmd OP_PUT key data)).

Definition dls_Get ps (userID hash : string) : result (option AppPasswordTicket) :=
  let? key := DeviceLinkKey userID hash in
  match Get ps key with
  | Err e => if errors_is e ErrNotFound then Ok None else Err (Wrap "reading device link" e)
  | Ok raw => let? rec := wrapf "unmarshaling device link" (unmarshal raw) in Ok (Some rec)
  end.

Definition dls_deleteKey (key : string) : GoM DB unit :=
  gwrap "deleting device link" (ApplyCommand (mkCmd OP_DELETE key "")).
Definition dls_Delete (userID hash : string) : GoM DB unit :=
  let! key := glift (DeviceLinkKey userID hash) in dls_deleteKey key.

(** Not atomic: it stops at the first failure. *)
Fixpoint delete_keys (keys : list string) : GoM DB unit :=
  match keys with
  | [] => gret tt
  | k :: keys' => let! _ := dls_deleteKey k in delete_keys keys'
  end.
Definition dls_DeleteAll (userID : string) : GoM DB unit :=
  if negb (validDeviceLinkUser userID) then gfail ErrInvalidDeviceLink else
  let! l := gread (fun ps => wrapf "scanning device links" (PrefixScan ps (DeviceLinkPrefix userID))) in
  delete_keys (fst <$> l).

Definition dls_Consume (userID hash : string) (at_ : Z) : GoM DB unit :=
  let! cmd := glift (BuildAppPasswordTicketConsumeCommand userID hash at_) in
  fun ps => match ApplyCommand cmd ps with
            | (ps', Ok _) => (ps', Ok tt)
            | (ps', Err e) => (ps', Err (if errors_is e ErrTicketRefused then ErrTicketRefused
                                         else Wrap "consuming device link" e))
            end.

Definition DecodeDeviceLinkExpiry (v : string) : result Z :=
  let? t := wrapf "unmarshaling device link" (unmarshal v) in
  Ok (time_unix (tk_ExpiresAt t)).

End Credentials.

(** * Theorems *)

Section CredThm.
Context {DB : Type} `{PebbleLaws DB} `{CredCodecLaws}.
Implicit Types (s : DB) (c : gmap string string).

Lemma get_or_empty_Ok what s k v :
  get_or_empty what s k = Ok v -> v <> "" -> contents s !! k = Some v.
Proof.
  unfold get_or_empty. destruct (Get s k) eqn:E; [intros [= ->] _; by apply Get_Ok|].
  case_match; [|done]. by intros [= <-].
Qed.

Lemma get_or_empty_healthy what s k :
  healthy s -> get_or_empty what s k = Ok (default "" (contents s !! k)).
Proof. intros Hs. unfold get_or_empty. rewrite Get_healthy by done. by destruct (contents s !! k). Qed.

(** ** App passwords *)

Definition touched (rec : AppPassword) (day : Z) : AppPassword :=
  mkAppPassword (ap_Id rec) (ap_Label rec) (ap_CreatedAt rec) day (ap_PasswordHash rec).

Lemma PlanTouch_Some s cmd k v :
  PlanAppPasswordTouch s cmd = Ok (Some (k, v)) ->
  exists p prev rec, unmarshal (cmd_Value cmd) = Ok p /\ validateAppPasswordTouch p = Ok tt /\
    k = AppPasswordKey (tt_User p) (tt_ID p) /\ contents s !! k = Some prev /\ unmarshal prev = Ok rec /\
    ap_LastUsedAt rec < tt_Day p /\ marshal (touched rec (tt_Day p)) = Ok v.
Proof.
  unfold PlanAppPasswordTouch. destruct (IsAppPasswordSyntheticCommand _); [|done]. cbn [negb]. intros Hp.
  ginv. destruct (String.eqb_spec x1 ""); [done|]. ginv.
  destruct (_ <=? _) eqn:Hle; [done|]. ginv. match goal with x : unit |- _ => destruct x end.
  do 3 eexists. split_and!; [eassumption|eassumption|done|eapply get_or_empty_Ok; eassumption|eassumption|lia|eassumption].
Qed.

(** ** Device links *)

(** The key a consume command is about. *)
Definition consume_key (cmd : RaftCommand) : option string :=
  match unmarshal (cmd_Value cmd) with
  | Ok p => match DeviceLinkKey (tc_User p) (tc_Hash p) with Ok k => Some k | Err _ => None end
  | Err _ => None
  end.

Lemma consume_Ok s s' cmd :
  ApplyAppPasswordTicketConsume cmd s = (s', Ok tt) ->
  exists p k prev rec v, unmarshal (cmd_Value cmd) = Ok p /\ consume_key cmd = Some k /\
    0 < tc_At p < tk_ExpiresAt rec /\ tk_UsedAt rec = 0 /\
    contents s !! k = Some prev /\ unmarshal prev = Ok rec /\
    marshal (mkTicket (tk_Label rec) (tk_Host rec) (tk_Epoch rec) (tk_CreatedAt rec) (tk_ExpiresAt rec) (tc_At p)) = Ok v /\
    contents s' = <[k := v]> (contents s).
Proof.
  unfold ApplyAppPasswordTicketConsume, PlanAppPasswordTicketConsume.
  intros Hr. apply gbind_Ok in Hr as (s1&[k v]&Hp&Hset). unfold gread in Hp. injection Hp as <- Hp.
  destruct (IsAppPasswordTicketCommand _); [|done]. cbn [negb] in Hp. ginv.
  destruct (String.eqb_spec x2 ""); [done|]. ginv. destruct (_ || _) eqn:Hu; [done|]. ginv.
  apply orb_false_iff in Hu as [Hu%negb_false_iff He].
  assert (0 < tc_At x) as Hat.
  { match goal with Hv : validate_consume _ = _ |- _ => unfold validate_consume in Hv; repeat case_match; try done end. lia. }
  do 5 eexists. split_and!; try eassumption; try lia.
  - unfold consume_key. match goal with Hx : unmarshal (cmd_Value cmd) = _ |- _ => rewrite Hx end.
    match goal with Hx : DeviceLinkKey _ _ = _ |- _ => by rewrite Hx end.
  - eapply get_or_empty_Ok; eassumption.
  - by eapply Set_Ok.
Qed.

Definition spent c (k : string) : Prop :=
  exists v rec, c !! k = Some v /\ v <> "" /\ unmarshal v = Ok rec /\ tk_UsedAt rec <> 0.

Lemma consume_contents s s' r cmd :
  ApplyAppPasswordTicketConsume cmd s = (s', r) ->
  contents s' = contents s \/ exists k v rec, r = Ok tt /\ consume_key cmd = Some k /\
    contents s' = <[k := v]> (contents s) /\ ~ spent (contents s) k /\
    v <> "" /\ unmarshal v = Ok rec /\ tk_UsedAt rec <> 0.
Proof.
  destruct r as [[]|e]; intros Hr.
  - right. destruct (consume_Ok _ _ _ Hr) as (p&k&prev&rec&v&_&Hk&Hat&Hu&Hprev&Hdec&Hv&Hc).
    eexists k, v, _. split_and!; [done|done|done| | |by apply proto_roundtrip|cbn; lia].
    + intros (v0&rec0&Hv0&_&Hd0&Hne). simplify_eq. rewrite Hdec in Hd0. by simplify_eq.
    + eapply cl_ticket_nonempty; [done|cbn; lia].
  - left. unfold ApplyAppPasswordTicketConsume in Hr. apply gbind_Err in Hr as [Hr|(s1&[k v]&Hp&Hset)].
    + unfold gread in Hr. by simplify_eq.
    + unfold gread in Hp. simplify_eq. by eapply Set_Err.
Qed.

(** The number of commands in a sequence that win the link at [k]. *)
Fixpoint wins (k : string) (cmds : list RaftCommand) s : nat :=
  match cmds with
  | [] => 0
  | cmd :: cmds' =>
      let (s', r) := ApplyAppPasswordTicketConsume cmd s in
      ((if decide (consume_key cmd = Some k /\ is_ok r = true) then 1 else 0) + wins k cmds' s')%nat
  end.

Lemma spent_step s s' r cmd k :
  ApplyAppPasswordTicketConsume cmd s = (s', r) -> spent (contents s) k ->
  spent (contents s') k /\ ~ (consume_key cmd = Some k /\ is_ok r = true).
Proof.
  intros Hr Hk. destruct (consume_contents _ _ _ _ Hr) as [->|(k'&v&rec&->&Hk'&->&Hn&Hv)].
  - split; [done|]. intros [Hck Hok]. destruct r as [[]|]; [|done].
    apply consume_Ok in Hr as (p&k1&prev&rec&v&_&Hk1&_&Hu&Hprev&Hdec&_). simplify_eq.
    destruct Hk as (v0&rec0&Hv0&_&Hd0&Hne). simplify_eq. rewrite Hdec in Hd0. by simplify_eq.
  - assert (k <> k') as Hne by (by intros ->). split; [|naive_solver].
    destruct Hk as (v0&rec0&Hv0&?). exists v0, rec0. by rewrite lookup_insert_ne by done.
Qed.

Lemma wins_spent k cmds s : spent (contents s) k -> wins k cmds s = 0%nat.
Proof.
  revert s. induction cmds as [|cmd cmds IH]; intros s Hk; [done|]. cbn [wins].
  destruct (ApplyAppPasswordTicketConsume cmd s) as [s' r] eqn:E.
  destruct (spent_step _ _ _ _ _ E Hk) as [Hk' Hn]. rewrite decide_False by done. by apply IH.
Qed.

(** A device link works once: in any sequence of consume commands, by any
    clients at any times and with any storage faults in between, at most one
    succeeds for a given link, and it succeeds only before the link's expiry. *)
Theorem device_link_consumed_once k cmds s :
  (wins k cmds s <= 1)%nat /\
  forall cmd s1 s', ApplyAppPasswordTicketConsume cmd s1 = (s', Ok tt) ->
    exists p key v rec, unmarshal (cmd_Value cmd) = Ok p /\ consume_key cmd = Some key /\
      contents s1 !! key = Some v /\ unmarshal v = Ok rec /\ tk_UsedAt rec = 0 /\ tc_At p < tk_ExpiresAt rec.
Proof.
  split.
  - revert s. induction cmds as [|cmd cmds IH]; intros s; [cbn; lia|]. cbn [wins].
    destruct (ApplyAppPasswordTicketConsume cmd s) as [s' r] eqn:E. specialize (IH s').
    case_decide as Hw; [|lia]. destruct Hw as [Hck Hok].
    destruct (consume_contents _ _ _ _ E) as [Hc|(k'&v&rec&->&Hk'&Hc&Hn&Hv&Hd&Hu)].
    + destruct r as [[]|]; [|done]. apply consume_Ok in E as (p&k1&prev&rec&v&_&Hk1&Hat&Hu&Hprev&Hdec&Hv&Hc').
      exfalso. assert (k1 = k) as -> by congruence. rewrite Hc in Hc'. assert (contents s !! k = Some v) as Hl by (rewrite Hc'; apply lookup_insert_eq).
      apply proto_roundtrip in Hv. simplify_eq. rewrite Hdec in Hv.
      apply (f_equal (fun r => match r with Ok t => tk_UsedAt t | Err _ => 0 end)) in Hv. cbn in Hv. lia.
    + assert (k' = k) as -> by congruence. rewrite (wins_spent k cmds s'); [lia|]. exists v, rec. rewrite Hc, lookup_insert_eq. done.
  - intros cmd s1 s' (p&key&prev&rec&v&?&?&[? ?]&?&?&?&_)%consume_Ok. eauto 10.
Qed.

(** A last-used touch never creates or revives a credential and never
    moves its last use backwards: either it changes nothing, or it rewrites an
    existing record with only the last-used day changed, to a later one. *)
Theorem touch_never_creates cmd s s' r :
  ApplyAppPasswordTouch cmd s = (s', r) ->
  contents s' = contents s \/
  exists p k prev rec v, unmarshal (cmd_Value cmd) = Ok p /\ k = AppPasswordKey (tt_User p) (tt_ID p) /\
    contents s !! k = Some prev /\ unmarshal prev = Ok rec /\ ap_LastUsedAt rec < tt_Day p /\
    unmarshal v = Ok (touched rec (tt_Day p)) /\ contents s' = <[k := v]> (contents s).
Proof.
  unfold ApplyAppPasswordTouch, gbind, gread. destruct (PlanAppPasswordTouch s cmd) as [[[k v]|]|e] eqn:Hp.
  - destruct r as [[]|e]; intros Hr; [right|left; by eapply Set_Err]. apply Set_Ok in Hr.
    destruct (PlanTouch_Some _ _ _ _ Hp) as (p&prev&rec&?&_&->&?&?&?&?%proto_roundtrip). eauto 12.
  - intros [= <- <-]. by left.
  - intros [= <- <-]. by left.
Qed.

(** [DayStart] is the start of the UTC day: the greatest multiple of 86400
    not above the given time, for every time whose day starts in int64 range. *)
Theorem DayStart_floor unix :
  MinInt64 + 86400 <= unix <= MaxInt64 ->
  DayStart unix = unix / 86400 * 86400.
Proof.
  intros Hr. unfold DayStart, MinInt64, MaxInt64 in *. rewrite i64_small.
  - rewrite (Z.rem_mod_nonneg (Z.rem unix 86400 + 86400)); [|pose proof (Z.rem_bound_abs unix 86400); lia|lia].
    destruct (Z.le_gt_cases 0 unix).
    + rewrite Z.rem_mod_nonneg by lia. rewrite <- Zplus_mod_idemp_r. change (86400 mod 86400) with 0.
      rewrite Z.add_0_r, Zmod_mod. pose proof (Z.div_mod unix 86400). lia.
    + assert (Z.rem unix 86400 = - ((- unix) mod 86400)) as ->.
      { rewrite <- (Z.opp_involutive unix) at 1. rewrite Z.rem_opp_l by lia. rewrite Z.rem_mod_nonneg by lia. done. }
      rewrite <- Zplus_mod_idemp_r. change (86400 mod 86400) with 0. rewrite Z.add_0_r.
      rewrite <- Z.sub_0_l, Zminus_mod_idemp_r, Z.sub_0_l, Z.opp_involutive. pose proof (Z.div_mod unix 86400). lia.
  - unfold in_i64. unfold MinInt64, MaxInt64. set (x := Z.rem unix 86400 + 86400).
    assert (0 <= Z.rem x 86400 < 86400); [|lia].
    apply Z.rem_bound_pos; [subst x; pose proof (Z.rem_bound_abs unix 86400); lia|lia].
Qed.

End CredThm.

(** * Concrete credentials *)

Definition demo_cred : CredCodecs := {|
  cc_password := tagged_codec "P"; cc_ticket := tagged_codec "T";
  cc_touch := json_codec (fun _ => True); cc_consume := json_codec (fun _ => True) |}.
Definition demo_cred_laws : @CredCodecLaws demo_cred.
Proof.
  refine (@Build_CredCodecLaws demo_cred (tagged_proto _) (tagged_proto _) (json_laws _) (json_laws _) _ _);
    by intros ?? [= <-].
Defined.

Section Demo.
#[local] Existing Instances demo_cred demo_cred_laws.

Definition demo_password : AppPassword := mkAppPassword "abcdef" "phone" 1 0 "hash".
Definition demo_creds : MemDB :=
  mem_of [(AppPasswordKey "u1" "abcdef", match marshal demo_password with Ok v => v | Err _ => "" end)].
Definition demo_touch : RaftCommand :=
  match BuildAppPasswordTouchCommand "u1" "abcdef" 100000 with Ok c => c | Err _ => mkCmd OP_PUT "" "" end.

Lemma touch_never_creates_witness :
  contents (ApplyAppPasswordTouch demo_touch demo_creds).1 = contents demo_creds \/
  exists p k prev rec v, unmarshal (cmd_Value demo_touch) = Ok p /\ k = AppPasswordKey (tt_User p) (tt_ID p) /\
    contents demo_creds !! k = Some prev /\ unmarshal prev = Ok rec /\ ap_LastUsedAt rec < tt_Day p /\
    unmarshal v = Ok (touched rec (tt_Day p)) /\
    contents (ApplyAppPasswordTouch demo_touch demo_creds).1 = <[k := v]> (contents demo_creds).
Proof.
  apply (touch_never_creates demo_touch demo_creds _ (Ok tt)). vm_compute. reflexivity.
Defined.

(** The touch above does move the day, and a second one changes nothing. *)
Example touch_moves_day :
  let s := (ApplyAppPasswordTouch demo_touch demo_creds).1 in
  aps_Get s "u1" "abcdef" = Ok (Some (touched demo_password 86400)) /\
  (ApplyAppPasswordTouch demo_touch s).1 = s.
Proof. vm_compute. split; reflexivity. Qed.

Lemma DayStart_floor_witness : DayStart (-1) = -1 / 86400 * 86400.
Proof. apply (DayStart_floor (-1)). unfold MinInt64, MaxInt64. lia. Defined.

End Demo.
