(* ===== verification/Bayes.v ===== *)
(** Bayes training: [internal/store/bayescommand.go].

    One synthetic command trains all tokens of a message inside the state
    machine.  [train_spec] is the abstract classifier state a user has, and the
    refinement theorem says that the command implements it. *)

From S2P Require Import Prelude GoStrings Pebble Proto.
From Stdlib Require Import Ascii.

(** * [encoding/binary] varints *)

(** [PutUvarint]; 10 bytes are enough for 64 bits. *)
Fixpoint put_uvarint (fuel : nat) (x : Z) : string :=
  match fuel with
  | O => ""
  | S fuel' => if x <? 128 then String (char_of x) ""
               else String (char_of (x mod 128 + 128)) (put_uvarint fuel' (x / 128))
  end.
(** [binary.Uvarint]: the number and how many bytes it took; an empty, cut or
    overlong encoding yields 0. *)
Fixpoint uvarint_from (i : nat) (shift acc : Z) (s : string) : Z :=
  match s with
  | "" => 0
  | String c s' =>
      if Nat.eqb i 10 then 0
      else if byte_of c <? 128
      then if Nat.eqb i 9 && (1 <? byte_of c) then 0 else acc + Z.shiftl (byte_of c) shift
      else uvarint_from (S i) (shift + 7) (acc + Z.shiftl (byte_of c - 128) shift) s'
  end.
Definition Uvarint (s : string) : Z := uvarint_from 0 0 0 s.

Definition encodeBayesCount (n : Z) : string := put_uvarint 10 n.

(** * Keys and payload *)

Definition bayesTrainPrefix : string := "/__bayes_train__/".
Definition MaxBayesTokens : nat := 1024.
Definition MaxBayesTokenLen : nat := 64.
Definition BayesSpam : string := "spam".
Definition BayesHam : string := "ham".

Definition BayesTokenKey (userID category token : string) : string :=
  "/user/" +:+ userID +:+ "/bayes/" +:+ category +:+ "/" +:+ token.
Definition BayesTrainedKey (userID : string) : string := "/user/" +:+ userID +:+ "/bayes/trained".
Definition BayesMessageKey (userID guid : string) : string := "/user/" +:+ userID +:+ "/bayes/msg/" +:+ guid.

Record bayesTrainPayload := mkTrain {
  bt_UserID : string; bt_GUID : string; bt_Category : string; bt_Tokens : list string }.
#[global] Instance train_eq_dec : EqDecision bayesTrainPayload.
Proof. solve_decision. Defined.
#[global] Instance train_countable : Countable bayesTrainPayload.
Proof.
  apply (inj_countable' (fun p => (bt_UserID p, bt_GUID p, bt_Category p, bt_Tokens p))
           (fun '(a, b, c, d) => mkTrain a b c d)).
  by intros [].
Defined.

Definition IsBayesSyntheticCommand (key : string) : bool := HasPrefix key bayesTrainPrefix.

(** First occurrences of the usable tokens. *)
Fixpoint dedup_tokens (seen : gset string) (toks : list string) : list string :=
  match toks with
  | [] => []
  | tok :: toks' =>
      if String.eqb tok "" || (MaxBayesTokenLen <? String.length tok)%nat then dedup_tokens seen toks'
      else if decide (tok ∈ seen) then dedup_tokens seen toks'
      else tok :: dedup_tokens ({[tok]} ∪ seen) toks'
  end.

Definition too_many (tokens : list string) : string :=
  "bayes training carries " +:+ FormatInt (Z.of_nat (length tokens)) +:+ " tokens, limit is " +:+
  FormatInt (Z.of_nat MaxBayesTokens).

Section Bayes.
Context {DB : Type} `{PebbleDB DB} `{Codec bayesTrainPayload}.
Implicit Types ps : DB.

Definition BuildBayesTrainCommand (userID guid : string) (tokens : list string) (isSpam : bool) : result RaftCommand :=
  if String.eqb userID "" then Err (Errorf "bayes training requires a user id") else
  if String.eqb guid "" then Err (Errorf "bayes training requires a message guid") else
  if (MaxBayesTokens <? length tokens)%nat
  then Err (Errorf (too_many tokens)) else
  let category := if isSpam then BayesSpam else BayesHam in
  let? payload := wrapf "marshaling bayes training payload" (marshal (mkTrain userID guid category tokens)) in
  Ok (mkCmd OP_PUT (bayesTrainPrefix +:+ userID) payload).

(** The count and the raw bytes at a key; a missing key is 0 and empty. *)
Definition read_count ps (key : string) : result (Z * string) :=
  match Get ps key with
  | Err e => if errors_is e ErrNotFound then Ok (0, "") else Err e
  | Ok data => Ok (if String.eqb data "" then (0, "") else (Uvarint data, data))
  end.

(** [uint64] counters: up by one, or down to zero at most. *)
Definition adjusted (delta n : Z) : Z := if 0 <? delta then u64 (n + 1) else if 0 <? n then n - 1 else n.

Fixpoint adjust ps (userID category : string) (delta : Z) (tokens : list string) : result (list (string * string)) :=
  match tokens with
  | [] => Ok []
  | tok :: tokens' =>
      let key := BayesTokenKey userID category tok in
      let? (n, _) := wrapf ("reading bayes token " +:+ quote tok) (read_count ps key) in
      let? rest := adjust ps userID category delta tokens' in
      Ok ((key, encodeBayesCount (adjusted delta n)) :: rest)
  end.

Definition bumpTrained ps (userID : string) : result (list (string * string)) :=
  let? (n, _) := wrapf "reading bayes trained count" (read_count ps (BayesTrainedKey userID)) in
  Ok [(BayesTrainedKey userID, encodeBayesCount (u64 (n + 1)))].

Definition PlanBayesTrain ps (cmd : RaftCommand) : result (list (string * string)) :=
  if negb (IsBayesSyntheticCommand (cmd_Key cmd)) then Err (Errorf "not a synthetic bayes command") else
  let? p := wrapf "parsing bayes training payload" (unmarshal (cmd_Value cmd)) in
  if String.eqb (bt_UserID p) "" then Err (Errorf "bayes training payload missing user id") else
  if String.eqb (bt_GUID p) "" then Err (Errorf "bayes training payload missing message guid") else
  if negb (String.eqb (bt_Category p) BayesSpam) && negb (String.eqb (bt_Category p) BayesHam)
  then Err (Errorf ("bayes training payload has invalid category " +:+ quote (bt_Category p))) else
  if (MaxBayesTokens <? length (bt_Tokens p))%nat
  then Err (Errorf (too_many (bt_Tokens p))) else
  let tokens := dedup_tokens ∅ (bt_Tokens p) in
  let markerKey := BayesMessageKey (bt_UserID p) (bt_GUID p) in
  let? (_, prev) := wrapf "reading bayes message marker" (read_count ps markerKey) in
  if String.eqb prev (bt_Category p) then Ok [] else
  let? writes :=
    if String.eqb prev "" then
      let? w1 := adjust ps (bt_UserID p) (bt_Category p) 1 tokens in
      let? w2 := bumpTrained ps (bt_UserID p) in
      Ok (w1 ++ w2)
    else
      let? w1 := if String.eqb prev BayesSpam || String.eqb prev BayesHam
                 then adjust ps (bt_UserID p) prev (-1) tokens else Ok [] in
      let? w2 := adjust ps (bt_UserID p) (bt_Category p) 1 tokens in
      Ok (w1 ++ w2)
  in
  Ok (writes ++ [(markerKey, bt_Category p)]).

Definition ApplyBayesTrainCommand (cmd : RaftCommand) : GoM DB unit :=
  let! writes := gread (fun ps => PlanBayesTrain ps cmd) in
  if decide (writes = []) then gret tt
  else commitSyncBatch (Ok ((fun w => BSet w.1 w.2) <$> writes)).

End Bayes.

(** * Varint round trip *)

Lemma uvarint_put fuel i n acc :
  (fuel + i = 10)%nat -> (0 < fuel)%nat -> 0 <= n < 2 ^ (64 - 7 * Z.of_nat i) ->
  uvarint_from i (7 * Z.of_nat i) acc (put_uvarint fuel n) = acc + n * 2 ^ (7 * Z.of_nat i).
Proof.
  revert i n acc. induction fuel as [|fuel IH]; intros i n acc Hf Hpos Hn; [lia|]. cbn [put_uvarint].
  destruct (Z.ltb_spec n 128).
  - cbn [uvarint_from]. rewrite byte_char by lia.
    replace (Nat.eqb i 10) with false by (symmetry; apply Nat.eqb_neq; lia).
    rewrite (proj2 (Z.ltb_lt n 128)) by lia.
    replace (Nat.eqb i 9 && (1 <? n)) with false; [by rewrite Z.shiftl_mul_pow2 by lia|].
    destruct (Nat.eqb_spec i 9) as [->|]; [|done]. cbn in Hn. symmetry. apply Z.ltb_ge. lia.
  - assert (i <> 9%nat) by (intros ->; cbn in Hn; lia). assert (i < 9)%nat by lia.
    pose proof (Z.mod_pos_bound n 128).
    cbn [uvarint_from]. rewrite byte_char by lia.
    replace (Nat.eqb i 10) with false by (symmetry; apply Nat.eqb_neq; lia).
    rewrite (proj2 (Z.ltb_ge _ 128)) by lia.
    replace (7 * Z.of_nat i + 7) with (7 * Z.of_nat (S i)) by lia. rewrite IH; [|lia|lia|].
    + rewrite Z.shiftl_mul_pow2 by lia. replace (n mod 128 + 128 - 128) with (n mod 128) by lia.
      replace (7 * Z.of_nat (S i)) with (7 + 7 * Z.of_nat i) by lia. rewrite Z.pow_add_r by lia.
      pose proof (Z.div_mod n 128). change (2 ^ 7) with 128. nia.
    + split; [apply Z.div_pos; lia|]. apply Z.div_lt_upper_bound; [lia|].
      replace (64 - 7 * Z.of_nat i) with (7 + (64 - 7 * Z.of_nat (S i))) in Hn by lia.
      rewrite Z.pow_add_r in Hn by lia. change (2 ^ 7) with 128 in Hn. lia.
Qed.

Lemma Uvarint_encode n : 0 <= n < 2 ^ 64 -> Uvarint (encodeBayesCount n) = n.
Proof. intros Hn. unfold Uvarint, encodeBayesCount. change 0 with (7 * Z.of_nat 0) at 1. rewrite uvarint_put; cbn; lia. Qed.

Lemma encode_nonempty n : encodeBayesCount n <> "".
Proof. unfold encodeBayesCount. cbn [put_uvarint]. by destruct (n <? 128). Qed.

Lemma uvarint_range i acc s :
  (i <= 10)%nat -> 0 <= acc < 2 ^ (7 * Z.of_nat i) ->
  0 <= uvarint_from i (7 * Z.of_nat i) acc s < 2 ^ 64.
Proof.
  revert i acc. induction s as [|c s IH]; intros i acc Hi Hacc; cbn [uvarint_from]; [lia|].
  pose proof (byte_of_range c).
  destruct (Nat.eqb_spec i 10); [lia|]. destruct (Z.ltb_spec (byte_of c) 128).
  - destruct (Nat.eqb i 9 && (1 <? byte_of c)) eqn:E; [lia|]. rewrite Z.shiftl_mul_pow2 by lia.
    destruct (decide (i = 9%nat)) as [->|].
    + cbn in E. apply Z.ltb_ge in E. change (2 ^ (7 * Z.of_nat 9)) with (2 ^ 63) in *. nia.
    + assert (2 ^ (7 * Z.of_nat i) * 128 <= 2 ^ 63).
      { change 128 with (2 ^ 7). rewrite <- Z.pow_add_r by lia. apply Z.pow_le_mono_r; lia. } nia.
  - replace (7 * Z.of_nat i + 7) with (7 * Z.of_nat (S i)) by lia. apply IH; [lia|].
    rewrite Z.shiftl_mul_pow2 by lia. replace (7 * Z.of_nat (S i)) with (7 * Z.of_nat i + 7) by lia.
    rewrite Z.pow_add_r by lia. change (2 ^ 7) with 128. nia.
Qed.

Lemma Uvarint_range s : 0 <= Uvarint s < 2 ^ 64.
Proof. unfold Uvarint. apply (uvarint_range 0 0 s); [lia|]. cbn. lia. Qed.

(** * The abstract classifier

    A user's classifier: per category and token a count, how many messages
    were trained, and the category each message was last trained as. *)

Record Classifier := mkClassifier {
  cf_count : string -> string -> Z;
  cf_trained : Z;
  cf_marker : string -> string }.

(** Training message [guid] with tokens [toks] as [cat]. *)
Definition train_spec (cf : Classifier) (guid cat : string) (toks : list string) : Classifier :=
  let prev := cf_marker cf guid in
  if decide (prev = cat) then cf else
  mkClassifier
    (fun cat' tok => if decide (tok ∈ toks) then
                       if decide (cat' = cat) then cf_count cf cat' tok + 1
                       else if decide (cat' = prev) then Z.max 0 (cf_count cf cat' tok - 1)
                       else cf_count cf cat' tok
                     else cf_count cf cat' tok)
    (if decide (prev = "") then cf_trained cf + 1 else cf_trained cf)
    (fun g => if decide (g = guid) then cat else cf_marker cf g).

(** The classifier a store holds for a user. *)
Definition count_of (c : gmap string string) (k : string) : Z :=
  match c !! k with Some v => if String.eqb v "" then 0 else Uvarint v | None => 0 end.
Definition classifier (c : gmap string string) (u : string) : Classifier :=
  mkClassifier (fun cat tok => count_of c (BayesTokenKey u cat tok))
    (count_of c (BayesTrainedKey u))
    (fun g => default "" (c !! BayesMessageKey u g)).

(** Agreement on the two categories. *)
Definition same_classifier (a b : Classifier) : Prop :=
  (forall cat tok, cat = BayesSpam \/ cat = BayesHam -> cf_count a cat tok = cf_count b cat tok) /\
  cf_trained a = cf_trained b /\ forall g, cf_marker a g = cf_marker b g.

(** ** Keys *)

Inductive bkey := KTok (cat tok : string) | KTrained | KMsg (guid : string).
#[global] Instance bkey_eq_dec : EqDecision bkey.
Proof. solve_decision. Defined.
Definition bkey_ok (k : bkey) : Prop := match k with KTok cat _ => cat = BayesSpam \/ cat = BayesHam | _ => True end.
Definition bkey_str (u : string) (k : bkey) : string :=
  match k with KTok cat tok => BayesTokenKey u cat tok | KTrained => BayesTrainedKey u | KMsg g => BayesMessageKey u g end.
Definition bkey_tail (k : bkey) : string :=
  match k with KTok cat tok => cat +:+ "/" +:+ tok | KTrained => "trained" | KMsg g => "msg/" +:+ g end.

Lemma bkey_str_tail u k : bkey_str u k = ("/user/" +:+ u +:+ "/bayes/") +:+ bkey_tail k.
Proof. destruct k; cbn [bkey_str bkey_tail]; unfold BayesTokenKey, BayesTrainedKey, BayesMessageKey; by rewrite !str_app_assoc. Qed.

Lemma bkey_inj u k k' : bkey_ok k -> bkey_ok k' -> bkey_str u k = bkey_str u k' -> k = k'.
Proof.
  rewrite !bkey_str_tail. intros Hk Hk' Heq%str_app_inv_head.
  destruct k as [cat tok| |g], k' as [cat' tok'| |g']; cbn [bkey_tail bkey_ok] in *;
    try destruct Hk as [-> | ->]; try destruct Hk' as [-> | ->]; try done;
    try (by apply (f_equal (fun s => String.get 0 s)) in Heq);
    unfold BayesSpam, BayesHam in *.
  - by apply (str_app_inv_head "spam/") in Heq as ->.
  - by apply (str_app_inv_head "ham/") in Heq as ->.
  - by apply str_app_inv_head in Heq as ->.
Qed.

Lemma dedup_tokens_spec seen toks :
  NoDup (dedup_tokens seen toks) /\ forall t, t ∈ dedup_tokens seen toks -> t ∉ seen.
Proof.
  revert seen. induction toks as [|tok toks IH]; intros seen; cbn; [split; [constructor|set_solver]|].
  destruct (_ || _); [apply IH|]. case_decide; [apply IH|].
  destruct (IH ({[tok]} ∪ seen)) as [Hn Hs]. split.
  - constructor; [|done]. intros Hin. apply Hs in Hin. set_solver.
  - intros t [->|Hin]%elem_of_cons; [done|]. apply Hs in Hin. set_solver.
Qed.

(** ** Batches of writes to distinct keys *)

Lemma sets_out (ws : list (string * string)) c k :
  k ∉ ws.*1 -> apply_batch ((fun w => BSet w.1 w.2) <$> ws) c !! k = c !! k.
Proof.
  revert c. induction ws as [|[k0 v0] ws IH]; intros c Hk; [done|].
  rewrite !fmap_cons in *. apply not_elem_of_cons in Hk as [Hne Hk]. rewrite apply_batch_cons, IH by done.
  by apply lookup_insert_ne, not_eq_sym.
Qed.

Lemma sets_in (ws : list (string * string)) c k v :
  NoDup ws.*1 -> (k, v) ∈ ws -> apply_batch ((fun w => BSet w.1 w.2) <$> ws) c !! k = Some v.
Proof.
  revert c. induction ws as [|[k0 v0] ws IH]; intros c Hnd Hin; [by apply not_elem_of_nil in Hin|].
  rewrite !fmap_cons in *. apply NoDup_cons in Hnd as [Hn Hnd]. rewrite apply_batch_cons.
  apply elem_of_cons in Hin as [[= <- <-]|Hin]; [|by apply IH].
  rewrite sets_out by done. apply lookup_insert_eq.
Qed.

Section Refine.
Context {DB : Type} `{PebbleLaws DB} `{JsonLaws bayesTrainPayload}.
Implicit Types (s : DB) (c : gmap string string).

Lemma read_count_healthy s k :
  healthy s -> read_count s k = Ok (count_of (contents s) k, default "" (contents s !! k)).
Proof.
  intros Hs. unfold read_count, count_of. rewrite Get_healthy by done. destruct (contents s !! k) as [v|]; [|done].
  cbn. by destruct (String.eqb_spec v "") as [->|].
Qed.

Lemma adjust_healthy s u cat d toks :
  healthy s -> adjust s u cat d toks =
    Ok ((fun tok => (BayesTokenKey u cat tok,
          encodeBayesCount (adjusted d (count_of (contents s) (BayesTokenKey u cat tok))))) <$> toks).
Proof.
  intros Hs. induction toks as [|tok toks IH]; [done|]. cbn [adjust]. rewrite read_count_healthy by done.
  cbn. rewrite IH. done.
Qed.

(** The writes as a list of abstract keys with values. *)
Definition write_str u (w : bkey * string) : string * string := (bkey_str u w.1, w.2).

Definition token_writes c u cat d toks : list (bkey * string) :=
  (fun tok => (KTok cat tok, encodeBayesCount (adjusted d (count_of c (BayesTokenKey u cat tok))))) <$> toks.

Definition plan_writes c u guid cat toks : list (bkey * string) :=
  let prev := default "" (c !! BayesMessageKey u guid) in
  (if decide (prev = "") then token_writes c u cat 1 toks ++ [(KTrained, encodeBayesCount (u64 (count_of c (BayesTrainedKey u) + 1)))]
   else (if decide (prev = BayesSpam \/ prev = BayesHam) then token_writes c u prev (-1) toks else []) ++ token_writes c u cat 1 toks)
  ++ [(KMsg guid, cat)].

Lemma elem_of_token_writes c u cat d toks k v :
  (k, v) ∈ token_writes c u cat d toks <->
  exists tok, tok ∈ toks /\ k = KTok cat tok /\ v = encodeBayesCount (adjusted d (count_of c (BayesTokenKey u cat tok))).
Proof. unfold token_writes. rewrite list_elem_of_fmap. naive_solver. Qed.

Lemma token_writes_keys c u cat d toks : (token_writes c u cat d toks).*1 = KTok cat <$> toks.
Proof. unfold token_writes. by rewrite <- list_fmap_compose. Qed.

Definition category (cat : string) : Prop := cat = BayesSpam \/ cat = BayesHam.
#[local] Instance category_dec cat : Decision (category cat).
Proof. unfold category. apply _. Defined.

Lemma plan_keys c u guid cat toks :
  category cat -> NoDup toks -> default "" (c !! BayesMessageKey u guid) <> cat ->
  NoDup (plan_writes c u guid cat toks).*1 /\ Forall bkey_ok (plan_writes c u guid cat toks).*1.
Proof.
  intros Hcat Hnd Hne. unfold plan_writes. set (prev := default "" _) in *.
  assert (forall cat', NoDup (KTok cat' <$> toks)) as Hk by (intros; by apply NoDup_fmap_2; [intros ?? [=]|]).
  assert (forall cat', category cat' -> Forall bkey_ok (KTok cat' <$> toks)) as Hok
    by (intros; by apply Forall_fmap, Forall_true).
  case_decide as Hp; [|case_decide as Hc]; rewrite ?fmap_app, ?token_writes_keys; cbn [fmap list_fmap fst app].
  - rewrite <- app_assoc. split; [|rewrite !Forall_app; repeat constructor; auto].
    apply NoDup_app. split_and!; [done| |repeat constructor; set_solver].
    intros k (tok&->&_)%list_elem_of_fmap. set_solver.
  - split; [|rewrite !Forall_app; repeat constructor; auto].
    apply NoDup_app. split_and!; [|intros k Hin; rewrite elem_of_app, !list_elem_of_fmap in Hin; set_solver|repeat constructor; set_solver].
    apply NoDup_app. split_and!; [done| |done].
    intros k (tok&->&_)%list_elem_of_fmap (tok'&?&_)%list_elem_of_fmap. congruence.
  - split; [|rewrite !Forall_app; repeat constructor; auto].
    apply NoDup_app. split_and!; [done| |repeat constructor; set_solver].
    intros k (tok&->&_)%list_elem_of_fmap. set_solver.
Qed.

(** What a planned batch leaves at each of the user's keys. *)
Lemma plan_lookup c u guid cat toks k :
  category cat -> NoDup toks -> default "" (c !! BayesMessageKey u guid) <> cat -> bkey_ok k ->
  let ws := plan_writes c u guid cat toks in
  let c' := apply_batch ((fun w => BSet w.1 w.2) <$> (write_str u <$> ws)) c in
  (forall v, (k, v) ∈ ws -> c' !! bkey_str u k = Some v) /\
  (k ∉ ws.*1 -> c' !! bkey_str u k = c !! bkey_str u k).
Proof.
  intros Hcat Hnd Hne Hk ws c'. destruct (plan_keys c u guid cat toks) as [Hn Ho]; [done..|]. fold ws in Hn, Ho.
  assert ((write_str u <$> ws).*1 = bkey_str u <$> ws.*1) as Heq by (by rewrite <- !list_fmap_compose).
  split.
  - intros v Hin. apply sets_in; [rewrite Heq|by apply (list_elem_of_fmap_2 (write_str u)) in Hin].
    apply NoDup_fmap_2_strong; [|done]. rewrite Forall_forall in Ho. intros a b Ha Hb. apply bkey_inj; auto.
  - intros Hout. apply sets_out. rewrite Heq. intros (k'&Hk'&Hin)%list_elem_of_fmap.
    rewrite Forall_forall in Ho. apply bkey_inj in Hk' as ->; auto.
Qed.

Lemma plan_healthy s cmd p :
  healthy s -> IsBayesSyntheticCommand (cmd_Key cmd) = true -> unmarshal (cmd_Value cmd) = Ok p ->
  bt_UserID p <> "" -> bt_GUID p <> "" -> category (bt_Category p) -> (length (bt_Tokens p) <= MaxBayesTokens)%nat ->
  PlanBayesTrain s cmd =
    Ok (if decide (default "" (contents s !! BayesMessageKey (bt_UserID p) (bt_GUID p)) = bt_Category p) then []
        else write_str (bt_UserID p) <$>
             plan_writes (contents s) (bt_UserID p) (bt_GUID p) (bt_Category p) (dedup_tokens ∅ (bt_Tokens p))).
Proof.
  intros Hs Hk Hp Hu Hg Hc Hl. unfold PlanBayesTrain. rewrite Hk, Hp. cbn [negb wrapf result_bind].
  destruct (String.eqb_spec (bt_UserID p) ""); [done|]. destruct (String.eqb_spec (bt_GUID p) ""); [done|].
  replace (negb _ && negb _) with false by (destruct Hc as [-> | ->]; done).
  rewrite (proj2 (Nat.ltb_ge _ _)) by done. rewrite read_count_healthy by done. cbn [wrapf result_bind].
  unfold plan_writes. set (prev := default "" _).
  destruct (String.eqb_spec prev (bt_Category p)); [by rewrite decide_True|]. rewrite decide_False by done.
  unfold bumpTrained. rewrite !adjust_healthy, read_count_healthy by done. cbn [wrapf result_bind].
  destruct (String.eqb_spec prev "") as [->|].
  - rewrite decide_True by done. cbn [result_bind]. f_equal.
    rewrite !fmap_app. unfold token_writes. by rewrite <- list_fmap_compose.
  - rewrite decide_False by done.
    replace (String.eqb prev BayesSpam || String.eqb prev BayesHam) with (bool_decide (prev = BayesSpam \/ prev = BayesHam)).
    2: { destruct (String.eqb_spec prev BayesSpam), (String.eqb_spec prev BayesHam); cbn;
         (by rewrite bool_decide_eq_true_2 by auto) || (rewrite bool_decide_eq_false_2 by naive_solver; done). }
    case_decide; [rewrite bool_decide_eq_true_2 by done|rewrite bool_decide_eq_false_2 by done];
      cbn [result_bind]; f_equal; rewrite !fmap_app; unfold token_writes; rewrite <- !list_fmap_compose; done.
Qed.

(** Counters stay below 2^64. *)
Definition count_room c u cat (toks : list string) : Prop :=
  count_of c (BayesTrainedKey u) + 1 < 2 ^ 64 /\
  forall tok, tok ∈ toks -> count_of c (BayesTokenKey u cat tok) + 1 < 2 ^ 64.

Lemma count_of_range c k : 0 <= count_of c k < 2 ^ 64.
Proof. unfold count_of. repeat case_match; try lia. apply Uvarint_range. Qed.

Lemma count_of_encoded c k n : c !! k = Some (encodeBayesCount n) -> 0 <= n < 2 ^ 64 -> count_of c k = n.
Proof.
  intros Hk Hn. unfold count_of. rewrite Hk. destruct (String.eqb_spec (encodeBayesCount n) "") as [He|];
    [by apply encode_nonempty in He|by apply Uvarint_encode].
Qed.

Lemma adjusted_up n : 0 <= n -> n + 1 < 2 ^ 64 -> adjusted 1 n = n + 1.
Proof. intros. unfold adjusted. cbn. apply Z.mod_small. lia. Qed.
Lemma adjusted_down n : 0 <= n -> adjusted (-1) n = Z.max 0 (n - 1).
Proof. intros. unfold adjusted. cbn. destruct (Z.ltb_spec 0 n); lia. Qed.

Lemma plan_elem c u guid cat toks k v :
  let prev := default "" (c !! BayesMessageKey u guid) in
  (k, v) ∈ plan_writes c u guid cat toks <->
  match k with
  | KTok cat' tok => tok ∈ toks /\
      (cat' = cat /\ v = encodeBayesCount (adjusted 1 (count_of c (BayesTokenKey u cat tok))) \/
       prev <> "" /\ category prev /\ cat' = prev /\
       v = encodeBayesCount (adjusted (-1) (count_of c (BayesTokenKey u prev tok))))
  | KTrained => prev = "" /\ v = encodeBayesCount (u64 (count_of c (BayesTrainedKey u) + 1))
  | KMsg g => g = guid /\ v = cat
  end.
Proof.
  unfold plan_writes. cbn zeta. set (prev := default "" _).
  case_decide; [|case_decide]; rewrite !elem_of_app, ?elem_of_token_writes, ?elem_of_cons, ?elem_of_nil;
    destruct k; unfold category; naive_solver.
Qed.

Lemma not_planned c u guid cat toks k :
  (forall v, (k, v) ∉ plan_writes c u guid cat toks) -> k ∉ (plan_writes c u guid cat toks).*1.
Proof. intros Hn ([k' v]&->&Hin)%list_elem_of_fmap. by eapply Hn. Qed.

Lemma plan_refines c u guid cat toks :
  category cat -> NoDup toks -> default "" (c !! BayesMessageKey u guid) <> cat -> count_room c u cat toks ->
  let c' := apply_batch ((fun w => BSet w.1 w.2) <$> (write_str u <$> plan_writes c u guid cat toks)) c in
  same_classifier (classifier c' u) (train_spec (classifier c u) guid cat toks).
Proof.
  intros Hcat Hnd Hne [Hrt Hrc] c'. unfold train_spec. cbn [cf_marker classifier cf_count cf_trained].
  rewrite decide_False by done.
  assert (forall k v, bkey_ok k -> (k, v) ∈ plan_writes c u guid cat toks -> c' !! bkey_str u k = Some v) as Lin
    by (intros; by apply plan_lookup).
  assert (forall k, bkey_ok k -> (forall v, (k, v) ∉ plan_writes c u guid cat toks) -> c' !! bkey_str u k = c !! bkey_str u k) as Lout
    by (intros; by apply plan_lookup, not_planned).
  setoid_rewrite plan_elem in Lin. setoid_rewrite plan_elem in Lout. set (prev := default "" _) in *.
  split_and!; cbn [cf_marker cf_count cf_trained].
  - intros cat' tok Hcat'. pose proof (count_of_range c (BayesTokenKey u cat' tok)) as Hr.
    assert ((forall v, ~ (tok ∈ toks /\ (cat' = cat /\ v = encodeBayesCount (adjusted 1 (count_of c (BayesTokenKey u cat tok))) \/
       prev <> "" /\ category prev /\ cat' = prev /\
       v = encodeBayesCount (adjusted (-1) (count_of c (BayesTokenKey u prev tok)))))) ->
      count_of c' (BayesTokenKey u cat' tok) = count_of c (BayesTokenKey u cat' tok)) as Hout.
    { intros Hn. unfold count_of. pose proof (Lout (KTok cat' tok) Hcat' Hn) as E. cbn [bkey_str] in E. by rewrite E. }
    case_decide as Ht; [|apply Hout; naive_solver].
    case_decide as Hc1; [subst cat'|case_decide as Hc2; [|apply Hout; naive_solver]].
    + pose proof (Hrc tok Ht). rewrite <- adjusted_up by lia. apply count_of_encoded; [|rewrite adjusted_up; lia].
      apply (Lin (KTok cat tok)); naive_solver.
    + subst cat'. rewrite <- adjusted_down by lia. apply count_of_encoded; [|rewrite adjusted_down; lia].
      apply (Lin (KTok prev tok) _ Hcat'). split; [done|]. right. split_and!; try done.
      intros E. unfold BayesSpam, BayesHam in Hcat'. rewrite E in Hcat'. naive_solver.
  - pose proof (count_of_range c (BayesTrainedKey u)). case_decide as Hp.
    + apply count_of_encoded; [|lia]. pose proof (Lin KTrained _ I (conj Hp eq_refl)) as E. cbn [bkey_str] in E.
      rewrite E. do 2 f_equal. apply Z.mod_small. lia.
    + pose proof (Lout KTrained I) as E. cbn [bkey_str] in E.
      change (count_of c' (BayesTrainedKey u) = count_of c (BayesTrainedKey u)). unfold count_of. rewrite E; naive_solver.
  - intros g. case_decide as Hg.
    + subst g. change (default "" (c' !! BayesMessageKey u guid) = cat). pose proof (Lin (KMsg guid) cat I (conj eq_refl eq_refl)) as E. cbn [bkey_str] in E. by rewrite E.
    + pose proof (Lout (KMsg g) I) as E. cbn [bkey_str] in E.
      change (default "" (c' !! BayesMessageKey u g) = default "" (c !! BayesMessageKey u g)). rewrite E; naive_solver.
Qed.

Definition train_command (p : bayesTrainPayload) (v : string) : RaftCommand :=
  mkCmd OP_PUT (bayesTrainPrefix +:+ bt_UserID p) v.
Definition valid_training (p : bayesTrainPayload) : Prop :=
  bt_UserID p <> "" /\ bt_GUID p <> "" /\ category (bt_Category p) /\ (length (bt_Tokens p) <= MaxBayesTokens)%nat.

Lemma train_refines s p v :
  healthy s -> unmarshal v = Ok p -> valid_training p ->
  count_room (contents s) (bt_UserID p) (bt_Category p) (dedup_tokens ∅ (bt_Tokens p)) ->
  exists s', ApplyBayesTrainCommand (train_command p v) s = (s', Ok tt) /\ healthy s' /\
    same_classifier (classifier (contents s') (bt_UserID p))
      (train_spec (classifier (contents s) (bt_UserID p)) (bt_GUID p) (bt_Category p) (dedup_tokens ∅ (bt_Tokens p))) /\
    (forall k, (forall b, bkey_ok b -> k <> bkey_str (bt_UserID p) b) -> contents s' !! k = contents s !! k).
Proof.
  intros Hs Hv (Hu&Hg&Hc&Hl) Hroom. unfold ApplyBayesTrainCommand, gbind, gread.
  assert (IsBayesSyntheticCommand (cmd_Key (train_command p v)) = true) as Hk by apply prefix_app.
  rewrite (plan_healthy s (train_command p v) p Hs Hk Hv Hu Hg Hc Hl).
  destruct (dedup_tokens_spec ∅ (bt_Tokens p)) as [Hnd _].
  destruct (decide (default "" (contents s !! BayesMessageKey (bt_UserID p) (bt_GUID p)) = bt_Category p)) as [Hm|Hm].
  - exists s. split_and!; [done|done| |done].
    unfold train_spec. cbn [cf_marker classifier]. rewrite decide_True by done. by repeat split.
  - destruct (plan_keys (contents s) (bt_UserID p) (bt_GUID p) (bt_Category p) _ Hc Hnd Hm) as [_ Hok].
    match goal with |- context [decide (?w = [])] => destruct (decide (w = [])) as [He|_] end.
    { unfold plan_writes in He. rewrite fmap_app in He. by apply app_eq_nil in He as [_ ?]. }
    match goal with |- context [commitSyncBatch (Ok ?b)] => destruct (commitSyncBatch_healthy s b Hs) as (s'&Hrun&Hs'&Hcon) end.
    exists s'. split_and!; [done|done|rewrite Hcon; by apply plan_refines|].
    intros k Hk'. rewrite Hcon. apply sets_out. rewrite <- list_fmap_compose.
    intros (w&->&Hin)%list_elem_of_fmap. rewrite Forall_forall in Hok.
    eapply Hk'; [|done]. apply Hok. by apply list_elem_of_fmap_2.
Qed.

(** C19: one training command implements the abstract classifier: fresh
    messages count up every distinct token once and the trained total, a
    repeated training changes nothing, a reclassification moves the counts
    over; nothing but that user's classifier keys is written. *)
Theorem bayes_train_refines_spec s p v :
  healthy s -> unmarshal v = Ok p -> valid_training p ->
  count_room (contents s) (bt_UserID p) (bt_Category p) (dedup_tokens ∅ (bt_Tokens p)) ->
  exists s', ApplyBayesTrainCommand (train_command p v) s = (s', Ok tt) /\ healthy s' /\
    same_classifier (classifier (contents s') (bt_UserID p))
      (train_spec (classifier (contents s) (bt_UserID p)) (bt_GUID p) (bt_Category p) (dedup_tokens ∅ (bt_Tokens p))) /\
    (forall k, (forall b, bkey_ok b -> k <> bkey_str (bt_UserID p) b) -> contents s' !! k = contents s !! k).
Proof. apply train_refines. Qed.

(** Training a new message as spam and then as ham leaves the spam counts
    as they were before, every distinct token counted once as ham, and the
    message counted once. *)
Theorem reclassification_undoes s u guid toks v1 v2 :
  let p1 := mkTrain u guid BayesSpam toks in let p2 := mkTrain u guid BayesHam toks in
  healthy s -> unmarshal v1 = Ok p1 -> unmarshal v2 = Ok p2 -> valid_training p1 ->
  count_room (contents s) u BayesSpam (dedup_tokens ∅ toks) ->
  count_room (contents s) u BayesHam (dedup_tokens ∅ toks) ->
  count_of (contents s) (BayesTrainedKey u) + 2 < 2 ^ 64 ->
  cf_marker (classifier (contents s) u) guid = "" ->
  exists s1 s2, ApplyBayesTrainCommand (train_command p1 v1) s = (s1, Ok tt) /\
    ApplyBayesTrainCommand (train_command p2 v2) s1 = (s2, Ok tt) /\
    let a := classifier (contents s) u in let b := classifier (contents s2) u in
    (forall tok, cf_count b BayesSpam tok = cf_count a BayesSpam tok) /\
    (forall tok, cf_count b BayesHam tok = cf_count a BayesHam tok + (if decide (tok ∈ dedup_tokens ∅ toks) then 1 else 0)) /\
    cf_trained b = cf_trained a + 1 /\ cf_marker b guid = BayesHam.
Proof.
  intros p1 p2 Hs Hv1 Hv2 (Hu&Hg&_&Hl) Hr1 Hr2 Htr Hm.
  destruct (train_refines s p1 v1) as (s1&Hrun1&Hs1&(Hc1&Ht1&Hm1)&_); [done..|by repeat split; [| |left|]|done|].
  cbn [bt_UserID bt_GUID bt_Category bt_Tokens p1] in Hc1, Ht1, Hm1.
  unfold train_spec in Hc1, Ht1, Hm1. rewrite Hm in Hc1, Ht1, Hm1.
  rewrite decide_False in Hc1, Ht1, Hm1 by done. cbn [cf_count cf_trained cf_marker] in Hc1, Ht1, Hm1.
  destruct (train_refines s1 p2 v2) as (s2&Hrun2&_&(Hc2&Ht2&Hm2)&_); [done..|by repeat split; [| |right|]| |].
  { destruct Hr2 as [_ Hr2]. split.
    - cbn [bt_UserID p2]. change (count_of (contents s1) (BayesTrainedKey u)) with (cf_trained (classifier (contents s1) u)).
      rewrite Ht1, decide_True by done. cbn. lia.
    - intros tok Htok. change (cf_count (classifier (contents s1) u) BayesHam tok + 1 < 2 ^ 64).
      rewrite Hc1 by (by right). cbn. repeat case_decide; auto; done. }
  cbn [bt_UserID bt_GUID bt_Category bt_Tokens p2] in Hc2, Ht2, Hm2.
  unfold train_spec in Hc2, Ht2, Hm2. rewrite Hm1 in Hc2, Ht2, Hm2.
  rewrite (decide_True (P := guid = guid)) in Hc2, Ht2, Hm2 by done.
  rewrite decide_False in Hc2, Ht2, Hm2 by done. cbn [cf_count cf_trained cf_marker] in Hc2, Ht2, Hm2.
  exists s1, s2. cbn zeta. split_and!; [done|done| | | |].
  - intros tok. rewrite Hc2 by (by left). rewrite Hc1 by (by left).
    pose proof (count_of_range (contents s) (BayesTokenKey u BayesSpam tok)). cbn [classifier cf_count].
    repeat case_decide; try done. lia.
  - intros tok. rewrite Hc2 by (by right). rewrite Hc1 by (by right). repeat case_decide; try done; lia.
  - rewrite Ht2, decide_False, Ht1, decide_True by done. done.
  - rewrite Hm2. by rewrite decide_True by done.
Qed.

End Refine.

(** * Concrete trainings *)

Section Demo.
#[local] Instance demo_train_codec : Codec bayesTrainPayload := json_codec (fun _ => True).
#[local] Instance demo_train_laws : JsonLaws bayesTrainPayload := json_laws _.

Definition demo_train (cat : string) : bayesTrainPayload := mkTrain "u1" "g1" cat ["buy"; "now"; "buy"].
Definition demo_train_bytes (cat : string) : string := match marshal (demo_train cat) with Ok v => v | Err _ => "" end.

Lemma room_empty u cat toks : count_room ∅ u cat toks.
Proof. split; [|intros tok _]; unfold count_of; rewrite lookup_empty; reflexivity. Qed.
Lemma mem_empty_healthy : healthy (mem_of []).
Proof. by split_and!. Qed.
Lemma demo_train_valid cat : cat = BayesSpam \/ cat = BayesHam -> valid_training (demo_train cat).
Proof. intros Hc. split_and!; [discriminate|discriminate|exact Hc|cbn; unfold MaxBayesTokens; lia]. Qed.

Lemma bayes_train_refines_spec_witness :
  exists s', ApplyBayesTrainCommand (train_command (demo_train BayesSpam) (demo_train_bytes BayesSpam)) (mem_of []) = (s', Ok tt) /\
    cf_count (classifier (contents s') "u1") BayesSpam "buy" = 1.
Proof.
  destruct (bayes_train_refines_spec (mem_of []) (demo_train BayesSpam) (demo_train_bytes BayesSpam))
    as (s'&Hrun&_&(Hc&_)&_).
  - exact mem_empty_healthy.
  - vm_compute. reflexivity.
  - apply demo_train_valid. left. reflexivity.
  - apply room_empty.
  - exists s'. split; [exact Hrun|]. exact (eq_trans (Hc BayesSpam "buy" (or_introl eq_refl)) ltac:(vm_compute; reflexivity)).
Defined.

Lemma reclassification_undoes_witness :
  exists s1 s2, ApplyBayesTrainCommand (train_command (demo_train BayesSpam) (demo_train_bytes BayesSpam)) (mem_of []) = (s1, Ok tt) /\
    ApplyBayesTrainCommand (train_command (demo_train BayesHam) (demo_train_bytes BayesHam)) s1 = (s2, Ok tt) /\
    forall tok, cf_count (classifier (contents s2) "u1") BayesSpam tok = cf_count (classifier (contents (mem_of [])) "u1") BayesSpam tok.
Proof.
  destruct (reclassification_undoes (mem_of []) "u1" "g1" ["buy"; "now"; "buy"]
    (demo_train_bytes BayesSpam) (demo_train_bytes BayesHam)) as (s1&s2&H1&H2&Hc&_).
  - exact mem_empty_healthy.
  - vm_compute. reflexivity.
  - vm_compute. reflexivity.
  - apply (demo_train_valid BayesSpam). left. reflexivity.
  - apply room_empty.
  - apply room_empty.
  - vm_compute. reflexivity.
  - vm_compute. reflexivity.
  - exists s1, s2. exact (conj H1 (conj H2 Hc)).
Defined.

End Demo.
