(* ===== verification/Acl.v ===== *)
(** Calendar grants: [internal/store/aclcommand.go] and [aclread.go].

    A grant is a record at its forward key and an empty marker at its reverse
    key.  Grant commands change both in one batch. *)

From S2P Require Import Prelude GoStrings Pebble Proto UserData.
From Stdlib Require Import Ascii.

(** * [net/url] path segments *)

Definition alnum (b : Z) : bool :=
  ((48 <=? b) && (b <=? 57)) || ((65 <=? b) && (b <=? 90)) || ((97 <=? b) && (b <=? 122)).
(** [shouldEscape(c, encodePathSegment)]: everything but letters, digits,
    [-_.~] and [$&+:=@]. *)
Definition shouldEscape (c : ascii) : bool :=
  let b := byte_of c in
  negb (alnum b || existsb (Z.eqb b) [45; 95; 46; 126; 36; 38; 43; 58; 61; 64]).

Definition upperhex (d : Z) : ascii := char_of (if d <? 10 then 48 + d else 55 + d).
Definition unhex (c : ascii) : option Z :=
  let b := byte_of c in
  if (48 <=? b) && (b <=? 57) then Some (b - 48)
  else if (65 <=? b) && (b <=? 70) then Some (b - 55)
  else if (97 <=? b) && (b <=? 102) then Some (b - 87)
  else None.

Fixpoint PathEscape (s : string) : string :=
  match s with
  | "" => ""
  | String c s' =>
      if shouldEscape c
      then String "%" (String (upperhex (byte_of c / 16)) (String (upperhex (byte_of c mod 16)) (PathEscape s')))
      else String c (PathEscape s')
  end.
(** [None]: an invalid [%] escape. *)
Fixpoint PathUnescape (s : string) : option string :=
  match s with
  | "" => Some ""
  | String c s' =>
      if Ascii.eqb c "%" then
        match s' with
        | String h (String l s'') =>
            match unhex h, unhex l, PathUnescape s'' with
            | Some a, Some b, Some r => Some (String (char_of (16 * a + b)) r)
            | _, _, _ => None
            end
        | _ => None
        end
      else match PathUnescape s' with Some r => Some (String c r) | None => None end
  end.

(** * Grants, keys and payloads *)

Record Grant := mkGrant {
  gr_Level : string; gr_Rights : string; gr_State : string; gr_GrantedBy : string;
  gr_CreatedAt : Z; gr_UpdatedAt : Z }.
#[global] Instance Grant_eq_dec : EqDecision Grant.
Proof. solve_decision. Defined.
#[global] Instance Grant_countable : Countable Grant.
Proof.
  apply (inj_countable' (fun g => (gr_Level g, gr_Rights g, gr_State g, gr_GrantedBy g, gr_CreatedAt g, gr_UpdatedAt g))
           (fun '(a, b, c, d, e, f) => mkGrant a b c d e f)).
  by intros [].
Defined.

Definition aclPrefix : string := "/__acl__/".
Definition ACLKindCalendar : string := "calendar".
Definition GrantLevelFreeBusy : string := "freebusy".
Definition GrantLevelRead : string := "read".
Definition GrantLevelWrite : string := "write".
Definition GrantStatePending : string := "pending".
Definition GrantStateAccepted : string := "accepted".
Definition PendingGrantTTL : Z := 30 * 24 * 60 * 60.

(** The age is an int64 difference. *)
Definition PendingGrantExpired (g : Grant) (at_ : Z) : bool :=
  if negb (String.eqb (gr_State g) GrantStatePending) then false else
  let base := if gr_UpdatedAt g =? 0 then gr_CreatedAt g else gr_UpdatedAt g in
  PendingGrantTTL <? i64 (at_ - base).

Definition ACLOpSet : string := "set".
Definition ACLOpAccept : string := "accept".
Definition ACLOpRevoke : string := "revoke".
Definition ACLOpRevokeResource : string := "revoke_resource".
Definition ACLOpRevokeOwner : string := "revoke_owner".
Definition ACLOpRevokeGrantee : string := "revoke_grantee".

Definition aclKinds : list string := [ACLKindCalendar].
Definition calendarLevelRank (level : string) : option Z :=
  if String.eqb level GrantLevelFreeBusy then Some 1
  else if String.eqb level GrantLevelRead then Some 2
  else if String.eqb level GrantLevelWrite then Some 3
  else None.
Definition ValidCalendarLevel (level : string) : bool := bool_decide (is_Some (calendarLevelRank level)).
Definition validACLKind (kind : string) : bool := existsb (fun k => String.eqb k kind) aclKinds.

Definition escSeg (s : string) : string := PathEscape s.
Definition ACLKey (kind owner resource grantee : string) : string :=
  "/acl/" +:+ kind +:+ "/" +:+ escSeg owner +:+ "/" +:+ escSeg resource +:+ "/u:" +:+ escSeg grantee.
Definition ACLRevKey (kind owner resource grantee : string) : string :=
  "/aclrev/u:" +:+ escSeg grantee +:+ "/" +:+ kind +:+ "/" +:+ escSeg owner +:+ "/" +:+ escSeg resource.
Definition aclResourcePrefix (kind owner resource : string) : string :=
  "/acl/" +:+ kind +:+ "/" +:+ escSeg owner +:+ "/" +:+ escSeg resource +:+ "/".
Definition aclOwnerPrefix (kind owner : string) : string := "/acl/" +:+ kind +:+ "/" +:+ escSeg owner +:+ "/".
Definition aclGranteePrefix (grantee : string) : string := "/aclrev/u:" +:+ escSeg grantee +:+ "/".
Definition aclGranteeKindOwnerPrefix (kind owner grantee : string) : string :=
  "/aclrev/u:" +:+ escSeg grantee +:+ "/" +:+ kind +:+ "/" +:+ escSeg owner +:+ "/".
Definition calendarKey (userID guid : string) : string := "/user/" +:+ userID +:+ "/calendar/" +:+ guid.

Record aclPayload := mkAcl {
  pl_Op : string; pl_Kind : string; pl_Owner : string; pl_Resource : string; pl_Grantee : string;
  pl_Level : string; pl_Rights : string; pl_State : string; pl_GrantedBy : string; pl_At : Z; pl_KeepState : bool }.
#[global] Instance aclPayload_eq_dec : EqDecision aclPayload.
Proof. solve_decision. Defined.
#[global] Instance aclPayload_countable : Countable aclPayload.
Proof.
  apply (inj_countable' (fun p => ((pl_Op p, pl_Kind p, pl_Owner p), (pl_Resource p, pl_Grantee p, pl_Level p),
            (pl_Rights p, pl_State p, pl_GrantedBy p), (pl_At p, pl_KeepState p)))
           (fun '((a, b, c), (d, e, f), (g, h, i), (j, k)) => mkAcl a b c d e f g h i j k)).
  by intros [].
Defined.

Record ACLRequest := mkRequest {
  rq_Op : string; rq_Kind : string; rq_Owner : string; rq_Resource : string; rq_Grantee : string;
  rq_Level : string; rq_State : string; rq_GrantedBy : string; rq_At : Z; rq_KeepState : bool }.

(** [errors.Join] of the non-nil errors: one text per line. *)
Definition newline : string := String (char_of 10) "".
Fixpoint Join_errors (l : list err) : option err :=
  match l with
  | [] => None
  | e :: l' => Some (match Join_errors l' with
                     | None => e
                     | Some e' => Errorf (err_text e +:+ newline +:+ err_text e')
                     end)
  end.

(** The missing mandatory fields of an operation. *)
Definition missing (p : aclPayload) (fields : list (string * string)) : result unit :=
  match Join_errors ((fun f => Errorf ("acl " +:+ pl_Op p +:+ " command missing " +:+ f.1))
                     <$> filter (fun f => f.2 = "") fields) with
  | None => Ok tt
  | Some e => Err e
  end.

Definition validateACLPayload (p : aclPayload) : result unit :=
  if negb (validACLKind (pl_Kind p)) then Err (Errorf ("acl command has invalid kind " +:+ quote (pl_Kind p))) else
  let owner := ("owner", pl_Owner p) in let resource := ("resource", pl_Resource p) in
  let grantee := ("grantee", pl_Grantee p) in
  if String.eqb (pl_Op p) ACLOpSet then
    if negb (ValidCalendarLevel (pl_Level p))
    then Err (Errorf ("acl set command has invalid level " +:+ quote (pl_Level p))) else
    if negb (String.eqb (pl_State p) GrantStatePending) && negb (String.eqb (pl_State p) GrantStateAccepted)
    then Err (Errorf ("acl set command has invalid state " +:+ quote (pl_State p))) else
    missing p [owner; resource; grantee]
  else if String.eqb (pl_Op p) ACLOpAccept || String.eqb (pl_Op p) ACLOpRevoke then missing p [owner; resource; grantee]
  else if String.eqb (pl_Op p) ACLOpRevokeResource then missing p [owner; resource]
  else if String.eqb (pl_Op p) ACLOpRevokeOwner then missing p [owner]
  else if String.eqb (pl_Op p) ACLOpRevokeGrantee then missing p [grantee]
  else Err (Errorf ("acl command has invalid op " +:+ quote (pl_Op p))).

Definition IsACLSyntheticCommand (key : string) : bool := HasPrefix key aclPrefix.

Record GrantRef := mkGrantRef { gref_Kind : string; gref_Owner : string; gref_Resource : string; gref_Grantee : string }.
#[global] Instance GrantRef_eq_dec : EqDecision GrantRef.
Proof. solve_decision. Defined.
Definition forwardKey (r : GrantRef) : string := ACLKey (gref_Kind r) (gref_Owner r) (gref_Resource r) (gref_Grantee r).
Definition reverseKey (r : GrantRef) : string := ACLRevKey (gref_Kind r) (gref_Owner r) (gref_Resource r) (gref_Grantee r).

(** A non-empty unescaped segment. *)
Definition segment (s : string) : option string :=
  match PathUnescape s with Some "" => None | r => r end.

Definition acl_parts (kind owner res grantee : string) : option GrantRef :=
  if negb (HasPrefix grantee "u:") || negb (validACLKind kind) then None else
  match segment owner, segment res, segment (TrimPrefix grantee "u:") with
  | Some o, Some r, Some g => Some (mkGrantRef kind o r g)
  | _, _, _ => None
  end.

Definition parseACLKey (key : string) : option GrantRef :=
  if HasPrefix key "/acl/" then
    match Split (TrimPrefix key "/acl/") "/" with
    | [kind; owner; res; grantee] => acl_parts kind owner res grantee
    | _ => None
    end
  else if HasPrefix key "/aclrev/" then
    match Split (TrimPrefix key "/aclrev/") "/" with
    | [grantee; kind; owner; res] => acl_parts kind owner res grantee
    | _ => None
    end
  else None.

Definition forwardAndReverse (keys : list string) : list string :=
  keys ≫= fun k => match parseACLKey k with Some ref => [forwardKey ref; reverseKey ref] | None => [] end.

Class AclCodecs := { ac_grant :: Codec Grant; ac_payload :: Codec aclPayload }.
Class AclCodecLaws `{AclCodecs} := {
  al_grant :: ProtoLaws Grant;
  al_payload :: JsonLaws aclPayload;
}.

Section Acl.
Context {DB : Type} `{PebbleDB DB} `{AclCodecs} `{RaftApplier DB}.
Implicit Types ps : DB.

Definition BuildACLCommand (req : ACLRequest) : result RaftCommand :=
  let p := mkAcl (rq_Op req) (rq_Kind req) (rq_Owner req) (rq_Resource req) (rq_Grantee req) (rq_Level req) ""
                 (rq_State req) (rq_GrantedBy req) (rq_At req) (rq_KeepState req) in
  let? _ := validateACLPayload p in
  let? data := wrapf "marshaling acl payload" (marshal p) in
  Ok (mkCmd OP_PUT (aclPrefix +:+ rq_Op req) data).

Definition scanKeys ps (prefix : string) : result (list string) :=
  let? l := PrefixScan ps prefix in Ok (fst <$> l).

Definition get_grant ps (k : string) : result string :=
  match Get ps k with
  | Ok v => Ok v
  | Err e => if errors_is e ErrNotFound then Ok "" else Err (Wrap "reading existing grant" e)
  end.

Fixpoint scan_kinds ps (owner : string) (kinds : list string) : result (list string) :=
  match kinds with
  | [] => Ok []
  | kind :: kinds' =>
      let? keys := wrapf "scanning grants of owner" (scanKeys ps (aclOwnerPrefix kind owner)) in
      let? rest := scan_kinds ps owner kinds' in
      Ok (keys ++ rest)
  end.

(** The created-at and state a set keeps from the grant it replaces. *)
Definition set_base (p : aclPayload) (prev : string) : Z * string :=
  if String.eqb prev "" then (pl_At p, pl_State p) else
  match unmarshal prev with
  | Err _ => (pl_At p, pl_State p)
  | Ok old =>
      (if gr_CreatedAt old =? 0 then pl_At p else gr_CreatedAt old,
       if pl_KeepState p && (String.eqb (gr_State old) GrantStatePending || String.eqb (gr_State old) GrantStateAccepted)
       then gr_State old else pl_State p)
  end.

(** The sets and the deletes of a grant command. *)
Definition PlanACL ps (cmd : RaftCommand) : result (list (string * string) * list string) :=
  if negb (IsACLSyntheticCommand (cmd_Key cmd)) then Err (Errorf "not a synthetic acl command") else
  let? p := wrapf "parsing acl payload" (unmarshal (cmd_Value cmd)) in
  let? _ := validateACLPayload p in
  let fwd := ACLKey (pl_Kind p) (pl_Owner p) (pl_Resource p) (pl_Grantee p) in
  let rev := ACLRevKey (pl_Kind p) (pl_Owner p) (pl_Resource p) (pl_Grantee p) in
  if String.eqb (pl_Op p) ACLOpSet then
    let? prev := get_grant ps fwd in
    let '(createdAt, state) := set_base p prev in
    let? val := wrapf "marshaling grant"
      (marshal (mkGrant (pl_Level p) (pl_Rights p) state (pl_GrantedBy p) createdAt (pl_At p))) in
    Ok ([(fwd, val); (rev, "")], [])
  else if String.eqb (pl_Op p) ACLOpAccept then
    let? prev := get_grant ps fwd in
    if String.eqb prev "" then Ok ([], []) else
    let? g := wrapf "unmarshaling grant" (unmarshal prev) in
    if negb (String.eqb (gr_State g) GrantStatePending) || PendingGrantExpired g (pl_At p) then Ok ([], []) else
    let? val := wrapf "marshaling grant"
      (marshal (mkGrant (gr_Level g) (gr_Rights g) GrantStateAccepted (gr_GrantedBy g) (gr_CreatedAt g) (pl_At p))) in
    Ok ([(fwd, val)], [])
  else if String.eqb (pl_Op p) ACLOpRevoke then Ok ([], [fwd; rev])
  else if String.eqb (pl_Op p) ACLOpRevokeResource then
    let? keys := wrapf "scanning grants of resource" (scanKeys ps (aclResourcePrefix (pl_Kind p) (pl_Owner p) (pl_Resource p))) in
    Ok ([], forwardAndReverse keys)
  else if String.eqb (pl_Op p) ACLOpRevokeOwner then
    let? all := scan_kinds ps (pl_Owner p) aclKinds in
    Ok ([], forwardAndReverse all)
  else
    let? keys := wrapf "scanning grants of grantee" (scanKeys ps (aclGranteePrefix (pl_Grantee p))) in
    Ok ([], forwardAndReverse keys).

Definition ApplyACLCommand (cmd : RaftCommand) : GoM DB unit :=
  let! (sets, deletes) := gread (fun ps => PlanACL ps cmd) in
  if decide (sets = [] /\ deletes = []) then gret tt
  else commitSyncBatch (Ok (((fun w => BSet w.1 w.2) <$> sets) ++ (BDelete <$> deletes))).

(** * [ACLStore] *)

Definition acl_apply (req : ACLRequest) : GoM DB unit :=
  let! cmd := glift (BuildACLCommand req) in
  gwrap ("applying acl " +:+ rq_Op req) (ApplyCommand cmd).

(** [now] in Unix seconds. *)
Definition SetCalendarGrant (owner calendar grantee level state grantedBy : string) (now : Z) : GoM DB unit :=
  acl_apply (mkRequest ACLOpSet ACLKindCalendar owner calendar grantee level state grantedBy now false).
Definition SetCalendarGrantKeepState (owner calendar grantee level state grantedBy : string) (now : Z) : GoM DB unit :=
  acl_apply (mkRequest ACLOpSet ACLKindCalendar owner calendar grantee level state grantedBy now true).
Definition AcceptCalendarGrant (owner calendar grantee : string) (now : Z) : GoM DB unit :=
  acl_apply (mkRequest ACLOpAccept ACLKindCalendar owner calendar grantee "" "" "" now false).
Definition RevokeCalendarGrant (owner calendar grantee : string) : GoM DB unit :=
  acl_apply (mkRequest ACLOpRevoke ACLKindCalendar owner calendar grantee "" "" "" 0 false).
Definition RevokeCalendar (owner calendar : string) : GoM DB unit :=
  acl_apply (mkRequest ACLOpRevokeResource ACLKindCalendar owner calendar "" "" "" "" 0 false).
Definition RevokeRef (ref : GrantRef) : GoM DB unit :=
  acl_apply (mkRequest ACLOpRevoke (gref_Kind ref) (gref_Owner ref) (gref_Resource ref) (gref_Grantee ref) "" "" "" 0 false).

(** Both commands are issued; the errors are joined. *)
Definition RevokeUserGrants (userID : string) : GoM DB unit := fun ps =>
  let step req ps :=
    match BuildACLCommand req with
    | Err e => (ps, [e])
    | Ok cmd => match ApplyCommand cmd ps with
                | (ps', Ok _) => (ps', [])
                | (ps', Err e) => (ps', [Wrap ("applying acl " +:+ rq_Op req) e])
                end
    end in
  let '(ps1, e1) := step (mkRequest ACLOpRevokeOwner ACLKindCalendar userID "" "" "" "" "" 0 false) ps in
  let '(ps2, e2) := step (mkRequest ACLOpRevokeGrantee ACLKindCalendar "" "" userID "" "" "" 0 false) ps1 in
  (ps2, match Join_errors (e1 ++ e2) with None => Ok tt | Some e => Err e end).
Definition RevokeUser := RevokeUserGrants.

Definition GetCalendarGrant ps (owner calendar grantee : string) : result (option Grant) :=
  if String.eqb owner "" || String.eqb calendar "" || String.eqb grantee "" then Ok None else
  match Get ps (ACLKey ACLKindCalendar owner calendar grantee) with
  | Err e => if errors_is e ErrNotFound then Ok None else Err (Wrap "reading grant" e)
  | Ok data => let? g := wrapf "unmarshaling grant" (unmarshal data) in Ok (Some g)
  end.

Definition CountCalendarGrants ps (owner calendar : string) : result Z :=
  if String.eqb owner "" || String.eqb calendar "" then Ok 0 else
  let? keys := wrapf "counting grants" (scanKeys ps (aclResourcePrefix ACLKindCalendar owner calendar)) in
  Ok (Z.of_nat (length keys)).

Fixpoint count_active ps (now : Z) (keys : list string) (n : Z) : result Z :=
  match keys with
  | [] => Ok n
  | k :: keys' =>
      match parseACLKey k with
      | None => count_active ps now keys' n
      | Some ref =>
          let? g := GetCalendarGrant ps (gref_Owner ref) (gref_Resource ref) (gref_Grantee ref) in
          count_active ps now keys'
            (match g with Some g => if PendingGrantExpired g now then n else n + 1 | None => n end)
      end
  end.
Definition CountActiveCalendarGrants ps (owner calendar : string) (now : Z) : result Z :=
  if String.eqb owner "" || String.eqb calendar "" then Ok 0 else
  let? keys := wrapf "counting grants" (scanKeys ps (aclResourcePrefix ACLKindCalendar owner calendar)) in
  count_active ps now keys 0.

(** The rank of a stored level; an unknown level ranks 0. *)
Definition level_rank (level : string) : Z := default 0 (calendarLevelRank level).

Fixpoint has_access ps (owner grantee : string) (need : Z) (keys : list string) : result bool :=
  match keys with
  | [] => Ok false
  | k :: keys' =>
      match parseACLKey k with
      | None => has_access ps owner grantee need keys'
      | Some ref =>
          if negb (String.eqb (gref_Owner ref) owner) || negb (String.eqb (gref_Grantee ref) grantee)
          then has_access ps owner grantee need keys' else
          let? g := GetCalendarGrant ps (gref_Owner ref) (gref_Resource ref) (gref_Grantee ref) in
          match g with
          | None => has_access ps owner grantee need keys'
          | Some g =>
              if negb (String.eqb (gr_State g) GrantStateAccepted) || (level_rank (gr_Level g) <? need)
              then has_access ps owner grantee need keys' else
              match Get ps (calendarKey (gref_Owner ref) (gref_Resource ref)) with
              | Ok _ => Ok true
              | Err e => if errors_is e ErrNotFound then has_access ps owner grantee need keys'
                         else Err (Wrap "reading calendar for grant" e)
              end
          end
      end
  end.
Definition HasCalendarAccess ps (owner grantee minLevel : string) : result bool :=
  match calendarLevelRank minLevel with
  | None => Ok false
  | Some need =>
      if String.eqb owner "" || String.eqb grantee "" then Ok false else
      let? keys := wrapf "scanning grants held" (scanKeys ps (aclGranteeKindOwnerPrefix ACLKindCalendar owner grantee)) in
      has_access ps owner grantee need keys
  end.

Definition ListGrantRefs ps : result (list GrantRef) :=
  let? keys := wrapf "scanning grants" (scanKeys ps "/acl/") in
  Ok (omap parseACLKey keys).

Fixpoint any_gone ps (probes : list string) : result bool :=
  match probes with
  | [] => Ok false
  | k :: probes' =>
      match Get ps k with
      | Ok _ => any_gone ps probes'
      | Err e => if errors_is e ErrNotFound then Ok true else Err (Wrap "probing grant target" e)
      end
  end.
Definition GrantOrphaned ps (ref : GrantRef) : result bool :=
  any_gone ps [profileKey (gref_Owner ref); profileKey (gref_Grantee ref); calendarKey (gref_Owner ref) (gref_Resource ref)].

(** ** [aclread.go] *)

Definition CalendarAccessLevel ps (owner calendar grantee : string) : result string :=
  let? g := GetCalendarGrant ps owner calendar grantee in
  match g with
  | None => Ok ""
  | Some g =>
      if negb (String.eqb (gr_State g) GrantStateAccepted) || negb (ValidCalendarLevel (gr_Level g)) then Ok "" else
      match Get ps (calendarKey owner calendar) with
      | Ok _ => Ok (gr_Level g)
      | Err e => if errors_is e ErrNotFound then Ok "" else Err (Wrap "reading calendar for grant" e)
      end
  end.

Definition LevelSatisfies (level need : string) : bool :=
  match calendarLevelRank level, calendarLevelRank need with
  | Some have, Some want => want <=? have
  | _, _ => false
  end.

Record HeldGrant := mkHeld { hg_Owner : string; hg_Calendar : string; hg_Level : string }.
Record CalendarGrantEntry := mkEntry { ce_Grantee : string; ce_Level : string; ce_State : string }.

Definition held_less (a b : HeldGrant) : bool :=
  if negb (String.eqb (hg_Owner a) (hg_Owner b)) then bool_decide (str_lt (hg_Owner a) (hg_Owner b))
  else bool_decide (str_lt (hg_Calendar a) (hg_Calendar b)).

Fixpoint collect_held ps (grantee : string) (keys : list string) : result (list HeldGrant) :=
  match keys with
  | [] => Ok []
  | k :: keys' =>
      match parseACLKey k with
      | None => collect_held ps grantee keys'
      | Some ref =>
          if negb (String.eqb (gref_Grantee ref) grantee) || negb (String.eqb (gref_Kind ref) ACLKindCalendar)
          then collect_held ps grantee keys' else
          let? level := CalendarAccessLevel ps (gref_Owner ref) (gref_Resource ref) grantee in
          let? rest := collect_held ps grantee keys' in
          Ok (if String.eqb level "" then rest else mkHeld (gref_Owner ref) (gref_Resource ref) level :: rest)
      end
  end.
Definition ListCalendarGrantsHeld ps (grantee : string) : result (list HeldGrant) :=
  if String.eqb grantee "" then Ok [] else
  let? keys := wrapf "scanning grants held" (scanKeys ps (aclGranteePrefix grantee +:+ ACLKindCalendar +:+ "/")) in
  let? out := collect_held ps grantee keys in
  Ok (SliceStable held_less out).

Fixpoint collect_pending ps (grantee : string) (now : Z) (keys : list string) : result (list HeldGrant) :=
  match keys with
  | [] => Ok []
  | k :: keys' =>
      match parseACLKey k with
      | None => collect_pending ps grantee now keys'
      | Some ref =>
          if negb (String.eqb (gref_Grantee ref) grantee) || negb (String.eqb (gref_Kind ref) ACLKindCalendar)
          then collect_pending ps grantee now keys' else
          let? g := GetCalendarGrant ps (gref_Owner ref) (gref_Resource ref) grantee in
          match g with
          | None => collect_pending ps grantee now keys'
          | Some g =>
              if negb (String.eqb (gr_State g) GrantStatePending) || PendingGrantExpired g now || negb (ValidCalendarLevel (gr_Level g))
              then collect_pending ps grantee now keys' else
              match Get ps (calendarKey (gref_Owner ref) (gref_Resource ref)) with
              | Err e => if errors_is e ErrNotFound then collect_pending ps grantee now keys'
                         else Err (Wrap "reading calendar for grant" e)
              | Ok _ => let? rest := collect_pending ps grantee now keys' in
                        Ok (mkHeld (gref_Owner ref) (gref_Resource ref) (gr_Level g) :: rest)
              end
          end
      end
  end.
Definition ListPendingCalendarGrantsHeld ps (grantee : string) (now : Z) : result (list HeldGrant) :=
  if String.eqb grantee "" then Ok [] else
  let? keys := wrapf "scanning grants held" (scanKeys ps (aclGranteePrefix grantee +:+ ACLKindCalendar +:+ "/")) in
  let? out := collect_pending ps grantee now keys in
  Ok (SliceStable held_less out).

Fixpoint collect_entries ps (owner calendar : string) (keys : list string) : result (list CalendarGrantEntry) :=
  match keys with
  | [] => Ok []
  | k :: keys' =>
      match parseACLKey k with
      | None => collect_entries ps owner calendar keys'
      | Some ref =>
          if negb (String.eqb (gref_Owner ref) owner) || negb (String.eqb (gref_Resource ref) calendar)
          then collect_entries ps owner calendar keys' else
          let? g := GetCalendarGrant ps owner calendar (gref_Grantee ref) in
          let? rest := collect_entries ps owner calendar keys' in
          Ok (match g with Some g => mkEntry (gref_Grantee ref) (gr_Level g) (gr_State g) :: rest | None => rest end)
      end
  end.
Definition ListCalendarGrants ps (owner calendar : string) : result (list CalendarGrantEntry) :=
  if String.eqb owner "" || String.eqb calendar "" then Ok [] else
  let? keys := wrapf "scanning grants" (scanKeys ps (aclResourcePrefix ACLKindCalendar owner calendar)) in
  let? out := collect_entries ps owner calendar keys in
  Ok (SliceStable (fun a b => bool_decide (str_lt (ce_Grantee a) (ce_Grantee b))) out).

End Acl.
