(* ===== verification/AclThm.v ===== *)
(** Theorems on calendar grants: the two key families agree, revocation is
    complete and exact, and only accepted grants authorise. *)

From S2P Require Import Prelude GoStrings Pebble Proto Acl.
From Stdlib Require Import Ascii.

(** * Escaping *)

Lemma unhex_upperhex d : 0 <= d < 16 -> unhex (upperhex d) = Some d.
Proof.
  intros Hd. unfold upperhex, unhex. destruct (Z.ltb_spec d 10); rewrite byte_char by lia.
  - rewrite !(proj2 (Z.leb_le _ _)) by lia. cbn. f_equal. lia.
  - rewrite (proj2 (Z.leb_gt _ 57)) by lia. rewrite andb_false_r. rewrite !(proj2 (Z.leb_le _ _)) by lia. cbn. f_equal. lia.
Qed.

Lemma PathUnescape_PathEscape s : PathUnescape (PathEscape s) = Some s.
Proof.
  induction s as [|c s IH]; [done|]. cbn [PathEscape]. pose proof (byte_of_range c) as Hc.
  destruct (shouldEscape c) eqn:E; cbn [PathUnescape].
  - change (Ascii.eqb "%" "%") with true. cbn [PathUnescape].
    pose proof (Z.mod_pos_bound (byte_of c) 16). pose proof (Z.div_mod (byte_of c) 16).
    rewrite (unhex_upperhex (byte_of c / 16)) by (split; [apply Z.div_pos|apply Z.div_lt_upper_bound]; lia).
    rewrite unhex_upperhex by lia.     rewrite IH.
    replace (16 * (byte_of c / 16) + byte_of c mod 16) with (byte_of c) by lia. by rewrite char_of_byte.
  - destruct (Ascii.eqb_spec c "%") as [->|]; [done|]. by rewrite IH.
Qed.

Lemma PathEscape_inj s t : PathEscape s = PathEscape t -> s = t.
Proof. intros Heq%(f_equal PathUnescape). rewrite !PathUnescape_PathEscape in Heq. by simplify_eq. Qed.

Lemma upperhex_not_slash d : 0 <= d < 16 -> Ascii.eqb (upperhex d) "/" = false.
Proof.
  intros Hd. apply Ascii.eqb_neq. intros Heq%(f_equal byte_of). unfold upperhex in Heq.
  change (byte_of "/") with 47 in Heq. rewrite byte_char in Heq by (case_match; lia). destruct (d <? 10); lia.
Qed.

Lemma escSeg_no_slash s : has_char "/" (escSeg s) = false.
Proof.
  unfold escSeg. induction s as [|c s IH]; [done|]. cbn [PathEscape]. pose proof (byte_of_range c) as Hc.
  destruct (shouldEscape c) eqn:E; rewrite !has_char_cons, IH, ?orb_false_r.
  - rewrite !upperhex_not_slash; [done| |]; [split; [apply Z.mod_pos_bound|apply Z.mod_pos_bound]; lia|].
    split; [apply Z.div_pos|apply Z.div_lt_upper_bound]; lia.
  - apply Ascii.eqb_neq. intros ->. by vm_compute in E.
Qed.

Lemma segment_escSeg s : s <> "" -> segment (escSeg s) = Some s.
Proof. unfold segment, escSeg. rewrite PathUnescape_PathEscape. by destruct s. Qed.

(** * Keys *)

Definition valid_ref (r : GrantRef) : Prop :=
  validACLKind (gref_Kind r) = true /\ gref_Owner r <> "" /\ gref_Resource r <> "" /\ gref_Grantee r <> "".

Lemma kind_calendar k : validACLKind k = true -> k = "calendar".
Proof. unfold validACLKind, aclKinds. cbn [existsb]. rewrite orb_false_r. by intros <-%String.eqb_eq. Qed.

Lemma Split4 a b c d :
  has_char "/" a = false -> has_char "/" b = false -> has_char "/" c = false -> has_char "/" d = false ->
  Split (a +:+ "/" +:+ b +:+ "/" +:+ c +:+ "/" +:+ d) "/" = [a; b; c; d].
Proof.
  intros Ha Hb Hc Hd. unfold Split.
  assert (exists n, String.length (a +:+ "/" +:+ b +:+ "/" +:+ c +:+ "/" +:+ d) = S (S (S n))) as [n ->].
  { rewrite !str_length_app. cbn [String.length].
    exists (String.length a + (String.length b + (String.length c + String.length d)))%nat. lia. }
  by rewrite !SplitN_cons, SplitN_one by done.
Qed.

Lemma acl_parts_escaped r : valid_ref r ->
  acl_parts (gref_Kind r) (escSeg (gref_Owner r)) (escSeg (gref_Resource r)) ("u:" +:+ escSeg (gref_Grantee r)) = Some r.
Proof.
  intros (Hk&Ho&Hr&Hg). unfold acl_parts. rewrite Hk, TrimPrefix_app, !segment_escSeg by done.
  replace (HasPrefix ("u:" +:+ escSeg (gref_Grantee r)) "u:") with true by (symmetry; apply prefix_app).
  by destruct r.
Qed.

Lemma parse_forward r : valid_ref r -> parseACLKey (forwardKey r) = Some r.
Proof.
  intros Hv. pose proof (proj1 Hv) as Hk. unfold parseACLKey, forwardKey, ACLKey.
  replace (HasPrefix ("/acl/" +:+ _) "/acl/") with true by (symmetry; apply prefix_app).
  rewrite TrimPrefix_app. change ("/u:" +:+ escSeg (gref_Grantee r)) with ("/" +:+ "u:" +:+ escSeg (gref_Grantee r)).
  rewrite Split4; [by apply acl_parts_escaped| |apply escSeg_no_slash..|].
  - by rewrite (kind_calendar _ Hk).
  - rewrite has_char_app, escSeg_no_slash. done.
Qed.

Lemma parse_reverse r : valid_ref r -> parseACLKey (reverseKey r) = Some r.
Proof.
  intros Hv. pose proof (proj1 Hv) as Hk. unfold parseACLKey, reverseKey, ACLRevKey.
  replace (HasPrefix ("/aclrev/u:" +:+ _) "/acl/") with false by (by vm_compute).
  change ("/aclrev/u:" +:+ ?x) with ("/aclrev/" +:+ "u:" +:+ x).
  replace (HasPrefix ("/aclrev/" +:+ _) "/aclrev/") with true by (symmetry; apply prefix_app).
  rewrite TrimPrefix_app. rewrite <- (str_app_assoc "u:").
  rewrite Split4; [by apply acl_parts_escaped| |by rewrite (kind_calendar _ Hk)|apply escSeg_no_slash..].
  rewrite has_char_app, escSeg_no_slash. done.
Qed.

Lemma parse_valid k r : parseACLKey k = Some r -> valid_ref r.
Proof.
  assert (forall kind o s g, acl_parts kind o s g = Some r -> valid_ref r) as Hparts.
  { intros kind o s g. unfold acl_parts, segment. destruct (_ || _) eqn:E; [done|].
    apply orb_false_iff in E as [_ Hk%negb_false_iff]. repeat case_match; intros; by simplify_eq. }
  unfold parseACLKey. repeat case_match; try done; apply Hparts.
Qed.

Lemma forward_inj r r' : valid_ref r -> valid_ref r' -> forwardKey r = forwardKey r' -> r = r'.
Proof. intros Hr Hr' Heq%(f_equal parseACLKey). rewrite !parse_forward in Heq by done. by simplify_eq. Qed.
Lemma reverse_inj r r' : valid_ref r -> valid_ref r' -> reverseKey r = reverseKey r' -> r = r'.
Proof. intros Hr Hr' Heq%(f_equal parseACLKey). rewrite !parse_reverse in Heq by done. by simplify_eq. Qed.
Lemma forward_not_reverse r r' : forwardKey r <> reverseKey r'.
Proof.
  intros Heq%(f_equal (fun k => HasPrefix k "/acl/")). unfold forwardKey, ACLKey, reverseKey, ACLRevKey in Heq.
  replace (HasPrefix ("/acl/" +:+ _) "/acl/") with true in Heq by (symmetry; apply prefix_app).
  by vm_compute in Heq.
Qed.

(** Both keys of the references of a list of keys, and of no others. *)
Lemma forwardAndReverse_spec keys r : valid_ref r ->
  (forwardKey r ∈ forwardAndReverse keys <-> exists k, k ∈ keys /\ parseACLKey k = Some r) /\
  (reverseKey r ∈ forwardAndReverse keys <-> exists k, k ∈ keys /\ parseACLKey k = Some r).
Proof.
  intros Hr. unfold forwardAndReverse. split; rewrite list_elem_of_bind; split.
  1, 3: intros (k&Hk&Hin); destruct (parseACLKey k) as [r'|] eqn:E; [|by apply not_elem_of_nil in Hk];
    pose proof (parse_valid _ _ E) as Hr'; rewrite !elem_of_cons, elem_of_nil in Hk; exists k; split; [done|].
  - destruct Hk as [Hk|[Hk|[]]]; [by apply forward_inj in Hk as ->|by apply forward_not_reverse in Hk].
  - destruct Hk as [Hk|[Hk|[]]]; [by apply not_eq_sym in Hk; [|apply forward_not_reverse]|by apply reverse_inj in Hk as ->].
  - intros (k&Hin&Hk). exists k. rewrite Hk. split; [|done]. by left.
  - intros (k&Hin&Hk). exists k. rewrite Hk. split; [|done]. right. by left.
Qed.

(** * The two key families *)

Section Acl.
Context {DB : Type} `{PebbleLaws DB} `{AclCodecLaws}.
Implicit Types (s : DB) (c : gmap string string) (r : GrantRef).

(** Every grant has its reverse marker and every marker its grant. *)
Definition families_agree c : Prop :=
  forall r, valid_ref r -> is_Some (c !! forwardKey r) <-> is_Some (c !! reverseKey r).

Definition acl_batch (sets : list (string * string)) (deletes : list string) : list batch_op :=
  ((fun w => BSet w.1 w.2) <$> sets) ++ (BDelete <$> deletes).

Lemma ApplyACL_Ok cmd s s' u :
  ApplyACLCommand cmd s = (s', Ok u) ->
  exists sets deletes, PlanACL s cmd = Ok (sets, deletes) /\ contents s' = apply_batch (acl_batch sets deletes) (contents s).
Proof.
  unfold ApplyACLCommand. intros Hr. apply gbind_Ok in Hr as (s1&[sets dels]&Hp&Hr).
  unfold gread in Hp. injection Hp as <- Hp. exists sets, dels. split; [done|].
  case_decide as Hd; [by destruct Hd as [-> ->]; unfold gret in Hr; simplify_eq|].
  apply commitSyncBatch_Ok in Hr as (b&[= <-]&Hc). done.
Qed.

Lemma ApplyACL_Err cmd s s' e : ApplyACLCommand cmd s = (s', Err e) -> contents s' = contents s.
Proof.
  unfold ApplyACLCommand. intros [Hr|(s1&[sets dels]&Hp&Hr)]%gbind_Err; unfold gread in *; simplify_eq; [done|].
  case_decide; [done|]. by eapply commitSyncBatch_Err.
Qed.

(** The reference a command with all fields names. *)
Definition pl_ref (p : aclPayload) : GrantRef := mkGrantRef (pl_Kind p) (pl_Owner p) (pl_Resource p) (pl_Grantee p).

(** What a plan does, by operation. *)
Inductive acl_effect (c : gmap string string) (p : aclPayload) : list (string * string) -> list string -> Prop :=
| eff_none : acl_effect c p [] []
| eff_set val : valid_ref (pl_ref p) -> pl_Op p = ACLOpSet ->
    acl_effect c p [(forwardKey (pl_ref p), val); (reverseKey (pl_ref p), "")] []
| eff_accept prev g val : valid_ref (pl_ref p) -> pl_Op p = ACLOpAccept ->
    c !! forwardKey (pl_ref p) = Some prev -> unmarshal prev = Ok g ->
    gr_State g = GrantStatePending -> PendingGrantExpired g (pl_At p) = false ->
    unmarshal val = Ok (mkGrant (gr_Level g) (gr_Rights g) GrantStateAccepted (gr_GrantedBy g) (gr_CreatedAt g) (pl_At p)) ->
    acl_effect c p [(forwardKey (pl_ref p), val)] []
| eff_revoke : valid_ref (pl_ref p) -> pl_Op p = ACLOpRevoke ->
    acl_effect c p [] [forwardKey (pl_ref p); reverseKey (pl_ref p)]
| eff_scan keys : acl_effect c p [] (forwardAndReverse keys).

Lemma missing_Ok p fields u f : missing p fields = Ok u -> f ∈ fields -> f.2 <> "".
Proof.
  unfold missing. intros Hm Hf He. assert (f ∈ filter (fun f => f.2 = "") fields) as Hin by (by apply list_elem_of_filter).
  destruct (filter _ fields) as [|x l]; [by apply not_elem_of_nil in Hin|]. done.
Qed.

Lemma validate_ref p u :
  validateACLPayload p = Ok u -> pl_Op p = ACLOpSet \/ pl_Op p = ACLOpAccept \/ pl_Op p = ACLOpRevoke -> valid_ref (pl_ref p).
Proof.
  unfold validateACLPayload. destruct (validACLKind (pl_Kind p)) eqn:Hk; [|done]. cbn [negb]. intros Hv Hop.
  assert (missing p [("owner", pl_Owner p); ("resource", pl_Resource p); ("grantee", pl_Grantee p)] = Ok u) as Hm.
  { destruct Hop as [Ho|[Ho|Ho]]; rewrite Ho in Hv; cbn [String.eqb] in Hv; repeat case_match; done. }
  split_and!; [done|apply (missing_Ok _ _ _ ("owner", pl_Owner p) Hm)|apply (missing_Ok _ _ _ ("resource", pl_Resource p) Hm)|
    apply (missing_Ok _ _ _ ("grantee", pl_Grantee p) Hm)]; set_solver.
Qed.

Lemma get_grant_Ok s k v : get_grant s k = Ok v -> v <> "" -> contents s !! k = Some v.
Proof.
  unfold get_grant. destruct (Get s k) eqn:E; [intros [= ->] _; by apply Get_Ok|]. case_match; [|done]. by intros [= <-].
Qed.

Lemma PlanACL_effect s cmd sets dels :
  PlanACL s cmd = Ok (sets, dels) ->
  exists p u, unmarshal (cmd_Value cmd) = Ok p /\ validateACLPayload p = Ok u /\ acl_effect (contents s) p sets dels.
Proof.
  unfold PlanACL. destruct (IsACLSyntheticCommand _); [|done]. cbn [negb]. intros Hp.
  apply result_bind_Ok in Hp as (p&Hv%wrapf_Ok&Hp). apply result_bind_Ok in Hp as (u&Hval&Hp).
  exists p, u. split_and!; [done..|].
  destruct (String.eqb_spec (pl_Op p) ACLOpSet) as [Ho|_].
  { apply result_bind_Ok in Hp as (prev&_&Hp). destruct (set_base p prev). ginv.
    apply eff_set; [|done]. eapply validate_ref; eauto. }
  destruct (String.eqb_spec (pl_Op p) ACLOpAccept) as [Ho|_].
  { apply result_bind_Ok in Hp as (prev&Hg&Hp). destruct (String.eqb_spec prev ""); [simplify_eq; constructor|].
    apply result_bind_Ok in Hp as (g&Hdec%wrapf_Ok&Hp). destruct (_ || _) eqn:E; [simplify_eq; constructor|].
    apply orb_false_iff in E as [Hst%negb_false_iff%String.eqb_eq Hexp]. ginv.
    eapply eff_accept; [eapply validate_ref; eauto|done|eapply get_grant_Ok; eassumption|eassumption|done|done|].
    by apply proto_roundtrip. }
  destruct (String.eqb_spec (pl_Op p) ACLOpRevoke) as [Ho|_].
  { simplify_eq. apply eff_revoke; [|done]. eapply validate_ref; eauto. }
  repeat case_match; ginv; constructor.
Qed.

Lemma deletes_lookup ks c k : apply_batch (BDelete <$> ks) c !! k = if decide (k ∈ ks) then None else c !! k.
Proof. pose proof (apply_deletes id ks c k) as E. by rewrite list_fmap_id in E. Qed.

Lemma effect_agrees c p sets dels :
  acl_effect c p sets dels -> families_agree c -> families_agree (apply_batch (acl_batch sets dels) c).
Proof.
  intros He I r Hr. specialize (I r Hr). unfold acl_batch. rewrite apply_batch_app.
  inversion He as [|val Hv _|prev g val Hv _ Hprev _|Hv _|keys]; subst.
  - done.
  - cbn. destruct (decide (r = pl_ref p)) as [->|Hne].
    + rewrite lookup_insert_eq, lookup_insert_ne, lookup_insert_eq by (apply not_eq_sym, forward_not_reverse).
      split; eauto.
    + rewrite !lookup_insert_ne; [done| | | |];
        first [apply forward_not_reverse | apply not_eq_sym, forward_not_reverse |
               intros ?%forward_inj; naive_solver | intros ?%reverse_inj; naive_solver].
  - cbn. destruct (decide (r = pl_ref p)) as [->|Hne].
    + rewrite lookup_insert_eq, lookup_insert_ne by (apply forward_not_reverse). rewrite <- I, Hprev. split; eauto.
    + rewrite !lookup_insert_ne; [done|apply forward_not_reverse|intros ?%forward_inj; naive_solver].
  - change (apply_batch (_ <$> []) c) with c. rewrite !deletes_lookup.
    destruct (decide (r = pl_ref p)) as [->|Hne].
    + rewrite !decide_True by set_solver. split; intros []; done.
    + rewrite !decide_False; [done| |]; rewrite !elem_of_cons, elem_of_nil; intros [Heq|[Heq|[]]].
      * symmetry in Heq. by apply forward_not_reverse in Heq.
      * apply reverse_inj in Heq; naive_solver.
      * apply forward_inj in Heq; naive_solver.
      * by apply forward_not_reverse in Heq.
  - change (apply_batch (_ <$> []) c) with c. rewrite !deletes_lookup. destruct (forwardAndReverse_spec keys r Hr) as [Hf Hb].
    destruct (decide (forwardKey r ∈ forwardAndReverse keys)) as [Hin|Hout].
    + rewrite decide_True by (by apply Hb, Hf). split; intros []; done.
    + rewrite decide_False by (intros ?; by apply Hout, Hf, Hb). done.
Qed.

(** The forward grants and their reverse markers never disagree: every
    grant command, whether it succeeds or fails, keeps a grant and its marker
    both present or both absent. *)
Theorem grant_families_never_disagree cmd s s' res :
  families_agree (contents s) -> ApplyACLCommand cmd s = (s', res) -> families_agree (contents s').
Proof.
  intros I. destruct res as [u|e]; intros Hr.
  - apply ApplyACL_Ok in Hr as (sets&dels&Hp&->). apply PlanACL_effect in Hp as (p&v&_&_&He).
    by eapply effect_agrees.
  - apply ApplyACL_Err in Hr. by rewrite Hr.
Qed.

(** ** Revocation by prefix *)

Lemma Split_cons a b : has_char "/" a = false ->
  Split (a +:+ "/" +:+ b) "/" = a :: SplitN b "/" (S (String.length a + String.length b)).
Proof.
  intros Ha. unfold Split. rewrite !str_length_app. cbn [String.length].
  replace (String.length a + (1 + String.length b))%nat with (S (String.length a + String.length b)) by lia.
  by rewrite SplitN_cons.
Qed.

Lemma segment_owner o x : segment (escSeg o) = Some x -> x = o.
Proof. unfold segment, escSeg. rewrite PathUnescape_PathEscape. destruct o; [done|]. by intros [= <-]. Qed.

Lemma acl_parts_Some kind o res g r : acl_parts kind o res g = Some r ->
  gref_Kind r = kind /\ segment o = Some (gref_Owner r) /\ segment res = Some (gref_Resource r) /\
  segment (TrimPrefix g "u:") = Some (gref_Grantee r).
Proof.
  unfold acl_parts. destruct (_ || _); [done|].
  destruct (segment o), (segment res), (segment (TrimPrefix g "u:")); try done. by intros [= <-].
Qed.

Lemma under_owner o k r :
  String.prefix (aclOwnerPrefix "calendar" o) k = true -> parseACLKey k = Some r -> gref_Kind r = "calendar" /\ gref_Owner r = o.
Proof.
  intros [rest ->]%prefix_spec. unfold parseACLKey, aclOwnerPrefix. rewrite !str_app_assoc.
  replace (HasPrefix ("/acl/" +:+ _) "/acl/") with true by (symmetry; apply prefix_app). rewrite TrimPrefix_app.
  change ("calendar" +:+ "/" +:+ ?x) with ("calendar" +:+ "/" +:+ x). rewrite Split_cons by done.
  cbn [String.length Nat.add]. rewrite SplitN_cons by apply escSeg_no_slash.
  destruct (SplitN rest "/" _) as [|a [|b [|]]]; try done.
  intros (->&Ho%segment_owner&_)%acl_parts_Some. done.
Qed.

Lemma under_resource o res k r :
  String.prefix (aclResourcePrefix "calendar" o res) k = true -> parseACLKey k = Some r ->
  gref_Kind r = "calendar" /\ gref_Owner r = o /\ gref_Resource r = res.
Proof.
  intros [rest ->]%prefix_spec. unfold parseACLKey, aclResourcePrefix. rewrite !str_app_assoc.
  replace (HasPrefix ("/acl/" +:+ _) "/acl/") with true by (symmetry; apply prefix_app). rewrite TrimPrefix_app.
  rewrite Split_cons by done. cbn [String.length Nat.add]. rewrite !SplitN_cons by apply escSeg_no_slash.
  destruct (SplitN rest "/" _) as [|a [|]]; try done.
  intros (->&Ho%segment_owner&Hr%segment_owner&_)%acl_parts_Some. done.
Qed.

Lemma under_grantee g k r :
  String.prefix (aclGranteePrefix g) k = true -> parseACLKey k = Some r -> gref_Grantee r = g.
Proof.
  intros [rest ->]%prefix_spec. unfold parseACLKey, aclGranteePrefix. rewrite !str_app_assoc.
  replace (HasPrefix ("/aclrev/u:" +:+ _) "/acl/") with false by (by vm_compute).
  change ("/aclrev/u:" +:+ ?x) with ("/aclrev/" +:+ "u:" +:+ x).
  replace (HasPrefix ("/aclrev/" +:+ _) "/aclrev/") with true by (symmetry; apply prefix_app).
  rewrite TrimPrefix_app, <- (str_app_assoc "u:").
  rewrite Split_cons by (rewrite has_char_app, escSeg_no_slash; done).
  destruct (SplitN rest "/" _) as [|a [|b [|c [|]]]]; try done.
  intros (_&_&_&Hg)%acl_parts_Some. rewrite TrimPrefix_app in Hg. by apply segment_owner in Hg.
Qed.

Lemma scanKeys_healthy s pre :
  healthy s -> exists keys, scanKeys s pre = Ok keys /\
    forall k, k ∈ keys <-> is_Some (contents s !! k) /\ String.prefix pre k = true.
Proof.
  intros Hs. unfold scanKeys. rewrite PrefixScan_healthy by done. cbn. eexists. split; [done|].
  intros k. rewrite <- list_fmap_compose, list_elem_of_fmap. split.
  - intros ([k' v]&->&[? ?]%elem_of_scan). cbn. eauto.
  - intros [[v Hv] Hp]. exists (k, v). split; [done|]. by apply elem_of_scan.
Qed.

(** Which grants a revocation is about. *)
Definition covers (p : aclPayload) r : bool :=
  if String.eqb (pl_Op p) ACLOpRevokeResource then
    String.eqb (gref_Kind r) (pl_Kind p) && String.eqb (gref_Owner r) (pl_Owner p) && String.eqb (gref_Resource r) (pl_Resource p)
  else if String.eqb (pl_Op p) ACLOpRevokeOwner then String.eqb (gref_Owner r) (pl_Owner p)
  else String.eqb (gref_Grantee r) (pl_Grantee p).

(** The keys a revocation scans are those of the grants it covers. *)
Lemma revoke_plan s p v u :
  healthy s -> families_agree (contents s) -> unmarshal v = Ok p -> validateACLPayload p = Ok u ->
  pl_Op p ∈ [ACLOpRevokeResource; ACLOpRevokeOwner; ACLOpRevokeGrantee] ->
  exists keys, PlanACL s (mkCmd OP_PUT (aclPrefix +:+ pl_Op p) v) = Ok ([], forwardAndReverse keys) /\
    forall r, valid_ref r -> is_Some (contents s !! forwardKey r) ->
      (exists k, k ∈ keys /\ parseACLKey k = Some r) <-> covers p r = true.
Proof.
  intros Hs I Hv Hval Hop. unfold PlanACL. cbn [cmd_Key cmd_Value].
  replace (IsACLSyntheticCommand _) with true by (symmetry; apply prefix_app). cbn [negb]. rewrite Hv. cbn [wrapf result_bind].
  rewrite Hval. cbn [result_bind].
  assert (validACLKind (pl_Kind p) = true) as Hk%kind_calendar.
  { unfold validateACLPayload in Hval. by destruct (validACLKind (pl_Kind p)). }
  unfold covers. rewrite Hk. rewrite !elem_of_cons, elem_of_nil in Hop.
  assert (forall x y b, String.eqb x y && b = true <-> x = y /\ b = true) as Hand
    by (intros; by rewrite andb_true_iff, String.eqb_eq).
  destruct Hop as [Ho|[Ho|[Ho|[]]]]; rewrite Ho; cbn [String.eqb].
  - destruct (scanKeys_healthy s (aclResourcePrefix "calendar" (pl_Owner p) (pl_Resource p)) Hs) as (keys&->&Hkeys).
    exists keys. split; [done|]. intros r Hr Hsome. cbn. rewrite <- andb_assoc, !Hand, String.eqb_eq. split.
    + intros (k&[_ Hp]%Hkeys&Hparse). by apply (under_resource _ _ _ _ Hp) in Hparse.
    + intros (E1&E2&E3). exists (forwardKey r). split; [|by apply parse_forward]. apply Hkeys. split; [done|].
      apply prefix_spec. exists ("u:" +:+ escSeg (gref_Grantee r)).
      unfold forwardKey, ACLKey, aclResourcePrefix. rewrite E1, E2, E3, !str_app_assoc. done.
  - unfold aclKinds, ACLKindCalendar. cbn [scan_kinds].
    destruct (scanKeys_healthy s (aclOwnerPrefix "calendar" (pl_Owner p)) Hs) as (keys&->&Hkeys).
    exists keys. split; [cbn; by rewrite app_nil_r|]. intros r Hr Hsome. cbn. rewrite String.eqb_eq. split.
    + intros (k&[_ Hp]%Hkeys&Hparse). by apply (under_owner _ _ _ Hp) in Hparse as [_ ?].
    + intros E2. exists (forwardKey r). split; [|by apply parse_forward]. apply Hkeys. split; [done|].
      apply prefix_spec. exists (escSeg (gref_Resource r) +:+ "/u:" +:+ escSeg (gref_Grantee r)).
      unfold forwardKey, ACLKey, aclOwnerPrefix. rewrite (kind_calendar _ (proj1 Hr)), E2, !str_app_assoc. done.
  - destruct (scanKeys_healthy s (aclGranteePrefix (pl_Grantee p)) Hs) as (keys&->&Hkeys).
    exists keys. split; [done|]. intros r Hr Hsome. cbn. rewrite String.eqb_eq. split.
    + intros (k&[_ Hp]%Hkeys&Hparse). by apply (under_grantee _ _ _ Hp) in Hparse.
    + intros E. exists (reverseKey r). split; [|by apply parse_reverse]. apply Hkeys. split; [exact (proj1 (I r Hr) Hsome)|].
      apply prefix_spec. exists (gref_Kind r +:+ "/" +:+ escSeg (gref_Owner r) +:+ "/" +:+ escSeg (gref_Resource r)).
      unfold reverseKey, ACLRevKey, aclGranteePrefix. rewrite E, !str_app_assoc. done.
Qed.

(** Revoking by calendar, by owner or by grantee is complete and exact: on
    a healthy store it succeeds, leaves neither key of any grant it covers, and
    leaves every other grant as it was. *)
Theorem revocation_is_complete s p v u :
  healthy s -> families_agree (contents s) -> unmarshal v = Ok p -> validateACLPayload p = Ok u ->
  pl_Op p ∈ [ACLOpRevokeResource; ACLOpRevokeOwner; ACLOpRevokeGrantee] ->
  exists s', ApplyACLCommand (mkCmd OP_PUT (aclPrefix +:+ pl_Op p) v) s = (s', Ok tt) /\
    forall r, valid_ref r ->
      if covers p r
      then contents s' !! forwardKey r = None /\ contents s' !! reverseKey r = None
      else contents s' !! forwardKey r = contents s !! forwardKey r /\
           contents s' !! reverseKey r = contents s !! reverseKey r.
Proof.
  intros Hs I Hv Hval Hop. destruct (revoke_plan s p v u Hs I Hv Hval Hop) as (keys&Hplan&Hkeys).
  assert (exists s', ApplyACLCommand (mkCmd OP_PUT (aclPrefix +:+ pl_Op p) v) s = (s', Ok tt) /\
    contents s' = apply_batch (BDelete <$> forwardAndReverse keys) (contents s)) as (s'&Hrun&Hc).
  { unfold ApplyACLCommand, gbind, gread. rewrite Hplan. case_decide as Hd.
    - destruct Hd as [_ Hd]. exists s. by rewrite Hd.
    - destruct (commitSyncBatch_healthy s (BDelete <$> forwardAndReverse keys) Hs) as (s'&Hr&_&Hc). eauto. }
  exists s'. split; [done|]. intros r Hr. rewrite Hc, !deletes_lookup.
  destruct (forwardAndReverse_spec keys r Hr) as [Hf Hb]. specialize (Hkeys r Hr). specialize (I r Hr).
  destruct (contents s !! forwardKey r) as [x|] eqn:Ef.
  - destruct (covers p r) eqn:Ec.
    + assert (exists k, k ∈ keys /\ parseACLKey k = Some r) as Hex by (apply Hkeys; eauto).
      by rewrite !decide_True by (by apply Hf || by apply Hb).
    + assert (~ exists k, k ∈ keys /\ parseACLKey k = Some r) as Hno
        by (intros Hex; apply Hkeys in Hex; [congruence|eauto]).
      by rewrite !decide_False by (rewrite Hf || rewrite Hb; done).
  - assert (contents s !! reverseKey r = None) as Er.
    { destruct (contents s !! reverseKey r) eqn:E; [|done]. destruct I as [_ [? ?]]; [eauto|done]. }
    rewrite Er. repeat case_decide; by destruct (covers p r).
Qed.

(** ** Acceptance and access *)

Lemma GetGrant_Some s o cal g gr :
  GetCalendarGrant s o cal g = Ok (Some gr) ->
  exists v, contents s !! ACLKey ACLKindCalendar o cal g = Some v /\ unmarshal v = Ok gr.
Proof.
  unfold GetCalendarGrant. destruct (_ || _); [done|]. destruct (Get s _) as [v|e] eqn:E; [|by case_match].
  intros. ginv. exists v. split; [by apply Get_Ok|done].
Qed.

Lemma has_access_sound s o g need keys :
  has_access s o g need keys = Ok true ->
  exists cal v gr, contents s !! ACLKey ACLKindCalendar o cal g = Some v /\ unmarshal v = Ok gr /\
    gr_State gr = GrantStateAccepted /\ need <= level_rank (gr_Level gr) /\
    is_Some (contents s !! calendarKey o cal).
Proof.
  induction keys as [|k keys IH]; [done|]. cbn [has_access].
  destruct (parseACLKey k) as [r|]; [|done]. destruct (_ || _) eqn:E; [done|].
  apply orb_false_iff in E as [->%negb_false_iff%String.eqb_eq ->%negb_false_iff%String.eqb_eq].
  intros (gopt&Hg&Hrest)%result_bind_Ok. destruct gopt as [gr|]; [|auto].
  destruct (_ || _) eqn:Est; [auto|]. apply orb_false_iff in Est as [Hst%negb_false_iff%String.eqb_eq Hlv%Z.ltb_ge].
  destruct (Get s (calendarKey _ _)) as [cv|e] eqn:Hcal; [|case_match; [auto|done]].
  apply GetGrant_Some in Hg as (v&Hv&Hdec). apply Get_Ok in Hcal. eauto 10.
Qed.

(** Only an accepted grant authorises. When access is granted, the grantee
    holds an accepted grant of at least the required level on a calendar of that
    owner that still exists; a pending grant never counts. *)
Theorem access_needs_accepted_grant s owner grantee minLevel :
  HasCalendarAccess s owner grantee minLevel = Ok true ->
  exists need cal v gr, calendarLevelRank minLevel = Some need /\
    contents s !! ACLKey ACLKindCalendar owner cal grantee = Some v /\ unmarshal v = Ok gr /\
    gr_State gr = GrantStateAccepted /\ need <= level_rank (gr_Level gr) /\
    is_Some (contents s !! calendarKey owner cal).
Proof.
  unfold HasCalendarAccess. destruct (calendarLevelRank minLevel) as [need|]; [|done].
  destruct (_ || _); [done|]. intros (keys&_&Ha)%result_bind_Ok.
  destruct (has_access_sound _ _ _ _ _ Ha) as (cal&v&gr&?). eauto 10.
Qed.

(** Accepting never creates, revives or extends a grant: an accept command
    either changes nothing or turns a pending grant that is not expired at the
    command's own time into the accepted grant with the same level, rights,
    grantor and creation time. *)
Theorem accept_needs_live_pending_grant cmd p s s' res :
  unmarshal (cmd_Value cmd) = Ok p -> pl_Op p = ACLOpAccept -> ApplyACLCommand cmd s = (s', res) ->
  contents s' = contents s \/
  exists prev g v, contents s !! forwardKey (pl_ref p) = Some prev /\ unmarshal prev = Ok g /\
    gr_State g = GrantStatePending /\ PendingGrantExpired g (pl_At p) = false /\
    unmarshal v = Ok (mkGrant (gr_Level g) (gr_Rights g) GrantStateAccepted (gr_GrantedBy g) (gr_CreatedAt g) (pl_At p)) /\
    contents s' = <[forwardKey (pl_ref p) := v]> (contents s).
Proof.
  intros Hp Hop. destruct res as [u|e]; intros Hr; [|left; by eapply ApplyACL_Err].
  apply ApplyACL_Ok in Hr as (sets&dels&Hplan&Hc).
  assert (dels = []) as ->.
  { unfold PlanACL in Hplan. destruct (IsACLSyntheticCommand _); [|done]. cbn [negb] in Hplan. rewrite Hp in Hplan.
    cbn [wrapf result_bind] in Hplan. rewrite Hop in Hplan. cbn [String.eqb] in Hplan. ginv.
    repeat (case_match; ginv; try done). }
  apply PlanACL_effect in Hplan as (p'&v&Hp'&_&He). assert (p' = p) as -> by congruence.
  inversion He as [|val Hv Ho|prev g val Hv _ Hprev Hdec Hst Hexp Hval|Hv Ho|keys Hk Hk']; subst; rewrite Hc.
  - by left.
  - by rewrite Hop in Ho.
  - right. exists prev, g, val. split_and!; done.
  - by left.
Qed.

End Acl.

(** * Concrete grants *)

Definition demo_acl : AclCodecs := {| ac_grant := tagged_codec "G"; ac_payload := json_codec (fun _ => True) |}.
Definition demo_acl_laws : @AclCodecLaws demo_acl :=
  @Build_AclCodecLaws demo_acl (tagged_proto _) (json_laws _).

Section Demo.
#[local] Existing Instances demo_acl demo_acl_laws.

Definition demo_payload (op owner res grantee level state : string) (at_ : Z) : aclPayload :=
  mkAcl op ACLKindCalendar owner res grantee level "" state owner at_ false.
Definition demo_acl_bytes (p : aclPayload) : string := match marshal p with Ok v => v | Err _ => "" end.
Definition demo_acl_cmd (p : aclPayload) : RaftCommand := mkCmd OP_PUT (aclPrefix +:+ pl_Op p) (demo_acl_bytes p).

Definition p_share : aclPayload := demo_payload ACLOpSet "ann" "c1" "bob" "read" "pending" 100.
Definition p_accept : aclPayload := demo_payload ACLOpAccept "ann" "c1" "bob" "" "" 200.
Definition p_revoke : aclPayload := demo_payload ACLOpRevokeOwner "ann" "" "" "" "" 0.

Definition acl0 : MemDB := mem_of [(calendarKey "ann" "c1", "x")].
Definition acl1 : MemDB := (ApplyACLCommand (demo_acl_cmd p_share) acl0).1.
Definition acl2 : MemDB := (ApplyACLCommand (demo_acl_cmd p_accept) acl1).1.

(** Sharing, accepting and revoking, as the two parties see it. *)
Example grant_lifecycle :
  HasCalendarAccess acl1 "ann" "bob" "freebusy" = Ok false /\
  HasCalendarAccess acl2 "ann" "bob" "freebusy" = Ok true /\
  HasCalendarAccess acl2 "ann" "bob" "write" = Ok false /\
  HasCalendarAccess (ApplyACLCommand (demo_acl_cmd p_revoke) acl2).1 "ann" "bob" "freebusy" = Ok false.
Proof. vm_compute. split_and!; reflexivity. Qed.

Lemma acl0_agree : families_agree (contents acl0).
Proof.
  intros r Hr. change (contents acl0) with (<[calendarKey "ann" "c1" := "x"]> (∅ : gmap string string)).
  assert (forall k, k <> calendarKey "ann" "c1" -> (<[calendarKey "ann" "c1" := "x"]> (∅ : gmap string string)) !! k = None) as Hn.
  { intros k Hk. rewrite lookup_insert_ne by done. apply lookup_empty. }
  rewrite !Hn; [done| |]; intros Heq%(f_equal (fun s => String.get 1 s)); by vm_compute in Heq.
Qed.

Lemma grant_families_never_disagree_witness : families_agree (contents acl1).
Proof.
  apply (grant_families_never_disagree (demo_acl_cmd p_share) acl0 acl1 (Ok tt)).
  - apply acl0_agree.
  - vm_compute. reflexivity.
Defined.

Lemma revocation_is_complete_witness :
  exists s', ApplyACLCommand (demo_acl_cmd p_revoke) acl0 = (s', Ok tt) /\
    contents s' !! ACLKey "calendar" "ann" "c1" "bob" = None.
Proof.
  destruct (revocation_is_complete acl0 p_revoke (demo_acl_bytes p_revoke) tt) as (s'&Hrun&Hall).
  - split_and!; reflexivity.
  - apply acl0_agree.
  - vm_compute. reflexivity.
  - vm_compute. reflexivity.
  - right. left.
  - exists s'. split; [exact Hrun|].
    apply (Hall (mkGrantRef "calendar" "ann" "c1" "bob")). split_and!; [reflexivity|discriminate..].
Defined.

Lemma access_needs_accepted_grant_witness :
  exists cal v gr, contents acl2 !! ACLKey ACLKindCalendar "ann" cal "bob" = Some v /\ unmarshal v = Ok gr /\
    gr_State gr = GrantStateAccepted.
Proof.
  destruct (access_needs_accepted_grant acl2 "ann" "bob" "read") as (need&cal&v&gr&_&Hv&Hd&Hs&_).
  - vm_compute. reflexivity.
  - exists cal, v, gr. exact (conj Hv (conj Hd Hs)).
Defined.

Lemma accept_needs_live_pending_grant_witness :
  contents acl2 = contents acl1 \/
  exists prev g v, contents acl1 !! forwardKey (pl_ref p_accept) = Some prev /\ unmarshal prev = Ok g /\
    gr_State g = GrantStatePending /\ PendingGrantExpired g (pl_At p_accept) = false /\
    unmarshal v = Ok (mkGrant (gr_Level g) (gr_Rights g) GrantStateAccepted (gr_GrantedBy g) (gr_CreatedAt g) (pl_At p_accept)) /\
    contents acl2 = <[forwardKey (pl_ref p_accept) := v]> (contents acl1).
Proof.
  apply (accept_needs_live_pending_grant (demo_acl_cmd p_accept) p_accept acl1 acl2 (Ok tt)).
  - vm_compute. reflexivity.
  - reflexivity.
  - vm_compute. reflexivity.
Defined.

End Demo.
