(* ===== verification/Notify.v ===== *)
(** Mailbox notifications: [internal/store/mailbox_notify.go].

    The events a command implies, computed from the state before it and the
    result after it; the sink is fire-and-forget, so the model returns the
    events that are published. *)

From S2P Require Import Prelude GoStrings Pebble Proto Mailbox MailboxInv.
From Stdlib Require Import Ascii.

Inductive MailboxEvent :=
| NotifyNewMail (userID mailbox : string) (uid existsCount : Z)
| NotifyFlagChange (userID mailbox : string) (uid flags : Z)
| NotifyExpunge (userID mailbox : string) (uid : Z).

(** [strings.LastIndex(s, sep)], as the parts around it. *)
Fixpoint CutLastStr (s sep : string) : option (string * string) :=
  match s with
  | "" => None
  | String c s' =>
      match CutLastStr s' sep with
      | Some (a, b) => Some (String c a, b)
      | None => if String.prefix sep s then Some ("", str_drop (String.length sep) s) else None
      end
  end.

(** [strconv.ParseUint(s, 10, 32)]. *)
Definition ParseUint32 (s : string) : option Z :=
  match parse_nat s with Some n => if n <? 2 ^ 32 then Some n else None | None => None end.

Definition parseMailboxMsgKey (key : string) : option (string * string * Z) :=
  if negb (HasPrefix key "/user/") then None else
  match Cut (TrimPrefix key "/user/") "/" with
  | None => None
  | Some (userID, rest) =>
      if String.eqb userID "" then None else
      if negb (HasPrefix rest "mailbox/") then None else
      match CutLastStr (TrimPrefix rest "mailbox/") "/msg/" with
      | None => None
      | Some (mailbox, num) =>
          if String.eqb mailbox "" then None else
          match ParseUint32 num with
          | None => None
          | Some n => Some (userID, mailbox, n)
          end
      end
  end.

Record PendingNotify := mkPending {
  pn_notifier : bool;            (* a sink is installed *)
  pn_cmd : RaftCommand;
  pn_prevFlags : option Z }.     (* the flags the command replaces *)

Section Notify.
Context {DB : Type} `{PebbleDB DB} `{MailCodecs}.
Implicit Types ps : DB.

Definition PrepareNotify ps (n : bool) (cmd : RaftCommand) : PendingNotify :=
  if negb n || negb (bool_decide (cmd_Op cmd = OP_PUT)) then mkPending n cmd None else
  match parseMailboxMsgKey (cmd_Key cmd) with
  | None => mkPending n cmd None
  | Some (userID, mailbox, uid) =>
      match readMailboxMessage ps userID mailbox uid with
      | Err _ => mkPending n cmd None
      | Ok prev => mkPending n cmd (Some (msg_Flags prev))
      end
  end.

(** A failed scan counts zero. *)
Definition countMessages ps (userID mailbox : string) : Z :=
  match PrefixScan ps (mailboxMsgPrefix userID mailbox) with
  | Err _ => 0
  | Ok l => u32 (Z.of_nat (length l))
  end.

Definition emitArrival ps (ref : MailboxMessageRef) : MailboxEvent :=
  NotifyNewMail (ref_UserID ref) (ref_Mailbox ref) (ref_UID ref) (countMessages ps (ref_UserID ref) (ref_Mailbox ref)).

(** [ps] is the store after the command. *)
Definition Emit (p : PendingNotify) ps (result : option MailboxCommandResult) : list MailboxEvent :=
  if negb (pn_notifier p) then [] else
  match result with
  | Some r =>
      ((fun ref => NotifyExpunge (ref_UserID ref) (ref_Mailbox ref) (ref_UID ref)) <$> cr_Expunged r) ++
      match cr_NewMail r with
      | Some nm => [emitArrival ps (mkRef (nm_UserID nm) (nm_Mailbox nm) (nm_UID nm))]
      | None => []
      end ++
      (emitArrival ps <$> cr_Arrivals r)
  | None =>
      match parseMailboxMsgKey (cmd_Key (pn_cmd p)) with
      | None => []
      | Some (userID, mailbox, uid) =>
          match cmd_Op (pn_cmd p) with
          | OP_DELETE => [NotifyExpunge userID mailbox uid]
          | OP_PUT =>
              match pn_prevFlags p with
              | None => []
              | Some prevFlags =>
                  match unmarshal (cmd_Value (pn_cmd p)) with
                  | Err _ => []
                  | Ok msg => if msg_Flags msg =? prevFlags then [] else [NotifyFlagChange userID mailbox uid (msg_Flags msg)]
                  end
              end
          | OP_UNSPECIFIED => []
          end
      end
  end.

End Notify.

(** * Theorems *)

Lemma parse_digits_fixed w z s acc :
  0 <= z < 10 ^ Z.of_nat w -> parse_digits (dec_fixed w z s) acc = parse_digits s (acc * 10 ^ Z.of_nat w + z).
Proof.
  revert z s acc. induction w as [|w IH]; intros z s acc Hz.
  - cbn in *. f_equal. lia.
  - replace (Z.of_nat (S w)) with (1 + Z.of_nat w) in * by lia. rewrite Z.pow_add_r in * by lia.
    cbn [dec_fixed]. pose proof (Z.mod_pos_bound z 10). rewrite IH.
    2: { split; [apply Z.div_pos; lia|]. apply Z.div_lt_upper_bound; lia. }
    cbn [parse_digits]. unfold is_digit, in_range, digit. rewrite byte_char by lia.
    rewrite !(proj2 (Z.leb_le _ _)) by lia. cbn [andb]. f_equal.
    pose proof (Z.div_mod z 10). nia.
Qed.

Lemma ParseUint32_fmt uid : in_u32 uid -> ParseUint32 (fmt_0d 10 uid) = Some uid.
Proof.
  intros Hd. pose proof (u32_fits _ Hd) as Hf. unfold ParseUint32, parse_nat.
  rewrite fmt_0d_fixed by (lia || done). pose proof (parse_digits_fixed 10 uid "" 0 Hf) as Hp.
  destruct (dec_fixed 10 uid "") eqn:E.
  { destruct (dec_fixed_last 10 uid) as (d&_&Hl); [lia..|]. by rewrite E in Hl. }
  rewrite Hp. cbn. rewrite (proj2 (Z.ltb_lt _ _)) by (apply Hd). done.
Qed.

Lemma CutLastStr_none t : has_char "/" t = false -> CutLastStr t "/msg/" = None.
Proof.
  induction t as [|c t IH]; [done|]. rewrite has_char_cons. intros [Hc Ht]%orb_false_iff.
  cbn [CutLastStr]. rewrite IH by done.
  destruct (String.prefix "/msg/" (String c t)) eqn:E; [|done].
  apply prefix_spec in E as [r E]. change ("/msg/" +:+ r) with (String "/" ("msg/" +:+ r)) in E.
  injection E as -> _. by rewrite Ascii.eqb_refl in Hc.
Qed.

Lemma digits_no_slash uid : in_u32 uid -> has_char "/" (fmt_0d 10 uid) = false.
Proof.
  intros Hd. pose proof (u32_fits _ Hd) as Hf. rewrite fmt_0d_fixed by (lia || done).
  assert (forall w z s, has_char "/" s = false -> has_char "/" (dec_fixed w z s) = false) as Hgen.
  { induction w as [|w IH]; intros z s Hs; [done|]. cbn. apply IH. rewrite has_char_cons, Hs, orb_false_r.
    apply Ascii.eqb_neq. intros Heq%(f_equal byte_of). unfold digit in Heq. change (byte_of "/") with 47 in Heq.
    pose proof (Z.mod_pos_bound z 10). rewrite byte_char in Heq; lia. }
  by apply Hgen.
Qed.

Lemma CutLastStr_msg a d : has_char "/" d = false -> CutLastStr (a +:+ "/msg/" +:+ d) "/msg/" = Some (a, d).
Proof.
  intros Hd. induction a as [|c a IH].
  - rewrite app_nil_l'. change ("/msg/" +:+ d) with (String "/" ("msg/" +:+ d)). cbn [CutLastStr].
    assert (CutLastStr ("msg/" +:+ d) "/msg/" = None) as ->.
    { change ("msg/" +:+ d) with (String "m" (String "s" (String "g" (String "/" d)))). cbn [CutLastStr].
      rewrite CutLastStr_none by done.
      destruct (String.prefix "/msg/" (String "/" d)) eqn:E; [|done].
      apply prefix_spec in E as [r E]. change ("/msg/" +:+ r) with (String "/" ("msg/" +:+ r)) in E.
      injection E as ->. by rewrite has_char_app in Hd. }
    change (String "/" ("msg/" +:+ d)) with ("/msg/" +:+ d). by rewrite prefix_app, str_drop_app.
  - rewrite app_cons'. cbn [CutLastStr]. by rewrite IH.
Qed.

Lemma parse_msgKey u m uid :
  safe u -> u <> "" -> m <> "" -> in_u32 uid -> parseMailboxMsgKey (mailboxMsgKey u m uid) = Some (u, m, uid).
Proof.
  intros Hu Hu0 Hm0 Hd. unfold parseMailboxMsgKey, mailboxMsgKey.
  replace (HasPrefix ("/user/" +:+ _) "/user/") with true by (symmetry; apply prefix_app). cbn [negb].
  rewrite TrimPrefix_app. change ("/mailbox/" +:+ ?x) with ("/" +:+ "mailbox/" +:+ x). rewrite Cut_char by done.
  destruct (String.eqb_spec u ""); [done|].
  replace (HasPrefix ("mailbox/" +:+ _) "mailbox/") with true by (symmetry; apply prefix_app). cbn [negb].
  rewrite TrimPrefix_app, CutLastStr_msg by (by apply digits_no_slash).
  destruct (String.eqb_spec m ""); [done|]. by rewrite ParseUint32_fmt.
Qed.

(** Message keys parse back: the key of a message yields its user, mailbox
    and UID, also when the mailbox name itself contains "msg" or slashes. *)
Theorem message_key_roundtrip u m uid :
  safe u -> u <> "" -> m <> "" -> in_u32 uid -> parseMailboxMsgKey (mailboxMsgKey u m uid) = Some (u, m, uid).
Proof. apply parse_msgKey. Qed.

Lemma message_key_roundtrip_witness :
  parseMailboxMsgKey (mailboxMsgKey "u1" "msg/msg/0000000001" 7) = Some ("u1", "msg/msg/0000000001", 7).
Proof. apply (message_key_roundtrip "u1" "msg/msg/0000000001" 7); [reflexivity|discriminate|discriminate|unfold in_u32; lia]. Defined.
