(* ===== verification/QueueCommand.v ===== *)
(** The synthetic queue-move command: [internal/store/queuecommand.go]. *)

From S2P Require Import Prelude GoStrings Pebble Proto.
From Stdlib Require Import Ascii.

Definition queueMovePrefix : string := "/__queue_move__/".

Section QueueCommand.
Context {DB : Type} `{PebbleDB DB} `{Codec queueMovePayload}.

Definition BuildQueueMoveCommand (id oldKey newKey value : string) : result RaftCommand :=
  if String.eqb id "" then Err (Errorf "queue move requires a message id") else
  if String.eqb newKey "" then Err (Errorf "queue move requires a new key") else
  let? payload := wrapf "marshaling queue move payload" (marshal (mkQueueMove oldKey newKey value)) in
  Ok (mkCmd OP_PUT (queueMovePrefix +:+ id) payload).

Definition IsQueueSyntheticCommand (key : string) : bool := HasPrefix key queueMovePrefix.

Definition ApplyQueueCommand (cmd : RaftCommand) : GoM DB unit :=
  if negb (IsQueueSyntheticCommand (cmd_Key cmd)) then gfail (Errorf "not a synthetic queue command") else
  let! payload := glift (wrapf "parsing queue move payload" (unmarshal (cmd_Value cmd))) in
  if String.eqb (qm_NewKey payload) "" then gfail (Errorf "queue move payload missing new key") else
  commitSyncBatch (Ok ((if String.eqb (qm_OldKey payload) "" then [] else [BDelete (qm_OldKey payload)])
                       ++ [BSet (qm_NewKey payload) (qm_Value payload)])).

End QueueCommand.

(** * Theorems *)

(** The store after a move. *)
Definition moved (p : queueMovePayload) (c : gmap string string) : gmap string string :=
  <[qm_NewKey p := qm_Value p]> (if String.eqb (qm_OldKey p) "" then c else delete (qm_OldKey p) c).

Section QueueMoveThm.
Context {DB : Type} `{PebbleLaws DB} `{JsonLaws queueMovePayload}.
Implicit Types s : DB.

Lemma queue_move_Ok cmd s s' u :
  ApplyQueueCommand cmd s = (s', Ok u) ->
  exists p, unmarshal (cmd_Value cmd) = Ok p /\ contents s' = moved p (contents s).
Proof.
  unfold ApplyQueueCommand, moved. destruct (IsQueueSyntheticCommand _); [|done]. cbn [negb]. intros Hr.
  apply gbind_Ok in Hr as (s1&p&Hp&Hr). unfold glift in Hp. injection Hp as <- Hp%wrapf_Ok.
  destruct (String.eqb (qm_NewKey p) ""); [done|]. apply commitSyncBatch_Ok in Hr as (b&[= <-]&Hc).
  exists p. split; [done|]. rewrite Hc. by destruct (String.eqb (qm_OldKey p) "").
Qed.

Lemma queue_move_Err cmd s s' e : ApplyQueueCommand cmd s = (s', Err e) -> contents s' = contents s.
Proof.
  unfold ApplyQueueCommand. destruct (IsQueueSyntheticCommand _); cbn [negb]; [|by intros [= <-]].
  intros [Hr|(s1&p&Hp&Hr)]%gbind_Err; unfold glift in *; simplify_eq; [done|].
  destruct (String.eqb (qm_NewKey p) ""); [unfold gfail in Hr; by simplify_eq|]. by eapply commitSyncBatch_Err.
Qed.

Lemma queue_move_succeeds cmd p s :
  healthy s -> IsQueueSyntheticCommand (cmd_Key cmd) = true -> unmarshal (cmd_Value cmd) = Ok p -> qm_NewKey p <> "" ->
  exists s', ApplyQueueCommand cmd s = (s', Ok tt) /\ healthy s' /\ contents s' = moved p (contents s).
Proof.
  intros Hs Hk Hp Hn%String.eqb_neq. unfold ApplyQueueCommand, gbind, glift. rewrite Hk, Hp. cbn [negb wrapf]. rewrite Hn.
  match goal with |- context [commitSyncBatch (Ok ?b)] => destruct (commitSyncBatch_healthy s b Hs) as (s'&Hr&Hs'&Hc) end.
  exists s'. split_and!; [done..|]. rewrite Hc. unfold moved. by destruct (String.eqb (qm_OldKey p) "").
Qed.

Lemma queue_move_healthy s id old new v payload :
  healthy s -> new <> "" -> marshal (mkQueueMove old new v) = Ok payload -> json_clean (mkQueueMove old new v) ->
  exists s', ApplyQueueCommand (mkCmd OP_PUT (queueMovePrefix +:+ id) payload) s = (s', Ok tt) /\ healthy s' /\
    contents s' = moved (mkQueueMove old new v) (contents s).
Proof. intros Hs Hn Hm Hcl. apply queue_move_succeeds; [done|apply prefix_app|by apply json_roundtrip|done]. Qed.

(** A queue transition is atomic: if it succeeds the message is at its new
    key, and gone from the old one unless the two coincide; if it fails, for
    whatever reason, the store is as it was. The message is never at neither
    key, and no other key changes. *)
Theorem queue_move_never_loses cmd s s' r :
  ApplyQueueCommand cmd s = (s', r) ->
  match r with
  | Ok _ => exists p, unmarshal (cmd_Value cmd) = Ok p /\
      contents s' !! qm_NewKey p = Some (qm_Value p) /\
      (qm_OldKey p <> "" -> qm_OldKey p <> qm_NewKey p -> contents s' !! qm_OldKey p = None) /\
      (forall k, k <> qm_NewKey p -> k <> qm_OldKey p -> contents s' !! k = contents s !! k)
  | Err _ => contents s' = contents s
  end.
Proof.
  destruct r as [u|e]; intros Hr; [|by eapply queue_move_Err].
  apply queue_move_Ok in Hr as (p&Hp&->). exists p. unfold moved. split_and!; [done|apply lookup_insert_eq| |].
  - intros Ho Hne. rewrite lookup_insert_ne by done. destruct (String.eqb_spec (qm_OldKey p) ""); [done|].
    apply lookup_delete_eq.
  - intros k Hn Ho. rewrite lookup_insert_ne by done. destruct (String.eqb_spec (qm_OldKey p) ""); [done|].
    by apply lookup_delete_ne.
Qed.

End QueueMoveThm.

Section Demo.
#[local] Instance demo_move_codec : Codec queueMovePayload := json_codec (fun _ => True).
#[local] Instance demo_move_laws : JsonLaws queueMovePayload := json_laws _.

Definition demo_queue : MemDB := mem_of [("/queue/pending/1-a", "m")].
Definition demo_move_cmd : RaftCommand := mkCmd OP_PUT (queueMovePrefix +:+ "a")
  (match marshal (mkQueueMove "/queue/pending/1-a" "/queue/pending/2-a" "m2") with Ok v => v | Err _ => "" end).

Lemma queue_move_never_loses_witness :
  exists p, unmarshal (cmd_Value demo_move_cmd) = Ok p /\
    contents (ApplyQueueCommand demo_move_cmd demo_queue).1 !! qm_NewKey p = Some (qm_Value p).
Proof.
  destruct (queue_move_never_loses demo_move_cmd demo_queue (ApplyQueueCommand demo_move_cmd demo_queue).1 (Ok tt))
    as (p&Hp&Hn&_).
  - vm_compute. reflexivity.
  - exists p. exact (conj Hp Hn).
Defined.
End Demo.
