(* ===== verification/AttSplit.v ===== *)
(** Splitting a raw message into a skeleton and attachment blobs:
    [internal/attsplit/attsplit.go] and [internal/store/rawmessage.go].

    A slice expression out of range panics in Go: [slice] and [byte_at] return
    [None] there, and so do the functions that use them.  Header parsing
    ([net/textproto], [mime]) is the class [MimeHeaders]; nothing is assumed of
    it.  Positions are byte offsets. *)

From S2P Require Import Prelude GoStrings Pebble Proto.
From Stdlib Require Import Ascii.

Definition LF : ascii := char_of 10.
Definition CR : ascii := char_of 13.
Definition CRLF2 : string := String CR (String LF (String CR (String LF ""))).

(** [raw[i:j]] and [raw[i]]. *)
Definition slice (raw : string) (i j : nat) : option string :=
  if (i <=? j)%nat && (j <=? String.length raw)%nat then Some (str_take (j - i) (str_drop i raw)) else None.
Definition byte_at (raw : string) (i : nat) : option ascii := String.get i raw.
Definition byte_is (raw : string) (i : nat) (c : ascii) : option bool := (fun b => Ascii.eqb b c) <$> byte_at raw i.

(** [bytes.Index] for a non-empty separator, and [bytes.IndexByte]. *)
Definition Index (s sep : string) : option nat := (fun p => String.length p.1) <$> Cut s sep.
Definition IndexByte (s : string) (c : ascii) : option nat := Index s (String c "").

(** The parts of a media type header that the walk looks at. *)
Record PartHeaders := mkPartHeaders {
  ph_type : string; ph_boundary : string; ph_name : string; ph_disposition : string; ph_filename : string }.
Class MimeHeaders := {
  (** media type and boundary of the Content-Type of a header block *)
  parseContentType : string -> string * string;
  parsePartHeaders : string -> PartHeaders;
}.

Record Part := mkPart { pt_Hash : string; pt_ContentType : string; pt_Filename : string; pt_Encoded : string; pt_Size : Z }.
Inductive piece := Literal (bytes : string) | Att (idx : nat).
Record Skeleton := mkSkeleton { sk_pieces : list piece; sk_Parts : list Part }.
Record span := mkSpan { sp_start : nat; sp_end : nat; sp_ct : string; sp_name : string }.
Record walk := mkWalk { w_delims : nat; w_over : bool }.

(** [mimesafe.MaxDepth] and [mimesafe.MaxParts]. *)
Definition MaxDepth : nat := 16.
Definition MaxParts : nat := 1000.

(** [Skeleton.Reconstruct]: an attachment index out of range would panic. *)
Fixpoint reconstruct (parts : list Part) (ps : list piece) : option string :=
  match ps with
  | [] => Some ""
  | p :: ps' =>
      b ← match p with Literal b => Some b | Att i => pt_Encoded <$> parts !! i end;
      r ← reconstruct parts ps'; Some (b +:+ r)
  end.
Definition Reconstruct (s : Skeleton) : option string := reconstruct (sk_Parts s) (sk_pieces s).

Inductive Segment := SegLiteral (length : nat) | SegAttachment (idx : nat).
Fixpoint layout (ps : list piece) : string * list Segment :=
  match ps with
  | [] => ("", [])
  | p :: ps' =>
      let (sk, segs) := layout ps' in
      match p with
      | Literal b => (b +:+ sk, SegLiteral (String.length b) :: segs)
      | Att i => (sk, SegAttachment i :: segs)
      end
  end.
Definition Layout (s : Skeleton) : string * list Segment := layout (sk_pieces s).

Fixpoint skeleton_size (ps : list piece) : nat :=
  match ps with [] => 0 | Literal b :: ps' => String.length b + skeleton_size ps' | Att _ :: ps' => skeleton_size ps' end%nat.
Definition SkeletonSize (s : Skeleton) : nat := skeleton_size (sk_pieces s).

(** * The walk *)

(** The delimiter lines of a region.  Every iteration moves [i] forward, so
    [fuel] beyond the length of the region is never used up. *)
Fixpoint find_delims (fuel : nat) (raw : string) (bs be : nat) (dashB : string) (i : nat) (w : walk)
  : option (list nat * walk) :=
  match fuel with
  | O => Some ([], w)
  | S fuel' =>
      if (be <=? i)%nat then Some ([], w) else
      s ← slice raw i be;
      match Index s dashB with
      | None => Some ([], w)
      | Some j =>
          let p := (i + j)%nat in
          match (if (p =? bs)%nat then Some true
                 else if (p =? 0)%nat then None else byte_is raw (p - 1) LF) with
          | None => None
          | Some at_line =>
              let w' := if at_line then mkWalk (S (w_delims w)) (MaxParts <? S (w_delims w))%nat else w in
              if w_over w' then Some ([], w') else
              t ← slice raw p be;
              match IndexByte t LF with
              | None => Some (if at_line then [p] else [], w')
              | Some nl =>
                  '(l, w'') ← find_delims fuel' raw bs be dashB (p + nl + 1) w';
                  Some (if at_line then p :: l else l, w'')
              end
          end
      end
  end.

(** The line end before a delimiter belongs to the delimiter. *)
Definition body_end (raw : string) (partStart be : nat) : option nat :=
  match (if (partStart + 2 <=? be)%nat then
           match byte_is raw (be - 2) CR with Some true => byte_is raw (be - 1) LF | o => o end
         else Some false) with
  | None => None
  | Some true => Some (be - 2)%nat
  | Some false =>
      match (if (partStart + 1 <=? be)%nat then byte_is raw (be - 1) LF else Some false) with
      | None => None
      | Some true => Some (be - 1)%nat
      | Some false => Some be
      end
  end.

Section Walk.
Context `{MimeHeaders} `{GoUnicode}.

(** One iteration of the loop over the parts between consecutive delimiters
    [d] and [d']; [nested] is the recursive call on a nested multipart and
    [next] the rest of the loop. *)
Definition collect_part (nested : nat -> nat -> string -> walk -> option (list span * walk))
  (raw : string) (be : nat) (minSize : Z) (d d' : nat) (next : walk -> option (list span * walk)) (w : walk)
  : option (list span * walk) :=
  s ← slice raw d be;
  match IndexByte s LF with
  | None => next w
  | Some nl =>
      let partStart := (d + nl + 1)%nat in
      bodyEnd ← body_end raw partStart d';
      if (bodyEnd <=? partStart)%nat then next w else
      t ← slice raw partStart bodyEnd;
      match Index t CRLF2 with
      | None => next w
      | Some hi =>
          let partBodyStart := (partStart + hi + 4)%nat in
          hdr ← slice raw partStart partBodyStart;
          let h := parsePartHeaders hdr in
          if HasPrefix (ph_type h) "multipart/" && negb (String.eqb (ph_boundary h) "") then
            '(l1, w1) ← nested partBodyStart bodyEnd (ph_boundary h) w;
            if w_over w1 then Some (l1, w1) else
            '(l2, w2) ← next w1;
            Some (l1 ++ l2, w2)
          else
            let name := if String.eqb (ph_filename h) "" then ph_name h else ph_filename h in
            let isAttachment := EqualFold (ph_disposition h) "attachment" || negb (String.eqb name "") in
            '(l2, w2) ← next w;
            if isAttachment && (minSize <=? Z.of_nat bodyEnd - Z.of_nat partBodyStart)
            then Some (mkSpan partBodyStart bodyEnd (ph_type h) name :: l2, w2)
            else Some (l2, w2)
      end
  end.

Fixpoint collect_parts (nested : nat -> nat -> string -> walk -> option (list span * walk))
  (raw : string) (be : nat) (minSize : Z) (delims : list nat) (w : walk) : option (list span * walk) :=
  match delims with
  | d :: ((d' :: _) as rest) =>
      collect_part nested raw be minSize d d' (collect_parts nested raw be minSize rest) w
  | _ => Some ([], w)
  end.

(** [collect] at nesting level [MaxDepth + 1 - depth]. *)
Fixpoint collect (depth : nat) (raw : string) (minSize : Z) (bs be : nat) (boundary : string) (w : walk)
  : option (list span * walk) :=
  if w_over w then Some ([], w) else
  match depth with
  | O => Some ([], mkWalk (w_delims w) true)
  | S depth' =>
      '(delims, w1) ← find_delims (S (String.length raw)) raw bs be ("--" +:+ boundary) bs w;
      if w_over w1 then Some ([], w1) else
      collect_parts (collect depth' raw minSize) raw be minSize delims w1
  end.

Definition topHeaders (raw : string) : option (nat * string) :=
  match Index raw CRLF2 with
  | None => None
  | Some i => (fun h => ((i + 4)%nat, h)) <$> slice raw 0 (i + 4)
  end.

Definition span_less (a b : span) : bool := (sp_start a <? sp_start b)%nat.

Definition find_spans (raw : string) (minSize : Z) : option (list span) :=
  match topHeaders raw with
  | None => Some []
  | Some (bodyStart, hdr) =>
      let (mt, boundary) := parseContentType hdr in
      if HasPrefix mt "multipart/" && negb (String.eqb boundary "") then
        '(l, w) ← collect MaxDepth raw minSize bodyStart (String.length raw) boundary (mkWalk 0 false);
        Some (if w_over w then [] else l)
      else Some []
  end.

(** Cut [raw] at the spans; [n] parts have been extracted before. *)
Fixpoint cut_spans (sha : string -> string) (raw : string) (pos n : nat) (spans : list span)
  : option (list piece * list Part) :=
  match spans with
  | [] => if (pos <? String.length raw)%nat then b ← slice raw pos (String.length raw); Some ([Literal b], []) else Some ([], [])
  | sp :: spans' =>
      if (sp_start sp <? pos)%nat then cut_spans sha raw pos n spans' else
      lit ← (if (pos <? sp_start sp)%nat then b ← slice raw pos (sp_start sp); Some [Literal b] else Some []);
      enc ← slice raw (sp_start sp) (sp_end sp);
      '(ps, parts) ← cut_spans sha raw (sp_end sp) (S n) spans';
      Some (lit ++ Att n :: ps,
            mkPart (sha enc) (sp_ct sp) (sp_name sp) enc (Z.of_nat (String.length enc)) :: parts)
  end.

Definition Split_message (sha : string -> string) (raw : string) (minSize : Z) : option Skeleton :=
  spans ← find_spans raw minSize;
  '(ps, parts) ← cut_spans sha raw 0 0 (SliceStable span_less spans);
  Some (mkSkeleton (match ps with [] => [Literal raw] | _ => ps end) parts).

End Walk.

(** * Storage form *)

Record SplitMessage := mkSplit {
  sm_Skeleton : string; sm_Layout : list MessageSegment; sm_Attachments : list BlobRef; sm_Encoded : list string }.

Definition segment_proto (s : Segment) : MessageSegment :=
  match s with
  | SegAttachment i => mkSegment ATTACHMENT 0 (i32 (Z.of_nat i))
  | SegLiteral n => mkSegment LITERAL (Z.of_nat n) 0
  end.
Definition part_ref (p : Part) : BlobRef := mkBlobRef (pt_Hash p) (pt_Size p) (pt_ContentType p) (pt_Filename p).

(** [checked] is the outcome of [mimesafe.Check]; [Some None] is the nil result. *)
Definition PrepareSplit `{MimeHeaders} `{GoUnicode} (sha : string -> string) (checked : string -> bool)
  (raw : string) (minSize : Z) : option (option SplitMessage) :=
  if minSize <=? 0 then Some None else
  if negb (checked raw) then Some None else
  sk ← Split_message sha raw minSize;
  match sk_Parts sk with
  | [] => Some None
  | parts =>
      let (skeleton, segs) := Layout sk in
      Some (Some (mkSplit skeleton (segment_proto <$> segs) (part_ref <$> parts) (pt_Encoded <$> parts)))
  end.

(** The loop of [FullRawMessage] over the layout, with its attachment cache. *)
Fixpoint assemble (get : string -> result string) (atts : list BlobRef) (skeleton : string)
  (cache : gmap Z string) (off : nat) (i : Z) (segs : list MessageSegment) : result (string * nat) :=
  match segs with
  | [] => Ok ("", off)
  | seg :: segs' =>
      match seg_Kind seg with
      | LITERAL =>
          let n := seg_Length seg in
          if (n <? 0) || (Z.of_nat (String.length skeleton) <? i64 (Z.of_nat off + n))
          then Err (Errorf ("full raw message: literal segment " +:+ FormatInt i +:+ " out of skeleton range")) else
          let? (r, off') := assemble get atts skeleton cache (off + Z.to_nat n) (i + 1) segs' in
          Ok (str_take (Z.to_nat n) (str_drop off skeleton) +:+ r, off')
      | ATTACHMENT =>
          let idx := seg_AttachmentIndex seg in
          if (idx <? 0) || (Z.of_nat (length atts) <=? idx)
          then Err (Errorf ("full raw message: attachment index " +:+ FormatInt idx +:+ " out of range")) else
          let? b := match cache !! idx with
                    | Some b => Ok b
                    | None =>
                        match atts !! Z.to_nat idx with
                        | Some ref => wrapf ("full raw message: attachment " +:+ FormatInt idx) (get (br_Hash ref))
                        | None => Err (Errorf "unreachable")
                        end
                    end in
          let? (r, off') := assemble get atts skeleton (<[idx := b]> cache) off (i + 1) segs' in
          Ok (b +:+ r, off')
      | KIND_UNSPECIFIED => Err (Errorf ("full raw message: unknown segment kind KIND_UNSPECIFIED at " +:+ FormatInt i))
      end
  end.

Definition FullRawMessage (meta : MailMeta) (get : string -> result string) : result string :=
  match mm_RawMessage meta with
  | None => Err (Errorf "full raw message: missing raw_message reference")
  | Some ref =>
      if Nat.eqb (length (mm_Layout meta)) 0 then get (br_Hash ref) else
      let? skeleton := wrapf "full raw message: skeleton blob" (get (br_Hash ref)) in
      let? (out, off) := assemble get (mm_Attachments meta) skeleton ∅ 0 0 (mm_Layout meta) in
      if negb (Nat.eqb off (String.length skeleton))
      then Err (Errorf ("full raw message: skeleton not fully consumed (" +:+ FormatInt (Z.of_nat off) +:+ " of " +:+
                        FormatInt (Z.of_nat (String.length skeleton)) +:+ " bytes)"))
      else Ok out
  end.

(** * Storing *)

(** The content-addressed blob store, file I/O in the source: [Put] returns the
    hash, [Get] is opening and reading a blob to its end. *)
Class BlobOps (B : Type) := {
  blob_Put : string -> GoM B string;
  blob_Exists : B -> string -> bool;
  blob_Get : B -> string -> result string;
}.

Record SplitStored := mkStored {
  ss_SkeletonHash : string; ss_Attachments : list BlobRef; ss_Layout : list MessageSegment;
  ss_BlobsWritten : Z; ss_BlobsDeduped : Z; ss_BytesSaved : Z }.

Section Stored.
Context {B : Type} `{BlobOps B} `{MimeHeaders} `{GoUnicode}.

Definition RawMessageBytes (bs : B) (meta : MailMeta) : result string := FullRawMessage meta (blob_Get bs).

(** A metadata record that only refers to the blobs. *)
Definition split_meta (hash : string) (atts : list BlobRef) (layout : list MessageSegment) : MailMeta :=
  mkMailMeta "" "" "" "" [] 0 (Some (mkBlobRef hash 0 "" "")) atts "" 0 "" "" [] 0 "" "" "" "" [] layout "" "" "".

(** Store the encoded parts, counting writes, duplicates and bytes saved. *)
Fixpoint put_parts (l : list (BlobRef * string)) (written deduped saved : Z) : GoM B (Z * Z * Z) :=
  match l with
  | [] => gret (written, deduped, saved)
  | (att, enc) :: l' => fun bs =>
      let '(wr, de, sa) := if blob_Exists bs (br_Hash att) then (written, deduped + 1, i64 (saved + len enc))
                           else (written + 1, deduped, saved) in
      (let! _ := gwrap "store attachment blob" (blob_Put enc) in put_parts l' wr de sa) bs
  end.

Definition StoreSplit (sha : string -> string) (checked : string -> bool) (raw : string) (minSize : Z)
  (bs : B) : option (B * result (option SplitStored)) :=
  o ← PrepareSplit sha checked raw minSize;
  Some match o with
  | None => (bs, Ok None)
  | Some sm =>
      (let! skeletonHash := gwrap "store skeleton" (blob_Put (sm_Skeleton sm)) in
       let! (w, d, saved) := put_parts (zip (sm_Attachments sm) (sm_Encoded sm)) 0 0 0 in
       let! got := gread (fun bs => wrapf "split self-check read"
                     (RawMessageBytes bs (split_meta skeletonHash (sm_Attachments sm) (sm_Layout sm)))) in
       if negb (String.eqb got raw) then gfail (Errorf "split self-check: reconstruction is not byte-exact") else
       gret (Some (mkStored skeletonHash (sm_Attachments sm) (sm_Layout sm) w d saved))) bs
  end.
End Stored.
