(* ===== verification/AttSplitThm.v ===== *)
(** Splitting never panics and is byte-exact. *)

From S2P Require Import Prelude GoStrings Pebble Proto AttSplit.
From Stdlib Require Import Ascii.

(** * Slices *)

Lemma slice_Some raw i j :
  (i <= j)%nat -> (j <= String.length raw)%nat -> exists s, slice raw i j = Some s /\ String.length s = (j - i)%nat /\
  str_drop i raw = s +:+ str_drop j raw.
Proof.
  intros Hij Hj. unfold slice. rewrite !(proj2 (Nat.leb_le _ _)) by done. cbn [andb]. eexists. split; [done|]. split.
  - rewrite str_take_length, str_drop_length. lia.
  - rewrite <- (str_take_drop (j - i) (str_drop i raw)) at 1. rewrite str_drop_drop. do 2 f_equal. lia.
Qed.
Lemma slice_inv raw i j s : slice raw i j = Some s -> (i <= j)%nat /\ (j <= String.length raw)%nat.
Proof. unfold slice. destruct (_ && _) eqn:E; [|done]. apply andb_true_iff in E as [?%Nat.leb_le ?%Nat.leb_le]. done. Qed.
Lemma slice_tail raw i : (i <= String.length raw)%nat -> slice raw i (String.length raw) = Some (str_drop i raw).
Proof.
  intros Hi. destruct (slice_Some raw i (String.length raw)) as (s&Hs&_&Hd); [done..|].
  rewrite Hs, Hd, (str_drop_all (String.length raw)) by done. by rewrite str_app_nil_r.
Qed.

Lemma byte_is_Some raw i c : (i < String.length raw)%nat -> exists b, byte_is raw i c = Some b.
Proof.
  unfold byte_is, byte_at. revert i. induction raw as [|d raw IH]; intros i Hi; cbn in Hi; [lia|].
  destruct i as [|i]; [cbn; eauto|]. apply (IH i). lia.
Qed.

Lemma Index_bound s sep j : Index s sep = Some j -> (j + String.length sep <= String.length s)%nat.
Proof.
  unfold Index. destruct (Cut s sep) as [[a b]|] eqn:E; [|done]. intros [= <-].
  apply Cut_Some in E as ->. rewrite !str_length_app. cbn. lia.
Qed.

(** * Delimiters *)

(** The part after delimiter [d] starts at or before the next delimiter. *)
Definition line_before (raw : string) (be d d' : nat) : Prop :=
  exists s nl, slice raw d be = Some s /\ IndexByte s LF = Some nl /\ (d + nl + 1 <= d')%nat.

Definition delims_ok (raw : string) (lo be : nat) (l : list nat) : Prop :=
  Sorted (line_before raw be) l /\ Forall (fun d => lo <= d < be)%nat l.

Lemma delims_tail raw lo be d l :
  Sorted (line_before raw be) (d :: l) -> Forall (fun d => lo <= d < be)%nat l -> Forall (fun x => d <= x < be)%nat l.
Proof.
  revert d. induction l as [|x l IH]; intros d Hso Hfo; [constructor|].
  apply Sorted_inv in Hso as [Hso Hh]. inversion Hh as [|? ? (?&?&_&_&?)]; subst.
  apply Forall_cons in Hfo as [? Hfo]. constructor; [lia|].
  eapply Forall_impl; [apply (IH x Hso Hfo)|]. cbn. lia.
Qed.

Lemma find_delims_spec fuel raw bs be dashB i w :
  dashB <> "" -> (bs <= i)%nat -> (be <= String.length raw)%nat -> (be - i < fuel)%nat -> w_over w = false ->
  exists l w', find_delims fuel raw bs be dashB i w = Some (l, w') /\ delims_ok raw i be l /\
    (w_over w' = false -> w_delims w' = (w_delims w + length l)%nat /\ (w_delims w' <= MaxParts `max` w_delims w)%nat).
Proof.
  intros Hd. revert i w. induction fuel as [|fuel IH]; intros i w Hi Hbe Hf Hw; [lia|]. cbn [find_delims].
  assert (forall x, x = w -> delims_ok raw i be [] /\ (w_over x = false -> w_delims x = (w_delims w + length (@nil nat))%nat /\
    (w_delims x <= MaxParts `max` w_delims w)%nat)) as Hnil.
  { intros x ->. split; [by repeat constructor|]. intros _. cbn. lia. }
  destruct (Nat.leb_spec be i); [by eauto|].
  destruct (slice_Some raw i be) as (s&->&Hs&_); [lia..|]. cbn [mbind option_bind].
  destruct (Index s dashB) as [j|] eqn:Hj; [|by eauto].
  apply Index_bound in Hj. assert (0 < String.length dashB)%nat by (destruct dashB; [done|cbn; lia]).
  set (p := (i + j)%nat). assert (p < be)%nat by lia.
  assert (exists al, (if (p =? bs)%nat then Some true else if (p =? 0)%nat then None else byte_is raw (p - 1) LF) = Some al)
    as [al ->].
  { destruct (Nat.eqb_spec p bs); [eauto|]. destruct (Nat.eqb_spec p 0); [lia|]. apply byte_is_Some. lia. }
  set (w1 := if al then _ else w). destruct (w_over w1) eqn:Hov.
  { exists [], w1. split; [done|]. split; [by repeat constructor|]. congruence. }
  assert (w_delims w1 = (w_delims w + if al then 1 else 0)%nat /\ (w_delims w1 <= MaxParts `max` w_delims w)%nat) as [Hw1 Hw1'].
  { subst w1. destruct al; cbn [w_over w_delims] in *; [|lia]. apply Nat.ltb_ge in Hov. unfold MaxParts in *. lia. }
  destruct (slice_Some raw p be) as (t&Ht&Htl&_); [lia..|]. rewrite Ht. cbn [mbind option_bind].
  destruct (IndexByte t LF) as [nl|] eqn:Hnl.
  - pose proof (Index_bound _ _ _ Hnl) as Hnlb. cbn in Hnlb.
    destruct (IH (p + nl + 1)%nat w1) as (l&w'&->&[Hso Hfo]&Hc); [lia..|done|]. cbn [mbind option_bind].
    eexists _, w'. split; [done|].
    assert (Forall (fun d => i <= d < be)%nat l) as Hfo' by (eapply Forall_impl; [exact Hfo|]; cbn; lia).
    split.
    + destruct al; [|done]. split; [|constructor; [lia|done]]. constructor; [done|].
      destruct l as [|d l]; constructor. apply Forall_cons in Hfo as [? _]. exists t, nl. split_and!; [done..|lia].
    + intros Hov'. destruct (Hc Hov') as [Hc1 Hc2]. destruct al; cbn [length]; lia.
  - exists (if al then [p] else []), w1. split; [done|]. split.
    + destruct al; [|by repeat constructor]. split; [by repeat constructor|]. repeat constructor; lia.
    + intros _. destruct al; cbn [length] in *; lia.
Qed.

(** The fuel of [collect]'s scan is enough: more makes no difference. *)
Lemma find_delims_fuel fuel fuel' raw bs be dashB i w :
  (be - i < fuel)%nat -> (be - i < fuel')%nat ->
  find_delims fuel raw bs be dashB i w = find_delims fuel' raw bs be dashB i w.
Proof.
  revert fuel' i w. induction fuel as [|fuel IH]; intros fuel' i w Hf Hf'; [lia|].
  destruct fuel' as [|fuel']; [lia|]. cbn [find_delims]. destruct (Nat.leb_spec be i); [done|].
  destruct (slice raw i be); [|done]. cbn [mbind option_bind]. destruct (Index s dashB) as [j|]; [|done].
  destruct (if (i + j =? bs)%nat then _ else _) as [al|]; [|done].
  match goal with |- context [w_over ?x] => destruct (w_over x) end; [done|].
  destruct (slice raw (i + j) be) as [t|]; [|done]. cbn [mbind option_bind].
  destruct (IndexByte t LF) as [nl|]; [|done]. rewrite (IH fuel'); [done|lia..].
Qed.

(** * Spans *)

(** Spans of at least [minSize] bytes, in order and apart, within [lo, hi]. *)
Fixpoint spans_ok (minSize : Z) (lo hi : nat) (l : list span) : Prop :=
  match l with
  | [] => True
  | sp :: l' => (lo <= sp_start sp)%nat /\ (sp_start sp <= sp_end sp <= hi)%nat /\
                minSize <= Z.of_nat (sp_end sp) - Z.of_nat (sp_start sp) /\ spans_ok minSize (sp_end sp) hi l'
  end.

Lemma spans_ok_weaken m lo lo' hi hi' l : (lo' <= lo)%nat -> (hi <= hi')%nat -> spans_ok m lo hi l -> spans_ok m lo' hi' l.
Proof.
  intros Hlo Hhi. revert lo lo' Hlo. induction l as [|sp l IH]; intros lo lo' Hlo; [done|]. cbn.
  intros (?&?&?&Hl). split_and!; [lia..|]. by apply (IH (sp_end sp)).
Qed.

Lemma spans_ok_app m lo mid hi l1 l2 :
  (mid <= hi)%nat -> spans_ok m lo mid l1 -> spans_ok m mid hi l2 -> (lo <= mid)%nat -> spans_ok m lo hi (l1 ++ l2).
Proof.
  intros Hmid. revert lo. induction l1 as [|sp l1 IH]; intros lo; cbn.
  - intros _ Hl2 ?. by apply (spans_ok_weaken _ mid _ hi).
  - intros (?&?&?&Hl1) Hl2 _. split_and!; [lia..|]. apply IH; [done..|lia].
Qed.

Lemma body_end_Some raw ps be :
  (ps <= be)%nat -> (be <= String.length raw)%nat -> exists e, body_end raw ps be = Some e /\ (ps <= e <= be)%nat.
Proof.
  intros Hps Hbe. unfold body_end.
  assert (forall n c, (ps + n <= be)%nat -> (0 < n)%nat -> exists b, byte_is raw (be - n) c = Some b) as Hb
    by (intros n c ? ?; apply byte_is_Some; lia).
  destruct (Nat.leb_spec (ps + 2) be).
  - destruct (Hb 2%nat CR) as [x ->]; [lia..|]. destruct (Hb 1%nat LF) as [y ->]; [lia..|].
    rewrite (proj2 (Nat.leb_le _ _)) by lia. destruct x, y; eexists; (split; [done|lia]).
  - destruct (Nat.leb_spec (ps + 1) be); [|eexists; split; [done|lia]].
    destruct (Hb 1%nat LF) as [y ->]; [lia..|]. destruct y; eexists; (split; [done|lia]).
Qed.

Section Collect.
Context `{MimeHeaders} `{GoUnicode} (raw : string) (minSize : Z).

(** What a walk over [lo, hi) returns: good spans, no more than the delimiters
    it counted beyond [extra], and a count within the limit. *)
Definition walked (lo hi extra : nat) (w : walk) (r : option (list span * walk)) : Prop :=
  exists l w', r = Some (l, w') /\ spans_ok minSize lo hi l /\
    (w_over w' = false -> (length l + w_delims w <= w_delims w' + extra)%nat /\
       (w_delims w <= w_delims w' <= MaxParts `max` w_delims w)%nat).

Lemma walked_nil lo hi extra w : walked lo hi extra w (Some ([], w)).
Proof. exists [], w. split; [done|]. split; [done|]. intros _. cbn. lia. Qed.

Lemma collect_parts_spec nested lo be delims w :
  (be <= String.length raw)%nat -> w_over w = false ->
  (forall b e bd w, (b <= e <= String.length raw)%nat -> w_over w = false -> walked b e 0 w (nested b e bd w)) ->
  delims_ok raw lo be delims -> walked lo be (length delims) w (collect_parts nested raw be minSize delims w).
Proof.
  intros Hbe Hw Hnest. revert lo w Hw.
  induction delims as [|d [|d' rest] IH]; intros lo w Hw [Hso Hfo]; [apply walked_nil..|].
  apply Forall_cons in Hfo as [Hd Hfo]. apply Sorted_inv in Hso as [Hso Hhd].
  inversion Hhd as [|? ? (s&nl&Hs&Hnl&Hle)]; subst. pose proof (proj1 (Forall_cons _ _ _) Hfo) as [Hd' Hfo'].
  (* the rest of the loop, from the next delimiter on *)
  assert (forall w, w_over w = false -> walked d' be (length (d' :: rest)) w (collect_parts nested raw be minSize (d' :: rest) w)) as Hrest.
  { intros w0 Hw0. apply IH; [done|]. split; [done|]. apply Forall_cons. split; [lia|]. by eapply delims_tail. }
  assert (forall w, w_over w = false -> walked lo be (length (d :: d' :: rest)) w (collect_parts nested raw be minSize (d' :: rest) w)) as Hskip.
  { intros w0 Hw0. destruct (Hrest w0 Hw0) as (l&w'&->&Hl&Hc). exists l, w'. split; [done|].
    split; [eapply spans_ok_weaken; [| |done]; lia|]. intros Ho. destruct (Hc Ho). cbn [length] in *. lia. }
  change (collect_parts nested raw be minSize (d :: d' :: rest) w) with
    (collect_part nested raw be minSize d d' (collect_parts nested raw be minSize (d' :: rest)) w).
  unfold collect_part. rewrite Hs. cbn [mbind option_bind]. rewrite Hnl. cbv zeta.
  destruct (body_end_Some raw (d + nl + 1) d') as (e&->&He); [lia..|]. cbn [mbind option_bind].
  destruct (Nat.leb_spec e (d + nl + 1)); [by apply Hskip|].
  destruct (slice_Some raw (d + nl + 1) e) as (t&->&Ht&_); [lia..|]. cbn [mbind option_bind].
  destruct (Index t CRLF2) as [hi|] eqn:Hhi; [|by apply Hskip]. apply Index_bound in Hhi.
  change (String.length CRLF2) with 4%nat in Hhi.
  destruct (slice_Some raw (d + nl + 1) (d + nl + 1 + hi + 4)) as (hdr&->&_&_); [lia..|]. cbn [mbind option_bind].
  set (pb := (d + nl + 1 + hi + 4)%nat) in *. assert (pb <= e)%nat by (unfold pb; lia).
  destruct (_ && _).
  - destruct (Hnest pb e (ph_boundary (parsePartHeaders hdr)) w) as (l1&w1&->&Hl1&Hc1); [lia|done|]. cbn [mbind option_bind].
    destruct (w_over w1) eqn:Ho1.
    + exists l1, w1. split; [done|]. split; [eapply spans_ok_weaken; [| |done]; lia|congruence].
    + destruct (Hrest w1 Ho1) as (l2&w2&->&Hl2&Hc2). exists (l1 ++ l2), w2. split; [done|]. split.
      * apply (spans_ok_app _ _ d'); [lia| |done|lia]. eapply spans_ok_weaken; [| |done]; lia.
      * intros Ho. destruct (Hc1 eq_refl), (Hc2 Ho). rewrite length_app. cbn [length] in *. lia.
  - destruct (Hrest w Hw) as (l2&w2&->&Hl2&Hc2). cbn [mbind option_bind].
    destruct (_ && (minSize <=? _)) eqn:Hsz.
    + apply andb_true_iff in Hsz as [_ Hsz%Z.leb_le]. eexists (_ :: l2), w2. split; [done|]. split.
      * cbn [spans_ok sp_start sp_end]. split_and!; [lia..|]. eapply spans_ok_weaken; [| |done]; lia.
      * intros Ho. destruct (Hc2 Ho). cbn [length] in *. lia.
    + exists l2, w2. split; [done|]. split; [eapply spans_ok_weaken; [| |done]; lia|].
      intros Ho. destruct (Hc2 Ho). cbn [length] in *. lia.
Qed.

Lemma collect_spec depth bs be boundary w :
  (bs <= be <= String.length raw)%nat -> w_over w = false ->
  walked bs be 0 w (collect depth raw minSize bs be boundary w).
Proof.
  revert bs be boundary w. induction depth as [|depth IH]; intros bs be boundary w Hb Hw; cbn [collect]; rewrite Hw.
  { eexists [], _. split; [done|]. by split. }
  destruct (find_delims_spec (S (String.length raw)) raw bs be ("--" +:+ boundary) bs w) as (delims&w1&->&Hd&Hc); [done|lia..|done|].
  cbn [mbind option_bind]. destruct (w_over w1) eqn:Ho; [exists [], w1; split; [done|]; split; [done|congruence]|].
  destruct (Hc eq_refl) as [Hc1 Hc2].
  destruct (collect_parts_spec (collect depth raw minSize) bs be delims w1) as (l&w'&->&Hl&Hc'); [lia|done| |done|].
  - intros. by apply IH.
  - exists l, w'. split; [done|]. split; [done|]. intros Ho'. destruct (Hc' Ho'). lia.
Qed.
End Collect.

(** * Cutting at the spans *)

Lemma spans_sorted m lo hi l : spans_ok m lo hi l -> SliceStable span_less l = l.
Proof.
  revert lo. induction l as [|sp l IH]; intros lo; [done|]. intros (?&?&?&Hl).
  change (SliceStable span_less (sp :: l)) with (insert_stable span_less sp (SliceStable span_less l)).
  rewrite (IH _ Hl). destruct l as [|sp' l]; [done|]. destruct Hl as (?&_). cbn [insert_stable]. unfold span_less.
  by rewrite (proj2 (Nat.ltb_ge _ _)) by lia.
Qed.

(** The parts the spans stand for. *)
Definition span_part (sha : string -> string) (raw : string) (sp : span) (p : Part) : Prop :=
  slice raw (sp_start sp) (sp_end sp) = Some (pt_Encoded p) /\ pt_Hash p = sha (pt_Encoded p) /\
  pt_Size p = Z.of_nat (sp_end sp) - Z.of_nat (sp_start sp) /\ pt_ContentType p = sp_ct sp /\ pt_Filename p = sp_name sp.

Lemma reconstruct_app parts ps1 ps2 a b :
  reconstruct parts ps1 = Some a -> reconstruct parts ps2 = Some b -> reconstruct parts (ps1 ++ ps2) = Some (a +:+ b).
Proof.
  revert a. induction ps1 as [|p ps1 IH]; intros a; [by intros [= <-] Hb|]. cbn.
  destruct (match p with Literal x => _ | Att i => _ end) as [x|]; [|done]. cbn.
  destruct (reconstruct parts ps1) as [r|]; [|done]. intros [= <-] Hb. rewrite (IH r) by done. cbn. by rewrite str_app_assoc.
Qed.

Lemma cut_spans_spec sha raw m pos spans pre :
  spans_ok m pos (String.length raw) spans -> (pos <= String.length raw)%nat ->
  exists ps parts, cut_spans sha raw pos (length pre) spans = Some (ps, parts) /\
    Forall2 (span_part sha raw) spans parts /\ reconstruct (pre ++ parts) ps = Some (str_drop pos raw).
Proof.
  revert pos pre. induction spans as [|sp spans IH]; intros pos pre; cbn [cut_spans spans_ok].
  - intros _ Hpos. destruct (Nat.ltb_spec pos (String.length raw)).
    + rewrite slice_tail by lia. eexists _, []. split; [done|]. split; [constructor|]. cbn. by rewrite str_app_nil_r.
    + eexists [], []. split; [done|]. split; [constructor|]. cbn. by rewrite str_drop_all by lia.
  - intros (Hlo&Hse&Hm&Hok) Hpos. destruct (Nat.ltb_spec (sp_start sp) pos); [lia|].
    destruct (slice_Some raw (sp_start sp) (sp_end sp)) as (enc&Henc&Hlen&Hdrop); [lia..|]. rewrite Henc.
    set (part := mkPart (sha enc) (sp_ct sp) (sp_name sp) enc (Z.of_nat (String.length enc))).
    destruct (IH (sp_end sp) (pre ++ [part]) Hok) as (ps&parts&Hcut&Hall&Hrec); [lia|].
    rewrite length_app, Nat.add_1_r in Hcut. rewrite <- app_assoc in Hrec. cbn [app] in Hrec.
    assert (reconstruct (pre ++ part :: parts) (Att (length pre) :: ps) = Some (str_drop (sp_start sp) raw)) as Hatt.
    { cbn [reconstruct]. rewrite list_lookup_middle by done. cbn. by rewrite Hrec, Hdrop. }
    assert (exists lit, (if (pos <? sp_start sp)%nat then b ← slice raw pos (sp_start sp); Some [Literal b] else Some [])
              = Some lit /\ reconstruct (pre ++ part :: parts) (lit ++ Att (length pre) :: ps) = Some (str_drop pos raw))
      as (lit&->&Hlit).
    { destruct (Nat.ltb_spec pos (sp_start sp)).
      - destruct (slice_Some raw pos (sp_start sp)) as (b&->&_&Hd); [lia..|]. eexists. split; [done|].
        rewrite Hd. by apply reconstruct_app; [cbn; rewrite str_app_nil_r|].
      - exists []. split; [done|]. cbn [app]. rewrite Hatt. by replace pos with (sp_start sp) by lia. }
    cbn [mbind option_bind]. rewrite Hcut. cbn [mbind option_bind].
    eexists _, _. split; [done|]. split; [|done]. constructor; [|done].
    split_and!; [done..| |done|done]. cbn. rewrite Hlen. lia.
Qed.

Lemma Forall2_parts sha raw m lo hi spans parts :
  Forall2 (span_part sha raw) spans parts -> spans_ok m lo hi spans ->
  Forall (fun p => m <= pt_Size p /\ pt_Hash p = sha (pt_Encoded p)) parts.
Proof.
  intros Hall. revert lo. induction Hall as [|sp p spans parts (_&?&?&_) _ IH]; intros lo; constructor; cbn in *.
  - destruct H1 as (_&_&?&_). split; [lia|done].
  - destruct H1 as (_&_&_&?). eauto.
Qed.

Section Split.
Context `{MimeHeaders} `{GoUnicode}.

Lemma find_spans_spec raw minSize :
  exists spans, find_spans raw minSize = Some spans /\ spans_ok minSize 0 (String.length raw) spans /\
    (length spans <= MaxParts)%nat.
Proof.
  unfold find_spans, topHeaders. destruct (Index raw CRLF2) as [i|] eqn:Hi.
  2:{ exists []. split; [done|]. split; [done|]. apply Nat.le_0_l. }
  apply Index_bound in Hi. change (String.length CRLF2) with 4%nat in Hi.
  destruct (slice_Some raw 0 (i + 4)) as (hdr&->&_&_); [lia..|]. cbn [fmap option_fmap option_map].
  destruct (parseContentType hdr) as [mt bd].
  destruct (_ && _). 2:{ exists []. split; [done|]. split; [done|]. apply Nat.le_0_l. }
  destruct (collect_spec raw minSize MaxDepth (i + 4) (String.length raw) bd (mkWalk 0 false)) as (l&w&->&Hl&Hc); [lia|done|].
  cbn [mbind option_bind]. destruct (w_over w).
  - exists []. split; [done|]. split; [done|]. apply Nat.le_0_l.
  - exists l. split; [done|]. destruct (Hc eq_refl) as [Hn [_ Hm]]. cbn [w_delims] in *.
    split; [eapply spans_ok_weaken; [| |done]; lia|]. lia.
Qed.

Lemma split_total sha raw minSize :
  exists sk, Split_message sha raw minSize = Some sk /\ Reconstruct sk = Some raw /\
    (length (sk_Parts sk) <= MaxParts)%nat /\
    Forall (fun p => minSize <= pt_Size p /\ pt_Hash p = sha (pt_Encoded p)) (sk_Parts sk).
Proof.
  unfold Split_message. destruct (find_spans_spec raw minSize) as (spans&->&Hok&Hn). cbn [mbind option_bind].
  rewrite (spans_sorted _ _ _ _ Hok).
  destruct (cut_spans_spec sha raw minSize 0 spans [] Hok) as (ps&parts&Hcut&Hall&Hrec); [lia|].
  cbn [length] in Hcut. rewrite Hcut. cbn [mbind option_bind].
  eexists. split; [done|]. cbn [sk_Parts]. split; [|split].
  - unfold Reconstruct. cbn [sk_Parts sk_pieces]. destruct ps; [cbn; by rewrite str_app_nil_r|exact Hrec].
  - apply Forall2_length in Hall. lia.
  - by eapply Forall2_parts.
Qed.

(** Splitting is total and byte-exact. Whatever the message and however
    its headers parse, [Split] slices within bounds, gives at most [MaxParts]
    parts of at least [minSize] bytes addressed by their own hash, and
    reconstruction returns the message byte for byte. *)
Theorem split_is_byte_exact sha raw minSize :
  exists sk, Split_message sha raw minSize = Some sk /\ Reconstruct sk = Some raw /\
    (length (sk_Parts sk) <= MaxParts)%nat /\
    Forall (fun p => minSize <= pt_Size p /\ pt_Hash p = sha (pt_Encoded p)) (sk_Parts sk).
Proof. apply split_total. Qed.

(** ** The stored form *)

Lemma reconstruct_Att_bound parts ps a i : reconstruct parts ps = Some a -> Att i ∈ ps -> (i < length parts)%nat.
Proof.
  revert a. induction ps as [|p ps IH]; intros a; [by intros _ ?%elem_of_nil|]. cbn.
  destruct (match p with Literal x => _ | Att i => _ end) as [x|] eqn:E; [|done]. cbn.
  destruct (reconstruct parts ps) as [r|]; [|done]. intros _ [<-|Hin]%elem_of_cons; [|by eapply IH].
  destruct (parts !! i) eqn:El; [|done]. by eapply lookup_lt_Some.
Qed.

(** Assembling the layout of the pieces gives what reconstruction gives. *)
Lemma assemble_layout get parts ps raw pre cache i :
  (forall p, p ∈ parts -> get (pt_Hash p) = Ok (pt_Encoded p)) ->
  Z.of_nat (length parts) <= 2 ^ 31 -> Z.of_nat (String.length (pre +:+ (layout ps).1)) < 2 ^ 63 ->
  (forall idx b, cache !! idx = Some b -> exists p, parts !! Z.to_nat idx = Some p /\ pt_Encoded p = b) ->
  reconstruct parts ps = Some raw ->
  assemble get (part_ref <$> parts) (pre +:+ (layout ps).1) cache (String.length pre) i (segment_proto <$> (layout ps).2) =
    Ok (raw, String.length (pre +:+ (layout ps).1)).
Proof.
  intros Hget Hn. revert raw pre cache i. induction ps as [|p ps IH]; intros raw pre cache i.
  { cbn. intros _ _ [= <-]. by rewrite str_app_nil_r. }
  cbn [reconstruct layout]. destruct (layout ps) as [sk segs]. cbn [fst snd] in IH.
  destruct p as [b|k]; cbn [fst snd]; intros Hlen Hcache.
  - cbn [mbind option_bind]. destruct (reconstruct parts ps) as [r|] eqn:Hr; [|done]. cbn [mbind option_bind]. intros [= <-].
    rewrite !str_length_app in Hlen. cbn [fmap list_fmap segment_proto assemble seg_Kind seg_Length].
    rewrite (i64_small (Z.of_nat (String.length pre) + Z.of_nat (String.length b))) by (unfold in_i64; lia).
    rewrite !(proj2 (Z.ltb_ge _ _)) by (rewrite ?str_length_app; lia). cbn [orb].
    rewrite Nat2Z.id, str_drop_app, str_take_app, <- str_length_app, <- !str_app_assoc.
    by rewrite (IH r (pre +:+ b)); [|rewrite !str_length_app; lia|done|done].
  - destruct (parts !! k) as [p|] eqn:Hk; [|done]. cbn [fmap option_fmap option_map mbind option_bind].
    destruct (reconstruct parts ps) as [r|] eqn:Hr; [|done]. cbn. intros [= <-].
    pose proof (lookup_lt_Some _ _ _ Hk) as Hkl.
    rewrite (i32_small (Z.of_nat k)) by (unfold in_i32; lia). rewrite length_fmap.
    rewrite (proj2 (Z.ltb_ge _ _)), (proj2 (Z.leb_gt _ _)) by lia. cbn [orb].
    assert (match cache !! Z.of_nat k with Some b => Ok b | None =>
      match (part_ref <$> parts) !! Z.to_nat (Z.of_nat k) with
      | Some ref => wrapf ("full raw message: attachment " +:+ FormatInt (Z.of_nat k)) (get (br_Hash ref))
      | None => Err (Errorf "unreachable") end end = Ok (pt_Encoded p)) as ->.
    { destruct (cache !! Z.of_nat k) as [b|] eqn:Hc.
      - destruct (Hcache _ _ Hc) as (p'&Hp'&<-). rewrite Nat2Z.id in Hp'. by simplify_eq.
      - rewrite Nat2Z.id, list_lookup_fmap, Hk. cbn. rewrite Hget; [done|]. by eapply list_elem_of_lookup_2. }
    cbn [result_bind]. rewrite (IH r); [done|done| |done].
    intros idx b [[<- <-]|[_ Hb]]%lookup_insert_Some; [|by apply Hcache]. exists p. by rewrite Nat2Z.id.
Qed.

Lemma layout_nil ps : (layout ps).2 = [] <-> ps = [].
Proof. destruct ps as [|[] ps]; [done|..]; cbn; by destruct (layout ps). Qed.

(** A split record reads back.  When [PrepareSplit] splits a message and
    the skeleton and the encoded parts are in the blob store under the hashes
    recorded, [FullRawMessage] on the record returns the original message. *)
Lemma split_record_roundtrip sha checked raw minSize sm meta ref get :
  PrepareSplit sha checked raw minSize = Some (Some sm) -> Z.of_nat (String.length raw) < 2 ^ 63 ->
  mm_RawMessage meta = Some ref -> mm_Attachments meta = sm_Attachments sm -> mm_Layout meta = sm_Layout sm ->
  get (br_Hash ref) = Ok (sm_Skeleton sm) ->
  (forall i att enc, sm_Attachments sm !! i = Some att -> sm_Encoded sm !! i = Some enc -> get (br_Hash att) = Ok enc) ->
  FullRawMessage meta get = Ok raw.
Proof.
  unfold PrepareSplit. case_match; [done|]. case_match; [done|].
  destruct (split_total sha raw minSize) as ([ps parts]&->&Hrec&Hn&_). cbn [mbind option_bind sk_Parts].
  unfold Reconstruct in Hrec. cbn [sk_Parts sk_pieces] in *.
  destruct parts as [|p0 parts0]; [done|]. set (parts := p0 :: parts0) in *. unfold Layout. cbn [sk_pieces].
  destruct (layout ps) as [skel segs] eqn:Hl. intros Hsm.
  assert (sm = mkSplit skel (segment_proto <$> segs) (part_ref <$> parts) (pt_Encoded <$> parts)) as -> by congruence. clear Hsm.
  intros Hlen Href Hatt Hlay Hskel Hget. cbn [sm_Skeleton sm_Attachments sm_Encoded sm_Layout] in *.
  unfold FullRawMessage. rewrite Href, Hatt, Hlay, Hskel. rewrite length_fmap.
  assert (skel = (layout ps).1 /\ segs = (layout ps).2) as [-> ->] by (by rewrite Hl). clear Hl.
  assert (String.length (layout ps).1 <= String.length raw)%nat as Hsk.
  { clear -Hrec. revert raw Hrec. induction ps as [|p ps IH]; intros raw; cbn; [lia|].
    destruct (layout ps) as [sk segs]. destruct p as [b|k]; cbn.
    - destruct (reconstruct parts ps); [|done]. cbn. intros [= <-]. specialize (IH _ eq_refl). rewrite !str_length_app. cbn in *. lia.
    - destruct (parts !! k); [|done]. cbn. destruct (reconstruct parts ps); [|done]. cbn. intros [= <-].
      specialize (IH _ eq_refl). rewrite !str_length_app. cbn in *. lia. }
  destruct (Nat.eqb_spec (length (layout ps).2) 0) as [E|_].
  { apply nil_length_inv, layout_nil in E as ->. cbn in Hrec. by simplify_eq. }
  cbn [wrapf result_bind].
  pose proof (assemble_layout get parts ps raw "" ∅ 0) as Ha. rewrite !app_nil_l' in Ha. change (String.length "") with 0%nat in Ha.
  rewrite Ha; [|..|done].
  - cbn [result_bind]. by rewrite Nat.eqb_refl.
  - intros p Hp. apply list_elem_of_lookup in Hp as [i Hi].
    apply (Hget i (part_ref p)); rewrite list_lookup_fmap, Hi; done.
  - unfold MaxParts in Hn. lia.
  - lia.
  - intros idx b. by rewrite lookup_empty.
Qed.
End Split.

(** * Storing *)

(** What the code relies on: [Put] of a blob makes it readable under its hash
    and leaves the others readable. *)
Class BlobLaws (B : Type) `{BlobOps B} (sha : string -> string) := {
  blob_put_ok d b : exists b', blob_Put d b = (b', Ok (sha d)) /\ blob_Get b' (sha d) = Ok d /\
    forall h x, blob_Get b h = Ok x -> blob_Get b' h = Ok x;
}.

Section Store.
Context {B : Type} `{BlobOps B} (sha : string -> string) `{!BlobLaws B sha} `{MimeHeaders} `{GoUnicode}.
Implicit Types b : B.

Lemma put_parts_spec l wr de sa b :
  Forall (fun p => br_Hash p.1 = sha p.2) l ->
  exists b' r, put_parts l wr de sa b = (b', Ok r) /\
    (forall h x, blob_Get b h = Ok x -> blob_Get b' h = Ok x) /\
    Forall (fun p => blob_Get b' (br_Hash p.1) = Ok p.2) l.
Proof.
  intros Hl. revert wr de sa b. induction Hl as [|[att enc] l Hh _ IH]; intros wr de sa b.
  { eexists b, _. split; [done|]. split; [done|constructor]. }
  cbn [put_parts fst snd] in *. destruct (blob_put_ok enc b) as (b1&Hp&Hg&Hk).
  destruct (if blob_Exists b (br_Hash att) then _ else _) as [[wr' de'] sa'].
  destruct (IH wr' de' sa' b1) as (b2&r&Hr&Hk2&Hall).
  exists b2, r. unfold gbind, gwrap. rewrite Hp. cbn [wrapf]. split; [done|]. split; [eauto|].
  constructor; [|done]. cbn. rewrite Hh. by apply Hk2.
Qed.

Lemma prepare_parts checked raw minSize sm :
  PrepareSplit sha checked raw minSize = Some (Some sm) ->
  exists parts, sm_Attachments sm = part_ref <$> parts /\ sm_Encoded sm = pt_Encoded <$> parts /\
    Forall (fun p => pt_Hash p = sha (pt_Encoded p)) parts.
Proof.
  unfold PrepareSplit. case_match; [done|]. case_match; [done|].
  destruct (split_total sha raw minSize) as ([ps parts]&->&_&_&Hall). cbn [mbind option_bind sk_Parts] in *.
  destruct parts as [|p parts]; [done|]. destruct (Layout _). intros [= <-].
  exists (p :: parts). split; [done|]. split; [done|]. eapply Forall_impl; [exact Hall|]. by intros ? [_ ?].
Qed.

(** Storing a message in split form.  On a working blob store [StoreSplit]
    never panics and never fails its own self-check; when it splits, the record
    it returns reads back as the message byte for byte, and every blob that
    could be read before still can. *)
Theorem store_split_reads_back checked raw minSize b :
  Z.of_nat (String.length raw) < 2 ^ 63 ->
  exists b' r, StoreSplit sha checked raw minSize b = Some (b', Ok r) /\
    (forall h x, blob_Get b h = Ok x -> blob_Get b' h = Ok x) /\
    match r with
    | None => b' = b
    | Some st => RawMessageBytes b' (split_meta (ss_SkeletonHash st) (ss_Attachments st) (ss_Layout st)) = Ok raw
    end.
Proof.
  intros Hlen. unfold StoreSplit.
  destruct (PrepareSplit sha checked raw minSize) as [[sm|]|] eqn:Hp; cbn [mbind option_bind].
  - destruct (prepare_parts _ _ _ _ Hp) as (parts&Ha&He&Hh).
    destruct (blob_put_ok (sm_Skeleton sm) b) as (b1&Hput&Hg&Hk).
    destruct (put_parts_spec (zip (sm_Attachments sm) (sm_Encoded sm)) 0 0 0 b1) as (b2&[[wr de] sa]&Hpp&Hk2&Hall).
    { rewrite Ha, He. clear -Hh. induction Hh; cbn; constructor; done. }
    assert (RawMessageBytes b2 (split_meta (sha (sm_Skeleton sm)) (sm_Attachments sm) (sm_Layout sm)) = Ok raw) as Hread.
    { eapply split_record_roundtrip; [done..|by apply Hk2|].
      intros i att enc Hi Hi'. apply (proj1 (Forall_lookup _ _) Hall i (att, enc)).
      by apply lookup_zip_Some. }
    eexists b2, _. unfold gbind, gwrap, gread. rewrite Hput. cbn [wrapf]. rewrite Hpp. cbv beta. rewrite Hread.
    cbn [wrapf]. rewrite String.eqb_refl. cbn [negb]. unfold gret. split; [done|]. split; [eauto|done].
  - exists b, None. by split.
  - exfalso. unfold PrepareSplit in Hp. case_match; [done|]. case_match; [done|].
    destruct (split_total sha raw minSize) as ([ps parts]&E&_). rewrite E in Hp. cbn in Hp. case_match; [done|].
    by destruct (layout ps).
Qed.
End Store.

(** * A concrete message *)

Section Demo.
#[local] Existing Instance bytewise_unicode.

(** A store keyed by the content itself. *)
Definition demo_sha (d : string) : string := "#" +:+ d.
#[local] Instance map_blobs : BlobOps (gmap string string) := {|
  blob_Put d b := (match b !! demo_sha d with Some _ => b | None => <[demo_sha d := d]> b end, Ok (demo_sha d));
  blob_Exists b h := bool_decide (is_Some (b !! h));
  blob_Get b h := if HasPrefix h "#" then of_option ErrNotFound
                    (match b !! h with Some _ => Some (str_drop 1 h) | None => None end) else Err ErrNotFound;
|}.
#[local] Instance map_blob_laws : BlobLaws (gmap string string) demo_sha.
Proof.
  split. intros d b. eexists. split; [reflexivity|]. cbn [blob_Get map_blobs].
  replace (HasPrefix (demo_sha d) "#") with true by (symmetry; apply prefix_app). split.
  - destruct (b !! demo_sha d) eqn:E; [rewrite E|rewrite lookup_insert_eq]; done.
  - intros h x. destruct (HasPrefix h "#"); [|done]. intros Hx.
    destruct (b !! demo_sha d) eqn:E; [done|].
    destruct (decide (h = demo_sha d)) as [->|Hne]; [rewrite E in Hx; done|by rewrite lookup_insert_ne].
Qed.

(** Every part is an attachment, and the boundary is "b". *)
#[local] Instance demo_mime : MimeHeaders := {|
  parseContentType _ := ("multipart/mixed", "b");
  parsePartHeaders _ := mkPartHeaders "text/plain" "" "" "attachment" "f.txt";
|}.

Definition crlf : string := String CR (String LF "").
Definition demo_message : string :=
  "Subject: x" +:+ crlf +:+ crlf +:+ "--b" +:+ crlf +:+ "A: 1" +:+ crlf +:+ crlf +:+ "payload one" +:+ crlf +:+
  "--b" +:+ crlf +:+ "A: 2" +:+ crlf +:+ crlf +:+ "payload two" +:+ crlf +:+ "--b--" +:+ crlf.

Example demo_split : exists sm, PrepareSplit demo_sha (fun _ => true) demo_message 4 = Some (Some sm) /\
  sm_Encoded sm = ["payload one"; "payload two"].
Proof. eexists. vm_compute. split; reflexivity. Qed.

Lemma store_split_reads_back_witness :
  exists b' r, StoreSplit demo_sha (fun _ => true) demo_message 4 (∅ : gmap string string) = Some (b', Ok r) /\
    match r with
    | None => b' = ∅
    | Some st => RawMessageBytes b' (split_meta (ss_SkeletonHash st) (ss_Attachments st) (ss_Layout st)) = Ok demo_message
    end.
Proof.
  destruct (store_split_reads_back demo_sha (fun _ => true) demo_message 4 (∅ : gmap string string)) as (b'&r&Hr&_&Hm).
  - vm_compute. reflexivity.
  - exists b', r. exact (conj Hr Hm).
Defined.
End Demo.
