(* ===== verification/Queue.v ===== *)
(** The outbound queue: [internal/queue/store.go], and the NOTIFY helpers of
    [internal/mail/dsn.go]. *)

From S2P Require Import Prelude GoStrings Pebble Proto QueueCommand.
From Stdlib Require Import Ascii.

(** * queue.proto *)

Inductive MessageStatus := STATUS_UNSPECIFIED | STATUS_PENDING | STATUS_FAILED | STATUS_DELIVERED | STATUS_BOUNCED.
#[global] Instance MessageStatus_eq_dec : EqDecision MessageStatus.
Proof. solve_decision. Defined.
#[global] Instance MessageStatus_countable : Countable MessageStatus.
Proof.
  apply (inj_countable
    (fun s => match s with STATUS_UNSPECIFIED => 0 | STATUS_PENDING => 1 | STATUS_FAILED => 2
                         | STATUS_DELIVERED => 3 | STATUS_BOUNCED => 4 end%nat)
    (fun n => match n with 0 => Some STATUS_UNSPECIFIED | 1 => Some STATUS_PENDING | 2 => Some STATUS_FAILED
                         | 3 => Some STATUS_DELIVERED | 4 => Some STATUS_BOUNCED | _ => None end%nat)).
  by intros [].
Defined.

Inductive OutboundOrigin := ORIGIN_UNSPECIFIED | ORIGIN_LOCAL | ORIGIN_FORWARD | ORIGIN_AUTOREPLY.
#[global] Instance OutboundOrigin_eq_dec : EqDecision OutboundOrigin.
Proof. solve_decision. Defined.
#[global] Instance OutboundOrigin_countable : Countable OutboundOrigin.
Proof.
  apply (inj_countable
    (fun s => match s with ORIGIN_UNSPECIFIED => 0 | ORIGIN_LOCAL => 1 | ORIGIN_FORWARD => 2 | ORIGIN_AUTOREPLY => 3 end%nat)
    (fun n => match n with 0 => Some ORIGIN_UNSPECIFIED | 1 => Some ORIGIN_LOCAL | 2 => Some ORIGIN_FORWARD
                         | 3 => Some ORIGIN_AUTOREPLY | _ => None end%nat)).
  by intros [].
Defined.

Record RecipientDSN := mkRcptDSN { rd_Address : string; rd_Notify : Z; rd_OrcptType : string; rd_Orcpt : string }.
#[global] Instance RecipientDSN_eq_dec : EqDecision RecipientDSN.
Proof. solve_decision. Defined.
#[global] Instance RecipientDSN_countable : Countable RecipientDSN.
Proof.
  apply (inj_countable' (fun r => (rd_Address r, rd_Notify r, rd_OrcptType r, rd_Orcpt r))
           (fun '(a, b, c, d) => mkRcptDSN a b c d)).
  by intros [].
Defined.

Record OutboundMessage := mkOut {
  om_Id : string; om_SenderId : string; om_SenderEmail : string; om_Recipients : list string; om_BlobHash : string;
  om_AttemptCount : Z; om_CreatedAt : Z; om_NextRetryAt : Z; om_Status : MessageStatus; om_StatusReason : string;
  om_FailedRecipients : list string; om_MessageGuid : string; om_Layout : list MessageSegment;
  om_Attachments : list BlobRef; om_Origin : OutboundOrigin; om_SenderAuthenticated : bool;
  om_DsnRet : string; om_DsnEnvid : string; om_RecipientDsn : list RecipientDSN; om_DelayReportSent : bool }.
#[global] Instance OutboundMessage_eq_dec : EqDecision OutboundMessage.
Proof. solve_decision. Defined.
#[global] Instance OutboundMessage_countable : Countable OutboundMessage.
Proof.
  apply (inj_countable'
    (fun m => ((om_Id m, om_SenderId m, om_SenderEmail m, om_Recipients m, om_BlobHash m, om_AttemptCount m, om_CreatedAt m,
                om_NextRetryAt m, om_Status m, om_StatusReason m),
               (om_FailedRecipients m, om_MessageGuid m, om_Layout m, om_Attachments m, om_Origin m,
                om_SenderAuthenticated m, om_DsnRet m, om_DsnEnvid m, om_RecipientDsn m, om_DelayReportSent m)))
    (fun '((a, b, c, d, e, f, g, h, i, j), (k, l, m, n, o, p, q, r, s, t)) =>
       mkOut a b c d e f g h i j k l m n o p q r s t)).
  by intros [].
Defined.

(** Field assignments of the Go code. *)
Definition set_schedule (m : OutboundMessage) (attempts next : Z) (st : MessageStatus) : OutboundMessage :=
  mkOut (om_Id m) (om_SenderId m) (om_SenderEmail m) (om_Recipients m) (om_BlobHash m) attempts (om_CreatedAt m)
    next st (om_StatusReason m) (om_FailedRecipients m) (om_MessageGuid m) (om_Layout m) (om_Attachments m)
    (om_Origin m) (om_SenderAuthenticated m) (om_DsnRet m) (om_DsnEnvid m) (om_RecipientDsn m) (om_DelayReportSent m).
Definition set_created (m : OutboundMessage) (created : Z) : OutboundMessage :=
  mkOut (om_Id m) (om_SenderId m) (om_SenderEmail m) (om_Recipients m) (om_BlobHash m) (om_AttemptCount m) created
    (om_NextRetryAt m) (om_Status m) (om_StatusReason m) (om_FailedRecipients m) (om_MessageGuid m) (om_Layout m)
    (om_Attachments m) (om_Origin m) (om_SenderAuthenticated m) (om_DsnRet m) (om_DsnEnvid m) (om_RecipientDsn m)
    (om_DelayReportSent m).
Definition set_reason (m : OutboundMessage) (reason : string) : OutboundMessage :=
  mkOut (om_Id m) (om_SenderId m) (om_SenderEmail m) (om_Recipients m) (om_BlobHash m) (om_AttemptCount m) (om_CreatedAt m)
    (om_NextRetryAt m) (om_Status m) reason (om_FailedRecipients m) (om_MessageGuid m) (om_Layout m)
    (om_Attachments m) (om_Origin m) (om_SenderAuthenticated m) (om_DsnRet m) (om_DsnEnvid m) (om_RecipientDsn m)
    (om_DelayReportSent m).
Definition set_recipients (m : OutboundMessage) (rcpts failed : list string) : OutboundMessage :=
  mkOut (om_Id m) (om_SenderId m) (om_SenderEmail m) rcpts (om_BlobHash m) (om_AttemptCount m) (om_CreatedAt m)
    (om_NextRetryAt m) (om_Status m) (om_StatusReason m) failed (om_MessageGuid m) (om_Layout m)
    (om_Attachments m) (om_Origin m) (om_SenderAuthenticated m) (om_DsnRet m) (om_DsnEnvid m) (om_RecipientDsn m)
    (om_DelayReportSent m).
Definition set_delay_sent (m : OutboundMessage) (b : bool) : OutboundMessage :=
  mkOut (om_Id m) (om_SenderId m) (om_SenderEmail m) (om_Recipients m) (om_BlobHash m) (om_AttemptCount m) (om_CreatedAt m)
    (om_NextRetryAt m) (om_Status m) (om_StatusReason m) (om_FailedRecipients m) (om_MessageGuid m) (om_Layout m)
    (om_Attachments m) (om_Origin m) (om_SenderAuthenticated m) (om_DsnRet m) (om_DsnEnvid m) (om_RecipientDsn m) b.

(** * NOTIFY (dsn.go) *)

Definition NotifySuccess : Z := 1.
Definition NotifyFailure : Z := 2.
Definition NotifyDelay : Z := 4.
Definition NotifyNever : Z := 8.
Definition NotifyWantsFailure (mask : Z) : bool := (mask =? 0) || has_bits mask NotifyFailure.
Definition NotifyWantsDelay (mask : Z) : bool := has_bits mask NotifyDelay.
Definition NotifyWantsSuccess (mask : Z) : bool := has_bits mask NotifySuccess.

Section Dsn.
Context `{GoUnicode}.
Definition norm_addr (a : string) : string := ToLower (TrimSpace a).
Definition recipientDSN (msg : OutboundMessage) (addr : string) : option RecipientDSN :=
  List.find (fun r => String.eqb (norm_addr (rd_Address r)) (norm_addr addr)) (om_RecipientDsn msg).
Definition RecipientNotify (msg : OutboundMessage) (addr : string) : Z :=
  match recipientDSN msg addr with Some r => rd_Notify r | None => 0 end.
End Dsn.

(** * Keys and schedule *)

Definition pendingPrefix : string := "/queue/pending/".
Definition bouncedPrefix : string := "/queue/bounced/".
Definition pendingKey (nextRetryAt : Z) (id : string) : string :=
  pendingPrefix +:+ fmt_0d 20 nextRetryAt +:+ "-" +:+ id.
Definition bouncedKey (id : string) : string := bouncedPrefix +:+ id.

Definition baseRetryDelay : Z := Minute.
Definition retryDelay (attempt maxInterval : Z) : Z :=
  let attempt := if attempt <? 0 then 0 else attempt in
  let attempt := if 20 <? attempt then 20 else attempt in
  let d := i64 (Z.shiftl baseRetryDelay attempt) in
  if maxInterval <? d then maxInterval else d.

Record QueueStats := mkStats { qs_PendingCount : Z; qs_FailedCount : Z; qs_OldestPendingSeconds : Z }.

Section QueueStore.
Context {DB : Type} `{PebbleDB DB} `{Codec OutboundMessage} `{Codec queueMovePayload} `{RaftApplier DB}.
Implicit Types ps : DB.

Definition Enqueue (now : Z) (msg : OutboundMessage) : GoM DB unit :=
  let msg := if om_NextRetryAt msg =? 0 then set_schedule msg (om_AttemptCount msg) now (om_Status msg) else msg in
  let msg := if om_CreatedAt msg =? 0 then set_created msg now else msg in
  let msg := set_schedule msg (om_AttemptCount msg) (om_NextRetryAt msg) STATUS_PENDING in
  let! data := glift (wrapf "marshaling outbound message" (marshal msg)) in
  ApplyCommand (mkCmd OP_PUT (pendingKey (om_NextRetryAt msg) (om_Id msg)) data).

(** The loop of [GetReady]; [n] more messages fit in the batch. *)
Fixpoint ready_loop (nowUnix : Z) (n : nat) (l : list (string * result string)) : result (list OutboundMessage) :=
  match l, n with
  | [], _ | _, O => Ok []
  | (_, v) :: l', S n' =>
      let? val := wrapf "reading queue value" (iter_value v) in
      match unmarshal val with
      | Err _ => ready_loop nowUnix n l'
      | Ok msg =>
          if nowUnix <? om_NextRetryAt msg then Ok []
          else let? msgs := ready_loop nowUnix n' l' in Ok (msg :: msgs)
      end
  end.
Definition GetReady ps (now : Z) (batchSize : nat) : result (list OutboundMessage) :=
  let? l := wrapf "scanning pending queue" (PrefixScan ps pendingPrefix) in
  ready_loop (unix_of now) batchSize l.

Definition findPendingKey ps (id : string) : result string :=
  let? l := wrapf ("scanning for message " +:+ id) (PrefixScan ps pendingPrefix) in
  match List.find (fun kv => HasSuffix kv.1 ("-" +:+ id)) l with
  | Some kv => Ok kv.1
  | None => Err (Errorf ("message " +:+ id +:+ " not found in queue"))
  end.

Definition applyMove (id oldKey newKey value : string) : GoM DB unit :=
  let! cmd := glift (BuildQueueMoveCommand id oldKey newKey value) in ApplyCommand cmd.

Definition MarkDelivered (id : string) : GoM DB unit :=
  let! key := gread (fun ps => findPendingKey ps id) in
  ApplyCommand (mkCmd OP_DELETE key "").
Definition q_Delete (id : string) : GoM DB unit :=
  let! key := gread (fun ps => findPendingKey ps id) in
  ApplyCommand (mkCmd OP_DELETE key "").

(** The caller keeps the mutated message: [failed_message] and [bounced_message]. *)
Definition failed_message (msg : OutboundMessage) (nextRetryAt : Z) : OutboundMessage :=
  set_schedule msg (i32 (om_AttemptCount msg + 1)) nextRetryAt STATUS_FAILED.
Definition MarkFailed (msg : OutboundMessage) (nextRetryAt : Z) : GoM DB unit :=
  let! oldKey := gread (fun ps => findPendingKey ps (om_Id msg)) in
  let msg := failed_message msg nextRetryAt in
  let! data := glift (wrapf "marshaling updated message" (marshal msg)) in
  applyMove (om_Id msg) oldKey (pendingKey (om_NextRetryAt msg) (om_Id msg)) data.

Definition bounced_message (msg : OutboundMessage) : OutboundMessage :=
  set_schedule msg (om_AttemptCount msg) (om_NextRetryAt msg) STATUS_BOUNCED.
Definition MarkBounced (msg : OutboundMessage) : GoM DB unit :=
  let! oldKey := gread (fun ps => findPendingKey ps (om_Id msg)) in
  let msg := bounced_message msg in
  let! data := glift (wrapf "marshaling bounced message" (marshal msg)) in
  applyMove (om_Id msg) oldKey (bouncedKey (om_Id msg)) data.

(** Statistics: the oldest is the first record that parses, in key order. *)
Fixpoint count_pending (now : Z) (l : list (string * result string)) (n : Z) (oldest : option Z) : result (Z * Z) :=
  match l with
  | [] => Ok (n, default 0 oldest)
  | (_, v) :: l' =>
      let? val := wrapf "reading pending value" (iter_value v) in
      match unmarshal val with
      | Err _ => count_pending now l' n oldest
      | Ok msg => count_pending now l' (i32 (n + 1)) (Some (default (i64 (now - om_CreatedAt msg)) oldest))
      end
  end.
Definition Stats ps (now : Z) : result QueueStats :=
  let? l := wrapf "scanning pending" (PrefixScan ps pendingPrefix) in
  let? (n, oldest) := count_pending now l 0 None in
  let? lb := wrapf "scanning bounced" (PrefixScan ps bouncedPrefix) in
  Ok (mkStats n (i32 (Z.of_nat (length lb))) oldest).

Definition q_Get ps (id : string) : result OutboundMessage :=
  let? key := findPendingKey ps id in
  let? data := wrapf "reading queue message" (Get ps key) in
  wrapf "parsing queue message" (unmarshal data).

Definition RetryNow (now : Z) (id : string) : GoM DB unit :=
  let! msg := gread (fun ps => q_Get ps id) in
  let! oldKey := gread (fun ps => findPendingKey ps id) in
  let msg := set_schedule msg (om_AttemptCount msg) now (om_Status msg) in
  let! data := glift (wrapf "marshaling message" (marshal msg)) in
  applyMove (om_Id msg) oldKey (pendingKey (om_NextRetryAt msg) (om_Id msg)) data.

(** The loop of [ListPending] and [ListBounced]: unreadable records are skipped. *)
Fixpoint list_loop (limit : nat) (l : list (string * result string)) : list OutboundMessage :=
  match l, limit with
  | [], _ | _, O => []
  | (_, v) :: l', S n =>
      match (let? val := iter_value v in unmarshal val) with
      | Err _ => list_loop limit l'
      | Ok msg => msg :: list_loop n l'
      end
  end.
Definition ListPending ps (limit : nat) : result (list OutboundMessage) :=
  let? l := wrapf "scanning pending" (PrefixScan ps pendingPrefix) in Ok (list_loop limit l).
Definition ListBounced ps (limit : nat) : result (list OutboundMessage) :=
  let? l := wrapf "scanning bounced" (PrefixScan ps bouncedPrefix) in Ok (list_loop limit l).

(** Retry each message; failures are not counted. *)
Fixpoint flush_loop (now : Z) (msgs : list OutboundMessage) (count : Z) ps : DB * Z :=
  match msgs with
  | [] => (ps, count)
  | msg :: msgs' =>
      let (ps', r) := RetryNow now (om_Id msg) ps in
      flush_loop now msgs' (if is_ok r then count + 1 else count) ps'
  end.
Definition FlushQueue (now : Z) : GoM DB Z := fun ps =>
  match ListPending ps 1000 with
  | Err e => (ps, Err e)
  | Ok pending => let (ps', n) := flush_loop now pending 0 ps in (ps', Ok n)
  end.

Definition DeleteBounced (id : string) : GoM DB unit := ApplyCommand (mkCmd OP_DELETE (bouncedKey id) "").

End QueueStore.
