(* ===== verification/QueueWorker.v ===== *)
(** The queue worker: [internal/queue/worker.go].

    The worker's effects are the transitions of the queue store and the reports
    it hands to the bounce generator, which the state records in order.  Blob
    reads, DKIM signing and the SMTP relay are the environment [Env] of a
    delivery attempt; nothing is assumed of them.  The clock is an argument. *)

From S2P Require Import Prelude GoStrings Pebble Proto QueueCommand AttSplit Queue.
From Stdlib Require Import Ascii.

Definition batchSize : nat := 100.
Definition defaultMaxLifetime : Z := 5 * 24 * Hour.
Definition defaultMaxRetryInterval : Z := Hour.
Definition defaultConcurrency : Z := 5.
Definition defaultDelayWarning : Z := 4 * Hour.
Definition maxConcurrency : Z := 64.

(** [wk_bouncer] tells whether a bounce generator is configured. *)
Record Worker := mkWorker {
  wk_bouncer : bool; wk_maxLifetime : Z; wk_maxRetryInterval : Z; wk_concurrency : Z; wk_delayWarning : Z }.

Inductive Option_ := MaxLifetimeOpt (d : Z) | MaxRetryIntervalOpt (d : Z) | DelayWarningOpt (d : Z) | ConcurrencyOpt (n : Z).
Definition WithMaxLifetime (d : Z) (w : Worker) : Worker :=
  if 0 <? d then mkWorker (wk_bouncer w) d (wk_maxRetryInterval w) (wk_concurrency w) (wk_delayWarning w) else w.
Definition WithMaxRetryInterval (d : Z) (w : Worker) : Worker :=
  if 0 <? d then mkWorker (wk_bouncer w) (wk_maxLifetime w) d (wk_concurrency w) (wk_delayWarning w) else w.
Definition WithDelayWarningAfter (d : Z) (w : Worker) : Worker :=
  if 0 <? d then mkWorker (wk_bouncer w) (wk_maxLifetime w) (wk_maxRetryInterval w) (wk_concurrency w) d else w.
Definition WithConcurrency (n : Z) (w : Worker) : Worker :=
  if (1 <=? n) && (n <=? maxConcurrency)
  then mkWorker (wk_bouncer w) (wk_maxLifetime w) (wk_maxRetryInterval w) n (wk_delayWarning w) else w.
Definition apply_option (w : Worker) (o : Option_) : Worker :=
  match o with
  | MaxLifetimeOpt d => WithMaxLifetime d w | MaxRetryIntervalOpt d => WithMaxRetryInterval d w
  | DelayWarningOpt d => WithDelayWarningAfter d w | ConcurrencyOpt n => WithConcurrency n w
  end.
Definition NewWorker (bouncer : bool) (opts : list Option_) : Worker :=
  foldl apply_option (mkWorker bouncer defaultMaxLifetime defaultMaxRetryInterval defaultConcurrency defaultDelayWarning) opts.

(** The calls of the bounce generator. *)
Inductive Report :=
| FailureReport (msg : OutboundMessage) (rcpts : list string) (reason : string)
| DelayReport (msg : OutboundMessage) (rcpts : list string) (reason : string) (retryUntil : Z)
| RelayedReport (msg : OutboundMessage) (rcpts : list string).

Record Env := mkEnv {
  (** opening a blob, then the outcomes of reading it to the end and of closing it *)
  env_blob : string -> result (result string * option err);
  env_sign : string -> result string;
  (** permanent failures, recipients relayed without DSN, error *)
  env_deliver : OutboundMessage -> string -> list string * list string * option err }.

Definition shouldSign (msg : OutboundMessage) : bool := negb (bool_decide (om_Origin msg = ORIGIN_FORWARD)).

Section Worker.
Context {DB : Type} `{PebbleDB DB} `{Codec OutboundMessage} `{Codec queueMovePayload} `{RaftApplier DB} `{GoUnicode}.

Record WState := mkWState { ws_store : DB; ws_reports : list Report }.
Implicit Types (w : Worker) (st : WState) (msg : OutboundMessage).

Definition report (r : Report) st : WState := mkWState (ws_store st) (ws_reports st ++ [r]).
(** Run a queue transition. *)
Definition on_queue {A} (m : GoM DB A) st : WState * result A :=
  let (s', r) := m (ws_store st) in (mkWState s' (ws_reports st), r).

Definition pruneRecipients (all remove : list string) : list string :=
  if Nat.eqb (length remove) 0 then all else
  let drop := norm_addr <$> remove in
  List.filter (fun r => negb (existsb (String.eqb (norm_addr r)) drop)) all.

Definition mayReport w msg : bool :=
  if negb (wk_bouncer w) then false
  else if String.eqb (TrimSpace (om_SenderEmail msg)) "" then false
  else negb (bool_decide (om_Origin msg = ORIGIN_FORWARD) && negb (om_SenderAuthenticated msg)).

Definition generateBounce w msg (recipients : list string) (reason : string) st : WState :=
  if negb (mayReport w msg) then st else
  let wanted := List.filter (fun r => NotifyWantsFailure (RecipientNotify msg r)) recipients in
  if Nat.eqb (length wanted) 0 then st else report (FailureReport msg wanted reason) st.

Definition delayReportRecipients w msg (now : Z) : list string :=
  if negb (wk_bouncer w) || om_DelayReportSent msg || (wk_delayWarning w <=? 0) ||
     (time_sub now (time_unix (om_CreatedAt msg)) <? wk_delayWarning w) then [] else
  let to := List.filter (fun r => NotifyWantsDelay (RecipientNotify msg r)) (om_Recipients msg) in
  if Nat.eqb (length to) 0 || negb (mayReport w msg) then [] else to.

Definition reportRelayed w msg (recipients : list string) st : WState :=
  if Nat.eqb (length recipients) 0 || negb (mayReport w msg) then st else report (RelayedReport msg recipients) st.

Definition handlePermanentFailure w msg (reason : string) st : WState :=
  let st := if wk_bouncer w then generateBounce w msg (om_Recipients msg) reason st else st in
  (on_queue (MarkBounced msg) st).1.

Definition handleFailure w (now : Z) msg (reason : string) st : WState :=
  let msg := if om_CreatedAt msg =? 0 then set_created msg (unix_of now) else msg in
  let next := time_add now (retryDelay (i32 (om_AttemptCount msg + 1)) (wk_maxRetryInterval w)) in
  let deadline := time_add (time_unix (om_CreatedAt msg)) (wk_maxLifetime w) in
  if deadline <? next then
    let st := if wk_bouncer w then generateBounce w msg (om_Recipients msg) reason st else st in
    (on_queue (MarkBounced msg) st).1
  else
    let msg := set_reason msg reason in
    let delayTo := delayReportRecipients w msg now in
    let due := negb (Nat.eqb (length delayTo) 0) in
    let msg := if due then set_delay_sent msg true else msg in
    match on_queue (MarkFailed msg (unix_of next)) st with
    | (st, Err _) => st
    | (st, Ok _) => if due then report (DelayReport (failed_message msg (unix_of next)) delayTo reason deadline) st else st
    end.

(** The body of the message, or how to fail: permanently or not. *)
Definition queue_meta msg : MailMeta := split_meta (om_BlobHash msg) (om_Attachments msg) (om_Layout msg).
Definition read_body (env : Env) msg : string + (bool * string) :=
  if negb (Nat.eqb (length (om_Layout msg)) 0) then
    match FullRawMessage (queue_meta msg) (fun h => let? (data, _) := env_blob env h in data) with
    | Ok raw => inl raw
    | Err e => if errors_is e ErrNotFound
               then inr (true, "message body no longer in the blob store: " +:+ err_text e)
               else inr (false, "reconstructing message: " +:+ err_text e)
    end
  else
    match env_blob env (om_BlobHash msg) with
    | Err e => if errors_is e ErrNotFound
               then inr (true, "message body no longer in the blob store: " +:+ err_text e)
               else inr (false, "blob not found: " +:+ err_text e)
    | Ok (Err e, _) => inr (false, "reading blob: " +:+ err_text e)
    | Ok (Ok _, Some e) => inr (false, "closing blob: " +:+ err_text e)
    | Ok (Ok raw, None) => inl raw
    end.

Definition sign (env : Env) msg (raw : string) : string :=
  if shouldSign msg then match env_sign env raw with Ok s => s | Err _ => raw end else raw.

Definition processMessage w (env : Env) (now : Z) msg st : WState :=
  match read_body env msg with
  | inr (true, reason) => handlePermanentFailure w msg reason st
  | inr (false, reason) => handleFailure w now msg reason st
  | inl raw =>
      let '(permanentFails, relayedNoDSN, deliveryErr) := env_deliver env msg (sign env msg raw) in
      let failed := negb (Nat.eqb (length permanentFails) 0) in
      let st := if failed && wk_bouncer w
                then generateBounce w msg permanentFails
                       (if String.eqb (om_StatusReason msg) "" then "delivery permanently failed" else om_StatusReason msg) st
                else st in
      let msg := if failed then set_recipients msg (pruneRecipients (om_Recipients msg) permanentFails)
                                  (om_FailedRecipients msg ++ permanentFails) else msg in
      match deliveryErr with
      | Some e =>
          if Nat.eqb (length (om_Recipients msg)) 0 then (on_queue (MarkDelivered (om_Id msg)) st).1
          else handleFailure w now (set_reason msg (err_text e)) (err_text e) st
      | None =>
          match on_queue (MarkDelivered (om_Id msg)) st with
          | (st, Err _) => st
          | (st, Ok _) => reportRelayed w msg relayedNoDSN st
          end
      end
  end.

End Worker.
Arguments mkWState {DB} _ _.
Arguments ws_store {DB} _.
Arguments ws_reports {DB} _.
