(* ===== verification/QueueThm.v ===== *)
(** Theorems on the outbound queue and its worker. *)

From S2P Require Import Prelude GoStrings Pebble Proto QueueCommand AttSplit AttSplitThm Queue QueueWorker.
From Stdlib Require Import Ascii.

(** * The retry schedule *)

Definition clamp_attempt (attempt : Z) : Z := Z.max 0 (Z.min 20 attempt).

Lemma retryDelay_eq attempt maxInterval :
  retryDelay attempt maxInterval = Z.min (2 ^ clamp_attempt attempt * Minute) maxInterval.
Proof.
  unfold retryDelay, baseRetryDelay, clamp_attempt. cbv zeta.
  set (a := if 20 <? (if attempt <? 0 then 0 else attempt) then 20 else if attempt <? 0 then 0 else attempt).
  assert (a = Z.max 0 (Z.min 20 attempt)) as <-.
  { unfold a. destruct (Z.ltb_spec attempt 0), (Z.ltb_spec 20 attempt); cbn; lia. }
  assert (0 <= a <= 20) as Ha.
  { unfold a. destruct (Z.ltb_spec attempt 0); cbn; [lia|]. destruct (Z.ltb_spec 20 attempt); lia. }
  rewrite Z.shiftl_mul_pow2 by lia. rewrite i64_small.
  - rewrite Z.mul_comm. destruct (Z.ltb_spec maxInterval (2 ^ a * Minute)); lia.
  - assert (1 <= 2 ^ a <= 2 ^ 20) by (split; [apply Z.pow_le_mono_r with (b := 0); lia|apply Z.pow_le_mono_r; lia]).
    unfold in_i64, Minute, Second. lia.
Qed.

(** The retry schedule.  For every attempt number, also a negative or a
    huge one, the delay is [2^attempt] minutes with the exponent clamped to
    [0..20], capped at the configured interval: positive, never above the cap,
    never overflowing, and never shorter for a later attempt. *)
Theorem retry_delay_schedule maxInterval :
  0 < maxInterval ->
  (forall attempt, retryDelay attempt maxInterval = Z.min (2 ^ clamp_attempt attempt * Minute) maxInterval) /\
  (forall attempt, 0 < retryDelay attempt maxInterval <= maxInterval) /\
  (forall a b, a <= b -> retryDelay a maxInterval <= retryDelay b maxInterval).
Proof.
  intros Hm. split; [intros; apply retryDelay_eq|]. split.
  - intros attempt. rewrite retryDelay_eq.
    assert (0 < 2 ^ clamp_attempt attempt * Minute); [|lia].
    apply Z.mul_pos_pos; [apply Z.pow_pos_nonneg; unfold clamp_attempt; lia|done].
  - intros a b Hab. rewrite !retryDelay_eq. apply Z.min_le_compat_r, Z.mul_le_mono_nonneg_r; [done|].
    apply Z.pow_le_mono_r; [lia|]. unfold clamp_attempt. lia.
Qed.

Lemma retry_delay_schedule_witness : retryDelay 3 Hour = 8 * Minute /\ retryDelay 400 Hour = Hour.
Proof.
  destruct (retry_delay_schedule Hour) as [Heq _]; [reflexivity|]. rewrite !Heq. split; vm_compute; reflexivity.
Defined.

(** * Keys *)

Lemma pending_key_prefix t id : HasPrefix (pendingKey t id) pendingPrefix = true.
Proof. apply prefix_app. Qed.

Definition in_time (t : Z) : Prop := 0 <= t < 2 ^ 63.
Lemma in_time_fits t : in_time t -> 0 <= t < 10 ^ Z.of_nat 20.
Proof. unfold in_time. change (10 ^ Z.of_nat 20) with 100000000000000000000. lia. Qed.

Lemma pendingKey_inj t id t' id' :
  in_time t -> in_time t' -> pendingKey t id = pendingKey t' id' -> t = t' /\ id = id'.
Proof.
  intros Ht%in_time_fits Ht'%in_time_fits E. unfold pendingKey in E. apply str_app_inv_head in E.
  apply str_app_inj_len in E as [E1 E2]; [|rewrite !fmt_0d_length by (done || lia); done].
  apply fmt_0d_inj in E1; [|lia|done|done]. split; [done|]. by apply str_app_inv_head in E2.
Qed.

(** The ID of a key, when IDs all have the same length. *)
Lemma pendingKey_suffix t id id' :
  String.length id = String.length id' -> HasSuffix (pendingKey t id') ("-" +:+ id) = true -> id = id'.
Proof.
  intros Hl [a E]%HasSuffix_inv. unfold pendingKey in E. rewrite <- !str_app_assoc in E.
  rewrite !str_app_assoc in E. rewrite <- (str_app_assoc pendingPrefix) in E.
  apply str_app_inj_len_r in E as [_ E]; [|by rewrite !str_length_app, Hl]. by apply str_app_inv_head in E.
Qed.

(** * The queue's invariant *)

Section Queue.
Context {DB : Type} `{PebbleLaws DB} `{ProtoLaws OutboundMessage} (L : nat).
Implicit Types (c : gmap string string) (s : DB) (m : OutboundMessage).

Definition filed_as (k : string) m : Prop :=
  k = pendingKey (om_NextRetryAt m) (om_Id m) /\ in_time (om_NextRetryAt m) /\ String.length (om_Id m) = L.

(** Every pending key holds a record, under the key of its retry time and ID;
    IDs have one length (they are UUIDs); and no ID is filed twice. *)
Record queue_ok c : Prop := {
  qk_filed k v : c !! k = Some v -> HasPrefix k pendingPrefix = true -> exists m, unmarshal v = Ok m /\ filed_as k m;
  qk_once k v m k' v' m' : c !! k = Some v -> c !! k' = Some v' -> HasPrefix k pendingPrefix = true ->
    HasPrefix k' pendingPrefix = true -> unmarshal v = Ok m -> unmarshal v' = Ok m' -> om_Id m = om_Id m' -> k = k';
}.

(** The pending records, in key order. *)
Definition pending_list c : list OutboundMessage :=
  omap (fun kv => match unmarshal kv.2 with Ok m => Some m | Err _ => None end) (scan pendingPrefix c).

(** Records in key order are in retry order. *)
Lemma pending_sorted c :
  queue_ok c -> StronglySorted (fun a b => om_NextRetryAt a <= om_NextRetryAt b) (pending_list c).
Proof.
  intros Hq. unfold pending_list.
  assert (forall kv, kv ∈ scan pendingPrefix c -> exists m, unmarshal kv.2 = Ok m /\ filed_as kv.1 m) as Hall.
  { intros [k v] [Hk Hp]%elem_of_scan. by apply (qk_filed _ Hq k v). }
  pose proof (range_sorted pendingPrefix (prefixUpperBound pendingPrefix) c) as Hso. fold (scan pendingPrefix c) in Hso.
  revert Hall Hso. generalize (scan pendingPrefix c). intros l0 Hall Hso. induction Hso as [|[k v] l Hso IH Hfor]; [constructor|]. cbn.
  destruct (Hall (k, v)) as (m&Hm&Hk&Ht&_); [set_solver|]. cbn in Hm, Hk. subst k. rewrite Hm.
  constructor; [apply IH; intros; apply Hall; set_solver|]. apply Forall_forall. intros m' Hm'.
  apply list_elem_of_omap in Hm' as ([k' v']&Hin&Hm'). cbn in Hm'.
  destruct (Hall (k', v')) as (m''&Hm''&Hk'&Ht'&_); [set_solver|]. cbn in Hm'', Hk'. rewrite Hm'' in Hm'. simplify_eq.
  pose proof (proj1 (Forall_forall _ _) Hfor _ Hin) as Hle. unfold key_le in Hle. cbn [fst] in Hle.
  eapply fmt_0d_key_order in Hle; [done|lia|by apply in_time_fits..].
Qed.

Lemma ready_loop_spec nowUnix n l :
  (forall kv, kv ∈ l -> exists m, unmarshal kv.2 = Ok m) ->
  StronglySorted (fun a b => om_NextRetryAt a <= om_NextRetryAt b)
    (omap (fun kv : string * string => match unmarshal kv.2 with Ok m => Some m | Err _ => None end) l) ->
  ready_loop nowUnix n ((fun kv => (kv.1, Ok kv.2)) <$> l) =
  Ok (take n (List.filter (fun m => om_NextRetryAt m <=? nowUnix)
     (omap (fun kv : string * string => match unmarshal kv.2 with Ok m => Some m | Err _ => None end) l))).
Proof.
  revert n. induction l as [|[k v] l IH]; intros n Hall Hso; [by destruct n|]. destruct n as [|n]; [done|].
  destruct (Hall (k, v)) as [m Hm]; [set_solver|]. cbn in *. rewrite Hm in Hso |- *. cbn [result_bind wrapf].
  apply StronglySorted_inv in Hso as [Hso Hfor]. cbn [List.filter].
  destruct (Z.ltb_spec nowUnix (om_NextRetryAt m)) as [Hfut|].
  - rewrite (proj2 (Z.leb_gt _ _)) by lia. do 2 f_equal.
    symmetry. apply (f_equal (take (S n)) (y := [])). clear -Hfor Hfut.
    induction Hfor as [|x l' Hx _ IHf]; [done|]. cbn. by rewrite (proj2 (Z.leb_gt _ _)) by lia.
  - rewrite (proj2 (Z.leb_le _ _)) by lia. rewrite IH; [done| |done]. intros. apply Hall. set_solver.
Qed.

Lemma GetReady_due s now n :
  healthy s -> queue_ok (contents s) ->
  GetReady s now n = Ok (take n (List.filter (fun m => om_NextRetryAt m <=? unix_of now) (pending_list (contents s)))).
Proof.
  intros Hs Hq. unfold GetReady. rewrite PrefixScan_healthy by done.
  cbn [wrapf result_bind]. apply ready_loop_spec; [|by apply pending_sorted].
  intros [k v] [Hk Hp]%elem_of_scan. destruct (qk_filed _ Hq k v Hk Hp) as (m&Hm&_). eauto.
Qed.

(** The ready batch.  On a well-formed queue [GetReady] returns the due
    messages in order of retry time, all of them or the first [n]: stopping at
    the first message in the future misses none, because the key order is the
    retry order. *)
Theorem ready_batch_exact s now n :
  healthy s -> queue_ok (contents s) ->
  GetReady s now n =
    Ok (take n (List.filter (fun m => om_NextRetryAt m <=? unix_of now) (pending_list (contents s)))) /\
  StronglySorted (fun a b => om_NextRetryAt a <= om_NextRetryAt b) (pending_list (contents s)).
Proof. intros Hs Hq. split; [by apply GetReady_due|by apply pending_sorted]. Qed.

(** [findPendingKey] finds the record's own key. *)
Lemma findPendingKey_exact s id k v m :
  healthy s -> queue_ok (contents s) -> contents s !! k = Some v -> HasPrefix k pendingPrefix = true ->
  unmarshal v = Ok m -> om_Id m = id -> findPendingKey s id = Ok k.
Proof.
  intros Hs Hq Hk Hp Hm Hid. unfold findPendingKey. rewrite PrefixScan_healthy by done. cbn [wrapf result_bind].
  destruct (List.find _ _) as [[k' v']|] eqn:E.
  - apply List.find_some in E as [Hin Hsuf]. cbn in Hsuf |- *. f_equal.
    apply list_elem_of_In, list_elem_of_fmap in Hin as ([k1 v1]&[= -> ->]&[Hk1 Hp1]%elem_of_scan).
    destruct (qk_filed _ Hq k1 v1 Hk1 Hp1) as (m1&Hm1&Hk1e&_&Hl1). destruct (qk_filed _ Hq k v Hk Hp) as (m2&Hm2&_&_&Hl2).
    assert (m2 = m) as -> by congruence. rewrite Hk1e in Hsuf. apply pendingKey_suffix in Hsuf; [|congruence].
    symmetry. eapply (qk_once _ Hq k v m k1 v1 m1); try done. congruence.
  - exfalso. destruct (qk_filed _ Hq k v Hk Hp) as (m2&Hm2&Hke&_). assert (m2 = m) as -> by congruence.
    pose proof (List.find_none _ _ E (k, Ok v)) as Hn.
    assert (List.In (k, Ok v) ((fun kv : string * string => (kv.1, Ok kv.2)) <$> scan pendingPrefix (contents s))) as Hin.
    { apply list_elem_of_In, list_elem_of_fmap. exists (k, v). split; [done|]. by apply elem_of_scan. }
    specialize (Hn Hin). cbn in Hn. rewrite Hke, Hid in Hn. unfold pendingKey in Hn.
    rewrite <- !str_app_assoc, (str_app_assoc _ "-") in Hn. by rewrite HasSuffix_app in Hn.
Qed.

(** ** Transitions *)

(** Where message [id] is: a pending key, or its key among the bounced. *)
Definition holds c (id k : string) (v : string) : Prop :=
  c !! k = Some v /\
  (k = bouncedKey id \/ HasPrefix k pendingPrefix = true /\ exists m, unmarshal v = Ok m /\ om_Id m = id).

Lemma bounced_not_pending id : HasPrefix (bouncedKey id) pendingPrefix = false.
Proof. by vm_compute. Qed.

(** Moving one message keeps the queue well formed and the others in place. *)
Lemma move_ok c k v m m' v' :
  queue_ok c -> c !! k = Some v -> HasPrefix k pendingPrefix = true -> unmarshal v = Ok m ->
  unmarshal v' = Ok m' -> om_Id m' = om_Id m -> in_time (om_NextRetryAt m') ->
  let c' := <[pendingKey (om_NextRetryAt m') (om_Id m') := v']> (delete k c) in
  queue_ok c' /\ forall id' k' x, id' <> om_Id m -> holds c' id' k' x <-> holds c id' k' x.
Proof.
  intros Hq Hk Hp Hm Hm' Hid Ht. cbv zeta. set (k1 := pendingKey _ _).
  destruct (qk_filed _ Hq k v Hk Hp) as (m0&Hm0&Hke&Ht0&Hl). assert (m0 = m) as -> by congruence.
  (* a pending record of the new map is the moved one or an old one with another ID *)
  assert (forall k' x y, <[k1 := v']> (delete k c) !! k' = Some x -> HasPrefix k' pendingPrefix = true -> unmarshal x = Ok y ->
            k' = k1 /\ y = m' \/ c !! k' = Some x /\ om_Id y <> om_Id m) as Hcases.
  { intros k' x y [[<- <-]|[Hne [Hne' Hx]%lookup_delete_Some]]%lookup_insert_Some Hp' Hy; [left; split; [done|congruence]|right].
    split; [done|]. intros E. apply Hne'. symmetry. by eapply (qk_once _ Hq k' x y k v m). }
  split; [split|].
  - intros k' x Hx Hp'. destruct (decide (k' = k1)) as [->|Hne].
    + rewrite lookup_insert_eq in Hx. simplify_eq. exists m'. split; [done|]. split; [done|]. split; [done|congruence].
    + rewrite lookup_insert_ne in Hx by done. apply lookup_delete_Some in Hx as [_ Hx]. by apply (qk_filed _ Hq).
  - intros ka va ma kb vb mb Ha Hb Hpa Hpb Hma Hmb E.
    destruct (Hcases _ _ _ Ha Hpa Hma) as [[-> ->]|[Hca Hna]], (Hcases _ _ _ Hb Hpb Hmb) as [[-> ->]|[Hcb Hnb]]; try done; try congruence.
    by eapply (qk_once _ Hq ka va ma kb vb mb).
  - intros id' k' x Hne. unfold holds. split; intros [Hx Hwhere].
    + destruct Hwhere as [->|(Hp'&y&Hy&<-)].
      * rewrite lookup_insert_ne in Hx by (intros E; pose proof (pending_key_prefix (om_NextRetryAt m') (om_Id m')) as Hpp;
          fold k1 in Hpp; rewrite E, bounced_not_pending in Hpp; done).
        apply lookup_delete_Some in Hx as [_ Hx]. eauto.
      * destruct (Hcases _ _ _ Hx Hp' Hy) as [[-> ->]|[Hx' _]]; [congruence|]. eauto 10.
    + assert (k' <> k) as Hk'.
      { intros ->. assert (x = v) as -> by congruence. destruct Hwhere as [->|(_&y&Hy&<-)]; [by rewrite bounced_not_pending in Hp|].
        congruence. }
      assert (k' <> k1) as Hk1.
      { intros ->. destruct Hwhere as [E|(Hp'&y&Hy&<-)].
        - pose proof (pending_key_prefix (om_NextRetryAt m') (om_Id m')) as Hpp. fold k1 in Hpp. by rewrite E, bounced_not_pending in Hpp.
        - destruct (qk_filed _ Hq k1 x Hx Hp') as (y'&Hy'&Hke'&Hty&_). assert (y' = y) as -> by congruence.
          apply pendingKey_inj in Hke' as [_ E]; [|done|done]. congruence. }
      split; [|done]. rewrite lookup_insert_ne, lookup_delete_ne by done. done.
Qed.
End Queue.

(** * The applier the queue store relies on *)

(** A queue command takes effect or not; if it is reported done, it did.  The
    applier may write its [qown] keys besides. *)
Definition queue_effect `{Codec queueMovePayload} (cmd : RaftCommand) (c : gmap string string) : option (gmap string string) :=
  match cmd_Op cmd with
  | OP_PUT => if IsQueueSyntheticCommand (cmd_Key cmd)
              then match unmarshal (cmd_Value cmd) with Ok p => Some (moved p c) | Err _ => None end
              else Some (<[cmd_Key cmd := cmd_Value cmd]> c)
  | OP_DELETE => Some (delete (cmd_Key cmd) c)
  | OP_UNSPECIFIED => None
  end.
Definition queue_command (cmd : RaftCommand) : Prop :=
  IsQueueSyntheticCommand (cmd_Key cmd) = true /\ cmd_Op cmd = OP_PUT \/
  HasPrefix (cmd_Key cmd) "/queue/" = true /\ cmd_Op cmd <> OP_UNSPECIFIED.

Class QueueApplier (DB : Type) `{PebbleLaws DB} `{Codec queueMovePayload} `{RaftApplier DB} := {
  qown : string -> bool;
  qready : DB -> Prop;
  qown_queue k : HasPrefix k "/queue/" = true -> qown k = false;
  qap cmd s s' r :
    qready s -> queue_command cmd -> ApplyCommand cmd s = (s', r) ->
    (is_ok r = false /\ forall k, qown k = false -> contents s' !! k = contents s !! k) \/
    exists c', queue_effect cmd (contents s) = Some c' /\ forall k, qown k = false -> contents s' !! k = c' !! k;
}.

Section Transitions.
Context {DB : Type} `{PebbleLaws DB} `{ProtoLaws OutboundMessage} `{JsonLaws queueMovePayload} `{RaftApplier DB}
  `{!QueueApplier DB} (L : nat).
(** The fields of a move are bytes, which JSON carries in base64. *)
Hypothesis move_clean : forall p : queueMovePayload, json_clean p.
Implicit Types (c : gmap string string) (s : DB) (m msg : OutboundMessage).

Definition agree c c' : Prop := forall k, HasPrefix k "/queue/" = true -> c !! k = c' !! k.

Lemma pending_queue k : HasPrefix k pendingPrefix = true -> HasPrefix k "/queue/" = true.
Proof. intros [r ->]%prefix_spec. apply prefix_spec. by exists ("pending/" +:+ r). Qed.
Lemma bounced_queue id : HasPrefix (bouncedKey id) "/queue/" = true.
Proof. apply prefix_spec. by exists ("bounced/" +:+ id). Qed.

Lemma agree_ok c c' : agree c' c -> queue_ok L c -> queue_ok L c'.
Proof.
  intros Ha [Hf Ho]. split.
  - intros k v Hk Hp. apply (Hf k v); [|done]. by rewrite <- Ha by (by apply pending_queue).
  - intros k v m k' v' m' Hk Hk' Hp Hp' Hm Hm' E. eapply (Ho k v m k' v' m'); try done;
      by rewrite <- Ha by (by apply pending_queue).
Qed.
Lemma agree_holds c c' id k v : agree c' c -> holds c' id k v <-> holds c id k v.
Proof.
  intros Ha. unfold holds.
  assert (k = bouncedKey id \/ (HasPrefix k pendingPrefix = true /\ exists m, unmarshal v = Ok m /\ om_Id m = id) ->
    c' !! k = c !! k) as E.
  { intros [->|[Hp _]]; apply Ha; [apply bounced_queue|by apply pending_queue]. }
  split; intros [Hk Hw]; (split; [|exact Hw]); rewrite <- Hk; [symmetry|]; by apply E.
Qed.

Lemma bounce_ok c k v m v' :
  queue_ok L c -> c !! k = Some v -> HasPrefix k pendingPrefix = true -> unmarshal v = Ok m ->
  let c' := <[bouncedKey (om_Id m) := v']> (delete k c) in
  queue_ok L c' /\ forall id' k' x, id' <> om_Id m -> holds c' id' k' x <-> holds c id' k' x.
Proof.
  intros Hq Hk Hp Hm. cbv zeta.
  assert (forall k' x, HasPrefix k' pendingPrefix = true ->
    <[bouncedKey (om_Id m) := v']> (delete k c) !! k' = Some x -> c !! k' = Some x /\ k' <> k) as Hpend.
  { intros k' x Hp' [[<- _]|[_ [? ?]%lookup_delete_Some]]%lookup_insert_Some; [by rewrite bounced_not_pending in Hp'|done]. }
  split; [split|].
  - intros k' x Hx Hp'. apply (qk_filed _ _ Hq); [by apply Hpend|done].
  - intros ka va ma kb vb mb Ha Hb Hpa Hpb. apply Hpend in Ha as [Ha _]; [|done]. apply Hpend in Hb as [Hb _]; [|done].
    intros. by eapply (qk_once _ _ Hq ka va ma kb vb mb).
  - intros id' k' x Hne. unfold holds. split; intros [Hx Hw].
    + split; [|done]. apply lookup_insert_Some in Hx as [[<- _]|[_ [_ ?]%lookup_delete_Some]]; [|done].
      destruct Hw as [E|[Hp' _]]; [|by rewrite bounced_not_pending in Hp']. by apply str_app_inv_head in E.
    + split; [|done]. apply lookup_insert_Some. right. split.
      * intros <-. destruct Hw as [E|[Hp' _]]; [|by rewrite bounced_not_pending in Hp']. by apply str_app_inv_head in E.
      * apply lookup_delete_Some. split; [|done]. intros <-. destruct Hw as [->|(_&y&Hy&<-)]; [by rewrite bounced_not_pending in Hp|].
        congruence.
Qed.

Lemma applyMove_cases id old new v s s' r :
  qready s -> applyMove id old new v s = (s', r) ->
  (is_ok r = false /\ agree (contents s') (contents s)) \/ agree (contents s') (moved (mkQueueMove old new v) (contents s)).
Proof.
  intros Hr. unfold applyMove, BuildQueueMoveCommand.
  destruct (String.eqb id ""); [intros [= <- <-]; by left|]. destruct (String.eqb new ""); [intros [= <- <-]; by left|].
  destruct (json_total (mkQueueMove old new v)) as [data Hd]. rewrite Hd. cbn [wrapf result_bind].
  unfold gbind, glift. intros Ha.
  assert (queue_command (mkCmd OP_PUT (queueMovePrefix +:+ id) data)) as Hc by (left; split; [apply prefix_app|done]).
  destruct (qap _ _ _ _ Hr Hc Ha) as [[? Hs]|(c'&He&Hs)]; [left|right].
  - split; [done|]. intros k Hk. apply Hs. by apply qown_queue.
  - unfold queue_effect in He. cbn [cmd_Op cmd_Key cmd_Value] in He.
    replace (IsQueueSyntheticCommand _) with true in He by (symmetry; apply prefix_app).
    rewrite (json_roundtrip _ _ Hd (move_clean _)) in He. simplify_eq. intros k Hk. apply Hs. by apply qown_queue.
Qed.

(** The transitions of message [msg], with the record each leaves and where. *)
Inductive transition msg : GoM DB unit -> OutboundMessage -> string -> Prop :=
| TFailed next : in_time next ->
    transition msg (MarkFailed msg next) (failed_message msg next) (pendingKey next (om_Id msg))
| TBounced : transition msg (MarkBounced msg) (bounced_message msg) (bouncedKey (om_Id msg)).

Lemma transition_moves msg op m' k' s s' r k :
  transition msg op m' k' -> qready s -> findPendingKey s (om_Id msg) = Ok k -> op s = (s', r) ->
  (is_ok r = false /\ agree (contents s') (contents s)) \/
  exists v', unmarshal v' = Ok m' /\ agree (contents s') (moved (mkQueueMove k k' v') (contents s)).
Proof.
  intros Ht Hr Hf. destruct Ht as [next _|].
  - unfold MarkFailed, gbind, gread. rewrite Hf. unfold glift.
    destruct (marshal (failed_message msg next)) as [data|e] eqn:Hd; cbn [wrapf]; [|intros [= <- <-]; by left].
    intros [?|Ha]%applyMove_cases; [by left|right|done]. exists data. split; [by apply proto_roundtrip|done].
  - unfold MarkBounced, gbind, gread. rewrite Hf. unfold glift.
    destruct (marshal (bounced_message msg)) as [data|e] eqn:Hd; cbn [wrapf]; [|intros [= <- <-]; by left].
    intros [?|Ha]%applyMove_cases; [by left|right|done]. exists data. split; [by apply proto_roundtrip|done].
Qed.

(** The queue after a transition: as before, or with the record moved. *)
Lemma transition_result msg op m' k' s s' r k v m :
  healthy s -> qready s -> queue_ok L (contents s) ->
  contents s !! k = Some v -> HasPrefix k pendingPrefix = true -> unmarshal v = Ok m -> om_Id m = om_Id msg ->
  transition msg op m' k' -> op s = (s', r) ->
  (is_ok r = false /\ agree (contents s') (contents s)) \/
  exists v', unmarshal v' = Ok m' /\ agree (contents s') (<[k' := v']> (delete k (contents s))).
Proof.
  intros Hs Hrd Hq Hk Hp Hm Hid Ht Hop.
  assert (findPendingKey s (om_Id msg) = Ok k) as Hf by (rewrite <- Hid; by eapply findPendingKey_exact).
  destruct (transition_moves _ _ _ _ _ _ _ _ Ht Hrd Hf Hop) as [?|(v'&Hv'&Ha)]; [by left|right].
  exists v'. split; [done|]. unfold moved in Ha. cbn in Ha. by destruct (String.eqb_spec k "") as [->|].
Qed.

Lemma transition_place msg op m' k' v' m c :
  transition msg op m' k' -> om_Id m = om_Id msg -> unmarshal v' = Ok m' -> holds (<[k' := v']> c) (om_Id m) k' v'.
Proof.
  intros Ht Hid Hv'. split; [apply lookup_insert_eq|]. destruct Ht as [next _|]; [right|left; by rewrite Hid].
  split; [apply pending_key_prefix|]. eauto.
Qed.

(** Where a message that was pending can be found after its transition. *)
Lemma transition_found msg op m' k' s s' r k v m k1 v1 :
  healthy s -> qready s -> queue_ok L (contents s) ->
  contents s !! k = Some v -> HasPrefix k pendingPrefix = true -> unmarshal v = Ok m -> om_Id m = om_Id msg ->
  contents s !! bouncedKey (om_Id m) = None ->
  transition msg op m' k' -> op s = (s', r) -> holds (contents s') (om_Id m) k1 v1 ->
  v1 = v \/ unmarshal v1 = Ok m'.
Proof.
  intros Hs Hrd Hq Hk Hp Hm Hid Hb Ht Hop Hh.
  assert (forall x, holds (contents s) (om_Id m) k1 x -> k1 = k /\ x = v) as Hold.
  { intros x [Hx [->|(Hp'&y&Hy&E)]]; [congruence|].
    assert (k1 = k) as -> by (by eapply (qk_once _ _ Hq k1 x y k v m)). split; [done|congruence]. }
  destruct (transition_result _ _ _ _ _ _ _ _ _ _ Hs Hrd Hq Hk Hp Hm Hid Ht Hop) as [[_ Ha]|(v'&Hv'&Ha)];
    apply (agree_holds _ _ _ _ _ Ha) in Hh; [left; by eapply Hold|].
  destruct Hh as [Hx Hw]. apply lookup_insert_Some in Hx as [[_ <-]|[_ [Hne Hx]%lookup_delete_Some]]; [by right|].
  exfalso. apply Hne. symmetry. eapply Hold. split; [exact Hx|exact Hw].
Qed.

(** A transition never loses a message.  Rescheduling or bouncing a
    pending message, whatever the outcome of the command, leaves the queue well
    formed and the message in it, in its old place or the new one, with every
    other message where it was; when the command is reported done it is the
    updated record at the new place. *)
Theorem queue_transition_keeps_message msg op m' k' s s' r k v m :
  healthy s -> qready s -> queue_ok L (contents s) ->
  contents s !! k = Some v -> HasPrefix k pendingPrefix = true -> unmarshal v = Ok m -> om_Id m = om_Id msg ->
  transition msg op m' k' -> op s = (s', r) ->
  queue_ok L (contents s') /\
  (exists k1 v1, holds (contents s') (om_Id msg) k1 v1) /\
  (is_ok r = true -> exists v', unmarshal v' = Ok m' /\ holds (contents s') (om_Id msg) k' v') /\
  (forall id x y, id <> om_Id msg -> holds (contents s') id x y <-> holds (contents s) id x y).
Proof.
  intros Hs Hrd Hq Hk Hp Hm Hid Ht Hop.
  destruct (transition_result _ _ _ _ _ _ _ _ _ _ Hs Hrd Hq Hk Hp Hm Hid Ht Hop) as [[Hr Ha]|(v'&Hv'&Ha)].
  { split; [by eapply agree_ok|]. split; [exists k, v; apply (agree_holds _ _ _ _ _ Ha); split; eauto|].
    split; [congruence|]. intros. by apply agree_holds. }
  pose proof (transition_place _ _ _ _ _ m (delete k (contents s)) Ht Hid Hv') as Hh. rewrite Hid in Hh.
  assert (queue_ok L (<[k' := v']> (delete k (contents s))) /\
    (forall id' k1 x, id' <> om_Id m -> holds (<[k' := v']> (delete k (contents s))) id' k1 x <-> holds (contents s) id' k1 x))
    as [Hok Hoth].
  { destruct Ht as [next Hn|]; [by apply (move_ok L (contents s) k v m (failed_message msg next) v')|].
    rewrite <- Hid. by apply (bounce_ok (contents s) k v m v'). }
  split; [by eapply agree_ok|]. split; [exists k', v'; by apply (agree_holds _ _ _ _ _ Ha)|].
  split; [intros _; exists v'; split; [done|]; by apply (agree_holds _ _ _ _ _ Ha)|].
  intros id x y Hne. rewrite (agree_holds _ _ _ _ _ Ha). apply Hoth. congruence.
Qed.
End Transitions.

(** * The worker *)

Section WorkerReports.
Context {DB : Type} `{PebbleDB DB} `{Codec OutboundMessage} `{Codec queueMovePayload} `{RaftApplier DB} `{GoUnicode}.
Implicit Types (w : Worker) (st : WState (DB := DB)) (msg : OutboundMessage).

Definition report_msg (r : Report) : OutboundMessage :=
  match r with FailureReport m _ _ | DelayReport m _ _ _ | RelayedReport m _ => m end.

(** A report about [msg] that its sender may receive, to recipients that asked for it. *)
Definition legitimate w msg (r : Report) : Prop :=
  wk_bouncer w = true /\
  om_Id (report_msg r) = om_Id msg /\ om_SenderEmail (report_msg r) = om_SenderEmail msg /\
  TrimSpace (om_SenderEmail msg) <> "" /\
  (om_Origin msg = ORIGIN_FORWARD -> om_SenderAuthenticated msg = true) /\
  match r with
  | FailureReport _ rcpts _ => rcpts <> [] /\ Forall (fun a => NotifyWantsFailure (RecipientNotify msg a) = true) rcpts
  | DelayReport _ rcpts _ _ => rcpts <> [] /\ Forall (fun a => NotifyWantsDelay (RecipientNotify msg a) = true) rcpts /\
                               om_DelayReportSent msg = false
  | RelayedReport _ rcpts => rcpts <> []
  end.

Definition adds (P : Report -> Prop) st st' : Prop :=
  exists new, ws_reports st' = ws_reports st ++ new /\ Forall P new.
Lemma adds_refl P st : adds P st st.
Proof. exists []. split; [by rewrite app_nil_r|constructor]. Qed.
Lemma adds_trans P st1 st2 st3 : adds P st1 st2 -> adds P st2 st3 -> adds P st1 st3.
Proof.
  intros (n1&E1&F1) (n2&E2&F2). exists (n1 ++ n2). split; [by rewrite E2, E1, app_assoc|by apply Forall_app_2].
Qed.
Lemma adds_one (P : Report -> Prop) r st : P r -> adds P st (report r st).
Proof. intros Hr. exists [r]. split; [done|by constructor]. Qed.
Lemma adds_queue {A} P (m : GoM DB A) st st' r : on_queue m st = (st', r) -> adds P st st'.
Proof. unfold on_queue. destruct (m (ws_store st)). intros [= <- _]. exists []. split; [symmetry; apply app_nil_r|constructor]. Qed.

Lemma mayReport_true w msg :
  mayReport w msg = true -> wk_bouncer w = true /\ TrimSpace (om_SenderEmail msg) <> "" /\
    (om_Origin msg = ORIGIN_FORWARD -> om_SenderAuthenticated msg = true).
Proof.
  unfold mayReport. destruct (wk_bouncer w); [|done]. cbn [negb].
  destruct (String.eqb_spec (TrimSpace (om_SenderEmail msg)) ""); [done|]. intros E. split; [done|]. split; [done|].
  intros Ho. rewrite Ho in E. cbn in E. by destruct (om_SenderAuthenticated msg).
Qed.

(** The fields that the gate and the NOTIFY lookup read. *)
Definition same_envelope msg msg' : Prop :=
  om_Id msg' = om_Id msg /\ om_SenderEmail msg' = om_SenderEmail msg /\ om_Origin msg' = om_Origin msg /\
  om_SenderAuthenticated msg' = om_SenderAuthenticated msg /\ om_RecipientDsn msg' = om_RecipientDsn msg /\
  om_DelayReportSent msg' = om_DelayReportSent msg.

Lemma filter_wanted (f : string -> bool) l : Forall (fun a => f a = true) (List.filter f l).
Proof. induction l; cbn; [constructor|]. destruct (f a) eqn:E; [by constructor|done]. Qed.

Lemma bounce_legit w msg msg' rcpts reason st :
  same_envelope msg msg' -> adds (legitimate w msg) st (generateBounce w msg' rcpts reason st).
Proof.
  intros (Hi&Hse&Ho&Hau&Hd&_). unfold generateBounce.
  destruct (mayReport w msg') eqn:Hm; [|apply adds_refl]. cbn [negb].
  destruct (List.filter _ rcpts) as [|a l] eqn:Ef; [apply adds_refl|]. cbn [length Nat.eqb]. apply adds_one.
  apply mayReport_true in Hm as (?&Hn&Hf). split_and!; [done|done|done|congruence| |done|].
  - intros E. rewrite <- Hau. apply Hf. congruence.
  - pose proof (filter_wanted (fun r => NotifyWantsFailure (RecipientNotify msg' r)) rcpts) as Hw. rewrite Ef in Hw.
    unfold RecipientNotify, recipientDSN in *. by rewrite Hd in Hw.
Qed.

Lemma failure_legit w now msg msg' reason st :
  same_envelope msg msg' -> adds (legitimate w msg) st (handleFailure w now msg' reason st).
Proof.
  intros He. unfold handleFailure. cbv zeta. set (m1 := if om_CreatedAt msg' =? 0 then _ else msg').
  assert (same_envelope msg m1) as He1 by (unfold m1; by destruct (om_CreatedAt msg' =? 0)).
  case_match.
  - destruct (on_queue (MarkBounced m1) _) as [st2 r] eqn:Eq. cbn [fst]. apply adds_queue with (P := legitimate w msg) in Eq.
    eapply adds_trans; [|exact Eq]. destruct (wk_bouncer w); [by apply bounce_legit|apply adds_refl].
  - destruct (on_queue _ st) as [st2 [u|e]] eqn:Eq; apply adds_queue with (P := legitimate w msg) in Eq; [|done].
    destruct (delayReportRecipients w (set_reason m1 reason) now) as [|a l] eqn:Ed; [done|]. cbn [length Nat.eqb negb].
    eapply adds_trans; [exact Eq|]. apply adds_one. unfold delayReportRecipients in Ed.
    destruct (negb (wk_bouncer w)) eqn:Hb; [done|]. cbn [orb] in Ed.
    destruct (om_DelayReportSent (set_reason m1 reason)) eqn:Hds; [done|]. cbn [orb] in Ed.
    destruct (_ || _); [done|]. destruct (_ || _) eqn:Hor in Ed; [done|]. apply orb_false_iff in Hor as [_ Hm%negb_false_iff].
    apply mayReport_true in Hm as (Hbo&Hn&Hf). destruct He1 as (Hi&Hse&Ho&Hau&Hd&Hsent). cbn in Hn, Hf, Hds.
    split_and!; [done|exact Hi|exact Hse|congruence| |done| |congruence].
    + intros E. rewrite <- Hau. apply Hf. congruence.
    + rewrite <- Ed. pose proof (filter_wanted (fun r => NotifyWantsDelay (RecipientNotify (set_reason m1 reason) r)) (om_Recipients m1)) as Hw.
      unfold RecipientNotify, recipientDSN in *.
      change (om_RecipientDsn (set_reason m1 reason)) with (om_RecipientDsn m1) in *. rewrite Hd in *. exact Hw.
Qed.

End WorkerReports.

Section WorkerRecipients.
Context {DB : Type} `{PebbleLaws DB} `{ProtoLaws OutboundMessage} `{JsonLaws queueMovePayload} `{RaftApplier DB}
  `{!QueueApplier DB} `{GoUnicode} (L : nat).
Hypothesis move_clean : forall p : queueMovePayload, json_clean p.
Implicit Types (w : Worker) (st : WState (DB := DB)) (msg m : OutboundMessage) (c : gmap string string).

(** The addresses the relay refused for good in this attempt. *)
Definition refused (env : Env) msg : list string :=
  match read_body env msg with inl raw => (env_deliver env msg (sign env msg raw)).1.1 | inr _ => [] end.

(** [m'] accounts for every recipient of [msg]: still to be tried, or failed
    for good; and none that is still to be tried was refused. *)
Definition accounts (gone : list string) msg m' : Prop :=
  (forall r, r ∈ om_Recipients msg -> r ∈ om_Recipients m' \/ norm_addr r ∈ norm_addr <$> om_FailedRecipients m') /\
  (forall r, r ∈ om_Recipients m' -> r ∈ om_Recipients msg /\ norm_addr r ∉ norm_addr <$> gone).

Lemma prune_spec all remove r :
  r ∈ pruneRecipients all remove <-> r ∈ all /\ norm_addr r ∉ norm_addr <$> remove.
Proof.
  unfold pruneRecipients. destruct remove as [|x l]; [cbn; set_solver|]. cbn [length Nat.eqb].
  rewrite list_elem_of_In, List.filter_In, <- list_elem_of_In. f_equiv.
  rewrite negb_true_iff, <- not_true_iff_false, existsb_exists. f_equiv. split.
  - intros (y&Hy%list_elem_of_In&->%String.eqb_eq). done.
  - intros Hin. exists (norm_addr r). split; [by apply list_elem_of_In|apply String.eqb_refl].
Qed.

Lemma accounts_pruned msg gone m' :
  om_Recipients m' = pruneRecipients (om_Recipients msg) gone ->
  (forall a, a ∈ gone -> a ∈ om_FailedRecipients m') -> accounts gone msg m'.
Proof.
  intros Hr Hf. split.
  - intros r Hin. rewrite Hr, prune_spec. destruct (decide (norm_addr r ∈ norm_addr <$> gone)) as [Hg|]; [right|by left].
    apply list_elem_of_fmap in Hg as (a&->&Ha). apply list_elem_of_fmap. eauto.
  - intros r. by rewrite Hr, prune_spec.
Qed.

Lemma accounts_keep msg m' :
  om_Recipients m' = om_Recipients msg -> accounts [] msg m'.
Proof. intros Hr. apply accounts_pruned; [done|set_solver]. Qed.

Lemma bounce_store w msg rcpts reason st : ws_store (generateBounce w msg rcpts reason st) = ws_store st.
Proof. unfold generateBounce. by repeat case_match. Qed.

(** Every record of [msg] left in the queue accounts for its recipients. *)
Definition accounted (gone : list string) msg c : Prop :=
  forall k v m', holds c (om_Id msg) k v -> unmarshal v = Ok m' -> m' = msg \/ accounts gone msg m'.

Section Pending.
Context (msg : OutboundMessage) (s : DB) (k0 v0 : string).
Hypotheses (Hs : healthy s) (Hrd : qready s) (Hq : queue_ok L (contents s)) (Hk : contents s !! k0 = Some v0)
  (Hp : HasPrefix k0 pendingPrefix = true) (Hm : unmarshal v0 = Ok msg)
  (Hb : contents s !! bouncedKey (om_Id msg) = None).

Lemma after_transition gone msg1 op m1 k1 st r st1 :
  ws_store st = s -> om_Id msg1 = om_Id msg -> transition msg1 op m1 k1 -> accounts gone msg m1 ->
  on_queue op st = (st1, r) ->
  accounted gone msg (contents (ws_store st1)) /\ exists k v, holds (contents (ws_store st1)) (om_Id msg) k v.
Proof.
  intros Es Hid Ht Hac. unfold on_queue. rewrite Es. destruct (op s) as [s1 r1] eqn:Hop. intros [= <- _]. cbn [ws_store]. split.
  - intros k v m' Hh Hm'.
    destruct (transition_found L move_clean msg1 op m1 k1 s s1 r1 k0 v0 msg k v) as [->|Hv]; try done; [left|right]; congruence.
  - destruct (transition_result L move_clean msg1 op m1 k1 s s1 r1 k0 v0 msg) as [[_ Ha]|(v'&Hv'&Ha)]; try done.
    + exists k0, v0. apply (agree_holds _ _ _ _ _ Ha). split; eauto.
    + exists k1, v'. apply (agree_holds _ _ _ _ _ Ha). by eapply transition_place.
Qed.

Lemma after_failure w now gone msg1 reason st :
  ws_store st = s -> om_Id msg1 = om_Id msg -> accounts gone msg msg1 ->
  0 < wk_maxRetryInterval w -> 0 <= now -> in_time (unix_of (now + wk_maxRetryInterval w)) ->
  let c' := contents (ws_store (handleFailure w now msg1 reason st)) in
  accounted gone msg c' /\ exists k v, holds c' (om_Id msg) k v.
Proof.
  intros Es Hid Hac Hint Hnow Hti. cbv zeta. unfold handleFailure. cbv zeta.
  set (m1 := if om_CreatedAt msg1 =? 0 then _ else msg1).
  assert (om_Id m1 = om_Id msg /\ accounts gone msg m1) as [Hid1 Hac1] by (unfold m1; by destruct (om_CreatedAt msg1 =? 0)).
  case_match.
  - match goal with |- context [on_queue _ ?x] => assert (ws_store x = s) as Ex
      by (destruct (wk_bouncer w); [rewrite bounce_store|]; done) end.
    destruct (on_queue (MarkBounced m1) _) as [st2 r] eqn:Eq. cbn [fst].
    eapply (after_transition gone m1); [exact Ex|done|apply TBounced|done|exact Eq].
  - set (m2 := if negb _ then set_delay_sent _ true else _).
    assert (om_Id m2 = om_Id msg /\ accounts gone msg m2) as [Hid2 Hac2] by (unfold m2; by destruct (negb _)).
    set (next := unix_of _).
    assert (in_time next) as Hnext.
    { unfold next, unix_of, time_add, in_time in *. pose proof (retryDelay_eq (i32 (om_AttemptCount m1 + 1)) (wk_maxRetryInterval w)) as E.
      assert (0 < 2 ^ clamp_attempt (i32 (om_AttemptCount m1 + 1)) * Minute)
        by (apply Z.mul_pos_pos; [apply Z.pow_pos_nonneg; unfold clamp_attempt; lia|done]).
      assert (0 < Second) by done. split; [apply Z.div_pos; lia|].
      eapply Z.le_lt_trans; [apply Z.div_le_mono; [done|]|apply Hti]. lia. }
    destruct (on_queue (MarkFailed m2 next) st) as [st2 r] eqn:Eq.
    eapply (after_transition gone m2 _ (failed_message m2 next)) in Eq; [|done|done|by apply TFailed|done].
    destruct r; [|exact Eq]. by case_match.
Qed.

Lemma after_delivered gone st st1 r :
  ws_store st = s -> on_queue (MarkDelivered (om_Id msg)) st = (st1, r) -> accounted gone msg (contents (ws_store st1)).
Proof.
  intros Es. unfold on_queue. rewrite Es. destruct (MarkDelivered (om_Id msg) s) as [s1 r1] eqn:Hop. intros [= <- _]. cbn [ws_store].
  assert (forall c, agree c (contents s) \/ agree c (delete k0 (contents s)) -> accounted gone msg c) as Hc.
  { intros c Hc k v m' Hh Hm'. left.
    assert (holds (contents s) (om_Id msg) k v) as [Hx [->|(Hp'&y&Hy&E)]].
    { destruct Hc as [Ha|Ha]; apply (agree_holds _ _ _ _ _ Ha) in Hh; [done|].
      destruct Hh as [[_ Hx]%lookup_delete_Some Hw]. by split. }
    - congruence.
    - assert (k = k0) as -> by (by eapply (qk_once _ _ Hq k v y k0 v0 msg)). congruence. }
  apply Hc. unfold MarkDelivered, gbind, gread in Hop.
  assert (findPendingKey s (om_Id msg) = Ok k0) as Hf by (by eapply findPendingKey_exact). rewrite Hf in Hop.
  assert (queue_command (mkCmd OP_DELETE k0 "")) as Hcmd by (right; split; [by apply pending_queue|done]).
  destruct (qap _ _ _ _ Hrd Hcmd Hop) as [[_ Ha]|(c'&[= <-]&Ha)]; [left|right]; intros k Hk'; apply Ha; by apply qown_queue.
Qed.
End Pending.

(** The relay took the message, or refused every recipient for good. *)
Definition concluded (env : Env) msg : Prop :=
  exists raw perm rel e, read_body env msg = inl raw /\ env_deliver env msg (sign env msg raw) = (perm, rel, e) /\
    (e = None \/ forall r, r ∈ om_Recipients msg -> norm_addr r ∈ norm_addr <$> perm).

End WorkerRecipients.

(** * Concrete runs *)

Section Demo.
#[local] Existing Instance bytewise_unicode.
#[local] Instance demo_out_codec : Codec OutboundMessage := tagged_codec "O".
#[local] Instance demo_out_laws : ProtoLaws OutboundMessage := tagged_proto "O".
#[local] Instance demo_qmove_codec : Codec queueMovePayload := json_codec (fun _ => True).
#[local] Instance demo_qmove_laws : JsonLaws queueMovePayload := json_laws _.

Lemma demo_moves_clean (p : queueMovePayload) : json_clean p.
Proof. cbv. exact I. Qed.

(** An applier without a log. *)
#[local] Instance queue_direct : RaftApplier MemDB := fun cmd =>
  match cmd_Op cmd with
  | OP_PUT => if IsQueueSyntheticCommand (cmd_Key cmd) then ApplyQueueCommand cmd else Set_ (cmd_Key cmd) (cmd_Value cmd)
  | OP_DELETE => Delete (cmd_Key cmd)
  | OP_UNSPECIFIED => gfail (Errorf "unknown op")
  end.
#[local] Instance queue_direct_ok : QueueApplier MemDB.
Proof.
  refine {| qown := fun _ => false; qready := fun _ => True |}; [done|].
  intros cmd s s' r _ Hc. unfold ApplyCommand, queue_direct, queue_effect.
  destruct (cmd_Op cmd) eqn:Hop.
  - destruct Hc as [[_ ?]|[_ ?]]; congruence.
  - destruct (IsQueueSyntheticCommand (cmd_Key cmd)).
    + destruct r as [u|e]; intros Hr; [right|left; split; [done|]; intros k _; by apply queue_move_Err in Hr as ->].
      apply queue_move_Ok in Hr as (p&->&->). eauto.
    + destruct r as [u|e]; intros Hr; [right|left; split; [done|]; intros k _; by apply Set_Err in Hr as ->].
      eexists. split; [done|]. intros k _. by apply Set_Ok in Hr as ->.
  - destruct r as [u|e]; intros Hr; [right|left; split; [done|]; intros k _; by apply Delete_Err in Hr as ->].
    eexists. split; [done|]. intros k _. by apply Delete_Ok in Hr as ->.
Defined.

Definition demo_out (id : string) (t : Z) (rcpts : list string) : OutboundMessage :=
  mkOut id "u1" "a@x.org" rcpts "h" 0 1000 t STATUS_PENDING "" [] "" [] [] ORIGIN_LOCAL false "" "" [] false.
Definition demo_rec (m : OutboundMessage) : string * string :=
  (pendingKey (om_NextRetryAt m) (om_Id m), match marshal m with Ok v => v | Err _ => "" end).
Definition out_a : OutboundMessage := demo_out "a" 1000 ["r1@y.org"; "R2@y.org"].
Definition out_b : OutboundMessage := demo_out "b" 5000 ["r3@y.org"].
Definition demo_q : MemDB := mem_of [demo_rec out_a; demo_rec out_b].

Lemma demo_q_lookup k v :
  contents demo_q !! k = Some v -> exists m, v = (demo_rec m).2 /\ k = (demo_rec m).1 /\ (m = out_a \/ m = out_b).
Proof.
  cbn [contents mem_laws mem demo_q mem_of]. intros Hk%elem_of_list_to_map_2.
  apply elem_of_cons in Hk as [E|Hk]; [exists out_a; rewrite <- E; eauto|].
  apply elem_of_cons in Hk as [E|Hk]; [exists out_b; rewrite <- E; eauto|]. by apply elem_of_nil in Hk.
Qed.
Lemma demo_rec_decode m : unmarshal (demo_rec m).2 = Ok m.
Proof. apply (proto_roundtrip m). reflexivity. Qed.

Lemma demo_q_ok : queue_ok 1 (contents demo_q).
Proof.
  split.
  - intros k v Hk _. apply demo_q_lookup in Hk as (m&->&->&Hm). exists m. split; [apply demo_rec_decode|].
    destruct Hm as [->| ->]; (split; [reflexivity|split; [split; [vm_compute; discriminate|vm_compute; reflexivity]|reflexivity]]).
  - intros k v m k' v' m' Hk Hk' _ _ Hm Hm' E.
    apply demo_q_lookup in Hk as (x&->&->&Hx), Hk' as (y&->&->&Hy). rewrite demo_rec_decode in Hm, Hm'.
    injection Hm as <-. injection Hm' as <-. destruct Hx as [->| ->], Hy as [->| ->]; done.
Qed.
Lemma demo_q_healthy : healthy demo_q.
Proof. split; [reflexivity|]. split; reflexivity. Qed.
Lemma demo_q_a : contents demo_q !! pendingKey 1000 "a" = Some (demo_rec out_a).2.
Proof. apply lookup_insert_eq. Qed.

Lemma ready_batch_exact_witness :
  exists l, GetReady demo_q (time_unix 2000) 10 =
    Ok (take 10 (List.filter (fun m => om_NextRetryAt m <=? unix_of (time_unix 2000)) l)) /\ l = pending_list (contents demo_q).
Proof.
  destruct (ready_batch_exact 1 demo_q (time_unix 2000) 10 demo_q_healthy demo_q_ok) as [Hg _].
  exists (pending_list (contents demo_q)). exact (conj Hg eq_refl).
Defined.

Lemma queue_transition_keeps_message_witness :
  exists v', unmarshal v' = Ok (failed_message out_a 1120) /\
    holds (contents (MarkFailed out_a 1120 demo_q).1) "a" (pendingKey 1120 "a") v'.
Proof.
  destruct (MarkFailed out_a 1120 demo_q) as [s' r] eqn:E.
  assert (is_ok r = true) as Hr.
  { replace r with (MarkFailed out_a 1120 demo_q).2 by (rewrite E; reflexivity). vm_compute. reflexivity. }
  destruct (queue_transition_keeps_message 1 demo_moves_clean out_a (MarkFailed out_a 1120) (failed_message out_a 1120)
    (pendingKey 1120 "a") demo_q s' r (pendingKey 1000 "a") (demo_rec out_a).2 out_a) as (_&_&Hok&_).
  - exact demo_q_healthy.
  - exact I.
  - exact demo_q_ok.
  - exact demo_q_a.
  - apply pending_key_prefix.
  - apply demo_rec_decode.
  - reflexivity.
  - apply (TFailed out_a 1120). split; [vm_compute; discriminate|vm_compute; reflexivity].
  - exact E.
  - exact (Hok Hr).
Defined.

(** The relay refuses r2 for good and defers r1. *)
Definition demo_env : Env := mkEnv (fun _ => Ok (Ok "body", None)) (fun s => Ok s)
  (fun _ _ => (["r2@y.org"], [], Some (Errorf "451 later"))).

(** IDs of different lengths: an ID that is the tail of another, after a dash,
    can name the other message. *)
Theorem short_id_names_other_message :
  findPendingKey (mem_of [demo_rec (demo_out "x-a" 1000 []); demo_rec (demo_out "a" 5000 [])]) "a" = Ok (pendingKey 1000 "x-a").
Proof. vm_compute. reflexivity. Qed.
End Demo.
