(* ===== verification/QueueRun.v ===== *)
(** The polling loop of the queue worker: [Run] and [poll] of
    [internal/queue/worker.go], and why the retries of a message end.

    A poll takes the ready batch and hands each message to a goroutine.  The
    deliveries of a batch are of different messages; the model runs them one
    after the other, in any order [pl_order], which also leaves out those the
    cancelled context did not start.  Each delivery meets its own clock and its
    own environment. *)

From S2P Require Import Prelude GoStrings Pebble Proto QueueCommand AttSplit Queue QueueWorker QueueThm.
From Stdlib Require Import Ascii.

Record Poll := mkPoll {
  pl_leader : bool;
  pl_now : Z;
  pl_order : list OutboundMessage -> list OutboundMessage;
  pl_clock : OutboundMessage -> Z;
  pl_env : OutboundMessage -> Env }.

Section Loop.
Context {DB : Type} `{PebbleDB DB} `{Codec OutboundMessage} `{Codec queueMovePayload} `{RaftApplier DB} `{GoUnicode}.
Implicit Types (w : Worker) (st : WState (DB := DB)) (p : Poll).

Definition run_batch w p (msgs : list OutboundMessage) st : WState :=
  foldl (fun st msg => processMessage w (pl_env p msg) (pl_clock p msg) msg st) st msgs.

(** The state after a poll, with the deliveries it made. *)
Definition poll w p st : WState * list OutboundMessage :=
  if negb (pl_leader p) then (st, []) else
  match GetReady (ws_store st) (pl_now p) batchSize with
  | Err _ => (st, [])
  | Ok msgs => (run_batch w p (pl_order p msgs) st, pl_order p msgs)
  end.

(** One poll per tick. *)
Fixpoint Run w (ticks : list Poll) st : WState * list (list OutboundMessage) :=
  match ticks with
  | [] => (st, [])
  | p :: ticks =>
      let (st, batch) := poll w p st in
      let (st, batches) := Run w ticks st in (st, batch :: batches)
  end.
End Loop.

(** * The measure *)

(** The least number of whole seconds between two attempts. *)
Definition min_step (w : Worker) : Z := Z.min Minute (wk_maxRetryInterval w) / Second.

(** How often [msg] can still be tried.  A message without a creation time gets
    a full lifetime at its first failure. *)
Definition attempts_left (w : Worker) (msg : OutboundMessage) : nat :=
  let life := wk_maxLifetime w / Second in
  S (Z.to_nat ((if om_CreatedAt msg =? 0 then life else om_CreatedAt msg + life - om_NextRetryAt msg) / min_step w)).

(** The next attempt falls within the message's lifetime. *)
Definition in_life (w : Worker) (msg : OutboundMessage) : Prop :=
  om_NextRetryAt msg <= om_CreatedAt msg + wk_maxLifetime w / Second.

Definition work `{Codec OutboundMessage} (w : Worker) (c : gmap string string) : nat :=
  sum_list_with (attempts_left w) (pending_list c).

Lemma retryDelay_bounds a maxInterval : Z.min Minute maxInterval <= retryDelay a maxInterval <= maxInterval.
Proof.
  rewrite retryDelay_eq. assert (1 <= 2 ^ clamp_attempt a) by (pose proof (Z.pow_pos_nonneg 2 (clamp_attempt a)); unfold clamp_attempt in *; lia).
  assert (Minute <= 2 ^ clamp_attempt a * Minute) by (assert (0 < Minute) by done; nia). lia.
Qed.

Lemma Zdiv_step a b q : 0 < q -> b + q <= a -> 0 <= b -> (Z.to_nat (b / q) < Z.to_nat (a / q))%nat.
Proof.
  intros Hq Hab Hb. assert (b / q + 1 <= a / q) by (rewrite <- Z.div_add by lia; apply Z.div_le_mono; lia).
  pose proof (Z.div_pos b q). lia.
Qed.

(** A rescheduled message has fewer attempts left. *)
Lemma reschedule_decreases w now msg msg' created next :
  Second <= wk_maxRetryInterval w -> om_NextRetryAt msg <= unix_of now ->
  created = (if om_CreatedAt msg =? 0 then unix_of now else om_CreatedAt msg) ->
  now + Z.min Minute (wk_maxRetryInterval w) <= next -> next <= time_unix created + wk_maxLifetime w ->
  om_CreatedAt msg' = created -> om_NextRetryAt msg' = unix_of next -> Second <= now ->
  (attempts_left w msg' < attempts_left w msg)%nat /\ in_life w msg'.
Proof.
  intros Hint Hdue Hc Hlo Hhi Hc' Hn Hz. unfold attempts_left, min_step, in_life. rewrite Hc', Hn.
  set (d := Z.min Minute (wk_maxRetryInterval w)) in *. assert (0 < Second) as HS by done.
  assert (Second <= d) as Hd by (unfold d; assert (Second <= Minute) by done; lia).
  assert (1 <= d / Second) by (apply Z.div_le_lower_bound; lia).
  assert (unix_of now + d / Second <= unix_of next).
  { unfold unix_of. apply Z.div_le_lower_bound; [done|]. pose proof (Z.mul_div_le now Second HS). pose proof (Z.mul_div_le d Second HS). lia. }
  assert (unix_of next <= created + wk_maxLifetime w / Second).
  { unfold unix_of, time_unix in *. rewrite <- Z.div_add_l by done. apply Z.div_le_mono; lia. }
  split; [|done]. replace (created =? 0) with false.
  - apply -> Nat.succ_lt_mono. apply Zdiv_step; [lia| |lia]. destruct (Z.eqb_spec (om_CreatedAt msg) 0); lia.
  - assert (1 <= unix_of now) by (apply Z.div_le_lower_bound; lia).
    symmetry. apply Z.eqb_neq. destruct (Z.eqb_spec (om_CreatedAt msg) 0); lia.
Qed.

(** * What the loop relies on *)

(** Protobuf encodes a record whose texts are valid UTF-8, and decodes no
    other: [clean_text] texts keep a record encodable. *)
Class OutboundTexts `{ProtoLaws OutboundMessage} := {
  clean_text : string -> Prop;
  clean_decoded v m : unmarshal v = Ok m -> clean m;
  clean_schedule m n t s : clean m -> clean (set_schedule m n t s);
  clean_created m t : clean m -> clean (set_created m t);
  clean_delay_sent m b : clean m -> clean (set_delay_sent m b);
  clean_reason m r : clean m -> clean_text r -> clean (set_reason m r);
  clean_recipients m rs f : clean m -> (forall r, r ∈ rs -> r ∈ om_Recipients m) -> Forall clean_text f ->
    clean (set_recipients m rs (om_FailedRecipients m ++ f));
}.

(** A queue command that can be carried out: a move has somewhere to go. *)
Definition queue_doable `{Codec queueMovePayload} (cmd : RaftCommand) : Prop :=
  queue_command cmd /\
  (IsQueueSyntheticCommand (cmd_Key cmd) = true -> cmd_Op cmd = OP_PUT ->
   exists p, unmarshal (cmd_Value cmd) = Ok p /\ qm_NewKey p <> "").

(** While the store is sound and the cluster has room for [b] commands more
    ([qbudget b]: a node has finitely many log indices), it carries one out. *)
Class ReliableQueue (DB : Type) `{QueueApplier DB} := {
  qbudget : nat -> DB -> Prop;
  qbudget_le b b' s : (b' <= b)%nat -> qbudget b s -> qbudget b' s;
  qbudget_ready b s : qbudget (S b) s -> qready s;
  queue_reliable b cmd s :
    healthy s -> qbudget (S b) s -> queue_doable cmd ->
    exists s', ApplyCommand cmd s = (s', Ok tt) /\ healthy s' /\ qbudget b s';
}.

Section Termination.
Context {DB : Type} `{PebbleLaws DB} `{ProtoLaws OutboundMessage} `{!OutboundTexts} `{JsonLaws queueMovePayload}
  `{RaftApplier DB} `{!QueueApplier DB} `{!ReliableQueue DB} `{GoUnicode} (L : nat).
Hypothesis move_clean : forall p : queueMovePayload, json_clean p.
(** Message IDs are not empty. *)
Hypothesis ids_nonempty : (0 < L)%nat.
Implicit Types (w : Worker) (st : WState (DB := DB)) (msg m : OutboundMessage) (c : gmap string string) (s : DB).

Lemma elem_pending c m :
  m ∈ pending_list c <-> exists k v, c !! k = Some v /\ HasPrefix k pendingPrefix = true /\ unmarshal v = Ok m.
Proof.
  unfold pending_list. rewrite list_elem_of_omap. split.
  - intros ([k v]&[Hk Hp]%elem_of_scan&Hm). cbn in Hm. exists k, v. destruct (unmarshal v) eqn:E; naive_solver.
  - intros (k&v&Hk&Hp&Hm). exists (k, v). split; [by apply elem_of_scan|]. cbn. by rewrite Hm.
Qed.

Lemma pending_NoDup c : queue_ok L c -> NoDup (om_Id <$> pending_list c).
Proof.
  intros Hq. unfold pending_list.
  assert (forall kv, kv ∈ scan pendingPrefix c -> c !! kv.1 = Some kv.2 /\ HasPrefix kv.1 pendingPrefix = true) as Hall
    by (intros [k v] ?%elem_of_scan; done).
  pose proof (range_NoDup pendingPrefix (prefixUpperBound pendingPrefix) c) as Hnd. fold (scan pendingPrefix c) in Hnd.
  revert Hall Hnd. generalize (scan pendingPrefix c). intros l Hall. induction l as [|[k v] l IH]; [constructor|].
  cbn. intros [Hn Hnd]%NoDup_cons. specialize (IH (fun kv Hin => Hall kv (list_elem_of_further _ _ _ Hin)) Hnd).
  destruct (unmarshal v) as [m|] eqn:Hm; [|exact IH]. cbn. apply NoDup_cons. split; [|exact IH].
  intros (m'&E&([k' v']&Hin&Hm')%list_elem_of_omap)%list_elem_of_fmap. cbn in Hm'.
  destruct (unmarshal v') as [x|] eqn:Hx; simplify_eq. apply Hn, list_elem_of_fmap. exists (k', v'). split; [|done]. cbn.
  destruct (Hall (k, v)) as [? ?]; [set_solver|]. destruct (Hall (k', v')) as [? ?]; [set_solver|].
  by eapply (qk_once _ _ Hq k v m k' v' m').
Qed.

(** [c'] is [c] with message [id] gone from the pending ones, or replaced. *)
Definition stepped c (id : string) (o : option OutboundMessage) c' : Prop :=
  queue_ok L c' /\ forall m', m' ∈ pending_list c' <-> (m' ∈ pending_list c /\ om_Id m' <> id) \/ o = Some m'.
Definition left_of w (o : option OutboundMessage) : nat := match o with Some m => attempts_left w m | None => 0 end.

Lemma stepped_work w c msg o c' :
  queue_ok L c -> msg ∈ pending_list c -> stepped c (om_Id msg) o c' -> (forall m', o = Some m' -> om_Id m' = om_Id msg) ->
  (work w c' + attempts_left w msg = work w c + left_of w o)%nat.
Proof.
  intros Hq Hin [Hq' Hel] Ho. set (rest := filter (fun m => om_Id m <> om_Id msg) (pending_list c)).
  pose proof (NoDup_fmap_1 _ _ (pending_NoDup _ Hq)) as Hnd. pose proof (NoDup_fmap_1 _ _ (pending_NoDup _ Hq')) as Hnd'.
  assert (forall m, m ∈ pending_list c -> om_Id m = om_Id msg -> m = msg) as Hinj.
  { intros m (k&v&Hk&Hp&Hm)%elem_pending E. apply elem_pending in Hin as (k0&v0&Hk0&Hp0&Hm0).
    assert (k = k0) as -> by (by eapply (qk_once _ _ Hq k v m k0 v0 msg)). congruence. }
  assert (pending_list c ≡ₚ msg :: rest) as Hp.
  { apply NoDup_Permutation; [done|apply NoDup_cons; split; [unfold rest; rewrite list_elem_of_filter; naive_solver|by apply NoDup_filter]|].
    intros m. rewrite elem_of_cons. unfold rest. rewrite list_elem_of_filter.
    destruct (decide (om_Id m = om_Id msg)); naive_solver. }
  assert (pending_list c' ≡ₚ option_list o ++ rest) as Hp'.
  { apply NoDup_Permutation; [done| |].
    - apply NoDup_app. split; [destruct o; [apply NoDup_singleton|constructor]|]. split; [|by apply NoDup_filter].
      intros m Hm. destruct o as [m0|]; [|by apply elem_of_nil in Hm]. apply list_elem_of_singleton in Hm as ->.
      unfold rest. rewrite list_elem_of_filter. naive_solver.
    - intros m. rewrite Hel, elem_of_app. unfold rest. rewrite list_elem_of_filter.
      destruct o; cbn; rewrite ?list_elem_of_singleton, ?elem_of_nil; naive_solver. }
  unfold work. rewrite Hp, Hp', sum_list_with_app. unfold left_of. generalize (attempts_left w). intros g. destruct o; simpl; lia.
Qed.

(** ** Transitions that are carried out *)

Section Attempt.
Context (msg : OutboundMessage) (s : DB) (b : nat) (k0 v0 : string).
Hypotheses (Hs : healthy s) (Hrd : qbudget (S b) s) (Hq : queue_ok L (contents s)) (Hk : contents s !! k0 = Some v0)
  (Hp : HasPrefix k0 pendingPrefix = true) (Hm : unmarshal v0 = Ok msg).

Lemma pending_found : findPendingKey s (om_Id msg) = Ok k0.
Proof. by eapply findPendingKey_exact. Qed.

Lemma applyMove_done id new v :
  id <> "" -> new <> "" -> exists s', applyMove id k0 new v s = (s', Ok tt) /\ healthy s' /\ qbudget b s'.
Proof.
  intros Hid Hnew. unfold applyMove, BuildQueueMoveCommand.
  rewrite (proj2 (String.eqb_neq id "")), (proj2 (String.eqb_neq new "")) by done.
  destruct (json_total (mkQueueMove k0 new v)) as [data Hd]. rewrite Hd. cbn [wrapf result_bind]. unfold gbind, glift.
  apply queue_reliable; [done|done|]. split; [left; split; [apply prefix_app|done]|]. intros _ _.
  exists (mkQueueMove k0 new v). split; [by apply json_roundtrip|done].
Qed.

Lemma transition_done msg1 op m1 k1 :
  om_Id msg1 = om_Id msg -> clean m1 -> transition msg1 op m1 k1 ->
  exists s' v', op s = (s', Ok tt) /\ healthy s' /\ qbudget b s' /\ unmarshal v' = Ok m1 /\
    agree (contents s') (<[k1 := v']> (delete k0 (contents s))).
Proof.
  intros Hid Hcl Ht.
  assert (exists s', op s = (s', Ok tt) /\ healthy s' /\ qbudget b s') as (s'&Hop&Hs'&Hrd').
  { assert (om_Id msg1 <> "") as Hne.
    { rewrite Hid. destruct (qk_filed _ _ Hq _ _ Hk Hp) as (x&Hx&_&_&Hl). assert (x = msg) as -> by congruence.
      intros E. rewrite E in Hl. cbn in Hl. lia. }
    destruct (proto_total _ Hcl) as [data Hd]. destruct Ht.
    - unfold MarkFailed, gbind, gread. rewrite Hid, pending_found. unfold glift. rewrite Hd. cbn [wrapf]. by apply applyMove_done.
    - unfold MarkBounced, gbind, gread. rewrite Hid, pending_found. unfold glift. rewrite Hd. cbn [wrapf]. by apply applyMove_done. }
  destruct (transition_result L move_clean msg1 op m1 k1 s s' (Ok tt) k0 v0 msg) as [[? _]|(v'&Hv'&Ha)]; try done;
    [by eapply qbudget_ready|].
  exists s', v'. done.
Qed.

Lemma delivered_done :
  exists s', MarkDelivered (om_Id msg) s = (s', Ok tt) /\ healthy s' /\ qbudget b s' /\ agree (contents s') (delete k0 (contents s)).
Proof.
  unfold MarkDelivered, gbind, gread. rewrite pending_found.
  assert (queue_command (mkCmd OP_DELETE k0 "")) as Hc by (right; split; [by apply pending_queue|done]).
  destruct (queue_reliable b (mkCmd OP_DELETE k0 "") s) as (s'&Ha&Hs'&Hr'); [done|done|by split|].
  exists s'. split_and!; [done..|]. destruct (qap _ _ _ _ (qbudget_ready _ _ Hrd) Hc Ha) as [[? _]|(c'&[= <-]&Hcc)]; [done|].
  intros k Hkq. apply Hcc. by apply qown_queue.
Qed.

(** The pending messages after the record of [msg] was taken away, and perhaps
    one put back under a key [kv]. *)
Lemma agree_pending c c' m : agree c' c -> m ∈ pending_list c' <-> m ∈ pending_list c.
Proof.
  intros Ha. rewrite !elem_pending. split; intros (k&v&Hx&Hpx&Hmx); exists k, v; (split; [|done]); rewrite <- Hx; [symmetry|];
    apply Ha; by apply pending_queue.
Qed.

Lemma elem_removed m : m ∈ pending_list (delete k0 (contents s)) <-> m ∈ pending_list (contents s) /\ om_Id m <> om_Id msg.
Proof.
  rewrite !elem_pending. split.
  - intros (k&v&[Hne Hx]%lookup_delete_Some&Hpx&Hmx). split; [eauto|]. intros E. apply Hne. symmetry.
    by eapply (qk_once _ _ Hq k v m k0 v0 msg).
  - intros [(k&v&Hx&Hpx&Hmx) Hne]. exists k, v. split; [|done]. apply lookup_delete_Some. split; [|done].
    intros <-. congruence.
Qed.

Lemma removed_ok : queue_ok L (delete k0 (contents s)).
Proof.
  split.
  - intros k v [_ Hx]%lookup_delete_Some. by apply (qk_filed _ _ Hq).
  - intros k v m k' v' m' [_ Hx]%lookup_delete_Some [_ Hx']%lookup_delete_Some. by apply (qk_once _ _ Hq).
Qed.

Lemma stepped_delivered s' : agree (contents s') (delete k0 (contents s)) -> stepped (contents s) (om_Id msg) None (contents s').
Proof.
  intros Ha. split; [eapply agree_ok; [exact Ha|apply removed_ok]|]. intros m.
  rewrite (agree_pending _ _ _ Ha), elem_removed. naive_solver.
Qed.

Lemma stepped_bounced s' v' :
  agree (contents s') (<[bouncedKey (om_Id msg) := v']> (delete k0 (contents s))) -> stepped (contents s) (om_Id msg) None (contents s').
Proof.
  intros Ha. split; [eapply agree_ok; [exact Ha|by apply (bounce_ok L (contents s) k0 v0 msg v')]|]. intros m.
  rewrite (agree_pending _ _ _ Ha).
  transitivity (m ∈ pending_list (delete k0 (contents s))); [|rewrite elem_removed; naive_solver].
  rewrite !elem_pending. split; intros (k&v&Hx&Hpx&Hmx); exists k, v; (split; [|done]).
  - rewrite lookup_insert_ne in Hx; [done|]. intros <-. by rewrite bounced_not_pending in Hpx.
  - rewrite lookup_insert_ne; [done|]. intros <-. by rewrite bounced_not_pending in Hpx.
Qed.

Lemma stepped_failed s' m1 v1 :
  unmarshal v1 = Ok m1 -> om_Id m1 = om_Id msg -> in_time (om_NextRetryAt m1) ->
  agree (contents s') (<[pendingKey (om_NextRetryAt m1) (om_Id m1) := v1]> (delete k0 (contents s))) ->
  stepped (contents s) (om_Id msg) (Some m1) (contents s').
Proof.
  intros Hm1 Hid Ht Ha. destruct (move_ok L (contents s) k0 v0 msg m1 v1) as [Hok _]; try done.
  split; [eapply agree_ok; [exact Ha|done]|]. intros m. rewrite (agree_pending _ _ _ Ha). set (k1 := pendingKey _ _) in *.
  assert (delete k0 (contents s) !! k1 = None) as Hfree.
  { destruct (delete k0 (contents s) !! k1) as [x|] eqn:E; [|done]. exfalso.
    assert (HasPrefix k1 pendingPrefix = true) as Hp1 by apply pending_key_prefix.
    destruct (qk_filed _ _ removed_ok k1 x E Hp1) as (y&Hy&Ek&Hty&_). apply pendingKey_inj in Ek as [_ Ey]; [|done|done].
    assert (y ∈ pending_list (delete k0 (contents s))) as [_ Hne]%elem_removed by (apply elem_pending; eauto). congruence. }
  rewrite elem_pending. split.
  - intros (k&v&[[<- <-]|[Hne Hx]]%lookup_insert_Some&Hpx&Hmx); [right; congruence|left].
    apply elem_removed, elem_pending. eauto.
  - intros [(k&v&Hx&Hpx&Hmx)%elem_removed%elem_pending|[= <-]].
    + exists k, v. split; [|done]. rewrite lookup_insert_ne; [done|congruence].
    + exists k1, v1. split; [apply lookup_insert_eq|]. split; [apply pending_key_prefix|done].
Qed.

(** How an attempt leaves the queue. *)
Definition ended w st' : Prop :=
  exists o, healthy (ws_store st') /\ qbudget b (ws_store st') /\ stepped (contents s) (om_Id msg) o (contents (ws_store st')) /\
    forall m', o = Some m' -> om_Id m' = om_Id msg /\ (attempts_left w m' < attempts_left w msg)%nat /\ in_life w m'.

Lemma ended_report w st st' : ws_store st = ws_store st' -> ended w st -> ended w st'.
Proof. unfold ended. by intros ->. Qed.

Lemma ended_delivered w st : ws_store st = s -> ended w (on_queue (MarkDelivered (om_Id msg)) st).1 /\
  is_ok (on_queue (MarkDelivered (om_Id msg)) st).2 = true.
Proof.
  intros Es. unfold on_queue. rewrite Es. destruct delivered_done as (s'&->&?&?&?). split; [|done].
  exists None. cbn. split_and!; [done..|by apply stepped_delivered|done].
Qed.

Lemma ended_bounced w m1 st : ws_store st = s -> om_Id m1 = om_Id msg -> clean m1 -> ended w (on_queue (MarkBounced m1) st).1.
Proof.
  intros Es Hid Hcl. unfold on_queue. rewrite Es.
  destruct (transition_done m1 (MarkBounced m1) (bounced_message m1) (bouncedKey (om_Id m1))) as (s'&v'&->&?&?&Hv&Ha);
    [done|by apply clean_schedule|apply TBounced|].
  exists None. cbn. rewrite Hid in Ha. split_and!; [done..|by eapply stepped_bounced|done].
Qed.

(** The clock of an attempt on the due message. *)
Definition clock_ok w (now : Z) : Prop :=
  Second <= now /\ om_NextRetryAt msg <= unix_of now /\ in_time (unix_of (now + wk_maxRetryInterval w)).

Lemma ended_failure w now msg1 reason st :
  Second <= wk_maxRetryInterval w -> clock_ok w now ->
  ws_store st = s -> om_Id msg1 = om_Id msg -> om_CreatedAt msg1 = om_CreatedAt msg -> clean msg1 -> clean_text reason ->
  ended w (handleFailure w now msg1 reason st).
Proof.
  intros Hint (Hnow&Hdue&Hti) Es Hid Hcr Hcl Hre. unfold handleFailure. cbv zeta.
  set (m1 := if om_CreatedAt msg1 =? 0 then _ else msg1).
  assert (om_Id m1 = om_Id msg /\ clean m1 /\ om_CreatedAt m1 = if om_CreatedAt msg =? 0 then unix_of now else om_CreatedAt msg)
    as (Hid1&Hcl1&Hcr1) by (unfold m1; rewrite Hcr; destruct (Z.eqb_spec (om_CreatedAt msg) 0); split_and!; try done; by apply clean_created).
  pose proof (retryDelay_bounds (i32 (om_AttemptCount m1 + 1)) (wk_maxRetryInterval w)) as [Hlo Hhi].
  destruct (Z.ltb_spec (time_add (time_unix (om_CreatedAt m1)) (wk_maxLifetime w))
              (time_add now (retryDelay (i32 (om_AttemptCount m1 + 1)) (wk_maxRetryInterval w)))) as [|Hin].
  { apply ended_bounced; [destruct (wk_bouncer w); [rewrite bounce_store|]; done|done|done]. }
  set (m2 := if negb _ then set_delay_sent _ true else _).
  assert (om_Id m2 = om_Id msg /\ clean m2 /\ om_CreatedAt m2 = om_CreatedAt m1) as (Hid2&Hcl2&Hcr2)
    by (unfold m2; destruct (negb _); split_and!; try done; [apply clean_delay_sent|]; by apply clean_reason).
  unfold time_add in *. set (next := now + retryDelay _ _) in *.
  assert (in_time (unix_of next)) as Hnx.
  { unfold in_time, unix_of in *. split; [apply Z.div_pos; [|done]|eapply Z.le_lt_trans; [|apply Hti]; apply Z.div_le_mono; [done|]];
      unfold next; assert (0 < Minute) by done; assert (0 < Second) by done; lia. }
  unfold on_queue. rewrite Es.
  destruct (transition_done m2 (MarkFailed m2 (unix_of next)) (failed_message m2 (unix_of next)) (pendingKey (unix_of next) (om_Id m2)))
    as (s'&v'&->&?&?&Hv&Ha); [done|by apply clean_schedule|by apply TFailed|].
  eapply (ended_report w (mkWState s' (ws_reports st))); [by destruct (negb _)|].
  exists (Some (failed_message m2 (unix_of next))). cbn [ws_store]. split_and!; [done..|by eapply stepped_failed|].
  intros m' [= <-]. split; [done|]. eapply (reschedule_decreases w now msg _ _ next); [done|done|reflexivity|unfold next; lia|rewrite <- Hcr1; exact Hin|exact (eq_trans Hcr2 Hcr1)|reflexivity|done].
Qed.

(** The texts an attempt can write into the record. *)
Definition attempt_texts (env : Env) : list string :=
  match read_body env msg with
  | inr (_, reason) => [reason]
  | inl raw => let '(perm, _, e) := env_deliver env msg (sign env msg raw) in
               perm ++ match e with Some e => [err_text e] | None => [] end
  end.

Lemma attempt_ends w env now st :
  Second <= wk_maxRetryInterval w -> clock_ok w now -> ws_store st = s -> Forall clean_text (attempt_texts env) ->
  ended w (processMessage w env now msg st).
Proof.
  intros Hint Hck Es. assert (clean msg) as Hcl by by eapply clean_decoded.
  unfold attempt_texts, processMessage. destruct (read_body env msg) as [raw|[[] reason]].
  - destruct (env_deliver env msg (sign env msg raw)) as [[perm rel] derr]. intros [Hperm Hre]%Forall_app. cbv zeta.
    set (st1 := if _ && wk_bouncer w then _ else st).
    assert (ws_store st1 = s) as Es1 by (unfold st1; destruct (_ && _); [rewrite bounce_store|]; done).
    set (m1 := if negb _ then set_recipients msg _ _ else msg).
    assert (om_Id m1 = om_Id msg /\ om_CreatedAt m1 = om_CreatedAt msg /\ clean m1) as (Hid&Hcr&Hcl1).
    { unfold m1. destruct (negb _); [|done]. split_and!; [done..|]. apply clean_recipients; [done| |done].
      intros r Hr. by apply (prune_spec move_clean) in Hr as [? _]. }
    rewrite Hid. destruct (ended_delivered w st1 Es1) as [Hend Hok]. destruct derr as [e|].
    + destruct (Nat.eqb (length (om_Recipients m1)) 0); [exact Hend|]. apply Forall_cons in Hre as [Hre _].
      apply ended_failure; [done|done|done|exact Hid|exact Hcr|apply clean_reason; [exact Hcl1|exact Hre]|exact Hre].
    + destruct (on_queue _ st1) as [st2 [u|e]]; [|done]. eapply ended_report; [|exact Hend].
      unfold reportRelayed. by case_match.
  - intros [Hre _]%Forall_cons. apply ended_bounced; [|done|done]. destruct (wk_bouncer w); [rewrite bounce_store|]; done.
  - intros [Hre _]%Forall_cons. by apply ended_failure.
Qed.
End Attempt.

(** ** Polls *)

Lemma submseteq_NoDup {A} (l k : list A) : l ⊆+ k -> NoDup k -> NoDup l.
Proof. intros [k' Hk]%submseteq_Permutation Hnd. rewrite Hk in Hnd. by apply NoDup_app in Hnd as [? _]. Qed.
Lemma filter_sublist {A} (f : A -> bool) l : List.filter f l `sublist_of` l.
Proof. induction l as [|x l IH]; [done|]. cbn. destruct (f x); by constructor. Qed.

(** A tick the worker can see: deliveries are among the ready ones, they do not
    look at a clock before the poll's, and the texts they bring are UTF-8. *)
Record tick_ok w (p : Poll) : Prop := {
  tk_order l : pl_order p l ⊆+ l;
  tk_clock m : Second <= pl_clock p m /\ pl_now p <= pl_clock p m /\ in_time (unix_of (pl_clock p m + wk_maxRetryInterval w));
  tk_texts m : Forall clean_text (attempt_texts m (pl_env p m));
}.

(** The store is in order, and the cluster has room for the work. *)
Definition sound w st : Prop :=
  healthy (ws_store st) /\ qbudget (work w (contents (ws_store st))) (ws_store st) /\ queue_ok L (contents (ws_store st)).

(** [n] attempts lead from [st] to [st']: the work left shrank by as many at
    least, and what is pending is as it was or scheduled within its lifetime. *)
Definition ran w (n : nat) st st' : Prop :=
  (n + work w (contents (ws_store st')) <= work w (contents (ws_store st)))%nat /\
  forall m, m ∈ pending_list (contents (ws_store st')) -> m ∈ pending_list (contents (ws_store st)) \/ in_life w m.

Lemma ran_refl w st : ran w 0 st st.
Proof. split; [done|auto]. Qed.
Lemma ran_trans w n1 n2 st1 st2 st3 : ran w n1 st1 st2 -> ran w n2 st2 st3 -> ran w (n1 + n2) st1 st3.
Proof. intros [Hw1 Hl1] [Hw2 Hl2]. split; [lia|]. intros m [Hm|]%Hl2; auto. Qed.

Lemma work_succ w c m : m ∈ pending_list c -> exists b, work w c = S b.
Proof. unfold work. intros Hin. destruct (pending_list c); [by apply elem_of_nil in Hin|]. cbn. eauto. Qed.

Lemma batch_work w p batch st :
  Second <= wk_maxRetryInterval w -> tick_ok w p -> sound w st -> NoDup (om_Id <$> batch) ->
  Forall (fun m => m ∈ pending_list (contents (ws_store st)) /\ om_NextRetryAt m <= unix_of (pl_now p)) batch ->
  let st' := run_batch w p batch st in
  sound w st' /\ ran w (length batch) st st'.
Proof.
  intros Hint Ht. revert st. induction batch as [|msg batch IH]; intros st Hsd Hnd Hall; [split; [done|apply ran_refl]|].
  apply NoDup_cons in Hnd as [Hn Hnd]. apply Forall_cons in Hall as [[Hin Hdue] Hall].
  destruct Hsd as (Hs&Hrd&Hq). pose proof Hin as (k&v&Hk&Hp&Hm)%elem_pending. cbn [run_batch foldl length].
  destruct (work_succ w _ _ Hin) as [b Hb]. rewrite Hb in Hrd.
  destruct (attempt_ends msg (ws_store st) b k v Hs Hrd Hq Hk Hp Hm w (pl_env p msg) (pl_clock p msg) st) as (o&Hs'&Hrd'&Hst&Ho);
    [done| |done|apply (tk_texts _ _ Ht)|].
  { destruct (tk_clock _ _ Ht msg) as (?&?&?). split_and!; try done. etransitivity; [exact Hdue|by apply Z.div_le_mono]. }
  set (st1 := processMessage _ _ _ _ st) in *.
  pose proof (stepped_work w _ _ _ _ Hq Hin Hst (fun m' E => proj1 (Ho m' E))) as Hw.
  assert (left_of w o < attempts_left w msg)%nat by (destruct o as [m'|]; [by apply Ho|unfold attempts_left; cbn; lia]).
  assert (ran w 1 st st1) as Hran by (split; [lia|]; intros m [[? _]|E]%Hst; [by left|right; by apply Ho]).
  destruct (IH st1) as [Hsd' Hran']; [split_and!; [done|eapply qbudget_le; [|exact Hrd']; lia|apply Hst]|done| |].
  - apply Forall_forall. intros m' Hm'. pose proof (proj1 (Forall_forall _ _) Hall m' Hm') as [Hin' Hdue']. split; [|done].
    apply Hst. left. split; [done|]. intros E. apply Hn. rewrite <- E. apply list_elem_of_fmap. eauto.
  - split; [exact Hsd'|]. by apply (ran_trans w 1 _ st st1).
Qed.

Lemma poll_work w p st :
  Second <= wk_maxRetryInterval w -> tick_ok w p -> sound w st ->
  sound w (poll w p st).1 /\ ran w (length (poll w p st).2) st (poll w p st).1.
Proof.
  intros Hint Ht Hsd. pose proof Hsd as (Hs&_&Hq). unfold poll. destruct (pl_leader p); [|split; [done|apply ran_refl]]. cbn [negb].
  rewrite (GetReady_due L) by done. cbn [fst snd].
  set (due := List.filter _ _). pose proof (tk_order _ _ Ht (take batchSize due)) as Hsub.
  assert (pl_order p (take batchSize due) ⊆+ due) as Hsub' by (etransitivity; [exact Hsub|apply sublist_submseteq, sublist_take]).
  apply batch_work; [done|done|done| |].
  - eapply submseteq_NoDup; [|by apply pending_NoDup]. apply fmap_submseteq. etransitivity; [exact Hsub'|].
    apply sublist_submseteq, filter_sublist.
  - apply Forall_forall. intros m Hm. eapply elem_of_submseteq in Hm; [|exact Hsub'].
    apply list_elem_of_In, List.filter_In in Hm as [Hin ?%Z.leb_le]. split; [by apply list_elem_of_In|done].
Qed.

Lemma Run_work w ticks st st' batches :
  Second <= wk_maxRetryInterval w -> Forall (tick_ok w) ticks -> sound w st -> Run w ticks st = (st', batches) ->
  sound w st' /\ ran w (length (concat batches)) st st'.
Proof.
  intros Hint. revert st batches. induction ticks as [|p ticks IH]; cbn [Run]; intros st batches Hall Hsd.
  { intros [= <- <-]. split; [done|apply ran_refl]. }
  apply Forall_cons in Hall as [Hp Hall]. destruct (poll_work w p st Hint Hp Hsd) as [Hsd1 Hr1].
  destruct (poll w p st) as [st1 batch]. destruct (Run w ticks st1) as [st2 bs] eqn:E. intros [= <- <-].
  destruct (IH _ _ Hall Hsd1 E) as [Hsd2 Hr2]. split; [done|]. cbn [concat]. rewrite length_app. by eapply ran_trans.
Qed.

Lemma work_zero w c : work w c = 0%nat -> pending_list c = [].
Proof. unfold work. destruct (pending_list c); [done|]. cbn. lia. Qed.

Lemma busy_le {A} (batches : list (list A)) :
  (length (List.filter (fun b => negb (Nat.eqb (length b) 0)) batches) <= length (concat batches))%nat.
Proof.
  induction batches as [|b bs IH]; [done|]. cbn. rewrite length_app. destruct (Nat.eqb_spec (length b) 0); cbn; lia.
Qed.

End Termination.

(** A tick of the leader, not cancelled, has something to do as soon as a
    message is due: the polls that do not count are those with nothing due. *)
Theorem due_message_is_tried {DB} `{PebbleLaws DB} `{ProtoLaws OutboundMessage} `{Codec queueMovePayload} `{RaftApplier DB} `{GoUnicode}
    (L : nat) w p (st : WState (DB := DB)) m :
  healthy (ws_store st) -> queue_ok L (contents (ws_store st)) -> pl_leader p = true -> (forall l, pl_order p l ≡ₚ l) ->
  m ∈ pending_list (contents (ws_store st)) -> om_NextRetryAt m <= unix_of (pl_now p) -> (poll w p st).2 <> [].
Proof.
  intros Hs Hq Hl Ho Hin Hdue. unfold poll. rewrite Hl, (GetReady_due L) by done. cbn [negb snd].
  set (due := List.filter _ _). assert (m ∈ due) as Hd.
  { apply list_elem_of_In, List.filter_In. split; [by apply list_elem_of_In|by apply Z.leb_le]. }
  destruct due as [|x l]; [by apply elem_of_nil in Hd|]. intros E. specialize (Ho (take batchSize (x :: l))). rewrite E in Ho.
  by apply Permutation_nil in Ho.
Qed.

(** A reply that is not UTF-8 defeats the schedule: the record that would carry
    it cannot be encoded, so the attempt leaves the queue as it was, and once the
    lifetime is over each attempt sends the sender another failure report. *)
Theorem unencodable_reply_never_ends {DB} `{PebbleDB DB} `{Codec OutboundMessage} `{Codec queueMovePayload} `{RaftApplier DB} `{GoUnicode}
    w env now msg (st : WState (DB := DB)) raw rel e :
  read_body env msg = inl raw -> env_deliver env msg (sign env msg raw) = ([], rel, Some e) ->
  (forall m, om_StatusReason m = err_text e -> is_ok (marshal m) = false) ->
  om_Recipients msg <> [] -> (forall r, r ∈ om_Recipients msg -> NotifyWantsFailure (RecipientNotify msg r) = true) ->
  mayReport w msg = true -> om_CreatedAt msg <> 0 ->
  time_add (time_unix (om_CreatedAt msg)) (wk_maxLifetime w) <
    time_add now (retryDelay (i32 (om_AttemptCount msg + 1)) (wk_maxRetryInterval w)) ->
  processMessage w env now msg st =
    report (FailureReport (set_reason msg (err_text e)) (om_Recipients msg) (err_text e)) st.
Proof.
  intros Hbody Hdel Henc Hne Hwant Hmay Hcr Hlate. unfold processMessage. rewrite Hbody, Hdel. cbn [length Nat.eqb negb andb].
  destruct (Nat.eqb_spec (length (om_Recipients msg)) 0) as [?%nil_length_inv|_]; [done|].
  unfold handleFailure. cbn [om_CreatedAt set_reason om_AttemptCount om_Recipients]. rewrite (proj2 (Z.eqb_neq _ _) Hcr).
  cbn [om_CreatedAt set_reason om_AttemptCount om_Recipients]. rewrite (proj2 (Z.ltb_lt _ _) Hlate).
  assert (wk_bouncer w = true) as Hb by (apply mayReport_true in Hmay as (?&_); done). rewrite Hb.
  unfold generateBounce. change (mayReport w (set_reason msg (err_text e))) with (mayReport w msg). rewrite Hmay. cbn [negb].
  change (RecipientNotify (set_reason msg (err_text e))) with (RecipientNotify msg).
  rewrite List.forallb_filter_id by (apply forallb_forall; intros r Hr; by apply Hwant, list_elem_of_In). destruct (Nat.eqb_spec (length (om_Recipients msg)) 0) as [?%nil_length_inv|_]; [done|].
  unfold on_queue. set (m := set_reason msg (err_text e)).
  assert (forall s : DB, (MarkBounced m s).1 = s) as Hsame.
  { intros s. unfold MarkBounced, gbind, gread, glift. destruct (findPendingKey s (om_Id m)); [|done].
    specialize (Henc (bounced_message m) eq_refl). by destruct (marshal (bounced_message m)). }
  specialize (Hsame (ws_store st)). unfold report. cbn [ws_store ws_reports]. destruct (MarkBounced m (ws_store st)) as [s' r]. cbn in *. by subst.
Qed.

(** * A concrete run *)

Section Demo.
#[local] Existing Instance bytewise_unicode.
#[local] Existing Instance demo_out_codec.
#[local] Existing Instance demo_out_laws.
#[local] Existing Instance demo_qmove_codec.
#[local] Existing Instance demo_qmove_laws.
#[local] Existing Instance queue_direct.
#[local] Existing Instance queue_direct_ok.
#[local] Instance demo_texts : OutboundTexts.
Proof. by refine {| clean_text := fun _ => True |}. Defined.
#[local] Instance queue_direct_reliable : ReliableQueue MemDB.
Proof.
  refine {| qbudget := fun _ _ => True |}; [done|done|].
  intros _ cmd s Hs _ [Hc Hmove]. unfold ApplyCommand, queue_direct.
  assert (cmd_Op cmd <> OP_UNSPECIFIED) as Hop by (destruct Hc as [[_ ->]|[_ ?]]; done).
  destruct (cmd_Op cmd); [done| |destruct (Delete_healthy s (cmd_Key cmd) Hs) as (s'&?&?); by exists s'].
  destruct (IsQueueSyntheticCommand (cmd_Key cmd)) eqn:Hk.
  - destruct (Hmove eq_refl eq_refl) as (p&Hp&Hn). destruct (queue_move_succeeds cmd p s) as (s'&?&?&?); [done..|]. by exists s'.
  - destruct (Set_healthy s (cmd_Key cmd) (cmd_Value cmd) Hs) as (s'&?&?). by exists s'.
Defined.

(** Two ticks: the first message is deferred at 2000s; six days on, both are
    past their lifetime. *)
Definition demo_tick (sec : Z) : Poll :=
  mkPoll true (time_unix sec) (fun l => l) (fun _ => time_unix sec) (fun _ => demo_env).
Definition demo_run := Run (NewWorker true []) [demo_tick 2000; demo_tick 520000] (mkWState demo_q []).

Lemma demo_tick_ok sec : 1 <= sec < 2 ^ 62 -> tick_ok (NewWorker true []) (demo_tick sec).
Proof.
  intros Hsec. split.
  - done.
  - intros m. cbn [demo_tick pl_clock pl_now]. unfold time_unix, in_time, unix_of. change (wk_maxRetryInterval _) with (3600 * Second).
    rewrite <- Z.mul_add_distr_r, Z.div_mul by done. unfold Second. lia.
  - intros m. by apply Forall_forall.
Qed.

End Demo.
