(* ===== verification/Dnssec.v ===== *)
(** The DNSSEC validator of the outbound relay: [internal/dnssec/dnssec.go].

    The resolver is the parameter [query], whose answer to the [n]-th question
    is arbitrary; [miekg/dns] is the class [Miekg].  The functions that fetch
    the keys of a zone and the delegation of a zone call each other without a
    bound, so they take fuel: a run is [None] when it is not enough.  The
    locking of the key cache leaves each of its two accesses atomic and is not
    modelled further. *)

From S2P Require Import Prelude GoStrings.
From Stdlib Require Import Ascii.

(** * Records of [miekg/dns] *)

Definition TypeMX : Z := 15.
Definition TypeDS : Z := 43.
Definition TypeRRSIG : Z := 46.
Definition TypeDNSKEY : Z := 48.
Definition TypeTLSA : Z := 52.

Record DNSKEY := mkKey { dk_Name : string; dk_Algorithm : Z; dk_PublicKey : string }.
Record DS := mkDS { ds_Name : string; ds_KeyTag : Z; ds_Algorithm : Z; ds_DigestType : Z; ds_Digest : string }.
Record RRSIG := mkSig {
  sg_Name : string; sg_TypeCovered : Z; sg_SignerName : string; sg_KeyTag : Z; sg_Inception : Z; sg_Expiration : Z;
  sg_Signature : string }.
Record MX := mkMX { mx_Name : string; mx_Preference : Z; mx_Mx : string }.
Record TLSA := mkTLSA {
  ta_Name : string; ta_Usage : Z; ta_Selector : Z; ta_MatchingType : Z; ta_Certificate : string }.

(** [dns.RR]: the record types the code looks into, and any other. *)
Inductive RR :=
| RR_DNSKEY (k : DNSKEY) | RR_DS (d : DS) | RR_RRSIG (s : RRSIG) | RR_MX (m : MX) | RR_TLSA (t : TLSA)
| RR_Other (name : string) (rrtype : Z) (rdata : string).

#[global] Instance DNSKEY_eq_dec : EqDecision DNSKEY. Proof. solve_decision. Defined.
#[global] Instance DS_eq_dec : EqDecision DS. Proof. solve_decision. Defined.
#[global] Instance RRSIG_eq_dec : EqDecision RRSIG. Proof. solve_decision. Defined.
#[global] Instance MX_eq_dec : EqDecision MX. Proof. solve_decision. Defined.
#[global] Instance TLSA_eq_dec : EqDecision TLSA. Proof. solve_decision. Defined.
#[global] Instance RR_eq_dec : EqDecision RR. Proof. solve_decision. Defined.

(** [rr.Header().Name] and [rr.Header().Rrtype]. *)
Definition rr_name (r : RR) : string :=
  match r with
  | RR_DNSKEY k => dk_Name k | RR_DS d => ds_Name d | RR_RRSIG s => sg_Name s | RR_MX m => mx_Name m
  | RR_TLSA t => ta_Name t | RR_Other n _ _ => n
  end.
Definition rr_type (r : RR) : Z :=
  match r with
  | RR_DNSKEY _ => TypeDNSKEY | RR_DS _ => TypeDS | RR_RRSIG _ => TypeRRSIG | RR_MX _ => TypeMX
  | RR_TLSA _ => TypeTLSA | RR_Other _ t _ => t
  end.

(** The functions of the library.  [Verify] stands for [sig.Verify(k, rrs) ==
    nil]; [ToDS] gives the digest of a key, if the digest type is known. *)
Class Miekg := {
  Fqdn : string -> string;
  IsSubDomain : string -> string -> bool;
  ValidityPeriod : RRSIG -> Z -> bool;
  KeyTag : DNSKEY -> Z;
  ToDS : DNSKEY -> Z -> option string;
  Verify : RRSIG -> DNSKEY -> list RR -> bool }.

(** * Root anchors *)

Record anchor := mkAnchor { an_keyTag : Z; an_algorithm : Z; an_digestType : Z; an_digest : string }.
Definition rootAnchors : list anchor :=
  [mkAnchor 20326 8 2 "E06D44B80B8F1D39A95C0B0D7C65D08458E880409BBC683457104237C7F8EC8D";
   mkAnchor 38696 8 2 "683D2D0ACB8C9B712A1948B27F741219298D0A450D612C483AF444A4C0FB2B16"].

(** * Selecting records *)

Definition recordsOfType (rrs : list RR) (qtype : Z) : list RR := List.filter (fun r => rr_type r =? qtype) rrs.
Definition rrsigsFor (rrs : list RR) (covered : Z) : list RRSIG :=
  omap (fun r => match r with RR_RRSIG s => if sg_TypeCovered s =? covered then Some s else None | _ => None end) rrs.
Definition dnskeys_in (rrs : list RR) : list DNSKEY :=
  omap (fun r => match r with RR_DNSKEY k => Some k | _ => None end) rrs.
Definition ds_in (rrs : list RR) : list DS := omap (fun r => match r with RR_DS d => Some d | _ => None end) rrs.
Definition dnskeysToRR (keys : list DNSKEY) : list RR := RR_DNSKEY <$> keys.
Definition dsToRR (ds : list DS) : list RR := RR_DS <$> ds.

Section Validator.
Context `{GoUnicode, Miekg}.

(** The inner conditions of [matchAnchors] and [matchDS]. *)
Definition digest_is (k : DNSKEY) (digestType : Z) (digest : string) : bool :=
  match ToDS k digestType with Some d => EqualFold d digest | None => false end.
Definition anchor_matches (k : DNSKEY) (a : anchor) : bool :=
  (KeyTag k =? an_keyTag a) && (dk_Algorithm k =? an_algorithm a) && digest_is k (an_digestType a) (an_digest a).
Definition ds_matches (k : DNSKEY) (d : DS) : bool :=
  (KeyTag k =? ds_KeyTag d) && (dk_Algorithm k =? ds_Algorithm d) && digest_is k (ds_DigestType d) (ds_Digest d).

(** A key is appended once for every entry it matches. *)
Definition matchAnchors (keys : list DNSKEY) (anchors : list anchor) : list DNSKEY :=
  keys ≫= (fun k => (fun _ => k) <$> List.filter (anchor_matches k) anchors).
Definition matchDS (keys : list DNSKEY) (dsSet : list DS) : list DNSKEY :=
  keys ≫= (fun k => (fun _ => k) <$> List.filter (ds_matches k) dsSet).

(** * The validator *)

Record keyCacheEntry := mkKeys { kc_keys : list DNSKEY; kc_secure : bool }.
(** The cache, and how many questions have been asked so far. *)
Record Validator := mkValidator { v_keyCache : gmap string keyCacheEntry; v_queries : nat }.
Definition NewValidator : Validator := mkValidator ∅ 0.

(** The answer to the [n]-th question and the clock when it has come. *)
Context (query : nat -> string -> Z -> result (list RR)) (now : nat -> Z).

(** Runs of the validator; [None] is a run that the fuel did not suffice for. *)
Definition VM (A : Type) : Type := Validator -> option (Validator * A).
Definition vret {A} (a : A) : VM A := fun v => Some (v, a).
Definition vbind {A B} (m : VM A) (f : A -> VM B) : VM B :=
  fun v => match m v with Some (v', a) => f a v' | None => None end.
Notation "x <~ m ; f" := (vbind m (fun x => f)) (at level 199, m at level 100, f at level 199, right associativity).

Definition ask (name : string) (qtype : Z) : VM (result (list RR)) :=
  fun v => Some (mkValidator (v_keyCache v) (S (v_queries v)), query (v_queries v) name qtype).
Definition clock : VM Z := fun v => Some (v, now (v_queries v)).

(** [dns.Fqdn(strings.ToLower(name))]. *)
Definition zone_of (name : string) : string := Fqdn (ToLower name).

(** [k.KeyTag() == sig.KeyTag && sig.Verify(k, rrs) == nil] for some key. *)
Definition signed_by (sig : RRSIG) (rrs : list RR) (keys : list DNSKEY) : bool :=
  existsb (fun k => (KeyTag k =? sg_KeyTag sig) && Verify sig k rrs) keys.

(** The loop of [validatedDS] over the signatures. *)
Fixpoint ds_loop (validatedKeys : string -> VM (list DNSKEY * bool)) (ds : list DS) (sigs : list RRSIG) : VM (list DS * bool) :=
  match sigs with
  | [] => vret ([], false)
  | sig :: sigs' =>
      t <~ clock;
      if negb (ValidityPeriod sig t) then ds_loop validatedKeys ds sigs' else
      r <~ validatedKeys (sg_SignerName sig);
      let (parentKeys, secure) := r : list DNSKEY * bool in
      if negb secure then ds_loop validatedKeys ds sigs' else
      if signed_by sig (dsToRR ds) parentKeys then vret (ds, true) else ds_loop validatedKeys ds sigs'
  end.

Definition validatedDS (validatedKeys : string -> VM (list DNSKEY * bool)) (zone : string) : VM (list DS * bool) :=
  msg <~ ask zone TypeDS;
  match msg with
  | Err _ => vret ([], false)
  | Ok rrs =>
      match ds_in rrs with
      | [] => vret ([], false)
      | ds => ds_loop validatedKeys ds (rrsigsFor rrs TypeDS)
      end
  end.

(** The loop of [resolveKeys] over the signatures of the key set. *)
Fixpoint key_loop (keys trustedKSKs : list DNSKEY) (sigs : list RRSIG) : VM (list DNSKEY * bool) :=
  match sigs with
  | [] => vret ([], false)
  | sig :: sigs' =>
      t <~ clock;
      if negb (ValidityPeriod sig t) then key_loop keys trustedKSKs sigs' else
      if signed_by sig (dnskeysToRR keys) trustedKSKs then vret (keys, true) else key_loop keys trustedKSKs sigs'
  end.

Definition resolveKeys (validatedKeys : string -> VM (list DNSKEY * bool)) (zone : string) : VM (list DNSKEY * bool) :=
  msg <~ ask zone TypeDNSKEY;
  match msg with
  | Err _ => vret ([], false)
  | Ok rrs =>
      match dnskeys_in rrs with
      | [] => vret ([], false)
      | keys =>
          trusted <~ (if decide (zone = ".") then vret (matchAnchors keys rootAnchors, true)
                      else d <~ validatedDS validatedKeys zone;
                           let (dsSet, secure) := d : list DS * bool in
                           vret (matchDS keys dsSet, secure));
          let (trustedKSKs, secure) := trusted : list DNSKEY * bool in
          if negb secure then vret ([], false) else
          match trustedKSKs with
          | [] => vret ([], false)
          | _ => key_loop keys trustedKSKs (rrsigsFor rrs TypeDNSKEY)
          end
      end
  end.

Fixpoint validatedKeys (fuel : nat) (zone : string) : VM (list DNSKEY * bool) :=
  match fuel with
  | O => fun _ => None
  | S fuel' => fun v =>
      let zone := zone_of zone in
      match v_keyCache v !! zone with
      | Some ent => Some (v, (kc_keys ent, kc_secure ent))
      | None =>
          match resolveKeys (validatedKeys fuel') zone v with
          | Some (v', (keys, secure)) =>
              Some (mkValidator (<[zone := mkKeys keys secure]> (v_keyCache v')) (v_queries v'), (keys, secure))
          | None => None
          end
      end
  end.

Definition validateRRSet (fuel : nat) (rrs : list RR) (sig : RRSIG) : VM bool :=
  t <~ clock;
  if negb (ValidityPeriod sig t) then vret false else
  r <~ validatedKeys fuel (zone_of (sg_SignerName sig));
  let (keys, secure) := r : list DNSKEY * bool in
  if negb secure then vret false else vret (signed_by sig rrs keys).

Fixpoint lookup_loop (fuel : nat) (answer : list RR) (sigs : list RRSIG) : VM (result (list RR * bool)) :=
  match sigs with
  | [] => vret (Ok (answer, false))
  | sig :: sigs' =>
      ok <~ validateRRSet fuel answer sig;
      if ok : bool then vret (Ok (answer, true)) else lookup_loop fuel answer sigs'
  end.

Definition Lookup (fuel : nat) (name : string) (qtype : Z) : VM (result (list RR * bool)) :=
  let name := zone_of name in
  msg <~ ask name qtype;
  match msg with
  | Err e => vret (Err e)
  | Ok rrs =>
      let answer := recordsOfType rrs qtype in
      match answer, rrsigsFor rrs qtype with
      | [], _ | _, [] => vret (Ok (answer, false))
      | _, sigs => lookup_loop fuel answer sigs
      end
  end.

(** Validators as they come to be: a new one, after any lookups. *)
Inductive reachable : Validator -> Prop :=
| reach_new : reachable NewValidator
| reach_lookup fuel name qtype v v' r : reachable v -> Lookup fuel name qtype v = Some (v', r) -> reachable v'.

End Validator.
