(* ===== verification/DnssecThm.v ===== *)
(** What the DNSSEC validator guarantees, and what it does not.

    [Trusted] is the chain of signatures that a secure answer rests on.  Under
    the laws of the library, sound cryptography and a resolver that answers
    with records of the name asked for, a secure answer was published by a zone
    above the name; without the last assumption it may be forged. *)

From S2P Require Import Prelude GoStrings Dnssec.
From Stdlib Require Import Ascii.

Section Theorems.
Context `{GoUnicode, Miekg} (query : nat -> string -> Z -> result (list RR)) (now : nat -> Z).

(** * Runs: a small program logic

    [holds P m Q]: a run of [m] that ends keeps [P] and its result has [Q]. *)

Definition holds {A} (P : Validator -> Prop) (m : VM A) (Q : A -> Prop) : Prop :=
  forall v v' a, P v -> m v = Some (v', a) -> P v' /\ Q a.

(** [P] does not look at the number of questions asked. *)
Definition about_cache (P : Validator -> Prop) : Prop := forall c n m, P (mkValidator c n) -> P (mkValidator c m).

Lemma holds_ret {A} P (a : A) (Q : A -> Prop) : Q a -> holds P (vret a) Q.
Proof. intros HQ v v' a' HP [= <- <-]. done. Qed.

Lemma holds_bind {A B} P (m : VM A) (f : A -> VM B) R Q :
  holds P m R -> (forall a, R a -> holds P (f a) Q) -> holds P (vbind m f) Q.
Proof.
  intros Hm Hf v v' b HP. unfold vbind. destruct (m v) as [[v1 a]|] eqn:E; [|done].
  destruct (Hm _ _ _ HP E) as [HP1 HR]. by apply Hf.
Qed.

Lemma holds_ask P name t : about_cache P -> holds P (ask query name t) (fun r => exists n, r = query n name t).
Proof. intros HP [c n] v' a Hv [= <- <-]. split; [by eapply HP|eauto]. Qed.

Lemma holds_clock P : holds P (clock now) (fun t => exists n, t = now n).
Proof. intros v v' a Hv [= <- <-]. eauto. Qed.

Lemma holds_weaken {A} P (m : VM A) (Q Q' : A -> Prop) : holds P m Q -> (forall a, Q a -> Q' a) -> holds P m Q'.
Proof. intros Hm HQ v v' a HP E. destruct (Hm _ _ _ HP E). auto. Qed.

(** * The chain of trust *)

Definition current (sig : RRSIG) : Prop := exists n, ValidityPeriod sig (now n) = true.
Definition key_set (rrs : list RR) : list RR := dnskeysToRR (dnskeys_in rrs).

(** [ksk] signed the key set in [rrs]. *)
Definition self_signed (rrs : list RR) (ksk : DNSKEY) : Prop :=
  exists sig, sig ∈ rrsigsFor rrs TypeDNSKEY /\ current sig /\ ksk ∈ dnskeys_in rrs /\ Verify sig ksk (key_set rrs) = true.

Inductive Trusted : string -> list DNSKEY -> Prop :=
| Trusted_root n rrs ksk a :
    query n "." TypeDNSKEY = Ok rrs -> a ∈ rootAnchors -> anchor_matches ksk a = true -> self_signed rrs ksk ->
    Trusted "." (dnskeys_in rrs)
| Trusted_child n m zone rrs drrs dsig pkeys pk d ksk :
    query n zone TypeDNSKEY = Ok rrs -> query m zone TypeDS = Ok drrs ->
    Trusted (zone_of (sg_SignerName dsig)) pkeys ->
    dsig ∈ rrsigsFor drrs TypeDS -> current dsig -> pk ∈ pkeys -> Verify dsig pk (dsToRR (ds_in drrs)) = true ->
    d ∈ ds_in drrs -> ds_matches ksk d = true -> self_signed rrs ksk ->
    Trusted zone (dnskeys_in rrs).

(** Delegations on the way: signed by a trusted key of the signer. *)
Definition delegated (zone : string) (dsSet : list DS) : Prop :=
  exists m drrs dsig pkeys pk, query m zone TypeDS = Ok drrs /\ dsSet = ds_in drrs /\
    Trusted (zone_of (sg_SignerName dsig)) pkeys /\ dsig ∈ rrsigsFor drrs TypeDS /\ current dsig /\ pk ∈ pkeys /\
    Verify dsig pk (dsToRR (ds_in drrs)) = true.

Definition trusted_result (zone : string) (r : list DNSKEY * bool) : Prop := r.2 = true -> Trusted zone r.1.

Lemma signed_by_inv sig rrs keys : signed_by sig rrs keys = true -> exists k, k ∈ keys /\ Verify sig k rrs = true.
Proof. intros (k & Hin & [_ HV]%andb_true_iff)%existsb_exists. apply list_elem_of_In in Hin. eauto. Qed.

(** Each key of [matchAnchors] and [matchDS] is one of [keys] and matches. *)
Lemma matching_inv {A} (p : DNSKEY -> A -> bool) (keys : list DNSKEY) (l : list A) k :
  k ∈ keys ≫= (fun k => (fun _ => k) <$> List.filter (p k) l) -> k ∈ keys /\ exists x, x ∈ l /\ p k x = true.
Proof.
  intros (k' & (x & -> & Hx)%list_elem_of_fmap & Hk)%list_elem_of_bind. split; [done|]. exists x.
  apply list_elem_of_In, filter_In in Hx as [Hx ?]. by rewrite list_elem_of_In.
Qed.

Section Soundness.
Context (P : Validator -> Prop) (HP : about_cache P) (rec : string -> VM (list DNSKEY * bool)).
Hypothesis rec_ok : forall zone, holds P (rec zone) (trusted_result (zone_of zone)).

Lemma ds_loop_sound zone m drrs sigs :
  query m zone TypeDS = Ok drrs -> sigs ⊆ rrsigsFor drrs TypeDS ->
  holds P (ds_loop now rec (ds_in drrs) sigs) (fun r => r.2 = true -> delegated zone r.1).
Proof.
  intros Hq. induction sigs as [|sig sigs IH]; intros Hsub; cbn; [by apply holds_ret|].
  assert (Hrest := IH (fun x Hx => Hsub x (list_elem_of_further _ _ _ Hx))).
  eapply holds_bind; [apply holds_clock|]. intros t [n ->]. destruct (ValidityPeriod sig (now n)) eqn:HV; cbn; [|done].
  eapply holds_bind; [apply rec_ok|]. intros [pkeys sec] Ht. destruct sec; cbn; [|done].
  destruct (signed_by sig _ pkeys) eqn:Hs; [|done]. apply holds_ret. intros _. apply signed_by_inv in Hs as (k & ? & ?).
  exists m, drrs, sig, pkeys, k. unfold current. specialize (Ht eq_refl). eauto 10 using list_elem_of_here.
Qed.

Lemma validatedDS_sound zone :
  holds P (validatedDS query now rec zone) (fun r => r.2 = true -> delegated zone r.1).
Proof.
  eapply holds_bind; [by apply holds_ask|]. intros ? [n ->]. destruct (query n zone TypeDS) as [drrs|e] eqn:Hq; [|by apply holds_ret].
  pose proof (ds_loop_sound zone n drrs _ Hq (reflexivity _)) as Hl. destruct (ds_in drrs); [by apply holds_ret|done].
Qed.

Lemma key_loop_sound rrs trusted zone sigs :
  sigs ⊆ rrsigsFor rrs TypeDNSKEY ->
  (forall ksk, ksk ∈ trusted -> ksk ∈ dnskeys_in rrs /\ (self_signed rrs ksk -> Trusted zone (dnskeys_in rrs))) ->
  holds P (key_loop now (dnskeys_in rrs) trusted sigs) (trusted_result zone).
Proof.
  intros Hsub Htr. induction sigs as [|sig sigs IH]; cbn; [by apply holds_ret|].
  assert (Hrest := IH (fun x Hx => Hsub x (list_elem_of_further _ _ _ Hx))).
  eapply holds_bind; [apply holds_clock|]. intros t [n ->]. destruct (ValidityPeriod sig (now n)) eqn:HV; cbn; [|done].
  destruct (signed_by sig _ trusted) eqn:Hs; [|done]. apply holds_ret. intros _. apply signed_by_inv in Hs as (k & Hk & ?).
  destruct (Htr k Hk) as [Hin HT]. apply HT. exists sig. unfold current. eauto 10 using list_elem_of_here.
Qed.

Lemma resolveKeys_sound zone : holds P (resolveKeys query now rec zone) (trusted_result zone).
Proof.
  eapply holds_bind; [by apply holds_ask|]. intros ? [n ->].
  destruct (query n zone TypeDNSKEY) as [rrs|e] eqn:Hq; [|by apply holds_ret].
  destruct (dnskeys_in rrs) as [|k0 ks] eqn:Hks; [by apply holds_ret|]. rewrite <- Hks.
  apply holds_bind with (R := fun r => r.2 = true -> forall ksk, ksk ∈ r.1 ->
    ksk ∈ dnskeys_in rrs /\ (self_signed rrs ksk -> Trusted zone (dnskeys_in rrs))).
  - case_decide as Hz.
    + subst zone. apply holds_ret. intros _ ksk (? & a & ? & ?)%matching_inv. split; [done|]. by eapply Trusted_root.
    + eapply holds_bind; [apply validatedDS_sound|]. intros [dsSet sec] Hd. apply holds_ret. cbn in *.
      intros -> ksk (? & d & Hin & ?)%matching_inv. split; [done|]. intros Hself.
      destruct (Hd eq_refl) as (m & drrs & dsig & pkeys & pk & Hq2 & -> & ? & ? & ? & ? & ?).
      exact (Trusted_child n m zone rrs drrs dsig pkeys pk d ksk Hq Hq2 ltac:(done) ltac:(done) ltac:(done) ltac:(done) ltac:(done) Hin ltac:(done) Hself).
  - intros [trusted []] Htr; cbn; [|by apply holds_ret]. cbn in Htr. destruct trusted; [by apply holds_ret|].
    apply key_loop_sound; [done|auto].
Qed.
End Soundness.

(** Every secure entry of the cache rests on a chain. *)
Definition cache_ok (v : Validator) : Prop :=
  forall zone ent, v_keyCache v !! zone = Some ent -> kc_secure ent = true -> Trusted zone (kc_keys ent).
Lemma cache_ok_about_cache : about_cache cache_ok.
Proof. intros c n m Hc. exact Hc. Qed.

Lemma validatedKeys_sound fuel zone : holds cache_ok (validatedKeys query now fuel zone) (trusted_result (zone_of zone)).
Proof.
  revert zone. induction fuel as [|fuel IH]; intros zone v v' [keys sec] Hok; cbn [validatedKeys]; cbv zeta; [done|].
  destruct (v_keyCache v !! zone_of zone) as [ent|] eqn:Hc.
  - intros [= <- <- <-]. split; [done|]. intros Hs. by apply Hok.
  - destruct (resolveKeys query now _ (zone_of zone) v) as [[v1 [ks s]]|] eqn:E; [|done]. intros [= <- <- <-].
    destruct (resolveKeys_sound _ cache_ok_about_cache _ IH _ _ _ _ Hok E) as [Hok1 HT].
    split; [|done]. intros z ent. cbn. rewrite lookup_insert_Some. intros [[<- <-]|[_ Hz]]; [exact HT|by apply Hok1].
Qed.

(** A signature by a trusted key of its signer. *)
Definition secured (rrs : list RR) (sig : RRSIG) : Prop :=
  current sig /\ exists keys k, Trusted (zone_of (zone_of (sg_SignerName sig))) keys /\ k ∈ keys /\ Verify sig k rrs = true.

Lemma validateRRSet_sound fuel rrs sig :
  holds cache_ok (validateRRSet query now fuel rrs sig) (fun b => b = true -> secured rrs sig).
Proof.
  eapply holds_bind; [apply holds_clock|]. intros t [n ->]. destruct (ValidityPeriod sig (now n)) eqn:HV; cbn; [|by apply holds_ret].
  eapply holds_bind; [apply validatedKeys_sound|]. intros [keys []] HT; cbn; [|by apply holds_ret].
  apply holds_ret. intros (k & ? & ?)%signed_by_inv. split; [by exists n|]. exists keys, k. by specialize (HT eq_refl).
Qed.

Lemma lookup_loop_sound fuel answer sigs :
  holds cache_ok (lookup_loop query now fuel answer sigs)
    (fun r => forall ans, r = Ok (ans, true) -> ans = answer /\ exists sig, sig ∈ sigs /\ secured answer sig).
Proof.
  induction sigs as [|sig sigs IH]; cbn; [by apply holds_ret|].
  eapply holds_bind; [apply validateRRSet_sound|]. intros [] Hs.
  - apply holds_ret. intros ans [= <-]. split; [done|]. exists sig. eauto using list_elem_of_here.
  - eapply holds_weaken; [exact IH|]. cbn. intros r Hr ans Hans. destruct (Hr ans Hans) as (-> & s & ? & ?).
    split; [done|]. exists s. by split; [right|].
Qed.

Lemma Lookup_sound fuel name t :
  holds cache_ok (Lookup query now fuel name t)
    (fun r => forall ans, r = Ok (ans, true) ->
      exists n rrs sig, query n (zone_of name) t = Ok rrs /\ ans = recordsOfType rrs t /\ sig ∈ rrsigsFor rrs t /\ secured ans sig).
Proof.
  eapply holds_bind; [by apply holds_ask, cache_ok_about_cache|]. intros ? [n ->].
  destruct (query n (zone_of name) t) as [rrs|e] eqn:Hq; [|by apply holds_ret].
  pose proof (lookup_loop_sound fuel (recordsOfType rrs t) (rrsigsFor rrs t)) as Hl.
  destruct (recordsOfType rrs t) as [|r l] eqn:Ea; [by apply holds_ret|].
  destruct (rrsigsFor rrs t) as [|s0 sigs] eqn:Es; [by apply holds_ret|].
  eapply holds_weaken; [exact Hl|]. cbn. intros r' Hr ans Hans. destruct (Hr ans Hans) as (-> & sig & ? & ?).
  exists n, rrs, sig. by rewrite Ea, Es.
Qed.

Lemma reachable_ok v : reachable query now v -> cache_ok v.
Proof.
  induction 1 as [|fuel name t v v' r _ IH E]; [intros ?? [=]|].
  by destruct (Lookup_sound _ _ _ _ _ _ IH E).
Qed.

(** * Genuine answers *)

(** What [Verify] checks besides the signature, and names in normal form. *)
Class MiekgLaws : Prop := {
  zone_of_idem name : zone_of (zone_of name) = zone_of name;
  Verify_names sig k rrs : Verify sig k rrs = true ->
    rrs <> [] /\ Forall (fun r => zone_of (rr_name r) = zone_of (sg_Name sig)) rrs /\
    zone_of (dk_Name k) = zone_of (sg_SignerName sig) /\ IsSubDomain (sg_SignerName sig) (sg_Name sig) = true }.

(** Sound cryptography, as far as the zones in [honest] go, which with a name
    include the zones above it: [genuine z k] when only the operator of [z] can
    sign with [k], [published z rrs] when that operator has signed [rrs]. *)
Record Crypto := mkCrypto {
  honest : string -> Prop;
  genuine : string -> DNSKEY -> Prop;
  published : string -> list RR -> Prop;
  honest_up parent name : IsSubDomain parent name = true -> honest (zone_of name) -> honest (zone_of parent);
  root_key k a : a ∈ rootAnchors -> anchor_matches k a = true -> genuine "." k;
  unforgeable z k sig rrs : honest z -> genuine z k -> Verify sig k rrs = true -> published z rrs;
  own_keys z keys k : honest z -> published z (dnskeysToRR keys) -> k ∈ keys -> zone_of (dk_Name k) = z -> genuine z k;
  delegates z ds d k : honest z -> published z (dsToRR ds) -> d ∈ ds -> ds_matches k d = true ->
    genuine (zone_of (ds_Name d)) k }.

(** The resolver answers a question with records of the name asked for. *)
Definition answers_own_name : Prop :=
  forall n name t rrs, query n name t = Ok rrs -> Forall (fun r => zone_of (rr_name r) = name) rrs.

Section Genuine.
Context `{!MiekgLaws} (C : Crypto) (Hown : answers_own_name).

Lemma in_dnskeys k rrs : k ∈ dnskeys_in rrs -> RR_DNSKEY k ∈ rrs.
Proof. intros (r & Hr & Hm)%list_elem_of_omap. by destruct r; simplify_eq. Qed.
Lemma in_ds d rrs : d ∈ ds_in rrs -> RR_DS d ∈ rrs.
Proof. intros (r & Hr & Hm)%list_elem_of_omap. by destruct r; simplify_eq. Qed.

Lemma own_record n name t rrs r : query n name t = Ok rrs -> r ∈ rrs -> zone_of (rr_name r) = name.
Proof. intros Hq Hr. specialize (Hown _ _ _ _ Hq). rewrite Forall_forall in Hown. eauto. Qed.

(** A signer of records of [name] stands above it. *)
Lemma signer_honest sig k rrs r name :
  Verify sig k rrs = true -> r ∈ rrs -> zone_of (rr_name r) = name -> honest C name -> honest C (zone_of (sg_SignerName sig)).
Proof.
  intros (_ & Hn & _ & Hsub)%Verify_names Hr <-. rewrite Forall_forall in Hn. rewrite (Hn _ Hr). by apply honest_up.
Qed.

Lemma Trusted_genuine zone keys k : Trusted zone keys -> honest C zone -> k ∈ keys -> genuine C zone k.
Proof.
  assert (forall n zone rrs ksk k, query n zone TypeDNSKEY = Ok rrs -> honest C zone -> genuine C zone ksk ->
            self_signed rrs ksk -> k ∈ dnskeys_in rrs -> genuine C zone k) as Hset.
  { intros n z rrs ksk k' Hq Hz Hk (sig & _ & _ & _ & HV) Hin. eapply own_keys; [done|by eapply unforgeable|done|].
    by apply (own_record _ _ _ _ _ Hq (in_dnskeys _ _ Hin)). }
  intros HT. revert k. induction HT as [n rrs ksk a Hq Ha Hm Hself|n m z rrs drrs dsig pkeys pk d ksk Hq Hq2 HT IH Hsig _ Hpk HV Hd Hm Hself];
    intros k Hz Hin.
  - eapply Hset; eauto using root_key.
  - pose proof (own_record _ _ _ _ _ Hq2 (in_ds _ _ Hd)) as Hdz. cbn in Hdz.
    assert (RR_DS d ∈ dsToRR (ds_in drrs)) as Hd' by by apply list_elem_of_fmap_2.
    assert (honest C (zone_of (sg_SignerName dsig))) as Hp by by eapply (signer_honest dsig pk); eauto.
    eapply Hset; [done..| |done|done]. rewrite <- Hdz.
    eapply delegates; [exact Hp| |exact Hd|exact Hm]. eapply unforgeable; eauto.
Qed.

End Genuine.

(** * Termination *)

(** A run that needs no more fuel. *)
Definition ends {A} (m : VM A) : Prop := forall v, exists r, m v = Some r.

Lemma ends_bind {A B} (m : VM A) (f : A -> VM B) : ends m -> (forall a, ends (f a)) -> ends (vbind m f).
Proof. intros Hm Hf v. unfold vbind. destruct (Hm v) as [[v1 a] ->]. apply Hf. Qed.
Lemma ends_ret {A} (a : A) : ends (vret a).
Proof. intros v. by eexists. Qed.
Lemma ends_ask name t : ends (ask query name t).
Proof. intros v. by eexists. Qed.
Lemma ends_clock : ends (clock now).
Proof. intros v. by eexists. Qed.

Lemma key_loop_ends keys trusted sigs : ends (key_loop now keys trusted sigs).
Proof.
  induction sigs as [|sig sigs IH]; [apply ends_ret|]. apply ends_bind; [apply ends_clock|]. intros t.
  case_match; [done|]. case_match; [apply ends_ret|done].
Qed.

Lemma ds_loop_ends rec ds sigs : (forall sig, sig ∈ sigs -> ends (rec (sg_SignerName sig))) -> ends (ds_loop now rec ds sigs).
Proof.
  intros Hrec. induction sigs as [|sig sigs IH]; [apply ends_ret|]. apply ends_bind; [apply ends_clock|]. intros t.
  assert (ends (ds_loop now rec ds sigs)) by (apply IH; intros s Hs; apply Hrec; by right).
  case_match; [done|]. apply ends_bind; [by apply Hrec; left|]. intros [pkeys sec].
  case_match; [done|]. case_match; [apply ends_ret|done].
Qed.

(** [climbs depth]: delegations are signed by zones of a smaller depth. *)
Definition climbs (depth : string -> nat) : Prop :=
  forall n zone rrs sig, zone <> "." -> query n zone TypeDS = Ok rrs -> sig ∈ rrsigsFor rrs TypeDS ->
    (depth (zone_of (sg_SignerName sig)) < depth zone)%nat.

Lemma validatedKeys_ends depth fuel zone :
  climbs depth -> (depth (zone_of zone) < fuel)%nat -> ends (validatedKeys query now fuel zone).
Proof.
  intros Hc. revert zone. induction fuel as [|fuel IH]; intros zone Hd v; [lia|]. cbn [validatedKeys]. cbv zeta.
  destruct (v_keyCache v !! zone_of zone); [by eexists|].
  enough (ends (resolveKeys query now (validatedKeys query now fuel) (zone_of zone))) as Hr.
  { destruct (Hr v) as [[v1 [ks s]] ->]. by eexists. }
  apply ends_bind; [apply ends_ask|]. intros [rrs|e]; [|apply ends_ret]. case_match; [apply ends_ret|].
  apply ends_bind; [|intros [trusted []]; cbn; [case_match; [apply ends_ret|apply key_loop_ends]|apply ends_ret]].
  case_decide as Hz; [apply ends_ret|]. apply ends_bind; [|intros []; apply ends_ret].
  intros v1. unfold validatedDS, vbind, ask. destruct (query (v_queries v1) (zone_of zone) TypeDS) as [drrs|e] eqn:Hq; [|by eexists].
  case_match; [by eexists|]. apply ds_loop_ends. intros sig Hs. apply IH. specialize (Hc _ _ _ _ Hz Hq Hs). lia.
Qed.

(** Validation ends when delegations are signed higher up; a name has at most
    127 labels, so 128 is enough fuel with the number of labels as depth. *)
Theorem lookup_terminates depth fuel name t v :
  climbs depth -> (forall zone, (depth zone < fuel)%nat) -> exists r, Lookup query now fuel name t v = Some r.
Proof.
  intros Hc Hd. revert v. change (ends (Lookup query now fuel name t)). apply ends_bind; [apply ends_ask|].
  intros [rrs|e]; [|apply ends_ret]. destruct (recordsOfType rrs t) as [|r0 l0]; [apply ends_ret|].
  destruct (rrsigsFor rrs t) as [|sig sigs]; [apply ends_ret|]. generalize (sig :: sigs). intros l.
  induction l as [|sg l IH]; [apply ends_ret|]. apply ends_bind; [|intros []; [apply ends_ret|done]].
  apply ends_bind; [apply ends_clock|]. intros ?. case_match; [apply ends_ret|].
  apply ends_bind; [by eapply validatedKeys_ends|]. intros [? []]; apply ends_ret.
Qed.

(** Nothing makes delegations climb: a zone whose delegation claims to be
    signed by the zone itself sends the validator round for ever. *)
Theorem self_delegation_never_ends fuel zone v keyrrs dsrrs sig sigs :
  zone_of zone <> "." -> (forall n, ValidityPeriod sig (now n) = true) ->
  (forall n, query n (zone_of zone) TypeDNSKEY = Ok keyrrs) -> dnskeys_in keyrrs <> [] ->
  (forall n, query n (zone_of zone) TypeDS = Ok dsrrs) -> ds_in dsrrs <> [] ->
  rrsigsFor dsrrs TypeDS = sig :: sigs -> zone_of (sg_SignerName sig) = zone_of zone ->
  v_keyCache v !! zone_of zone = None -> validatedKeys query now fuel zone v = None.
Proof.
  intros Hz HV Hk Hks Hd Hds Hs Hsig. revert zone v Hz Hk Hd Hsig.
  induction fuel as [|fuel IH]; intros zone v Hz Hk Hd Hsig Hv; [done|].
  cbn [validatedKeys]. cbv zeta. rewrite Hv. unfold resolveKeys, validatedDS, vbind, ask. rewrite Hk.
  destruct (dnskeys_in keyrrs); [done|]. case_decide; [done|]. cbn [v_queries v_keyCache]. rewrite Hd.
  destruct (ds_in dsrrs); [done|]. rewrite Hs. cbn [ds_loop]. unfold vbind, clock. rewrite HV. cbn [negb].
  by rewrite IH; try rewrite Hsig.
Qed.

(** * Failures are remembered *)

(** The keys of the root could not be had, and nothing has been secured. *)
Definition dead (v : Validator) : Prop :=
  (exists ent, v_keyCache v !! "." = Some ent) /\ forall zone ent, v_keyCache v !! zone = Some ent -> kc_secure ent = false.
Lemma dead_about_cache : about_cache dead.
Proof. intros c n m Hc. exact Hc. Qed.

Lemma resolveKeys_dead rec zone :
  zone <> "." -> (forall z, holds dead (rec z) (fun r => r.2 = false)) ->
  holds dead (resolveKeys query now rec zone) (fun r => r.2 = false).
Proof.
  intros Hz Hrec. eapply holds_bind; [by apply holds_ask, dead_about_cache|]. intros [rrs|e] _; [|by apply holds_ret].
  destruct (dnskeys_in rrs) as [|k0 ks0]; [by apply holds_ret|]. apply holds_bind with (R := fun r => r.2 = false).
  - case_decide; [done|]. eapply holds_bind with (R := fun r => r.2 = false); [|intros [ds s] Hs; by apply holds_ret].
    eapply holds_bind; [by apply holds_ask, dead_about_cache|]. intros [drrs|e] _; [|by apply holds_ret].
    destruct (ds_in drrs) as [|d ds]; [by apply holds_ret|]. generalize (d :: ds). intros l.
    induction (rrsigsFor drrs TypeDS) as [|sig sigs IH]; [by apply holds_ret|].
    eapply holds_bind; [apply holds_clock|]. intros t _. case_match; [done|].
    eapply holds_bind; [apply Hrec|]. intros [ks s] Hs. cbn in Hs. by subst s.
  - intros [ks s] Hs. cbn in Hs. subst s. by apply holds_ret.
Qed.

Lemma validatedKeys_dead fuel zone : holds dead (validatedKeys query now fuel zone) (fun r => r.2 = false).
Proof.
  revert zone. induction fuel as [|fuel IH]; intros zone v v' [keys sec] Hv; [done|]. cbn [validatedKeys]. cbv zeta.
  destruct (v_keyCache v !! zone_of zone) as [ent|] eqn:Hc.
  { intros [= <- <- <-]. split; [done|]. by eapply Hv. }
  destruct Hv as [[ent0 Hroot] Hall]. assert (zone_of zone <> ".") as Hz by congruence.
  destruct (resolveKeys query now _ (zone_of zone) v) as [[v1 [ks s]]|] eqn:E; [|done]. intros [= <- <- <-].
  destruct (resolveKeys_dead _ _ Hz IH v v1 _ (conj (ex_intro _ _ Hroot) Hall) E) as [[[ent1 H1] Hall1] Hs].
  split; [|done]. split; cbn.
  - exists ent1. by rewrite lookup_insert_ne.
  - intros z ent. rewrite lookup_insert_Some. intros [[<- <-]|[_ ?]]; [done|eauto].
Qed.

(** Once the root's keys could not be fetched, no answer is secure any more:
    the failure stays in the cache for the life of the process. *)
Theorem root_failure_is_final fuel name t v v' ans : dead v -> Lookup query now fuel name t v = Some (v', Ok (ans, true)) -> False.
Proof.
  intros Hv HL. cut (holds dead (Lookup query now fuel name t) (fun r => r <> Ok (ans, true))).
  { intros Hh. by destruct (Hh _ _ _ Hv HL). }
  eapply holds_bind; [by apply holds_ask, dead_about_cache|]. intros [rrs|e] _; [|by apply holds_ret].
  destruct (recordsOfType rrs t) as [|r0 l0]; [by apply holds_ret|].
  destruct (rrsigsFor rrs t) as [|sig sigs]; [by apply holds_ret|]. generalize (sig :: sigs). intros l.
  induction l as [|sg l IH]; [by apply holds_ret|].
  eapply holds_bind with (R := fun b => b = false); [|intros b ->; done].
  eapply holds_bind; [apply holds_clock|]. intros ? _. case_match; [by apply holds_ret|].
  eapply holds_bind; [apply validatedKeys_dead|]. intros [ks s] Hs. cbn in Hs. subst s. by apply holds_ret.
Qed.
End Theorems.

(** * A small name space

    The root, [org.] with a mail exchanger, and [evil.], whose operator signs
    whatever serves it.  [issued] lists every signature anybody has made. *)

Section Demo.
#[local] Existing Instance bytewise_unicode.

Definition root_k : DNSKEY := mkKey "." 8 "R".
Definition org_k : DNSKEY := mkKey "org." 8 "O".
Definition evil_k : DNSKEY := mkKey "evil." 8 "E".
(** The key of [evil.] under the name [org.]. *)
Definition fake_k : DNSKEY := mkKey "org." 8 "E".
Definition mx_tlsa (cert : string) : RR := RR_TLSA (mkTLSA "_25._tcp.mx.org." 3 1 1 cert).
Definition ds_org : DS := mkDS "org." 1 8 2 "aa".
Definition ds_evil : DS := mkDS "evil." 2 8 2 "bb".
(** A delegation inside [evil.] with the digest of [fake_k]. *)
Definition ds_fake : DS := mkDS "x.evil." 3 8 2 "cc".

Definition key_table : list (DNSKEY * (Z * string)) :=
  [(root_k, (20326, "E06D44B80B8F1D39A95C0B0D7C65D08458E880409BBC683457104237C7F8EC8D"));
   (org_k, (1, "AA")); (evil_k, (2, "BB")); (fake_k, (3, "CC"))].
Definition key_data (k : DNSKEY) : option (Z * string) :=
  snd <$> List.find (fun e => bool_decide (fst e = k)) key_table.
Definition holder (pk : string) : string := if decide (pk = "R") then "." else if decide (pk = "O") then "org." else "evil.".

Definition issued : list (string * list RR) :=
  [("R", [RR_DNSKEY root_k]); ("R", [RR_DS ds_org]); ("R", [RR_DS ds_evil]); ("O", [RR_DNSKEY org_k]); ("O", [mx_tlsa "good"]);
   ("E", [RR_DNSKEY evil_k]); ("E", [RR_DS ds_fake]); ("E", [RR_DNSKEY fake_k]); ("E", [mx_tlsa "bad"])].

Definition demo_fqdn (s : string) : string := if HasSuffix s "." then s else s +:+ ".".
Definition demo_norm (s : string) : string := demo_fqdn (ToLower s).
Definition below (parent name : string) : bool :=
  String.eqb parent "." || String.eqb name parent || HasSuffix name ("." +:+ parent).

#[local] Instance demo_miekg : Miekg := {|
  Fqdn := demo_fqdn;
  IsSubDomain p n := below (demo_norm p) (demo_norm n);
  ValidityPeriod sig t := (sg_Inception sig <=? t) && (t <=? sg_Expiration sig);
  KeyTag k := default 0 (fst <$> key_data k);
  ToDS k t := if t =? 2 then snd <$> key_data k else None;
  Verify sig k rrs :=
    negb (bool_decide (rrs = [])) && forallb (fun r => bool_decide (demo_norm (rr_name r) = demo_norm (sg_Name sig))) rrs &&
    bool_decide (demo_norm (dk_Name k) = demo_norm (sg_SignerName sig)) &&
    below (demo_norm (sg_SignerName sig)) (demo_norm (sg_Name sig)) && bool_decide ((dk_PublicKey k, rrs) ∈ issued) |}.

Lemma lower_char_idem c : lower_char (lower_char c) = lower_char c.
Proof. by destruct c as [[] [] [] [] [] [] [] []]. Qed.
Lemma str_map_append f s t : str_map f (s +:+ t) = str_map f s +:+ str_map f t.
Proof. induction s as [|c s IH]; [done|]. cbn. rewrite !app_cons'. cbn. by rewrite IH. Qed.
Lemma ToLower_bytewise s : ToLower s = str_map lower_char s.
Proof. unfold ToLower. by case_match. Qed.
Lemma str_map_lower_idem s : str_map lower_char (str_map lower_char s) = str_map lower_char s.
Proof. induction s as [|c s IH]; cbn; [done|]. by rewrite IH, lower_char_idem. Qed.

Lemma demo_norm_idem s : demo_norm (demo_norm s) = demo_norm s.
Proof.
  unfold demo_norm. rewrite !ToLower_bytewise. unfold demo_fqdn at 2 3. destruct (HasSuffix (str_map lower_char s) ".") eqn:E.
  - rewrite str_map_lower_idem. unfold demo_fqdn. by rewrite E.
  - rewrite str_map_append, str_map_lower_idem. unfold demo_fqdn. cbn [str_map]. change (lower_char ".") with "."%char. by rewrite HasSuffix_app.
Qed.

#[local] Instance demo_laws : MiekgLaws.
Proof.
  constructor; [exact demo_norm_idem|]. intros sig k rrs.
  cbn [Verify demo_miekg]. rewrite !andb_true_iff, negb_true_iff, !bool_decide_eq_true, bool_decide_eq_false.
  intros ((((Hne & Hn) & Hk) & Hs) & _). split_and!; [done| |done|done].
  apply Forall_forall. intros r Hr%list_elem_of_In. rewrite forallb_forall in Hn. by apply Hn, bool_decide_eq_true in Hr.
Qed.

(** Only [evil.] and what is below it is dishonest. *)
Definition demo_honest (z : string) : Prop := below "evil." z = false.
Definition demo_published (z : string) (rrs : list RR) : Prop := exists pk, holder pk = z /\ (pk, rrs) ∈ issued.

Lemma below_trans a b c : below a b = true -> below b c = true -> b <> "." -> below a c = true.
Proof.
  unfold below. rewrite !orb_true_iff, !String.eqb_eq. intros [[-> | ->]|Hab] [[-> | ->]|Hbc] ?; auto.
  right. apply HasSuffix_inv in Hab as [x ->]. apply HasSuffix_inv in Hbc as [y ->].
  replace (y +:+ "." +:+ (x +:+ ("." +:+ a))) with ((y +:+ "." +:+ x) +:+ ("." +:+ a)); [apply HasSuffix_app|].
  by rewrite !str_app_assoc.
Qed.

Lemma key_data_known k e : key_data k = Some e -> k ∈ key_table.*1.
Proof.
  unfold key_data. destruct (List.find _ key_table) as [[k' e']|] eqn:E; [|done].
  apply find_some in E as [Hin Hk%bool_decide_eq_true]. cbn in Hk. subst k'. intros _.
  apply list_elem_of_In in Hin. by apply (list_elem_of_fmap_2 fst) in Hin.
Qed.

Lemma digest_known k t d : digest_is k t d = true -> k ∈ key_table.*1.
Proof.
  unfold digest_is. cbn [ToDS demo_miekg]. destruct (t =? 2); [|done].
  destruct (key_data k) as [e|] eqn:E; [|done]. intros _. by eapply key_data_known.
Qed.

Lemma known_matches (b : DNSKEY -> bool) (Q : DNSKEY -> Prop) k :
  k ∈ key_table.*1 -> b k = true -> Forall (fun k => b k = true -> Q k) key_table.*1 -> Q k.
Proof. intros Hk Hb HF. rewrite Forall_forall in HF. by apply HF. Qed.

#[local] Instance rr_list_eq_dec : EqDecision (string * list RR) := _.

Lemma issued_cases (Q : string -> list RR -> Prop) pk rrs :
  (pk, rrs) ∈ issued -> Forall (fun e => Q (fst e) (snd e)) issued -> Q pk rrs.
Proof. intros Hin HF. rewrite Forall_forall in HF. by apply (HF (pk, rrs)). Qed.

#[local] Ltac singleton H :=
  let l := match type of H with _ <$> ?l = _ => l end in
  destruct l as [|? [|]]; cbn in H; simplify_eq.

Lemma demo_own_keys z keys k :
  demo_honest z -> demo_published z (dnskeysToRR keys) -> k ∈ keys -> zone_of (dk_Name k) = z -> holder (dk_PublicKey k) = z.
Proof.
  intros Hz (pk & Hpk & Hin) Hk Hn. revert Hpk.
  refine (issued_cases (fun pk rrs => dnskeysToRR keys = rrs -> holder pk = z -> holder (dk_PublicKey k) = z) _ _ Hin _ eq_refl).
  unfold dnskeysToRR. repeat apply Forall_cons_2; try apply Forall_nil_2; cbn [fst snd]; intros Heq Hpk; singleton Heq; apply list_elem_of_singleton in Hk; subst; vm_compute in *; done.
Qed.

Lemma demo_delegates z ds d k :
  demo_honest z -> demo_published z (dsToRR ds) -> d ∈ ds -> ds_matches k d = true -> holder (dk_PublicKey k) = zone_of (ds_Name d).
Proof.
  intros Hz (pk & Hpk & Hin) Hd Hm. revert Hpk.
  assert (k ∈ key_table.*1) as Hk. { unfold ds_matches in Hm. apply andb_true_iff in Hm as [_ Hm]. by eapply digest_known. }
  refine (issued_cases (fun pk rrs => dsToRR ds = rrs -> holder pk = z -> holder (dk_PublicKey k) = zone_of (ds_Name d)) _ _ Hin _ eq_refl).
  unfold dsToRR. repeat apply Forall_cons_2; try apply Forall_nil_2; cbn [fst snd]; intros Heq Hpk; singleton Heq;
    apply list_elem_of_singleton in Hd; subst;
    first [by vm_compute in Hz|apply (known_matches (fun k => ds_matches k _) (fun k => holder (dk_PublicKey k) = _) k Hk Hm)];
    repeat apply Forall_cons_2; try apply Forall_nil_2; vm_compute; intros [=]; done.
Qed.

Lemma demo_root_key k a : a ∈ rootAnchors -> anchor_matches k a = true -> holder (dk_PublicKey k) = ".".
Proof.
  intros Ha Hm. assert (k ∈ key_table.*1) as Hk. { unfold anchor_matches in Hm. apply andb_true_iff in Hm as [_ Hm]. by eapply digest_known. }
  apply (known_matches (fun k => anchor_matches k a) (fun k => holder (dk_PublicKey k) = ".") k Hk Hm). unfold rootAnchors in Ha.
  apply elem_of_cons in Ha as [->|Ha]; [|apply list_elem_of_singleton in Ha as ->];
    repeat apply Forall_cons_2; try apply Forall_nil_2; vm_compute; intros [=]; done.
Qed.

Definition demo_crypto : Crypto.
Proof.
  refine (mkCrypto demo_honest (fun z k => holder (dk_PublicKey k) = z) demo_published _ demo_root_key _ demo_own_keys demo_delegates).
  - intros parent name Hb Hn. unfold demo_honest in *. cbn in Hb. apply not_true_is_false. intros Hp.
    change (zone_of parent) with (demo_norm parent) in Hp. change (zone_of name) with (demo_norm name) in Hn.
    rewrite (below_trans _ _ _ Hp Hb) in Hn; [done|]. intros E. by rewrite E in Hp.
  - intros z k sig rrs _ Hk. cbn [Verify demo_miekg]. intros [_ Hin%bool_decide_eq_true]%andb_true_iff. by exists (dk_PublicKey k).
Defined.

Definition demo_sig (owner : string) (covered : Z) (signer : string) (tag : Z) : RR :=
  RR_RRSIG (mkSig owner covered signer tag 0 1000 "").
Definition demo_now (n : nat) : Z := Z.of_nat n.

(** Answers by name and type; [fails] lists the questions that time out. *)
Definition serve (zones : list (string * Z * list RR)) (fails : list nat) (n : nat) (name : string) (t : Z) : result (list RR) :=
  if decide (n ∈ fails) then Err (Errorf "timeout") else
  match List.find (fun e => bool_decide (e.1 = (name, t))) zones with
  | Some e => Ok e.2
  | None => Err (Errorf "no such name")
  end.
Definition mx_name : string := "_25._tcp.mx.org".
Definition root_keys : string * Z * list RR := ((".", TypeDNSKEY), [RR_DNSKEY root_k; demo_sig "." TypeDNSKEY "." 20326]).
Definition true_zones : list (string * Z * list RR) :=
  [root_keys; (("org.", TypeDS), [RR_DS ds_org; demo_sig "org." TypeDS "." 20326]);
   (("org.", TypeDNSKEY), [RR_DNSKEY org_k; demo_sig "org." TypeDNSKEY "org." 1]);
   (("_25._tcp.mx.org.", TypeTLSA), [mx_tlsa "good"; demo_sig "_25._tcp.mx.org." TypeTLSA "org." 1])].
(** What somebody on the path who operates [evil.] answers. *)
Definition forged_zones : list (string * Z * list RR) :=
  [root_keys; (("evil.", TypeDS), [RR_DS ds_evil; demo_sig "evil." TypeDS "." 20326]);
   (("evil.", TypeDNSKEY), [RR_DNSKEY evil_k; demo_sig "evil." TypeDNSKEY "evil." 2]);
   (("org.", TypeDS), [RR_DS ds_fake; demo_sig "x.evil." TypeDS "evil." 2]);
   (("org.", TypeDNSKEY), [RR_DNSKEY fake_k; demo_sig "org." TypeDNSKEY "org." 3]);
   (("_25._tcp.mx.org.", TypeTLSA), [mx_tlsa "bad"; demo_sig "_25._tcp.mx.org." TypeTLSA "org." 3])].

Lemma serve_own zones fails :
  forallb (fun e => forallb (fun r => bool_decide (zone_of (rr_name r) = e.1.1)) e.2) zones = true -> answers_own_name (serve zones fails).
Proof.
  intros Hz n name t rrs. unfold serve. case_decide; [done|]. destruct (List.find _ zones) as [e|] eqn:E; [|done]. intros [= <-].
  apply find_some in E as [Hin He%bool_decide_eq_true]. rewrite forallb_forall in Hz. specialize (Hz _ Hin). rewrite He in Hz.
  apply Forall_forall. intros r Hr%list_elem_of_In. rewrite forallb_forall in Hz. by apply Hz, bool_decide_eq_true in Hr.
Qed.

Definition outcome {A} (o : option (Validator * A)) : option A := snd <$> o.
Definition after {A} (o : option (Validator * A)) : Validator := default NewValidator (fst <$> o).


(** With records of other names in the answers, the same library and the same
    signatures let the operator of [evil.] have keys of its own accepted for
    [org.]: nothing compares the owner of a delegation with the zone asked for.
    Everything the answers carry was signed by the root or by [evil.]. *)
Theorem foreign_delegation_is_accepted :
  outcome (Lookup (serve forged_zones []) demo_now 8 mx_name TypeTLSA NewValidator) = Some (Ok ([mx_tlsa "bad"], true)) /\
  demo_honest (zone_of mx_name) /\
  ~ (exists z, demo_honest z /\ demo_published z [mx_tlsa "bad"]).
Proof.
  split; [vm_compute; reflexivity|]. split; [vm_compute; reflexivity|]. intros (z & Hz & pk & <- & Hin).
  assert (pk = "E") as ->; [|by vm_compute in Hz].
  refine (issued_cases (fun pk rrs => [mx_tlsa "bad"] = rrs -> pk = "E") _ _ Hin _ eq_refl).
  repeat apply Forall_cons_2; try apply Forall_nil_2; cbn [fst snd]; intros ?; simplify_eq; done.
Qed.

(** One lost packet: the question for the root's keys times out once, and the
    same name is not secure ever after, though every later answer is good. *)
Theorem one_timeout_disables_validation fuel name t v' ans :
  let lost := Lookup (serve true_zones [3%nat]) demo_now 8 mx_name TypeTLSA NewValidator in
  outcome lost = Some (Ok ([mx_tlsa "good"], false)) /\
  (Lookup (serve true_zones [3%nat]) demo_now fuel name t (after lost) = Some (v', Ok (ans, true)) -> False).
Proof.
  cbv zeta. split; [vm_compute; reflexivity|]. apply root_failure_is_final. split; [by vm_compute; eexists|].
  assert (map_Forall (fun _ ent => kc_secure ent = false) (v_keyCache (after (Lookup (serve true_zones [3%nat]) demo_now 8 mx_name TypeTLSA NewValidator)))) as Hm
    by (apply (bool_decide_eq_true_1 _); vm_compute; reflexivity).
  intros z ent. apply Hm.
Qed.
End Demo.
