(* ===== verification/TlsPolicy.v ===== *)
(** How the relay decides what TLS an outbound connection needs: MTA-STS
    ([internal/smtp/mtasts.go]), DANE ([internal/smtp/dane.go]) and the policy
    of a mail exchanger ([internal/smtp/relay.go]).

    DNS and HTTPS are parameters of the section, each answer depending on a
    count of the calls made so far; certificates are their bytes. *)

From S2P Require Import Prelude GoStrings Dnssec.
From Stdlib Require Import Ascii.

(** * MTA-STS policies *)

Definition MTASTSModeEnforce : string := "enforce".
Definition MTASTSModeTesting : string := "testing".
Definition MTASTSModeNone : string := "none".
Definition mtaSTSMaxPolicyBytes : nat := 64 * 1024.
Definition mtaSTSMaxCacheTTL : Z := 7 * 24 * Hour.

Record MTASTSPolicy := mkPolicy { po_Mode : string; po_MX : list string; po_MaxAge : Z }.
Record mtaSTSEntry := mkEntry { me_policy : MTASTSPolicy; me_id : string; me_expires : Z }.

Record NetMX := mkNetMX { nm_Host : string; nm_Pref : Z }.
Definition Cert : Type := string.

(** [config.SMTPRelay]. *)
Record SMTPRelay := mkRelayCfg {
  rc_Enabled : bool; rc_Host : string; rc_Username : string; rc_Password : string; rc_AllowInsecureAuth : bool;
  rc_MTASTSEnabled : bool; rc_DANEEnabled : bool; rc_DNSSECResolver : string }.

(** [Relay] without the seams of its tests, which are nil in production; the
    MTA-STS cache and the DANE resolver exist when [rl_mtasts], [rl_dane]. *)
Record Relay := mkRelay { rl_cfg : option SMTPRelay; rl_heloName : string; rl_mtasts : bool; rl_dane : bool }.
Definition NewRelay (cfg : option SMTPRelay) (heloName : string) : Relay :=
  mkRelay cfg heloName (from_option rc_MTASTSEnabled false cfg) (from_option rc_DANEEnabled false cfg).
Definition newDANEResolver (resolver : string) : string := if String.eqb resolver "" then "1.1.1.1:53" else resolver.

(** The zero value is opportunistic TLS. *)
Record deliveryTLSPolicy := mkTLSPolicy { tp_requireTLS : bool; tp_mxAuthorized : bool; tp_daneTLSA : list TLSA }.
Definition opportunistic : deliveryTLSPolicy := mkTLSPolicy false true [].

Section Policy.
Context `{GoUnicode, Miekg}.

(** One pattern of [MXMatches], host and pattern in normal form. *)
Definition pattern_matches (host pat : string) : bool :=
  String.eqb pat host ||
  (HasPrefix pat "*." &&
   let suffix := str_drop 1 pat in
   HasSuffix host suffix &&
   let label := str_take (String.length host - String.length suffix) host in
   negb (String.eqb label "") && negb (Contains label ".")).
Definition mx_norm (s : string) : string := ToLower (TrimSuffix s ".").
Definition MXMatches (p : MTASTSPolicy) (host : string) : bool :=
  existsb (fun pat => pattern_matches (mx_norm host) (mx_norm pat)) (po_MX p).

(** One line of a policy body: the fields so far and whether a version was seen. *)
Definition policy_line (acc : MTASTSPolicy * bool) (line : string) : MTASTSPolicy * bool :=
  let '(p, sawVersion) := acc in
  let line := TrimSpace (trim_right (Ascii.eqb "013") line) in
  if String.eqb line "" then acc else
  match Cut line ":" with
  | None => acc
  | Some (key, val) =>
      let key := TrimSpace (ToLower key) in
      let val := TrimSpace val in
      if String.eqb key "version" then (p, sawVersion || EqualFold val "STSv1")
      else if String.eqb key "mode" then (mkPolicy (ToLower val) (po_MX p) (po_MaxAge p), sawVersion)
      else if String.eqb key "mx" then
        if String.eqb val "" then acc else (mkPolicy (po_Mode p) (po_MX p ++ [val]) (po_MaxAge p), sawVersion)
      else if String.eqb key "max_age" then
        match ParseInt val with Some n => (mkPolicy (po_Mode p) (po_MX p) n, sawVersion) | None => acc end
      else acc
  end.
Definition newline : string := String "010" "".
Definition parseMTASTSPolicy (body : string) : result MTASTSPolicy :=
  let '(p, sawVersion) := foldl policy_line (mkPolicy "" [] 0, false) (Split body newline) in
  if negb sawVersion then Err (Errorf "missing STSv1 version") else
  if bool_decide (po_Mode p ∈ [MTASTSModeEnforce; MTASTSModeTesting; MTASTSModeNone]) then Ok p
  else Err (Errorf ("invalid mode " +:+ quote (po_Mode p))).

(** The first part of one TXT record that starts with [id=]. *)
Fixpoint id_part (parts : list string) : option string :=
  match parts with
  | [] => None
  | part :: parts' =>
      let part := TrimSpace part in
      if HasPrefix part "id=" then Some (TrimSpace (str_drop 3 part)) else id_part parts'
  end.
Fixpoint record_id (txts : list string) : string :=
  match txts with
  | [] => ""
  | txt :: txts' =>
      if negb (Contains txt "v=STSv1") then record_id txts'
      else match id_part (Split txt ";") with Some id => id | None => record_id txts' end
  end.

(** * The outside world *)

(** [http]: status and body of a GET without redirects, the body possibly cut
    short by an error. *)
Record DnsEnv := mkDnsEnv {
  de_lookupTXT : nat -> string -> result (list string);
  de_http : nat -> string -> result (Z * result string);
  de_lookupMX : nat -> string -> result (list NetMX);
  de_sort : list NetMX -> list NetMX;
  de_query : nat -> string -> Z -> result (list RR);
  de_now : nat -> Z;
  de_fuel : nat }.
Context (E : DnsEnv).

Record PState := mkPState { ps_entries : gmap string mtaSTSEntry; ps_validator : Validator; ps_calls : nat }.
Definition PM (A : Type) : Type := PState -> option (PState * A).
Definition pret {A} (a : A) : PM A := fun s => Some (s, a).
Definition pmbind {A B} (m : PM A) (f : A -> PM B) : PM B :=
  fun s => match m s with Some (s', a) => f a s' | None => None end.
Notation "x <~ m ; f" := (pmbind m (fun x => f)) (at level 199, m at level 100, f at level 199, right associativity).
(** A call outside, and the clock. *)
Definition outside {A} (f : nat -> A) : PM A :=
  fun s => Some (mkPState (ps_entries s) (ps_validator s) (S (ps_calls s)), f (ps_calls s)).
Definition pclock : PM Z := fun s => Some (s, de_now E (ps_calls s)).

Definition httpsFetchMTASTSPolicy (url : string) : PM (result string) :=
  resp <~ outside (fun n => de_http E n url);
  pret (let? (status, body) := resp in
        if negb (status =? 200) then Err (Errorf ("policy fetch status " +:+ FormatInt status)) else
        let? b := body in Ok (str_take mtaSTSMaxPolicyBytes b)).

Definition stsRecordID (domain : string) : PM string :=
  txts <~ outside (fun n => de_lookupTXT E n ("_mta-sts." +:+ domain));
  pret (match txts with Ok l => record_id l | Err _ => "" end).

(** How long a policy is kept. *)
Definition policy_ttl (p : MTASTSPolicy) : Z :=
  let ttl := i64 (po_MaxAge p * Second) in
  let ttl := if ttl <=? 0 then Hour else ttl in
  if mtaSTSMaxCacheTTL <? ttl then mtaSTSMaxCacheTTL else ttl.

Definition fresh_entry (entries : gmap string mtaSTSEntry) (domain id : string) (now : Z) : option MTASTSPolicy :=
  match entries !! domain with
  | Some ent => if String.eqb (me_id ent) id && (now <? me_expires ent) then Some (me_policy ent) else None
  | None => None
  end.
Definition store_entry (domain : string) (ent : mtaSTSEntry) : PM unit :=
  fun s => Some (mkPState (<[domain := ent]> (ps_entries s)) (ps_validator s) (ps_calls s), tt).

Definition PolicyFor (domain : string) : PM (result (option MTASTSPolicy)) :=
  let domain := mx_norm domain in
  id <~ stsRecordID domain;
  if String.eqb id "" then pret (Ok None) else
  now <~ pclock;
  fun s =>
  match fresh_entry (ps_entries s) domain id now with
  | Some p => Some (s, Ok (Some p))
  | None =>
      (body <~ httpsFetchMTASTSPolicy ("https://mta-sts." +:+ domain +:+ "/.well-known/mta-sts.txt");
       match body with
       | Err e => pret (Err (Wrap ("mta-sts: fetch policy for " +:+ domain) e))
       | Ok b =>
           match parseMTASTSPolicy b with
           | Err e => pret (Err (Wrap ("mta-sts: parse policy for " +:+ domain) e))
           | Ok p =>
               now <~ pclock;
               _ <~ store_entry domain (mkEntry p id (time_add now (policy_ttl p)));
               pret (Ok (Some p))
           end
       end) s
  end.

(** * DANE *)

(** A lookup of the validator; its questions are numbered on their own. *)
Definition dane_lookup (name : string) (t : Z) : PM (result (list RR * bool)) :=
  fun s => match Lookup (de_query E) (de_now E) (de_fuel E) name t (ps_validator s) with
           | Some (v, r) => Some (mkPState (ps_entries s) v (ps_calls s), r)
           | None => None
           end.
Definition mxs_in (rrs : list RR) : list MX := omap (fun r => match r with RR_MX m => Some m | _ => None end) rrs.
Definition tlsas_in (rrs : list RR) : list TLSA := omap (fun r => match r with RR_TLSA t => Some t | _ => None end) rrs.

Definition secureMX (domain : string) : PM (list string * bool) :=
  r <~ dane_lookup domain TypeMX;
  pret (match r with
        | Err _ | Ok ([], _) => ([], false)
        | Ok (rrs, secure) =>
            ((fun m => TrimSuffix (mx_Mx m) ".") <$> SliceStable (fun a b => mx_Preference a <? mx_Preference b) (mxs_in rrs), secure)
        end).

Definition tlsaFor (mxHost : string) : PM (list TLSA) :=
  r <~ dane_lookup ("_25._tcp." +:+ Fqdn mxHost) TypeTLSA;
  pret (match r with Ok (rrs, true) => tlsas_in rrs | _ => [] end).

(** [TLSA.Verify] of the library is the parameter [verify]. *)
Definition tlsaMatches (verify : TLSA -> Cert -> bool) (tlsa : list TLSA) (chain : list Cert) : bool :=
  match chain with
  | [] => false
  | leaf :: _ =>
      existsb (fun t => if ta_Usage t =? 3 then verify t leaf else if ta_Usage t =? 2 then existsb (verify t) chain else false) tlsa
  end.

(** * The policy of a mail exchanger *)

Definition mtaStsPolicyForMX (r : Relay) (domain mxHost : string) : PM deliveryTLSPolicy :=
  if negb (rl_mtasts r) then pret opportunistic else
  policy <~ PolicyFor domain;
  pret (match policy with
        | Err _ | Ok None => opportunistic
        | Ok (Some p) =>
            if String.eqb (po_Mode p) MTASTSModeEnforce then mkTLSPolicy true (MXMatches p mxHost) [] else opportunistic
        end).

Definition tlsaRecords (r : Relay) (host : string) : PM (list TLSA) := if rl_dane r then tlsaFor host else pret [].

Definition tlsPolicyForMX (r : Relay) (domain host : string) (mxSecure : bool) : PM deliveryTLSPolicy :=
  if mxSecure then
    tlsa <~ tlsaRecords r host;
    match tlsa with
    | [] => mtaStsPolicyForMX r domain host
    | _ => pret (mkTLSPolicy true true tlsa)
    end
  else mtaStsPolicyForMX r domain host.

(** The system resolver's records, sorted by preference in an order the
    standard library leaves open for equal ones. *)
Definition system_mx (domain : string) : PM (result (list string * bool)) :=
  mxs <~ outside (fun n => de_lookupMX E n domain);
  pret (let? l := mxs in
        match l with
        | [] => Ok ([domain], false)
        | _ => Ok ((fun m => TrimSuffix (nm_Host m) ".") <$> de_sort E l, false)
        end).

Definition lookupMXHosts (r : Relay) (domain : string) : PM (result (list string * bool)) :=
  if rl_dane r then
    d <~ secureMX domain;
    match d with
    | ([], _) => system_mx domain
    | (hosts, secure) => pret (Ok (hosts, secure))
    end
  else system_mx domain.
End Policy.
