(* ===== verification/Relay.v ===== *)
(** The client side of SMTP: [internal/smtp/relay.go], [relay_dsn.go],
    [relay_starttls.go] and [helo.go].

    A connection is a record of what the remote does at each step: its replies
    before TLS, its certificates, and the outcome of each call of the go-smtp
    client.  Nothing ties these outcomes together, so a theorem about every
    [Conn] is a theorem about every remote.  A delivery logs each command it
    issues with the transport it is issued on, and each message a remote has
    accepted.  Deadlines, closing connections and log output are left out. *)

From S2P Require Import Prelude GoStrings Pebble Proto QueueCommand AttSplit Queue Dnssec TlsPolicy.
From Stdlib Require Import Ascii.

(** * Host and port, [net.SplitHostPort] and [net.JoinHostPort] *)

Definition split_bracketed (s : string) : option string :=
  match Cut s "]" with
  | Some (h, String ":" port) =>
      if has_char ":" port || has_char "[" (h +:+ port) || has_char "]" port then None else Some h
  | _ => None
  end.
Definition SplitHostPort (s : string) : option string :=
  match s with
  | String "[" s' => split_bracketed s'
  | _ => match CutLast s ":" with
         | Some (h, _) => if has_char ":" h || has_char "[" s || has_char "]" s then None else Some h
         | None => None
         end
  end.
Definition JoinHostPort (host port : string) : string :=
  if has_char ":" host then "[" +:+ host +:+ "]:" +:+ port else host +:+ ":" +:+ port.

(** * The HELO name *)

(** [net.ParseIP] with the text of the address: version 4 or 6. *)
Inductive ip_text := IP4 (s : string) | IP6 (s : string).

Section Helo.
Context `{GoUnicode} (ParseIP : string -> option ip_text).

Definition ip_brackets (ip : ip_text) : string := match ip with IP4 s => "[" +:+ s +:+ "]" | IP6 s => "[IPv6:" +:+ s +:+ "]" end.
Definition ipLiteral (host : string) : option string :=
  ip_brackets <$> ParseIP (TrimPrefix (TrimSuffix (TrimPrefix host "[") "]") "ipv6:").
Definition normalizeHELOCandidate (s : string) : string := ToLower (TrimSpace s).
Definition isQualifiedHELO (name : string) : bool :=
  if String.eqb name "" || negb (Contains name ".") then false else
  if bool_decide (is_Some (ParseIP name)) then false else
  if String.eqb name "localhost" || String.eqb name "localhost.localdomain" then false else
  if HasSuffix name ".local" || HasSuffix name ".localdomain" then false else
  str_all (fun c => negb ((byte_of c <=? 32) || (byte_of c =? 127))) name.
Definition qualifyHELOCandidate (s : string) : option string :=
  let h := normalizeHELOCandidate s in
  if String.eqb h "" then None else
  match ipLiteral h with
  | Some lit => Some lit
  | None => if isQualifiedHELO h then Some h else None
  end.
Definition resolveHELOName (smtpHostname dkimDomain : string) (hostname : result string)
    (resolveServerDomain : string -> string -> string) : option string :=
  match qualifyHELOCandidate smtpHostname with
  | Some h => Some h
  | None =>
      let own := match hostname with
                 | Ok h => if Contains (normalizeHELOCandidate h) "." then qualifyHELOCandidate h else None
                 | Err _ => None
                 end in
      match own with
      | Some q => Some q
      | None => qualifyHELOCandidate (resolveServerDomain dkimDomain smtpHostname)
      end
  end.
Definition addressLiteral (addr : string) : string :=
  match ParseIP (default addr (SplitHostPort addr)) with
  | Some ip => ip_brackets ip
  | None => "[127.0.0.1]"
  end.
End Helo.

(** * DSN parameters *)

Inductive DSNReturn := RetNone | RetFull | RetHeaders.
Inductive DSNNotify := DSNNever | DSNSuccess | DSNFailure | DSNDelayed.
Inductive DSNAddressType := AddrNone | AddrRFC822 | AddrUTF8.
#[global] Instance DSNReturn_eq_dec : EqDecision DSNReturn. Proof. solve_decision. Defined.
#[global] Instance DSNNotify_eq_dec : EqDecision DSNNotify. Proof. solve_decision. Defined.
#[global] Instance DSNAddressType_eq_dec : EqDecision DSNAddressType. Proof. solve_decision. Defined.

Definition maxENVIDLen : Z := 100.
Record rcptDSN := mkRD { rd_notify : Z; rd_typ : DSNAddressType; rd_orcpt : string }.
Record envelopeDSN := mkEnvDSN { ed_ret : DSNReturn; ed_envid : string; ed_rcpts : gmap string rcptDSN }.
Record RcptOptions := mkRcptOpts { ro_Notify : list DSNNotify; ro_Type : DSNAddressType; ro_Orcpt : string }.
Record MailOptions := mkMailOpts { mo_Size : Z; mo_Return : DSNReturn; mo_EnvelopeID : string; mo_UTF8 : bool }.
#[global] Instance RcptOptions_eq_dec : EqDecision RcptOptions. Proof. solve_decision. Defined.
#[global] Instance MailOptions_eq_dec : EqDecision MailOptions. Proof. solve_decision. Defined.

Definition mailParams (e : option envelopeDSN) : DSNReturn * string :=
  match e with Some e => (ed_ret e, ed_envid e) | None => (RetNone, "") end.

(** Loops over runes, which agree with loops over bytes for these tests. *)
Definition printableASCII (s : string) : bool := str_all (in_range 32 126) s.
Definition hasControl (s : string) : bool := negb (str_all (fun c => negb ((byte_of c <? 32) || (byte_of c =? 127))) s).

(** * Errors of the client *)

(** A reply of the remote, with its enhanced status code, or another error. *)
Inductive cerr := SMTPError (code : Z) (enhanced : Z * Z * Z) (message : string) | OtherError (e : err).
Definition NoEnhancedCode : Z * Z * Z := (-1, -1, -1).
Definition replyError_Error (code : Z) (ec : Z * Z * Z) (message : string) : string :=
  if bool_decide (ec = NoEnhancedCode) then fmt_0d 3 code +:+ " " +:+ message
  else let '(a, b, c) := ec in
       fmt_0d 3 code +:+ " " +:+ FormatInt a +:+ "." +:+ FormatInt b +:+ "." +:+ FormatInt c +:+ " " +:+ message.
Definition wireReply (e : cerr) : err :=
  match e with SMTPError code ec message => Errorf (replyError_Error code ec message) | OtherError e => e end.
(** The error as go-smtp prints it. *)
Definition cerr_text (e : cerr) : string :=
  match e with SMTPError code _ message => "SMTP error " +:+ fmt_0d 3 code +:+ ": " +:+ message | OtherError e => err_text e end.
Definition isPermanentError (e : cerr) : bool :=
  match e with
  | SMTPError code _ _ => (500 <=? code) && (code <? 600)
  | OtherError e => let s := err_text e in (3 <=? len s) && HasPrefix s "5"
  end.

Definition shouldSendAuth (tlsCompleted hasCreds allowInsecure : bool) : result bool :=
  if negb hasCreds then Ok false else
  if tlsCompleted || allowInsecure then Ok true else
  Err (Errorf "relay: refusing to send AUTH over an unencrypted connection to smart host (set smtp.relay.allow_insecure_auth = true to override)").

Definition hasNonASCII (s : string) : bool := negb (str_all (fun c => byte_of c <? 128) s).
Definition crlf : string := String "013" (String "010" "").
Definition lf2 : string := String "010" (String "010" "").
Definition header_end (raw : string) : string :=
  let raw := match Cut raw (crlf +:+ crlf) with Some (h, _) => h | None => raw end in
  match Cut raw lf2 with Some (h, _) => h | None => raw end.
Definition needsSMTPUTF8 (from : string) (rcpts : list string) (raw : string) : bool :=
  hasNonASCII from || existsb hasNonASCII rcpts || hasNonASCII (header_end raw).

(** * The remote *)

(** A reply as [net/textproto] reads it, or a failure to read one. *)
Inductive tpreply := TpReply (code : Z) (msg : string) | TpBroken (e : err).
Record Conn := mkConn {
  cn_local : string;
  cn_deadline : bool -> option err;
  cn_greeting : tpreply;
  cn_ehlo_write : option err; cn_ehlo : tpreply;
  cn_helo_write : option err; cn_helo : tpreply;
  cn_starttls_write : option err; cn_starttls : tpreply;
  cn_handshake : option err; cn_chain : list Cert;
  cn_Hello : option err; cn_Extension : string -> bool; cn_Auth : option cerr; cn_Mail : option cerr;
  cn_Rcpt : nat -> option cerr; cn_Data : option cerr; cn_Write : option err; cn_Close : option cerr; cn_Quit : option err }.

Inductive transport := Plain | TlsPKIX (host : string) (chain : list Cert) | TlsDANE (tlsa : list TLSA) (chain : list Cert).
Inductive Cmd :=
| CEhlo (helo : string) | CHelo (helo : string) | CStarttls
| CAuth (username password : string) | CMail (from : string) (opts : MailOptions)
| CRcpt (rcpt : string) (opts : option RcptOptions) | CData | CMessage (raw : string) | CQuit.
(** [Accepted]: the remote confirmed the end of DATA for these recipients. *)
Inductive Event := Sent (addr : string) (tr : transport) (c : Cmd) | Accepted (addr : string) (rcpts : list string).
#[global] Instance transport_eq_dec : EqDecision transport. Proof. solve_decision. Defined.
#[global] Instance Cmd_eq_dec : EqDecision Cmd. Proof. solve_decision. Defined.
#[global] Instance Event_eq_dec : EqDecision Event. Proof. solve_decision. Defined.

(** Permanent failures, recipients relayed without DSN, error. *)
Definition outcome_ : Type := list string * list string * option err.

(** A session: its log, and a value or the outcome it ends with. *)
Definition SM (A : Type) : Type := list Event -> list Event * (outcome_ + A).
Definition sret {A} (a : A) : SM A := fun l => (l, inr a).
Definition sexit {A} (o : outcome_) : SM A := fun l => (l, inl o).
Definition smbind {A B} (m : SM A) (f : A -> SM B) : SM B :=
  fun l => match m l with (l', inr a) => f a l' | (l', inl o) => (l', inl o) end.
Definition say (e : Event) : SM unit := fun l => (l ++ [e], inr tt).
Notation "x <~ m ; f" := (smbind m (fun x => f)) (at level 199, m at level 100, f at level 199, right associativity).
(** Return [o] with the error, if there is one. *)
Definition check_err (e : option err) (o : err -> outcome_) : SM unit :=
  match e with Some e => sexit (o e) | None => sret tt end.

(** [tp.ReadResponse(expect)]: the text, or a [*textproto.Error] ([inl]) or
    another error. *)
Definition ReadResponse (expect : Z) (r : tpreply) : (Z * string) + err + string :=
  match r with
  | TpReply code msg => if code =? expect then inr msg else inl (inl (code, msg))
  | TpBroken e => inl (inr e)
  end.
Definition tp_error (code : Z) (msg : string) : err := Errorf (fmt_0d 3 code +:+ " " +:+ msg).
Definition response_err (e : (Z * string) + err) : err := match e with inl (code, msg) => tp_error code msg | inr e => e end.

Definition errSTARTTLSRefused : err := Sentinel "STARTTLS refused by remote".

(** [tls.Config] as the relay fills it: with DANE records, verification of the
    chain is replaced by a match with them. *)
Record tlsConfig := mkTls { tc_ServerName : string; tc_tlsa : list TLSA }.

Section Relay.
Context `{GoUnicode, Miekg} (ParseIP : string -> option ip_text).
(** [TLSA.Verify], and the verification of a chain for a host by [crypto/tls]. *)
Context (tlsa_verify : TLSA -> Cert -> bool) (pkix_verify : string -> list Cert -> bool).

Definition newEnvelopeDSN (msg : OutboundMessage) : envelopeDSN :=
  let ret := ToUpper (om_DsnRet msg) in
  let id := om_DsnEnvid msg in
  mkEnvDSN
    (if String.eqb ret "FULL" then RetFull else if String.eqb ret "HDRS" then RetHeaders else RetNone)
    (if negb (String.eqb id "") && (len id <=? maxENVIDLen) && printableASCII id then id else "")
    (foldl (fun m r =>
       let key := ToLower (TrimSpace (rd_Address r)) in
       if String.eqb key "" then m else
       let t := ToLower (rd_OrcptType r) in
       let '(typ, orcpt) :=
         if String.eqb t "rfc822" then if printableASCII (rd_Orcpt r) then (AddrRFC822, rd_Orcpt r) else (AddrNone, "")
         else if String.eqb t "utf-8" then if negb (hasControl (rd_Orcpt r)) then (AddrUTF8, rd_Orcpt r) else (AddrNone, "")
         else (AddrNone, "") in
       <[key := mkRD (rd_Notify r) typ orcpt]> m) ∅ (om_RecipientDsn msg)).

Definition rcpt_key (rcpt : string) : string := ToLower (TrimSpace rcpt).
Definition rcptOptions (e : envelopeDSN) (rcpt : string) : option RcptOptions :=
  match ed_rcpts e !! rcpt_key rcpt with
  | None => None
  | Some d =>
      let notify :=
        if has_bits (rd_notify d) NotifyNever then [DSNNever]
        else (if has_bits (rd_notify d) NotifySuccess then [DSNSuccess] else []) ++
             (if has_bits (rd_notify d) NotifyFailure then [DSNFailure] else []) ++
             (if has_bits (rd_notify d) NotifyDelay then [DSNDelayed] else []) in
      match notify, rd_orcpt d with
      | [], "" => None
      | _, _ => Some (mkRcptOpts notify (rd_typ d) (rd_orcpt d))
      end
  end.
Definition wantsSuccess (e : envelopeDSN) (accepted : list string) : list string :=
  List.filter (fun a => let notify := from_option rd_notify 0 (ed_rcpts e !! rcpt_key a) in
                        negb (has_bits notify NotifyNever) && NotifyWantsSuccess notify) accepted.

(** * STARTTLS *)

(** One capability line of an EHLO reply. *)
Definition offers_starttls (line : string) : bool :=
  EqualFold (TrimSpace (hd "" (SplitN line " " 2))) "STARTTLS".

Definition probeSTARTTLS (addr : string) (c : Conn) (helo : string) : SM (result bool) :=
  match cn_deadline c false with
  | Some e => sret (Err e)
  | None =>
  match ReadResponse 220 (cn_greeting c) with
  | inl e => sret (Err (response_err e))
  | inr _ =>
  match cn_ehlo_write c with
  | Some e => sret (Err e)
  | None =>
  _ <~ say (Sent addr Plain (CEhlo helo));
  match ReadResponse 250 (cn_ehlo c) with
  | inl (inl (code, msg)) =>
      if (code =? 500) || (code =? 502) then
        match cn_helo_write c with
        | Some e => sret (Err e)
        | None =>
            _ <~ say (Sent addr Plain (CHelo helo));
            match ReadResponse 250 (cn_helo c) with
            | inl e => sret (Err (response_err e))
            | inr _ => sret (Ok false)
            end
        end
      else sret (Err (tp_error code msg))
  | inl (inr e) => sret (Err e)
  | inr msg => sret (Ok (existsb offers_starttls (tl (Split msg newline))))
  end end end end.

(** The TLS handshake: the transport it gives. *)
Definition Handshake (c : Conn) (cfg : tlsConfig) : result transport :=
  match cn_handshake c with
  | Some e => Err e
  | None =>
      match tc_tlsa cfg with
      | [] => if pkix_verify (tc_ServerName cfg) (cn_chain c) then Ok (TlsPKIX (tc_ServerName cfg) (cn_chain c))
              else Err (Errorf "tls: failed to verify certificate")
      | tlsa => if tlsaMatches tlsa_verify tlsa (cn_chain c) then Ok (TlsDANE tlsa (cn_chain c))
                else Err (Errorf ("DANE: certificate for " +:+ tc_ServerName cfg +:+ " matches no TLSA record"))
      end
  end.

Definition startTLSOn (addr : string) (c : Conn) (cfg : tlsConfig) : SM (result transport) :=
  match cn_deadline c true with
  | Some e => sret (Err e)
  | None =>
  match cn_starttls_write c with
  | Some e => sret (Err e)
  | None =>
  _ <~ say (Sent addr Plain CStarttls);
  match ReadResponse 220 (cn_starttls c) with
  | inl (inl (code, msg)) => sret (Err (Wrap (err_text (tp_error code msg)) errSTARTTLSRefused))
  | inl (inr e) => sret (Err e)
  | inr _ => sret (Handshake c cfg)
  end end end.

(** * One message to one host *)

Definition fails (text : string) (e : err) : outcome_ := ([], [], Some (Wrap text e)).

(** The transport the client takes over. *)
Definition secure_transport (addr host : string) (c : Conn) (helo : string) (pol : deliveryTLSPolicy) : SM transport :=
  offered <~ probeSTARTTLS addr c helo;
  match offered with
  | Err e => sexit (fails ("EHLO " +:+ helo +:+ " to " +:+ addr) e)
  | Ok false =>
      if tp_requireTLS pol
      then sexit ([], [], Some (Errorf ("relay: policy requires TLS to " +:+ host +:+ " but it does not offer STARTTLS")))
      else sret Plain
  | Ok true =>
      t <~ startTLSOn addr c (mkTls host (tp_daneTLSA pol));
      match t with
      | Ok tr => sret tr
      | Err e =>
          if tp_requireTLS pol
          then sexit (fails ("relay: policy requires authenticated TLS to " +:+ host +:+ " but STARTTLS failed") e)
          else if negb (errors_is e errSTARTTLSRefused) then sexit (fails ("STARTTLS with " +:+ addr) e)
          else sret Plain
      end
  end.

Definition authenticate (r : Relay) (addr : string) (c : Conn) (tr : transport) : SM unit :=
  let hasCreds := match rl_cfg r with Some cfg => negb (String.eqb (rc_Username cfg) "") | None => false end in
  let allowInsecure := from_option rc_AllowInsecureAuth false (rl_cfg r) in
  match shouldSendAuth (negb (bool_decide (tr = Plain))) hasCreds allowInsecure with
  | Err e => sexit (fails ("relay AUTH guard for " +:+ addr) e)
  | Ok false => sret tt
  | Ok true =>
      if negb (cn_Extension c "AUTH")
      then sexit ([], [], Some (Errorf ("relay AUTH for " +:+ addr +:+ ": smtp: server doesn't support AUTH")))
      else
        _ <~ say (Sent addr tr (CAuth (from_option rc_Username "" (rl_cfg r)) (from_option rc_Password "" (rl_cfg r))));
        check_err (wireReply <$> cn_Auth c) (fails ("relay AUTH for " +:+ addr))
  end.

(** The loop over the recipients: permanent failures and accepted ones. *)
Fixpoint rcpt_loop (addr : string) (c : Conn) (tr : transport) (env : option envelopeDSN)
    (i : nat) (rcpts permanentFails accepted : list string) : SM (list string * list string) :=
  match rcpts with
  | [] => sret (permanentFails, accepted)
  | rcpt :: rcpts' =>
      _ <~ say (Sent addr tr (CRcpt rcpt (env ≫= fun e => rcptOptions e rcpt)));
      match cn_Rcpt c i with
      | None => rcpt_loop addr c tr env (S i) rcpts' permanentFails (accepted ++ [rcpt])
      | Some e =>
          if isPermanentError e then rcpt_loop addr c tr env (S i) rcpts' (permanentFails ++ [rcpt]) accepted
          else sexit (permanentFails, [], Some (Wrap ("RCPT TO " +:+ rcpt) (wireReply e)))
      end
  end.

(** From MAIL to QUIT. *)
Definition transaction (addr : string) (c : Conn) (tr : transport) (from : string) (recipients : list string) (rawMsg : string)
    (env : option envelopeDSN) : SM unit :=
  let utf8 := cn_Extension c "SMTPUTF8" && needsSMTPUTF8 from recipients rawMsg in
  let opts := mkMailOpts (len rawMsg) (mailParams env).1 (mailParams env).2 utf8 in
  _ <~ say (Sent addr tr (CMail from opts));
  _ <~ check_err (wireReply <$> cn_Mail c) (fails "MAIL FROM");
  p <~ rcpt_loop addr c tr env 0 recipients [] [];
  let '(permanentFails, accepted) := p : list string * list string in
  let failing text (e : err) : outcome_ := (permanentFails, [], Some (Wrap text e)) in
  if Nat.eqb (length permanentFails) (length recipients) then
    _ <~ say (Sent addr tr CQuit);
    _ <~ check_err (cn_Quit c) (failing "smtp quit after permanent recipient failures");
    sexit (permanentFails, [], None)
  else
    _ <~ say (Sent addr tr CData);
    _ <~ check_err (wireReply <$> cn_Data c) (failing "DATA");
    match cn_Write c with
    | Some e =>
        match cn_Close c with
        | None => _ <~ say (Accepted addr accepted); sexit (failing "writing message" e)
        | Some e2 => sexit (failing "writing message" (Errorf (err_text e +:+ newline +:+ cerr_text e2)))
        end
    | None =>
        _ <~ say (Sent addr tr (CMessage rawMsg));
        _ <~ check_err (wireReply <$> cn_Close c) (failing "closing data");
        _ <~ say (Accepted addr accepted);
        let relayedNoDSN := match env with
                            | Some e => if cn_Extension c "DSN" then [] else wantsSuccess e accepted
                            | None => []
                            end in
        _ <~ say (Sent addr tr CQuit);
        _ <~ check_err (cn_Quit c) (failing "smtp quit");
        sexit (permanentFails, relayedNoDSN, None)
    end.

Definition client_session (r : Relay) (addr from : string) (recipients : list string) (rawMsg : string) (pol : deliveryTLSPolicy)
    (env : option envelopeDSN) (dial : result Conn) : SM unit :=
  let host := default addr (SplitHostPort addr) in
  match dial with
  | Err e => sexit (fails ("connecting to " +:+ addr) e)
  | Ok c =>
      let helo := if String.eqb (rl_heloName r) "" then addressLiteral ParseIP (cn_local c) else rl_heloName r in
      tr <~ secure_transport addr host c helo pol;
      _ <~ say (Sent addr tr (CEhlo helo));
      _ <~ check_err (cn_Hello c) (fails ("EHLO " +:+ helo +:+ " to " +:+ addr));
      _ <~ authenticate r addr c tr;
      transaction addr c tr from recipients rawMsg env
  end.
Definition sendToHostOpts (r : Relay) (addr from : string) (recipients : list string) (rawMsg : string) (pol : deliveryTLSPolicy)
    (env : option envelopeDSN) (dial : result Conn) : list Event * outcome_ :=
  match client_session r addr from recipients rawMsg pol env dial [] with
  | (l, inl o) => (l, o)
  | (l, inr tt) => (l, ([], [], None))
  end.

(** * Deliveries *)

(** The world of a delivery: DNS and HTTPS, what answers at an address the
    [n]-th time one is dialled, and the order a map is iterated in. *)
Context (D : DnsEnv) (dial : nat -> string -> result Conn).
Context (range : gmap string (list string) -> list (string * list string)).

Record RState := mkRState { rs_policy : PState; rs_dials : nat; rs_log : list Event }.
Definition RM (A : Type) : Type := RState -> option (RState * A).
Definition rret {A} (a : A) : RM A := fun s => Some (s, a).
Definition rbind {A B} (m : RM A) (f : A -> RM B) : RM B :=
  fun s => match m s with Some (s', a) => f a s' | None => None end.
#[local] Notation "x <- m ; f" := (rbind m (fun x => f)) (at level 199, m at level 100, f at level 199, right associativity).
Definition decide_policy {A} (m : PM A) : RM A :=
  fun s => match m (rs_policy s) with
           | Some (p, a) => Some (mkRState p (rs_dials s) (rs_log s), a)
           | None => None
           end.
Definition send (r : Relay) (addr from : string) (recipients : list string) (rawMsg : string) (pol : deliveryTLSPolicy)
    (env : option envelopeDSN) : RM outcome_ :=
  fun s => let '(l, o) := sendToHostOpts r addr from recipients rawMsg pol env (dial (rs_dials s) addr) in
           Some (mkRState (rs_policy s) (S (rs_dials s)) (rs_log s ++ l), o).

Definition deliverViaRelay (r : Relay) (host from : string) (recipients : list string) (rawMsg : string) (env : option envelopeDSN) : RM outcome_ :=
  send r host from recipients rawMsg opportunistic env.

(** Recipients by the domain after their first at-sign. *)
Definition rcpt_domain (rcpt : string) : option string :=
  match SplitN rcpt "@" 2 with [_; d] => Some (ToLower d) | _ => None end.
Definition add_rcpt (m : gmap string (list string)) (rcpt : string) : gmap string (list string) :=
  match rcpt_domain rcpt with
  | Some d => <[d := default [] (m !! d) ++ [rcpt]]> m
  | None => m
  end.
Definition by_domain (recipients : list string) : gmap string (list string) := foldl add_rcpt ∅ recipients.

(** The hosts of one domain: permanent failures so far, and in the end the
    recipients relayed without DSN and the last error. *)
Fixpoint host_loop (r : Relay) (domain from : string) (rcpts : list string) (rawMsg : string) (env : option envelopeDSN) (mxSecure : bool)
    (hosts : list string) (perm : list string) (lastErr : option err) : RM outcome_ :=
  match hosts with
  | [] => rret (perm, [], lastErr)
  | host :: hosts' =>
      pol <- decide_policy (tlsPolicyForMX D r domain host mxSecure);
      if negb (tp_mxAuthorized pol) then
        host_loop r domain from rcpts rawMsg env mxSecure hosts' perm
          (Some (Errorf ("MX " +:+ host +:+ " not authorized by policy for " +:+ domain)))
      else
        o <- send r (JoinHostPort host "25") from rcpts rawMsg pol env;
        let '(permFails, relayed, e) := o : outcome_ in
        match e with
        | None => rret (perm ++ permFails, relayed, None)
        | Some e => host_loop r domain from rcpts rawMsg env mxSecure hosts' (perm ++ permFails) (Some e)
        end
  end.

Fixpoint domain_loop (r : Relay) (from rawMsg : string) (env : option envelopeDSN) (domains : list (string * list string))
    (allPermanentFails allRelayed : list string) : RM outcome_ :=
  match domains with
  | [] => rret (allPermanentFails, allRelayed, None)
  | (domain, rcpts) :: domains' =>
      h <- decide_policy (lookupMXHosts D r domain);
      match h with
      | Err e => rret ([], [], Some (Wrap ("MX lookup for " +:+ domain) e))
      | Ok (hosts, mxSecure) =>
          o <- host_loop r domain from rcpts rawMsg env mxSecure hosts [] None;
          let '(perm, relayed, lastErr) := o : outcome_ in
          match lastErr with
          | Some e => rret (allPermanentFails ++ perm, [], Some (Wrap ("all MX hosts failed for " +:+ domain) e))
          | None => domain_loop r from rawMsg env domains' (allPermanentFails ++ perm) (allRelayed ++ relayed)
          end
      end
  end.
Definition deliverViaMX (r : Relay) (from : string) (recipients : list string) (rawMsg : string) (env : option envelopeDSN) : RM outcome_ :=
  domain_loop r from rawMsg env (range (by_domain recipients)) [] [].

Definition deliver (r : Relay) (from : string) (recipients : list string) (rawMsg : string) (env : option envelopeDSN) : RM outcome_ :=
  match rl_cfg r with
  | Some cfg => if rc_Enabled cfg && negb (String.eqb (rc_Host cfg) "") then deliverViaRelay r (rc_Host cfg) from recipients rawMsg env
                else deliverViaMX r from recipients rawMsg env
  | None => deliverViaMX r from recipients rawMsg env
  end.
Definition Relay_Deliver (r : Relay) (from : string) (recipients : list string) (rawMsg : string) : RM (list string * option err) :=
  o <- deliver r from recipients rawMsg None;
  let '(perm, _, e) := o : outcome_ in rret (perm, e).
Definition DeliverOutbound (r : Relay) (msg : OutboundMessage) (rawMsg : string) : RM outcome_ :=
  deliver r (om_SenderEmail msg) (om_Recipients msg) rawMsg (Some (newEnvelopeDSN msg)).
End Relay.
