(* ===== verification/RelayThm.v ===== *)
(** What the relay guarantees: the TLS a policy demands, where credentials go,
    an account of every recipient; and where it departs from its intent. *)

From S2P Require Import Prelude GoStrings Pebble Proto QueueCommand AttSplit Queue Dnssec TlsPolicy Relay.
From Stdlib Require Import Ascii.

(** * Matching a mail exchanger with a policy *)

Lemma str_take_app_len a b : str_take (String.length (a +:+ b) - String.length b) (a +:+ b) = a.
Proof. replace (String.length (a +:+ b) - String.length b)%nat with (String.length a) by (rewrite str_length_app; lia). apply str_take_app. Qed.

(** A pattern stands for itself, and with a leading star for any one label. *)
Theorem pattern_matches_exact host pat :
  pattern_matches host pat = true <->
  pat = host \/ exists base label, pat = "*." +:+ base /\ host = label +:+ "." +:+ base /\ label <> "" /\ has_char "." label = false.
Proof.
  unfold pattern_matches. rewrite orb_true_iff, String.eqb_eq, !andb_true_iff, !negb_true_iff, String.eqb_neq, Contains_char. split.
  - intros [?|(Hp & Hs & Hne & Hd)]; [by left|right]. apply prefix_spec in Hp as [base ->]. exists base.
    change (str_drop 1 ("*." +:+ base)) with ("." +:+ base) in *. apply HasSuffix_inv in Hs as [label ->]. exists label.
    by rewrite str_take_app_len in Hne, Hd.
  - intros [?|(base & label & -> & -> & Hne & Hd)]; [by left|right]. change (str_drop 1 ("*." +:+ base)) with ("." +:+ base).
    rewrite str_take_app_len. split_and!; [by apply prefix_app|by apply HasSuffix_app|done|done].
Qed.

(** * Cached policies *)

(** No policy is kept for longer than a week, whatever its [max_age]. *)
Theorem policy_ttl_bounded p : 0 < policy_ttl p <= mtaSTSMaxCacheTTL.
Proof.
  unfold policy_ttl, mtaSTSMaxCacheTTL. change Hour with 3600000000000. destruct (Z.leb_spec (i64 (po_MaxAge p * Second)) 0); cbv zeta;
    case_match; lia.
Qed.

(** * Sessions: what is logged

    [sends Q m R]: [m] only adds events with [Q] to the log, and a value it
    returns has [R]. *)

Definition sends {A} (Q : Event -> Prop) (m : SM A) (R : A -> Prop) : Prop :=
  forall l l' x, m l = (l', x) -> (exists es, l' = l ++ es /\ Forall Q es) /\ (forall a, x = inr a -> R a).

Section Sends.
Context (Q : Event -> Prop).

Lemma sends_ret {A} (a : A) (R : A -> Prop) : R a -> sends Q (sret a) R.
Proof. intros HR l l' x [= <- <-]. split; [exists []; by rewrite app_nil_r|]. by intros ? [= <-]. Qed.
Lemma sends_exit {A} o (R : A -> Prop) : sends Q (sexit o) R.
Proof. intros l l' x [= <- <-]. split; [exists []; by rewrite app_nil_r|]. by intros ? [=]. Qed.
Lemma sends_say e : Q e -> sends Q (say e) (fun _ => True).
Proof. intros HQ l l' x [= <- <-]. split; [exists [e]; by rewrite Forall_singleton|done]. Qed.
Lemma sends_bind {A B} (m : SM A) (f : A -> SM B) (R : A -> Prop) (R' : B -> Prop) :
  sends Q m R -> (forall a, R a -> sends Q (f a) R') -> sends Q (smbind m f) R'.
Proof.
  intros Hm Hf l l' x. unfold smbind. destruct (m l) as [l1 [o|a]] eqn:E; destruct (Hm _ _ _ E) as [(es & -> & Hes) HR].
  - intros [= <- <-]. split; [by exists es|]. by intros ? [=].
  - intros Ef. destruct (Hf a (HR _ eq_refl) _ _ _ Ef) as [(es2 & -> & Hes2) HR2]. split; [|done].
    exists (es ++ es2). rewrite app_assoc. split; [done|by apply Forall_app].
Qed.
Lemma sends_check e o (R : unit -> Prop) : R tt -> sends Q (check_err e o) R.
Proof. intros. destruct e; [apply sends_exit|by apply sends_ret]. Qed.
Lemma sends_weaken {A} (m : SM A) (R R' : A -> Prop) : sends Q m R -> (forall a, R a -> R' a) -> sends Q m R'.
Proof. intros Hm HR l l' x E. destruct (Hm _ _ _ E). split; [done|]. intros a Ha. eauto. Qed.
End Sends.

Create HintDb relay.
#[export] Hint Resolve sends_ret sends_exit sends_say sends_check : relay.

(** Commands that carry credentials, the envelope or the message. *)
Definition payload (c : Cmd) : bool := match c with CEhlo _ | CHelo _ | CStarttls => false | _ => true end.

Section Theorems.
Context `{GoUnicode, Miekg} (ParseIP : string -> option ip_text).
Context (tlsa_verify : TLSA -> Cert -> bool) (pkix_verify : string -> list Cert -> bool).
#[local] Notation client_session := (client_session ParseIP tlsa_verify pkix_verify).
#[local] Notation sendToHostOpts := (sendToHostOpts ParseIP tlsa_verify pkix_verify).

(** A transport that authenticates the remote as [host]. *)
Definition authenticated (host : string) (tlsa : list TLSA) (tr : transport) : Prop :=
  match tlsa with
  | [] => exists chain, tr = TlsPKIX host chain /\ pkix_verify host chain = true
  | _ => exists chain, tr = TlsDANE tlsa chain /\ tlsaMatches tlsa_verify tlsa chain = true
  end.
Definition transport_ok (pol : deliveryTLSPolicy) (host : string) (tr : transport) : Prop :=
  tr = Plain /\ tp_requireTLS pol = false \/ authenticated host (tp_daneTLSA pol) tr.

Lemma Handshake_authenticates c host tlsa tr :
  Handshake tlsa_verify pkix_verify c (mkTls host tlsa) = Ok tr -> authenticated host tlsa tr.
Proof. unfold Handshake, authenticated. cbn. destruct (cn_handshake c); [done|]. destruct tlsa; case_match; naive_solver. Qed.

(** * The commands of a session *)

(** A session opens with greetings in the clear, and all the rest is issued on
    one transport that [pol] allows; credentials additionally need TLS or the
    operator's consent. *)
Definition session_event (r : Relay) (addr : string) (pol : deliveryTLSPolicy) (host : string) (e : Event) : Prop :=
  match e with
  | Sent a tr c =>
      a = addr /\ (payload c = true -> transport_ok pol host tr) /\
      (forall u p, c = CAuth u p -> tr = Plain -> exists cfg, rl_cfg r = Some cfg /\ rc_AllowInsecureAuth cfg = true)
  | Accepted a _ => a = addr
  end.

Section Session.
Context (r : Relay) (addr : string) (pol : deliveryTLSPolicy) (host : string).
#[local] Notation Q := (session_event r addr pol host).

Lemma greeting_event tr c : payload c = false -> Q (Sent addr tr c).
Proof. intros Hc. split; [done|]. rewrite Hc. split; [done|]. by intros u p ->. Qed.
Lemma payload_event tr c : transport_ok pol host tr -> (forall u p, c <> CAuth u p) -> Q (Sent addr tr c).
Proof. intros Ht Hc. split; [done|]. split; [done|]. intros u p ->. by destruct (Hc u p). Qed.

Lemma secure_transport_sends c helo :
  sends Q (secure_transport tlsa_verify pkix_verify addr host c helo pol) (transport_ok pol host).
Proof.
  apply sends_bind with (R := fun _ => True).
  - unfold probeSTARTTLS. repeat first [by apply sends_ret | case_match
      | apply sends_bind with (R := fun _ => True); [by apply sends_say, greeting_event|intros _ _]].
  - intros [[]|e] _; [| |by apply sends_exit].
    + apply sends_bind with (R := fun t => forall tr, t = Ok tr -> authenticated host (tp_daneTLSA pol) tr).
      * unfold startTLSOn. repeat first [by apply sends_ret | case_match
          | apply sends_bind with (R := fun _ => True); [by apply sends_say, greeting_event|intros _ _]].
        apply sends_ret. intros tr. apply Handshake_authenticates.
      * intros [tr|e] Ht; [apply sends_ret; right; by apply Ht|].
        destruct (tp_requireTLS pol) eqn:Er; [apply sends_exit|]. case_match; [apply sends_exit|]. apply sends_ret. by left.
    + destruct (tp_requireTLS pol) eqn:Er; [apply sends_exit|]. apply sends_ret. by left.
Qed.

Lemma authenticate_sends c tr : transport_ok pol host tr -> sends Q (authenticate r addr c tr) (fun _ => True).
Proof.
  intros Ht. unfold authenticate, shouldSendAuth. destruct (rl_cfg r) as [cfg|] eqn:Ec; cbn [from_option default negb]; [|by apply sends_ret].
  destruct (negb (String.eqb (rc_Username cfg) "")); cbn [negb]; [|by apply sends_ret].
  destruct (negb (bool_decide (tr = Plain)) || rc_AllowInsecureAuth cfg) eqn:Ea; [|by apply sends_exit].
  destruct (cn_Extension c "AUTH"); cbn [negb]; [|by apply sends_exit].
  eapply sends_bind; [|intros ? _; by apply sends_check]. apply sends_say. split; [done|]. split; [done|]. intros u p _ ->.
  exists cfg. by rewrite bool_decide_eq_true_2 in Ea.
Qed.

Lemma rcpt_loop_sends c tr env i rcpts perm acc :
  transport_ok pol host tr -> sends Q (rcpt_loop addr c tr env i rcpts perm acc) (fun _ => True).
Proof.
  intros Ht. revert i perm acc. induction rcpts as [|rcpt rcpts IH]; intros i perm acc; [by apply sends_ret|].
  eapply sends_bind; [by apply sends_say, payload_event|]. intros _ _. case_match; [|apply IH].
  case_match; [apply IH|by apply sends_exit].
Qed.

Lemma transaction_sends c tr from rcpts raw env :
  transport_ok pol host tr -> sends Q (transaction addr c tr from rcpts raw env) (fun _ => True).
Proof.
  intros Ht. eapply sends_bind; [by apply sends_say, payload_event|]. intros _ _. eapply sends_bind; [by apply (sends_check Q _ _ (fun _ => True))|].
  intros _ _. eapply sends_bind; [by apply rcpt_loop_sends|]. intros [perm acc] _. case_match.
  all: repeat first [by apply sends_exit | by apply (sends_say Q), payload_event | by apply sends_say
    | by apply (sends_check Q _ _ (fun _ => True)) | case_match
    | eapply sends_bind; [first [by apply sends_say, payload_event | by apply (sends_say Q (Accepted _ _))
                                | by apply (sends_check Q _ _ (fun _ => True))]|intros _ _]].
Qed.
End Session.

Lemma session_sends r addr from rcpts raw pol env dial :
  sends (session_event r addr pol (default addr (SplitHostPort addr))) (client_session r addr from rcpts raw pol env dial) (fun _ => True).
Proof.
  unfold client_session. destruct dial as [c|e]; [|by apply sends_exit]. eapply sends_bind; [apply secure_transport_sends|]. intros tr Ht.
  eapply sends_bind; [by apply sends_say, greeting_event|]. intros _ _. eapply sends_bind; [by apply (sends_check _ _ _ (fun _ => True))|]. intros _ _.
  eapply sends_bind; [by apply authenticate_sends|]. intros _ _. by apply transaction_sends.
Qed.

Lemma sendToHostOpts_log r addr from rcpts raw pol env dial :
  Forall (session_event r addr pol (default addr (SplitHostPort addr))) (sendToHostOpts r addr from rcpts raw pol env dial).1.
Proof.
  unfold sendToHostOpts. destruct (client_session r addr from rcpts raw pol env dial []) as [l x] eqn:E.
  destruct (session_sends _ _ _ _ _ _ _ _ _ _ _ E) as [(es & -> & Hes) _]. by destruct x as [?|[]].
Qed.

(** * The account of a session *)

(** [m] ends only with errors, before anything was refused for good. *)
Definition only_errors {A} (m : SM A) : Prop := forall l l' o, m l = (l', inl o) -> o.2 <> None /\ o.1.1 = [].
(** [m] ends, and if without an error then every recipient was refused for good
    or accepted by the remote. *)
Definition accounted (rcpts : list string) (es : list Event) (o : outcome_) : Prop :=
  o.1.1 ⊆ rcpts /\ (o.2 = None -> forall rcpt, rcpt ∈ rcpts -> rcpt ∈ o.1.1 \/ exists addr rs, Accepted addr rs ∈ es /\ rcpt ∈ rs).
Definition accounts {A} (rcpts : list string) (m : SM A) : Prop :=
  forall l l' x, m l = (l', x) -> exists es o, l' = l ++ es /\ x = inl o /\ accounted rcpts es o.

Lemma accounted_error rcpts es o : o.2 <> None -> o.1.1 ⊆ rcpts -> accounted rcpts es o.
Proof. by split. Qed.

Lemma accounts_bind {A B} rcpts (m : SM A) (f : A -> SM B) :
  sends (fun _ => True) m (fun _ => True) -> only_errors m -> (forall a, accounts rcpts (f a)) -> accounts rcpts (smbind m f).
Proof.
  intros Hm He Hf l l' x. unfold smbind. destruct (m l) as [l1 [o|a]] eqn:E; destruct (Hm _ _ _ E) as [(es & -> & _) _].
  - intros [= <- <-]. exists es, o. destruct (He _ _ _ E) as [? Hp]. split_and!; [done..|]. apply accounted_error; [done|]. rewrite Hp. set_solver.
  - intros Ef. destruct (Hf _ _ _ _ Ef) as (es2 & o & -> & -> & Hsub & Ha). exists (es ++ es2), o. rewrite app_assoc. split_and!; [done..|].
    split; [done|]. intros Ho rcpt Hr. destruct (Ha Ho rcpt Hr) as [|(addr & rs & ? & ?)]; [by left|right]. exists addr, rs. set_solver.
Qed.

Lemma only_errors_bind {A B} (m : SM A) (f : A -> SM B) : only_errors m -> (forall a, only_errors (f a)) -> only_errors (smbind m f).
Proof. intros Hm Hf l l' o. unfold smbind. destruct (m l) as [l1 [o1|a]] eqn:E; [|apply Hf]. intros [= <- <-]. by eapply Hm. Qed.
Lemma only_errors_ret {A} (a : A) : only_errors (sret a).
Proof. done. Qed.
Lemma only_errors_exit {A} e : only_errors (A := A) (sexit ([], [], Some e)).
Proof. by intros l l' o [= <- <-]. Qed.
Lemma only_errors_say e : only_errors (say e).
Proof. done. Qed.
Lemma only_errors_fails e t : only_errors (check_err e (fails t)).
Proof. destruct e; [|done]. apply only_errors_exit. Qed.

#[local] Ltac errors :=
  repeat first [apply only_errors_ret | apply only_errors_exit | apply only_errors_say | apply only_errors_fails
               | case_match | apply only_errors_bind; [|intros ?]].

Lemma probe_errors addr c helo : only_errors (probeSTARTTLS addr c helo).
Proof. unfold probeSTARTTLS. errors. Qed.
Lemma starttls_errors addr c cfg : only_errors (startTLSOn tlsa_verify pkix_verify addr c cfg).
Proof. unfold startTLSOn. errors. Qed.
Lemma secure_transport_errors addr host c helo pol : only_errors (secure_transport tlsa_verify pkix_verify addr host c helo pol).
Proof.
  apply only_errors_bind; [apply probe_errors|]. intros ?. repeat case_match; unfold fails; errors. all: apply starttls_errors.
Qed.
Lemma authenticate_errors r addr c tr : only_errors (authenticate r addr c tr).
Proof. unfold authenticate. repeat case_match; errors. Qed.

Lemma rcpt_loop_spec addr c tr env i rcpts perm acc l l' x :
  rcpt_loop addr c tr env i rcpts perm acc l = (l', x) ->
  exists es, l' = l ++ es /\
  match x with
  | inr (perm', acc') => perm' ++ acc' ≡ₚ perm ++ acc ++ rcpts
  | inl o => o.2 <> None /\ o.1.1 ⊆ perm ++ rcpts
  end.
Proof.
  revert i perm acc l. induction rcpts as [|rcpt rcpts IH]; intros i perm acc l; cbn.
  - intros [= <- <-]. exists []. by rewrite !app_nil_r.
  - unfold smbind, say. destruct (cn_Rcpt c i) as [e|]; [destruct (isPermanentError e)|].
    + intros (es & -> & Hx)%IH. eexists. rewrite <- app_assoc. split; [done|]. destruct x as [o|[p a]].
      * destruct Hx as [? Hs]. split; [done|]. rewrite <- app_assoc in Hs. done.
      * rewrite Hx, <- !app_assoc. apply Permutation_app_head. cbn. by rewrite (Permutation_middle acc).
    + intros [= <- <-]. eexists. split; [done|]. split; [done|]. cbn. set_solver.
    + intros (es & -> & Hx)%IH. eexists. rewrite <- app_assoc. split; [done|]. destruct x as [o|[p a]]; [set_solver|].
      by rewrite <- app_assoc in Hx.
Qed.

(** The end of a transaction, once the recipients have been named. *)
Lemma transaction_accounts addr c tr from rcpts raw env : accounts rcpts (transaction addr c tr from rcpts raw env).
Proof.
  apply accounts_bind; [by apply sends_say|apply only_errors_say|]. intros _.
  apply accounts_bind; [by apply sends_check|apply only_errors_fails|]. intros _ l l' x. unfold smbind at 1.
  destruct (rcpt_loop addr c tr env 0 rcpts [] [] l) as [l1 y] eqn:E. apply rcpt_loop_spec in E as (es & -> & Hy). destruct y as [o|[perm acc]].
  { intros [= <- <-]. exists es, o. split_and!; [done..|]. apply accounted_error; [by apply Hy|]. by apply (proj2 Hy). }
  cbn in Hy. assert (perm ⊆ rcpts) as Hsub by (intros z Hz; rewrite <- Hy; set_solver).
  assert (forall rcpt, rcpt ∈ rcpts -> rcpt ∈ perm \/ rcpt ∈ acc) as Hall by (intros z Hz; rewrite <- Hy in Hz; set_solver).
  assert (length perm = length rcpts -> acc = []) as Hnil.
  { intros Hlen. apply Permutation_length in Hy. rewrite length_app in Hy. destruct acc; [done|]. cbn in Hy. lia. }
  destruct (Nat.eqb_spec (length perm) (length rcpts)) as [Hlen|_].
  - rewrite (Hnil Hlen) in Hall. unfold smbind, say, check_err. destruct (cn_Quit c); intros [= <- <-]; do 2 eexists; rewrite <- !app_assoc;
      (split_and!; [reflexivity..|]); [by apply accounted_error|]. split; [done|]. cbn. set_solver.
  - unfold smbind, say, check_err. destruct (cn_Data c); [|destruct (cn_Write c), (cn_Close c); [..|destruct (cn_Quit c)]];
      intros [= <- <-]; do 2 eexists; rewrite <- !app_assoc; (split_and!; [reflexivity..|]); try by apply accounted_error.
    split; [done|]. intros _ rcpt [Hp|Ha]%Hall; [by left|right]. exists addr, acc. set_solver.
Qed.

Lemma sends_trivial {A} Q (m : SM A) R : sends Q m R -> sends (fun _ => True) m (fun _ => True).
Proof. intros Hm l l' x E. destruct (Hm _ _ _ E) as [(es & -> & _) _]. split; [|done]. exists es. split; [done|]. by apply Forall_true. Qed.

Lemma session_accounts r addr from rcpts raw pol env dial : accounts rcpts (client_session r addr from rcpts raw pol env dial).
Proof.
  unfold client_session. destruct dial as [c|e]; [|intros l l' x [= <- <-]; exists [], (fails ("connecting to " +:+ addr) e);
    rewrite app_nil_r; split_and!; [done..|]; apply accounted_error; [done|set_solver]].
  apply accounts_bind; [eapply sends_trivial, (secure_transport_sends r)|apply secure_transport_errors|]. intros tr.
  apply accounts_bind; [by apply sends_say|apply only_errors_say|]. intros _.
  apply accounts_bind; [by apply sends_check|apply only_errors_fails|]. intros _.
  apply accounts_bind; [|apply authenticate_errors|intros _; apply transaction_accounts].
  unfold authenticate. repeat first [by apply sends_exit | by apply sends_ret | by apply sends_check | case_match
    | eapply sends_bind; [by apply sends_say|intros _ _]].
Qed.

(** * Deliveries

    [pkeeps I m R] for the policy decisions; [keeps I Q m R] for a delivery:
    [I] is kept, the result has [R], and the events added to the log have [Q]. *)

Definition pkeeps {A} (I : PState -> Prop) (m : PM A) (R : A -> Prop) : Prop :=
  forall s s' a, I s -> m s = Some (s', a) -> I s' /\ R a.
Definition keeps {A} (I : PState -> Prop) (m : RM A) (R : list Event -> A -> Prop) : Prop :=
  forall s s' a, I (rs_policy s) -> m s = Some (s', a) ->
    I (rs_policy s') /\ exists es, rs_log s' = rs_log s ++ es /\ R es a.

Lemma pkeeps_ret {A} I (a : A) (R : A -> Prop) : R a -> pkeeps I (pret a) R.
Proof. intros HR s s' b HI [= <- <-]. done. Qed.
Lemma pkeeps_bind {A B} I (m : PM A) (f : A -> PM B) R R' :
  pkeeps I m R -> (forall a, R a -> pkeeps I (f a) R') -> pkeeps I (pmbind m f) R'.
Proof.
  intros Hm Hf s s' b HI. unfold pmbind. destruct (m s) as [[s1 a]|] eqn:E; [|done]. destruct (Hm _ _ _ HI E). by apply Hf.
Qed.
(** A predicate on the cached policies alone. *)
Definition on_entries (I : PState -> Prop) : Prop := forall e v n v' n', I (mkPState e v n) -> I (mkPState e v' n').
Lemma pkeeps_outside {A} I (f : nat -> A) : on_entries I -> pkeeps I (outside f) (fun a => exists n, a = f n).
Proof. intros HI [e v n] s' a Hs [= <- <-]. split; [by eapply HI|eauto]. Qed.
Lemma pkeeps_clock D I : pkeeps I (pclock D) (fun _ => True).
Proof. by intros s s' a Hs [= <- <-]. Qed.

Lemma rkeeps_ret {A} I (a : A) (R : list Event -> A -> Prop) : R [] a -> keeps I (rret a) R.
Proof. intros HR s s' b HI [= <- <-]. split; [done|]. exists []. by rewrite app_nil_r. Qed.
Lemma rkeeps_bind {A B} I (m : RM A) (f : A -> RM B) R R' :
  keeps I m R -> (forall es a, R es a -> keeps I (f a) (fun es2 b => R' (es ++ es2) b)) -> keeps I (rbind m f) R'.
Proof.
  intros Hm Hf s s' b HI. unfold rbind. destruct (m s) as [[s1 a]|] eqn:E; [|done]. destruct (Hm _ _ _ HI E) as (HI1 & es & Hl & HR).
  intros Ef. destruct (Hf _ _ HR _ _ _ HI1 Ef) as (HI2 & es2 & Hl2 & HR2). split; [done|]. exists (es ++ es2).
  by rewrite Hl2, Hl, app_assoc.
Qed.
Lemma keeps_policy {A} I (m : PM A) R : pkeeps I m R -> keeps I (decide_policy m) (fun es a => es = [] /\ R a).
Proof.
  intros Hm s s' a HI. unfold decide_policy. destruct (m (rs_policy s)) as [[p b]|] eqn:E; [|done]. intros [= <- <-].
  destruct (Hm _ _ _ HI E). split; [done|]. exists []. by rewrite app_nil_r.
Qed.

Context (D : DnsEnv) (dial : nat -> string -> result Conn) (range : gmap string (list string) -> list (string * list string)).
#[local] Notation send := (send ParseIP tlsa_verify pkix_verify dial).
#[local] Notation host_loop := (host_loop ParseIP tlsa_verify pkix_verify D dial).
#[local] Notation domain_loop := (domain_loop ParseIP tlsa_verify pkix_verify D dial).
#[local] Notation deliverViaMX := (deliverViaMX ParseIP tlsa_verify pkix_verify D dial range).
#[local] Notation deliver := (deliver ParseIP tlsa_verify pkix_verify D dial range).

Lemma keeps_send I r addr from rcpts raw pol env :
  keeps I (send r addr from rcpts raw pol env)
    (fun es o => Forall (session_event r addr pol (default addr (SplitHostPort addr))) es /\ accounted rcpts es o).
Proof.
  intros s s' o HI. unfold send. pose proof (sendToHostOpts_log r addr from rcpts raw pol env (dial (rs_dials s) addr)) as Hl.
  unfold sendToHostOpts in *. destruct (client_session r addr from rcpts raw pol env (dial (rs_dials s) addr) []) as [l x] eqn:E.
  apply session_accounts in E as (es & o' & Hes & -> & Ha). cbn in Hes. subst l. intros [= <- <-]. split; [done|]. by exists es.
Qed.

(** ** Recipients by domain *)

Lemma by_domain_lookup rcpts d : default [] (by_domain rcpts !! d) = filter (fun r => rcpt_domain r = Some d) rcpts.
Proof.
  unfold by_domain. rewrite <- (app_nil_l (filter _ _)).
  change (@nil string) with (default [] ((∅ : gmap string (list string)) !! d)) at 2. generalize (∅ : gmap string (list string)).
  induction rcpts as [|rcpt rcpts IH]; intros m; cbn [foldl]; [by rewrite app_nil_r|]. rewrite IH. rewrite filter_cons. unfold add_rcpt.
  destruct (rcpt_domain rcpt) as [d'|]; case_decide as Hd; simplify_eq; try done.
  - rewrite lookup_insert_eq. cbn. by rewrite <- app_assoc.
  - by rewrite lookup_insert_ne by congruence.
Qed.

Lemma by_domain_some rcpts d l : by_domain rcpts !! d = Some l -> l <> [] /\ l = filter (fun r => rcpt_domain r = Some d) rcpts.
Proof.
  intros Hl. pose proof (by_domain_lookup rcpts d) as Hd. rewrite Hl in Hd. cbn in Hd. split; [|done]. revert Hl. clear Hd.
  unfold by_domain. assert ((∅ : gmap string (list string)) !! d <> Some []) as Hm by done. revert Hm. generalize (∅ : gmap string (list string)).
  induction rcpts as [|rcpt rcpts IH]; intros m Hm; cbn [foldl]; [by intros Hl ->|]. apply IH. unfold add_rcpt.
  destruct (rcpt_domain rcpt) as [d'|]; [|done]. destruct (decide (d = d')) as [->|]; [|by rewrite lookup_insert_ne].
  rewrite lookup_insert_eq. intros [= Hnil]. by apply app_nil in Hnil as [_ ?].
Qed.

(** Iteration visits every key of the map once. *)
Hypothesis range_all : forall m, range m ≡ₚ map_to_list m.

Lemma range_domain rcpts d l : (d, l) ∈ range (by_domain rcpts) -> l <> [] /\ l = filter (fun r => rcpt_domain r = Some d) rcpts.
Proof. rewrite range_all, elem_of_map_to_list. apply by_domain_some. Qed.
Lemma in_range_domain rcpts rcpt d : rcpt ∈ rcpts -> rcpt_domain rcpt = Some d -> exists l, (d, l) ∈ range (by_domain rcpts) /\ rcpt ∈ l.
Proof.
  intros Hr Hd. pose proof (by_domain_lookup rcpts d) as Hl. assert (rcpt ∈ default [] (by_domain rcpts !! d)) as Hin
    by (rewrite Hl; by apply list_elem_of_filter).
  destruct (by_domain rcpts !! d) as [l|] eqn:E; [|by apply elem_of_nil in Hin]. exists l. by rewrite range_all, elem_of_map_to_list.
Qed.

(** ** Every recipient is accounted for *)

Hypothesis sort_all : forall l, de_sort D l ≡ₚ l.
#[local] Notation anything := (fun _ : PState => True).

Lemma pkeeps_anything {A} (m : PM A) : pkeeps anything m (fun _ => True).
Proof. by intros s s' a. Qed.

(** There is always somewhere to go. *)
Lemma lookupMXHosts_some r domain :
  pkeeps anything (lookupMXHosts D r domain) (fun h => forall hosts secure, h = Ok (hosts, secure) -> hosts <> []).
Proof.
  assert (pkeeps anything (system_mx D domain) (fun h => forall hosts secure, h = Ok (hosts, secure) -> hosts <> [])) as Hsys.
  { eapply pkeeps_bind; [by apply pkeeps_anything|]. intros [l|e] _; apply pkeeps_ret; [|done]. cbn.
    destruct l as [|m l]; intros hosts secure [= <- <-]; [done|]. intros Hnil%(f_equal length). rewrite length_fmap, sort_all in Hnil. done. }
  unfold lookupMXHosts. destruct (rl_dane r); [|done]. eapply pkeeps_bind; [apply pkeeps_anything|]. intros [[|h hs] sec] _; [done|].
  apply pkeeps_ret. by intros hosts secure [= <- <-].
Qed.

Lemma host_loop_accounts r domain from rcpts raw env sec hosts perm lastErr :
  hosts <> [] \/ lastErr <> None ->
  keeps anything (host_loop r domain from rcpts raw env sec hosts perm lastErr)
    (fun es o => o.1.1 ⊆ perm ++ rcpts /\
       (o.2 = None -> forall rcpt, rcpt ∈ rcpts -> rcpt ∈ o.1.1 \/ exists addr rs, Accepted addr rs ∈ es /\ rcpt ∈ rs)).
Proof.
  revert perm lastErr. induction hosts as [|host hosts IH]; intros perm lastErr Hne; cbn [Relay.host_loop].
  { apply rkeeps_ret. cbn. split; [set_solver|]. destruct Hne; [done|]. by intros ->. }
  eapply rkeeps_bind; [apply keeps_policy, pkeeps_anything|]. intros es0 pol [-> _]. cbn [app].
  destruct (tp_mxAuthorized pol); cbn [negb]; [|by apply IH; right].
  eapply rkeeps_bind; [apply keeps_send|]. intros es [[permFails relayed] [e|]] (_ & Hsub & Ha); cbn in Hsub, Ha.
  - assert (hosts <> [] \/ Some e <> None) as Hne' by by right.
    intros s s' o HI E. destruct (IH (perm ++ permFails) (Some e) Hne' _ _ _ HI E) as (_ & es2 & Hl & Hs2 & Ha2).
    split; [done|]. exists es2. split; [done|]. split; [clear -Hsub Hs2; set_solver|]. intros Ho rcpt Hr.
    destruct (Ha2 Ho rcpt Hr) as [|(addr & rs & ? & ?)]; [by left|right]. exists addr, rs. set_solver.
  - apply rkeeps_ret. cbn. rewrite app_nil_r. split; [set_solver|]. intros _ rcpt Hr. destruct (Ha eq_refl rcpt Hr); [set_solver|by right].
Qed.

Definition taken (es : list Event) (rcpt : string) : Prop := exists addr rs, Accepted addr rs ∈ es /\ rcpt ∈ rs.
Lemma taken_app es es2 rcpt : taken (es ++ es2) rcpt <-> taken es rcpt \/ taken es2 rcpt.
Proof. unfold taken. set_solver. Qed.

Lemma domain_loop_accounts r from raw env domains perm relayed :
  keeps anything (domain_loop r from raw env domains perm relayed)
    (fun es o => o.1.1 ⊆ perm ++ (domains ≫= snd) /\
       (o.2 = None -> perm ⊆ o.1.1 /\ forall d l rcpt, (d, l) ∈ domains -> rcpt ∈ l -> rcpt ∈ o.1.1 \/ taken es rcpt)).
Proof.
  revert perm relayed. induction domains as [|[domain rcpts] domains IH]; intros perm relayed; cbn [Relay.domain_loop].
  { apply rkeeps_ret. clear. cbn. split; set_solver. }
  eapply rkeeps_bind; [apply keeps_policy, lookupMXHosts_some|]. intros es0 h [-> Hh]. cbn [app].
  destruct h as [[hosts sec]|e]; [|by apply rkeeps_ret; split; [clear; set_solver|]].
  eapply rkeeps_bind; [apply host_loop_accounts; left; by eapply Hh|]. intros es [[p rel] [e|]] [Hsub Ha]; cbn in Hsub, Ha.
  { apply rkeeps_ret. cbn. split; [clear -Hsub; set_solver|done]. }
  intros s s' o HI E. destruct (IH _ _ _ _ _ HI E) as (_ & es2 & Hl & Hs2 & Ha2). split; [done|]. exists es2. split; [done|].
  cbn. split; [clear -Hsub Hs2; set_solver|]. intros Ho. destruct (Ha2 Ho) as [Hp Hd]. split; [clear -Hp; set_solver|]. intros d l rcpt [[= -> ->]|Hin]%elem_of_cons Hr.
  - destruct (Ha eq_refl rcpt Hr) as [Hin|Ht]; [clear -Hp Hin; set_solver|]. right. apply taken_app. by left.
  - destruct (Hd d l rcpt Hin Hr); [by left|]. right. apply taken_app. by right.
Qed.

(** Mail goes out through the configured smart host. *)
Definition via_smarthost (r : Relay) : bool :=
  match rl_cfg r with Some cfg => rc_Enabled cfg && negb (String.eqb (rc_Host cfg) "") | None => false end.

Lemma deliver_cases r from rcpts raw env :
  deliver r from rcpts raw env =
  if via_smarthost r then deliverViaRelay ParseIP tlsa_verify pkix_verify dial r (from_option rc_Host "" (rl_cfg r)) from rcpts raw env
  else deliverViaMX r from rcpts raw env.
Proof. unfold Relay.deliver, via_smarthost. by destruct (rl_cfg r). Qed.


(** ** A domain that enforces MTA-STS *)

Section Enforced.
(** The world always shows the policy [p] in enforce mode for [key]. *)
Context (key : string) (p : MTASTSPolicy).
Record enforces : Prop := {
  en_txt n : exists l, de_lookupTXT D n ("_mta-sts." +:+ key) = Ok l /\ record_id l <> "";
  en_http n : exists body, de_http D n ("https://mta-sts." +:+ key +:+ "/.well-known/mta-sts.txt") = Ok (200, Ok body) /\
    parseMTASTSPolicy (str_take mtaSTSMaxPolicyBytes body) = Ok p;
  en_mode : po_Mode p = MTASTSModeEnforce }.
Hypothesis Hen : enforces.

(** What is cached for [key] is that policy. *)
Definition cached_policy (s : PState) : Prop := forall ent, ps_entries s !! key = Some ent -> me_policy ent = p.
Lemma cached_on_entries : on_entries cached_policy.
Proof. intros e v n v' n' Hc. exact Hc. Qed.

Lemma PolicyFor_enforced domain : mx_norm domain = key -> pkeeps cached_policy (PolicyFor D domain) (fun r => r = Ok (Some p)).
Proof.
  intros Hk. unfold PolicyFor. cbv zeta. rewrite Hk. eapply pkeeps_bind with (R := fun id => id <> "").
  { eapply pkeeps_bind; [apply pkeeps_outside, cached_on_entries|]. intros ? [n ->]. apply pkeeps_ret. by destruct (en_txt Hen n) as (l & -> & ?). }
  intros id Hid. rewrite (proj2 (String.eqb_neq id "") Hid). eapply pkeeps_bind; [apply pkeeps_clock|]. intros now _ s s' a Hs.
  destruct (fresh_entry (ps_entries s) key id now) as [p'|] eqn:Ef.
  { intros [= <- <-]. split; [done|]. unfold fresh_entry in Ef. destruct (ps_entries s !! key) as [ent|] eqn:El; [|done].
    case_match; simplify_eq. by rewrite (Hs _ El). }
  match goal with |- ?m s = _ -> _ => cut (pkeeps cached_policy m (fun r => r = Ok (Some p))); [intros HX; by apply HX|] end. clear s s' a Hs Ef.
  eapply pkeeps_bind with (R := fun b => exists body, b = Ok body /\ parseMTASTSPolicy body = Ok p).
  - eapply pkeeps_bind; [apply pkeeps_outside, cached_on_entries|]. intros ? [n ->]. apply pkeeps_ret.
    destruct (en_http Hen n) as (body & -> & ?). exists (str_take mtaSTSMaxPolicyBytes body). split; [reflexivity|assumption].
  - intros ? (body & -> & ->). eapply pkeeps_bind; [apply pkeeps_clock|]. intros t _ s s' a Hs [= <- <-]. split; [|done].
    intros ent. cbn. rewrite lookup_insert_eq. by intros [= <-].
Qed.

Definition demands (host : string) (pol : deliveryTLSPolicy) : Prop :=
  tp_requireTLS pol = true /\ (tp_daneTLSA pol = [] -> tp_mxAuthorized pol = MXMatches p host).

Lemma dane_lookup_keeps name t : pkeeps cached_policy (dane_lookup D name t) (fun _ => True).
Proof. intros s s' a Hs. unfold dane_lookup. destruct (Lookup _ _ _ _ _ _) as [[v r]|]; [|done]. intros [= <- <-]. by split. Qed.

Lemma tlsPolicyForMX_enforced r domain host sec :
  rl_mtasts r = true -> mx_norm domain = key -> pkeeps cached_policy (tlsPolicyForMX D r domain host sec) (demands host).
Proof.
  intros Hr Hk. assert (pkeeps cached_policy (mtaStsPolicyForMX D r domain host) (demands host)) as Hsts.
  { unfold mtaStsPolicyForMX. rewrite Hr. cbn [negb]. eapply pkeeps_bind; [by apply PolicyFor_enforced|]. intros ? ->. apply pkeeps_ret.
    rewrite (en_mode Hen). by split. }
  unfold tlsPolicyForMX. destruct sec; [|done]. eapply pkeeps_bind with (R := fun _ => True).
  - unfold tlsaRecords, tlsaFor. destruct (rl_dane r); [|by apply pkeeps_ret].
    eapply pkeeps_bind; [apply dane_lookup_keeps|]. intros ? _. by apply pkeeps_ret.
  - intros [|t ts] _; [done|]. by apply pkeeps_ret.
Qed.

(** The host dialled is in the policy, or DANE records stand for it. *)
Definition guarded (e : Event) : Prop :=
  match e with
  | Sent addr tr c => payload c = true -> exists host tlsa, addr = JoinHostPort host "25" /\
      authenticated (default addr (SplitHostPort addr)) tlsa tr /\ (tlsa = [] -> MXMatches p host = true)
  | Accepted _ _ => True
  end.

Lemma host_loop_enforced r domain from rcpts raw env sec hosts perm lastErr :
  rl_mtasts r = true -> mx_norm domain = key ->
  keeps cached_policy (host_loop r domain from rcpts raw env sec hosts perm lastErr) (fun es _ => Forall guarded es).
Proof.
  intros Hr Hk. revert perm lastErr. induction hosts as [|host hosts IH]; intros perm lastErr; cbn [Relay.host_loop]; [by apply rkeeps_ret|].
  eapply rkeeps_bind; [by eapply keeps_policy, tlsPolicyForMX_enforced|]. intros es0 pol [-> [Hreq Hmx]]. cbn [app].
  destruct (tp_mxAuthorized pol) eqn:Hauth; cbn [negb]; [|apply IH].
  eapply rkeeps_bind; [apply keeps_send|]. intros es o [Hes _].
  assert (Forall guarded es) as Hg.
  { eapply Forall_impl; [exact Hes|]. intros [addr tr c|]; [|done]. cbn. intros (-> & Ht & _) Hc. exists host, (tp_daneTLSA pol).
    destruct (Ht Hc) as [[_ ?]|?]; [congruence|]. split_and!; [done..|]. intros Hd. by rewrite <- Hmx. }
  destruct o as [[permFails relayed] [e|]]; [|apply rkeeps_ret; by rewrite app_nil_r].
  intros s s' a HI E. destruct (IH _ _ _ _ _ HI E) as (? & es2 & ? & ?). split; [done|]. exists es2. split; [done|]. by apply Forall_app.
Qed.

Lemma domain_loop_enforced r from raw env domains perm relayed :
  rl_mtasts r = true -> Forall (fun dl => mx_norm dl.1 = key) domains ->
  keeps cached_policy (domain_loop r from raw env domains perm relayed) (fun es _ => Forall guarded es).
Proof.
  intros Hr Hall. revert perm relayed. induction Hall as [|[domain rcpts] domains Hk _ IH]; intros perm relayed; cbn [Relay.domain_loop]; [by apply rkeeps_ret|].
  eapply rkeeps_bind with (R := fun es _ => es = []).
  { intros s s' a HI E. unfold decide_policy in E. destruct (lookupMXHosts D r domain (rs_policy s)) as [[ps h]|] eqn:El; [|done].
    simplify_eq. split; [|exists []; by rewrite app_nil_r]. cbn. revert El.
    assert (pkeeps cached_policy (lookupMXHosts D r domain) (fun _ => True)) as HL; [|by intros El; destruct (HL _ _ _ HI El)].
    assert (pkeeps cached_policy (system_mx D domain) (fun _ => True)) as Hsys.
    { eapply pkeeps_bind; [apply pkeeps_outside, cached_on_entries|]. intros ? _. by apply pkeeps_ret. }
    unfold lookupMXHosts. destruct (rl_dane r); [|done]. eapply pkeeps_bind with (R := fun _ => True).
    - eapply pkeeps_bind; [apply dane_lookup_keeps|]. intros ? _. by apply pkeeps_ret.
    - intros [[|h0 hs] sec] _; [done|by apply pkeeps_ret]. }
  intros es0 h ->. cbn [app]. destruct h as [[hosts sec]|e]; [|by apply rkeeps_ret].
  eapply rkeeps_bind; [by apply host_loop_enforced|]. intros es [[pf rel] [e|]] Hes; [apply rkeeps_ret; by rewrite app_nil_r|].
  intros s s' a HI E. destruct (IH _ _ _ _ _ HI E) as (? & es2 & ? & ?). split; [done|]. exists es2. split; [done|]. by apply Forall_app.
Qed.

End Enforced.

(** ** Credentials *)

(** What holds of the events of every session holds of a delivery's. *)
Lemma deliver_log (Q : Event -> Prop) r from rcpts raw env :
  (forall addr pol e, session_event r addr pol (default addr (SplitHostPort addr)) e -> Q e) ->
  keeps anything (deliver r from rcpts raw env) (fun es _ => Forall Q es).
Proof.
  intros HQ. assert (forall addr rcpts pol, keeps anything (send r addr from rcpts raw pol env) (fun es _ => Forall Q es)) as Hsend.
  { intros addr rs pol s s' o HI E. destruct (keeps_send anything _ _ _ _ _ _ _ _ _ _ HI E) as (? & es & ? & Hes & _). split; [done|]. exists es.
    split; [done|]. eapply Forall_impl; [exact Hes|]. apply HQ. }
  assert (forall A B (m : RM A) (f : A -> RM B), keeps anything m (fun es _ => Forall Q es) -> (forall a, keeps anything (f a) (fun es _ => Forall Q es)) ->
    keeps anything (rbind m f) (fun es _ => Forall Q es)) as Hbind.
  { intros A B m f Hm Hf. eapply rkeeps_bind; [exact Hm|]. intros es a Hes s s' b HI E. destruct (Hf a _ _ _ HI E) as (? & es2 & ? & ?).
    split; [done|]. exists es2. split; [done|]. by apply Forall_app. }
  assert (forall A (m : PM A), keeps anything (decide_policy m) (fun es _ => Forall Q es)) as Hpol.
  { intros A m s s' a HI E. destruct (keeps_policy anything m _ (pkeeps_anything m) _ _ _ HI E) as (? & es & ? & -> & _). split; [done|]. by exists []. }
  rewrite deliver_cases. case_match; [apply Hsend|]. unfold Relay.deliverViaMX. generalize (@nil string) at 2. generalize (@nil string).
  induction (range (by_domain rcpts)) as [|[domain l] domains IH]; intros perm rel; cbn [Relay.domain_loop]; [by apply rkeeps_ret|].
  apply Hbind; [apply Hpol|]. intros [[hosts sec]|e]; [|by apply rkeeps_ret].
  apply Hbind; [|intros [[? ?] [?|]]; [by apply rkeeps_ret|apply IH]].
  generalize (@None err). generalize (@nil string). induction hosts as [|host hosts IHh]; intros pf le; cbn [Relay.host_loop]; [by apply rkeeps_ret|].
  apply Hbind; [apply Hpol|]. intros pol. case_match; [apply IHh|]. apply Hbind; [apply Hsend|]. intros [[? ?] [?|]]; [apply IHh|by apply rkeeps_ret].
Qed.

(** The relay's password never crosses the network in the clear unless the
    operator has allowed it. *)
Theorem credentials_need_tls r from rcpts raw env s s' o :
  deliver r from rcpts raw env s = Some (s', o) ->
  exists es, rs_log s' = rs_log s ++ es /\
    forall addr u pw, Sent addr Plain (CAuth u pw) ∈ es -> exists cfg, rl_cfg r = Some cfg /\ rc_AllowInsecureAuth cfg = true.
Proof.
  intros E. set (Q := fun e => forall addr u pw, e = Sent addr Plain (CAuth u pw) -> exists cfg, rl_cfg r = Some cfg /\ rc_AllowInsecureAuth cfg = true).
  destruct (deliver_log Q r from rcpts raw env) with (s := s) (s' := s') (a := o) as (_ & es & Hl & Hes); [|done|done|].
  - intros addr pol e He a u pw ->. destruct He as (_ & _ & Hc). by eapply Hc.
  - exists es. split; [done|]. intros addr u pw Hin. rewrite Forall_forall in Hes. by eapply Hes.
Qed.

(** A failing TXT lookup is taken for the absence of a policy: one that is in
    the cache and has not expired is not applied. *)
Theorem blocked_txt_drops_policy r domain host sec s :
  rl_dane r = false -> (forall n, exists e, de_lookupTXT D n ("_mta-sts." +:+ mx_norm domain) = Err e) ->
  exists s', tlsPolicyForMX D r domain host sec s = Some (s', opportunistic).
Proof.
  intros Hd Htxt. destruct (Htxt (ps_calls s)) as [e He].
  assert (exists s', mtaStsPolicyForMX D r domain host s = Some (s', opportunistic)) as Hm.
  { unfold mtaStsPolicyForMX. destruct (rl_mtasts r); cbn [negb]; [|by eexists]. unfold PolicyFor, stsRecordID, pmbind, outside. cbv zeta.
    rewrite He. by eexists. }
  unfold tlsPolicyForMX, tlsaRecords, pmbind. rewrite Hd. by destruct sec.
Qed.
End Theorems.

(** * The HELO name and the DSN parameters *)

Section Clean.
Context `{GoUnicode} (ParseIP : string -> option ip_text).

(** A name that is not an address literal is a domain name: it has a dot, is
    not the local host's, and has no white space that could add parameters. *)
Theorem helo_name_is_qualified smtpHostname dkimDomain hostname rsd name :
  resolveHELOName ParseIP smtpHostname dkimDomain hostname rsd = Some name ->
  (exists ip, name = ip_brackets ip) \/
  (has_char "." name = true /\ name <> "localhost" /\ ParseIP name = None /\ HasSuffix name ".local" = false /\
   has_char " " name = false /\ has_char "010" name = false /\ has_char "013" name = false).
Proof.
  assert (forall s, qualifyHELOCandidate ParseIP s = Some name -> (exists ip, name = ip_brackets ip) \/ isQualifiedHELO ParseIP name = true) as Hq.
  { intros s. unfold qualifyHELOCandidate, ipLiteral. case_match; [done|]. destruct (ParseIP _) as [ip|]; cbn; [intros [= <-]; left; by eexists|].
    case_match; [|done]. intros [= <-]. by right. }
  assert (isQualifiedHELO ParseIP name = true -> has_char "." name = true /\ name <> "localhost" /\ ParseIP name = None /\ HasSuffix name ".local" = false /\
    has_char " " name = false /\ has_char "010" name = false /\ has_char "013" name = false) as Hok.
  { unfold isQualifiedHELO. rewrite Contains_char. destruct (has_char "." name); [|by rewrite orb_true_r]. rewrite orb_false_r. case_match; [done|].
    case_bool_decide as Hip; [done|]. case_match eqn:El; [done|]. case_match eqn:Es; [done|]. intros Hall.
    apply orb_false_iff in El as [El _], Es as [Es _]. apply String.eqb_neq in El.
    assert (forall c, (byte_of c <=? 32) || (byte_of c =? 127) = true -> has_char c name = false) as Hc.
    { intros c Hc. unfold has_char. apply negb_false_iff. eapply str_all_impl; [|exact Hall]. cbn. intros x Hx. apply negb_true_iff.
      destruct (Ascii.eqb_spec x c) as [->|]; [|done]. by rewrite Hc in Hx. }
    split_and!; auto. by destruct (ParseIP name); [destruct Hip|]. }
  intros HR. enough ((exists ip, name = ip_brackets ip) \/ isQualifiedHELO ParseIP name = true) as [?|?] by tauto. revert HR. unfold resolveHELOName.
  destruct (qualifyHELOCandidate ParseIP smtpHostname) as [h|] eqn:E1; [intros [= ->]; eauto|].
  case_match eqn:E2; [|by apply Hq]. intros [= ->]. destruct hostname as [h|]; [|done]. case_match; [|done]. eauto.
Qed.

(** Every parameter passed on is one the client accepts, and NEVER is alone. *)
Definition clean_rcpt (d : rcptDSN) : Prop :=
  match rd_typ d with AddrNone => rd_orcpt d = "" | AddrRFC822 => printableASCII (rd_orcpt d) = true | AddrUTF8 => hasControl (rd_orcpt d) = false end.
Theorem dsn_parameters_clean msg :
  let e := newEnvelopeDSN msg in
  printableASCII (ed_envid e) = true /\ len (ed_envid e) <= maxENVIDLen /\ map_Forall (fun _ => clean_rcpt) (ed_rcpts e) /\
  forall rcpt o, rcptOptions e rcpt = Some o -> DSNNever ∈ ro_Notify o -> ro_Notify o = [DSNNever].
Proof.
  cbv zeta. split_and!.
  - unfold newEnvelopeDSN. cbn. case_match eqn:E; [|done]. by apply andb_true_iff in E as [_ ?].
  - unfold newEnvelopeDSN. cbn. case_match eqn:E; [|done]. apply andb_true_iff in E as [[_ ?%Z.leb_le]%andb_true_iff _]. done.
  - unfold newEnvelopeDSN. cbn. assert (map_Forall (fun _ => clean_rcpt) (∅ : gmap string rcptDSN)) as Hm by apply map_Forall_empty.
    revert Hm. generalize (∅ : gmap string rcptDSN). induction (om_RecipientDsn msg) as [|r l IH]; intros m Hm; cbn [foldl]; [done|].
    apply IH. case_match; [done|]. repeat case_match; simplify_eq; apply map_Forall_insert_2; try done; unfold clean_rcpt; cbn; by try apply negb_true_iff.
  - intros rcpt o. unfold rcptOptions. destruct (ed_rcpts _ !! _) as [d|]; [|done]. cbv zeta.
    destruct (has_bits (rd_notify d) NotifyNever); [by intros [= <-]|].
    destruct (has_bits _ NotifySuccess), (has_bits _ NotifyFailure), (has_bits _ NotifyDelay), (rd_orcpt d); cbn; intros ?; simplify_eq/=; intros Hin; set_solver.
Qed.
End Clean.

(** * Examples *)

Section Demo.
#[local] Existing Instance bytewise_unicode.
#[local] Instance silent_dns : Miekg := {|
  Fqdn s := s; IsSubDomain _ _ := false; ValidityPeriod _ _ := false; KeyTag _ := 0; ToDS _ _ := None; Verify _ _ _ := false |}.

Definition demo_ip (s : string) : option ip_text := Some (IP4 "192.0.2.9").
Definition demo_pkix (host : string) (chain : list Cert) : bool := bool_decide (chain = [host]).
(** A remote at [host] with STARTTLS and AUTH whose client calls go as given. *)
Definition remote (host : string) (rcpt : nat -> option cerr) (quit : option err) : Conn :=
  mkConn "192.0.2.9:4000" (fun _ => None) (TpReply 220 "hello") None (TpReply 250 ("hello" +:+ newline +:+ "starttls")) None (TpReply 250 "")
    None (TpReply 220 "go ahead") None [host] None (fun e => String.eqb e "AUTH") None None rcpt None None None quit.
Definition all_well (n : nat) (addr : string) : result Conn := Ok (remote (default addr (SplitHostPort addr)) (fun _ => None) None).

Definition demo_policy : string := "version: STSv1" +:+ newline +:+ "mode: enforce" +:+ newline +:+ "mx: *.example.com" +:+ newline +:+ "max_age: 86400".
Definition demo_world (mxs : string -> list NetMX) : DnsEnv := {|
  de_lookupTXT _ name := if String.eqb name "_mta-sts.example.com" then Ok ["v=STSv1; id=20260101"] else Err (Errorf "no such host");
  de_http _ _ := Ok (200, Ok demo_policy);
  de_lookupMX _ d := Ok (mxs d);
  de_sort l := l;
  de_query _ _ _ := Err (Errorf "no resolver");
  de_now _ := 0; de_fuel := 1 |}.
Definition two_mx (d : string) : list NetMX := [mkNetMX ("mx1." +:+ d +:+ ".") 10; mkNetMX ("mx2." +:+ d +:+ ".") 20].
Definition cold : RState := mkRState (mkPState ∅ NewValidator 0) 0 [].
Definition demo_cfg : SMTPRelay := mkRelayCfg false "" "" "" false true false "".
Definition demo_relay : Relay := NewRelay (Some demo_cfg) "mail.example.org".
Definition run_deliver (D : DnsEnv) (dial : nat -> string -> result Conn) (r : Relay) (rcpts : list string) (s : RState) : option (RState * outcome_) :=
  deliver demo_ip (fun _ _ => false) demo_pkix D dial map_to_list r "me@example.org" rcpts "hello" None s.

(** The state and outcome of a run that ends. *)
Definition final (o : option (RState * outcome_)) : RState := default cold (fst <$> o).
Definition result_of (o : option (RState * outcome_)) : option outcome_ := snd <$> o.
Lemma final_run o x : result_of o = Some x -> o = Some (final o, x).
Proof. destruct o as [[s y]|]; [|done]. by intros [= ->]. Qed.


Definition enforced : MTASTSPolicy := mkPolicy MTASTSModeEnforce ["*.example.com"] 86400.
Lemma demo_enforces : enforces (demo_world two_mx) "example.com" enforced.
Proof. split; intros; [exists ["v=STSv1; id=20260101"]; split; [reflexivity|by vm_compute]|exists demo_policy; split; [reflexivity|vm_compute; reflexivity]|done]. Qed.


(** The remote confirms the message and the connection breaks before QUIT is
    answered: the relay turns to the next host, which takes it again. *)
Definition broken_quit (n : nat) (addr : string) : result Conn :=
  Ok (remote (default addr (SplitHostPort addr)) (fun _ => None) (if Nat.eqb n 0 then Some (Errorf "EOF") else None)).
Theorem lost_goodbye_delivers_twice :
  let run := run_deliver (demo_world two_mx) broken_quit demo_relay ["a@example.com"] cold in
  result_of run = Some ([], [], None) /\
  filter (fun e => match e with Accepted _ _ => true | _ => false end = true) (rs_log (final run)) =
    [Accepted "mx1.example.com:25" ["a@example.com"]; Accepted "mx2.example.com:25" ["a@example.com"]].
Proof. vm_compute. split; reflexivity. Qed.

(** A recipient the first host refuses for good, on a connection that fails
    later on, is reported as failed although the second host accepts it. *)
Definition picky_first (n : nat) (addr : string) : result Conn :=
  Ok (remote (default addr (SplitHostPort addr))
        (fun i => if Nat.eqb n 0 then Some (SMTPError (if Nat.eqb i 0 then 550 else 451) NoEnhancedCode "no") else None) None).
Theorem delivered_recipient_reported_failed :
  let run := run_deliver (demo_world two_mx) picky_first demo_relay ["a@example.com"; "b@example.com"] cold in
  result_of run = Some (["a@example.com"], [], None) /\ taken (rs_log (final run)) "a@example.com".
Proof.
  cbv zeta. split; [vm_compute; reflexivity|]. exists "mx2.example.com:25", ["a@example.com"; "b@example.com"]. split; [|left].
  apply (bool_decide_eq_true_1 _). vm_compute. reflexivity.
Qed.

(** The first domain has taken the message when the second one cannot be
    reached: the attempt fails as a whole, and the retry repeats the delivery. *)
Definition one_down (n : nat) (addr : string) : result Conn :=
  if Contains addr "example.net" then Err (Errorf "connection refused") else all_well n addr.
Theorem partial_delivery_is_repeated :
  let attempt := run_deliver (demo_world two_mx) one_down demo_relay ["a@example.com"; "b@example.net"] in
  (exists e, result_of (attempt cold) = Some ([], [], Some e)) /\
  filter (fun e => match e with Accepted _ _ => true | _ => false end = true) (rs_log (final (attempt (final (attempt cold))))) =
    [Accepted "mx1.example.com:25" ["a@example.com"]; Accepted "mx1.example.com:25" ["a@example.com"]].
Proof. vm_compute. split; [by eexists|reflexivity]. Qed.

(** A domain that accepts no mail says so with an MX record for the root (RFC
    7505): the relay then dials the empty host, which is this machine. *)
Theorem null_mx_dials_this_host :
  let run := run_deliver (demo_world (fun _ => [mkNetMX "." 0])) all_well (NewRelay None "mail.example.org") ["a@nomail.example"] cold in
  exists tr opts, Sent ":25" tr (CMail "me@example.org" opts) ∈ rs_log (final run).
Proof.
  exists (TlsPKIX "" [""]), (mkMailOpts 5 RetNone "" false). apply (bool_decide_eq_true_1 _). vm_compute. reflexivity.
Qed.

(** The smart host is switched off, its password still configured: it is sent
    to the mail exchangers of whoever is written to. *)
Definition leftover : SMTPRelay := mkRelayCfg false "smtp.provider.example:587" "me" "secret" false false false "".
Theorem smarthost_password_goes_to_mx :
  let run := run_deliver (demo_world two_mx) all_well (NewRelay (Some leftover) "mail.example.org") ["a@stranger.example"] cold in
  Sent "mx1.stranger.example:25" (TlsPKIX "mx1.stranger.example" ["mx1.stranger.example"]) (CAuth "me" "secret") ∈ rs_log (final run).
Proof. apply (bool_decide_eq_true_1 _). vm_compute. reflexivity. Qed.

(** Without an at-sign a recipient is neither delivered nor reported. *)
Theorem bare_recipient_vanishes :
  run_deliver (demo_world two_mx) all_well demo_relay ["operator"] cold = Some (cold, ([], [], None)).
Proof. vm_compute. reflexivity. Qed.
End Demo.
