(* ===== verification/RateLimit.v ===== *)
(** Throttling: the outbound message limiter ([internal/mail/ratelimit.go]),
    the inbound limiter per source address ([internal/smtp/inbound_ratelimit.go])
    and the authentication failure counter ([internal/authlimit/authlimit.go]).

    Each limiter is its map under its mutex; a call is one atomic step at the
    clock reading [now]. *)

From S2P Require Import Prelude GoStrings.
From Stdlib Require Import Ascii.

(** Timestamps within the window: [ts.After(now.Add(-window))]. *)
Definition live (window now : Z) (ts : list Z) : list Z := List.filter (fun t => now - window <? t) ts.

Module Outbound.

Record RateLimiter := mkRL { rl_limit : Z; rl_window : Z; rl_senders : gmap string (list Z) }.
Definition NewRateLimiter (msgsPerHour : Z) : RateLimiter := mkRL msgsPerHour Hour ∅.

Definition trimLocked (sender : string) (now : Z) (rl : RateLimiter) : RateLimiter * list Z :=
  let valid := live (rl_window rl) now (default [] (rl_senders rl !! sender)) in
  (mkRL (rl_limit rl) (rl_window rl)
     (if Nat.eqb (length valid) 0 then delete sender (rl_senders rl) else <[sender := valid]> (rl_senders rl)), valid).

Definition AllowN (now : Z) (sender : string) (n : Z) (rl : RateLimiter) : RateLimiter * bool :=
  if (rl_limit rl <=? 0) || (n <=? 0) then (rl, true) else
  let (rl', valid) := trimLocked sender now rl in
  if rl_limit rl <? Z.of_nat (length valid) + n then (rl', false)
  else (mkRL (rl_limit rl') (rl_window rl')
          (<[sender := valid ++ replicate (Z.to_nat n) now]> (rl_senders rl')), true).
Definition Allow (now : Z) (sender : string) : RateLimiter -> RateLimiter * bool := AllowN now sender 1.

Definition Remaining (now : Z) (sender : string) (rl : RateLimiter) : RateLimiter * Z :=
  if rl_limit rl <=? 0 then (rl, MaxInt64) else
  let (rl', valid) := trimLocked sender now rl in
  (rl', Z.max (rl_limit rl - Z.of_nat (length valid)) 0).

Definition RetryAfter (now : Z) (sender : string) (rl : RateLimiter) : RateLimiter * Z :=
  if rl_limit rl <=? 0 then (rl, 0) else
  let (rl', valid) := trimLocked sender now rl in
  if Z.of_nat (length valid) <? rl_limit rl then (rl', 0)
  else (rl', match valid with t :: _ => Z.max (time_sub (time_add t (rl_window rl)) now) 0 | [] => 0 end).

End Outbound.

Module Inbound.

Record inboundRateLimiter := mkIRL { ir_limit : Z; ir_window : Z; ir_entries : gmap string (list Z); ir_calls : Z }.
Definition inboundPruneEvery : Z := 1024.
Definition newInboundRateLimiter (msgsPerMinute : Z) : inboundRateLimiter := mkIRL msgsPerMinute Minute ∅ 0.

Definition pruneLocked (now : Z) (rl : inboundRateLimiter) : inboundRateLimiter :=
  mkIRL (ir_limit rl) (ir_window rl)
    (omap (fun ts => let valid := live (ir_window rl) now ts in
                     if Nat.eqb (length valid) 0 then None else Some valid) (ir_entries rl)) (ir_calls rl).
Definition prune (now : Z) (rl : inboundRateLimiter) : inboundRateLimiter :=
  if ir_limit rl <=? 0 then rl else pruneLocked now rl.

Definition Allow (now : Z) (ip : string) (rl : inboundRateLimiter) : inboundRateLimiter * bool :=
  if ir_limit rl <=? 0 then (rl, true) else
  let rl := mkIRL (ir_limit rl) (ir_window rl) (ir_entries rl) (ir_calls rl + 1) in
  let rl := if inboundPruneEvery <=? ir_calls rl
            then pruneLocked now (mkIRL (ir_limit rl) (ir_window rl) (ir_entries rl) 0) else rl in
  let valid := live (ir_window rl) now (default [] (ir_entries rl !! ip)) in
  if ir_limit rl <=? Z.of_nat (length valid)
  then (mkIRL (ir_limit rl) (ir_window rl) (<[ip := valid]> (ir_entries rl)) (ir_calls rl), false)
  else (mkIRL (ir_limit rl) (ir_window rl) (<[ip := valid ++ [now]]> (ir_entries rl)) (ir_calls rl), true).

End Inbound.

Module Auth.

Record state := mkState { s_count : Z; s_first : Z }.
Record Limiter := mkLimiter { l_max : Z; l_window : Z; l_entries : gmap string state; l_sweep : Z }.
Definition sweepEvery : Z := 1024.
Definition New (maxFailures window : Z) : Limiter := mkLimiter maxFailures window ∅ 0.

Definition stale (window now : Z) (st : state) : bool := window <? time_sub now (s_first st).
Definition with_entries (l : Limiter) (e : gmap string state) : Limiter := mkLimiter (l_max l) (l_window l) e (l_sweep l).

Definition Blocked (now : Z) (key : string) (l : Limiter) : Limiter * bool :=
  if String.eqb key "" then (l, false) else
  match l_entries l !! key with
  | None => (l, false)
  | Some st => if stale (l_window l) now st then (with_entries l (delete key (l_entries l)), false)
               else (l, l_max l <=? s_count st)
  end.

Definition Record_ (now : Z) (key : string) (l : Limiter) : Limiter * bool :=
  if String.eqb key "" then (l, false) else
  let sweep := l_sweep l + 1 in
  let l := if sweepEvery <=? sweep
           then mkLimiter (l_max l) (l_window l) (omap (fun st => if stale (l_window l) now st then None else Some st) (l_entries l)) 0
           else mkLimiter (l_max l) (l_window l) (l_entries l) sweep in
  let fresh := (with_entries l (<[key := mkState 1 now]> (l_entries l)), l_max l <=? 1) in
  match l_entries l !! key with
  | None => fresh
  | Some st => if stale (l_window l) now st then fresh
               else (with_entries l (<[key := mkState (s_count st + 1) (s_first st)]> (l_entries l)), l_max l <=? s_count st + 1)
  end.

Definition NUL : string := String (char_of 0) "".

Section Pairs.
Context `{GoUnicode}.
Definition account_key (account : string) : string := ToLower (TrimSpace account).
Definition pairKey (ip account : string) : string := "acct" +:+ NUL +:+ ip +:+ NUL +:+ account_key account.

Definition Fail_ (now : Z) (ip account : string) (l : Limiter) : Limiter * bool :=
  if String.eqb ip "" then (l, false) else
  let (l', _) := Record_ now (pairKey ip account) l in Record_ now ip l'.

Definition Succeed_ (now : Z) (ip account : string) (l : Limiter) : Limiter :=
  if String.eqb ip "" then l else
  let pk := pairKey ip account in
  match l_entries l !! pk with
  | None => l
  | Some pst =>
      let l := with_entries l (delete pk (l_entries l)) in
      if stale (l_window l) now pst then l else
      match l_entries l !! ip with
      | None => l
      | Some st =>
          let n := s_count st - s_count pst in
          with_entries l (if n <=? 0 then delete ip (l_entries l) else <[ip := mkState n (s_first st)]> (l_entries l))
      end
  end.
End Pairs.

End Auth.
