(* ===== verification/RateLimitThm.v ===== *)
(** The limiters keep their bounds. *)

From S2P Require Import Prelude GoStrings RateLimit.
From Stdlib Require Import Ascii.

(** * Sliding windows *)

(** The units granted at the times of [log] that fall in the window ending at [T]. *)
Definition in_window (window T : Z) (log : list Z) : list Z :=
  List.filter (fun t => (T - window <? t) && (t <=? T)) log.
(** No window of the given length holds more than [limit] units. *)
Definition bounded (limit window : Z) (log : list Z) : Prop :=
  forall T, Z.of_nat (length (in_window window T log)) <= limit.

Lemma live_mono window now now' ts : now <= now' -> live window now' (live window now ts) = live window now' ts.
Proof.
  intros Hn. unfold live. induction ts as [|t ts IH]; [done|]. cbn.
  destruct (Z.ltb_spec (now - window) t); cbn; [|rewrite IH; by rewrite (proj2 (Z.ltb_ge _ _)) by lia].
  by rewrite IH.
Qed.
Lemma live_app window now a b : live window now (a ++ b) = live window now a ++ live window now b.
Proof. apply List.filter_app. Qed.
Lemma live_later window now now' a b :
  now <= now' -> live window now a = live window now b -> live window now' a = live window now' b.
Proof. intros Hn E. rewrite <- (live_mono window now now' a), <- (live_mono window now now' b), E by done. done. Qed.

Lemma in_window_app window T a b : in_window window T (a ++ b) = in_window window T a ++ in_window window T b.
Proof. apply List.filter_app. Qed.
Lemma in_window_none window T n now : T < now -> in_window window T (replicate n now) = [].
Proof. intros HT. unfold in_window. induction n as [|n IH]; [done|]. cbn. by rewrite (proj2 (Z.leb_gt _ _)), andb_false_r by lia. Qed.
Lemma in_window_length window T l : (length (in_window window T l) <= length l)%nat.
Proof. apply List.filter_length_le. Qed.
(** A window that ends later holds only what is live now. *)
Lemma in_window_live window now T l :
  now <= T -> (length (in_window window T l) <= length (live window now l))%nat.
Proof.
  intros HT. unfold in_window, live. induction l as [|t l IH]; [done|]. cbn.
  destruct (Z.ltb_spec (T - window) t); cbn; [|destruct (Z.ltb_spec (now - window) t); cbn; lia].
  rewrite (proj2 (Z.ltb_lt _ _)) by lia. destruct (t <=? T); cbn; lia.
Qed.

(** The one step all sliding windows share: granting [n] units now. *)
Lemma bounded_grant limit window now n log :
  0 <= n -> bounded limit window log -> Z.of_nat (length (live window now log)) + n <= limit ->
  bounded limit window (log ++ replicate (Z.to_nat n) now).
Proof.
  intros Hn Hb Hl T. rewrite in_window_app, length_app.
  destruct (Z.ltb_spec T now) as [HT|HT].
  - rewrite in_window_none by done. cbn. specialize (Hb T). lia.
  - pose proof (in_window_live window now T log HT). pose proof (in_window_length window T (replicate (Z.to_nat n) now)) as Hr.
    rewrite length_replicate in Hr. lia.
Qed.

(** ** The outbound limiter *)

Module OutboundThm.
Import Outbound.

Inductive call := CAllow (now : Z) (sender : string) (n : Z) | CRemaining (now : Z) (sender : string)
  | CRetryAfter (now : Z) (sender : string).
Definition call_time (c : call) : Z := match c with CAllow t _ _ | CRemaining t _ | CRetryAfter t _ => t end.

(** Run a call; the log of [s] gains the units granted to it. *)
Definition step (s : string) (st : RateLimiter * list Z) (c : call) : RateLimiter * list Z :=
  let (rl, log) := st in
  match c with
  | CAllow now sender n =>
      let (rl', ok) := AllowN now sender n rl in
      (rl', if ok && String.eqb sender s then log ++ replicate (Z.to_nat n) now else log)
  | CRemaining now sender => ((Remaining now sender rl).1, log)
  | CRetryAfter now sender => ((RetryAfter now sender rl).1, log)
  end.
Definition granted (limit : Z) (s : string) (calls : list call) : list Z :=
  (foldl (step s) (NewRateLimiter limit, []) calls).2.

(** At time [now] the limiter remembers the live part of the log. *)
Definition remembers (limit now : Z) (s : string) (st : RateLimiter * list Z) : Prop :=
  rl_limit st.1 = limit /\ rl_window st.1 = Hour /\
  live Hour now (default [] (rl_senders st.1 !! s)) = live Hour now st.2 /\ bounded limit Hour st.2.

Lemma remembers_later limit now now' s st : now <= now' -> remembers limit now s st -> remembers limit now' s st.
Proof. intros Hn (?&?&Hl&?). split_and!; [done..| |done]. by eapply live_later. Qed.

Lemma trim_spec rl sender now s :
  live (rl_window rl) now (default [] (rl_senders (trimLocked sender now rl).1 !! s)) =
  live (rl_window rl) now (default [] (rl_senders rl !! s)).
Proof.
  unfold trimLocked. cbn [fst rl_senders]. set (valid := live (rl_window rl) now (default [] (rl_senders rl !! sender))). destruct (decide (s = sender)) as [->|Hne].
  - assert (live (rl_window rl) now valid = live (rl_window rl) now (default [] (rl_senders rl !! sender))) as <-
      by (apply live_mono; lia).
    destruct valid as [|x l] eqn:E; cbn [length Nat.eqb]; [by rewrite lookup_delete_eq|by rewrite lookup_insert_eq].
  - destruct (Nat.eqb _ _); [by rewrite lookup_delete_ne|by rewrite lookup_insert_ne].
Qed.

Lemma step_remembers limit s st c :
  0 < limit -> remembers limit (call_time c) s st -> remembers limit (call_time c) s (step s st c).
Proof.
  intros Hlim. destruct st as [rl log]. intros (Hli&Hwi&Hlive&Hb). cbn [fst snd] in *.
  assert (forall now sender rl', trimLocked sender now rl = (rl', live Hour now (default [] (rl_senders rl !! sender))) ->
    now = call_time c -> remembers limit (call_time c) s (rl', log)) as Htrim.
  { intros now sender rl' E ->. pose proof (trim_spec rl sender (call_time c) s) as Ht. rewrite E, Hwi in Ht.
    unfold trimLocked in E. injection E as <- _. split_and!; [done..| |done]. cbn [fst snd] in *. congruence. }
  assert (forall now sender, trimLocked sender now rl =
    ((trimLocked sender now rl).1, live Hour now (default [] (rl_senders rl !! sender)))) as Heq
    by (intros; unfold trimLocked; by rewrite Hwi).
  destruct c as [now sender n|now sender|now sender]; cbn [step call_time] in *.
  - unfold AllowN. rewrite Hli. destruct (Z.leb_spec limit 0); [lia|]. cbn [orb].
    destruct (Z.leb_spec n 0) as [Hn|Hn].
    { assert (Z.to_nat n = 0%nat) as -> by lia. cbn. destruct (String.eqb sender s); rewrite ?app_nil_r; by split_and!. }
    rewrite (Heq now sender). destruct (Z.ltb_spec limit (Z.of_nat (length (live Hour now (default [] (rl_senders rl !! sender)))) + n)).
    { by apply (Htrim now sender). }
    destruct (Htrim now sender _ (Heq _ _) eq_refl) as (?&?&Hl'&?). cbn [fst snd] in *. split_and!; [done..| |]; cbn [fst snd rl_senders andb].
    + destruct (String.eqb_spec sender s) as [->|Hne]; [|by rewrite lookup_insert_ne].
      rewrite lookup_insert_eq. cbn [from_option id]. rewrite !live_app, live_mono by lia. by rewrite Hlive.
    + destruct (String.eqb_spec sender s) as [->|Hne]; [|done]. apply bounded_grant; [lia|done|]. rewrite <- Hlive. lia.
  - unfold Remaining. rewrite Hli. destruct (Z.leb_spec limit 0); [lia|]. rewrite (Heq now sender). by apply (Htrim now sender).
  - unfold RetryAfter. rewrite Hli. destruct (Z.leb_spec limit 0); [lia|]. rewrite (Heq now sender).
    destruct (_ <? limit); by apply (Htrim now sender).
Qed.

(** C23: the outbound rate is never exceeded.  Whatever the calls, for any
    senders and amounts, on a clock that does not run backwards, the units
    granted to a sender within any one-hour window are at most the limit. *)
Theorem outbound_rate_bounded limit s calls :
  0 < limit -> StronglySorted (fun a b => call_time a <= call_time b) calls ->
  bounded limit Hour (granted limit s calls).
Proof.
  intros Hlim Hso. unfold granted.
  assert (forall st t, Forall (fun c => t <= call_time c) calls -> remembers limit t s st ->
    bounded limit Hour (foldl (step s) st calls).2) as Hgen.
  { induction Hso as [|c calls Hso IH Hall]; intros st t Ht Hr; [apply Hr|]. cbn [foldl]. apply Forall_cons in Ht as [Ht _].
    apply (IH _ (call_time c) Hall). apply step_remembers; [done|]. by eapply remembers_later. }
  destruct calls as [|c calls]; [intros T; cbn; lia|]. apply StronglySorted_inv in Hso as [_ Hall].
  apply (Hgen _ (call_time c)); [by constructor|]. split_and!; [done..|]. intros T. cbn. lia.
Qed.

Lemma outbound_rate_bounded_witness :
  bounded 2 Hour (granted 2 "a" [CAllow 0 "a" 1; CAllow 5 "b" 2; CAllow 7 "a" 1; CAllow 9 "a" 1; CRemaining 9 "a"]).
Proof. apply outbound_rate_bounded; [reflexivity|]. repeat constructor; vm_compute; discriminate. Defined.
End OutboundThm.

(** ** The inbound limiter *)

Module InboundThm.
Import Inbound.

Inductive call := CAllow (now : Z) (ip : string) | CPrune (now : Z).
Definition call_time (c : call) : Z := match c with CAllow t _ | CPrune t => t end.
Definition step (s : string) (st : inboundRateLimiter * list Z) (c : call) : inboundRateLimiter * list Z :=
  let (rl, log) := st in
  match c with
  | CAllow now ip => let (rl', ok) := Allow now ip rl in (rl', if ok && String.eqb ip s then log ++ [now] else log)
  | CPrune now => (prune now rl, log)
  end.
Definition accepted (limit : Z) (s : string) (calls : list call) : list Z :=
  (foldl (step s) (newInboundRateLimiter limit, []) calls).2.

Definition remembers (limit now : Z) (s : string) (st : inboundRateLimiter * list Z) : Prop :=
  ir_limit st.1 = limit /\ ir_window st.1 = Minute /\
  live Minute now (default [] (ir_entries st.1 !! s)) = live Minute now st.2 /\ bounded limit Minute st.2.

Lemma in_remembers_later limit now now' s st : now <= now' -> remembers limit now s st -> remembers limit now' s st.
Proof. intros Hn (?&?&Hl&?). split_and!; [done..| |done]. by eapply live_later. Qed.

Lemma prune_remembers limit now s rl log :
  remembers limit now s (rl, log) -> remembers limit now s (pruneLocked now rl, log).
Proof.
  intros (Hli&Hwi&Hl&Hb). split_and!; [done..| |done]. cbn [fst snd] in *. rewrite <- Hl. unfold pruneLocked. cbn [ir_entries].
  rewrite Hwi, lookup_omap. destruct (ir_entries rl !! s) as [ts|]; [|done]. cbn [mbind option_bind from_option id].
  assert (live Minute now (live Minute now ts) = live Minute now ts) as E by (apply live_mono; lia).
  destruct (live Minute now ts) eqn:El; cbn [length Nat.eqb from_option id]; [done|exact E].
Qed.

Lemma in_step_remembers limit s st c :
  0 < limit -> remembers limit (call_time c) s st -> remembers limit (call_time c) s (step s st c).
Proof.
  intros Hlim. destruct st as [rl log]. intros Hr. pose proof Hr as (Hli&_). cbn [fst] in Hli. destruct c as [now ip|now]; cbn [step call_time] in *.
  2:{ unfold prune. rewrite Hli. destruct (Z.leb_spec limit 0); [lia|]. by apply prune_remembers. }
  unfold Allow. rewrite Hli. destruct (Z.leb_spec limit 0); [lia|].
  set (rl1 := if _ <=? _ then pruneLocked _ _ else _).
  assert (remembers limit now s (rl1, log)) as (Hli1&Hwi1&Hl1&Hb1).
  { destruct Hr as (_&Hwi&Hlv&Hb). unfold rl1. destruct (_ <=? _); [apply prune_remembers|]; by split_and!. }
  cbn [fst snd] in *. rewrite Hli1, Hwi1.
  destruct (Z.leb_spec limit (Z.of_nat (length (live Minute now (default [] (ir_entries rl1 !! ip)))))) as [Hfull|Hroom];
    split_and!; cbn [fst snd ir_limit ir_window ir_entries andb]; try done.
  - destruct (decide (ip = s)) as [->|]; [|by rewrite lookup_insert_ne]. rewrite lookup_insert_eq. cbn [from_option id].
    by rewrite live_mono by lia.
  - destruct (String.eqb_spec ip s) as [->|]; [|by rewrite lookup_insert_ne]. rewrite lookup_insert_eq. cbn [from_option id].
    rewrite !live_app, live_mono by lia. by rewrite Hl1.
  - destruct (String.eqb_spec ip s) as [->|]; [|done].
    apply (bounded_grant limit Minute now 1); [lia|done|]. rewrite <- Hl1. lia.
Qed.

(** The inbound rate is never exceeded.  Whatever messages from whatever
    addresses and whenever the map is swept, on a clock that does not run
    backwards, the messages accepted from an address within any one-minute
    window are at most the limit: the periodic sweep forgets nothing that counts. *)
Theorem inbound_rate_bounded limit s calls :
  0 < limit -> StronglySorted (fun a b => call_time a <= call_time b) calls ->
  bounded limit Minute (accepted limit s calls).
Proof.
  intros Hlim Hso. unfold accepted.
  assert (forall st t, Forall (fun c => t <= call_time c) calls -> remembers limit t s st ->
    bounded limit Minute (foldl (step s) st calls).2) as Hgen.
  { induction Hso as [|c calls Hso IH Hall]; intros st t Ht Hr; [apply Hr|]. cbn [foldl]. apply Forall_cons in Ht as [Ht _].
    apply (IH _ (call_time c) Hall). apply in_step_remembers; [done|]. by eapply in_remembers_later. }
  destruct calls as [|c calls]; [intros T; cbn; lia|]. apply StronglySorted_inv in Hso as [_ Hall].
  apply (Hgen _ (call_time c)); [by constructor|]. split_and!; [done..|]. intros T. cbn. lia.
Qed.

Lemma inbound_rate_bounded_witness :
  bounded 1 Minute (accepted 1 "a" [CAllow 0 "a"; CAllow 5 "a"; CPrune 9; CAllow 70000000000 "a"]).
Proof. apply inbound_rate_bounded; [reflexivity|]. repeat constructor; vm_compute; discriminate. Defined.
End InboundThm.

(** * Authentication failures *)

Module AuthThm.
Import Auth.

Section AuthThm.
Context `{GoUnicode} (max window t0 : Z).
Hypothesis (Hwin : 0 <= window < MaxInt64).
Implicit Types (l : Limiter) (F : gmap string Z).

Inductive event := EFail (now : Z) (ip account : string) | ESucceed (now : Z) (ip account : string).
Definition event_ip (e : event) : string := match e with EFail _ ip _ | ESucceed _ ip _ => ip end.
Definition event_time (e : event) : Z := match e with EFail t _ _ | ESucceed t _ _ => t end.
Definition step l (e : event) : Limiter :=
  match e with EFail now ip a => (Fail_ now ip a l).1 | ESucceed now ip a => Succeed_ now ip a l end.

(** Source addresses: text without NUL, not starting like a pair key. *)
Definition address (ip : string) : Prop := ip <> "" /\ has_char (char_of 0) ip = false /\ HasPrefix ip "acct" = false.

(** The specification: the failures of each account from [ip] since that
    account last logged in from there. *)
Definition spec_step (ip : string) F (e : event) : gmap string Z :=
  if negb (String.eqb (event_ip e) ip) then F else
  match e with
  | EFail _ _ a => <[account_key a := default 0 (F !! account_key a) + 1]> F
  | ESucceed _ _ a => delete (account_key a) F
  end.
Definition unforgiven (ip : string) (evs : list event) : gmap string Z := foldl (spec_step ip) ∅ evs.
Definition total F : Z := map_fold (fun _ n acc => n + acc) 0 F.

Lemma total_insert F a n : F !! a = None -> total (<[a := n]> F) = n + total F.
Proof. intros Ha. unfold total. apply map_fold_insert_L; [intros; lia|done]. Qed.
Lemma total_delete F a n : F !! a = Some n -> total F = n + total (delete a F).
Proof. intros Ha. rewrite <- (insert_delete_id F a n) at 1 by done. apply total_insert, lookup_delete_eq. Qed.
Lemma total_bump F a : total (<[a := default 0 (F !! a) + 1]> F) = total F + 1.
Proof.
  destruct (F !! a) as [n|] eqn:E; cbn [from_option id].
  - rewrite <- insert_delete_eq, total_insert, (total_delete F a n) by (done || apply lookup_delete_eq). lia.
  - rewrite total_insert by done. lia.
Qed.
Lemma total_pos F : map_Forall (fun _ n => 0 < n) F -> 0 <= total F /\ (total F <= 0 -> F = ∅).
Proof.
  induction F as [|a n F Ha IH] using map_ind; [intros _; by vm_compute|].
  rewrite map_Forall_insert by done. intros [Hn HF]. rewrite total_insert by done. destruct (IH HF). split; [lia|]. lia.
Qed.
Lemma total_ge F a n : map_Forall (fun _ n => 0 < n) F -> F !! a = Some n -> n <= total F.
Proof.
  intros HF Ha. rewrite (total_delete F a n) by done.
  destruct (total_pos (delete a F)); [by apply map_Forall_delete|lia].
Qed.

Lemma pairKey_inj ip ip' a a' :
  address ip -> address ip' -> pairKey ip a = pairKey ip' a' -> ip = ip' /\ account_key a = account_key a'.
Proof.
  intros (_&Hn&_) (_&Hn'&_) E. unfold pairKey in E. do 2 apply str_app_inv_head in E.
  pose proof (Cut_char (char_of 0) ip (account_key a) Hn) as H1. pose proof (Cut_char (char_of 0) ip' (account_key a') Hn') as H2.
  fold NUL in H1, H2. rewrite E, H2 in H1. by injection H1 as -> ->.
Qed.
Lemma pairKey_not_address ip ip' a : address ip' -> pairKey ip a <> ip'.
Proof.
  intros (_&_&Hp) <-. unfold pairKey in Hp. change (HasPrefix _ "acct") with (String.prefix "acct" ("acct" +:+ (NUL +:+ ip +:+ NUL +:+ account_key a))) in Hp.
  by rewrite prefix_app in Hp.
Qed.

(** An entry started after [t0] is live until [t0 + window]. *)
Definition in_span (t : Z) : Prop := t0 <= t <= t0 + window.
Lemma not_stale now st : in_span now -> in_span (s_first st) -> stale window now st = false.
Proof.
  unfold in_span, stale. intros. apply Z.ltb_ge. unfold time_sub, MaxInt64, MinInt64 in *. lia.
Qed.

Definition count_at l (k : string) : option Z := s_count <$> l_entries l !! k.
Definition firsts_ok l : Prop := map_Forall (fun _ st => in_span (s_first st)) (l_entries l).
(** The limiter implements the specification for [ip]. *)
Record models (ip : string) F l : Prop := {
  md_max : l_max l = max; md_window : l_window l = window; md_firsts : firsts_ok l;
  md_pos : map_Forall (fun _ n => 0 < n) F;
  md_pairs a : count_at l (pairKey ip a) = F !! account_key a;
  md_ip : count_at l ip = if decide (F = ∅) then None else Some (total F);
}.

(** Recording a failure under [key]: only that counter changes. *)
Lemma record_spec now key l :
  key <> "" -> l_window l = window -> firsts_ok l -> in_span now ->
  let l' := (Record_ now key l).1 in
  l_max l' = l_max l /\ l_window l' = window /\ firsts_ok l' /\
  count_at l' key = Some (default 0 (count_at l key) + 1) /\ forall k, k <> key -> count_at l' k = count_at l k.
Proof.
  intros Hk Hw Hf Hn. cbv zeta. unfold Record_. destruct (String.eqb_spec key ""); [done|]. cbv zeta.
  set (l1 := if _ <=? _ then _ else _).
  assert (l_max l1 = l_max l /\ l_window l1 = window /\ l_entries l1 = l_entries l) as (Hm1&Hw1&He1).
  { unfold l1. destruct (_ <=? _); [|done]. split_and!; [done|done|]. cbn [l_entries]. rewrite Hw. apply map_eq. intros k.
    rewrite lookup_omap. destruct (l_entries l !! k) as [st|] eqn:E; [|done]. cbn. by rewrite not_stale by (done || by apply (Hf k)). }
  rewrite He1. unfold count_at. destruct (l_entries l !! key) as [st|] eqn:E.
  - rewrite Hw1, not_stale by (done || by apply (Hf key)). cbn [fst with_entries l_max l_window l_entries].
    split_and!; [done|done| |by rewrite lookup_insert_eq|intros k Hne; by rewrite lookup_insert_ne].
    apply map_Forall_insert_2; [exact (Hf key st E)|done].
  - cbn [fst with_entries l_max l_window l_entries].
    split_and!; [done|done| |by rewrite lookup_insert_eq|intros k Hne; by rewrite lookup_insert_ne].
    by apply map_Forall_insert_2.
Qed.

Lemma fail_models ip F l now ip' a :
  address ip -> address ip' -> in_span now -> models ip F l -> models ip (spec_step ip F (EFail now ip' a)) (step l (EFail now ip' a)).
Proof.
  intros Hip Hip' Hn [Hm Hw Hf Hpos Hpairs Hcnt]. cbn [step]. unfold Fail_, spec_step. cbn [event_ip].
  destruct Hip' as [Hne' Hip'']. destruct (String.eqb_spec ip' "") as [|_]; [done|]. assert (address ip') as Hip' by done.
  pose proof (record_spec now (pairKey ip' a) l ltac:(done) Hw Hf Hn) as Hr1.
  destruct (Record_ now (pairKey ip' a) l) as [l1 r1]. cbn [fst] in Hr1. destruct Hr1 as (Hm1&Hw1&Hf1&Hc1&Ho1).
  destruct (record_spec now ip' l1 Hne' Hw1 Hf1 Hn) as (Hm2&Hw2&Hf2&Hc2&Ho2).
  assert (count_at l1 ip' = count_at l ip') as Hcip by (apply Ho1; intros E; by apply (pairKey_not_address ip' ip' a) in Hip').
  assert (forall b, count_at (Record_ now ip' l1).1 (pairKey ip b) = count_at l1 (pairKey ip b)) as Hpr
    by (intros b; apply Ho2; by apply pairKey_not_address).
  destruct (String.eqb_spec ip' ip) as [->|Hne]; cbn [negb].
  - split; [congruence|done|done| | |].
    + apply map_Forall_insert_2; [|done]. destruct (F !! account_key a) as [n|] eqn:E; cbn; [|lia]. apply Hpos in E. lia.
    + intros b. rewrite Hpr. destruct (decide (account_key b = account_key a)) as [E|E].
      * assert (pairKey ip b = pairKey ip a) as -> by (unfold pairKey; by rewrite E). by rewrite Hc1, Hpairs, E, lookup_insert_eq.
      * rewrite lookup_insert_ne by done. rewrite <- Hpairs. apply Ho1. by intros [_ ?]%pairKey_inj.
    + rewrite decide_False by apply insert_non_empty. rewrite Hc2, Hcip, Hcnt, total_bump.
      case_decide as HF; [|done]. by subst F.
  - split; [congruence|done|done|done| |].
    + intros b. rewrite Hpr, <- Hpairs. apply Ho1. by intros [? _]%pairKey_inj.
    + rewrite <- Hcnt, (Ho2 ip) by done. apply Ho1. intros E. by apply (pairKey_not_address ip' ip a) in Hip.
Qed.

Lemma succeed_models ip F l now ip' a :
  address ip -> address ip' -> in_span now -> models ip F l ->
  models ip (spec_step ip F (ESucceed now ip' a)) (step l (ESucceed now ip' a)).
Proof.
  intros Hip Hip' Hn [Hm Hw Hf Hpos Hpairs Hcnt]. cbn [step]. unfold Succeed_, spec_step. cbn [event_ip]. cbv zeta.
  destruct (String.eqb_spec ip' "") as [->|_]; [by destruct Hip'|].
  pose proof (Hpairs a) as Hpa. unfold count_at in Hpairs, Hcnt, Hpa.
  assert (forall b, account_key b <> account_key a \/ ip <> ip' -> pairKey ip b <> pairKey ip' a) as Hnk
    by (intros b Hb E; apply pairKey_inj in E as [? ?]; [|done..]; naive_solver).
  destruct (l_entries l !! pairKey ip' a) as [pst|] eqn:Epst.
  2:{ destruct (String.eqb_spec ip' ip) as [->|]; cbn [negb]; [|by split].
      rewrite Epst in Hpa. rewrite delete_id by done. by split. }
  unfold with_entries. cbn [l_window l_entries l_max l_sweep]. rewrite Hw.
  rewrite not_stale by (done || by apply (Hf _ _ Epst)).
  assert (map_Forall (fun _ st => in_span (s_first st)) (delete (pairKey ip' a) (l_entries l))) as Hfd by (by apply map_Forall_delete).
  rewrite lookup_delete_ne by (by apply pairKey_not_address).
  destruct (String.eqb_spec ip' ip) as [->|Hne]; cbn [negb].
  - rewrite Epst in Hpa. cbn in Hpa. symmetry in Hpa.
    assert (F <> ∅) as HFne by (intros ->; by rewrite lookup_empty in Hpa). rewrite decide_False in Hcnt by done.
    destruct (l_entries l !! ip) as [st|] eqn:Est; [|done]. cbn in Hcnt. injection Hcnt as Hcnt.
    assert (map_Forall (fun _ n => 0 < n) (delete (account_key a) F)) as Hpos' by (by apply map_Forall_delete).
    pose proof (total_delete F _ _ Hpa) as Htot. destruct (total_pos _ Hpos') as [Hge Hz].
    assert (forall e : gmap string state, (forall k, k <> ip -> e !! k = delete (pairKey ip a) (l_entries l) !! k) ->
      forall b, s_count <$> e !! pairKey ip b = delete (account_key a) F !! account_key b) as Hpairs'.
    { intros e He b. rewrite He by (by apply pairKey_not_address).
      destruct (decide (account_key b = account_key a)) as [E|E].
      - assert (pairKey ip b = pairKey ip a) as -> by (unfold pairKey; by rewrite E). by rewrite E, !lookup_delete_eq.
      - rewrite !lookup_delete_ne by (done || apply not_eq_sym; apply Hnk; by left). apply Hpairs. }
    destruct (Z.leb_spec (s_count st - s_count pst) 0).
    + assert (delete (account_key a) F = ∅) as HF0 by (apply Hz; lia).
      split; [done|done| |done| |]; unfold firsts_ok, count_at; cbn [l_entries].
      * by apply map_Forall_delete.
      * apply Hpairs'. intros k Hk. by rewrite lookup_delete_ne.
      * rewrite lookup_delete_eq. by rewrite decide_True.
    + split; [done|done| |done| |]; unfold firsts_ok, count_at; cbn [l_entries].
      * apply map_Forall_insert_2; [exact (Hf _ _ Est)|done].
      * apply Hpairs'. intros k Hk. by rewrite lookup_insert_ne.
      * rewrite lookup_insert_eq. cbn. rewrite decide_False; [f_equal; lia|].
        intros E. rewrite E in Htot. change (total ∅) with 0 in Htot. lia.
  - assert (forall e : gmap string state, (forall k, k <> ip' -> e !! k = delete (pairKey ip' a) (l_entries l) !! k) ->
      (forall b, s_count <$> e !! pairKey ip b = F !! account_key b) /\
      s_count <$> e !! ip = if decide (F = ∅) then None else Some (total F)) as Hrest.
    { intros e He. split.
      - intros b. rewrite He by (by apply pairKey_not_address). rewrite lookup_delete_ne; [apply Hpairs|].
        apply not_eq_sym, Hnk. right. congruence.
      - rewrite He by congruence. rewrite lookup_delete_ne; [done|]. by apply pairKey_not_address. }
    destruct (l_entries l !! ip') as [st|] eqn:Est.
    + destruct (_ <=? 0).
      * destruct (Hrest (delete ip' (delete (pairKey ip' a) (l_entries l)))) as [? ?]; [intros; by rewrite lookup_delete_ne|].
        split; try done. by apply map_Forall_delete.
      * match goal with |- models _ _ (mkLimiter _ _ (<[_ := ?x]> _) _) =>
          destruct (Hrest (<[ip' := x]> (delete (pairKey ip' a) (l_entries l)))) as [? ?]; [intros; by rewrite lookup_insert_ne|] end.
        split; try done. apply map_Forall_insert_2; [exact (Hf _ _ Est)|done].
    + destruct (Hrest (delete (pairKey ip' a) (l_entries l))) as [? ?]; [done|]. by split.
Qed.

Lemma run_models ip evs F l :
  address ip -> Forall (fun e => address (event_ip e) /\ in_span (event_time e)) evs -> models ip F l ->
  models ip (foldl (spec_step ip) F evs) (foldl step l evs).
Proof.
  intros Hip Hevs. revert F l. induction Hevs as [|e evs [He Ht] _ IH]; intros F l Hm; [done|]. cbn [foldl]. apply IH.
  destruct e; [by apply fail_models|by apply succeed_models].
Qed.

Lemma new_models ip : models ip ∅ (New max window).
Proof.
  split; [done..| |].
  - intros a. unfold count_at. cbn. by rewrite !lookup_empty.
  - unfold count_at. cbn. by rewrite lookup_empty.
Qed.

(** Failures of an account that did not log in since are all still counted. *)
Definition failures (ip acct : string) (evs : list event) : Z :=
  Z.of_nat (length (List.filter (fun e => match e with
    | EFail _ ip' a => String.eqb ip' ip && String.eqb (account_key a) acct | ESucceed _ _ _ => false end) evs)).
Definition never_succeeded (ip acct : string) (evs : list event) : Prop :=
  forall t a, ESucceed t ip a ∈ evs -> account_key a <> acct.

Lemma unforgiven_count ip acct evs F :
  never_succeeded ip acct evs ->
  default 0 (foldl (spec_step ip) F evs !! acct) = default 0 (F !! acct) + failures ip acct evs.
Proof.
  revert F. induction evs as [|e evs IH]; intros F Hns; [unfold failures; cbn [foldl List.filter length]; lia|]. cbn [foldl].
  rewrite IH by (intros t a Hin; apply (Hns t a); set_solver). unfold failures. cbn [List.filter].
  unfold spec_step. destruct e as [t ip' a|t ip' a]; cbn [event_ip].
  - destruct (String.eqb_spec ip' ip) as [->|]; cbn [negb andb]; [|done].
    destruct (String.eqb_spec (account_key a) acct) as [->|Hne]; [rewrite lookup_insert_eq; cbn [length from_option id]; lia|].
    by rewrite lookup_insert_ne.
  - destruct (String.eqb_spec ip' ip) as [->|]; cbn [negb]; [|done].
    rewrite lookup_delete_ne; [done|]. apply (Hns t a). set_solver.
Qed.

(** Logging in does not buy guesses.  Within one window of a fresh
    limiter, whatever failures and logins from whatever addresses, an address
    is blocked exactly when the failures of the accounts that did not log in
    from it since reach the limit; so the failures on an account that never
    logged in from it all count, whichever other accounts did. *)
Theorem logins_forgive_only_their_own ip evs now :
  address ip -> Forall (fun e => address (event_ip e) /\ in_span (event_time e)) evs -> in_span now ->
  let l := foldl step (New max window) evs in
  let F := unforgiven ip evs in
  (Blocked now ip l).2 = negb (bool_decide (F = ∅)) && (max <=? total F) /\
  forall acct, never_succeeded ip acct evs -> 0 < failures ip acct evs ->
    failures ip acct evs <= total F /\ (max <= failures ip acct evs -> (Blocked now ip l).2 = true).
Proof.
  intros Hip Hevs Hn. cbv zeta.
  destruct (run_models ip evs ∅ (New max window) Hip Hevs (new_models ip)) as [Hm Hw Hf Hpos Hpairs Hcnt].
  fold (unforgiven ip evs) in *. set (l := foldl step (New max window) evs) in *. set (F := unforgiven ip evs) in *.
  assert ((Blocked now ip l).2 = negb (bool_decide (F = ∅)) && (max <=? total F)) as Hbl.
  { unfold Blocked. destruct (String.eqb_spec ip "") as [->|_]; [by destruct Hip|]. unfold count_at in Hcnt.
    destruct (l_entries l !! ip) as [st|] eqn:E; cbn in Hcnt.
    - rewrite Hw, not_stale by (done || by apply (Hf _ _ E)). case_decide as HF; [done|]. injection Hcnt as ->.
      rewrite bool_decide_false by done. by rewrite Hm.
    - case_decide as HF; [|done]. by rewrite bool_decide_true. }
  split; [done|]. intros acct Hns Hpos1.
  pose proof (unforgiven_count ip acct evs ∅ Hns) as Hc. fold (unforgiven ip evs) in Hc. fold F in Hc. rewrite lookup_empty in Hc. cbn in Hc.
  destruct (F !! acct) as [n|] eqn:E; cbn in Hc; [|lia].
  pose proof (total_ge F acct n Hpos E) as Hge. split; [lia|]. intros Hmax. rewrite Hbl.
  rewrite bool_decide_false by (intros HF; rewrite HF in E; done). cbn. apply Z.leb_le. lia.
Qed.
End AuthThm.

Section Demo.
#[local] Existing Instance bytewise_unicode.
Definition demo_events : list event :=
  [EFail 1 "10.0.0.1" "victim"; ESucceed 2 "10.0.0.1" "Mallory"; EFail 3 "10.0.0.1" "mallory"; ESucceed 4 "10.0.0.1" "mallory";
   EFail 5 "10.0.0.1" "Victim "].
Lemma logins_forgive_only_their_own_witness :
  (Blocked 6 "10.0.0.1" (foldl step (New 2 100) demo_events)).2 = true.
Proof.
  destruct (logins_forgive_only_their_own 2 100 0 ltac:(split; [discriminate|reflexivity]) "10.0.0.1" demo_events 6) as [_ Hv].
  - split; [discriminate|]. split; reflexivity.
  - repeat (constructor; [split; [split; [discriminate|split; reflexivity]|split; vm_compute; discriminate]|]). constructor.
  - split; vm_compute; discriminate.
  - apply (Hv "victim").
    + intros t a Hin. unfold demo_events in Hin. repeat (apply elem_of_cons in Hin as [Hin|Hin]; [first [discriminate Hin|injection Hin as -> ->; vm_compute; discriminate]|]).
      exfalso. exact (not_elem_of_nil _ Hin).
    + vm_compute. reflexivity.
    + vm_compute. discriminate.
Defined.
End Demo.
End AuthThm.
