(* ===== verification/Srs.v ===== *)
(** Sender rewriting for forwarded mail: [internal/srs/srs.go].

    HMAC-SHA256 is the class [Hmac]: a function of key and message with 32
    bytes of output; no secrecy is assumed of it, and none is needed by the
    theorems, which say what the code does with its output.  The clock is an
    argument.  A slice expression in the source that could panic is written
    with the bound that the code has tested. *)

From Stdlib Require Import Ascii.
From S2P Require Import Prelude GoStrings.

Class Hmac := {
  hmac_sha256 : string -> string -> string;
  hmac_length : forall key msg, String.length (hmac_sha256 key msg) = 32%nat;
}.

(** * Base 32 without padding, [encoding/base32] *)

Definition stdAlphabet : string := "ABCDEFGHIJKLMNOPQRSTUVWXYZ234567".
Definition char_at (alphabet : string) (i : Z) : ascii :=
  default zero (String.get (Z.to_nat i) alphabet).

(** The first [n] of the eight characters of a 40-bit group. *)
Fixpoint b32_chars (v : Z) (shift : Z) (n : nat) : string :=
  match n with
  | O => ""
  | S n' => String (char_at stdAlphabet (Z.land (Z.shiftr v shift) 31)) (b32_chars v (shift - 5) n')
  end.
Definition group5 (a b c d e : Z) : Z :=
  Z.lor (Z.lor (Z.lor (Z.lor (Z.shiftl a 32) (Z.shiftl b 24)) (Z.shiftl c 16)) (Z.shiftl d 8)) e.
(** [EncodeToString]: five bytes give eight characters, a rest of one to four
    bytes gives two, four, five or seven. *)
Fixpoint EncodeToString (s : string) : string :=
  match s with
  | String a (String b (String c (String d (String e s')))) =>
      b32_chars (group5 (byte_of a) (byte_of b) (byte_of c) (byte_of d) (byte_of e)) 35 8 +:+ EncodeToString s'
  | String a (String b (String c (String d ""))) => b32_chars (group5 (byte_of a) (byte_of b) (byte_of c) (byte_of d) 0) 35 7
  | String a (String b (String c "")) => b32_chars (group5 (byte_of a) (byte_of b) (byte_of c) 0 0) 35 5
  | String a (String b "") => b32_chars (group5 (byte_of a) (byte_of b) 0 0 0) 35 4
  | String a "" => b32_chars (group5 (byte_of a) 0 0 0 0) 35 2
  | "" => ""
  end.

(** * The codec *)

Definition DefaultMaxAgeDays : Z := 21.
Definition hashLen : nat := 8.
Definition stampLen : nat := 2.
Definition wrapDays : Z := 1024.
Definition stampAlphabet : string := "abcdefghijklmnopqrstuvwxyz234567".

Definition ErrInvalid : err := Sentinel "srs: invalid address".
Definition cannot_rewrite : err := Errorf "srs: cannot rewrite sender".

Record SrsCodec := mkSrsCodec { sc_key : string; sc_maxAge : Z }.
Definition NewWithClock (key : string) (maxAgeDays : Z) : SrsCodec :=
  mkSrsCodec key (if maxAgeDays <=? 0 then DefaultMaxAgeDays else maxAgeDays).

Definition NoRelayLocal : string := "bongo-bounce-sink".

(** [strings.IndexByte], [-1] when absent. *)
Fixpoint IndexByte_from (i : Z) (s : string) (c : ascii) : Z :=
  match s with
  | "" => -1
  | String x s' => if Ascii.eqb x c then i else IndexByte_from (i + 1) s' c
  end.
Definition IndexByte (s : string) (c : ascii) : Z := IndexByte_from 0 s c.

Definition today (now : Z) : Z := Z.quot (unix_of now) 86400.

Definition stamp (day : Z) : string :=
  let d := Z.rem day wrapDays in
  String (char_at stampAlphabet (Z.land (Z.shiftr d 5) 31)) (String (char_at stampAlphabet (Z.land d 31)) "").

Definition unstamp (s : string) : option Z :=
  match s with
  | String a (String b "") =>
      let hi := IndexByte stampAlphabet a in
      let lo := IndexByte stampAlphabet b in
      if (hi <? 0) || (lo <? 0) then None else Some (Z.lor (Z.shiftl hi 5) lo)
  | _ => None
  end.

Definition domain_char (ch : ascii) : bool :=
  is_lower ch || is_upper ch || is_digit ch || Ascii.eqb ch "." || Ascii.eqb ch "-".
Definition validDomain (d : string) : bool :=
  negb (String.eqb d "" || (253 <? len d) || HasPrefix d "." || Contains d "..") && str_all domain_char d.

Definition local_char (ch : ascii) : bool :=
  negb ((byte_of ch <=? 32) || (byte_of ch =? 127)) &&
  negb (existsb (Ascii.eqb ch) ["@"; "<"; ">"; dquote; ","; ";"; ":"; backslash]%char).
Definition validLocal (l : string) : bool := negb (String.eqb l "") && str_all local_char l.

Section Srs.
Context `{GoUnicode} `{Hmac}.

Definition IsNoRelay (local : string) : bool := EqualFold local NoRelayLocal.

Definition IsSRS (local : string) : bool :=
  match String.get 4 local with
  | Some c =>
      if Ascii.eqb c "=" then
        let p := ToLower (str_take 4 local) in
        String.eqb p "srs0" || String.eqb p "srs1"
      else false
  | None => false
  end.

Definition mac (c : SrsCodec) (fields : list string) : string :=
  str_take hashLen (ToLower (EncodeToString
    (hmac_sha256 (sc_key c) (foldr (fun f acc => ToLower f +:+ String zero acc) "" fields)))).
Definition macSRS0 c tt domain local fwd : string := mac c ["srs0"; tt; domain; local; fwd].
Definition macSRS1 c tt firstHop rest fwd : string := mac c ["srs1"; tt; firstHop; rest; fwd].

Definition splitAddr (addr : string) : option (string * string) :=
  let addr := TrimSpace addr in
  let addr := TrimSuffix (TrimPrefix addr "<") ">" in
  match CutLast addr "@" with
  | None => None
  | Some (l, d) => if String.eqb l "" || String.eqb d "" then None else Some (l, d)
  end.

(** [local] passed [IsSRS], so [local[:5]] and [local[5:]] are in range. *)
Definition wrap (c : SrsCodec) (now : Z) (local domain fwd : string) : result string :=
  let body := str_drop 5 local in
  let? (firstHop, rest) :=
    if EqualFold (str_take 5 local) "srs0=" then Ok (domain, body) else
    match Cut body "=" with
    | None => Err cannot_rewrite
    | Some (_, tail) =>
        match Cut tail "==" with
        | None => Err cannot_rewrite
        | Some (firstHop, rest) =>
            if negb (validDomain firstHop) || String.eqb rest "" then Err cannot_rewrite
            else Ok (ToLower firstHop, rest)
        end
    end in
  let tt := stamp (today now) in
  Ok ("SRS1=" +:+ macSRS1 c tt firstHop rest fwd +:+ tt +:+ "=" +:+ firstHop +:+ "==" +:+ rest +:+ "@" +:+ fwd).

Definition Forward (c : SrsCodec) (now : Z) (sender fwdDomain : string) : result string :=
  let fwd := ToLower (TrimSpace fwdDomain) in
  match splitAddr sender with
  | None => Err cannot_rewrite
  | Some (local, domain) =>
      if negb (validLocal local) || negb (validDomain domain) || negb (validDomain fwd) then Err cannot_rewrite else
      let domain := ToLower domain in
      if IsSRS local then wrap c now local domain fwd else
      let tt := stamp (today now) in
      Ok ("SRS0=" +:+ macSRS0 c tt domain local fwd +:+ "=" +:+ tt +:+ "=" +:+ domain +:+ "=" +:+ local +:+ "@" +:+ fwd)
  end.

Definition fresh (c : SrsCodec) (now : Z) (tt : string) : bool :=
  match unstamp tt with
  | None => false
  | Some issued => Z.rem (Z.rem (today now) wrapDays - issued + wrapDays) wrapDays <=? sc_maxAge c
  end.

Definition reverse0 (c : SrsCodec) (now : Z) (body fwd : string) : result string :=
  match SplitN body "=" 4 with
  | [f0; f1; f2; f3] =>
      if negb (Nat.eqb (String.length f0) hashLen) || negb (validDomain f2) || String.eqb f3 "" then Err ErrInvalid else
      let hash := ToLower f0 in let tt := ToLower f1 in let domain := ToLower f2 in let local := f3 in
      if negb (String.eqb hash (macSRS0 c tt domain local fwd)) then Err ErrInvalid else
      if negb (fresh c now tt) then Err ErrInvalid else
      Ok (local +:+ "@" +:+ domain)
  | _ => Err ErrInvalid
  end.

Definition reverse1 (c : SrsCodec) (now : Z) (body fwd : string) : result string :=
  match Cut body "=" with
  | None => Err ErrInvalid
  | Some (h, tail) =>
      if negb (Nat.eqb (String.length h) (hashLen + stampLen)) then Err ErrInvalid else
      let hash := ToLower (str_take hashLen h) in let tt := ToLower (str_drop hashLen h) in
      match Cut tail "==" with
      | None => Err ErrInvalid
      | Some (firstHop, rest) =>
          if negb (validDomain firstHop) || (Count rest "=" <? 3) then Err ErrInvalid else
          let firstHop := ToLower firstHop in
          if negb (String.eqb hash (macSRS1 c tt firstHop rest fwd)) || negb (fresh c now tt) then Err ErrInvalid else
          Ok ("SRS0=" +:+ rest +:+ "@" +:+ firstHop)
      end
  end.

Definition Reverse (c : SrsCodec) (now : Z) (rcpt : string) : result string :=
  match splitAddr rcpt with
  | None => Err ErrInvalid
  | Some (local, fwd) =>
      if negb (IsSRS local) then Err ErrInvalid else
      let fwd := ToLower fwd in
      if EqualFold (str_take 5 local) "srs0=" then reverse0 c now (str_drop 5 local) fwd
      else reverse1 c now (str_drop 5 local) fwd
  end.
End Srs.
