(* ===== verification/SrsThm.v ===== *)
(** Sender rewriting is reversible, and reverses nothing it did not issue. *)

From S2P Require Import Prelude GoStrings Srs.
From Stdlib Require Import Ascii.

(** * Case folding and character classes *)

(** Settle a boolean fact about one byte by evaluating all 256. *)
Ltac each_byte c := destruct c as [[] [] [] [] [] [] [] []]; vm_compute; first [reflexivity|discriminate].

Notation lower s := (str_map lower_char s).

Lemma lower_idem_char c : lower_char (lower_char c) = lower_char c.
Proof. each_byte c. Qed.
(** Bytes that no letter is folded to. *)
Definition caseless (c : ascii) : bool := negb (is_lower c || is_upper c).
Lemma lower_caseless c x : caseless c = true -> lower_char x = c -> x = c.
Proof. intros Hc <-. revert Hc. each_byte x. Qed.
Lemma lower_of_caseless c : caseless c = true -> lower_char c = c.
Proof. each_byte c. Qed.
Lemma lower_ascii_char c : (byte_of (lower_char c) <? 128) = (byte_of c <? 128).
Proof. each_byte c. Qed.
Lemma lower_domain_char c : domain_char (lower_char c) = domain_char c.
Proof. each_byte c. Qed.

Lemma str_map_app f s t : str_map f (s +:+ t) = str_map f s +:+ str_map f t.
Proof. induction s as [|c s IH]; [done|]. rewrite !app_cons'. cbn. by rewrite IH. Qed.
Lemma str_map_length f s : String.length (str_map f s) = String.length s.
Proof. induction s; cbn; congruence. Qed.
Lemma lower_idem s : lower (lower s) = lower s.
Proof. induction s as [|c s IH]; [done|]. cbn. by rewrite lower_idem_char, IH. Qed.
Lemma str_all_no_char p c s : p c = false -> str_all p s = true -> has_char c s = false.
Proof.
  intros Hp Hs. unfold has_char. apply negb_false_iff. revert Hs. apply str_all_impl. intros x Hx.
  destruct (Ascii.eqb_spec x c) as [->|]; [congruence|done].
Qed.
Lemma is_ascii_lower s : is_ascii (lower s) = is_ascii s.
Proof. apply str_all_map, lower_ascii_char. Qed.
Lemma has_char_lower c s : caseless c = true -> has_char c (lower s) = has_char c s.
Proof.
  intros Hc. unfold has_char. f_equal. apply str_all_map. intros x. f_equal.
  destruct (Ascii.eqb_spec x c) as [Hx|Hx], (Ascii.eqb_spec (lower_char x) c) as [E|E]; try done.
  - exfalso. apply E. subst x. by apply lower_of_caseless.
  - exfalso. apply Hx. by apply lower_caseless.
Qed.
(** Words of equal folding contain the same caseless bytes. *)
Lemma same_case_no_char c s t : caseless c = true -> lower s = lower t -> has_char c t = false -> has_char c s = false.
Proof. intros Hc E. by rewrite <- (has_char_lower c s Hc), <- (has_char_lower c t Hc), E. Qed.
Lemma same_case_ascii s t : lower s = lower t -> is_ascii s = is_ascii t.
Proof. intros E. by rewrite <- (is_ascii_lower s), <- (is_ascii_lower t), E. Qed.
Lemma same_case_ascii_part s t : lower s = lower t -> str_all (fun c => byte_of c <? 128) t = true -> str_all (fun c => byte_of c <? 128) s = true.
Proof. intros E. pose proof (same_case_ascii s t E) as Ha. unfold is_ascii in Ha. by rewrite Ha. Qed.
Lemma same_case_length s t : lower s = lower t -> String.length s = String.length t.
Proof. intros E. by rewrite <- (str_map_length lower_char s), E, str_map_length. Qed.

(** A string that folds to a concatenation is one. *)
Lemma str_map_app_inv f x a b : str_map f x = a +:+ b -> exists x1 x2, x = x1 +:+ x2 /\ str_map f x1 = a /\ str_map f x2 = b.
Proof.
  revert x. induction a as [|c a IH]; intros x E; [by exists "", x|].
  destruct x as [|y x]; [done|]. rewrite app_cons' in E. cbn in E. injection E as Ey Ex.
  destruct (IH x Ex) as (x1&x2&->&<-&<-). exists (String y x1), x2. split_and!; [done| |done]. cbn. by rewrite Ey.
Qed.
Lemma same_case_app x a b : lower x = lower (a +:+ b) -> exists x1 x2, x = x1 +:+ x2 /\ lower x1 = lower a /\ lower x2 = lower b.
Proof. rewrite str_map_app. apply str_map_app_inv. Qed.
Lemma same_case_sep x c : caseless c = true -> lower x = lower (String c "") -> x = String c "".
Proof.
  intros Hc E. destruct x as [|y [|]]; try done. cbn in E. injection E as E.
  f_equal. apply lower_caseless; [done|]. rewrite E. by apply lower_of_caseless.
Qed.

Section Fold.
Context `{GoUnicode}.
Lemma ToLower_ascii s : is_ascii s = true -> ToLower s = lower s.
Proof. intros Hs. unfold ToLower. by rewrite Hs. Qed.
Lemma EqualFold_ascii s t : is_ascii s = true -> is_ascii t = true -> EqualFold s t = String.eqb (lower s) (lower t).
Proof. intros Hs Ht. unfold EqualFold. by rewrite Hs, Ht. Qed.
End Fold.

(** * Cutting *)

(** A two-byte separator after a part without its byte. *)
Lemma Cut_double c a b :
  has_char c a = false -> Cut (a +:+ String c (String c "") +:+ b) (String c (String c "")) = Some (a, b).
Proof.
  induction a as [|x a IH]; intros Ha.
  - change (Cut (String c (String c b)) (String c (String c "")) = Some ("", b)). cbn.
    destruct (ascii_dec c c); [|done]. by destruct b.
  - rewrite has_char_cons in Ha. apply orb_false_iff in Ha as [Hx Ha].
    rewrite app_cons'. cbn. destruct (ascii_dec c x) as [->|]; [by rewrite Ascii.eqb_refl in Hx|]. by rewrite IH.
Qed.

(** The number of bytes [c]. *)
Fixpoint tally (c : ascii) (s : string) : nat :=
  match s with "" => O | String x s' => if Ascii.eqb x c then S (tally c s') else tally c s' end.
Lemma tally_app c s t : tally c (s +:+ t) = (tally c s + tally c t)%nat.
Proof. induction s as [|x s IH]; [done|]. rewrite app_cons'. cbn. rewrite IH. by case_match. Qed.
Lemma tally_0 c s : has_char c s = false -> tally c s = O.
Proof. induction s as [|x s IH]; [done|]. rewrite has_char_cons. intros [Hx Hs]%orb_false_iff. cbn. by rewrite Hx, IH. Qed.
Lemma tally_le c s : (tally c s <= String.length s)%nat.
Proof. induction s as [|x s IH]; cbn; [done|]. case_match; lia. Qed.
Lemma tally_has c s : has_char c s = true <-> tally c s <> O.
Proof. induction s as [|x s IH]; [done|]. rewrite has_char_cons. cbn. destruct (Ascii.eqb x c); cbn; [|done]. split; lia. Qed.
Lemma tally_lower c s : caseless c = true -> tally c (lower s) = tally c s.
Proof.
  intros Hc. induction s as [|x s IH]; [done|]. cbn. rewrite IH.
  destruct (Ascii.eqb_spec x c) as [Hx|Hx], (Ascii.eqb_spec (lower_char x) c) as [E|E]; try done.
  - exfalso. apply E. subst x. by apply lower_of_caseless.
  - exfalso. apply Hx. by apply lower_caseless.
Qed.

Lemma SplitN_tally c n s : length (SplitN s (String c "") (S n)) = S (Nat.min n (tally c s)).
Proof.
  revert s. induction n as [|n IH]; intros s; [done|]. change (length (match Cut s (String c "") with
    Some (a, b) => a :: SplitN b (String c "") (S n) | None => [s] end) = S (Nat.min (S n) (tally c s))).
  destruct (Cut s (String c "")) as [[a b]|] eqn:E.
  - pose proof (Cut_head_char _ _ _ _ E) as Ha. apply Cut_Some in E as ->. cbn [length]. rewrite IH, tally_app, (tally_0 c a Ha).
    change (String c "" +:+ b) with (String c b). cbn [tally]. rewrite Ascii.eqb_refl. lia.
  - destruct (has_char c s) eqn:Hc; [|by rewrite tally_0]. exfalso. revert E Hc. induction s as [|x s IHs]; [done|].
    cbn. destruct (ascii_dec c x) as [->|Hx]; [by destruct s|]. rewrite has_char_cons. destruct (Cut s (String c "")) as [[]|]; [done|].
    intros _. destruct (Ascii.eqb_spec x c); [congruence|]. by apply IHs.
Qed.
Lemma Count_tally c s : Count s (String c "") = Z.of_nat (tally c s).
Proof. unfold Count, Split. rewrite SplitN_tally. pose proof (tally_le c s). lia. Qed.

(** The first three of four fields. *)
Lemma SplitN_4_char c a b d e :
  has_char c a = false -> has_char c b = false -> has_char c d = false ->
  SplitN (a +:+ String c "" +:+ b +:+ String c "" +:+ d +:+ String c "" +:+ e) (String c "") 4 = [a; b; d; e].
Proof. intros Ha Hb Hd. cbn [SplitN]. rewrite Cut_char by done. by rewrite Cut_char, Cut_char. Qed.

(** * Trimming *)

Lemma trim_right_keeps p a b :
  b <> "" -> trim_right p b = b -> trim_right p (a +:+ b) = a +:+ b.
Proof.
  intros Hb Ht. induction a as [|c a IH]; [done|]. rewrite app_cons'. cbn. rewrite IH.
  destruct (a +:+ b) eqn:E; [|done]. destruct a; [|done]. by rewrite app_nil_l' in E.
Qed.
Lemma trim_right_none p s : str_all (fun c => negb (p c)) s = true -> trim_right p s = s.
Proof.
  induction s as [|c s IH]; [done|]. cbn. intros [Hc Hs]%andb_true_iff. rewrite IH by done.
  apply negb_true_iff in Hc. rewrite Hc. by destruct s.
Qed.
Lemma str_drop_add n a b : str_drop (String.length a + n) (a +:+ b) = str_drop n b.
Proof. induction a; [done|]. rewrite app_cons'. done. Qed.
Lemma no_suffix c a b : b <> "" -> has_char c b = false -> HasSuffix (a +:+ b) (String c "") = false.
Proof.
  intros Hb Hc. unfold HasSuffix. apply andb_false_iff. right. apply String.eqb_neq. intros E.
  assert (Hl : (String.length (a +:+ b) - 1 = String.length a + (String.length b - 1))%nat).
  { rewrite str_length_app. destruct b; [done|]. cbn [String.length]. lia. }
  change (String.length (String c "")) with 1%nat in E. rewrite Hl, str_drop_add in E.
  pose proof (has_char_drop c (String.length b - 1) b Hc) as Hd. rewrite E, has_char_cons, Ascii.eqb_refl in Hd. done.
Qed.

(** * Day stamps *)

Lemma stamp_table :
  forallb (fun d => bool_decide (unstamp (stamp d) = Some d) &&
                    str_all (fun c => negb (Ascii.eqb c "=") && (byte_of c <? 128) && Ascii.eqb (lower_char c) c) (stamp d))
    (seqZ 0 wrapDays) = true.
Proof. vm_compute. reflexivity. Qed.
Lemma stamp_mod day : 0 <= day -> stamp day = stamp (day mod wrapDays).
Proof.
  intros Hd. unfold stamp. rewrite !Z.rem_mod_nonneg by (unfold wrapDays; lia || (apply Z.mod_pos_bound; unfold wrapDays; lia)).
  by rewrite Z.mod_mod by done.
Qed.
Lemma stamp_facts day : 0 <= day ->
  unstamp (stamp day) = Some (day mod wrapDays) /\
  has_char "=" (stamp day) = false /\ is_ascii (stamp day) = true /\ lower (stamp day) = stamp day.
Proof.
  intros Hd. rewrite stamp_mod by done. pose proof stamp_table as Ht. rewrite forallb_forall in Ht.
  assert (Hr : 0 <= day mod wrapDays < wrapDays) by (apply Z.mod_pos_bound; unfold wrapDays; lia).
  specialize (Ht (day mod wrapDays)). apply andb_true_iff in Ht as [Hu Hs].
  2: { apply list_elem_of_In, elem_of_seqZ. lia. }
  split; [by apply bool_decide_eq_true in Hu|]. clear Hu. generalize dependent (stamp (day mod wrapDays)). intros t Hs. split_and!.
  - revert Hs. apply str_all_no_char. by rewrite Ascii.eqb_refl.
  - revert Hs. apply str_all_impl. intros c [[_ ?]%andb_true_iff _]%andb_true_iff. done.
  - induction t as [|c t IH]; [done|]. cbn in Hs. apply andb_true_iff in Hs as [[_ Hc]%andb_true_iff Ht].
    cbn. rewrite IH by done. apply Ascii.eqb_eq in Hc. by rewrite Hc.
Qed.

Lemma alphabet_table a : (IndexByte stampAlphabet a <? 0) ||
  ((IndexByte stampAlphabet a <? 32) && Ascii.eqb (char_at stampAlphabet (IndexByte stampAlphabet a)) a) = true.
Proof. each_byte a. Qed.
Lemma alphabet_index a : 0 <= IndexByte stampAlphabet a ->
  IndexByte stampAlphabet a < 32 /\ char_at stampAlphabet (IndexByte stampAlphabet a) = a.
Proof.
  intros Hi%Z.ltb_ge. pose proof (alphabet_table a) as Ht. rewrite Hi in Ht.
  apply andb_true_iff in Ht as [?%Z.ltb_lt ?%Ascii.eqb_eq]. done.
Qed.
Lemma pair_table : forallb (fun p => bool_decide (0 <= Z.lor (Z.shiftl p.1 5) p.2 < wrapDays) &&
    String.eqb (stamp (Z.lor (Z.shiftl p.1 5) p.2)) (String (char_at stampAlphabet p.1) (String (char_at stampAlphabet p.2) "")))
  (list_prod (seqZ 0 32) (seqZ 0 32)) = true.
Proof. vm_compute. reflexivity. Qed.
Lemma unstamp_Some tt i : unstamp tt = Some i -> 0 <= i < wrapDays /\ tt = stamp i.
Proof.
  destruct tt as [|a [|b [|]]]; try done. unfold unstamp. cbv zeta.
  destruct (_ || _) eqn:E; [done|]. apply orb_false_iff in E as [Ha%Z.ltb_ge Hb%Z.ltb_ge]. intros [= <-].
  destruct (alphabet_index a Ha) as [Ha' Ea], (alphabet_index b Hb) as [Hb' Eb].
  pose proof pair_table as Ht. rewrite forallb_forall in Ht.
  specialize (Ht (IndexByte stampAlphabet a, IndexByte stampAlphabet b)). apply andb_true_iff in Ht as [Hr%bool_decide_eq_true Hs%String.eqb_eq].
  - split; [done|]. cbn [fst snd] in Hs. by rewrite Hs, Ea, Eb.
  - apply in_prod; apply list_elem_of_In, elem_of_seqZ; lia.
Qed.

(** * The check value *)

Lemma b32_table : forallb (fun i => let c := lower_char (char_at stdAlphabet i) in
  negb (Ascii.eqb c "=") && (byte_of (char_at stdAlphabet i) <? 128)) (seqZ 0 32) = true.
Proof. vm_compute. reflexivity. Qed.
Lemma b32_char v : let c := char_at stdAlphabet (Z.land v 31) in lower_char c <> "="%char /\ (byte_of c <? 128) = true.
Proof.
  pose proof b32_table as Ht. rewrite forallb_forall in Ht. change 31 with (Z.ones 5). rewrite Z.land_ones by done.
  specialize (Ht (v mod 2 ^ 5)). apply andb_true_iff in Ht as [Hc Hb].
  - split; [|done]. by apply negb_true_iff, Ascii.eqb_neq in Hc.
  - apply list_elem_of_In, elem_of_seqZ. pose proof (Z.mod_pos_bound v (2 ^ 5)). lia.
Qed.
Lemma b32_chars_facts v sh n :
  String.length (b32_chars v sh n) = n /\ is_ascii (b32_chars v sh n) = true /\ has_char "=" (lower (b32_chars v sh n)) = false.
Proof.
  revert sh. induction n as [|n IH]; intros sh; [done|]. destruct (IH (sh - 5)) as (Hl&Ha&Hc), (b32_char (Z.shiftr v sh)) as [Hx Hb].
  unfold is_ascii in *. cbn [b32_chars String.length str_all str_map]. rewrite Hl, Hb, Ha, has_char_cons, Hc. split_and!; [done..|]. apply orb_false_iff. split; [|done].
  by apply Ascii.eqb_neq.
Qed.
Lemma EncodeToString_ascii : forall s, is_ascii (EncodeToString s) = true.
Proof.
  fix IH 1. destruct s as [|a [|b [|c [|d [|e s]]]]]; [done|apply b32_chars_facts..|].
  cbn [EncodeToString]. unfold is_ascii. rewrite str_all_app. apply andb_true_iff. split; [apply b32_chars_facts|apply IH].
Qed.

Lemma lower_ascii_of s : is_ascii s = true -> is_ascii (lower s) = true.
Proof. by rewrite is_ascii_lower. Qed.

Section Mac.
Context `{GoUnicode} `{Hmac}.

Lemma mac_facts c fs :
  String.length (mac c fs) = hashLen /\ has_char "=" (mac c fs) = false /\ is_ascii (mac c fs) = true /\ lower (mac c fs) = mac c fs.
Proof.
  unfold mac. rewrite ToLower_ascii by apply EncodeToString_ascii.
  generalize (hmac_length (sc_key c) (foldr (fun f acc => ToLower f +:+ String zero acc) "" fs)).
  generalize (hmac_sha256 (sc_key c) (foldr (fun f acc => ToLower f +:+ String zero acc) "" fs)). intros s Hs.
  destruct s as [|x0 [|x1 [|x2 [|x3 [|x4 s]]]]]; try done. cbn [EncodeToString].
  set (g := b32_chars _ _ _). destruct (b32_chars_facts (group5 (byte_of x0) (byte_of x1) (byte_of x2) (byte_of x3) (byte_of x4)) 35 8) as (Hl&Ha&Hc).
  fold g in Hl, Ha, Hc. rewrite str_map_app. replace hashLen with (String.length (lower g)) at 1 3 4 5 6 by (by rewrite str_map_length, Hl).
  rewrite str_take_app. rewrite str_map_length, Hl. split_and!; [done|done|by apply lower_ascii_of|apply lower_idem].
Qed.

Lemma mac_fold c fs gs : Forall2 (fun f g => ToLower f = ToLower g) fs gs -> mac c fs = mac c gs.
Proof.
  intros HF. unfold mac. do 4 f_equal. induction HF as [|f g fs gs E HF IH]; [done|]. cbn. by rewrite E, IH.
Qed.
Lemma same_case_ToLower s t : is_ascii t = true -> lower s = lower t -> ToLower s = ToLower t.
Proof. intros Ht E. rewrite !ToLower_ascii; [done..|]. by rewrite (same_case_ascii _ _ E). Qed.

(** * Addresses *)

Lemma domain_ascii d : str_all domain_char d = true -> is_ascii d = true.
Proof. apply str_all_impl. intros c. each_byte c. Qed.
Lemma validDomain_chars d : validDomain d = true -> str_all domain_char d = true /\ d <> "".
Proof.
  unfold validDomain. rewrite negb_orb, negb_orb, negb_orb. intros Hd. repeat (apply andb_true_iff in Hd as [Hd ?]). split; [done|].
  by apply negb_true_iff, String.eqb_neq in Hd.
Qed.
Lemma domain_no_char c d : domain_char c = false -> str_all domain_char d = true -> has_char c d = false.
Proof. apply str_all_no_char. Qed.

Lemma splitAddr_plain x l d :
  is_ascii (String x l) = true -> is_ascii d = true -> is_space x = false -> x <> "<"%char ->
  str_all domain_char d = true -> d <> "" -> splitAddr (String x l +:+ "@" +:+ d) = Some (String x l, d).
Proof.
  intros Hl Hd Hx Hx' Hc Hn. unfold splitAddr, TrimSpace.
  assert (is_ascii (String x l +:+ "@" +:+ d) = true) as ->.
  { unfold is_ascii in *. rewrite !str_all_app, Hl, Hd. done. }
  assert (Hcat : String x l +:+ "@" +:+ d = (String x l +:+ "@") +:+ d) by by rewrite str_app_assoc.
  assert (trim_left is_space (String x l +:+ "@" +:+ d) = String x l +:+ "@" +:+ d) as ->.
  { rewrite app_cons'. cbn. by rewrite Hx. }
  rewrite Hcat, trim_right_keeps; [|done|].
  2: { apply trim_right_none. revert Hc. apply str_all_impl. intros c. each_byte c. }
  assert (HasPrefix ((String x l +:+ "@") +:+ d) "<" = false) as Hp.
  { apply not_true_iff_false. intros [r Hr]%prefix_spec. rewrite !app_cons' in Hr. by injection Hr. }
  unfold TrimPrefix at 1. rewrite Hp. unfold TrimSuffix at 1. rewrite (no_suffix ">" _ d Hn) by (by eapply domain_no_char).
  rewrite <- Hcat, CutLast_app by (by eapply domain_no_char). cbn. apply String.eqb_neq in Hn. by rewrite Hn.
Qed.
End Mac.

(** * Case folding of fields *)

Lemma prefix_lower p s : str_all caseless p = true -> String.prefix p (lower s) = String.prefix p s.
Proof.
  revert s. induction p as [|c p IH]; intros [|x s]; try done. cbn. intros [Hc Hp]%andb_true_iff.
  destruct (ascii_dec c x) as [Hx|Hx], (ascii_dec c (lower_char x)) as [E|E]; try done.
  - by apply IH.
  - subst x. by rewrite lower_of_caseless in E.
  - exfalso. apply Hx. symmetry in E |- *. by apply lower_caseless.
Qed.
Lemma Contains_lower sep s : str_all caseless sep = true -> Contains (lower s) sep = Contains s sep.
Proof.
  intros Hs. unfold Contains. induction s as [|c s IH]; [done|].
  pose proof (prefix_lower sep (String c s) Hs) as Hp. cbn [str_map] in *. cbn [Cut]. rewrite Hp.
  destruct (String.prefix sep (String c s)); [done|]. destruct (Cut s sep) as [[]|], (Cut (lower s) sep) as [[]|]; done.
Qed.
Lemma lower_nil s : lower s = "" -> s = "".
Proof. by destruct s. Qed.
Lemma validDomain_lower d : validDomain (lower d) = validDomain d.
Proof.
  unfold validDomain, len, HasPrefix. rewrite str_map_length, prefix_lower, Contains_lower by done.
  rewrite (str_all_map domain_char lower_char d lower_domain_char). by destruct d.
Qed.
Lemma same_case_domain s t : lower s = lower t -> validDomain t = true -> validDomain s = true.
Proof. intros E. by rewrite <- (validDomain_lower s), <- (validDomain_lower t), E. Qed.

(** What the prefix of an SRS address decides, in any case. *)
Definition srs_prefix (p : string) : Prop := lower p = "srs0=" \/ lower p = "srs1=".
Lemma first_s x : lower_char x = "s"%char -> is_space x = false /\ x <> "<"%char.
Proof.
  intros Hx. split.
  - assert (Hb : Ascii.eqb (lower_char x) "s" = true) by by apply Ascii.eqb_eq. clear Hx. revert Hb. each_byte x.
  - by intros ->.
Qed.

Section Prefix.
Context `{GoUnicode}.
Lemma srs_prefix_facts p s : srs_prefix p ->
  IsSRS (p +:+ s) = true /\ str_take 5 (p +:+ s) = p /\ str_drop 5 (p +:+ s) = s /\
  EqualFold p "srs0=" = String.eqb (lower p) "srs0=" /\
  exists x p', p = String x p' /\ is_space x = false /\ x <> "<"%char.
Proof.
  intros Hp.
  assert (Hl : String.length p = 5%nat) by (rewrite <- (str_map_length lower_char); by destruct Hp as [-> | ->]).
  assert (Ha : is_ascii p = true) by (rewrite <- is_ascii_lower; by destruct Hp as [-> | ->]).
  split_and!.
  - destruct p as [|x0 [|x1 [|x2 [|x3 [|x4 [|]]]]]]; try done. rewrite !app_cons'. unfold IsSRS. cbn [String.get].
    assert (x4 = "="%char) as ->.
    { apply lower_caseless; [done|]. by destruct Hp as [[= _ _ _ _ ->] | [= _ _ _ _ ->]]. }
    rewrite Ascii.eqb_refl. cbn [str_take]. rewrite ToLower_ascii.
    + destruct Hp as [[= E0 E1 E2 E3] | [= E0 E1 E2 E3]]; cbn [str_map]; by rewrite E0, E1, E2, E3.
    + revert Ha. unfold is_ascii. cbn [str_all]. rewrite !andb_true_r, !andb_true_iff. tauto.
  - rewrite <- Hl. apply str_take_app.
  - rewrite <- Hl. apply str_drop_app.
  - by apply EqualFold_ascii.
  - destruct p as [|x p]; [done|]. exists x, p. split; [done|]. apply first_s. by destruct Hp as [[= -> _] | [= -> _]].
Qed.
End Prefix.

(** * Issued addresses *)

(** Cut off the front of a string that equals a concatenation up to case, and
    a separator that has no case. *)
Ltac front E x Ex :=
  let r := fresh "r" in let E' := fresh in
  destruct (same_case_app _ _ _ E) as (x&r&->&Ex&E'); clear E; rename E' into E.
Ltac separator E :=
  let x := fresh "x" in let Ex := fresh in
  front E x Ex; apply same_case_sep in Ex; [subst x|done].

(** A string made of ASCII parts. *)
Ltac ascii_parts :=
  unfold is_ascii in *; rewrite <- ?app_cons', ?str_all_app, ?andb_true_iff; split_and!;
  first [done | eapply same_case_ascii_part; eassumption].

Section Issued.
Context `{GoUnicode} `{Hmac}.

(** The two forms of address, as issued on a given day. *)
Definition issued0 c day domain local fwd : string :=
  "SRS0=" +:+ macSRS0 c (stamp day) domain local fwd +:+ "=" +:+ stamp day +:+ "=" +:+ domain +:+ "=" +:+ local +:+ "@" +:+ fwd.
Definition issued1 c day firstHop rest fwd : string :=
  "SRS1=" +:+ macSRS1 c (stamp day) firstHop rest fwd +:+ stamp day +:+ "=" +:+ firstHop +:+ "==" +:+ rest +:+ "@" +:+ fwd.

(** A domain as [Forward] stores it. *)
Definition folded (d : string) : Prop := validDomain d = true /\ lower d = d.
Lemma folded_lower d : validDomain d = true -> ToLower d = lower d /\ folded (lower d).
Proof.
  intros Hd. split.
  - apply ToLower_ascii, domain_ascii. by apply validDomain_chars.
  - split; [by rewrite validDomain_lower|apply lower_idem].
Qed.
Lemma folded_facts d : folded d ->
  str_all domain_char d = true /\ d <> "" /\ is_ascii d = true /\ has_char "=" d = false /\ has_char "@" d = false.
Proof.
  intros [Hv _]. destruct (validDomain_chars d Hv) as [Hc Hn]. split_and!; [done..| |by eapply domain_no_char|by eapply domain_no_char].
  by apply domain_ascii.
Qed.
Lemma same_case_folded x d : folded d -> lower x = lower d -> validDomain x = true /\ ToLower x = d.
Proof.
  intros [Hv Hf] E. split; [by eapply same_case_domain|]. rewrite (same_case_ToLower x d), ToLower_ascii; [done|..|done].
  - by apply domain_ascii, validDomain_chars.
  - by apply domain_ascii, validDomain_chars.
Qed.

Lemma fresh_stamp c now day : 0 <= day -> 0 <= today now ->
  fresh c now (stamp day) = ((today now - day) mod wrapDays <=? sc_maxAge c).
Proof.
  intros Hd Ht. unfold fresh. destruct (stamp_facts day Hd) as (->&_). f_equal.
  assert (Hm : 0 <= day mod wrapDays < wrapDays) by (apply Z.mod_pos_bound; unfold wrapDays; lia).
  assert (Hn : 0 <= today now mod wrapDays < wrapDays) by (apply Z.mod_pos_bound; unfold wrapDays; lia).
  rewrite (Z.rem_mod_nonneg (today now)) by (unfold wrapDays in *; lia). rewrite Z.rem_mod_nonneg by (unfold wrapDays in *; lia).
  replace (today now mod wrapDays - day mod wrapDays + wrapDays) with (today now mod wrapDays - day mod wrapDays + 1 * wrapDays) by lia.
  rewrite Z.mod_add by done. symmetry. apply Zminus_mod.
Qed.

Lemma same_case_to x s : is_ascii s = true -> lower s = s -> lower x = lower s -> ToLower x = s.
Proof. intros Ha Hs E. rewrite (same_case_ToLower x s), ToLower_ascii; done. Qed.

Lemma Reverse_prefixed c now p body r fwd :
  srs_prefix p -> is_ascii body = true -> folded fwd -> lower r = lower fwd ->
  Reverse c now (p +:+ body +:+ "@" +:+ r) =
    if String.eqb (lower p) "srs0=" then reverse0 c now body fwd else reverse1 c now body fwd.
Proof.
  intros Hp Hb Hf E. destruct (same_case_folded r fwd Hf E) as [Hrv Hrl]. destruct (validDomain_chars r Hrv) as [Hrc Hrn].
  destruct (srs_prefix_facts p body Hp) as (Hs&Htk&Hdr&Heq&x&p'&->&Hx&Hx').
  assert (Ha : is_ascii (String x p') = true) by (rewrite <- is_ascii_lower; by destruct Hp as [-> | ->]).
  unfold Reverse. rewrite <- (str_app_assoc (String x p') body), app_cons' in *.
  rewrite splitAddr_plain; [|ascii_parts|by apply domain_ascii|done..].
  rewrite Hs, Htk, Hdr, Heq, Hrl. done.
Qed.

(** An issued address as any hop may have recased it: verified, it gives back
    the address it stands for, within the window and only there. *)
Lemma reverse_issued0 c day now domain local fwd rcpt :
  0 <= day -> 0 <= today now -> folded domain -> folded fwd -> is_ascii local = true -> local <> "" ->
  lower rcpt = lower (issued0 c day domain local fwd) ->
  exists local', lower local' = lower local /\
    Reverse c now rcpt = if (today now - day) mod wrapDays <=? sc_maxAge c then Ok (local' +:+ "@" +:+ domain) else Err ErrInvalid.
Proof.
  intros Hday Hnow Hdom Hfwd Hla Hln E. unfold issued0 in E.
  destruct (mac_facts c ["srs0"; stamp day; domain; local; fwd]) as (Hml&Hmc&Hma&Hmf). fold (macSRS0 c (stamp day) domain local fwd) in *.
  destruct (stamp_facts day Hday) as (_&Hsc&Hsa&Hsf).
  destruct (folded_facts domain Hdom) as (_&_&Hda&Hdc&_), (folded_facts fwd Hfwd) as (Hfd&Hfn&Hfa&_&_).
  front E p Ep. front E h Eh. separator E. front E t Et. separator E. front E d Ed. separator E. front E l El. separator E.
  destruct (same_case_folded d domain Hdom Ed) as [Hdv Hdl].
  exists l. split; [done|].
  replace (p +:+ h +:+ "=" +:+ t +:+ "=" +:+ d +:+ "=" +:+ l +:+ "@" +:+ r)
    with (p +:+ (h +:+ "=" +:+ t +:+ "=" +:+ d +:+ "=" +:+ l) +:+ "@" +:+ r) by (by rewrite !str_app_assoc).
  rewrite (Reverse_prefixed c now p _ r fwd) by (done || (by left) || ascii_parts). rewrite Ep, String.eqb_refl.
  unfold reverse0. rewrite SplitN_4_char by (eapply same_case_no_char; done).
  rewrite (same_case_length _ _ Eh), Hml, Nat.eqb_refl, Hdv, Hdl.
  rewrite (same_case_to t (stamp day)), (same_case_to h _ Hma Hmf Eh) by done.
  assert (String.eqb l "" = false) as ->. { apply String.eqb_neq. intros ->. by destruct local. }
  cbn [negb orb]. unfold macSRS0 at 2. rewrite (mac_fold c ["srs0"; stamp day; domain; l; fwd] ["srs0"; stamp day; domain; local; fwd]).
  2: { repeat constructor. by apply same_case_ToLower. }
  unfold macSRS0. rewrite String.eqb_refl, fresh_stamp by done. by destruct (_ <=? _).
Qed.

Lemma reverse_issued1 c day now firstHop rest fwd rcpt :
  0 <= day -> 0 <= today now -> folded firstHop -> folded fwd -> is_ascii rest = true ->
  lower rcpt = lower (issued1 c day firstHop rest fwd) ->
  exists rest', lower rest' = lower rest /\
    Reverse c now rcpt = if Count rest "=" <? 3 then Err ErrInvalid else
      if (today now - day) mod wrapDays <=? sc_maxAge c then Ok ("SRS0=" +:+ rest' +:+ "@" +:+ firstHop) else Err ErrInvalid.
Proof.
  intros Hday Hnow Hhop Hfwd Hra E. unfold issued1 in E.
  destruct (mac_facts c ["srs1"; stamp day; firstHop; rest; fwd]) as (Hml&Hmc&Hma&Hmf). fold (macSRS1 c (stamp day) firstHop rest fwd) in *.
  destruct (stamp_facts day Hday) as (_&Hsc&Hsa&Hsf).
  destruct (folded_facts firstHop Hhop) as (_&_&Hda&Hdc&_), (folded_facts fwd Hfwd) as (Hfd&Hfn&Hfa&_&_).
  front E p Ep. front E h Eh. front E t Et. separator E. front E d Ed.
  change ("==" +:+ rest +:+ "@" +:+ fwd) with ("=" +:+ "=" +:+ rest +:+ "@" +:+ fwd) in E.
  separator E. separator E. front E l El. separator E.
  destruct (same_case_folded d firstHop Hhop Ed) as [Hdv Hdl].
  exists l. split; [done|].
  replace (p +:+ h +:+ t +:+ "=" +:+ d +:+ "=" +:+ "=" +:+ l +:+ "@" +:+ r)
    with (p +:+ ((h +:+ t) +:+ "=" +:+ d +:+ "==" +:+ l) +:+ "@" +:+ r) by (by rewrite !str_app_assoc).
  rewrite (Reverse_prefixed c now p _ r fwd) by (done || (by right) || ascii_parts). rewrite Ep.
  change (String.eqb (lower "SRS1=") "srs0=") with false. cbv iota. unfold reverse1.
  rewrite Cut_char by (rewrite has_char_app; apply orb_false_iff; split; eapply same_case_no_char; done).
  assert (Hlh : String.length h = hashLen) by by rewrite (same_case_length _ _ Eh).
  assert (Hlt : String.length t = stampLen) by by rewrite (same_case_length _ _ Et).
  rewrite str_length_app, Hlh, Hlt, Nat.eqb_refl. rewrite <- Hlh, str_take_app, str_drop_app. cbn [negb].
  rewrite Cut_double by (eapply same_case_no_char; done). rewrite Hdv, Hdl, !Count_tally.
  rewrite <- (tally_lower "=" l), El, tally_lower by done. rewrite (same_case_to t (stamp day)), (same_case_to h _ Hma Hmf Eh) by done.
  destruct (_ <? 3); [done|]. cbn [negb orb].
  unfold macSRS1 at 2. rewrite (mac_fold c ["srs1"; stamp day; firstHop; l; fwd] ["srs1"; stamp day; firstHop; rest; fwd]).
  2: { repeat constructor. by apply same_case_ToLower. }
  unfold macSRS1. rewrite String.eqb_refl, fresh_stamp by done. by destruct (_ <=? _).
Qed.

(** * The round trip *)

(** Where a bounce for a forwarded message must go, given its sender
    [local@domain]: to the sender, also when it is another forwarder's SRS0
    address; for another forwarder's SRS1 address, to the first hop. *)
Inductive goes_back (local domain : string) : string -> Prop :=
| back_plain : IsSRS local = false -> goes_back local domain (local +:+ "@" +:+ domain)
| back_srs0 p body : local = p +:+ body -> lower p = "srs0=" -> 3 <= Count body "=" ->
    goes_back local domain (local +:+ "@" +:+ domain)
| back_srs1 p h hop rest : local = p +:+ h +:+ "=" +:+ hop +:+ "==" +:+ rest -> lower p = "srs1=" ->
    has_char "=" h = false -> validDomain hop = true -> 3 <= Count rest "=" ->
    goes_back local domain ("SRS0=" +:+ rest +:+ "@" +:+ hop).

Lemma str_all_trim_left p q s : str_all q s = true -> str_all q (trim_left p s) = true.
Proof. induction s as [|c s IH]; [done|]. cbn. intros Hs. case_match; [|done]. apply IH. by apply andb_true_iff in Hs as [_ ?]. Qed.
Lemma str_all_trim_right p q s : str_all q s = true -> str_all q (trim_right p s) = true.
Proof.
  induction s as [|c s IH]; [done|]. cbn. intros [Hc Hs]%andb_true_iff. specialize (IH Hs).
  destruct (trim_right p s); [case_match; cbn; by rewrite ?Hc|]. cbn in *. by rewrite Hc.
Qed.
Lemma TrimSpace_ascii s : is_ascii s = true -> is_ascii (TrimSpace s) = true.
Proof. intros Hs. unfold TrimSpace. rewrite Hs. by apply str_all_trim_right, str_all_trim_left. Qed.

Lemma forward_fwd d : is_ascii d = true -> validDomain (ToLower (TrimSpace d)) = true -> folded (ToLower (TrimSpace d)).
Proof.
  intros Hd Hv. split; [done|]. rewrite ToLower_ascii by by apply TrimSpace_ascii. apply lower_idem.
Qed.

Lemma wrap_srs0 c now p body domain fwd : lower p = "srs0=" ->
  wrap c now (p +:+ body) domain fwd = Ok (issued1 c (today now) domain body fwd).
Proof.
  intros Hp. destruct (srs_prefix_facts p body (or_introl Hp)) as (_&Htk&Hdr&Heq&_). unfold wrap. rewrite Htk, Hdr, Heq, Hp. done.
Qed.
Lemma wrap_srs1 c now p h hop rest domain fwd : lower p = "srs1=" -> has_char "=" h = false -> validDomain hop = true -> rest <> "" ->
  wrap c now (p +:+ h +:+ "=" +:+ hop +:+ "==" +:+ rest) domain fwd = Ok (issued1 c (today now) (ToLower hop) rest fwd).
Proof.
  intros Hp Hh Hv Hr. destruct (srs_prefix_facts p (h +:+ "=" +:+ hop +:+ "==" +:+ rest) (or_intror Hp)) as (_&Htk&Hdr&Heq&_).
  unfold wrap. rewrite Htk, Hdr, Heq, Hp. change (String.eqb "srs1=" "srs0=") with false. cbv iota. rewrite Cut_char by done.
  rewrite Cut_double by (eapply domain_no_char; [done|by apply validDomain_chars]). rewrite Hv.
  apply String.eqb_neq in Hr. by rewrite Hr.
Qed.

Lemma forward_unfold c now sender fwdDomain local domain :
  splitAddr sender = Some (local, domain) -> validLocal local = true -> validDomain domain = true ->
  validDomain (ToLower (TrimSpace fwdDomain)) = true ->
  Forward c now sender fwdDomain =
    if IsSRS local then wrap c now local (ToLower domain) (ToLower (TrimSpace fwdDomain))
    else Ok (issued0 c (today now) (ToLower domain) local (ToLower (TrimSpace fwdDomain))).
Proof. intros Hs Hl Hd Hf. unfold Forward. by rewrite Hs, Hl, Hd, Hf. Qed.

Lemma today_nonneg now : 0 <= now -> 0 <= today now.
Proof. intros Hn. unfold today, unix_of. apply Z.quot_pos; [|done]. by apply Z.div_pos. Qed.

Lemma tally_nonempty c s : 1 <= Count s (String c "") -> s <> "".
Proof. rewrite Count_tally. intros Hc ->. by cbn in Hc. Qed.


(** * Nothing else is reversed *)

Lemma str_all_drop q n s : str_all q s = true -> str_all q (str_drop n s) = true.
Proof. revert s. induction n as [|n IH]; intros [|c s]; try done. cbn. intros [_ ?]%andb_true_iff. by apply IH. Qed.
Lemma str_all_take q n s : str_all q s = true -> str_all q (str_take n s) = true.
Proof. revert s. induction n as [|n IH]; intros [|c s]; try done. cbn. intros [-> ?]%andb_true_iff. by apply IH. Qed.
Lemma CutLast_Some s c a b : CutLast s c = Some (a, b) -> s = a +:+ String c "" +:+ b.
Proof.
  revert a b. induction s as [|x s IH]; intros a b; cbn [CutLast]; [done|]. destruct (CutLast s c) as [[a' b']|].
  - intros [= <- <-]. by rewrite app_cons', <- (IH a' b').
  - destruct (Ascii.eqb_spec x c) as [->|]; [|done]. by intros [= <- <-].
Qed.
Lemma splitAddr_ascii s l f : is_ascii s = true -> splitAddr s = Some (l, f) -> is_ascii l = true /\ is_ascii f = true.
Proof.
  intros Hs. unfold splitAddr. destruct (CutLast _ _) as [[a b]|] eqn:E; [|done]. destruct (_ || _); [done|]. intros [= <- <-].
  assert (Ha : is_ascii (TrimSuffix (TrimPrefix (TrimSpace s) "<") ">") = true).
  { apply TrimSpace_ascii in Hs. unfold TrimSuffix, TrimPrefix, is_ascii in *.
    repeat case_match; repeat first [apply str_all_take|apply str_all_drop]; done. }
  apply CutLast_Some in E. rewrite E in Ha. unfold is_ascii in *. rewrite !str_all_app, !andb_true_iff in Ha. tauto.
Qed.

Lemma IsSRS_inv l : is_ascii l = true -> IsSRS l = true -> exists p s, l = p +:+ s /\ srs_prefix p.
Proof.
  intros Ha Hs. destruct l as [|x0 [|x1 [|x2 [|x3 [|x4 s]]]]]; try done. unfold IsSRS in Hs. cbn [String.get] in Hs.
  destruct (Ascii.eqb_spec x4 "=") as [->|]; [|done]. cbn [str_take] in Hs.
  exists (String x0 (String x1 (String x2 (String x3 "=")))), s. split; [done|]. unfold srs_prefix.
  rewrite ToLower_ascii in Hs by (revert Ha; unfold is_ascii; cbn [str_all]; rewrite !andb_true_r, !andb_true_iff; tauto).
  cbn [str_map] in *. apply orb_true_iff in Hs as [Hs%String.eqb_eq|Hs%String.eqb_eq]; injection Hs as -> -> -> ->; [by left|by right].
Qed.

(** A fresh stamp is that of a day in the window. *)
Lemma fresh_day c now tt : wrapDays <= today now -> sc_maxAge c < wrapDays -> fresh c now tt = true ->
  exists day, today now - sc_maxAge c <= day <= today now /\ 0 <= day /\ tt = stamp day.
Proof.
  intros Hn Hm Hf. unfold fresh in Hf. destruct (unstamp tt) as [i|] eqn:E; [|done]. apply unstamp_Some in E as [Hi ->].
  fold (unstamp (stamp i)) in Hf. pose proof (fresh_stamp c now i (proj1 Hi) ltac:(unfold wrapDays in *; lia)) as Hs.
  unfold fresh in Hs. destruct (stamp_facts i (proj1 Hi)) as [Hu _]. rewrite Hu, Z.mod_small in Hs by done. rewrite Hs in Hf. apply Z.leb_le in Hf.
  pose proof (Z.mod_pos_bound (today now - i) wrapDays ltac:(done)) as Hb.
  exists (today now - (today now - i) mod wrapDays). split; [lia|]. split; [unfold wrapDays in *; lia|].
  rewrite (stamp_mod i), (stamp_mod (today now - _)) by (unfold wrapDays in *; lia). f_equal.
  rewrite Zminus_mod_idemp_r. f_equal. lia.
Qed.

Lemma ToLower_lower s t : is_ascii s = true -> ToLower s = t -> lower s = lower t.
Proof. intros Hs <-. by rewrite ToLower_ascii, lower_idem. Qed.

Lemma reverse0_Ok c now body fwd r :
  is_ascii body = true -> wrapDays <= today now -> sc_maxAge c < wrapDays -> reverse0 c now body fwd = Ok r ->
  exists day domain local, today now - sc_maxAge c <= day <= today now /\ r = local +:+ "@" +:+ domain /\
    lower body = lower (macSRS0 c (stamp day) domain local fwd +:+ "=" +:+ stamp day +:+ "=" +:+ domain +:+ "=" +:+ local).
Proof.
  intros Ha Hn Hm. unfold reverse0. pose proof (Join_SplitN body "=" 3) as Hj.
  destruct (SplitN body "=" 4) as [|h [|t [|d [|l [|]]]]]; try done. cbn [Join] in Hj. rewrite <- Hj in *.
  destruct (_ || _); [done|]. destruct (String.eqb _ _) eqn:Em; [|done]. destruct (fresh _ _ _) eqn:Ef; [|done]. intros [= <-].
  apply String.eqb_eq in Em. destruct (fresh_day c now _ Hn Hm Ef) as (day&Hday&_&Et). rewrite Et in Em.
  unfold is_ascii in Ha. rewrite !str_all_app, !andb_true_iff in Ha. destruct Ha as (Hh&_&Ht&_&Hd&_&_).
  exists day, (ToLower d), l. split_and!; [lia..|done|].
  rewrite !str_map_app, (ToLower_lower _ _ Hh Em), (ToLower_lower _ _ Ht Et), (ToLower_lower _ _ Hd eq_refl). done.
Qed.

Lemma reverse1_Ok c now body fwd r :
  is_ascii body = true -> wrapDays <= today now -> sc_maxAge c < wrapDays -> reverse1 c now body fwd = Ok r ->
  exists day hop rest, today now - sc_maxAge c <= day <= today now /\ r = "SRS0=" +:+ rest +:+ "@" +:+ hop /\
    lower body = lower (macSRS1 c (stamp day) hop rest fwd +:+ stamp day +:+ "=" +:+ hop +:+ "==" +:+ rest).
Proof.
  intros Ha Hn Hm. unfold reverse1. destruct (Cut body "=") as [[h tail]|] eqn:E1; [|done]. apply Cut_Some in E1 as ->.
  destruct (negb _); [done|]. destruct (Cut tail "==") as [[d l]|] eqn:E2; [|done]. apply Cut_Some in E2 as ->.
  destruct (_ || _); [done|]. destruct (String.eqb _ _) eqn:Em; [|done]. destruct (fresh _ _ _) eqn:Ef; [|done]. intros [= <-].
  apply String.eqb_eq in Em. destruct (fresh_day c now _ Hn Hm Ef) as (day&Hday&_&Et). rewrite Et in Em.
  unfold is_ascii in Ha. rewrite !str_all_app, !andb_true_iff in Ha. destruct Ha as (Hh&_&Hd&_&_).
  exists day, (ToLower d), l. split_and!; [lia..|done|].
  assert (h = str_take hashLen h +:+ str_drop hashLen h) as -> by (clear; generalize hashLen; intros n; revert h;
    induction n as [|n IH]; intros [|x h]; try done; cbn [str_take str_drop]; rewrite app_cons'; by f_equal).
  rewrite !str_map_app, (ToLower_lower _ _ (str_all_take _ hashLen _ Hh) Em), (ToLower_lower _ _ (str_all_drop _ hashLen _ Hh) Et),
    (ToLower_lower _ _ Hd eq_refl), !str_app_assoc. done.
Qed.

(** Nothing else is reversed.  An address that [Reverse] accepts is, up to
    case, one this host issues for that very domain on a day within the
    window, its check value included, and the answer is the address the issued
    one stands for: a local part moved to another domain, an altered field or
    an old stamp is refused. *)
Theorem srs_reverses_only_own c now rcpt r :
  is_ascii rcpt = true -> wrapDays <= today now -> sc_maxAge c < wrapDays -> Reverse c now rcpt = Ok r ->
  exists l f day, splitAddr rcpt = Some (l, f) /\ today now - sc_maxAge c <= day <= today now /\
    ((exists domain local, lower (l +:+ "@" +:+ f) = lower (issued0 c day domain local (ToLower f)) /\
        r = local +:+ "@" +:+ domain) \/
     (exists hop rest, lower (l +:+ "@" +:+ f) = lower (issued1 c day hop rest (ToLower f)) /\
        r = "SRS0=" +:+ rest +:+ "@" +:+ hop)).
Proof.
  intros Ha Hn Hm. unfold Reverse. destruct (splitAddr rcpt) as [[l f]|] eqn:Es; [|done].
  destruct (splitAddr_ascii _ _ _ Ha Es) as [Hl Hf]. destruct (IsSRS l) eqn:Hs; [|done]. cbn [negb].
  destruct (IsSRS_inv l Hl Hs) as (p&body&->&Hp). destruct (srs_prefix_facts p body Hp) as (_&->&->&->&_).
  assert (Hb : is_ascii body = true) by (unfold is_ascii in *; rewrite str_all_app, andb_true_iff in Hl; tauto).
  pose proof (ToLower_lower f _ Hf eq_refl) as Hfl. intros Hr. exists (p +:+ body), f. destruct (String.eqb_spec (lower p) "srs0=") as [E0|E0].
  - destruct (reverse0_Ok _ _ _ _ _ Hb Hn Hm Hr) as (day&d&lo&Hd&->&E). exists day. split; [done|]. split; [done|]. left.
    exists d, lo. split; [|done]. unfold issued0. rewrite !str_map_app, E, E0, Hfl, !str_map_app, !str_app_assoc. done.
  - destruct (reverse1_Ok _ _ _ _ _ Hb Hn Hm Hr) as (day&d&lo&Hd&->&E). exists day. split; [done|]. split; [done|]. right.
    exists d, lo. split; [|done]. destruct Hp as [Hp|E1]; [done|].
    unfold issued1. rewrite !str_map_app, E, E1, Hfl, !str_map_app, !str_app_assoc. done.
Qed.
End Issued.

(** * Evaluation *)

Section Demo.
#[local] Existing Instance bytewise_unicode.

(** A concrete 32-byte digest. *)
Fixpoint digest (acc : Z) (s : string) : Z :=
  match s with "" => acc | String c s' => digest ((acc * 340282366920938463463374607431768211507 + byte_of c) mod 2 ^ 256) s' end.
Definition demo_hmac : Hmac :=
  {| hmac_sha256 key msg := be_put 32 (digest 1 (key +:+ msg)); hmac_length key msg := be_put_length 32 _ |}.
#[local] Existing Instance demo_hmac.

Definition day_ns : Z := 86400 * Second.
Definition demo_codec : SrsCodec := NewWithClock "secret" 0.
Definition demo_now : Z := 20000 * day_ns.


(** The address a demo sender is rewritten to. *)
Definition demo_issued : string :=
  match Forward demo_codec demo_now "srs0=abcd=xy=there.example=bob@other.example" "Fwd.example" with Ok a => a | Err _ => "" end.
Lemma srs_reverses_only_own_witness :
  Reverse demo_codec (demo_now + day_ns) demo_issued = Ok "SRS0=abcd=xy=there.example=bob@other.example" /\
  exists l f day, splitAddr demo_issued = Some (l, f) /\ 19980 <= day <= 20001 /\
    ((exists domain local, lower (l +:+ "@" +:+ f) = lower (issued0 demo_codec day domain local (ToLower f)) /\
        "SRS0=abcd=xy=there.example=bob@other.example" = local +:+ "@" +:+ domain) \/
     (exists hop rest, lower (l +:+ "@" +:+ f) = lower (issued1 demo_codec day hop rest (ToLower f)) /\
        "SRS0=abcd=xy=there.example=bob@other.example" = "SRS0=" +:+ rest +:+ "@" +:+ hop)).
Proof.
  assert (Hr : Reverse demo_codec (demo_now + day_ns) demo_issued = Ok "SRS0=abcd=xy=there.example=bob@other.example")
    by (vm_compute; reflexivity).
  split; [exact Hr|]. apply (srs_reverses_only_own demo_codec (demo_now + day_ns) demo_issued); [vm_compute; first [reflexivity|discriminate]..|exact Hr].
Defined.

(** The forwarder's address of a sender whose SRS0 address lacks fields is
    issued, and never accepted back. *)
Theorem issued_address_never_reverses :
  exists addr, Forward demo_codec demo_now "srs0=bob@other.example" "Fwd.example" = Ok addr /\
    Reverse demo_codec demo_now addr = Err ErrInvalid.
Proof. eexists. split; [vm_compute; reflexivity|]. vm_compute. reflexivity. Qed.

(** Test vectors of RFC 4648 without padding. *)
Example b32_vectors :
  EncodeToString <$> ["f"; "fo"; "foo"; "foob"; "fooba"; "foobar"] =
    ["MY"; "MZXQ"; "MZXW6"; "MZXW6YQ"; "MZXW6YTB"; "MZXW6YTBOI"].
Proof. vm_compute. reflexivity. Qed.
End Demo.
