(* ===== verification/Rules.v ===== *)
(** Mail filter rules: the engine ([internal/rules/engine.go]), the two shapes
    of a rule's actions ([internal/store/rule_actions.go]), the rule store
    ([internal/rules/store.go]) and the first-match migration
    ([internal/rules/migrate.go]).

    [regexp] with the 100 ms compile budget is the class [GoRegexp]: a pattern
    compiles to a matcher or to nothing; no theorem constrains it. *)

From S2P Require Import Prelude GoStrings Pebble Proto.
From Stdlib Require Import Ascii.

(** * Records ([proto/bongo/v1/rules.proto]) *)

Record Condition := mkCondition { cd_Field : string; cd_Operator : string; cd_Value : string }.
Record FilterAction := mkAction { fa_Type : string; fa_Target : string; fa_Tags : list string }.
Record FilterRule := mkRule {
  fr_Id : string; fr_Name : string; fr_Priority : Z; fr_Enabled : bool;
  fr_Conditions : list Condition; fr_Action : option FilterAction; fr_StopProcessing : bool;
  fr_CreatedAt : Z; fr_UpdatedAt : Z; fr_Actions : list FilterAction; fr_Match : string }.

#[global] Instance Condition_eq_dec : EqDecision Condition.
Proof. solve_decision. Defined.
#[global] Instance Condition_countable : Countable Condition.
Proof. apply (inj_countable' (fun c => (cd_Field c, cd_Operator c, cd_Value c)) (fun '(a, b, c) => mkCondition a b c)). by intros []. Defined.
#[global] Instance FilterAction_eq_dec : EqDecision FilterAction.
Proof. solve_decision. Defined.
#[global] Instance FilterAction_countable : Countable FilterAction.
Proof. apply (inj_countable' (fun a => (fa_Type a, fa_Target a, fa_Tags a)) (fun '(a, b, c) => mkAction a b c)). by intros []. Defined.
#[global] Instance FilterRule_eq_dec : EqDecision FilterRule.
Proof. solve_decision. Defined.
#[global] Instance FilterRule_countable : Countable FilterRule.
Proof.
  apply (inj_countable'
    (fun r => (fr_Id r, fr_Name r, fr_Priority r, fr_Enabled r, fr_Conditions r, fr_Action r, fr_StopProcessing r,
               fr_CreatedAt r, fr_UpdatedAt r, fr_Actions r, fr_Match r))
    (fun '(a, b, c, d, e, f, g, h, i, j, k) => mkRule a b c d e f g h i j k)).
  by intros [].
Defined.

(** A message as the engine sees it; header names are lower case. *)
Record Message := mkMessage {
  ms_Meta : MailMeta; ms_Headers : gmap string string; ms_BodyText : string; ms_MIMETypes : list string }.

(** * Actions in both shapes *)

Definition MaxRuleActions : nat := 10.

Definition RuleActions (rule : FilterRule) : list FilterAction :=
  match fr_Actions rule with
  | _ :: _ => fr_Actions rule
  | [] => match fr_Action rule with Some a => [a] | None => [] end
  end.

Definition with_actions (rule : FilterRule) (action : option FilterAction) (actions : list FilterAction) : FilterRule :=
  mkRule (fr_Id rule) (fr_Name rule) (fr_Priority rule) (fr_Enabled rule) (fr_Conditions rule) action (fr_StopProcessing rule)
    (fr_CreatedAt rule) (fr_UpdatedAt rule) actions (fr_Match rule).
Definition with_stop (rule : FilterRule) : FilterRule :=
  mkRule (fr_Id rule) (fr_Name rule) (fr_Priority rule) (fr_Enabled rule) (fr_Conditions rule) (fr_Action rule) true
    (fr_CreatedAt rule) (fr_UpdatedAt rule) (fr_Actions rule) (fr_Match rule).

Definition SetRuleActions (rule : FilterRule) (actions : list FilterAction) : FilterRule :=
  with_actions rule (head actions) actions.

(** * The engine *)

Class GoRegexp := compileWithTimeout : string -> option (string -> bool).

Definition MatchAny : string := "any".
Definition FieldMIMEType : string := "mime_type".
Definition HeaderPrefix : string := "header:".

Definition numericCompare (fieldStr condStr : string) (cmp : Z -> Z -> bool) : bool :=
  match ParseInt fieldStr with
  | None => false
  | Some a => match ParseInt condStr with None => false | Some b => cmp a b end
  end.

Section Engine.
Context `{GoUnicode} `{GoRegexp}.

Definition matchMIMEType (cond : Condition) (types : list string) : bool :=
  let op := ToLower (cd_Operator cond) in
  if String.eqb op "equals" then existsb (fun t => EqualFold t (cd_Value cond)) types
  else if String.eqb op "contains" then
    let want := ToLower (cd_Value cond) in existsb (fun t => Contains t want) types
  else if String.eqb op "matches" then
    match compileWithTimeout ("(?i)" +:+ cd_Value cond) with
    | None => false
    | Some re => existsb re types
    end
  else false.

Definition resolveField (field : string) (msg : Message) : string :=
  let meta := ms_Meta msg in
  let f := ToLower field in
  if String.eqb f "from" then mm_From meta
  else if String.eqb f "to" then Join (mm_To meta) ", "
  else if String.eqb f "cc" then Join (mm_Cc meta) ", "
  else if String.eqb f "subject" then mm_Subject meta
  else if String.eqb f "body" then ms_BodyText msg
  else if String.eqb f "has_attachment" then if (0 <? length (mm_Attachments meta))%nat then "true" else "false"
  else if String.eqb f "size" then
    match mm_RawMessage meta with Some b => FormatInt (br_Size b) | None => "0" end
  else if (len HeaderPrefix <? len field) && EqualFold (str_take (String.length HeaderPrefix) field) HeaderPrefix
  then default "" (ms_Headers msg !! ToLower (TrimSpace (str_drop (String.length HeaderPrefix) field)))
  else "".

Definition regexpMatch (pattern value : string) : bool :=
  match compileWithTimeout pattern with Some re => re value | None => false end.

Definition matchOperator (operator fieldValue condValue : string) : bool :=
  let op := ToLower operator in
  if String.eqb op "contains" then Contains (ToLower fieldValue) (ToLower condValue)
  else if String.eqb op "not_contains" then negb (Contains (ToLower fieldValue) (ToLower condValue))
  else if String.eqb op "equals" then EqualFold fieldValue condValue
  else if String.eqb op "matches" then regexpMatch condValue fieldValue
  else if String.eqb op "greater_than" then numericCompare fieldValue condValue (fun a b => b <? a)
  else if String.eqb op "less_than" then numericCompare fieldValue condValue (fun a b => a <? b)
  else false.

Definition matchCondition (cond : Condition) (msg : Message) : bool :=
  if EqualFold (cd_Field cond) FieldMIMEType then matchMIMEType cond (ms_MIMETypes msg)
  else matchOperator (cd_Operator cond) (resolveField (cd_Field cond) msg) (cd_Value cond).

(** The loop over the conditions, with its two early returns. *)
Fixpoint match_loop (anyOf : bool) (conds : list Condition) (msg : Message) : bool :=
  match conds with
  | [] => negb anyOf
  | cond :: conds' =>
      let ok := matchCondition cond msg in
      if anyOf && ok then true
      else if negb anyOf && negb ok then false
      else match_loop anyOf conds' msg
  end.
Definition matchConditions (rule : FilterRule) (msg : Message) : bool :=
  match fr_Conditions rule with
  | [] => false
  | conds => match_loop (String.eqb (fr_Match rule) MatchAny) conds msg
  end.

Fixpoint Evaluate (rules : list FilterRule) (msg : Message) : option FilterAction :=
  match rules with
  | [] => None
  | rule :: rules' =>
      if negb (fr_Enabled rule) then Evaluate rules' msg
      else if matchConditions rule msg then head (RuleActions rule)
      else Evaluate rules' msg
  end.

Fixpoint MatchingRules (rules : list FilterRule) (msg : Message) : list FilterRule :=
  match rules with
  | [] => []
  | rule :: rules' =>
      if negb (fr_Enabled rule) then MatchingRules rules' msg
      else if negb (matchConditions rule msg) then MatchingRules rules' msg
      else rule :: (if fr_StopProcessing rule then [] else MatchingRules rules' msg)
  end.
End Engine.

(** * The rule store *)

Definition ruleKey (userID ruleID : string) : string := "/user/" +:+ userID +:+ "/rule/" +:+ ruleID.
Definition rulePrefix (userID : string) : string := "/user/" +:+ userID +:+ "/rule/".

(** The order of [List]: priority, then age, then identifier. *)
Definition rule_less (a b : FilterRule) : bool :=
  if negb (fr_Priority a =? fr_Priority b) then fr_Priority a <? fr_Priority b
  else if negb (fr_CreatedAt a =? fr_CreatedAt b) then fr_CreatedAt a <? fr_CreatedAt b
  else bool_decide (str_lt (fr_Id a) (fr_Id b)).

Definition firstMatchMigrationKey : string := "/system/migrations/rules-first-match-v1".

Section RuleStore.
Context {DB : Type} `{PebbleDB DB} `{Codec FilterRule} `{RaftApplier DB}.
Implicit Types (ps : DB).

(** Records that cannot be read or parsed are skipped. *)
Fixpoint rules_of (l : list (string * result string)) : list FilterRule :=
  match l with
  | [] => []
  | (_, v) :: l' =>
      match iter_value v with
      | Err _ => rules_of l'
      | Ok val => match unmarshal val with Err _ => rules_of l' | Ok rule => rule :: rules_of l' end
      end
  end.
Definition List_ ps (userID : string) : result (list FilterRule) :=
  let? l := wrapf "scanning rules" (PrefixScan ps (rulePrefix userID)) in
  Ok (SliceStable rule_less (rules_of l)).

Definition GetRule ps (userID ruleID : string) : result FilterRule :=
  let? data := wrapf "rule not found" (Get ps (ruleKey userID ruleID)) in
  wrapf "parsing rule" (unmarshal data).

Definition Save (userID : string) (rule : FilterRule) : GoM DB unit :=
  let! data := glift (wrapf "marshaling rule" (marshal rule)) in
  ApplyCommand (mkCmd OP_PUT (ruleKey userID (fr_Id rule)) data).

Definition DeleteRule (userID ruleID : string) : GoM DB unit :=
  ApplyCommand (mkCmd OP_DELETE (ruleKey userID ruleID) "").

Definition reprioritised (rule : FilterRule) (priority now : Z) : FilterRule :=
  mkRule (fr_Id rule) (fr_Name rule) priority (fr_Enabled rule) (fr_Conditions rule) (fr_Action rule) (fr_StopProcessing rule)
    (fr_CreatedAt rule) now (fr_Actions rule) (fr_Match rule).
(** The loop of [Reorder] from index [i]; [clock i] is the time read there. *)
Fixpoint reorder_from (i : Z) (clock : Z -> Z) (userID : string) (ruleIDs : list string) : GoM DB unit :=
  match ruleIDs with
  | [] => gret tt
  | id :: ids =>
      let! rule := gread (fun ps => wrapf ("loading rule " +:+ id) (GetRule ps userID id)) in
      let! _ := gwrap ("saving rule " +:+ id) (Save userID (reprioritised rule (i32 (i + 1)) (unix_of (clock i)))) in
      reorder_from (i + 1) clock userID ids
  end.
Definition Reorder (clock : Z -> Z) (userID : string) (ruleIDs : list string) : GoM DB unit :=
  reorder_from 0 clock userID ruleIDs.

(** ** The first-match migration *)

Definition FirstMatchMigrationDone ps : result bool :=
  match Get ps firstMatchMigrationKey with
  | Ok _ => Ok true
  | Err e => if errors_is e ErrNotFound then Ok false else Err (Wrap "rules first-match migration marker" e)
  end.

Definition MarkFirstMatchMigrationDone : GoM DB unit :=
  gwrap "rules first-match migration marker: raft" (ApplyCommand (mkCmd OP_PUT firstMatchMigrationKey "done")).

Definition is_rule_key (key : string) : bool :=
  match Split key "/" with
  | [_; _; _; p3; _] => String.eqb p3 "rule"
  | _ => false
  end.

(** The scan: the keys and rules whose list of actions is empty. *)
Fixpoint pending_rules (l : list (string * result string)) : list (string * FilterRule) :=
  match l with
  | [] => []
  | (key, v) :: l' =>
      if negb (is_rule_key key) then pending_rules l' else
      match iter_value v with
      | Err _ => pending_rules l'
      | Ok val =>
          match unmarshal val with
          | Err _ => pending_rules l'
          | Ok rule => match fr_Actions rule with [] => (key, rule) :: pending_rules l' | _ => pending_rules l' end
          end
      end
  end.

(** What the migration makes of a rule. *)
Definition migrated (rule : FilterRule) : FilterRule :=
  let rule := with_stop rule in
  match fr_Action rule with Some a => SetRuleActions rule [a] | None => rule end.

(** Whether the record read again just before the write is to be left alone. *)
Definition superseded ps (key : string) : bool :=
  match Get ps key with
  | Err e => errors_is e ErrNotFound
  | Ok cur => match unmarshal cur with
              | Ok now => match (fr_Actions now : list FilterAction) with [] => false | _ => true end
              | Err _ => false
              end
  end.

(** The write loop; the count of rules written and the error, if any. *)
Fixpoint migrate_all (todo : list (string * FilterRule)) (written : Z) ps : DB * (Z * option err) :=
  match todo with
  | [] => (ps, (written, None))
  | (key, rule) :: todo' =>
      let rule' := migrated rule in
      match marshal rule' with
      | Err e => (ps, (written, Some (Wrap ("marshaling rule " +:+ fr_Id rule') e)))
      | Ok data =>
          if superseded ps key then migrate_all todo' written ps else
          match ApplyCommand (mkCmd OP_PUT key data) ps with
          | (ps', Err e) => (ps', (written, Some (Wrap ("migrating rule " +:+ fr_Id rule') e)))
          | (ps', Ok _) => migrate_all todo' (written + 1) ps'
          end
      end
  end.
(** [closed] is what closing the iterator reports. *)
Definition MigrateFirstMatch (closed : option err) ps : DB * (Z * option err) :=
  match PrefixScan ps "/user/" with
  | Err e => (ps, (0, Some (Wrap "scanning rules for first-match migration" e)))
  | Ok l =>
      match closed with
      | Some e => (ps, (0, Some (Wrap "closing rule scan" e)))
      | None => migrate_all (pending_rules l) 0 ps
      end
  end.
End RuleStore.
