(* ===== verification/Envelope.v ===== *)
(** The envelope of a message in the inbound pipeline
    ([proto/bongo/v1/pipeline.proto]), its processing flags
    ([internal/pipeline/flags.go]) and the resets of a quarantined envelope
    ([internal/pipeline/rescan.go]). *)

From S2P Require Import Prelude GoStrings Proto.
From Stdlib Require Import Ascii.

(** * Records *)

Record ForwardRequest := mkForward { fq_UserId : string; fq_Target : string }.
(** [sr_Score] is the bit pattern of a float the code here never computes with. *)
Record StageResult := mkStage {
  sr_Stage : string; sr_Backend : string; sr_Action : string; sr_Score : Z; sr_Reasons : list string;
  sr_ProcessedAt : Z; sr_DurationMs : Z; sr_DmarcResult : string }.
Record QueueEnvelope := mkEnvelope {
  qe_Id : string; qe_Sender : string; qe_Recipients : list string; qe_ReceivedAt : Z; qe_SourceIp : string;
  qe_BlobHash : string; qe_Flags : Z; qe_SpfResult : string; qe_Stages : list StageResult; qe_CurrentStage : string;
  qe_TargetMailbox : string; qe_PendingTags : list string; qe_ForwardAddresses : list string; qe_Trusted : bool;
  qe_AuthUserId : string; qe_ForwardRequests : list ForwardRequest; qe_PendingFlags : Z; qe_CopyMailboxes : list string;
  qe_DiscardNormal : bool; qe_DsnRet : string; qe_DsnEnvid : string; qe_DsnNotify : Z; qe_DsnOrcptType : string; qe_DsnOrcpt : string }.

#[global] Instance ForwardRequest_eq_dec : EqDecision ForwardRequest.
Proof. solve_decision. Defined.
#[global] Instance ForwardRequest_countable : Countable ForwardRequest.
Proof. apply (inj_countable' (fun f => (fq_UserId f, fq_Target f)) (fun '(a, b) => mkForward a b)). by intros []. Defined.
#[global] Instance StageResult_eq_dec : EqDecision StageResult.
Proof. solve_decision. Defined.
#[global] Instance StageResult_countable : Countable StageResult.
Proof.
  apply (inj_countable' (fun r => (sr_Stage r, sr_Backend r, sr_Action r, sr_Score r, sr_Reasons r, sr_ProcessedAt r, sr_DurationMs r, sr_DmarcResult r))
    (fun '(a, b, c, d, e, f, g, h) => mkStage a b c d e f g h)). by intros [].
Defined.
#[global] Instance QueueEnvelope_eq_dec : EqDecision QueueEnvelope.
Proof. solve_decision. Defined.
#[global] Instance QueueEnvelope_countable : Countable QueueEnvelope.
Proof.
  apply (inj_countable'
    (fun q => ((qe_Id q, qe_Sender q, qe_Recipients q, qe_ReceivedAt q, qe_SourceIp q, qe_BlobHash q, qe_Flags q, qe_SpfResult q,
                qe_Stages q, qe_CurrentStage q, qe_TargetMailbox q, qe_PendingTags q),
               (qe_ForwardAddresses q, qe_Trusted q, qe_AuthUserId q, qe_ForwardRequests q, qe_PendingFlags q, qe_CopyMailboxes q,
                qe_DiscardNormal q, qe_DsnRet q, qe_DsnEnvid q, qe_DsnNotify q, qe_DsnOrcptType q, qe_DsnOrcpt q)))
    (fun '((a, b, c, d, e, f, g, h, i, j, k, l), (m, n, o, p, q, r, s, t, u, v, w, x)) =>
       mkEnvelope a b c d e f g h i j k l m n o p q r s t u v w x)).
  by intros [].
Defined.

(** Assignments to fields. *)
Definition set_progress (q : QueueEnvelope) (flags : Z) (stages : list StageResult) (current : string) : QueueEnvelope :=
  mkEnvelope (qe_Id q) (qe_Sender q) (qe_Recipients q) (qe_ReceivedAt q) (qe_SourceIp q) (qe_BlobHash q) flags (qe_SpfResult q)
    stages current (qe_TargetMailbox q) (qe_PendingTags q) (qe_ForwardAddresses q) (qe_Trusted q) (qe_AuthUserId q)
    (qe_ForwardRequests q) (qe_PendingFlags q) (qe_CopyMailboxes q) (qe_DiscardNormal q) (qe_DsnRet q) (qe_DsnEnvid q) (qe_DsnNotify q)
    (qe_DsnOrcptType q) (qe_DsnOrcpt q).
Definition set_routing (q : QueueEnvelope) (target : string) (tags : list string) (forwards : list ForwardRequest) (flags : Z)
    (copies : list string) (discard : bool) : QueueEnvelope :=
  mkEnvelope (qe_Id q) (qe_Sender q) (qe_Recipients q) (qe_ReceivedAt q) (qe_SourceIp q) (qe_BlobHash q) (qe_Flags q) (qe_SpfResult q)
    (qe_Stages q) (qe_CurrentStage q) target tags (qe_ForwardAddresses q) (qe_Trusted q) (qe_AuthUserId q)
    forwards flags copies discard (qe_DsnRet q) (qe_DsnEnvid q) (qe_DsnNotify q) (qe_DsnOrcptType q) (qe_DsnOrcpt q).
Definition set_target (q : QueueEnvelope) (target : string) : QueueEnvelope :=
  set_routing q target (qe_PendingTags q) (qe_ForwardRequests q) (qe_PendingFlags q) (qe_CopyMailboxes q) (qe_DiscardNormal q).
Definition set_flags (q : QueueEnvelope) (flags : Z) : QueueEnvelope := set_progress q flags (qe_Stages q) (qe_CurrentStage q).

(** * Flags *)

Definition MsgFlagSpamChecked : Z := 1.
Definition MsgFlagVirusChecked : Z := 2.
Definition MsgFlagRulesChecked : Z := 4.
Definition MsgFlagSpam : Z := 8.
Definition MsgFlagVirus : Z := 16.
Definition MsgFlagQuarantined : Z := 32.
Definition MsgFlagDelivered : Z := 64.

Definition HasFlag (flags flag : Z) : bool := negb (Z.land flags flag =? 0).
Definition SetFlag (flags flag : Z) : Z := Z.lor flags flag.
Definition ClearFlag (flags flag : Z) : Z := Z.ldiff flags flag.
Definition ClampInt32 (v : Z) : Z := if 2 ^ 31 - 1 <? v then 2 ^ 31 - 1 else i32 v.

(** [flagsForStage]: the flag that marks a stage as done, and the one that
    marks its negative verdict; 0 for none. *)
Definition flagsForStage (name : string) : Z * Z :=
  if String.eqb name "antispam" then (MsgFlagSpamChecked, MsgFlagSpam)
  else if String.eqb name "antivirus" then (MsgFlagVirusChecked, MsgFlagVirus)
  else if String.eqb name "rules" then (MsgFlagRulesChecked, 0)
  else if String.eqb name "deliver" then (MsgFlagDelivered, 0)
  else (0, 0).

(** * Requeueing a quarantined envelope *)

Definition PrepareForRescan (env : QueueEnvelope) : QueueEnvelope :=
  let flags := ClearFlag (qe_Flags env) MsgFlagQuarantined in
  let flags := ClearFlag flags MsgFlagVirusChecked in
  let flags := ClearFlag flags MsgFlagVirus in
  let flags := ClearFlag flags MsgFlagSpamChecked in
  let flags := ClearFlag flags MsgFlagSpam in
  set_progress env flags
    (List.filter (fun sr => negb (String.eqb (sr_Stage sr) "antivirus" || String.eqb (sr_Stage sr) "antispam")) (qe_Stages env)) "".

Definition PrepareForRelease (env : QueueEnvelope) : QueueEnvelope :=
  let env := set_progress env (ClearFlag (qe_Flags env) MsgFlagQuarantined) (qe_Stages env) "" in
  if String.eqb (qe_TargetMailbox env) "" || String.eqb (qe_TargetMailbox env) "Junk" then set_target env "INBOX" else env.
