(* ===== verification/RulesStage.v ===== *)
(** The rules stage of the inbound pipeline: [internal/pipeline/rules/rules.go].

    Parsing a message rests on the enmime library and is a parameter, as are
    the mapping of recipients to users and the source of the rules; nothing is
    assumed of them.  The envelope is the one the caller passes, updated in
    place in the source and returned here. *)

From S2P Require Import Prelude GoStrings Proto Mailbox Rules Envelope.
From Stdlib Require Import Ascii.

Section Stage.
Context `{GoUnicode} `{GoRegexp}.

Definition isJunkOrTrash (mailbox : string) : bool := EqualFold mailbox "Junk" || EqualFold mailbox "Trash".
Definition containsFold (l : list string) (v : string) : bool := existsb (fun s => EqualFold s v) l.

Definition appendUniqueFold (dst src : list string) : list string :=
  foldl (fun dst v => if containsFold dst v then dst else dst ++ [v]) dst src.

(** [appendUnique] keeps the set of what [dst] holds. *)
Definition appendUnique (dst src : list string) : list string :=
  foldl (fun dst v => if bool_decide (v ∈ dst) then dst else dst ++ [v]) dst src.

(** The variables of [Process] and the two fields of the envelope that its
    loop writes. *)
Record outcome := mkOutcome {
  oc_reasons : list string; oc_terminal : string; oc_targetMailbox : string; oc_pendingFlags : Z;
  oc_copies : list string; oc_forwards : list ForwardRequest; oc_tags : list string }.

(** The switch on one action, for the rule of [userID]. *)
Definition act (userID : string) (action : FilterAction) (o : outcome) : outcome :=
  let '(mkOutcome reasons terminal target flags copies forwards tags) := o in
  let kind := ToLower (fa_Type action) in
  if String.eqb kind "move" then
    mkOutcome (reasons ++ ["move:" +:+ fa_Target action])
      (if String.eqb terminal "" then "move" else terminal)
      (if String.eqb terminal "" then fa_Target action else target) flags copies forwards tags
  else if String.eqb kind "copy" then
    mkOutcome (reasons ++ ["copy:" +:+ fa_Target action]) terminal target flags
      (if negb (String.eqb (fa_Target action) "") && negb (containsFold copies (fa_Target action))
       then copies ++ [fa_Target action] else copies) forwards tags
  else if String.eqb kind "flag" then
    mkOutcome (reasons ++ ["flag:" +:+ fa_Target action]) terminal target (Z.lor flags FlagFlagged) copies forwards tags
  else if String.eqb kind "mark_read" then
    mkOutcome (reasons ++ ["mark_read"]) terminal target (Z.lor flags FlagSeen) copies forwards tags
  else if String.eqb kind "delete" then
    mkOutcome (reasons ++ ["delete"]) (if String.eqb terminal "" then "delete" else terminal) target flags copies forwards tags
  else if String.eqb kind "forward" then
    if String.eqb (fa_Target action) "" then o else
    mkOutcome (reasons ++ ["forward:" +:+ fa_Target action]) terminal target flags copies
      (forwards ++ [mkForward userID (fa_Target action)]) tags
  else if String.eqb kind "tag" then
    mkOutcome (reasons ++ ((fun t => "tag:" +:+ t) <$> fa_Tags action)) terminal target flags copies forwards
      (appendUnique tags (fa_Tags action))
  else o.

(** The actions asked for on behalf of one user, in order. *)
Definition user_actions (rules : list FilterRule) (parsed : Message) : list FilterAction :=
  MatchingRules rules parsed ≫= fun rule => take MaxRuleActions (RuleActions rule).

Section Process.
Context (resolver : option (string -> result string)) (provider : string -> result (list FilterRule)) (parse : string -> Message).

(** The user whose rules apply to a recipient, if local. *)
Definition rule_owner (recipient : string) : option string :=
  match resolver with
  | None => Some recipient
  | Some resolve => match resolve recipient with
                    | Ok u => if String.eqb u "" then None else Some u
                    | Err _ => None
                    end
  end.

(** One turn of the loop over the recipients. *)
Definition recipient_turn (parsed : Message) (o : outcome) (recipient : string) : outcome :=
  match rule_owner recipient with
  | None => o
  | Some u =>
      match provider u with
      | Err _ => o
      | Ok userRules => foldl (fun o a => act u a o) o (user_actions userRules parsed)
      end
  end.

Definition Process (start elapsed : Z) (env : QueueEnvelope) (msg : result string) : result (QueueEnvelope * StageResult) :=
  let? raw := wrapf "rules: reading message" msg in
  let parsed := parse raw in
  let '(mkOutcome reasons terminal target flags copies forwards tags) :=
    foldl (recipient_turn parsed) (mkOutcome [] "" "" 0 [] [] (qe_PendingTags env)) (qe_Recipients env) in
  let spam := EqualFold (qe_TargetMailbox env) "Junk" in
  let copies := if spam then List.filter isJunkOrTrash copies else copies in
  let target' := if String.eqb terminal "move" && (negb spam || isJunkOrTrash target) then target else qe_TargetMailbox env in
  let keeps := negb (Nat.eqb (length copies) 0) || negb (Nat.eqb (length forwards) 0) in
  let finalAction := if String.eqb terminal "delete" && negb keeps then "reject" else "pass" in
  let discard := if String.eqb terminal "delete" && keeps then true else qe_DiscardNormal env in
  Ok (set_routing env target' tags (qe_ForwardRequests env ++ forwards)
        (Z.lor (qe_PendingFlags env) flags) (appendUniqueFold (qe_CopyMailboxes env) copies) discard,
      mkStage "rules" "builtin" finalAction 0 reasons (unix_of start) (ClampInt32 (Z.quot elapsed 1000000)) "").
End Process.
End Stage.
