(* ===== verification/RulesThm.v ===== *)
(** Theorems on filter rules: what the rules stage does with the actions it is
    asked for, and that the first-match migration keeps every rule's effect. *)

From S2P Require Import Prelude GoStrings Pebble Proto Mailbox Rules Envelope RulesStage.
From Stdlib Require Import Ascii.

(** * The rules stage *)

Section Stage.
Context `{GoUnicode} `{GoRegexp}.
Implicit Types (a : FilterAction) (asked : list (string * FilterAction)) (o : outcome).

Definition is_kind (kind : string) a : bool := String.eqb (ToLower (fa_Type a)) kind.

(** ** What the actions ask for *)

(** The first action that decides where the message goes: a mailbox to move it
    to, or [None] to delete it. *)
Definition terminal_of a : option (option string) :=
  if is_kind "move" a then Some (Some (fa_Target a)) else if is_kind "delete" a then Some None else None.
Fixpoint first_terminal asked : option (option string) :=
  match asked with
  | [] => None
  | (_, a) :: asked' => match terminal_of a with Some t => Some t | None => first_terminal asked' end
  end.
Definition forward_of (p : string * FilterAction) : option ForwardRequest :=
  if is_kind "forward" p.2 && negb (String.eqb (fa_Target p.2) "") then Some (mkForward p.1 (fa_Target p.2)) else None.
Definition forwards_of asked : list ForwardRequest := omap forward_of asked.
Definition asks_copy asked (t : string) : Prop := t <> "" /\ exists p, p ∈ asked /\ is_kind "copy" p.2 = true /\ fa_Target p.2 = t.

(** ** One action *)

Definition run_acts asked o : outcome := foldl (fun o p => act p.1 p.2 o) o asked.

Ltac by_kind a :=
  unfold act, forward_of, terminal_of, is_kind; cbn [fst snd]; generalize (ToLower (fa_Type a)); intros kind;
  let go k := (destruct (String.eqb_spec kind k) as [->|]; [cbn|]) in
  go "move"; [|go "copy"; [|go "flag"; [|go "mark_read"; [|go "delete"; [|go "forward"; [|go "tag"]]]]]].

Lemma act_forwards u a o : oc_forwards (act u a o) = oc_forwards o ++ option_list (forward_of (u, a)).
Proof. destruct o. by_kind a; cbn; rewrite ?app_nil_r; try done. destruct (String.eqb (fa_Target a) ""); cbn; by rewrite ?app_nil_r. Qed.

(** The terminal action held by the loop's variables. *)
Definition held o : option (option string) :=
  if String.eqb (oc_terminal o) "move" then Some (Some (oc_targetMailbox o))
  else if String.eqb (oc_terminal o) "delete" then Some None else None.
Definition sane o : Prop := oc_terminal o ∈ [""; "move"; "delete"].
Lemma act_sane u a o : sane o -> sane (act u a o).
Proof. destruct o. unfold sane. by_kind a; repeat case_match; cbn; set_solver. Qed.
Lemma act_held u a o : sane o -> held (act u a o) = match held o with Some t => Some t | None => terminal_of a end.
Proof.
  destruct o as [rs t tg fl cs fs tags]. unfold sane, held. cbn [oc_terminal]. intros Hs.
  assert (t = "" \/ t = "move" \/ t = "delete") as [-> | [-> | ->]] by set_solver; by_kind a; try done;
    by destruct (String.eqb (fa_Target a) "").
Qed.

Lemma act_copies u a o t : t ∈ oc_copies (act u a o) <->
  t ∈ oc_copies o \/ (t = fa_Target a /\ is_kind "copy" a = true /\ t <> "" /\ containsFold (oc_copies o) t = false).
Proof.
  assert (Hno : forall P Q R (x : string) (l : list string), (x ∈ l <-> x ∈ l \/ (P /\ false = true /\ Q /\ R))).
  { intros. split; [by left|]. by intros [?|(_&?&_)]. }
  destruct o as [rs tm tg fl cs fs tags]. by_kind a; try apply Hno.
  - destruct (String.eqb_spec (fa_Target a) "") as [E|E]; cbn [negb andb].
    + split; [by left|]. intros [?|(->&_&?&_)]; done.
    + destruct (containsFold cs (fa_Target a)) eqn:Ec; cbn [negb].
      * split; [by left|]. intros [?|(->&_&_&?)]; [done|]. unfold containsFold in Ec. congruence.
      * rewrite elem_of_app, list_elem_of_singleton. split; [|by intros [?|(->&_)]; [left|right]]. intros [?| ->]; [by left|by right].
  - destruct (String.eqb (fa_Target a) ""); apply Hno.
Qed.

(** ** All of them *)

Lemma run_forwards asked o : oc_forwards (run_acts asked o) = oc_forwards o ++ forwards_of asked.
Proof.
  revert o. unfold run_acts, forwards_of. induction asked as [|[u a] asked IH]; intros o; cbn; [by rewrite app_nil_r|].
  rewrite IH, act_forwards, <- app_assoc. by destruct (forward_of (u, a)).
Qed.
Lemma run_held asked o : sane o -> held (run_acts asked o) = match held o with Some t => Some t | None => first_terminal asked end.
Proof.
  revert o. unfold run_acts. induction asked as [|[u a] asked IH]; intros o Hs; cbn; [by destruct (held o)|].
  rewrite IH by by apply act_sane. rewrite act_held by done. by destruct (held o).
Qed.
Lemma run_sane asked o : sane o -> sane (run_acts asked o).
Proof. revert o. unfold run_acts. induction asked as [|[u a] asked IH]; intros o Hs; cbn; [done|]. by apply IH, act_sane. Qed.
Lemma run_copies_from asked o t : t ∈ oc_copies (run_acts asked o) -> t ∈ oc_copies o \/ asks_copy asked t.
Proof.
  revert o. unfold run_acts, asks_copy. induction asked as [|[u a] asked IH]; intros o; cbn; [by left|].
  intros [[?|(->&Hk&Hn&_)]%act_copies|(Hn&p&Hp&Hq)]%IH; [by left|right..].
  - split; [done|]. exists (u, a). split; [by left|done].
  - split; [done|]. exists p. split; [by right|done].
Qed.
Lemma run_copies_keep asked o t : t ∈ oc_copies o -> t ∈ oc_copies (run_acts asked o).
Proof.
  revert o. unfold run_acts. induction asked as [|[u a] asked IH]; intros o Ht; cbn; [done|]. apply IH, act_copies. by left.
Qed.

Lemma containsFold_true l t : containsFold l t = true <-> exists s, s ∈ l /\ EqualFold s t = true.
Proof. unfold containsFold. rewrite existsb_exists. setoid_rewrite list_elem_of_In. done. Qed.

(** [EqualFold] is Unicode case folding, an equivalence. *)
Class FoldLaws := {
  fold_refl s : EqualFold s s = true;
  fold_trans s t r : EqualFold s t = true -> EqualFold t r = true -> EqualFold s r = true;
}.
Context `{FoldLaws}.

Lemma run_copies_all asked o t : asks_copy asked t -> exists s, s ∈ oc_copies (run_acts asked o) /\ EqualFold s t = true.
Proof.
  intros (Hn&p&Hp&Hk&Ht). revert o. unfold run_acts. induction asked as [|[u a] asked IH]; intros o; [by apply not_elem_of_nil in Hp|].
  apply elem_of_cons in Hp as [->|Hp]; [|by apply IH]. cbn [foldl fst snd] in *. subst t.
  destruct (containsFold (oc_copies o) (fa_Target a)) eqn:E.
  - apply containsFold_true in E as (s&Hs&He). exists s. split; [|done]. apply (run_copies_keep asked). apply act_copies. by left.
  - exists (fa_Target a). split; [|apply fold_refl]. apply (run_copies_keep asked). apply act_copies. by right.
Qed.

Lemma appendUniqueFold_keep dst src t : t ∈ dst -> t ∈ appendUniqueFold dst src.
Proof. revert dst. unfold appendUniqueFold. induction src as [|v src IH]; intros dst Ht; cbn; [done|]. apply IH. case_match; [done|]. set_solver. Qed.
Lemma appendUniqueFold_from dst src t : t ∈ appendUniqueFold dst src -> t ∈ dst \/ t ∈ src.
Proof.
  revert dst. unfold appendUniqueFold. induction src as [|v src IH]; intros dst; cbn; [by left|].
  intros [Ht|?]%IH; [|right; by right]. case_match; [by left|]. apply elem_of_app in Ht as [?|?%list_elem_of_singleton]; [by left|].
  right. subst. by left.
Qed.
Lemma appendUniqueFold_all dst src t : t ∈ src -> exists s, s ∈ appendUniqueFold dst src /\ EqualFold s t = true.
Proof.
  revert dst. unfold appendUniqueFold. induction src as [|v src IH]; intros dst Ht; [by apply not_elem_of_nil in Ht|].
  apply elem_of_cons in Ht as [<-|Ht]; [|by apply IH]. cbn. destruct (containsFold dst t) eqn:E.
  - apply containsFold_true in E as (s&Hs&He). exists s. split; [|done]. by apply (appendUniqueFold_keep dst src).
  - exists t. split; [|apply fold_refl]. apply (appendUniqueFold_keep (dst ++ [t]) src). set_solver.
Qed.

(** Flags and tags. *)
Definition flag_of (p : string * FilterAction) : Z :=
  if is_kind "flag" p.2 then FlagFlagged else if is_kind "mark_read" p.2 then FlagSeen else 0.
Definition flags_of asked : Z := foldr (fun p f => Z.lor (flag_of p) f) 0 asked.
Definition asks_tag asked (t : string) : Prop := exists p, p ∈ asked /\ is_kind "tag" p.2 = true /\ t ∈ fa_Tags p.2.

Lemma act_flags u a o : oc_pendingFlags (act u a o) = Z.lor (oc_pendingFlags o) (flag_of (u, a)).
Proof. destruct o. unfold flag_of. by_kind a; rewrite ?Z.lor_0_r; try done. by destruct (String.eqb (fa_Target a) ""). Qed.
Lemma run_flags asked o : oc_pendingFlags (run_acts asked o) = Z.lor (oc_pendingFlags o) (flags_of asked).
Proof.
  revert o. unfold run_acts. induction asked as [|[u a] asked IH]; intros o; cbn; [by rewrite Z.lor_0_r|].
  by rewrite IH, act_flags, Z.lor_assoc.
Qed.
Lemma elem_of_appendUnique dst src t : t ∈ appendUnique dst src <-> t ∈ dst \/ t ∈ src.
Proof.
  revert dst. unfold appendUnique. induction src as [|v src IH]; intros dst; cbn; [set_solver|]. rewrite IH. case_bool_decide; set_solver.
Qed.
Lemma act_tags u a o t : t ∈ oc_tags (act u a o) <-> t ∈ oc_tags o \/ (is_kind "tag" a = true /\ t ∈ fa_Tags a).
Proof.
  assert (Hno : forall P (x : string) (l : list string), (x ∈ l <-> x ∈ l \/ (false = true /\ P))).
  { intros. split; [by left|]. by intros [?|[? _]]. }
  destruct o as [rs tm tg fl cs fs tags]. by_kind a; try apply Hno.
  - destruct (String.eqb (fa_Target a) ""); apply Hno.
  - rewrite elem_of_appendUnique. set_solver.
Qed.
Lemma run_tags asked o t : t ∈ oc_tags (run_acts asked o) <-> t ∈ oc_tags o \/ asks_tag asked t.
Proof.
  unfold asks_tag. revert o. unfold run_acts. induction asked as [|[u a] asked IH]; intros o; cbn; [set_solver|].
  rewrite IH, act_tags. setoid_rewrite elem_of_cons. naive_solver.
Qed.

(** ** The stage *)

Section Run.
Context (resolver : option (string -> result string)) (provider : string -> result (list FilterRule)) (parse : string -> Message).

(** The actions of the rules that match, with the user they belong to. *)
Definition asked_by (parsed : Message) (recipient : string) : list (string * FilterAction) :=
  match rule_owner resolver recipient with
  | None => []
  | Some u => match provider u with Err _ => [] | Ok rules => (fun a => (u, a)) <$> user_actions rules parsed end
  end.

Lemma recipients_run parsed rs o : foldl (recipient_turn resolver provider parsed) o rs = run_acts (rs ≫= asked_by parsed) o.
Proof.
  revert o. induction rs as [|r rs IH]; intros o; [done|]. cbn [foldl]. rewrite IH. unfold run_acts. rewrite bind_cons, foldl_app. f_equal.
  unfold recipient_turn, asked_by. destruct (rule_owner resolver r) as [u|]; [|done]. destruct (provider u) as [l|]; [|done].
  generalize (user_actions l parsed). intros acts. clear. revert o. induction acts as [|a acts IH]; intros o; [done|]. cbn. apply IH.
Qed.

(** The copies that survive: on spam, only those to Junk or Trash. *)
Definition wanted (env : QueueEnvelope) asked (t : string) : Prop :=
  asks_copy asked t /\ (EqualFold (qe_TargetMailbox env) "Junk" = true -> isJunkOrTrash t = true).
Definition kept (spam : bool) (copies : list string) : list string := if spam then List.filter isJunkOrTrash copies else copies.
Lemma elem_of_kept spam copies t : t ∈ kept spam copies <-> t ∈ copies /\ (spam = true -> isJunkOrTrash t = true).
Proof. unfold kept. destruct spam; [|naive_solver]. rewrite list_elem_of_In, filter_In, <- list_elem_of_In. naive_solver. Qed.
Lemma junk_fold s t : EqualFold s t = true -> isJunkOrTrash t = true -> isJunkOrTrash s = true.
Proof. unfold isJunkOrTrash. rewrite !orb_true_iff. intros Hst [?|?]; [left|right]; by eapply fold_trans. Qed.

Lemma kept_wanted env asked o t : oc_copies o = [] ->
  t ∈ kept (EqualFold (qe_TargetMailbox env) "Junk") (oc_copies (run_acts asked o)) -> wanted env asked t.
Proof.
  intros Ho [Ht Hj]%elem_of_kept. split; [|done]. apply run_copies_from in Ht as [Ht|?]; [|done].
  rewrite Ho in Ht. by apply not_elem_of_nil in Ht.
Qed.
Lemma wanted_kept env asked o t : wanted env asked t ->
  exists s, s ∈ kept (EqualFold (qe_TargetMailbox env) "Junk") (oc_copies (run_acts asked o)) /\ EqualFold s t = true.
Proof.
  intros [Ha Hj]. destruct (run_copies_all asked o t Ha) as (s&Hs&He). exists s. split; [|done]. apply elem_of_kept.
  split; [done|]. intros Hsp. by eapply junk_fold, Hj.
Qed.

(** C25: the rules stage does exactly what the matching rules ask.  The first
    move or delete wins; every forward is recorded for its own user, every
    flag and tag set, every copy made, and nothing else; spam filed in Junk
    leaves it only for Trash and is copied nowhere else; and a winning delete
    rejects the message only if no copy or forward would be lost with it. *)
Theorem rules_stage_honours_actions start elapsed env raw :
  let asked := qe_Recipients env ≫= asked_by (parse raw) in
  let spam := EqualFold (qe_TargetMailbox env) "Junk" in
  exists env' res, Process resolver provider parse start elapsed env (Ok raw) = Ok (env', res) /\
    qe_TargetMailbox env' =
      match first_terminal asked with
      | Some (Some t) => if spam && negb (isJunkOrTrash t) then qe_TargetMailbox env else t
      | _ => qe_TargetMailbox env
      end /\
    qe_ForwardRequests env' = qe_ForwardRequests env ++ forwards_of asked /\
    qe_PendingFlags env' = Z.lor (qe_PendingFlags env) (flags_of asked) /\
    (forall t, t ∈ qe_PendingTags env' <-> t ∈ qe_PendingTags env \/ asks_tag asked t) /\
    (forall t, wanted env asked t -> containsFold (qe_CopyMailboxes env') t = true) /\
    (forall t, t ∈ qe_CopyMailboxes env' -> t ∈ qe_CopyMailboxes env \/ wanted env asked t) /\
    (sr_Action res = "pass" \/ sr_Action res = "reject") /\
    (sr_Action res = "reject" <-> first_terminal asked = Some None /\ forwards_of asked = [] /\ forall t, ~ wanted env asked t) /\
    (qe_DiscardNormal env' = true <-> qe_DiscardNormal env = true \/ (first_terminal asked = Some None /\ sr_Action res = "pass")).
Proof.
  cbv zeta. unfold Process. cbn [wrapf result_bind]. rewrite recipients_run.
  set (asked := _ ≫= _). set (init := mkOutcome _ _ _ _ _ _ _). set (spam := EqualFold _ _).
  assert (Hsane : sane init) by (left).
  pose proof (run_sane asked init Hsane) as Hs. pose proof (run_held asked init Hsane) as Hh.
  pose proof (run_forwards asked init) as Hf. pose proof (run_flags asked init) as Hfl. pose proof (fun t => run_tags asked init t) as Ht.
  pose proof (fun t => kept_wanted env asked init t eq_refl) as Hkw. pose proof (fun t => wanted_kept env asked init t) as Hwk. fold spam in Hkw, Hwk.
  destruct (run_acts asked init) as [rs tm tg fl cs fs tags]. unfold sane, held in Hs, Hh. cbn in Hs, Hh, Hf, Hfl, Ht, Hkw, Hwk.
  change (if spam then List.filter isJunkOrTrash cs else cs) with (kept spam cs). subst fs fl.
  eexists _, _. split; [reflexivity|]. cbn [set_routing qe_TargetMailbox qe_ForwardRequests qe_PendingFlags qe_PendingTags qe_CopyMailboxes qe_DiscardNormal sr_Action].
  set (saved := negb (Nat.eqb (length (kept spam cs)) 0) || _).
  assert (Hsaved : saved = false <-> forwards_of asked = [] /\ forall t, ~ wanted env asked t).
  { unfold saved. rewrite orb_false_iff, !negb_false_iff, !Nat.eqb_eq, !length_zero_iff_nil. split.
    - intros [Hk ?]. split; [done|]. intros t (s&Hin&_)%Hwk. rewrite Hk in Hin. by apply not_elem_of_nil in Hin.
    - intros [? Hw]. split; [|done]. destruct (kept spam cs) as [|t k]; [done|]. exfalso. apply (Hw t), Hkw. by left. }
  rewrite <- Hh, <- Hsaved. clear Hsaved. generalize dependent saved. intros saved. split_and!; try done.
  - assert (tm = "" \/ tm = "move" \/ tm = "delete") as [-> | [-> | ->]] by set_solver; cbn; [done| |done].
    destruct spam, (isJunkOrTrash tg); reflexivity.
  - intros t (s&Hin&He)%Hwk. destruct (appendUniqueFold_all (qe_CopyMailboxes env) (kept spam cs) s Hin) as (x&Hx&Hxs).
    apply containsFold_true. exists x. split; [done|]. by eapply fold_trans.
  - intros t [?|?]%appendUniqueFold_from; [by left|right]. by apply Hkw.
  - destruct (_ && _); [by right|by left].
  - assert (tm = "" \/ tm = "move" \/ tm = "delete") as [-> | [-> | ->]] by set_solver; cbn; destruct saved; naive_solver.
  - assert (tm = "" \/ tm = "move" \/ tm = "delete") as [-> | [-> | ->]] by set_solver; cbn; destruct saved; naive_solver.
Qed.
End Run.
End Stage.

(** * Evaluation *)

Section Demo.
#[local] Existing Instance bytewise_unicode.
Definition demo_regexp : GoRegexp := fun _ => None.
#[local] Existing Instance demo_regexp.
Lemma bytewise_fold s t : EqualFold s t = String.eqb (str_map lower_char s) (str_map lower_char t).
Proof. unfold EqualFold. by destruct (is_ascii s && is_ascii t). Qed.
#[local] Instance bytewise_fold_laws : FoldLaws.
Proof.
  split.
  - intros s. rewrite bytewise_fold. apply String.eqb_refl.
  - intros s t r. rewrite !bytewise_fold. intros E1%String.eqb_eq E2%String.eqb_eq. apply String.eqb_eq. congruence.
Qed.

Definition demo_mail_meta : MailMeta :=
  mkMailMeta "" "" "big sale" "shop@example.org" [] 0 None [] "" 0 "" "" [] 0 "" "" "" "" [] [] "" "" "".
Definition demo_message : Message := mkMessage demo_mail_meta ∅ "" [].
(** A rule that deletes, forwards and copies the mail of a sender. *)
Definition demo_rules : list FilterRule :=
  [mkRule "r1" "" 1 true [mkCondition "From" "contains" "SHOP"] None true 0 0
     [mkAction "delete" "" []; mkAction "forward" "me@elsewhere.example" []; mkAction "copy" "Shop" []] "any"].
Definition demo_env : QueueEnvelope := mkEnvelope "e1" "" ["u1"] 0 "" "" 0 "" [] "" "Junk" [] [] false "" [] 0 [] false "" "" 0 "" "".

(** On spam the copy is dropped, the forward is kept and with it the message. *)
Lemma rules_stage_honours_actions_witness :
  exists env' res, Process None (fun _ => Ok demo_rules) (fun _ => demo_message) 0 0 demo_env (Ok "raw") = Ok (env', res) /\
    qe_ForwardRequests env' = [mkForward "u1" "me@elsewhere.example"] /\ qe_TargetMailbox env' = "Junk" /\
    (forall t, t ∈ qe_CopyMailboxes env' -> isJunkOrTrash t = true) /\ sr_Action res <> "reject".
Proof.
  destruct (rules_stage_honours_actions None (fun _ => Ok demo_rules) (fun _ => demo_message) 0 0 demo_env "raw")
    as (env'&res&Hp&Ht&Hf&_&_&_&Hc&_&Ha&_).
  exists env', res. split; [exact Hp|]. split; [rewrite Hf; vm_compute; reflexivity|]. split; [rewrite Ht; vm_compute; reflexivity|]. split.
  - intros t Hin. destruct (Hc t Hin) as [Hin'|[_ Hj]]; [exfalso; exact (not_elem_of_nil _ Hin')|]. apply Hj. vm_compute. reflexivity.
  - intros Hr. destruct (proj1 Ha Hr) as (_&Hn&_). vm_compute in Hn. discriminate Hn.
Defined.
End Demo.
