(* ===== verification/RulesMigrate.v ===== *)
(** The first-match migration keeps the effect of the rules it rewrites. *)

From S2P Require Import Prelude GoStrings Pebble Proto UserData Rules.
From Stdlib Require Import Ascii.

(** * Lists and scans *)

Lemma insert_stable_fmap {A} (less : A -> A -> bool) (f : A -> A) x l :
  (forall a b, less (f a) (f b) = less a b) -> insert_stable less (f x) (f <$> l) = f <$> insert_stable less x l.
Proof. intros Hf. induction l as [|y l IH]; [done|]. cbn. rewrite Hf. case_match; [|done]. cbn. f_equal. apply IH. Qed.
Lemma SliceStable_fmap {A} (less : A -> A -> bool) (f : A -> A) l :
  (forall a b, less (f a) (f b) = less a b) -> SliceStable less (f <$> l) = f <$> SliceStable less l.
Proof.
  intros Hf. unfold SliceStable. induction l as [|x l IH]; [done|]. cbn [fmap list_fmap foldr]. rewrite IH. by apply insert_stable_fmap.
Qed.

(** Two stores that agree up to a change of values under a prefix are scanned
    in the same order. *)
Lemma scan_change p m m' (g : string -> string -> string) :
  (forall k, String.prefix p k = true -> m' !! k = g k <$> m !! k) ->
  scan p m' = (fun kv => (kv.1, g kv.1 kv.2)) <$> scan p m.
Proof.
  intros Hg. assert (Hin : forall k v, (k, v) ∈ scan p m' <-> (k, v) ∈ ((fun kv => (kv.1, g kv.1 kv.2)) <$> scan p m)).
  { intros k v. rewrite elem_of_scan, list_elem_of_fmap. split.
    - intros [Hm Hp]. rewrite (Hg k Hp) in Hm. apply fmap_Some in Hm as (w&Hw&->). exists (k, w). split; [done|]. by apply elem_of_scan.
    - intros ([k' w]&E&[Hm Hp]%elem_of_scan). cbn in E. injection E as -> ->. split; [|exact Hp]. by rewrite (Hg k' Hp), Hm. }
  assert (Hs : StronglySorted key_le ((fun kv => (kv.1, g kv.1 kv.2)) <$> scan p m)).
  { pose proof (range_sorted p (prefixUpperBound p) m) as Hr. fold (scan p m) in Hr. clear Hin Hg. induction Hr as [|x l Hr IH Hall]; [constructor|].
    cbn. constructor; [exact IH|]. apply Forall_fmap. eapply Forall_impl; [exact Hall|]. intros kv Hkv. exact Hkv. }
  assert (Hnd : NoDup ((fun kv : string * string => (kv.1, g kv.1 kv.2)) <$> scan p m).*1).
  { rewrite <- list_fmap_compose. apply range_NoDup. }
  apply (StronglySorted_unique_strong key_le); [|apply range_sorted|exact Hs|].
  - intros [k1 v1] [k2 v2] H1 H2 Hle Hge. unfold key_le in *. cbn in *. assert (k1 = k2) as -> by by apply str_le_antisym.
    apply Hin in H1. f_equal. rewrite list_elem_of_fmap in H1, H2.
    destruct H1 as ([a x]&[= -> ->]&Hx%elem_of_scan), H2 as ([b y]&[= -> ->]&Hy%elem_of_scan). destruct Hx, Hy. congruence.
  - apply NoDup_Permutation.
    + eapply NoDup_fmap_1. apply (range_NoDup p (prefixUpperBound p) m').
    + by eapply NoDup_fmap_1.
    + intros [k v]. apply Hin.
Qed.

(** * The engine on migrated rules *)

Section Engine.
Context `{GoUnicode} `{GoRegexp}.

Lemma migrated_actions rule : fr_Actions rule = [] -> RuleActions (migrated rule) = RuleActions rule.
Proof. unfold RuleActions, migrated, with_stop. intros Ha. destruct rule as [? ? ? ? ? [a|] ? ? ? ? ?]; cbn in *; subst; done. Qed.
Lemma migrated_match rule msg : matchConditions (migrated rule) msg = matchConditions rule msg.
Proof. unfold migrated, matchConditions. by destruct rule as [? ? ? ? ? [a|] ? ? ? ? ?]. Qed.
Lemma migrated_fields rule : fr_Enabled (migrated rule) = fr_Enabled rule /\ fr_StopProcessing (migrated rule) = true.
Proof. by destruct rule as [? ? ? ? ? [a|] ? ? ? ? ?]. Qed.
Lemma migrated_less a b : rule_less (migrated a) (migrated b) = rule_less a b.
Proof. by destruct a as [? ? ? ? ? [?|] ? ? ? ? ?], b as [? ? ? ? ? [?|] ? ? ? ? ?]. Qed.

(** Running every matching rule after the migration is running the first
    matching rule before it. *)
Lemma migrated_first_match rules msg : Forall (fun r => fr_Actions r = []) rules ->
  MatchingRules (migrated <$> rules) msg ≫= RuleActions = option_list (Evaluate rules msg).
Proof.
  induction 1 as [|rule rules Ha Hall IH]; [done|]. cbn [fmap list_fmap MatchingRules Evaluate].
  destruct (migrated_fields rule) as [-> ->]. rewrite migrated_match. destruct (fr_Enabled rule); [|done]. cbn [negb].
  destruct (matchConditions rule msg); cbn [negb]; [|done]. rewrite bind_cons. cbn [mbind list_bind]. rewrite app_nil_r, migrated_actions by done.
  unfold RuleActions. rewrite Ha. by destruct (fr_Action rule).
Qed.
End Engine.

(** * The store *)

Section Migrate.
Context {DB : Type} `{UserApplier DB} `{ProtoLaws FilterRule}.
Implicit Types (s : DB) (m : gmap string string).

(** A rule of the old shape, and a record that holds its migrated form. *)
Definition legacy m k (rule : FilterRule) : Prop :=
  is_rule_key k = true /\ HasPrefix k "/user/" = true /\
  exists v, m !! k = Some v /\ unmarshal v = Ok rule /\ fr_Actions rule = [].
Definition rewritten m k (rule : FilterRule) : Prop := exists v, m !! k = Some v /\ unmarshal v = Ok (migrated rule).

Lemma elem_of_pending_rules (l : list (string * string)) k rule :
  (k, rule) ∈ pending_rules ((fun kv => (kv.1, Ok kv.2)) <$> l) <->
  is_rule_key k = true /\ exists v, (k, v) ∈ l /\ unmarshal v = Ok rule /\ fr_Actions rule = [].
Proof.
  induction l as [|[k0 v0] l IH]; cbn; [split; [by intros ?%not_elem_of_nil|by intros (_&?&?%not_elem_of_nil&_)]|].
  setoid_rewrite elem_of_cons. destruct (is_rule_key k0) eqn:Ek; cbn; [|rewrite IH; naive_solver congruence].
  destruct (unmarshal v0) as [r0|e] eqn:Eu; [|rewrite IH; naive_solver congruence].
  destruct (fr_Actions r0) eqn:Ea; [|rewrite IH; naive_solver congruence].
  rewrite elem_of_cons, IH. naive_solver congruence.
Qed.
Lemma pending_keys (l : list (string * string)) : (pending_rules ((fun kv => (kv.1, Ok kv.2)) <$> l)).*1 `sublist_of` l.*1.
Proof.
  induction l as [|[k v] l IH]; cbn; [constructor|]. repeat case_match; cbn; by constructor.
Qed.

Lemma legacy_scan s : healthy s ->
  exists l, PrefixScan s "/user/" = Ok l /\ NoDup (pending_rules l).*1 /\
    forall k rule, (k, rule) ∈ pending_rules l <-> legacy (contents s) k rule.
Proof.
  intros Hs. rewrite PrefixScan_healthy by done. eexists. split; [done|]. split.
  - eapply sublist_NoDup; [|apply pending_keys]. apply range_NoDup.
  - intros k rule. rewrite elem_of_pending_rules. unfold legacy, HasPrefix. setoid_rewrite elem_of_scan. naive_solver.
Qed.

Lemma legacy_not_superseded s k rule : healthy s -> legacy (contents s) k rule -> superseded s k = false.
Proof. intros Hs (_&_&v&Hv&Hu&Ha). unfold superseded. rewrite Get_healthy, Hv by done. cbn. by rewrite Hu, Ha. Qed.

(** One write of the loop. *)
Lemma migrate_step n s s' r k rule data :
  healthy s -> uready (S n) s -> legacy (contents s) k rule -> marshal (migrated rule) = Ok data ->
  ApplyCommand (mkCmd OP_PUT k data) s = (s', r) ->
  healthy s' /\ uready n s' /\
  (forall k', HasPrefix k' "/user/" = true -> k' <> k -> contents s' !! k' = contents s !! k') /\
  (if is_ok r then rewritten (contents s') k rule else contents s' !! k = contents s !! k).
Proof.
  intros Hs Hr (_&Hk&_) Hm Ha. destruct (uap_put n k data s s' r Hr Hs Hk Ha) as (Hs'&Hr'&Hc).
  assert (Hown : forall k', HasPrefix k' "/user/" = true -> uown k' = false).
  { intros k' Hk'. destruct (uown k') eqn:E; [|done]. apply uown_user in E. congruence. }
  split_and!; [done..| |].
  - intros k' Hk' Hne. rewrite Hc by auto. destruct (is_ok r); [by rewrite lookup_insert_ne|done].
  - specialize (Hc k (Hown k Hk)). destruct (is_ok r); [|done]. exists data. rewrite Hc, lookup_insert_eq.
    split; [done|]. by apply proto_roundtrip.
Qed.

Lemma legacy_other s s' k k0 rule : (forall k', HasPrefix k' "/user/" = true -> k' <> k0 -> contents s' !! k' = contents s !! k') ->
  k <> k0 -> legacy (contents s) k rule -> legacy (contents s') k rule.
Proof. intros Hc Hne (Hr&Hk&v&Hv&?). split_and!; [done..|]. exists v. by rewrite Hc. Qed.

Lemma migrate_all_spec todo written s s' n r :
  healthy s -> uready (length todo) s -> NoDup todo.*1 -> (forall k rule, (k, rule) ∈ todo -> legacy (contents s) k rule) ->
  migrate_all todo written s = (s', (n, r)) ->
  healthy s' /\
  (forall k, HasPrefix k "/user/" = true -> k ∉ todo.*1 -> contents s' !! k = contents s !! k) /\
  (forall k rule, (k, rule) ∈ todo -> contents s' !! k = contents s !! k \/ rewritten (contents s') k rule) /\
  (r = None -> n = written + Z.of_nat (length todo) /\ forall k rule, (k, rule) ∈ todo -> rewritten (contents s') k rule).
Proof.
  revert written s. induction todo as [|[k0 r0] todo IH]; intros written s Hs Hr Hnd Hall; cbn [migrate_all].
  { intros [= <- <- <-]. split_and!; [done|done|set_solver|]. intros _. cbn. split; [lia|set_solver]. }
  destruct (marshal (migrated r0)) as [data|e] eqn:Em; [|intros [= <- <- <-]; split_and!; by auto].
  pose proof (Hall k0 r0 ltac:(left)) as Hleg. rewrite (legacy_not_superseded s k0 r0) by done.
  destruct (ApplyCommand (mkCmd OP_PUT k0 data) s) as [s1 r1] eqn:Ea.
  destruct (migrate_step (length todo) s s1 r1 k0 r0 data Hs Hr Hleg Em Ea) as (Hs1&Hr1&Hoth&Hown).
  apply NoDup_cons in Hnd as [Hn0 Hnd]. cbn [fst] in Hn0. destruct r1 as [u|e]; cbn in Hown.
  - intros Hm. assert (Hall1 : forall k rule, (k, rule) ∈ todo -> legacy (contents s1) k rule).
    { intros k rule Hin. eapply legacy_other; [exact Hoth| |apply Hall; by right]. intros ->. apply Hn0, list_elem_of_fmap. by exists (k0, rule). }
    destruct (IH _ _ Hs1 Hr1 Hnd Hall1 Hm) as (Hs'&Hout&Hin&Hnone).
    assert (Hk0 : rewritten (contents s') k0 r0).
    { destruct Hown as (v&Hv&Hu). exists v. split; [|done]. rewrite Hout; [done|by apply Hleg|done]. }
    split_and!; [done| | |].
    + intros k Hk [Hne Hni]%not_elem_of_cons. rewrite Hout by done. by apply Hoth.
    + intros k rule [[= -> ->]|Hkr]%elem_of_cons; [by right|]. destruct (Hin k rule Hkr) as [E|?]; [left|by right]. rewrite E.
      apply Hoth; [by eapply Hall; right|]. intros ->. apply Hn0, list_elem_of_fmap. by exists (k0, rule).
    + intros Hr0. destruct (Hnone Hr0) as [-> Hw]. split; [cbn; lia|]. intros k rule [[= -> ->]|?]%elem_of_cons; [done|by apply Hw].
  - intros [= <- <- <-]. split_and!; [done| | |done].
    + intros k Hk [Hne _]%not_elem_of_cons. by apply Hoth.
    + intros k rule Hkr. left. destruct (decide (k = k0)) as [->|Hne]; [done|]. apply Hoth; [|done]. by eapply Hall.
Qed.

(** ** The lists of a user *)

(** User names and rule identifiers hold no slash. *)
Definition tidy m (u : string) : Prop :=
  has_char "/" u = false /\
  forall k v, m !! k = Some v -> HasPrefix k (rulePrefix u) = true -> exists id, k = ruleKey u id /\ has_char "/" id = false.

Lemma ruleKey_is_rule u id : has_char "/" u = false -> has_char "/" id = false -> is_rule_key (ruleKey u id) = true.
Proof.
  intros Hu Hi. unfold is_rule_key, Split, ruleKey.
  replace ("/user/" +:+ u +:+ "/rule/" +:+ id) with ("" +:+ "/" +:+ "user" +:+ "/" +:+ u +:+ "/" +:+ "rule" +:+ "/" +:+ id) by done.
  rewrite !str_length_app. cbn [String.length Nat.add]. rewrite SplitN_cons by done.
  rewrite SplitN_cons by done. rewrite Nat.add_comm. cbn [Nat.add]. rewrite SplitN_cons by done. rewrite SplitN_cons by done.
  by rewrite SplitN_one.
Qed.
Lemma rule_user_key k u : HasPrefix k (rulePrefix u) = true -> HasPrefix k "/user/" = true.
Proof. unfold HasPrefix, rulePrefix. rewrite !prefix_spec. intros [r ->]. eexists. by rewrite str_app_assoc. Qed.

Lemma rules_of_healthy (l : list (string * string)) :
  rules_of ((fun kv => (kv.1, Ok kv.2)) <$> l) = omap (fun kv => match unmarshal kv.2 with Ok r => Some r | Err _ => None end) l.
Proof. induction l as [|[k v] l IH]; [done|]. cbn. rewrite IH. by destruct (unmarshal v). Qed.

(** What the migration makes of a user's list of rules of the old shape. *)
Lemma migrated_list s s' u rules :
  healthy s -> healthy s' -> tidy (contents s) u ->
  (forall k, HasPrefix k "/user/" = true -> (forall rule, ~ legacy (contents s) k rule) -> contents s' !! k = contents s !! k) ->
  (forall k rule, legacy (contents s) k rule -> rewritten (contents s') k rule) ->
  List_ s u = Ok rules -> Forall (fun r => fr_Actions r = []) rules ->
  List_ s' u = Ok (migrated <$> rules).
Proof.
  intros Hs Hs' [Hu Htidy] Hkeep Hmig. unfold List_. rewrite !PrefixScan_healthy by done. cbn [wrapf result_bind]. intros [= <-] Hold.
  rewrite !rules_of_healthy in *. rewrite <- SliceStable_fmap by apply migrated_less. do 2 f_equal.
  set (g := fun k v => default v (contents s' !! k)). rewrite (scan_change (rulePrefix u) (contents s) (contents s') g).
  - assert (Hall : forall k v r, (k, v) ∈ scan (rulePrefix u) (contents s) -> unmarshal v = Ok r -> fr_Actions r = []).
    { intros k v r Hin Hr. eapply (proj1 (Forall_forall _ _) Hold). rewrite SliceStable_Permutation.
      apply list_elem_of_omap. exists (k, v). split; [done|]. cbn. by rewrite Hr. }
    assert (Hsub : forall k v, (k, v) ∈ scan (rulePrefix u) (contents s) -> contents s !! k = Some v /\ HasPrefix k (rulePrefix u) = true)
      by (intros k v; apply elem_of_scan).
    revert Hall Hsub. generalize (scan (rulePrefix u) (contents s)). intros l. clear Hold. induction l as [|[k v] l IH]; intros Hall Hsub; [done|].
    cbn [fmap list_fmap omap list_omap fst snd]. rewrite IH by (intros; first [eapply Hall; [by right|done]|apply Hsub; by right]).
    destruct (Hsub k v ltac:(left)) as [Hv Hp]. unfold g. destruct (unmarshal v) as [r|e] eqn:Er.
    + destruct (Htidy k v Hv Hp) as (rid&->&Hid). destruct (Hmig (ruleKey u rid) r) as (w&Hw&Huw).
      { split_and!; [by apply ruleKey_is_rule|by eapply rule_user_key|]. exists v. split_and!; [done..|]. by eapply Hall; [left|]. }
      rewrite Hw. cbn [default from_option id]. by rewrite Huw.
    + assert (E : contents s' !! k = contents s !! k).
      { apply Hkeep; [by eapply rule_user_key|]. intros rule (_&_&w&Hw&Hr&_). congruence. }
      rewrite E, Hv. cbn [default from_option id]. by rewrite Er.
  - intros k Hp. unfold g. destruct (contents s !! k) as [v|] eqn:Hv; cbn.
    + destruct (unmarshal v) as [r|e] eqn:Er; [|].
      * destruct (Htidy k v Hv Hp) as (rid&->&Hid). destruct (fr_Actions r) eqn:Ea.
        -- destruct (Hmig (ruleKey u rid) r) as (w&Hw&_); [|by rewrite Hw].
           split_and!; [by apply ruleKey_is_rule|by eapply rule_user_key|]. by exists v.
        -- rewrite Hkeep, Hv; [done|by eapply rule_user_key|]. intros rule (_&_&w&Hw&Hr&?). congruence.
      * rewrite Hkeep, Hv; [done|by eapply rule_user_key|]. intros rule (_&_&w&Hw&Hr&_). congruence.
    + rewrite Hkeep, Hv; [done|by eapply rule_user_key|]. intros rule (_&_&w&Hw&_). congruence.
Qed.

Lemma scan_length p m : (length (scan p m) <= size m)%nat.
Proof.
  unfold scan, range. rewrite merge_sort_Permutation.
  etransitivity; [apply length_filter|]. by rewrite length_map_to_list.
Qed.
Lemma pending_length s l : healthy s -> PrefixScan s "/user/" = Ok l -> (length (pending_rules l) <= size (contents s))%nat.
Proof.
  intros Hs. rewrite PrefixScan_healthy by done. intros [= <-]. rewrite <- (length_fmap fst).
  etransitivity; [apply sublist_length, pending_keys|]. rewrite length_fmap. apply scan_length.
Qed.

Context `{GoUnicode} `{GoRegexp}.

(** The migration keeps what the rules do.  Whatever its outcome, a record
    of user data is as it was, or was a rule of the old shape and is now its
    migrated form, so a run that stops half-way can be resumed.  When it
    completes, then for a user whose rules were all of the old shape, running
    the actions of every matching rule is running the action of the first
    matching rule before, on every message. *)
Theorem migration_keeps_first_match closed s s' n r :
  healthy s -> uready (size (contents s)) s -> MigrateFirstMatch closed s = (s', (n, r)) ->
  (forall k, HasPrefix k "/user/" = true ->
     contents s' !! k = contents s !! k \/
     exists rule, legacy (contents s) k rule /\ rewritten (contents s') k rule) /\
  (r = None -> forall u rules, tidy (contents s) u -> List_ s u = Ok rules -> Forall (fun x => fr_Actions x = []) rules ->
     exists rules', List_ s' u = Ok rules' /\
       forall msg, MatchingRules rules' msg ≫= RuleActions = option_list (Evaluate rules msg)).
Proof.
  intros Hs Hr. unfold MigrateFirstMatch. destruct (legacy_scan s Hs) as (l&Hl&Hnd&Hleg). rewrite Hl.
  destruct closed as [e|]; [intros [= <- <- <-]; split; [by left|done]|]. intros Hm.
  destruct (migrate_all_spec (pending_rules l) 0 s s' n r) as (Hs'&Hout&Hin&Hnone); [done| |done| |done|].
  { eapply uready_le; [by eapply pending_length|done]. }
  { intros k rule. apply Hleg. }
  assert (Hkeep : forall k, HasPrefix k "/user/" = true -> (forall rule, ~ legacy (contents s) k rule) -> contents s' !! k = contents s !! k).
  { intros k Hk Hno. apply Hout; [done|]. intros ([k' rule]&->&Hkr)%list_elem_of_fmap. by apply (Hno rule), Hleg. }
  split.
  - intros k Hk. destruct (decide (k ∈ (pending_rules l).*1)) as [Hkl|Hkl]; [|left; by apply Hout].
    apply list_elem_of_fmap in Hkl as ([k' rule]&->&Hkr). destruct (Hin _ _ Hkr) as [?|?]; [by left|right]. exists rule. by rewrite <- Hleg.
  - intros Hr0 u rules Ht HL Hold. destruct (Hnone Hr0) as [_ Hall]. exists (migrated <$> rules). split.
    + eapply migrated_list; [exact Hs|done..| |done|done]. intros k rule Hk. apply Hall, Hleg, Hk.
    + intros msg. by apply migrated_first_match.
Qed.
End Migrate.
