(* ===== verification/Directory.v ===== *)
(** The directory of addresses and domains: [internal/store/address_store.go],
    [domain_hosted.go], [domain_alias.go], [catchall_store.go], [sendas.go]
    and [user_domain.go].

    Pebble is the source of truth.  The SQLite system index is two tables and a
    flag that makes every statement fail; its statements are those of the
    source. *)

From S2P Require Import Prelude GoStrings Pebble Proto UserData Acl.
From Stdlib Require Import Ascii.

(** * address.proto *)

Record AddressRecord := mkAddr {
  ar_UserId : string; ar_Domain : string; ar_Kind : string; ar_CanSend : bool; ar_Verified : bool }.
#[global] Instance AddressRecord_eq_dec : EqDecision AddressRecord.
Proof. solve_decision. Defined.
#[global] Instance AddressRecord_countable : Countable AddressRecord.
Proof.
  apply (inj_countable' (fun r => (ar_UserId r, ar_Domain r, ar_Kind r, ar_CanSend r, ar_Verified r))
           (fun '(a, b, c, d, e) => mkAddr a b c d e)).
  by intros [].
Defined.

Record ForwardTarget := mkFwdTarget { ft_State : string; ft_UpdatedAt : Z }.
#[global] Instance ForwardTarget_eq_dec : EqDecision ForwardTarget.
Proof. solve_decision. Defined.
#[global] Instance ForwardTarget_countable : Countable ForwardTarget.
Proof. apply (inj_countable' (fun f => (ft_State f, ft_UpdatedAt f)) (fun '(a, b) => mkFwdTarget a b)). by intros []. Defined.

(** * The system index *)

Record AddrRow := mkRow {
  row_user : string; row_domain : string; row_kind : string; row_can_send : bool; row_verified : bool; row_created : Z }.
(** [si_users] maps a username to the account and its enabled flag. *)
Record SystemIndex := mkIndex {
  si_addresses : gmap string AddrRow; si_users : gmap string (string * bool); si_down : option err }.

Definition sql_exec (f : gmap string AddrRow -> gmap string AddrRow) : GoM SystemIndex unit := fun si =>
  match si_down si with
  | Some e => (si, Err e)
  | None => (mkIndex (f (si_addresses si)) (si_users si) None, Ok tt)
  end.
(** On a conflict the row keeps its creation time. *)
Definition sql_upsert (address : string) (r : AddrRow) (t : gmap string AddrRow) : gmap string AddrRow :=
  let created := match t !! address with Some old => row_created old | None => row_created r end in
  <[address := mkRow (row_user r) (row_domain r) (row_kind r) (row_can_send r) (row_verified r) created]> t.

(** * Scans *)

(** A loop over an iterator that appends some values and may return an error. *)
Fixpoint collect {A} (f : string -> result string -> result (option A)) (l : list (string * result string)) : result (list A) :=
  match l with
  | [] => Ok []
  | (k, v) :: l' =>
      let? o := f k v in
      let? rest := collect f l' in
      Ok (match o with Some a => a :: rest | None => rest end)
  end.

Definition string_sort (l : list string) : list string := SliceStable (fun a b => bool_decide (str_lt a b)) l.

Section Directory.
Context {DB : Type} `{PebbleDB DB} `{Codec AddressRecord} `{Codec UserProfile} `{Codec ForwardTarget} `{RaftApplier DB} `{GoUnicode}.
Implicit Types ps : DB.

(** * Addresses *)

Definition addressKey (addr : string) : string := "/system/address/" +:+ ToLower addr.
Definition NormaliseAddress (addr : string) : string := ToLower (TrimSpace addr).

(** The store and the system index of a node ([None]: an edge node). *)
Definition AddrState : Type := DB * option SystemIndex.
Definition on_db {A} (m : GoM DB A) : GoM AddrState A := fun '(ps, si) => let (ps', r) := m ps in ((ps', si), r).
Definition on_index (m : GoM SystemIndex unit) : GoM AddrState unit := fun '(ps, si) =>
  match si with
  | None => ((ps, None), Ok tt)
  | Some si => let (si', r) := m si in ((ps, Some si'), r)
  end.

Definition addr_Put (now : Z) (address : string) (rec : AddressRecord) : GoM AddrState unit :=
  let address := ToLower address in
  let what := "address store put " +:+ quote address in
  let rec := mkAddr (ar_UserId rec) (ToLower (ar_Domain rec)) (ar_Kind rec) (ar_CanSend rec) (ar_Verified rec) in
  let! data := glift (wrapf (what +:+ ": marshaling") (marshal rec)) in
  let! _ := gwrap (what +:+ ": raft") (on_db (ApplyCommand (mkCmd OP_PUT (addressKey address) data))) in
  gwrap (what +:+ ": sqlite upsert")
    (on_index (sql_exec (sql_upsert address
       (mkRow (ar_UserId rec) (ar_Domain rec) (ar_Kind rec) (ar_CanSend rec) (ar_Verified rec) (unix_of now))))).

Definition addr_Get ps (address : string) : result (option AddressRecord) :=
  match Get ps (addressKey address) with
  | Err e => if errors_is e ErrNotFound then Ok None else Err (Wrap ("address store get " +:+ quote address) e)
  | Ok data => let? rec := wrapf ("address store get " +:+ quote address +:+ ": unmarshal") (unmarshal data) in Ok (Some rec)
  end.

Definition addr_Delete (address : string) : GoM AddrState unit :=
  let address := ToLower address in
  let what := "address store delete " +:+ quote address in
  let! _ := gwrap (what +:+ ": raft") (on_db (ApplyCommand (mkCmd OP_DELETE (addressKey address) ""))) in
  gwrap (what +:+ ": sqlite") (on_index (sql_exec (delete address))).

Definition addr_ListByUser (st : AddrState) (userID : string) : result (list string) :=
  match st.2 with
  | None => Ok []
  | Some si =>
      match si_down si with
      | Some e => Err (Wrap ("address store list by user " +:+ quote userID) e)
      | None => Ok (string_sort ((filter (fun kr => row_user kr.2 = userID) (map_to_list (si_addresses si))).*1))
      end
  end.

(** * Domains *)

Definition domainPrefix : string := "/system/domain/".
(** [""] and not hosted, or the stored state. *)
Definition domainState ps (domain : string) : result (string * bool) :=
  match Get ps (domainPrefix +:+ ToLower domain) with
  | Ok data => Ok (data, true)
  | Err e => if errors_is e ErrNotFound then Ok ("", false) else Err (Wrap ("checking domain " +:+ domain) e)
  end.
Definition DomainHosted ps (domain : string) : result bool := let? (_, hosted) := domainState ps domain in Ok hosted.
Definition DomainDisabled ps (domain : string) : result bool :=
  let? (state, _) := domainState ps domain in Ok (String.eqb state "disabled").

Definition DomainAliasOfKey (domain : string) : string := domainPrefix +:+ ToLower (TrimSpace domain) +:+ "/alias_of".
Definition validAliasName (name : string) : bool := negb (String.eqb name "") && negb (Contains name "/").
Definition DomainAliasOf ps (d : string) : result (option string) :=
  let d := ToLower (TrimSpace d) in
  if negb (validAliasName d) then Ok None else
  match Get ps (DomainAliasOfKey d) with
  | Err e => if errors_is e ErrNotFound then Ok None else Err (Wrap ("read alias_of for " +:+ d) e)
  | Ok data =>
      let target := ToLower (TrimSpace data) in
      Ok (if validAliasName target then Some target else None)
  end.

(** The alias of a [.../alias_of] key, if its name is plain. *)
Definition alias_of_name (key : string) : option string :=
  let rest := TrimPrefix key domainPrefix in
  if HasSuffix rest "/alias_of" then
    let name := TrimSuffix rest "/alias_of" in
    if String.eqb name "" || Contains name "/" then None else Some name
  else None.
Definition AliasDomains ps : result (gmap string string) :=
  let? it := wrapf "scan domain aliases" (PrefixScan ps domainPrefix) in
  let? l := collect (fun k v =>
    match alias_of_name k with
    | None => Ok None
    | Some name =>
        let? val := wrapf ("read alias_of for " +:+ name) (iter_value v) in
        let t := ToLower (TrimSpace val) in
        Ok (if validAliasName t then Some (ToLower name, t) else None)
    end) it in
  Ok (foldl (fun m '(name, t) => <[name := t]> m) ∅ l).
Definition DomainAliases ps (target : string) : result (list string) :=
  let? all := AliasDomains ps in
  let target := ToLower (TrimSpace target) in
  Ok (string_sort ((filter (fun kt => kt.2 = target) (map_to_list all)).*1)).

Definition CatchAllKey (domain : string) : string := "/system/catchall/" +:+ ToLower domain.
Definition catchall_Set (domain ownerUserID : string) : GoM DB unit :=
  gwrap ("catch-all store set " +:+ quote domain +:+ ": raft") (ApplyCommand (mkCmd OP_PUT (CatchAllKey domain) ownerUserID)).
Definition catchall_Clear (domain : string) : GoM DB unit :=
  gwrap ("catch-all store clear " +:+ quote domain +:+ ": raft") (ApplyCommand (mkCmd OP_DELETE (CatchAllKey domain) "")).
Definition catchall_Get ps (domain : string) : result (option string) :=
  match Get ps (CatchAllKey domain) with
  | Err e => if errors_is e ErrNotFound then Ok None else Err (Wrap ("catch-all store get " +:+ quote domain) e)
  | Ok data => let ownerID := TrimSpace data in Ok (if String.eqb ownerID "" then None else Some ownerID)
  end.

(** * Accounts *)

Definition userProfileExists ps (userID : string) : bool :=
  if String.eqb userID "" then false else
  match Get ps (profileKey userID) with Ok data => negb (String.eqb data "") | Err _ => false end.

(** Whether the profile exists, and whether it is disabled. *)
Definition profileState ps (userID : string) : result (bool * bool) :=
  if String.eqb userID "" then Ok (false, false) else
  match Get ps (profileKey userID) with
  | Err e => if errors_is e ErrNotFound then Ok (false, false) else Err (Wrap ("read profile " +:+ userID) e)
  | Ok data =>
      if String.eqb data "" then Ok (false, false) else
      let? p := wrapf ("decode profile " +:+ userID) (unmarshal data) in
      Ok (true, up_Disabled p)
  end.

Definition UserDomain ps (userID : string) : result string :=
  let? data := wrapf ("user domain: load profile " +:+ quote userID) (Get ps (profileKey userID)) in
  let? profile := wrapf ("user domain: decode profile " +:+ quote userID) (unmarshal data) in
  match CutLast (up_Email profile) "@" with
  | Some (_, d) => if String.eqb d "" then Err (Errorf ("user domain: profile " +:+ quote userID +:+ " has no address domain"))
                   else Ok (ToLower d)
  | None => Err (Errorf ("user domain: profile " +:+ quote userID +:+ " has no address domain"))
  end.
Definition PrimaryEmail ps (userID : string) : result string :=
  let? data := wrapf ("primary email: load profile " +:+ quote userID) (Get ps (profileKey userID)) in
  let? profile := wrapf ("primary email: decode profile " +:+ quote userID) (unmarshal data) in
  Ok (TrimSpace (up_Email profile)).

(** The send-as rule; [addresses] is false where there is no address store. *)
Definition CanSendAs ps (addresses : bool) (userID primaryEmail addr : string) : result bool :=
  let addr := NormaliseAddress addr in
  if String.eqb addr "" then Ok false else
  if negb (String.eqb primaryEmail "") && String.eqb addr (NormaliseAddress primaryEmail) then Ok true else
  if negb addresses then Ok false else
  let? rec := wrapf ("send-as lookup " +:+ quote addr) (addr_Get ps addr) in
  Ok (match rec with
      | Some r => String.eqb (ar_UserId r) userID && ar_CanSend r && ar_Verified r
      | None => false
      end).
Definition SendAsPolicy_CanSendAs ps (addresses : bool) (userID addr : string) : result bool :=
  if String.eqb userID "" then Err (Errorf "send-as policy unavailable") else
  match Get ps (profileKey userID) with
  | Err e => if errors_is e ErrNotFound then Ok false else Err (Wrap "load profile for send-as" e)
  | Ok data =>
      let? prof := wrapf "decode profile for send-as" (unmarshal data) in
      CanSendAs ps addresses userID (TrimSpace (up_Email prof)) addr
  end.

End Directory.
