(* ===== verification/Domains.v ===== *)
(** Domain administration and quotas: [internal/store/domain_admin_store.go]
    and [domain_quota_store.go], with the records of the files built on them. *)

From S2P Require Import Prelude GoStrings Pebble Proto UserData Acl Directory.
From Stdlib Require Import Ascii.

Record DomainQuota := mkQuota { dq_MaxUsers : Z; dq_MaxStorageBytes : Z }.
#[global] Instance DomainQuota_eq_dec : EqDecision DomainQuota.
Proof. solve_decision. Defined.
#[global] Instance DomainQuota_countable : Countable DomainQuota.
Proof. apply (inj_countable' (fun q => (dq_MaxUsers q, dq_MaxStorageBytes q)) (fun '(a, b) => mkQuota a b)). by intros []. Defined.

Record AddressVerification := mkVerification { av_CodeHash : string; av_ExpiresAt : Z; av_Attempts : Z }.
#[global] Instance AddressVerification_eq_dec : EqDecision AddressVerification.
Proof. solve_decision. Defined.
#[global] Instance AddressVerification_countable : Countable AddressVerification.
Proof.
  apply (inj_countable' (fun v => (av_CodeHash v, av_ExpiresAt v, av_Attempts v)) (fun '(a, b, c) => mkVerification a b c)). by intros [].
Defined.

Record OrphanedAddress := mkOrphan { oa_Address : string; oa_UserID : string; oa_Kind : string; oa_Target : string }.
Definition KindLegacyAlias : string := "legacy-alias".
Definition KindCatchAll : string := "catchall".
Record DomainDependents := mkDependents { dd_Users : Z; dd_Aliases : Z; dd_Addresses : Z; dd_Identities : Z }.
Definition Any (d : DomainDependents) : bool := (0 <? dd_Users d) || (0 <? dd_Aliases d) || (0 <? dd_Addresses d).
Record domainAddressRecord := mkDomainAddr { da_key : string; da_kind : string; da_live : bool }.
Record ForwardTargetEntry := mkTargetEntry { te_UserID : string; te_Address : string; te_State : string }.

Definition ForwardStatePending : string := "pending".
Definition ForwardStateVerified : string := "verified".
Definition ForwardStateGrandfathered : string := "grandfathered".

(** Little-endian bytes, as [binary.LittleEndian]. *)
Fixpoint le_put (w : nat) (n : Z) : string :=
  match w with O => "" | S w => String (char_of (n mod 256)) (le_put w (n / 256)) end.
Fixpoint le_get (s : string) : Z :=
  match s with "" => 0 | String c s => byte_of c + 256 * le_get s end.

Section Domains.
Context {DB : Type} `{PebbleDB DB} `{Codec AddressRecord} `{Codec UserProfile} `{Codec ForwardTarget} `{Codec DomainQuota}
  `{Codec AddressVerification} `{RaftApplier DB} `{GoUnicode}.
Implicit Types ps : DB.

(** * Owners and administrators *)

Definition domainOwnerKey (domain : string) : string := domainPrefix +:+ ToLower domain +:+ "/owner".
Definition adminPrefix : string := "/system/domain_admin/".
Definition domainAdminKey (domain userID : string) : string := adminPrefix +:+ ToLower domain +:+ "/" +:+ userID.
Definition domainAdminPrefixForDomain (domain : string) : string := adminPrefix +:+ ToLower domain +:+ "/".

(** A key is there, or a read error other than its absence. *)
Definition key_exists ps (what key : string) : result bool :=
  match Get ps key with
  | Ok _ => Ok true
  | Err e => if errors_is e ErrNotFound then Ok false else Err (Wrap what e)
  end.
Definition domainExists ps (domain : string) : result bool :=
  key_exists ps ("domain admin store: domain existence check " +:+ quote domain) (domainPrefix +:+ ToLower domain).
Definition userExists ps (userID : string) : result bool :=
  key_exists ps ("domain admin store: user existence check " +:+ quote userID) (profileKey userID).

(** Both must exist before the write. *)
Definition checked_put (what domain userID key value : string) : GoM DB unit :=
  let! ok := gread (fun ps => domainExists ps domain) in
  if negb ok then gfail (Errorf ("domain admin store " +:+ what +:+ ": domain " +:+ quote domain +:+ " not found")) else
  let! ok := gread (fun ps => userExists ps userID) in
  if negb ok then gfail (Errorf ("domain admin store " +:+ what +:+ ": user " +:+ quote userID +:+ " not found")) else
  gwrap ("domain admin store " +:+ what +:+ " " +:+ quote userID +:+ " domain " +:+ quote domain +:+ ": raft")
    (ApplyCommand (mkCmd OP_PUT key value)).
Definition SetOwner (domain ownerUserID : string) : GoM DB unit :=
  let domain := ToLower domain in checked_put "set owner" domain ownerUserID (domainOwnerKey domain) ownerUserID.
Definition Grant (domain userID : string) : GoM DB unit :=
  let domain := ToLower domain in checked_put "grant" domain userID (domainAdminKey domain userID) "1".
Definition Revoke (domain userID : string) : GoM DB unit :=
  gwrap ("domain admin store revoke " +:+ quote userID +:+ " domain " +:+ quote domain +:+ ": raft")
    (ApplyCommand (mkCmd OP_DELETE (domainAdminKey domain userID) "")).
Definition DeleteOwner (domain : string) : GoM DB unit :=
  gwrap ("domain admin store delete owner " +:+ quote domain +:+ ": raft")
    (ApplyCommand (mkCmd OP_DELETE (domainOwnerKey (ToLower domain)) "")).

Definition GetOwner ps (domain : string) : result (option string) :=
  match Get ps (domainOwnerKey domain) with
  | Err e => if errors_is e ErrNotFound then Ok None else Err (Wrap ("domain admin store get owner " +:+ quote domain) e)
  | Ok data => let ownerID := TrimSpace data in Ok (if String.eqb ownerID "" then None else Some ownerID)
  end.

Definition ListForDomain ps (domain : string) : result (list string) :=
  let prefix := domainAdminPrefixForDomain domain in
  let? it := wrapf ("domain admin store list for domain " +:+ quote domain) (PrefixScan ps prefix) in
  collect (fun k _ => let suffix := TrimPrefix k prefix in
                      Ok (if String.eqb suffix "" || Contains suffix "/" then None else Some suffix)) it.
Definition ListForUser ps (userID : string) : result (list string) :=
  let? it := wrapf ("domain admin store list for user " +:+ quote userID) (PrefixScan ps adminPrefix) in
  collect (fun k _ => Ok (match SplitN (TrimPrefix k adminPrefix) "/" 2 with
                          | [d; u] => if String.eqb u userID then Some d else None
                          | _ => None
                          end)) it.
Definition allManagedDomains ps : result (list string) :=
  let? it := wrapf "domain admin store all managed domains" (PrefixScan ps domainPrefix) in
  collect (fun k _ => let name := TrimPrefix k domainPrefix in Ok (if Contains name "/" then None else Some name)) it.

(** The domain of an [.../owner] key, if its name is plain. *)
Definition owner_name (key : string) : option string :=
  let name := TrimPrefix key domainPrefix in
  if negb (HasSuffix name "/owner") then None else
  let domain := TrimSuffix name "/owner" in if Contains domain "/" then None else Some domain.

(** [add] of the source: append unless seen. *)
Definition add_new (result : list string) (d : string) : list string := if bool_decide (d ∈ result) then result else result ++ [d].

Fixpoint keep_existing ps (l : list string) : result (list string) :=
  match l with
  | [] => Ok []
  | d :: l' =>
      let? ok := wrapf "authorized domains" (domainExists ps d) in
      let? rest := keep_existing ps l' in
      Ok (if ok then d :: rest else rest)
  end.

Definition AuthorizedDomains ps (userID : string) (isGlobalAdmin : bool) : result (list string) :=
  if isGlobalAdmin then allManagedDomains ps else
  let? it := wrapf "authorized domains: scan owners" (PrefixScan ps domainPrefix) in
  let? owned := collect (fun k v =>
    match owner_name k with
    | None => Ok None
    | Some domain =>
        let? val := wrapf ("authorized domains: read owner " +:+ quote domain) (iter_value v) in
        Ok (if String.eqb (TrimSpace val) userID then Some domain else None)
    end) it in
  let? granted := wrapf "authorized domains: list grants" (ListForUser ps userID) in
  keep_existing ps (foldl add_new [] (owned ++ granted)).

Definition ListDomainsOwnedBy ps (userID : string) : result (list string) :=
  let? it := wrapf ("domain admin store list owned by " +:+ quote userID +:+ ": scan") (PrefixScan ps domainPrefix) in
  collect (fun k v =>
    Ok (match owner_name k, iter_value v with
        | Some domain, Ok val => if String.eqb (TrimSpace val) userID then Some domain else None
        | _, _ => None
        end)) it.

Definition DomainFromEmail (email : string) : string :=
  match CutLast email "@" with Some (_, d) => d | None => "localhost" end.

(** * Quotas *)

Definition DomainQuotaKey (domain : string) : string := domainPrefix +:+ ToLower domain +:+ "/quota".
Definition DomainUsageKey (domain : string) : string := domainPrefix +:+ ToLower domain +:+ "/usage".
Definition GetQuota ps (domain : string) : result DomainQuota :=
  match Get ps (DomainQuotaKey domain) with
  | Err e => if errors_is e ErrNotFound then Ok (mkQuota 0 0) else Err (Wrap ("domain quota store get " +:+ quote domain) e)
  | Ok data => wrapf ("domain quota store get " +:+ quote domain +:+ ": unmarshal") (unmarshal data)
  end.
Definition SetQuota (domain : string) (q : DomainQuota) : GoM DB unit :=
  let! data := glift (wrapf ("domain quota store set " +:+ quote domain +:+ ": marshal") (marshal q)) in
  gwrap ("domain quota store set " +:+ quote domain +:+ ": raft") (ApplyCommand (mkCmd OP_PUT (DomainQuotaKey domain) data)).
Definition GetUsage ps (domain : string) : result Z :=
  match Get ps (DomainUsageKey domain) with
  | Err e => if errors_is e ErrNotFound then Ok 0 else Err (Wrap ("domain quota store get usage " +:+ quote domain) e)
  | Ok data =>
      if (String.length data <? 8)%nat then Ok 0 else
      let raw := le_get (str_take 8 data) in
      Ok (if MaxInt64 <? raw then MaxInt64 else raw)
  end.
Definition SetUsage (domain : string) (bytes : Z) : GoM DB unit :=
  let bytes := if bytes <? 0 then 0 else bytes in
  gwrap ("domain quota store set usage " +:+ quote domain +:+ ": raft")
    (ApplyCommand (mkCmd OP_PUT (DomainUsageKey domain) (le_put 8 (u64 bytes)))).
Definition wouldExceedStorageQuota ps (domain : string) (addBytes : Z) : result bool :=
  let addBytes := if addBytes <? 0 then 0 else addBytes in
  let? q := wrapf ("domain quota: check storage quota " +:+ quote domain) (GetQuota ps domain) in
  if dq_MaxStorageBytes q <=? 0 then Ok false else
  let? usage := wrapf ("domain quota: get usage " +:+ quote domain) (GetUsage ps domain) in
  if dq_MaxStorageBytes q <=? usage then Ok true else
  Ok (i64 (dq_MaxStorageBytes q - usage) <? addBytes).
Definition IsOverStorageQuota ps (domain : string) : result bool := wouldExceedStorageQuota ps domain 0.
Definition RecipientWouldExceedQuota ps (userID : string) (addBytes : Z) : result bool :=
  match Get ps (profileKey userID) with
  | Err e => if errors_is e ErrNotFound then Ok false
             else Err (Wrap ("domain quota recipient check: load profile " +:+ quote userID) e)
  | Ok data =>
      let? profile := wrapf ("domain quota recipient check: unmarshal profile " +:+ quote userID) (unmarshal data) in
      wouldExceedStorageQuota ps (ToLower (DomainFromEmail (up_Email profile))) addBytes
  end.
Definition RecipientOverQuota ps (userID : string) : result bool := RecipientWouldExceedQuota ps userID 0.
Definition CountUsersForDomain ps (domain : string) : result Z :=
  let domain := ToLower domain in
  let? it := wrapf ("domain quota count users " +:+ quote domain +:+ ": scan") (PrefixScan ps "/user/") in
  let? l := collect (fun k v =>
    Ok (if negb (HasSuffix (TrimPrefix k "/user/") "/profile") then None else
        match (let? val := iter_value v in unmarshal val) with
        | Err _ => None
        | Ok profile => if String.eqb (ToLower (DomainFromEmail (up_Email profile))) domain then Some tt else None
        end)) it in
  Ok (Z.of_nat (length l)).

End Domains.
