(* ===== verification/Preferences.v ===== *)
(** User preferences ([proto/bongo/v1/preferences.proto],
    [internal/store/preferences.go]) and the stored side of vacation replies
    ([internal/store/vacation.go]).  Enumerations are their numbers; SHA-256 and
    the time zone database are parameters. *)

From S2P Require Import Prelude GoStrings Utf8 Pebble Proto UserData Directory.
From Stdlib Require Import Ascii.

Record UserPreferences := mkPrefs {
  pf_Theme : Z; pf_LayoutMode : Z; pf_Density : Z; pf_MessagesPerPage : Z; pf_DefaultReply : Z; pf_Signature : string;
  pf_Timezone : string; pf_UpdatedAt : Z; pf_CalendarView : string; pf_Locale : string; pf_InfiniteScroll : bool;
  pf_ForwardAddress : string; pf_ForwardKeepCopy : bool; pf_SignatureHtml : string;
  pf_VacationEnabled : bool; pf_VacationSubject : string; pf_VacationBody : string; pf_VacationStart : Z; pf_VacationEnd : Z;
  pf_VacationIntervalDays : Z; pf_StartPage : string }.
#[global] Instance UserPreferences_eq_dec : EqDecision UserPreferences.
Proof. solve_decision. Defined.
#[global] Instance UserPreferences_countable : Countable UserPreferences.
Proof.
  apply (inj_countable'
    (fun p => ((pf_Theme p, pf_LayoutMode p, pf_Density p, pf_MessagesPerPage p, pf_DefaultReply p, pf_Signature p, pf_Timezone p,
                pf_UpdatedAt p, pf_CalendarView p, pf_Locale p, pf_InfiniteScroll p),
               (pf_ForwardAddress p, pf_ForwardKeepCopy p, pf_SignatureHtml p, pf_VacationEnabled p, pf_VacationSubject p, pf_VacationBody p,
                pf_VacationStart p, pf_VacationEnd p, pf_VacationIntervalDays p, pf_StartPage p)))
    (fun '((a, b, c, d, e, f, g, h, i, j, k), (l, m, n, o, p, q, r, s, t, u)) => mkPrefs a b c d e f g h i j k l m n o p q r s t u)).
  by intros [].
Defined.

Definition prefKey (userID : string) : string := "/user/" +:+ userID +:+ "/preferences".
(** THEME_AUTO, LAYOUT_LIST, DENSITY_COMFORTABLE and REPLY_MODE_SENDER. *)
Definition DefaultPreferences : UserPreferences :=
  mkPrefs 1 1 2 25 1 "" "UTC" 0 "" "en" false "" true "" false "" "" 0 0 0 "".
Definition set_updated (p : UserPreferences) (t : Z) : UserPreferences :=
  mkPrefs (pf_Theme p) (pf_LayoutMode p) (pf_Density p) (pf_MessagesPerPage p) (pf_DefaultReply p) (pf_Signature p) (pf_Timezone p) t
    (pf_CalendarView p) (pf_Locale p) (pf_InfiniteScroll p) (pf_ForwardAddress p) (pf_ForwardKeepCopy p) (pf_SignatureHtml p)
    (pf_VacationEnabled p) (pf_VacationSubject p) (pf_VacationBody p) (pf_VacationStart p) (pf_VacationEnd p)
    (pf_VacationIntervalDays p) (pf_StartPage p).

Section Preferences.
Context {DB : Type} `{PebbleDB DB} `{Codec UserPreferences} `{RaftApplier DB}.

Definition pref_Get (ps : DB) (userID : string) : UserPreferences :=
  match Get ps (prefKey userID) with
  | Err _ => DefaultPreferences
  | Ok data => if String.eqb data "" then DefaultPreferences else
               match unmarshal data with Ok prefs => prefs | Err _ => DefaultPreferences end
  end.
Definition pref_Set (now : Z) (userID : string) (prefs : UserPreferences) : GoM DB unit :=
  let! data := glift (wrapf "marshaling preferences" (marshal (set_updated prefs (unix_of now)))) in
  ApplyCommand (mkCmd OP_PUT (prefKey userID) data).
End Preferences.

Definition StartPath (p : UserPreferences) : string := if String.eqb (pf_StartPage p) "inbox" then "/mail/INBOX" else "/summary".

(** [time.LoadLocation] and UTC are parameters. *)
Definition ResolveZone {Location} (UTC : Location) (LoadLocation : string -> option Location) (name : string) : Location :=
  if String.eqb name "" || String.eqb name "Local" then UTC else default UTC (LoadLocation name).

(** * Vacation records *)

Definition VacationSentTTL : Z := 30 * 24 * Hour.
Definition VacationDefaultIntervalDays : Z := 7.
Definition VacationMaxIntervalDays : Z := 30.
Definition VacationMaxSubjectRunes : nat := 200.
Definition VacationMaxBodyBytes : nat := 4096.
Definition VacationRepliesPerHour : Z := 100.

Definition ErrVacationRecord : err := Sentinel "malformed vacation record".
Definition ErrVacationSubject : err := Sentinel "vacation subject invalid".
Definition ErrVacationBody : err := Sentinel "vacation body invalid".
Definition ErrVacationInterval : err := Sentinel "vacation interval out of range".
Definition ErrVacationWindow : err := Sentinel "vacation end is before its start".

Definition VacationSentPrefix (userID : string) : string := "/user/" +:+ userID +:+ "/vacation/sent/".

(** [hex_sha256] is the hexadecimal SHA-256 of a string. *)
Definition VacationSentKey `{GoUnicode} (hex_sha256 : string -> string) (userID sender : string) : string :=
  let sender := TrimSuffix (TrimPrefix (TrimSpace sender) "<") ">" in
  VacationSentPrefix userID +:+ hex_sha256 (NormaliseAddress sender).

Definition EncodeVacationSent (at_ : Z) : string := be_put 8 (Z.max (unix_of at_) 0).
Definition DecodeVacationSent (v : string) : result Z :=
  if negb (String.length v =? 8)%nat then Err ErrVacationRecord else
  let secs := be_get 0 v in
  if MaxInt64 <? secs then Err ErrVacationRecord else Ok (time_unix secs).

Definition VacationIntervalDays (prefs : UserPreferences) : Z :=
  let d := pf_VacationIntervalDays prefs in
  if d <=? 0 then VacationDefaultIntervalDays else Z.min d VacationMaxIntervalDays.

Definition VacationActive (prefs : UserPreferences) (now : Z) : bool :=
  if negb (pf_VacationEnabled prefs) then false else
  let t := unix_of now in
  let s := pf_VacationStart prefs in
  let e := pf_VacationEnd prefs in
  if negb (s =? 0) && (t <? s) then false
  else if negb (e =? 0) && (e <? t) then false else true.

(** On valid UTF-8 a rune below 0x80 is one byte, and bytes of longer runes are
    all above. *)
Fixpoint rune_count (s : string) : nat :=
  match s with
  | "" => 0
  | String c s' => if (128 <=? byte_of c) && (byte_of c <? 192) then rune_count s' else S (rune_count s')
  end.
Definition ValidateVacationSubject (s : string) : option err :=
  if negb (ValidString s) || (VacationMaxSubjectRunes <? rune_count s)%nat then Some ErrVacationSubject
  else if str_all (fun c => negb ((byte_of c <? 32) || (byte_of c =? 127))) s then None else Some ErrVacationSubject.
Definition ValidateVacationBody (s : string) : option err :=
  if negb (ValidString s) || (VacationMaxBodyBytes <? String.length s)%nat || has_char (char_of 0) s
  then Some ErrVacationBody else None.
Definition ValidateVacationInterval (days : Z) : option err :=
  if (days <? 1) || (VacationMaxIntervalDays <? days) then Some ErrVacationInterval else None.
Definition ValidateVacationWindow (start end_ : Z) : option err :=
  if negb (start =? 0) && negb (end_ =? 0) && (end_ <? start) then Some ErrVacationWindow else None.
