(* ===== verification/ForwardTargets.v ===== *)
(** Forwarding targets and their verification:
    [internal/store/forward_target_store.go] and
    [internal/store/address_verify_store.go]. *)

From S2P Require Import Prelude GoStrings Pebble Proto UserData Acl Directory Domains Rules Preferences.
From Stdlib Require Import Ascii.

Section ForwardTargets.
Context {DB : Type} `{PebbleDB DB} `{Codec ForwardTarget} `{Codec AddressVerification} `{Codec UserPreferences} `{Codec FilterRule}
  `{RaftApplier DB} `{GoUnicode}.
Implicit Types ps : DB.

Definition forwardTargetKey (userID address : string) : string := "/user/" +:+ userID +:+ "/fwdtarget/" +:+ ToLower address.
Definition forwardVerifyKey (userID address : string) : string := "/user/" +:+ userID +:+ "/fwdverify/" +:+ ToLower address.
Definition addrVerifyKey (userID address : string) : string := "/user/" +:+ userID +:+ "/addrverify/" +:+ ToLower address.

(** Encode and write, or delete, through Raft. *)
Definition put_record {A} `{Codec A} (what key : string) (a : A) : GoM DB unit :=
  let! data := glift (wrapf (what +:+ ": marshal") (marshal a)) in
  gwrap (what +:+ ": raft") (ApplyCommand (mkCmd OP_PUT key data)).
Definition del_record (what key : string) : GoM DB unit := gwrap (what +:+ ": raft") (ApplyCommand (mkCmd OP_DELETE key "")).
Definition get_record {A} `{Codec A} ps (what key : string) : result (option A) :=
  match Get ps key with
  | Err e => if errors_is e ErrNotFound then Ok None else Err (Wrap what e)
  | Ok data => let? a := wrapf (what +:+ ": unmarshal") (unmarshal data) in Ok (Some a)
  end.

Definition SetState (now : Z) (userID address state : string) : GoM DB unit :=
  put_record ("forward target store set state (" +:+ userID +:+ ")") (forwardTargetKey userID address) (mkFwdTarget state (unix_of now)).
Definition fwd_Get ps (userID address : string) : result (option ForwardTarget) :=
  get_record ps ("forward target store get (" +:+ userID +:+ ")") (forwardTargetKey userID address).
Definition Allowed ps (userID address : string) : result bool :=
  let? rec := fwd_Get ps userID address in
  Ok (match rec with
      | Some r => String.eqb (ft_State r) ForwardStateVerified || String.eqb (ft_State r) ForwardStateGrandfathered
      | None => false
      end).
Definition fwd_Delete (userID address : string) : GoM DB unit :=
  del_record ("forward target store delete (" +:+ userID +:+ ")") (forwardTargetKey userID address).

Definition PutChallenge (userID address : string) (ch : AddressVerification) : GoM DB unit :=
  put_record ("forward target store put challenge (" +:+ userID +:+ ")") (forwardVerifyKey userID address) ch.
Definition GetChallenge ps (userID address : string) : result (option AddressVerification) :=
  get_record ps ("forward target store get challenge (" +:+ userID +:+ ")") (forwardVerifyKey userID address).
Definition DeleteChallenge (userID address : string) : GoM DB unit :=
  del_record ("forward target store delete challenge (" +:+ userID +:+ ")") (forwardVerifyKey userID address).

Definition verify_what (op userID address : string) : string :=
  "address verify store " +:+ op +:+ " (" +:+ userID +:+ ", " +:+ address +:+ ")".
Definition verify_Put (userID address : string) (ch : AddressVerification) : GoM DB unit :=
  put_record (verify_what "put" userID address) (addrVerifyKey userID address) ch.
Definition verify_Get ps (userID address : string) : result (option AddressVerification) :=
  get_record ps (verify_what "get" userID address) (addrVerifyKey userID address).
Definition verify_Delete (userID address : string) : GoM DB unit :=
  del_record (verify_what "delete" userID address) (addrVerifyKey userID address).
Definition verify_ListByUser ps (userID : string) : result (list string) :=
  let prefix := "/user/" +:+ userID +:+ "/addrverify/" in
  let? it := wrapf ("address verify store list (" +:+ userID +:+ ")") (PrefixScan ps prefix) in
  Ok ((fun kv => TrimPrefix kv.1 prefix) <$> it).

(** Values that cannot be read or decoded are passed over. *)
Definition readable {A} `{Codec A} (v : result string) : option A :=
  match (let? val := iter_value v in unmarshal val) with Ok a => Some a | Err _ => None end.

Definition ListGrandfathered ps : result (list ForwardTargetEntry) :=
  let? it := wrapf "scanning forward targets" (PrefixScan ps "/user/") in
  collect (fun k v =>
    Ok (match SplitN k "/" 5 with
        | [_; _; userID; kind; address] =>
            if negb (String.eqb kind "fwdtarget") then None else
            match readable v with
            | Some rec => if String.eqb (ft_State rec) ForwardStateGrandfathered
                          then Some (mkTargetEntry userID address (ft_State rec)) else None
            | None => None
            end
        | _ => None
        end)) it.
Definition fwd_ListByUser ps (userID : string) : result (list ForwardTargetEntry) :=
  let prefix := "/user/" +:+ userID +:+ "/fwdtarget/" in
  let? it := wrapf ("listing forward targets (" +:+ userID +:+ ")") (PrefixScan ps prefix) in
  collect (fun k v =>
    Ok (match readable v with Some rec => Some (mkTargetEntry userID (TrimPrefix k prefix) (ft_State rec)) | None => None end)) it.

(** The forwards a preferences or rule record asks for. *)
Definition record_forwards (key : string) (v : result string) : list (string * string) :=
  match Split key "/" with
  | _ :: _ :: userID :: kind :: _ =>
      if String.eqb kind "preferences" then
        match readable (A := UserPreferences) v with
        | Some prefs => if String.eqb (pf_ForwardAddress prefs) "" then [] else [(userID, pf_ForwardAddress prefs)]
        | None => []
        end
      else if String.eqb kind "rule" then
        match readable (A := FilterRule) v with
        | Some rule => (fun act => (userID, fa_Target act)) <$>
            List.filter (fun act => EqualFold (fa_Type act) "forward" && negb (String.eqb (fa_Target act) "")) (RuleActions rule)
        | None => []
        end
      else []
  | _ => []
  end.
(** The writes of the migration; the count of those done comes with an error. *)
Fixpoint migrate_targets (now : Z) (isLocal : string -> bool) (found : list (string * string)) (written : Z) ps : DB * (Z * option err) :=
  match found with
  | [] => (ps, (written, None))
  | (userID, address) :: found =>
      let addr := ToLower (TrimSpace address) in
      if String.eqb addr "" || isLocal addr then migrate_targets now isLocal found written ps else
      match fwd_Get ps userID addr with
      | Err e => (ps, (written, Some e))
      | Ok (Some _) => migrate_targets now isLocal found written ps
      | Ok None =>
          match SetState now userID addr ForwardStateGrandfathered ps with
          | (ps, Err e) => (ps, (written, Some e))
          | (ps, Ok _) => migrate_targets now isLocal found (written + 1) ps
          end
      end
  end.
Definition MigrateForwardTargets (now : Z) (isLocal : string -> bool) ps : DB * (Z * option err) :=
  match wrapf "scanning forwards for migration" (PrefixScan ps "/user/") with
  | Err e => (ps, (0, Some e))
  | Ok it => migrate_targets now isLocal (mjoin ((fun kv => record_forwards kv.1 kv.2) <$> it)) 0 ps
  end.

Definition forwardMigrationKey : string := "/system/migration/fwdtargets".
Definition MigrationDone ps : result bool := key_exists ps "forward target store migration marker" forwardMigrationKey.
Definition MarkMigrationDone : GoM DB unit :=
  gwrap "forward target store migration marker: raft" (ApplyCommand (mkCmd OP_PUT forwardMigrationKey "done")).

End ForwardTargets.
