(* ===== verification/DomainCascade.v ===== *)
(** Leftovers of deleted accounts and domains: [internal/store/address_orphan.go]
    and [internal/store/domain_cascade.go]. *)

From S2P Require Import Prelude GoStrings Pebble Proto UserData Acl Directory Domains.
From Stdlib Require Import Ascii.

Section Cascade.
Context {DB : Type} `{PebbleDB DB} `{Codec AddressRecord} `{Codec UserProfile} `{RaftApplier DB} `{GoUnicode}.
Implicit Types ps : DB.

(** Values that cannot be read or decoded are passed over. *)
Definition record_of {A} `{Codec A} (v : result string) : option A :=
  match (let? val := iter_value v in unmarshal val) with Ok a => Some a | Err _ => None end.

(** * Orphans *)

Definition addressPrefix : string := "/system/address/".
Definition aliasPrefix : string := "/system/alias/".
Definition catchAllPrefix : string := "/system/catchall/".

Definition address_orphan ps (k : string) (v : result string) : option OrphanedAddress :=
  let address := TrimPrefix k addressPrefix in
  if String.eqb address "" then None else
  match record_of (A := AddressRecord) v with
  | None => None
  | Some rec => if String.eqb (ar_UserId rec) "" || userProfileExists ps (ar_UserId rec) then None
                else Some (mkOrphan address (ar_UserId rec) (ar_Kind rec) "")
  end.

Definition aliasTargetHasLiveRecord ps (target : string) : result bool :=
  match Get ps (addressKey target) with
  | Err e => if errors_is e ErrNotFound then Ok false else Err (Wrap ("reading address record " +:+ quote target) e)
  | Ok data =>
      match unmarshal data with
      | Err _ => Ok true
      | Ok rec => if String.eqb (ar_Kind rec) "primary" || String.eqb (ar_Kind rec) "alias"
                  then Ok (userProfileExists ps (ar_UserId rec)) else Ok false
      end
  end.
Definition profileEmailSet ps : result (list string) :=
  let? it := wrapf "scanning profiles" (PrefixScan ps "/user/") in
  collect (fun k v =>
    Ok (match Split k "/" with
        | [_; _; _; kind] =>
            if negb (String.eqb kind "profile") then None else
            match record_of (A := UserProfile) v with
            | Some p => let e := ToLower (TrimSpace (up_Email p)) in if String.eqb e "" then None else Some e
            | None => None
            end
        | _ => None
        end)) it.
(** The set of profile addresses is read when the first target needs it and not
    again; it does not change during the scan. *)
Definition alias_orphan ps (k : string) (v : result string) : result (option OrphanedAddress) :=
  let aliasAddr := TrimPrefix k aliasPrefix in
  match iter_value v with
  | Err _ => Ok None
  | Ok val =>
      let target := ToLower (TrimSpace val) in
      if String.eqb aliasAddr "" || String.eqb target "" then Ok None else
      let? live := aliasTargetHasLiveRecord ps target in
      let? live := if live then Ok true else let? emails := profileEmailSet ps in Ok (bool_decide (target ∈ emails)) in
      Ok (if live then None else Some (mkOrphan aliasAddr "" KindLegacyAlias target))
  end.
Definition findOrphanedLegacyAliases ps : result (list OrphanedAddress) :=
  let? it := wrapf "scanning legacy aliases" (PrefixScan ps aliasPrefix) in collect (alias_orphan ps) it.
Definition catchall_orphan ps (k : string) (v : result string) : option OrphanedAddress :=
  let domain := TrimPrefix k catchAllPrefix in
  match iter_value v with
  | Err _ => None
  | Ok val => let id := TrimSpace val in
              if String.eqb domain "" || String.eqb id "" || userProfileExists ps id then None
              else Some (mkOrphan domain id KindCatchAll "")
  end.
Definition findOrphanedCatchAlls ps : result (list OrphanedAddress) :=
  let? it := wrapf "scanning catch-alls" (PrefixScan ps catchAllPrefix) in collect (fun k v => Ok (catchall_orphan ps k v)) it.
Definition FindOrphanedAddresses ps : result (list OrphanedAddress) :=
  let? it := wrapf "scanning address index" (PrefixScan ps addressPrefix) in
  let? orphans := collect (fun k v => Ok (address_orphan ps k v)) it in
  let? aliases := findOrphanedLegacyAliases ps in
  let? catchalls := findOrphanedCatchAlls ps in
  Ok (orphans ++ aliases ++ catchalls).

(** The addresses deleted so far come with an error. *)
Fixpoint DeleteOrphanedAddresses (orphans : list OrphanedAddress) (deleted : list string) (st : AddrState (DB := DB)) :
    AddrState * (list string * option err) :=
  match orphans with
  | [] => (st, (deleted, None))
  | o :: orphans =>
      if String.eqb (oa_Kind o) KindLegacyAlias || String.eqb (oa_Kind o) KindCatchAll || userProfileExists st.1 (oa_UserID o)
      then DeleteOrphanedAddresses orphans deleted st
      else match addr_Delete (oa_Address o) st with
           | (st, Err e) => (st, (deleted, Some (Wrap ("deleting address " +:+ oa_Address o) e)))
           | (st, Ok _) => DeleteOrphanedAddresses orphans (deleted ++ [oa_Address o]) st
           end
  end.

(** * What hangs off a domain *)

Definition domainAddressRecords ps (suffix : string) : result (list domainAddressRecord) :=
  let? it := wrapf "domain addresses: scan" (PrefixScan ps addressPrefix) in
  collect (fun k v =>
    let addr := TrimPrefix k addressPrefix in
    if negb (HasSuffix (ToLower addr) suffix) then Ok None else
    let? val := wrapf ("domain addresses: read " +:+ quote addr) (iter_value v) in
    let? rec := wrapf ("domain addresses: decode " +:+ quote addr) (unmarshal (A := AddressRecord) val) in
    Ok (Some (mkDomainAddr k (ar_Kind rec) (userProfileExists ps (ar_UserId rec))))) it.

(** The counts made before an error come with it. *)
Definition DomainDependentCounts ps (domain : string) : DomainDependents * option err :=
  let suffix := "@" +:+ ToLower (TrimSpace domain) in
  match wrapf "domain dependents: scan users" (PrefixScan ps "/user/") with
  | Err e => (mkDependents 0 0 0 0, Some e)
  | Ok it =>
  let users := (fix go (l : list (string * result string)) (n : Z) : Z * option err :=
    match l with
    | [] => (n, None)
    | (k, v) :: l' =>
        if negb (HasSuffix k "/profile") then go l' n else
        match (let? val := wrapf "domain dependents: read profile" (iter_value v) in
               wrapf "domain dependents: decode profile" (unmarshal (A := UserProfile) val)) with
        | Err e => (n, Some e)
        | Ok p => go l' (if HasSuffix (ToLower (up_Email p)) suffix then n + 1 else n)
        end
    end) it 0 in
  match users with
  | (n, Some e) => (mkDependents n 0 0 0, Some e)
  | (n, None) =>
  match wrapf "domain dependents: scan aliases" (PrefixScan ps aliasPrefix) with
  | Err e => (mkDependents n 0 0 0, Some e)
  | Ok ai =>
  let aliases := Z.of_nat (length (List.filter (fun kv : string * result string => HasSuffix (ToLower (TrimPrefix kv.1 aliasPrefix)) suffix) ai)) in
  match domainAddressRecords ps suffix with
  | Err e => (mkDependents n aliases 0 0, Some e)
  | Ok recs =>
      let live := List.filter da_live recs in
      (mkDependents n aliases (Z.of_nat (length live))
         (Z.of_nat (length (List.filter (fun r => String.eqb (da_kind r) "identity") live))), None)
  end end end end.

Definition DomainKeyExists ps (domain : string) : result bool :=
  let domain := TrimSpace domain in
  let? it := wrapf "domain key exists: scan" (PrefixScan ps domainPrefix) in
  Ok (existsb (fun kv : string * result string =>
        let name := TrimPrefix kv.1 domainPrefix in negb (Contains name "/") && EqualFold name domain) it).

(** * Purging a domain *)

Definition sub_key (domain key : string) : bool :=
  match Cut (TrimPrefix key domainPrefix) "/" with Some (name, _) => EqualFold name domain | None => false end.
Definition domainSubKeys ps (domain : string) : result (list string) :=
  let? it := wrapf "scan domain sub-keys" (PrefixScan ps domainPrefix) in
  Ok (List.filter (sub_key domain) it.*1).
Definition scanKeys ps (prefix : string) : result (list string) := let? it := PrefixScan ps prefix in Ok it.*1.
Definition claim_key (suffix key : string) : bool :=
  match SplitN (TrimPrefix key "/user/") "/" 3 with
  | [id; kind; addr] => negb (String.eqb id "") && String.eqb kind "addrverify" && HasSuffix (ToLower addr) suffix
  | _ => false
  end.
Definition domainClaimKeys ps (suffix : string) : result (list string) :=
  let? it := wrapf "scan claims" (PrefixScan ps "/user/") in
  Ok (List.filter (claim_key suffix) it.*1).

Definition purge_keys ps (d : string) : result (list string) :=
  let? sub := wrapf "purge domain config" (domainSubKeys ps d) in
  let prefix := "/system/domain_admin/" +:+ d +:+ "/" in
  let? grants := wrapf ("purge domain config: scan " +:+ quote prefix) (scanKeys ps prefix) in
  let? recs := wrapf "purge domain config" (domainAddressRecords ps ("@" +:+ d)) in
  let? claims := wrapf "purge domain config" (domainClaimKeys ps ("@" +:+ d)) in
  Ok (sub ++ grants ++ [CatchAllKey d] ++ (da_key <$> List.filter (fun r => negb (da_live r)) recs) ++ claims).

(** Every key is attempted; the failures are collected. *)
Fixpoint delete_all (keys : list string) ps : DB * list err :=
  match keys with
  | [] => (ps, [])
  | k :: keys =>
      let (ps1, r) := ApplyCommand (mkCmd OP_DELETE k "") ps in
      let (ps2, errs) := delete_all keys ps1 in
      (ps2, match r with Ok _ => errs | Err e => Wrap ("delete " +:+ quote k) e :: errs end)
  end.
Definition PurgeDomainConfig (domain : string) : GoM DB unit := fun ps =>
  let d := ToLower (TrimSpace domain) in
  if String.eqb d "" then (ps, Err (Errorf "purge domain config: empty domain")) else
  match purge_keys ps d with
  | Err e => (ps, Err e)
  | Ok keys =>
      let (ps', errs) := delete_all keys ps in
      (ps', match Join_errors errs with
            | None => Ok tt
            | Some e => Err (Wrap ("purge domain config " +:+ quote d) e)
            end)
  end.

End Cascade.
