(* ===== verification/DomainsThm.v ===== *)
(** Theorems on domain administration, quotas and the purge of a domain. *)

From S2P Require Import Prelude GoStrings Pebble Proto UserData Acl Directory Domains DomainCascade.
From Stdlib Require Import Ascii.

(** * Loops over iterators *)

Lemma collect_omap {A} (f : string -> result string -> result (option A)) (g : string * string -> option A) l :
  (forall kv, kv ∈ l -> f kv.1 (Ok kv.2) = Ok (g kv)) ->
  collect f ((fun kv : string * string => (kv.1, Ok kv.2)) <$> l) = Ok (omap g l).
Proof.
  induction l as [|[k v] l IH]; intros Hf; [done|]. pose proof (Hf (k, v) ltac:(set_solver)) as E. cbn in *. rewrite E. cbn.
  rewrite IH by (intros; apply Hf; set_solver). cbn. by destruct (g (k, v)).
Qed.

Lemma elem_of_scan_omap {A} (g : string * string -> option A) p c a :
  a ∈ omap g (scan p c) <-> exists k v, c !! k = Some v /\ HasPrefix k p = true /\ g (k, v) = Some a.
Proof.
  rewrite list_elem_of_omap. split.
  - intros ([k v]&[? ?]%elem_of_scan&?). eauto 10.
  - intros (k&v&?&?&?). exists (k, v). split; [by apply elem_of_scan|done].
Qed.

(** * Quotas *)

Lemma le_get_put w n : 0 <= n < 256 ^ Z.of_nat w -> le_get (le_put w n) = n.
Proof.
  revert n. induction w as [|w IH]; intros n Hn; [cbn in *; lia|]. cbn [le_put le_get].
  rewrite Nat2Z.inj_succ, Z.pow_succ_r in Hn by lia. rewrite byte_char by (apply Z.mod_pos_bound; lia).
  rewrite IH; [pose proof (Z.div_mod n 256); lia|]. split; [apply Z.div_pos; lia|apply Z.div_lt_upper_bound; lia].
Qed.
Lemma le_put_length w n : String.length (le_put w n) = w.
Proof. revert n. induction w; intros; cbn; auto. Qed.

Lemma le_get_nonneg x : 0 <= le_get x.
Proof. induction x as [|c x IH]; cbn [le_get]; [done|]. pose proof (byte_of_range c). lia. Qed.

Section Quota.
Context {DB : Type} `{PebbleLaws DB} `{ProtoLaws DomainQuota} `{GoUnicode}.
Implicit Types s : DB.

Lemma MaxInt64_val : MaxInt64 = 9223372036854775807.
Proof. reflexivity. Qed.
Lemma GetUsage_clamped s d u : GetUsage s d = Ok u -> 0 <= u <= MaxInt64.
Proof.
  unfold GetUsage. destruct (Get s _) as [data|e]; [|destruct (errors_is _ _); intros [= <-]; rewrite ?MaxInt64_val; lia].
  destruct (_ <? 8)%nat; [intros [= <-]; rewrite ?MaxInt64_val; lia|]. generalize (str_take 8 data). intros x [= <-].
  pose proof (le_get_nonneg x). destruct (Z.ltb_spec MaxInt64 (le_get x)); pose proof MaxInt64_val; lia.
Qed.

(** The quota check is exact and does not wrap.  With a stored usage of [n]
    bytes, however large, and a limit, the check refuses exactly when the limit
    is reached or [add] more bytes would pass it, in unbounded arithmetic; a
    limit of zero or less is no limit, and a negative size counts as none. *)
Theorem storage_quota_exact s d q vq n add :
  healthy s -> contents s !! DomainQuotaKey d = Some vq -> unmarshal vq = Ok q ->
  contents s !! DomainUsageKey d = Some (le_put 8 n) -> 0 <= n < 2 ^ 64 -> in_i64 (dq_MaxStorageBytes q) -> in_i64 add ->
  wouldExceedStorageQuota s d add =
    Ok (bool_decide (0 < dq_MaxStorageBytes q /\ (dq_MaxStorageBytes q <= n \/ dq_MaxStorageBytes q < n + Z.max 0 add))).
Proof.
  intros Hs Hq Hvq Hu Hn Hm Ha. unfold wouldExceedStorageQuota, GetQuota, GetUsage, in_i64 in *.
  rewrite !Get_healthy, Hq, Hu by done. cbn [of_option]. rewrite Hvq. cbn [wrapf result_bind].
  destruct (Z.leb_spec (dq_MaxStorageBytes q) 0); [rewrite bool_decide_eq_false_2 by lia; done|].
  rewrite le_put_length. cbn [Nat.ltb Nat.leb wrapf result_bind].
  replace (str_take 8 (le_put 8 n)) with (le_put 8 n) by done. rewrite le_get_put by (cbn; lia).
  set (a := if add <? 0 then 0 else add). assert (a = Z.max 0 add) as <- by (unfold a; destruct (Z.ltb_spec add 0); lia).
  set (u := if MaxInt64 <? n then MaxInt64 else n).
  assert (u = Z.min MaxInt64 n) as -> by (unfold u; destruct (Z.ltb_spec MaxInt64 n); lia).
  unfold MaxInt64 in *. destruct (Z.leb_spec (dq_MaxStorageBytes q) (Z.min (2 ^ 63 - 1) n)).
  - rewrite bool_decide_eq_true_2; [done|]. lia.
  - f_equal. unfold i64. rewrite Z.mod_small by lia.
    destruct (Z.ltb_spec (dq_MaxStorageBytes q - Z.min (2 ^ 63 - 1) n + 2 ^ 63 - 2 ^ 63) a);
      [rewrite bool_decide_eq_true_2 by lia|rewrite bool_decide_eq_false_2 by lia]; done.
Qed.
End Quota.

(** * Authority *)

Section Authority.
Context {DB : Type} `{PebbleLaws DB} `{GoUnicode}.
Implicit Types (s : DB) (c : gmap string string).

Lemma owner_name_spec k d :
  HasPrefix k domainPrefix = true ->
  owner_name k = Some d <-> k = domainPrefix +:+ d +:+ "/owner" /\ has_char "/" d = false.
Proof.
  intros [x ->]%prefix_spec. unfold owner_name. rewrite TrimPrefix_app. split.
  - destruct (HasSuffix x "/owner") eqn:Hx; [|done]. cbn [negb]. apply HasSuffix_inv in Hx as [y ->].
    rewrite TrimSuffix_app, Contains_char. destruct (has_char "/" y) eqn:Hy; [done|]. by intros [= <-].
  - intros [E Hd]. apply str_app_inv_head in E as ->. rewrite HasSuffix_app, TrimSuffix_app, Contains_char, Hd. done.
Qed.

Lemma grant_spec k d u :
  HasPrefix k adminPrefix = true -> has_char "/" d = false ->
  SplitN (TrimPrefix k adminPrefix) "/" 2 = [d; u] <-> k = adminPrefix +:+ d +:+ "/" +:+ u.
Proof.
  intros [x ->]%prefix_spec Hd. rewrite TrimPrefix_app. cbn [SplitN]. split.
  - destruct (Cut x "/") as [[a b]|] eqn:E; [|done]. intros [= <- <-]. by apply Cut_Some in E as ->.
  - intros ->%str_app_inv_head. by rewrite (Cut_char "/").
Qed.

Lemma foldl_add_new l acc : (forall d, d ∈ foldl add_new acc l <-> d ∈ acc \/ d ∈ l) /\ (NoDup acc -> NoDup (foldl add_new acc l)).
Proof.
  revert acc. induction l as [|x l IH]; intros acc; [split; [set_solver|done]|]. cbn [foldl].
  destruct (IH (add_new acc x)) as [Hel Hnd]. unfold add_new in *. case_bool_decide as Hx.
  - split; [|done]. intros d. rewrite Hel. set_solver.
  - split; [intros d; rewrite Hel; set_solver|]. intros Hacc. apply Hnd, NoDup_app. split; [done|]. split; [|apply NoDup_singleton]. set_solver.
Qed.

Lemma keep_existing_spec s l :
  healthy s -> keep_existing s l = Ok (filter (fun d => is_Some (contents s !! (domainPrefix +:+ ToLower d))) l).
Proof.
  intros Hs. induction l as [|d l IH]; [done|]. cbn [keep_existing]. unfold domainExists, key_exists. rewrite Get_healthy by done.
  rewrite filter_cons. destruct (contents s !! _) as [v|]; cbn [of_option].
  - cbn [wrapf result_bind]. rewrite IH. cbn [result_bind]. rewrite decide_True by eauto. done.
  - replace (errors_is ErrNotFound ErrNotFound) with true by done. cbn [wrapf result_bind]. rewrite IH. cbn [result_bind].
    rewrite decide_False by (by intros []). done.
Qed.

(** The authority of a domain administrator is exact.  A user who is not a
    global administrator may administer a domain exactly when it exists and the
    user is its owner or holds a grant for it; each is listed once. *)
Theorem authorized_domains_exact s u :
  healthy s ->
  (forall k v, contents s !! k = Some v -> HasPrefix k adminPrefix = true ->
     exists d u', k = adminPrefix +:+ d +:+ "/" +:+ u' /\ has_char "/" d = false) ->
  exists l, AuthorizedDomains s u false = Ok l /\ NoDup l /\
  forall d, d ∈ l <->
    is_Some (contents s !! (domainPrefix +:+ ToLower d)) /\ has_char "/" d = false /\
    ((exists v, contents s !! (domainPrefix +:+ d +:+ "/owner") = Some v /\ TrimSpace v = u) \/
     is_Some (contents s !! (adminPrefix +:+ d +:+ "/" +:+ u))).
Proof.
  intros Hs Hgr. unfold AuthorizedDomains. rewrite PrefixScan_healthy by done. cbn [wrapf result_bind].
  rewrite (collect_omap _ (fun kv => match owner_name kv.1 with
     | Some d => if String.eqb (TrimSpace kv.2) u then Some d else None | None => None end)) by (intros [k v] _; cbn; by destruct (owner_name k)).
  cbn [result_bind]. unfold ListForUser. rewrite PrefixScan_healthy by done. cbn [wrapf result_bind].
  rewrite (collect_omap _ (fun kv => match SplitN (TrimPrefix kv.1 adminPrefix) "/" 2 with
     | [d; u'] => if String.eqb u' u then Some d else None | _ => None end)) by done.
  cbn [wrapf result_bind]. rewrite keep_existing_spec by done. eexists. split; [done|].
  match goal with |- context [foldl add_new [] ?x] => set (l := x); destruct (foldl_add_new l []) as [Hel Hnd] end.
  split; [apply NoDup_filter, Hnd, NoDup_nil_2|]. intros d. rewrite list_elem_of_filter, Hel. unfold l.
  rewrite elem_of_app, !elem_of_scan_omap. f_equiv. split.
  - intros [?%elem_of_nil|[(k&v&Hk&Hp&Hg)|(k&v&Hk&Hp&Hg)]]; [done|..]; cbn [fst snd] in Hg.
    + destruct (owner_name k) as [d'|] eqn:E; [|done]. apply owner_name_spec in E as [-> Hd]; [|done].
      destruct (String.eqb_spec (TrimSpace v) u); simplify_eq. eauto 10.
    + destruct (Hgr k v Hk Hp) as (d'&u'&->&Hd'). rewrite (proj2 (grant_spec _ d' u' Hp Hd') eq_refl) in Hg.
      destruct (String.eqb_spec u' u); simplify_eq. eauto 10.
  - intros [Hd [(v&Hk&Hv)|[v Hk]]]; right; [left|right]; eexists _, v; (split; [exact Hk|]).
    + split; [apply prefix_app|]. cbn [fst snd]. rewrite (proj2 (owner_name_spec _ d (prefix_app _ _)) (conj eq_refl Hd)).
      by rewrite Hv, String.eqb_refl.
    + split; [apply prefix_app|]. cbn [fst snd]. rewrite (proj2 (grant_spec _ d u (prefix_app _ _) Hd) eq_refl). by rewrite String.eqb_refl.
Qed.
End Authority.

(** * Purging a domain *)

Section Purge.
Context {DB : Type} `{PlainApplier DB} `{Codec AddressRecord} `{Codec UserProfile} `{GoUnicode}.
Implicit Types s : DB.

(** What belongs to the configuration of domain [d]: its sub-keys in any
    spelling, its grants and catch-all, the pending claims of addresses on it,
    and the address records whose account is gone. *)
Definition ownerless s (suffix k v : string) : Prop :=
  HasPrefix k addressPrefix = true /\ HasSuffix (ToLower (TrimPrefix k addressPrefix)) suffix = true /\
  exists rec : AddressRecord, unmarshal v = Ok rec /\ userProfileExists s (ar_UserId rec) = false.
Definition config_key (d k : string) : Prop :=
  HasPrefix k domainPrefix = true /\ sub_key d k = true \/
  HasPrefix k ("/system/domain_admin/" +:+ d +:+ "/") = true \/
  HasPrefix k "/user/" = true /\ claim_key ("@" +:+ d) k = true.
Definition domain_config s (d k : string) : Prop :=
  exists v, contents s !! k = Some v /\ (config_key d k \/ k = CatchAllKey d \/ ownerless s ("@" +:+ d) k v).

Lemma collect_elem {A} (f : string -> result string -> result (option A)) l out a :
  collect f l = Ok out -> a ∈ out <-> exists k v, (k, v) ∈ l /\ f k v = Ok (Some a).
Proof.
  revert out. induction l as [|[k v] l IH]; intros out; cbn [collect]; [intros [= <-]; set_solver|].
  destruct (f k v) as [o|] eqn:Ef; [cbn [result_bind]|done]. destruct (collect f l) as [rest|]; [|done]. cbn [result_bind].
  intros [= <-]. specialize (IH rest eq_refl). destruct o as [b|].
  - rewrite elem_of_cons, IH. split.
    + intros [->|(k'&v'&?&?)]; [exists k, v|exists k', v']; (split; [set_solver|done]).
    + intros (k'&v'&[[= -> ->]|?]%elem_of_cons&E); [left; congruence|right; eauto].
  - rewrite IH. split; intros (k'&v'&Hin&E); [exists k', v'; split; [set_solver|done]|].
    apply elem_of_cons in Hin as [[= -> ->]|?]; [congruence|eauto].
Qed.

Lemma scan_fst s p k : k ∈ (((fun kv : string * string => (kv.1, Ok kv.2 : result string)) <$> scan p (contents s)).*1) <->
  exists v, contents s !! k = Some v /\ HasPrefix k p = true.
Proof.
  rewrite <-list_fmap_compose, list_elem_of_fmap. split.
  - intros ([k' v]&->&[? ?]%elem_of_scan). eauto.
  - intros (v&?&?). exists (k, v). split; [done|]. by apply elem_of_scan.
Qed.
Lemma scan_fst_filter s p (P : string -> bool) k :
  k ∈ List.filter P (((fun kv : string * string => (kv.1, Ok kv.2 : result string)) <$> scan p (contents s)).*1) <->
  exists v, contents s !! k = Some v /\ HasPrefix k p = true /\ P k = true.
Proof. rewrite list_elem_of_In, filter_In, <-list_elem_of_In, scan_fst. naive_solver. Qed.

Lemma ownerless_keys s suffix recs k :
  healthy s -> domainAddressRecords s suffix = Ok recs ->
  k ∈ da_key <$> List.filter (fun r => negb (da_live r)) recs <-> exists v, contents s !! k = Some v /\ ownerless s suffix k v.
Proof.
  intros Hs. unfold domainAddressRecords. rewrite PrefixScan_healthy by done. cbn [wrapf result_bind]. intros Hr.
  rewrite list_elem_of_fmap. setoid_rewrite list_elem_of_In. setoid_rewrite filter_In. setoid_rewrite <-list_elem_of_In.
  setoid_rewrite (collect_elem _ _ _ _ Hr). unfold ownerless. split.
  - intros (r&->&(k0&v&Hin&E)&Hl). apply list_elem_of_fmap in Hin as ([k' v']&[= -> ->]&[Hv Hp]%elem_of_scan). exists v'.
    destruct (HasSuffix _ suffix) eqn:Hsu; [|done]. cbn [negb iter_value wrapf result_bind] in E.
    destruct (unmarshal v') as [rec|] eqn:Hu; [|done]. cbn [wrapf result_bind] in E. injection E as <-. cbn [da_key da_live] in *.
    split; [done|]. split; [done|]. split; [done|]. exists rec. split; [done|]. by apply negb_true_iff.
  - intros (v&Hv&Hp&Hsu&rec&Hu&Hl). exists (mkDomainAddr k (ar_Kind rec) false). split; [done|]. split; [|done].
    exists k, (Ok v). split; [apply list_elem_of_fmap; exists (k, v); split; [done|by apply elem_of_scan]|].
    rewrite Hsu. cbn [negb iter_value wrapf result_bind]. rewrite Hu. cbn [wrapf result_bind]. by rewrite Hl.
Qed.

Lemma purge_keys_spec s d keys k :
  healthy s -> purge_keys s d = Ok keys -> k ∈ keys <-> k = CatchAllKey d \/ domain_config s d k.
Proof.
  intros Hs. unfold purge_keys, domainSubKeys, scanKeys, domainClaimKeys. rewrite !PrefixScan_healthy by done. cbn [wrapf result_bind].
  destruct (domainAddressRecords s _) as [recs|] eqn:Er; [|done]. cbn [wrapf result_bind]. intros [= <-].
  rewrite !elem_of_app, elem_of_cons, elem_of_app, (ownerless_keys _ _ _ _ Hs Er), !scan_fst_filter, scan_fst.
  unfold domain_config, config_key. naive_solver.
Qed.

Lemma config_plain s d k : k = CatchAllKey d \/ domain_config s d k -> plain_command (mkCmd OP_DELETE k "").
Proof.
  assert (forall p q, HasPrefix p q = true -> HasPrefix k p = true -> HasPrefix k q = true) as Htrans
    by (intros p q [x ->]%prefix_spec [y ->]%prefix_spec; rewrite str_app_assoc; apply prefix_app).
  intros Hk. split; [|done]. cbn [cmd_Key].
  destruct Hk as [->|(v&_&[[[? _]|[?|[? _]]]|[->|[? _]]])]; [right; done|right|right|by left|right; done|right];
    (eapply Htrans; [|done]); done.
Qed.

(** Every key of the list is deleted or reported. *)
Lemma delete_all_spec keys s s' errs :
  Forall (fun k => plain_command (mkCmd OP_DELETE k "")) keys -> healthy s -> pready (length keys) s ->
  delete_all keys s = (s', errs) ->
  forall k, pown k = false ->
    (contents s' !! k = contents s !! k \/ k ∈ keys /\ contents s' !! k = None) /\
    (errs = [] -> k ∈ keys -> contents s' !! k = None) /\ (k ∉ keys -> contents s' !! k = contents s !! k).
Proof.
  revert s errs. induction keys as [|q keys IH]; intros s errs Hpl Hs Hr; cbn [delete_all].
  { intros [= <- <-]. set_solver. }
  apply Forall_cons in Hpl as [Hq Hpl]. destruct (ApplyCommand _ s) as [s1 r] eqn:E1.
  destruct (delete_all keys s1) as [s2 e2] eqn:E2. intros [= <- <-] k Hk.
  destruct (pap _ _ _ _ _ Hr Hs Hq E1) as (Hs1&Hr1&Hc). specialize (Hc k Hk).
  destruct (IH _ _ Hpl Hs1 Hr1 E2 k Hk) as (H1'&H2'&H3').
  assert (contents s1 !! k = contents s !! k \/ k = q /\ contents s1 !! k = None) as Hstep.
  { rewrite Hc. destruct r; cbn [is_ok plain_result cmd_Op cmd_Key]; [|by left].
    destruct (decide (k = q)) as [->|]; [right; by rewrite lookup_delete_eq|left; by rewrite lookup_delete_ne]. }
  assert (is_ok r = true -> k = q -> contents s1 !! k = None) as Hq'.
  { intros Hok ->. rewrite Hc, Hok. cbn [plain_result cmd_Op cmd_Key]. apply lookup_delete_eq. }
  split; [|split].
  - destruct H1' as [->|[? ->]]; [destruct Hstep as [->|[-> ->]]|]; set_solver.
  - destruct r; [intros ->|done]. specialize (Hq' eq_refl). rewrite elem_of_cons. intros [->|?]; [|by apply H2'].
    destruct H1' as [->|[_ ->]]; auto.
  - rewrite not_elem_of_cons. intros [? ?]. rewrite H3' by done. destruct Hstep as [->|[? _]]; done.
Qed.

Lemma Join_errors_None l : Join_errors l = None -> l = [].
Proof. by destruct l. Qed.

(** Purging a domain removes its configuration and nothing else.  Whatever
    happens, a key that is not part of the domain's configuration keeps its
    value; when the purge reports success the whole of it is gone, so that a
    domain created again under the name inherits nothing.  Addresses of live
    accounts are not part of it. *)
Theorem purge_exact s s' r domain d keys :
  d = ToLower (TrimSpace domain) -> d <> "" -> healthy s -> purge_keys s d = Ok keys -> pready (length keys) s ->
  PurgeDomainConfig domain s = (s', r) ->
  forall k, pown k = false ->
    (~ domain_config s d k -> contents s' !! k = contents s !! k) /\
    (domain_config s d k -> contents s' !! k = contents s !! k \/ contents s' !! k = None) /\
    (r = Ok tt -> domain_config s d k -> contents s' !! k = None).
Proof.
  intros -> Hd Hs Hkeys Hr. unfold PurgeDomainConfig. rewrite (proj2 (String.eqb_neq _ _)) by done. rewrite Hkeys.
  destruct (delete_all keys s) as [s1 errs] eqn:E. intros [= -> Hres] k Hk.
  pose proof (fun k => purge_keys_spec s _ keys k Hs Hkeys) as Hspec.
  assert (Forall (fun k => plain_command (mkCmd OP_DELETE k "")) keys) as Hpl
    by (apply Forall_forall; intros q Hq; eapply config_plain, Hspec, Hq).
  destruct (delete_all_spec _ _ _ _ Hpl Hs Hr E k Hk) as (H1'&H2'&H3'). repeat split.
  - intros Hn. destruct H1' as [?|[Hin E']]; [done|]. apply Hspec in Hin as [->|?]; [|done].
    destruct (contents s !! _) as [v|] eqn:Ev; [|done]. destruct Hn. exists v. auto.
  - naive_solver.
  - intros ->. destruct (Join_errors errs) eqn:Ej; [done|]. intros Hc. apply H2'; [by apply Join_errors_None|]. apply Hspec. by right.
Qed.
End Purge.

(** * Evaluation *)

Section Demo.
#[local] Existing Instances plain_raft plain_applier bytewise_unicode.
#[local] Instance demo_addr : Codec AddressRecord := tagged_codec "A".
#[local] Instance demo_prof : Codec UserProfile := tagged_codec "P".
#[local] Instance demo_quota : Codec DomainQuota := tagged_codec "Q".
Definition bytes_of {A} `{Codec A} (a : A) : string := match marshal a with Ok v => v | Err _ => "" end.

(** x.org: owned by u1, granted to u2, with a quota of 100 bytes and a usage
    beyond the signed range; old.org is gone but a grant for it is left. *)
Definition demo_domains : MemDB := mem_of
  [("/system/domain/x.org", "enabled"); ("/system/domain/x.org/owner", "u1"); ("/system/domain_admin/x.org/u2", "1");
   ("/system/domain_admin/old.org/u2", "1"); ("/system/catchall/x.org", "u1");
   ("/system/domain/x.org/quota", bytes_of (mkQuota 0 100)); ("/system/domain/x.org/usage", le_put 8 (2 ^ 63 + 5));
   ("/system/address/ann@x.org", bytes_of (mkAddr "u1" "x.org" "primary" true true));
   ("/system/address/gone@x.org", bytes_of (mkAddr "u9" "x.org" "primary" true true));
   ("/user/u1/profile", bytes_of (mkProfile "ann@x.org" "" "" "" 0 false false [] false 0 0 "" 0 "" false))].
Lemma demo_domains_healthy : healthy demo_domains.
Proof. done. Qed.

Lemma storage_quota_exact_witness : wouldExceedStorageQuota demo_domains "X.org" 1 = Ok true.
Proof.
  refine (eq_trans (storage_quota_exact demo_domains "X.org" (mkQuota 0 100) (bytes_of (mkQuota 0 100)) (2 ^ 63 + 5) 1 _ _ _ _ _ _ _) _).
  - exact demo_domains_healthy.
  - vm_compute. reflexivity.
  - vm_compute. reflexivity.
  - vm_compute. reflexivity.
  - split; [discriminate|reflexivity].
  - split; [discriminate|reflexivity].
  - split; [discriminate|reflexivity].
  - reflexivity.
Defined.

Lemma authorized_domains_exact_witness :
  exists l, AuthorizedDomains demo_domains "u2" false = Ok l /\ NoDup l /\ AuthorizedDomains demo_domains "u2" false = Ok ["x.org"].
Proof.
  destruct (authorized_domains_exact demo_domains "u2" demo_domains_healthy) as (l&Hl&Hnd&_).
  - assert (Forall (fun kv : string * string => HasPrefix kv.1 adminPrefix = true ->
       exists d u', kv.1 = adminPrefix +:+ d +:+ "/" +:+ u' /\ has_char "/" d = false) (map_to_list (mem demo_domains))) as Hf.
    { vm_compute map_to_list. repeat (apply Forall_cons_2; [intros Hk; try discriminate Hk|]); [..|constructor].
      all: first [exists "x.org", "u2"; split; reflexivity | exists "old.org", "u2"; split; reflexivity]. }
    intros k v Hk Hp. rewrite Forall_forall in Hf. exact (Hf (k, v) (proj2 (elem_of_map_to_list _ k v) Hk) Hp).
  - exists l. split; [exact Hl|]. split; [exact Hnd|]. vm_compute. reflexivity.
Defined.

Definition purged : MemDB := (PurgeDomainConfig "X.org" demo_domains).1.
Lemma purge_exact_witness :
  contents purged !! "/system/domain_admin/x.org/u2" = None /\ is_Some (contents purged !! "/system/address/ann@x.org") /\
  contents purged !! "/system/address/gone@x.org" = None.
Proof.
  destruct (purge_keys demo_domains "x.org") as [keys|] eqn:Ek; [|vm_compute in Ek; discriminate Ek].
  assert (PurgeDomainConfig "X.org" demo_domains = (purged, Ok tt)) as E by (vm_compute; reflexivity).
  pose proof (purge_exact demo_domains purged (Ok tt) "X.org" "x.org" keys eq_refl ltac:(discriminate) demo_domains_healthy Ek I E) as Hp.
  split; [|split].
  - apply (Hp "/system/domain_admin/x.org/u2" eq_refl); [reflexivity|]. exists "1". split; [vm_compute; reflexivity|].
    left. right. left. reflexivity.
  - vm_compute. eauto.
  - vm_compute. reflexivity.
Defined.
End Demo.
