(* ===== verification/Resolver.v ===== *)
(** Resolving an address to an account: [internal/store/recipient_resolver.go].

    [resolveOnce] of the source calls itself in two ways: rewritten to the
    target of an alias domain with the rewrite switched off, and, through
    [configuredPostmaster], strictly for the configured account.  The calls nest
    at most four deep, so the function is given layer by layer;
    [resolveOnce_eq] (in [ResolverThm]) shows that it satisfies the recursive
    equation of the source. *)

From S2P Require Import Prelude GoStrings Pebble Proto UserData Acl Directory Domains Srs.
From Stdlib Require Import Ascii.

Definition ErrRecipientUnavailable : err := Sentinel "recipient unavailable".

(** Which stores the node has, and the configured postmaster account.  The
    address store reads the same Pebble store as the resolver. *)
Record RecipientResolver := mkResolver {
  rr_addresses : bool; rr_pebble : bool; rr_system : option SystemIndex; rr_postmasterAccount : string }.

Definition isRoleLocalPart (local : string) : bool := String.eqb local "postmaster" || String.eqb local "abuse".
Definition roleLocalParts : list string := ["postmaster"; "abuse"].
Definition unavailable (email : string) : err := Wrap ("resolve recipient: " +:+ email) ErrRecipientUnavailable.

Section Resolver.
Context {DB : Type} `{PebbleDB DB} `{Codec AddressRecord} `{Codec UserProfile} `{GoUnicode}.

Definition SetPostmasterAccount (r : RecipientResolver) (addr : string) : RecipientResolver :=
  mkResolver (rr_addresses r) (rr_pebble r) (rr_system r) (ToLower (TrimSpace addr)).

Section Lookup.
Context (r : RecipientResolver) (ps : DB).

(** No row, a failing query and an empty ID are one case. *)
Definition usersRow (username : string) : option (string * bool) :=
  match rr_system r with
  | None => None
  | Some si =>
      match si_down si, si_users si !! username with
      | None, Some (id, enabled) => if String.eqb id "" then None else Some (id, enabled)
      | _, _ => None
      end
  end.

Definition live (email userID : string) (strict : bool) : result string :=
  if negb (rr_pebble r) then
    if strict then Err (Errorf ("resolve account: " +:+ email +:+ ": no profile store")) else Ok userID
  else
    match profileState ps userID with
    | Err e => if strict then Err (Wrap ("resolve account: " +:+ email) e) else Ok userID
    | Ok (exists_, disabled) => if negb exists_ || disabled then Err (unavailable email) else Ok userID
    end.
Definition liveEnabled (email userID : string) (enabled strict : bool) : result string :=
  if negb (rr_pebble r) && negb enabled then Err (unavailable email) else live email userID strict.

Definition is_hosted (domain : string) : bool := match DomainHosted ps domain with Ok h => h | Err _ => false end.
Definition is_disabled (domain : string) : bool := match DomainDisabled ps domain with Ok off => off | Err _ => false end.

(** ** The postmaster tier *)

Definition postmasterOwner (domain : string) : option string :=
  if negb (rr_pebble r) || String.eqb domain "" || Contains domain "/" then None else
  if negb (is_hosted domain) then None else
  match Get ps (domainOwnerKey domain) with
  | Err _ => None
  | Ok data =>
      let id := TrimSpace data in
      if String.eqb id "" then None else
      match profileState ps id with
      | Ok (true, false) => Some id
      | _ => None
      end
  end.

(** [configured] is the outcome of [configuredPostmaster]. *)
Definition postmasterTarget (configured : option string) (domain : string) : option string :=
  if negb (rr_pebble r) || String.eqb domain "" || Contains domain "/" then None else
  if negb (is_hosted domain) then None else
  match postmasterOwner domain with
  | Some id => Some id
  | None =>
      match DomainAliasOf ps domain with
      | Ok (Some target) =>
          if is_disabled target then None else
          match postmasterOwner target with Some id => Some id | None => configured end
      | _ => configured
      end
  end.

(** ** Alias domains *)

Definition aliasTarget (email : string) (allowRewrite : bool) : option string :=
  if negb allowRewrite || negb (rr_pebble r) then None else
  match CutLast email "@" with
  | None => None
  | Some (local, domain) =>
      if String.eqb local "" || negb (validAliasName domain) then None else
      match DomainAliasOf ps domain with
      | Ok (Some target) =>
          if String.eqb target domain || negb (is_hosted domain) || negb (is_hosted target) then None else Some target
      | _ => None
      end
  end.

(** ** The tiers *)

Definition normalise (email : string) : string :=
  ToLower (TrimSpace (TrimSuffix (TrimPrefix email "<") ">")).

(** The explicit record of an address: its owner, for a primary address or an
    alias, and the owner of a verified identity. *)
Definition address_entry (email : string) : option AddressRecord :=
  if negb (rr_addresses r) then None else
  match addr_Get ps email with
  | Ok (Some rec) => if String.eqb (ar_UserId rec) "" then None else Some rec
  | _ => None
  end.
Definition routes (rec : AddressRecord) : bool := String.eqb (ar_Kind rec) "primary" || String.eqb (ar_Kind rec) "alias".

(** Tier 2a: [None] when there is no legacy alias, or nothing to look its
    target up in. *)
Definition legacy_alias (email : string) (strict : bool) : option (result string) :=
  if negb (rr_pebble r) then None else
  match Get ps ("/system/alias/" +:+ email) with
  | Err _ => None
  | Ok aliasData =>
      if String.eqb aliasData "" then None else
      let targetUsername := TrimSpace aliasData in
      match usersRow targetUsername with
      | Some (userID, enabled) => Some (liveEnabled email userID enabled strict)
      | None =>
          if rr_addresses r then
            match addr_Get ps (ToLower targetUsername) with
            | Ok (Some rec) => if negb (String.eqb (ar_UserId rec) "") && routes rec
                               then Some (live email (ar_UserId rec) strict) else Some (Err (unavailable email))
            | Ok None => Some (Err (unavailable email))
            | Err e => Some (Err (Wrap ("resolve recipient: " +:+ email +:+ ": alias target lookup") e))
            end
          else match rr_system r with Some _ => Some (Err (unavailable email)) | None => None end
      end
  end.

(** Tier 3. *)
Definition catch_all (email : string) : option (result string) :=
  if negb (rr_pebble r) then None else
  match SplitN email "@" 2 with
  | [local; domain] =>
      if String.eqb domain "" || IsSRS local then None else
      match Get ps (CatchAllKey domain) with
      | Err _ => None
      | Ok data => let ownerID := TrimSpace data in
                   if String.eqb data "" || String.eqb ownerID "" then None else Some (live email ownerID false)
      end
  | _ => None
  end.

Definition not_local (email : string) : result string := Err (Errorf ("resolve recipient: " +:+ email +:+ ": not a local address")).

(** The role address of a hosted domain, when [email] is one. *)
Definition role_domain (email : string) : option string :=
  match Cut email "@" with Some (local, domain) => if isRoleLocalPart local then Some domain else None | None => None end.

(** The part after the explicit tiers: postmaster, alias rewrite, catch-all. *)
Definition last_tiers (strict allowRewrite : bool) (configured : option string) (again : string -> result string)
    (email : string) : result string :=
  let alias := aliasTarget email allowRewrite in
  let role := if strict then None else role_domain email in
  match match role with
        | Some domain => match alias with Some _ => postmasterOwner domain | None => postmasterTarget configured domain end
        | None => None
        end with
  | Some id => Ok id
  | None =>
      match alias with
      | Some target => again ((match Cut email "@" with Some (local, _) => local | None => email end) +:+ "@" +:+ target)
      | None =>
          match (if strict then None else catch_all email) with
          | Some res => res
          | None =>
              match role with
              | Some domain => if rr_pebble r && negb (Contains domain "/") && is_hosted domain
                               then Err (unavailable email) else not_local email
              | None => not_local email
              end
          end
      end
  end.

(** The body of [resolveOnce], with what its inner calls give. *)
Definition resolve_step (strict allowRewrite : bool) (configured : option string) (again : string -> result string)
    (email : string) : result string :=
  let email := normalise email in
  if String.eqb email "" then Err (Errorf "resolve recipient: empty address") else
  if String.eqb email "postmaster" && negb strict then
    match configured with Some id => Ok id | None => not_local email end
  else
  let parts := CutLast email "@" in
  if match parts with Some (local, _) => negb (String.eqb local "") && IsNoRelay local | None => false end
  then Err (Errorf ("resolve recipient: " +:+ email +:+ ": reserved address")) else
  if negb strict && rr_pebble r &&
     match parts with Some (local, domain) => negb (String.eqb local "") && is_disabled domain | None => false end
  then Err (unavailable email) else
  let entry := address_entry email in
  match entry with
  | Some rec =>
      if routes rec then live email (ar_UserId rec) strict else
      let identityOwner := if String.eqb (ar_Kind rec) "identity" && ar_Verified rec then Some (ar_UserId rec) else None in
      match legacy_alias email strict with
      | Some res => res
      | None =>
          match usersRow email with
          | Some (userID, enabled) => liveEnabled email userID enabled strict
          | None =>
              match (if strict then None else identityOwner) with
              | Some owner => live email owner strict
              | None => last_tiers strict allowRewrite configured again email
              end
          end
      end
  | None =>
      match legacy_alias email strict with
      | Some res => res
      | None =>
          match usersRow email with
          | Some (userID, enabled) => liveEnabled email userID enabled strict
          | None => last_tiers strict allowRewrite configured again email
          end
      end
  end.

(** ** The layers *)

Definition stop (email : string) : result string := not_local email.
Definition strict_rewritten : string -> result string := resolve_step true false None stop.
Definition strict_resolve : string -> result string := resolve_step true true None strict_rewritten.
Definition configuredPostmaster : option string :=
  if String.eqb (rr_postmasterAccount r) "" then None else
  match strict_resolve (rr_postmasterAccount r) with Ok id => Some id | Err _ => None end.
Definition open_rewritten : string -> result string := resolve_step false false configuredPostmaster stop.
Definition open_resolve : string -> result string := resolve_step false true configuredPostmaster open_rewritten.

Definition resolveOnce (email : string) (strict allowRewrite : bool) : result string :=
  match strict, allowRewrite with
  | true, true => strict_resolve email
  | true, false => strict_rewritten email
  | false, true => open_resolve email
  | false, false => open_rewritten email
  end.
Definition ResolveRecipient (email : string) : result string := resolveOnce email false true.
Definition ResolveAccount (email : string) : result string := resolveOnce email true true.

Definition HasPostmasterTarget (domain : string) : bool :=
  match postmasterTarget configuredPostmaster (ToLower domain) with Some _ => true | None => false end.

Definition DomainsWithoutPostmaster : result (list string) :=
  if negb (rr_pebble r) then Ok [] else
  let? it := wrapf "scan domains" (PrefixScan ps domainPrefix) in
  let? out := collect (fun k v =>
    let name := TrimPrefix k domainPrefix in
    if String.eqb name "" || Contains name "/" then Ok None else
    let? val := wrapf ("read domain " +:+ name) (iter_value v) in
    if String.eqb val "disabled" then Ok None else
    let name := ToLower name in
    Ok (if forallb (fun role => is_ok (ResolveRecipient (role +:+ "@" +:+ name))) roleLocalParts then None else Some name)) it in
  Ok (string_sort out).

End Lookup.
End Resolver.
