(* ===== verification/ResolverThm.v ===== *)
(** Theorems on the resolution of addresses. *)

From S2P Require Import Prelude GoStrings Pebble Proto UserData Acl Directory Domains Srs Resolver.
From Stdlib Require Import Ascii.

Section ResolverThm.
Context {DB : Type} `{PebbleDB DB} `{Codec AddressRecord} `{Codec UserProfile} `{GoUnicode}.
Context (r : RecipientResolver) (ps : DB).

Notation step := (resolve_step r ps).
Notation resolve := (resolveOnce r ps).

(** * The recursive equation *)

Lemma last_tiers_again strict c k1 k2 e : last_tiers r ps strict false c k1 e = last_tiers r ps strict false c k2 e.
Proof. reflexivity. Qed.
Lemma last_tiers_strict a c1 c2 k e : last_tiers r ps true a c1 k e = last_tiers r ps true a c2 k e.
Proof. reflexivity. Qed.
Lemma step_again strict c k1 k2 e : step strict false c k1 e = step strict false c k2 e.
Proof. reflexivity. Qed.
Lemma step_strict a c1 c2 k e : step true a c1 k e = step true a c2 k e.
Proof. unfold resolve_step. by rewrite andb_false_r. Qed.

(** The layers satisfy the equation of the source's recursive function, which
    therefore terminates. *)
Theorem resolveOnce_eq e strict allowRewrite :
  resolve e strict allowRewrite =
  step strict allowRewrite (configuredPostmaster r ps) (fun e' => resolve e' strict false) e.
Proof.
  destruct strict, allowRewrite; cbn [resolveOnce].
  - apply step_strict.
  - unfold strict_rewritten. rewrite (step_strict _ _ (configuredPostmaster r ps)). apply step_again.
  - reflexivity.
  - apply step_again.
Qed.

(** * Who an address belongs to *)

(** The first explicit entry that names [e], in the order of the tiers: a
    primary or alias record, a legacy alias, an account of that name, a verified
    identity.  A legacy alias whose target no longer exists names nobody,
    written [""], which has no profile. *)
Definition legacy_owner (e : string) : option string :=
  match Get ps ("/system/alias/" +:+ e) with
  | Err _ => None
  | Ok target =>
      if String.eqb target "" then None else
      Some (match usersRow r (TrimSpace target) with
            | Some (u, _) => u
            | None => match address_entry r ps (ToLower (TrimSpace target)) with
                      | Some rec => if routes rec then ar_UserId rec else ""
                      | None => ""
                      end
            end)
  end.
Definition claim (strict : bool) (e : string) : option string :=
  match address_entry r ps e with
  | Some rec =>
      if routes rec then Some (ar_UserId rec) else
      match legacy_owner e with
      | Some u => Some u
      | None => match usersRow r e with
                | Some (u, _) => Some u
                | None => if negb strict && String.eqb (ar_Kind rec) "identity" && ar_Verified rec
                          then Some (ar_UserId rec) else None
                end
      end
  | None => match legacy_owner e with Some u => Some u | None => fst <$> usersRow r e end
  end.

(** A live account, as far as its profile says. *)
Definition live_account (u : string) : Prop := profileState ps u = Ok (true, false).
Definition dead_account (u : string) : Prop :=
  match profileState ps u with Ok (exists_, disabled) => exists_ = false \/ disabled = true | Err _ => False end.

(** An ordinary address in normal form: not the bare postmaster, not the
    reserved sender, and on an enabled domain. *)
Record ordinary (e : string) : Prop := {
  or_normal : normalise e = e;
  or_nonempty : e <> "";
  or_bare : e <> "postmaster";
  or_local local domain : CutLast e "@" = Some (local, domain) ->
    local = "" \/ IsNoRelay local = false /\ is_disabled ps domain = false;
}.

Hypotheses (Hpebble : rr_pebble r = true) (Haddr : rr_addresses r = true).

(** The profile of [u] and the record of a legacy alias's target can be read. *)
Definition target_readable (e : string) : Prop :=
  forall target, Get ps ("/system/alias/" +:+ e) = Ok target -> is_ok (addr_Get ps (ToLower (TrimSpace target))) = true.

Lemma live_dead e u strict : dead_account u -> live r ps e u strict = Err (unavailable e).
Proof.
  unfold dead_account, live. rewrite Hpebble. cbn [negb].
  destruct (profileState ps u) as [[x d]|]; [|done]. intros [->| ->]; [done|]. by rewrite orb_true_r.
Qed.
Lemma live_alive e u strict : live_account u -> live r ps e u strict = Ok u.
Proof. unfold live_account, live. rewrite Hpebble. by intros ->. Qed.
Lemma live_Ok e u strict id : live r ps e u strict = Ok id -> id = u /\ (strict = true -> live_account u).
Proof.
  unfold live, live_account. rewrite Hpebble. cbn [negb]. destruct (profileState ps u) as [[[] []]|]; try done.
  - by intros [= <-].
  - destruct strict; [done|]. by intros [= <-].
Qed.
Lemma liveEnabled_live e u en strict : liveEnabled r ps e u en strict = live r ps e u strict.
Proof. unfold liveEnabled. by rewrite Hpebble. Qed.

Lemma live_empty e strict : live r ps e "" strict = Err (unavailable e).
Proof. by apply live_dead; left. Qed.

Lemma legacy_spec e strict : target_readable e ->
  legacy_alias r ps e strict = (fun u => live r ps e u strict) <$> legacy_owner e.
Proof.
  intros Ht. unfold legacy_alias, legacy_owner, target_readable in *. rewrite Hpebble, Haddr. cbn [negb].
  destruct (Get ps _) as [target|]; [|done]. specialize (Ht target eq_refl). destruct (String.eqb target ""); [done|].
  destruct (usersRow r (TrimSpace target)) as [[u en]|]; cbn [fmap option_fmap option_map]; [by rewrite liveEnabled_live|].
  unfold address_entry. rewrite Haddr. cbn [negb].
  destruct (addr_Get ps (ToLower (TrimSpace target))) as [[rec|]|]; [| |done].
  - destruct (String.eqb_spec (ar_UserId rec) "") as [E|]; cbn [negb andb].
    + by rewrite live_empty.
    + destruct (routes rec); [done|by rewrite live_empty].
  - by rewrite live_empty.
Qed.

(** On an ordinary address the explicit entries come first. *)
Lemma step_claim strict a c k e :
  ordinary e -> target_readable e ->
  step strict a c k e = match claim strict e with
                        | Some u => live r ps e u strict
                        | None => last_tiers r ps strict a c k e
                        end.
Proof.
  intros [Hn He Hb Hl] Ht. unfold resolve_step. rewrite Hn.
  rewrite (proj2 (String.eqb_neq e "")), (proj2 (String.eqb_neq e "postmaster")) by done. cbn [andb].
  assert (match CutLast e "@" with Some (l, _) => negb (String.eqb l "") && IsNoRelay l | None => false end = false) as ->.
  { destruct (CutLast e "@") as [[l d]|] eqn:E; [|done]. destruct (Hl _ _ eq_refl) as [->|[-> _]]; [done|by rewrite andb_false_r]. }
  assert (match CutLast e "@" with Some (l, d) => negb (String.eqb l "") && is_disabled ps d | None => false end = false) as ->.
  { destruct (CutLast e "@") as [[l d]|] eqn:E; [|done]. destruct (Hl _ _ eq_refl) as [->|[_ ->]]; [done|by rewrite andb_false_r]. }
  rewrite andb_false_r. unfold claim. rewrite !(legacy_spec _ _ Ht).
  destruct (address_entry r ps e) as [rec|].
  - destruct (routes rec); [done|]. destruct (legacy_owner e); [done|]. cbn [fmap option_fmap option_map].
    destruct (usersRow r e) as [[u en]|]; [by rewrite liveEnabled_live|].
    destruct strict; [done|]. cbn [negb andb]. by destruct (String.eqb (ar_Kind rec) "identity" && ar_Verified rec).
  - destruct (legacy_owner e); [done|]. cbn [fmap option_fmap option_map].
    destruct (usersRow r e) as [[u en]|]; [by rewrite liveEnabled_live|done].
Qed.

(** C14: the first claim decides.  An address that an entry names goes to that
    entry's account when the account is live, and is refused as unavailable when
    the account is disabled or gone; no later tier, in particular no catch-all,
    identity, postmaster or alias domain, takes the mail of a dead account. *)
Theorem first_claim_decides e u :
  ordinary e -> target_readable e -> claim false e = Some u ->
  (live_account u -> ResolveRecipient r ps e = Ok u) /\
  (dead_account u -> ResolveRecipient r ps e = Err (unavailable e)) /\
  (forall id, ResolveRecipient r ps e = Ok id -> id = u).
Proof.
  intros Ho Ht Hc. unfold ResolveRecipient. rewrite resolveOnce_eq, step_claim, Hc by done.
  split_and!; [apply live_alive|apply live_dead|]. by intros id [-> _]%live_Ok.
Qed.

(** ** Accounts *)

(** A legacy alias that resolves does so to its owner. *)
Lemma legacy_Ok e strict :
  match legacy_alias r ps e strict with
  | None => legacy_owner e = None
  | Some (Ok id) => legacy_owner e = Some id /\ live r ps e id strict = Ok id
  | Some (Err _) => True
  end.
Proof.
  unfold legacy_alias, legacy_owner, address_entry. rewrite Hpebble, Haddr. cbn [negb].
  destruct (Get ps _) as [target|]; [|done]. destruct (String.eqb target ""); [done|].
  destruct (usersRow r (TrimSpace target)) as [[u en]|].
  - rewrite liveEnabled_live. destruct (live r ps e u strict) as [id|] eqn:E; [|done]. by destruct (live_Ok _ _ _ _ E) as [-> _].
  - destruct (addr_Get ps _) as [[rec|]|]; [|done|done]. destruct (String.eqb (ar_UserId rec) ""); [done|]. cbn [negb andb].
    destruct (routes rec); [|done]. destruct (live r ps e (ar_UserId rec) strict) as [id|] eqn:E; [|done].
    by destruct (live_Ok _ _ _ _ E) as [-> _].
Qed.

(** The rewritten form of an address on an alias domain. *)
Definition rewritten (e target : string) : string :=
  (match Cut e "@" with Some (local, _) => local | None => e end) +:+ "@" +:+ target.

(** A strict lookup succeeds through an explicit entry or the alias domain. *)
Lemma step_strict_Ok a c k e id :
  step true a c k e = Ok id ->
  let n := normalise e in
  (claim true n = Some id /\ live_account id) \/
  (claim true n = None /\ exists target, aliasTarget r ps n a = Some target /\ k (rewritten n target) = Ok id).
Proof.
  unfold resolve_step. cbv zeta. set (n := normalise e). rewrite !andb_false_r. cbn [negb andb].
  destruct (String.eqb n ""); [done|]. destruct (match CutLast n "@" with Some _ => _ | None => _ end); [done|].
  assert (forall u, live r ps n u true = Ok id -> u = id /\ live_account id) as Hlive
    by (intros u E; destruct (live_Ok _ _ _ _ E) as [-> Hl]; auto).
  assert (last_tiers r ps true a c k n = Ok id -> exists target, aliasTarget r ps n a = Some target /\ k (rewritten n target) = Ok id)
    as Hlast by (unfold last_tiers; destruct (aliasTarget r ps n a); eauto; done).
  unfold claim. pose proof (legacy_Ok n true) as Hleg.
  destruct (address_entry r ps n) as [rec|]; [destruct (routes rec)|].
  - intros E. destruct (Hlive _ E) as [-> ?]. by left.
  - destruct (legacy_alias r ps n true) as [[id'|]|]; [|done|].
    + intros [= <-]. destruct Hleg as [-> E]. destruct (Hlive _ E) as [_ ?]. by left.
    + rewrite Hleg. destruct (usersRow r n) as [[u en]|]; [|by right; auto].
      rewrite liveEnabled_live. intros E. destruct (Hlive _ E) as [-> ?]. by left.
  - destruct (legacy_alias r ps n true) as [[id'|]|]; [|done|].
    + intros [= <-]. destruct Hleg as [-> E]. destruct (Hlive _ E) as [_ ?]. by left.
    + rewrite Hleg. destruct (usersRow r n) as [[u en]|]; [|by right; auto].
      rewrite liveEnabled_live. intros E. destruct (Hlive _ E) as [-> ?]. by left.
Qed.

(** An account lookup names a live account, and through an explicit entry
    only: a primary or alias record, a legacy alias or the account itself, for
    the address or, on an alias domain where nothing names it, for the same
    local part on the target domain, one step and no further.  An identity, a
    catch-all, a postmaster address never grants anything. *)
Theorem account_resolution_sound e id :
  ResolveAccount r ps e = Ok id ->
  live_account id /\
  let n := normalise e in
  (claim true n = Some id \/
   claim true n = None /\ exists target, aliasTarget r ps n true = Some target /\
     claim true (normalise (rewritten n target)) = Some id).
Proof.
  unfold ResolveAccount. rewrite resolveOnce_eq. intros [[? ?]|(Hn&target&Ha&Hk)]%step_strict_Ok; [by auto|].
  rewrite resolveOnce_eq in Hk. destruct (step_strict_Ok _ _ _ _ _ Hk) as [[Hc ?]|(_&t'&Ha'&_)]; [|done].
  split; [done|]. right. eauto.
Qed.

(** A disabled domain takes no mail for any local part. *)
Theorem disabled_domain_refuses e local domain :
  normalise e = e -> CutLast e "@" = Some (local, domain) -> local <> "" -> IsNoRelay local = false -> is_disabled ps domain = true ->
  ResolveRecipient r ps e = Err (unavailable e).
Proof.
  intros Hn Hc Hl Hr Hd. unfold ResolveRecipient. rewrite resolveOnce_eq. unfold resolve_step. rewrite Hn, Hc, Hr, Hd, Hpebble.
  rewrite (proj2 (String.eqb_neq local "")) by done.
  destruct (String.eqb_spec e "") as [->|]; [done|]. destruct (String.eqb_spec e "postmaster") as [->|]; [done|]. done.
Qed.

(** What nothing names, on a domain without alias or catch-all, is not local. *)
Theorem unclaimed_is_refused e :
  ordinary e -> target_readable e -> claim false e = None -> aliasTarget r ps e true = None -> role_domain e = None ->
  (forall local domain, SplitN e "@" 2 = [local; domain] -> is_ok (Get ps (CatchAllKey domain)) = false) ->
  ResolveRecipient r ps e = not_local e.
Proof.
  intros Ho Ht Hc Ha Hr Hca. unfold ResolveRecipient. rewrite resolveOnce_eq, step_claim, Hc by done.
  unfold last_tiers. rewrite Ha, Hr. unfold catch_all. rewrite Hpebble. cbn [negb].
  destruct (SplitN e "@" 2) as [|local [|domain []]]; try done. destruct (String.eqb domain "" || IsSRS local); [done|].
  specialize (Hca _ _ eq_refl). by destruct (Get ps (CatchAllKey domain)).
Qed.
End ResolverThm.

(** * A concrete directory *)

Section Demo.
#[local] Existing Instance bytewise_unicode.
#[local] Instance demo_addr_codec : Codec AddressRecord := tagged_codec "A".
#[local] Instance demo_prof_codec : Codec UserProfile := tagged_codec "P".
Definition rec_bytes {A} `{Codec A} (a : A) : string := match marshal a with Ok v => v | Err _ => "" end.
Definition demo_profile (email : string) (disabled : bool) : UserProfile :=
  mkProfile email "" "" "" 0 false disabled [] false 0 0 "" 0 "" false.

(** u1 is disabled and owns ann@x.org; u2 owns bob@x.org and the catch-all of
    x.org; y.org is an alias of x.org. *)
Definition demo_dir : MemDB := mem_of
  [("/system/domain/x.org", "enabled"); ("/system/domain/y.org", "enabled"); ("/system/domain/y.org/alias_of", "x.org");
   ("/system/address/ann@x.org", rec_bytes (mkAddr "u1" "x.org" "primary" true true));
   ("/system/address/bob@x.org", rec_bytes (mkAddr "u2" "x.org" "primary" true true));
   ("/system/catchall/x.org", "u2");
   ("/user/u1/profile", rec_bytes (demo_profile "ann@x.org" true)); ("/user/u2/profile", rec_bytes (demo_profile "bob@x.org" false))].
Definition demo_resolver : RecipientResolver := mkResolver true true None "".

Lemma demo_ordinary : ordinary demo_dir "ann@x.org".
Proof.
  split.
  - vm_compute. reflexivity.
  - discriminate.
  - discriminate.
  - intros local domain E. vm_compute in E. injection E as <- <-. right. vm_compute. done.
Qed.
Lemma demo_no_alias e : Get demo_dir ("/system/alias/" +:+ e) = Err ErrNotFound -> target_readable demo_dir e.
Proof. intros E target E'. congruence. Qed.

(** Mail for the disabled account is refused, not given to the catch-all. *)
Lemma first_claim_decides_witness :
  ResolveRecipient demo_resolver demo_dir "ann@x.org" = Err (unavailable "ann@x.org") /\
  ResolveRecipient demo_resolver demo_dir "zoe@x.org" = Ok "u2".
Proof.
  split.
  - apply (first_claim_decides demo_resolver demo_dir eq_refl eq_refl "ann@x.org" "u1").
    + exact demo_ordinary.
    + apply demo_no_alias. vm_compute. reflexivity.
    + vm_compute. reflexivity.
    + vm_compute. right. reflexivity.
  - vm_compute. reflexivity.
Defined.

(** An account lookup follows the alias domain, not the catch-all. *)
Lemma account_resolution_sound_witness :
  live_account demo_dir "u2" /\ is_ok (ResolveAccount demo_resolver demo_dir "zoe@x.org") = false.
Proof.
  split.
  - apply (account_resolution_sound demo_resolver demo_dir eq_refl eq_refl "<Bob@Y.org>" "u2"). vm_compute. reflexivity.
  - vm_compute. reflexivity.
Defined.

(** An address with two @ signs on an alias domain is looked up under its first
    part only: mail for [bob@gone@y.org] reaches bob@x.org. *)
Theorem rewrite_drops_inner_at : ResolveRecipient demo_resolver demo_dir "bob@gone@y.org" = Ok "u2".
Proof. vm_compute. reflexivity. Qed.
End Demo.
