(* ===== verification/DeliverHeaders.v ===== *)
(** Trace headers of delivered mail: [internal/pipeline/deliver/headers.go] and
    [countReceivedHeaders] of [deliver.go]. *)

From S2P Require Import Prelude GoStrings Utf8 MailText Proto Envelope AttSplit.
From Stdlib Require Import Ascii.

Section Headers.
Context `{GoUnicode}.

(** * The antispam result *)

Definition antispamStage (stages : list StageResult) : option StageResult :=
  List.find (fun s => String.eqb (sr_Stage s) "antispam") stages.
Definition spamScoreFromStages (stages : list StageResult) : Z :=
  match antispamStage stages with Some s => sr_Score s | None => 0 end.

(** * Our own headers *)

Definition validAuthResultTokens : list string := ["pass"; "fail"; "softfail"; "neutral"; "none"; "temperror"; "permerror"].
Definition normalizeAuthResult (v : string) : string :=
  let v := ToLower (TrimSpace v) in if bool_decide (v ∈ validAuthResultTokens) then v else "".

Definition is_alnum (c : ascii) : bool := is_digit c || is_upper c || is_lower c.
Definition domain_char (c : ascii) : bool := is_alnum c || Ascii.eqb c "." || Ascii.eqb c "-".
Fixpoint last_char (s : string) : option ascii :=
  match s with "" => None | String c "" => Some c | String _ s' => last_char s' end.
(** [domainPattern], with the length test of the caller. *)
Definition validAuthDomain (d : string) : bool :=
  (0 <? String.length d)%nat && (String.length d <=? 253)%nat && str_all domain_char d &&
  match d with String c _ => is_alnum c | "" => false end &&
  match last_char d with Some c => is_alnum c | None => false end.

(** "" is no header. *)
Definition buildAuthenticationResults (hostname spfResult dkimResult dkimDomain dmarcResult : string) : string :=
  let hostname := TrimSpace (SanitizeHeaderValue hostname) in
  if String.eqb hostname "" then "" else
  let b := "Authentication-Results: " +:+ hostname in
  let spf := normalizeAuthResult spfResult in
  let b := if String.eqb spf "" then b else b +:+ "; spf=" +:+ spf in
  let dkim := normalizeAuthResult dkimResult in
  let b := if String.eqb dkim "" then b else
             b +:+ "; dkim=" +:+ dkim +:+ (if validAuthDomain dkimDomain then " header.d=" +:+ dkimDomain else "") in
  let dmarc := normalizeAuthResult dmarcResult in
  if String.eqb dmarc "" then b else b +:+ "; dmarc=" +:+ dmarc.

Definition buildSpamHeaders (stage : option StageResult) (threshold : Z) : list string :=
  match stage with
  | None => []
  | Some stage =>
      let status := if f32_ge (sr_Score stage) threshold then "Yes" else "No" in
      ["X-Spam-Score: " +:+ f32_format2 (sr_Score stage); "X-Spam-Status: " +:+ status] ++
      match sr_Reasons stage with
      | [] => []
      | reasons => ["X-Spam-Reasons: " +:+ Join (SanitizeHeaderValue <$> reasons) ", "]
      end
  end.

(** * Folding *)

Definition maxHeaderLineLen : nat := 900.
Definition TAB : ascii := char_of 9.
(** Each round removes at least one byte, so the length is fuel enough. *)
Fixpoint fold_loop (fuel : nat) (remaining ending : string) : string :=
  match fuel with
  | O => remaining
  | S fuel =>
      if (String.length remaining <=? maxHeaderLineLen)%nat then remaining else
      let cut := match CutLast (str_take maxHeaderLineLen remaining) " " with
                 | Some (before, _) => if (0 <? String.length before)%nat then String.length before else maxHeaderLineLen
                 | None => maxHeaderLineLen
                 end in
      str_take cut remaining +:+ ending +:+ String TAB (fold_loop fuel (trim_left (Ascii.eqb " ") (str_drop cut remaining)) ending)
  end.
Definition foldHeaderLine (line ending : string) : string := fold_loop (String.length line) line ending.

(** * The header block of a message *)

Definition sLF : string := String LF "".
Definition sCRLF : string := String CR sLF.
Definition detectLineEnding (raw : string) : string :=
  let by_first := match IndexByte raw LF with
                  | Some i => if match i with O => false | S j => bool_decide (byte_at raw j = Some CR) end then sCRLF else sLF
                  | None => sCRLF
                  end in
  match Index raw CRLF2, Index raw (sLF +:+ sLF) with
  | Some c, None => sCRLF
  | Some c, Some l => if (c <=? l)%nat then sCRLF else sLF
  | None, Some _ => sLF
  | None, None => by_first
  end.

Definition isTraceHeaderName (name : string) : bool :=
  EqualFold name "Authentication-Results" ||
  (7 <=? String.length name)%nat && EqualFold (str_take 7 name) "X-Spam-".

Definition trim_cr (line : string) : string := trim_right (Ascii.eqb CR) line.
Definition is_fold (line : string) : bool :=
  match line with String c _ => Ascii.eqb c " " || Ascii.eqb c TAB | "" => false end.
(** The text before the colon, the whole line where there is none or nothing
    before it. *)
Definition header_name (trimmed : string) : string :=
  match Cut trimmed ":" with Some (name, _) => if String.eqb name "" then trimmed else name | None => trimmed end.

Fixpoint strip_lines (inHeaders skipping : bool) (lines : list string) : list string :=
  match lines with
  | [] => []
  | line :: lines =>
      if negb inHeaders then line :: strip_lines false skipping lines else
      let trimmed := trim_cr line in
      if String.eqb trimmed "" then line :: strip_lines false false lines else
      if is_fold line then (if skipping then strip_lines true skipping lines else line :: strip_lines true skipping lines) else
      if isTraceHeaderName (TrimSpace (header_name trimmed)) then strip_lines true true lines
      else line :: strip_lines true false lines
  end.
Definition stripTraceHeaders (raw : string) : string := Join (strip_lines true false (Split raw sLF)) sLF.

Definition prependHeaders (raw : string) (hdrs : list string) : string :=
  match hdrs with
  | [] => raw
  | _ => let ending := detectLineEnding raw in
         concat_str ((fun h => foldHeaderLine h ending +:+ ending) <$> hdrs) +:+ raw
  end.

(** [Process] builds the stored bytes this way. *)
Definition traceHeaders (authservID spf dkimResult dkimDomain : string) (spamStage : option StageResult) (spamTag : Z) : list string :=
  let dmarc := match spamStage with Some s => sr_DmarcResult s | None => "" end in
  let authHdr := buildAuthenticationResults authservID spf dkimResult dkimDomain dmarc in
  (if String.eqb authHdr "" then [] else [authHdr]) ++ buildSpamHeaders spamStage spamTag.
Definition stampHeaders (raw : string) (hdrs : list string) : string := prependHeaders (stripTraceHeaders raw) hdrs.

(** * Hops *)

Definition maxForwardHops : Z := 25.
Fixpoint count_received (lines : list string) : Z :=
  match lines with
  | [] => 0
  | line :: lines =>
      let trimmed := trim_cr line in
      if String.eqb trimmed "" then 0 else
      if is_fold line then count_received lines else
      (match Cut trimmed ":" with
       | Some (name, _) => if negb (String.eqb name "") && EqualFold (TrimSpace name) "Received" then 1 else 0
       | None => 0
       end) + count_received lines
  end.
Definition countReceivedHeaders (raw : string) : Z := count_received (Split raw sLF).

End Headers.
