(* ===== verification/DeliverHeadersThm.v ===== *)
(** Theorems on trace headers: stripping is a filter of the header fields, and
    what is put on top is exactly the headers of this server. *)

From S2P Require Import Prelude GoStrings Pebble Utf8 MailText Proto Envelope AttSplit DeliverHeaders.
From Stdlib Require Import Ascii.

(** * Splitting and joining lines *)

Lemma Join_cons x y l sep : Join (x :: y :: l) sep = x +:+ sep +:+ Join (y :: l) sep.
Proof. done. Qed.
Lemma SplitN_Join c l n :
  l <> [] -> Forall (fun p => has_char c p = false) l -> (length l <= n)%nat -> SplitN (Join l (String c "")) (String c "") n = l.
Proof.
  intros Hl Hf. revert n. induction Hf as [|x l Hx Hf IH]; [done|]. intros n Hn. destruct l as [|y l].
  - cbn [Join]. destruct n as [|n]; [cbn in Hn; lia|]. by apply SplitN_one.
  - rewrite Join_cons. destruct n as [|[|n]]; [cbn in Hn; lia..|]. rewrite SplitN_cons by done. rewrite IH; [done|done|cbn in *; lia].
Qed.
Lemma Join_length c l : (length l <= S (String.length (Join l (String c ""))))%nat.
Proof.
  induction l as [|x [|y l] IH]; [cbn; lia..|]. rewrite Join_cons, !str_length_app. cbn [String.length length] in *. lia.
Qed.
Lemma Split_Join c l : l <> [] -> Forall (fun p => has_char c p = false) l -> Split (Join l (String c "")) (String c "") = l.
Proof. intros. apply SplitN_Join; [done..|apply Join_length]. Qed.
Lemma Split_nonempty c s : Split s (String c "") <> [].
Proof. unfold Split. cbn [SplitN]. destruct (String.length s); [done|]. by destruct (Cut s _) as [[]|]. Qed.
Lemma Join_Split c s : Join (Split s (String c "")) (String c "") = s.
Proof. apply Join_SplitN. Qed.
Lemma Split_uncons c a b : has_char c a = false -> Split (a +:+ String c "" +:+ b) (String c "") = a :: Split b (String c "").
Proof.
  intros Ha. rewrite <-(Split_Join c (a :: Split b (String c ""))); [|done|constructor; [done|apply Split_pieces]].
  f_equal. pose proof (Split_nonempty c b) as Hn. pose proof (Join_Split c b) as Hj.
  destruct (Split b (String c "")) as [|y l]; [done|]. by rewrite Join_cons, Hj.
Qed.

Lemma Split_line a b : has_char LF a = false -> Split (a +:+ sLF +:+ b) sLF = a :: Split b sLF.
Proof. apply (Split_uncons LF). Qed.

(** * Header fields *)

(** A field is its first line and the folded lines after it.  A block may start
    with folded lines that belong to no field. *)
Record field := mkField { fd_line : string; fd_cont : list string }.
Definition field_lines (f : field) : list string := fd_line f :: fd_cont f.
Definition blank (line : string) : bool := String.eqb (trim_cr line) "".
Fixpoint parse_block (lines : list string) : list string * list field * list string :=
  match lines with
  | [] => ([], [], [])
  | l :: ls =>
      if blank l then ([], [], l :: ls) else
      let '(o, fs, rest) := parse_block ls in
      if is_fold l then (l :: o, fs, rest) else ([], mkField l o :: fs, rest)
  end.
Definition block_of (raw : string) := parse_block (Split raw sLF).
Definition orphan_lines (raw : string) : list string := (block_of raw).1.1.
Definition header_fields (raw : string) : list field := (block_of raw).1.2.
(** From the blank line on. *)
Definition body_of (raw : string) : string := Join (block_of raw).2 sLF.

Definition unparse (b : list string * list field * list string) : list string :=
  b.1.1 ++ concat (field_lines <$> b.1.2) ++ b.2.

Definition fold_line (l : string) : Prop := blank l = false /\ is_fold l = true.
Definition good_field (f : field) : Prop := blank (fd_line f) = false /\ is_fold (fd_line f) = false /\ Forall fold_line (fd_cont f).
Definition good_block (b : list string * list field * list string) : Prop :=
  Forall fold_line b.1.1 /\ Forall good_field b.1.2 /\ (b.2 = [] \/ exists l ls, b.2 = l :: ls /\ blank l = true).

Lemma parse_good lines : good_block (parse_block lines) /\ unparse (parse_block lines) = lines.
Proof.
  induction lines as [|l ls IH]; [by repeat constructor; left|]. cbn [parse_block]. destruct (blank l) eqn:Hb.
  { split; [|done]. split; [constructor|]. split; [constructor|]. right. eauto. }
  destruct (parse_block ls) as [[o fs] rest]. destruct IH as [(Ho&Hf&Hr) Hu]. unfold unparse in *. cbn [fst snd] in *.
  destruct (is_fold l) eqn:Hl; (split; [split; [|split]; cbn [fst snd]|cbn; f_equal; rewrite <-Hu; by rewrite ?app_assoc]).
  - constructor; [by split|done].
  - done.
  - done.
  - constructor.
  - constructor; [by split|done].
  - done.
Qed.

Lemma parse_folds o b : Forall fold_line o -> parse_block (o ++ b) = (o ++ (parse_block b).1.1, (parse_block b).1.2, (parse_block b).2).
Proof.
  induction 1 as [|l o [Hb Hl] _ IH]; cbn [app]; [by destruct (parse_block b) as [[]]|]. cbn [parse_block]. by rewrite Hb, IH, Hl.
Qed.
Lemma parse_field f b : good_field f -> (parse_block b).1.1 = [] ->
  parse_block (field_lines f ++ b) = ([], f :: (parse_block b).1.2, (parse_block b).2).
Proof.
  intros (Hb&Hl&Hc) Ho. destruct f as [l c]. cbn [field_lines app parse_block fd_line fd_cont] in *. rewrite Hb, parse_folds, Ho, Hl by done.
  by rewrite app_nil_r.
Qed.
Lemma parse_fields fs b : Forall good_field fs -> (parse_block b).1.1 = [] ->
  parse_block (concat (field_lines <$> fs) ++ b) = ([], fs ++ (parse_block b).1.2, (parse_block b).2).
Proof.
  intros Hf Hb. induction Hf as [|f fs Hf _ IH]; cbn [fmap list_fmap concat app].
  - destruct (parse_block b) as [[o fs] r]. cbn in *. by subst.
  - rewrite <-app_assoc, parse_field by (done || by rewrite IH). by rewrite IH.
Qed.

Section Strip.
Context `{GoUnicode}.

Definition is_trace (f : field) : bool := isTraceHeaderName (TrimSpace (header_name (trim_cr (fd_line f)))).
Definition kept_fields (fs : list field) : list field := List.filter (fun f => negb (is_trace f)) fs.

Lemma strip_body sk lines : strip_lines false sk lines = lines.
Proof. induction lines as [|l ls IH]; [done|]. cbn. by rewrite IH. Qed.
Lemma strip_parse sk lines :
  strip_lines true sk lines =
  (if sk then [] else (parse_block lines).1.1) ++ concat (field_lines <$> kept_fields (parse_block lines).1.2) ++ (parse_block lines).2.
Proof.
  revert sk. induction lines as [|l ls IH]; intros sk; [by destruct sk|]. cbn [strip_lines parse_block negb].
  fold (blank l). destruct (blank l); [cbn; rewrite strip_body; by destruct sk|].
  pose proof (IH true) as IHt. pose proof (IH false) as IHf. destruct (parse_block ls) as [[o fs] rest]. cbn [fst snd] in *.
  destruct (is_fold l); cbn [fst snd].
  - destruct sk; [by rewrite IHt|]. by rewrite IHf.
  - unfold kept_fields. cbn [List.filter]. change (isTraceHeaderName _) with (is_trace (mkField l o)).
    destruct (is_trace (mkField l o)); cbn [negb].
    + rewrite IHt. by destruct sk.
    + rewrite IHf. cbn [fmap list_fmap concat field_lines fd_line fd_cont app]. rewrite app_assoc. destruct sk; by rewrite <-?app_assoc.
Qed.

Lemma good_kept fs : Forall good_field fs -> Forall good_field (kept_fields fs).
Proof. rewrite !Forall_forall. intros Hf f [? _]%list_elem_of_In%filter_In. apply Hf. by apply list_elem_of_In. Qed.
Lemma parse_rest b : (b = [] \/ exists l ls, b = l :: ls /\ blank l = true) -> parse_block b = ([], [], b).
Proof. intros [->|(l&ls&->&Hb)]; [done|]. cbn [parse_block]. by rewrite Hb. Qed.

Lemma strip_lines_parse lines :
  parse_block (strip_lines true false lines) =
  ((parse_block lines).1.1, kept_fields (parse_block lines).1.2, (parse_block lines).2).
Proof.
  rewrite strip_parse. destruct (proj1 (parse_good lines)) as (Ho&Hf&Hr). pose proof (parse_rest _ Hr) as Hp.
  rewrite parse_folds by done. rewrite parse_fields by (by apply good_kept || by rewrite Hp). rewrite Hp. cbn [fst snd]. by rewrite !app_nil_r.
Qed.
Lemma strip_lines_pieces sk ih lines :
  Forall (fun p => has_char LF p = false) lines -> Forall (fun p => has_char LF p = false) (strip_lines ih sk lines).
Proof.
  intros Hf. revert sk ih. induction Hf as [|l ls Hl _ IH]; intros sk ih; [constructor|]. cbn [strip_lines]. repeat case_match; auto.
Qed.

(** The lines of a stripped message. *)
Lemma strip_Split raw :
  Split (stripTraceHeaders raw) sLF = match strip_lines true false (Split raw sLF) with [] => [""] | l => l end.
Proof.
  unfold stripTraceHeaders. pose proof (strip_lines_pieces false true _ (Split_pieces LF raw)) as Hp. fold sLF in Hp.
  destruct (strip_lines true false (Split raw sLF)) as [|l ls]; [done|]. by apply Split_Join.
Qed.

(** Stripping is a filter of the fields; everything else stays. *)
Theorem strip_filters raw :
  orphan_lines (stripTraceHeaders raw) = orphan_lines raw /\
  header_fields (stripTraceHeaders raw) = kept_fields (header_fields raw) /\
  body_of (stripTraceHeaders raw) = body_of raw.
Proof.
  unfold orphan_lines, header_fields, body_of, block_of. rewrite strip_Split. pose proof (strip_lines_parse (Split raw sLF)) as Hp.
  destruct (strip_lines true false (Split raw sLF)) as [|l ls]; [|by rewrite Hp].
  destruct (parse_block (Split raw sLF)) as [[o fs] rest]. cbn [fst snd parse_block] in *. injection Hp as <- Hk <-. by rewrite <-Hk.
Qed.
End Strip.

(** * Headers put on top *)

Definition cr_of (e : string) : string := if String.eqb e sCRLF then String CR "" else "".
(** [f] shows the header [h]: its first line is the whole of [h], or where it is
    long a non-empty part of it from the start. *)
Definition renders (e : string) (f : field) (h : string) : Prop :=
  exists p q, h = p +:+ q /\ p <> "" /\ fd_line f = p +:+ cr_of e /\
  ((String.length h <= maxHeaderLineLen)%nat -> q = "" /\ fd_cont f = []).
(** Headers that start a line of their own. *)
Definition own_header (h : string) : Prop :=
  has_char LF h = false /\ exists c h', h = String c h' /\ c <> CR /\ is_fold h = false.

Lemma ending_cases raw : detectLineEnding raw = sCRLF \/ detectLineEnding raw = sLF.
Proof. unfold detectLineEnding. repeat case_match; auto. Qed.
Lemma ending_split e : e = sCRLF \/ e = sLF -> e = cr_of e +:+ sLF /\ has_char LF (cr_of e) = false.
Proof. by intros [->| ->]. Qed.

Lemma has_char_trim_left c p s : has_char c s = false -> has_char c (trim_left p s) = false.
Proof.
  induction s as [|x s IH]; [done|]. rewrite has_char_cons. intros [Hx Hs]%orb_false_iff. cbn [trim_left]. destruct (p x); [by apply IH|].
  by rewrite has_char_cons, Hx.
Qed.

Lemma trim_cr_nonempty c s : c <> CR -> trim_cr (String c s) <> "".
Proof.
  intros Hc. unfold trim_cr. cbn [trim_right]. destruct (trim_right _ s); [|done]. destruct (Ascii.eqb_spec CR c); [congruence|done].
Qed.
Lemma tab_fold s : fold_line (String TAB s).
Proof. split; [|done]. unfold blank. apply String.eqb_neq, trim_cr_nonempty. done. Qed.

(** The physical lines of a folded header. *)
Lemma fold_loop_lines fuel rem e pre :
  e = sCRLF \/ e = sLF -> has_char LF rem = false -> has_char LF pre = false ->
  exists p q ps, rem = p +:+ q /\ (rem <> "" -> p <> "") /\ Forall fold_line ps /\
    ((String.length rem <= maxHeaderLineLen)%nat -> q = "" /\ ps = []) /\
    forall tail, Split (pre +:+ fold_loop fuel rem e +:+ e +:+ tail) sLF = (pre +:+ p +:+ cr_of e) :: ps ++ Split tail sLF.
Proof.
  intros He. destruct (ending_split e He) as [Ee Hcr]. revert rem pre. induction fuel as [|fuel IH]; intros rem pre Hrem Hpre; cbn [fold_loop].
  2: destruct (Nat.leb_spec (String.length rem) maxHeaderLineLen) as [Hlen|Hlen].
  1,2: exists rem, "", []; rewrite str_app_nil_r; split; [done|]; split; [done|]; split; [constructor|]; split; [done|]; intros tail;
    rewrite Ee at 1; rewrite <-!str_app_assoc; rewrite !(str_app_assoc _ sLF tail); cbn [app]; apply Split_line;
    by rewrite !has_char_app, Hpre, Hrem, Hcr.
  match goal with |- context [str_take ?x rem] => set (cut := x) end.
  assert (0 < cut)%nat as Hcut.
  { unfold cut. destruct (CutLast _ _) as [[a b]|]; [destruct (Nat.ltb_spec 0 (String.length a)); [done|]|]; unfold maxHeaderLineLen; lia. }
  destruct (IH (trim_left (Ascii.eqb " ") (str_drop cut rem)) (String TAB "")) as (p'&q'&ps&_&_&Hps&_&Hs);
    [by apply has_char_trim_left, has_char_drop|done|].
  exists (str_take cut rem), (str_drop cut rem), ((String TAB "" +:+ p' +:+ cr_of e) :: ps).
  split; [by rewrite str_take_drop|]. split. { intros Hne. destruct rem, cut; done || lia. }
  split; [constructor; [apply tab_fold|done]|]. split; [lia|]. intros tail. cbn [app]. rewrite <-Hs.
  rewrite Ee at 1. rewrite <-Split_line by (by rewrite !has_char_app, Hpre, (has_char_take _ _ _ Hrem), Hcr).
  f_equal. rewrite !str_app_assoc. done.
Qed.

Lemma own_header_line e h p q : own_header h -> h = p +:+ q -> p <> "" -> blank (p +:+ cr_of e) = false /\ is_fold (p +:+ cr_of e) = false.
Proof.
  intros (_&c&h'&->&Hc&Hf) E Hp. destruct p as [|c' p]; [done|]. injection E as <- _. rewrite app_cons'. split; [|exact Hf].
  unfold blank. by apply String.eqb_neq, trim_cr_nonempty.
Qed.

Lemma prepend_block e hdrs raw :
  e = sCRLF \/ e = sLF -> Forall own_header hdrs -> orphan_lines raw = [] ->
  exists own, block_of (concat_str ((fun h => foldHeaderLine h e +:+ e) <$> hdrs) +:+ raw) = ([], own ++ header_fields raw, (block_of raw).2) /\
    Forall2 (renders e) own hdrs.
Proof.
  intros He Hf Ho. unfold orphan_lines, header_fields in *.
  induction Hf as [|h hdrs Hh _ (own&IH&Hr)].
  { exists []. split; [|constructor]. change (concat_str _) with "". rewrite app_nil_l'. destruct (block_of raw) as [[o fs] r]. cbn in *. by subst. }
  destruct (fold_loop_lines (String.length h) h e "" He (proj1 Hh) eq_refl) as (p&q&ps&Eh&Hp&Hps&Hlen&Hs).
  assert (p <> "") as Hpn by (apply Hp; destruct Hh as (_&c&h'&->&_); done).
  destruct (own_header_line e h p q Hh Eh Hpn) as [Hb Hl].
  exists (mkField (p +:+ cr_of e) ps :: own). split.
  - set (tail := concat_str ((fun h => foldHeaderLine h e +:+ e) <$> hdrs) +:+ raw) in *.
    change (concat_str _ +:+ raw) with (((foldHeaderLine h e +:+ e) +:+ concat_str ((fun h => foldHeaderLine h e +:+ e) <$> hdrs)) +:+ raw).
    rewrite !str_app_assoc. fold tail. specialize (Hs tail). rewrite !app_nil_l' in Hs. unfold block_of. unfold foldHeaderLine. rewrite Hs.
    change ((p +:+ cr_of e) :: ps ++ Split tail sLF) with (field_lines (mkField (p +:+ cr_of e) ps) ++ Split tail sLF).
    fold (block_of tail) in IH |- *. unfold block_of in IH at 1. rewrite parse_field, IH; [done|split; [exact Hb|split; [exact Hl|exact Hps]]|by rewrite IH].
  - constructor; [|done]. exists p, q. split; [exact Eh|]. split; [exact Hpn|]. split; [done|]. intros Hle. by apply Hlen.
Qed.

Section Stamp.
Context `{GoUnicode}.
(** [strings.TrimSpace] returns a slice of its argument. *)
Definition trims_to_slice : Prop := forall s, exists a b, s = a +:+ uni_trim s +:+ b.

Lemma trim_left_suffix p s : exists a, s = a +:+ trim_left p s.
Proof.
  induction s as [|c s [a IH]]; [by exists ""|]. cbn [trim_left]. destruct (p c); [|by exists ""].
  exists (String c a). by rewrite app_cons', <-IH.
Qed.
Lemma trim_right_prefix p s : exists b, s = trim_right p s +:+ b.
Proof.
  induction s as [|c s [b IH]]; [by exists ""|]. cbn [trim_right]. destruct (trim_right p s) as [|d t].
  - destruct (p c); [by exists (String c s)|]. exists s. done.
  - exists b. rewrite app_cons'. by rewrite <-IH.
Qed.
Lemma TrimSpace_slice s : trims_to_slice -> exists a b, s = a +:+ TrimSpace s +:+ b.
Proof.
  intros Ht. unfold TrimSpace. destruct (is_ascii s); [|apply Ht].
  destruct (trim_left_suffix is_space s) as [a Ha]. destruct (trim_right_prefix is_space (trim_left is_space s)) as [b Hb].
  exists a, b. by rewrite <-Hb.
Qed.

(** Nothing that is interpolated can end a line. *)
Notation clean s := (has_char LF s = false).
Lemma clean_sanitized s : clean (SanitizeHeaderValue s).
Proof. by apply drop_runes_no_char. Qed.
Lemma clean_trimmed s : trims_to_slice -> clean s -> clean (TrimSpace s).
Proof.
  intros Ht. destruct (TrimSpace_slice s Ht) as (a&b&E). rewrite E at 1. rewrite !has_char_app. by intros [_ [? _]%orb_false_iff]%orb_false_iff.
Qed.
Lemma clean_token v : clean (normalizeAuthResult v).
Proof.
  unfold normalizeAuthResult. case_bool_decide as Hv; [|done]. unfold validAuthResultTokens in Hv.
  repeat (apply elem_of_cons in Hv as [->|Hv]; [done|]). by apply elem_of_nil in Hv.
Qed.
Lemma clean_domain d : validAuthDomain d = true -> clean d.
Proof.
  unfold validAuthDomain. intros [[[_ Hd]%andb_true_iff _]%andb_true_iff _]%andb_true_iff. unfold has_char.
  apply negb_false_iff. revert Hd. apply str_all_impl. intros c Hc. destruct (Ascii.eqb_spec c LF) as [->|]; [by vm_compute in Hc|done].
Qed.
Lemma clean_digits z : 0 <= z -> clean (digits z).
Proof.
  intros Hz. unfold digits. assert (clean "") as Ha by done. revert Ha Hz. generalize "" as acc. generalize (S (Z.to_nat (Z.log2 z))) as f.
  intros f. revert z. induction f as [|f IH]; intros z acc Ha Hz; [done|]. cbn [dec_go].
  assert (clean (String (digit (z mod 10)) acc)) as Hd.
  { rewrite has_char_cons, Ha, orb_false_r. pose proof (Z.mod_pos_bound z 10). destruct (Ascii.eqb_spec (digit (z mod 10)) LF) as [E|]; [|done].
    apply (f_equal byte_of) in E. unfold digit in E. rewrite byte_char in E by lia. change (byte_of LF) with 10 in E. lia. }
  destruct (z <? 10); [done|]. apply IH; [done|]. apply Z.div_pos; lia.
Qed.
Lemma clean_pad w s : clean s -> clean (pad0 w s).
Proof. intros Hs. unfold pad0. rewrite has_char_app, Hs, orb_false_r. induction (w - String.length s)%nat; [done|]. cbn [zeros]. by rewrite has_char_cons. Qed.
Lemma clean_score b : clean (f32_format2 b).
Proof.
  unfold f32_format2. destruct (_ =? 255); [by repeat case_match|].
  match goal with |- context [round_shift ?n ?k] => set (h := round_shift n k); assert (0 <= h) as Hh end.
  { assert (forall n k, 0 <= n -> 0 <= round_shift n k) as Hr.
    { intros n k Hn. unfold round_shift. destruct (k <=? 0); [by apply Z.shiftl_nonneg|]. cbv zeta.
      assert (0 <= Z.shiftr n k) by (by apply Z.shiftr_nonneg). destruct (_ || _); lia. }
    apply Hr. assert (0 <= Z.land b 8388607) by (apply Z.land_nonneg; lia). destruct (_ =? 0); lia. }
  rewrite !has_char_app. assert (clean (if Z.testbit b 31 then "-" else "")) as -> by (by destruct (Z.testbit b 31)).
  rewrite clean_digits by (apply Z.div_pos; lia). unfold fmt_0d. pose proof (Z.mod_pos_bound h 100).
  rewrite (proj2 (Z.ltb_ge (h mod 100) 0)) by lia. by rewrite clean_pad by (apply clean_digits; lia).
Qed.
Lemma clean_join l sep : clean sep -> Forall (fun s => clean s) l -> clean (Join l sep).
Proof.
  intros Hsep. induction 1 as [|s l Hs Hl IH]; [done|]. destruct l as [|t l]; [done|]. by rewrite Join_cons, !has_char_app, Hs, Hsep, IH.
Qed.
Lemma own_intro p s : own_header p -> clean s -> own_header (p +:+ s).
Proof.
  intros (Hp&c&p'&->&Hc&Hf) Hs. split; [by rewrite has_char_app, Hp|]. exists c, (p' +:+ s). by rewrite app_cons'.
Qed.
Lemma own_name c p : c <> CR -> is_fold (String c p) = false -> clean (String c p) -> own_header (String c p).
Proof. intros. split; [done|]. by exists c, p. Qed.

Lemma clean_auth host spf dk dd dm : trims_to_slice ->
  buildAuthenticationResults host spf dk dd dm <> "" -> own_header (buildAuthenticationResults host spf dk dd dm).
Proof.
  intros Ht Hne. unfold buildAuthenticationResults in *. cbv zeta in *. destruct (String.eqb (TrimSpace _) ""); [done|]. clear Hne.
  pose proof (clean_trimmed _ Ht (clean_sanitized host)) as Hh. set (x := TrimSpace (SanitizeHeaderValue host)) in *. clearbody x.
  assert (clean (if validAuthDomain dd then " header.d=" +:+ dd else "")) as Hd.
  { destruct (validAuthDomain dd) eqn:E; [|done]. by rewrite has_char_app, (clean_domain _ E). }
  set (y := if validAuthDomain dd then _ else _) in *. clearbody y.
  destruct (String.eqb (normalizeAuthResult spf) ""), (String.eqb (normalizeAuthResult dk) ""), (String.eqb (normalizeAuthResult dm) "");
    rewrite ?str_app_assoc; (apply own_intro; [by apply own_name|]);
    rewrite ?has_char_app, Hh, ?clean_token, ?Hd; done.
Qed.

Lemma traceHeaders_own host spf dk dd stage tag : trims_to_slice -> Forall own_header (traceHeaders host spf dk dd stage tag).
Proof.
  intros Ht. unfold traceHeaders. cbv zeta. apply Forall_app. split.
  - destruct (String.eqb_spec (buildAuthenticationResults host spf dk dd (match stage with Some s => sr_DmarcResult s | None => "" end)) "");
      constructor; [by apply clean_auth|constructor].
  - destruct stage as [st|]; [|constructor]. cbn [buildSpamHeaders].
    constructor; [apply own_intro; [by apply own_name|apply clean_score]|].
    constructor; [apply own_intro; [by apply own_name|by destruct (f32_ge _ _)]|].
    destruct (sr_Reasons st) as [|r rs]; constructor; [|constructor]. apply own_intro; [by apply own_name|].
    apply clean_join; [done|]. apply Forall_fmap, Forall_true. intros. apply clean_sanitized.
Qed.

(** The header block of a stored message is the trace headers of this
    server, one field each, followed by the sender's fields without any
    Authentication-Results or X-Spam field, in their order; the body is the
    sender's.  Nothing in a reason, a host name or a signing domain can open
    another field. *)
Theorem stamped_headers_exact raw host spf dk dd stage tag :
  trims_to_slice -> orphan_lines raw = [] ->
  let hdrs := traceHeaders host spf dk dd stage tag in
  exists own, Forall2 (renders (detectLineEnding (stripTraceHeaders raw))) own hdrs /\
    header_fields (stampHeaders raw hdrs) = own ++ kept_fields (header_fields raw) /\
    orphan_lines (stampHeaders raw hdrs) = [] /\ body_of (stampHeaders raw hdrs) = body_of raw.
Proof.
  intros Ht Ho. cbv zeta. pose proof (traceHeaders_own host spf dk dd stage tag Ht) as Hown. set (hdrs := traceHeaders _ _ _ _ _ _) in *.
  destruct (strip_filters raw) as (So&Sf&Sb). rewrite Ho in So. unfold stampHeaders, prependHeaders.
  destruct hdrs as [|h hdrs]; [exists []; split; [constructor|]; auto|]. set (s := stripTraceHeaders raw) in *.
  destruct (prepend_block _ _ _ (ending_cases s) Hown So) as (own&Hb&Hr). exists own. split; [exact Hr|].
  unfold orphan_lines, header_fields, body_of in *. rewrite Hb. cbn [fst snd]. rewrite <-Sf, <-Sb. done.
Qed.
End Stamp.

(** * Evaluation *)

Section Demo.
#[local] Existing Instance bytewise_unicode.
Definition nl : string := sCRLF.
(** A message whose sender claims a clean verdict, in a folded field. *)
Definition demo_raw : string :=
  "X-Spam-Status : No," +:+ nl +:+ " score=0" +:+ nl +:+ "From: a@b.org" +:+ nl +:+ "AUTHENTICATION-RESULTS: x; dkim=pass" +:+ nl +:+
  "To: c@d.org" +:+ nl +:+ nl +:+ "X-Spam-Score: in the body" +:+ nl.
Definition demo_stage : StageResult := mkStage "antispam" "builtin" "tag" 1065353216 ["bad" +:+ nl +:+ "X-Spam-Status: No"] 0 0 "fail".

Lemma stamped_headers_exact_witness :
  let msg := stampHeaders demo_raw (traceHeaders "mx.d.org" "fail" "none" "b.org; spf=pass" (Some demo_stage) 1056964608) in
  length (header_fields msg) = 6%nat /\
  msg = "Authentication-Results: mx.d.org; spf=fail; dkim=none; dmarc=fail" +:+ nl +:+ "X-Spam-Score: 1.00" +:+ nl +:+
        "X-Spam-Status: Yes" +:+ nl +:+ "X-Spam-Reasons: badX-Spam-Status: No" +:+ nl +:+ "From: a@b.org" +:+ nl +:+ "To: c@d.org" +:+ nl +:+ nl +:+
        "X-Spam-Score: in the body" +:+ nl.
Proof.
  destruct (stamped_headers_exact demo_raw "mx.d.org" "fail" "none" "b.org; spf=pass" (Some demo_stage) 1056964608) as (own&Hr&Hf&_).
  - intros s. exists "", "". cbn [uni_trim bytewise_unicode]. by rewrite app_nil_l', str_app_nil_r.
  - vm_compute. reflexivity.
  - split; [|vm_compute; reflexivity]. rewrite Hf, length_app, (Forall2_length _ _ _ Hr). vm_compute. reflexivity.
Defined.

(** A message of one line is stripped too, although it has no blank line. *)
Theorem bodyless_is_stripped : stripTraceHeaders ("X-Spam-Status: No" +:+ nl +:+ "From: a@b.org") = "From: a@b.org".
Proof. vm_compute. reflexivity. Qed.
End Demo.
