(* ===== verification/MailHeaders.v ===== *)
(** Header values kept with a message, and its tags:
    [internal/store/mailheaders.go] and [internal/store/tags.go].

    [net/mail] and the MIME parser are parameters: a parsed address is its
    display name and its address. *)

From S2P Require Import Prelude GoStrings Pebble Utf8 MailText Proto UserData Acl Directory.
From Stdlib Require Import Ascii.

Record MailAddress := mkMailAddress { ma_Name : string; ma_Address : string }.
Class NetMail := {
  ParseAddress : string -> result MailAddress;
  ParseAddressList : string -> result (list MailAddress);
  address_String : MailAddress -> string;
}.

(** The parts of a parsed message the code here reads.  [pm_calendar] is the
    calendar part of the message and the method of its content type. *)
Record ParsedMail := mkParsed {
  pm_GetHeader : string -> string; pm_AddressList : string -> result (list MailAddress); pm_rootReplyTo : string;
  pm_Attachments : list (string * string * string); pm_calendar : option (string * string) }.

Section MailHeaders.
Context `{GoUnicode} `{NetMail}.

Fixpoint str_filter (p : ascii -> bool) (s : string) : string :=
  match s with "" => "" | String c s' => if p c then String c (str_filter p s') else str_filter p s' end.
Definition is_break (c : ascii) : bool := (byte_of c =? 13) || (byte_of c =? 10).

Definition MaxStoredHeaderBytes : nat := 998.
Definition StoredHeader (v : string) : string :=
  let v := TrimSpace (str_filter (fun c => negb (is_break c)) v) in
  if (MaxStoredHeaderBytes <? String.length v)%nat then "" else v.

(** A backslash and a quote are escaped; CR, LF and NUL are dropped. *)
Fixpoint escape_name (s : string) : string :=
  match s with
  | "" => ""
  | String c s' =>
      if (byte_of c =? 92) || (byte_of c =? 34) then String (char_of 92) (String c (escape_name s'))
      else if is_break c || (byte_of c =? 0) then escape_name s' else String c (escape_name s')
  end.
Definition formatAddress (a : MailAddress) : string :=
  if String.eqb (ma_Name a) "" then ma_Address a
  else if is_ascii (ma_Name a) then address_String a
  else String dquote (escape_name (ma_Name a)) +:+ String dquote " <" +:+ ma_Address a +:+ ">".

Definition splitParsed (v : string) (parsed : result (list MailAddress)) : list string :=
  let out := List.filter (fun a => negb (String.eqb a "")) (TrimSpace <$> Split v ",") in
  match parsed with
  | Err _ | Ok [] => out
  | Ok l => if (length l =? length out)%nat then out else formatAddress <$> l
  end.
Definition SplitAddressHeader (v : string) : list string := splitParsed v (ParseAddressList v).
Definition EnvelopeAddresses (env : option ParsedMail) (name : string) : list string :=
  match env with
  | None => []
  | Some env => splitParsed (str_map (fun c => if is_break c then " "%char else c) (pm_GetHeader env name)) (pm_AddressList env name)
  end.
Definition MailAddressHeaders (env : ParsedMail) : list string * list string * string :=
  (EnvelopeAddresses (Some env) "To", EnvelopeAddresses (Some env) "Cc", StoredHeader (pm_GetHeader env "List-Id")).

(** [s] between the last [<] and the next [>]. *)
Definition bracketed (s : string) : option (string * option (string * string)) :=
  match CutLast s "<" with
  | None => None
  | Some (before, after) => Some (before, Cut after ">")
  end.
Definition BareAddress (s : string) : string :=
  let s := TrimSpace s in
  if String.eqb s "" then "" else
  match ParseAddress s with
  | Ok a => NormaliseAddress (ma_Address a)
  | Err _ =>
      let s := match bracketed s with
               | Some (_, Some (inner, _)) => if String.eqb inner "" then s else inner
               | _ => s
               end in
      let s := NormaliseAddress s in
      if negb (Contains s "@") ||
         negb (str_all (fun c => negb ((byte_of c =? 32) || (byte_of c =? 9) || is_break c || Ascii.eqb c "<" || Ascii.eqb c ">" || Ascii.eqb c dquote)) s)
      then "" else s
  end.

Definition maxListIDLen : nat := 255.
Definition maxListNameLen : nat := 200.
Definition list_id_char (c : ascii) : bool :=
  is_lower c || is_digit c || Ascii.eqb c "." || Ascii.eqb c "_" || Ascii.eqb c "+" || Ascii.eqb c "-".
Definition ValidListID (id : string) : bool :=
  negb (String.eqb id "") && (String.length id <=? maxListIDLen)%nat &&
  negb (HasPrefix id ".") && negb (HasSuffix id ".") && str_all list_id_char id.
Definition IsControl (r : Z) : bool := (r <? 32) || (127 <=? r) && (r <=? 159).
Definition cleanListName (s : string) : string :=
  let s := TrimSpace s in
  let q := String dquote "" in
  let s := if (2 <=? String.length s)%nat && HasPrefix s q && HasSuffix s q
           then TrimSpace (str_take (String.length s - 2) (str_drop 1 s)) else s in
  concat_str (take maxListNameLen (runes (drop_runes IsControl s))).
Definition ParseListID (raw : string) : string * string :=
  let raw := TrimSpace raw in
  if String.eqb raw "" then ("", "") else
  let parts := match bracketed raw with
               | None => Some (raw, "")
               | Some (_, None) => None
               | Some (before, Some (inner, rest)) => if String.eqb (TrimSpace rest) "" then Some (inner, cleanListName before) else None
               end in
  match parts with
  | None => ("", "")
  | Some (id, name) => let id := ToLower (TrimSpace id) in if ValidListID id then (id, name) else ("", "")
  end.

Record MailHeaderValues := mkHeaderValues {
  mh_ToMe : bool; mh_SenderAddr : string; mh_ListID : string; mh_ListName : string; mh_Complete : bool }.
Definition MailHeaderFields (meta : MailMeta) (mine : string -> bool) : MailHeaderValues :=
  let to_me := existsb (fun entry => let a := BareAddress entry in negb (String.eqb a "") && mine a) (mm_To meta ++ mm_Cc meta) in
  let (id, name) := ParseListID (mm_ListId meta) in
  mkHeaderValues to_me (BareAddress (mm_From meta)) id name false.

End MailHeaders.

(** * Tags *)

Definition MaxTagsPerMessage : nat := 20.
Definition MaxTagsPerUser : nat := 100.
Definition MaxTagNameLen : nat := 50.
Definition tag_edge (c : ascii) : bool := is_lower c || is_digit c.
(** [tagNameRe]: the first and the last byte are letters or digits. *)
Fixpoint tag_tail (s : string) : bool :=
  match s with
  | "" => true
  | String c "" => tag_edge c
  | String c s' => (tag_edge c || Ascii.eqb c "-") && tag_tail s'
  end.
Definition tag_name (s : string) : bool := match s with "" => false | String c s' => tag_edge c && tag_tail s' end.
Definition ValidateTagName (name : string) : option err :=
  if String.eqb name "" then Some (Errorf "tag name must not be empty")
  else if (MaxTagNameLen <? String.length name)%nat then Some (Errorf ("tag name " +:+ quote name +:+ " exceeds maximum length of 50 characters"))
  else if negb (tag_name name)
  then Some (Errorf ("tag name " +:+ quote name +:+ " is invalid: must be lowercase alphanumeric and hyphens only, starting and ending with alphanumeric"))
  else None.
Definition deduplicateTags (tags : list string) : list string :=
  foldl (fun out t => if bool_decide (t ∈ out) then out else out ++ [t]) [] tags.

Definition set_tags (m : MailMeta) (tags : list string) : MailMeta :=
  mkMailMeta (mm_Guid m) (mm_MessageId m) (mm_Subject m) (mm_From m) (mm_To m) (mm_ReceivedAt m) (mm_RawMessage m)
    (mm_Attachments m) (mm_FolderGuid m) (mm_Flags m) (mm_InReplyTo m) (mm_References m) (mm_Cc m) (mm_SpamScore m) (mm_SpfResult m)
    (mm_DkimResult m) (mm_DkimDomain m) (mm_TargetMailbox m) tags (mm_Layout m) (mm_ReplyTo m) (mm_ListId m) (mm_ListPost m).
Definition first_invalid (tags : list string) : option err := head (omap ValidateTagName tags).
Definition SetTags (meta : MailMeta) (tags : list string) : result MailMeta :=
  let deduped := deduplicateTags tags in
  match first_invalid deduped with
  | Some e => Err e
  | None => if (MaxTagsPerMessage <? length deduped)%nat
            then Err (Errorf ("message would have " +:+ FormatInt (Z.of_nat (length deduped)) +:+ " tags, exceeding the limit of 20"))
            else Ok (set_tags meta deduped)
  end.
Definition AddTags (meta : MailMeta) (tags : list string) : result MailMeta :=
  match first_invalid tags with
  | Some e => Err e
  | None =>
      let merged := deduplicateTags (mm_Tags meta ++ tags) in
      if (MaxTagsPerMessage <? length merged)%nat
      then Err (Errorf ("message would have " +:+ FormatInt (Z.of_nat (length merged)) +:+ " tags, exceeding the per-message limit of 20"))
      else Ok (set_tags meta merged)
  end.
Definition RemoveTags (meta : MailMeta) (tags : list string) : MailMeta :=
  set_tags meta (List.filter (fun t => negb (bool_decide (t ∈ tags))) (mm_Tags meta)).

Section Tags.
Context {DB : Type} `{PebbleDB DB} `{Codec MailMeta}.
Definition tagMetaPrefix (userID : string) : string := "/user/" +:+ userID +:+ "/mail/".
Definition GetTags (ps : DB) (userID mailGUID : string) : result (list string) :=
  let? data := wrapf "getting mail meta for tags" (Get ps (tagMetaPrefix userID +:+ mailGUID)) in
  let? meta := wrapf "parsing mail meta" (unmarshal data) in Ok (mm_Tags meta).
Definition CountUserDistinctTags (ps : DB) (userID : string) : result Z :=
  let? it := wrapf "scanning mail meta for tag count" (PrefixScan ps (tagMetaPrefix userID)) in
  let? l := collect (fun _ v =>
    let? val := wrapf "reading mail meta value" (iter_value v) in
    Ok (match unmarshal val with Ok meta => Some (mm_Tags meta) | Err _ => None end)) it in
  Ok (Z.of_nat (length (deduplicateTags (concat l)))).
End Tags.

(** ** Tags stay well formed *)

Definition tags_ok (m : MailMeta) : Prop :=
  NoDup (mm_Tags m) /\ Forall (fun t => ValidateTagName t = None) (mm_Tags m) /\ (length (mm_Tags m) <= MaxTagsPerMessage)%nat.

Lemma deduplicate_go (tags acc : list string) : let out := foldl (fun out t => if bool_decide (t ∈ out) then out else out ++ [t]) acc tags in
  (forall t, t ∈ out <-> t ∈ acc \/ t ∈ tags) /\ (NoDup acc -> NoDup out).
Proof.
  cbv zeta. revert acc. induction tags as [|x tags IH]; intros acc; cbn [foldl]; [split; [set_solver|done]|].
  destruct (IH (if bool_decide (x ∈ acc) then acc else acc ++ [x])) as [Hel Hnd]. case_bool_decide as Hx.
  - split; [|done]. intros t. rewrite Hel. set_solver.
  - split; [intros t; rewrite Hel; set_solver|]. intros Ha. apply Hnd, NoDup_app. split; [done|]. split; [set_solver|apply NoDup_singleton].
Qed.
Lemma deduplicate_elem tags t : t ∈ deduplicateTags tags <-> t ∈ tags.
Proof. unfold deduplicateTags. rewrite (proj1 (deduplicate_go tags [])). set_solver. Qed.
Lemma deduplicate_NoDup tags : NoDup (deduplicateTags tags).
Proof. apply (deduplicate_go tags []). constructor. Qed.
Lemma first_invalid_None tags : first_invalid tags = None <-> Forall (fun t => ValidateTagName t = None) tags.
Proof.
  unfold first_invalid. rewrite head_None. induction tags as [|t tags IH]; [split; constructor|]. cbn. rewrite Forall_cons, <-IH.
  destruct (ValidateTagName t); [split; [done|by intros [? _]]|]. naive_solver.
Qed.

(** C29: tags of a message are well formed whatever operation changed them:
    distinct valid names, at most twenty.  Adding keeps the old tags, gains
    exactly the new ones, and on an invalid name or too many tags changes
    nothing. *)
Theorem tags_well_formed m tags m' :
  tags_ok m ->
  (SetTags m tags = Ok m' -> tags_ok m' /\ forall t, t ∈ mm_Tags m' <-> t ∈ tags) /\
  (AddTags m tags = Ok m' -> tags_ok m' /\ forall t, t ∈ mm_Tags m' <-> t ∈ mm_Tags m \/ t ∈ tags) /\
  (tags_ok (RemoveTags m tags) /\ forall t, t ∈ mm_Tags (RemoveTags m tags) <-> t ∈ mm_Tags m /\ t ∉ tags).
Proof.
  intros (Hnd&Hv&Hl). split; [|split].
  - unfold SetTags. cbv zeta. destruct (first_invalid _) eqn:Hi; [done|]. apply first_invalid_None in Hi.
    destruct (Nat.ltb_spec MaxTagsPerMessage (length (deduplicateTags tags))); [done|]. intros [= <-].
    split; [|intros; apply deduplicate_elem]. split; [apply deduplicate_NoDup|]. by split.
  - unfold AddTags. destruct (first_invalid tags) eqn:Hi; [done|]. apply first_invalid_None in Hi. cbv zeta.
    destruct (Nat.ltb_spec MaxTagsPerMessage (length (deduplicateTags (mm_Tags m ++ tags)))); [done|]. intros [= <-].
    split; [|intros; cbn [mm_Tags set_tags]; rewrite deduplicate_elem; apply elem_of_app]. split; [apply deduplicate_NoDup|]. split; [|done]. cbn [mm_Tags set_tags].
    rewrite Forall_forall in *. intros t. rewrite deduplicate_elem, elem_of_app. intros [?|?]; auto.
  - unfold RemoveTags. cbn [mm_Tags set_tags]. set (p := fun t => negb (bool_decide (t ∈ tags))).
    assert (forall t, t ∈ List.filter p (mm_Tags m) <-> t ∈ mm_Tags m /\ t ∉ tags) as Hf.
    { intros t. rewrite list_elem_of_In, filter_In, <-list_elem_of_In. unfold p. by rewrite negb_true_iff, bool_decide_eq_false. }
    split; [|exact Hf]. split; [cbn [mm_Tags set_tags]; by apply NoDup_ListNoDup, List.NoDup_filter, NoDup_ListNoDup|]. cbn [mm_Tags set_tags]. split.
    + rewrite Forall_forall in *. intros t. rewrite Hf. intros [? _]. auto.
    + etransitivity; [apply List.filter_length_le|exact Hl].
Qed.

Definition demo_meta : MailMeta := mkMailMeta "g1" "" "" "" [] 0 None [] "" 0 "" "" [] 0 "" "" "" "" ["work"; "to-do"] [] "" "" "".
Lemma tags_well_formed_witness :
  tags_ok demo_meta /\ exists m', AddTags demo_meta ["work"; "urgent"] = Ok m' /\ tags_ok m' /\ is_ok (AddTags demo_meta ["-x"]) = false.
Proof.
  assert (tags_ok demo_meta) as Hm.
  { split; [repeat constructor; set_solver|]. split; [repeat constructor|]. vm_compute. lia. }
  split; [exact Hm|]. exists (set_tags demo_meta ["work"; "to-do"; "urgent"]). split; [vm_compute; reflexivity|]. split; [|vm_compute; reflexivity].
  apply (tags_well_formed demo_meta ["work"; "urgent"] _ Hm). vm_compute. reflexivity.
Defined.
