(* ===== verification/DeliverBase.v ===== *)
(** What the deliver stage is made of: [DeliverProcessor] and its collaborators
    ([internal/pipeline/deliver/deliver.go], [VacationConfig] of [vacation.go]),
    and the state one run changes.

    The collaborators that only answer questions (resolver, preferences,
    verified targets, hosted domains, send-as policy, user domains, SRS codec)
    are functions: their answers do not change during one run.  Stores, limiters
    and the outbound queue are state; calls that leave the stage are recorded in
    the order they are made. *)

From S2P Require Import Prelude GoStrings Pebble Utf8 MailText Proto UserData Mailbox MailboxStore Queue Envelope AttSplit Directory Preferences MailHeaders.
From Stdlib Require Import Ascii.

(** [ForwardLimiter]: an in-memory limiter that is asked about one key. *)
Class Limiting (L : Type) := lim_Allow : Z -> string -> L -> L * bool.
Inductive which := LForward | LSrsAddr | LSrsNode | LAuthor | LVacation.
#[global] Instance which_eq_dec : EqDecision which.
Proof. solve_decision. Defined.

Record SrsOps := mkSrsOps { so_Forward : string -> string -> result string; so_Reverse : string -> result string }.
(** [VacationConfig]; each flag says that the field is set. *)
Record VacationConfig := mkVacation {
  vc_Accounts : option (string -> result string);      (* ResolveAccount *)
  vc_Profiles : option (string -> result string);      (* PrimaryEmail *)
  vc_Tracker : bool; vc_Blobs : bool; vc_Local : bool; vc_Limiter : bool;
  vc_Sign : string -> result string;                   (* DKIM, the message itself when nil *)
}.
Record DeliverProcessor := mkDeliver {
  p_resolver : option (string -> result string);
  p_queuer : bool;
  p_prefs : option (string -> UserPreferences);
  p_fwdTargets : option (string -> string -> result bool);
  p_hostedDomain : option (string -> bool);
  p_authorizer : option (string -> string -> result bool);
  p_calReplies : bool;
  p_bookings : option (string -> string -> string -> string -> bool);
  p_schedInbox : bool;
  p_srs : option SrsOps;
  p_userDomains : option (string -> result string);
  p_blobs : bool; p_dedupMinSize : Z;
  p_authservID : string;
  p_spamThresholds : option Z;                         (* Tag, as bits *)
  p_vacation : option VacationConfig;
  p_reporter : bool;
}.

(** Code outside the repository, and random identifiers. *)
Class DeliverExt := {
  ReadEnvelope : string -> result ParsedMail;
  ParseDate : string -> option Z;
  VerifyDKIM : string -> string * string;
  (** The From values of [net/mail.ReadMessage]. *)
  from_values : string -> result (list string);
  (** [textproto.ReadMIMEHeader]: canonical names with their values, or [None]
      for an error other than the end of the input. *)
  ReadMIMEHeader : string -> option (list (string * string));
  DecodeHeader : string -> result string;
  qp_encode : string -> string;
  FormatRFC1123Z : Z -> string;
  uuid : nat -> string;
  hex_sha256 : string -> string;
  sha256_hex_checked : string -> bool;
}.

Inductive event :=
  | EvEnqueue (msg : OutboundMessage) (ok : bool)
  | EvDeliver (userID mailbox : string) (meta : MailMeta) (flags : Z) (ok : bool)
  | EvReport (original : OutboundMessage)
  | EvLocal (rcpt message : string)
  | EvBooking (userID sender : string)
  | EvCalendarReply (userID sender part ctMethod : string)
  | EvSchedule (userIDs : list string)
  | EvTrack (key : string) (at_ : Z) (ok : bool).

Section State.
Context {DB B L : Type} `{PebbleDB DB} `{BlobOps B} `{Limiting L} `{Codec OutboundMessage} `{MailCodecs} `{RaftApplier DB} `{DeliverExt}.

Record St := mkSt { s_db : DB; s_blobs : B; s_lims : which -> option L; s_uuid : nat; s_events : list event }.
Definition set_db (s : St) (db : DB) : St := mkSt db (s_blobs s) (s_lims s) (s_uuid s) (s_events s).
Definition set_blobs (s : St) (b : B) : St := mkSt (s_db s) b (s_lims s) (s_uuid s) (s_events s).
Definition set_lim (s : St) (w : which) (l : option L) : St :=
  mkSt (s_db s) (s_blobs s) (fun w' => if decide (w' = w) then l else s_lims s w') (s_uuid s) (s_events s).
Definition say (s : St) (e : event) : St := mkSt (s_db s) (s_blobs s) (s_lims s) (s_uuid s) (s_events s ++ [e]).

(** A limiter that is not set allows everything. *)
Definition allow (now : Z) (w : which) (key : string) (s : St) : St * bool :=
  match s_lims s w with
  | None => (s, true)
  | Some l => let (l', ok) := lim_Allow now key l in (set_lim s w (Some l'), ok)
  end.
Definition new_uuid (s : St) : St * string := (mkSt (s_db s) (s_blobs s) (s_lims s) (S (s_uuid s)) (s_events s), uuid (s_uuid s)).

Definition enqueue (now : Z) (msg : OutboundMessage) (s : St) : St * result unit :=
  let (db', r) := Enqueue (unix_of now) msg (s_db s) in
  (say (set_db s db') (EvEnqueue msg (is_ok r)), r).
Definition deliver_mail (userID mailbox : string) (meta : MailMeta) (flags : Z) (s : St) : St * result unit :=
  let (db', r) := DeliverMail userID mailbox meta flags (s_db s) in
  (say (set_db s db') (EvDeliver userID mailbox meta flags (is_ok r)), r).
Definition put_blob (data : string) (s : St) : St * result string :=
  let (b', r) := blob_Put data (s_blobs s) in (set_blobs s b', r).

End State.
Arguments St : clear implicits.

(** [env.GetHeader] of the original header block: the values of a name. *)
Definition header_values (h : list (string * string)) (name : string) : list string :=
  omap (fun kv : string * string => if String.eqb kv.1 name then Some kv.2 else None) h.

Section Sender.
Context `{GoUnicode} `{DeliverExt} `{NetMail}.

Definition ErrAmbiguousFrom : err := Sentinel "the From header does not hold exactly one address".
(** [mail.StrictFromAddress]. *)
Definition StrictFromAddress (rawMsg : string) : result string :=
  let? values := wrapf "parsing message headers" (from_values rawMsg) in
  match values with
  | [v] => match ParseAddressList v with Ok [a] => Ok (ma_Address a) | _ => Err ErrAmbiguousFrom end
  | _ => Err ErrAmbiguousFrom
  end.

Definition senderAuthenticated (env : QueueEnvelope) : bool :=
  EqualFold (qe_SpfResult env) "pass" || negb (String.eqb (qe_AuthUserId env) "").

Definition may_send_as (p : DeliverProcessor) (userID addr : string) : bool :=
  match p_authorizer p with
  | Some can => match can userID addr with Ok b => b | Err _ => false end
  | None => false
  end.
Definition verifiedFrom (p : DeliverProcessor) (env : QueueEnvelope) (raw dmarcResult : string) : string :=
  match StrictFromAddress raw with
  | Err _ => ""
  | Ok addr =>
      let addr := ToLower addr in
      if String.eqb dmarcResult "pass" then addr
      else if String.eqb (qe_AuthUserId env) "" then ""
      else if may_send_as p (qe_AuthUserId env) addr then addr else ""
  end.
Definition forwardOrigin (p : DeliverProcessor) (env : QueueEnvelope) (raw : string) : OutboundOrigin :=
  if String.eqb (qe_AuthUserId env) "" then ORIGIN_FORWARD else
  match StrictFromAddress raw with
  | Err _ => ORIGIN_FORWARD
  | Ok addr => if may_send_as p (qe_AuthUserId env) (ToLower addr) then ORIGIN_LOCAL else ORIGIN_FORWARD
  end.
End Sender.
