(* ===== verification/Vacation.v ===== *)
(** Vacation replies: [internal/pipeline/deliver/vacation.go] and
    [vacation_reply.go].  The theorems: one reply per sender and interval,
    recorded before it is sent, and never an answer to an automatic message. *)

From S2P Require Import Prelude GoStrings Pebble Utf8 MailText Proto UserData Mailbox MailboxStore Queue Envelope AttSplit Directory Preferences MailHeaders DeliverHeaders.
From S2P Require Import DeliverBase.
From Stdlib Require Import Ascii.

Definition header := list (string * string).
Definition complete (v : VacationConfig) : bool :=
  match vc_Accounts v with Some _ => true | None => false end && match vc_Profiles v with Some _ => true | None => false end &&
  vc_Tracker v && vc_Blobs v && vc_Local v && vc_Limiter v.

Record vacationFacts := mkFacts {
  vf_prefs : UserPreferences; vf_now : Z; vf_envSender : string; vf_header : option header; vf_ownAddressInToCc : bool;
  vf_senderIsSelf : bool; vf_senderAuthenticated : bool; vf_discarded : bool; vf_finalMailbox : string; vf_spam : bool }.
Record vacationCandidate := mkCandidate {
  cd_userID : string; cd_rcpt : string; cd_sender : string; cd_senderUserID : string; cd_prefs : UserPreferences;
  cd_origMsgID : string; cd_origSubject : string }.
Record vacationBatch := mkBatch { vb_header : option header; vb_toCc : list string; vb_spam : bool }.

Section Decision.
Context `{GoUnicode} `{NetMail} `{DeliverExt}.

(** * The decision *)

Definition vacationSenderAddress (sender : string) : option string :=
  let sender := TrimSpace sender in
  if String.eqb sender "" || String.eqb sender "<>" then None else
  match ParseAddress sender with
  | Err _ => None
  | Ok a => match CutLast (ma_Address a) "@" with
            | Some (local, domain) => if String.eqb local "" || String.eqb domain "" then None else Some (ma_Address a)
            | None => None
            end
  end.
Definition vacationRoleLocalPart (addr : string) : bool :=
  let local := ToLower (match CutLast addr "@" with Some (l, _) => l | None => "" end) in
  bool_decide (local ∈ ["mailer-daemon"; "postmaster"; "noreply"; "no-reply"]) || HasPrefix local "owner-" || HasSuffix local "-request".

(** The text outside comments. *)
Fixpoint uncommented (depth : nat) (l : list string) : string :=
  match l with
  | [] => ""
  | r :: l =>
      if String.eqb r "(" then uncommented (S depth) l
      else if String.eqb r ")" && (0 <? depth)%nat then uncommented (depth - 1) l
      else if (depth =? 0)%nat then r +:+ uncommented depth l else uncommented depth l
  end.
Definition autoSubmittedIsNo (v : string) : bool :=
  let s := uncommented 0 (runes v) in
  let tok := match Cut s ";" with Some (t, _) => t | None => s end in
  EqualFold (TrimSpace tok) "no".

Definition header_refuses (h : header) : option string :=
  if existsb (fun v => negb (autoSubmittedIsNo v)) (header_values h "Auto-Submitted") then Some "auto-submitted" else
  match List.find (fun v => bool_decide (v ∈ ["bulk"; "list"; "junk"])) ((fun v => ToLower (TrimSpace v)) <$> header_values h "Precedence") with
  | Some v => Some ("precedence " +:+ v)
  | None =>
      if existsb (fun name => existsb (fun kv : string * string => String.eqb kv.1 name) h) ["List-Id"; "List-Post"; "List-Unsubscribe"]
      then Some "list mail" else None
  end.

(** [None] is a reply; otherwise the first reason against one. *)
Definition vacationDecision (f : vacationFacts) : option string :=
  if negb (VacationActive (vf_prefs f) (vf_now f)) then Some "vacation not active" else
  if vf_discarded f then Some "deleted by a rule" else
  let mb := ToLower (vf_finalMailbox f) in
  if String.eqb mb "junk" || String.eqb mb "trash" then Some ("filed to " +:+ vf_finalMailbox f) else
  if vf_spam f then Some "spam or quarantined" else
  match vacationSenderAddress (vf_envSender f) with
  | None => Some "no usable envelope sender"
  | Some addr =>
      if vacationRoleLocalPart addr then Some "role or list address sender" else
      if vf_senderIsSelf f then Some "sender is the recipient" else
      if negb (vf_senderAuthenticated f) then Some "sender not authenticated" else
      match vf_header f with
      | None => Some "unreadable headers"
      | Some h =>
          match header_refuses h with
          | Some reason => Some reason
          | None => if negb (vf_ownAddressInToCc f) then Some "not addressed to the user" else None
          end
      end
  end.

Definition vacationMaxAddressChecks : nat := 50.
Definition newVacationBatch (raw : string) (spam : bool) : vacationBatch :=
  let h := ReadMIMEHeader raw in
  let addrs v := match ParseAddressList v with Ok l => ma_Address <$> l | Err _ => [] end in
  mkBatch h (match h with Some h => concat (addrs <$> header_values h "To" ++ header_values h "Cc") | None => [] end) spam.

(** * Candidates *)

Variables (p : DeliverProcessor) (v : VacationConfig).
Definition resolve_account (addr : string) : result string :=
  match vc_Accounts v with Some f => f addr | None => Err ErrNotFound end.
Definition vacationSenderUser (userID sender : string) : string :=
  match resolve_account sender with
  | Ok id => if negb (String.eqb id "") then id else if may_send_as p userID sender then userID else ""
  | Err _ => if may_send_as p userID sender then userID else ""
  end.
Definition owns (userID a : string) : bool :=
  match resolve_account a with Ok id => String.eqb id userID | Err _ => false end || may_send_as p userID a.
Definition vacationAddressedTo (userID : string) (addrs : list string) : bool := existsb (owns userID) (take vacationMaxAddressChecks addrs).
Definition hostedSenderDomain (sender : string) : bool :=
  match p_hostedDomain p with
  | None => false
  | Some hosted => hosted (ToLower (match CutLast sender "@" with Some (_, d) => d | None => sender end))
  end.

Definition first_value (h : option header) (name : string) : string :=
  match h with Some h => default "" (head (header_values h name)) | None => "" end.
Definition vacationCandidateFor (now : Z) (env : QueueEnvelope) (b : vacationBatch) (userID rcpt : string) (prefs : UserPreferences)
    (finalMailbox : string) : option vacationCandidate :=
  if negb (complete v) then None else
  if negb (VacationActive prefs now) then None else
  let sender := vacationSenderAddress (qe_Sender env) in
  let senderUser := match sender with Some s => vacationSenderUser userID s | None => "" end in
  let f := mkFacts prefs now (qe_Sender env) (vb_header b) (vacationAddressedTo userID (vb_toCc b))
             (match sender with Some _ => String.eqb senderUser userID | None => false end) (senderAuthenticated env) (qe_DiscardNormal env) finalMailbox (vb_spam b) in
  match vacationDecision f with
  | Some _ => None
  | None =>
      let sender := default "" sender in
      if String.eqb senderUser "" && hostedSenderDomain sender then None else
      Some (mkCandidate userID rcpt sender senderUser prefs (first_value (vb_header b) "Message-Id") (first_value (vb_header b) "Subject"))
  end.
End Decision.

(** * The reply *)

(** base64.StdEncoding *)
Definition b64_alphabet : string := "ABCDEFGHIJKLMNOPQRSTUVWXYZabcdefghijklmnopqrstuvwxyz0123456789+/".
Definition b64_char (n : Z) : string := match String.get (Z.to_nat n) b64_alphabet with Some c => String c "" | None => "" end.
Fixpoint b64_encode (fuel : nat) (s : string) : string :=
  match fuel, s with
  | O, _ | _, "" => ""
  | S fuel, String a "" => let n := byte_of a * 16 in b64_char (n / 64) +:+ b64_char (n mod 64) +:+ "=="
  | S fuel, String a (String b "") =>
      let n := (byte_of a * 256 + byte_of b) * 4 in
      b64_char (n / 4096) +:+ b64_char (n / 64 mod 64) +:+ b64_char (n mod 64) +:+ "="
  | S fuel, String a (String b (String c s)) =>
      let n := (byte_of a * 256 + byte_of b) * 256 + byte_of c in
      b64_char (n / 262144) +:+ b64_char (n / 4096 mod 64) +:+ b64_char (n / 64 mod 64) +:+ b64_char (n mod 64) +:+ b64_encode fuel s
  end.
Example b64_vectors : b64_encode 9 "foobar" = "Zm9vYmFy" /\ b64_encode 9 "fooba" = "Zm9vYmE=" /\ b64_encode 9 "foob" = "Zm9vYg==".
Proof. vm_compute. done. Qed.

Definition maxOriginalSubjectRunes : nat := 100.
Definition maxMsgIDLen : nat := 255.
Definition subjectChunkRunes : nat := 10.
Definition msgid_char (c : ascii) : bool :=
  (32 <? byte_of c) && (byte_of c <? 127) &&
  negb (bool_decide (c ∈ ["<"; ">"; "("; ")"; "["; "]"; ","; ";"; ":"]%char)) && negb (byte_of c =? 92) && negb (byte_of c =? 34).
Definition validMsgID (s : string) : bool :=
  if (String.length s <? 5)%nat || (maxMsgIDLen <? String.length s)%nat || negb (HasPrefix s "<") || negb (HasSuffix s ">") then false else
  let inner := str_take (String.length s - 2) (str_drop 1 s) in
  if negb (Count inner "@" =? 1) then false else
  if negb (str_all msgid_char inner) then false else
  match Cut inner "@" with Some (l, r) => negb (String.eqb l "") && negb (String.eqb r "") | None => false end.

Definition stripControl : string -> string :=
  drop_runes (fun r => (r <? 32) || (127 <=? r) && (r <=? 159) || (r =? 8232) || (r =? 8233)).
Definition is_plain (s : string) : bool := str_all (fun c => (32 <=? byte_of c) && (byte_of c <? 127)) s.
Fixpoint chunks (fuel : nat) (l : list string) : list (list string) :=
  match fuel, l with
  | O, _ | _, [] => []
  | S fuel, l => take subjectChunkRunes l :: chunks fuel (drop subjectChunkRunes l)
  end.
Definition encoded_word (s : string) : string := "=?utf-8?b?" +:+ b64_encode (String.length s) s +:+ "?=".
Definition encodeSubject (s : string) : string :=
  if is_plain s then s else
  let rs := runes s in
  Join ((fun c => encoded_word (concat_str c)) <$> chunks (length rs) rs) (sCRLF +:+ " ").

(** [crlf] as its three replacements. *)
Fixpoint drop_cr_before_lf (s : string) : string :=
  match s with
  | "" => ""
  | String c s' => if Ascii.eqb c CR && HasPrefix s' sLF then drop_cr_before_lf s' else String c (drop_cr_before_lf s')
  end.
Fixpoint lf_to_crlf (s : string) : string :=
  match s with "" => "" | String c s' => if Ascii.eqb c LF then String CR (String LF (lf_to_crlf s')) else String c (lf_to_crlf s') end.
Definition crlf (s : string) : string := lf_to_crlf (str_map (fun c => if Ascii.eqb c CR then LF else c) (drop_cr_before_lf s)).

Section Reply.
Context `{GoUnicode} `{NetMail} `{DeliverExt}.
Variables (p : DeliverProcessor) (v : VacationConfig).

Definition vacationOriginalSubject (raw : string) : string :=
  let dec := match DecodeHeader raw with Ok d => d | Err _ => raw end in
  let dec := if ValidString dec then dec else ToValidUTF8 dec "" in
  let dec := TrimSpace (stripControl dec) in
  if (maxOriginalSubjectRunes <? length (runes dec))%nat then concat_str (take maxOriginalSubjectRunes (runes dec)) else dec.
Definition vacationReplySubject (configured original : string) : string :=
  let s := TrimSpace (SanitizeHeaderValue configured) in
  if negb (String.eqb s "") then encodeSubject s else
  let o := vacationOriginalSubject original in
  if negb (String.eqb o "") then encodeSubject ("Auto: " +:+ o) else "Auto-reply".

Definition vacationFromAddress (c : vacationCandidate) : result string :=
  let primary :=
    let? primary := wrapf "primary address" (match vc_Profiles v with Some f => f (cd_userID c) | None => Err ErrNotFound end) in
    let? a := wrapf ("primary address " +:+ quote primary) (ParseAddress primary) in Ok (ma_Address a) in
  match ParseAddress (TrimSpace (cd_rcpt c)) with
  | Ok a => if may_send_as p (cd_userID c) (ma_Address a) then Ok (ma_Address a) else primary
  | Err _ => primary
  end.
Definition hdr (name value : string) : string := name +:+ ": " +:+ SanitizeHeaderValue value +:+ sCRLF.

(** [id] is the random identifier of the Message-ID. *)
Definition buildVacationReply (c : vacationCandidate) (now : Z) (id : string) : result string :=
  let? from := vacationFromAddress c in
  match CutLast from "@" with
  | None => Err (Errorf "from address has no domain")
  | Some (local, domain) =>
      if String.eqb local "" || String.eqb domain "" then Err (Errorf "from address has no domain") else
      let body := crlf (pf_VacationBody (cd_prefs c)) in
      let body := if HasSuffix body sCRLF then body else body +:+ sCRLF in
      Ok (hdr "From" ("<" +:+ from +:+ ">") +:+
          hdr "To" ("<" +:+ cd_sender c +:+ ">") +:+
          "Subject: " +:+ vacationReplySubject (pf_VacationSubject (cd_prefs c)) (cd_origSubject c) +:+ sCRLF +:+
          hdr "Date" (FormatRFC1123Z now) +:+
          hdr "Message-ID" ("<" +:+ id +:+ "@" +:+ domain +:+ ">") +:+
          (if validMsgID (cd_origMsgID c) then hdr "In-Reply-To" (cd_origMsgID c) +:+ hdr "References" (cd_origMsgID c) else "") +:+
          "Auto-Submitted: auto-replied" +:+ sCRLF +:+
          "Precedence: bulk" +:+ sCRLF +:+
          "X-Auto-Response-Suppress: All" +:+ sCRLF +:+
          "MIME-Version: 1.0" +:+ sCRLF +:+
          "Content-Type: text/plain; charset=utf-8" +:+ sCRLF +:+
          "Content-Transfer-Encoding: quoted-printable" +:+ sCRLF +:+ sCRLF +:+ qp_encode body)
  end.
End Reply.

(** * Sending *)

Section Send.
Context {DB B L : Type} `{PebbleDB DB} `{BlobOps B} `{Limiting L} `{Codec OutboundMessage} `{MailCodecs} `{RaftApplier DB} `{DeliverExt}
  `{GoUnicode} `{NetMail}.
Variables (p : DeliverProcessor) (v : VacationConfig).
Notation St := (St DB B L).

(** The record does not decode, is absent, or is outside the interval. *)
Definition suppressed (now interval : Z) (val : string) : bool :=
  match DecodeVacationSent val with
  | Ok at_ => let age := time_sub now at_ in (- Hour <? age) && (age <? interval)
  | Err _ => false
  end.
Definition reserveVacationReply (now : Z) (c : vacationCandidate) (key : string) (interval : Z) (s : St) : St * bool :=
  let proceed :=
    match Get (s_db s) key with
    | Ok val => negb (suppressed now interval val)
    | Err e => errors_is e ErrNotFound
    end in
  if negb proceed then (s, false) else
  let (s, ok) := allow now LVacation (cd_userID c) s in
  if negb ok then (s, false) else
  let (db', r) := ApplyCommand (mkCmd OP_PUT key (EncodeVacationSent now)) (s_db s) in
  (say (set_db s db') (EvTrack key now (is_ok r)), is_ok r).

Definition autoreply (id userID recipient hash : string) : OutboundMessage :=
  mkOut id userID "" [recipient] hash 0 0 0 STATUS_UNSPECIFIED "" [] "" [] [] ORIGIN_AUTOREPLY false "" "" [] false.
Definition dispatchVacationReply (now : Z) (c : vacationCandidate) (msg : string) (s : St) : St :=
  if negb (String.eqb (cd_senderUserID c) "") then
    let signed := match vc_Sign v msg with Ok m => m | Err _ => msg end in
    say s (EvLocal (cd_sender c) signed)
  else if negb (p_queuer p) then s else
  match put_blob msg s with
  | (s, Err _) => s
  | (s, Ok hash) => let (s, id) := new_uuid s in (enqueue now (autoreply id (cd_userID c) (cd_sender c) hash) s).1
  end.
Definition sendVacationReply (now : Z) (c : vacationCandidate) (s : St) : St :=
  let key := VacationSentKey hex_sha256 (cd_userID c) (cd_sender c) in
  let interval := VacationIntervalDays (cd_prefs c) * 24 * Hour in
  let (s, ok) := reserveVacationReply now c key interval s in
  if negb ok then s else
  let (s, id) := new_uuid s in
  match buildVacationReply p v c now id with
  | Err _ => s
  | Ok msg => dispatchVacationReply now c msg s
  end.

Definition NUL1 : string := String (char_of 0) "".
Definition candidate_key (c : vacationCandidate) : string := cd_userID c +:+ NUL1 +:+ ToLower (cd_sender c).
Fixpoint sendVacationReplies (now : Z) (cands : list vacationCandidate) (seen : list string) (s : St) : St :=
  match cands with
  | [] => s
  | c :: cands =>
      if bool_decide (candidate_key c ∈ seen) then sendVacationReplies now cands seen s
      else sendVacationReplies now cands (candidate_key c :: seen) (sendVacationReply now c s)
  end.
End Send.

(** * Records *)

Lemma vacation_record_roundtrip now :
  0 <= unix_of now <= MaxInt64 -> DecodeVacationSent (EncodeVacationSent now) = Ok (time_unix (unix_of now)).
Proof.
  intros Hn. unfold DecodeVacationSent, EncodeVacationSent. rewrite be_put_length. cbn [Nat.eqb negb]. rewrite Z.max_l by lia.
  rewrite be_roundtrip by (unfold MaxInt64 in Hn; lia).
  destruct (Z.ltb_spec MaxInt64 (unix_of now)); [lia|done].
Qed.

Section Sending.
Context {DB B L : Type} `{UserApplier DB} `{BlobOps B} `{Limiting L} `{Codec OutboundMessage} `{MailCodecs} `{DeliverExt} `{GoUnicode} `{NetMail}.
Variables (p : DeliverProcessor) (v : VacationConfig).
Notation St := (St DB B L).
Implicit Types s : St.

Definition key_of (c : vacationCandidate) : string := VacationSentKey hex_sha256 (cd_userID c) (cd_sender c).
Definition interval_of (c : vacationCandidate) : Z := VacationIntervalDays (cd_prefs c) * 24 * Hour.
Lemma interval_bounds c : 24 * Hour <= interval_of c <= 30 * 24 * Hour.
Proof.
  unfold interval_of, VacationIntervalDays, VacationDefaultIntervalDays, VacationMaxIntervalDays, Hour, Minute, Second.
  destruct (Z.leb_spec (pf_VacationIntervalDays (cd_prefs c)) 0); lia.
Qed.
Lemma key_user c : HasPrefix (key_of c) "/user/" = true.
Proof. unfold key_of, VacationSentKey, VacationSentPrefix. rewrite str_app_assoc. apply prefix_app. Qed.

(** The record of a reply at [now] covers every later moment of the interval. *)
Lemma record_suppresses now now' itv :
  0 <= unix_of now <= MaxInt64 -> now - Hour < now' -> itv <= 30 * 24 * Hour -> now' - time_unix (unix_of now) < itv ->
  suppressed now' itv (EncodeVacationSent now) = true.
Proof.
  intros Hn Hge Hitv Hlt. unfold suppressed. rewrite vacation_record_roundtrip by done.
  unfold time_sub, MinInt64, MaxInt64, time_unix, unix_of, Hour, Minute, Second in *. pose proof (Z.mod_pos_bound now 1000000000).
  pose proof (Z.div_mod now 1000000000). apply andb_true_iff. rewrite !Z.ltb_lt. lia.
Qed.
(** What one attempt adds to the record: nothing, a failed record, or a record
    and then at most one reply. *)
Inductive attempt (now : Z) (c : vacationCandidate) : list event -> Prop :=
  | at_none : attempt now c []
  | at_failed : attempt now c [EvTrack (key_of c) now false]
  | at_lost : attempt now c [EvTrack (key_of c) now true]
  | at_local msg : attempt now c [EvTrack (key_of c) now true; EvLocal (cd_sender c) msg]
  | at_queued id hash ok : attempt now c [EvTrack (key_of c) now true; EvEnqueue (autoreply id (cd_userID c) (cd_sender c) hash) ok].

Lemma allow_db now w key s s' ok : allow now w key s = (s', ok) -> s_db s' = s_db s /\ s_events s' = s_events s.
Proof.
  unfold allow. destruct (s_lims s w) as [l|]; [|intros [= <- _]; split; reflexivity].
  destruct (lim_Allow now key l) as [l' b]. intros [= <- _]. split; reflexivity.
Qed.
Lemma reserve_spec now c s s' ok :
  reserveVacationReply now c (key_of c) (interval_of c) s = (s', ok) ->
  (ok = false /\ (s_events s' = s_events s \/ s_events s' = s_events s ++ [EvTrack (key_of c) now false])) \/
  (ok = true /\ s_events s' = s_events s ++ [EvTrack (key_of c) now true] /\
   exists x, ApplyCommand (mkCmd OP_PUT (key_of c) (EncodeVacationSent now)) (s_db s) = (s_db s', Ok x)).
Proof.
  unfold reserveVacationReply. cbv zeta. destruct (negb _); [intros [= <- <-]; auto|].
  destruct (allow _ _ _ _) as [s1 ok1] eqn:E1. apply allow_db in E1 as [Ed Ee]. destruct (negb ok1); [intros [= <- <-]; auto|].
  rewrite Ed. destruct (ApplyCommand _ _) as [db' [x|e]]; intros [= <- <-]; cbn [s_events say set_db s_db is_ok]; rewrite Ee.
  - right. split; [done|]. split; [done|]. by exists x.
  - left. split; [done|]. by right.
Qed.
Lemma dispatch_spec now c msg s :
  exists evs, s_events (dispatchVacationReply p v now c msg s) = s_events s ++ evs /\
    (evs = [] \/ (exists m, evs = [EvLocal (cd_sender c) m]) \/ exists id h ok, evs = [EvEnqueue (autoreply id (cd_userID c) (cd_sender c) h) ok]).
Proof.
  unfold dispatchVacationReply. destruct (negb (String.eqb _ "")); [eexists; split; [done|]; eauto|].
  destruct (negb (p_queuer p)); [exists []; rewrite app_nil_r; auto|].
  unfold put_blob. destruct (blob_Put msg (s_blobs s)) as [b [h|e]]; [|exists []; rewrite app_nil_r; auto].
  cbn [new_uuid]. unfold enqueue. destruct (Enqueue _ _ _) as [db' r]. eexists. split; [done|]. right. right. eauto.
Qed.
Lemma send_attempt now c s : exists evs, s_events (sendVacationReply p v now c s) = s_events s ++ evs /\ attempt now c evs.
Proof.
  unfold sendVacationReply. cbv zeta. fold (key_of c) (interval_of c).
  destruct (reserveVacationReply _ _ _ _ s) as [s1 ok] eqn:E1. apply reserve_spec in E1 as [[-> [E|E]]|(->&E&_)]; cbn [negb].
  - exists []. rewrite app_nil_r. split; [done|constructor].
  - eexists. split; [exact E|constructor].
  - cbn [new_uuid]. set (s2 := mkSt _ _ _ _ _). assert (s_events s2 = s_events s1) as E2 by done. clearbody s2.
    destruct (buildVacationReply p v c now _) as [msg|]; [|eexists; rewrite E2; split; [exact E|constructor]].
    destruct (dispatch_spec now c msg s2) as (evs&Ed&Hevs). exists (EvTrack (key_of c) now true :: evs).
    rewrite Ed, E2, E, <-app_assoc. split; [done|]. destruct Hevs as [->|[[m ->]|(id&h&ok&->)]]; constructor.
Qed.

(** A sender hears once per interval.  An attempt to reply writes its record
    first and sends at most one message after it, or nothing where the record
    was not accepted; an accepted record is in the store, and as long as it is
    the stored one, another message of that sender to that user gets no reply
    before the interval (of one to thirty days) has passed: the attempt changes
    nothing. *)
Theorem vacation_reply_once n now now' c c' s s' :
  0 <= unix_of now <= MaxInt64 -> key_of c' = key_of c ->
  (exists evs, s_events (sendVacationReply p v now c s) = s_events s ++ evs /\ attempt now c evs) /\
  (uready (S n) (s_db s) -> healthy (s_db s) -> forall s1, reserveVacationReply now c (key_of c) (interval_of c) s = (s1, true) ->
   healthy (s_db s1) /\ contents (s_db s1) !! key_of c = Some (EncodeVacationSent now)) /\
  (healthy (s_db s') -> contents (s_db s') !! key_of c = Some (EncodeVacationSent now) ->
   now <= now' -> now' - time_unix (unix_of now) < interval_of c' -> sendVacationReply p v now' c' s' = s').
Proof.
  intros Hn Hkey. split; [apply send_attempt|]. split.
  { intros Hr Hs s1 [[? _]|(_&_&x&Ha)]%reserve_spec; [done|]. destruct (uap_put n _ _ _ _ _ Hr Hs (key_user c) Ha) as (Hs1&_&Hc).
    split; [done|]. rewrite Hc by apply user_not_uown, key_user. apply lookup_insert_eq. }
  intros Hs Hrec Hle Hlt. unfold sendVacationReply. cbv zeta. fold (key_of c') (interval_of c').
  unfold reserveVacationReply. rewrite Get_healthy, Hkey, Hrec by done. cbn [of_option].
  rewrite record_suppresses; [done|done|unfold Hour, Minute, Second; lia|apply interval_bounds|done].
Qed.
End Sending.

(** A message without an envelope sender, as every reply of this server is, gets
    no reply. *)
Theorem no_reply_to_null_sender `{GoUnicode} `{NetMail} `{DeliverExt} p v now env b u rcpt prefs mb :
  TrimSpace (qe_Sender env) = "" -> vacationCandidateFor p v now env b u rcpt prefs mb = None.
Proof.
  intros Hs. unfold vacationCandidateFor. destruct (negb (complete v)); [done|]. destruct (negb (VacationActive prefs now)); [done|].
  assert (vacationSenderAddress (qe_Sender env) = None) as Hn by (unfold vacationSenderAddress; by rewrite Hs).
  cbv zeta. rewrite Hn. unfold vacationDecision. cbn [vf_envSender vf_prefs vf_now vf_discarded vf_finalMailbox vf_spam]. rewrite Hn.
  destruct (VacationActive prefs now); [|done]. destruct (qe_DiscardNormal env); [done|]. cbv zeta. by destruct (_ || _), (vb_spam b).
Qed.

(** * Evaluation *)

Section Demo.
#[local] Existing Instances bytewise_unicode plain_raft plain_applier.
#[local] Instance demo_user_applier : UserApplier MemDB := plain_user.
#[local] Instance demo_netmail_v : NetMail := {|
  ParseAddress s := Ok (mkMailAddress "" s); ParseAddressList s := Ok [mkMailAddress "" s]; address_String a := ma_Address a |}.
#[local] Instance demo_ext_v : DeliverExt := {|
  ReadEnvelope _ := Err (Errorf "no parser"); ParseDate _ := None; VerifyDKIM _ := ("none", ""); from_values _ := Err (Errorf "no parser");
  ReadMIMEHeader _ := None; DecodeHeader s := Ok s; qp_encode s := s; FormatRFC1123Z _ := "";
  uuid n := FormatInt (Z.of_nat n); hex_sha256 s := s; sha256_hex_checked _ := true |}.
#[local] Instance demo_blobs_v : BlobOps (gmap string string) := {|
  blob_Put d b := (<[d := d]> b, Ok d); blob_Exists b k := bool_decide (is_Some (b !! k)); blob_Get b k := of_option ErrNotFound (b !! k) |}.
#[local] Instance demo_limiting_v : Limiting unit := fun _ _ l => (l, true).
#[local] Instance demo_out_v : Codec OutboundMessage := {| marshal m := Ok (om_Id m); unmarshal _ := Err (Errorf "not read back") |}.

Definition away_prefs : UserPreferences := mkPrefs 1 1 2 25 1 "" "UTC" 0 "" "en" false "" true "" true "Away" "Back soon" 0 0 3 "".
Definition away_c (sender : string) : vacationCandidate := mkCandidate "u1" "ann@x.org" sender "" away_prefs "<1@y.org>" "Hello".
Definition away_v : VacationConfig :=
  mkVacation (Some (fun _ => Err ErrNotFound)) (Some (fun _ => Ok "ann@x.org")) true true true true (fun m => Ok m).
Definition away_p : DeliverProcessor :=
  mkDeliver None true None None None None false None false None None false 0 "" None (Some away_v) false.
Definition away_s : St MemDB (gmap string string) unit := mkSt (mem_of []) ∅ (fun _ => None) 0 [].
Definition t0 : Z := time_unix 1700000000 + 5.
Definition away_s1 := sendVacationReply away_p away_v t0 (away_c "Eve@y.org") away_s.

(** The second message, two days later and in another spelling, is not
    answered; four days later it is. *)
Lemma vacation_reply_once_witness :
  sendVacationReply away_p away_v (t0 + 48 * Hour) (away_c "<eve@Y.org>") away_s1 = away_s1 /\
  length (s_events away_s1) = 2%nat /\
  length (s_events (sendVacationReply away_p away_v (t0 + 96 * Hour) (away_c "eve@y.org") away_s1)) = 4%nat.
Proof.
  split; [|split; vm_compute; reflexivity].
  apply (vacation_reply_once away_p away_v 0 t0 (t0 + 48 * Hour) (away_c "Eve@y.org") (away_c "<eve@Y.org>") away_s away_s1).
  - vm_compute. split; discriminate.
  - vm_compute. reflexivity.
  - vm_compute. done.
  - vm_compute. reflexivity.
  - vm_compute. discriminate.
  - vm_compute. reflexivity.
Defined.
End Demo.
