(* ===== verification/Deliver.v ===== *)
(** The deliver stage: [internal/pipeline/deliver/deliver.go] and
    [calendar_reply.go].  The placement of iTIP messages in a schedule inbox is
    recorded as one call. *)

From S2P Require Import Prelude GoStrings Pebble Utf8 MailText Proto UserData Mailbox MailboxStore Queue Envelope AttSplit Directory Preferences MailHeaders DeliverHeaders DeliverBase Vacation Srs.
From Stdlib Require Import Ascii.

(** * The verdict *)

Section Verdict.
Context `{GoUnicode}.
Definition defaultSpamThreshold : Z := 1056964608.   (* 0.5 *)
Definition spamTag (p : DeliverProcessor) : Z := default defaultSpamThreshold (p_spamThresholds p).
Definition spam_verdict (st : StageResult) : bool :=
  String.eqb (sr_Stage st) "antispam" && (String.eqb (sr_Action st) "tag" || String.eqb (sr_Action st) "quarantine") ||
  String.eqb (sr_Action st) "quarantine".
Definition forwardedAsSpam (env : QueueEnvelope) (spamScore tag : Z) : bool :=
  let mb := ToLower (qe_TargetMailbox env) in
  f32_ge spamScore tag || String.eqb mb "junk" || String.eqb mb "quarantine" || existsb spam_verdict (qe_Stages env).

(** * Addresses *)

Variable p : DeliverProcessor.
Definition resolves (addr : string) : option string :=
  match p_resolver p with Some f => match f addr with Ok id => Some id | Err _ => None end | None => None end.
Definition hosts (domain : string) : bool := match p_hostedDomain p with Some f => f domain | None => false end.
Definition isHostedAddress (address : string) : bool :=
  match p_resolver p, p_hostedDomain p with
  | Some _, Some _ =>
      match CutLast address "@" with
      | Some (_, d) => hosts (ToLower d) && match resolves address with Some _ => true | None => false end
      | None => false
      end
  | _, _ => false
  end.
Definition bare_rcpt (rcpt : string) : string := TrimSuffix (TrimPrefix (TrimSpace rcpt) "<") ">".
Definition hosted_local (test : string -> bool) (rcpt : string) : bool :=
  match CutLast (bare_rcpt rcpt) "@" with
  | Some (local, d) => negb (String.eqb local "") && test local && hosts (ToLower d)
  | None => false
  end.
Definition isHostedSRS (rcpt : string) : bool := hosted_local IsSRS rcpt.
Definition isHostedNoRelay (rcpt : string) : bool := hosted_local IsNoRelay rcpt.

(** Duplicates, empty addresses and addresses of a recipient are dropped. *)
Fixpoint forward_targets_go (self : list string) (seen addresses : list string) : list string :=
  match addresses with
  | [] => []
  | addr :: rest =>
      if String.eqb addr "" then forward_targets_go self seen rest
      else if bool_decide (addr ∈ seen) then forward_targets_go self seen rest
      else match resolves addr with
           | Some id => if bool_decide (id ∈ self) then forward_targets_go self (addr :: seen) rest
                        else addr :: forward_targets_go self (addr :: seen) rest
           | None => addr :: forward_targets_go self (addr :: seen) rest
           end
  end.
Definition forwardTargets (addresses recipients : list string) : list string :=
  forward_targets_go (omap resolves recipients) [] addresses.

Definition forwardingDomain (userID : string) : string :=
  match p_userDomains p, p_hostedDomain p with
  | Some ud, Some _ =>
      match ud userID with
      | Err _ => ""
      | Ok d => let d := ToLower (TrimSpace d) in if String.eqb d "" || negb (hosts d) then "" else d
      end
  | _, _ => ""
  end.
End Verdict.

(** * The forward gate *)

Record forwardGate := mkGate { g_blocked : string; g_decided : gmap string bool; g_approved : list (string * string) }.
Record forwardGroup := mkGroup { fg_key : string; fg_sender : string; fg_senderID : string; fg_targets : list string }.
Record copyDelivery := mkCopy { cp_mailbox : string; cp_meta : MailMeta }.

Section Deliver.
Context {DB B L : Type} `{PebbleDB DB} `{BlobOps B} `{Limiting L} `{Codec OutboundMessage} `{MailCodecs} `{RaftApplier DB} `{DeliverExt}
  `{GoUnicode} `{NetMail} `{MimeHeaders}.
Variable p : DeliverProcessor.
Notation St := (St DB B L).

Definition newForwardGate (env : QueueEnvelope) (spamScore tag : Z) : forwardGate :=
  mkGate (if forwardedAsSpam env spamScore tag then "spam" else "") ∅ [].
Definition hopLimitExceeded (raw : string) : bool := maxForwardHops <? countReceivedHeaders raw.

(** The reason not to send, "" for none. *)
Definition deny (now : Z) (env : QueueEnvelope) (raw : string) (g : forwardGate) (userID target : string) (s : St) : St * string :=
  if negb (String.eqb (g_blocked g) "") then (s, g_blocked g) else
  if String.eqb target "" then (s, "empty target") else
  if negb (p_queuer p) then (s, "no outbound queue") else
  if hopLimitExceeded raw then (s, "hop limit exceeded") else
  if (length (forwardTargets p [target] (qe_Recipients env)) =? 0)%nat then (s, "forwards to a recipient of this message") else
  let unverified :=
    if isHostedAddress p target then "" else
    match p_fwdTargets p with
    | None => "target verification not configured"
    | Some allowed =>
        match allowed userID target with
        | Err _ => "target lookup failed"
        | Ok ok => if ok then "" else "target not verified"
        end
    end in
  if negb (String.eqb unverified "") then (s, unverified) else
  let (s, ok) := allow now LForward userID s in (s, if ok then "" else "rate limit exceeded").

Definition permit (now : Z) (env : QueueEnvelope) (raw userID target : string) (g : forwardGate) (s : St) : St * forwardGate * bool :=
  let target := TrimSpace target in
  let key := userID +:+ "|" +:+ ToLower target in
  match g_decided g !! key with
  | Some d => (s, g, d)
  | None =>
      let (s, reason) := deny now env raw g userID target s in
      let ok := String.eqb reason "" in
      (s, mkGate (g_blocked g) (<[key := ok]> (g_decided g)) (if ok then g_approved g ++ [(userID, target)] else g_approved g), ok)
  end.

Fixpoint vetRuleRequests (now : Z) (env : QueueEnvelope) (raw : string) (reqs : list ForwardRequest) (g : forwardGate) (s : St) : St * forwardGate :=
  match reqs with
  | [] => (s, g)
  | req :: reqs =>
      if String.eqb (fq_UserId req) "" then vetRuleRequests now env raw reqs g s else
      let '(s, g, _) := permit now env raw (fq_UserId req) (fq_Target req) g s in vetRuleRequests now env raw reqs g s
  end.

(** * Queueing the forwards *)

Fixpoint charge_go (now : Z) (author : string) (kept : list string) (stays : gmap string bool) (approved : list (string * string)) (s : St) :
    St * list (string * string) * list (string * string) :=
  match approved with
  | [] => (s, [], [])
  | (userID, target) :: approved =>
      if negb (bool_decide (target ∈ kept)) then charge_go now author kept stays approved s else
      let '(s, ok) :=
        match stays !! target with
        | Some ok => (s, ok)
        | None => if isHostedAddress p target then (s, true) else allow now LAuthor author s
        end in
      let '(s, local, refused) := charge_go now author kept (<[target := ok]> stays) approved s in
      if ok then (s, (userID, target) :: local, refused) else (s, local, (userID, target) :: refused)
  end.
Definition chargeAuthor (now : Z) (env : QueueEnvelope) (approved : list (string * string)) : St -> St * list (string * string) * list (string * string) :=
  charge_go now (qe_AuthUserId env) (forwardTargets p approved.*2 (qe_Recipients env)) ∅ approved.

Definition origin_eqb (a b : OutboundOrigin) : bool := bool_decide (a = b).
(** The envelope sender of a new group. *)
Definition group_sender (env : QueueEnvelope) (noRelay : bool) (domain : string) : string :=
  if noRelay then (if String.eqb domain "" then "" else NoRelayLocal +:+ "@" +:+ domain)
  else if String.eqb domain "" then qe_Sender env
  else match p_srs p with
       | Some srs => match so_Forward srs (qe_Sender env) domain with Ok sender => sender | Err _ => qe_Sender env end
       | None => qe_Sender env
       end.
Definition add_target (env : QueueEnvelope) (noRelay : bool) (key domain userID target : string) (groups : list forwardGroup) : list forwardGroup :=
  match List.find (fun g => String.eqb (fg_key g) key) groups with
  | Some _ => (fun g => if String.eqb (fg_key g) key then mkGroup (fg_key g) (fg_sender g) (fg_senderID g) (fg_targets g ++ [target]) else g) <$> groups
  | None => groups ++ [mkGroup key (group_sender env noRelay domain) (if noRelay then userID else "") [target]]
  end.
Fixpoint make_groups (env : QueueEnvelope) (srsRewrite noRelay : bool) (queued : list string) (groups : list forwardGroup)
    (approved : list (string * string)) : list forwardGroup :=
  match approved with
  | [] => groups
  | (userID, target) :: approved =>
      if bool_decide (target ∈ queued) then make_groups env srsRewrite noRelay queued groups approved else
      let domain := if srsRewrite || noRelay then forwardingDomain p userID else "" in
      let key := if srsRewrite then domain else if noRelay then userID else "" in
      make_groups env srsRewrite noRelay (target :: queued) (add_target env noRelay key domain userID target groups) approved
  end.
Definition forward_message (id senderID sender : string) (targets : list string) (hash : string) (origin : OutboundOrigin) (authenticated : bool) : OutboundMessage :=
  mkOut id senderID sender targets hash 0 0 0 STATUS_UNSPECIFIED "" [] "" [] [] origin authenticated "" "" [] false.
Fixpoint enqueue_all (now : Z) (env : QueueEnvelope) (origin : OutboundOrigin) (authenticated : bool) (groups : list forwardGroup) (s : St) : St :=
  match groups with
  | [] => s
  | g :: groups =>
      let targets := forwardTargets p (fg_targets g) (qe_Recipients env) in
      if (length targets =? 0)%nat then enqueue_all now env origin authenticated groups s else
      let (s, id) := new_uuid s in
      let (s, _) := enqueue now (forward_message id (fg_senderID g) (fg_sender g) targets (qe_BlobHash env) origin authenticated) s in
      enqueue_all now env origin authenticated groups s
  end.
Definition enqueueGroups (now : Z) (env : QueueEnvelope) (approved : list (string * string)) (origin : OutboundOrigin) (s : St) : St :=
  let isForward := origin_eqb origin ORIGIN_FORWARD in
  let hasSender := negb (String.eqb (TrimSpace (qe_Sender env)) "") in
  let authenticated := senderAuthenticated env in
  let srsRewrite := match p_srs p with Some _ => isForward && hasSender && authenticated | None => false end in
  let noRelay := isForward && hasSender && negb authenticated in
  enqueue_all now env origin authenticated (make_groups env srsRewrite noRelay [] [] approved) s.
Definition enqueueForwards (now : Z) (env : QueueEnvelope) (raw : string) (approved : list (string * string)) (s : St) : St :=
  if (length approved =? 0)%nat || negb (p_queuer p) then s else
  let origin := forwardOrigin p env raw in
  match s_lims s LAuthor with
  | Some _ =>
      if origin_eqb origin ORIGIN_LOCAL then
        let '(s, local, refused) := chargeAuthor now env approved s in
        enqueueGroups now env refused ORIGIN_FORWARD (enqueueGroups now env local ORIGIN_LOCAL s)
      else enqueueGroups now env approved origin s
  | None => enqueueGroups now env approved origin s
  end.

(** * Bounces to an SRS address *)

Definition relaySRSBounce (now : Z) (env : QueueEnvelope) (raw : string) (blocked rcpt : string) (done : list string) (s : St) : St * list string :=
  match p_srs p with
  | None => (s, done)
  | Some srs =>
      if negb (String.eqb (TrimSpace (qe_Sender env)) "") || negb (String.eqb blocked "") || negb (p_queuer p) || hopLimitExceeded raw then (s, done) else
      match so_Reverse srs (bare_rcpt rcpt) with
      | Err _ => (s, done)
      | Ok orig =>
          if bool_decide (orig ∈ done) then (s, done) else
          let done := orig :: done in
          let (s, ok) := allow now LSrsAddr ("srs:" +:+ ToLower orig) s in
          if negb ok then (s, done) else
          let (s, ok) := allow now LSrsNode "srs:global" s in
          if negb ok then (s, done) else
          let (s, id) := new_uuid s in
          ((enqueue now (forward_message id "" "" [orig] (qe_BlobHash env) ORIGIN_FORWARD false) s).1, done)
      end
  end.

(** * Reports *)

Definition delivered_original (env : QueueEnvelope) (rcpt messageID : string) : OutboundMessage :=
  mkOut (qe_Id env) "" (qe_Sender env) [rcpt] (qe_BlobHash env) 0 0 0 STATUS_UNSPECIFIED "" [] messageID [] [] ORIGIN_UNSPECIFIED false
    (qe_DsnRet env) (qe_DsnEnvid env) [mkRcptDSN rcpt (qe_DsnNotify env) (qe_DsnOrcptType env) (qe_DsnOrcpt env)] false.
Definition reportDelivered (env : QueueEnvelope) (rcpt messageID : string) (spamScore tag : Z) (s : St) : St :=
  if negb (p_reporter p) || negb (NotifyWantsSuccess (qe_DsnNotify env)) then s else
  if String.eqb (TrimSpace (qe_Sender env)) "" || negb (senderAuthenticated env) then s else
  if forwardedAsSpam env spamScore tag then s else
  say s (EvReport (delivered_original env rcpt messageID)).

(** * Copies *)

Fixpoint copy_metas (discard : bool) (targetMailbox : string) (meta : MailMeta) (mailboxes : list string) (acc : list copyDelivery) (s : St) :
    St * list copyDelivery :=
  match mailboxes with
  | [] => (s, acc)
  | mb :: mailboxes =>
      if String.eqb mb "" || negb discard && EqualFold mb targetMailbox then copy_metas discard targetMailbox meta mailboxes acc s else
      if existsb (fun c => EqualFold (cp_mailbox c) mb) acc then copy_metas discard targetMailbox meta mailboxes acc s else
      let (s, guid) := new_uuid s in
      let cm := mkMailMeta guid (mm_MessageId meta) (mm_Subject meta) (mm_From meta) (mm_To meta) (mm_ReceivedAt meta) (mm_RawMessage meta)
        (mm_Attachments meta) (mm_FolderGuid meta) (mm_Flags meta) (mm_InReplyTo meta) (mm_References meta) (mm_Cc meta) (mm_SpamScore meta)
        (mm_SpfResult meta) (mm_DkimResult meta) (mm_DkimDomain meta) mb (mm_Tags meta) (mm_Layout meta) (mm_ReplyTo meta) (mm_ListId meta)
        (mm_ListPost meta) in
      copy_metas discard targetMailbox meta mailboxes (acc ++ [mkCopy mb cm]) s
  end.
Fixpoint deliver_copies (userID : string) (flags : Z) (l : list copyDelivery) (s : St) : St * result unit :=
  match l with
  | [] => (s, Ok tt)
  | c :: l =>
      match deliver_mail userID (cp_mailbox c) (cp_meta c) flags s with
      | (s, Err e) => (s, Err e)
      | (s, Ok _) => deliver_copies userID flags l s
      end
  end.

(** * One message *)

(** What is worked out once per message. *)
Record Msg := mkMsg {
  m_raw : string; m_parsed : option ParsedMail; m_messageID : string; m_subject : string; m_from : string; m_inReplyTo : string;
  m_references : string; m_replyTo : string; m_listID : string; m_listPost : string; m_to : list string; m_cc : list string;
  m_receivedAt : Z; m_spamScore : Z; m_spamTag : Z; m_dkimResult : string; m_dkimDomain : string; m_dmarc : string;
  m_hash : string; m_size : Z; m_attachments : list BlobRef; m_layout : list MessageSegment }.
Definition new_meta (env : QueueEnvelope) (m : Msg) (guid targetMailbox : string) : MailMeta :=
  mkMailMeta guid (m_messageID m) (m_subject m) (m_from m) (m_to m) (unix_of (m_receivedAt m))
    (Some (mkBlobRef (m_hash m) (m_size m) "message/rfc822" "")) (m_attachments m) "" 0 (m_inReplyTo m) (m_references m) (m_cc m) (m_spamScore m)
    (qe_SpfResult env) (m_dkimResult m) (m_dkimDomain m) targetMailbox [] (m_layout m) (m_replyTo m) (m_listID m) (m_listPost m).

Record Acc := mkAcc { a_gate : forwardGate; a_reversed : list string; a_vacation : list vacationCandidate; a_reply : list string }.
Definition with_gate (a : Acc) (g : forwardGate) : Acc := mkAcc g (a_reversed a) (a_vacation a) (a_reply a).

(** The account's own forwarding: whether the local copy is skipped. *)
Definition account_forward (now : Z) (env : QueueEnvelope) (m : Msg) (userID : string) (a : Acc) (s : St) : St * Acc * bool :=
  match p_prefs p with
  | None => (s, a, false)
  | Some prefs_of =>
      let prefs := prefs_of userID in
      if String.eqb (pf_ForwardAddress prefs) "" then (s, a, false) else
      let '(s, g, sent) := permit now env (m_raw m) userID (pf_ForwardAddress prefs) (a_gate a) s in
      (s, with_gate a g, sent && negb (pf_ForwardKeepCopy prefs))
  end.
Definition target_mailbox (env : QueueEnvelope) (m : Msg) : string :=
  if negb (String.eqb (qe_TargetMailbox env) "") then qe_TargetMailbox env
  else if f32_ge (m_spamScore m) (m_spamTag m) then "Junk" else "INBOX".
Definition vacation_step (now : Z) (env : QueueEnvelope) (m : Msg) (userID rcpt targetMailbox : string) : option vacationCandidate :=
  match p_vacation p, p_prefs p with
  | Some v, Some prefs_of =>
      let prefs := prefs_of userID in
      if VacationActive prefs now
      then vacationCandidateFor p v now env (newVacationBatch (m_raw m) (forwardedAsSpam env (m_spamScore m) (m_spamTag m))) userID rcpt prefs targetMailbox
      else None
  | _, _ => None
  end.
(** The booking answered for this recipient, if it is one: its verified sender. *)
Definition booking_sender (env : QueueEnvelope) (m : Msg) (userID targetMailbox : string) : option string :=
  match p_bookings p with
  | None => None
  | Some answer =>
      if qe_DiscardNormal env || EqualFold targetMailbox "Junk" then None else
      match m_parsed m with
      | Some pm =>
          match pm_calendar pm with
          | Some (part, method) =>
              let sender := verifiedFrom p env (m_raw m) (m_dmarc m) in
              if negb (String.eqb sender "") && answer userID sender part method then Some sender else None
          | None => None
          end
      | None => None
      end
  end.

(** Storing the message for one account. *)
Definition store_copies (env : QueueEnvelope) (m : Msg) (userID targetMailbox : string) (s : St) : St * result unit :=
  let (s, guid) := new_uuid s in
  let meta := SanitizeMailMeta (new_meta env m guid targetMailbox) in
  let meta := match qe_PendingTags env with
              | [] => meta
              | tags => match AddTags meta tags with Ok meta' => meta' | Err _ => meta end
              end in
  let (s, copies) := copy_metas (qe_DiscardNormal env) targetMailbox meta (qe_CopyMailboxes env) [] s in
  let (s, r) := if qe_DiscardNormal env then (s, Ok tt) else deliver_mail userID targetMailbox meta (qe_PendingFlags env) s in
  match r with Err e => (s, Err e) | Ok _ => deliver_copies userID (qe_PendingFlags env) copies s end.

Definition runtime_panic : err := Errorf "runtime error: invalid memory address or nil pointer dereference".
Definition deliver_user (now : Z) (env : QueueEnvelope) (m : Msg) (rcpt userID : string) (a : Acc) (s : St) : St * Acc * option err :=
  let '(s, a, skipLocal) := account_forward now env m userID a s in
  let targetMailbox := target_mailbox env m in
  let a := match vacation_step now env m userID rcpt targetMailbox with
           | Some c => mkAcc (a_gate a) (a_reversed a) (a_vacation a ++ [c]) (a_reply a)
           | None => a
           end in
  if skipLocal then (s, a, None) else
  match booking_sender env m userID targetMailbox with
  | Some sender => (reportDelivered env rcpt (m_messageID m) (m_spamScore m) (m_spamTag m) (say s (EvBooking userID sender)), a, None)
  | None =>
      match store_copies env m userID targetMailbox s with
      | (s, Err e) => (s, a, Some (Wrap ("deliver: apply delivery command for " +:+ rcpt) e))
      | (s, Ok _) =>
          if qe_DiscardNormal env then (s, a, None) else
          let a := if negb (EqualFold targetMailbox "Junk") && negb (bool_decide (userID ∈ a_reply a))
                   then mkAcc (a_gate a) (a_reversed a) (a_vacation a) (a_reply a ++ [userID]) else a in
          (reportDelivered env rcpt (m_messageID m) (m_spamScore m) (m_spamTag m) s, a, None)
      end
  end.
Definition deliver_recipient (now : Z) (env : QueueEnvelope) (m : Msg) (rcpt : string) (a : Acc) (s : St) : St * Acc * option err :=
  if isHostedSRS p rcpt then
    let (s, done) := relaySRSBounce now env (m_raw m) (g_blocked (a_gate a)) rcpt (a_reversed a) s in
    (s, mkAcc (a_gate a) done (a_vacation a) (a_reply a), None)
  else if isHostedNoRelay p rcpt then (s, a, None)
  else match p_resolver p with
       | None => (s, a, Some runtime_panic)
       | Some f => match f rcpt with Err _ => (s, a, None) | Ok userID => deliver_user now env m rcpt userID a s end
       end.
Fixpoint deliver_loop (now : Z) (env : QueueEnvelope) (m : Msg) (rcpts : list string) (a : Acc) (s : St) : St * Acc * option err :=
  match rcpts with
  | [] => (s, a, None)
  | rcpt :: rcpts =>
      match deliver_recipient now env m rcpt a s with
      | (s, a, Some e) => (s, a, Some e)
      | (s, a, None) => deliver_loop now env m rcpts a s
      end
  end.

Definition applyCalendarReplies (env : QueueEnvelope) (m : Msg) (userIDs : list string) (s : St) : St :=
  if negb (p_calReplies p) then s else
  match m_parsed m with
  | Some pm =>
      match pm_calendar pm with
      | Some (part, method) =>
          let sender := verifiedFrom p env (m_raw m) (m_dmarc m) in
          if String.eqb sender "" then s else foldl (fun s u => say s (EvCalendarReply u sender part method)) s userIDs
      | None => s
      end
  | None => s
  end.

(** * Reading the message *)

(** The stamped message as one blob, or the original where it was not written. *)
Definition store_whole (env : QueueEnvelope) (raw stamped : string) (s : St) : St * (string * Z * list BlobRef * list MessageSegment) :=
  let original := (qe_BlobHash env, len raw, [], []) in
  if negb (p_blobs p) then (s, original) else
  match put_blob stamped s with
  | (s, Err _) => (s, original)
  | (s, Ok h) => (s, (h, len stamped, [], []))
  end.
(** Split into a skeleton and attachments, or whole.  [None] stands for a
    failure of the splitter itself. *)
Definition store_raw (env : QueueEnvelope) (raw stamped : string) (s : St) : option (St * (string * Z * list BlobRef * list MessageSegment)) :=
  if negb (p_blobs p) || (p_dedupMinSize p <=? 0) then Some (store_whole env raw stamped s) else
  o ← StoreSplit hex_sha256 sha256_hex_checked stamped (p_dedupMinSize p) (s_blobs s);
  Some (match o with
        | (b, Ok (Some sp)) => (set_blobs s b, (ss_SkeletonHash sp, len stamped, ss_Attachments sp, ss_Layout sp))
        | (b, _) => store_whole env raw stamped (set_blobs s b)
        end).

Definition or_else (a b : string) : string := if String.eqb a "" then b else a.
Definition prepare (now : Z) (env : QueueEnvelope) (raw : string) (s : St) : option (St * Msg) :=
  let parsed := match ReadEnvelope raw with Ok pm => Some pm | Err _ => None end in
  let get name := match parsed with Some pm => pm_GetHeader pm name | None => "" end in
  let '(to, cc, listID) := match parsed with Some pm => MailAddressHeaders pm | None => ([], [], "") end in
  let received := if qe_ReceivedAt env =? 0 then now else time_unix (qe_ReceivedAt env) in
  let received := if String.eqb (get "Date") "" then received else default received (ParseDate (get "Date")) in
  let spamStage := antispamStage (qe_Stages env) in
  let (dkimResult, dkimDomain) := VerifyDKIM raw in
  let stamped := stampHeaders raw (traceHeaders (p_authservID p) (qe_SpfResult env) dkimResult dkimDomain spamStage (spamTag p)) in
  '(s, (hash, size, atts, layout)) ← store_raw env raw stamped s;
  let atts := match layout, parsed with
              | [], Some pm => atts ++ ((fun '(content, ct, name) => mkBlobRef "" (len content) ct name) <$> pm_Attachments pm)
              | _, _ => atts
              end in
  Some (s, mkMsg raw parsed (get "Message-Id") (get "Subject") (or_else (get "From") (qe_Sender env)) (get "In-Reply-To") (get "References")
    (match parsed with Some pm => StoredHeader (pm_rootReplyTo pm) | None => "" end) listID (StoredHeader (get "List-Post")) to cc received
    (spamScoreFromStages (qe_Stages env)) (spamTag p) dkimResult dkimDomain
    (match spamStage with Some st => sr_DmarcResult st | None => "" end) hash size atts layout).

Definition deliver_result (now durationMs : Z) : StageResult := mkStage "deliver" "builtin" "pass" 0 [] (unix_of now) durationMs "".
Definition finish (now : Z) (env : QueueEnvelope) (m : Msg) (a : Acc) (s : St) : St :=
  let s := enqueueForwards now env (m_raw m) (g_approved (a_gate a)) s in
  let s := match p_vacation p with Some v => sendVacationReplies p v now (a_vacation a) [] s | None => s end in
  let s := applyCalendarReplies env m (a_reply a) s in
  if p_schedInbox p && negb (length (a_reply a) =? 0)%nat then say s (EvSchedule (a_reply a)) else s.

(** [cancelled] is the error of the context before the first write.  The second
    component is the envelope as the stage leaves it. *)
Definition Process (now durationMs : Z) (cancelled : option err) (env : QueueEnvelope) (msg : result string) (s : St) :
    option (St * QueueEnvelope * result StageResult) :=
  if HasFlag (qe_Flags env) MsgFlagDelivered then Some (s, env, Ok (deliver_result now 0)) else
  match msg with
  | Err e => Some (s, env, Err (Wrap "deliver: read message" e))
  | Ok raw =>
      '(s, m) ← prepare now env raw s;
      match cancelled with
      | Some e => Some (s, env, Err (Wrap ("deliver: message " +:+ qe_Id env +:+ " abandoned before delivery") e))
      | None =>
          let g := newForwardGate env (m_spamScore m) (m_spamTag m) in
          let (s, g) := vetRuleRequests now env raw (qe_ForwardRequests env) g s in
          Some (match deliver_loop now env m (qe_Recipients env) (mkAcc g [] [] []) s with
                | (s, _, Some e) => (s, env, Err e)
                | (s, a, None) => (finish now env m a s, set_flags env (SetFlag (qe_Flags env) MsgFlagDelivered), Ok (deliver_result now durationMs))
                end)
      end
  end.

End Deliver.
