(* ===== verification/DeliverThm.v ===== *)
(** Theorems on the deliver stage: what may leave through the outbound queue,
    and what a recipient is left with. *)

From S2P Require Import Prelude GoStrings Pebble Utf8 MailText Proto UserData Mailbox MailboxLemmas MailboxStore Queue Envelope AttSplit Directory Preferences MailHeaders DeliverHeaders DeliverBase Vacation Srs Deliver.
From Stdlib Require Import Ascii.

(** * Forward targets *)

Section Targets.
Context `{GoUnicode}.
Variable p : DeliverProcessor.

Definition not_self (recipients : list string) (t : string) : Prop :=
  forall id, resolves p t = Some id -> id ∉ omap (resolves p) recipients.

Lemma forward_targets_go_spec self seen l t :
  t ∈ forward_targets_go p self seen l -> t ∈ l /\ t <> "" /\ t ∉ seen /\ (forall id, resolves p t = Some id -> id ∉ self).
Proof.
  revert seen. induction l as [|a l IH]; intros seen; cbn [forward_targets_go]; [by intros ?%elem_of_nil|].
  assert (forall seen', (forall x, x ∈ seen -> x ∈ seen') -> t ∈ forward_targets_go p self seen' l ->
    t ∈ a :: l /\ t <> "" /\ t ∉ seen /\ (forall id, resolves p t = Some id -> id ∉ self)) as Hrest.
  { intros seen' Hsub Hin. destruct (IH seen' Hin) as (?&?&?&?). repeat split; [by right|done|auto|done]. }
  destruct (String.eqb_spec a ""); [by apply Hrest|]. case_bool_decide as Hseen; [by apply Hrest|].
  assert (t ∈ a :: forward_targets_go p self (a :: seen) l -> (forall id, resolves p a = Some id -> id ∉ self) ->
    t ∈ a :: l /\ t <> "" /\ t ∉ seen /\ (forall id, resolves p t = Some id -> id ∉ self)) as Hhere.
  { intros [->|Hin]%elem_of_cons Hid; [repeat split; [by left|done..]|]. apply (Hrest (a :: seen)); [set_solver|done]. }
  destruct (resolves p a) as [id|] eqn:Hr; [case_bool_decide as Hself|].
  - apply (Hrest (a :: seen)). set_solver.
  - intros Hin. apply Hhere; [done|]. by intros id' [= <-].
  - intros Hin. apply Hhere; [done|]. done.
Qed.
Lemma forwardTargets_spec l recipients t :
  t ∈ forwardTargets p l recipients -> t ∈ l /\ t <> "" /\ not_self recipients t.
Proof. intros (?&?&_&?)%forward_targets_go_spec. done. Qed.

Lemma forwardingDomain_hosted u : forwardingDomain p u = "" \/ hosts p (forwardingDomain p u) = true.
Proof.
  unfold forwardingDomain. destruct (p_userDomains p); [|by left]. destruct (p_hostedDomain p); [|by left].
  destruct (r u) as [d|]; [|by left]. cbv zeta. destruct (String.eqb_spec (ToLower (TrimSpace d)) ""); [by left|]. cbn [orb].
  destruct (hosts p (ToLower (TrimSpace d))) eqn:E; [by right|by left].
Qed.
End Targets.

Section Gate.
Context {DB B L : Type} `{PebbleDB DB} `{BlobOps B} `{Limiting L} `{Codec OutboundMessage} `{MailCodecs} `{RaftApplier DB} `{DeliverExt}
  `{GoUnicode} `{NetMail} `{MimeHeaders}.
Variable p : DeliverProcessor.
Notation St := (St DB B L).
Implicit Types s : St.

(** * What one run adds to the record *)

Definition grows (P : event -> Prop) s s' : Prop := exists evs, s_events s' = s_events s ++ evs /\ Forall P evs.
Lemma grows_refl P s : grows P s s.
Proof. exists []. by rewrite app_nil_r. Qed.
Lemma grows_same P s s' : s_events s' = s_events s -> grows P s s'.
Proof. intros E. exists []. by rewrite app_nil_r. Qed.
Lemma grows_trans P s1 s2 s3 : grows P s1 s2 -> grows P s2 s3 -> grows P s1 s3.
Proof. intros (e1&E1&H1') (e2&E2&H2'). exists (e1 ++ e2). rewrite E2, E1, app_assoc. split; [done|]. by apply Forall_app. Qed.
Lemma grows_say (P : event -> Prop) s e : P e -> grows P s (say s e).
Proof. intros. exists [e]. split; [done|]. by constructor. Qed.
Lemma grows_weaken (P Q : event -> Prop) s s' : (forall e, P e -> Q e) -> grows P s s' -> grows Q s s'.
Proof. intros HPQ (e&E&Hf). exists e. split; [done|]. eapply Forall_impl; eauto. Qed.

Lemma allow_events now w key s s' ok : allow now w key s = (s', ok) -> s_events s' = s_events s.
Proof. unfold allow. destruct (s_lims s w); [destruct (lim_Allow _ _ _)|]; by intros [= <- _]. Qed.
Lemma uuid_events s s' id : new_uuid s = (s', id) -> s_events s' = s_events s.
Proof. by intros [= <- _]. Qed.
Lemma enqueue_grows (P : event -> Prop) now msg s s' r : (forall ok, P (EvEnqueue msg ok)) -> enqueue now msg s = (s', r) -> grows P s s'.
Proof. intros HP. unfold enqueue. destruct (Enqueue _ _ _). intros [= <- _]. exists [EvEnqueue msg (is_ok r0)]. split; [done|]. by constructor. Qed.
Lemma deliver_grows (P : event -> Prop) u mb meta fl s s' r :
  (forall ok, P (EvDeliver u mb meta fl ok)) -> deliver_mail u mb meta fl s = (s', r) -> grows P s s'.
Proof. intros HP. unfold deliver_mail. destruct (DeliverMail _ _ _ _ _). intros [= <- _]. exists [EvDeliver u mb meta fl (is_ok r0)]. split; [done|]. by constructor. Qed.

(** * The gate *)

Variables (env : QueueEnvelope) (raw : string).

(** A forward somebody asked for: a rule of the user, or the account's own
    forwarding of a recipient. *)
Definition requested (u t : string) : Prop :=
  (exists req, req ∈ qe_ForwardRequests env /\ fq_UserId req = u /\ u <> "" /\ TrimSpace (fq_Target req) = t) \/
  (exists rcpt f prefs_of, rcpt ∈ qe_Recipients env /\ p_resolver p = Some f /\ f rcpt = Ok u /\ p_prefs p = Some prefs_of /\
     TrimSpace (pf_ForwardAddress (prefs_of u)) = t).
(** The target is delivered here, or the user proved to own it. *)
Definition verified_target (u t : string) : Prop :=
  isHostedAddress p t = true \/ exists allowed, p_fwdTargets p = Some allowed /\ allowed u t = Ok true.
Definition clean_message : Prop :=
  forwardedAsSpam env (spamScoreFromStages (qe_Stages env)) (spamTag p) = false /\ countReceivedHeaders raw <= maxForwardHops.
Definition approved_ok (ut : string * string) : Prop :=
  clean_message /\ not_self p (qe_Recipients env) ut.2 /\ requested ut.1 ut.2 /\ verified_target ut.1 ut.2.
Definition gate_ok (g : forwardGate) : Prop :=
  g_blocked g = g_blocked (newForwardGate env (spamScoreFromStages (qe_Stages env)) (spamTag p)) /\ Forall approved_ok (g_approved g).

Lemma deny_sound now g u t s s' :
  gate_ok g -> requested u t -> deny p now env raw g u t s = (s', "") -> approved_ok (u, t).
Proof.
  intros [Hb _] Hreq. unfold deny. rewrite Hb. unfold newForwardGate. cbn [g_blocked].
  destruct (forwardedAsSpam _ _ _) eqn:Hspam; [done|]. cbn [negb String.eqb].
  destruct (String.eqb t ""); [done|]. destruct (negb (p_queuer p)); [done|].
  unfold hopLimitExceeded. destruct (Z.ltb_spec maxForwardHops (countReceivedHeaders raw)); [done|].
  destruct (forwardTargets p [t] (qe_Recipients env)) as [|x l] eqn:Ht; [done|]. cbn [length Nat.eqb].
  assert (not_self p (qe_Recipients env) t) as Hself.
  { assert (x ∈ forwardTargets p [t] (qe_Recipients env)) as Hx by (rewrite Ht; by left).
    apply forwardTargets_spec in Hx as (->%list_elem_of_singleton&_&?). done. }
  intros Hd. split; [done|]. split; [done|]. split; [done|]. unfold verified_target. cbn [fst snd].
  destruct (isHostedAddress p t); [by left|]. right.
  destruct (p_fwdTargets p) as [allowed|]; [|done]. exists allowed. split; [done|].
  by destruct (allowed u t) as [[]|].
Qed.

Lemma deny_events now g u t s s' r : deny p now env raw g u t s = (s', r) -> s_events s' = s_events s.
Proof.
  unfold deny. cbv zeta. repeat (match goal with |- context [if ?b then (s, _) else _] => destruct b; [by intros [= <- _]|] end).
  destruct (allow _ _ _ _) as [s1 ok] eqn:E. intros [= <- _]. by eapply allow_events.
Qed.
Lemma permit_ok now u t g s s' g' ok :
  gate_ok g -> requested u (TrimSpace t) -> permit p now env raw u t g s = (s', g', ok) ->
  gate_ok g' /\ s_events s' = s_events s.
Proof.
  intros Hg Hreq. unfold permit. destruct (g_decided g !! _); [by intros [= <- <- _]|].
  destruct (deny _ _ _ _ _ _ _ _) as [s1 reason] eqn:Hd. intros [= <- <- _]. split; [|by eapply deny_events].
  destruct Hg as [Hb Hf]. split; [done|]. cbn [g_approved]. destruct (String.eqb_spec reason "") as [->|]; [|done].
  apply Forall_app. split; [done|]. constructor; [|constructor]. eapply deny_sound; [by split|done|exact Hd].
Qed.
Lemma vet_ok now reqs g s s' g' :
  (forall r, r ∈ reqs -> r ∈ qe_ForwardRequests env) -> gate_ok g -> vetRuleRequests p now env raw reqs g s = (s', g') ->
  gate_ok g' /\ s_events s' = s_events s.
Proof.
  revert g s. induction reqs as [|r reqs IH]; intros g s Hsub Hg; cbn [vetRuleRequests]; [by intros [= <- <-]|].
  destruct (String.eqb_spec (fq_UserId r) "") as [E|Hu]; [apply IH; [set_solver|done]|].
  destruct (permit _ _ _ _ _ _ _ _) as [[s1 g1] ok] eqn:Hp. intros Hv.
  assert (requested (fq_UserId r) (TrimSpace (fq_Target r))) as Hreq by (left; exists r; split; [set_solver|done]).
  destruct (permit_ok _ _ _ _ _ _ _ _ Hg Hreq Hp) as [Hg1 Ee]. destruct (IH g1 s1 ltac:(set_solver) Hg1 Hv) as [? E2].
  split; [done|congruence].
Qed.

(** * What is queued *)

Definition leaves_as (msg : OutboundMessage) : Prop :=
  om_Origin msg = ORIGIN_FORWARD -> TrimSpace (qe_Sender env) <> "" -> senderAuthenticated env = false ->
  om_SenderEmail msg = "" \/ exists d, hosts p d = true /\ om_SenderEmail msg = NoRelayLocal +:+ "@" +:+ d.
Definition forward_ok (msg : OutboundMessage) : Prop :=
  om_BlobHash msg = qe_BlobHash env /\ clean_message /\
  (om_Origin msg = ORIGIN_FORWARD \/ om_Origin msg = ORIGIN_LOCAL /\ forwardOrigin p env raw = ORIGIN_LOCAL) /\
  om_Recipients msg <> [] /\
  (forall t, t ∈ om_Recipients msg -> t <> "" /\ not_self p (qe_Recipients env) t /\ exists u, requested u t /\ verified_target u t) /\
  leaves_as msg.

Definition group_ok (noRelay : bool) (l : list (string * string)) (g : forwardGroup) : Prop :=
  (forall t, t ∈ fg_targets g -> t ∈ l.*2) /\
  (noRelay = true -> fg_sender g = "" \/ exists d, hosts p d = true /\ fg_sender g = NoRelayLocal +:+ "@" +:+ d).

Lemma make_groups_ok srs noRelay l approved queued groups :
  (forall ut, ut ∈ approved -> ut ∈ l) -> Forall (group_ok noRelay l) groups ->
  Forall (group_ok noRelay l) (make_groups p env srs noRelay queued groups approved).
Proof.
  revert queued groups. induction approved as [|[u t] approved IH]; intros queued groups Hl Hg; cbn [make_groups]; [done|].
  case_bool_decide; [apply IH; [set_solver|done]|]. cbv zeta. apply IH; [set_solver|].
  assert (t ∈ l.*2) as Ht by (apply list_elem_of_fmap; exists (u, t); split; [done|]; apply Hl; by left).
  unfold add_target. destruct (List.find _ groups).
  - apply Forall_fmap. eapply Forall_impl; [exact Hg|]. intros g [Ht' Hs]. cbn. destruct (String.eqb _ _); [|done].
    split; [|done]. cbn [fg_targets]. intros x. rewrite elem_of_app, list_elem_of_singleton. intros [?| ->]; auto.
  - apply Forall_app. split; [done|]. constructor; [|constructor]. split; cbn [fg_targets fg_sender].
    + by intros x ->%list_elem_of_singleton.
    + intros ->. rewrite orb_true_r. unfold group_sender.
      destruct (forwardingDomain_hosted p u) as [-> | Hh]; [by left|]. destruct (String.eqb_spec (forwardingDomain p u) ""); [by left|].
      right. eauto.
Qed.

Lemma enqueue_all_grows now origin auth l groups s :
  clean_message -> Forall approved_ok l ->
  (origin = ORIGIN_FORWARD \/ origin = ORIGIN_LOCAL /\ forwardOrigin p env raw = ORIGIN_LOCAL) ->
  Forall (group_ok (origin_eqb origin ORIGIN_FORWARD && negb (String.eqb (TrimSpace (qe_Sender env)) "") && negb (senderAuthenticated env)) l) groups ->
  grows (fun e => exists msg ok, e = EvEnqueue msg ok /\ forward_ok msg) s (enqueue_all p now env origin auth groups s).
Proof.
  intros Hc Hl Ho Hg. revert s. induction Hg as [|g groups [Ht Hs] _ IH]; intros s; cbn [enqueue_all]; [apply grows_refl|].
  destruct (forwardTargets p (fg_targets g) (qe_Recipients env)) as [|t0 ts] eqn:Hts; cbn [length Nat.eqb]; [apply IH|].
  destruct (new_uuid s) as [s1 id] eqn:Hu. destruct (enqueue _ _ s1) as [s2 r] eqn:He.
  eapply grows_trans; [|apply IH]. eapply grows_trans; [apply grows_same; by eapply uuid_events|].
  eapply enqueue_grows; [|exact He]. intros ok. eexists _, ok. split; [reflexivity|].
  split; [done|]. split; [done|]. split; [done|]. split; [done|]. split.
  - intros t Hin. cbn [om_Recipients forward_message] in Hin. rewrite <-Hts in Hin. apply forwardTargets_spec in Hin as (Hin&Hne&Hself).
    split; [done|]. split; [done|]. apply Ht, list_elem_of_fmap in Hin as ([u t']&->&Hin). rewrite Forall_forall in Hl.
    destruct (Hl _ Hin) as (_&_&?&?). eauto.
  - intros Horig Hsnd Hauth. cbn [om_SenderEmail om_Origin forward_message] in *. apply Hs. subst origin.
    rewrite Hauth. rewrite (proj2 (String.eqb_neq _ _) Hsnd). done.
Qed.
Lemma enqueueGroups_grows now origin l s :
  clean_message -> Forall approved_ok l ->
  (origin = ORIGIN_FORWARD \/ origin = ORIGIN_LOCAL /\ forwardOrigin p env raw = ORIGIN_LOCAL) ->
  grows (fun e => exists msg ok, e = EvEnqueue msg ok /\ forward_ok msg) s (enqueueGroups p now env l origin s).
Proof. intros. unfold enqueueGroups. cbv zeta. eapply enqueue_all_grows; [done..|]. apply make_groups_ok; [done|constructor]. Qed.

Lemma charge_sub now author kept stays l s s' local refused :
  charge_go p now author kept stays l s = (s', local, refused) ->
  s_events s' = s_events s /\ (forall ut, ut ∈ local \/ ut ∈ refused -> ut ∈ l).
Proof.
  revert stays s s' local refused. induction l as [|[u t] l IH]; intros stays s s' local refused; cbn [charge_go]; [intros [= <- <- <-]; set_solver|].
  destruct (negb _); [intros Hc; destruct (IH _ _ _ _ _ Hc); set_solver|].
  destruct (match stays !! t with Some ok => (s, ok) | None => _ end) as [s1 ok] eqn:E1.
  destruct (charge_go _ _ _ _ _ _ s1) as [[s2 lo] re] eqn:E2. destruct (IH _ _ _ _ _ E2) as [Ee Hs].
  assert (s_events s1 = s_events s) as E1'.
  { destruct (stays !! t); [by injection E1 as <- _|]. destruct (isHostedAddress p t); [by injection E1 as <- _|]. by eapply allow_events. }
  destruct ok; intros [= <- <- <-]; split; [congruence|set_solver|congruence|set_solver].
Qed.

Lemma enqueueForwards_grows now l s :
  Forall approved_ok l ->
  grows (fun e => exists msg ok, e = EvEnqueue msg ok /\ forward_ok msg) s (enqueueForwards p now env raw l s).
Proof.
  intros Hl. unfold enqueueForwards. destruct l as [|ut l]; [apply grows_refl|]. cbn [length Nat.eqb orb].
  destruct (negb (p_queuer p)); [apply grows_refl|].
  assert (clean_message) as Hc by (apply Forall_cons in Hl as [[? _] _]; done).
  assert (forwardOrigin p env raw = ORIGIN_FORWARD \/ forwardOrigin p env raw = ORIGIN_LOCAL) as Ho
    by (unfold forwardOrigin; repeat case_match; auto).
  assert (grows (fun e => exists msg ok, e = EvEnqueue msg ok /\ forward_ok msg) s (enqueueGroups p now env (ut :: l) (forwardOrigin p env raw) s)) as Hplain
    by (apply enqueueGroups_grows; [done..|]; destruct Ho as [->|E]; [by left|right; auto]).
  destruct (s_lims s LAuthor); [|done]. unfold origin_eqb at 1. case_bool_decide as El; [|done].
  unfold chargeAuthor. destruct (charge_go _ _ _ _ _ _ _) as [[s1 lo] re] eqn:Hch. destruct (charge_sub _ _ _ _ _ _ _ _ _ Hch) as [Ee Hs].
  assert (Forall approved_ok lo /\ Forall approved_ok re) as [Hlo Hre]
    by (rewrite Forall_forall in Hl; split; apply Forall_forall; intros; apply Hl, Hs; auto).
  eapply grows_trans; [apply grows_same, Ee|]. eapply grows_trans; apply enqueueGroups_grows; auto.
Qed.
(** * The recipients *)

(** A bounce of an address this server made, back to the original sender. *)
Definition bounce_ok (msg : OutboundMessage) : Prop :=
  exists rcpt srs orig, rcpt ∈ qe_Recipients env /\ isHostedSRS p rcpt = true /\ p_srs p = Some srs /\ so_Reverse srs (bare_rcpt rcpt) = Ok orig /\
    TrimSpace (qe_Sender env) = "" /\ clean_message /\
    om_Recipients msg = [orig] /\ om_SenderEmail msg = "" /\ om_BlobHash msg = qe_BlobHash env /\ om_Origin msg = ORIGIN_FORWARD.
(** A reply to the authenticated sender of a message addressed to its user. *)
Definition reply_ok (u to : string) (prefs : UserPreferences) : Prop :=
  vacationSenderAddress (qe_Sender env) = Some to /\ vacationRoleLocalPart to = false /\ senderAuthenticated env = true /\
  forwardedAsSpam env (spamScoreFromStages (qe_Stages env)) (spamTag p) = false /\ qe_DiscardNormal env = false /\
  (exists h, ReadMIMEHeader raw = Some h /\ header_refuses h = None) /\
  (exists v prefs_of, p_vacation p = Some v /\ p_prefs p = Some prefs_of /\ prefs = prefs_of u /\ complete v = true /\
     vacationSenderUser p v u to <> u /\
     vacationAddressedTo p v u (vb_toCc (newVacationBatch raw false)) = true).
Definition autoreply_ok (now : Z) (msg : OutboundMessage) : Prop :=
  om_Origin msg = ORIGIN_AUTOREPLY /\ om_SenderEmail msg = "" /\
  exists to prefs, om_Recipients msg = [to] /\ reply_ok (om_SenderId msg) to prefs /\ VacationActive prefs now = true.
Definition leaves_ok (now : Z) (e : event) : Prop :=
  match e with EvEnqueue msg _ => forward_ok msg \/ bounce_ok msg \/ autoreply_ok now msg | _ => True end.

Record msg_ok (m : Msg) : Prop := {
  mo_raw : m_raw m = raw; mo_score : m_spamScore m = spamScoreFromStages (qe_Stages env); mo_tag : m_spamTag m = spamTag p }.
Definition cand_ok (now : Z) (c : vacationCandidate) : Prop :=
  reply_ok (cd_userID c) (cd_sender c) (cd_prefs c) /\ VacationActive (cd_prefs c) now = true.
Definition acc_ok (now : Z) (a : Acc) : Prop := gate_ok (a_gate a) /\ Forall (cand_ok now) (a_vacation a).

Lemma relay_ok now blocked rcpt done s s' done' :
  blocked = g_blocked (newForwardGate env (spamScoreFromStages (qe_Stages env)) (spamTag p)) ->
  rcpt ∈ qe_Recipients env -> isHostedSRS p rcpt = true ->
  relaySRSBounce p now env raw blocked rcpt done s = (s', done') -> grows (leaves_ok now) s s'.
Proof.
  intros -> Hin Hsrs. unfold relaySRSBounce. destruct (p_srs p) as [srs|] eqn:Ep; [|intros [= <- _]; apply grows_refl].
  destruct (String.eqb_spec (TrimSpace (qe_Sender env)) "") as [Hs|]; [|intros [= <- _]; apply grows_refl].
  unfold newForwardGate. cbn [g_blocked]. destruct (forwardedAsSpam _ _ _) eqn:Hspam; [intros [= <- _]; apply grows_refl|]. cbn [negb String.eqb orb].
  destruct (negb (p_queuer p)); [intros [= <- _]; apply grows_refl|]. cbn [orb].
  unfold hopLimitExceeded. destruct (Z.ltb_spec maxForwardHops (countReceivedHeaders raw)); [intros [= <- _]; apply grows_refl|].
  destruct (so_Reverse srs _) as [orig|] eqn:Hr; [|intros [= <- _]; apply grows_refl].
  case_bool_decide; [intros [= <- _]; apply grows_refl|].
  destruct (allow now LSrsAddr _ s) as [s1 ok1] eqn:E1. apply allow_events in E1.
  destruct (negb ok1); [intros [= <- _]; by apply grows_same|].
  destruct (allow now LSrsNode _ s1) as [s2 ok2] eqn:E2. apply allow_events in E2.
  destruct (negb ok2); [intros [= <- _]; apply grows_same; congruence|].
  destruct (new_uuid s2) as [s3 id] eqn:E3. apply uuid_events in E3.
  destruct (enqueue _ _ s3) as [s4 r] eqn:E4. intros [= <- _]. apply (grows_trans _ _ s3); [apply grows_same; congruence|].
  eapply enqueue_grows; [|exact E4]. intros ok. right. left. exists rcpt, srs, orig. repeat split; done.
Qed.

Lemma report_grows now rcpt mid score tag s : grows (leaves_ok now) s (reportDelivered p env rcpt mid score tag s).
Proof. unfold reportDelivered. repeat (case_match; try apply grows_refl). by apply grows_say. Qed.

Lemma copy_events discard target meta mbs acc s s' l :
  copy_metas discard target meta mbs acc s = (s', l) -> s_events s' = s_events s.
Proof.
  revert acc s. induction mbs as [|mb mbs IH]; intros acc s; cbn [copy_metas]; [by intros [= <- _]|].
  destruct (_ || _); [apply IH|]. destruct (existsb _ _); [apply IH|]. destruct (new_uuid s) as [s1 id] eqn:E. intros Hc.
  apply IH in Hc. apply uuid_events in E. congruence.
Qed.
Lemma copies_grow now u fl l s s' r : deliver_copies u fl l s = (s', r) -> grows (leaves_ok now) s s'.
Proof.
  revert s. induction l as [|c l IH]; intros s; cbn [deliver_copies]; [intros [= <- _]; apply grows_refl|].
  destruct (deliver_mail _ _ _ _ s) as [s1 [x|e]] eqn:E.
  - intros Hd. eapply grows_trans; [|by apply IH]. by eapply deliver_grows.
  - intros [= <- _]. by eapply deliver_grows.
Qed.
Lemma store_grows now m u mb s s' r : store_copies env m u mb s = (s', r) -> grows (leaves_ok now) s s'.
Proof.
  unfold store_copies. destruct (new_uuid s) as [s1 g] eqn:E1. cbv zeta. destruct (copy_metas _ _ _ _ _ s1) as [s2 l] eqn:E2.
  apply uuid_events in E1. apply copy_events in E2. assert (s_events s2 = s_events s) as E12 by congruence.
  destruct (if qe_DiscardNormal env then _ else _) as [s3 [x|e]] eqn:E3;
    (assert (grows (leaves_ok now) s s3) as Hg
       by (eapply grows_trans; [apply grows_same, E12|]; destruct (qe_DiscardNormal env);
           [injection E3 as <- _; apply grows_refl|by eapply deliver_grows])).
  - intros Hd. eapply grows_trans; [exact Hg|]. by eapply copies_grow.
  - by intros [= <- _].
Qed.

Lemma vacationDecision_None f :
  vacationDecision f = None ->
  VacationActive (vf_prefs f) (vf_now f) = true /\ vf_discarded f = false /\ vf_spam f = false /\
  (exists a, vacationSenderAddress (vf_envSender f) = Some a /\ vacationRoleLocalPart a = false) /\
  vf_senderIsSelf f = false /\ vf_senderAuthenticated f = true /\
  (exists h, vf_header f = Some h /\ header_refuses h = None) /\ vf_ownAddressInToCc f = true.
Proof.
  unfold vacationDecision. destruct (VacationActive _ _); [|done]. destruct (vf_discarded f); [done|]. cbv zeta. cbn [negb].
  destruct (_ || _); [done|]. destruct (vf_spam f); [done|]. destruct (vacationSenderAddress _) as [a|]; [|done].
  destruct (vacationRoleLocalPart a) eqn:?; [done|]. destruct (vf_senderIsSelf f); [done|]. destruct (vf_senderAuthenticated f); [|done].
  destruct (vf_header f) as [h|]; [|done]. cbn [negb]. destruct (header_refuses h) eqn:?; [done|]. destruct (vf_ownAddressInToCc f); [|done].
  intros _. repeat split; eauto.
Qed.

Lemma vacation_step_ok now m u rcpt mb c : msg_ok m -> vacation_step p now env m u rcpt mb = Some c -> cand_ok now c.
Proof.
  intros [Hraw Hsc Htag]. unfold vacation_step. destruct (p_vacation p) as [v|] eqn:Ev; [|done]. destruct (p_prefs p) as [prefs_of|] eqn:Ep; [|done].
  destruct (VacationActive (prefs_of u) now) eqn:Ha; [|done]. unfold vacationCandidateFor. rewrite Ha, Hraw, Hsc, Htag. cbn [negb].
  destruct (complete v) eqn:Hcomp; [|done]. cbn [negb]. cbv zeta.
  destruct (vacationDecision _) eqn:Hd; [done|]. apply vacationDecision_None in Hd.
  cbn [vf_prefs vf_now vf_discarded vf_spam vf_envSender vf_senderIsSelf vf_senderAuthenticated vf_header vf_ownAddressInToCc vb_header vb_spam newVacationBatch] in Hd.
  destruct Hd as (_&Hdis&Hspam&(to&Hto&Hrole)&Hself&Hauth&Hh&Hown). rewrite Hto in *. cbn [default].
  destruct (_ && _); [done|]. intros [= <-]. split; [|done]. cbn [cd_userID cd_sender cd_prefs].
  split; [done|]. split; [done|]. split; [done|]. split; [done|]. split; [done|]. split; [done|].
  exists v, prefs_of. split; [done|]. split; [done|]. split; [done|]. split; [done|]. split; [by apply String.eqb_neq|done].
Qed.

Lemma account_forward_ok now m u rcpt f a s s' a' skip :
  msg_ok m -> acc_ok now a -> rcpt ∈ qe_Recipients env -> p_resolver p = Some f -> f rcpt = Ok u ->
  account_forward p now env m u a s = (s', a', skip) -> acc_ok now a' /\ s_events s' = s_events s /\ a_vacation a' = a_vacation a.
Proof.
  intros Hm [Hg Hc] Hin Hf Hu. unfold account_forward. destruct (p_prefs p) as [prefs_of|] eqn:Ep; [|by intros [= <- <- _]].
  cbv zeta. destruct (String.eqb _ ""); [by intros [= <- <- _]|]. rewrite (mo_raw _ Hm).
  destruct (permit _ _ _ _ _ _ _ _) as [[s1 g1] ok] eqn:E. intros [= <- <- _].
  assert (requested u (TrimSpace (pf_ForwardAddress (prefs_of u)))) as Hr by (right; exists rcpt, f, prefs_of; done).
  destruct (permit_ok _ _ _ _ _ _ _ _ Hg Hr E) as [Hg1 Ee]. done.
Qed.

Lemma deliver_user_ok now m u rcpt f a s s' a' oe :
  msg_ok m -> acc_ok now a -> rcpt ∈ qe_Recipients env -> p_resolver p = Some f -> f rcpt = Ok u ->
  deliver_user p now env m rcpt u a s = (s', a', oe) -> acc_ok now a' /\ grows (leaves_ok now) s s'.
Proof.
  intros Hm Ha Hin Hf Hu. unfold deliver_user. destruct (account_forward _ _ _ _ _ _ _) as [[s1 a1] skip] eqn:E1.
  destruct (account_forward_ok _ _ _ _ _ _ _ _ _ _ Hm Ha Hin Hf Hu E1) as ([Hg1 Hc1]&Ee&_). cbv zeta.
  set (a2 := match vacation_step _ _ _ _ _ _ _ with Some c => _ | None => _ end).
  assert (acc_ok now a2) as Ha2.
  { unfold a2. destruct (vacation_step _ _ _ _ _ _ _) as [c|] eqn:Ec; [|by split]. split; [done|]. apply Forall_app. split; [done|].
    constructor; [|constructor]. by eapply vacation_step_ok. }
  assert (grows (leaves_ok now) s s1) as G1 by (by apply grows_same).
  destruct skip; [by intros [= <- <- _]|].
  destruct (booking_sender _ _ _ _ _) as [sender|].
  { intros [= <- <- _]. split; [done|]. eapply grows_trans; [exact G1|]. eapply grows_trans; [|apply report_grows]. by apply grows_say. }
  destruct (store_copies _ _ _ _ s1) as [s2 [x|e]] eqn:E2; apply (store_grows now) in E2;
    (assert (grows (leaves_ok now) s s2) as G2 by (by eapply grows_trans)); [|by intros [= <- <- _]].
  destruct (qe_DiscardNormal env); [by intros [= <- <- _]|]. intros [= <- <- _]. split.
  - destruct (_ && _); [|done]. destruct Ha2. by split.
  - eapply grows_trans; [exact G2|apply report_grows].
Qed.

Lemma deliver_loop_ok now m rcpts a s s' a' oe :
  msg_ok m -> acc_ok now a -> (forall r, r ∈ rcpts -> r ∈ qe_Recipients env) ->
  deliver_loop p now env m rcpts a s = (s', a', oe) -> acc_ok now a' /\ grows (leaves_ok now) s s'.
Proof.
  intros Hm. revert a s. induction rcpts as [|rcpt rcpts IH]; intros a s Ha Hsub; cbn [deliver_loop].
  { intros [= <- <- _]. split; [done|apply grows_refl]. }
  destruct (deliver_recipient _ _ _ _ _ _ _) as [[s1 a1] o1] eqn:E1.
  assert (acc_ok now a1 /\ grows (leaves_ok now) s s1) as [Ha1 G1].
  { unfold deliver_recipient in E1. destruct (isHostedSRS p rcpt) eqn:Hs.
    - destruct (relaySRSBounce _ _ _ _ _ _ _ _) as [s2 d] eqn:E2. injection E1 as <- <- _. destruct Ha as [Hg Hc]. split; [by split|].
      rewrite (mo_raw _ Hm) in E2. eapply (relay_ok now _ rcpt); [exact (proj1 Hg)|set_solver|done|exact E2].
    - destruct (isHostedNoRelay p rcpt); [injection E1 as <- <- _; split; [done|apply grows_refl]|].
      destruct (p_resolver p) as [f|] eqn:Hf; [|injection E1 as <- <- _; split; [done|apply grows_refl]].
      destruct (f rcpt) as [u|] eqn:Hu; [|injection E1 as <- <- _; split; [done|apply grows_refl]].
      eapply (deliver_user_ok now m u rcpt f); [done|done|set_solver|exact Hf|exact Hu|exact E1]. }
  destruct o1; [by intros [= <- <- _]|]. intros Hl. destruct (IH a1 s1 Ha1 ltac:(set_solver) Hl) as [? ?]. split; [done|]. by eapply grows_trans.
Qed.
(** * The whole stage *)

Lemma put_blob_events d s s' r : put_blob d s = (s', r) -> s_events s' = s_events s.
Proof. unfold put_blob. destruct (blob_Put d (s_blobs s)). by intros [= <- _]. Qed.
Lemma track_grows now c key itv s s' ok : reserveVacationReply now c key itv s = (s', ok) -> grows (leaves_ok now) s s'.
Proof.
  unfold reserveVacationReply. cbv zeta. destruct (negb _); [intros [= <- _]; apply grows_refl|].
  destruct (allow _ _ _ _) as [s1 ok1] eqn:E1. apply allow_events in E1. destruct (negb ok1); [intros [= <- _]; by apply grows_same|].
  destruct (ApplyCommand _ _) as [db' r]. intros [= <- _]. apply (grows_trans _ _ s1); [by apply grows_same|].
  exists [EvTrack key now (is_ok r)]. split; [done|]. by constructor.
Qed.
Lemma send_reply_grows now v c s : p_vacation p = Some v -> cand_ok now c -> grows (leaves_ok now) s (sendVacationReply p v now c s).
Proof.
  intros Hv [Hr Ha]. unfold sendVacationReply. cbv zeta. destruct (reserveVacationReply _ _ _ _ s) as [s1 ok] eqn:E1. apply track_grows in E1.
  destruct (negb ok); [done|]. destruct (new_uuid s1) as [s2 id] eqn:E2. apply uuid_events in E2.
  assert (grows (leaves_ok now) s s2) as G2 by (eapply grows_trans; [exact E1|by apply grows_same]).
  destruct (buildVacationReply p v c now id) as [msg|]; [|done]. eapply grows_trans; [exact G2|]. unfold dispatchVacationReply.
  destruct (negb (String.eqb _ "")); [by apply grows_say|]. destruct (negb (p_queuer p)); [apply grows_refl|].
  destruct (put_blob msg s2) as [s3 [h|e]] eqn:E3; apply put_blob_events in E3; [|by apply grows_same].
  destruct (new_uuid s3) as [s4 id'] eqn:E4. apply uuid_events in E4. destruct (enqueue _ _ s4) as [s5 r] eqn:E5. cbn [fst].
  apply (grows_trans _ _ s4); [apply grows_same; congruence|]. eapply enqueue_grows; [|exact E5]. intros ok'. right. right.
  split; [done|]. split; [done|]. exists (cd_sender c), (cd_prefs c). done.
Qed.
Lemma send_replies_grow now v l seen s :
  p_vacation p = Some v -> Forall (cand_ok now) l -> grows (leaves_ok now) s (sendVacationReplies p v now l seen s).
Proof.
  intros Hv Hl. revert seen s. induction Hl as [|c l Hc _ IH]; intros seen s; cbn [sendVacationReplies]; [apply grows_refl|].
  case_bool_decide; [apply IH|]. eapply grows_trans; [by apply send_reply_grows|apply IH].
Qed.
Lemma calendar_grows now m us s : grows (leaves_ok now) s (applyCalendarReplies p env m us s).
Proof.
  unfold applyCalendarReplies. destruct (negb _); [apply grows_refl|]. destruct (m_parsed m) as [pm|]; [|apply grows_refl].
  destruct (pm_calendar pm) as [[part method]|]; [|apply grows_refl]. cbv zeta. destruct (String.eqb _ ""); [apply grows_refl|].
  revert s. induction us as [|u us IH]; intros s; cbn [foldl]; [apply grows_refl|]. eapply grows_trans; [|apply IH]. by apply grows_say.
Qed.
Lemma finish_grows now m a s : m_raw m = raw -> acc_ok now a -> grows (leaves_ok now) s (finish p now env m a s).
Proof.
  intros Hm [[_ Hg] Hc]. unfold finish. cbv zeta. rewrite Hm.
  eapply grows_trans; [eapply grows_weaken; [|by apply enqueueForwards_grows]; intros e (msg&ok&->&?); by left|].
  eapply grows_trans with (s2 := match p_vacation p with Some v => _ | None => _ end);
    [destruct (p_vacation p) as [v|] eqn:Hv; [by apply send_replies_grow|apply grows_refl]|].
  eapply grows_trans; [apply calendar_grows|]. destruct (_ && _); [by apply grows_say|apply grows_refl].
Qed.

Lemma store_whole_events st raw' s s' x : store_whole p env raw' st s = (s', x) -> s_events s' = s_events s.
Proof.
  unfold store_whole. cbv zeta. destruct (negb (p_blobs p)); [by intros [= <- _]|].
  destruct (put_blob st s) as [t1 [h|]] eqn:E; intros [= <- _]; by eapply put_blob_events.
Qed.
Lemma store_raw_events st raw' s s' x : store_raw p env raw' st s = Some (s', x) -> s_events s' = s_events s.
Proof.
  unfold store_raw. destruct (_ || _); [intros [= E]; by eapply store_whole_events|].
  destruct (StoreSplit _ _ _ _ _) as [[b [[sp|]|e]]|]; cbn [mbind option_bind]; [intros [= <- _]; done| | |done];
    intros [= E]; by apply store_whole_events in E.
Qed.
Lemma prepare_ok now s s' m : prepare p now env raw s = Some (s', m) -> msg_ok m /\ s_events s' = s_events s.
Proof.
  unfold prepare. cbv zeta. destruct (match _ with Some pm => MailAddressHeaders pm | None => _ end) as [[to cc] lid].
  destruct (VerifyDKIM raw) as [dr dd]. destruct (store_raw _ _ _ _ _) as [[s1 [[[hash size] atts] layout]]|] eqn:E; [|done].
  cbn [mbind option_bind]. intros [= <- <-]. split; [done|]. by eapply store_raw_events.
Qed.

Lemma new_gate_ok : gate_ok (newForwardGate env (spamScoreFromStages (qe_Stages env)) (spamTag p)).
Proof. split; [done|constructor]. Qed.

Lemma Process_grows now dur cancelled s s' env' r :
  Process p now dur cancelled env (Ok raw) s = Some (s', env', r) -> grows (leaves_ok now) s s'.
Proof.
  unfold Process. destruct (HasFlag _ _); [intros [= <- _ _]; apply grows_refl|].
  destruct (prepare _ _ _ _ _) as [[s1 m]|] eqn:E1; [|done]. destruct (prepare_ok _ _ _ _ E1) as [Hm Ee]. cbn [mbind option_bind].
  destruct cancelled; [intros [= <- _ _]; by apply grows_same|].
  destruct (vetRuleRequests _ _ _ _ _ _ _) as [s2 g] eqn:E2. rewrite (mo_score _ Hm), (mo_tag _ Hm) in E2.
  destruct (vet_ok _ _ _ _ _ _ ltac:(done) new_gate_ok E2) as [Hg E2'].
  destruct (deliver_loop _ _ _ _ _ _ s2) as [[s3 a] oe] eqn:E3.
  assert (acc_ok now (mkAcc g [] [] [])) as Ha0 by (split; [exact Hg|constructor]).
  destruct (deliver_loop_ok now m _ _ _ _ _ _ Hm Ha0 ltac:(done) E3) as [Ha G3].
  assert (grows (leaves_ok now) s s3) as G by (apply (grows_trans _ _ s2); [apply grows_same; congruence|done]).
  destruct oe; intros [= <- _ _]; [done|]. eapply grows_trans; [exact G|]. apply finish_grows; [by apply mo_raw|done].
Qed.

(** C4: nothing leaves through the deliver stage that was not vetted.  Whatever
    one run queues for sending is a forward that somebody asked for, of a
    message that is not spam and has not passed too often, to targets that are
    hosted here or that the asking user verified, none of which is a recipient
    of the message; or a bounce of a rewritten address of this server; or one
    vacation reply to the authenticated sender.  A forward of a message whose
    sender is not authenticated never carries that sender. *)
Theorem only_vetted_mail_leaves now dur cancelled s s' env' r msg ok :
  Process p now dur cancelled env (Ok raw) s = Some (s', env', r) ->
  EvEnqueue msg ok ∈ drop (length (s_events s)) (s_events s') ->
  forward_ok msg \/ bounce_ok msg \/ autoreply_ok now msg.
Proof.
  intros (evs&E&Hf)%Process_grows. rewrite E, drop_app_length. rewrite Forall_forall in Hf. apply Hf.
Qed.
(** * What a recipient is left with *)

Definition fwd_key (u t : string) : string := u +:+ "|" +:+ ToLower t.
Definition decided_ok (g : forwardGate) : Prop :=
  forall k, g_decided g !! k = Some true -> exists ut, ut ∈ g_approved g /\ k = fwd_key ut.1 ut.2.
Definition gate_ok2 (g : forwardGate) : Prop := gate_ok g /\ decided_ok g.
Lemma permit_ok2 now u t g s s' g' ok :
  gate_ok2 g -> requested u (TrimSpace t) -> permit p now env raw u t g s = (s', g', ok) ->
  gate_ok2 g' /\ (ok = true -> exists u' t', approved_ok (u', t') /\ fwd_key u' t' = fwd_key u (TrimSpace t)).
Proof.
  intros [Hg Hd] Hreq Hp. destruct (permit_ok _ _ _ _ _ _ _ _ Hg Hreq Hp) as [Hg' _].
  assert (decided_ok g' /\ (ok = true -> exists ut, ut ∈ g_approved g' /\ fwd_key ut.1 ut.2 = fwd_key u (TrimSpace t))) as [Hd' Hok].
  { unfold permit in Hp. fold (fwd_key u (TrimSpace t)) in Hp. destruct (g_decided g !! fwd_key u (TrimSpace t)) as [d|] eqn:Ed.
    - injection Hp as _ <- <-. split; [done|]. intros ->. destruct (Hd _ Ed) as (ut&?&->). eauto.
    - destruct (deny _ _ _ _ _ _ _ _) as [s1 reason]. injection Hp as _ <- <-. cbn [g_decided g_approved].
      destruct (String.eqb reason ""); (split; [|try done]).
      + intros k. cbn [g_decided g_approved]. rewrite lookup_insert_Some. intros [[<- _]|[_ Hk]].
        * exists (u, TrimSpace t). split; [set_solver|done].
        * destruct (Hd k Hk) as (ut&?&->). exists ut. split; [set_solver|done].
      + intros _. exists (u, TrimSpace t). split; [set_solver|done].
      + intros k. cbn [g_decided g_approved]. rewrite lookup_insert_Some. intros [[_ ?]|[_ Hk]]; [done|]. destruct (Hd k Hk) as (ut&?&->). eauto. }
  split; [by split|]. intros Hy. destruct (Hok Hy) as ([u' t']&Hin&E). exists u', t'. split; [|done].
  destruct Hg' as [_ Hf]. rewrite Forall_forall in Hf. by apply Hf.
Qed.
Lemma vet_ok2 now reqs g s s' g' :
  (forall r, r ∈ reqs -> r ∈ qe_ForwardRequests env) -> gate_ok2 g -> vetRuleRequests p now env raw reqs g s = (s', g') -> gate_ok2 g'.
Proof.
  revert g s. induction reqs as [|r reqs IH]; intros g s Hsub Hg; cbn [vetRuleRequests]; [by intros [= <- <-]|].
  destruct (String.eqb_spec (fq_UserId r) "") as [E|Hu]; [apply IH; [set_solver|done]|].
  destruct (permit _ _ _ _ _ _ _ _) as [[s1 g1] ok] eqn:Hp.
  assert (requested (fq_UserId r) (TrimSpace (fq_Target r))) as Hreq by (left; exists r; split; [set_solver|done]).
  apply IH; [set_solver|]. by eapply permit_ok2.
Qed.

(** A copy of the message in a mailbox, written and accepted. *)
Definition stored_in (m : Msg) (u mb : string) s : Prop :=
  exists meta, EvDeliver u mb meta (qe_PendingFlags env) true ∈ s_events s /\
    mm_RawMessage meta = Some (mkBlobRef (m_hash m) (m_size m) "message/rfc822" "").
Definition served (m : Msg) (u : string) s : Prop :=
  (qe_DiscardNormal env = false -> stored_in m u (target_mailbox env m) s) /\
  (forall mb, mb ∈ qe_CopyMailboxes env -> mb <> "" -> (qe_DiscardNormal env = true \/ EqualFold mb (target_mailbox env m) = false) ->
     exists mb', (mb' = mb \/ EqualFold mb' mb = true) /\ stored_in m u mb' s).
Definition forwarded_away (u : string) : Prop :=
  exists prefs_of u' t', p_prefs p = Some prefs_of /\ pf_ForwardKeepCopy (prefs_of u) = false /\ approved_ok (u', t') /\
    fwd_key u' t' = fwd_key u (TrimSpace (pf_ForwardAddress (prefs_of u))).
Definition outcome (m : Msg) (u : string) s : Prop :=
  forwarded_away u \/ (exists sender, EvBooking u sender ∈ s_events s) \/ served m u s.

Definition ext s s' : Prop := grows (fun _ => True) s s'.
Lemma ext_grows P s s' : grows P s s' -> ext s s'.
Proof. by apply grows_weaken. Qed.
Lemma ext_elem s s' e : ext s s' -> e ∈ s_events s -> e ∈ s_events s'.
Proof. intros (evs&->&_). set_solver. Qed.
Lemma stored_ext m u mb s s' : ext s s' -> stored_in m u mb s -> stored_in m u mb s'.
Proof. intros Hx (meta&?&?). exists meta. split; [by eapply ext_elem|done]. Qed.
Lemma outcome_ext m u s s' : ext s s' -> outcome m u s -> outcome m u s'.
Proof.
  intros Hx [?|[(sender&?)|[Hn Hc]]]; [by left|right; left; exists sender; by eapply ext_elem|]. right. right. split.
  - intros Hd. eapply stored_ext; eauto.
  - intros mb Hin Hne Hor. destruct (Hc mb Hin Hne Hor) as (mb'&?&?). exists mb'. split; [done|]. by eapply stored_ext.
Qed.

Lemma deliver_mail_stored m u mb meta s s' x :
  mm_RawMessage meta = Some (mkBlobRef (m_hash m) (m_size m) "message/rfc822" "") ->
  deliver_mail u mb meta (qe_PendingFlags env) s = (s', Ok x) -> stored_in m u mb s'.
Proof.
  intros Hraw. unfold deliver_mail. destruct (DeliverMail _ _ _ _ _) as [db' r]. intros [= <- ->]. exists meta. split; [|done].
  cbn [s_events say set_db is_ok]. set_solver.
Qed.
Lemma copies_stored m u l s s' x :
  Forall (fun c => mm_RawMessage (cp_meta c) = Some (mkBlobRef (m_hash m) (m_size m) "message/rfc822" "")) l ->
  deliver_copies u (qe_PendingFlags env) l s = (s', Ok x) -> ext s s' /\ forall c, c ∈ l -> stored_in m u (cp_mailbox c) s'.
Proof.
  intros Hl. revert s. induction Hl as [|c l Hc _ IH]; intros s; cbn [deliver_copies].
  { intros [= <- _]. split; [apply grows_refl|]. by intros c ?%elem_of_nil. }
  destruct (deliver_mail _ _ _ _ s) as [s1 [y|e]] eqn:E; [|done]. intros Hd. destruct (IH s1 Hd) as [Hx Hs].
  assert (ext s s1) as Hx1 by (by eapply deliver_grows). split; [by eapply grows_trans|].
  intros c' [->|?]%elem_of_cons; [|auto]. eapply stored_ext; [exact Hx|]. by eapply deliver_mail_stored.
Qed.
Lemma copy_metas_spec discard target meta mbs acc s s' l :
  copy_metas discard target meta mbs acc s = (s', l) ->
  (forall c, c ∈ acc -> c ∈ l) /\
  (forall c, c ∈ l -> c ∈ acc \/ mm_RawMessage (cp_meta c) = mm_RawMessage meta) /\
  (forall mb, mb ∈ mbs -> mb <> "" -> (discard = true \/ EqualFold mb target = false) ->
     exists c, c ∈ l /\ (cp_mailbox c = mb \/ EqualFold (cp_mailbox c) mb = true)).
Proof.
  revert acc s. induction mbs as [|mb mbs IH]; intros acc s; cbn [copy_metas].
  { intros [= _ <-]. split; [done|]. split; [auto|]. by intros mb ?%elem_of_nil. }
  destruct (String.eqb mb "" || negb discard && EqualFold mb target) eqn:Hskip.
  { intros Hc. destruct (IH _ _ Hc) as (H1'&H2'&H3'). split; [done|]. split; [done|].
    intros mb' [->|Hin]%elem_of_cons Hne Hor; [|eauto]. exfalso. apply orb_true_iff in Hskip as [?%String.eqb_eq|[??]%andb_true_iff]; [done|].
    destruct Hor as [->|?]; [done|congruence]. }
  destruct (existsb _ acc) eqn:Hex.
  { intros Hc. destruct (IH _ _ Hc) as (H1'&H2'&H3'). split; [done|]. split; [done|].
    intros mb' [->|Hin]%elem_of_cons Hne Hor; [|eauto]. apply existsb_exists in Hex as (c&Hin&Hc'). exists c. split; [|by right].
    apply H1'. by apply list_elem_of_In. }
  destruct (new_uuid s) as [s1 id]. intros Hc. destruct (IH _ _ Hc) as (H1'&H2'&H3'). split; [set_solver|]. split.
  - intros c Hin. destruct (H2' c Hin) as [[?| ->%list_elem_of_singleton]%elem_of_app|?]; [by left|by right|by right].
  - intros mb' [->|Hin]%elem_of_cons Hne Hor; [|eauto]. eexists. split; [apply H1'; apply elem_of_app; right; by left|]. by left.
Qed.
Lemma store_copies_served m u s s' x : store_copies env m u (target_mailbox env m) s = (s', Ok x) -> served m u s'.
Proof.
  unfold store_copies. destruct (new_uuid s) as [s1 g]. cbv zeta.
  set (meta := match qe_PendingTags env with [] => _ | _ => _ end).
  assert (mm_RawMessage meta = Some (mkBlobRef (m_hash m) (m_size m) "message/rfc822" "")) as Hraw.
  { unfold meta. destruct (qe_PendingTags env); [done|]. unfold AddTags. repeat case_match; simplify_eq; done. }
  clearbody meta. destruct (copy_metas _ _ _ _ _ s1) as [s2 l] eqn:E2. destruct (copy_metas_spec _ _ _ _ _ _ _ _ E2) as (_&Hl&Hm).
  assert (Forall (fun c => mm_RawMessage (cp_meta c) = Some (mkBlobRef (m_hash m) (m_size m) "message/rfc822" "")) l) as Hl'
    by (apply Forall_forall; intros c Hc; destruct (Hl c Hc) as [?%elem_of_nil| ->]; done).
  destruct (if qe_DiscardNormal env then _ else _) as [s3 [y|e]] eqn:E3; [|done]. intros Hd.
  destruct (copies_stored m u l _ _ _ Hl' Hd) as [Hx Hs]. split.
  - intros Hdis. rewrite Hdis in E3. eapply stored_ext; [exact Hx|]. by eapply deliver_mail_stored.
  - intros mb Hin Hne Hor. destruct (Hm mb Hin Hne Hor) as (c&Hc&Hmb). exists (cp_mailbox c). split; [done|]. by apply Hs.
Qed.
Lemma account_forward_ok2 now m u rcpt f a s s' a' skip :
  msg_ok m -> gate_ok2 (a_gate a) -> rcpt ∈ qe_Recipients env -> p_resolver p = Some f -> f rcpt = Ok u ->
  account_forward p now env m u a s = (s', a', skip) -> gate_ok2 (a_gate a') /\ (skip = true -> forwarded_away u).
Proof.
  intros Hm Hg Hin Hf Hu. unfold account_forward. destruct (p_prefs p) as [prefs_of|] eqn:Ep; [|by intros [= _ <- <-]].
  cbv zeta. destruct (String.eqb _ ""); [by intros [= _ <- <-]|]. rewrite (mo_raw _ Hm).
  destruct (permit _ _ _ _ _ _ _ _) as [[s1 g1] ok] eqn:E. intros [= _ <- <-].
  assert (requested u (TrimSpace (pf_ForwardAddress (prefs_of u)))) as Hr by (right; exists rcpt, f, prefs_of; done).
  destruct (permit_ok2 _ _ _ _ _ _ _ _ Hg Hr E) as [Hg1 Hok]. split; [done|].
  intros [-> Hk%negb_true_iff]%andb_true_iff. destruct (Hok eq_refl) as (u'&t'&?&?). exists prefs_of, u', t'. done.
Qed.
Lemma deliver_user_outcome now m u rcpt f a s s' a' :
  msg_ok m -> gate_ok2 (a_gate a) -> rcpt ∈ qe_Recipients env -> p_resolver p = Some f -> f rcpt = Ok u ->
  deliver_user p now env m rcpt u a s = (s', a', None) -> gate_ok2 (a_gate a') /\ outcome m u s'.
Proof.
  intros Hm Ha Hin Hf Hu. unfold deliver_user. destruct (account_forward _ _ _ _ _ _ _) as [[s1 a1] skip] eqn:E1.
  destruct (account_forward_ok2 _ _ _ _ _ _ _ _ _ _ Hm Ha Hin Hf Hu E1) as [Hg1 Hskip]. cbv zeta.
  set (a2 := match vacation_step _ _ _ _ _ _ _ with Some c => _ | None => _ end).
  assert (a_gate a2 = a_gate a1) as Ea by (unfold a2; by destruct (vacation_step _ _ _ _ _ _ _)).
  destruct skip; [intros [= <- <-]; rewrite Ea; split; [done|left; by apply Hskip]|].
  destruct (booking_sender _ _ _ _ _) as [sender|].
  { intros [= <- <-]. rewrite Ea. split; [done|]. right. left. exists sender.
    eapply ext_elem; [eapply ext_grows, (report_grows now)|]. cbn [s_events say]. set_solver. }
  destruct (store_copies _ _ _ _ s1) as [s2 [x|e]] eqn:E2; [|done]. apply store_copies_served in E2.
  destruct (qe_DiscardNormal env); [intros [= <- <-]; rewrite Ea; split; [done|by right; right]|]. intros [= <- <-]. split.
  - by destruct (_ && _); cbn [a_gate]; rewrite Ea.
  - eapply outcome_ext; [eapply ext_grows, (report_grows now)|]. by right; right.
Qed.

(** The recipients that name an account. *)
Definition account_of (rcpt u : string) : Prop :=
  isHostedSRS p rcpt = false /\ isHostedNoRelay p rcpt = false /\ exists f, p_resolver p = Some f /\ f rcpt = Ok u.
Lemma deliver_loop_outcome now m rcpts a s s' a' :
  msg_ok m -> acc_ok now a -> gate_ok2 (a_gate a) -> (forall r, r ∈ rcpts -> r ∈ qe_Recipients env) ->
  deliver_loop p now env m rcpts a s = (s', a', None) -> forall rcpt u, rcpt ∈ rcpts -> account_of rcpt u -> outcome m u s'.
Proof.
  intros Hm. revert a s. induction rcpts as [|r rcpts IH]; intros a s Ha Hg Hsub; cbn [deliver_loop]; [set_solver|].
  destruct (deliver_recipient _ _ _ _ _ _ _) as [[s1 a1] [e|]] eqn:E1; [done|]. intros Hl.
  assert (acc_ok now a1 /\ gate_ok2 (a_gate a1) /\ forall u, account_of r u -> outcome m u s1) as (Ha1&Hg1&Ho).
  { pose proof E1 as E1'. assert (deliver_loop p now env m [r] a s = (s1, a1, None)) as El by (cbn; by rewrite E1).
    destruct (deliver_loop_ok now m [r] _ _ _ _ _ Hm Ha ltac:(set_solver) El) as [Ha1 _]. split; [done|].
    unfold deliver_recipient in E1. unfold account_of. destruct (isHostedSRS p r).
    - destruct (relaySRSBounce _ _ _ _ _ _ _ _) as [s2 d]. injection E1 as <- <-. split; [done|]. by intros u (?&_).
    - destruct (isHostedNoRelay p r); [injection E1 as <- <-; split; [done|]; by intros u (_&?&_)|].
      destruct (p_resolver p) as [f|] eqn:Hf; [|done].
      destruct (f r) as [u|] eqn:Hu; [|injection E1 as <- <-; split; [done|]; intros u (_&_&f'&[= <-]&?); congruence].
      destruct (deliver_user_outcome now m u r f a s s1 a1 Hm Hg ltac:(set_solver) Hf Hu E1) as [? ?]. split; [done|].
      intros u' (_&_&f'&[= <-]&?). congruence. }
  assert (forall r', r' ∈ rcpts -> r' ∈ qe_Recipients env) as Hsub' by set_solver.
  destruct (deliver_loop_ok now m rcpts _ _ _ _ _ Hm Ha1 Hsub' Hl) as [_ G].
  intros rcpt u [->|Hin]%elem_of_cons Hu; [|exact (IH a1 s1 Ha1 Hg1 Hsub' Hl rcpt u Hin Hu)].
  eapply outcome_ext; [by eapply ext_grows|]. by apply Ho.
Qed.

End Gate.

(** * Evaluation *)

Section Demo.
#[local] Existing Instance bytewise_unicode.
(** Messages go into commands by their identifier. *)
#[local] Instance short_codecs : MailCodecs := {|
  mc_meta := demo_meta_codec; mc_msg := demo_msg_codec; mc_mail := {| marshal m := Ok (mm_Guid m); unmarshal s := Ok (demo_mail s) |};
  mc_transfer := json_codec (fun _ => True); mc_rename := json_codec (fun _ => True);
  mc_delivery := {| marshal d := Ok (dp_Meta d); unmarshal _ := Err (Errorf "not read back") |}; mc_subscribe := json_codec (fun _ => True) |}.
#[local] Instance demo_netmail : NetMail := {|
  ParseAddress s := Ok (mkMailAddress "" s); ParseAddressList s := Ok [mkMailAddress "" s]; address_String a := ma_Address a |}.
#[local] Instance demo_ext : DeliverExt := {|
  ReadEnvelope _ := Err (Errorf "no parser"); ParseDate _ := None; VerifyDKIM _ := ("none", ""); from_values _ := Err (Errorf "no parser");
  ReadMIMEHeader _ := Some [("To", "ann@x.org")]; DecodeHeader s := Ok s; qp_encode s := s; FormatRFC1123Z _ := "";
  uuid n := FormatInt (Z.of_nat n); hex_sha256 s := s; sha256_hex_checked _ := true |}.
#[local] Instance demo_mime : MimeHeaders := {| parseContentType _ := ("text/plain", ""); parsePartHeaders _ := mkPartHeaders "" "" "" "" "" |}.
#[local] Instance demo_blobs : BlobOps (gmap string string) := {|
  blob_Put d b := (<[d := d]> b, Ok d); blob_Exists b k := bool_decide (is_Some (b !! k)); blob_Get b k := of_option ErrNotFound (b !! k) |}.
#[local] Instance demo_limiting : Limiting unit := fun _ _ l => (l, true).
#[local] Instance demo_out : Codec OutboundMessage := {| marshal m := Ok (om_Id m); unmarshal _ := Err (Errorf "not read back") |}.

(** u1, ann@x.org, forwards to a verified address without keeping a copy. *)
Definition demo_prefs (away : bool) (u : string) : UserPreferences :=
  if String.eqb u "u1" && away then mkPrefs 1 1 2 25 1 "" "UTC" 0 "" "en" false "ann@other.org" false "" false "" "" 0 0 0 "" else DefaultPreferences.
Definition demo_resolve (a : string) : result string :=
  if String.eqb a "ann@x.org" then Ok "u1" else if String.eqb a "bob@x.org" then Ok "u2" else Err (Errorf "not local").
Definition demo_stage_p (away : bool) : DeliverProcessor :=
  mkDeliver (Some demo_resolve) true (Some (demo_prefs away)) (Some (fun u t => Ok (String.eqb u "u1" && String.eqb t "ann@other.org")))
    (Some (fun d => String.eqb d "x.org")) None false None false None (Some (fun _ => Ok "x.org")) false 0 "mx.x.org" None None false.
Definition demo_env : QueueEnvelope :=
  mkEnvelope "e1" "eve@y.org" ["ann@x.org"; "bob@x.org"] 1700000000 "" "h0" 0 "fail" [] "" "" [] [] false "" [mkForward "u2" "evil@z.org"] 0 [] false "" "" 0 "" "".
Definition demo_msg : string := "Received: a" +:+ sCRLF +:+ "From: eve@y.org" +:+ sCRLF +:+ sCRLF +:+ "hi".
Definition demo_state : St MemDB (gmap string string) unit := mkSt (mem_of []) ∅ (fun _ => None) 0 [].

Definition demo_forward (ok : bool) : event :=
  EvEnqueue (forward_message "1" "u1" "bongo-bounce-sink@x.org" ["ann@other.org"] "h0" ORIGIN_FORWARD false) ok.

Section Accepting.
#[local] Existing Instance plain_raft.
Definition demo_run (away : bool) := Process (demo_stage_p away) (time_unix 1700000001) 3 None demo_env (Ok demo_msg) demo_state.
(** The forged sender does not appear, the rule of u2 for an unverified target
    is not followed, and bob has the message. *)
Lemma only_vetted_mail_leaves_witness :
  forward_ok (demo_stage_p true) demo_env demo_msg
    (forward_message "1" "u1" "bongo-bounce-sink@x.org" ["ann@other.org"] "h0" ORIGIN_FORWARD false).
Proof.
  destruct (demo_run true) as [[[s' env'] r]|] eqn:E; [|vm_compute in E; discriminate E].
  assert (s_events s' = s_events (match demo_run true with Some (s, _, _) => s | None => demo_state end)) as Es by (rewrite E; reflexivity).
  destruct (only_vetted_mail_leaves (demo_stage_p true) demo_env demo_msg (time_unix 1700000001) 3 None demo_state s' env' r
    (forward_message "1" "u1" "bongo-bounce-sink@x.org" ["ann@other.org"] "h0" ORIGIN_FORWARD false) true E) as [Hf|[Hb|Ha]].
  - rewrite Es. vm_compute. right. left.
  - exact Hf.
  - destruct Hb as (rcpt&srs&orig&_&_&Hs&_). discriminate Hs.
  - destruct Ha as [Ha _]. discriminate Ha.
Defined.

End Accepting.

Section Refusing.
(** A store that takes mail but refuses the outbound queue. *)
Definition refusing_raft : RaftApplier MemDB := fun cmd =>
  if HasPrefix (cmd_Key cmd) "/queue/" then gfail (Errorf "raft: timed out") else plain_apply cmd.
#[local] Existing Instance refusing_raft.
Definition demo_env1 : QueueEnvelope :=
  mkEnvelope "e1" "eve@y.org" ["ann@x.org"] 1700000000 "" "h0" 0 "fail" [] "" "" [] [] false "" [] 0 [] false "" "" 0 "" "".
(** A forward that could not be queued after the local copy was skipped: the
    stage reports success and the message is nowhere. *)
Theorem forward_without_copy_lost :
  exists s' env' r, Process (demo_stage_p true) (time_unix 1700000001) 3 None demo_env1 (Ok demo_msg) demo_state = Some (s', env', Ok r) /\
    HasFlag (qe_Flags env') MsgFlagDelivered = true /\
    s_events s' = [EvEnqueue (forward_message "0" "u1" "bongo-bounce-sink@x.org" ["ann@other.org"] "h0" ORIGIN_FORWARD false) false] /\
    mem (s_db s') = ∅.
Proof.
  eexists _, _, _. split; [vm_compute; reflexivity|]. vm_compute. done.
Qed.
End Refusing.
End Demo.
