(* ===== verification/Spool.v ===== *)
(** The spool of the inbound pipeline: [internal/pipeline/spool.go],
    [spool_group.go] and the error purge of [errorpurge.go].

    The state is the set of files, by directory and name.  Every system call
    consults [sp_faults] at its own number and may fail there; a failing write
    leaves a prefix of the data.  A crash after [n] calls leaves the files of a
    run in which all later calls fail, so what is proved for every [sp_faults]
    covers a crash at any point.  [os.Rename] replaces its target atomically.
    Identifiers hold no path separator. *)

From S2P Require Import Prelude GoStrings Proto Envelope.
From Stdlib Require Import Ascii.

Definition file : Type := string * string.
Record Spool := mkSpool {
  sp_files : gmap file string;
  sp_calls : nat;
  sp_faults : nat -> option (err * nat);
}.

Definition envSuffix : string := ".env".
Definition spoolDirs : list string := ["incoming"; "processing"; "deliver"; "quarantine"; "error"].
Definition tmpPrefix : string := ".tmp-".
Definition tmpSuffix : string := ".tmp".

Definition ErrNotExist : err := Sentinel "file does not exist".

(** * System calls *)

Definition with_files (s : Spool) (fs : gmap file string) : Spool := mkSpool fs (sp_calls s) (sp_faults s).
(** A call that fails by [sp_faults] leaves the files of [torn]. *)
Definition sys {A : Type} (torn : nat -> gmap file string -> gmap file string) (f : gmap file string -> gmap file string * result A) : GoM Spool A :=
  fun s =>
    let s1 := mkSpool (sp_files s) (S (sp_calls s)) (sp_faults s) in
    match sp_faults s (sp_calls s) with
    | Some (e, n) => (with_files s1 (torn n (sp_files s)), Err e)
    | None => let (fs, r) := f (sp_files s) in (with_files s1 fs, r)
    end.
Definition whole (n : nat) (fs : gmap file string) : gmap file string := fs.

(** [os.ReadDir]: the names in a directory, in order. *)
Definition names (dir : string) (fs : gmap file string) : list string :=
  merge_sort String.le (omap (fun kv => if String.eqb kv.1.1 dir then Some kv.1.2 else None) (map_to_list fs)).
Definition ReadDir (dir : string) : GoM Spool (list string) := sys whole (fun fs => (fs, Ok (names dir fs))).
Definition ReadFile (p : file) : GoM Spool string := sys whole (fun fs => (fs, of_option ErrNotExist (fs !! p))).
Definition WriteFile (p : file) (data : string) : GoM Spool unit :=
  sys (fun n fs => <[p := str_take n data]> fs) (fun fs => (<[p := data]> fs, Ok tt)).
Definition Rename (src dst : file) : GoM Spool unit :=
  sys whole (fun fs => match fs !! src with
                       | None => (fs, Err ErrNotExist)
                       | Some data => (<[dst := data]> (delete src fs), Ok tt)
                       end).
Definition os_Remove (p : file) : GoM Spool unit :=
  sys whole (fun fs => match fs !! p with None => (fs, Err ErrNotExist) | Some _ => (delete p fs, Ok tt) end).
Definition MkdirAll (dir : string) : GoM Spool unit := sys whole (fun fs => (fs, Ok tt)).

(** A call whose error the code drops. *)
Definition ignore {S A : Type} (m : GoM S A) : GoM S unit := fun s => ((m s).1, Ok tt).
Fixpoint each {S A : Type} (f : A -> GoM S unit) (l : list A) : GoM S unit :=
  match l with
  | [] => gret tt
  | x :: l' => let! _ := f x in each f l'
  end.

(** * SpoolStore *)

Section SpoolStore.
Context `{Codec QueueEnvelope}.

Definition isEnvelopeFile (name : string) : bool :=
  match CutLast name "." with Some (_, ext) => String.eqb ext "env" | None => false end && negb (HasPrefix name tmpPrefix).

Definition env_file (dir id : string) : file := (dir, id +:+ envSuffix).
Definition tmp_file (dir id : string) : file := (dir, tmpPrefix +:+ id +:+ tmpSuffix).

Definition remove_stale_in (d : string) : GoM Spool unit :=
  let! entries := gwrap ("spool: read " +:+ d +:+ " for temp cleanup") (ReadDir d) in
  each (fun name =>
    if negb (HasPrefix name tmpPrefix) then gret tt else
    fun s => match os_Remove (d, name) s with
             | (s', Err e) => if errors_is e ErrNotExist then (s', Ok tt)
                              else (s', Err (Wrap ("spool: remove stale temp " +:+ d +:+ "/" +:+ name) e))
             | (s', Ok _) => (s', Ok tt)
             end) entries.
Definition removeStaleTempFiles : GoM Spool unit := each remove_stale_in spoolDirs.

(** [WriteEnvelope]: a temporary file, then an atomic rename. *)
Definition WriteEnvelope (dir : string) (env : QueueEnvelope) : GoM Spool unit :=
  let! data := glift (wrapf ("spool: marshal envelope " +:+ qe_Id env) (marshal env)) in
  let! _ := gwrap "spool: write temp" (WriteFile (tmp_file dir (qe_Id env)) data) in
  fun s => match Rename (tmp_file dir (qe_Id env)) (env_file dir (qe_Id env)) s with
           | (s', Ok _) => (s', Ok tt)
           | (s', Err e) => ((os_Remove (tmp_file dir (qe_Id env)) s').1, Err (Wrap ("spool: rename temp to final " +:+ qe_Id env) e))
           end.

Definition Enqueue (env : QueueEnvelope) : GoM Spool unit := WriteEnvelope "incoming" env.

Definition ReadEnvelope (dir id : string) : GoM Spool QueueEnvelope :=
  let! data := gwrap ("spool: read envelope " +:+ dir +:+ "/" +:+ id) (ReadFile (env_file dir id)) in
  glift (wrapf ("spool: unmarshal envelope " +:+ dir +:+ "/" +:+ id) (unmarshal data)).

Definition id_of (name : string) : string := str_take (String.length name - String.length envSuffix) name.

Definition Dequeue : GoM Spool (option QueueEnvelope) :=
  let! entries := gwrap "spool: read incoming" (ReadDir "incoming") in
  match merge_sort String.le (List.filter isEnvelopeFile entries) with
  | [] => gret None
  | oldest :: _ =>
      let id := id_of oldest in
      let! _ := gwrap ("spool: dequeue rename " +:+ id) (Rename ("incoming", oldest) ("processing", oldest)) in
      let! env := gwrap ("spool: dequeue read " +:+ id) (ReadEnvelope "processing" id) in
      gret (Some env)
  end.

Definition Move (id from to : string) : GoM Spool unit :=
  gwrap ("spool: move " +:+ id) (Rename (env_file from id) (env_file to id)).

Fixpoint read_all (dir : string) (l : list string) : GoM Spool (list QueueEnvelope) :=
  match l with
  | [] => gret []
  | name :: l' =>
      if negb (isEnvelopeFile name) then read_all dir l' else
      let! env := gwrap ("spool: list read " +:+ dir +:+ "/" +:+ id_of name) (ReadEnvelope dir (id_of name)) in
      let! rest := read_all dir l' in
      gret (env :: rest)
  end.
Definition ListSpool (dir : string) : GoM Spool (list QueueEnvelope) :=
  let! entries := gwrap ("spool: list " +:+ dir) (ReadDir dir) in
  read_all dir entries.

Definition RemoveEnvelope (dir id : string) : GoM Spool unit :=
  gwrap ("spool: remove " +:+ dir +:+ "/" +:+ id) (os_Remove (env_file dir id)).

Definition recover_one (name : string) : GoM Spool unit :=
  if negb (isEnvelopeFile name) then gret tt
  else gwrap ("spool: recover " +:+ name) (Rename ("processing", name) ("incoming", name)).
Definition RecoverCrashed : GoM Spool unit :=
  let! entries := gwrap "spool: read processing for recovery" (ReadDir "processing") in
  each recover_one entries.

Definition NewSpoolStore : GoM Spool unit :=
  let! _ := each (fun d => gwrap "spool: create directory" (MkdirAll d)) spoolDirs in
  let! _ := removeStaleTempFiles in
  gwrap "spool: recover crashed" RecoverCrashed.

(** * Groups of envelopes *)

(** [EnqueueAll]: when one fails, those written before are removed. *)
Fixpoint enqueue_from (done rest : list QueueEnvelope) : GoM Spool unit :=
  match rest with
  | [] => gret tt
  | env :: rest' => fun s =>
      match Enqueue env s with
      | (s', Ok _) => enqueue_from (done ++ [env]) rest' s'
      | (s', Err e) => ((each (fun d => ignore (RemoveEnvelope "incoming" (qe_Id d))) done s').1, Err (Wrap "enqueuing envelope" e))
      end
  end.
Definition EnqueueAll (envs : list QueueEnvelope) : GoM Spool unit := enqueue_from [] envs.

(** * Purging failed envelopes *)

Definition expired (now retention : Z) (env : QueueEnvelope) : bool :=
  negb (qe_ReceivedAt env =? 0) && (qe_ReceivedAt env * Second <? now - retention).
Definition purgeErrorSpool (retention now : Z) : GoM Spool unit := fun s =>
  match ListSpool "error" s with
  | (s', Err _) => (s', Ok tt)
  | (s', Ok envs) => each (fun env => if expired now retention env then ignore (RemoveEnvelope "error" (qe_Id env)) else gret tt) envs s'
  end.
End SpoolStore.
