(* ===== verification/BlobStore.v ===== *)
(** The content-addressed blob store: [internal/store/blobstore.go].

    An operation is a program of system calls; between two calls of one
    operation anything else may happen to the files.  A program can be run on
    its own ([run]), against the states its calls happen to find ([observe],
    [effects]), or as one of many over one store ([BlobThm]).  The content and
    the modification time of a file are read in one call; [errors.Join] keeps
    the identity of its first error. *)

From stdpp Require Import pretty.
From S2P Require Import Prelude GoStrings Pebble Proto Credentials AttSplit Spool.
From Stdlib Require Import Ascii.

(** * Programs *)

(** [Call enabled f k]: one atomic call [f], given the time, that can happen
    only when [enabled]. *)
Inductive prog (S A : Type) : Type :=
  | Done (a : A)
  | Call (enabled : S -> bool) {X : Type} (f : Z -> S -> S * X) (k : X -> prog S A).
Arguments Done {S A} _.
Arguments Call {S A} _ {X} _ _.

Fixpoint pbind {S A C} (p : prog S A) (g : A -> prog S C) : prog S C :=
  match p with
  | Done a => g a
  | Call en f k => Call en f (fun x => pbind (k x) g)
  end.
Definition call {S X} (f : Z -> S -> S * X) : prog S X := Call (fun _ => true) f Done.
Notation "'do' x '<-' p ';' q" := (pbind p (fun x => q)) (at level 200, x pattern, p at level 100, q at level 200, right associativity).

(** A program run without interruption; [None] when it waits for ever. *)
Fixpoint run {S A} (now : Z) (p : prog S A) (s : S) : option (S * A) :=
  match p with
  | Done a => Some (s, a)
  | Call en f k => if en s then let (s', x) := f now s in run now (k x) s' else None
  end.

(** A program whose calls find the states of [obs], in this order: the result,
    and what each call made of the state it found.  Nothing relates a state to
    the one before it, so any activity between two calls is allowed. *)
Fixpoint observe {S A} (p : prog S A) (obs : list (Z * S)) : option A :=
  match p, obs with
  | Done a, [] => Some a
  | Call en f k, (now, s) :: obs => if en s then observe (k (f now s).2) obs else None
  | _, _ => None
  end.
Fixpoint effects {S A} (p : prog S A) (obs : list (Z * S)) : list (S * S) :=
  match p, obs with
  | Call en f k, (now, s) :: obs => if en s then (s, (f now s).1) :: effects (k (f now s).2) obs else []
  | _, _ => []
  end.

(** A program on a part of a larger state. *)
Fixpoint plift {S W A} (get : W -> S) (put : S -> W -> W) (p : prog S A) : prog W A :=
  match p with
  | Done a => Done a
  | Call en f k => Call (fun w => en (get w)) (fun now w => let r := f now (get w) in (put r.1 w, r.2)) (fun x => plift get put (k x))
  end.

(** * Files *)

Definition ErrInvalidHash : err := Sentinel "invalid blob hash".
Definition ErrPermission : err := Sentinel "permission denied".

(** Contents and modification times, the lock [mu], the temporary names handed
    out, and the calls that fail ([n] bytes of a failing write arrive). *)
Record BlobFS := mkBFS {
  bf_files : gmap file (string * Z); bf_locked : bool; bf_seq : nat; bf_calls : nat; bf_faults : nat -> option (err * nat) }.
Definition with_blobs (s : BlobFS) (fs : gmap file (string * Z)) : BlobFS := mkBFS fs (bf_locked s) (bf_seq s) (bf_calls s) (bf_faults s).
Definition bsys {A : Type} (torn : nat -> gmap file (string * Z) -> gmap file (string * Z))
    (f : gmap file (string * Z) -> gmap file (string * Z) * result A) (s : BlobFS) : BlobFS * result A :=
  let s1 := mkBFS (bf_files s) (bf_locked s) (bf_seq s) (S (bf_calls s)) (bf_faults s) in
  match bf_faults s (bf_calls s) with
  | Some (e, n) => (with_blobs s1 (torn n (bf_files s)), Err e)
  | None => let (fs, r) := f (bf_files s) in (with_blobs s1 fs, r)
  end.
Definition intact (n : nat) (fs : gmap file (string * Z)) : gmap file (string * Z) := fs.

Definition Lock : prog BlobFS unit :=
  Call (fun s => negb (bf_locked s)) (fun _ s => (mkBFS (bf_files s) true (bf_seq s) (bf_calls s) (bf_faults s), tt)) Done.
Definition Unlock : prog BlobFS unit := call (fun _ s => (mkBFS (bf_files s) false (bf_seq s) (bf_calls s) (bf_faults s), tt)).
Definition Now : prog BlobFS Z := call (fun now s => (s, now)).
Definition Chtimes (p : file) (mtime : Z) : prog BlobFS (result unit) :=
  call (fun _ => bsys intact (fun fs => match fs !! p with
                                        | None => (fs, Err ErrNotExist)
                                        | Some (data, _) => (<[p := (data, mtime)]> fs, Ok tt)
                                        end)).
Definition Stat (p : file) : prog BlobFS (result (string * Z)) := call (fun _ => bsys intact (fun fs => (fs, of_option ErrNotExist (fs !! p)))).
Definition bRemove (p : file) : prog BlobFS (result unit) :=
  call (fun _ => bsys intact (fun fs => match fs !! p with None => (fs, Err ErrNotExist) | Some _ => (delete p fs, Ok tt) end)).
Definition bRename (src dst : file) : prog BlobFS (result unit) :=
  call (fun _ => bsys intact (fun fs => match fs !! src with
                                        | None => (fs, Err ErrNotExist)
                                        | Some d => (<[dst := d]> (delete src fs), Ok tt)
                                        end)).
Definition bMkdirAll (dir : string) : prog BlobFS (result unit) := call (fun _ => bsys intact (fun fs => (fs, Ok tt))).
(** A name no other temporary file has had. *)
Definition temp_name (n : nat) : file := ("tmp", "blob-" +:+ pretty n).
Definition CreateTemp : prog BlobFS (result file) :=
  call (fun now s =>
    let p := temp_name (bf_seq s) in
    bsys intact (fun fs => (<[p := ("", now)]> fs, Ok p)) (mkBFS (bf_files s) (bf_locked s) (S (bf_seq s)) (bf_calls s) (bf_faults s))).
Definition append_to (p : file) (chunk : string) (now : Z) (fs : gmap file (string * Z)) : gmap file (string * Z) :=
  match fs !! p with Some (data, _) => <[p := (data +:+ chunk, now)]> fs | None => fs end.
Definition Write (p : file) (chunk : string) : prog BlobFS (result unit) :=
  call (fun now => bsys (fun n => append_to p (str_take n chunk) now) (fun fs => (append_to p chunk now fs, Ok tt))).
Definition Close (p : file) : prog BlobFS (result unit) := call (fun _ => bsys intact (fun fs => (fs, Ok tt))).
Definition bReadDir (dir : string) : prog BlobFS (result (list string)) :=
  call (fun _ => bsys intact (fun fs =>
    (fs, Ok (merge_sort String.le (omap (fun kv => if String.eqb kv.1.1 dir then Some kv.1.2 else None) (map_to_list fs)))))).
(** The directories beside [tmp]. *)
Definition bReadRoot : prog BlobFS (result (list string)) :=
  call (fun _ => bsys intact (fun fs => (fs, Ok (merge_sort String.le (remove_dups ((fun kv => kv.1.1) <$> map_to_list fs)))))).

(** [errors.Join] of what is not nil. *)
Definition join_err (e : err) (l : list (result unit)) : err :=
  foldl (fun acc r => match r with Ok _ => acc | Err x => Wrap (err_text x) acc end) e l.

Section BlobStore.
Variable sha256Hex : string -> string.

Definition blobPath (hash : string) : file := if (String.length hash <? 2)%nat then ("", hash) else (str_take 2 hash, hash).
Definition invalid_hash {A : Type} (hash : string) : result A := Err (Wrap ("blob " +:+ quote hash) ErrInvalidHash).

Definition cleanupTempFile (p : file) : prog BlobFS (result unit) :=
  do r <- bRemove p;
  Done (match r with Ok _ => Ok tt | Err e => if errors_is e ErrNotExist then Ok tt else Err e end).

(** The time is taken before the lock. *)
Definition touchIfExists (hash : string) : prog BlobFS (result bool) :=
  if negb (IsValidHash hash) then Done (invalid_hash hash) else
  do now <- Now;
  do _ <- Lock;
  do r <- Chtimes (blobPath hash) now;
  do res <- match r with
            | Ok _ => Done (Ok true)
            | Err e =>
                if errors_is e ErrNotExist then Done (Ok false)
                else if errors_is e ErrPermission then do st <- Stat (blobPath hash); Done (Ok (is_ok st))
                else Done (Err (Wrap "refreshing blob mtime" e))
            end;
  do _ <- Unlock; Done res.

Definition DeleteIfNotModifiedSince (hash : string) (cutoff : Z) : prog BlobFS (result bool) :=
  if negb (IsValidHash hash) then Done (invalid_hash hash) else
  do _ <- Lock;
  do st <- Stat (blobPath hash);
  do res <- match st with
            | Err e => Done (if errors_is e ErrNotExist then Ok false else Err (Wrap "stat blob" e))
            | Ok (_, mtime) =>
                if cutoff <? mtime then Done (Ok false) else
                do r <- bRemove (blobPath hash);
                Done (match r with
                      | Ok _ => Ok true
                      | Err e => if errors_is e ErrNotExist then Ok false else Err (Wrap "deleting blob" e)
                      end)
            end;
  do _ <- Unlock; Done res.

(** From a closed temporary file to the blob. *)
Definition discard {A : Type} (tmp : file) (e : err) : prog BlobFS (result A) := do r <- cleanupTempFile tmp; Done (Err (join_err e [r])).
Definition drop_duplicate (tmp : file) : prog BlobFS (result unit) :=
  do r <- cleanupTempFile tmp; Done (wrapf "cleaning duplicate blob temp file" r).
Definition writeAtomically (hash data : string) : prog BlobFS (result unit) :=
  do t <- CreateTemp;
  match t with
  | Err e => Done (Err (Wrap "creating temp file" e))
  | Ok tmp =>
      do w <- Write tmp data;
      match w with
      | Err e => do c <- Close tmp; do r <- cleanupTempFile tmp; Done (Err (join_err (Wrap "writing blob" e) [c; r]))
      | Ok _ =>
          do c <- Close tmp;
          match c with
          | Err e => discard tmp (Wrap "closing temp file" e)
          | Ok _ =>
              do hit <- touchIfExists hash;
              match hit with
              | Err e => discard tmp e
              | Ok true => drop_duplicate tmp
              | Ok false =>
                  do m <- bMkdirAll (str_take 2 hash);
                  match m with
                  | Err e => discard tmp (Wrap "creating prefix dir" e)
                  | Ok _ =>
                      do r <- bRename tmp (str_take 2 hash, hash);
                      match r with
                      | Ok _ => Done (Ok tt)
                      | Err e =>
                          do hit <- touchIfExists hash;
                          match hit with Ok true => drop_duplicate tmp | _ => discard tmp (Wrap "renaming blob" e) end
                      end
                  end
              end
          end
      end
  end.

Definition Put (data : string) : prog BlobFS (result string) :=
  let hash := sha256Hex data in
  do hit <- touchIfExists hash;
  match hit with
  | Err e => Done (Err e)
  | Ok true => Done (Ok hash)
  | Ok false => do r <- writeAtomically hash data; Done (match r with Ok _ => Ok hash | Err e => Err e end)
  end.

(** [io.Copy] of the reader's pieces into the file; [e] ends the reader. *)
Fixpoint copy_chunks (tmp : file) (chunks : list string) (e : option err) : prog BlobFS (result unit) :=
  match chunks with
  | [] => Done (match e with Some e => Err e | None => Ok tt end)
  | c :: chunks => do w <- Write tmp c; match w with Err e => Done (Err e) | Ok _ => copy_chunks tmp chunks e end
  end.
Definition concat_chunks (chunks : list string) : string := foldr String.append "" chunks.
Definition PutReader (chunks : list string) (e : option err) : prog BlobFS (result (string * Z)) :=
  do t <- CreateTemp;
  match t with
  | Err e => Done (Err (Wrap "creating temp file" e))
  | Ok tmp =>
      do w <- copy_chunks tmp chunks e;
      match w with
      | Err e => do c <- Close tmp; do r <- cleanupTempFile tmp; Done (Err (join_err (Wrap "writing blob" e) [c; r]))
      | Ok _ =>
          do c <- Close tmp;
          match c with
          | Err e => discard tmp (Wrap "closing temp file" e)
          | Ok _ =>
              let hash := sha256Hex (concat_chunks chunks) in
              do hit <- touchIfExists hash;
              match hit with
              | Err e => discard tmp e
              | Ok true => do r <- drop_duplicate tmp; Done (match r with Ok _ => Ok (hash, len (concat_chunks chunks)) | Err e => Err e end)
              | Ok false =>
                  do m <- bMkdirAll (str_take 2 hash);
                  match m with
                  | Err e => discard tmp (Wrap "creating prefix dir" e)
                  | Ok _ =>
                      do r <- bRename tmp (str_take 2 hash, hash);
                      match r with
                      | Ok _ => Done (Ok (hash, len (concat_chunks chunks)))
                      | Err e => discard tmp (Wrap "renaming blob" e)
                      end
                  end
              end
          end
      end
  end.

(** ** Reading *)

Definition blob_read (hash : string) : prog BlobFS (result string) :=
  if negb (IsValidHash hash) then Done (invalid_hash hash) else
  do r <- Stat (blobPath hash);
  Done (match r with
        | Ok (data, _) => Ok data
        | Err e => if errors_is e ErrNotExist then Err (Wrap ("blob " +:+ hash) ErrNotFound) else Err (Wrap "opening blob" e)
        end).
Definition blob_exists (hash : string) : prog BlobFS bool :=
  if negb (IsValidHash hash) then Done false else do r <- Stat (blobPath hash); Done (is_ok r).
Definition ModTime (hash : string) : prog BlobFS (result Z) :=
  if negb (IsValidHash hash) then Done (invalid_hash hash) else do r <- Stat (blobPath hash); Done (let? st := r in Ok st.2).
Definition Size (hash : string) : prog BlobFS (result Z) :=
  if negb (IsValidHash hash) then Done (invalid_hash hash) else do r <- Stat (blobPath hash); Done (let? st := r in Ok (len st.1)).
Definition blob_Delete (hash : string) : prog BlobFS (result unit) :=
  if negb (IsValidHash hash) then Done (invalid_hash hash) else
  do r <- bRemove (blobPath hash);
  Done (match r with Ok _ => Ok tt | Err e => if errors_is e ErrNotExist then Ok tt else Err (Wrap "deleting blob" e) end).
Definition Verify (hash : string) : prog BlobFS (result bool) :=
  if negb (IsValidHash hash) then Done (Err (Errorf "invalid blob hash")) else
  do r <- Stat (blobPath hash);
  Done (match r with Ok (data, _) => Ok (String.eqb (sha256Hex data) hash) | Err e => Err (Wrap "opening blob for verify" e) end).

Fixpoint list_dirs (dirs : list string) : prog BlobFS (result (list string)) :=
  match dirs with
  | [] => Done (Ok [])
  | d :: dirs =>
      if String.eqb d "tmp" then list_dirs dirs else
      do r <- bReadDir d;
      match r with
      | Err e => Done (Err (Wrap ("reading prefix dir " +:+ d) e))
      | Ok names =>
          do rest <- list_dirs dirs;
          Done (let? rest := rest in Ok (List.filter (fun n => (String.length n =? 64)%nat) names ++ rest))
      end
  end.
Definition List_blobs : prog BlobFS (result (list string)) :=
  do r <- bReadRoot;
  match r with Err e => Done (Err (Wrap "reading blob dir" e)) | Ok dirs => list_dirs dirs end.

(** [Stats]: a directory or file that cannot be read is skipped. *)
Fixpoint stat_files (d : string) (names : list string) (count total : Z) : prog BlobFS (Z * Z) :=
  match names with
  | [] => Done (count, total)
  | n :: names =>
      if negb (String.length n =? 64)%nat then stat_files d names count total else
      do r <- Stat (d, n);
      stat_files d names (count + 1) (match r with Ok st => i64 (total + len st.1) | Err _ => total end)
  end.
Fixpoint stat_dirs (dirs : list string) (count total : Z) : prog BlobFS (Z * Z) :=
  match dirs with
  | [] => Done (count, total)
  | d :: dirs =>
      if String.eqb d "tmp" then stat_dirs dirs count total else
      do r <- bReadDir d;
      match r with
      | Err _ => stat_dirs dirs count total
      | Ok names => do r <- stat_files d names count total; stat_dirs dirs r.1 r.2
      end
  end.
Definition Stats : prog BlobFS (Z * Z) :=
  do r <- bReadRoot;
  match r with Err _ => Done (0, 0) | Ok dirs => stat_dirs dirs 0 0 end.

End BlobStore.

(** A user identifier that can be a directory name. *)
Definition user_id_char (c : ascii) : bool := is_lower c || is_upper c || is_digit c || Ascii.eqb c "-" || Ascii.eqb c "_".
Definition IsValidUserID (id : string) : bool :=
  negb (String.eqb id "") && (String.length id <=? 128)%nat && str_all user_id_char id.
