(* ===== verification/BlobGC.v ===== *)
(** The blob garbage collector: [blobGCPass] and the sweep it runs, of
    [internal/agent/agent.go], with [ParseMailMetaKey] of
    [internal/store/mailmeta_key.go].

    The collector reads the database through iterators, which see one snapshot
    each, then the spool file by file, then the blob files; all of them change
    while it runs.  [deleteSweptBlobs] returns the number of blobs it removed;
    what each call removed is told by its [effects]. *)

From S2P Require Import Prelude GoStrings Pebble Proto Mailbox Queue Envelope Spool BlobStore.
From Stdlib Require Import Ascii.

(** * Keys of mail records *)

Definition ParseMailMetaKey (key : string) : option (string * string) :=
  if negb (HasPrefix key "/user/") then None else
  match Cut (str_drop 6 key) "/" with
  | None | Some ("", _) => None
  | Some (userID, rest) =>
      if negb (HasPrefix rest "mail/") then None else
      let guid := str_drop 5 rest in
      if String.eqb guid "" || Contains guid "/" then None else Some (userID, guid)
  end.

Definition BlobGCMode `{GoUnicode} (configured : string) : string :=
  let m := ToLower (TrimSpace configured) in
  if bool_decide (m ∈ ["dryrun"; "dry-run"; "dry_run"]) then "dryrun"
  else if bool_decide (m ∈ ["on"; "enabled"; "true"]) then "on" else "off".

(** [Iterator.Close] reports an error met on the way; without one the iterator
    has returned every key of its range with its value. *)
Class PebbleClose (DB : Type) `{PebbleLaws DB} := {
  db_close : DB -> string -> option string -> option err;
  db_close_clean d lo hi l k v :
    db_iter d lo hi = Ok l -> db_close d lo hi = None -> contents d !! k = Some v -> in_bounds lo hi k -> (k, Ok v) ∈ l }.

(** * References *)

(** Whether this node leads with both stores open, the database, the spool of
    this node and the blobs. *)
Record GCWorld (DB : Type) := mkGC { gc_leads : bool; gc_db : DB; gc_spool : Spool; gc_blobs : BlobFS }.
Arguments mkGC {DB} _ _ _ _.
Arguments gc_leads {DB} _.
Arguments gc_db {DB} _.
Arguments gc_spool {DB} _.
Arguments gc_blobs {DB} _.

Definition spoolScanDirs : list string := ["incoming"; "processing"; "deliver"; "quarantine"; "error"].
Definition spoolScanPasses : nat := 2.

Definition add_hash (h : string) (ref : gset string) : gset string := if String.eqb h "" then ref else {[ h ]} ∪ ref.
Definition add_refs (l : list BlobRef) (ref : gset string) : gset string := foldl (fun ref b => add_hash (br_Hash b) ref) ref l.

Section GC.
Context {DB : Type} `{PebbleClose DB} `{Codec MailMeta} `{Codec OutboundMessage} `{Codec QueueEnvelope} `{GoUnicode}.
Notation W := (GCWorld DB).
Variable sha256Hex : string -> string.
(** Whether this role runs a pipeline, and the order in which a Go map is read. *)
Variable hasSpool : bool.
Variable iterate : gmap string Z -> list (string * Z).

Definition meta_refs (meta : MailMeta) (ref : gset string) : gset string :=
  add_refs (mm_Attachments meta) (match mm_RawMessage meta with Some b => add_hash (br_Hash b) ref | None => ref end).
Definition out_refs (msg : OutboundMessage) (ref : gset string) : gset string :=
  add_refs (om_Attachments msg) (add_hash (om_BlobHash msg) ref).

Fixpoint mail_entries (l : list (string * result string)) (ref : gset string) : result (gset string) :=
  match l with
  | [] => Ok ref
  | (key, v) :: l =>
      match ParseMailMetaKey key, iter_value v with
      | Some _, Ok val =>
          match unmarshal val with
          | Err e => Err (Wrap ("unmarshaling mail meta at " +:+ quote key) e)
          | Ok meta => mail_entries l (meta_refs meta ref)
          end
      | _, _ => mail_entries l ref
      end
  end.
Fixpoint queue_entries (l : list (string * result string)) (ref : gset string) : result (gset string) :=
  match l with
  | [] => Ok ref
  | (key, v) :: l =>
      match iter_value v with
      | Ok val =>
          match unmarshal val with
          | Err e => Err (Wrap ("unmarshaling queue entry at " +:+ quote key) e)
          | Ok msg => queue_entries l (out_refs msg ref)
          end
      | Err _ => queue_entries l ref
      end
  end.
(** A scan of one prefix: the iterator, its entries, its closing. *)
Definition scan_prefix (prefix opening closing : string)
    (entries : list (string * result string) -> gset string -> result (gset string)) (ref : gset string) (d : DB) : result (gset string) :=
  let? l := wrapf opening (PrefixScan d prefix) in
  let? ref := entries l ref in
  match db_close d prefix (prefixUpperBound prefix) with Some e => Err (Wrap closing e) | None => Ok ref end.
Definition scan_mail : gset string -> DB -> result (gset string) := scan_prefix "/user/" "scanning mail" "closing mail iterator" mail_entries.
Definition scan_queue (prefix : string) : gset string -> DB -> result (gset string) :=
  scan_prefix prefix ("scanning " +:+ prefix) "closing queue iterator" queue_entries.

Definition on_db {A : Type} (f : DB -> A) : prog W A := call (fun _ w => (w, f (gc_db w))).
Definition on_spool {A : Type} (m : GoM Spool A) : prog W (result A) :=
  call (fun _ w => let r := m (gc_spool w) in (mkGC (gc_leads w) (gc_db w) r.1 (gc_blobs w), r.2)).
Definition on_blobs {A : Type} (p : prog BlobFS A) : prog W A :=
  plift gc_blobs (fun b w => mkGC (gc_leads w) (gc_db w) (gc_spool w) b) p.
Definition time_Now : prog W Z := call (fun now w => (w, now)).

(** [SpoolStore.List], call by call (Spool.ListSpool is the uninterrupted run). *)
Fixpoint spool_read_all (dir : string) (l : list string) : prog W (result (list QueueEnvelope)) :=
  match l with
  | [] => Done (Ok [])
  | name :: l =>
      if negb (isEnvelopeFile name) then spool_read_all dir l else
      do r <- on_spool (gwrap ("spool: list read " +:+ dir +:+ "/" +:+ id_of name) (ReadEnvelope dir (id_of name)));
      match r with
      | Err e => Done (Err e)
      | Ok env => do rest <- spool_read_all dir l; Done (let? rest := rest in Ok (env :: rest))
      end
  end.
Definition spool_List (dir : string) : prog W (result (list QueueEnvelope)) :=
  do r <- on_spool (gwrap ("spool: list " +:+ dir) (ReadDir dir));
  match r with Err e => Done (Err e) | Ok entries => spool_read_all dir entries end.

Definition add_envs (envs : list QueueEnvelope) (ref : gset string) : gset string := foldl (fun ref env => add_hash (qe_BlobHash env) ref) ref envs.
Fixpoint scan_dirs (pass : string) (dirs : list string) (ref : gset string) : prog W (result (gset string)) :=
  match dirs with
  | [] => Done (Ok ref)
  | dir :: dirs =>
      do r <- spool_List dir;
      match r with
      | Err e => Done (Err (Wrap ("scanning spool " +:+ dir +:+ " (pass " +:+ pass +:+ " of 2)") e))
      | Ok envs => scan_dirs pass dirs (add_envs envs ref)
      end
  end.
Fixpoint scan_passes (n : nat) (ref : gset string) : prog W (result (gset string)) :=
  match n with
  | O => Done (Ok ref)
  | S n' =>
      do r <- scan_dirs (FormatInt (Z.of_nat (spoolScanPasses - n'))) spoolScanDirs ref;
      match r with Err e => Done (Err e) | Ok ref => scan_passes n' ref end
  end.
Definition collectSpoolBlobs (ref : gset string) : prog W (result (gset string)) := scan_passes spoolScanPasses ref.

Definition collectReferencedBlobs : prog W (result (gset string)) :=
  do r <- on_db (scan_mail ∅);
  match r with
  | Err e => Done (Err e)
  | Ok ref =>
      do r <- on_db (scan_queue "/queue/pending/" ref);
      match r with
      | Err e => Done (Err e)
      | Ok ref =>
          do r <- on_db (scan_queue "/queue/bounced/" ref);
          match r with
          | Err e => Done (Err e)
          | Ok ref => if hasSpool then collectSpoolBlobs ref else Done (Ok ref)
          end
      end
  end.

(** * The sweep *)

Definition planBlobSweep (referenced : gset string) (mtimes : gmap string Z) (prev : gset string) (cutoff : Z) : gset string * list string :=
  foldl (fun acc hm =>
    if bool_decide (hm.1 ∈ referenced) || (cutoff <? hm.2) then acc else
    ({[ hm.1 ]} ∪ acc.1, if bool_decide (hm.1 ∈ prev) then acc.2 ++ [hm.1] else acc.2)) (∅, []) (iterate mtimes).

Fixpoint reconfirmSweep (toDelete : list string) (fresh : gset string) : list string * list string :=
  match toDelete with
  | [] => ([], [])
  | h :: toDelete =>
      let (survivors, spared) := reconfirmSweep toDelete fresh in
      if bool_decide (h ∈ fresh) then (survivors, h :: spared) else (h :: survivors, spared)
  end.

Definition revalidateSweepCandidates (toDelete : list string) : prog W (result (list string * list string)) :=
  match toDelete with
  | [] => Done (Ok ([], []))
  | _ =>
      do r <- collectReferencedBlobs;
      Done (let? fresh := wrapf "re-validating sweep candidates" r in Ok (reconfirmSweep toDelete fresh))
  end.

(** The log line reads the size and the time of the file. *)
Definition logSweepCandidate (hash : string) : prog W unit :=
  do _ <- on_blobs (Size hash); do _ <- on_blobs (ModTime hash); Done tt.

Fixpoint delete_each (survivors : list string) (cutoff : Z) (dryRun : bool) (deleted : Z) (spared : list string) : prog W (Z * list string) :=
  match survivors with
  | [] => Done (deleted, spared)
  | h :: survivors =>
      if dryRun then
        do mt <- on_blobs (ModTime h);
        if match mt with Ok mt => cutoff <? mt | Err _ => false end
        then delete_each survivors cutoff dryRun deleted (spared ++ [h])
        else do _ <- logSweepCandidate h; delete_each survivors cutoff dryRun deleted spared
      else
        do _ <- logSweepCandidate h;
        do r <- on_blobs (DeleteIfNotModifiedSince h cutoff);
        match r with
        | Err _ => delete_each survivors cutoff dryRun deleted spared
        | Ok false => delete_each survivors cutoff dryRun deleted (spared ++ [h])
        | Ok true => delete_each survivors cutoff dryRun (deleted + 1) spared
        end
  end.
Definition deleteSweptBlobs (toDelete : list string) (cutoff : Z) (dryRun : bool) : prog W (result (Z * list string)) :=
  do r <- revalidateSweepCandidates toDelete;
  match r with
  | Err e => Done (Err (Wrap "re-validating before delete" e))
  | Ok (survivors, spared) => do res <- delete_each survivors cutoff dryRun 0 spared; Done (Ok res)
  end.

Fixpoint read_mtimes (hashes : list string) (mtimes : gmap string Z) : prog W (gmap string Z) :=
  match hashes with
  | [] => Done mtimes
  | h :: hashes =>
      do r <- on_blobs (ModTime h);
      read_mtimes hashes (match r with Ok mt => <[h := mt]> mtimes | Err _ => mtimes end)
  end.

Definition sweepOrphanedBlobs (prev : gset string) (minAge : Z) (dryRun : bool) : prog W (gset string) :=
  do leads <- call (fun _ w => (w, gc_leads w));
  if negb leads then Done ∅ else
  do r <- collectReferencedBlobs;
  match r with
  | Err _ => Done ∅
  | Ok referenced =>
      do r <- on_blobs List_blobs;
      match r with
      | Err _ => Done ∅
      | Ok hashes =>
          do mtimes <- read_mtimes hashes ∅;
          do now <- time_Now;
          let cutoff := now - minAge in
          let plan := planBlobSweep referenced mtimes prev cutoff in
          do _ <- deleteSweptBlobs plan.2 cutoff dryRun;
          Done plan.1
      end
  end.

Definition blobGCCandidatesAcrossModeChange (prev : gset string) (mode prevMode : string) : gset string :=
  if String.eqb mode prevMode then prev else ∅.

Definition blobGCPass (configured : string) (prev : gset string) (prevMode : string) (minAge : Z) : prog W (gset string * string) :=
  let mode := BlobGCMode configured in
  let prev := blobGCCandidatesAcrossModeChange prev mode prevMode in
  if String.eqb mode "off" then Done (prev, mode) else
  do current <- sweepOrphanedBlobs prev minAge (String.eqb mode "dryrun"); Done (current, mode).

End GC.
