(* ===== verification/Pipeline.v ===== *)
(** The pipeline runner: [processMessage] and the worker pool of
    [internal/pipeline/runner.go].

    A stage is a name and a function of the envelope and the message bytes;
    nothing is assumed of it.  Blob reads are the environment, one outcome per
    stage.  The state records, besides the spool, which stages were run and on
    what.  The message's time budget reaches the code only through the stages
    and a log line. *)

From S2P Require Import Prelude GoStrings Proto Envelope Spool.
From Stdlib Require Import Ascii.

Record Processor := mkProcessor {
  pr_Name : string;
  pr_Process : QueueEnvelope -> string -> result (QueueEnvelope * StageResult);
}.

Record RunState := mkRun { ru_spool : Spool; ru_log : list (string * QueueEnvelope) }.
(** A spool operation of the runner. *)
Definition on_spool {A : Type} (m : GoM Spool A) : GoM RunState A :=
  fun st => let (s', r) := m (ru_spool st) in (mkRun s' (ru_log st), r).
Definition record_run (name : string) (env : QueueEnvelope) : GoM RunState unit :=
  fun st => (mkRun (ru_spool st) (ru_log st ++ [(name, env)]), Ok tt).

Section Runner.
Context `{Codec QueueEnvelope}.
(** [ReadBlob] for the stage at a position: the bytes and what closing the
    reader reports. *)
Context (blobs : nat -> string -> result (string * option err)).

(** Move to [error/], logging a failure, and return an error. *)
Definition to_error {A : Type} (id : string) (e : err) : GoM RunState A :=
  let! _ := ignore (on_spool (Move id "processing" "error")) in
  gfail e.

(** The envelope after a stage: its result appended, its flags set. *)
Definition after_stage (name : string) (env : QueueEnvelope) (res : StageResult) : QueueEnvelope :=
  let (checkedFlag, spamFlag) := flagsForStage name in
  let flags := if checkedFlag =? 0 then qe_Flags env else SetFlag (qe_Flags env) checkedFlag in
  let bad := String.eqb (sr_Action res) "reject" || String.eqb (sr_Action res) "quarantine" in
  let flags := if (String.eqb (sr_Action res) "tag" || bad) && negb (spamFlag =? 0) then SetFlag flags spamFlag else flags in
  let flags := if bad then SetFlag flags MsgFlagQuarantined else flags in
  set_progress env flags (qe_Stages env ++ [res]) (qe_CurrentStage env).
Definition refuses (res : StageResult) : bool := String.eqb (sr_Action res) "reject" || String.eqb (sr_Action res) "quarantine".

(** [stage.Process], with the error of closing the reader joined to its own. *)
Definition run_stage (stage : Processor) (closed : option err) (data : string) (env : QueueEnvelope) : GoM RunState (QueueEnvelope * StageResult) :=
  let! _ := record_run (pr_Name stage) env in
  glift (match pr_Process stage env data, closed with
         | Ok r, None => Ok r
         | Ok _, Some e => Err e
         | Err e, _ => Err e
         end).

(** The loop over the stages from position [i].  [Some env]: every stage
    passed; [None]: quarantined. *)
Fixpoint run_stages (i : nat) (stages : list Processor) (env : QueueEnvelope) : GoM RunState (option QueueEnvelope) :=
  match stages with
  | [] => gret (Some env)
  | stage :: stages' =>
      let (checkedFlag, _) := flagsForStage (pr_Name stage) in
      if negb (checkedFlag =? 0) && HasFlag (qe_Flags env) checkedFlag then run_stages (S i) stages' env else
      match blobs i (qe_BlobHash env) with
      | Err e => to_error (qe_Id env) (Wrap "pipeline: read blob" e)
      | Ok (data, closed) => fun st =>
          let env := set_progress env (qe_Flags env) (qe_Stages env) (pr_Name stage) in
          match run_stage stage closed data env st with
          | (st', Err e) => to_error (qe_Id env) (Wrap "pipeline: stage" e) st'
          | (st', Ok (env', res)) =>
              let env'' := after_stage (pr_Name stage) env' res in
              if refuses res then
                (let! _ := ignore (on_spool (WriteEnvelope "processing" env'')) in
                 let! _ := gwrap "pipeline: move to quarantine" (on_spool (Move (qe_Id env'') "processing" "quarantine")) in
                 gret None) st'
              else
              match on_spool (WriteEnvelope "processing" env'') st' with
              | (st'', Err e) => to_error (qe_Id env'') (Wrap "pipeline: write envelope" e) st''
              | (st'', Ok _) => run_stages (S i) stages' env'' st''
              end
          end
      end
  end.

Definition processMessage (stages : list Processor) (env : QueueEnvelope) : GoM RunState unit :=
  let! out := run_stages 0 stages env in
  match out with
  | None => gret tt
  | Some env' => gwrap "pipeline: move to deliver" (on_spool (Move (qe_Id env') "processing" "deliver"))
  end.

(** * The worker pool

    [Run]: the poller takes envelopes from [incoming/] into a bounded channel;
    workers take them from the channel and process them, or, once the context
    is cancelled, hand them back.  A step is one call of the poller or of a
    worker. *)

Record Pool := mkPool { po_run : RunState; po_work : list QueueEnvelope; po_held : option QueueEnvelope; po_cancelled : bool }.

Definition hand_back (env : QueueEnvelope) (st : RunState) : RunState :=
  (ignore (on_spool (Move (qe_Id env) "processing" "incoming")) st).1.

Inductive pool_step (stages : list Processor) (depth : nat) : Pool -> Pool -> Prop :=
(** The poller dequeues an envelope, or finds none, or fails. *)
| PoolDequeue st work st' env :
    on_spool Dequeue st = (st', Ok (Some env)) ->
    pool_step stages depth (mkPool st work None false) (mkPool st' work (Some env) false)
| PoolIdle st work st' r c :
    on_spool Dequeue st = (st', r) -> (forall env, r <> Ok (Some env)) ->
    pool_step stages depth (mkPool st work None c) (mkPool st' work None c)
(** It sends what it holds when the channel has room. *)
| PoolSend st work env c :
    (length work < depth)%nat ->
    pool_step stages depth (mkPool st work (Some env) c) (mkPool st (work ++ [env]) None c)
(** The context is cancelled. *)
| PoolCancel st work held :
    pool_step stages depth (mkPool st work held false) (mkPool st work held true)
(** The poller hands back what it could not send. *)
| PoolReturn st work env :
    pool_step stages depth (mkPool st work (Some env) true) (mkPool (hand_back env st) work None true)
(** A worker processes an envelope, or hands it back. *)
| PoolWork st work env held :
    pool_step stages depth (mkPool st (env :: work) held false) (mkPool (processMessage stages env st).1 work held false)
| PoolDrain st work env held :
    pool_step stages depth (mkPool st (env :: work) held true) (mkPool (hand_back env st) work held true).
End Runner.
