(* ===== verification/PipelineThm.v ===== *)
(** Theorems on the inbound pipeline: no envelope is lost or duplicated
    whatever fails, and a run resumed after a failure repeats at most the stage
    that was in flight. *)

From S2P Require Import Prelude GoStrings Proto Envelope Spool Pipeline.
From Stdlib Require Import Ascii.

(** * Files *)

Lemma env_tmp_ne d id d' id' : env_file d id <> tmp_file d' id'.
Proof.
  unfold env_file, tmp_file. intros [= _ E]. rewrite <- str_app_assoc in E.
  apply str_app_inj_len_r in E as [_ E]; [|done]. done.
Qed.
Lemma env_file_inj d id d' id' : env_file d id = env_file d' id' -> d = d' /\ id = id'.
Proof. unfold env_file. intros [= -> E]. apply str_app_inj_len_r in E as [-> _]; done. Qed.

(** * System calls *)

(** The files after a call: those before, or what the call says. *)
Section Calls.
Implicit Types (s : Spool).

Lemma Rename_spec src dst s s' r : Rename src dst s = (s', r) ->
  match r with
  | Ok _ => exists v, sp_files s !! src = Some v /\ sp_files s' = <[dst := v]> (delete src (sp_files s))
  | Err _ => sp_files s' = sp_files s
  end.
Proof.
  unfold Rename, sys. destruct (sp_faults s (sp_calls s)) as [[e n]|]; [by intros [= <- <-]|].
  destruct (sp_files s !! src) as [v|] eqn:E; intros [= <- <-]; [by exists v|done].
Qed.
Lemma ReadDir_files d s s' r : ReadDir d s = (s', r) ->
  sp_files s' = sp_files s /\ forall l, r = Ok l -> l = names d (sp_files s).
Proof. unfold ReadDir, sys. destruct (sp_faults s (sp_calls s)) as [[e n]|]; intros [= <- <-]; split; try done. by intros l [= <-]. Qed.
Lemma ReadFile_files p s s' r : ReadFile p s = (s', r) ->
  sp_files s' = sp_files s /\ forall v, r = Ok v -> sp_files s !! p = Some v.
Proof.
  unfold ReadFile, sys. destruct (sp_faults s (sp_calls s)) as [[e n]|]; intros [= <- <-]; split; try done.
  intros v ?%of_option_Ok. done.
Qed.
Lemma WriteFile_spec p data s s' r : WriteFile p data s = (s', r) ->
  (forall q, q <> p -> sp_files s' !! q = sp_files s !! q) /\ (is_ok r = true -> sp_files s' !! p = Some data).
Proof.
  unfold WriteFile, sys. destruct (sp_faults s (sp_calls s)) as [[e n]|]; intros [= <- <-]; cbn; split; try done.
  - intros q Hq. by rewrite lookup_insert_ne.
  - intros q Hq. by rewrite lookup_insert_ne.
  - by rewrite lookup_insert_eq.
Qed.
Lemma os_Remove_spec p s : forall q, q <> p -> sp_files (os_Remove p s).1 !! q = sp_files s !! q.
Proof.
  intros q Hq. unfold os_Remove, sys. destruct (sp_faults s (sp_calls s)) as [[e n]|]; [done|].
  destruct (sp_files s !! p); [|done]. cbn. by rewrite lookup_delete_ne.
Qed.
End Calls.

Section Spool.
Context `{ProtoLaws QueueEnvelope}.
Implicit Types (s : Spool) (fs : gmap file string) (env : QueueEnvelope).

(** [WriteEnvelope] replaces the envelope whole, or leaves it as it was. *)
Lemma WriteEnvelope_spec dir env s s' r : WriteEnvelope dir env s = (s', r) ->
  (forall q, q <> tmp_file dir (qe_Id env) -> q <> env_file dir (qe_Id env) -> sp_files s' !! q = sp_files s !! q) /\
  match r with
  | Ok _ => exists v, sp_files s' !! env_file dir (qe_Id env) = Some v /\ unmarshal v = Ok env
  | Err _ => sp_files s' !! env_file dir (qe_Id env) = sp_files s !! env_file dir (qe_Id env)
  end.
Proof.
  unfold WriteEnvelope. unfold gbind at 1, glift. destruct (marshal env) as [data|e] eqn:Em; cbn [wrapf]; [|by intros [= <- <-]].
  unfold gbind, gwrap. destruct (WriteFile _ data s) as [s1 r1] eqn:Ew. apply WriteFile_spec in Ew as [Hw Hok].
  pose proof (env_tmp_ne dir (qe_Id env) dir (qe_Id env)) as Hne.
  destruct r1 as [u|e]; cbn [wrapf]; [|intros [= <- <-]; split; [by intros; apply Hw|by apply Hw]].
  destruct (Rename _ _ s1) as [s2 r2] eqn:Er. apply Rename_spec in Er. specialize (Hok eq_refl). destruct r2 as [u2|e2].
  - destruct Er as (v&Hv&Hf). assert (v = data) as -> by congruence. intros [= <- <-]. rewrite Hf. split.
    + intros q Hq1 Hq2. rewrite lookup_insert_ne, lookup_delete_ne by done. by apply Hw.
    + exists data. rewrite lookup_insert_eq. split; [done|]. by apply proto_roundtrip.
  - intros [= <- <-]. split.
    + intros q Hq1 Hq2. rewrite os_Remove_spec, Er by done. by apply Hw.
    + rewrite os_Remove_spec, Er by done. by apply Hw.
Qed.

Lemma Move_spec id from to s s' r : Move id from to s = (s', r) ->
  match r with
  | Ok _ => exists v, sp_files s !! env_file from id = Some v /\ sp_files s' = <[env_file to id := v]> (delete (env_file from id) (sp_files s))
  | Err _ => sp_files s' = sp_files s
  end.
Proof.
  unfold Move, gwrap. destruct (Rename _ _ s) as [s1 r1] eqn:E. apply Rename_spec in E. intros [= <- <-]. by destruct r1.
Qed.
End Spool.

(** * Which stages remain *)

Definition checked_flag (p : Processor) : Z := (flagsForStage (pr_Name p)).1.
(** The stages the runner knows a flag for. *)
Definition flagged (p : Processor) : Prop := checked_flag p <> 0.
Definition unchecked (env : QueueEnvelope) (p : Processor) : bool :=
  negb (negb (checked_flag p =? 0) && HasFlag (qe_Flags env) (checked_flag p)).
Definition remaining (env : QueueEnvelope) (stages : list Processor) : list Processor := List.filter (unchecked env) stages.

Lemma HasFlag_bit f k : 0 <= k -> HasFlag f (2 ^ k) = Z.testbit f k.
Proof.
  intros Hk. unfold HasFlag. destruct (Z.testbit f k) eqn:E.
  - apply negb_true_iff, Z.eqb_neq. intros E0. apply (f_equal (fun z => Z.testbit z k)) in E0.
    rewrite Z.land_spec, E, Z.pow2_bits_true, Z.bits_0 in E0 by done. done.
  - apply negb_false_iff, Z.eqb_eq. apply Z.bits_inj'. intros i Hi. rewrite Z.land_spec, Z.bits_0.
    destruct (Z.eq_dec k i) as [->|]; [by rewrite E|]. rewrite Z.pow2_bits_false by done. apply andb_false_r.
Qed.

(** The bit of a flagged stage, and that it tells the stages apart. *)
Definition stage_bit (name : string) : option Z :=
  if String.eqb name "antispam" then Some 0 else if String.eqb name "antivirus" then Some 1
  else if String.eqb name "rules" then Some 2 else if String.eqb name "deliver" then Some 6 else None.
Lemma flagged_bit p : flagged p -> exists k, stage_bit (pr_Name p) = Some k /\ checked_flag p = 2 ^ k /\ (k = 0 \/ k = 1 \/ k = 2 \/ k = 6).
Proof.
  unfold flagged, checked_flag, flagsForStage, stage_bit. repeat case_match; cbn; try done; intros _; eexists; (split; [done|]); split; try done; lia.
Qed.
Lemma stage_bit_inj n n' k : stage_bit n = Some k -> stage_bit n' = Some k -> n = n'.
Proof.
  unfold stage_bit. repeat case_match; intros [= <-] [= ]; try done;
    repeat match goal with E : String.eqb _ _ = true |- _ => apply String.eqb_eq in E as -> end; try done.
Qed.
Lemma unchecked_bit env p k : stage_bit (pr_Name p) = Some k -> unchecked env p = negb (Z.testbit (qe_Flags env) k).
Proof.
  unfold unchecked, checked_flag, stage_bit, flagsForStage. intros Hk. rewrite <- HasFlag_bit by (repeat case_match; simplify_eq; lia).
  repeat case_match; simplify_eq; done.
Qed.

Lemma testbit_set f fl k j : fl = 2 ^ j -> 0 <= j -> k <> j -> Z.testbit (SetFlag f fl) k = Z.testbit f k.
Proof. intros -> Hj Hk. unfold SetFlag. rewrite Z.lor_spec, Z.pow2_bits_false by done. apply orb_false_r. Qed.
Lemma testbit_set_eq f fl k : fl = 2 ^ k -> 0 <= k -> Z.testbit (SetFlag f fl) k = true.
Proof. intros -> Hk. unfold SetFlag. rewrite Z.lor_spec, Z.pow2_bits_true by done. apply orb_true_r. Qed.

(** A stage sets its own bit and no other stage's. *)
Lemma after_stage_bit name env res k j :
  stage_bit name = Some k -> (j = 0 \/ j = 1 \/ j = 2 \/ j = 6) ->
  Z.testbit (qe_Flags (after_stage name env res)) j = if decide (j = k) then true else Z.testbit (qe_Flags env) j.
Proof.
  intros Hk Hj. unfold after_stage.
  assert (Hcase : exists c sp, flagsForStage name = (c, sp) /\ c = 2 ^ k /\ 0 <= k /\ (sp = 0 \/ sp = 2 ^ 3 \/ sp = 2 ^ 4) /\ (k = 0 \/ k = 1 \/ k = 2 \/ k = 6)).
  { unfold stage_bit, flagsForStage in *. repeat case_match; simplify_eq; eexists _, _; (split; [done|]); split_and!; try done; try lia; auto. }
  destruct Hcase as (c&sp&->&Hc&Hk0&Hsp&Hk1). cbn [qe_Flags set_progress].
  assert ((c =? 0) = false) as -> by (apply Z.eqb_neq; rewrite Hc; lia).
  assert (Hin : Z.testbit (SetFlag (qe_Flags env) c) j = if decide (j = k) then true else Z.testbit (qe_Flags env) j).
  { case_decide as Hjk; [subst j; by apply testbit_set_eq|]. by eapply testbit_set. }
  rewrite <- Hin. set (f := SetFlag (qe_Flags env) c). generalize (String.eqb (sr_Action res) "tag" || (String.eqb (sr_Action res) "reject" || String.eqb (sr_Action res) "quarantine")).
  generalize (String.eqb (sr_Action res) "reject" || String.eqb (sr_Action res) "quarantine"). intros bad tagged.
  assert (Hq : forall f0, Z.testbit (SetFlag f0 MsgFlagQuarantined) j = Z.testbit f0 j) by (intros f0; apply (testbit_set f0 _ j 5); [done|lia..]).
  assert (Hs : Z.testbit (if tagged && negb (sp =? 0) then SetFlag f sp else f) j = Z.testbit f j).
  { destruct (tagged && negb (sp =? 0)) eqn:E; [|done]. apply andb_true_iff in E as [_ E]. destruct Hsp as [-> | [-> | ->]]; [done| |].
    - apply (testbit_set f _ j 3); [done|lia..].
    - apply (testbit_set f _ j 4); [done|lia..]. }
  destruct bad; [by rewrite Hq|done].
Qed.

Lemma unchecked_after p0 env res p : flagged p0 -> flagged p ->
  unchecked (after_stage (pr_Name p0) env res) p = if decide (pr_Name p = pr_Name p0) then false else unchecked env p.
Proof.
  intros (k0&Hk0&_&_)%flagged_bit (k&Hk&_&Hj)%flagged_bit.
  rewrite (unchecked_bit _ p k Hk), (unchecked_bit _ p k Hk), (after_stage_bit _ _ _ k0 k Hk0 Hj).
  destruct (decide (pr_Name p = pr_Name p0)) as [E|E], (decide (k = k0)) as [E'|E']; try done.
  - exfalso. apply E'. rewrite E in Hk. congruence.
  - exfalso. apply E. subst k0. by eapply stage_bit_inj.
Qed.
Lemma unchecked_flags env env' p : qe_Flags env = qe_Flags env' -> unchecked env p = unchecked env' p.
Proof. unfold unchecked. by intros ->. Qed.
Lemma remaining_flags env env' l : qe_Flags env = qe_Flags env' -> remaining env l = remaining env' l.
Proof. intros E. unfold remaining. apply filter_ext. intros p. by apply unchecked_flags. Qed.
Lemma remaining_after p0 env res l : flagged p0 -> Forall flagged l -> pr_Name p0 ∉ (pr_Name <$> l) ->
  remaining (after_stage (pr_Name p0) env res) l = remaining env l.
Proof.
  intros H0 Hl Hn. unfold remaining. induction Hl as [|p l Hp Hl IH]; [done|]. cbn in *. apply not_elem_of_cons in Hn as [Hn1 Hn2].
  rewrite unchecked_after by done. rewrite decide_False by congruence. by rewrite IH.
Qed.

(** * One run of the stages *)

(** Stages change neither the envelope's identity nor the runner's flags. *)
Definition tame (p : Processor) : Prop :=
  forall env data env' res, pr_Process p env data = Ok (env', res) -> qe_Id env' = qe_Id env /\ qe_Flags env' = qe_Flags env.

Section Run.
Context `{ProtoLaws QueueEnvelope}.
Context (blobs : nat -> string -> result (string * option err)).
Implicit Types (st : RunState) (fs : gmap file string) (env : QueueEnvelope).

Definition ru_files st : gmap file string := sp_files (ru_spool st).
Definition owned (id : string) (p : file) : Prop := p = tmp_file "processing" id \/ exists d, p = env_file d id.
(** The envelope [id] is in directory [d], and in no other. *)
Definition placed fs (d id : string) env : Prop :=
  (exists v, fs !! env_file d id = Some v /\ unmarshal v = Ok env) /\ qe_Id env = id /\ forall d', d' <> d -> fs !! env_file d' id = None.
Definition frame (id : string) fs fs' : Prop := forall p, ~ owned id p -> fs' !! p = fs !! p.

Lemma frame_refl id fs : frame id fs fs.
Proof. done. Qed.
Lemma frame_trans id fs1 fs2 fs3 : frame id fs1 fs2 -> frame id fs2 fs3 -> frame id fs1 fs3.
Proof. intros H1 H2 p Hp. by rewrite H2, H1. Qed.

Lemma on_spool_spec {A : Type} (m : GoM Spool A) st st' r :
  on_spool m st = (st', r) -> m (ru_spool st) = (ru_spool st', r) /\ ru_log st' = ru_log st.
Proof. unfold on_spool. destruct (m (ru_spool st)) as [s1 r1]. by intros [= <- <-]. Qed.

(** A move from [processing/] keeps the envelope in one place. *)
Lemma placed_move to st st' r id env : to <> "processing" ->
  on_spool (Move id "processing" to) st = (st', r) -> placed (ru_files st) "processing" id env ->
  frame id (ru_files st) (ru_files st') /\ ru_log st' = ru_log st /\
  placed (ru_files st') (if is_ok r then to else "processing") id env.
Proof.
  intros Hto (Hm&Hlog)%on_spool_spec ((v&Hv&Hu)&Hid&Hno). apply Move_spec in Hm. unfold ru_files in *.
  destruct r as [u|e]; cbn [is_ok].
  - destruct Hm as (w&Hw&->). assert (w = v) as -> by congruence. split_and!; [|done|].
    + intros p Hp. rewrite lookup_insert_ne, lookup_delete_ne; [done|..]; intros <-; apply Hp; right; eauto.
    + split; [exists v; by rewrite lookup_insert_eq|]. split; [done|]. intros d' Hd'.
      rewrite lookup_insert_ne by (intros [? _]%env_file_inj; congruence).
      destruct (decide (d' = "processing")) as [->|Hne]; [by rewrite lookup_delete_eq|].
      rewrite lookup_delete_ne by (intros [? _]%env_file_inj; congruence). by apply Hno.
  - rewrite Hm. split_and!; [done|done|]. split; [eauto|done].
Qed.

(** Writing the envelope back keeps it in one place, as it was or as written. *)
Lemma placed_write st st' r env env0 :
  on_spool (WriteEnvelope "processing" env) st = (st', r) -> placed (ru_files st) "processing" (qe_Id env) env0 ->
  frame (qe_Id env) (ru_files st) (ru_files st') /\ ru_log st' = ru_log st /\
  placed (ru_files st') "processing" (qe_Id env) (if is_ok r then env else env0).
Proof.
  intros (Hw&Hlog)%on_spool_spec ((v&Hv&Hu)&Hid&Hno). apply WriteEnvelope_spec in Hw as [Hoth Hown]. unfold ru_files in *. split_and!; [|done|].
  - intros p Hp. apply Hoth; intros ->; apply Hp; [by left|right; eauto].
  - split_and!.
    + destruct r as [u|e]; cbn [is_ok]; [done|]. exists v. by rewrite Hown.
    + by destruct (is_ok r).
    + intros d' Hd'. rewrite Hoth; [by apply Hno|apply env_tmp_ne|]. intros [? _]%env_file_inj. congruence.
Qed.

Lemma to_error_spec {A : Type} id e st st' (r : result A) env0 :
  to_error id e st = (st', r) -> placed (ru_files st) "processing" id env0 ->
  is_ok r = false /\ frame id (ru_files st) (ru_files st') /\ ru_log st' = ru_log st /\
  exists d, (d = "processing" \/ d = "error") /\ placed (ru_files st') d id env0.
Proof.
  unfold to_error, gbind, ignore, gfail. destruct (on_spool _ st) as [st1 r1] eqn:E. intros [= <- <-] Hp.
  destruct (placed_move "error" st st1 r1 id env0 ltac:(done) E Hp) as (Hf&Hl&Hp'). split_and!; [done..|].
  destruct (is_ok r1); eauto.
Qed.

(** How far a run got: it ran a first part of the stages that remained, in
    order; the envelope on disk says so, but for the last of them, perhaps. *)
Definition progress (stages : list Processor) env (ran : list (string * QueueEnvelope)) env_d : Prop :=
  exists done rest, remaining env stages = done ++ rest /\ remaining env_d stages = rest /\
    (ran.*1 = pr_Name <$> done \/ exists x rest', rest = x :: rest' /\ ran.*1 = (pr_Name <$> done) ++ [pr_Name x]).
Definition checked_keeps env env' : Prop := forall p, flagged p -> unchecked env p = false -> unchecked env' p = false.
Definition outcome_at (stages : list Processor) (id : string) (r : result (option QueueEnvelope)) (d : string) env_d : Prop :=
  match r with
  | Ok (Some env') => d = "processing" /\ qe_Id env' = id /\ remaining env_d stages = []
  | Ok None => d = "quarantine"
  | Err _ => d = "processing" \/ d = "error"
  end.
Definition run_spec (stages : list Processor) env st st' (r : result (option QueueEnvelope)) : Prop :=
  frame (qe_Id env) (ru_files st) (ru_files st') /\
  exists d env_d ran, placed (ru_files st') d (qe_Id env) env_d /\ ru_log st' = ru_log st ++ ran /\
    checked_keeps env env_d /\ progress stages env ran env_d /\ outcome_at stages (qe_Id env) r d env_d.

Lemma checked_keeps_flags env env' : qe_Flags env = qe_Flags env' -> checked_keeps env env'.
Proof. intros E p _. by rewrite (unchecked_flags env env' p E). Qed.
Lemma progress_none stages env env_d : qe_Flags env_d = qe_Flags env -> progress stages env [] env_d.
Proof. intros E. exists [], (remaining env stages). split_and!; [done|by apply remaining_flags|by left]. Qed.
Lemma progress_in_flight stage stages env env_d x : unchecked env stage = true -> qe_Flags env_d = qe_Flags env ->
  progress (stage :: stages) env [(pr_Name stage, x)] env_d.
Proof.
  intros Hu E. exists [], (remaining env (stage :: stages)). split_and!; [done|by apply remaining_flags|].
  right. exists stage, (remaining env stages). split; [|done]. unfold remaining. cbn. by rewrite Hu.
Qed.

Section Step.
Context (stage : Processor) (stages : list Processor) (Hfl : flagged stage) (Hfls : Forall flagged stages).
Context (Hnew : pr_Name stage ∉ (pr_Name <$> stages)).

Lemma checked_after env res : unchecked (after_stage (pr_Name stage) env res) stage = false.
Proof. rewrite unchecked_after by done. by rewrite decide_True. Qed.
Lemma keeps_after env res : checked_keeps env (after_stage (pr_Name stage) env res).
Proof. intros p Hp Hc. rewrite unchecked_after by done. by destruct (decide _). Qed.
(** A stage done, then the rest. *)
Lemma progress_cons env res ran env_d x : unchecked env stage = true ->
  checked_keeps (after_stage (pr_Name stage) env res) env_d ->
  progress stages (after_stage (pr_Name stage) env res) ran env_d -> progress (stage :: stages) env ((pr_Name stage, x) :: ran) env_d.
Proof.
  intros Hu Hk (dn&rest&Hr&Hd&Hran). rewrite remaining_after in Hr by done. exists (stage :: dn), rest. split_and!.
  - unfold remaining in *. cbn. by rewrite Hu, Hr.
  - unfold remaining in *. cbn. by rewrite (Hk stage Hfl (checked_after env res)).
  - cbn. destruct Hran as [-> | (y&rest'&->&->)]; [by left|right]. by exists y, rest'.
Qed.
Lemma progress_skip env ran env_d : unchecked env stage = false -> checked_keeps env env_d ->
  progress stages env ran env_d -> progress (stage :: stages) env ran env_d.
Proof.
  intros Hu Hk (dn&rest&Hr&Hd&Hran). exists dn, rest. unfold remaining in *. cbn. rewrite Hu, (Hk stage Hfl Hu). done.
Qed.
Lemma outcome_skip id r d env_d : unchecked env_d stage = false -> outcome_at stages id r d env_d -> outcome_at (stage :: stages) id r d env_d.
Proof. intros Hu. destruct r as [[env'|]|e]; cbn; [|done..]. unfold remaining. cbn. by rewrite Hu. Qed.
End Step.

Lemma stage_skipped stage env :
  (let (checkedFlag, _) := flagsForStage (pr_Name stage) in negb (checkedFlag =? 0) && HasFlag (qe_Flags env) checkedFlag) = negb (unchecked env stage).
Proof. unfold unchecked, checked_flag. destruct (flagsForStage (pr_Name stage)). by rewrite negb_involutive. Qed.

(** A run that ends in [error/] or stays: nothing more was done. *)
Lemma run_spec_error stages env st st1 st' (r : result (option QueueEnvelope)) e ran env0 :
  placed (ru_files st1) "processing" (qe_Id env) env0 -> frame (qe_Id env) (ru_files st) (ru_files st1) -> ru_log st1 = ru_log st ++ ran ->
  qe_Flags env0 = qe_Flags env -> progress stages env ran env0 ->
  to_error (qe_Id env) e st1 = (st', r) -> run_spec stages env st st' r.
Proof.
  intros Hp Hf Hl Hfl Hpr Ht. destruct (to_error_spec _ _ _ _ _ _ Ht Hp) as (Hr&Hf'&Hl'&d&Hd&Hp').
  split; [by eapply frame_trans|]. exists d, env0, ran. split_and!; [done|congruence|by apply checked_keeps_flags|done|]. by destruct r as [[]|].
Qed.

(** The end of a run at a stage that refuses the message. *)
Lemma run_spec_refused stage stages env st st1 st' r env' res env0 x :
  flagged stage -> Forall flagged stages -> pr_Name stage ∉ (pr_Name <$> stages) -> unchecked env stage = true ->
  qe_Id env' = qe_Id env -> qe_Flags env' = qe_Flags env -> qe_Flags env0 = qe_Flags env ->
  ru_files st1 = ru_files st -> ru_log st1 = ru_log st ++ [(pr_Name stage, x)] -> placed (ru_files st) "processing" (qe_Id env) env0 ->
  (let! _ := ignore (on_spool (WriteEnvelope "processing" (after_stage (pr_Name stage) env' res))) in
   let! _ := gwrap "pipeline: move to quarantine" (on_spool (Move (qe_Id (after_stage (pr_Name stage) env' res)) "processing" "quarantine")) in
   gret None) st1 = (st', r) ->
  run_spec (stage :: stages) env st st' r.
Proof.
  intros Hfl Hfls Hnew Hu Hid Hfg Hfg0 Hfiles Hlog Hp. set (env'' := after_stage (pr_Name stage) env' res).
  assert (Hid'' : qe_Id env'' = qe_Id env) by (unfold env'', after_stage; by destruct (flagsForStage _)). rewrite Hid''.
  unfold gbind at 1, ignore. destruct (on_spool (WriteEnvelope _ _) st1) as [st2 r2] eqn:Ew. cbn [fst].
  rewrite <- Hid'', <- Hfiles in Hp. destruct (placed_write _ _ _ _ _ Ew Hp) as (Hf2&Hl2&Hp2). rewrite Hid'' in *.
  unfold gbind, gwrap, gret. destruct (on_spool (Move _ _ _) st2) as [st3 r3] eqn:Em.
  destruct (placed_move "quarantine" _ _ _ _ _ ltac:(done) Em Hp2) as (Hf3&Hl3&Hp3). intros Hrun.
  assert (Hst : st' = st3 /\ (r = Ok None /\ is_ok r3 = true \/ is_ok r = false /\ is_ok r3 = false)).
  { destruct r3; injection Hrun as <- <-; auto. }
  destruct Hst as [-> Hr]. split; [rewrite <- Hfiles; by eapply frame_trans|].
  exists (if is_ok r3 then "quarantine" else "processing"), (if is_ok r2 then env'' else env0), [(pr_Name stage, x)]. split_and!.
  - done.
  - congruence.
  - destruct (is_ok r2); [|by apply checked_keeps_flags]. intros p Hpf Hc. unfold env''. apply keeps_after; [done..|]. by rewrite (unchecked_flags env' env).
  - destruct (is_ok r2).
    + apply (progress_cons stage stages Hfl Hfls Hnew env res [] env'' x Hu); unfold env''.
      * apply checked_keeps_flags. unfold after_stage. destruct (flagsForStage _). cbn. by rewrite Hfg.
      * apply progress_none. unfold after_stage. destruct (flagsForStage _). cbn. by rewrite Hfg.
    + by apply progress_in_flight.
  - destruct Hr as [[-> ->]|[Hr ->]]; [done|]. destruct r as [|]; [done|]. by left.
Qed.

Lemma run_stages_spec stages i env st st' r env0 :
  Forall flagged stages -> Forall tame stages -> NoDup (pr_Name <$> stages) ->
  qe_Flags env0 = qe_Flags env -> placed (ru_files st) "processing" (qe_Id env) env0 ->
  run_stages blobs i stages env st = (st', r) -> run_spec stages env st st' r.
Proof.
  intros Hfl Ht Hnd. revert i env st env0. induction stages as [|stage stages IH]; intros i env st env0 Hfg Hp.
  { intros [= <- <-]. split; [done|]. exists "processing", env0, []. split_and!; [done|by rewrite app_nil_r|by apply checked_keeps_flags|by apply progress_none|done]. }
  apply Forall_cons in Hfl as [Hf1 Hfl]. apply Forall_cons in Ht as [Ht1 Ht]. apply NoDup_cons in Hnd as [Hnew Hnd].
  cbn [run_stages]. pose proof (stage_skipped stage env) as Hskip. destruct (flagsForStage (pr_Name stage)) as [c sp] eqn:Ec. rewrite Hskip.
  destruct (unchecked env stage) eqn:Hu; cbn [negb].
  2: { intros Hr. destruct (IH Hfl Ht Hnd _ _ _ env0 Hfg Hp Hr) as (Hf&d&env_d&ran&Hpl&Hlog&Hk&Hpr&Ho).
       split; [done|]. exists d, env_d, ran. split_and!; [done..|by apply progress_skip|]. apply outcome_skip; [by apply Hk|done]. }
  destruct (blobs i (qe_BlobHash env)) as [[data closed]|e]; [|intros Hr; eapply run_spec_error; [exact Hp|done|by rewrite app_nil_r|done|by apply progress_none|exact Hr]].
  set (env1 := set_progress _ _ _ _). unfold run_stage, gbind, record_run, glift.
  set (st1 := mkRun (ru_spool st) _). assert (Hfiles : ru_files st1 = ru_files st) by done.
  destruct (pr_Process stage env1 data) as [[env' res]|e] eqn:Epr.
  2: { intros Hr. eapply (run_spec_error _ env); [|by rewrite Hfiles|done|exact Hfg|by apply progress_in_flight|exact Hr]. by rewrite Hfiles. }
  destruct (Ht1 _ _ _ _ Epr) as [Hid' Hfg']. change (qe_Id env1) with (qe_Id env) in *. change (qe_Flags env1) with (qe_Flags env) in Hfg'.
  destruct closed as [e|].
  { intros Hr. eapply (run_spec_error _ env); [|by rewrite Hfiles|done|exact Hfg|by apply progress_in_flight|exact Hr]. by rewrite Hfiles. }
  destruct (refuses res); [intros Hr; by apply (run_spec_refused stage stages env st st1 st' r env' res env0 env1)|].
  set (env'' := after_stage (pr_Name stage) env' res).
  assert (Hid'' : qe_Id env'' = qe_Id env) by (unfold env'', after_stage; rewrite Ec; done).
  destruct (on_spool (WriteEnvelope "processing" env'') st1) as [st2 r2] eqn:Ew.
  assert (Hp1 : placed (ru_files st1) "processing" (qe_Id env'') env0) by by rewrite Hid''.
  destruct (placed_write _ _ _ _ _ Ew Hp1) as (Hf2&Hl2&Hp2). rewrite Hid'' in Hf2. destruct r2 as [u|e]; cbn [is_ok] in Hp2.
  - intros Hr. destruct (IH Hfl Ht Hnd _ _ _ env'' eq_refl Hp2 Hr) as (Hf&d&env_d&ran&Hpl&Hlog&Hk&Hpr&Ho). rewrite Hid'' in *.
    assert (Hk1 : checked_keeps (after_stage (pr_Name stage) env res) env_d).
    { intros q Hq Hc. apply Hk; [done|]. unfold env''. rewrite unchecked_after in Hc |- * by done. destruct (decide _); [done|].
      by rewrite (unchecked_flags env' env). }
    split; [by eapply frame_trans|]. exists d, env_d, ((pr_Name stage, env1) :: ran). split_and!.
    + done.
    + rewrite Hlog, Hl2. cbn. by rewrite <- app_assoc.
    + intros q Hq Hc. apply Hk1; [done|]. by apply keeps_after.
    + eapply (progress_cons stage stages Hf1 Hfl Hnew env res ran env_d env1 Hu Hk1).
      destruct Hpr as (dn&rest&Hr1&Hr2&Hr3). exists dn, rest. split_and!; [|done..]. rewrite <- Hr1. unfold env''. rewrite !remaining_after by done.
      by apply remaining_flags.
    + apply outcome_skip; [|done]. apply Hk1; [done|]. by apply checked_after.
  - intros Hr. rewrite Hid'' in *. eapply (run_spec_error _ env); [exact Hp2|exact Hf2|by rewrite Hl2|done|by apply progress_in_flight|exact Hr].
Qed.

Lemma processMessage_spec stages env st st' r env0 :
  Forall flagged stages -> Forall tame stages -> NoDup (pr_Name <$> stages) ->
  qe_Flags env0 = qe_Flags env -> placed (ru_files st) "processing" (qe_Id env) env0 ->
  processMessage blobs stages env st = (st', r) ->
  frame (qe_Id env) (ru_files st) (ru_files st') /\
  exists d env_d ran, placed (ru_files st') d (qe_Id env) env_d /\ ru_log st' = ru_log st ++ ran /\ progress stages env ran env_d /\
    d ∈ ["processing"; "deliver"; "quarantine"; "error"] /\ (d = "deliver" -> remaining env_d stages = []).
Proof.
  intros Hfl Ht Hnd Hfg Hp. unfold processMessage, gbind. destruct (run_stages blobs 0 stages env st) as [st1 r1] eqn:E.
  destruct (run_stages_spec _ _ _ _ _ _ _ Hfl Ht Hnd Hfg Hp E) as (Hf&d&env_d&ran&Hpl&Hlog&_&Hpr&Ho).
  destruct r1 as [[env'|]|e]; cbn in Ho.
  - destruct Ho as (->&Hid&Hrem). unfold gwrap. rewrite Hid. destruct (on_spool (Move _ _ _) st1) as [st2 r2] eqn:Em. intros [= <- <-].
    destruct (placed_move "deliver" _ _ _ _ _ ltac:(done) Em Hpl) as (Hf2&Hl2&Hp2). split; [by eapply frame_trans|].
    exists (if is_ok r2 then "deliver" else "processing"), env_d, ran. split_and!; [done|congruence|done| |done]. destruct (is_ok r2); set_solver.
  - subst d. intros [= <- <-]. split; [done|]. exists "quarantine", env_d, ran. split_and!; [done..|set_solver|done].
  - intros [= <- <-]. split; [done|]. exists d, env_d, ran. split_and!; [done..| |].
    + destruct Ho as [-> | ->]; set_solver.
    + by destruct Ho as [-> | ->].
Qed.

(** A failed or interrupted run is resumed where it stopped.  Whatever
    system call fails, and at whatever point the process dies, the envelope is
    then in exactly one directory and no other file has changed; the stages
    that ran are a first part of those that remained, in order; and the
    envelope on disk records them all, except possibly the last, so that at
    most the stage in flight is run again.  It is in [deliver/] only when no
    stage remains. *)
Theorem resumed_run_repeats_one_stage_at_most stages env st st' r :
  Forall flagged stages -> Forall tame stages -> NoDup (pr_Name <$> stages) ->
  placed (ru_files st) "processing" (qe_Id env) env ->
  processMessage blobs stages env st = (st', r) ->
  frame (qe_Id env) (ru_files st) (ru_files st') /\
  exists d env_d ran, placed (ru_files st') d (qe_Id env) env_d /\ ru_log st' = ru_log st ++ ran /\ progress stages env ran env_d /\
    d ∈ ["processing"; "deliver"; "quarantine"; "error"] /\ (d = "deliver" -> remaining env_d stages = []).
Proof. intros Hfl Ht Hnd Hp. by eapply processMessage_spec. Qed.
End Run.

(** * Evaluation *)

Section Demo.
Definition envelope_codec : Codec QueueEnvelope := tagged_codec "E".
Definition envelope_laws : @ProtoLaws QueueEnvelope envelope_codec := tagged_proto "E".
#[local] Existing Instances envelope_codec envelope_laws.

Definition verdict (stage action : string) : StageResult := mkStage stage "builtin" action 0 [] 0 0 "".
Definition stage_with (name action : string) : Processor := mkProcessor name (fun env _ => Ok (env, verdict name action)).
Definition demo_env : QueueEnvelope := mkEnvelope "e1" "" ["u1"] 0 "" "h" 0 "" [] "" "" [] [] false "" [] 0 [] false "" "" 0 "" "".
Definition env_bytes (env : QueueEnvelope) : string := match marshal env with Ok v => v | Err _ => "" end.
(** A spool with one envelope, whose [n]-th system call fails. *)
Definition demo_spool (d : string) (n : option nat) : Spool :=
  mkSpool {[ env_file d "e1" := env_bytes demo_env ]} 0
    (fun i => if decide (Some i = n) then Some (Errorf "no space left on device", 0%nat) else None).
Definition demo_blobs : nat -> string -> result (string * option err) := fun _ _ => Ok ("message", None).
Definition demo_stages (verdict : string) : list Processor := [stage_with "antivirus" verdict; stage_with "rules" "pass"; stage_with "deliver" "pass"].
Lemma demo_placed d n : placed (sp_files (demo_spool d n)) d "e1" demo_env.
Proof.
  split; [exists (env_bytes demo_env); split; [by apply lookup_singleton_eq|vm_compute; reflexivity]|]. split; [reflexivity|].
  intros d' Hd. apply lookup_singleton_ne. intros [? _]%env_file_inj. congruence.
Qed.
Lemma stage_with_tame name action : tame (stage_with name action).
Proof. intros env data env' res [= <- _]. done. Qed.
Lemma demo_stages_ok v : Forall flagged (demo_stages v) /\ Forall tame (demo_stages v) /\ NoDup (pr_Name <$> demo_stages v).
Proof.
  split_and!;
    [unfold demo_stages; repeat apply List.Forall_cons; try apply List.Forall_nil; discriminate
    |unfold demo_stages; repeat apply List.Forall_cons; try apply List.Forall_nil; apply stage_with_tame|].
  apply (bool_decide_unpack _). vm_compute. exact I.
Qed.

(** The second stage's result cannot be written: the envelope goes to
    [error/] and says that one stage remains to be repeated. *)
Lemma resumed_run_repeats_one_stage_at_most_witness :
  exists st' r d env_d ran, processMessage demo_blobs (demo_stages "pass") demo_env (mkRun (demo_spool "processing" (Some 3%nat)) []) = (st', r) /\
    placed (ru_files st') d "e1" env_d /\ ru_log st' = ran /\ progress (demo_stages "pass") demo_env ran env_d.
Proof.
  destruct (processMessage demo_blobs (demo_stages "pass") demo_env (mkRun (demo_spool "processing" (Some 3%nat)) [])) as [st' r] eqn:E.
  destruct (demo_stages_ok "pass") as (H1&H2&H3).
  destruct (resumed_run_repeats_one_stage_at_most demo_blobs (demo_stages "pass") demo_env (mkRun (demo_spool "processing" (Some 3%nat)) []) st' r H1 H2 H3
    (demo_placed "processing" (Some 3%nat)) E) as (_&d&env_d&ran&Hp&Hl&Hpr&_).
  exists st', r, d, env_d, ran. split; [reflexivity|]. split; [exact Hp|]. split; [exact Hl|exact Hpr].
Defined.

(** ** An interrupted quarantine

    The virus scanner refuses the message; its verdict is written, and the
    process dies before the move to [quarantine/].  At the next start the
    envelope is recovered; the scanner's stage counts as done, and the message
    goes through the other stages to [deliver/]. *)
Definition after_restart (st : RunState) : RunState :=
  let s := mkSpool (ru_files st) 0 (fun _ => None) in
  let st1 := mkRun (NewSpoolStore s).1 [] in
  match on_spool Dequeue st1 with
  | (st2, Ok (Some env)) => (processMessage demo_blobs (demo_stages "reject") env st2).1
  | (st2, _) => st2
  end.
Theorem interrupted_quarantine_is_delivered :
  let crashed := (processMessage demo_blobs (demo_stages "reject") demo_env (mkRun (demo_spool "processing" (Some 2%nat)) [])).1 in
  let st := after_restart crashed in
  (ru_log st).*1 = ["rules"; "deliver"] /\ is_Some (ru_files st !! env_file "deliver" "e1") /\
  Forall (fun e => HasFlag (qe_Flags e.2) MsgFlagQuarantined = true) (ru_log st).
Proof. intros crashed st. apply (bool_decide_unpack _). vm_compute. exact I. Qed.
End Demo.
