(* ===== verification/PoolThm.v ===== *)
(** Theorems on the worker pool and the spool: under every interleaving and
    every fault no envelope is lost or duplicated, and without faults the spool
    drains. *)

From S2P Require Import Prelude GoStrings Proto Envelope Spool Pipeline PipelineThm.
From Stdlib Require Import Ascii.

(** * The worker pool *)

Section Pool.
Context `{ProtoLaws QueueEnvelope}.
Context (blobs : nat -> string -> result (string * option err)) (stages : list Processor) (depth : nat).
Implicit Types (fs : gmap file string) (env : QueueEnvelope) (p : Pool).

Definition present fs (d id : string) : Prop := is_Some (fs !! env_file d id).
(** Every envelope file holds the envelope of its name, and no envelope is in
    two directories. *)
Definition decoded fs : Prop :=
  forall d name v, fs !! ((d, name) : file) = Some v -> isEnvelopeFile name = true ->
    exists env, unmarshal v = Ok env /\ name = qe_Id env +:+ envSuffix.
Definition single fs : Prop := forall id d d', present fs d id -> present fs d' id -> d = d'.
Definition in_hand p : list QueueEnvelope := po_work p ++ option_list (po_held p).
Definition pool_ok p : Prop :=
  let fs := ru_files (po_run p) in
  decoded fs /\ single fs /\ NoDup (qe_Id <$> in_hand p) /\ forall env, env ∈ in_hand p -> placed fs "processing" (qe_Id env) env.

Lemma tmp_not_envelope d id : isEnvelopeFile (tmp_file d id).2 = false.
Proof. unfold isEnvelopeFile. apply andb_false_iff. right. cbn [tmp_file snd]. unfold HasPrefix. by rewrite prefix_app. Qed.
Lemma envelope_name name : isEnvelopeFile name = true -> name = id_of name +:+ envSuffix.
Proof.
  unfold isEnvelopeFile. destruct (CutLast name ".") as [[a b]|] eqn:E; [|done]. intros [->%String.eqb_eq _]%andb_true_iff.
  assert (name = a +:+ ".env") as ->.
  { revert a E. induction name as [|c name IH]; intros a; cbn [CutLast]; [done|]. destruct (CutLast name ".") as [[a' b']|].
    - intros [= <- ->]. rewrite (IH a') at 1 by done. done.
    - destruct (Ascii.eqb_spec c ".") as [->|]; [|done]. by intros [= <- ->]. }
  unfold id_of. rewrite str_length_app. replace (String.length a + String.length ".env" - String.length envSuffix)%nat with (String.length a) by (cbn; lia).
  by rewrite str_take_app.
Qed.
Lemma elem_of_names dir name fs : name ∈ names dir fs -> exists v, fs !! ((dir, name) : file) = Some v.
Proof.
  unfold names. rewrite merge_sort_Permutation. intros ([[d n] v]&Hin&E)%list_elem_of_omap. cbn in E.
  destruct (String.eqb_spec d dir) as [->|]; [|done]. injection E as ->. exists v. by apply elem_of_map_to_list in Hin.
Qed.
#[local] Instance owned_dec id (q : file) : Decision (owned id q).
Proof.
  refine (cast_if (decide (q = tmp_file "processing" id \/ q.2 = id +:+ envSuffix))); unfold owned, env_file; destruct q as [d nm]; cbn in *.
  - destruct o as [?| ->]; [by left|right]. by exists d.
  - intros [?|[d' [= -> ->]]]; apply n; [by left|by right].
Defined.
Lemma owned_other (id id' d : string) : id <> id' -> ~ owned id (env_file d id').
Proof. intros Hne [E|[d' E]]; [by apply env_tmp_ne in E|]. by apply env_file_inj in E as [_ ?]. Qed.

(** A change of one envelope's place or contents. *)
Definition id_step (id : string) fs fs' : Prop :=
  frame id fs fs' /\ (exists d env, placed fs d id env) /\ exists d env, placed fs' d id env.

Lemma id_step_spool id fs fs' : id_step id fs fs' -> decoded fs -> single fs ->
  decoded fs' /\ single fs' /\ (forall i, (exists d, present fs d i) <-> exists d, present fs' d i) /\
  forall i d env, i <> id -> placed fs d i env -> placed fs' d i env.
Proof.
  intros (Hf&(d0&e0&Hp0)&d1&e1&(v1&Hv1&Hu1)&Hid1&Hno1) Hdec Hsing.
  assert (Hoth : forall d i, i <> id -> fs' !! env_file d i = fs !! env_file d i) by (intros d i Hi; apply Hf, owned_other; done).
  split_and!.
  - intros d name v Hv Hn. destruct (decide (owned id (d, name))) as [Ho|Ho].
    + destruct Ho as [E|[d' E]].
      * pose proof (tmp_not_envelope "processing" id) as Hx. rewrite <- E in Hx. cbn in Hx. congruence.
      * rewrite E in Hv. destruct (decide (d' = d1)) as [->|Hne]; [|by rewrite Hno1 in Hv].
        exists e1. pose proof (eq_trans (eq_sym Hv1) Hv) as Hvv. injection Hvv as <-. split; [done|]. unfold env_file in E. injection E as _ ->. by rewrite Hid1.
    + apply (Hdec d name); [|done]. by rewrite <- Hf.
  - intros i d d' [v Hv] [v' Hv']. destruct (decide (i = id)) as [->|Hi].
    + destruct (decide (d = d1)) as [->|]; [|by rewrite Hno1 in Hv]. destruct (decide (d' = d1)) as [->|]; [done|by rewrite Hno1 in Hv'].
    + rewrite Hoth in Hv, Hv' by done. apply (Hsing i); unfold present; eauto.
  - intros i. destruct (decide (i = id)) as [->|Hi].
    + split; intros _; [exists d1; by exists v1|]. destruct Hp0 as ((v&Hv&_)&_). exists d0. by exists v.
    + unfold present. by setoid_rewrite Hoth.
  - intros i d env Hi ((v&Hv&Hu)&Hid&Hno). split; [exists v; by rewrite Hoth|]. split; [done|]. intros d' Hd'. rewrite Hoth by done. by apply Hno.
Qed.

(** ** Steps *)

Lemma Dequeue_spec s s' r : decoded (sp_files s) -> single (sp_files s) -> Dequeue s = (s', r) ->
  (sp_files s' = sp_files s /\ forall env, r <> Ok (Some env)) \/
  exists env, placed (sp_files s) "incoming" (qe_Id env) env /\ placed (sp_files s') "processing" (qe_Id env) env /\
    frame (qe_Id env) (sp_files s) (sp_files s') /\ isEnvelopeFile (qe_Id env +:+ envSuffix) = true /\
    forall env', r = Ok (Some env') -> env' = env.
Proof.
  intros Hdec Hsing. unfold Dequeue. unfold gbind at 1, gwrap at 1. destruct (ReadDir "incoming" s) as [s1 r1] eqn:Er.
  apply ReadDir_files in Er as [Hf1 Hl]. destruct r1 as [l|e]; cbn [wrapf]; [|intros [= <- <-]; left; by rewrite Hf1].
  specialize (Hl l eq_refl). subst l. destruct (merge_sort _ _) as [|oldest rest] eqn:Eo; [intros [= <- <-]; left; by rewrite Hf1|].
  assert (Hin : oldest ∈ List.filter isEnvelopeFile (names "incoming" (sp_files s))).
  { rewrite <- (merge_sort_Permutation String.le), Eo. by left. }
  apply list_elem_of_In, filter_In in Hin as [Hin%list_elem_of_In He]. apply elem_of_names in Hin as [v Hv].
  destruct (Hdec _ _ _ Hv He) as (env&Hu&Hname). unfold gbind at 1, gwrap at 1.
  destruct (Rename _ _ s1) as [s2 r2] eqn:Em. apply Rename_spec in Em. destruct r2 as [u|e]; cbn [wrapf].
  2: { intros [= <- <-]. left. split; [congruence|done]. }
  destruct Em as (w&Hw&Hf2). rewrite Hf1 in Hw, Hf2. assert (w = v) as -> by congruence. rewrite Hname in Hf2, Hv.
  change ("processing", qe_Id env +:+ envSuffix) with (env_file "processing" (qe_Id env)) in Hf2.
  change ("incoming", qe_Id env +:+ envSuffix) with (env_file "incoming" (qe_Id env)) in Hf2, Hv.
  assert (Hplace : placed (sp_files s) "incoming" (qe_Id env) env /\ placed (sp_files s2) "processing" (qe_Id env) env /\
    frame (qe_Id env) (sp_files s) (sp_files s2)).
  { assert (Hno : forall d, d <> "incoming" -> sp_files s !! env_file d (qe_Id env) = None).
    { intros d Hd. destruct (sp_files s !! env_file d (qe_Id env)) eqn:E; [|done]. exfalso. apply Hd. eapply (Hsing (qe_Id env)); unfold present; eauto. }
    split_and!.
    - split; [by exists v|]. split; [done|done].
    - rewrite Hf2. split; [exists v; by rewrite lookup_insert_eq|]. split; [done|]. intros d Hd.
      rewrite lookup_insert_ne by (intros [? _]%env_file_inj; congruence).
      destruct (decide (d = "incoming")) as [->|Hne]; [by rewrite lookup_delete_eq|].
      rewrite lookup_delete_ne by (intros [? _]%env_file_inj; congruence). by apply Hno.
    - intros q Hq. rewrite Hf2, lookup_insert_ne, lookup_delete_ne; [done|..]; intros <-; apply Hq; right; eauto. }
  destruct Hplace as (Hp1&Hp2&Hfr). unfold gbind at 1, gwrap at 1. destruct (ReadEnvelope "processing" (id_of oldest) s2) as [s3 r3] eqn:Ee.
  assert (Hid : id_of oldest = qe_Id env).
  { apply envelope_name in He. rewrite Hname in He at 1. by apply str_app_inj_len_r in He as [-> _]. }
  rewrite Hid in Ee. unfold ReadEnvelope, gbind, gwrap, glift in Ee. destruct (ReadFile _ s2) as [s4 r4] eqn:Erf.
  apply ReadFile_files in Erf as [Hf4 Hv4].
  assert (Hfs3 : sp_files s3 = sp_files s2) by (destruct r4; cbn in Ee; injection Ee as <- <-; done).
  assert (Hval : forall env', r3 = Ok env' -> env' = env).
  { intros env' ->. destruct r4 as [data|]; cbn in Ee; [|done]. injection Ee as _ Hd. apply wrapf_Ok in Hd. specialize (Hv4 data eq_refl).
    destruct Hp2 as ((v2&Hv2&Hu2)&_). congruence. }
  intros Hrun. right. exists env. destruct r3 as [env'|e]; cbn [wrapf] in Hrun; injection Hrun as <- <-; rewrite Hfs3; split_and!; try done; try (by rewrite <- Hname).
  intros env2 [= <-]. by apply Hval.
Qed.

Hypothesis (stages_flagged : Forall flagged stages) (stages_tame : Forall tame stages) (stages_distinct : NoDup (pr_Name <$> stages)).

Lemma process_id_step env st : placed (ru_files st) "processing" (qe_Id env) env ->
  id_step (qe_Id env) (ru_files st) (ru_files (processMessage blobs stages env st).1).
Proof.
  intros Hp. destruct (processMessage blobs stages env st) as [st' r] eqn:E.
  destruct (processMessage_spec blobs _ _ _ _ _ env stages_flagged stages_tame stages_distinct eq_refl Hp E) as (Hf&d&env_d&_&Hpl&_).
  split; [done|]. split; eauto.
Qed.
Lemma hand_back_id_step env st : placed (ru_files st) "processing" (qe_Id env) env ->
  id_step (qe_Id env) (ru_files st) (ru_files (hand_back env st)).
Proof.
  intros Hp. unfold hand_back, ignore. cbn [fst]. destruct (on_spool _ st) as [st' r] eqn:E.
  destruct (placed_move "incoming" _ _ _ _ _ ltac:(done) E Hp) as (Hf&_&Hp'). split; [done|]. split; eauto.
Qed.

(** Changing an envelope that is not in hand, or no longer. *)
Lemma pool_ok_id_step id st st' work held work' held' c c' :
  pool_ok (mkPool st work held c) -> id_step id (ru_files st) (ru_files st') ->
  NoDup (qe_Id <$> work' ++ option_list held') ->
  (forall env, env ∈ work' ++ option_list held' -> qe_Id env <> id /\ env ∈ work ++ option_list held \/
     placed (ru_files st') "processing" (qe_Id env) env) ->
  pool_ok (mkPool st' work' held' c') /\
  forall i, (exists d, present (ru_files st) d i) <-> exists d, present (ru_files st') d i.
Proof.
  intros (Hdec&Hsing&_&Hhand) Hst Hnd Hin. destruct (id_step_spool _ _ _ Hst Hdec Hsing) as (Hd&Hs&Hpres&Hoth).
  split; [|done]. split_and!; [done..|]. intros env Henv. destruct (Hin env Henv) as [[Hne Ho]|?]; [|done]. by apply Hoth, Hhand.
Qed.

Lemma pool_step_ok p p' : pool_ok p -> pool_step blobs stages depth p p' ->
  pool_ok p' /\ forall i, (exists d, present (ru_files (po_run p)) d i) <-> exists d, present (ru_files (po_run p')) d i.
Proof.
  intros Hok Hstep. destruct Hstep as [st work st' env Hdq|st work st' r c Hdq Hr|st work env c Hlen|st work held|st work env|st work env held|st work env held].
  - pose proof Hok as (Hdec&Hsing&Hnd&Hhand). apply on_spool_spec in Hdq as [Hdq _].
    destruct (Dequeue_spec _ _ _ Hdec Hsing Hdq) as [[_ Hno]|(e&Hp1&Hp2&Hf&_&He)]; [by destruct (Hno env)|]. rewrite (He env eq_refl) in *. cbn [po_run].
    assert (Hnew : qe_Id e ∉ qe_Id <$> work).
    { intros (x&E&Hx)%list_elem_of_fmap. destruct (Hhand x) as ((v&Hv&_)&_); [set_solver|]. destruct Hp1 as (_&_&Hno). rewrite <- E in Hv.
      unfold ru_files in Hv. rewrite Hno in Hv; [done|done]. }
    eapply (pool_ok_id_step (qe_Id e)); [exact Hok|split; [exact Hf|split; eauto]| |].
    + unfold in_hand in Hnd. cbn in Hnd. rewrite app_nil_r in Hnd. rewrite fmap_app. cbn. apply NoDup_app. split; [done|]. split; [|apply NoDup_singleton].
      intros x Hx ->%list_elem_of_singleton. done.
    + cbn. intros x [Hx| ->%list_elem_of_singleton]%elem_of_app; [left|by right]. split; [|set_solver]. intros E. apply Hnew. rewrite <- E. by apply list_elem_of_fmap_2.
  - pose proof Hok as (Hdec&Hsing&Hnd&Hhand). apply on_spool_spec in Hdq as [Hdq _]. cbn [po_run].
    destruct (Dequeue_spec _ _ _ Hdec Hsing Hdq) as [[Hfs _]|(e&Hp1&Hp2&Hf&_&He)].
    + assert (E : ru_files st' = ru_files st) by done. unfold pool_ok, in_hand in *. cbn [po_run po_work po_held] in *. by rewrite E.
    + eapply (pool_ok_id_step (qe_Id e)); [exact Hok|split; [exact Hf|split; eauto]|exact Hnd|].
      intros x Hx. left. split; [|exact Hx]. intros E. destruct (Hhand x Hx) as ((v&Hv&_)&_). destruct Hp1 as (_&_&Hno). rewrite E in Hv.
      unfold ru_files in Hv. cbn [po_run] in Hv. rewrite Hno in Hv; [done|done].
  - split; [|done]. unfold pool_ok, in_hand in *. cbn [po_run po_work po_held option_list] in *. by rewrite app_nil_r.
  - by split.
  - pose proof Hok as (_&_&Hnd&Hhand). cbn [po_run]. unfold in_hand in *. cbn in *. rewrite fmap_app in Hnd. apply NoDup_app in Hnd as (Hnd1&Hdis&_).
    eapply (pool_ok_id_step (qe_Id env)); [exact Hok|apply hand_back_id_step; apply Hhand; set_solver|by rewrite app_nil_r|].
    intros x Hx. left. cbn in Hx. rewrite app_nil_r in Hx. split; [|cbn; set_solver]. intros E. apply (Hdis (qe_Id x)); [by apply list_elem_of_fmap_2|]. set_solver.
  - pose proof Hok as (_&_&Hnd&Hhand). cbn [po_run]. unfold in_hand in *. cbn in *. apply NoDup_cons in Hnd as [Hn Hnd].
    eapply (pool_ok_id_step (qe_Id env)); [exact Hok|apply process_id_step; apply Hhand; by left|exact Hnd|].
    intros x Hx. left. split; [|by right]. intros E. apply Hn. rewrite <- E. by apply list_elem_of_fmap_2.
  - pose proof Hok as (_&_&Hnd&Hhand). cbn [po_run]. unfold in_hand in *. cbn in *. apply NoDup_cons in Hnd as [Hn Hnd].
    eapply (pool_ok_id_step (qe_Id env)); [exact Hok|apply hand_back_id_step; apply Hhand; by left|exact Hnd|].
    intros x Hx. left. split; [|by right]. intros E. apply Hn. rewrite <- E. by apply list_elem_of_fmap_2.
Qed.

(** Other parts of the server enqueue new envelopes meanwhile. *)
Inductive world_step : Pool -> Pool -> Prop :=
| WorldPool p p' : pool_step blobs stages depth p p' -> world_step p p'
| WorldEnqueue st work held c env st' r :
    (forall d, ~ present (ru_files st) d (qe_Id env)) -> on_spool (Enqueue env) st = (st', r) ->
    world_step (mkPool st work held c) (mkPool st' work held c).

Lemma enqueue_ok st work held c env st' r :
  pool_ok (mkPool st work held c) -> (forall d, ~ present (ru_files st) d (qe_Id env)) -> on_spool (Enqueue env) st = (st', r) ->
  pool_ok (mkPool st' work held c) /\ forall i, (exists d, present (ru_files st) d i) -> exists d, present (ru_files st') d i.
Proof.
  intros (Hdec&Hsing&Hnd&Hhand) Hfresh (He&_)%on_spool_spec. apply WriteEnvelope_spec in He as [Hoth Hown].
  fold (ru_files st) (ru_files st') in *. cbn [po_run] in *.
  assert (Habs : forall d, ru_files st !! env_file d (qe_Id env) = None) by (intros d; apply eq_None_not_Some, Hfresh).
  assert (Hk : forall d i, i <> qe_Id env -> ru_files st' !! env_file d i = ru_files st !! env_file d i).
  { intros d i Hi. apply Hoth; [apply env_tmp_ne|]. by intros [_ ?]%env_file_inj. }
  assert (Hk' : forall d, d <> "incoming" -> ru_files st' !! env_file d (qe_Id env) = None).
  { intros d Hd. rewrite Hoth; [done|apply env_tmp_ne|]. by intros [? _]%env_file_inj. }
  split; [split_and!|].
  - intros d name v Hv Hn. destruct (decide ((d, name) = tmp_file "incoming" (qe_Id env))) as [E|E].
    { pose proof (tmp_not_envelope "incoming" (qe_Id env)) as Hx. rewrite <- E in Hx. cbn in Hx. congruence. }
    destruct (decide ((d, name) = env_file "incoming" (qe_Id env))) as [E'|E'].
    + rewrite E' in Hv. injection E' as -> ->. destruct r as [u|e]; [|by pose proof (eq_trans (eq_sym Hv) (eq_trans Hown (Habs _)))].
      destruct Hown as (w&Hw&Hu). exists env. split; [|done]. pose proof (eq_trans (eq_sym Hw) Hv) as Hx. injection Hx as <-. done.
    + apply (Hdec d name); [|done]. by rewrite <- (Hoth (d, name)).
  - intros i d d' Hd Hd'. destruct (decide (i = qe_Id env)) as [->|Hi].
    + destruct (decide (d = "incoming")) as [->|Hx]; [|destruct Hd as [? Hd]; by rewrite Hk' in Hd].
      destruct (decide (d' = "incoming")) as [->|Hx]; [done|destruct Hd' as [? Hd']; by rewrite Hk' in Hd'].
    + unfold present in *. rewrite Hk in Hd, Hd' by done. by apply (Hsing i).
  - done.
  - intros x Hx. assert (Hxi : qe_Id x <> qe_Id env).
    { intros E. destruct (Hhand x Hx) as ((v&Hv&_)&_). rewrite E, Habs in Hv. done. }
    destruct (Hhand x Hx) as ((v&Hv&Hu)&_&Hno). split; [exists v; by rewrite Hk|]. split; [done|]. intros d' Hd'. rewrite Hk by done. by apply Hno.
  - intros i [d Hd]. exists d. unfold present in *. destruct (decide (i = qe_Id env)) as [->|Hi]; [|by rewrite Hk]. by apply Hfresh in Hd.
Qed.

End Pool.

(** * Recovery at start-up *)

Section Recovery.
Context `{Codec QueueEnvelope}.
Implicit Types (s : Spool).

Definition faultless s : Prop := forall n, sp_faults s n = None.
Lemma Rename_faultless src dst s v : faultless s -> sp_files s !! src = Some v ->
  Rename src dst s = (mkSpool (<[dst := v]> (delete src (sp_files s))) (S (sp_calls s)) (sp_faults s), Ok tt).
Proof. intros Hf Hv. unfold Rename, sys. by rewrite (Hf _), Hv. Qed.

(** The files after moving the given names from [processing/] to [incoming/]. *)
Fixpoint recovered (l : list string) (fs : gmap file string) : gmap file string :=
  match l with
  | [] => fs
  | name :: l' =>
      recovered l' (if isEnvelopeFile name then
                      match fs !! (("processing", name) : file) with
                      | Some v => <[(("incoming", name) : file) := v]> (delete (("processing", name) : file) fs)
                      | None => fs
                      end else fs)
  end.
Lemma recover_each l s : faultless s -> NoDup l -> (forall name, name ∈ l -> is_Some (sp_files s !! (("processing", name) : file))) ->
  exists s', each recover_one l s = (s', Ok tt) /\ faultless s' /\ sp_files s' = recovered l (sp_files s).
Proof.
  revert s. induction l as [|name l IH]; intros s Hf Hnd Hin; [by exists s|]. apply NoDup_cons in Hnd as [Hn Hnd].
  cbn [each recovered]. unfold gbind, recover_one. destruct (isEnvelopeFile name) eqn:E; cbn [negb].
  - destruct (Hin name ltac:(left)) as [v Hv]. unfold gwrap. rewrite (Rename_faultless _ _ s v Hf Hv). cbn [wrapf]. rewrite Hv.
    apply (IH (mkSpool _ _ _)); [done|done|]. cbn. intros x Hx. rewrite lookup_insert_ne by done. rewrite lookup_delete_ne by congruence. apply Hin. by right.
  - unfold gret. apply IH; [done..|]. intros x Hx. apply Hin. by right.
Qed.

Lemma recovered_lookup l fs p : NoDup l ->
  recovered l fs !! p =
    match p with
    | (d, name) =>
        if decide (name ∈ l /\ isEnvelopeFile name = true /\ is_Some (fs !! (("processing", name) : file))) then
          if String.eqb d "incoming" then fs !! (("processing", name) : file)
          else if String.eqb d "processing" then None else fs !! p
        else fs !! p
    end.
Proof.
  revert fs. induction l as [|x l IH]; intros fs Hnd; destruct p as [d name].
  { cbn. rewrite decide_False by set_solver. done. }
  apply NoDup_cons in Hnd as [Hx Hnd]. cbn [recovered]. rewrite IH by done. clear IH. destruct (isEnvelopeFile x) eqn:Ex.
  2: { destruct (decide (name ∈ l /\ _)) as [Hd|Hd].
       - rewrite decide_True; [done|]. set_solver.
       - rewrite decide_False; [done|]. intros ([->|?]%elem_of_cons&?&?); [congruence|]. by apply Hd. }
  destruct (fs !! (("processing", x) : file)) as [v|] eqn:Ev.
  2: { destruct (decide (name ∈ l /\ _)) as [Hd|Hd].
       - rewrite decide_True; [done|]. set_solver.
       - rewrite decide_False; [done|]. intros ([->|?]%elem_of_cons&?&[w Hw]); [congruence|]. apply Hd. eauto. }
  destruct (decide (name = x)) as [->|Hne].
  - rewrite (decide_False (P := x ∈ l /\ _)) by tauto. rewrite decide_True by (split_and!; [by left|done|by exists v]).
    destruct (String.eqb_spec d "incoming") as [->|Hd1]; [by rewrite lookup_insert_eq|].
    rewrite lookup_insert_ne by congruence. destruct (String.eqb_spec d "processing") as [->|Hd2]; [by rewrite lookup_delete_eq|].
    by rewrite lookup_delete_ne by congruence.
  - rewrite !lookup_insert_ne, !lookup_delete_ne by congruence.
    destruct (decide (name ∈ l /\ _)) as [Hd|Hd].
    + rewrite decide_True by set_solver. done.
    + rewrite decide_False; [done|]. intros ([?|?]%elem_of_cons&?&?); [done|]. apply Hd. done.
Qed.
End Recovery.

(** * Progress *)

Section Progress.
Context `{ProtoLaws QueueEnvelope}.
Context (blobs : nat -> string -> result (string * option err)) (stages : list Processor).
Hypothesis (stages_flagged : Forall flagged stages) (stages_tame : Forall tame stages) (stages_distinct : NoDup (pr_Name <$> stages)).
Implicit Types (s : Spool) (st : RunState) (fs : gmap file string) (env : QueueEnvelope).

Lemma sys_faults {A : Type} torn f s s' (r : result A) : sys torn f s = (s', r) -> sp_faults s' = sp_faults s.
Proof. unfold sys. destruct (sp_faults s (sp_calls s)) as [[]|]; [|destruct (f _)]; by intros [= <- _]. Qed.
Definition calm st : Prop := faultless (ru_spool st).
Lemma calm_spool {A : Type} (m : GoM Spool A) st st' r :
  (forall s s' r, m s = (s', r) -> sp_faults s' = sp_faults s) -> on_spool m st = (st', r) -> calm st -> calm st'.
Proof. intros Hm (E%Hm&_)%on_spool_spec Hc n. rewrite E. apply Hc. Qed.

Lemma Move_faults id from to s s' r : Move id from to s = (s', r) -> sp_faults s' = sp_faults s.
Proof. unfold Move, gwrap, Rename. destruct (sys _ _ s) as [s1 r1] eqn:E. intros [= <- _]. by apply sys_faults in E. Qed.
Lemma WriteEnvelope_faults d env s s' r : WriteEnvelope d env s = (s', r) -> sp_faults s' = sp_faults s.
Proof.
  unfold WriteEnvelope, gbind, glift, gwrap. destruct (marshal env); cbn [wrapf]; [|by intros [= <- _]].
  destruct (WriteFile _ _ s) as [s1 r1] eqn:E1. apply sys_faults in E1. destruct r1; cbn [wrapf]; [|by intros [= <- _]].
  destruct (Rename _ _ s1) as [s2 r2] eqn:E2. apply sys_faults in E2. destruct r2; intros [= <- _]; [congruence|].
  destruct (os_Remove _ s2) as [s3 r3] eqn:E3. apply sys_faults in E3. cbn [fst]. congruence.
Qed.

(** A move of an envelope that is there succeeds. *)
Lemma calm_move id to st st' r env : calm st -> to <> "processing" -> on_spool (Move id "processing" to) st = (st', r) ->
  placed (ru_files st) "processing" id env -> is_ok r = true /\ calm st' /\ placed (ru_files st') to id env.
Proof.
  intros Hc Hto Hm Hp. assert (Hok : is_ok r = true).
  { apply on_spool_spec in Hm as [Hm _]. destruct Hp as ((v&Hv&_)&_). unfold Move, gwrap in Hm.
    rewrite (Rename_faultless _ _ _ v Hc Hv) in Hm. by injection Hm as _ <-. }
  split; [done|]. split; [by eapply calm_spool; [apply Move_faults|..]|].
  destruct (placed_move to st st' r id env Hto Hm Hp) as (_&_&Hp'). by rewrite Hok in Hp'.
Qed.
Lemma calm_to_error {A : Type} id e st st' (r : result A) env : calm st -> placed (ru_files st) "processing" id env ->
  to_error id e st = (st', r) -> calm st' /\ placed (ru_files st') "error" id env.
Proof.
  intros Hc Hp. unfold to_error, gbind, ignore, gfail. destruct (on_spool _ st) as [st1 r1] eqn:E. intros [= <- _].
  destruct (calm_move _ "error" _ _ _ _ Hc ltac:(done) E Hp) as (_&Hc1&Hp1). exact (conj Hc1 Hp1).
Qed.

(** Without faults a run of the stages leaves [processing/] unless all passed. *)
Definition settled id fs : Prop := exists d env, d <> "processing" /\ d <> "incoming" /\ placed fs d id env.
Lemma calm_stages l i env st st' r env0 : Forall tame l -> calm st -> placed (ru_files st) "processing" (qe_Id env) env0 ->
  run_stages blobs i l env st = (st', r) ->
  calm st' /\ match r with
              | Ok (Some env') => qe_Id env' = qe_Id env /\ exists env_d, placed (ru_files st') "processing" (qe_Id env) env_d
              | _ => settled (qe_Id env) (ru_files st')
              end.
Proof.
  intros Ht. revert i env st env0. induction Ht as [|stage l Ht1 Ht IH]; intros i env st env0 Hc Hp; cbn [run_stages].
  { intros [= <- <-]. eauto. }
  assert (Herr : forall e (st1 : RunState), calm st1 -> placed (ru_files st1) "processing" (qe_Id env) env0 -> to_error (qe_Id env) e st1 = (st', r) ->
    calm st' /\ match r with Ok (Some env') => qe_Id env' = qe_Id env /\ exists env_d, placed (ru_files st') "processing" (qe_Id env) env_d
                | _ => settled (qe_Id env) (ru_files st') end).
  { intros e st1 Hc1 Hp1 Hr. destruct (calm_to_error _ _ _ _ _ _ Hc1 Hp1 Hr) as [? Hp'].
    destruct (to_error_spec _ _ _ _ _ _ Hr Hp1) as [Hf _]. split; [done|]. destruct r as [|]; [done|]. by exists "error", env0. }
  destruct (flagsForStage (pr_Name stage)) as [c sp] eqn:Ec. destruct (_ && _); [by eapply IH|].
  destruct (blobs i (qe_BlobHash env)) as [[data closed]|e]; [|by apply Herr].
  set (env1 := set_progress _ _ _ _). unfold run_stage, gbind at 1, record_run, glift. set (st1 := mkRun (ru_spool st) _).
  destruct (pr_Process stage env1 data) as [[env' res]|e] eqn:Epr; [|intros Hr; by apply (Herr _ st1) in Hr].
  destruct (Ht1 _ _ _ _ Epr) as [Hid' _]. change (qe_Id env1) with (qe_Id env) in *. destruct closed as [e|]; [intros Hr; by apply (Herr _ st1) in Hr|].
  set (env'' := after_stage (pr_Name stage) env' res).
  assert (Hid'' : qe_Id env'' = qe_Id env) by (unfold env'', after_stage; rewrite Ec; done).
  destruct (refuses res); unfold gbind, ignore, gwrap, gret; destruct (on_spool (WriteEnvelope "processing" env'') st1) as [st2 r2] eqn:Ew;
    (assert (Hc2 : calm st2) by (by eapply calm_spool; [apply WriteEnvelope_faults|exact Ew|exact Hc]));
    destruct (placed_write st1 st2 r2 env'' env0 Ew) as (_&_&Hp2); try (by rewrite Hid''); rewrite Hid'' in *; cbn [fst].
  - destruct (on_spool (Move _ _ _) st2) as [st3 r3] eqn:Em. destruct (calm_move _ "quarantine" _ _ _ _ Hc2 ltac:(done) Em Hp2) as (Hok&Hc3&Hp3).
    destruct r3 as [u|]; [|done]. cbn [wrapf]. intros [= <- <-]. split; [done|]. by exists "quarantine", (if is_ok r2 then env'' else env0).
  - destruct r2 as [u|e]; [|by apply Herr]. intros Hr. rewrite <- Hid'' in *. by eapply (IH (S i) env'' st2 env'').
Qed.

Lemma calm_process env st : calm st -> placed (ru_files st) "processing" (qe_Id env) env ->
  let st' := (processMessage blobs stages env st).1 in calm st' /\ settled (qe_Id env) (ru_files st').
Proof.
  intros Hc Hp. unfold processMessage, gbind. destruct (run_stages blobs 0 stages env st) as [st1 r1] eqn:E.
  destruct (calm_stages _ _ _ _ _ _ _ stages_tame Hc Hp E) as [Hc1 Hr]. destruct r1 as [[env'|]|e]; [|done..].
  destruct Hr as (Hid&env_d&Hp1). unfold gwrap. rewrite Hid. destruct (on_spool (Move _ _ _) st1) as [st2 r2] eqn:Em.
  destruct (calm_move _ "deliver" _ _ _ _ Hc1 ltac:(done) Em Hp1) as (_&Hc2&Hp2). cbn [fst]. split; [done|]. by exists "deliver", env_d.
Qed.

(** ** Draining the spool *)

(** One turn of the pool: the poller takes an envelope, a worker processes it. *)
Definition turn st : RunState :=
  match on_spool Dequeue st with
  | (st', Ok (Some env)) => (processMessage blobs stages env st').1
  | (st', _) => st'
  end.
Definition waiting fs : gset string := list_to_set (List.filter isEnvelopeFile (names "incoming" fs)).
Lemma names_elem dir name fs : name ∈ names dir fs <-> is_Some (fs !! ((dir, name) : file)).
Proof.
  split; [apply elem_of_names|]. intros [v Hv]. unfold names. rewrite merge_sort_Permutation. apply list_elem_of_omap.
  exists ((dir, name), v). split; [by apply elem_of_map_to_list|]. cbn. by rewrite String.eqb_refl.
Qed.
Lemma elem_of_waiting fs name : name ∈ waiting fs <-> isEnvelopeFile name = true /\ is_Some (fs !! (("incoming", name) : file)).
Proof. unfold waiting. rewrite elem_of_list_to_set, list_elem_of_In, filter_In, <- list_elem_of_In, names_elem. tauto. Qed.

Lemma calm_Dequeue st : calm st -> decoded (ru_files st) -> single (ru_files st) -> waiting (ru_files st) <> ∅ ->
  exists st' env, on_spool Dequeue st = (st', Ok (Some env)) /\ calm st'.
Proof.
  intros Hc Hdec Hsing Hw. destruct (on_spool Dequeue st) as [st' r] eqn:E. apply on_spool_spec in E as [E _].
  pose proof (Dequeue_spec _ _ _ Hdec Hsing E) as Hspec. revert E. unfold Dequeue, gbind, gwrap, gret. unfold ReadDir at 1, sys at 1. rewrite (Hc _).
  cbn [wrapf]. set (s1 := with_files _ _). assert (Hf1 : sp_files s1 = ru_files st) by done. assert (Hq1 : sp_faults s1 = sp_faults (ru_spool st)) by done.
  destruct (merge_sort _ _) as [|oldest rest] eqn:Eo.
  { exfalso. apply Hw. apply leibniz_equiv, elem_of_equiv_empty. intros x. unfold waiting. rewrite elem_of_list_to_set.
    rewrite <- (merge_sort_Permutation String.le). unfold ru_files. rewrite Eo. apply not_elem_of_nil. }
  assert (Hin : oldest ∈ List.filter isEnvelopeFile (names "incoming" (ru_files st))).
  { rewrite <- (merge_sort_Permutation String.le). unfold ru_files. rewrite Eo. by left. }
  apply list_elem_of_In, filter_In in Hin as [Hin%list_elem_of_In He]. apply elem_of_names in Hin as [v Hv].
  rewrite (Rename_faultless _ _ s1 v); [|by intros n; rewrite Hq1|by rewrite Hf1]. cbn [wrapf].
  destruct (ReadEnvelope _ _ _) as [s3 r3] eqn:Ee. unfold ReadEnvelope, gbind, gwrap, glift, ReadFile, sys in Ee. cbn [sp_faults sp_calls sp_files] in Ee.
  rewrite Hq1, (Hc _) in Ee. unfold env_file in Ee. rewrite <- (envelope_name oldest He), lookup_insert_eq in Ee. cbn [of_option wrapf] in Ee.
  destruct (Hdec _ _ _ Hv He) as (env&Hu&_). rewrite Hu in Ee. cbn [wrapf] in Ee. injection Ee as <- <-. cbn [wrapf].
  intros [= Hs <-]. exists st', env. split; [done|]. intros n. rewrite <- Hs. apply Hc.
Qed.

(** A turn takes one envelope out of [incoming/] for good. *)
Lemma turn_spec st : calm st -> decoded (ru_files st) -> single (ru_files st) -> waiting (ru_files st) <> ∅ ->
  exists id, id +:+ envSuffix ∈ waiting (ru_files st) /\ calm (turn st) /\ decoded (ru_files (turn st)) /\ single (ru_files (turn st)) /\
    frame id (ru_files st) (ru_files (turn st)) /\ settled id (ru_files (turn st)).
Proof.
  intros Hc Hdec Hsing Hw. destruct (calm_Dequeue st Hc Hdec Hsing Hw) as (st1&env&Hdq&Hc1). unfold turn. rewrite Hdq.
  apply on_spool_spec in Hdq as [Hdq _]. destruct (Dequeue_spec _ _ _ Hdec Hsing Hdq) as [[_ Hno]|(e&Hp0&Hp1&Hf1&Hen&He)]; [by destruct (Hno env)|].
  rewrite (He env eq_refl) in *. fold (ru_files st) (ru_files st1) in *.
  destruct (calm_process e st1 Hc1 Hp1) as [Hc2 Hset].
  pose proof (process_id_step blobs stages stages_flagged stages_tame stages_distinct e st1 Hp1) as Hstep.
  destruct (id_step_spool (qe_Id e) (ru_files st) (ru_files st1)) as (Hd1&Hs1&_); [split; [done|split; eauto]|done..|].
  destruct (id_step_spool _ _ _ Hstep Hd1 Hs1) as (Hd2&Hs2&_). exists (qe_Id e). split_and!; [|done..| |done].
  - apply elem_of_waiting. destruct Hp0 as ((v&Hv&Hu)&_). split; [done|by exists v].
  - eapply frame_trans; [exact Hf1|]. apply Hstep.
Qed.

Lemma turn_waiting st id : frame id (ru_files st) (ru_files (turn st)) -> settled id (ru_files (turn st)) ->
  waiting (ru_files (turn st)) = waiting (ru_files st) ∖ {[ id +:+ envSuffix ]}.
Proof.
  intros Hf (d&env&_&Hd&(_&_&Hno)). apply leibniz_equiv. intros name. rewrite elem_of_difference, !elem_of_waiting, elem_of_singleton.
  destruct (decide (name = id +:+ envSuffix)) as [->|Hne].
  - split; [|tauto]. intros [_ [v Hv]]. specialize (Hno "incoming" ltac:(done)). unfold env_file in Hno. congruence.
  - rewrite Hf; [tauto|]. intros [[= ]|[d' [= _ E]]]. done.
Qed.

Lemma settled_keeps id id' fs fs' : id' <> id -> frame id fs fs' -> settled id' fs -> settled id' fs'.
Proof.
  intros Hne Hf (d&env&Hd1&Hd2&((v&Hv&Hu)&Hid&Hno)). exists d, env. split_and!; [done..|]. split_and!.
  - exists v. split; [|done]. rewrite Hf; [done|]. by apply owned_other.
  - done.
  - intros d' Hd'. rewrite Hf; [by apply Hno|]. by apply owned_other.
Qed.

(** C26: the spool drains.  When no system call fails, as many turns of the
    pool as there are envelopes in [incoming/] leave none there, and each of
    them has left the pipeline, to [deliver/], [quarantine/] or [error/],
    whatever the stages and the blob store answer. *)
Theorem spool_drains st :
  calm st -> decoded (ru_files st) -> single (ru_files st) ->
  let st' := Nat.iter (size (waiting (ru_files st))) turn st in
  waiting (ru_files st') = ∅ /\ forall id, id +:+ envSuffix ∈ waiting (ru_files st) -> settled id (ru_files st').
Proof.
  cbv zeta. remember (size (waiting (ru_files st))) as n eqn:Hn. intros Hc Hdec Hsing.
  cut (waiting (ru_files (Nat.iter n turn st)) = ∅ /\
       forall id, id +:+ envSuffix ∈ waiting (ru_files st) \/ settled id (ru_files st) -> settled id (ru_files (Nat.iter n turn st))); [naive_solver|].
  revert st Hn Hc Hdec Hsing. induction n as [|n IH]; intros st Hn Hc Hdec Hsing.
  { cbn. assert (Hw : waiting (ru_files st) = ∅) by (apply leibniz_equiv, size_empty_inv; done). rewrite Hw. split; [done|]. intros id [Hid|?]; [|done].
    by apply not_elem_of_empty in Hid. }
  assert (Hw : waiting (ru_files st) <> ∅) by (intros E; by rewrite E, size_empty in Hn).
  destruct (turn_spec st Hc Hdec Hsing Hw) as (id&Hid&Hc'&Hdec'&Hsing'&Hf&Hset).
  assert (Hn' : n = size (waiting (ru_files (turn st)))).
  { rewrite (turn_waiting st id Hf Hset), size_difference, size_singleton by set_solver. lia. }
  rewrite Nat.iter_succ_r. destruct (IH (turn st) Hn' Hc' Hdec' Hsing') as [Hdone Hall]. split; [done|].
  intros id' Hid'. apply Hall. destruct (decide (id' = id)) as [->|Hne]; [by right|].
  destruct Hid' as [Hw'|?]; [left|right; by eapply settled_keeps].
  rewrite (turn_waiting st id Hf Hset). apply elem_of_difference. split; [done|]. intros E%elem_of_singleton.
  by apply str_app_inj_len_r in E as [? _].
Qed.
End Progress.

(** * Evaluation *)

Section Demo.
#[local] Existing Instances envelope_codec envelope_laws.
Definition demo_pool : Pool := mkPool (mkRun (demo_spool "incoming" None) []) [] None false.
Lemma demo_decoded d n : decoded (sp_files (demo_spool d n)).
Proof.
  intros d' name v Hv _. cbn [demo_spool sp_files] in Hv. apply lookup_singleton_Some in Hv as [[= _ <-] <-]. exists demo_env. split; [vm_compute; reflexivity|reflexivity].
Qed.
Lemma demo_single d n : single (sp_files (demo_spool d n)).
Proof. intros id d1 d2 [v Hv] [w Hw]. cbn [demo_spool sp_files] in Hv, Hw. apply lookup_singleton_Some in Hv as [[= <- _] _], Hw as [[= <- _] _]. done. Qed.
Lemma demo_pool_ok : pool_ok demo_pool.
Proof.
  split; [apply demo_decoded|]. split; [apply demo_single|]. split; [constructor|]. intros env Hin. by apply not_elem_of_nil in Hin.
Qed.


Lemma spool_drains_witness :
  let st := mkRun (demo_spool "incoming" None) [] in
  waiting (ru_files (Nat.iter (size (waiting (ru_files st))) (turn demo_blobs (demo_stages "reject")) st)) = ∅.
Proof.
  destruct (demo_stages_ok "reject") as (H1&H2&H3).
  destruct (spool_drains demo_blobs (demo_stages "reject") H1 H2 H3 (mkRun (demo_spool "incoming" None) [])) as [Hw _].
  - intros n. reflexivity.
  - apply demo_decoded.
  - apply demo_single.
  - exact Hw.
Defined.
End Demo.
