(* ===== verification/BlobThm.v ===== *)
(** Integrity of the blob store ([BlobStore]) under any interleaving of its
    operations, failing calls, torn writes and crashes.

    Each operation is verified on its own against a rely on the others: it may
    own one temporary file and know its content ([know]); every call keeps the
    store's invariant and the other operations' temporary files ([wp]). *)

From stdpp Require Import pretty.
From S2P Require Import Prelude GoStrings Pebble Proto Credentials AttSplit Spool BlobStore.
From Stdlib Require Import Ascii.

Section Integrity.
Variable sha256Hex : string -> string.

(** Every file outside [tmp] is named by the hash of what it holds. *)
Definition addressed (s : BlobFS) : Prop :=
  forall d n data mt, bf_files s !! (d, n) = Some (data, mt) -> d <> "tmp" -> sha256Hex data = n /\ d = str_take 2 n.

(** The temporary file an operation owns, and what it holds if known. *)
Definition know : Type := option (nat * option string).
Definition holds (k : know) (s : BlobFS) : Prop :=
  match k with
  | None => True
  | Some (n, c) => (n < bf_seq s)%nat /\ match c with
                   | None => True
                   | Some c => forall data mt, bf_files s !! temp_name n = Some (data, mt) -> data = c
                   end
  end.
Definition temps_kept (k : know) (s s' : BlobFS) : Prop :=
  (bf_seq s <= bf_seq s')%nat /\
  forall m, (m < bf_seq s)%nat -> fst <$> k <> Some m -> bf_files s' !! temp_name m = bf_files s !! temp_name m.
Definition grows (k k' : know) (s : BlobFS) : Prop := forall m, fst <$> k' = Some m -> fst <$> k = Some m \/ (bf_seq s <= m)%nat.

(** From [k], every call of [p] is harmless, and [p] ends with [Q]. *)
Fixpoint wp {A} (p : prog BlobFS A) (k : know) (Q : A -> know -> Prop) : Prop :=
  match p with
  | Done a => Q a k
  | Call en f g => forall now s, addressed s -> holds k s ->
      addressed (f now s).1 /\ temps_kept k s (f now s).1 /\
      exists k', holds k' (f now s).1 /\ grows k k' s /\ wp (g (f now s).2) k' Q
  end.

Lemma wp_mono {A} (p : prog BlobFS A) k (Q Q' : A -> know -> Prop) : wp p k Q -> (forall a k', Q a k' -> Q' a k') -> wp p k Q'.
Proof.
  intros Hp HQ. revert k Hp. induction p as [a|en X f g IH]; intros k; cbn; [apply HQ|].
  intros Hp now s Hs Hk. destruct (Hp now s Hs Hk) as (?&?&k'&?&?&?). eauto 8.
Qed.
Lemma wp_bind {A C} (p : prog BlobFS A) (g : A -> prog BlobFS C) k Q : wp p k (fun a k' => wp (g a) k' Q) -> wp (pbind p g) k Q.
Proof.
  revert k. induction p as [a|en X f g' IH]; intros k; cbn; [done|].
  intros Hp now s Hs Hk. destruct (Hp now s Hs Hk) as (?&?&k'&?&?&?). eauto 8.
Qed.
(** One call, then the rest of the program. *)
Lemma wp_step {A C} (p : prog BlobFS A) (g : A -> prog BlobFS C) k (R : A -> know -> Prop) Q :
  wp p k R -> (forall a k', R a k' -> wp (g a) k' Q) -> wp (pbind p g) k Q.
Proof. intros Hp Hg. apply wp_bind. by eapply wp_mono. Qed.

(** ** Calls *)

Lemma temps_refl k s : temps_kept k s s.
Proof. by split. Qed.
Lemma grows_self k s : grows k k s.
Proof. intros m ?. by left. Qed.
#[local] Hint Resolve temps_refl grows_self : blob.

(** A call that leaves files and names alone. *)
Definition idle {X} (f : Z -> BlobFS -> BlobFS * X) : Prop :=
  forall now s, bf_files (f now s).1 = bf_files s /\ bf_seq (f now s).1 = bf_seq s.
Lemma idle_wp {X} en (f : Z -> BlobFS -> BlobFS * X) k : idle f -> wp (Call en f Done) k (fun _ k' => k' = k).
Proof.
  intros Hf now s Hs Hk. destruct (Hf now s) as [Ef Eq]. split; [by unfold addressed; rewrite Ef|].
  split; [unfold temps_kept; by rewrite Ef, Eq|]. exists k. split; [|by split; [apply grows_self|]].
  destruct k as [[n c]|]; [|done]. unfold holds. by rewrite Ef, Eq.
Qed.
Lemma bsys_idle {X} (f : gmap file (string * Z) -> gmap file (string * Z) * result X) : (forall fs, (f fs).1 = fs) -> idle (fun _ => bsys intact f).
Proof.
  intros Hf now s. unfold bsys. destruct (bf_faults s (bf_calls s)) as [[e n]|]; [done|].
  specialize (Hf (bf_files s)). by destruct (f (bf_files s)).
Qed.
Lemma Stat_wp p k : wp (Stat p) k (fun _ k' => k' = k).
Proof. by apply idle_wp, bsys_idle. Qed.
Lemma Lock_wp k : wp Lock k (fun _ k' => k' = k).
Proof. by apply idle_wp. Qed.
Lemma Unlock_wp k : wp Unlock k (fun _ k' => k' = k).
Proof. by apply idle_wp. Qed.
Lemma Now_wp k : wp Now k (fun _ k' => k' = k).
Proof. by apply idle_wp. Qed.
Lemma Close_wp p k : wp (Close p) k (fun _ k' => k' = k).
Proof. by apply idle_wp, bsys_idle. Qed.
Lemma bMkdirAll_wp d k : wp (bMkdirAll d) k (fun _ k' => k' = k).
Proof. by apply idle_wp, bsys_idle. Qed.
Lemma bReadDir_wp d k : wp (bReadDir d) k (fun _ k' => k' = k).
Proof. by apply idle_wp, bsys_idle. Qed.
Lemma bReadRoot_wp k : wp bReadRoot k (fun _ k' => k' = k).
Proof. by apply idle_wp, bsys_idle. Qed.

(** A faulty or faultless call, seen through the files it leaves. *)
Lemma bsys_wp {X : Type} (torn : nat -> Z -> gmap file (string * Z) -> gmap file (string * Z)) (f : Z -> gmap file (string * Z) -> gmap file (string * Z) * result X) k (Q : result X -> know -> Prop) :
  (forall now s fs r, addressed s -> holds k s ->
     (exists n e, fs = torn n now (bf_files s) /\ r = Err e) \/ (fs, r) = f now (bf_files s) ->
     let s' := with_blobs s fs in addressed s' /\ temps_kept k s s' /\ exists k', holds k' s' /\ grows k k' s /\ Q r k') ->
  wp (call (fun now => bsys (fun n => torn n now) (f now))) k Q.
Proof.
  intros Hf now s Hs Hk. unfold bsys. destruct (bf_faults s (bf_calls s)) as [[e n]|]; cbn.
  - apply (Hf now s (torn n now (bf_files s)) (Err e)); [done..|]. left. eauto.
  - destruct (f now (bf_files s)) as [fs r] eqn:Ef. apply (Hf now s fs r); [done..|]. by right.
Qed.

Lemma temp_not_blob n h : temp_name n <> blobPath h.
Proof. unfold temp_name, blobPath. case_match; [done|]. intros [= Ht _]. destruct h as [|? [|? h]]; cbn in *; done. Qed.
Lemma temp_name_inj n m : temp_name n = temp_name m -> n = m.
Proof. intros [= Heq]. exact (inj (pretty (A := nat)) _ _ Heq). Qed.

(** Changes to blobs keep what is known of temporary files. *)
Lemma blob_change k s fs h :
  (forall p, p <> blobPath h -> fs !! p = bf_files s !! p) -> holds k s ->
  temps_kept k s (with_blobs s fs) /\ exists k', holds k' (with_blobs s fs) /\ grows k k' s /\ k' = k.
Proof.
  intros Hfs Hk. split; [split; [done|]; intros; apply Hfs, temp_not_blob|]. exists k. split; [|by split; [apply grows_self|]].
  destruct k as [[n [c|]]|]; [|done..]. destruct Hk as [? Hc]. split; [done|]. intros data mt. cbn. rewrite Hfs by apply temp_not_blob. apply Hc.
Qed.
Lemma Chtimes_wp h mtime k : wp (Chtimes (blobPath h) mtime) k (fun _ k' => k' = k).
Proof.
  apply (bsys_wp (fun n _ => intact n)). intros now s fs r Hs Hk Hfs s'.
  assert (forall p, p <> blobPath h -> fs !! p = bf_files s !! p) as Ho.
  { intros p Hp. destruct Hfs as [(?&?&->&_)|Hf]; [done|]. destruct (bf_files s !! blobPath h) as [[data m]|]; simplify_eq; [|done].
    by rewrite lookup_insert_ne. }
  split; [|by eapply blob_change]. intros d n data mt Hl Hd. destruct Hfs as [(?&?&->&_)|Hf]; [by eapply Hs|].
  destruct (bf_files s !! blobPath h) as [[data' m]|] eqn:Eh; simplify_eq; [|by eapply Hs]. cbn in Hl.
  destruct (decide ((d, n) = blobPath h)) as [E|]; [rewrite E, lookup_insert_eq in Hl; rewrite <- E in Eh; simplify_eq; by eapply Hs|].
  rewrite lookup_insert_ne in Hl by done. by eapply Hs.
Qed.
Lemma bRemove_wp p k : (exists h, p = blobPath h) \/ (exists n c, p = temp_name n /\ k = Some (n, c)) -> wp (bRemove p) k (fun _ k' => k' = k).
Proof.
  intros Hp. apply (bsys_wp (fun n _ => intact n)). intros now s fs r Hs Hk Hfs s'.
  assert (forall q x, fs !! q = Some x -> bf_files s !! q = Some x) as Hsub.
  { intros q x. destruct Hfs as [(?&?&->&_)|Hf]; [done|]. destruct (bf_files s !! p); simplify_eq; [|done]. by intros [_ ?]%lookup_delete_Some. }
  assert (forall q, q <> p -> fs !! q = bf_files s !! q) as Ho.
  { intros q Hq. destruct Hfs as [(?&?&->&_)|Hf]; [done|]. destruct (bf_files s !! p); simplify_eq; [|done]. by rewrite lookup_delete_ne. }
  split; [intros d n data mt Hl; eapply Hs, Hsub, Hl|]. destruct Hp as [(h&->)|(n&c&->&->)]; [by eapply blob_change|].
  split; [split; [done|]; intros m ? Hm; apply Ho; intros ?%temp_name_inj; naive_solver|].
  exists (Some (n, c)). split; [|by split; [apply grows_self|]]. destruct Hk as [? Hc]. split; [done|]. destruct c; [|done].
  intros data mt Hl. by eapply Hc, Hsub.
Qed.
Lemma CreateTemp_wp :
  wp CreateTemp None (fun r k => match r with Err _ => k = None | Ok p => exists n, p = temp_name n /\ k = Some (n, Some "") end).
Proof.
  intros now s Hs _. unfold CreateTemp, bsys. cbn.
  destruct (bf_faults s (bf_calls s)) as [[e n]|]; cbn.
  - split; [done|]. split; [split; [cbn; lia|done]|]. exists None. repeat split. by left.
  - split; [|split].
    + intros d n data mt Hl Hd. cbn in Hl. rewrite lookup_insert_ne in Hl by (intros [= ? ?]; done). by eapply Hs.
    + split; [cbn; lia|]. intros m Hm _. cbn. rewrite lookup_insert_ne; [done|]. intros ?%temp_name_inj. lia.
    + exists (Some (bf_seq s, Some "")). repeat split; [cbn; lia| |intros m [= <-]; by right|by eauto].
      intros data mt. cbn. rewrite lookup_insert_eq. by intros [= <- _].
Qed.
Lemma Write_wp n c chunk :
  wp (Write (temp_name n) chunk) (Some (n, Some c))
    (fun r k => match r with Err _ => k = Some (n, None) | Ok _ => k = Some (n, Some (c +:+ chunk)) end).
Proof.
  apply (bsys_wp (fun m now => append_to (temp_name n) (str_take m chunk) now)). intros now s fs r Hs [Hn Hc] Hfs s'.
  assert (exists x, fs = append_to (temp_name n) x now (bf_files s) /\ match r with Ok _ => x = chunk | Err _ => True end) as (x&->&Hx)
    by (destruct Hfs as [(?&?&->&->)|Hf]; simplify_eq; eauto).
  assert (forall q, q <> temp_name n -> append_to (temp_name n) x now (bf_files s) !! q = bf_files s !! q) as Ho.
  { intros q Hq. unfold append_to. destruct (bf_files s !! temp_name n) as [[d0 m0]|]; [|done]. by rewrite lookup_insert_ne. }
  split; [|split].
  - intros d m data mt Hl Hd. cbn in Hl. rewrite Ho in Hl by (unfold temp_name; congruence). by eapply Hs.
  - split; [done|]. intros m ? Hm. apply Ho. intros ?%temp_name_inj. naive_solver.
  - exists (Some (n, match r with Ok _ => Some (c +:+ chunk) | Err _ => None end)).
    split; [|split; [intros m [= <-]; by left|by destruct r]]. split; [done|]. destruct r; [|done]. subst x.
    intros data mt. cbn. unfold append_to. destruct (bf_files s !! temp_name n) as [[d m]|] eqn:E; [|by rewrite E].
    rewrite lookup_insert_eq. intros [= <- _]. by rewrite (Hc _ _ eq_refl).
Qed.
Lemma bRename_wp n c :
  wp (bRename (temp_name n) (str_take 2 (sha256Hex c), sha256Hex c)) (Some (n, Some c)) (fun _ k => k = Some (n, Some c)).
Proof.
  apply (bsys_wp (fun n _ => intact n)). intros now s fs r Hs [Hn Hc] Hfs s'. set (dst := (str_take 2 (sha256Hex c), sha256Hex c)) in *.
  assert (forall m, temp_name m <> dst) as Hdst.
  { intros m [= Ht _]. destruct (sha256Hex c) as [|? [|? ?]]; cbn in Ht; done. }
  assert (fs = bf_files s \/ exists mt, bf_files s !! temp_name n = Some (c, mt) /\ fs = <[dst := (c, mt)]> (delete (temp_name n) (bf_files s))) as Hcase.
  { destruct Hfs as [(?&?&->&_)|Hf]; [by left|]. destruct (bf_files s !! temp_name n) as [[d mt]|] eqn:E; simplify_eq; [|by left].
    right. exists mt. by rewrite (Hc _ _ eq_refl). }
  split; [|split].
  - intros d m data mt Hl Hd. destruct Hcase as [->|(mt'&_&->)]; [by eapply Hs|]. cbn in Hl.
    apply lookup_insert_Some in Hl as [[Heq1 Heq2]|[_ [_ Hl]%lookup_delete_Some]]; [|by eapply Hs]. unfold dst in Heq1. by simplify_eq.
  - split; [done|]. intros m ? Hm. destruct Hcase as [->|(mt&_&->)]; [done|]. cbn.
    rewrite lookup_insert_ne by done. apply lookup_delete_ne. intros ?%temp_name_inj. naive_solver.
  - exists (Some (n, Some c)). split; [|by split; [apply grows_self|]]. split; [done|]. intros data mt Hl.
    destruct Hcase as [->|(mt'&_&->)]; [by eapply Hc|]. cbn in Hl. rewrite lookup_insert_ne in Hl by done. by rewrite lookup_delete_eq in Hl.
Qed.

(** ** Operations *)

Notation kept k := (fun _ k' => k' = k).
(** One call or program that keeps what is known, then the rest. *)
Lemma wp_seq {A C} (p : prog BlobFS A) (g : A -> prog BlobFS C) k Q :
  wp p k (kept k) -> (forall a, wp (g a) k Q) -> wp (pbind p g) k Q.
Proof. intros Hp Hg. eapply wp_step; [done|]. by intros a k' ->. Qed.
Lemma wp_done {A} (a : A) k : wp (Done a) k (kept k).
Proof. done. Qed.
#[local] Hint Resolve Stat_wp Lock_wp Unlock_wp Now_wp Close_wp bMkdirAll_wp bReadDir_wp bReadRoot_wp Chtimes_wp wp_done : blob.
Ltac wps := repeat first [solve [auto with blob] | match goal with |- wp (pbind _ _) _ _ => apply wp_seq; [|intros ?] end | case_match | done].

Lemma touchIfExists_wp h k : wp (touchIfExists h) k (kept k).
Proof. unfold touchIfExists. wps. Qed.
Lemma bRemove_blob_wp h k : wp (bRemove (blobPath h)) k (kept k).
Proof. apply bRemove_wp. eauto. Qed.
Lemma bRemove_temp_wp n c : wp (bRemove (temp_name n)) (Some (n, c)) (kept (Some (n, c))).
Proof. apply bRemove_wp. eauto. Qed.
#[local] Hint Resolve touchIfExists_wp bRemove_blob_wp bRemove_temp_wp : blob.
Lemma DeleteIf_wp h cutoff k : wp (DeleteIfNotModifiedSince h cutoff) k (kept k).
Proof. unfold DeleteIfNotModifiedSince. wps. Qed.
Lemma cleanup_wp n c : wp (cleanupTempFile (temp_name n)) (Some (n, c)) (kept (Some (n, c))).
Proof. unfold cleanupTempFile. wps. Qed.
#[local] Hint Resolve DeleteIf_wp cleanup_wp : blob.
Lemma discard_wp {A} n c e : wp (discard (A := A) (temp_name n) e) (Some (n, c)) (kept (Some (n, c))).
Proof. unfold discard. wps. Qed.
Lemma drop_duplicate_wp n c : wp (drop_duplicate (temp_name n)) (Some (n, c)) (kept (Some (n, c))).
Proof. unfold drop_duplicate. wps. Qed.
#[local] Hint Resolve discard_wp drop_duplicate_wp bRename_wp : blob.

Notation any := (fun _ _ => True).
Lemma wp_any {A} (p : prog BlobFS A) k : wp p k (kept k) -> wp p k any.
Proof. intros. by eapply wp_mono. Qed.
Lemma writeAtomically_wp data : wp (writeAtomically (sha256Hex data) data) None any.
Proof.
  unfold writeAtomically. eapply wp_step; [apply CreateTemp_wp|]. intros [p|e] k; [|done]. intros (n&->&->).
  eapply wp_step; [apply Write_wp|]. intros [u|e] k ->; apply wp_any; [|wps].
  change ("" +:+ data) with data. wps.
Qed.
Lemma Put_wp data : wp (Put sha256Hex data) None any.
Proof.
  unfold Put. eapply wp_seq; [auto with blob|]. intros [[]|e]; [done| |done]. eapply wp_step; [apply writeAtomically_wp|]. done.
Qed.
Lemma copy_chunks_wp n chunks c e :
  wp (copy_chunks (temp_name n) chunks e) (Some (n, Some c))
    (fun r k => match r with Ok _ => k = Some (n, Some (c +:+ concat_chunks chunks)) | Err _ => exists c', k = Some (n, c') end).
Proof.
  revert c. induction chunks as [|x chunks IH]; intros c; cbn [copy_chunks concat_chunks foldr].
  - cbn. destruct e; [eauto|]. by rewrite str_app_nil_r.
  - eapply wp_step; [apply Write_wp|]. intros [u|e'] k ->; [|cbn; eauto]. rewrite <- str_app_assoc. apply IH.
Qed.
Lemma PutReader_wp chunks e : wp (PutReader sha256Hex chunks e) None any.
Proof.
  unfold PutReader. eapply wp_step; [apply CreateTemp_wp|]. intros [p|e'] k; [|done]. intros (n&->&->).
  eapply wp_step; [apply copy_chunks_wp|]. change ("" +:+ concat_chunks chunks) with (concat_chunks chunks).
  intros [u|e'] k; [intros ->|intros (c&->)]; apply wp_any; wps.
Qed.
Lemma list_dirs_wp dirs k : wp (list_dirs dirs) k (kept k).
Proof. induction dirs as [|d dirs IH]; cbn [list_dirs]; [done|]. wps. Qed.
Lemma stat_files_wp d l c t k : wp (stat_files d l c t) k (kept k).
Proof. revert c t. induction l as [|n l IH]; intros c t; cbn [stat_files]; [done|]. wps. Qed.
Lemma stat_dirs_wp l c t k : wp (stat_dirs l c t) k (kept k).
Proof. revert c t. induction l as [|d l IH]; intros c t; cbn [stat_dirs]; [done|]. wps. apply stat_files_wp. Qed.
#[local] Hint Resolve list_dirs_wp stat_dirs_wp : blob.

(** * The store under load *)

(** The operations callers start. *)
Inductive BlobOp : Type :=
  | OpPut (data : string) | OpPutReader (chunks : list string) (e : option err)
  | OpDeleteIfNotModifiedSince (hash : string) (cutoff : Z) | OpDelete (hash : string)
  | OpGet (hash : string) | OpExists (hash : string) | OpModTime (hash : string) | OpSize (hash : string)
  | OpVerify (hash : string) | OpList | OpStats.
Definition as_job {A} (p : prog BlobFS A) : prog BlobFS unit := pbind p (fun _ => Done tt).
Definition op_prog (o : BlobOp) : prog BlobFS unit :=
  match o with
  | OpPut data => as_job (Put sha256Hex data) | OpPutReader chunks e => as_job (PutReader sha256Hex chunks e)
  | OpDeleteIfNotModifiedSince h c => as_job (DeleteIfNotModifiedSince h c) | OpDelete h => as_job (blob_Delete h)
  | OpGet h => as_job (blob_read h) | OpExists h => as_job (blob_exists h) | OpModTime h => as_job (ModTime h) | OpSize h => as_job (Size h)
  | OpVerify h => as_job (Verify sha256Hex h) | OpList => as_job List_blobs | OpStats => as_job Stats
  end.

(** Operations start, make their calls in any order, and a crash stops them all. *)
Inductive load_step : BlobFS * list (prog BlobFS unit) -> BlobFS * list (prog BlobFS unit) -> Prop :=
  | load_start s ps o : load_step (s, ps) (s, op_prog o :: ps)
  | load_call s ps1 ps2 en X (f : Z -> BlobFS -> BlobFS * X) g now :
      en s = true -> load_step (s, ps1 ++ Call en f g :: ps2) ((f now s).1, ps1 ++ g (f now s).2 :: ps2)
  | load_crash s ps faults : load_step (s, ps) (mkBFS (bf_files s) false (bf_seq s) 0 faults, []).

Lemma op_prog_wp o : wp (op_prog o) None any.
Proof.
  destruct o; cbn [op_prog]; unfold as_job;
    first [eapply wp_step; [first [apply Put_wp|apply PutReader_wp]|done] | apply wp_any];
    unfold blob_Delete, blob_read, blob_exists, ModTime, Size, Verify, List_blobs, Stats; wps.
Qed.

(** Every running operation is safe and no two own the same temporary file. *)
Definition owner (q : prog BlobFS unit * know) : option nat := fst <$> q.2.
Definition load_inv (s : BlobFS) (ps : list (prog BlobFS unit)) : Prop :=
  addressed s /\ exists qs, ps = qs.*1 /\ Forall (fun q => wp q.1 q.2 any /\ holds q.2 s) qs /\ NoDup (omap owner qs).

Lemma holds_kept k k0 s s' : holds k0 s -> temps_kept k s s' -> (forall m, fst <$> k0 = Some m -> fst <$> k <> Some m) -> holds k0 s'.
Proof.
  destruct k0 as [[n c]|]; [|done]. intros [Hn Hc] [Hle Hf] Hne. split; [lia|]. destruct c; [|done]. rewrite Hf; [done..|]. by apply Hne.
Qed.
Lemma holds_bound q s m : holds q.2 s -> owner q = Some m -> (m < bf_seq s)%nat.
Proof. unfold owner. destruct q as [p [[n c]|]]; cbn; [|done]. by intros [? _] [= <-]. Qed.
Lemma owners_middle qs1 (q : prog BlobFS unit * know) qs2 :
  omap owner (qs1 ++ q :: qs2) ≡ₚ option_list (owner q) ++ omap owner (qs1 ++ qs2).
Proof. rewrite !omap_app. cbn. destruct (owner q); cbn; [|done]. by rewrite Permutation_middle. Qed.

Lemma load_inv_step s ps s' ps' : load_step (s, ps) (s', ps') -> load_inv s ps -> load_inv s' ps'.
Proof.
  inversion 1 as [? ? o|? ps1 ps2 en X f g now Hen|? ? faults]; subst; intros (Hs&qs&Hps&Hall&Hnd).
  - split; [done|]. exists ((op_prog o, None) :: qs). cbn. rewrite Hps. split; [done|]. split; [|done].
    constructor; [|done]. split; [apply op_prog_wp|done].
  - symmetry in Hps. apply fmap_app_inv in Hps as (qs1&qs'&->&Hq&->). symmetry in Hq. apply fmap_cons_inv in Hq as ([p k]&qs2&Hp&->&->). cbn in Hp.
    subst p. rewrite owners_middle in Hnd. apply NoDup_app in Hnd as (_&Hdis&Hnd).
    rewrite Forall_app, Forall_cons in Hall. destruct Hall as (H1&[Hw Hk]&H2).
    assert (Forall (fun q => wp q.1 q.2 any /\ holds q.2 s) (qs1 ++ qs2)) as Hoth by by apply Forall_app. clear H1 H2.
    destruct (Hw now s Hs Hk) as (Hs'&Ht&k'&Hk'&Hgr&Hw'). split; [done|]. exists (qs1 ++ (g (f now s).2, k') :: qs2).
    split; [by rewrite fmap_app|]. split.
    + assert (Forall (fun q => wp q.1 q.2 any /\ holds q.2 (f now s).1) (qs1 ++ qs2)) as Hn.
      { rewrite Forall_forall in Hoth |- *. intros q Hin. destruct (Hoth q Hin) as [? Hq]. split; [done|].
        eapply holds_kept; [done..|]. intros m Em Em'. apply (Hdis m); [rewrite (Em' : owner (Call en f g, k) = Some m); by left|]. apply list_elem_of_omap. eauto. }
      apply Forall_app in Hn as [? ?]. apply Forall_app. split; [done|]. by constructor.
    + rewrite owners_middle. apply NoDup_app. split; [by destruct (owner (g (f now s).2, k')); [apply NoDup_singleton|apply NoDup_nil]|]. split; [|done].
      intros m Hm Hin. destruct (owner (g (f now s).2, k')) as [m'|] eqn:Em; [|by apply elem_of_nil in Hm].
      apply list_elem_of_singleton in Hm as ->. destruct (Hgr _ Em) as [Ek|Hle].
      * apply (Hdis m'); [|done]. rewrite (Ek : owner (Call en f g, k) = Some m'). by left.
      * apply list_elem_of_omap in Hin as (q&Hq&Eq). rewrite Forall_forall in Hoth. destruct (Hoth q Hq) as [_ Hh].
        pose proof (holds_bound _ _ _ Hh Eq). lia.
  - split; [done|]. exists []. by repeat constructor.
Qed.

(** C7: Integrity of the blob store.  Start from a store in which every blob is
    named by the hash of its content and let any operations start, make their
    system calls in any interleaving, fail at any call with writes torn, and
    let the process crash and restart at any point: whatever the store then
    returns for a hash has that hash, [Verify] finds no corrupt blob, and every
    listed name is the hash of a stored content. *)
Theorem blob_integrity s0 s ps :
  addressed s0 -> rtc load_step (s0, []) (s, ps) ->
  (forall now h s' data, run now (blob_read h) s = Some (s', Ok data) -> sha256Hex data = h) /\
  (forall now h s', run now (Verify sha256Hex h) s <> Some (s', Ok false)) /\
  (forall d h x, bf_files s !! (d, h) = Some x -> d <> "tmp" -> d = str_take 2 h /\ sha256Hex x.1 = h).
Proof.
  intros H0 Hsteps. assert (load_inv s ps) as [Hs _].
  { remember (s0, []) as c eqn:Hc. remember (s, ps) as c' eqn:Hc'. assert (load_inv c.1 c.2) as Hinv.
    { subst. split; [done|]. exists []. by repeat constructor. }
    clear Hc. revert Hinv Hc'. induction Hsteps as [c|c [s1 ps1] c' Hst _ IH]; intros Hinv Hc'; [by subst|].
    apply IH; [|done]. destruct c. by eapply load_inv_step. }
  assert (forall h s1 (x : string * Z), (bsys intact (fun fs => (fs, of_option ErrNotExist (fs !! blobPath h))) s) = (s1, Ok x) -> IsValidHash h = true -> sha256Hex x.1 = h) as Hread.
  { intros h s1 [data mt] Hst Hv. unfold bsys in Hst. destruct (bf_faults s (bf_calls s)) as [[e n]|]; simplify_eq/=. ginv.
    unfold blobPath in *. destruct (String.length h <? 2)%nat eqn:El; [apply andb_true_iff in Hv as [Hv%Nat.eqb_eq _]; apply Nat.ltb_lt in El; lia|].
    edestruct Hs as [Hh _]; [done| |exact Hh]. by destruct h as [|? [|? ?]].
  }
  split; [|split].
  - intros now h s' data. unfold blob_read. destruct (IsValidHash h) eqn:Hv; [|done]. cbn -[bsys].
    destruct (bsys _ _ s) as [s1 [[data' mt]|e]] eqn:Eb; [|by case_match]. intros [= _ <-]. exact (Hread _ _ _ Eb Hv).
  - intros now h s'. unfold Verify. destruct (IsValidHash h) eqn:Hv; [|done]. cbn -[bsys].
    destruct (bsys _ _ s) as [s1 [[data' mt]|e]] eqn:Eb; [|done]. apply Hread in Eb; [|done]. cbn in Eb. by rewrite Eb, String.eqb_refl.
  - intros d h [data mt] Hl Hd. destruct (Hs _ _ _ _ Hl Hd). done.
Qed.

(** ** Writing, then reading *)

Lemma run_bind {S A C} now (p : prog S A) (g : A -> prog S C) s :
  run now (pbind p g) s = match run now p s with Some (s', a) => run now (g a) s' | None => None end.
Proof.
  revert s. induction p as [a|en X f k IH]; intros s; cbn; [done|]. destruct (en s); [|done]. destruct (f now s). apply IH.
Qed.

(** A store without faults whose lock is free. *)
Definition calm (s : BlobFS) : Prop := bf_locked s = false /\ forall n, bf_faults s n = None.
Lemma bsys_calm {A : Type} (torn : nat -> gmap file (string * Z) -> gmap file (string * Z)) (f : gmap file (string * Z) -> gmap file (string * Z) * result A) s :
  (forall n, bf_faults s n = None) -> exists s', bsys torn f s = (s', (f (bf_files s)).2) /\ bf_files s' = (f (bf_files s)).1 /\
    bf_locked s' = bf_locked s /\ bf_seq s' = bf_seq s /\ bf_faults s' = bf_faults s.
Proof. intros Hf. unfold bsys. rewrite Hf. destruct (f (bf_files s)) as [fs r]. eauto 8. Qed.
(** [p] runs to its end, with [R]. *)
Definition returns {A} now (p : prog BlobFS A) (s : BlobFS) (R : BlobFS -> A -> Prop) : Prop :=
  exists s' a, run now p s = Some (s', a) /\ R s' a.
Lemma returns_bind {A C} now (p : prog BlobFS A) (g : A -> prog BlobFS C) s R :
  returns now p s (fun s' a => returns now (g a) s' R) -> returns now (pbind p g) s R.
Proof. intros (s1&a&Hp&s2&c&Hg&HR). exists s2, c. by rewrite run_bind, Hp. Qed.
Lemma returns_sys {A : Type} (now : Z) (torn : Z -> nat -> gmap file (string * Z) -> gmap file (string * Z))
    (f : Z -> gmap file (string * Z) -> gmap file (string * Z) * result A) s (R : BlobFS -> result A -> Prop) :
  calm s -> (forall s', calm s' -> bf_files s' = (f now (bf_files s)).1 -> R s' (f now (bf_files s)).2) ->
  returns now (call (fun t => bsys (torn t) (f t))) s R.
Proof.
  intros [Hl Hf] HR. destruct (bsys_calm (torn now) (f now) s Hf) as (s'&Hs'&?&Hl'&?&Hf').
  exists s', (f now (bf_files s)).2. cbn. rewrite Hs'. split; [done|]. apply HR; [|done]. unfold calm. by rewrite Hl', Hf'.
Qed.
Lemma touch_returns now h s (R : BlobFS -> result bool -> Prop) :
  IsValidHash h = true -> calm s ->
  (forall s', calm s' -> match bf_files s !! blobPath h with
                         | Some (d, _) => bf_files s' = <[blobPath h := (d, now)]> (bf_files s) -> R s' (Ok true)
                         | None => bf_files s' = bf_files s -> R s' (Ok false)
                         end) ->
  returns now (touchIfExists h) s R.
Proof.
  intros Hv [Hl Hf] HR. unfold touchIfExists, returns. rewrite Hv. cbn. rewrite Hl. cbn. unfold bsys. cbn. rewrite Hf.
  destruct (bf_files s !! blobPath h) as [[d mt]|]; cbn; eexists _, _; (split; [done|]); apply HR; try done; by split.
Qed.
Lemma CreateTemp_returns now s (R : BlobFS -> result file -> Prop) :
  calm s -> (forall s', calm s' -> bf_files s' = <[temp_name (bf_seq s) := ("", now)]> (bf_files s) -> R s' (Ok (temp_name (bf_seq s)))) ->
  returns now CreateTemp s R.
Proof. intros [Hl Hf] HR. unfold returns. cbn. unfold bsys. cbn. rewrite Hf. eexists _, _. split; [done|]. apply HR; [|done]. by split. Qed.

Lemma writeAtomically_returns now h data s :
  IsValidHash h = true -> blobPath h = (str_take 2 h, h) -> calm s -> bf_files s !! blobPath h = None ->
  returns now (writeAtomically h data) s (fun s' r => r = Ok tt /\ calm s' /\ bf_files s' !! blobPath h = Some (data, now)).
Proof.
  intros Hv Hbp Hc Hn. unfold writeAtomically. set (tmp := temp_name (bf_seq s)).
  apply returns_bind, CreateTemp_returns; [done|]. intros s1 Hc1 Hf1.
  apply returns_bind, (returns_sys _ (fun t n => append_to tmp (str_take n data) t)); [done|]. intros s2 Hc2 Hf2. cbn [snd].
  apply returns_bind, (returns_sys _ (fun _ => intact)); [done|]. intros s3 Hc3 Hf3. cbn [snd].
  assert (bf_files s3 = <[tmp := (data, now)]> (bf_files s)) as Hf3'.
  { rewrite Hf3. cbn. rewrite Hf2. cbn. unfold append_to. rewrite Hf1. fold tmp. rewrite lookup_insert_eq. cbn. apply insert_insert_eq. }
  apply returns_bind, touch_returns; [done..|]. intros s4 Hc4.
  rewrite Hf3', lookup_insert_ne, Hn by apply temp_not_blob. intros Hf4.
  apply returns_bind, (returns_sys _ (fun _ => intact)); [done|]. intros s5 Hc5 Hf5. cbn [snd].
  apply returns_bind, (returns_sys _ (fun _ => intact)); [done|]. intros s6 Hc6. cbn in Hf5.
  rewrite Hf5, Hf4. rewrite lookup_insert_eq. cbn. intros Hf6.
  eexists _, _. split; [done|]. split; [done|]. split; [done|]. rewrite Hf6, Hbp. apply lookup_insert_eq.
Qed.

(** Without faults a write is found by its hash, whether the blob was there
    before or not, unless another content with the same hash is stored. *)
Theorem put_then_get now now' s data :
  IsValidHash (sha256Hex data) = true -> addressed s -> bf_locked s = false -> (forall n, bf_faults s n = None) ->
  (forall p d mt, bf_files s !! p = Some (d, mt) -> p.1 <> "tmp" -> sha256Hex d = sha256Hex data -> d = data) ->
  exists s', run now (Put sha256Hex data) s = Some (s', Ok (sha256Hex data)) /\
    (exists mt, bf_files s' !! blobPath (sha256Hex data) = Some (data, mt) /\ mt = now) /\
    exists s'', run now' (blob_read (sha256Hex data)) s' = Some (s'', Ok data).
Proof.
  intros Hv Hs Hl Hf Hcol. set (h := sha256Hex data) in *.
  assert (blobPath h = (str_take 2 h, h)) as Hbp.
  { unfold blobPath. destruct (String.length h <? 2)%nat eqn:E; [|done]. apply andb_true_iff in Hv as [Hv%Nat.eqb_eq _]. apply Nat.ltb_lt in E. lia. }
  assert (str_take 2 h <> "tmp") as Htmp by by destruct h as [|? [|? ?]].
  assert (forall s' mt, calm s' -> bf_files s' !! blobPath h = Some (data, mt) -> exists s'', run now' (blob_read h) s' = Some (s'', Ok data)) as Hget.
  { intros s' mt Hc Hd. unfold blob_read. rewrite Hv. cbn [negb].
    assert (returns now' (do r <- Stat (blobPath h);
      Done (match r with Ok (d, _) => Ok d | Err e => if errors_is e ErrNotExist then Err (Wrap ("blob " +:+ h) ErrNotFound) else Err (Wrap "opening blob" e) end))
      s' (fun _ r => r = Ok data)) as (s''&r&Hr&->); [|by eauto].
    apply returns_bind, (returns_sys _ (fun _ => intact)); [done|]. intros s1 _ _. cbn. rewrite Hd. cbn. by eexists _, _. }
  assert (returns now (Put sha256Hex data) s (fun s' r => r = Ok h /\ calm s' /\ bf_files s' !! blobPath h = Some (data, now))) as (s'&r&Hr&->&Hc&Hd).
  { unfold Put. fold h. apply returns_bind, touch_returns; [done|by split|]. intros s1 Hc1.
    destruct (bf_files s !! blobPath h) as [[d mt]|] eqn:Eh; intros Hf1.
    - assert (d = data) as ->.
      { eapply Hcol; [done|by rewrite Hbp|]. rewrite Hbp in Eh. by destruct (Hs _ _ _ _ Eh). }
      eexists _, _. split; [done|]. split; [done|]. split; [done|]. rewrite Hf1. apply lookup_insert_eq.
    - apply returns_bind. destruct (writeAtomically_returns now h data s1 Hv Hbp Hc1) as (s2&r&Hw&->&Hc2&Hd); [by rewrite Hf1|].
      exists s2, (Ok tt). split; [done|]. by eexists _, _. }
  exists s'. split; [done|]. split; [eauto|]. by eapply Hget.
Qed.
End Integrity.

(** * A crash in the middle of a write *)

Section Demo.
Definition toy_sha (d : string) : string :=
  if String.eqb d "x" then "aaaaaaaaaaaaaaaaaaaaaaaaaaaaaaaaaaaaaaaaaaaaaaaaaaaaaaaaaaaaaaaa"
  else "bbbbbbbbbbbbbbbbbbbbbbbbbbbbbbbbbbbbbbbbbbbbbbbbbbbbbbbbbbbbbbbb".
Definition empty_store : BlobFS := mkBFS ∅ false 0 0 (fun n => if (n =? 2)%nat then Some (Errorf "disk full", 0%nat) else None).
(** The first [n] calls of a single operation. *)
Fixpoint play (n : nat) (now : Z) (p : prog BlobFS unit) (s : BlobFS) : BlobFS * list (prog BlobFS unit) :=
  match n, p with
  | S n, Call en f g => if en s then play n now (g (f now s).2) (f now s).1 else (s, [p])
  | _, _ => (s, [p])
  end.
Lemma play_steps n now p s : rtc (load_step toy_sha) (s, [p]) (play n now p s).
Proof.
  revert p s. induction n as [|n IH]; intros p s; [done|]. destruct p as [a|en X f g]; cbn; [done|]. destruct (en s) eqn:E; [|done].
  eapply rtc_l; [exact (load_call toy_sha s [] [] en X f g now E)|]. apply IH.
Qed.
(** A write that fails and is cut short by a crash, then one that succeeds. *)
Definition write_x : prog BlobFS unit := op_prog toy_sha (OpPut "x").
Definition cut_short : BlobFS * list (prog BlobFS unit) := play 7 5 write_x empty_store.
Definition after_crash : BlobFS := mkBFS (bf_files cut_short.1) false (bf_seq cut_short.1) 0 (fun _ => None).
Definition retried : BlobFS * list (prog BlobFS unit) := play 100 7 write_x after_crash.

Lemma crash_and_retry : rtc (load_step toy_sha) (empty_store, []) (retried.1, retried.2).
Proof.
  eapply rtc_l; [exact (load_start toy_sha empty_store [] (OpPut "x"))|].
  eapply rtc_trans; [exact (play_steps 7 5 write_x empty_store)|].
  eapply rtc_l; [|eapply rtc_l; [exact (load_start toy_sha after_crash [] (OpPut "x"))|rewrite <- surjective_pairing; exact (play_steps 100 7 write_x after_crash)]].
  fold cut_short. rewrite (surjective_pairing cut_short). exact (load_crash toy_sha cut_short.1 cut_short.2 (fun _ => None)).
Qed.
Lemma blob_integrity_witness :
  snd <$> run 9 (blob_read (toy_sha "x")) retried.1 = Some (Ok "x") /\
  forall now h s' data, run now (blob_read h) retried.1 = Some (s', Ok data) -> toy_sha data = h.
Proof.
  split; [vm_compute; reflexivity|].
  refine (proj1 (blob_integrity toy_sha empty_store retried.1 retried.2 _ crash_and_retry)). by intros d n data mt.
Defined.
End Demo.
