(* ===== verification/BlobGCThm.v ===== *)
(** What the garbage collector may remove ([BlobGC]).

    The collector runs among everything else: its calls find arbitrary states
    ([observe], [effects]).  A reference that moves between the places it scans
    (mail records, the two queues, the spool's directories) can slip through a
    scan only by moving against the order of the scan while it runs, and a
    removal needs two scans to miss it. *)

From S2P Require Import Prelude GoStrings Pebble Proto Mailbox Credentials Queue Envelope Spool BlobStore BlobGC PoolThm.
From Stdlib Require Import Ascii.

(** * Programs against observations *)

Lemma observe_bind {S A C} (p : prog S A) (g : A -> prog S C) obs c :
  observe (pbind p g) obs = Some c <->
  exists o1 o2 a, obs = o1 ++ o2 /\ observe p o1 = Some a /\ observe (g a) o2 = Some c.
Proof.
  revert obs. induction p as [a|en X f k IH]; intros obs; cbn.
  - split; [intros; by exists [], obs, a|]. intros ([|??]&o2&a'&->&?&?); by simplify_eq/=.
  - destruct obs as [|[now s] obs].
    { split; [done|]. by intros ([|??]&o2&a&?&?&?). }
    destruct (en s) eqn:E.
    + rewrite IH. split.
      * intros (o1&o2&a&->&?&?). exists ((now, s) :: o1), o2, a. cbn. by rewrite E.
      * intros ([|[??] o1]&o2&a&?&Ho&?); simplify_eq/=. rewrite E in Ho. by exists o1, o2, a.
    + split; [done|]. intros ([|[??] o1]&o2&a&?&Ho&?); simplify_eq/=. by rewrite E in Ho.
Qed.

(** A call of [pbind p g] belongs to [p], or to [g a] after [p] returned [a]. *)
Lemma effects_bind {S A C} (p : prog S A) (g : A -> prog S C) obs e :
  e ∈ effects (pbind p g) obs ->
  e ∈ effects p obs \/ exists o1 o2 a, obs = o1 ++ o2 /\ observe p o1 = Some a /\ e ∈ effects (g a) o2.
Proof.
  revert obs. induction p as [a|en X f k IH]; intros obs; cbn; [intros; right; by exists [], obs, a|].
  destruct obs as [|[now s] obs]; [by left|]. destruct (en s) eqn:E; [|by left].
  intros [->|He]%elem_of_cons; [left; left|]. destruct (IH _ _ He) as [?|(o1&o2&a&->&?&?)]; [left; by right|].
  right. exists ((now, s) :: o1), o2, a. cbn. by rewrite E.
Qed.

(** Every call of the program keeps [P]. *)
Fixpoint keeps {S A} (P : S -> S -> Prop) (p : prog S A) : Prop :=
  match p with
  | Done _ => True
  | Call en f k => (forall now s, P s (f now s).1) /\ forall x, keeps P (k x)
  end.
Lemma keeps_effects {S A} (P : S -> S -> Prop) (p : prog S A) obs e : keeps P p -> e ∈ effects p obs -> P e.1 e.2.
Proof.
  revert obs. induction p as [a|en X f k IH]; intros obs; cbn; [by intros _ ?%elem_of_nil|].
  intros [Hf Hk]. destruct obs as [|[now s] obs]; [by intros ?%elem_of_nil|]. case_match; [|by intros ?%elem_of_nil].
  intros [->|?]%elem_of_cons; [apply Hf|by eapply IH].
Qed.
Lemma prog_keeps_bind {S A C} (P : S -> S -> Prop) (p : prog S A) (g : A -> prog S C) : keeps P p -> (forall a, keeps P (g a)) -> keeps P (pbind p g).
Proof. intros Hp Hg. induction p as [a|en X f k IH]; cbn in *; [done|]. destruct Hp. auto. Qed.
Lemma keeps_plift {S W A} (get : W -> S) (put : S -> W -> W) (P : S -> S -> Prop) (Q : W -> W -> Prop) (p : prog S A) :
  (forall w s, P (get w) s -> Q w (put s w)) -> keeps P p -> keeps Q (plift get put p).
Proof. intros HQ Hp. induction p as [a|en X f k IH]; cbn in *; [done|]. destruct Hp. auto. Qed.

(** [obinv] takes a complete run apart. *)
Ltac obinv :=
  repeat match goal with
  | H : observe (pbind _ _) _ = Some _ |- _ => apply observe_bind in H as (?&?&?&->&?&?)
  | H : observe (Done _) ?o = Some _ |- _ => destruct o; [|done]; cbn in H
  | H : observe (call _) ?o = Some _ |- _ => destruct o as [|[??] [|??]]; [done| |done]; cbn in H
  | H : observe (match ?r with Ok _ => _ | Err _ => _ end) _ = Some (Ok _) |- _ => destruct r
  | _ => progress simplify_eq/=
  end.

(** * Order *)

(** At most one step down. *)
Definition one_retreat (l : list nat) : Prop := exists l1 l2, l = l1 ++ l2 /\ StronglySorted Nat.le l1 /\ StronglySorted Nat.le l2.

Lemma sorted_app {A} (R : A -> A -> Prop) (l1 l2 : list A) : StronglySorted R (l1 ++ l2) -> StronglySorted R l1 /\ StronglySorted R l2.
Proof.
  induction l1 as [|x l1 IH]; cbn; [split; [constructor|done]|]. inversion 1 as [|?? Hs Hall]; subst.
  destruct (IH Hs). split; [|done]. constructor; [done|]. by apply Forall_app in Hall as [? ?].
Qed.

(** Of two stretches apart, one has no step down. *)
Lemma retreat_once (a s1 b s2 c : list nat) :
  one_retreat (a ++ s1 ++ b ++ s2 ++ c) -> StronglySorted Nat.le s1 \/ StronglySorted Nat.le s2.
Proof.
  intros (l1&l2&Heq&H1&H2). rewrite (assoc_L app a) in Heq. apply app_eq_inv in Heq as [(k&_&->)|(k&->&_)].
  - right. apply sorted_app in H2 as [_ H2]. apply sorted_app in H2 as [_ H2]. by apply sorted_app in H2 as [? _].
  - left. apply sorted_app in H1 as [H1 _]. by apply sorted_app in H1 as [_ ?].
Qed.

(** * References found by a scan *)

Lemma add_hash_sub h ref : ref ⊆ add_hash h ref.
Proof. unfold add_hash. case_match; set_solver. Qed.
Lemma add_hash_in h ref : h <> "" -> h ∈ add_hash h ref.
Proof. unfold add_hash. case_match eqn:E; [by apply String.eqb_eq in E|set_solver]. Qed.
Lemma add_refs_sub l ref : ref ⊆ add_refs l ref.
Proof. revert ref. induction l as [|b l IH]; intros ref; cbn; [done|]. etrans; [apply add_hash_sub|apply IH]. Qed.
Lemma add_refs_in l b ref : br_Hash b <> "" -> b ∈ l -> br_Hash b ∈ add_refs l ref.
Proof.
  intros Hne. revert ref. induction l as [|c l IH]; intros ref; [by intros ?%elem_of_nil|].
  intros [<-|?]%elem_of_cons; cbn; [|by apply IH]. apply (add_refs_sub l). by apply add_hash_in.
Qed.
Lemma add_envs_sub l ref : ref ⊆ add_envs l ref.
Proof. revert ref. induction l as [|b l IH]; intros ref; cbn; [done|]. etrans; [apply add_hash_sub|apply IH]. Qed.
Lemma add_envs_in l env ref : qe_BlobHash env <> "" -> env ∈ l -> qe_BlobHash env ∈ add_envs l ref.
Proof.
  intros Hne. revert ref. induction l as [|c l IH]; intros ref; [by intros ?%elem_of_nil|].
  intros [<-|?]%elem_of_cons; cbn; [|by apply IH]. apply (add_envs_sub l). by apply add_hash_in.
Qed.

Definition meta_names (h : string) (meta : MailMeta) : Prop :=
  (exists b, mm_RawMessage meta = Some b /\ br_Hash b = h) \/ exists b, b ∈ mm_Attachments meta /\ br_Hash b = h.
Definition out_names (h : string) (msg : OutboundMessage) : Prop :=
  om_BlobHash msg = h \/ exists b, b ∈ om_Attachments msg /\ br_Hash b = h.

Lemma meta_refs_sub meta ref : ref ⊆ meta_refs meta ref.
Proof. unfold meta_refs. etrans; [|apply add_refs_sub]. case_match; [apply add_hash_sub|done]. Qed.
Lemma meta_refs_in h meta ref : h <> "" -> meta_names h meta -> h ∈ meta_refs meta ref.
Proof.
  unfold meta_refs. intros Hne [(b&->&<-)|(b&?&<-)]; [|by apply add_refs_in]. apply add_refs_sub. by apply add_hash_in.
Qed.
Lemma out_refs_sub msg ref : ref ⊆ out_refs msg ref.
Proof. unfold out_refs. etrans; [|apply add_refs_sub]. apply add_hash_sub. Qed.
Lemma out_refs_in h msg ref : h <> "" -> out_names h msg -> h ∈ out_refs msg ref.
Proof. unfold out_refs. intros Hne [<-|(b&?&<-)]; [|by apply add_refs_in]. apply add_refs_sub. by apply add_hash_in. Qed.

Section Scan.
Context {DB : Type} `{PebbleClose DB} `{Codec MailMeta} `{Codec OutboundMessage} `{Codec QueueEnvelope} `{GoUnicode}.
Notation W := (GCWorld DB).
Variable hasSpool : bool.
(** A blob and an envelope's file name. *)
Variables h name : string.
Hypothesis h_some : h <> "".
Hypothesis name_env : isEnvelopeFile name = true.

Lemma mail_entries_spec l ref ref' :
  mail_entries l ref = Ok ref' ->
  ref ⊆ ref' /\ forall k v meta, (k, Ok v) ∈ l -> is_Some (ParseMailMetaKey k) -> unmarshal v = Ok meta -> meta_names h meta -> h ∈ ref'.
Proof.
  revert ref. induction l as [|[k v] l IH]; intros ref; cbn; [intros [= ->]; split; [done|]; by intros ??? ?%elem_of_nil|].
  destruct (ParseMailMetaKey k) as [p|] eqn:Ek.
  - destruct v as [v|e]; cbn.
    + destruct (unmarshal v) as [meta|e] eqn:Ev; [|done]. intros [Hsub Hin]%IH. split; [etrans; [apply meta_refs_sub|done]|].
      intros k' v' meta' [?|?]%elem_of_cons ???; [|by eapply Hin]. simplify_eq. apply Hsub, meta_refs_in; [done|congruence].
    + intros [Hsub Hin]%IH. split; [done|]. intros k' v' meta' [?|?]%elem_of_cons ???; [done|by eapply Hin].
  - intros [Hsub Hin]%IH. split; [done|]. intros k' v' meta' [?|?]%elem_of_cons Hk ??; [|by eapply Hin]. simplify_eq. rewrite Ek in Hk. by destruct Hk.
Qed.
Lemma queue_entries_spec l ref ref' :
  queue_entries l ref = Ok ref' ->
  ref ⊆ ref' /\ forall k v msg, (k, Ok v) ∈ l -> unmarshal v = Ok msg -> out_names h msg -> h ∈ ref'.
Proof.
  revert ref. induction l as [|[k v] l IH]; intros ref; cbn; [intros [= ->]; split; [done|]; by intros ??? ?%elem_of_nil|].
  destruct v as [v|e]; cbn.
  - destruct (unmarshal v) as [msg|e] eqn:Ev; [|done]. intros [Hsub Hin]%IH. split; [etrans; [apply out_refs_sub|done]|].
    intros k' v' msg' [?|?]%elem_of_cons ??; [|by eapply Hin]. simplify_eq. apply Hsub, out_refs_in; [done|congruence].
  - intros [Hsub Hin]%IH. split; [done|]. intros k' v' msg' [?|?]%elem_of_cons ??; [done|by eapply Hin].
Qed.

(** A scan without error has seen every key of its prefix. *)
Lemma scan_prefix_spec prefix o c entries ref d ref' :
  scan_prefix prefix o c entries ref d = Ok ref' ->
  exists l, entries l ref = Ok ref' /\ forall k v, contents d !! k = Some v -> HasPrefix k prefix = true -> (k, Ok v) ∈ l.
Proof.
  unfold scan_prefix. intros Hs. ginv. case_match eqn:Hc; [done|]. simplify_eq. eexists. split; [done|]. intros k v Hk Hp.
  unfold PrefixScan in *. ginv. eapply db_close_clean; [done..|]. by apply prefix_bounds.
Qed.

(** Where [h] is referenced: 0 a mail record, 1 and 2 the queues, from 3 on the
    spool's directories, which an envelope called [name] moves between. *)
Definition ref_at (i : nat) (w : W) : Prop :=
  match i with
  | 0%nat => exists k v meta, contents (gc_db w) !! k = Some v /\ is_Some (ParseMailMetaKey k) /\ unmarshal v = Ok meta /\ meta_names h meta
  | 1%nat => exists k v msg, contents (gc_db w) !! k = Some v /\ HasPrefix k "/queue/pending/" = true /\ unmarshal v = Ok msg /\ out_names h msg
  | 2%nat => exists k v msg, contents (gc_db w) !! k = Some v /\ HasPrefix k "/queue/bounced/" = true /\ unmarshal v = Ok msg /\ out_names h msg
  | S (S (S j)) => hasSpool = true /\ exists dir data, spoolScanDirs !! j = Some dir /\ sp_files (gc_spool w) !! (dir, name) = Some data
  end.
(** Every file of that name is an envelope of the blob. *)
Definition names_only (w : W) : Prop :=
  forall dir data, sp_files (gc_spool w) !! (dir, name) = Some data -> exists env, unmarshal data = Ok env /\ qe_BlobHash env = h.

(** One step of a scan of the database: what was found stays, what is there is found. *)
Lemma scan_mail_step ref w ref' :
  scan_mail ref (gc_db w) = Ok ref' -> ref ⊆ ref' /\ (ref_at 0 w -> h ∈ ref').
Proof.
  intros (l&Hl&Hall)%scan_prefix_spec. apply mail_entries_spec in Hl as [? Hin]. split; [done|].
  intros (k&v&meta&Hk&Hp&Hu&Hn). refine (Hin _ _ _ (Hall _ _ Hk _) Hp Hu Hn).
  unfold ParseMailMetaKey in Hp. destruct (HasPrefix k "/user/"); [done|by destruct Hp].
Qed.
Lemma scan_queue_step i prefix ref w ref' :
  (i = 1%nat /\ prefix = "/queue/pending/") \/ (i = 2%nat /\ prefix = "/queue/bounced/") ->
  scan_queue prefix ref (gc_db w) = Ok ref' -> ref ⊆ ref' /\ (ref_at i w -> h ∈ ref').
Proof.
  intros Hi (l&Hl&Hall)%scan_prefix_spec. apply queue_entries_spec in Hl as [? Hin]. split; [done|].
  destruct Hi as [[-> ->]|[-> ->]]; intros (k&v&msg&Hk&Hp&Hu&Hn); exact (Hin _ _ _ (Hall _ _ Hk Hp) Hu Hn).
Qed.

(** ** The spool *)

Lemma spool_read_all_finds dir l obs envs :
  observe (spool_read_all dir l) obs = Some (Ok envs) -> name ∈ l -> Forall (fun o => names_only o.2) obs ->
  exists env, env ∈ envs /\ qe_BlobHash env = h.
Proof.
  revert obs envs. induction l as [|n l IH]; intros obs envs Ho Hin Hall; [by apply elem_of_nil in Hin|]. cbn in Ho.
  destruct (isEnvelopeFile n) eqn:En; cbn in Ho.
  - destruct obs as [|[t w] obs]; [done|]. apply Forall_cons in Hall as [Hw Hall].
    destruct (gwrap _ (ReadEnvelope dir (id_of n)) (gc_spool w)) as [s' [env|e]] eqn:Er; cbn in Ho; [|by destruct obs].
    obinv. ginv. apply elem_of_cons in Hin as [<-|Hin].
    + exists env. split; [left|]. unfold ReadEnvelope in Er. ginv. unfold ReadFile, sys in *.
      unfold env_file in *. rewrite <- envelope_name in * by done.
      repeat case_match; simplify_eq/=; ginv. destruct (Hw dir x2) as (env'&?&<-); [done|congruence].
    + apply Forall_app in Hall as [Hall _]. edestruct IH as (env'&?&?); [done..|]. exists env'. split; [by right|done].
  - apply elem_of_cons in Hin as [->|Hin]; [congruence|]. by eapply IH.
Qed.

(** The first call of a listing is the one that lists. *)
Lemma spool_List_finds dir obs envs :
  observe (spool_List dir) obs = Some (Ok envs) -> Forall (fun o => names_only o.2) obs ->
  exists t w obs', obs = (t, w) :: obs' /\
    (is_Some (sp_files (gc_spool w) !! (dir, name)) -> exists env, env ∈ envs /\ qe_BlobHash env = h).
Proof.
  unfold spool_List. intros Ho Hall. destruct obs as [|[t w] obs]; [done|]. cbn in Ho. exists t, w, obs. split; [done|].
  intros [data Hd]. apply Forall_cons in Hall as [_ Hall].
  destruct (gwrap _ (ReadDir dir) (gc_spool w)) as [s' [entries|e]] eqn:Er; cbn in Ho; [|by destruct obs].
  eapply spool_read_all_finds; [done| |done]. ginv. unfold ReadDir, sys in Er. case_match; [by destruct p|]. simplify_eq/=.
  unfold names. rewrite merge_sort_Permutation. apply list_elem_of_omap. exists ((dir, name), data).
  rewrite elem_of_map_to_list. cbn. by rewrite String.eqb_refl.
Qed.

Lemma scan_dirs_sub pass dirs ref (obs : list (Z * W)) ref' : observe (scan_dirs pass dirs ref) obs = Some (Ok ref') -> ref ⊆ ref'.
Proof.
  revert ref obs. induction dirs as [|d dirs IH]; intros ref obs Ho; cbn [scan_dirs] in Ho; obinv; [done|].
  etrans; [apply add_envs_sub|by eapply IH].
Qed.

Variable loc : W -> nat.
Notation watched := (Forall (fun o : Z * W => names_only o.2 /\ ref_at (loc o.2) o.2)).
Notation course obs := ((fun o : Z * W => loc o.2) <$> obs).

Lemma sorted_later o obs : StronglySorted Nat.le (course (o :: obs)) -> Forall (fun o' => loc o.2 <= loc o'.2)%nat obs.
Proof. cbn. inversion 1 as [|?? _ Hall]; subst. rewrite Forall_fmap in Hall. exact Hall. Qed.

Lemma sorted_tail o obs : StronglySorted Nat.le (course (o :: obs)) -> StronglySorted Nat.le (course obs).
Proof. cbn. by inversion 1. Qed.

(** A pass over the directories sees an envelope that never moves backwards. *)
Lemma scan_dirs_finds pass j ref (obs : list (Z * W)) ref' :
  observe (scan_dirs pass (drop j spoolScanDirs) ref) obs = Some (Ok ref') -> watched obs ->
  StronglySorted Nat.le (course obs) -> Forall (fun o => 3 + j <= loc o.2)%nat obs -> h ∈ ref' \/ drop j spoolScanDirs = [].
Proof.
  remember (drop j spoolScanDirs) as dirs eqn:Hj. revert j Hj ref obs.
  induction dirs as [|d dirs IH]; intros j Hj ref obs Ho Hw Hs Hlow; [by right|]. left. cbn [scan_dirs] in Ho. obinv.
  rewrite fmap_app in Hs. pose proof (sorted_app _ _ _ Hs) as [_ Hs2].
  apply Forall_app in Hw as [Hw1 Hw2]. apply Forall_app in Hlow as [Hlow1 Hlow2].
  assert (spoolScanDirs !! j = Some d) as Hd by (rewrite <- (Nat.add_0_r j), <- lookup_drop, <- Hj; done).
  assert (dirs = drop (S j) spoolScanDirs) as Hj' by (rewrite <- Nat.add_1_r, <- drop_drop, <- Hj; done).
  destruct (spool_List_finds d x a) as (t&w&obs'&->&Hfind); [done|by eapply Forall_impl; [exact Hw1|intros ? []]|].
  apply Forall_cons in Hw1 as [[_ Hr] _]. apply Forall_cons in Hlow1 as [Hl _]. cbn in Hr, Hl.
  destruct (decide (loc w = 3 + j)%nat) as [Heq|Hne].
  - rewrite Heq in Hr. cbn in Hr. destruct Hr as (_&dir&data&Hdir&Hdata).
    assert (dir = d) as -> by congruence.
    destruct Hfind as (env&Hin&Hh); [by eexists|]. rewrite <- Hh. eapply scan_dirs_sub; [done|]. apply add_envs_in; [by rewrite Hh|done].
  - rewrite <- fmap_app in Hs. cbn [app] in Hs. apply sorted_later in Hs. apply Forall_app in Hs as [_ Hlater].
    edestruct (IH (S j)) as [?|Hnil]; [done..| |done|].
    + eapply Forall_impl; [exact Hlater|]. cbn. intros. lia.
    + exfalso. rewrite Hnil in Hj'. destruct (loc w) as [|[|[|k]]] eqn:Ek; [lia..|]. destruct Hr as (_&dir&data&Hdir&_).
      assert (length spoolScanDirs <= S j)%nat by (apply (f_equal length) in Hj'; rewrite length_drop in Hj'; cbn in *; lia).
      apply lookup_lt_Some in Hdir. lia.
Qed.

Lemma collectSpoolBlobs_inv ref (obs : list (Z * W)) ref' :
  observe (collectSpoolBlobs ref) obs = Some (Ok ref') ->
  exists p1 p2 o1 o2 ref1, obs = o1 ++ o2 /\ observe (scan_dirs p1 spoolScanDirs ref) o1 = Some (Ok ref1) /\
    observe (scan_dirs p2 spoolScanDirs ref1) o2 = Some (Ok ref').
Proof.
  unfold collectSpoolBlobs, spoolScanPasses. intros Ho. cbn [scan_passes] in Ho. obinv. rewrite app_nil_r. naive_solver.
Qed.

(** Two passes see an envelope that moves backwards once. *)
Lemma collectSpoolBlobs_finds ref (obs : list (Z * W)) ref' :
  observe (collectSpoolBlobs ref) obs = Some (Ok ref') -> watched obs -> one_retreat (course obs) ->
  Forall (fun o => 3 <= loc o.2)%nat obs -> h ∈ ref'.
Proof.
  intros (p1&p2&o1&o2&ref1&->&H1'&H2')%collectSpoolBlobs_inv Hw Hr Hlow.
  apply Forall_app in Hw as [Hw1 Hw2]. apply Forall_app in Hlow as [Hl1 Hl2]. rewrite fmap_app in Hr.
  destruct (retreat_once [] (course o1) [] (course o2) []) as [Hs|Hs]; [by rewrite app_nil_r| |].
  - eapply scan_dirs_sub; [done|]. by edestruct (scan_dirs_finds p1 0) as [?|?].
  - by edestruct (scan_dirs_finds p2 0) as [?|?].
Qed.

(** A whole scan sees a reference that never moves backwards. *)
Lemma collectReferencedBlobs_finds obs ref :
  observe (collectReferencedBlobs hasSpool) obs = Some (Ok ref) -> watched obs -> StronglySorted Nat.le (course obs) -> h ∈ ref.
Proof.
  unfold collectReferencedBlobs, on_db. intros Ho Hw Hs.
  destruct obs as [|[t1 w1] obs]; [done|]. cbn in Ho. destruct (scan_mail ∅ (gc_db w1)) as [r1|e] eqn:E1; [|by destruct obs].
  destruct obs as [|[t2 w2] obs]; [done|]. cbn in Ho. destruct (scan_queue _ r1 (gc_db w2)) as [r2|e] eqn:E2; [|by destruct obs].
  destruct obs as [|[t3 w3] obs]; [done|]. cbn in Ho. destruct (scan_queue _ r2 (gc_db w3)) as [r3|e] eqn:E3; [|by destruct obs].
  apply scan_mail_step in E1 as [_ F1]. apply (scan_queue_step 1) in E2 as [S2 F2]; [|auto]. apply (scan_queue_step 2) in E3 as [S3 F3]; [|auto].
  assert (r3 ⊆ ref) as S4.
  { destruct hasSpool; [|by obinv]. apply collectSpoolBlobs_inv in Ho as (?&?&?&?&?&_&?&?).
    etrans; eapply scan_dirs_sub; done. }
  rewrite !Forall_cons in Hw. destruct Hw as ([_ R1]&[_ R2]&[_ R3]&Hw). cbn in R1, R2, R3.
  pose proof (sorted_later _ _ Hs) as L1. apply sorted_tail in Hs. pose proof (sorted_later _ _ Hs) as L2. apply sorted_tail in Hs.
  pose proof (sorted_later _ _ Hs) as L3. apply sorted_tail in Hs. apply Forall_cons in L1 as [L1 _]. apply Forall_cons in L2 as [L2 _]. cbn in L1, L2.
  destruct (loc w1) as [|n1] eqn:N1; [by apply S4, S3, S2, F1|].
  destruct (loc w2) as [|[|n2]] eqn:N2; [lia|by apply S4, S3, F2|].
  destruct (loc w3) as [|[|[|n3]]] eqn:N3; [lia..|by apply S4, F3|]. destruct R3 as [Hsp _]. rewrite Hsp in Ho.
  eapply collectSpoolBlobs_finds; [exact Ho|exact Hw| |].
  - exists (course obs), []. rewrite app_nil_r. repeat split; [done|constructor].
  - eapply Forall_impl; [exact L3|]. cbn. rewrite N3. intros. lia.
Qed.
End Scan.

(** * What a pass removes *)

Definition removes (h : string) (s s' : BlobFS) : Prop := is_Some (bf_files s !! blobPath h) /\ bf_files s' !! blobPath h = None.
(** Only the file of blob [h], or nothing, changes. *)
Definition others_kept (h : option string) (s s' : BlobFS) : Prop :=
  forall p, Some p <> (blobPath <$> h) -> bf_files s' !! p = bf_files s !! p.

Lemma bsys_intact {A} (f : gmap file (string * Z) -> gmap file (string * Z) * result A) h s :
  (forall fs p, Some p <> (blobPath <$> h) -> (f fs).1 !! p = fs !! p) -> others_kept h s (bsys intact f s).1.
Proof.
  intros Hf p Hp. unfold bsys. destruct (bf_faults s (bf_calls s)) as [[e n]|]; cbn; [done|].
  specialize (Hf (bf_files s) p Hp). by destruct (f (bf_files s)).
Qed.
Lemma Stat_kept h p : keeps (others_kept h) (Stat p).
Proof. split; [|done]. intros _ s. by apply bsys_intact. Qed.
Lemma bReadDir_kept h d : keeps (others_kept h) (bReadDir d).
Proof. split; [|done]. intros _ s. by apply bsys_intact. Qed.
Lemma bReadRoot_kept h : keeps (others_kept h) bReadRoot.
Proof. split; [|done]. intros _ s. by apply bsys_intact. Qed.
Lemma Lock_kept h : keeps (others_kept h) Lock.
Proof. by split. Qed.
Lemma Unlock_kept h : keeps (others_kept h) Unlock.
Proof. by split. Qed.
Lemma bRemove_kept h : keeps (others_kept (Some h)) (bRemove (blobPath h)).
Proof.
  split; [|done]. intros _ s. apply bsys_intact. intros fs p Hp. destruct (fs !! blobPath h); cbn; [|done].
  apply lookup_delete_ne. naive_solver.
Qed.
#[local] Hint Resolve Stat_kept bReadDir_kept bReadRoot_kept Lock_kept Unlock_kept bRemove_kept : kept.
Ltac kept := repeat first [exact I | solve [auto with kept] | match goal with |- keeps _ (pbind _ _) => apply prog_keeps_bind; [|intros ?] end | case_match].

Lemma ModTime_kept h hash : keeps (others_kept h) (ModTime hash).
Proof. unfold ModTime. kept. Qed.
Lemma Size_kept h hash : keeps (others_kept h) (Size hash).
Proof. unfold Size. kept. Qed.
Lemma list_dirs_kept h dirs : keeps (others_kept h) (list_dirs dirs).
Proof. induction dirs as [|d dirs IH]; cbn [list_dirs]; [done|]. kept. Qed.
Lemma List_blobs_kept h : keeps (others_kept h) List_blobs.
Proof. unfold List_blobs. kept. apply list_dirs_kept. Qed.
Lemma DeleteIf_kept h cutoff : keeps (others_kept (Some h)) (DeleteIfNotModifiedSince h cutoff).
Proof. unfold DeleteIfNotModifiedSince. kept. Qed.

Section Pass.
Context {DB : Type} `{PebbleClose DB} `{Codec MailMeta} `{Codec OutboundMessage} `{Codec QueueEnvelope} `{GoUnicode}.
Notation W := (GCWorld DB).
Variable hasSpool : bool.
Variable iterate : gmap string Z -> list (string * Z).
Hypothesis iterate_all : forall m, iterate m ≡ₚ map_to_list m.

Definition world_kept (h : option string) (w w' : W) : Prop := others_kept h (gc_blobs w) (gc_blobs w').
Lemma on_blobs_kept {A} h (p : prog BlobFS A) : keeps (others_kept h) p -> keeps (world_kept h) (on_blobs (DB := DB) p).
Proof. apply keeps_plift. by intros. Qed.
Lemma on_spool_kept {A} h (m : GoM Spool A) : keeps (world_kept h) (on_spool (DB := DB) m).
Proof. by split. Qed.
Lemma on_db_kept {A} h (f : DB -> A) : keeps (world_kept h) (on_db f).
Proof. by split. Qed.
#[local] Hint Resolve on_blobs_kept on_spool_kept on_db_kept ModTime_kept Size_kept List_blobs_kept : kept.

Lemma spool_read_all_kept h dir l : keeps (world_kept h) (spool_read_all dir l).
Proof. induction l as [|n l IH]; cbn [spool_read_all]; kept. Qed.
Lemma spool_List_kept h dir : keeps (world_kept h) (spool_List dir).
Proof. unfold spool_List. kept. apply spool_read_all_kept. Qed.
Lemma scan_dirs_kept h pass dirs ref : keeps (world_kept h) (scan_dirs pass dirs ref).
Proof. revert ref. induction dirs as [|d dirs IH]; intros ref; cbn [scan_dirs]; [done|]. apply prog_keeps_bind; [apply spool_List_kept|]. intros r. kept. Qed.
Lemma collect_kept h : keeps (world_kept h) (collectReferencedBlobs hasSpool).
Proof.
  unfold collectReferencedBlobs. kept. unfold collectSpoolBlobs, spoolScanPasses. cbn [scan_passes].
  apply prog_keeps_bind; [apply scan_dirs_kept|]. intros []; [|done]. apply prog_keeps_bind; [apply scan_dirs_kept|]. by intros [].
Qed.
Lemma log_kept h hash : keeps (world_kept h) (logSweepCandidate (DB := DB) hash).
Proof. unfold logSweepCandidate. kept. Qed.
Lemma read_mtimes_kept h l m : keeps (world_kept h) (read_mtimes (DB := DB) l m).
Proof. revert m. induction l as [|x l IH]; intros m; cbn [read_mtimes]; [done|]. kept. Qed.

(** A call that removes [h] is not one that keeps the files. *)
Lemma kept_not_removed {A} (p : prog W A) h e obs :
  keeps (world_kept None) p -> e ∈ effects p obs -> ~ removes h (gc_blobs e.1) (gc_blobs e.2).
Proof. intros Hk He [Hs Hn]. pose proof (keeps_effects _ _ _ _ Hk He (blobPath h)) as Heq. rewrite Heq in Hn by done. by rewrite Hn in Hs; destruct Hs. Qed.

(** A removing call of [pbind p g], [p] keeping the files, is one of [g]'s. *)
Lemma removing_tail {A C} (p : prog W A) (g : A -> prog W C) h e obs :
  keeps (world_kept None) p -> e ∈ effects (pbind p g) obs -> removes h (gc_blobs e.1) (gc_blobs e.2) ->
  exists o1 o2 a, obs = o1 ++ o2 /\ observe p o1 = Some a /\ e ∈ effects (g a) o2.
Proof. intros Hk [He|?]%effects_bind Hr; [|done]. by destruct (kept_not_removed p h e obs). Qed.

Lemma delete_removes h' cutoff h e (obs : list (Z * W)) :
  e ∈ effects (on_blobs (DeleteIfNotModifiedSince h' cutoff)) obs -> removes h (gc_blobs e.1) (gc_blobs e.2) -> h' = h.
Proof.
  intros He [Hs Hn]. pose proof (keeps_effects _ _ _ _ (on_blobs_kept _ _ (DeleteIf_kept h' cutoff)) He (blobPath h)) as Heq.
  destruct (decide (h' = h)); [done|]. rewrite Heq in Hn; [by rewrite Hn in Hs; destruct Hs|].
  cbn. unfold blobPath. repeat case_match; intros [=]; congruence.
Qed.

Lemma delete_each_removes survivors cutoff dryRun n spared h e (obs : list (Z * W)) :
  e ∈ effects (delete_each survivors cutoff dryRun n spared) obs -> removes h (gc_blobs e.1) (gc_blobs e.2) ->
  dryRun = false /\ h ∈ survivors /\ exists o1 o2, obs = o1 ++ o2 /\ e ∈ effects (on_blobs (DeleteIfNotModifiedSince h cutoff)) o2.
Proof.
  revert n spared obs. induction survivors as [|x l IH]; intros n spared obs He Hr; cbn [delete_each] in He; [by apply elem_of_nil in He|].
  destruct dryRun.
  - apply (removing_tail _ _ h) in He as (o1&o2&a&->&_&He); [|auto with kept|done].
    destruct (match a with Ok mt => cutoff <? mt | Err _ => false end); [by edestruct IH|].
    apply (removing_tail _ _ h) in He as (?&?&?&->&_&He); [|apply log_kept|done]. by edestruct IH.
  - apply (removing_tail _ _ h) in He as (o1&o2&a&->&_&He); [|apply log_kept|done]. split; [done|].
    apply effects_bind in He as [He|(o3&o4&r&->&_&He)].
    + pose proof (delete_removes _ _ _ _ _ He Hr) as ->. split; [left|]. by exists o1, o2.
    + assert (exists n spared, e ∈ effects (delete_each l cutoff false n spared) o4) as (n'&spared'&He') by (destruct r as [[]|]; eauto).
      destruct (IH _ _ _ He' Hr) as (_&?&o5&o6&->&?). split; [by right|]. exists (o1 ++ o3 ++ o5), o6. by rewrite <- !(assoc_L app).
Qed.

Lemma reconfirm_survivors l fresh h : h ∈ (reconfirmSweep l fresh).1 -> h ∈ l /\ h ∉ fresh.
Proof.
  induction l as [|x l IH]; cbn; [by intros ?%elem_of_nil|]. destruct (reconfirmSweep l fresh) as [surv sp]. cbn in IH.
  case_bool_decide; cbn; [intros ?%IH; set_solver|]. intros [->|?%IH]%elem_of_cons; set_solver.
Qed.
Lemma plan_delete ref mtimes prev cutoff h :
  h ∈ (planBlobSweep iterate ref mtimes prev cutoff).2 -> h ∉ ref /\ h ∈ prev /\ exists mt, mtimes !! h = Some mt /\ mt <= cutoff.
Proof.
  unfold planBlobSweep. assert (forall hm, hm ∈ iterate mtimes -> mtimes !! hm.1 = Some hm.2) as Hall.
  { intros [x mt]. rewrite iterate_all. by rewrite elem_of_map_to_list. }
  revert Hall. generalize (iterate mtimes) as l. intros l. rewrite <- (reverse_involutive l). induction (reverse l) as [|[x mt] l' IH]; intros Hall.
  { cbn. by intros ?%elem_of_nil. }
  rewrite reverse_cons, foldl_app. cbn. rewrite reverse_cons in Hall.
  assert (mtimes !! x = Some mt) as Hx by (apply (Hall (x, mt)); set_solver).
  destruct (bool_decide (x ∈ ref) || (cutoff <? mt)) eqn:E; [apply IH; set_solver|]. cbn.
  apply orb_false_iff in E as [E1%bool_decide_eq_false E2%Z.ltb_ge].
  case_bool_decide; [|apply IH; set_solver]. intros [?|Hin%list_elem_of_singleton]%elem_of_app; [apply IH; set_solver|]. subst. eauto.
Qed.

Lemma not_removed_by_kept h s s' : others_kept None s s' -> removes h s s' -> False.
Proof. intros Hk [Hs Hn]. rewrite Hk in Hn by done. by rewrite Hn in Hs; destruct Hs. Qed.

Ltac only_unlock He Hr :=
  match type of He with context [match ?o with [] => _ | _ => _ end] => destruct o as [|[? ?] ?] end;
  [by apply elem_of_nil in He|cbn in He; apply list_elem_of_singleton in He as ->; by apply not_removed_by_kept in Hr].

(** The removing call follows, under the lock, one that found the blob old. *)
Lemma delete_checked h cutoff e (obs : list (Z * W)) :
  e ∈ effects (on_blobs (DeleteIfNotModifiedSince h cutoff)) obs -> removes h (gc_blobs e.1) (gc_blobs e.2) ->
  exists t0 w0 t1 w1 t2 rest data mt, obs = (t0, w0) :: (t1, w1) :: (t2, e.1) :: rest /\
    bf_locked (gc_blobs w0) = false /\ bf_files (gc_blobs w1) !! blobPath h = Some (data, mt) /\ mt <= cutoff.
Proof.
  unfold on_blobs, DeleteIfNotModifiedSince. intros He Hr. destruct (IsValidHash h); [|by apply elem_of_nil in He]. cbn in He.
  destruct obs as [|[t0 w0] obs]; [by apply elem_of_nil in He|]. destruct (bf_locked (gc_blobs w0)) eqn:El; [by apply elem_of_nil in He|].
  apply elem_of_cons in He as [->|He]; [by destruct Hr as [[? ?] ?]; simplify_eq/=; congruence|].
  destruct obs as [|[t1 w1] obs]; [by apply elem_of_nil in He|]. cbn -[bsys] in He.
  apply elem_of_cons in He as [->|He].
  { apply (not_removed_by_kept h) in Hr; [done|]. apply bsys_intact. done. }
  unfold bsys in He. destruct (bf_faults (gc_blobs w1) _) as [[e1 n1]|]; cbn -[bsys] in He; [solve [only_unlock He Hr]|].
  destruct (bf_files (gc_blobs w1) !! blobPath h) as [[data mt]|] eqn:Ef; cbn -[bsys] in He; [|solve [only_unlock He Hr]].
  destruct (cutoff <? mt) eqn:Ec; cbn -[bsys] in He; [solve [only_unlock He Hr]|].
  destruct obs as [|[t2 w2] obs]; [by apply elem_of_nil in He|].
  apply elem_of_cons in He as [->|He]; [|solve [only_unlock He Hr]].
  exists t0, w0, t1, w1, t2, obs, data, mt. apply Z.ltb_ge in Ec. done.
Qed.

(** A removal comes after two complete scans that missed the blob, and in a
    conditional delete with the cut-off of the pass. *)
Lemma sweep_removes prev minAge dryRun h e (obs : list (Z * W)) :
  e ∈ effects (sweepOrphanedBlobs hasSpool iterate prev minAge dryRun) obs -> removes h (gc_blobs e.1) (gc_blobs e.2) ->
  dryRun = false /\ h ∈ prev /\
  exists a s1 b t w s2 c d ref fresh, obs = a ++ s1 ++ (b ++ [(t, w)]) ++ s2 ++ (c ++ d) /\
    observe (collectReferencedBlobs hasSpool) s1 = Some (Ok ref) /\ h ∉ ref /\
    observe (collectReferencedBlobs hasSpool) s2 = Some (Ok fresh) /\ h ∉ fresh /\
    e ∈ effects (on_blobs (DeleteIfNotModifiedSince h (t - minAge))) d.
Proof.
  unfold sweepOrphanedBlobs. intros He Hr.
  apply (removing_tail _ _ h) in He as (o1&o&leads&->&_&He); [|by split|done].
  destruct leads; cbn [negb] in He; [|by apply elem_of_nil in He].
  apply (removing_tail _ _ h) in He as (s1&o'&r&->&Hs1&He); [|apply collect_kept|done].
  destruct r as [ref|e1]; [|by apply elem_of_nil in He].
  apply (removing_tail _ _ h) in He as (b1&o2&r&->&_&He); [|apply on_blobs_kept, List_blobs_kept|done].
  destruct r as [hashes|e1]; [|by apply elem_of_nil in He].
  apply (removing_tail _ _ h) in He as (b2&o3&mtimes&->&_&He); [|apply read_mtimes_kept|done].
  apply (removing_tail _ _ h) in He as (b3&o4&t&->&Ht&He); [|by split|done]. destruct b3 as [|[t' w] [|??]]; [done| |done]. cbn in Ht. simplify_eq.
  apply effects_bind in He as [He|(?&?&?&_&_&He)]; [|by apply elem_of_nil in He]. unfold deleteSweptBlobs in He.
  pose proof (plan_delete ref mtimes prev (t - minAge) h) as Hplan.
  destruct (planBlobSweep iterate ref mtimes prev (t - minAge)) as [cur todo]. cbn [snd] in He, Hplan.
  apply (removing_tail _ _ h) in He as (s2&o5&r&->&Hs2&He);
    [|unfold revalidateSweepCandidates; destruct todo; [done|apply prog_keeps_bind; [apply collect_kept|by intros]]|done].
  destruct r as [[surv sp]|e1]; [|by apply elem_of_nil in He].
  apply effects_bind in He as [He|(?&?&?&_&_&He)]; [|by apply elem_of_nil in He].
  apply (delete_each_removes _ _ _ _ _ h) in He as (->&Hin&c&d&->&He); [|done].
  destruct todo as [|x todo]; cbn [revalidateSweepCandidates] in Hs2; [obinv; by apply elem_of_nil in Hin|].
  apply observe_bind in Hs2 as (s2'&o&r&->&Hs2&Hd). destruct o; [|done]. destruct r as [fresh|]; [|done]. injection Hd as Hd.
  pose proof (reconfirm_survivors (x :: todo) fresh h) as Hrec. cbn [reconfirmSweep] in Hrec. rewrite Hd in Hrec. destruct (Hrec Hin) as [Hin' Hf].
  destruct (Hplan Hin') as (?&?&_). split; [done|]. split; [done|].
  exists o1, s1, (b1 ++ b2), t, w, s2', c, d, ref, fresh. rewrite app_nil_r. by rewrite <- !(assoc_L app).
Qed.
End Pass.

(** * Theorems *)

Section Theorems.
Context {DB : Type} `{PebbleClose DB} `{Codec MailMeta} `{Codec OutboundMessage} `{Codec QueueEnvelope} `{GoUnicode}.
Notation W := (GCWorld DB).

(** C6: A referenced blob survives garbage collection.  Whatever else happens
    between the collector's calls, and wherever a pass is cut short, no call of
    it removes a blob that is referenced in every state the pass meets — by a
    mail record, a queued or bounced message, or an envelope in the spool —
    while the reference moves between these places, as long as it moves
    against the order in which they are scanned at most once during the pass. *)
Theorem referenced_blob_survives hasSpool iterate (Hit : forall m, iterate m ≡ₚ map_to_list m)
    configured prev prevMode minAge (obs : list (Z * W)) h name loc e :
  IsValidHash h = true -> isEnvelopeFile name = true ->
  Forall (fun o => names_only h name o.2 /\ ref_at hasSpool h name (loc o.2) o.2) obs ->
  one_retreat ((fun o => loc o.2) <$> obs) ->
  e ∈ effects (blobGCPass hasSpool iterate configured prev prevMode minAge) obs ->
  ~ removes h (gc_blobs e.1) (gc_blobs e.2).
Proof.
  intros Hv Hn Hall Hone He Hr. assert (h <> "") as Hne by (by intros ->).
  unfold blobGCPass in He. case_match; [by apply elem_of_nil in He|].
  apply effects_bind in He as [He|(?&?&?&_&_&He)]; [|by apply elem_of_nil in He].
  destruct (sweep_removes hasSpool iterate Hit _ _ _ _ _ _ He Hr) as (_&_&a&s1&b&t&w&s2&c&d&ref&fresh&->&H1'&H1n&H2'&H2n&_).
  rewrite !Forall_app in Hall. destruct Hall as (_&W1&_&W2&_). rewrite !fmap_app in Hone.
  rewrite <- (fmap_app _ b), <- (fmap_app _ c) in Hone.
  apply retreat_once in Hone as [Hs|Hs]; [destruct H1n|destruct H2n]; by eapply collectReferencedBlobs_finds.
Qed.
(** The two passes over the spool see every envelope that stays in the spool and
    moves against the order of the directories at most once meanwhile. *)
Theorem moved_envelope_is_seen ref ref' (obs : list (Z * W)) h name loc :
  h <> "" -> isEnvelopeFile name = true ->
  Forall (fun o => names_only h name o.2 /\ exists dir, spoolScanDirs !! loc o.2 = Some dir /\ is_Some (sp_files (gc_spool o.2) !! (dir, name))) obs ->
  one_retreat ((fun o => loc o.2) <$> obs) -> observe (collectSpoolBlobs ref) obs = Some (Ok ref') -> h ∈ ref'.
Proof.
  intros Hne Hn Hall (l1&l2&Heq&S1&S2) Ho.
  assert (forall l, StronglySorted Nat.le l -> StronglySorted Nat.le (Nat.add 3 <$> l)) as Hshift.
  { induction 1; cbn; constructor; [done|]. apply Forall_fmap. eapply Forall_impl; [done|]. cbn. lia. }
  eapply (collectSpoolBlobs_finds true h name Hne Hn (fun w => 3 + loc w)%nat); [done| | |].
  - eapply Forall_impl; [exact Hall|]. cbn. intros [t w] (?&dir&?&[data ?]). eauto 6.
  - exists (Nat.add 3 <$> l1), (Nat.add 3 <$> l2). rewrite <- fmap_app, <- Heq, <- list_fmap_compose. auto.
  - apply Forall_forall. intros. lia.
Qed.

(** A pass removes a blob only when collection is on, was on in the pass before,
    that pass already found the blob unreferenced and old, and the removing
    call follows one, in the same locked section, that found the blob's time no
    later than a moment of this pass less the minimum age. *)
Theorem swept_blob_is_confirmed hasSpool iterate (Hit : forall m, iterate m ≡ₚ map_to_list m)
    configured prev prevMode minAge (obs : list (Z * W)) h e :
  e ∈ effects (blobGCPass hasSpool iterate configured prev prevMode minAge) obs -> removes h (gc_blobs e.1) (gc_blobs e.2) ->
  BlobGCMode configured = "on" /\ prevMode = "on" /\ h ∈ prev /\
  exists before t w between t0 w0 t1 w1 t2 rest data mt,
    obs = before ++ (t, w) :: between ++ (t0, w0) :: (t1, w1) :: (t2, e.1) :: rest /\
    bf_locked (gc_blobs w0) = false /\ bf_files (gc_blobs w1) !! blobPath h = Some (data, mt) /\ mt <= t - minAge.
Proof.
  unfold blobGCPass. destruct (String.eqb (BlobGCMode configured) "off") eqn:Eoff; [by intros ?%elem_of_nil|].
  intros [He|(?&?&?&_&_&He)]%effects_bind Hr; [|by apply elem_of_nil in He].
  destruct (sweep_removes hasSpool iterate Hit _ _ _ _ _ _ He Hr) as (Hdry&Hprev&a&s1&b&t&w&s2&c&d&_&_&->&_&_&_&_&Hd).
  destruct (delete_checked _ _ _ _ Hd Hr) as (t0&w0&t1&w1&t2&rest&data&mt&->&?&?&?).
  assert (BlobGCMode configured = "on") as Hon.
  { unfold BlobGCMode in *. repeat case_bool_decide; done. }
  rewrite Hon in Hprev. unfold blobGCCandidatesAcrossModeChange in Hprev. destruct (String.eqb "on" prevMode) eqn:Em; [|set_solver].
  apply String.eqb_eq in Em as <-. do 3 (split; [done|]).
  exists (a ++ s1 ++ b), t, w, (s2 ++ c), t0, w0, t1, w1, t2, rest, data, mt. by rewrite <- !(assoc_L app).
Qed.
End Theorems.

(** * A concrete pass *)

#[global] Program Instance mem_close : PebbleClose MemDB := {|
  db_close d lo hi := if bool_decide (Exists (fun kv => kv.1 ∈ read_fault d) (range lo hi (mem d))) then Some io_error else None |}.
Next Obligation.
  intros d lo hi l k v. cbn. destruct (scan_fault d); [done|]. intros [= <-]. case_bool_decide as Hex; [done|]. intros _ Hk Hb.
  apply list_elem_of_fmap. assert ((k, v) ∈ range lo hi (mem d)) as Hin by by apply elem_of_range. exists (k, v). split; [|done]. cbn.
  case_decide; [|done]. destruct Hex. apply Exists_exists. by exists (k, v).
Qed.

Section Demo.
(** Records are their blob's hash here. *)
#[local] Instance gc_meta : Codec MailMeta := {| marshal m := Ok ""; unmarshal v := Ok (mkMailMeta "" "" "" "" [] 0 (Some (mkBlobRef v 0 "" "")) [] "" 0 "" "" [] 0 "" "" "" "" [] [] "" "" "") |}.
#[local] Instance gc_out : Codec OutboundMessage := {| marshal m := Ok ""; unmarshal v := Err (Errorf "no queue") |}.
#[local] Instance gc_env : Codec QueueEnvelope := {| marshal m := Ok (qe_BlobHash m); unmarshal v := Ok (mkEnvelope "" "" [] 0 "" v 0 "" [] "" "" [] [] false "" [] 0 [] false "" "" 0 "" "") |}.
#[local] Existing Instance bytewise_unicode.

Definition used : string := "aaaaaaaaaaaaaaaaaaaaaaaaaaaaaaaaaaaaaaaaaaaaaaaaaaaaaaaaaaaaaaaa".
Definition orphan_blob : string := "bbbbbbbbbbbbbbbbbbbbbbbbbbbbbbbbbbbbbbbbbbbbbbbbbbbbbbbbbbbbbbbb".
Definition gc_files : gmap file (string * Z) := {[ blobPath used := ("body", 1); blobPath orphan_blob := ("old", 1) ]}.
Definition blobs0 : BlobFS := mkBFS gc_files false 0 0 (fun _ => None).
(** A message in quarantine, released to incoming while the pass runs, then delivered. *)
Definition in_dir (d : string) : GCWorld MemDB := mkGC true (mem_of []) (mkSpool {[ (d, "1.env") := used ]} 0 (fun _ => None)) blobs0.
Definition released : list (Z * GCWorld MemDB) := replicate 5 (5000, in_dir "quarantine") ++ replicate 50 (5000, in_dir "incoming").
Definition gc_loc (w : GCWorld MemDB) : nat :=
  if bool_decide (is_Some (sp_files (gc_spool w) !! ("incoming", "1.env"))) then 3 else 6.
Definition gc_run : list (GCWorld MemDB * GCWorld MemDB) := effects (blobGCPass true map_to_list "on" {[ used; orphan_blob ]} "on" 1000) released.
Definition gc_call (i : nat) : GCWorld MemDB * GCWorld MemDB := default (in_dir "", in_dir "") (gc_run !! i).

Lemma released_watched : Forall (fun o => names_only used "1.env" o.2 /\ ref_at true used "1.env" (gc_loc o.2) o.2) released.
Proof.
  assert (forall d data d', sp_files (gc_spool (in_dir d)) !! (d', "1.env") = Some data -> data = used) as Hd.
  { cbn. intros d data d' Hl. by apply lookup_singleton_Some in Hl as [_ <-]. }
  assert (forall d, names_only used "1.env" (in_dir d)) as Hn.
  { intros d d' data ->%Hd. eexists. split; [vm_compute; reflexivity|done]. }
  assert (ref_at true used "1.env" 6 (in_dir "quarantine")) as Hq.
  { split; [done|]. exists "quarantine", used. split; [done|]. vm_compute. reflexivity. }
  assert (ref_at true used "1.env" 3 (in_dir "incoming")) as Hi.
  { split; [done|]. exists "incoming", used. split; [done|]. vm_compute. reflexivity. }
  apply Forall_app. split; apply Forall_replicate; (split; [apply Hn|]).
  - replace (gc_loc (5000, in_dir "quarantine").2) with 6%nat by (vm_compute; reflexivity). exact Hq.
  - replace (gc_loc (5000, in_dir "incoming").2) with 3%nat by (vm_compute; reflexivity). exact Hi.
Qed.

Lemma gc_call_in : gc_call 40 ∈ gc_run.
Proof.
  unfold gc_call. destruct (gc_run !! 40%nat) as [e|] eqn:E; [by eapply list_elem_of_lookup_2|].
  apply lookup_ge_None in E. assert (length gc_run = 42%nat) as Hl by (vm_compute; reflexivity). lia.
Qed.
Lemma gc_call_removes : removes orphan_blob (gc_blobs (gc_call 40).1) (gc_blobs (gc_call 40).2).
Proof.
  split; [|vm_compute; reflexivity]. apply (bool_decide_unpack _). vm_compute. exact I.
Qed.

(** The pass removes the orphan and keeps the one of the message that an
    administrator releases from quarantine in its midst. *)
Lemma referenced_blob_survives_witness :
  removes orphan_blob (gc_blobs (gc_call 40).1) (gc_blobs (gc_call 40).2) /\ ~ removes used (gc_blobs (gc_call 40).1) (gc_blobs (gc_call 40).2).
Proof.
  split; [exact gc_call_removes|].
  eapply (referenced_blob_survives true map_to_list (fun m => reflexivity _) "on" {[ used; orphan_blob ]} "on" 1000 released used "1.env" gc_loc (gc_call 40));
    [vm_compute; reflexivity|vm_compute; reflexivity|apply released_watched| |].
  - exists (replicate 5 6%nat), (replicate 50 3%nat). split; [vm_compute; reflexivity|]. by split; repeat constructor.
  - exact gc_call_in.
Defined.
End Demo.
