(* ===== verification/Sweeps.v ===== *)
(** The other leader-only sweeps of [internal/agent/agent.go] — aged records,
    orphaned mail records, user rows, user trees and grants — and the
    recomputation of domain usage, with the records of
    [internal/store/sendlog.go] and [internal/store/remindersent.go].

    The SQLite system index is its rows; a statement that fails is one its
    fault oracle names.  Every sweep logs its failures and goes on.  The
    theorems: they remove nothing that is in use; the mail sweep keeps every
    message of every mailbox readable, a swept vacation record or device link no
    longer decides anything, and a tree is reclaimed only without a profile and
    without a row. *)

From S2P Require Import Prelude GoStrings Pebble Proto UserData Mailbox MailboxInv MailboxLemmas MailboxSteps MailboxSpec MailboxStore MailboxClient Credentials Acl Directory Domains.
From S2P Require Import Preferences Vacation BlobGC BlobGCThm.
From Stdlib Require Import Ascii.

(** * Records *)

Definition SendLogTTL : Z := 7 * 24 * Hour.
Definition SendLogRecordSize : nat := 40.
Definition ErrSendLogRecord : err := Sentinel "malformed send log record".
Definition SendLogPrefix (userID : string) : string := "/user/" +:+ userID +:+ "/sendlog/".
Definition SendLogKey (userID sendID step : string) : string := "/user/" +:+ userID +:+ "/sendlog/" +:+ sendID +:+ "/" +:+ step.
(** [sum8] is the hexadecimal form of the first eight bytes of the SHA-256. *)
Definition SendLogLocalStep `{GoUnicode} (sum8 : string -> string) (rcpt : string) : string := "local/" +:+ sum8 (ToLower rcpt).
(** [fingerprint] has 32 bytes. *)
Definition EncodeSendLogRecord (at_ : Z) (fingerprint : string) : string := be_put 8 (Z.max (unix_of at_) 0) +:+ fingerprint.
Definition DecodeSendLogRecord (v : string) : result (Z * string) :=
  if negb (String.length v =? SendLogRecordSize)%nat then Err ErrSendLogRecord else
  let secs := be_get 0 (str_take 8 v) in
  if MaxInt64 <? secs then Err ErrSendLogRecord else Ok (time_unix secs, str_drop 8 v).

Definition ReminderSentTTL : Z := 48 * Hour.
Definition ReminderSentPrefix (userID : string) : string := "/user/" +:+ userID +:+ "/remindersent/".
(** [escaped] is [url.PathEscape] of the event's GUID. *)
Definition ReminderSentKey (userID escaped : string) (occurrenceUnix : Z) : string :=
  ReminderSentPrefix userID +:+ escaped +:+ "/" +:+ FormatInt occurrenceUnix.
Definition EncodeReminderSent (at_ : Z) : string := EncodeVacationSent at_.
Definition DecodeReminderSent (v : string) : result Z := DecodeVacationSent v.
Definition AppPasswordTicketSweepGrace : Z := Hour.

(** * State *)

(** The rows of [users] and [aliases] (each with its target). *)
Record SystemIndex := mkIndex { sy_users : list string; sy_aliases : list (string * string); sy_calls : nat; sy_faults : nat -> bool }.
Definition statement (f : SystemIndex -> SystemIndex) (x : SystemIndex) : SystemIndex * bool :=
  let x1 := mkIndex (sy_users x) (sy_aliases x) (S (sy_calls x)) (sy_faults x) in
  if sy_faults x (sy_calls x) then (x1, false) else (f x1, true).
Definition ListUserIDs (x : SystemIndex) : SystemIndex * option (list string) :=
  let (x, ok) := statement id x in (x, if ok then Some (sy_users x) else None).

Section Sweeps.
Context {DB : Type} `{PebbleClose DB} `{MailCodecs} `{CredCodecs} `{AclCodecs} `{Codec UserProfile} `{Codec AddressRecord} `{Codec ForwardTarget}
  `{Codec DomainQuota} `{Codec AddressVerification} `{RaftApplier DB} `{GoUnicode}.
Implicit Types ps : DB.
(** Whether this node leads a running Raft, and the order of a Go map. *)
Variable leads : bool.
Variable order : gset string -> list string.

(** Deletes through Raft; a failing one is logged.  The count of successes. *)
Fixpoint apply_deletes (keys : list string) ps : DB * Z :=
  match keys with
  | [] => (ps, 0)
  | k :: keys =>
      let (ps, r) := ApplyCommand (mkCmd OP_DELETE k "") ps in
      let (ps, n) := apply_deletes keys ps in
      (ps, if is_ok r then n + 1 else n)
  end.

(** * Aged records *)

Definition aged_keys (cutoff : Z) (decode : string -> result Z) (l : list (string * result string)) : list string :=
  omap (fun kv => match iter_value kv.2 with
                  | Err _ => None
                  | Ok val => match decode val with
                              | Ok at_ => if at_ <? cutoff then Some kv.1 else None
                              | Err _ => Some kv.1
                              end
                  end) l.
Fixpoint sweep_users (cutoff : Z) (prefix : string -> string) (decode : string -> result Z) (users : list string) ps : DB * Z :=
  match users with
  | [] => (ps, 0)
  | userID :: users =>
      let p := prefix userID in
      let (ps, n) := match PrefixScan ps p with
                     | Err _ => (ps, 0)
                     | Ok l => match db_close ps p (prefixUpperBound p) with
                               | Some _ => (ps, 0)
                               | None => apply_deletes (aged_keys cutoff decode l) ps
                               end
                     end in
      let (ps, m) := sweep_users cutoff prefix decode users ps in
      (ps, n + m)
  end.
Definition sweepAgedUserKeys (now ttl : Z) (prefix : string -> string) (decode : string -> result Z) ps (x : SystemIndex) : DB * SystemIndex * Z :=
  if negb leads then (ps, x, 0) else
  let (x, users) := ListUserIDs x in
  match users with
  | None => (ps, x, 0)
  | Some users => let (ps, n) := sweep_users (time_add now (- ttl)) prefix decode users ps in (ps, x, n)
  end.
Definition sweepSendLogs (now ttl : Z) : DB -> SystemIndex -> DB * SystemIndex * Z :=
  sweepAgedUserKeys now ttl SendLogPrefix (fun v => let? r := DecodeSendLogRecord v in Ok r.1).
Definition sweepVacationSent (now ttl : Z) : DB -> SystemIndex -> DB * SystemIndex * Z := sweepAgedUserKeys now ttl VacationSentPrefix DecodeVacationSent.
Definition sweepReminderSent (now ttl : Z) : DB -> SystemIndex -> DB * SystemIndex * Z := sweepAgedUserKeys now ttl ReminderSentPrefix DecodeReminderSent.
Definition sweepDeviceLinks (now ttl : Z) : DB -> SystemIndex -> DB * SystemIndex * Z := sweepAgedUserKeys now ttl DeviceLinkPrefix DecodeDeviceLinkExpiry.

(** * Orphaned mail records *)

Definition mail_mark (userID guid : string) : string := userID +:+ "/" +:+ guid.
Fixpoint reclaim_mail (userID : string) (prev : gset string) (orphans : list string) (current : gset string) ps : DB * gset string :=
  match orphans with
  | [] => (ps, current)
  | guid :: orphans =>
      let mark := mail_mark userID guid in
      let ps := if bool_decide (mark ∈ prev) then (ApplyCommand (mkCmd OP_DELETE (mailMetaKey userID guid) "") ps).1 else ps in
      reclaim_mail userID prev orphans ({[ mark ]} ∪ current) ps
  end.
Fixpoint reclaim_users (now minAge : Z) (prev : gset string) (users : list string) (current : gset string) ps : DB * gset string :=
  match users with
  | [] => (ps, current)
  | userID :: users =>
      match OrphanedMailGUIDs now minAge ps userID with
      | Err _ => reclaim_users now minAge prev users current ps
      | Ok orphans => let (ps, current) := reclaim_mail userID prev orphans current ps in reclaim_users now minAge prev users current ps
      end
  end.
Definition sweepOrphanedMail (now minAge : Z) (prev : gset string) ps (x : SystemIndex) : DB * SystemIndex * gset string :=
  if negb leads then (ps, x, ∅) else
  let (x, users) := ListUserIDs x in
  match users with
  | None => (ps, x, prev)
  | Some users => let (ps, current) := reclaim_users now minAge prev users ∅ ps in (ps, x, current)
  end.

(** * Rows without a profile *)

Definition profile_gone ps (userID : string) : bool :=
  match Get ps (profileKey userID) with Ok _ => false | Err e => errors_is e ErrNotFound end.
Definition drop_user (userID : string) (x : SystemIndex) : SystemIndex :=
  let (x, ok) := statement (fun x => mkIndex (List.filter (fun u => negb (String.eqb u userID)) (sy_users x)) (sy_aliases x) (sy_calls x) (sy_faults x)) x in
  if negb ok then x else
  (statement (fun x => mkIndex (sy_users x) (List.filter (fun a => negb (String.eqb a.2 userID)) (sy_aliases x)) (sy_calls x) (sy_faults x)) x).1.
Fixpoint check_rows ps (prev : gset string) (users : list string) (current : gset string) (x : SystemIndex) : SystemIndex * gset string :=
  match users with
  | [] => (x, current)
  | userID :: users =>
      if negb (profile_gone ps userID) then check_rows ps prev users current x else
      check_rows ps prev users ({[ userID ]} ∪ current) (if bool_decide (userID ∈ prev) then drop_user userID x else x)
  end.
Definition sweepOrphanedUsers (prev : gset string) ps (x : SystemIndex) : SystemIndex * gset string :=
  if negb leads then (x, ∅) else
  let (x, users) := ListUserIDs x in
  match users with None => (x, prev) | Some users => check_rows ps prev users ∅ x end.

(** * Trees without a user *)

Definition tree_id (key : string) : option string :=
  match Split key "/" with
  | _ :: _ :: id :: _ => if String.eqb id "" then None else Some id
  | _ => None
  end.
(** The keys of a tree; an error while reading them keeps the tree. *)
Definition tree_keys ps (userID : string) : option (list string) :=
  let p := "/user/" +:+ userID +:+ "/" in
  match PrefixScan ps p with
  | Err _ => None
  | Ok l => match db_close ps p (prefixUpperBound p) with Some _ => None | None => Some (fst <$> l) end
  end.
(** The second component: the users whose metadata and search index are removed. *)
Definition reclaimGhostUserTree (userID : string) (dropped : list string) ps : DB * list string :=
  match tree_keys ps userID with
  | None => (ps, dropped)
  | Some keys => ((apply_deletes keys ps).1, dropped ++ [userID])
  end.
Fixpoint check_trees (rows : list string) (prev : gset string) (ids : list string) (current : gset string) (dropped : list string) ps
    : DB * list string * gset string :=
  match ids with
  | [] => (ps, dropped, current)
  | userID :: ids =>
      if bool_decide (userID ∈ rows) || negb (profile_gone ps userID) then check_trees rows prev ids current dropped ps else
      let (ps, dropped) := if bool_decide (userID ∈ prev) then reclaimGhostUserTree userID dropped ps else (ps, dropped) in
      check_trees rows prev ids ({[ userID ]} ∪ current) dropped ps
  end.
Definition sweepGhostUserTrees (prev : gset string) ps (x : SystemIndex) : DB * SystemIndex * list string * gset string :=
  if negb leads then (ps, x, [], ∅) else
  match PrefixScan ps "/user/" with
  | Err _ => (ps, x, [], prev)
  | Ok l =>
      match db_close ps "/user/" (prefixUpperBound "/user/") with
      | Some _ => (ps, x, [], prev)
      | None =>
          let (x, rows) := ListUserIDs x in
          match rows with
          | None => (ps, x, [], prev)
          | Some rows =>
              let '(ps, dropped, current) := check_trees rows prev (order (list_to_set (omap (fun kv => tree_id kv.1) l))) ∅ [] ps in
              (ps, x, dropped, current)
          end
      end
  end.

(** * Orphaned grants *)

Definition grant_id (ref : GrantRef) : string := ACLKey (gref_Kind ref) (gref_Owner ref) (gref_Resource ref) (gref_Grantee ref).
Fixpoint check_grants (prev : gset string) (refs : list GrantRef) (current : gset string) ps : DB * gset string :=
  match refs with
  | [] => (ps, current)
  | ref :: refs =>
      match GrantOrphaned ps ref with
      | Ok true =>
          let ps := if bool_decide (grant_id ref ∈ prev) then (RevokeRef ref ps).1 else ps in
          check_grants prev refs ({[ grant_id ref ]} ∪ current) ps
      | _ => check_grants prev refs current ps
      end
  end.
Definition sweepOrphanedGrants (prev : gset string) ps : DB * gset string :=
  if negb leads then (ps, ∅) else
  match ListGrantRefs ps with Err _ => (ps, prev) | Ok refs => check_grants prev refs ∅ ps end.

(** * Domain usage *)

Definition owner_domain ps (userID : string) : string :=
  match Get ps (profileKey userID) with
  | Err _ => ""
  | Ok data => match unmarshal (A := UserProfile) data with Err _ => "" | Ok profile => ToLower (DomainFromEmail (up_Email profile)) end
  end.
(** The bytes a record counts for; [None]: not counted. *)
Definition record_bytes (kind : string) (v : result string) : option Z :=
  match iter_value v with
  | Err _ => None
  | Ok val =>
      if String.eqb kind "mail" then
        match unmarshal (A := MailMeta) val with Ok meta => br_Size <$> mm_RawMessage meta | Err _ => None end
      else Some (len val)
  end.
Definition counted_kind (kind : string) : bool := bool_decide (kind ∈ ["mail"; "event"; "contact"; "task"]).
Fixpoint sum_usage ps (l : list (string * result string)) (cache : gmap string string) (bytes : gmap string Z) : gmap string Z :=
  match l with
  | [] => bytes
  | (key, v) :: l =>
      match SplitN (TrimPrefix key "/user/") "/" 3 with
      | [userID; kind; _] =>
          if negb (counted_kind kind) then sum_usage ps l cache bytes else
          let domain := match cache !! userID with Some d => d | None => owner_domain ps userID end in
          let cache := <[userID := domain]> cache in
          if String.eqb domain "" then sum_usage ps l cache bytes else
          match record_bytes kind v with
          | None => sum_usage ps l cache bytes
          | Some n => sum_usage ps l cache (<[domain := i64 (default 0 (bytes !! domain) + n)]> bytes)
          end
      | _ => sum_usage ps l cache bytes
      end
  end.
Definition managed_names ps : list string :=
  match PrefixScan ps "/system/domain/" with
  | Err _ => []
  | Ok l => omap (fun kv => let name := TrimPrefix kv.1 "/system/domain/" in if Contains name "/" then None else Some name) l
  end.
Fixpoint write_usage (toWrite : gmap string Z) (domains : list string) ps : DB :=
  match domains with
  | [] => ps
  | d :: domains => write_usage toWrite domains (SetUsage d (default 0 (toWrite !! d)) ps).1
  end.
Definition computeAndWriteDomainUsage ps : DB :=
  match PrefixScan ps "/user/" with
  | Err _ => ps
  | Ok l =>
      let bytes := sum_usage ps l ∅ ∅ in
      let toWrite := foldl (fun m name => match m !! name with Some _ => m | None => <[name := 0]> m end) bytes (managed_names ps) in
      write_usage toWrite (order (dom toWrite)) ps
  end.
Definition recomputeDomainUsage ps : DB := if negb leads then ps else computeAndWriteDomainUsage ps.

End Sweeps.

Section Deletes.
Context {DB : Type} `{PebbleClose DB} `{RaftApplier DB} `{!UserApplier DB}.
Implicit Types s : DB.

(** At most [B] keys of users. *)
Definition user_bound (B : nat) s : Prop := (size (filter (fun kv => HasPrefix kv.1 "/user/" = true) (contents s)) <= B)%nat.
(** Some keys of [D] are gone, nothing else has changed. *)
Definition trimmed (D : string -> Prop) s s' : Prop :=
  forall k, uown k = false -> contents s' !! k = contents s !! k \/ D k /\ contents s' !! k = None.

Lemma trimmed_refl (D : string -> Prop) s : trimmed D s s.
Proof. intros k _. by left. Qed.
Lemma trimmed_trans (D : string -> Prop) s1 s2 s3 : trimmed D s1 s2 -> trimmed D s2 s3 -> trimmed D s1 s3.
Proof. intros H12 H23 k Hk. destruct (H23 k Hk) as [->|[??]]; [by apply H12|by right]. Qed.
Lemma trimmed_weaken (D D' : string -> Prop) s s' : (forall k, D k -> D' k) -> trimmed D s s' -> trimmed D' s s'.
Proof. intros HD Ht k Hk. destruct (Ht k Hk) as [?|[??]]; auto. Qed.
Lemma trimmed_lookup D s s' k v : trimmed D s s' -> uown k = false -> contents s' !! k = Some v -> contents s !! k = Some v.
Proof. intros Ht Hk Hv. destruct (Ht k Hk) as [<-|[_ ?]]; congruence. Qed.
Lemma trimmed_bound D B s s' : trimmed D s s' -> user_bound B s -> user_bound B s'.
Proof.
  intros Ht Hb. unfold user_bound in *. etrans; [|exact Hb]. apply map_subseteq_size, map_subseteq_spec.
  intros k v [Hv Hu]%map_lookup_filter_Some. apply map_lookup_filter_Some. split; [|done].
  eapply trimmed_lookup; [done| |done]. by apply user_not_uown.
Qed.

(** The entries below a prefix of users. *)
Lemma scan_bound B s p : user_bound B s -> String.prefix "/user/" p = true -> (length (scan p (contents s)) <= B)%nat.
Proof.
  intros Hb Hp. etrans; [|exact Hb]. rewrite <- (length_fmap fst), <- (size_list_to_set (C := gset string) (fst <$> scan p (contents s))) by apply range_NoDup.
  rewrite <- size_dom. apply subseteq_size. intros k Hk%elem_of_list_to_set. apply list_elem_of_fmap in Hk as ([k' v]&->&Hin).
  apply elem_of_scan in Hin as [Hv Hpre]. apply elem_of_dom. exists v. apply map_lookup_filter_Some. split; [done|]. cbn.
  apply prefix_spec in Hp as [r ->]. apply prefix_spec in Hpre as [r' ->]. rewrite str_app_assoc. apply prefix_app.
Qed.

Lemma apply_deletes_spec keys n s s' c :
  Forall (fun k => HasPrefix k "/user/" = true) keys -> healthy s -> uready (length keys + n) s -> apply_deletes keys s = (s', c) ->
  healthy s' /\ uready n s' /\ trimmed (fun k => k ∈ keys) s s'.
Proof.
  revert s c. induction keys as [|q keys IH]; intros s c Hall Hs Hr; cbn [apply_deletes].
  { intros [= <- <-]. split; [done|]. split; [done|]. apply trimmed_refl. }
  apply Forall_cons in Hall as [Hq Hall]. destruct (ApplyCommand _ s) as [s1 r] eqn:E1. destruct (apply_deletes keys s1) as [s2 m] eqn:E2.
  intros [= <- <-]. destruct (uap_delete _ _ _ _ _ _ Hr Hs Hq E1) as (Hs1&Hr1&Hc).
  destruct (IH _ _ Hall Hs1 Hr1 E2) as (?&?&Ht). split; [done|]. split; [done|].
  eapply trimmed_trans; [|eapply trimmed_weaken; [|exact Ht]; set_solver].
  intros k Hk. rewrite (Hc k Hk). destruct r; cbn [is_ok]; [|by left].
  destruct (decide (k = q)) as [->|]; [right; split; [left|apply lookup_delete_eq]|left; by rewrite lookup_delete_ne].
Qed.
End Deletes.

Lemma length_omap_le {A C} (f : A -> option C) l : (length (omap f l) <= length l)%nat.
Proof. induction l as [|x l IH]; cbn; [done|]. destruct (f x); cbn; lia. Qed.

Lemma elements_length_le (l : list string) : (length (elements (list_to_set l : gset string)) <= length l)%nat.
Proof.
  apply submseteq_length, NoDup_submseteq; [apply NoDup_elements|]. intros x. rewrite elem_of_elements. apply elem_of_list_to_set.
Qed.

Section Aged.
Context {DB : Type} `{PebbleClose DB} `{RaftApplier DB} `{!UserApplier DB}.
Implicit Types s : DB.
Variables (prefix : string -> string) (decode : string -> result Z).
Hypothesis prefix_user : forall u, String.prefix "/user/" (prefix u) = true.

(** A record the sweep takes: too old, or not a record. *)
Definition aged (cutoff : Z) (v : string) : Prop := match decode v with Ok at_ => at_ < cutoff | Err _ => True end.

Lemma aged_keys_spec cutoff (m : gmap string string) p k :
  k ∈ aged_keys cutoff decode ((fun kv => (kv.1, Ok kv.2)) <$> scan p m) -> exists v, m !! k = Some v /\ String.prefix p k = true /\ aged cutoff v.
Proof.
  intros ([k' v']&Hin&Hf)%list_elem_of_omap. apply list_elem_of_fmap in Hin as ([k1 v]&[= -> ->]&Hin). cbn in Hf.
  apply elem_of_scan in Hin as [Hv Hp]. exists v. unfold aged. destruct (decode v) as [t|e]; [destruct (t <? cutoff) eqn:E|]; simplify_eq; [|done].
  split; [done|]. split; [done|]. by apply Z.ltb_lt.
Qed.

Lemma sweep_users_spec cutoff B users n s s' c :
  healthy s -> user_bound B s -> uready (length users * B + n) s -> sweep_users cutoff prefix decode users s = (s', c) ->
  healthy s' /\ uready n s' /\
  trimmed (fun k => exists u v, u ∈ users /\ String.prefix (prefix u) k = true /\ contents s !! k = Some v /\ aged cutoff v) s s'.
Proof.
  revert s c. induction users as [|u users IH]; intros s c Hs Hb Hr; cbn [sweep_users].
  { intros [= <- <-]. split; [done|]. split; [done|]. apply trimmed_refl. }
  rewrite PrefixScan_healthy by done.
  set (m := match db_close s (prefix u) _ with Some _ => _ | None => _ end). destruct m as [s1 c1] eqn:E1. unfold m in E1. clear m.
  destruct (sweep_users cutoff prefix decode users s1) as [s2 c2] eqn:E2. intros [= <- <-].
  assert (healthy s1 /\ uready (length users * B + n) s1 /\
    trimmed (fun k => exists v, String.prefix (prefix u) k = true /\ contents s !! k = Some v /\ aged cutoff v) s s1) as (Hs1&Hr1&Ht1).
  { destruct (db_close _ _ _); simplify_eq; [split; [done|]; split; [eapply uready_le; [|done]; cbn; lia|apply trimmed_refl]|].
    eapply apply_deletes_spec in E1 as (?&?&Ht); [|..].
    - split; [done|]. split; [done|]. eapply trimmed_weaken; [|exact Ht]. cbn. intros k (v&?&?&?)%aged_keys_spec. eauto.
    - apply Forall_forall. intros k (v&_&Hp&_)%aged_keys_spec. pose proof (prefix_user u) as Hu.
      apply prefix_spec in Hu as [r Hu]. apply prefix_spec in Hp as [r' ->]. rewrite Hu, str_app_assoc. apply prefix_app.
    - done.
    - eapply uready_le; [|exact Hr]. cbn. pose proof (scan_bound B s (prefix u) Hb (prefix_user u)).
      pose proof (length_omap_le (fun kv : string * result string => match iter_value kv.2 with
                  | Err _ => None
                  | Ok val => match decode val with Ok at_ => if at_ <? cutoff then Some kv.1 else None | Err _ => Some kv.1 end
                  end) ((fun kv => (kv.1, Ok kv.2)) <$> scan (prefix u) (contents s))) as Hl.
      rewrite length_fmap in Hl. unfold aged_keys. lia. }
  destruct (IH _ _ Hs1 (trimmed_bound _ _ _ _ Ht1 Hb) Hr1 E2) as (?&?&Ht2). split; [done|]. split; [done|].
  eapply trimmed_trans; [eapply trimmed_weaken; [|exact Ht1]|].
  - cbn. intros k (v&?&?&?). exists u, v. split; [left|done].
  - intros k Hk. destruct (Ht2 k Hk) as [?|[(u'&v&?&?&Hv&?) ?]]; [by left|]. right. split; [|done]. exists u', v. split; [by right|].
    split; [done|]. split; [|done]. by eapply trimmed_lookup.
Qed.

Lemma sweepAged_spec leads now ttl B s x s' x' c :
  healthy s -> user_bound B s -> uready (length (sy_users x) * B) s -> sweepAgedUserKeys leads now ttl prefix decode s x = (s', x', c) ->
  healthy s' /\
  trimmed (fun k => exists u v, u ∈ sy_users x /\ String.prefix (prefix u) k = true /\ contents s !! k = Some v /\ aged (now - ttl) v) s s'.
Proof.
  intros Hs Hb Hr. unfold sweepAgedUserKeys. destruct leads; cbn [negb]; [|intros [= <- _ _]; split; [done|apply trimmed_refl]].
  unfold ListUserIDs, statement. destruct (sy_faults x _); cbn; [intros [= <- _ _]; split; [done|apply trimmed_refl]|].
  destruct (sweep_users _ _ _ _ s) as [s1 c1] eqn:E. intros [= <- _ _].
  apply (sweep_users_spec _ B _ 0) in E as (?&_&?); [done|done|done|by rewrite Nat.add_0_r].
Qed.
End Aged.

(** * Records that no longer matter *)

Section Spent.
Context {DB : Type} `{PebbleClose DB} `{RaftApplier DB} `{!UserApplier DB} `{CredCodecs}.
Implicit Types s : DB.

(** Whether the stored record lets a vacation reply go ([reserveVacationReply]). *)
Definition may_reply (now interval : Z) (s : DB) (key : string) : bool :=
  match Get s key with
  | Ok val => negb (suppressed now interval val)
  | Err e => errors_is e ErrNotFound
  end.

(** A vacation record that the sweep takes suppresses no reply any more: from
    then on, whatever interval the user sets, the sweep has changed the answer
    for no key.  (The time-to-live is exactly the longest interval.) *)
Theorem vacation_sweep_invisible leads now B s x s' x' c key now' prefs :
  healthy s -> user_bound B s -> uready (length (sy_users x) * B) s ->
  sweepVacationSent leads now VacationSentTTL s x = (s', x', c) -> now <= now' -> uown key = false ->
  may_reply now' (VacationIntervalDays prefs * 24 * Hour) s' key = may_reply now' (VacationIntervalDays prefs * 24 * Hour) s key.
Proof.
  intros Hs Hb Hr Hsw Hn Hk. apply (sweepAged_spec _ _ (fun u => prefix_app "/user/" _) _ _ _ B) in Hsw as [Hs' Ht]; [|done..].
  unfold may_reply. rewrite !Get_healthy by done. destruct (Ht key Hk) as [->|[(u&v&_&_&Hv&Ha) ->]]; [done|]. rewrite Hv. cbn.
  unfold suppressed. unfold aged in Ha. destruct (DecodeVacationSent v) as [t|]; [|done].
  assert (VacationIntervalDays prefs * 24 * Hour <= VacationSentTTL) as Hi.
  { unfold VacationIntervalDays, VacationDefaultIntervalDays, VacationMaxIntervalDays, VacationSentTTL, Hour, Minute, Second. case_match; lia. }
  replace (time_sub now' t <? VacationIntervalDays prefs * 24 * Hour) with false; [by rewrite andb_false_r|]. symmetry. apply Z.ltb_ge.
  unfold time_sub, MaxInt64, MinInt64, VacationSentTTL, Hour, Minute, Second in *. lia.
Qed.

Lemma DeviceLinkKey_user u hash k : DeviceLinkKey u hash = Ok k -> HasPrefix k "/user/" = true.
Proof. unfold DeviceLinkKey. case_match; [done|]. intros [= <-]. unfold DeviceLinkPrefix. rewrite !str_app_assoc. apply prefix_app. Qed.

(** A device link that the sweep takes could not be consumed any more: every
    consumption from then on has the outcome it would have had. *)
Theorem link_sweep_invisible leads now B s x s' x' c cmd p r :
  healthy s -> user_bound B s -> uready (length (sy_users x) * B) s ->
  sweepDeviceLinks leads now AppPasswordTicketSweepGrace s x = (s', x', c) ->
  unmarshal (cmd_Value cmd) = Ok p -> unix_of now <= tc_At p ->
  PlanAppPasswordTicketConsume s' cmd = Ok r <-> PlanAppPasswordTicketConsume s cmd = Ok r.
Proof.
  intros Hs Hb Hr Hsw Hp Hn. apply (sweepAged_spec _ _ (fun u => prefix_app "/user/" _) _ _ _ B) in Hsw as [Hs' Ht]; [|done..].
  unfold PlanAppPasswordTicketConsume. rewrite Hp. cbn [wrapf result_bind].
  destruct (IsAppPasswordTicketCommand (cmd_Key cmd)); [|done]. cbn [negb].
  destruct (validate_consume p); [|done]. cbn [result_bind]. destruct (DeviceLinkKey (tc_User p) (tc_Hash p)) as [k|] eqn:Ek; [|done]. cbn [result_bind].
  unfold get_or_empty. rewrite !Get_healthy by done.
  destruct (Ht k) as [->|[(u&v&_&_&Hv&Ha) ->]]; [by eapply user_not_uown, DeviceLinkKey_user|done|]. rewrite Hv. cbn.
  split; [done|]. destruct (String.eqb v ""); [done|]. unfold aged, DecodeDeviceLinkExpiry in Ha.
  destruct (unmarshal v) as [t|]; [|done]. cbn in Ha |- *.
  assert (tk_ExpiresAt t <= tc_At p) as Hle.
  { unfold unix_of, time_unix, AppPasswordTicketSweepGrace, Hour, Minute, Second in *. pose proof (Z.div_mod now 1000000000 ltac:(lia)). pose proof (Z.mod_pos_bound now 1000000000 ltac:(lia)). lia. }
  apply Z.leb_le in Hle. by rewrite Hle, orb_true_r.
Qed.
End Spent.

(** * Mail *)

Lemma mailKey_inj u g u' g' : safe u -> safe u' -> mailMetaKey u g = mailMetaKey u' g' -> u = u' /\ g = g'.
Proof. intros ?? Heq. apply user_path in Heq as [-> Heq]; [|done..]. by apply (str_app_inv_head "mail/") in Heq as ->. Qed.

Section Mail.
Context {DB : Type} `{PebbleClose DB} `{MailCodecLaws} `{GoUnicode} `{RaftApplier DB} `{!UserApplier DB}.
Implicit Types s : DB.

(** Mail records of [u] named by [G] and confirmed by the pass before. *)
Definition confirmed (prev : gset string) (u : string) (G : string -> Prop) (k : string) : Prop :=
  exists g, k = mailMetaKey u g /\ mail_mark u g ∈ prev /\ G g.

Lemma reclaim_mail_spec u prev orphans n cur s s' cur' :
  healthy s -> uready (length orphans + n) s -> reclaim_mail u prev orphans cur s = (s', cur') ->
  healthy s' /\ uready n s' /\ trimmed (confirmed prev u (fun g => g ∈ orphans)) s s'.
Proof.
  revert cur s. induction orphans as [|g orphans IH]; intros cur s Hs Hr; cbn [reclaim_mail].
  { intros [= <- <-]. split; [done|]. split; [done|]. apply trimmed_refl. }
  set (s1 := if bool_decide _ then _ else s). intros Hrec.
  assert (healthy s1 /\ uready (length orphans + n) s1 /\ trimmed (confirmed prev u (fun g' => g' = g)) s s1) as (Hs1&Hr1&Ht1).
  { unfold s1. case_bool_decide as Hm; [|split; [done|]; split; [eapply uready_le; [|done]; cbn; lia|apply trimmed_refl]].
    destruct (ApplyCommand _ s) as [s2 r] eqn:E. destruct (uap_delete _ _ _ _ _ _ Hr Hs (mailKey_user u g) E) as (?&?&Hc).
    split; [done|]. split; [done|]. intros k Hk. cbn [fst]. rewrite (Hc k Hk). destruct r; cbn [is_ok]; [|by left].
    destruct (decide (k = mailMetaKey u g)) as [->|]; [right; split; [by exists g|apply lookup_delete_eq]|left; by rewrite lookup_delete_ne]. }
  destruct (IH _ _ Hs1 Hr1 Hrec) as (?&?&Ht2). split; [done|]. split; [done|].
  eapply trimmed_trans; (eapply trimmed_weaken; [|done]); intros k (g'&->&?&?); exists g'; set_solver.
Qed.

(** Deleting mail records leaves every mailbox as it is. *)
Lemma mailboxes_kept (D : string -> Prop) s s' u m :
  (forall k, D k -> exists u' g, k = mailMetaKey u' g /\ safe u') -> trimmed D s s' -> safe u ->
  meta_at (contents s') u m = meta_at (contents s) u m /\ forall uid, msg_at (contents s') u m uid = msg_at (contents s) u m uid.
Proof.
  intros HD Ht Hu.
  assert (forall k, HasPrefix k "/user/" = true -> (forall u' g, safe u' -> k <> mailMetaKey u' g) -> contents s' !! k = contents s !! k) as Hk.
  { intros k Hku Hne. destruct (Ht k (user_not_uown _ Hku)) as [?|[(u'&g&->&Hu')%HD _]]; [done|]. by destruct (Hne u' g Hu'). }
  unfold meta_at, msg_at. split; [|intros uid]; (rewrite Hk; [done|first [apply metaKey_user|apply msgKey_user]|]); intros u' g Hu' Heq; symmetry in Heq.
  - exact (mailKey_metaKey _ _ _ _ Hu' Hu Heq).
  - exact (mailKey_msgKey _ _ _ _ _ Hu' Hu Heq).
Qed.

Lemma orphans_of_length p refs cutoff l gs : orphans_of p refs cutoff l = Ok gs -> (length gs <= length l)%nat.
Proof.
  revert gs. induction l as [|[k v] l IH]; intros gs; cbn [orphans_of]; [by intros [= <-]|].
  case_match; [intros ?%IH; cbn; lia|]. intros (val&_&Ho)%result_bind_Ok. destruct (unmarshal val); [|apply IH in Ho; cbn; lia].
  case_match; [apply IH in Ho; cbn; lia|]. apply result_bind_Ok in Ho as (rest&Hl%IH&[= <-]). cbn. lia.
Qed.
Lemma Orphaned_length B now minAge s u gs : healthy s -> user_bound B s -> OrphanedMailGUIDs now minAge s u = Ok gs -> (length gs <= B)%nat.
Proof.
  intros Hs Hb Ho. unfold OrphanedMailGUIDs in Ho. rewrite PrefixScan_healthy in Ho by done. ginv. simplify_eq/=.
  match goal with Hl : orphans_of _ _ _ _ = _ |- _ => apply orphans_of_length in Hl end. rewrite length_fmap in *.
  pose proof (scan_bound B s (mailMetaPrefix u) Hb (prefix_app "/user/" _)). lia.
Qed.

Lemma reclaim_users_spec now minAge B prev users n cur s s' cur' :
  Forall (fun u => safe u /\ named (contents s) u) users ->
  healthy s -> user_bound B s -> uready (length users * B + n) s -> reclaim_users now minAge prev users cur s = (s', cur') ->
  healthy s' /\ trimmed (fun k => exists u, u ∈ users /\ safe u /\ confirmed prev u (fun g =>
    (forall m uid meta msg, meta_at (contents s) u m = Some meta -> msg_at (contents s) u m uid = Some msg -> msg_MailGuid msg <> g) /\
    exists v (meta : MailMeta), contents s !! mailMetaKey u g = Some v /\ unmarshal v = Ok meta /\ mm_ReceivedAt meta <= unix_of (now - minAge)) k) s s'.
Proof.
  revert cur s. induction users as [|u users IH]; intros cur s Hall Hs Hb Hr; cbn [reclaim_users].
  { intros [= <- <-]. split; [done|apply trimmed_refl]. }
  apply Forall_cons in Hall as [[Hu Hnm] Hall].
  destruct (OrphanedMailGUIDs now minAge s u) as [orphans|e] eqn:Eo.
  2:{ intros Hrec. eapply IH in Hrec as [? Ht]; [|done..|eapply uready_le; [|done]; cbn; lia]. split; [done|].
      eapply trimmed_weaken; [|exact Ht]. cbn. intros k (u'&?&?). exists u'. split; [by right|done]. }
  destruct (reclaim_mail u prev orphans cur s) as [s1 cur1] eqn:E1. intros Hrec.
  apply (reclaim_mail_spec _ _ _ (length users * B + n)) in E1 as (Hs1&Hr1&Ht1); [|done|].
  2:{ eapply uready_le; [|exact Hr]. pose proof (Orphaned_length B _ _ _ _ _ Hs Hb Eo). cbn. lia. }
  assert (forall u' m, safe u' -> meta_at (contents s1) u' m = meta_at (contents s) u' m /\
    forall uid, msg_at (contents s1) u' m uid = msg_at (contents s) u' m uid) as Hbox.
  { intros u' m Hu'. eapply mailboxes_kept; [|exact Ht1|done]. intros k (g&->&_). eauto. }
  eapply IH in Hrec as [? Ht2]; [|..|by eapply trimmed_bound|done]; [|eapply Forall_impl; [exact Hall|]|done].
  2:{ cbn. intros u' [Hu' Hnm']. split; [done|]. intros m meta. destruct (Hbox u' m Hu') as [-> _]. apply Hnm'. }
  split; [done|]. eapply trimmed_trans.
  - eapply trimmed_weaken; [|exact Ht1]. cbn. intros k (g&->&?&Hg). exists u. split; [left|]. split; [done|]. exists g. split; [done|]. split; [done|].
    by eapply orphans_are_unreferenced.
  - eapply trimmed_weaken; [|exact Ht2]. cbn. intros k (u'&?&Hu'&g&->&?&Hun&v&meta&Hv&?). exists u'. split; [by right|]. split; [done|].
    exists g. split; [done|]. split; [done|]. split.
    + intros m uid mb msg Hm Hmsg. destruct (Hbox u' m Hu') as [Em Es]. eapply Hun; [by rewrite Em|by rewrite Es].
    + exists v, meta. split; [|done]. eapply trimmed_lookup; [exact Ht1|apply user_not_uown, mailKey_user|done].
Qed.

(** C30: The mail sweep keeps all mail.  After a pass every mailbox, every message
    and the metadata of every message are what they were; a metadata record is
    deleted only if no message of its owner names it, it is older than the
    minimum age and the pass before found it orphaned too. *)
Theorem orphan_sweep_keeps_mail leads now minAge B prev s x s' x' current :
  healthy s -> user_bound B s -> uready (length (sy_users x) * B) s ->
  Forall (fun u => safe u /\ named (contents s) u) (sy_users x) ->
  sweepOrphanedMail leads now minAge prev s x = (s', x', current) ->
  (forall u m uid meta msg, safe u -> meta_at (contents s) u m = Some meta -> msg_at (contents s) u m uid = Some msg ->
     meta_at (contents s') u m = Some meta /\ msg_at (contents s') u m uid = Some msg /\
     contents s' !! mailMetaKey u (msg_MailGuid msg) = contents s !! mailMetaKey u (msg_MailGuid msg)) /\
  (forall k, uown k = false -> contents s' !! k <> contents s !! k -> contents s' !! k = None /\
     exists u g v (meta : MailMeta), u ∈ sy_users x /\ k = mailMetaKey u g /\ mail_mark u g ∈ prev /\
       contents s !! k = Some v /\ unmarshal v = Ok meta /\ mm_ReceivedAt meta <= unix_of (now - minAge)).
Proof.
  intros Hs Hb Hr Hall Hsw. set (garbage k := exists u, u ∈ sy_users x /\ safe u /\ confirmed prev u (fun g =>
    (forall m uid meta msg, meta_at (contents s) u m = Some meta -> msg_at (contents s) u m uid = Some msg -> msg_MailGuid msg <> g) /\
    exists v (meta : MailMeta), contents s !! mailMetaKey u g = Some v /\ unmarshal v = Ok meta /\ mm_ReceivedAt meta <= unix_of (now - minAge)) k).
  assert (trimmed garbage s s') as Ht.
  { unfold sweepOrphanedMail in Hsw. destruct leads; cbn [negb] in Hsw; [|injection Hsw as <- _ _; apply trimmed_refl].
    unfold ListUserIDs, statement in Hsw. destruct (sy_faults x _); cbn in Hsw; [injection Hsw as <- _ _; apply trimmed_refl|].
    destruct (reclaim_users _ _ _ _ _ s) as [s1 c1] eqn:E. injection Hsw as <- _ _.
    by apply (reclaim_users_spec _ _ B _ _ 0) in E as [_ ?]; [|done..|rewrite Nat.add_0_r]. }
  split.
  - intros u m uid meta msg Hu Hm Hmsg.
    destruct (mailboxes_kept garbage s s' u m) as [-> ->]; [|done..|].
    { intros k (u'&_&?&g&->&_). eauto. }
    split; [done|]. split; [done|]. destruct (Ht _ (user_not_uown _ (mailKey_user u (msg_MailGuid msg)))) as [?|[(u'&_&Hu'&g&Heq&_&Hun&_) _]]; [done|].
    apply mailKey_inj in Heq as [-> <-]; [|done..]. by destruct (Hun _ _ _ _ Hm Hmsg).
  - intros k Hk Hne. destruct (Ht k Hk) as [?|[(u&?&_&g&->&?&_&v&meta&?&?&?) ?]]; [done|]. split; [done|]. exists u, g, v, meta. done.
Qed.
End Mail.

(** * Trees *)

Lemma tree_id_safe key id : tree_id key = Some id -> safe id.
Proof.
  unfold tree_id. pose proof (Split_pieces "/"%char key) as Hall. destruct (Split key "/") as [|a [|b [|c l]]]; [done..|].
  case_match; [done|]. intros [= <-]. rewrite !Forall_cons in Hall. by destruct Hall as (_&_&?&_).
Qed.
Definition tree (u : string) : string := "/user/" +:+ u +:+ "/".
Lemma tree_inj u u' k : safe u -> safe u' -> String.prefix (tree u) k = true -> String.prefix (tree u') k = true -> u = u'.
Proof.
  intros Hu Hu' [r ->]%prefix_spec [r' Heq]%prefix_spec. unfold tree in Heq. rewrite !str_app_assoc in Heq.
  by apply user_path in Heq as [-> _].
Qed.
Lemma profile_in_tree u : String.prefix (tree u) (profileKey u) = true.
Proof. apply prefix_spec. exists "profile". unfold tree, profileKey. by rewrite !str_app_assoc. Qed.

Section Trees.
Context {DB : Type} `{PebbleClose DB} `{RaftApplier DB} `{!UserApplier DB}.
Implicit Types s : DB.

(** A key of a tree that two passes found without an owner. *)
Definition ownerless (rows : list string) (prev : gset string) s (k : string) : Prop :=
  exists id, safe id /\ id ∈ prev /\ id ∉ rows /\ contents s !! profileKey id = None /\ String.prefix (tree id) k = true.

Lemma profile_gone_spec s u : healthy s -> profile_gone s u = true <-> contents s !! profileKey u = None.
Proof. intros Hs. unfold profile_gone. rewrite Get_healthy by done. by destruct (contents s !! profileKey u). Qed.

Lemma reclaim_tree_spec B n id dropped s s' dropped' :
  healthy s -> user_bound B s -> uready (B + n) s -> reclaimGhostUserTree id dropped s = (s', dropped') ->
  healthy s' /\ uready n s' /\ trimmed (fun k => String.prefix (tree id) k = true) s s'.
Proof.
  intros Hs Hb Hr. unfold reclaimGhostUserTree, tree_keys. rewrite PrefixScan_healthy by done.
  destruct (db_close _ _ _); [intros [= <- _]; split; [done|]; split; [eapply uready_le; [|done]; lia|apply trimmed_refl]|].
  match goal with |- context [apply_deletes ?ks s] => set (keys := ks) end.
  assert (forall k, k ∈ keys -> String.prefix (tree id) k = true) as Hkeys.
  { intros k Hk. unfold keys in Hk. apply list_elem_of_fmap in Hk as (kv&->&Hk). apply list_elem_of_fmap in Hk as ([k' v]&->&Hk).
    by apply elem_of_scan in Hk as [_ ?]. }
  assert (length keys <= B)%nat as Hl.
  { unfold keys. rewrite !length_fmap. apply (scan_bound B s (tree id) Hb). apply prefix_app. }
  destruct (apply_deletes keys s) as [s1 c] eqn:E. intros [= <- _]. cbn [fst].
  apply (apply_deletes_spec _ n) in E as (?&?&Ht); [|..|eapply uready_le; [|exact Hr]; lia]; [|apply Forall_forall|done].
  - split; [done|]. split; [done|]. eapply trimmed_weaken; [|exact Ht]. apply Hkeys.
  - intros k Hk. specialize (Hkeys k Hk). apply prefix_spec in Hkeys as [r ->]. unfold tree. rewrite str_app_assoc. apply prefix_app.
Qed.

Lemma check_trees_spec B rows prev ids n cur dropped s s' dropped' cur' :
  Forall safe ids -> healthy s -> user_bound B s -> uready (length ids * B + n) s ->
  check_trees rows prev ids cur dropped s = (s', dropped', cur') -> trimmed (ownerless rows prev s) s s'.
Proof.
  revert cur dropped s. induction ids as [|id ids IH]; intros cur dropped s Hall Hs Hb Hr; cbn [check_trees].
  { intros [= <- _ _]. apply trimmed_refl. }
  apply Forall_cons in Hall as [Hid Hall].
  destruct (bool_decide (id ∈ rows) || negb (profile_gone s id)) eqn:E.
  { intros Hrec. eapply IH; [done..|eapply uready_le; [|done]; cbn; lia|done]. }
  apply orb_false_iff in E as [Erow%bool_decide_eq_false Eprof%negb_false_iff]. apply profile_gone_spec in Eprof; [|done].
  set (m := if bool_decide (id ∈ prev) then _ else _). destruct m as [s1 dropped1] eqn:Em. intros Hrec.
  assert (healthy s1 /\ uready (length ids * B + n) s1 /\ trimmed (fun k => id ∈ prev /\ String.prefix (tree id) k = true) s s1) as (Hs1&Hr1&Ht1).
  { unfold m in Em. case_bool_decide as Hp; [|injection Em as <- _; split; [done|]; split; [eapply uready_le; [|done]; cbn; lia|apply trimmed_refl]].
    apply (reclaim_tree_spec B (length ids * B + n)) in Em as (?&?&Ht); [|done..|eapply uready_le; [|done]; cbn; lia].
    split; [done|]. split; [done|]. eapply trimmed_weaken; [|exact Ht]. by intros. }
  eapply IH in Hrec; [|done|done|by eapply trimmed_bound|done].
  eapply trimmed_trans; [eapply trimmed_weaken; [|exact Ht1]|eapply trimmed_weaken; [|exact Hrec]].
  - cbn. intros k [? ?]. by exists id.
  - intros k (id'&Hsafe&?&?&Hprof&?). exists id'. do 3 (split; [done|]). split; [|done].
    destruct (Ht1 (profileKey id')) as [<-|[[_ Hpre] _]]; [apply user_not_uown, prefix_app|done|].
    assert (id' = id) as -> by (eapply tree_inj; [..|apply profile_in_tree|exact Hpre]; done). done.
Qed.

(** The ghost sweep touches only trees whose owner has neither a profile nor a
    row, and which the pass before found so too: the keys of every account that
    has one stay as they are. *)
Theorem ghost_sweep_spares_accounts leads order B prev s x s' x' dropped cur u k :
  (forall X, order X ≡ₚ elements X) ->
  healthy s -> user_bound B s -> uready (B * B) s -> sweepGhostUserTrees leads order prev s x = (s', x', dropped, cur) ->
  safe u -> is_Some (contents s !! profileKey u) \/ u ∈ sy_users x \/ u ∉ prev -> String.prefix (tree u) k = true ->
  contents s' !! k = contents s !! k.
Proof.
  intros Ho Hs Hb Hr Hsw Hu Hlive Hk. unfold sweepGhostUserTrees in Hsw.
  destruct leads; cbn [negb] in Hsw; [|injection Hsw as <- _ _ _; done]. rewrite PrefixScan_healthy in Hsw by done.
  destruct (db_close _ _ _); [injection Hsw as <- _ _ _; done|]. unfold ListUserIDs, statement in Hsw.
  destruct (sy_faults x _); cbn in Hsw; [injection Hsw as <- _ _ _; done|].
  set (X := list_to_set _) in Hsw. destruct (check_trees _ _ _ _ _ _) as [[s1 d1] c1] eqn:E. injection Hsw as <- _ _ _.
  apply (check_trees_spec B _ _ _ 0) in E as Ht; [|..|done|done|].
  - destruct (Ht k) as [?|[(id&Hid&?&?&Hn&Hp) _]]; [|done|].
    + apply user_not_uown. apply prefix_spec in Hk as [r ->]. unfold tree. rewrite str_app_assoc. apply prefix_app.
    + assert (id = u) as -> by (eapply tree_inj; [..|exact Hp|exact Hk]; done). destruct Hlive as [[? ?]|[?|?]]; congruence.
  - apply Forall_forall. intros id Hid. rewrite Ho, elem_of_elements in Hid. unfold X in Hid.
    apply elem_of_list_to_set, list_elem_of_omap in Hid as (kv&_&Hid). by eapply tree_id_safe.
  - eapply uready_le; [|exact Hr]. rewrite Nat.add_0_r. apply Nat.mul_le_mono_r.
    rewrite Ho. unfold X. etrans; [apply elements_length_le|]. etrans; [apply length_omap_le|]. rewrite length_fmap. by apply scan_bound.
Qed.
End Trees.

(** * Usage *)

Section Usage.
Context {DB : Type} `{PebbleClose DB} `{MailCodecs} `{Codec UserProfile} `{GoUnicode}.
Implicit Types s : DB.

(** What one entry adds to a domain: its size, when it is a counted record of a
    user whose address is in the domain. *)
Definition entry_usage s (d : string) (kv : string * result string) : Z :=
  match SplitN (TrimPrefix kv.1 "/user/") "/" 3 with
  | [userID; kind; _] => if counted_kind kind && String.eqb (owner_domain s userID) d then default 0 (record_bytes kind kv.2) else 0
  | _ => 0
  end.
Definition domain_usage s (d : string) (l : list (string * result string)) : Z := foldr (fun kv n => entry_usage s d kv + n) 0 l.

Lemma sum_usage_from s d l cache bytes :
  d <> "" -> (forall u x, cache !! u = Some x -> x = owner_domain s u) -> Forall (fun kv => 0 <= entry_usage s d kv) l ->
  0 <= default 0 (bytes !! d) -> default 0 (bytes !! d) + domain_usage s d l <= MaxInt64 ->
  default 0 (sum_usage s l cache bytes !! d) = default 0 (bytes !! d) + domain_usage s d l.
Proof.
  intros Hd. revert cache bytes. induction l as [|[key v] l IH]; intros cache bytes Hc Hall Hpos Hmax; cbn [sum_usage domain_usage foldr]; [lia|].
  apply Forall_cons in Hall as [He Hall]. cbn [domain_usage foldr] in Hmax. fold (domain_usage s d l) in Hmax |- *.
  assert (0 <= domain_usage s d l) as Hge by (clear -Hall; unfold domain_usage; induction Hall; cbn [foldr]; lia).
  remember (entry_usage s d (key, v)) as e eqn:Ee. unfold entry_usage in Ee. cbn [fst snd] in Ee.
  destruct (SplitN (TrimPrefix key "/user/") "/" 3) as [|userID [|kind [|a [|b l']]]]; try (rewrite IH; [lia|done..|lia]).
  destruct (counted_kind kind); cbn [negb andb] in *; [|rewrite IH; [lia|done..|lia]].
  set (dom := match cache !! userID with Some x => x | None => owner_domain s userID end).
  assert (dom = owner_domain s userID) as Hdom by (unfold dom; destruct (cache !! userID) eqn:Eu; [by apply Hc|done]).
  assert (forall u x, <[userID := dom]> cache !! u = Some x -> x = owner_domain s u) as Hc'.
  { intros u x [[<- <-]|[_ Hx]]%lookup_insert_Some; [done|by apply Hc]. }
  rewrite <- Hdom in Ee. clearbody dom. destruct (String.eqb_spec dom d) as [Edom|Hne].
  - rewrite Edom in *. rewrite (proj2 (String.eqb_neq d "") Hd). destruct (record_bytes kind v) as [n|]; cbn in Ee; [|rewrite IH; [lia|done..|lia]].
    assert (0 <= default 0 (bytes !! d) + n <= MaxInt64) as Hn by lia.
    assert (in_i64 (default 0 (bytes !! d) + n)) as Hi by (unfold in_i64, MaxInt64 in *; lia).
    rewrite IH; rewrite ?lookup_insert_eq; cbn; rewrite ?i64_small by done; try done; lia.
  - destruct (String.eqb dom ""); [rewrite IH; [lia|done..|lia]|].
    destruct (record_bytes kind v) as [n|]; rewrite IH; rewrite ?lookup_insert_ne by done; try done; lia.
Qed.

(** The recomputed usage of a domain is the size of the mail, events, contacts
    and tasks of the users with an address in it, each record counted once. *)
Theorem usage_is_exact s d l :
  d <> "" -> Forall (fun kv => 0 <= entry_usage s d kv) l -> domain_usage s d l <= MaxInt64 ->
  default 0 (sum_usage s l ∅ ∅ !! d) = domain_usage s d l.
Proof. intros Hd Hall Hmax. rewrite (sum_usage_from s d l ∅ ∅); rewrite ?lookup_empty; cbn [default]; try done; lia. Qed.
End Usage.

(** * A concrete pass *)

Section Demo.
#[local] Existing Instances demo_codecs demo_codec_laws bytewise_unicode plain_raft plain_applier.
#[local] Instance demo_sweep_user : UserApplier MemDB := plain_user.

(** The metadata of an expunged message beside a mailbox with another. *)
Definition sweep_rows : SystemIndex := mkIndex ["u1"] [] 0 (fun _ => false).
Definition swept : MemDB := (sweepOrphanedMail true (100 * Hour) Hour {[ mail_mark "u1" "g1" ]} demo_orphan sweep_rows).1.1.

Lemma orphan_sweep_keeps_mail_witness :
  contents swept !! mailMetaKey "u1" "g1" = None /\
  forall u m uid meta msg, safe u -> meta_at (contents demo_orphan) u m = Some meta -> msg_at (contents demo_orphan) u m uid = Some msg ->
    msg_at (contents swept) u m uid = Some msg.
Proof.
  split; [vm_compute; reflexivity|]. intros u m uid meta msg Hu Hm Hmsg.
  destruct (orphan_sweep_keeps_mail true (100 * Hour) Hour 100 {[ mail_mark "u1" "g1" ]} demo_orphan sweep_rows swept
    (mkIndex ["u1"] [] 1 (fun _ => false)) {[ mail_mark "u1" "g1" ]}) as [Hkeep _].
  - apply healthy_check_ok. by vm_compute.
  - unfold user_bound. apply Nat.leb_le. vm_compute. reflexivity.
  - exact I.
  - constructor; [|constructor]. split; [reflexivity|]. apply named_check_ok; [reflexivity|by vm_compute].
  - vm_compute. reflexivity.
  - exact (proj1 (proj2 (Hkeep u m uid meta msg Hu Hm Hmsg))).
Defined.
End Demo.
