(* ===== verification/Fsm.v ===== *)
(** The replicated state machine: [internal/cluster/fsm.go], and the leader's
    apply path of [internal/cluster/forward.go].

    A node applies committed log entries to its Pebble store, dispatches the
    synthetic commands, publishes mailbox events and feeds the derived indexes
    inline or through a bounded queue drained by one worker. *)

From S2P Require Import Prelude GoStrings Pebble Proto Mailbox MailboxInv Notify QueueCommand Bayes Acl Credentials UserData.
From Stdlib Require Import Ascii.

(** * Records *)

(** The legacy JSON command. *)
Record Command := mkLegacy { lc_Op : string; lc_Key : string; lc_Value : string }.

#[global] Instance Command_eq_dec : EqDecision Command.
Proof. solve_decision. Defined.
#[global] Instance Command_countable : Countable Command.
Proof.
  apply (inj_countable' (fun c => (lc_Op c, lc_Key c, lc_Value c)) (fun '(a, b, c) => mkLegacy a b c)).
  by intros [].
Defined.

Record RaftLog := mkLog { log_Index : Z; log_Data : string }.

(** The calls made to the SQLite and Bleve indexes, the GAL and the blob
    syncer, whose implementations are outside this model. *)
Inductive IndexOp :=
| IndexMail (userID guid : string) (meta : MailMeta)
| DeleteMail (userID guid : string)
| IndexProfile (userID : string) (profile : UserProfile)
| RemoveProfile (userID : string)
| EnqueueBlob (hash : string).

Class FsmCodecs := {
  fc_cmd :: Codec RaftCommand;
  fc_legacy :: Codec Command;
  fc_profile :: Codec UserProfile;
  fc_move :: Codec queueMovePayload;
  fc_train :: Codec bayesTrainPayload;
}.
Class FsmCodecLaws `{FsmCodecs} := {
  fl_cmd :: ProtoLaws RaftCommand;
  (** [RaftCommand] holds bytes only: it always encodes. *)
  fl_cmd_clean c : clean c;
}.

Definition raftAppliedIndexKey : string := "/system/raft/applied_index".
Definition indexQueueDepth : nat := 4096.

(** The node's mutable state.  [f_queue] is [None] until [StartIndexer]. *)
Record FSM (DB : Type) := mkFSM {
  f_store : DB;
  f_notifier : bool;
  f_blobSync : bool;
  f_queue : option (list RaftCommand);
  f_index : list IndexOp;          (* index calls made so far, in order *)
  f_events : list MailboxEvent }.  (* events published so far, in order *)
Arguments mkFSM {DB} _ _ _ _ _ _.
Arguments f_store {DB} _. Arguments f_notifier {DB} _. Arguments f_blobSync {DB} _.
Arguments f_queue {DB} _. Arguments f_index {DB} _. Arguments f_events {DB} _.

Definition opStringToProto (op : string) : Op :=
  if String.eqb op "put" then OP_PUT else if String.eqb op "delete" then OP_DELETE else OP_UNSPECIFIED.

(** Only per-user mail and event objects may be indexed in the background. *)
Definition isDeferrableIndexKey (k : string) : bool :=
  if negb (HasPrefix k "/user/") || HasSuffix k "/profile" then false else
  match SplitN k "/" 5 with
  | [_; _; _; ty; _] => String.eqb ty "mail" || String.eqb ty "event"
  | _ => false
  end.

Section Fsm.
Context {DB : Type} `{PebbleDB DB} `{MailCodecs} `{GoUnicode} `{CredCodecs} `{AclCodecs} `{FsmCodecs}.
Implicit Types f : FSM DB.

Definition with_store f (s : DB) : FSM DB := mkFSM s (f_notifier f) (f_blobSync f) (f_queue f) (f_index f) (f_events f).
Definition with_queue f q : FSM DB := mkFSM (f_store f) (f_notifier f) (f_blobSync f) q (f_index f) (f_events f).
Definition with_index f (ops : list IndexOp) : FSM DB :=
  mkFSM (f_store f) (f_notifier f) (f_blobSync f) (f_queue f) (f_index f ++ ops) (f_events f).
Definition with_events f (evs : list MailboxEvent) : FSM DB :=
  mkFSM (f_store f) (f_notifier f) (f_blobSync f) (f_queue f) (f_index f) (f_events f ++ evs).

(** Run a store operation on the node's store. *)
Definition on_store {A} (m : GoM DB A) : GoM (FSM DB) A := fun f =>
  let (s', r) := m (f_store f) in (with_store f s', r).

(** * The applied-index watermark *)

Definition appliedIndex (ps : DB) : Z :=
  match Get ps raftAppliedIndexKey with
  | Err _ => 0
  | Ok v => if Nat.eqb (String.length v) 8 then be_get 0 v else 0
  end.

(** A failure to persist it is only logged. *)
Definition setAppliedIndex (idx : Z) f : FSM DB :=
  with_store f (Set_ raftAppliedIndexKey (be_put 8 idx) (f_store f)).1.

(** * Derived indexes *)

(** Blob hashes a mail record refers to. *)
Definition blob_refs (meta : MailMeta) : list IndexOp :=
  (match mm_RawMessage meta with
   | Some b => if String.eqb (br_Hash b) "" then [] else [EnqueueBlob (br_Hash b)]
   | None => []
   end) ++ (EnqueueBlob <$> filter (fun h => h <> "") (br_Hash <$> mm_Attachments meta)).
Definition enqueueBlobRefs (cmd : RaftCommand) : list IndexOp :=
  if negb (Contains (cmd_Key cmd) "/mail/") then [] else
  match unmarshal (cmd_Value cmd) with Err _ => [] | Ok meta => blob_refs meta end.

Definition indexStoreObject (userID guid : string) (isMail : bool) (cmd : RaftCommand) : list IndexOp :=
  match cmd_Op cmd with
  | OP_DELETE => if isMail then [DeleteMail userID guid] else []
  | _ => if isMail then match unmarshal (cmd_Value cmd) with Err _ => [] | Ok meta => [IndexMail userID guid meta] end
         else []
  end.

Definition removeProfile (userID : string) : list IndexOp :=
  if String.eqb userID "" then [] else [RemoveProfile userID].
Definition indexProfile (userID : string) (cmd : RaftCommand) : list IndexOp :=
  match cmd_Op cmd with
  | OP_DELETE => removeProfile userID
  | _ => match unmarshal (cmd_Value cmd) with Err _ => [] | Ok profile => [IndexProfile userID profile] end
  end.

(** The index calls one command makes. *)
Definition runDerivedIndexes (blobSync : bool) (cmd : RaftCommand) : list IndexOp :=
  (if HasPrefix (cmd_Key cmd) "/user/" then
     match SplitN (cmd_Key cmd) "/" 5 with
     | [_; _; userID; objType; guid] =>
         if String.eqb objType "mail" then indexStoreObject userID guid true cmd
         else if String.eqb objType "event" then indexStoreObject userID guid false cmd else []
     | [_; _; userID; "profile"] => indexProfile userID cmd
     | _ => []
     end
   else []) ++
  (if blobSync && bool_decide (cmd_Op cmd = OP_PUT) then enqueueBlobRefs cmd else []).

(** Queue the work, or run it inline when there is no worker, the key is not
    deferrable, or the queue is full. *)
Definition updateDerivedIndexes (cmd : RaftCommand) f : FSM DB :=
  match f_queue f with
  | Some q =>
      if negb (isDeferrableIndexKey (cmd_Key cmd)) then with_index f (runDerivedIndexes (f_blobSync f) cmd)
      else if (length q <? indexQueueDepth)%nat then with_queue f (Some (q ++ [cmd]))
      else with_index f (runDerivedIndexes (f_blobSync f) cmd)
  | None => with_index f (runDerivedIndexes (f_blobSync f) cmd)
  end.

Definition StartIndexer f : FSM DB := match f_queue f with Some _ => f | None => with_queue f (Some []) end.

(** One iteration of the worker. *)
Definition worker_step f : FSM DB :=
  match f_queue f with
  | Some (cmd :: q) => with_index (with_queue f (Some q)) (runDerivedIndexes (f_blobSync f) cmd)
  | _ => f
  end.

(** The worker empties the queue, as it does when its context ends. *)
Definition drain f : FSM DB := Nat.iter (length (default [] (f_queue f))) worker_step f.

Definition handleMailboxCommandResult (result : option MailboxCommandResult) f : FSM DB :=
  match result with
  | Some r =>
      match cr_NewMail r with
      | Some nm =>
          match nm_Meta nm with
          | Some meta =>
              match marshal meta with
              | Err _ => f
              | Ok metaBytes => updateDerivedIndexes (mkCmd OP_PUT (mailMetaKey (nm_UserID nm) (nm_GUID nm)) metaBytes) f
              end
          | None => f
          end
      | None => f
      end
  | None => f
  end.

(** * Applying entries *)

Definition is_put (cmd : RaftCommand) : bool := bool_decide (cmd_Op cmd = OP_PUT).

(** The plain key-value write of a command. *)
Definition plain_write (op : Op) (key value unknown : string) : GoM DB unit :=
  match op with
  | OP_PUT => Set_ key value
  | OP_DELETE => Delete key
  | OP_UNSPECIFIED => gfail (Errorf ("unknown op: " +:+ unknown))
  end.

Definition applyProto (cmd : RaftCommand) : GoM (FSM DB) unit := fun f =>
  let pending := PrepareNotify (f_store f) (f_notifier f) cmd in
  let key := cmd_Key cmd in
  if is_put cmd && IsMailboxSyntheticCommand key then
    match on_store (ApplyMailboxCommand cmd) f with
    | (f1, Err e) => (f1, Err e)
    | (f1, Ok result) =>
        let f2 := handleMailboxCommandResult result f1 in
        (with_events f2 (Emit pending (f_store f2) result), Ok tt)
    end
  else if is_put cmd && IsQueueSyntheticCommand key then on_store (ApplyQueueCommand cmd) f
  else if is_put cmd && IsBayesSyntheticCommand key then on_store (ApplyBayesTrainCommand cmd) f
  else if is_put cmd && IsACLSyntheticCommand key then on_store (ApplyACLCommand cmd) f
  else if is_put cmd && IsAppPasswordSyntheticCommand key then on_store (ApplyAppPasswordTouch cmd) f
  else if is_put cmd && IsAppPasswordTicketCommand key then on_store (ApplyAppPasswordTicketConsume cmd) f
  else
    match on_store (plain_write (cmd_Op cmd) key (cmd_Value cmd) "OP_UNSPECIFIED") f with
    | (f1, Err e) => (f1, Err e)
    | (f1, Ok _) =>
        let f2 := updateDerivedIndexes cmd f1 in
        (with_events f2 (Emit pending (f_store f2) None), Ok tt)
    end.

Definition applyLegacy (c : Command) : GoM (FSM DB) unit := fun f =>
  match on_store (plain_write (opStringToProto (lc_Op c)) (lc_Key c) (lc_Value c) (quote (lc_Op c))) f with
  | (f1, Err e) => (f1, Err e)
  | (f1, Ok _) => (updateDerivedIndexes (mkCmd (opStringToProto (lc_Op c)) (lc_Key c) (lc_Value c)) f1, Ok tt)
  end.

Definition applyEntry (log : RaftLog) : GoM (FSM DB) unit := fun f =>
  let legacy :=
    match unmarshal (log_Data log) with
    | Err e => (f, Err (Wrap "unmarshal command" e))
    | Ok c => applyLegacy c f
    end in
  match unmarshal (log_Data log) with
  | Ok cmd => match cmd_Op cmd with OP_UNSPECIFIED => legacy | _ => applyProto cmd f end
  | Err _ => legacy
  end.

Definition Apply (log : RaftLog) : GoM (FSM DB) unit := fun f =>
  if negb (log_Index log =? 0) && (log_Index log <=? appliedIndex (f_store f)) then (f, Ok tt) else
  let (f1, r) := applyEntry log f in
  (if log_Index log =? 0 then f1 else setAppliedIndex (log_Index log) f1, r).

(** * Snapshots *)

(** [Restore] replaces every key under "/" by the snapshot's, in one batch.
    [snap] is the scan of the extracted snapshot store. *)
Fixpoint stage_snapshot (l : list (string * result string)) : result (list batch_op) :=
  match l with
  | [] => Ok []
  | (k, v) :: l' =>
      let? val := wrapf "reading restored value" (iter_value v) in
      let? rest := stage_snapshot l' in
      Ok (BSet k val :: rest)
  end.
Definition Restore (snapshot : DB) : GoM (FSM DB) unit :=
  let! l := glift (wrapf "scanning restored data" (PrefixScan snapshot "/")) in
  let! sets := glift (stage_snapshot l) in
  on_store (gwrap "applying restore batch" (commit (BDeleteRange "/" "0" :: sets))).

(** * The leader *)

Record Node := mkNode { n_fsm : FSM DB; n_last : Z; n_leader : bool }.

Definition NotLeaderError : err := Sentinel "not the raft leader".

(** [cluster.ApplyCommand]: on the leader the entry gets the next log index and
    is applied; the FSM's error response is returned. *)
Definition node_ApplyCommand (cmd : RaftCommand) (n : Node) : Node * result unit :=
  if negb (n_leader n) then (n, Err NotLeaderError) else
  match marshal cmd with
  | Err e => (n, Err (Wrap "encoding command" e))
  | Ok data =>
      let idx := n_last n + 1 in
      let (f', r) := Apply (mkLog idx data) (n_fsm n) in
      (mkNode f' idx (n_leader n), wrapf "fsm apply" r)
  end.

End Fsm.
