(* ===== verification/FsmThm.v ===== *)
(** Theorems on the replicated state machine: log replay, snapshots, the order
    of derived-index updates, and the applier interface of the mailbox store. *)

From S2P Require Import Prelude GoStrings Utf8 MailText Pebble Proto Mailbox MailboxInv MailboxLemmas MailboxSteps MailboxSpec.
From S2P Require Import MailboxStore MailboxClient Notify QueueCommand Bayes Acl AclThm Credentials Fsm.
From Stdlib Require Import Ascii.

(** * Every operation keeps a healthy store healthy *)

Section Healthy.
Context {DB : Type} `{PebbleLaws DB}.
Definition keeps {A} (m : GoM DB A) : Prop := forall s s' r, healthy s -> m s = (s', r) -> healthy s'.

Lemma keeps_ret {A} (a : A) : keeps (gret a).
Proof. intros s s' r Hs [= <- _]. done. Qed.
Lemma keeps_fail {A} e : keeps (A := A) (gfail e).
Proof. intros s s' r Hs [= <- _]. done. Qed.
Lemma keeps_lift {A} (x : result A) : keeps (glift x).
Proof. intros s s' r Hs [= <- _]. done. Qed.
Lemma keeps_read {A} (x : DB -> result A) : keeps (gread x).
Proof. intros s s' r Hs [= <- _]. done. Qed.
Lemma keeps_bind {A B} (m : GoM DB A) (k : A -> GoM DB B) : keeps m -> (forall a, keeps (k a)) -> keeps (gbind m k).
Proof.
  intros Hm Hk s s' r Hs. unfold gbind. destruct (m s) as [s1 [a|e]] eqn:E; intros Hr.
  - eapply Hk; [|exact Hr]. by eapply Hm.
  - injection Hr as <- _. by eapply Hm.
Qed.
Lemma keeps_wrap {A} t (m : GoM DB A) : keeps m -> keeps (gwrap t m).
Proof. intros Hm s s' r Hs. unfold gwrap. destruct (m s) eqn:E. intros [= <- _]. by eapply Hm. Qed.
Lemma keeps_commit b : keeps (commit b).
Proof. intros s s' r Hs Hr. destruct (commit_healthy s b Hs) as (s1&E&?). congruence. Qed.
Lemma keeps_if {A} (b : bool) (m n : GoM DB A) : keeps m -> keeps n -> keeps (if b then m else n).
Proof. by destruct b. Qed.
End Healthy.

Create HintDb keeps.
#[export] Hint Resolve keeps_ret keeps_fail keeps_lift keeps_read keeps_commit : keeps.
(** Follow the structure of the operation. *)
Ltac keeps :=
  repeat first
    [ solve [eauto with keeps]
    | apply keeps_bind; [|intros ?]
    | apply keeps_wrap
    | progress case_match
    | match goal with |- keeps (let (_, _) := ?p in _) => destruct p end ].

Section HealthyOps.
Context {DB : Type} `{PebbleLaws DB} `{MailCodecs} `{GoUnicode} `{CredCodecs} `{AclCodecs} `{FsmCodecs}.

Lemma keeps_Set k v : keeps (Set_ k v).
Proof. unfold Set_. keeps. Qed.
Lemma keeps_Delete k : keeps (Delete k).
Proof. unfold Delete. keeps. Qed.
Lemma keeps_sync b : keeps (commitSyncBatch b).
Proof. unfold commitSyncBatch. keeps. Qed.
#[local] Hint Resolve keeps_Set keeps_Delete keeps_sync : keeps.

Lemma keeps_mailbox cmd : keeps (ApplyMailboxCommand cmd).
Proof.
  unfold ApplyMailboxCommand, no_result, applyMailboxAppend, applyMailboxCopy, applyMailboxDelete,
    applyMailboxDelivery, applyMailboxExpunge, applyMailboxMove, applyMailboxRename, applyMailboxSubscribe.
  keeps.
Qed.
Lemma keeps_queue cmd : keeps (ApplyQueueCommand cmd).
Proof. unfold ApplyQueueCommand. keeps. Qed.
Lemma keeps_bayes cmd : keeps (ApplyBayesTrainCommand cmd).
Proof. unfold ApplyBayesTrainCommand. keeps. Qed.
Lemma keeps_acl cmd : keeps (ApplyACLCommand cmd).
Proof. unfold ApplyACLCommand. keeps. Qed.
Lemma keeps_touch cmd : keeps (ApplyAppPasswordTouch cmd).
Proof. unfold ApplyAppPasswordTouch. keeps. Qed.
Lemma keeps_ticket cmd : keeps (ApplyAppPasswordTicketConsume cmd).
Proof. unfold ApplyAppPasswordTicketConsume. keeps. Qed.
Lemma keeps_plain op k v u : keeps (plain_write op k v u).
Proof. unfold plain_write. keeps. Qed.

(** ** The parts of the state an apply leaves alone *)

Lemma updateDerived_store cmd (f : FSM DB) : f_store (updateDerivedIndexes cmd f) = f_store f.
Proof. unfold updateDerivedIndexes. by repeat case_match. Qed.
Lemma handleResult_store r (f : FSM DB) : f_store (handleMailboxCommandResult r f) = f_store f.
Proof. unfold handleMailboxCommandResult. repeat case_match; try done. apply updateDerived_store. Qed.

Lemma on_store_keeps {A} (m : GoM DB A) (f f' : FSM DB) r :
  keeps m -> healthy (f_store f) -> on_store m f = (f', r) -> healthy (f_store f').
Proof. intros Hm Hs. unfold on_store. destruct (m (f_store f)) eqn:E. intros [= <- _]. by eapply Hm. Qed.

Lemma applyProto_keeps cmd (f f' : FSM DB) r :
  healthy (f_store f) -> applyProto cmd f = (f', r) -> healthy (f_store f').
Proof.
  intros Hs. unfold applyProto.
  repeat (match goal with |- context [if ?b then _ else _] => destruct b end;
    [try (by apply on_store_keeps; auto using keeps_queue, keeps_bayes, keeps_acl, keeps_touch, keeps_ticket)|]).
  - destruct (on_store _ f) as [f1 [x|e]] eqn:E; intros [= <- _].
    + cbn. rewrite handleResult_store. by eapply on_store_keeps; [apply keeps_mailbox| |].
    + by eapply on_store_keeps; [apply keeps_mailbox| |].
  - destruct (on_store _ f) as [f1 [x|e]] eqn:E; intros [= <- _].
    + cbn. rewrite updateDerived_store. by eapply on_store_keeps; [apply keeps_plain| |].
    + by eapply on_store_keeps; [apply keeps_plain| |].
Qed.

Lemma applyEntry_keeps log (f f' : FSM DB) r :
  healthy (f_store f) -> applyEntry log f = (f', r) -> healthy (f_store f').
Proof.
  intros Hs. unfold applyEntry, applyLegacy.
  repeat case_match; intros; simplify_eq; try done; try (by eapply applyProto_keeps);
    rewrite ?updateDerived_store; by eapply on_store_keeps; [apply keeps_plain| |].
Qed.
End HealthyOps.

(** * The log *)

Section Replay.
Context {DB : Type} `{PebbleLaws DB} `{MailCodecs} `{GoUnicode} `{CredCodecs} `{AclCodecs} `{FsmCodecs}.
Implicit Types f g : FSM DB.

(** Two outcomes with the same store and the same answer. *)
Definition same_store {A} (p q : FSM DB * result A) : Prop := f_store p.1 = f_store q.1 /\ p.2 = q.2.

Lemma on_store_same {A} (m : GoM DB A) f g :
  f_store f = f_store g -> same_store (on_store m f) (on_store m g).
Proof. intros E. unfold same_store, on_store. rewrite E. by destruct (m (f_store g)). Qed.

Ltac same_branch m f g :=
  let E1 := fresh in let E2 := fresh in let Hs := fresh in let Hr := fresh in
  destruct (on_store_same m f g ltac:(done)) as [Hs Hr];
  destruct (on_store m f) as [? []] eqn:E1, (on_store m g) as [? []] eqn:E2; cbn in Hs, Hr; simplify_eq;
  unfold same_store; cbn; rewrite ?handleResult_store, ?updateDerived_store; by split.

Lemma applyProto_same cmd f g :
  f_store f = f_store g -> same_store (applyProto cmd f) (applyProto cmd g).
Proof.
  intros E. unfold applyProto. cbv zeta.
  destruct (is_put cmd && IsMailboxSyntheticCommand _).
  { same_branch (ApplyMailboxCommand cmd) f g. }
  repeat (match goal with |- context [if ?b then _ else _] => destruct b end; [by apply on_store_same|]).
  same_branch (plain_write (cmd_Op cmd) (cmd_Key cmd) (cmd_Value cmd) "OP_UNSPECIFIED") f g.
Qed.

Lemma applyLegacy_same c f g :
  f_store f = f_store g -> same_store (applyLegacy c f) (applyLegacy c g).
Proof.
  intros E. unfold applyLegacy.
  same_branch (plain_write (opStringToProto (lc_Op c)) (lc_Key c) (lc_Value c) (quote (lc_Op c))) f g.
Qed.

Lemma applyEntry_same log f g :
  f_store f = f_store g -> same_store (applyEntry log f) (applyEntry log g).
Proof.
  intros E. unfold applyEntry.
  repeat case_match; auto using applyProto_same, applyLegacy_same; by split.
Qed.

Lemma Apply_same log f g :
  f_store f = f_store g -> same_store (Apply log f) (Apply log g).
Proof.
  intros E. unfold Apply. rewrite E. case_match; [by split|].
  destruct (applyEntry_same log f g E) as [Es Er].
  destruct (applyEntry log f), (applyEntry log g). cbn in Es, Er. subst.
  split; [|done]. cbn. case_match; [done|]. cbn. by rewrite Es.
Qed.

(** ** The watermark *)

(** A log: entries numbered from 1, as Raft does. *)
Definition log_ok (l : list RaftLog) : Prop :=
  Forall (fun e => 0 < log_Index e < 2 ^ 64) l /\
  StronglySorted (fun a b => log_Index a < log_Index b) l.

Definition run (l : list RaftLog) f : FSM DB := foldl (fun f e => (Apply e f).1) f l.

Lemma run_app l1 l2 f : run (l1 ++ l2) f = run l2 (run l1 f).
Proof. apply foldl_app. Qed.

Lemma run_same l f g : f_store f = f_store g -> f_store (run l f) = f_store (run l g).
Proof.
  revert f g. induction l as [|e l IH]; intros f g E; [done|]. cbn. apply IH. by apply Apply_same.
Qed.

Lemma setAppliedIndex_spec idx f :
  healthy (f_store f) -> 0 <= idx < 2 ^ 64 ->
  healthy (f_store (setAppliedIndex idx f)) /\ appliedIndex (f_store (setAppliedIndex idx f)) = idx.
Proof.
  intros Hs Hi. unfold setAppliedIndex. cbn [f_store with_store].
  destruct (Set_ raftAppliedIndexKey (be_put 8 idx) (f_store f)) as [s' r] eqn:E. cbn [fst].
  assert (healthy s') as Hs' by (exact (keeps_Set _ _ _ _ _ Hs E)). split; [exact Hs'|].
  destruct r as [u|e].
  - apply Set_Ok in E. unfold appliedIndex. rewrite Get_healthy, E, lookup_insert_eq by done. cbn [of_option].
    rewrite be_put_length. by apply be_roundtrip.
  - exfalso. destruct (commit_healthy (f_store f) [BSet raftAppliedIndexKey (be_put 8 idx)] Hs) as (?&Hc&_).
    unfold Set_, gwrap in E. rewrite Hc in E. done.
Qed.

(** After an entry the watermark is at least its index, and never lower than before. *)
Lemma Apply_watermark e f :
  healthy (f_store f) -> 0 < log_Index e < 2 ^ 64 ->
  let f' := (Apply e f).1 in
  healthy (f_store f') /\ appliedIndex (f_store f') = Z.max (log_Index e) (appliedIndex (f_store f)).
Proof.
  intros Hs He. cbv zeta. unfold Apply.
  replace (log_Index e =? 0) with false by lia. cbn [negb andb].
  destruct (Z.leb_spec (log_Index e) (appliedIndex (f_store f))); [split; [done|cbn; lia]|].
  destruct (applyEntry e f) as [f1 r] eqn:E. cbn [fst]. apply applyEntry_keeps in E; [|done].
  destruct (setAppliedIndex_spec (log_Index e) f1) as [? ->]; [done|lia|]. split; [done|lia].
Qed.

Lemma run_watermark l f :
  healthy (f_store f) -> log_ok l ->
  healthy (f_store (run l f)) /\ appliedIndex (f_store f) <= appliedIndex (f_store (run l f)) /\
  Forall (fun e => log_Index e <= appliedIndex (f_store (run l f))) l.
Proof.
  revert f. induction l as [|e l IH]; intros f Hs [Hl Hso].
  { split; [done|]. split; [done|constructor]. }
  apply Forall_cons in Hl as [He Hl]. apply StronglySorted_inv in Hso as [Hso _].
  destruct (Apply_watermark e f Hs He) as [Hs' Hw].
  destruct (IH (Apply e f).1 Hs') as (Hh&Hle&Hall); [by split|]. cbn [run foldl]. unfold run in Hle.
  split; [done|]. split; [unfold run; lia|]. constructor; [unfold run; lia|done].
Qed.

(** Entries at or below the watermark change nothing. *)
Lemma run_skip l f :
  Forall (fun e => 0 < log_Index e <= appliedIndex (f_store f)) l -> run l f = f.
Proof.
  induction 1 as [|e l He _ IH]; [done|]. cbn.
  assert (Apply e f = (f, Ok tt)) as ->; [|done].
  unfold Apply. replace (log_Index e =? 0) with false by lia.
  by replace (log_Index e <=? appliedIndex (f_store f)) with true by lia.
Qed.

(** C11: restart and replay.  A node [f] applied the log [a ++ b] and stopped;
    it starts again as [g], with the same Pebble store and any other memory
    state (indexer, notifier, pending index work), and Raft replays the log from
    some earlier point, entries [b ++ l] where [l] is new.  The store is then the one a
    node that never stopped has: nothing applied twice, nothing skipped. *)
Theorem replay_after_restart a b l f g :
  healthy (f_store f) -> log_ok (a ++ b ++ l) ->
  f_store g = f_store (run (a ++ b) f) ->
  f_store (run (b ++ l) g) = f_store (run (a ++ b ++ l) f).
Proof.
  intros Hs Hl Eg. rewrite (run_same _ _ _ Eg), app_assoc, !(run_app _ l). rewrite app_assoc in Hl.
  assert (log_ok (a ++ b)) as Hab.
  { destruct Hl as [Hf Hso]. split; [by apply Forall_app in Hf as [? _]|by apply StronglySorted_app_1_l in Hso]. }
  destruct (run_watermark _ _ Hs Hab) as (_&_&Hw). rewrite (run_skip b); [done|].
  destruct Hab as [Hf _]. apply Forall_app in Hf as [_ Hf]. apply Forall_app in Hw as [_ Hw].
  rewrite Forall_forall in *. intros e He. specialize (Hf e He). specialize (Hw e He). cbn in *. lia.
Qed.

(** Replicas.  Two nodes that hold the same store and apply the same
    committed entries end with the same store and answer each entry alike,
    whatever indexer, notifier and backlog each has: the state machine reads
    nothing but the store and the log. *)
Theorem replicas_agree l f g e :
  f_store f = f_store g ->
  f_store (run l f) = f_store (run l g) /\ (Apply e (run l f)).2 = (Apply e (run l g)).2.
Proof. intros E. split; [by apply run_same|]. by apply Apply_same, run_same. Qed.
End Replay.

(** * The order of index updates *)

Section IndexOrder.
Context {DB : Type} `{PebbleDB DB} `{MailCodecs} `{GoUnicode} `{CredCodecs} `{AclCodecs} `{FsmCodecs}.
Implicit Types f : FSM DB.

(** Index calls on the message [g] of user [u]. *)
Definition about (u g : string) (op : IndexOp) : bool :=
  match op with
  | IndexMail u' g' _ | DeleteMail u' g' => String.eqb u u' && String.eqb g g'
  | _ => false
  end.
Definition calls_on (u g : string) (l : list IndexOp) : list IndexOp := List.filter (about u g) l.
Definition derived (bs : bool) (l : list RaftCommand) : list IndexOp := l ≫= runDerivedIndexes bs.

(** What the apply goroutine and the worker do, in any interleaving. *)
Inductive ix_event := IxUpdate (cmd : RaftCommand) | IxWork.
Definition ix_step f (ev : ix_event) : FSM DB :=
  match ev with IxUpdate cmd => updateDerivedIndexes cmd f | IxWork => worker_step f end.
Definition ix_run (evs : list ix_event) f : FSM DB := foldl ix_step f evs.
Definition updates (evs : list ix_event) : list RaftCommand :=
  omap (fun ev => match ev with IxUpdate cmd => Some cmd | IxWork => None end) evs.
Definition backlog f : list RaftCommand := default [] (f_queue f).
(** The queue had room whenever an update was made. *)
Fixpoint roomy (evs : list ix_event) f : Prop :=
  match evs with
  | [] => True
  | ev :: evs' =>
      match ev with IxUpdate _ => (length (backlog f) < indexQueueDepth)%nat | IxWork => True end /\
      roomy evs' (ix_step f ev)
  end.

Lemma calls_on_app u g l1 l2 : calls_on u g (l1 ++ l2) = calls_on u g l1 ++ calls_on u g l2.
Proof. apply List.filter_app. Qed.
Lemma calls_on_blobs u g m : calls_on u g (blob_refs m) = [].
Proof.
  unfold blob_refs. rewrite calls_on_app.
  assert (forall l : list string, calls_on u g (EnqueueBlob <$> l) = []) as -> by (by induction 0).
  by repeat case_match.
Qed.

(** A call on a message comes from a command on that message's own key. *)
Lemma calls_on_key u g bs cmd :
  calls_on u g (runDerivedIndexes bs cmd) <> [] -> cmd_Key cmd = mailMetaKey u g.
Proof.
  unfold runDerivedIndexes. rewrite calls_on_app.
  assert (calls_on u g (if bs && bool_decide (cmd_Op cmd = OP_PUT) then enqueueBlobRefs cmd else []) = []) as ->.
  { unfold enqueueBlobRefs. by repeat case_match; rewrite ?calls_on_blobs. }
  rewrite app_nil_r. destruct (HasPrefix _ "/user/") eqn:Hp; [|done].
  apply prefix_spec in Hp as [r ->]. change ("/user/" +:+ r) with ("" +:+ "/" +:+ ("user" +:+ "/" +:+ r)).
  rewrite !SplitN_cons by done. pose proof (Join_SplitN r "/" 2) as Hr.
  unfold indexProfile, indexStoreObject, removeProfile.
  destruct (SplitN r "/" 3) as [|a [|b [|c [|]]]]; [by repeat case_match..| |by repeat case_match].
  destruct (String.eqb_spec b "mail") as [->|]; [|by repeat case_match].
  repeat case_match; cbn; rewrite ?andb_true_iff; try done;
    destruct (String.eqb_spec u a), (String.eqb_spec g c); try done; intros _; subst; reflexivity.
Qed.

#[local] Arguments calls_on : simpl never.
#[local] Arguments derived : simpl never.
#[local] Arguments runDerivedIndexes : simpl never.

Lemma derived_app bs l1 l2 : derived bs (l1 ++ l2) = derived bs l1 ++ derived bs l2.
Proof. apply bind_app. Qed.
Lemma derived_cons bs c l : derived bs (c :: l) = runDerivedIndexes bs c ++ derived bs l.
Proof. done. Qed.
Lemma derived_one bs c : derived bs [c] = runDerivedIndexes bs c.
Proof. apply app_nil_r. Qed.

Definition is_deferrable (cmd : RaftCommand) : Prop := isDeferrableIndexKey (cmd_Key cmd) = true.

(** Deferred and inline work never touch the same message. *)
Lemma deferred_disjoint u g bs q cmd :
  Forall is_deferrable q -> isDeferrableIndexKey (cmd_Key cmd) = false ->
  calls_on u g (runDerivedIndexes bs cmd) = [] \/ calls_on u g (derived bs q) = [].
Proof.
  intros Hq Hc. destruct (calls_on u g (runDerivedIndexes bs cmd)) eqn:E; [by left|right].
  assert (cmd_Key cmd = mailMetaKey u g) as Hk by (apply (calls_on_key u g bs); by rewrite E).
  induction Hq as [|c q Hd _ IH]; [done|].
  rewrite derived_cons, calls_on_app, IH, app_nil_r.
  destruct (calls_on u g (runDerivedIndexes bs c)) eqn:E'; [done|].
  assert (cmd_Key c = mailMetaKey u g) by (apply (calls_on_key u g bs); by rewrite E').
  unfold is_deferrable in Hd. congruence.
Qed.

(** Index calls made, then those in the backlog. *)
Definition made_or_due u g f : list IndexOp := calls_on u g (f_index f ++ derived (f_blobSync f) (backlog f)).

Lemma ix_step_spec u g ev f q :
  f_queue f = Some q -> Forall is_deferrable q ->
  match ev with IxUpdate _ => (length q < indexQueueDepth)%nat | IxWork => True end ->
  exists q', f_queue (ix_step f ev) = Some q' /\ Forall is_deferrable q' /\ f_blobSync (ix_step f ev) = f_blobSync f /\
    made_or_due u g (ix_step f ev) = made_or_due u g f ++ calls_on u g (derived (f_blobSync f) (updates [ev])).
Proof.
  intros Hq Hd Hroom. unfold made_or_due, backlog. rewrite Hq. cbn [default]. destruct ev as [cmd|].
  - cbn [ix_step updates omap list_omap]. unfold updateDerivedIndexes. rewrite Hq.
    destruct (isDeferrableIndexKey (cmd_Key cmd)) eqn:Hk; cbn [negb].
    + replace (length q <? indexQueueDepth)%nat with true by (symmetry; by apply Nat.ltb_lt).
      exists (q ++ [cmd]). split; [done|]. split; [by apply Forall_app_2; [|constructor]|]. split; [done|].
      cbn. by rewrite derived_app, !calls_on_app, app_assoc.
    + exists q. split; [done|]. split; [done|]. split; [done|].
      cbn. rewrite Hq, derived_one. cbn. rewrite !calls_on_app, <- !app_assoc. f_equal.
      destruct (deferred_disjoint u g (f_blobSync f) q cmd) as [E|E]; [done..| |];
        rewrite E; by rewrite ?app_nil_r, ?app_nil_l.
  - cbn [ix_step]. unfold worker_step. rewrite Hq. destruct q as [|cmd q].
    + exists []. rewrite Hq. cbn. by rewrite !app_nil_r.
    + apply Forall_cons in Hd as [_ Hd]. exists q. split; [done|]. split; [done|]. split; [done|].
      cbn. change (derived (f_blobSync f) []) with (@nil IndexOp).
      by rewrite derived_cons, app_nil_r, app_assoc.
Qed.

Lemma ix_run_spec u g evs f q :
  f_queue f = Some q -> Forall is_deferrable q -> roomy evs f ->
  exists q', f_queue (ix_run evs f) = Some q' /\ f_blobSync (ix_run evs f) = f_blobSync f /\
    made_or_due u g (ix_run evs f) = made_or_due u g f ++ calls_on u g (derived (f_blobSync f) (updates evs)).
Proof.
  revert f q. induction evs as [|ev evs IH]; intros f q Hq Hd Hroom.
  { exists q. split; [done|]. split; [done|]. symmetry. apply app_nil_r. }
  destruct Hroom as [Hr Hroom]. unfold backlog in Hr. rewrite Hq in Hr.
  destruct (ix_step_spec u g ev f q Hq Hd) as (q1&Hq1&Hd1&Hb1&Hm1); [by destruct ev|].
  destruct (IH _ _ Hq1 Hd1 Hroom) as (q2&Hq2&Hb2&Hm2).
  exists q2. split; [done|]. split; [exact (eq_trans Hb2 Hb1)|]. cbn [ix_run foldl]. unfold ix_run in Hm2.
  rewrite Hm2, Hm1, Hb1, <- app_assoc, <- calls_on_app, <- derived_app. f_equal. f_equal.
  destruct ev; done.
Qed.

Lemma drain_spec f q :
  f_queue f = Some q ->
  f_queue (drain f) = Some [] /\ f_index (drain f) = f_index f ++ derived (f_blobSync f) q.
Proof.
  unfold drain. intros Hq. rewrite Hq. change (default [] (Some q)) with q. revert f Hq.
  induction q as [|c q IH]; intros f Hq; [split; [done|]; symmetry; apply app_nil_r|].
  change (length (c :: q)) with (S (length q)). rewrite Nat.iter_succ_r. unfold worker_step at 2 4. rewrite Hq.
  destruct (IH (with_index (with_queue f (Some q)) (runDerivedIndexes (f_blobSync f) c))) as [-> ->]; [done|].
  cbn. by rewrite <- app_assoc.
Qed.

(** The index of a message follows the log.  However the apply goroutine
    and the worker interleave, as long as the queue had room at each update,
    once the worker has drained the queue the index calls made on a message
    are those of the committed commands on it, in commit order: none dropped,
    repeated or overtaken. *)
Theorem index_updates_in_commit_order u g evs f :
  f_queue f = Some [] -> roomy evs f ->
  calls_on u g (f_index (drain (ix_run evs f))) =
  calls_on u g (f_index f) ++ calls_on u g (derived (f_blobSync f) (updates evs)).
Proof.
  intros Hq Hroom. destruct (ix_run_spec u g evs f [] Hq (Forall_nil_2 _) Hroom) as (q'&Hq'&Hb&Hm).
  destruct (drain_spec _ _ Hq') as [_ ->]. unfold made_or_due, backlog in Hm. rewrite Hq, Hq' in Hm.
  change (default [] (Some q')) with q' in Hm. by rewrite Hm, app_nil_r.
Qed.

(** With a full queue the update runs inline, ahead of the [indexQueueDepth]
    commands queued before it: a deletion still waiting there is carried out
    after the insertion that followed it in the log. *)
Theorem full_queue_reorders u g m v f :
  isDeferrableIndexKey (mailMetaKey u g) = true -> has_char "/" u = false -> unmarshal v = Ok m ->
  f_blobSync f = false ->
  f_queue f = Some (replicate indexQueueDepth (mkCmd OP_DELETE (mailMetaKey u g) "")) ->
  f_index (drain (updateDerivedIndexes (mkCmd OP_PUT (mailMetaKey u g) v) f)) =
  f_index f ++ [IndexMail u g m] ++ replicate indexQueueDepth (DeleteMail u g).
Proof.
  intros Hd Hu Hv Hb Hq.
  assert (SplitN (mailMetaKey u g) "/" 5 = [""; "user"; u; "mail"; g]) as Hsp.
  { change (mailMetaKey u g) with ("" +:+ "/" +:+ ("user" +:+ "/" +:+ (u +:+ "/" +:+ ("mail" +:+ "/" +:+ g)))).
    by rewrite !SplitN_cons by done. }
  assert (HasPrefix (mailMetaKey u g) "/user/" = true) as Hp by apply prefix_app.
  assert (forall op w, runDerivedIndexes false (mkCmd op (mailMetaKey u g) w) =
            indexStoreObject u g true (mkCmd op (mailMetaKey u g) w)) as Hrun.
  { intros op w. unfold runDerivedIndexes. cbn [cmd_Key]. rewrite Hp, Hsp. apply app_nil_r. }
  assert (updateDerivedIndexes (mkCmd OP_PUT (mailMetaKey u g) v) f = with_index f [IndexMail u g m]) as ->.
  { unfold updateDerivedIndexes. rewrite Hq. cbn [cmd_Key]. rewrite Hd, length_replicate, Nat.ltb_irrefl. cbn [negb].
    rewrite Hb, Hrun. unfold indexStoreObject. cbn [cmd_Op cmd_Value]. by rewrite Hv. }
  destruct (drain_spec (with_index f [IndexMail u g m]) _ Hq) as [_ ->]. cbn [with_index f_index f_blobSync].
  rewrite <- app_assoc. do 2 f_equal. rewrite Hb. clear -Hrun. generalize indexQueueDepth as n.
  induction n as [|n IH]; [done|]. cbn [replicate]. by rewrite derived_cons, IH, Hrun.
Qed.
End IndexOrder.
