(* ===== verification/Accounts.v ===== *)
(** Credentials of the mail protocols: [internal/auth/local.go],
    [internal/auth/apppassword.go], [internal/auth/totp.go] and
    [internal/security/session_epoch.go].

    bcrypt, SHA-256, the one-time-password library and the SQLite index of
    user names are parameters.  Every bcrypt comparison is counted, because the
    code promises that an attempt costs exactly one.  The last-used writes run
    in detached goroutines: [au_inflight] holds those that were started and not
    finished, [touch_done] is the end of one. *)

From S2P Require Import Prelude GoStrings Utf8 Pebble Proto UserData Acl Directory Credentials.
From Stdlib Require Import Ascii.

(** [golang.org/x/crypto/bcrypt]; the first argument of [GenerateFromPassword]
    is the salt it draws. *)
Class Bcrypt := {
  CompareHashAndPassword : string -> string -> bool;
  GenerateFromPassword : string -> string -> result string;
  dummyBcryptHash : string;
}.
(** A password of at most 72 bytes is hashed, and the hash accepts it. *)
Class BcryptLaws `{Bcrypt} := {
  bcrypt_accepts salt pw : (String.length pw <= 72)%nat ->
    exists h, GenerateFromPassword salt pw = Ok h /\ h <> "" /\ CompareHashAndPassword h pw = true;
}.
Class Sha256 := { sha256_sum : string -> string; sha256_length s : String.length (sha256_sum s) = 32%nat }.

(** * App passwords, [apppassword.go] *)

Definition MaxAppPasswordLabelLen : nat := 64.
Definition MaxAppPasswordsPerUser : nat := 10.
Definition ErrAppPasswordLimit : err := Sentinel "app password limit reached".
Definition ErrInvalidAppPasswordLabel : err := Sentinel "invalid app password label".
Definition appPasswordGroups : nat := 4.
Definition appPasswordGroupLen : nat := 6.
Definition appPasswordLen : nat := appPasswordGroups * appPasswordGroupLen.
Definition maxLookupRetries : nat := 10.

(** [LastUsedAt] is [None] for the zero time. *)
Record AppPasswordInfo := mkInfo { in_ID : string; in_Label : string; in_CreatedAt : Z; in_LastUsedAt : option Z }.
Definition infoOf (rec : AppPassword) : AppPasswordInfo :=
  mkInfo (ap_Id rec) (ap_Label rec) (ap_CreatedAt rec) (if 0 <? ap_LastUsedAt rec then Some (ap_LastUsedAt rec) else None).

Fixpoint format_groups (fuel : nat) (first : bool) (s : string) : string :=
  match fuel with
  | O => ""
  | S fuel' => if String.eqb s "" then "" else
      (if first then "" else "-") +:+ str_take appPasswordGroupLen s +:+ format_groups fuel' false (str_drop appPasswordGroupLen s)
  end.
Definition FormatAppPassword (canonical : string) : string := format_groups (String.length canonical) true canonical.
Definition MaskAppPassword (id : string) : string :=
  Join (id :: repeat (Join (repeat "*" appPasswordGroupLen) "") (appPasswordGroups - 1)) "-".

(** The loop of [ParseAppPassword]; [b] holds the letters read so far. *)
Fixpoint parse_letters (s b : string) : option string :=
  match s with
  | "" => if Nat.eqb (String.length b) appPasswordLen then Some b else None
  | String c s' =>
      if Ascii.eqb c "-" || Ascii.eqb c " " then parse_letters s' b else
      let c := lower_char c in
      if Nat.eqb (String.length b) appPasswordLen || negb (has_char c AppPasswordAlphabet) then None
      else parse_letters s' (b +:+ String c "")
  end.
Definition ParseAppPassword (s : string) : option (string * string) :=
  match parse_letters s "" with
  | Some b => Some (str_take appPasswordGroupLen b, str_drop appPasswordGroupLen b)
  | None => None
  end.

Definition redactedUsername : string := "[app password]".

(** The runes of a valid UTF-8 string. *)
Definition tail_bits (c : ascii) : Z := Z.land (byte_of c) 63.
Fixpoint runes (s : string) : list Z :=
  match s with
  | "" => []
  | String a s1 =>
      match rune_width s, s1 with
      | 2%nat, String b s2 => Z.lor (Z.shiftl (Z.land (byte_of a) 31) 6) (tail_bits b) :: runes s2
      | 3%nat, String b (String c s3) =>
          Z.lor (Z.lor (Z.shiftl (Z.land (byte_of a) 15) 12) (Z.shiftl (tail_bits b) 6)) (tail_bits c) :: runes s3
      | 4%nat, String b (String c (String d s4)) =>
          Z.lor (Z.lor (Z.lor (Z.shiftl (Z.land (byte_of a) 7) 18) (Z.shiftl (tail_bits b) 12)) (Z.shiftl (tail_bits c) 6)) (tail_bits d) :: runes s4
      | 1%nat, _ => byte_of a :: runes s1
      | _, _ => 65533 :: runes s1
      end
  end.
(** [unicode.IsControl]: the C0 and C1 controls and DEL. *)
Definition IsControl (r : Z) : bool := (r <? 32) || ((127 <=? r) && (r <? 160)).

(** The process-local state: comparisons made, random draws, touches. *)
Record AuthState := mkAuthState {
  au_compares : Z; au_rand : nat -> result Z; au_drawn : nat;
  au_touching : gset string; au_inflight : list (string * string * Z) }.
Definition count_compare (st : AuthState) : AuthState :=
  mkAuthState (au_compares st + 1) (au_rand st) (au_drawn st) (au_touching st) (au_inflight st).

(** [rand.Int(rand.Reader, max)]: the next draw. *)
Definition rand_Int : GoM AuthState Z := fun st =>
  (mkAuthState (au_compares st) (au_rand st) (S (au_drawn st)) (au_touching st) (au_inflight st), au_rand st (au_drawn st)).
Fixpoint randomLetters (n : nat) : GoM AuthState string :=
  match n with
  | O => gret ""
  | S n' => let! v := gwrap "reading random" rand_Int in
            let! rest := randomLetters n' in
            gret (String (default zero (String.get (Z.to_nat v) AppPasswordAlphabet)) rest)
  end.

Section Unicode.
Context `{GoUnicode}.
Definition LogUsername (username : string) : string :=
  match ParseAppPassword (TrimSpace username) with Some _ => redactedUsername | None => username end.
Definition validateAppPasswordLabel (label : string) : result string :=
  let label := TrimSpace label in
  if String.eqb label "" || negb (ValidString label) || Nat.ltb MaxAppPasswordLabelLen (length (runes label))
  then Err ErrInvalidAppPasswordLabel
  else if existsb IsControl (runes label) then Err ErrInvalidAppPasswordLabel
  else Ok label.
End Unicode.

(** ** The service, over the record store of [internal/store/apppassword.go] *)

Record AuthNode (DB : Type) := mkAuthNode { an_db : DB; an_st : AuthState }.
Arguments mkAuthNode {DB} _ _.
Arguments an_db {DB} _.
Arguments an_st {DB} _.
Definition on_db {DB A : Type} (m : GoM DB A) : GoM (AuthNode DB) A :=
  fun s => let (db, r) := m (an_db s) in (mkAuthNode db (an_st s), r).
Definition on_auth {DB A : Type} (m : GoM AuthState A) : GoM (AuthNode DB) A :=
  fun s => let (st, r) := m (an_st s) in (mkAuthNode (an_db s) st, r).

Section Service.
Context {DB : Type} `{PebbleDB DB} `{CredCodecs} `{RaftApplier DB} `{Bcrypt} `{GoUnicode}.

Fixpoint pick_lookup (tries : nat) (userID : string) : GoM (AuthNode DB) string :=
  match tries with
  | O => gfail (Errorf "no free app password lookup id")
  | S n =>
      let! cand := on_auth (randomLetters appPasswordGroupLen) in
      let! found := gread (fun s => wrapf "checking lookup id" (aps_Get (an_db s) userID cand)) in
      match found with
      | None => gret cand
      | Some _ => pick_lookup n userID
      end
  end.

Definition Create (now : Z) (salt userID label : string) : GoM (AuthNode DB) (string * AppPasswordInfo) :=
  let! label := glift (validateAppPasswordLabel label) in
  let! existing := gread (fun s => wrapf "counting app passwords" (aps_List (an_db s) userID)) in
  if Nat.leb MaxAppPasswordsPerUser (length existing) then gfail ErrAppPasswordLimit else
  let! id := pick_lookup maxLookupRetries userID in
  let! secret := on_auth (randomLetters (appPasswordLen - appPasswordGroupLen)) in
  let! hash := glift (wrapf "hashing app password" (GenerateFromPassword salt secret)) in
  let rec := mkAppPassword id label now 0 hash in
  let! _ := gwrap "storing app password" (on_db (aps_Put userID rec)) in
  gret (FormatAppPassword (id +:+ secret), infoOf rec).

Definition AtLimit (db : DB) (userID : string) : result bool :=
  let? existing := wrapf "counting app passwords" (aps_List db userID) in
  Ok (Nat.leb MaxAppPasswordsPerUser (length existing)).

Definition ListInfos (db : DB) (userID : string) : result (list AppPasswordInfo) :=
  let? recs := wrapf "listing app passwords" (aps_List db userID) in
  Ok (infoOf <$> recs).

(** The record is read for the log line only. *)
Definition Revoke (userID id : string) : GoM DB unit :=
  if negb (ValidAppPasswordID id) then gfail ErrInvalidAppPasswordID else
  gwrap "revoking app password" (aps_Delete userID id).

(** The count so far is returned with the error. *)
Fixpoint revoke_each (n : Z) (userID : string) (infos : list AppPasswordInfo) (db : DB) : DB * (Z * option err) :=
  match infos with
  | [] => (db, (n, None))
  | info :: rest =>
      match Revoke userID (in_ID info) db with
      | (db', Err e) => (db', (n, Some (Wrap ("revoking app password " +:+ in_ID info) e)))
      | (db', Ok _) => revoke_each (n + 1) userID rest db'
      end
  end.
Definition RevokeAll (links : bool) (userID : string) (db : DB) : DB * (Z * option err) :=
  match (if links then dls_DeleteAll userID else gret tt) db with
  | (db1, Err e) => (db1, (0, Some (Wrap "revoking device links" e)))
  | (db1, Ok _) =>
      match ListInfos db1 userID with
      | Err e => (db1, (0, Some e))
      | Ok infos => revoke_each 0 userID infos db1
      end
  end.

Definition touch_key (userID id : string) : string := userID +:+ "/" +:+ id.
Definition recordUse (now : Z) (userID : string) (rec : AppPassword) (st : AuthState) : AuthState :=
  if DayStart now <=? ap_LastUsedAt rec then st else
  if decide (touch_key userID (ap_Id rec) ∈ au_touching st) then st else
  mkAuthState (au_compares st) (au_rand st) (au_drawn st) ({[touch_key userID (ap_Id rec)]} ∪ au_touching st)
    ((userID, ap_Id rec, now) :: au_inflight st).
(** The goroutine: one [Touch], its error logged only, then the pair is free. *)
Definition touch_done (i : nat) (s : AuthNode DB) : AuthNode DB :=
  match au_inflight (an_st s) !! i with
  | None => s
  | Some (userID, id, now) =>
      let st := an_st s in
      mkAuthNode (aps_Touch userID id now (an_db s)).1
        (mkAuthState (au_compares st) (au_rand st) (au_drawn st) (au_touching st ∖ {[touch_key userID id]}) (delete i (au_inflight st)))
  end.
End Service.

(** * Sessions, [session_epoch.go] *)

Definition hex_digit (n : Z) : ascii := if n <? 10 then char_of (48 + n) else char_of (87 + n).
Fixpoint hex_of (s : string) : string :=
  match s with
  | "" => ""
  | String c s' => String (hex_digit (byte_of c / 16)) (String (hex_digit (byte_of c mod 16)) (hex_of s'))
  end.
Definition SessionEpoch `{Sha256} (passwordHash totpSecret : string) (totpEnabled : bool) (generation : Z) : string :=
  hex_of (str_take 8 (sha256_sum (passwordHash +:+ totpSecret +:+ String (char_of (if totpEnabled then 1 else 0)) ""
    +:+ (if generation =? 0 then "" else "gen" +:+ be_put 8 generation)))).

(** * Accounts, [local.go] *)

Definition ErrBadCredentials : err := Sentinel "invalid credentials".
Definition ErrNoRows : err := Sentinel "sql: no rows in result set".
Definition ResourceKind : string := "resource".

(** [la_users] runs the query [SELECT id FROM users WHERE username = ? AND
    enabled = 1]; [None] while there is no index.  [la_apps] says whether app
    passwords are enabled. *)
Record LocalAuth := mkLocalAuth { la_users : option (string -> result string); la_apps : bool }.

Definition CheckStanding (profile : UserProfile) : result unit :=
  if up_Disabled profile || String.eqb (up_Kind profile) ResourceKind then Err ErrBadCredentials else Ok tt.
Definition profileEnforcesAppPasswords (p : UserProfile) : bool := up_RequireAppPasswords p && up_TotpEnabled p.

Record AccountState := mkAccountState { as_Missing : bool; as_Disabled : bool; as_Epoch : string; as_AppPasswordRevoked : bool }.
Definition Live (st : AccountState) (epoch : string) : bool :=
  negb (as_Missing st) && negb (as_Disabled st) && negb (as_AppPasswordRevoked st) && String.eqb (as_Epoch st) epoch.

Definition ProtocolEpoch `{Sha256} (p : UserProfile) : string :=
  SessionEpoch (up_PasswordHash p +:+ (if profileEnforcesAppPasswords p then "require-app-passwords" else "")) "" false 0.

Section Local.
Context {DB : Type} `{PebbleDB DB} `{CredCodecs} `{Codec UserProfile} `{Bcrypt} `{Sha256} `{GoUnicode}.

Definition compareHash (hash password : string) : GoM AuthState bool :=
  fun st => (count_compare st, Ok (CompareHashAndPassword hash password)).

Definition lookupUserID (a : LocalAuth) (username : string) : result string :=
  match la_users a with
  | None => Err (Errorf "metadata not available")
  | Some query =>
      wrapf "looking up user"
        match query username with
        | Ok id => Ok id
        | Err e => if errors_is e ErrNoRows
                   then let norm := NormaliseAddress username in if String.eqb norm username then Err e else query norm
                   else Err e
        end
  end.

Definition AuthenticateProfile (a : LocalAuth) (db : DB) (username password : string) : GoM AuthState (string * UserProfile) :=
  match lookupUserID a username with
  | Err _ => let! _ := compareHash dummyBcryptHash password in gfail ErrBadCredentials
  | Ok userID =>
      match Get db (profileKey userID) with
      | Err _ => let! _ := compareHash dummyBcryptHash password in gfail ErrBadCredentials
      | Ok data =>
          let! profile := glift (wrapf "parsing profile" (unmarshal data)) in
          let! same := compareHash (up_PasswordHash profile) password in
          if negb same then gfail ErrBadCredentials else
          let! _ := glift (CheckStanding profile) in
          gret (userID, profile)
      end
  end.
Definition Authenticate (a : LocalAuth) (db : DB) (username password : string) : GoM AuthState string :=
  let! (userID, _) := AuthenticateProfile a db username password in gret userID.

(** The account's password: [None], no app password was used. *)
Definition account_password (profile : UserProfile) (password : string) : GoM AuthState (option (string * AppPassword)) :=
  let! same := compareHash (up_PasswordHash profile) password in
  if negb same then gfail ErrBadCredentials else gret None.

(** The one place the credential kind is known. *)
Definition credential_used (a : LocalAuth) (db : DB) (userID : string) (profile : UserProfile) (password : string)
  : GoM AuthState (option (string * AppPassword)) :=
  match ParseAppPassword password with
  | Some (id, secret) =>
      if la_apps a then
        match aps_Get db userID id with
        | Err _ => let! _ := compareHash dummyBcryptHash password in gfail ErrBadCredentials
        | Ok (Some rec) =>
            if String.eqb (ap_PasswordHash rec) "" then
              let! _ := compareHash dummyBcryptHash password in gfail ErrBadCredentials
            else
              let! same := compareHash (ap_PasswordHash rec) secret in
              if negb same then gfail ErrBadCredentials else gret (Some (id, rec))
        | Ok None => account_password profile password
        end
      else account_password profile password
  | None => account_password profile password
  end.

Definition AuthenticateProtocol (a : LocalAuth) (db : DB) (now : Z) (username password : string)
  : GoM AuthState (string * UserProfile * string) :=
  match lookupUserID a username with
  | Err _ => let! _ := compareHash dummyBcryptHash password in gfail ErrBadCredentials
  | Ok userID =>
      match result_bind (Get db (profileKey userID)) unmarshal with
      | Err _ => let! _ := compareHash dummyBcryptHash password in gfail ErrBadCredentials
      | Ok profile =>
          let! used := credential_used a db userID profile password in
          if bool_decide (used = None) && profileEnforcesAppPasswords profile then gfail ErrBadCredentials else
          let! _ := glift (CheckStanding profile) in
          match used with
          | Some (id, rec) => fun st => (recordUse now userID rec st, Ok (userID, profile, id))
          | None => gret (userID, profile, "")
          end
      end
  end.

(** [LocalAuth.AccountState]. *)
Definition ReadAccountState (a : LocalAuth) (db : DB) (userID appPasswordID : string) : result AccountState :=
  match Get db (profileKey userID) with
  | Err e => if errors_is e ErrNotFound then Ok (mkAccountState true false "" false) else Err (Wrap "reading profile" e)
  | Ok data =>
      let? profile := wrapf "parsing profile" (unmarshal data) in
      let st revoked := mkAccountState false (up_Disabled profile) (ProtocolEpoch profile) revoked in
      if String.eqb appPasswordID "" then Ok (st false) else
      if negb (la_apps a) then Ok (st true) else
      let? found := wrapf "reading app password" (aps_Get db userID appPasswordID) in
      Ok (st (bool_decide (found = None)))
  end.
End Local.

(** * Second factors, [totp.go] *)

(** [totp.ValidateCustom(code, secret, t, ...)] with a period of 30 seconds and
    no skew; [generateRecoveryCode]'s draws are below the 32 characters. *)
Class Totp := ValidateCustom : string -> string -> Z -> result bool.
Definition totpPeriod : Z := 30.
Definition recoveryCodeChars : string := "ABCDEFGHJKLMNPQRSTUVWXYZ23456789".
Definition recoveryCodeLen : nat := 8.

Section SecondFactor.
Context `{Totp} `{Bcrypt}.

Fixpoint try_steps (secret code : string) (lastStep step : Z) (n : nat) : option Z :=
  match n with
  | O => None
  | S n' =>
      if step <=? lastStep then try_steps secret code lastStep (step + 1) n' else
      match ValidateCustom code secret (step * totpPeriod) with
      | Ok true => Some step
      | _ => try_steps secret code lastStep (step + 1) n'
      end
  end.
Definition ValidateTOTPStep (secret code : string) (now lastStep : Z) : option Z :=
  let cur := Z.quot now totpPeriod in try_steps secret code lastStep (cur - 1) 3.

Fixpoint random_code (n : nat) : GoM AuthState string :=
  match n with
  | O => gret ""
  | S n' => let! v := gwrap "rand int" rand_Int in
            let! rest := random_code n' in
            gret (String (default zero (String.get (Z.to_nat v) recoveryCodeChars)) rest)
  end.
Definition generateRecoveryCode : GoM AuthState string :=
  let! buf := random_code (recoveryCodeLen * 2) in
  gret (str_take recoveryCodeLen buf +:+ "-" +:+ str_drop recoveryCodeLen buf).
(** [salt i] is the salt of the [i]-th hash. *)
Fixpoint recovery_from (salt : nat -> string) (i count : nat) : GoM AuthState (list string * list string) :=
  match count with
  | O => gret ([], [])
  | S n => let! code := gwrap ("generate recovery code " +:+ FormatInt (Z.of_nat i)) generateRecoveryCode in
           let! hash := glift (wrapf ("hash recovery code " +:+ FormatInt (Z.of_nat i)) (GenerateFromPassword (salt i) code)) in
           let! (plain, hashed) := recovery_from salt (S i) n in
           gret (code :: plain, hash :: hashed)
  end.
Definition GenerateRecoveryCodes (salt : nat -> string) (count : nat) : GoM AuthState (list string * list string) :=
  recovery_from salt 0 count.

(** [None] is [(false, -1)]. *)
Fixpoint ValidateRecoveryCode (hashedCodes : list string) (code : string) : option nat :=
  match hashedCodes with
  | [] => None
  | h :: rest => if CompareHashAndPassword h code then Some O else S <$> ValidateRecoveryCode rest code
  end.
End SecondFactor.
