(* ===== verification/AccountsThm.v ===== *)
(** Theorems on the credentials of the mail protocols. *)

From S2P Require Import Prelude GoStrings Utf8 Pebble Proto UserData Credentials Accounts.
From Stdlib Require Import Ascii.

(** * The shape of an app password *)

(** The letters of a typed app password: separators dropped, case folded. *)
Definition is_sep (c : ascii) : bool := Ascii.eqb c "-" || Ascii.eqb c " ".
Fixpoint canon (s : string) : string :=
  match s with
  | "" => ""
  | String c s' => if is_sep c then canon s' else String (lower_char c) (canon s')
  end.
Definition letters (s : string) : bool := str_all (fun c => has_char c AppPasswordAlphabet) s.

Lemma canon_app s t : canon (s +:+ t) = canon s +:+ canon t.
Proof. induction s as [|c s IH]; [done|]. rewrite app_cons'. cbn [canon]. case_match; [done|]. by rewrite IH. Qed.

Lemma parse_letters_canon s b :
  (String.length b <= appPasswordLen)%nat ->
  parse_letters s b =
    (if Nat.eqb (String.length (b +:+ canon s)) appPasswordLen && letters (canon s) then Some (b +:+ canon s) else None).
Proof.
  revert b. induction s as [|c s IH]; intros b Hb; cbn [parse_letters canon].
  { rewrite str_app_nil_r, andb_true_r. done. }
  fold (is_sep c). destruct (is_sep c); [by apply IH|]. unfold letters. cbn [str_all].
  destruct (Nat.eqb_spec (String.length b) appPasswordLen) as [Hl|Hl]; cbn [orb].
  { destruct (Nat.eqb_spec (String.length (b +:+ String (lower_char c) (canon s))) appPasswordLen) as [E|]; [|done].
    rewrite str_length_app in E. cbn [String.length] in E. lia. }
  destruct (has_char (lower_char c) AppPasswordAlphabet); cbn [negb andb]; [|by rewrite andb_false_r].
  rewrite IH by (rewrite str_length_app; cbn [String.length]; lia). rewrite str_app_assoc. done.
Qed.

(** A typed text is an app password exactly when its letters are the id
    followed by the secret, all of the alphabet. *)
Lemma ParseAppPassword_spec s id secret :
  ParseAppPassword s = Some (id, secret) <->
  canon s = id +:+ secret /\ String.length id = appPasswordGroupLen /\
  String.length secret = (appPasswordLen - appPasswordGroupLen)%nat /\ letters (id +:+ secret) = true.
Proof.
  unfold ParseAppPassword. rewrite parse_letters_canon by (cbn; lia). rewrite app_nil_l'. split.
  - destruct (Nat.eqb_spec (String.length (canon s)) appPasswordLen) as [Hl|]; [|done].
    destruct (letters (canon s)) eqn:Ha; [|done]. cbn [andb]. intros E. apply (inj Some) in E.
    apply pair_equal_spec in E as [<- <-]. rewrite str_take_drop, str_take_length, str_drop_length, Hl. done.
  - intros (->&Hi&Hs&->). rewrite str_length_app, Hi, Hs.
    change (Nat.eqb _ _) with true. cbn [andb]. rewrite <- Hi. by rewrite str_take_app, str_drop_app.
Qed.

Lemma letter_plain c : has_char c AppPasswordAlphabet = true -> is_sep c = false /\ lower_char c = c.
Proof. destruct c as [[] [] [] [] [] [] [] []]; vm_compute; naive_solver. Qed.
Lemma canon_letters s : letters s = true -> canon s = s.
Proof.
  induction s as [|c s IH]; [done|]. unfold letters. cbn. intros [Hc Hs]%andb_true_iff.
  apply letter_plain in Hc as [-> ->]. f_equal. by apply IH.
Qed.
Lemma letters_drop n s : letters s = true -> letters (str_drop n s) = true.
Proof. unfold letters. intros Hs. rewrite <- (str_take_drop n s), str_all_app in Hs. by apply andb_true_iff in Hs as [_ ?]. Qed.
Lemma letters_take n s : letters s = true -> letters (str_take n s) = true.
Proof. unfold letters. intros Hs. rewrite <- (str_take_drop n s), str_all_app in Hs. by apply andb_true_iff in Hs as [? _]. Qed.

Lemma canon_format n b s : letters s = true -> (String.length s <= n)%nat -> canon (format_groups n b s) = s.
Proof.
  revert b s. induction n as [|n IH]; intros b s Hs Hn; cbn [format_groups]; [by destruct s; cbn in Hn; [|lia]|].
  destruct (String.eqb_spec s "") as [->|Hne]; [done|].
  rewrite canon_app, canon_app, (canon_letters (str_take _ _)) by (by apply letters_take).
  rewrite IH; [|by apply letters_drop|rewrite str_drop_length; destruct s; cbn in *; [done|lia]].
  rewrite str_take_drop. by destruct b.
Qed.
(** The plaintext as displayed is read back as it was made, and so is every
    text with the same letters. *)
Lemma canon_FormatAppPassword s : letters s = true -> canon (FormatAppPassword s) = s.
Proof. intros. by apply canon_format. Qed.

(** * Logging in *)

Section Login.
Context {DB : Type} `{PebbleDB DB} `{CredCodecs} `{Codec UserProfile} `{Bcrypt} `{Sha256} `{GoUnicode}.
Implicit Types (a : LocalAuth) (db : DB) (st : AuthState).

Definition profile_of db (u : string) : result UserProfile := result_bind (Get db (profileKey u)) unmarshal.

(** [pw] opens an account with the app password [id], or with the account's
    own password when [id] is empty. *)
Definition opens_as a db (u : string) (profile : UserProfile) (pw id : string) : Prop :=
  (exists secret rec, la_apps a = true /\ ParseAppPassword pw = Some (id, secret) /\ aps_Get db u id = Ok (Some rec) /\
     ap_PasswordHash rec <> "" /\ CompareHashAndPassword (ap_PasswordHash rec) secret = true) \/
  (id = "" /\ CompareHashAndPassword (up_PasswordHash profile) pw = true /\ profileEnforcesAppPasswords profile = false /\
   (la_apps a = true -> forall i secret, ParseAppPassword pw = Some (i, secret) -> aps_Get db u i = Ok None)).
Definition grants a db (username pw u : string) (profile : UserProfile) (id : string) : Prop :=
  lookupUserID a username = Ok u /\ profile_of db u = Ok profile /\
  up_Disabled profile = false /\ up_Kind profile <> ResourceKind /\ opens_as a db u profile pw id.

Lemma account_password_run profile pw st :
  account_password profile pw st =
    (count_compare st, if CompareHashAndPassword (up_PasswordHash profile) pw then Ok None else Err ErrBadCredentials).
Proof. unfold account_password, compareHash, gbind. by destruct (CompareHashAndPassword _ _). Qed.

(** Every branch makes one comparison and fails with [ErrBadCredentials]. *)
Lemma credential_used_run a db u profile pw st :
  exists r, credential_used a db u profile pw st = (count_compare st, r) /\
    (forall e, r = Err e -> e = ErrBadCredentials) /\
    (forall id rec, r = Ok (Some (id, rec)) <->
       exists secret, la_apps a = true /\ ParseAppPassword pw = Some (id, secret) /\ aps_Get db u id = Ok (Some rec) /\
         ap_PasswordHash rec <> "" /\ CompareHashAndPassword (ap_PasswordHash rec) secret = true) /\
    (r = Ok None <-> CompareHashAndPassword (up_PasswordHash profile) pw = true /\
       (la_apps a = true -> forall i secret, ParseAppPassword pw = Some (i, secret) -> aps_Get db u i = Ok None)).
Proof.
  assert (Hacc : exists r, account_password profile pw st = (count_compare st, r) /\ (forall e, r = Err e -> e = ErrBadCredentials) /\
    (forall x, r <> Ok (Some x)) /\ (r = Ok None <-> CompareHashAndPassword (up_PasswordHash profile) pw = true)).
  { rewrite account_password_run. eexists. split; [done|]. destruct (CompareHashAndPassword _ _); split_and!; naive_solver. }
  unfold credential_used. destruct (ParseAppPassword pw) as [[id secret]|] eqn:Hp.
  2:{ destruct Hacc as (r&->&He&Hs&Hn). exists r. split_and!; naive_solver. }
  destruct (la_apps a) eqn:Ha.
  2:{ destruct Hacc as (r&->&He&Hs&Hn). exists r. split_and!; naive_solver. }
  unfold compareHash, gbind, gret, gfail.
  destruct (aps_Get db u id) as [[rec|]|e] eqn:Hg.
  - assert (Hno : ~ (true = true -> forall i secret0, Some (id, secret) = Some (i, secret0) -> aps_Get db u i = Ok None)).
    { intros Hno. specialize (Hno eq_refl _ _ eq_refl). congruence. }
    destruct (String.eqb_spec (ap_PasswordHash rec) "") as [E|E].
    + eexists. split; [done|]. split; [by intros ? [= <-]|]. split; [|split; [done|by intros [_ ?]]].
      intros id' rec'. split; [done|]. intros (sec&_&[= <- <-]&Hg'&Hne&_). congruence.
    + destruct (CompareHashAndPassword (ap_PasswordHash rec) secret) eqn:Hc; cbn [negb];
        (eexists; split; [done|]; split; [by intros ? [= <-]|]; split; [|split; [done|by intros [_ ?]]]; intros id' rec'; split).
      * intros [= <- <-]. by exists secret.
      * intros (sec&_&[= <- <-]&Hg'&Hne&_). congruence.
      * done.
      * intros (sec&_&[= <- <-]&Hg'&Hne&?). congruence.
  - destruct Hacc as (r&->&He&Hs&Hn). exists r. split; [done|]. split; [done|]. split.
    + intros id' rec'. split; [by intros ?%Hs|]. intros (sec&_&[= <- <-]&Hg'&_). congruence.
    + rewrite Hn. split; [|by intros [? _]]. intros Hc. split; [done|]. by intros _ i sec [= <- <-].
  - eexists. split; [done|]. split; [by intros ? [= <-]|]. split.
    + intros id' rec'. split; [done|]. intros (sec&_&[= <- <-]&Hg'&_). congruence.
    + split; [done|]. intros [_ Hno]. specialize (Hno eq_refl _ _ eq_refl). congruence.
Qed.

Lemma recordUse_compares now u rec st : au_compares (recordUse now u rec st) = au_compares st.
Proof. unfold recordUse. by repeat case_match. Qed.
Lemma CheckStanding_Ok profile :
  CheckStanding profile = (if decide (up_Disabled profile = false /\ up_Kind profile <> ResourceKind) then Ok tt else Err ErrBadCredentials).
Proof.
  unfold CheckStanding. destruct (up_Disabled profile), (String.eqb_spec (up_Kind profile) ResourceKind); cbn; case_decide; naive_solver.
Qed.
Lemma ParseAppPassword_id s id secret : ParseAppPassword s = Some (id, secret) -> id <> "".
Proof. intros (_&Hl&_)%ParseAppPassword_spec ->. done. Qed.

(** Both directions of the outcome, with the cost. *)
Lemma login_spec a db now username pw st st' r :
  AuthenticateProtocol a db now username pw st = (st', r) ->
  au_compares st' = au_compares st + 1 /\
  (forall e, r = Err e -> e = ErrBadCredentials) /\
  forall u profile id, r = Ok (u, profile, id) <-> grants a db username pw u profile id.
Proof.
  unfold AuthenticateProtocol, grants. destruct (lookupUserID a username) as [u0|e0] eqn:Hu.
  2:{ intros [= <- <-]. split_and!; naive_solver. }
  fold (profile_of db u0). destruct (profile_of db u0) as [p0|e0] eqn:Hp.
  2:{ intros [= <- <-]. split_and!; [done|by intros ? [= <-]|]. intros u p id. split; [done|]. intros ([= <-]&Hp'&_). congruence. }
  destruct (credential_used_run a db u0 p0 pw st) as (r0&E&He&Hs&Hn).
  unfold gbind at 1. rewrite E. destruct r0 as [used|e1].
  2:{ intros [= <- <-]. split_and!; [done|intros e [= <-]; by apply He|]. intros u p id. split; [done|]. intros ([= <-]&Hp'&_&_&Hop).
      rewrite Hp in Hp'. injection Hp' as <-. exfalso. destruct Hop as [(sec&rec&Hrec)|(_&Hc&_&Ha)].
      - discriminate (proj2 (Hs id rec) (ex_intro _ sec Hrec)).
      - discriminate (proj2 Hn (conj Hc Ha)). }
  assert (Hused : forall id, opens_as a db u0 p0 pw id <->
    match used with Some (i, _) => id = i | None => id = "" /\ profileEnforcesAppPasswords p0 = false end).
  { intros id. destruct used as [[i rec]|].
    - destruct (proj1 (Hs i rec) eq_refl) as (sec&Ha&Hpw&Hg&?). split.
      + intros [(sec'&rec'&_&Hpw'&_)|(_&_&_&Hno)]; [congruence|]. specialize (Hno Ha _ _ Hpw). congruence.
      + intros ->. left. eauto 10.
    - destruct (proj1 Hn eq_refl) as (Hc&Hno). split.
      + intros [(sec&rec&Ha&Hpw&Hg&_)|(->&_&?&_)]; [|done]. specialize (Hno Ha _ _ Hpw). congruence.
      + intros [-> ?]. right. done. }
  unfold gbind, glift, gret, gfail. rewrite CheckStanding_Ok.
  destruct (bool_decide (used = None) && profileEnforcesAppPasswords p0) eqn:Hen.
  { intros [= <- <-]. split_and!; [done|by intros ? [= <-]|]. intros u p id. split; [done|]. intros ([= <-]&Hp'&_&_&Hop).
    rewrite Hp in Hp'. injection Hp' as <-. apply andb_true_iff in Hen as [->%bool_decide_eq_true Hen]. apply Hused in Hop as [_ Hop]. congruence. }
  case_decide as Hst.
  - destruct Hst as [Hdis Hkind]. destruct used as [[i rec]|]; intros [= <- <-]; (split; [by rewrite ?recordUse_compares|]);
      (split; [done|]); intros u p id; (split; [intros [= <- <- <-]|intros ([= <-]&Hp'&_&_&Hop)]).
    + split_and!; [done..|by apply Hused].
    + rewrite Hp in Hp'. injection Hp' as <-. apply Hused in Hop. congruence.
    + split_and!; [done..|]. apply Hused. split; [done|]. by destruct (profileEnforcesAppPasswords p0).
    + rewrite Hp in Hp'. injection Hp' as <-. apply Hused in Hop as [-> _]. done.
  - intros [= <- <-]. split_and!; [done|by intros ? [= <-]|]. intros u p id. split; [done|]. intros ([= <-]&Hp'&?&?&_). rewrite Hp in Hp'.
    injection Hp' as <-. by destruct Hst.
Qed.

(** C13: a login on the mail protocols costs exactly one bcrypt comparison on
    every branch and fails with the one error [ErrBadCredentials]; it succeeds
    exactly when the name resolves to an account in good standing and the
    password is that of an app password recorded under this very account, or
    else the account's own, when app passwords are not enforced. *)
Theorem protocol_login_exact a db now username pw st st' r :
  AuthenticateProtocol a db now username pw st = (st', r) ->
  au_compares st' = au_compares st + 1 /\
  (forall e, r = Err e -> e = ErrBadCredentials) /\
  forall u profile id, r = Ok (u, profile, id) <-> grants a db username pw u profile id.
Proof. apply login_spec. Qed.
End Login.

(** * The life of an app password *)

(** The random source yields numbers below the bound it is given. *)
Definition draws_ok (st : AuthState) : Prop := forall n v, au_rand st n = Ok v -> 0 <= v < 23.

Lemma alphabet_letter v : 0 <= v < 23 -> has_char (default zero (String.get (Z.to_nat v) AppPasswordAlphabet)) AppPasswordAlphabet = true.
Proof.
  intros Hv. assert (Hn : In (Z.to_nat v) (seq 0 23)) by (apply in_seq; lia).
  revert Hn. generalize (Z.to_nat v).
  apply (proj1 (List.forallb_forall (fun n => has_char (default zero (String.get n AppPasswordAlphabet)) AppPasswordAlphabet) _)).
  reflexivity.
Qed.
Lemma randomLetters_Ok n st st' s :
  draws_ok st -> randomLetters n st = (st', Ok s) -> String.length s = n /\ letters s = true /\ draws_ok st'.
Proof.
  revert st s. induction n as [|n IH]; intros st s Hd Hrun; cbn [randomLetters] in Hrun; ginv; [done|].
  unfold rand_Int in *. ginv. rename select (au_rand st _ = _) into Hv.
  rename select (randomLetters n _ = _) into Hr. apply IH in Hr as (Hl&Ha&Hd'); [|exact Hd]. split; [cbn; congruence|]. split; [|done].
  unfold letters. cbn [str_all]. apply andb_true_iff. split; [apply alphabet_letter; by eapply Hd|exact Ha].
Qed.

#[local] Arguments randomLetters : simpl never.
#[local] Arguments FormatAppPassword : simpl never.
#[local] Arguments ValidAppPasswordID : simpl never.

Section Lifecycle.
Context {DB : Type} `{UserApplier DB} `{CredCodecLaws} `{Codec UserProfile} `{BcryptLaws} `{Sha256} `{GoUnicode}.
Implicit Types (a : LocalAuth) (db : DB) (st : AuthState) (s : AuthNode DB).

Lemma ValidAppPasswordID_letters id : String.length id = appPasswordGroupLen -> letters id = true -> ValidAppPasswordID id = true.
Proof. intros Hl Ha. unfold ValidAppPasswordID. rewrite Hl. exact Ha. Qed.

Lemma apkey_user u id : HasPrefix (AppPasswordKey u id) "/user/" = true.
Proof. unfold AppPasswordKey, appPasswordPrefix. rewrite !str_app_assoc. apply prefix_app. Qed.
Lemma aps_Put_Ok n u rec db db' x :
  healthy db -> uready (S n) db -> aps_Put u rec db = (db', Ok x) ->
  exists v, unmarshal v = Ok rec /\ healthy db' /\ uready n db' /\
    forall k, uown k = false -> contents db' !! k = <[AppPasswordKey u (ap_Id rec) := v]> (contents db) !! k.
Proof.
  intros Hs Hr Hrun. unfold aps_Put in Hrun. case_match; [done|]. ginv.
  rename select (marshal _ = _) into Hm. rename select (ApplyCommand _ _ = _) into Ha. eexists. split; [by apply proto_roundtrip|].
  exact (uap_put n _ _ _ _ _ Hr Hs (apkey_user u _) Ha).
Qed.
Lemma aps_Delete_Ok n u id db db' x :
  healthy db -> uready (S n) db -> aps_Delete u id db = (db', Ok x) ->
  healthy db' /\ uready n db' /\ forall k, uown k = false -> contents db' !! k = delete (AppPasswordKey u id) (contents db) !! k.
Proof.
  intros Hs Hr Hrun. unfold aps_Delete in Hrun. case_match; [done|]. ginv. rename select (ApplyCommand _ _ = _) into Ha.
  exact (uap_delete n _ _ _ _ _ Hr Hs (apkey_user u id) Ha).
Qed.
Lemma aps_Get_at db u id :
  healthy db -> ValidAppPasswordID id = true ->
  aps_Get db u id = match contents db !! AppPasswordKey u id with
                    | None => Ok None
                    | Some v => let? rec := wrapf (aps_err "get" u +:+ ": unmarshal") (unmarshal v) in Ok (Some rec)
                    end.
Proof. intros Hs Hid. unfold aps_Get. rewrite Hid, Get_healthy by done. cbn [negb]. by destruct (contents db !! _). Qed.
Lemma profile_of_at db u : healthy db ->
  profile_of db u = result_bind (of_option ErrNotFound (contents db !! profileKey u)) unmarshal.
Proof. intros Hs. unfold profile_of. by rewrite Get_healthy. Qed.
Lemma profileKey_not_app u id : profileKey u <> AppPasswordKey u id.
Proof. unfold profileKey, AppPasswordKey, appPasswordPrefix. rewrite !str_app_assoc. by intros E%str_app_inv_head%str_app_inv_head. Qed.
Lemma profileKey_user u : HasPrefix (profileKey u) "/user/" = true.
Proof. apply prefix_app. Qed.

Lemma pick_lookup_Ok n u s s' id :
  draws_ok (an_st s) -> pick_lookup n u s = (s', Ok id) ->
  String.length id = appPasswordGroupLen /\ letters id = true /\ an_db s' = an_db s /\ draws_ok (an_st s').
Proof.
  revert s. induction n as [|n IH]; intros s Hd Hrun; cbn [pick_lookup] in Hrun; [done|]. ginv.
  rename select (on_auth _ _ = _) into Hr. unfold on_auth in Hr. destruct (randomLetters _ (an_st s)) as [st1 r1] eqn:E.
  injection Hr as <- ->. destruct (randomLetters_Ok _ _ _ _ Hd E) as (Hl&Ha&Hd'). cbn [an_db] in *.
  case_match; ginv; [|done].
  rename select (pick_lookup n u _ = _) into Hrun. by apply IH in Hrun.
Qed.

#[local] Arguments pick_lookup : simpl never.

(** What a successful [Create] leaves behind. *)
Lemma Create_Ok now salt u label s s1 plain info :
  healthy (an_db s) -> uready 2 (an_db s) -> draws_ok (an_st s) ->
  Create now salt u label s = (s1, Ok (plain, info)) ->
  exists secret rec, canon plain = in_ID info +:+ secret /\ String.length (in_ID info) = appPasswordGroupLen /\
    String.length secret = (appPasswordLen - appPasswordGroupLen)%nat /\ letters (in_ID info +:+ secret) = true /\
    ap_PasswordHash rec <> "" /\ CompareHashAndPassword (ap_PasswordHash rec) secret = true /\
    healthy (an_db s1) /\ uready 1 (an_db s1) /\
    (exists v, unmarshal v = Ok rec /\
       forall k, uown k = false -> contents (an_db s1) !! k = <[AppPasswordKey u (in_ID info) := v]> (contents (an_db s)) !! k).
Proof.
  intros Hs Hr Hd Hrun. unfold Create in Hrun. ginv. case_match; [done|]. ginv.
  rename select (pick_lookup _ _ _ = _) into Hpick. apply pick_lookup_Ok in Hpick as (Hl&Ha&Hdb&Hd'); [|done].
  rename select (on_auth _ _ = _) into Hsec. unfold on_auth in Hsec. destruct (randomLetters _ (an_st _)) as [st1 r1] eqn:E.
  injection Hsec as <- ->. destruct (randomLetters_Ok _ _ _ _ Hd' E) as (Hl2&Ha2&_).
  rename select (GenerateFromPassword _ _ = _) into Hgen.
  match type of Hgen with GenerateFromPassword _ ?sec = _ => destruct (bcrypt_accepts salt sec) as (h&Hh&Hne&Hc); [rewrite Hl2; cbn; lia|] end.
  rewrite Hgen in Hh. injection Hh as ->.
  rename select (on_db _ _ = _) into Hput. unfold on_db in Hput. cbn [an_db] in Hput.
  destruct (aps_Put u _ (an_db _)) as [db2 r2] eqn:Ep. injection Hput as <- ->. cbn [an_db in_ID infoOf ap_Id].
  rewrite Hdb in Ep. destruct (aps_Put_Ok 1 _ _ _ _ _ Hs Hr Ep) as (v&Hv&Hs2&Hr2&Hc2). eexists _, _.
  assert (Hall : letters (x3 +:+ x5) = true) by (unfold letters in *; rewrite str_all_app, Ha, Ha2; done).
  split; [by apply canon_FormatAppPassword|]. split_and!; [done|done|done| | |done|done|exists v; by split]; done.
Qed.

(** The life of an app password.  A password just created logs in under
    its account, typed in any letter case and with or without separators, and
    the session it opens is live; once it is revoked that session is not live
    any more and the text opens the account only if it is the account's own
    password. *)
Theorem app_password_lifecycle a now salt u label s s1 plain info username typed v profile :
  healthy (an_db s) -> uready 2 (an_db s) -> draws_ok (an_st s) -> la_apps a = true ->
  lookupUserID a username = Ok u -> contents (an_db s) !! profileKey u = Some v -> unmarshal v = Ok profile ->
  CheckStanding profile = Ok tt ->
  Create now salt u label s = (s1, Ok (plain, info)) -> canon typed = canon plain ->
  (forall t st, exists st', AuthenticateProtocol a (an_db s1) t username typed st = (st', Ok (u, profile, in_ID info))) /\
  (exists acc, ReadAccountState a (an_db s1) u (in_ID info) = Ok acc /\ Live acc (ProtocolEpoch profile) = true) /\
  forall db2, Revoke u (in_ID info) (an_db s1) = (db2, Ok tt) ->
    (exists acc, ReadAccountState a db2 u (in_ID info) = Ok acc /\ forall epoch, Live acc epoch = false) /\
    forall t st st' u' p id, AuthenticateProtocol a db2 t username typed st = (st', Ok (u', p, id)) ->
      id = "" /\ CompareHashAndPassword (up_PasswordHash profile) typed = true.
Proof.
  intros Hs Hr Hd Ha Hu Hv Hp Hst Hcr Htyped.
  apply Create_Ok in Hcr as (secret&rec&Hcan&Hl&Hl2&Hall&Hne&Hcmp&Hs1&Hr1&w&Hw&Hc1); [|done..].
  assert (Hparse : ParseAppPassword typed = Some (in_ID info, secret)) by (apply ParseAppPassword_spec; rewrite Htyped; done).
  assert (Hid : ValidAppPasswordID (in_ID info) = true).
  { apply ValidAppPasswordID_letters; [done|]. unfold letters in *. rewrite str_all_app in Hall. by apply andb_true_iff in Hall as [? _]. }
  assert (Hid0 : in_ID info <> "") by (by eapply ParseAppPassword_id).
  assert (Hget : aps_Get (an_db s1) u (in_ID info) = Ok (Some rec)).
  { rewrite aps_Get_at, Hc1, lookup_insert_eq by (done || apply user_not_uown, apkey_user). by rewrite Hw. }
  assert (Hprof : forall db, healthy db -> contents db !! profileKey u = Some v -> profile_of db u = Ok profile)
    by (intros db Hh Hk; rewrite profile_of_at, Hk by done; exact Hp).
  assert (Hp1 : contents (an_db s1) !! profileKey u = Some v).
  { rewrite Hc1, lookup_insert_ne by (apply user_not_uown, profileKey_user || apply not_eq_sym, profileKey_not_app). done. }
  rewrite CheckStanding_Ok in Hst. case_decide as Hg; [|done]. split_and!.
  - intros t st. destruct (AuthenticateProtocol a (an_db s1) t username typed st) as [st' r] eqn:E. exists st'. f_equal.
    apply login_spec in E as (_&_&E). apply E. destruct Hg. split_and!; [done|by apply Hprof|done..|]. left. by exists secret, rec.
  - eexists. unfold ReadAccountState. rewrite Get_healthy, Hp1 by done. cbn [of_option]. rewrite Hp. cbn [wrapf result_bind].
    destruct (String.eqb_spec (in_ID info) ""); [done|]. rewrite Ha, Hget. cbn. split; [reflexivity|].
    unfold Live. cbn. rewrite (proj1 Hg), String.eqb_refl. done.
  - intros db2 Hrev. unfold Revoke in Hrev. rewrite Hid in Hrev. cbn [negb] in Hrev. apply gwrap_Ok in Hrev.
    apply (aps_Delete_Ok 0) in Hrev as (Hs2&_&Hc2); [|done..].
    assert (Hnone : aps_Get db2 u (in_ID info) = Ok None).
    { rewrite aps_Get_at, Hc2, lookup_delete_eq by (done || apply user_not_uown, apkey_user). done. }
    assert (Hp2 : contents db2 !! profileKey u = Some v).
    { rewrite Hc2, lookup_delete_ne by (apply user_not_uown, profileKey_user || apply not_eq_sym, profileKey_not_app). done. }
    split.
    + eexists. unfold ReadAccountState. rewrite Get_healthy, Hp2 by done. cbn [of_option]. rewrite Hp. cbn [wrapf result_bind].
      destruct (String.eqb_spec (in_ID info) ""); [done|]. rewrite Ha, Hnone. cbn. split; [reflexivity|]. intros epoch. unfold Live.
      cbn. by rewrite andb_false_r.
    + intros t st st' u' p id E. apply login_spec in E as (_&_&E). destruct (proj1 (E _ _ _) eq_refl) as (Hu'&Hp'&_&_&Hop).
      rewrite Hu in Hu'. injection Hu' as <-. rewrite (Hprof _ Hs2 Hp2) in Hp'. injection Hp' as <-.
      destruct Hop as [(sec&rec'&_&Hpw&Hg'&_)|(?&?&_)]; [|done]. rewrite Hparse in Hpw. injection Hpw as <- <-. congruence.
Qed.
End Lifecycle.

(** * Second factors and last-used writes *)

Section SecondFactorThm.
Context `{Totp} `{BcryptLaws}.

Lemma try_steps_after secret code lastStep step n s :
  try_steps secret code lastStep step n = Some s ->
  lastStep < s /\ step <= s < step + Z.of_nat n /\ ValidateCustom code secret (s * totpPeriod) = Ok true.
Proof.
  revert step. induction n as [|n IH]; intros step; cbn [try_steps]; [done|].
  destruct (Z.leb_spec step lastStep); [intros (?&?&?)%IH; split_and!; [lia..|done]|].
  destruct (ValidateCustom code secret (step * totpPeriod)) as [[]|] eqn:E; intros Hs;
    [injection Hs as <-; split_and!; [lia..|done]|apply IH in Hs as (?&?&?); split_and!; [lia..|done]..].
Qed.
(** A one-time code accepted for a step is refused once the step is recorded:
    whatever is accepted later has a later step, within one of the clock's. *)
Theorem totp_steps_increase secret code now lastStep step code' now' step' :
  ValidateTOTPStep secret code now lastStep = Some step ->
  ValidateTOTPStep secret code' now' step = Some step' ->
  lastStep < step < step' /\ Z.abs (step' - Z.quot now' totpPeriod) <= 1.
Proof. unfold ValidateTOTPStep. intros ?%try_steps_after ?%try_steps_after. lia. Qed.

Lemma random_code_len n st st' s : random_code n st = (st', Ok s) -> String.length s = n.
Proof. revert st s. induction n as [|n IH]; intros st s Hr; cbn [random_code] in Hr; ginv; [done|]. cbn. f_equal. by eapply IH. Qed.
Lemma recovery_from_work salt i count st st' plain hashed :
  recovery_from salt i count st = (st', Ok (plain, hashed)) ->
  length plain = count /\ length hashed = count /\
  Forall (fun code => String.length code = 17%nat /\ is_Some (ValidateRecoveryCode hashed code)) plain.
Proof.
  revert i st plain hashed. induction count as [|n IH]; intros i st plain hashed Hrun; cbn [recovery_from] in Hrun; ginv; [done|].
  rename select (recovery_from _ _ _ _ = _) into Hrest. rename select (generateRecoveryCode _ = _) into Hcode.
  rename select (GenerateFromPassword _ _ = _) into Hgen. apply IH in Hrest as (Hl1&Hl2&Hall).
  assert (Hlen : forall code stx sty, generateRecoveryCode stx = (sty, Ok code) -> String.length code = 17%nat).
  { intros code stx sty Hc. unfold generateRecoveryCode in Hc. apply gbind_Ok in Hc as (sz&buf&Hb&Hc). 
    assert (code = str_take recoveryCodeLen buf +:+ "-" +:+ str_drop recoveryCodeLen buf) as -> by (unfold gret in Hc; congruence).
    apply random_code_len in Hb. rewrite !str_length_app, str_take_length, str_drop_length, Hb. done. }
  split_and!; [cbn; congruence|cbn; congruence|]. constructor.
  - split; [by eapply Hlen|]. apply Hlen in Hcode. match type of Hgen with GenerateFromPassword ?sa ?c = _ =>
      destruct (bcrypt_accepts sa c) as (h&Hh&_&Hc); [rewrite Hcode; lia|] end.
    rewrite Hgen in Hh. injection Hh as ->. cbn. rewrite Hc. by eexists.
  - eapply Forall_impl; [exact Hall|]. intros code [? [j Hj]]. split; [done|]. cbn. case_match; [by eexists|]. rewrite Hj. by eexists.
Qed.
(** Recovery codes have two groups of eight characters, and each of them is
    accepted by the stored hashes. *)
Theorem recovery_codes_work salt count st st' plain hashed :
  GenerateRecoveryCodes salt count st = (st', Ok (plain, hashed)) ->
  length plain = count /\ length hashed = count /\
  Forall (fun code => String.length code = 17%nat /\ is_Some (ValidateRecoveryCode hashed code)) plain.
Proof. apply recovery_from_work. Qed.
End SecondFactorThm.

Section Touches.
Context {DB : Type} `{PebbleDB DB} `{CredCodecs} `{RaftApplier DB}.
(** The pairs marked busy are those of the writes in flight, each once. *)
Definition touches_ok (st : AuthState) : Prop :=
  NoDup ((fun t => touch_key t.1.1 t.1.2) <$> au_inflight st) /\
  forall k, k ∈ au_touching st <-> k ∈ ((fun t => touch_key t.1.1 t.1.2) <$> au_inflight st).
Lemma recordUse_touches now u rec st : touches_ok st -> touches_ok (recordUse now u rec st).
Proof.
  unfold recordUse, touches_ok. intros [Hnd Hin]. repeat case_match; [done..|]. cbn. rewrite NoDup_cons, <- Hin. split; [done|].
  intros k. rewrite elem_of_union, elem_of_singleton, elem_of_cons, Hin. done.
Qed.
Lemma touch_done_touches i (s : AuthNode DB) : touches_ok (an_st s) -> touches_ok (an_st (touch_done i s)).
Proof.
  unfold touch_done, touches_ok. intros [Hnd Hin]. destruct (au_inflight (an_st s) !! i) as [[[u id] now]|] eqn:E; [|done]. cbn.
  pose proof (delete_Permutation _ _ _ E) as Hp.
  assert (Hk : (fun t : string * string * Z => touch_key t.1.1 t.1.2) <$> au_inflight (an_st s) ≡ₚ
    touch_key u id :: ((fun t => touch_key t.1.1 t.1.2) <$> delete i (au_inflight (an_st s)))) by (by rewrite Hp at 1).
  rewrite Hk in Hnd. apply NoDup_cons in Hnd as [Hn Hnd]. split; [done|]. intros k.
  rewrite elem_of_difference, elem_of_singleton, Hin, Hk, elem_of_cons. split; [naive_solver|]. intros Hk'. split; [by right|]. by intros ->.
Qed.
End Touches.

(** * Evaluation *)

Section Demo.
#[local] Existing Instances plain_raft plain_applier.
#[local] Instance plain_user_applier : UserApplier MemDB := plain_user.

(** A bcrypt that keeps the password, and a checksum. *)
#[local] Instance demo_bcrypt : Bcrypt := {|
  CompareHashAndPassword h pw := String.eqb h ("$" +:+ pw);
  GenerateFromPassword _ pw := if Nat.leb (String.length pw) 72 then Ok ("$" +:+ pw) else Err (Errorf "bcrypt: password length exceeds 72 bytes");
  dummyBcryptHash := "$bongo-timing-equalizer" |}.
#[local] Instance demo_bcrypt_laws : BcryptLaws.
Proof.
  constructor. intros salt pw Hl. exists ("$" +:+ pw). cbn [GenerateFromPassword CompareHashAndPassword demo_bcrypt].
  apply Nat.leb_le in Hl. rewrite Hl, String.eqb_refl. done.
Defined.
Fixpoint rolling (n : Z) (s : string) : Z :=
  match s with "" => n | String c s' => rolling ((n * 31 + byte_of c) mod 1000003) s' end.
Definition checksum (s : string) : string := be_put 32 (rolling 7 s).
#[local] Instance demo_sha : Sha256 := {| sha256_sum := checksum; sha256_length s := be_put_length 32 _ |}.
#[local] Existing Instances demo_cred demo_cred_laws bytewise_unicode.
#[local] Instance demo_profile_codec : Codec UserProfile := tagged_codec "U".

Definition demo_profile : UserProfile := mkProfile "ann@example.org" "Ann" "$hunter2" "" 0 false false [] false 0 0 "" 0 "" false.
Definition demo_db : MemDB := mem_of [(profileKey "u1", match marshal demo_profile with Ok v => v | Err _ => "" end)].
Definition demo_users (name : string) : result string := if String.eqb name "ann@example.org" then Ok "u1" else Err ErrNoRows.
Definition demo_auth : LocalAuth := mkLocalAuth (Some demo_users) true.
Definition demo_state : AuthState := mkAuthState 0 (fun n => Ok (Z.of_nat n mod 23)) 0 ∅ [].
Definition demo_node : AuthNode MemDB := mkAuthNode demo_db demo_state.

Lemma protocol_login_exact_witness :
  let run := AuthenticateProtocol demo_auth demo_db 0 " Ann@Example.org" "hunter2" demo_state in
  run.2 = Ok ("u1", demo_profile, "") /\ au_compares run.1 = 1 /\ grants demo_auth demo_db " Ann@Example.org" "hunter2" "u1" demo_profile "".
Proof.
  intros run. assert (Hr : run.2 = Ok ("u1", demo_profile, "")) by (vm_compute; reflexivity).
  destruct (protocol_login_exact demo_auth demo_db 0 " Ann@Example.org" "hunter2" demo_state run.1 run.2 (surjective_pairing run)) as (Hc&_&Hg).
  split; [exact Hr|]. split; [exact Hc|]. apply Hg. exact Hr.
Defined.

Definition demo_created : AuthNode MemDB * result (string * AppPasswordInfo) := Create 5 "salt" "u1" " Phone " demo_node.
Lemma app_password_lifecycle_witness :
  exists plain info, demo_created.2 = Ok (plain, info) /\ plain = "abcdef-ghjkmn-pqrstu-vwxyza" /\
    forall t st, exists st',
      AuthenticateProtocol demo_auth (an_db demo_created.1) t "ann@example.org" "ABCDEFGHJKMN pqrstuvwxyza" st = (st', Ok ("u1", demo_profile, in_ID info)).
Proof.
  destruct demo_created as [s1 r] eqn:E. assert (Hr : demo_created.2 = r) by (rewrite E; reflexivity). vm_compute in Hr. subst r.
  eexists _, _. split; [reflexivity|]. split; [reflexivity|].
  apply (app_password_lifecycle demo_auth 5 "salt" "u1" " Phone " demo_node s1 "abcdef-ghjkmn-pqrstu-vwxyza" _ "ann@example.org" "ABCDEFGHJKMN pqrstuvwxyza"
    (match marshal demo_profile with Ok v => v | Err _ => "" end) demo_profile);
    [split; [reflexivity|split; reflexivity]|exact I| |reflexivity|reflexivity|vm_compute; reflexivity|vm_compute; reflexivity|reflexivity|exact E|vm_compute; reflexivity].
  intros n v [= <-]. apply Z.mod_pos_bound. lia.
Defined.

(** Four groups are shown, the secret ones hidden, and a login name that looks
    like an app password is not logged. *)
Example app_password_display :
  MaskAppPassword "abcdef" = "abcdef-******-******-******" /\ LogUsername " abcdef-ghjkmn-pqrstu-vwxyza" = "[app password]".
Proof. split; vm_compute; reflexivity. Qed.
End Demo.
