(* ===== verification/Smtp.v ===== *)
(** SMTP sessions: [internal/smtp/server.go], [delivery.go] and the per-address
    connection limit of [internal/netx/connlimit.go].

    What the backend looks up (accounts, recipients, policies) may change while
    a session runs: each lookup takes the instant it is made at.  Stores,
    limiters and the spool are state.  go-smtp, which parses commands and calls
    the session, is the step relation of SmtpThm. *)

From S2P Require Import Prelude GoStrings Pebble Utf8 MailText Proto UserData Queue Envelope AttSplit Spool RateLimit Accounts Directory MailHeaders DeliverHeaders DeliverBase Srs Resolver Deliver.
From Stdlib Require Import Ascii.

(** * Connections per address *)

Record PerIPLimiter := mkPerIP { pl_max : Z; pl_n : gmap string Z }.
Definition NewPerIPLimiter (max : Z) : PerIPLimiter := mkPerIP max ∅.
Definition SetMax (max : Z) (l : PerIPLimiter) : PerIPLimiter := mkPerIP max (pl_n l).
Definition slots (l : PerIPLimiter) (k : string) : Z := default 0 (pl_n l !! k).
(** [None] is an unknown address. *)
Definition Acquire (ip : option string) (l : PerIPLimiter) : PerIPLimiter * bool :=
  match ip with
  | None => (l, true)
  | Some k =>
      if pl_max l <=? 0 then (l, true)
      else if pl_max l <=? slots l k then (l, false)
      else (mkPerIP (pl_max l) (<[k := slots l k + 1]> (pl_n l)), true)
  end.
Definition Release (ip : option string) (l : PerIPLimiter) : PerIPLimiter :=
  match ip with
  | None => l
  | Some k => if 0 <? slots l k
              then mkPerIP (pl_max l) (if slots l k - 1 =? 0 then delete k (pl_n l) else <[k := slots l k - 1]> (pl_n l))
              else l
  end.

(** * Replies *)

Record SMTPError := mkSmtp { se_Code : Z; se_Enhanced : Z * Z * Z; se_Message : string }.
(** An error of the data phase: a deliberate reply, or an internal one. *)
Inductive data_err := DReply (e : SMTPError) | DInternal (e : err).
Definition dataFailure (e : data_err) : SMTPError :=
  match e with DReply se => se | DInternal _ => mkSmtp 451 (4, 3, 0) "Temporary local error, please try again later" end.
Definition mailbox_unavailable : SMTPError := mkSmtp 550 (5, 1, 1) "Mailbox unavailable".

(** * The backend *)

Record RcptDSN := mkDSN { rn_Notify : Z; rn_ORCPTType : string; rn_ORCPT : string }.
#[global] Instance RcptDSN_eq_dec : EqDecision RcptDSN.
Proof. solve_decision. Defined.
Record InboundMeta := mkInbound {
  im_SPFResult : string; im_SourceIP : string; im_Trusted : bool; im_AuthUserID : string; im_DSNRet : string; im_DSNEnvID : string; im_DSNRcpts : list RcptDSN }.

(** A body is its bytes and how the reading of it ends. *)
Definition body : Type := string * option data_err.
(** The deliverer of the server role splits local from external recipients; the
    others take the local recipients, with the metadata or without. *)
Inductive deliverer_kind :=
  | SplitDeliverer
  | SpfDeliverer (deliver : Z -> string -> list string -> body -> InboundMeta -> option data_err)
  | PlainDeliverer (deliver : Z -> string -> list string -> body -> option data_err).
Record Backend := mkBackend {
  b_auth : Z -> string -> string -> result (string * option UserProfile * string);
  b_state : option (Z -> string -> string -> result AccountState);
  b_deliverer : deliverer_kind;
  b_spf : option (string -> string -> string);
  b_resolver : option (Z -> string -> result string);
  b_quota : option (Z -> string -> Z -> result bool);
  b_storageLow : Z -> bool;
  b_relayQueue : bool;
  b_policy : option (Z -> string -> string -> result bool);
  b_srs : option (string -> result string);
  b_srsAllDomains : bool;
  b_hostedDomain : option (string -> bool);
  b_hostname : string;
  b_ParseIP : string -> bool;                                           (* it is an address *)
  b_trustedNets : list (option (string -> bool));                       (* Contains, nil entries *)
}.
Definition IsTrustedSource (b : Backend) (ip : string) : bool :=
  match b_trustedNets b with
  | [] => false
  | nets => negb (String.eqb ip "") && b_ParseIP b ip && existsb (fun n => match n with Some contains => contains ip | None => false end) nets
  end.

Inductive dsn_notify := NSuccess | NFailure | NDelayed | NNever.
Record RcptOptions := mkRcptOpts { ro_Notify : list dsn_notify; ro_OriginalRecipientType : string; ro_OriginalRecipient : string }.
Record MailOptions := mkMailOpts { mo_Size : Z; mo_Return : string; mo_EnvelopeID : string }.

Record Session := mkSession {
  ss_from : string; ss_localRcpts : list string; ss_externalRcpts : list string; ss_authed : bool; ss_userID : string; ss_epoch : string;
  ss_appPassword : string; ss_submission : bool; ss_remoteIP : option string; ss_spfResult : string; ss_authFailures : Z;
  ss_declaredSize : Z; ss_dsnRet : string; ss_dsnEnvID : string; ss_localDSN : list RcptDSN; ss_externalDSN : list RcptDSN }.
Definition new_session (remoteIP : option string) (submission : bool) : Session :=
  mkSession "" [] [] false "" "" "" submission remoteIP "" 0 0 "" "" [] [].

(** The slot taken here is given back by [Logout]. *)
Definition newSession (remoteIP : option string) (submission : bool) (l : PerIPLimiter) : PerIPLimiter * (Session + SMTPError) :=
  let (l, ok) := Acquire remoteIP l in
  (l, if ok then inl (new_session remoteIP submission) else inr (mkSmtp 421 (4, 7, 0) "Too many connections from your address")).
(** [local] is the port of the listener's own address, where it is a TCP one. *)
Definition NewSession (subPort : Z) (local : option Z) (remoteIP : option string) (l : PerIPLimiter) : PerIPLimiter * (Session + SMTPError) :=
  newSession remoteIP (negb (subPort =? 0) && bool_decide (local = Some subPort)) l.
Definition Logout (s : Session) (l : PerIPLimiter) : PerIPLimiter := Release (ss_remoteIP s) l.

Definition set_auth (s : Session) (authed : bool) (userID epoch app : string) (failures : Z) : Session :=
  mkSession (ss_from s) (ss_localRcpts s) (ss_externalRcpts s) authed userID epoch app (ss_submission s) (ss_remoteIP s) (ss_spfResult s) failures
    (ss_declaredSize s) (ss_dsnRet s) (ss_dsnEnvID s) (ss_localDSN s) (ss_externalDSN s).
Definition set_mail (s : Session) (from spf : string) (size : Z) (ret envid : string) : Session :=
  mkSession from (ss_localRcpts s) (ss_externalRcpts s) (ss_authed s) (ss_userID s) (ss_epoch s) (ss_appPassword s) (ss_submission s) (ss_remoteIP s)
    spf (ss_authFailures s) size ret envid (ss_localDSN s) (ss_externalDSN s).
Definition set_rcpts (s : Session) (local external : list string) (ldsn edsn : list RcptDSN) : Session :=
  mkSession (ss_from s) local external (ss_authed s) (ss_userID s) (ss_epoch s) (ss_appPassword s) (ss_submission s) (ss_remoteIP s)
    (ss_spfResult s) (ss_authFailures s) (ss_declaredSize s) (ss_dsnRet s) (ss_dsnEnvID s) ldsn edsn.
Definition addLocal (to : string) (d : RcptDSN) (s : Session) : Session :=
  set_rcpts s (ss_localRcpts s ++ [to]) (ss_externalRcpts s) (ss_localDSN s ++ [d]) (ss_externalDSN s).
Definition addExternal (to : string) (d : RcptDSN) (s : Session) : Session :=
  set_rcpts s (ss_localRcpts s) (ss_externalRcpts s ++ [to]) (ss_localDSN s) (ss_externalDSN s ++ [d]).
Definition Reset (s : Session) : Session :=
  mkSession "" [] [] (ss_authed s) (ss_userID s) (ss_epoch s) (ss_appPassword s) (ss_submission s) (ss_remoteIP s) "" (ss_authFailures s) 0 "" "" [] [].

(** * What a session changes *)

Inductive smtp_event :=
  | EvTry (username : string) (ok : bool)
  | EvSpool (at_ : Z) (envs : list QueueEnvelope) (ok : bool)
  | EvRelay (at_ : Z) (msg : OutboundMessage) (content : string) (ok : bool)
  | EvFallback (at_ : Z) (from : string) (rcpts : list string).

Section Sessions.
Context {DB B : Type} `{PebbleDB DB} `{BlobOps B} `{Codec OutboundMessage} `{Codec QueueEnvelope} `{RaftApplier DB} `{DeliverExt} `{GoUnicode} `{NetMail} `{Sha256}.
Variable b : Backend.

Record World := mkWorld {
  w_db : DB; w_blobs : B; w_spool : Spool; w_authFail : Auth.Limiter; w_inbound : option Inbound.inboundRateLimiter;
  w_outbound : option Inbound.inboundRateLimiter; w_rcpts : option Outbound.RateLimiter; w_uuid : nat; w_events : list smtp_event }.
Implicit Types w : World.
Definition w_say w (e : smtp_event) : World :=
  mkWorld (w_db w) (w_blobs w) (w_spool w) (w_authFail w) (w_inbound w) (w_outbound w) (w_rcpts w) (w_uuid w) (w_events w ++ [e]).
Definition w_set_auth w (l : Auth.Limiter) : World :=
  mkWorld (w_db w) (w_blobs w) (w_spool w) l (w_inbound w) (w_outbound w) (w_rcpts w) (w_uuid w) (w_events w).
Definition w_set_limits w (i o : option Inbound.inboundRateLimiter) (r : option Outbound.RateLimiter) : World :=
  mkWorld (w_db w) (w_blobs w) (w_spool w) (w_authFail w) i o r (w_uuid w) (w_events w).
Definition w_set_stores w (db : DB) (bs : B) (sp : Spool) (n : nat) : World :=
  mkWorld db bs sp (w_authFail w) (w_inbound w) (w_outbound w) (w_rcpts w) n (w_events w).

(** * Accounts *)

Definition checkAccountLive (now : Z) (s : Session) : option SMTPError :=
  match b_state b with
  | None => None
  | Some read =>
      match read now (ss_userID s) (ss_appPassword s) with
      | Err _ => Some (mkSmtp 451 (4, 3, 0) "Temporary local error, please try again later")
      | Ok st => if Live st (ss_epoch s) then None else Some (mkSmtp 535 (5, 7, 8) "Account no longer available")
      end
  end.
Definition guarded (s : Session) : bool := ss_submission s && ss_authed s.
Definition check_live (now : Z) (s : Session) : option SMTPError := if guarded s then checkAccountLive now s else None.
Definition checkSendAs (now : Z) (s : Session) (addr : string) : option SMTPError :=
  let unavailable := mkSmtp 451 (4, 3, 0) "Sender policy temporarily unavailable" in
  match b_policy b with
  | None => Some unavailable
  | Some can =>
      match can now (ss_userID s) addr with
      | Err _ => Some unavailable
      | Ok ok => if ok then None else Some (mkSmtp 553 (5, 7, 1) "Sender address not owned by authenticated user")
      end
  end.

Definition maxAuthFailures : Z := 5.
Definition errAuthBadCredentials : SMTPError := mkSmtp 535 (5, 7, 8) "Authentication credentials invalid".
Definition errAuthTemporary : SMTPError := mkSmtp 454 (4, 7, 0) "Temporary authentication failure".
Definition ip_string (s : Session) : string := default "" (ss_remoteIP s).
Definition auth_failed (now : Z) (username : string) (s : Session) w : Session * World :=
  (set_auth s (ss_authed s) (ss_userID s) (ss_epoch s) (ss_appPassword s) (ss_authFailures s + 1),
   w_set_auth (w_say w (EvTry username false)) (Auth.Fail_ now (ip_string s) username (w_authFail w)).1).
Definition AuthPlain (now : Z) (username password : string) (s : Session) w : Session * World * option SMTPError :=
  let throttled := Some (mkSmtp 454 (4, 7, 0) "Too many authentication failures; try again later") in
  if maxAuthFailures <=? ss_authFailures s then (s, w, throttled) else
  let (l, blocked) := Auth.Blocked now (ip_string s) (w_authFail w) in
  let w := w_set_auth w l in
  if blocked then (s, w, throttled) else
  match b_auth b now username password with
  | Err e => let (s, w) := auth_failed now username s w in (s, w, Some (if errors_is e ErrBadCredentials then errAuthBadCredentials else errAuthTemporary))
  | Ok (userID, profile, appPassword) =>
      match profile with
      | None => let (s, w) := auth_failed now username s w in (s, w, Some errAuthBadCredentials)
      | Some prof =>
          if up_Disabled prof then let (s, w) := auth_failed now username s w in (s, w, Some errAuthBadCredentials) else
          let w := w_say w (EvTry username true) in
          let w := if String.eqb appPassword "" then w_set_auth w (Auth.Succeed_ now (ip_string s) username (w_authFail w)) else w in
          (set_auth s true userID (ProtocolEpoch prof) appPassword 0, w, None)
      end
  end.
Definition AuthMechanisms (s : Session) : list string := if negb (ss_submission s) then [] else ["PLAIN"; "LOGIN"].
(** LOGIN asks for the username unless it came first, then for the password. *)
Record loginServer := mkLogin { lo_username : string; lo_step : nat }.
Inductive login_reply := LChallenge (prompt : string) | LTry (username password : string) | LUnexpected.
Definition login_Next (response : string) (l : loginServer) : loginServer * login_reply :=
  match lo_step l with
  | 0%nat => if String.eqb response "" then (mkLogin (lo_username l) 1, LChallenge "Username:") else (mkLogin response 2, LChallenge "Password:")
  | 1%nat => (mkLogin response 2, LChallenge "Password:")
  | 2%nat => (l, LTry (lo_username l) response)
  | _ => (l, LUnexpected)
  end.
Definition Auth_cmd (now : Z) (mech username password : string) (s : Session) w : Session * World * option SMTPError :=
  if negb (ss_submission s) || negb (bool_decide (mech ∈ ["PLAIN"; "LOGIN"]))
  then (s, w, Some (mkSmtp 502 (5, 7, 0) "Authentication not supported")) else AuthPlain now username password s w.

(** * MAIL *)

Definition hasControlChar (v : string) : bool := existsb (fun r => IsControl (MailText.code_point r)) (MailText.runes v).
Definition maxDSNEnvelopeIDLen : nat := 100.
Definition maxDSNOriginalRcpt : nat := 500.
Definition extractDomain (email : string) : string := match SplitN email "@" 2 with [_; d] => ToLower d | _ => "" end.

Definition Mail (now : Z) (from : string) (opts : option MailOptions) (s : Session) : Session * option SMTPError :=
  let size := match opts with Some o => if 0 <? mo_Size o then mo_Size o else 0 | None => 0 end in
  let s := set_mail s (ss_from s) (ss_spfResult s) size "" "" in
  let malformed := match opts with Some o => (maxDSNEnvelopeIDLen <? String.length (mo_EnvelopeID o))%nat || hasControlChar (mo_EnvelopeID o) | None => false end in
  if malformed then (s, Some (mkSmtp 501 (5, 5, 4) "Malformed ENVID parameter value")) else
  if ss_submission s && negb (ss_authed s) then (s, Some (mkSmtp 530 (5, 7, 0) "Authentication required")) else
  if b_storageLow b now then (s, Some (mkSmtp 452 (4, 3, 1) "Insufficient system storage")) else
  match check_live now s with
  | Some e => (s, Some e)
  | None =>
      match (if guarded s then checkSendAs now s from else None) with
      | Some e => (s, Some e)
      | None =>
          let spf := match b_spf b, ss_remoteIP s with
                     | Some check, Some ip => let domain := extractDomain from in
                                              if String.eqb domain "" then ss_spfResult s else check ip domain
                     | _, _ => ss_spfResult s
                     end in
          (set_mail s from spf size (match opts with Some o => mo_Return o | None => "" end) (match opts with Some o => mo_EnvelopeID o | None => "" end), None)
      end
  end.

(** * RCPT *)

Definition notify_bit (n : dsn_notify) : Z := match n with NSuccess => NotifySuccess | NFailure => NotifyFailure | NDelayed => NotifyDelay | NNever => NotifyNever end.
Definition rcptDSNFrom (opts : option RcptOptions) : RcptDSN + SMTPError :=
  match opts with
  | None => inl (mkDSN 0 "" "")
  | Some o =>
      let notify := foldl (fun m n => Z.lor m (notify_bit n)) 0 (ro_Notify o) in
      if String.eqb (ro_OriginalRecipient o) "" then inl (mkDSN notify "" "")
      else if (maxDSNOriginalRcpt <? String.length (ro_OriginalRecipient o))%nat || hasControlChar (ro_OriginalRecipient o)
      then inr (mkSmtp 501 (5, 5, 4) "Malformed ORCPT parameter value")
      else inl (mkDSN notify (ToLower (ro_OriginalRecipientType o)) (ro_OriginalRecipient o))
  end.
Definition is_hosted (domain : string) : bool := match b_hostedDomain b with Some f => f domain | None => false end.
(** [None]: not such an address. *)
Definition rcptSRS (to : string) (dsn : RcptDSN) (s : Session) : option (Session * option SMTPError) :=
  match b_srs b with
  | None => None
  | Some reverse =>
      if negb (b_srsAllDomains b) && match b_hostedDomain b with None => true | Some _ => false end then None else
      match CutLast (bare_rcpt to) "@" with
      | None => None
      | Some (local, d) =>
          if String.eqb local "" || negb (IsSRS local) || negb (b_srsAllDomains b) && negb (is_hosted (ToLower d)) then None else
          Some (if String.eqb (ss_from s) "" && is_ok (reverse (bare_rcpt to)) then (addLocal to dsn s, None) else (s, Some mailbox_unavailable))
      end
  end.
Definition rcptNoRelay (to : string) (dsn : RcptDSN) (s : Session) : option (Session * option SMTPError) :=
  match CutLast (bare_rcpt to) "@" with
  | None => None
  | Some (local, d) =>
      if String.eqb local "" || negb (IsNoRelay local) || negb (is_hosted (ToLower d)) then None else
      Some (if String.eqb (ss_from s) "" then (addLocal to dsn s, None) else (s, Some mailbox_unavailable))
  end.
Definition over_quota (now : Z) (userID : string) (s : Session) : bool :=
  match b_quota b with
  | None => false
  | Some check => match check now userID (ss_declaredSize s) with Ok over => over | Err _ => false end
  end.
Definition on_hosted_domain (to : string) : bool :=
  match CutLast (bare_rcpt to) "@" with Some (_, d) => negb (String.eqb d "") && is_hosted (ToLower d) | None => false end.
Definition Rcpt (now : Z) (to : string) (opts : option RcptOptions) (s : Session) w : Session * World * option SMTPError :=
  match rcptDSNFrom opts with
  | inr e => (s, w, Some e)
  | inl dsn =>
  match check_live now s with
  | Some e => (s, w, Some e)
  | None =>
  match rcptSRS to dsn s with
  | Some (s, r) => (s, w, r)
  | None =>
  match b_resolver b with
  | None => (addLocal to dsn s, w, None)
  | Some resolve =>
  match rcptNoRelay to dsn s with
  | Some (s, r) => (s, w, r)
  | None =>
  match resolve now to with
  | Ok userID => if over_quota now userID s then (s, w, Some (mkSmtp 552 (5, 2, 2) "Mailbox quota exceeded")) else (addLocal to dsn s, w, None)
  | Err e =>
      if errors_is e ErrRecipientUnavailable then (s, w, Some mailbox_unavailable) else
      if on_hosted_domain to then (s, w, Some mailbox_unavailable) else
      if negb (ss_authed s) then (s, w, Some (mkSmtp 550 (5, 7, 1) "Relaying denied")) else
      let '(w, over) :=
        match w_rcpts w with
        | Some rl => if ss_submission s && negb (String.eqb (ss_userID s) "") then
                       let (rl', left) := Outbound.Remaining now (ss_userID s) rl in
                       (w_set_limits w (w_inbound w) (w_outbound w) (Some rl'), left <? Z.of_nat (length (ss_externalRcpts s)) + 1)
                     else (w, false)
        | None => (w, false)
        end in
      if over then (s, w, Some (mkSmtp 452 (4, 5, 3) "Too many recipients, try again later")) else (addExternal to dsn s, w, None)
  end end end end end end.

(** * DATA *)

Definition declaredSizeAllowance (declared : Z) : Z := i64 (declared + Z.quot declared 10 + 1024).
Definition exceeds_size : SMTPError := mkSmtp 552 (5, 3, 4) "Message exceeds declared SIZE".
(** The reader of a body that declared its size hands out what it read, in the
    pieces it was read in. *)
Record declaredSizeReader := mkSized { sz_limit : Z; sz_n : Z }.
Definition sized_Read (chunk : string) (e : option data_err) (d : declaredSizeReader) : declaredSizeReader * (string * option data_err) :=
  let n := len chunk in
  let over := i64 (i64 (sz_n d + n) - sz_limit d) in
  if 0 <? over then (mkSized (sz_limit d) (i64 (sz_limit d + 1)), (str_take (Z.to_nat (Z.max (n - over) 0)) chunk, Some (DReply exceeds_size)))
  else (mkSized (sz_limit d) (i64 (sz_n d + n)), (chunk, e)).
(** Reading until an error ends it. *)
Fixpoint sized_read_all (chunks : list string) (e : option data_err) (d : declaredSizeReader) : body :=
  match chunks with
  | [] => ("", e)
  | c :: chunks =>
      let '(d, (out, e')) := sized_Read c None d in
      match e' with
      | Some err => (out, Some err)
      | None => let r := sized_read_all chunks e d in (out +:+ r.1, r.2)
      end
  end.
(** What that comes to for a whole body. *)
Definition limited (s : Session) (r : body) : body :=
  if 0 <? ss_declaredSize s then
    let limit := declaredSizeAllowance (ss_declaredSize s) in
    if limit <? len r.1 then (str_take (Z.to_nat limit) r.1, Some (DReply exceeds_size)) else r
  else r.

Definition maxSubmissionHeaderBytes : Z := 262144.
(** Up to and including the first blank line; and whether there was one. *)
Fixpoint header_block (lines : list string) : string * bool :=
  match lines with
  | [] => ("", false)
  | [last] => (last, false)
  | l :: lines =>
      if String.eqb l "" || String.eqb l (String CR "") then (l +:+ sLF, true)
      else let (h, found) := header_block lines in (l +:+ sLF +:+ h, found)
  end.
Definition malformedFrom (msg : string) : SMTPError := mkSmtp 550 (5, 6, 0) msg.
Fixpoint check_froms (now : Z) (s : Session) (addrs : list MailAddress) : option SMTPError :=
  match addrs with
  | [] => None
  | a :: addrs =>
      match checkSendAs now s (ma_Address a) with
      | Some e => Some (if se_Code e =? 553 then mkSmtp 550 (5, 7, 1) "From address not owned by authenticated user" else e)
      | None => check_froms now s addrs
      end
  end.
(** The header is read, checked and put back in front of the rest. *)
Definition checkSubmissionHeaderFrom (now : Z) (s : Session) (r : body) : option data_err :=
  let (hdr, found) := header_block (Split r.1 sLF) in
  if maxSubmissionHeaderBytes <? len hdr then Some (DReply (mkSmtp 552 (5, 3, 4) "Message header too large")) else
  match (if found then None else r.2) with
  | Some (DReply e) => Some (DReply e)
  | Some (DInternal e) => Some (DInternal (Wrap "reading message header" e))
  | None =>
      match from_values (hdr +:+ sCRLF +:+ sCRLF) with
      | Err _ => Some (DReply (malformedFrom "unparseable message header"))
      | Ok [v] =>
          match ParseAddressList v with
          | Ok (a :: l) => DReply <$> check_froms now s (a :: l)
          | _ => Some (DReply (malformedFrom "From header is not a valid address list"))
          end
      | Ok _ => Some (DReply (malformedFrom "exactly one From header is required"))
      end
  end.

Definition inboundMeta (s : Session) : InboundMeta :=
  let sourceIP := ip_string s in
  mkInbound (ss_spfResult s) sourceIP (ss_authed s || IsTrustedSource b sourceIP) (if ss_authed s then ss_userID s else "")
    (ss_dsnRet s) (ss_dsnEnvID s) (ss_localDSN s).

Definition buildReceivedHeader (now : Z) (s : Session) : string :=
  let host := if String.eqb (b_hostname b) "" then "localhost" else b_hostname b in
  let from := match ss_remoteIP s with Some ip => "[" +:+ ip +:+ "]" | None => "unknown" end in
  "Received: from " +:+ from +:+ " by " +:+ SanitizeHeaderValue host +:+ " with " +:+ (if ss_authed s then "ESMTPA" else "SMTP") +:+ "; " +:+
  FormatRFC1123Z now +:+ sCRLF.
Definition trace_prefix (now : Z) (s : Session) : string :=
  buildReceivedHeader now s +:+
  (if String.eqb (ss_spfResult s) "" then "" else
   "Received-SPF: " +:+ SanitizeHeaderValue (ss_spfResult s) +:+ " (bongo; domain=" +:+ SanitizeHeaderValue (extractDomain (ss_from s)) +:+ ")" +:+ sCRLF).

(** ** The pipeline's entry ([delivery.go]) *)

Fixpoint local_envelopes (now : Z) (from hash : string) (meta : InboundMeta) (n : nat) (rcpts : list string) (dsns : list RcptDSN) : list QueueEnvelope :=
  match rcpts with
  | [] => []
  | rcpt :: rcpts =>
      let d := default (mkDSN 0 "" "") (head dsns) in
      mkEnvelope (uuid n) from [rcpt] (unix_of now) (im_SourceIP meta) hash 0 (im_SPFResult meta) [] "" "" [] [] (im_Trusted meta) (im_AuthUserID meta) []
        0 [] false (im_DSNRet meta) (im_DSNEnvID meta) (rn_Notify d) (rn_ORCPTType d) (rn_ORCPT d)
      :: local_envelopes now from hash meta (S n) rcpts (tail dsns)
  end.
Definition EnqueueLocal (now : Z) (from : string) (recipients : list string) (hash : string) (meta : InboundMeta) w : World * result unit :=
  match recipients with
  | [] => (w, Err (Errorf "enqueuing message to spool: no recipients"))
  | _ =>
      let envs := local_envelopes now from hash meta (w_uuid w) recipients (im_DSNRcpts meta) in
      let (sp, r) := EnqueueAll envs (w_spool w) in
      (w_say (w_set_stores w (w_db w) (w_blobs w) sp (w_uuid w + length recipients)) (EvSpool now envs (is_ok r)), wrapf "enqueuing message to spool" r)
  end.
Definition StoreBlob (r : body) w : World * (string + data_err) :=
  match r.2 with
  | Some e => (w, inr e)
  | None => let (bs, res) := blob_Put r.1 (w_blobs w) in
            (w_set_stores w (w_db w) bs (w_spool w) (w_uuid w), match res with Ok h => inl h | Err e => inr (DInternal (Wrap "storing raw message blob" e)) end)
  end.

Definition DeliverWithSPF (now : Z) (from : string) (recipients : list string) (r : body) (meta : InboundMeta) w : World * option data_err :=
  match StoreBlob r w with
  | (w, inr e) => (w, Some e)
  | (w, inl hash) => match EnqueueLocal now from recipients hash meta w with
                     | (w, Ok _) => (w, None)
                     | (w, Err e) => (w, Some (DInternal e))
                     end
  end.

(** ** Relay *)

Fixpoint rcpt_dsns (rcpts : list string) (dsns : list RcptDSN) : list RecipientDSN :=
  match rcpts, dsns with
  | to :: rcpts, d :: dsns =>
      if bool_decide (d = mkDSN 0 "" "") then rcpt_dsns rcpts dsns
      else mkRcptDSN to (rn_Notify d) (rn_ORCPTType d) (rn_ORCPT d) :: rcpt_dsns rcpts dsns
  | _, _ => []
  end.
Definition relay_message (s : Session) (id hash : string) : OutboundMessage :=
  mkOut id (ss_userID s) (ss_from s) (ss_externalRcpts s) hash 0 0 0 STATUS_UNSPECIFIED "" [] "" [] [] ORIGIN_LOCAL false
    (ss_dsnRet s) (ss_dsnEnvID s) (rcpt_dsns (ss_externalRcpts s) (ss_externalDSN s)) false.
Definition relay (now : Z) (s : Session) (content hash : string) w : World * option SMTPError :=
  if negb (b_relayQueue b) then (w, Some (mkSmtp 451 (4, 3, 0) "Outbound relay temporarily unavailable")) else
  let msg := relay_message s (uuid (w_uuid w)) hash in
  let (db, r) := Queue.Enqueue (unix_of now) msg (w_db w) in
  let w := w_say (w_set_stores w db (w_blobs w) (w_spool w) (S (w_uuid w))) (EvRelay now msg content (is_ok r)) in
  (w, match r with Ok _ => None | Err e => Some (dataFailure (DInternal e)) end).

(** The limits of the data phase before the body is read, in order. *)
Definition rate_checks (now : Z) (s : Session) w : World * option SMTPError :=
  let '(w, e) :=
    match ss_remoteIP s, w_inbound w with
    | Some ip, Some rl => if negb (ss_submission s) then
                            let (rl', ok) := Inbound.Allow now ip rl in
                            (w_set_limits w (Some rl') (w_outbound w) (w_rcpts w), if ok then None else Some (mkSmtp 451 (4, 7, 0) "Rate limit exceeded, try again later"))
                          else (w, None)
    | _, _ => (w, None)
    end in
  match e with
  | Some e => (w, Some e)
  | None =>
      match w_outbound w with
      | Some rl =>
          if guarded s && negb (String.eqb (ss_userID s) "") && negb (length (ss_externalRcpts s) =? 0)%nat then
            let (rl', ok) := Inbound.Allow now (ss_userID s) rl in
            (w_set_limits w (w_inbound w) (Some rl') (w_rcpts w), if ok then None else Some (mkSmtp 452 (4, 7, 0) "Outbound rate limit exceeded, slow down"))
          else (w, None)
      | None => (w, None)
      end
  end.
Definition budget_check (now : Z) (s : Session) w : World * option SMTPError :=
  match w_rcpts w with
  | Some rl =>
      if guarded s && negb (String.eqb (ss_userID s) "") && negb (length (ss_externalRcpts s) =? 0)%nat then
        let (rl', ok) := Outbound.AllowN now (ss_userID s) (Z.of_nat (length (ss_externalRcpts s))) rl in
        (w_set_limits w (w_inbound w) (w_outbound w) (Some rl'), if ok then None else Some (mkSmtp 452 (4, 7, 0) "Outbound recipient limit exceeded, try again later"))
      else (w, None)
  | None => (w, None)
  end.

Definition hand_over (now : Z) (s : Session) (r : body) w : World * option SMTPError :=
  let content := (trace_prefix now s +:+ r.1, r.2) in
  match b_deliverer b with
  | SplitDeliverer =>
      match StoreBlob content w with
      | (w, inr e) => (w, Some (dataFailure e))
      | (w, inl hash) =>
          let '(w, e) := match ss_localRcpts s with
                         | [] => (w, None)
                         | rcpts => match EnqueueLocal now (ss_from s) rcpts hash (inboundMeta s) w with
                                    | (w, Ok _) => (w, None)
                                    | (w, Err e) => (w, Some (dataFailure (DInternal e)))
                                    end
                         end in
          match e with
          | Some e => (w, Some e)
          | None => match ss_externalRcpts s with [] => (w, None) | _ => relay now s r.1 hash w end
          end
      end
  | SpfDeliverer deliver =>
      (w_say w (EvFallback now (ss_from s) (ss_localRcpts s)), dataFailure <$> deliver now (ss_from s) (ss_localRcpts s) content (inboundMeta s))
  | PlainDeliverer deliver =>
      (w_say w (EvFallback now (ss_from s) (ss_localRcpts s)), dataFailure <$> deliver now (ss_from s) (ss_localRcpts s) content)
  end.
Definition Data (now : Z) (r : body) (s : Session) w : World * option SMTPError :=
  if (length (ss_localRcpts s) + length (ss_externalRcpts s) =? 0)%nat then (w, Some (mkSmtp 554 (5, 5, 1) "No valid recipients")) else
  match check_live now s with
  | Some e => (w, Some e)
  | None =>
      match rate_checks now s w with
      | (w, Some e) => (w, Some e)
      | (w, None) =>
          let r := limited s r in
          match (if guarded s then checkSubmissionHeaderFrom now s r else None) with
          | Some e => (w, Some (dataFailure e))
          | None =>
              match budget_check now s w with
              | (w, Some e) => (w, Some e)
              | (w, None) => hand_over now s r w
              end
          end
      end
  end.

End Sessions.
