(* ===== verification/SmtpThm.v ===== *)
(** Theorems on SMTP sessions: the commands of a connection in any order go-smtp
    admits, interleaved with whatever the rest of the server does. *)

From S2P Require Import Prelude GoStrings Pebble Utf8 MailText Proto UserData Queue Envelope AttSplit Spool RateLimit Accounts Directory MailHeaders DeliverHeaders DeliverBase Srs Resolver Deliver Smtp.
From Stdlib Require Import Ascii.

(** * Connections per address *)

(** The connections of a listener with a cap: [held] are the addresses of those
    that are open. *)
Inductive conn_step (max : Z) : PerIPLimiter * list string -> PerIPLimiter * list string -> Prop :=
  | conn_open ip l held l' : Acquire (Some ip) l = (l', true) -> conn_step max (l, held) (l', ip :: held)
  | conn_refused ip l held l' : Acquire (Some ip) l = (l', false) -> conn_step max (l, held) (l', held)
  | conn_close ip l pre post : conn_step max (l, pre ++ ip :: post) (Release (Some ip) l, pre ++ post).

Definition open_from (ip : string) (held : list string) : Z := Z.of_nat (count_occ String.string_dec held ip).
Lemma open_from_cons ip k held : open_from ip (k :: held) = (if bool_decide (k = ip) then 1 else 0) + open_from ip held.
Proof. unfold open_from. cbn [count_occ]. destruct (String.string_dec k ip), (bool_decide_reflect (k = ip)); congruence || lia. Qed.
Lemma open_from_nonneg ip l : 0 <= open_from ip l.
Proof. unfold open_from. lia. Qed.
Lemma open_from_app ip l1 l2 : open_from ip (l1 ++ l2) = open_from ip l1 + open_from ip l2.
Proof. unfold open_from. rewrite count_occ_app. lia. Qed.
Definition limiter_inv (max : Z) (s : PerIPLimiter * list string) : Prop :=
  pl_max s.1 = max /\ forall k, slots s.1 k = open_from k s.2 /\ open_from k s.2 <= max /\ (open_from k s.2 = 0 <-> pl_n s.1 !! k = None).

Lemma slots_insert m k v k' n : slots (mkPerIP m (<[k := v]> n)) k' = if bool_decide (k = k') then v else slots (mkPerIP m n) k'.
Proof. unfold slots. cbn. case_bool_decide; [subst; by rewrite lookup_insert_eq|by rewrite lookup_insert_ne]. Qed.
Lemma slots_delete m k k' n : slots (mkPerIP m (delete k n)) k' = if bool_decide (k = k') then 0 else slots (mkPerIP m n) k'.
Proof. unfold slots. cbn. case_bool_decide; [subst; by rewrite lookup_delete_eq|by rewrite lookup_delete_ne]. Qed.

Lemma conn_step_inv max s s' : 0 < max -> conn_step max s s' -> limiter_inv max s -> limiter_inv max s'.
Proof.
  intros Hmax Hs [Hm Hinv]. destruct Hs as [ip l held l' Ha|ip l held l' Ha|ip l pre post]; cbn [fst snd] in *.
  - unfold Acquire in Ha. destruct (Z.leb_spec (pl_max l) 0); [lia|]. destruct (Z.leb_spec (pl_max l) (slots l ip)); [done|].
    injection Ha as <-. split; [done|]. intros k. cbn [fst snd]. destruct l as [m n]; cbn [pl_max pl_n] in *. subst m.
    destruct (Hinv k) as (Hs&Hle&Hz), (Hinv ip) as (Hsi&_). rewrite slots_insert, open_from_cons. case_bool_decide; [subst k|].
    + rewrite lookup_insert_eq. repeat split; try lia; [|done].
      unfold open_from in *. lia.
    + rewrite lookup_insert_ne by done. rewrite Z.add_0_l. done.
  - unfold Acquire in Ha. destruct (Z.leb_spec (pl_max l) 0); [done|]. destruct (Z.leb_spec (pl_max l) (slots l ip)); [|done].
    by injection Ha as <-.
  - assert (0 < slots l ip) as Hpos.
    { destruct (Hinv ip) as (->&_). rewrite open_from_app, open_from_cons, bool_decide_true by done. unfold open_from. lia. }
    unfold Release. destruct (Z.ltb_spec 0 (slots l ip)); [|lia]. split; [done|]. intros k. cbn [fst snd].
    destruct l as [m n]; cbn [pl_max pl_n] in *. subst m.
    destruct (Hinv k) as (Hs&Hle&Hz), (Hinv ip) as (Hsi&_). rewrite open_from_app, open_from_cons in Hs, Hle, Hz, Hsi.
    rewrite open_from_app. rewrite bool_decide_true in Hsi by done.
    pose proof (open_from_nonneg k pre). pose proof (open_from_nonneg k post).
    destruct (Z.eqb_spec (slots (mkPerIP max n) ip - 1) 0).
    + rewrite slots_delete. case_bool_decide; [subst k; rewrite lookup_delete_eq|rewrite lookup_delete_ne by done].
      * repeat split; lia || done.
      * rewrite Z.add_0_l in Hs, Hle, Hz. tauto.
    + rewrite slots_insert. case_bool_decide; [subst k; rewrite lookup_insert_eq|rewrite lookup_insert_ne by done].
      * repeat split; lia || done.
      * rewrite Z.add_0_l in Hs, Hle, Hz. tauto.
Qed.
(** With a cap set, however connections from an address open, are refused and
    close, at most that many from it are open at a time, the limiter's count is
    their number, and it keeps nothing for an address with none. *)
Theorem connections_capped max l held k :
  0 < max -> rtc (conn_step max) (NewPerIPLimiter max, []) (l, held) ->
  slots l k = open_from k held /\ open_from k held <= max /\ (open_from k held = 0 <-> pl_n l !! k = None).
Proof.
  intros Hmax Hr. assert (limiter_inv max (l, held)) as [_ Hi]; [|exact (Hi k)].
  assert (limiter_inv max (NewPerIPLimiter max, [])) as H0.
  { split; [done|]. intros k'. split; [done|]. split; [unfold open_from; cbn; lia|]. done. }
  revert H0. remember (NewPerIPLimiter max, []) as s0 eqn:E0. clear E0.
  induction Hr; [done|]. intros. apply IHHr. by eapply conn_step_inv.
Qed.

(** * A body that declared its size *)

Lemma concat_str_cons c l : concat_str (c :: l) = c +:+ concat_str l.
Proof. done. Qed.
Lemma len_app a c : len (a +:+ c) = len a + len c.
Proof. unfold len. rewrite str_length_app. lia. Qed.
Lemma len_nonneg a : 0 <= len a.
Proof. unfold len. lia. Qed.
Lemma str_take_app_ge n a c : (String.length a <= n)%nat -> str_take n (a +:+ c) = a +:+ str_take (n - String.length a) c.
Proof.
  revert n. induction a as [|x a IH]; intros n; cbn [String.length]; [by rewrite Nat.sub_0_r|].
  destruct n as [|n]; [lia|]. intros. rewrite app_cons'. cbn [str_take Nat.sub]. rewrite app_cons', IH by lia. done.
Qed.
Lemma str_take_app_le n a c : (n <= String.length a)%nat -> str_take n (a +:+ c) = str_take n a.
Proof.
  revert n. induction a as [|x a IH]; intros [|n]; cbn [String.length]; try done; [lia|]. intros. rewrite app_cons'. cbn [str_take]. rewrite IH by lia. done.
Qed.

Lemma sized_read_all_spec chunks e lim n :
  0 <= n <= lim -> lim + len (concat_str chunks) < MaxInt64 ->
  sized_read_all chunks e (mkSized lim n) =
  if lim <? n + len (concat_str chunks) then (str_take (Z.to_nat (lim - n)) (concat_str chunks), Some (DReply exceeds_size)) else (concat_str chunks, e).
Proof.
  revert n. induction chunks as [|c chunks IH]; intros n Hn Hmax.
  - change (concat_str []) with "". change (len "") with 0. cbn [sized_read_all]. destruct (Z.ltb_spec lim (n + 0)); [lia|done].
  - rewrite concat_str_cons, len_app in *. pose proof (len_nonneg c). pose proof (len_nonneg (concat_str chunks)).
    cbn [sized_read_all]. unfold sized_Read. cbn [sz_n sz_limit].
    rewrite (i64_small (n + len c)) by (unfold in_i64, MinInt64, MaxInt64 in *; lia).
    rewrite (i64_small (n + len c - lim)) by (unfold in_i64, MinInt64, MaxInt64 in *; lia).
    destruct (Z.ltb_spec 0 (n + len c - lim)) as [Hover|Hfit].
    + destruct (Z.ltb_spec lim (n + (len c + len (concat_str chunks)))); [|lia].
      rewrite Z.max_l by lia. rewrite str_take_app_le by (unfold len in *; lia). do 2 f_equal. lia.
    + rewrite IH by lia. replace (n + len c + len (concat_str chunks)) with (n + (len c + len (concat_str chunks))) by lia.
      destruct (Z.ltb_spec lim (n + (len c + len (concat_str chunks)))); cbn [fst snd]; [|done].
      rewrite str_take_app_ge by (unfold len in *; lia). do 3 f_equal. unfold len. lia.
Qed.

(** In whatever pieces a body arrives, the reader that enforces a declared
    size hands out the bytes up to the allowance and then refuses, and the whole
    body where it fits. *)
Theorem declared_size_exact (s : Session) (chunks : list string) (e : option data_err) :
  0 < ss_declaredSize s < 2 ^ 32 -> len (concat_str chunks) < 2 ^ 62 ->
  sized_read_all chunks e (mkSized (declaredSizeAllowance (ss_declaredSize s)) 0) = limited s (concat_str chunks, e).
Proof.
  intros Hd Hl. unfold limited. destruct (Z.ltb_spec 0 (ss_declaredSize s)); [|lia]. cbn [fst].
  assert (0 <= declaredSizeAllowance (ss_declaredSize s) < 2 ^ 61) as Ha.
  { unfold declaredSizeAllowance. assert (0 <= Z.quot (ss_declaredSize s) 10 <= ss_declaredSize s).
    { rewrite Z.quot_div_nonneg by lia. split; [apply Z.div_pos; lia|]. apply Z.div_le_upper_bound; lia. }
    rewrite i64_small by (unfold in_i64, MinInt64, MaxInt64; lia). lia. }
  rewrite sized_read_all_spec by (unfold MaxInt64; lia). by rewrite Z.add_0_l, Z.sub_0_r.
Qed.

(** * Sessions *)

Section Conn.
Context {DB B : Type} `{PebbleDB DB} `{BlobOps B} `{Codec OutboundMessage} `{Codec QueueEnvelope} `{RaftApplier DB} `{DeliverExt} `{GoUnicode} `{NetMail} `{Sha256}.
Variable b : Backend.
Notation World := (@World DB B).
Implicit Types (w : World) (s : Session).

(** What go-smtp keeps of a connection: whether MAIL was accepted, how many
    recipients were, whether the client authenticated; and the clock. *)
Record Conn := mkConn { c_session : Session; c_from : bool; c_rcpts : nat; c_didAuth : bool; c_start : Z; c_now : Z }.
Definition accepted {A} (e : option A) : bool := match e with None => true | Some _ => false end.
Implicit Types c : Conn.

(** go-smtp takes AUTH once, RCPT after an accepted MAIL and DATA after an
    accepted recipient; DATA ends the transaction, RSET and EHLO abort it.  In
    between the rest of the server changes anything but this session. *)
Inductive smtp_step : Conn * World -> Conn * World -> Prop :=
  | step_auth c w now mech username password s w' e :
      c_now c <= now -> c_didAuth c = false -> Auth_cmd b now mech username password (c_session c) w = (s, w', e) ->
      smtp_step (c, w) (mkConn s (c_from c) (c_rcpts c) (accepted e) (c_start c) now, w')
  | step_mail c w now from opts s e :
      c_now c <= now -> Mail b now from opts (c_session c) = (s, e) ->
      smtp_step (c, w) (mkConn s (c_from c || accepted e) (c_rcpts c) (c_didAuth c) (c_start c) now, w)
  | step_rcpt c w now to opts s w' e :
      c_now c <= now -> c_from c = true -> Rcpt b now to opts (c_session c) w = (s, w', e) ->
      smtp_step (c, w) (mkConn s true (if accepted e then S (c_rcpts c) else c_rcpts c) (c_didAuth c) (c_start c) now, w')
  | step_data c w now r w' e :
      c_now c <= now -> c_from c = true -> (0 < c_rcpts c)%nat -> Data b now r (c_session c) w = (w', e) ->
      smtp_step (c, w) (mkConn (Reset (c_session c)) false 0 (c_didAuth c) (c_start c) now, w')
  | step_reset c w : smtp_step (c, w) (mkConn (Reset (c_session c)) false 0 (c_didAuth c) (c_start c) (c_now c), w)
  | step_other c w w' now : c_now c <= now -> w_events w' = w_events w ->
      smtp_step (c, w) (mkConn (c_session c) (c_from c) (c_rcpts c) (c_didAuth c) (c_start c) now, w').
Definition connect (ip : option string) (submission : bool) (now : Z) : Conn := mkConn (new_session ip submission) false 0 false now now.
Definition smtp_run (ip : option string) (submission : bool) (start : Z) (c : Conn) (w : World) : Prop :=
  exists w0, w_events w0 = [] /\ rtc smtp_step (connect ip submission start, w0) (c, w).

(** ** What is promised of a message *)

Definition logged_in (start at_ : Z) (user epoch app : string) : Prop :=
  exists t username password prof, start <= t <= at_ /\ b_auth b t username password = Ok (user, Some prof, app) /\ up_Disabled prof = false /\ epoch = ProtocolEpoch prof.
Definition may_send_as (start at_ : Z) (user addr : string) : Prop :=
  exists can t, b_policy b = Some can /\ start <= t <= at_ /\ can t user addr = Ok true.
(** Not an address of this server: it does not resolve, is not a disabled
    account's, and is on no hosted domain. *)
Definition external_rcpt (start at_ : Z) (to : string) : Prop :=
  on_hosted_domain b to = false /\
  exists resolve t e, b_resolver b = Some resolve /\ start <= t <= at_ /\ resolve t to = Err e /\ errors_is e ErrRecipientUnavailable = false.
Definition bounce_rcpt (to : string) : Prop :=
  (exists reverse, b_srs b = Some reverse /\ is_ok (reverse (bare_rcpt to)) = true) \/
  (exists local d, CutLast (bare_rcpt to) "@" = Some (local, d) /\ IsNoRelay local = true /\ is_hosted b (ToLower d) = true).
Definition local_rcpt (start at_ : Z) (to : string) : Prop :=
  b_resolver b = None \/ bounce_rcpt to \/
  exists resolve t user, b_resolver b = Some resolve /\ start <= t <= at_ /\ resolve t to = Ok user.
Definition still_live (at_ : Z) (user epoch app : string) : Prop :=
  forall read, b_state b = Some read -> exists st, read at_ user app = Ok st /\ Live st epoch = true.
(** Every address of the one From field of the message. *)
Definition owns_header_from (at_ : Z) (user content : string) : Prop :=
  exists v addrs can, from_values ((header_block (Split content sLF)).1 +:+ sCRLF +:+ sCRLF) = Ok [v] /\ ParseAddressList v = Ok addrs /\ addrs <> [] /\
    b_policy b = Some can /\ forall a, a ∈ addrs -> can at_ user (ma_Address a) = Ok true.
Definition relay_ok (submission : bool) (start at_ : Z) (msg : OutboundMessage) (content : string) : Prop :=
  submission = true /\ om_Origin msg = ORIGIN_LOCAL /\
  (exists epoch app, logged_in start at_ (om_SenderId msg) epoch app /\ still_live at_ (om_SenderId msg) epoch app) /\
  may_send_as start at_ (om_SenderId msg) (om_SenderEmail msg) /\
  owns_header_from at_ (om_SenderId msg) content /\
  om_Recipients msg <> [] /\ (forall to, to ∈ om_Recipients msg -> external_rcpt start at_ to) /\
  (exists s (bs bs' : B), blob_Put (trace_prefix b at_ s +:+ content) bs = (bs', Ok (om_BlobHash msg))).
Definition envelope_ok (ip : option string) (submission : bool) (start at_ : Z) (env : QueueEnvelope) : Prop :=
  (exists to, qe_Recipients env = [to] /\ local_rcpt start at_ to) /\ qe_SourceIp env = default "" ip /\
  (qe_AuthUserId env <> "" -> submission = true /\ exists epoch app, logged_in start at_ (qe_AuthUserId env) epoch app /\ still_live at_ (qe_AuthUserId env) epoch app) /\
  (qe_Trusted env = true -> IsTrustedSource b (default "" ip) = true \/
    submission = true /\ exists epoch app, logged_in start at_ (qe_AuthUserId env) epoch app /\ still_live at_ (qe_AuthUserId env) epoch app).
Definition event_ok (ip : option string) (submission : bool) (start : Z) (e : smtp_event) : Prop :=
  match e with
  | EvRelay at_ msg content _ => relay_ok submission start at_ msg content
  | EvSpool at_ envs _ => envs <> [] /\ Forall (envelope_ok ip submission start at_) envs
  | _ => True
  end.
(** An event of the data phase. *)
Definition is_try (e : smtp_event) : bool := match e with EvTry _ _ => true | _ => false end.
Definition sent_ok (ip : option string) (submission : bool) (start : Z) (e : smtp_event) : Prop := is_try e = false /\ event_ok ip submission start e.

(** ** The invariant *)

Record session_inv (ip : option string) (submission : bool) (c : Conn) : Prop := {
  si_ip : ss_remoteIP (c_session c) = ip;
  si_sub : ss_submission (c_session c) = submission;
  si_clock : c_start c <= c_now c;
  si_auth : ss_authed (c_session c) = c_didAuth c;
  si_login : ss_authed (c_session c) = true -> submission = true /\
    logged_in (c_start c) (c_now c) (ss_userID (c_session c)) (ss_epoch (c_session c)) (ss_appPassword (c_session c));
  si_from : c_from c = true -> submission = true -> ss_authed (c_session c) = true /\
    may_send_as (c_start c) (c_now c) (ss_userID (c_session c)) (ss_from (c_session c));
  si_none : c_from c = false -> ss_localRcpts (c_session c) = [] /\ ss_externalRcpts (c_session c) = [];
  si_ext : forall to, to ∈ ss_externalRcpts (c_session c) -> ss_authed (c_session c) = true /\ external_rcpt (c_start c) (c_now c) to;
  si_local : forall to, to ∈ ss_localRcpts (c_session c) -> local_rcpt (c_start c) (c_now c) to;
  si_dsn : length (ss_localDSN (c_session c)) = length (ss_localRcpts (c_session c)) /\
    length (ss_externalDSN (c_session c)) = length (ss_externalRcpts (c_session c));
}.

Lemma logged_in_later start t t' u e a : t <= t' -> logged_in start t u e a -> logged_in start t' u e a.
Proof. intros ? (x&n&p&prof&?&?). exists x, n, p, prof. split; [lia|done]. Qed.
Lemma may_send_as_later start t t' u a : t <= t' -> may_send_as start t u a -> may_send_as start t' u a.
Proof. intros ? (can&x&?&?&?). exists can, x. split_and!; [done|lia..|done]. Qed.
Lemma external_rcpt_later start t t' to : t <= t' -> external_rcpt start t to -> external_rcpt start t' to.
Proof. intros ? (Hh&r&x&e&?&?&?). split; [done|]. exists r, x, e. split_and!; [done|lia..| |]; tauto. Qed.
Lemma local_rcpt_later start t t' to : t <= t' -> local_rcpt start t to -> local_rcpt start t' to.
Proof. intros ? [?|[?|(r&x&u&?&?&?)]]; [by left|by right; left|]. right; right. exists r, x, u. split_and!; [done|lia..|done]. Qed.

(** The same connection at a later instant. *)
Lemma session_inv_later ip sub c now : c_now c <= now -> session_inv ip sub c ->
  session_inv ip sub (mkConn (c_session c) (c_from c) (c_rcpts c) (c_didAuth c) (c_start c) now).
Proof.
  intros Hn [? ? ? ? Hl Hf ? He Hloc ?]. constructor; cbn; try done; [lia|..].
  - intros Ha. destruct (Hl Ha). split; [done|]. by eapply logged_in_later.
  - intros Hc Hs. destruct (Hf Hc Hs). split; [done|]. by eapply may_send_as_later.
  - intros to Hto. destruct (He to Hto). split; [done|]. by eapply external_rcpt_later.
  - intros to Hto. eapply local_rcpt_later; [exact Hn|]. auto.
Qed.
Lemma session_inv_reset ip sub c now : c_now c <= now -> session_inv ip sub c ->
  session_inv ip sub (mkConn (Reset (c_session c)) false 0 (c_didAuth c) (c_start c) now).
Proof. intros Hn Hi%(session_inv_later ip sub c now Hn). destruct Hi. constructor; cbn in *; try done; by intros ? ?%elem_of_nil. Qed.

(** ** AUTH *)

Definition set_failures (s : Session) (n : Z) : Session := set_auth s (ss_authed s) (ss_userID s) (ss_epoch s) (ss_appPassword s) n.
Inductive auth_outcome now username password s w : Session * World * option SMTPError -> Prop :=
  | auth_refused w' e : w_events w' = w_events w -> auth_outcome now username password s w (s, w', Some e)
  | auth_fails w' e : ss_authFailures s < maxAuthFailures -> w_events w' = w_events w ++ [EvTry username false] ->
      auth_outcome now username password s w (set_failures s (ss_authFailures s + 1), w', Some e)
  | auth_succeeds w' prof user app : ss_authFailures s < maxAuthFailures -> w_events w' = w_events w ++ [EvTry username true] -> ss_submission s = true ->
      b_auth b now username password = Ok (user, Some prof, app) -> up_Disabled prof = false ->
      auth_outcome now username password s w (set_auth s true user (ProtocolEpoch prof) app 0, w', None).
Lemma auth_cases now mech username password s w :
  auth_outcome now username password s w (Auth_cmd b now mech username password s w).
Proof.
  unfold Auth_cmd. destruct (ss_submission s) eqn:Hs; [|by constructor]. cbn [negb orb]. case_bool_decide; [|by constructor]. cbn [negb].
  unfold AuthPlain. destruct (Z.leb_spec maxAuthFailures (ss_authFailures s)); [by constructor|].
  destruct (Auth.Blocked now (ip_string s) (w_authFail w)) as [l []]; [by constructor|].
  destruct (b_auth b now username password) as [[[user [prof|]] app]|e] eqn:Ha; [|by apply auth_fails|by apply auth_fails].
  destruct (up_Disabled prof) eqn:Hd; [by apply auth_fails|]. eapply auth_succeeds; [done|by destruct (String.eqb app "")|done..].
Qed.
Lemma inv_auth ip sub c now mech username password w s w' e :
  c_now c <= now -> c_didAuth c = false -> session_inv ip sub c -> Auth_cmd b now mech username password (c_session c) w = (s, w', e) ->
  session_inv ip sub (mkConn s (c_from c) (c_rcpts c) (accepted e) (c_start c) now).
Proof.
  intros Hn Hd Hi%(session_inv_later ip sub c now Hn) E. pose proof (auth_cases now mech username password (c_session c) w) as Ho. rewrite E in Ho.
  destruct Hi as [? ? ? Hauth Hl Hf ? He ? ?]; cbn in *.
  inversion Ho as [w1 e1 Hev|w1 e1 Hlt Hev|w1 prof user app Hlt Hev Hsub Hok Hdis]; subst; clear Ho.
  - constructor; cbn; try done. congruence.
  - constructor; cbn; try done. congruence.
  - constructor; cbn; try done.
    + intros _. split; [done|]. exists now, username, password, prof. split_and!; [lia..|done|done|done].
    + intros Hc Hs. destruct (Hf Hc Hs). congruence.
    + intros to Hto. split; [done|]. by apply He.
Qed.

(** ** MAIL *)

Lemma check_live_ok now s : check_live b now s = None -> guarded s = true -> still_live now (ss_userID s) (ss_epoch s) (ss_appPassword s).
Proof.
  unfold check_live. intros Hc Hg. rewrite Hg in Hc. unfold checkAccountLive in Hc. intros read Er. rewrite Er in Hc.
  destruct (read _ _ _) as [st|]; [|done]. exists st. split; [done|]. by destruct (Live st (ss_epoch s)).
Qed.
Lemma checkSendAs_ok now s addr : checkSendAs b now s addr = None -> exists can, b_policy b = Some can /\ can now (ss_userID s) addr = Ok true.
Proof. unfold checkSendAs. destruct (b_policy b) as [can|]; [|done]. intros Hc. exists can. split; [done|]. by destruct (can _ _ _) as [[]|]. Qed.
Lemma mail_cases now from opts s s' e : Mail b now from opts s = (s', e) ->
  (exists f spf size ret envid, s' = set_mail s f spf size ret envid /\
    match e with
    | Some _ => f = ss_from s
    | None => f = from /\ (ss_submission s = true -> ss_authed s = true /\ checkSendAs b now s from = None)
    end).
Proof.
  unfold Mail. cbv zeta. destruct (match opts with Some _ => _ || _ | None => _ end); [intros [= <- <-]; by repeat eexists|].
  cbn [set_mail ss_submission ss_authed ss_from].
  destruct (ss_submission s && negb (ss_authed s)) eqn:Hsub; [intros [= <- <-]; by repeat eexists|].
  destruct (b_storageLow b now); [intros [= <- <-]; by repeat eexists|].
  destruct (check_live b now _); [intros [= <- <-]; by repeat eexists|].
  unfold guarded. cbn [set_mail ss_submission ss_authed].
  destruct (if ss_submission s && ss_authed s then _ else _) eqn:Hpol; [intros [= <- <-]; by repeat eexists|].
  intros [= <- <-]. do 5 eexists. split; [reflexivity|]. split; [done|]. intros Es. rewrite Es in *. cbn in Hsub, Hpol. destruct (ss_authed s); [|done]. done.
Qed.
Lemma inv_mail ip sub c now from opts s e :
  c_now c <= now -> session_inv ip sub c -> Mail b now from opts (c_session c) = (s, e) ->
  session_inv ip sub (mkConn s (c_from c || accepted e) (c_rcpts c) (c_didAuth c) (c_start c) now).
Proof.
  intros Hn Hi%(session_inv_later ip sub c now Hn) E. destruct (mail_cases _ _ _ _ _ _ E) as (f&spf&size&ret&envid&->&Hcase).
  destruct Hi as [? ? Hclk Hauth Hl Hf Hno He ? ?]; cbn in *. constructor; cbn; try done.
  - intros Hc Hs. destruct e as [e|]; cbn in *; [subst f; rewrite orb_false_r in Hc; auto|].
    destruct Hcase as [-> Hcase]. destruct Hcase as [Ha Hp]; [congruence|]. split; [done|].
    destruct (checkSendAs_ok _ _ _ Hp) as (can&Hcan&Hyes). exists can, now. split_and!; [done|lia..|done].
  - intros Hc. apply orb_false_iff in Hc as [Hc _]. auto.
Qed.

(** ** RCPT *)

Inductive rcpt_outcome now to s w : Session * World * option SMTPError -> Prop :=
  | rcpt_refused w' e : w_events w' = w_events w -> rcpt_outcome now to s w (s, w', Some e)
  | rcpt_local w' d : w_events w' = w_events w -> local_rcpt now now to -> rcpt_outcome now to s w (addLocal to d s, w', None)
  | rcpt_external w' d : w_events w' = w_events w -> external_rcpt now now to -> ss_authed s = true -> rcpt_outcome now to s w (addExternal to d s, w', None).
Lemma rcpt_cases now to opts s w : rcpt_outcome now to s w (Rcpt b now to opts s w).
Proof.
  unfold Rcpt. destruct (rcptDSNFrom opts) as [d|e]; [|by constructor]. destruct (check_live b now s); [by constructor|].
  destruct (rcptSRS b to d s) as [[s1 r]|] eqn:Hsrs.
  { unfold rcptSRS in Hsrs. destruct (b_srs b) as [reverse|] eqn:Er; [|done]. destruct (negb _ && _); [done|].
    destruct (CutLast _ _) as [[l dm]|]; [|done]. destruct (_ || _); [done|]. injection Hsrs as E.
    destruct (String.eqb (ss_from s) "" && is_ok (reverse (bare_rcpt to))) eqn:Hc; injection E as <- <-; [|by constructor].
    apply rcpt_local; [done|]. right; left. left. apply andb_prop in Hc as [_ ?]. eauto. }
  destruct (b_resolver b) as [resolve|] eqn:Hr; [|apply rcpt_local; [done|by left]].
  destruct (rcptNoRelay b to d s) as [[s1 r]|] eqn:Hnr.
  { unfold rcptNoRelay in Hnr. destruct (CutLast _ _) as [[l dm]|] eqn:Hcut; [|done]. destruct (_ || _) eqn:Hc; [done|]. injection Hnr as E.
    destruct (String.eqb (ss_from s) ""); injection E as <- <-; [|by constructor].
    apply rcpt_local; [done|]. right; left. right. exists l, dm. rewrite !orb_false_iff, !negb_false_iff in Hc. tauto. }
  destruct (resolve now to) as [user|e] eqn:Hres.
  { destruct (over_quota b now user s); [by constructor|]. apply rcpt_local; [done|]. right; right. exists resolve, now, user. split_and!; [done|lia..|done]. }
  destruct (errors_is e ErrRecipientUnavailable) eqn:Hun; [by constructor|]. destruct (on_hosted_domain b to) eqn:Hh; [by constructor|].
  destruct (ss_authed s) eqn:Ha; [cbn [negb]|by constructor].
  destruct (match w_rcpts w with Some _ => _ | None => _ end) as [w1 over] eqn:Hw.
  assert (w_events w1 = w_events w) as Hev.
  { destruct (w_rcpts w) as [rl|]; [|by injection Hw as <- _]. destruct (_ && _); [|by injection Hw as <- _].
    destruct (Outbound.Remaining _ _ _). by injection Hw as <- _. }
  destruct over; [by constructor|]. apply rcpt_external; [done| |done]. split; [done|]. exists resolve, now, e. split_and!; [done|lia..|done|done].
Qed.
Lemma inv_rcpt ip sub c now to opts w s w' e n :
  c_now c <= now -> c_from c = true -> session_inv ip sub c -> Rcpt b now to opts (c_session c) w = (s, w', e) ->
  session_inv ip sub (mkConn s true n (c_didAuth c) (c_start c) now).
Proof.
  intros Hn Hfrom Hi%(session_inv_later ip sub c now Hn) E. pose proof (rcpt_cases now to opts (c_session c) w) as Ho. rewrite E in Ho.
  destruct Hi as [? ? Hclk ? ? Hf ? Hext Hloc [Hdl Hde]]; cbn in *.
  assert (forall t, c_start c <= t <= now -> local_rcpt t t to -> local_rcpt (c_start c) now to) as Hlw.
  { intros t ? [?|[?|(r&x&u&?&?&?)]]; [by left|by right; left|]. right; right. exists r, x, u. split_and!; [done|lia..|done]. }
  assert (external_rcpt now now to -> external_rcpt (c_start c) now to) as Hew.
  { intros (?&r&x&e'&?&?&?&?). split; [done|]. exists r, x, e'. split_and!; [done|lia..|done|done]. }
  inversion Ho as [w1 e1 Hev|w1 d Hev Hl|w1 d Hev Hl Ha]; subst; clear Ho; constructor; cbn; try done; try (intros; by apply Hf).
  - intros t [?| ->%list_elem_of_singleton]%elem_of_app; [auto|]. apply (Hlw now); [lia|done].
  - rewrite !length_app. cbn. lia.
  - intros t [?| ->%list_elem_of_singleton]%elem_of_app; [auto|]. auto.
  - rewrite !length_app. cbn. lia.
Qed.

(** ** DATA *)

Lemma rate_checks_events now s w : w_events (rate_checks now s w).1 = w_events w.
Proof.
  unfold rate_checks. destruct (match ss_remoteIP s with Some _ => _ | None => _ end) as [w1 e] eqn:E1.
  assert (w_events w1 = w_events w) as <-.
  { destruct (ss_remoteIP s); [|by injection E1 as <- _]. destruct (w_inbound w); [|by injection E1 as <- _].
    destruct (negb _); [|by injection E1 as <- _]. destruct (Inbound.Allow _ _ _). by injection E1 as <- _. }
  destruct e; [done|]. destruct (w_outbound w1); [|done]. destruct (_ && _); [|done]. by destruct (Inbound.Allow _ _ _).
Qed.
Lemma budget_check_events now s w : w_events (budget_check now s w).1 = w_events w.
Proof. unfold budget_check. destruct (w_rcpts w); [|done]. destruct (_ && _); [|done]. by destruct (Outbound.AllowN _ _ _ _). Qed.

Lemma check_froms_ok now s can addrs : b_policy b = Some can -> check_froms b now s addrs = None ->
  forall a, a ∈ addrs -> can now (ss_userID s) (ma_Address a) = Ok true.
Proof.
  intros Hcan. induction addrs as [|a addrs IH]; cbn [check_froms]; [by intros _ ? ?%elem_of_nil|].
  destruct (checkSendAs b now s (ma_Address a)) eqn:Hs; [done|]. intros Hrest x [->|Hin]%elem_of_cons; [|auto].
  destruct (checkSendAs_ok _ _ _ Hs) as (can'&?&?). congruence.
Qed.
Lemma header_from_checked now s r : checkSubmissionHeaderFrom b now s r = None -> owns_header_from now (ss_userID s) r.1.
Proof.
  unfold checkSubmissionHeaderFrom, owns_header_from. destruct (header_block _) as [hdr found]. cbn [fst].
  destruct (_ <? _); [done|]. destruct (if found then None else r.2) as [[]|]; [done..|].
  destruct (from_values _) as [[|v [|]]|]; try done. destruct (ParseAddressList v) as [[|a l]|] eqn:Hp; try done.
  intros Hc. destruct (check_froms b now s (a :: l)) eqn:Hf; [done|]. pose proof Hf as Hf'. cbn [check_froms] in Hf'.
  destruct (checkSendAs b now s (ma_Address a)) eqn:Hs; [done|]. destruct (checkSendAs_ok _ _ _ Hs) as (can&Hcan&_).
  exists v, (a :: l), can. split_and!; try done. by apply check_froms_ok.
Qed.

Lemma local_envelopes_spec now from hash meta n rcpts dsns :
  Forall (fun env => exists to, to ∈ rcpts /\ qe_Recipients env = [to] /\ qe_SourceIp env = im_SourceIP meta /\
    qe_Trusted env = im_Trusted meta /\ qe_AuthUserId env = im_AuthUserID meta) (local_envelopes now from hash meta n rcpts dsns).
Proof.
  revert n dsns. induction rcpts as [|to rcpts IH]; intros n dsns; cbn [local_envelopes]; [constructor|]. constructor.
  - exists to. split_and!; [by left|done..].
  - eapply Forall_impl; [apply IH|]. intros env (x&?&?). exists x. split; [by right|done].
Qed.

(** What the session of a transaction vouches for when DATA begins. *)
Lemma data_login ip sub c : session_inv ip sub c -> check_live b (c_now c) (c_session c) = None -> ss_authed (c_session c) = true ->
  sub = true /\ exists epoch app, logged_in (c_start c) (c_now c) (ss_userID (c_session c)) epoch app /\ still_live (c_now c) (ss_userID (c_session c)) epoch app.
Proof.
  intros Hi Hc Ha. destruct (si_login _ _ _ Hi Ha) as [Hsub Hl]. split; [done|]. do 2 eexists. split; [exact Hl|].
  apply check_live_ok; [done|]. unfold guarded. by rewrite (si_sub _ _ _ Hi), Hsub, Ha.
Qed.
Lemma spooled_ok ip sub c hash n : session_inv ip sub c -> check_live b (c_now c) (c_session c) = None ->
  Forall (envelope_ok ip sub (c_start c) (c_now c))
    (local_envelopes (c_now c) (ss_from (c_session c)) hash (inboundMeta b (c_session c)) n (ss_localRcpts (c_session c)) (im_DSNRcpts (inboundMeta b (c_session c)))).
Proof.
  intros Hi Hc. eapply Forall_impl; [apply local_envelopes_spec|]. intros env (to&Hto&Hr&Hip&Htr&Hu).
  unfold inboundMeta in *. cbn [im_SourceIP im_Trusted im_AuthUserID] in *. unfold ip_string in *. rewrite (si_ip _ _ _ Hi) in *. split; [|split; [done|]].
  { exists to. split; [done|]. by apply (si_local _ _ _ Hi). }
  rewrite Hu, Htr. pose proof (data_login ip sub c Hi Hc) as Hl. destruct (ss_authed (c_session c)); [|split; [done|by left]].
  split; [auto|]. right. auto.
Qed.
Lemma relayed_ok ip sub c content hash id : session_inv ip sub c -> c_from c = true -> check_live b (c_now c) (c_session c) = None ->
  ss_externalRcpts (c_session c) <> [] ->
  (guarded (c_session c) = true -> owns_header_from (c_now c) (ss_userID (c_session c)) content) ->
  (exists s (bs bs' : B), blob_Put (trace_prefix b (c_now c) s +:+ content) bs = (bs', Ok hash)) ->
  relay_ok sub (c_start c) (c_now c) (relay_message (c_session c) id hash) content.
Proof.
  intros Hi Hfrom Hc Hne Hh Hblob. assert (ss_authed (c_session c) = true) as Ha.
  { destruct (ss_externalRcpts (c_session c)) as [|to l] eqn:E; [done|]. apply (si_ext _ _ _ Hi to). rewrite E. by left. }
  destruct (data_login _ _ _ Hi Hc Ha) as [Hsub Hl]. destruct (si_from _ _ _ Hi Hfrom Hsub) as [_ Hs].
  split_and!; cbn; try done.
  - apply Hh. unfold guarded. by rewrite (si_sub _ _ _ Hi), Hsub, Ha.
  - intros to Hto. by apply (si_ext _ _ _ Hi).
Qed.

Lemma hand_over_events ip sub c r w : session_inv ip sub c -> c_from c = true -> check_live b (c_now c) (c_session c) = None ->
  (guarded (c_session c) = true -> owns_header_from (c_now c) (ss_userID (c_session c)) r.1) ->
  exists evs, w_events (hand_over b (c_now c) (c_session c) r w).1 = w_events w ++ evs /\ Forall (sent_ok ip sub (c_start c)) evs.
Proof.
  intros Hi Hfrom Hc Hh. unfold hand_over. cbv zeta. destruct (b_deliverer b) as [|d|d]; cbn [fst].
  2, 3: by eexists; split; [done|repeat constructor].
  unfold StoreBlob. cbn [fst snd]. destruct (r.2); [exists []; by rewrite app_nil_r|].
  destruct (blob_Put _ (w_blobs w)) as [bs [hash|e]] eqn:Hput; cbn [fst]; [|exists []; by rewrite app_nil_r].
  set (w1 := w_set_stores w _ _ _ _). change (w_events w) with (w_events w1).
  assert (forall w2, exists evs, w_events (relay b (c_now c) (c_session c) r.1 hash w2).1 = w_events w2 ++ evs /\
    (ss_externalRcpts (c_session c) <> [] -> Forall (sent_ok ip sub (c_start c)) evs)) as Hrelay.
  { intros w2. unfold relay. destruct (b_relayQueue b); cbn [negb]; [|exists []; by rewrite app_nil_r].
    destruct (Queue.Enqueue _ _ _) as [db res]. eexists. split; [done|]. intros Hne. constructor; [|constructor]. split; [done|].
    apply (relayed_ok ip sub); try done. by exists (c_session c), (w_blobs w), bs. }
  assert (forall w2, exists evs, w_events (match ss_externalRcpts (c_session c) with [] => (w2, None) | _ => relay b (c_now c) (c_session c) r.1 hash w2 end).1 = w_events w2 ++ evs /\
    Forall (sent_ok ip sub (c_start c)) evs) as Hrest.
  { intros w2. destruct (Hrelay w2) as (evs&E&Hok). destruct (ss_externalRcpts (c_session c)); [exists []; by rewrite app_nil_r|]. exists evs. split; [done|]. by apply Hok. }
  clear Hrelay. destruct (ss_localRcpts (c_session c)) as [|to l] eqn:Hloc; [apply (Hrest w1)|].
  unfold EnqueueLocal. rewrite <- Hloc. set (envs := local_envelopes _ _ _ _ _ _ _).
  assert (forall ok, sent_ok ip sub (c_start c) (EvSpool (c_now c) envs ok)) as Henvs.
  { intros ok. split; [done|]. split; [unfold envs; by rewrite Hloc|]. by apply spooled_ok. }
  destruct (EnqueueAll envs (w_spool w1)) as [sp res]. destruct res as [[]|e]; cbn [wrapf is_ok].
  - destruct (Hrest (w_say (w_set_stores w1 (w_db w1) (w_blobs w1) sp (w_uuid w1 + length (ss_localRcpts (c_session c)))) (EvSpool (c_now c) envs true))) as (evs&E&Hok).
    exists (EvSpool (c_now c) envs true :: evs). rewrite E. cbn [w_say w_events]. rewrite <- app_assoc. split; [done|]. by constructor.
  - eexists. split; [done|]. by constructor.
Qed.
Lemma data_events ip sub c now r w w' e :
  c_now c <= now -> c_from c = true -> session_inv ip sub c -> Data b now r (c_session c) w = (w', e) ->
  exists evs, w_events w' = w_events w ++ evs /\ Forall (sent_ok ip sub (c_start c)) evs.
Proof.
  intros Hn Hfrom Hi%(session_inv_later ip sub c now Hn) E. revert E. unfold Data.
  assert (forall w1, w_events w1 = w_events w -> w1 = w' -> exists evs, w_events w' = w_events w ++ evs /\ Forall (sent_ok ip sub (c_start c)) evs) as Hsame.
  { intros w1 E <-. exists []. by rewrite E, app_nil_r. }
  destruct (_ =? 0)%nat; [intros [= E _]; by apply (Hsame w)|]. destruct (check_live b now (c_session c)) eqn:Hc; [intros [= E _]; by apply (Hsame w)|].
  pose proof (rate_checks_events now (c_session c) w) as E1. destruct (rate_checks now (c_session c) w) as [w1 [x|]]; cbn in E1; [intros [= E _]; by apply (Hsame w1)|].
  destruct (if guarded (c_session c) then _ else _) eqn:Hh; [intros [= E _]; by apply (Hsame w1)|].
  pose proof (budget_check_events now (c_session c) w1) as E2. destruct (budget_check now (c_session c) w1) as [w2 [x|]]; cbn in E2; [intros [= E _]; apply (Hsame w2); congruence|].
  intros E. destruct (hand_over_events ip sub _ (limited (c_session c) r) w2 Hi Hfrom Hc) as (evs&Ev&Hok).
  { cbn. intros Hg. rewrite Hg in Hh. by apply header_from_checked. }
  cbn [c_session c_now c_start] in Ev, Hok. rewrite E in Ev. cbn [fst] in Ev. exists evs. split; [|done]. congruence.
Qed.

(** ** The whole connection *)

Definition tries w : Z := Z.of_nat (length (List.filter is_try (w_events w))).
Record run_inv (ip : option string) (submission : bool) (start : Z) (cw : Conn * World) : Prop := {
  ri_start : c_start cw.1 = start;
  ri_session : session_inv ip submission cw.1;
  ri_events : Forall (event_ok ip submission start) (w_events cw.2);
  ri_tries : 0 <= tries cw.2 <= maxAuthFailures /\ (c_didAuth cw.1 = false -> ss_authFailures (c_session cw.1) = tries cw.2);
}.
Lemma tries_app w w' evs : w_events w' = w_events w ++ evs -> tries w' = tries w + Z.of_nat (length (List.filter is_try evs)).
Proof. unfold tries. intros ->. rewrite List.filter_app, length_app. lia. Qed.
Lemma tries_same w w' : w_events w' = w_events w -> tries w' = tries w.
Proof. unfold tries. by intros ->. Qed.
Lemma tries_sent ip sub start w w' evs : w_events w' = w_events w ++ evs -> Forall (sent_ok ip sub start) evs -> tries w' = tries w.
Proof.
  intros E Hok. rewrite (tries_app _ _ _ E). replace (List.filter is_try evs) with (@nil smtp_event); [cbn; lia|].
  clear E. induction Hok as [|e evs [He _] _ IH]; cbn; [done|]. by rewrite He.
Qed.

Lemma run_step_auth ip sub start c w now mech username password s w' e :
  c_now c <= now -> c_didAuth c = false -> Auth_cmd b now mech username password (c_session c) w = (s, w', e) -> run_inv ip sub start (c, w) ->
  run_inv ip sub start (mkConn s (c_from c) (c_rcpts c) (accepted e) (c_start c) now, w').
Proof.
  intros Hn Hd E [Hs Hi Hev [Ht Hfail]]. cbn [fst snd] in *. specialize (Hfail Hd).
  pose proof (auth_cases now mech username password (c_session c) w) as Ho. rewrite E in Ho.
  pose proof (inv_auth _ _ _ _ _ _ _ _ _ _ _ Hn Hd Hi E) as Hi'.
  inversion Ho as [w1 e1 Hw|w1 e1 Hlt Hw|w1 prof user app Hlt Hw ? ? ?]; subst; constructor; cbn [fst snd c_start c_didAuth c_session] in *; try done;
    try (rewrite Hw; done || (apply Forall_app; split; [done|by repeat constructor])).
  - rewrite (tries_same _ _ Hw). done.
  - rewrite (tries_app _ _ _ Hw). cbn. split; [lia|]. lia.
  - rewrite (tries_app _ _ _ Hw). cbn. split; [lia|done].
Qed.
Lemma run_step ip sub start cw cw' : smtp_step cw cw' -> run_inv ip sub start cw -> run_inv ip sub start cw'.
Proof.
  intros Hstep Hinv. destruct Hstep as
    [c w now mech u p s w' e Hn Hd E|c w now from opts s e Hn E|c w now to opts s w' e Hn Hf E|c w now r w' e Hn Hf Hr E|c w|c w w' now Hn Hw].
  { by eapply run_step_auth. }
  all: destruct Hinv as [Hs Hi Hev [Ht Hfail]]; cbn [fst snd] in *.
  - pose proof (inv_mail _ _ _ _ _ _ _ _ Hn Hi E) as Hi'. destruct (mail_cases _ _ _ _ _ _ E) as (f&spf&size&ret&envid&->&_). by constructor.
  - pose proof (rcpt_cases now to opts (c_session c) w) as Ho. rewrite E in Ho.
    pose proof (inv_rcpt _ _ _ _ _ _ _ _ _ _ (if accepted e then S (c_rcpts c) else c_rcpts c) Hn Hf Hi E) as Hi'.
    inversion Ho as [w1 e1 Hw|w1 d Hw Hl|w1 d Hw Hl Ha]; subst; constructor; cbn [fst snd c_start c_didAuth c_session] in *; try done;
      by rewrite ?Hw, ?(tries_same _ _ Hw).
  - destruct (data_events _ _ _ _ _ _ _ _ Hn Hf Hi E) as (evs&Hw&Hok). constructor; cbn [fst snd c_start c_didAuth c_session]; [done|by apply session_inv_reset|..].
    + rewrite Hw, <- Hs. apply Forall_app. rewrite Hs at 1. split; [done|]. eapply Forall_impl; [exact Hok|]. by intros ? [_ ?].
    + by rewrite (tries_sent _ _ _ _ _ _ Hw Hok).
  - constructor; cbn; try done. apply session_inv_reset; [lia|done].
  - constructor; cbn [fst snd c_start c_didAuth c_session]; [done|by apply session_inv_later|by rewrite Hw|by rewrite (tries_same _ _ Hw)].
Qed.
Lemma run_invariant ip sub start c w : smtp_run ip sub start c w -> run_inv ip sub start (c, w).
Proof.
  intros (w0&E0&Hr). assert (run_inv ip sub start (connect ip sub start, w0)) as H0'.
  { constructor; cbn [fst snd connect c_start]; [done| |by rewrite E0|unfold tries, maxAuthFailures; rewrite E0; cbn; lia].
    constructor; cbn; try done; try lia; by intros ? ?%elem_of_nil. }
  revert H0'. remember (connect ip sub start, w0) as cw0 eqn:E. clear E. remember (c, w) as cw eqn:E. clear E.
  induction Hr; [done|]. intros. apply IHHr. by eapply run_step.
Qed.

(** ** Commands *)

Inductive command :=
  | CAuth (mech username password : string)
  | CMail (from : string) (opts : option MailOptions)
  | CRcpt (to : string) (opts : option RcptOptions)
  | CData (r : body)
  | CReset.
(** One command; [None] where go-smtp does not take it. *)
Definition run_cmd (now : Z) (cmd : command) (cw : Conn * World) : option (Conn * World) :=
  let (c, w) := cw in
  if now <? c_now c then None else
  match cmd with
  | CAuth mech username password =>
      if c_didAuth c then None else
      let '(s, w', e) := Auth_cmd b now mech username password (c_session c) w in
      Some (mkConn s (c_from c) (c_rcpts c) (accepted e) (c_start c) now, w')
  | CMail from opts =>
      let '(s, e) := Mail b now from opts (c_session c) in
      Some (mkConn s (c_from c || accepted e) (c_rcpts c) (c_didAuth c) (c_start c) now, w)
  | CRcpt to opts =>
      if c_from c then
        let '(s, w', e) := Rcpt b now to opts (c_session c) w in
        Some (mkConn s true (if accepted e then S (c_rcpts c) else c_rcpts c) (c_didAuth c) (c_start c) now, w')
      else None
  | CData r =>
      if c_from c && (0 <? c_rcpts c)%nat then
        let '(w', e) := Data b now r (c_session c) w in
        Some (mkConn (Reset (c_session c)) false 0 (c_didAuth c) (c_start c) now, w')
      else None
  | CReset => Some (mkConn (Reset (c_session c)) false 0 (c_didAuth c) (c_start c) (c_now c), w)
  end.
Fixpoint run_cmds (cmds : list (Z * command)) (cw : Conn * World) : option (Conn * World) :=
  match cmds with
  | [] => Some cw
  | (now, cmd) :: cmds => cw' ← run_cmd now cmd cw; run_cmds cmds cw'
  end.
Lemma run_cmd_step now cmd cw cw' : run_cmd now cmd cw = Some cw' -> smtp_step cw cw'.
Proof.
  destruct cw as [c w]. unfold run_cmd. destruct (Z.ltb_spec now (c_now c)) as [|Hn]; [done|]. destruct cmd as [mech u p|from opts|to opts|r|].
  - destruct (c_didAuth c) eqn:Hd; [done|]. destruct (Auth_cmd _ _ _ _ _ _ _) as [[s w'] e] eqn:E. intros [= <-]. by eapply step_auth.
  - destruct (Mail _ _ _ _ _) as [s e] eqn:E. intros [= <-]. by eapply step_mail.
  - destruct (c_from c) eqn:Hf; [|done]. destruct (Rcpt _ _ _ _ _ _) as [[s w'] e] eqn:E. intros [= <-]. by eapply step_rcpt.
  - destruct (c_from c) eqn:Hf; [|done]. destruct (Nat.ltb_spec 0 (c_rcpts c)); [|done]. cbn [andb].
    destruct (Data _ _ _ _ _) as [w' e] eqn:E. intros [= <-]. by eapply step_data.
  - intros [= <-]. apply step_reset.
Qed.
Lemma run_cmds_reach cmds cw cw' : run_cmds cmds cw = Some cw' -> rtc smtp_step cw cw'.
Proof.
  revert cw. induction cmds as [|[now cmd] cmds IH]; intros cw; cbn [run_cmds]; [by intros [= <-]; constructor|].
  destruct (run_cmd now cmd cw) as [cw1|] eqn:E; [|done]. cbn. intros Hr. eapply rtc_l; [by eapply run_cmd_step|auto].
Qed.

(** C2: no open relay.  Whatever a client sends, and whatever happens meanwhile, a
    message is put in the outbound queue only on a submission session, for a
    user who logged in on it and whose account and credential are still good,
    under an envelope sender that user may send as, with every address of its
    one From field the user's to use, to recipients that are not this server's,
    and its content is the one that was checked. *)
Theorem no_open_relay ip submission start c w at_ msg content ok :
  smtp_run ip submission start c w -> EvRelay at_ msg content ok ∈ w_events w -> relay_ok submission start at_ msg content.
Proof. intros Hr Hin. pose proof (ri_events _ _ _ _ (run_invariant _ _ _ _ _ Hr)) as Hev. rewrite Forall_forall in Hev. exact (Hev _ Hin). Qed.

(** C15: mail for local users.  An envelope a session spools is for one recipient
    the session accepted, carries the address it came from, names a user only
    where that user logged in on a submission session and is still good, and is
    marked trusted only then or for a source the operator trusts. *)
Theorem local_mail_vouched ip submission start c w at_ envs ok env :
  smtp_run ip submission start c w -> EvSpool at_ envs ok ∈ w_events w -> env ∈ envs -> envelope_ok ip submission start at_ env.
Proof.
  intros Hr Hin Henv. pose proof (ri_events _ _ _ _ (run_invariant _ _ _ _ _ Hr)) as Hev. rewrite Forall_forall in Hev.
  destruct (Hev _ Hin) as [_ Hall]. rewrite Forall_forall in Hall. exact (Hall _ Henv).
Qed.

(** A connection puts at most five guesses at a password to the
    authenticator, successful ones included. *)
Theorem auth_attempts_bounded ip submission start c w :
  smtp_run ip submission start c w -> tries w <= maxAuthFailures.
Proof. intros Hr. destruct (ri_tries _ _ _ _ (run_invariant _ _ _ _ _ Hr)) as [[_ ?] _]. done. Qed.
End Conn.

(** * Evaluation *)

Section Demo.
#[local] Existing Instances bytewise_unicode plain_raft.
#[local] Instance demo_netmail_s : NetMail := {|
  ParseAddress s := Ok (mkMailAddress "" s); ParseAddressList s := Ok [mkMailAddress "" s]; address_String a := ma_Address a |}.
#[local] Instance demo_ext_s : DeliverExt := {|
  ReadEnvelope _ := Err (Errorf "no parser"); ParseDate _ := None; VerifyDKIM _ := ("none", "");
  from_values s := if HasPrefix s "From: ann@x.org" then Ok ["ann@x.org"] else Ok [];
  ReadMIMEHeader _ := None; DecodeHeader s := Ok s; qp_encode s := s; FormatRFC1123Z _ := "now";
  uuid n := FormatInt (Z.of_nat n); hex_sha256 s := s; sha256_hex_checked _ := true |}.
#[local] Instance demo_sha_s : Sha256 := {| sha256_sum s := be_put 32 (len s); sha256_length s := be_put_length 32 _ |}.
#[local] Instance demo_blobs_s : BlobOps (gmap string string) := {|
  blob_Put d b := (<[d := d]> b, Ok d); blob_Exists b k := bool_decide (is_Some (b !! k)); blob_Get b k := of_option ErrNotFound (b !! k) |}.
#[local] Instance demo_out_s : Codec OutboundMessage := {| marshal m := Ok (om_Id m); unmarshal _ := Err (Errorf "not read back") |}.
#[local] Instance demo_env_s : Codec QueueEnvelope := {| marshal m := Ok (qe_Id m); unmarshal _ := Err (Errorf "not read back") |}.

Definition demo_profile_s : UserProfile := mkProfile "ann@x.org" "" "hash" "" 0 false false [] false 0 0 "" 0 "" false.
(** ann and bob are users of x.org; ann's password is "secret". *)
Definition demo_backend : Backend := {|
  b_auth _ username password := if String.eqb username "ann" && String.eqb password "secret" then Ok ("u1", Some demo_profile_s, "") else Err ErrBadCredentials;
  b_state := Some (fun _ _ _ => Ok (mkAccountState false false (ProtocolEpoch demo_profile_s) false));
  b_deliverer := SplitDeliverer; b_spf := None;
  b_resolver := Some (fun _ to => if String.eqb to "ann@x.org" then Ok "u1" else if String.eqb to "bob@x.org" then Ok "u2" else Err (Errorf "no such user"));
  b_quota := None; b_storageLow _ := false; b_relayQueue := true;
  b_policy := Some (fun _ u a => Ok (String.eqb u "u1" && String.eqb a "ann@x.org"));
  b_srs := None; b_srsAllDomains := false; b_hostedDomain := Some (fun d => String.eqb d "x.org"); b_hostname := "mx.x.org";
  b_ParseIP _ := true; b_trustedNets := [] |}.
Definition demo_world : World := mkWorld (mem_of []) (∅ : gmap string string) (mkSpool ∅ 0 (fun _ => None)) (Auth.New 5 900) None None None 0 [].
Definition demo_content : string := "From: ann@x.org" +:+ sCRLF +:+ sCRLF +:+ "hi".
Definition demo_cmds : list (Z * command) :=
  [(1, CAuth "PLAIN" "ann" "guess"); (2, CAuth "PLAIN" "ann" "secret"); (3, CMail "ann@x.org" None); (4, CRcpt "bob@x.org" None);
   (5, CRcpt "eve@y.org" None); (6, CRcpt "nobody@x.org" None); (7, CData (demo_content, None)); (8, CMail "eve@y.org" None)].
Definition demo_end : option (Conn * World) := run_cmds demo_backend demo_cmds (connect (Some "192.0.2.1") true 0, demo_world).
Definition demo_conn : Conn := default (connect None true 0) (fst <$> demo_end).
Definition demo_world' : World := default demo_world (snd <$> demo_end).
Lemma opt_pair_split {A C} (o : option (A * C)) a c : negb (accepted o) = true -> o = Some (default a (fst <$> o), default c (snd <$> o)).
Proof. by destruct o as [[]|]. Qed.
Lemma demo_smtp_run : smtp_run demo_backend (Some "192.0.2.1") true 0 demo_conn demo_world'.
Proof.
  exists demo_world. split; [done|]. apply (run_cmds_reach demo_backend demo_cmds).
  apply (opt_pair_split demo_end (connect None true 0) demo_world). vm_compute. reflexivity.
Qed.
Definition demo_relayed : OutboundMessage := default (mkOut "" "" "" [] "" 0 0 0 STATUS_UNSPECIFIED "" [] "" [] [] ORIGIN_LOCAL false "" "" [] false)
  (head (omap (fun e => match e with EvRelay _ m _ _ => Some m | _ => None end) (w_events demo_world'))).
Definition demo_spooled : list QueueEnvelope :=
  default [] (head (omap (fun e => match e with EvSpool _ l _ => Some l | _ => None end) (w_events demo_world'))).

Lemma no_open_relay_witness :
  om_Recipients demo_relayed = ["eve@y.org"] /\ relay_ok (B := gmap string string) demo_backend true 0 7 demo_relayed demo_content.
Proof.
  split; [vm_compute; reflexivity|].
  apply (no_open_relay demo_backend (Some "192.0.2.1") true 0 demo_conn demo_world' 7 demo_relayed demo_content true demo_smtp_run).
  vm_compute. right. right. right. left.
Defined.
Lemma local_mail_vouched_witness :
  exists env, qe_Recipients env = ["bob@x.org"] /\ qe_AuthUserId env = "u1" /\ envelope_ok demo_backend (Some "192.0.2.1") true 0 7 env.
Proof.
  destruct demo_spooled as [|env l] eqn:E; [vm_compute in E; discriminate E|].
  exists (default env (head demo_spooled)). split; [vm_compute; reflexivity|]. split; [vm_compute; reflexivity|].
  apply (local_mail_vouched demo_backend (Some "192.0.2.1") true 0 demo_conn demo_world' 7 demo_spooled true _ demo_smtp_run).
  - vm_compute. right. right. left.
  - rewrite E. left.
Defined.
Lemma auth_attempts_bounded_witness : tries demo_world' = 2 /\ tries demo_world' <= 5.
Proof.
  split; [vm_compute; reflexivity|].
  apply (auth_attempts_bounded demo_backend (Some "192.0.2.1") true 0 demo_conn demo_world' demo_smtp_run).
Defined.
Lemma connections_capped_witness : exists l, slots l "192.0.2.1" = 2 /\ 2 <= 2 /\ (2 = 0 <-> pl_n l !! "192.0.2.1" = None).
Proof.
  eexists. apply (connections_capped 2 _ ["192.0.2.1"; "192.0.2.1"] "192.0.2.1"); [reflexivity|].
  eapply rtc_l; [eapply (conn_open 2 "192.0.2.1"); reflexivity|]. eapply rtc_l; [eapply (conn_open 2 "192.0.2.1"); reflexivity|].
  eapply rtc_l; [eapply (conn_refused 2 "192.0.2.1"); reflexivity|]. apply rtc_refl.
Defined.
Lemma declared_size_exact_witness : exists s, ss_declaredSize s = 10 /\
  sized_read_all ["abc"; "de"] None (mkSized (declaredSizeAllowance (ss_declaredSize s)) 0) = limited s (concat_str ["abc"; "de"], None).
Proof.
  exists (set_mail (new_session None false) "" "" 10 "" ""). split; [reflexivity|]. apply declared_size_exact; vm_compute; done.
Defined.
End Demo.
