(* ===== verification/Pop3.v ===== *)
(** The POP3 server's sessions: [internal/pop3/session.go].

    A session is driven by the lines the client sends.  What it shares with the
    rest of the server is explicit: the store, the account service (an
    interface in the source, a record of its two operations here), the login
    limiter and the blob store.  The bytes written are collected; a failed
    write is only logged by the code.  The iteration order of the map of
    deletion marks, the clock and the outcome of a TLS handshake are arguments
    of the line being handled.  [None] is a panic. *)

From S2P Require Import Prelude GoStrings Pebble Proto Mailbox MailboxStore AttSplit RateLimit UserData Credentials Accounts.
From Stdlib Require Import Ascii.

Definition CRLF : string := String CR (String LF "").
Definition is_crlf (c : ascii) : bool := Ascii.eqb c CR || Ascii.eqb c LF.

Record popMsg := mkPop { pm_uid : Z; pm_guid : string; pm_blobHash : string; pm_size : Z; pm_meta : MailMeta }.

(** The fields a session changes; [se_deleted] are the keys of the map. *)
Record session := mkSession {
  se_isTLS : bool; se_username : string; se_authenticated : bool; se_userID : string; se_epoch : string;
  se_appPassword : string; se_messages : list popMsg; se_deleted : gset Z }.
(** The fields fixed when the connection is accepted. *)
Record popConfig := mkPopConfig { pc_hasTLS : bool; pc_isDev : bool; pc_clientIP : string }.

Definition pop3MaxAuthFailures : Z := 5.
Definition pop3AuthFailWindow : Z := 15 * Minute.

Definition newSession (isTLS : bool) : session := mkSession isTLS "" false "" "" "" [] ∅.
Definition set_username (s : session) (name : string) : session :=
  mkSession (se_isTLS s) name (se_authenticated s) (se_userID s) (se_epoch s) (se_appPassword s) (se_messages s) (se_deleted s).
Definition set_deleted (s : session) (d : gset Z) : session :=
  mkSession (se_isTLS s) (se_username s) (se_authenticated s) (se_userID s) (se_epoch s) (se_appPassword s) (se_messages s) d.
Definition set_tls (s : session) : session :=
  mkSession true (se_username s) (se_authenticated s) (se_userID s) (se_epoch s) (se_appPassword s) (se_messages s) (se_deleted s).

(** * Byte stuffing *)

(** The loop of [writeByteStuffed]: the bytes written before the final dot. *)
Fixpoint stuff_lines (bodyLines : Z) (inBody : bool) (bodyCount : Z) (lines : list string) : string :=
  match lines with
  | [] => ""
  | line :: rest =>
      let line := trim_right (fun c => Ascii.eqb c CR) line in
      if negb inBody && String.eqb line "" then CRLF +:+ stuff_lines bodyLines true bodyCount rest
      else if inBody && (0 <=? bodyLines) && (bodyLines <=? bodyCount) then ""
      else (if HasPrefix line "." then "." else "") +:+ line +:+ CRLF
           +:+ stuff_lines bodyLines inBody (if inBody && (0 <=? bodyLines) then bodyCount + 1 else bodyCount) rest
  end.
Definition byteStuffed (data : string) (bodyLines : Z) : string :=
  stuff_lines bodyLines false 0 (Split (trim_right is_crlf data) (String LF "")) +:+ "." +:+ CRLF.

(** * The session *)

Record authenticator (DB A : Type) := mkAuthenticator {
  authn_protocol : DB -> Z -> string -> string -> GoM A (string * option UserProfile * string);
  authn_state : DB -> string -> string -> result AccountState }.
Arguments authn_protocol {DB A} _ _ _ _ _.
Arguments authn_state {DB A} _ _ _ _.

(** [LocalAuth] as the session's authenticator. *)
Definition local_authenticator {DB : Type} `{PebbleDB DB} `{CredCodecs} `{Codec UserProfile} `{Bcrypt} `{Sha256} `{GoUnicode}
  (a : LocalAuth) : authenticator DB AuthState :=
  mkAuthenticator DB AuthState
    (fun db now username password =>
       let! (userID, profile, id) := AuthenticateProtocol a db now username password in gret (userID, Some profile, id))
    (ReadAccountState a).

Record PopState (DB A : Type) := mkPopState {
  po_session : session; po_db : DB; po_auth : A; po_limiter : option Auth.Limiter; po_out : string }.
Arguments mkPopState {DB A} _ _ _ _ _.
Arguments po_session {DB A} _.
Arguments po_db {DB A} _.
Arguments po_auth {DB A} _.
Arguments po_limiter {DB A} _.
Arguments po_out {DB A} _.

Inductive popOutcome (P : Type) := Serving (w : P) | Closed (w : P).
Arguments Serving {P} _.
Arguments Closed {P} _.
Definition outcome_state {P} (o : popOutcome P) : P := match o with Serving w | Closed w => w end.

Section Session.
Context {DB A B : Type} `{PebbleDB DB} `{MailCodecs} `{GoUnicode} `{RaftApplier DB} `{BlobOps B} `{MimeHeaders} `{Sha256}.
Notation W := (PopState DB A).
Implicit Types (w : PopState DB A) (s : session).

Definition with_session w (s : session) : W := mkPopState s (po_db w) (po_auth w) (po_limiter w) (po_out w).
Definition writeString w (value : string) : W :=
  mkPopState (po_session w) (po_db w) (po_auth w) (po_limiter w) (po_out w +:+ value).
Definition respond w (msg : string) : W := writeString w (msg +:+ CRLF).

Definition parseCommand (line : string) : string * string :=
  match SplitN line " " 2 with
  | cmd :: args :: _ => (cmd, args)
  | [cmd] => (cmd, "")
  | [] => ("", "")
  end.

Definition activeStats s : Z * Z :=
  foldl (fun '(count, size) '(i, m) => if decide (i + 1 ∈ se_deleted s) then (count, size) else (count + 1, i64 (size + pm_size m)))
    (0, 0) (imap (fun i m => (Z.of_nat i, m)) (se_messages s)).

(** Messages whose record cannot be read or has no blob are left out. *)
Fixpoint snapshot_of (db : DB) (userID : string) (msgs : list MailboxMessage) : list popMsg :=
  match msgs with
  | [] => []
  | msg :: rest =>
      match result_bind (Get db (mailMetaKey userID (msg_MailGuid msg))) unmarshal with
      | Ok meta => match mm_RawMessage meta with
                   | Some ref => mkPop (msg_Uid msg) (msg_MailGuid msg) (br_Hash ref) (br_Size ref) meta :: snapshot_of db userID rest
                   | None => snapshot_of db userID rest
                   end
      | Err _ => snapshot_of db userID rest
      end
  end.
Definition loadInboxSnapshot (db : DB) (userID : string) : result (list popMsg) :=
  let? msgs := wrapf "listing inbox" (ListMessages db userID "INBOX") in
  Ok (snapshot_of db userID msgs).

(** Failures are logged; [num] outside the snapshot would panic. *)
Fixpoint applyDeletions (order : list Z) (userID : string) (messages : list popMsg) (db : DB) : option DB :=
  match order with
  | [] => Some db
  | num :: rest =>
      if num <? 1 then None else
      match messages !! Z.to_nat (num - 1) with
      | None => None
      | Some msg => applyDeletions rest userID messages (MoveMessage userID "INBOX" (pm_uid msg) "Trash" db).1
      end
  end.

Definition handleQuit (order : list Z) w : option W :=
  let s := po_session w in
  db ← if se_authenticated s then applyDeletions order (se_userID s) (se_messages s) (po_db w) else Some (po_db w);
  Some (respond (mkPopState s db (po_auth w) (po_limiter w) (po_out w)) "+OK bye").

Definition handleCapa (c : popConfig) w : W :=
  let w := writeString w ("+OK capabilities" +:+ CRLF) in
  let w := writeString w ("USER" +:+ CRLF) in
  let w := writeString w ("UIDL" +:+ CRLF) in
  let w := writeString w ("TOP" +:+ CRLF) in
  let w := writeString w ("RESP-CODES" +:+ CRLF) in
  let w := if negb (se_isTLS (po_session w)) && pc_hasTLS c then writeString w ("STLS" +:+ CRLF) else w in
  let w := writeString w ("IMPLEMENTATION bongo" +:+ CRLF) in
  writeString w ("." +:+ CRLF).

Definition handleUser (args : string) w : W :=
  if se_authenticated (po_session w) then respond w "-ERR already authenticated"
  else if String.eqb args "" then respond w "-ERR missing username"
  else respond (with_session w (set_username (po_session w) args)) "+OK".

Definition forget w : W := with_session w (set_username (po_session w) "").
Definition with_limiter w (f : Auth.Limiter -> Auth.Limiter) : W :=
  mkPopState (po_session w) (po_db w) (po_auth w) (f <$> po_limiter w) (po_out w).

(** [authLimiter.Blocked(ip)]. *)
Definition blocked (now : Z) (ip : string) w : W * bool :=
  match po_limiter w with
  | None => (w, false)
  | Some l => let (l', b) := Auth.Blocked now ip l in (mkPopState (po_session w) (po_db w) (po_auth w) (Some l') (po_out w), b)
  end.

Definition handlePass (auth : authenticator DB A) (c : popConfig) (now : Z) (args : string) w : W :=
  let s := po_session w in
  if se_authenticated s then respond w "-ERR already authenticated"
  else if String.eqb (se_username s) "" then respond w "-ERR USER first"
  else if String.eqb args "" then respond w "-ERR missing password"
  else if negb (se_isTLS s) && negb (pc_isDev c) && pc_hasTLS c then respond w "-ERR must issue STLS before authenticating"
  else
  let ip := pc_clientIP c in
  let (w, is_blocked) := blocked now ip w in
  if is_blocked then respond (forget w) "-ERR too many failed attempts, try again later" else
  let (a', r) := authn_protocol auth (po_db w) now (se_username s) args (po_auth w) in
  let w := mkPopState (po_session w) (po_db w) a' (po_limiter w) (po_out w) in
  match r with
  | Err _ =>
      respond (forget (with_limiter w (fun l => (Auth.Fail_ now ip (se_username s) l).1))) "-ERR authentication failed"
  | Ok (userID, profile, appPassword) =>
      let w := if String.eqb appPassword "" then with_limiter w (Auth.Succeed_ now ip (se_username s)) else w in
      match profile with
      | Some p =>
          if up_Disabled p then respond (forget w) "-ERR authentication failed" else
          let s1 authenticated messages :=
            mkSession (se_isTLS s) (se_username s) authenticated userID (ProtocolEpoch p) appPassword messages (se_deleted s) in
          match loadInboxSnapshot (po_db w) userID with
          | Err _ => respond (with_session w (s1 false (se_messages s))) "-ERR failed to load mailbox"
          | Ok messages =>
              respond (with_session w (s1 true messages)) ("+OK " +:+ FormatInt (Z.of_nat (length messages)) +:+ " messages")
          end
      | None => respond (forget w) "-ERR authentication failed"
      end
  end.

(** After the reply the connection speaks TLS, or the handshake has failed and
    nothing changes. *)
Definition handleSTLS (c : popConfig) (handshake : bool) w : W :=
  let s := po_session w in
  if se_isTLS s then respond w "-ERR already using TLS"
  else if negb (pc_hasTLS c) then respond w "-ERR TLS not available"
  else if se_authenticated s then respond w "-ERR STLS not allowed after authentication"
  else let w := respond w "+OK begin TLS negotiation" in
       if handshake then with_session w (set_tls s) else w.

Definition requireAuth (f : W -> option W) w : option W :=
  if se_authenticated (po_session w) then f w else Some (respond w "-ERR not authenticated").

Definition handleStat : W -> option W := requireAuth (fun w =>
  let (count, size) := activeStats (po_session w) in
  Some (respond w ("+OK " +:+ FormatInt count +:+ " " +:+ FormatInt size))).

(** [strconv.Atoi(args)] within the snapshot. *)
Definition message_number s (args : string) : option Z :=
  match ParseInt args with
  | Some num => if (num <? 1) || (Z.of_nat (length (se_messages s)) <? num) then None else Some num
  | None => None
  end.
Definition message_at s (num : Z) : option popMsg := se_messages s !! Z.to_nat (num - 1).

(** One line per message that is not marked, in the form of LIST or UIDL. *)
Definition listing (show : popMsg -> string) s : string :=
  foldl (fun out '(i, m) => if decide (i + 1 ∈ se_deleted s) then out else out +:+ FormatInt (i + 1) +:+ " " +:+ show m +:+ CRLF)
    "" (imap (fun i m => (Z.of_nat i, m)) (se_messages s)).
Definition show_size (m : popMsg) : string := FormatInt (pm_size m).

(** LIST and UIDL for one message. *)
Definition list_one (show : popMsg -> string) (args : string) w : option W :=
  match message_number (po_session w) args with
  | None => Some (respond w "-ERR invalid message number")
  | Some num =>
      if decide (num ∈ se_deleted (po_session w)) then Some (respond w "-ERR message deleted") else
      m ← message_at (po_session w) num;
      Some (respond w ("+OK " +:+ FormatInt num +:+ " " +:+ show m))
  end.
Definition handleList (args : string) : W -> option W := requireAuth (fun w =>
  if negb (String.eqb args "") then list_one show_size args w else
  let (count, size) := activeStats (po_session w) in
  let w := writeString w ("+OK " +:+ FormatInt count +:+ " messages (" +:+ FormatInt size +:+ " octets)" +:+ CRLF) in
  Some (writeString (writeString w (listing show_size (po_session w))) ("." +:+ CRLF))).
Definition handleUidl (args : string) : W -> option W := requireAuth (fun w =>
  if negb (String.eqb args "") then list_one pm_guid args w else
  let w := writeString w ("+OK" +:+ CRLF) in
  Some (writeString (writeString w (listing pm_guid (po_session w))) ("." +:+ CRLF))).

Definition handleRetr (blobs : B) (args : string) : W -> option W := requireAuth (fun w =>
  match message_number (po_session w) args with
  | None => Some (respond w "-ERR invalid message number")
  | Some num =>
      if decide (num ∈ se_deleted (po_session w)) then Some (respond w "-ERR message deleted") else
      m ← message_at (po_session w) num;
      Some match RawMessageBytes blobs (pm_meta m) with
           | Err _ => respond w "-ERR failed to retrieve message"
           | Ok data => writeString (respond w ("+OK " +:+ FormatInt (len data) +:+ " octets")) (byteStuffed data (-1))
           end
  end).

Definition handleTop (blobs : B) (args : string) : W -> option W := requireAuth (fun w =>
  match SplitN args " " 2 with
  | [first; second] =>
      match message_number (po_session w) first with
      | None => Some (respond w "-ERR invalid message number")
      | Some num =>
          if decide (num ∈ se_deleted (po_session w)) then Some (respond w "-ERR message deleted") else
          match ParseInt second with
          | Some n =>
              if n <? 0 then Some (respond w "-ERR invalid line count") else
              m ← message_at (po_session w) num;
              Some match RawMessageBytes blobs (pm_meta m) with
                   | Err _ => respond w "-ERR failed to retrieve message"
                   | Ok data => writeString (respond w "+OK") (byteStuffed data n)
                   end
          | None => Some (respond w "-ERR invalid line count")
          end
      end
  | _ => Some (respond w "-ERR usage: TOP msg n")
  end).

Definition handleDele (args : string) : W -> option W := requireAuth (fun w =>
  Some match message_number (po_session w) args with
       | None => respond w "-ERR invalid message number"
       | Some num =>
           if decide (num ∈ se_deleted (po_session w)) then respond w "-ERR message already deleted" else
           respond (with_session w (set_deleted (po_session w) ({[num]} ∪ se_deleted (po_session w))))
             ("+OK message " +:+ FormatInt num +:+ " deleted")
       end).

Definition handleNoop : W -> option W := requireAuth (fun w => Some (respond w "+OK")).
Definition handleRset : W -> option W := requireAuth (fun w =>
  Some (respond (with_session w (set_deleted (po_session w) ∅)) "+OK")).

Definition accountLive (auth : authenticator DB A) w : result bool :=
  let s := po_session w in
  let? st := authn_state auth (po_db w) (se_userID s) (se_appPassword s) in
  Ok (Live st (se_epoch s)).

Definition dispatch (auth : authenticator DB A) (c : popConfig) (blobs : B) (now : Z) (handshake : bool)
  (cmd args : string) w : option W :=
  if String.eqb cmd "CAPA" then Some (handleCapa c w)
  else if String.eqb cmd "USER" then Some (handleUser args w)
  else if String.eqb cmd "PASS" then Some (handlePass auth c now args w)
  else if String.eqb cmd "STLS" then Some (handleSTLS c handshake w)
  else if String.eqb cmd "STAT" then handleStat w
  else if String.eqb cmd "LIST" then handleList args w
  else if String.eqb cmd "UIDL" then handleUidl args w
  else if String.eqb cmd "RETR" then handleRetr blobs args w
  else if String.eqb cmd "TOP" then handleTop blobs args w
  else if String.eqb cmd "DELE" then handleDele args w
  else if String.eqb cmd "NOOP" then handleNoop w
  else if String.eqb cmd "RSET" then handleRset w
  else Some (respond w "-ERR unknown command").

(** One iteration of the loop of [handle] on a line that was read. *)
Definition handle_line (auth : authenticator DB A) (c : popConfig) (blobs : B) (now : Z) (handshake : bool) (order : list Z)
  (line : string) w : option (popOutcome W) :=
  let line := trim_right is_crlf line in
  if String.eqb line "" then Some (Serving w) else
  let (cmd, args) := parseCommand line in
  let cmd := ToUpper cmd in
  let serve :=
    if String.eqb cmd "QUIT" then Closed <$> handleQuit order w
    else Serving <$> dispatch auth c blobs now handshake cmd args w in
  if se_authenticated (po_session w) then
    match accountLive auth w with
    | Err _ => Some (Closed (respond w "-ERR [SYS/TEMP] account state unavailable, try again later"))
    | Ok false => Some (Closed (respond w "-ERR account no longer available"))
    | Ok true => serve
    end
  else serve.

(** The state a connection starts in, its greeting written. *)
Definition greeted (isTLS : bool) (db : DB) (a : A) (l : option Auth.Limiter) : W :=
  respond (mkPopState (newSession isTLS) db a l "") "+OK bongo POP3 ready".
End Session.
