(* ===== verification/Pop3Thm.v ===== *)
(** Theorems on POP3 sessions: what the client reads back, what a session may
    change, and what QUIT does to the mailbox. *)

From S2P Require Import Prelude GoStrings Pebble Proto Mailbox MailboxInv MailboxLemmas MailboxSteps MailboxSpec.
From S2P Require Import MailboxStore MailboxClient AttSplit RateLimit UserData Credentials Accounts AccountsThm FsmThm Pop3.
From Stdlib Require Import Ascii.

(** * The wire *)

(** A client of RFC 1939 reading a multi-line reply: lines up to the one that
    is a single dot, a leading dot removed from the others; and what follows. *)
Fixpoint client_read (fuel : nat) (wire : string) : option (list string * string) :=
  match fuel with
  | O => None
  | S fuel' =>
      match Cut wire CRLF with
      | None => None
      | Some (line, rest) =>
          if String.eqb line "." then Some ([], rest) else
          match client_read fuel' rest with
          | None => None
          | Some (lines, rest') => Some (TrimPrefix line "." :: lines, rest')
          end
      end
  end.

(** The lines of a stored message, and those TOP selects of them. *)
Definition message_lines (data : string) : list string :=
  trim_right (fun c => Ascii.eqb c CR) <$> Split (trim_right is_crlf data) (String LF "").
Fixpoint top_lines (n : nat) (lines : list string) : list string :=
  match lines with
  | [] => []
  | line :: rest => if String.eqb line "" then line :: take n rest else line :: top_lines n rest
  end.
Definition selected (data : string) (bodyLines : Z) : list string :=
  if bodyLines <? 0 then message_lines data else top_lines (Z.to_nat bodyLines) (message_lines data).

Lemma trim_right_all p q s : str_all q s = true -> str_all q (trim_right p s) = true.
Proof.
  induction s as [|c s IH]; [done|]. cbn. intros [Hc Hs]%andb_true_iff. specialize (IH Hs). repeat case_match; cbn in *; try done; by rewrite Hc.
Qed.
Lemma trim_right_char p c s : has_char c s = false -> has_char c (trim_right p s) = false.
Proof. unfold has_char. rewrite !negb_false_iff. apply trim_right_all. Qed.

Lemma Cut_prefix sep rest : Cut (sep +:+ rest) sep = Some ("", rest).
Proof.
  assert (Hp : String.prefix sep (sep +:+ rest) = true) by apply prefix_app.
  destruct (sep +:+ rest) as [|c s] eqn:E; cbn [Cut]; rewrite Hp, <- E, str_drop_app; done.
Qed.
Lemma Cut_CRLF x rest : has_char LF x = false -> Cut (x +:+ CRLF +:+ rest) CRLF = Some (x, rest).
Proof.
  induction x as [|c x IH]; intros Hx; [exact (Cut_prefix CRLF rest)|]. rewrite has_char_cons in Hx. apply orb_false_iff in Hx as [_ Hx].
  rewrite app_cons'. cbn [Cut]. rewrite IH by done.
  destruct (String.prefix CRLF _) eqn:Hp; [|done]. exfalso. apply prefix_spec in Hp as [r Hr].
  unfold CRLF in Hr at 2. rewrite !app_cons' in Hr. destruct x as [|d x]; injection Hr as _ Hr; [discriminate|].
  rewrite has_char_cons in Hx. subst d. by rewrite Ascii.eqb_refl in Hx.
Qed.

(** One stuffed line is read back. *)
Lemma client_line fuel line rest :
  has_char LF line = false ->
  client_read (S fuel) (((if HasPrefix line "." then "." else "") +:+ line +:+ CRLF) +:+ rest) =
  match client_read fuel rest with
  | None => None
  | Some (lines, rest') => Some (line :: lines, rest')
  end.
Proof.
  intros Hl. rewrite !str_app_assoc. rewrite <- (str_app_assoc _ line). cbn [client_read].
  destruct (HasPrefix line ".") eqn:Hp.
  - rewrite Cut_CRLF by (rewrite has_char_app, Hl; done). rewrite TrimPrefix_app.
    destruct (String.eqb_spec ("." +:+ line) ".") as [E|]; [|done]. destruct line; [done|]. discriminate.
  - rewrite app_nil_l', Cut_CRLF by done. unfold TrimPrefix. rewrite Hp.
    destruct (String.eqb_spec line ".") as [->|]; done.
Qed.
Lemma client_dot fuel rest : client_read (S fuel) (("." +:+ CRLF) +:+ rest) = Some ([], rest).
Proof. rewrite str_app_assoc. cbn [client_read]. rewrite Cut_CRLF by done. done. Qed.

Definition client (wire : string) : option (list string * string) := client_read (S (String.length wire)) wire.

Notation trim_cr := (trim_right (fun c => Ascii.eqb c CR)).
(** What the loop of [writeByteStuffed] sends, from any point of it. *)
Definition chosen (bodyLines : Z) (inBody : bool) (count : Z) (lines : list string) : list string :=
  if bodyLines <? 0 then lines
  else if inBody then take (Z.to_nat (bodyLines - count)) lines
  else top_lines (Z.to_nat (bodyLines - count)) lines.

Lemma stuff_lines_cons n inBody count line rest :
  0 <= count ->
  (exists inBody' count' chosen_rest, 0 <= count' /\ chosen n inBody count (trim_cr <$> line :: rest) = trim_cr line :: chosen_rest /\
     chosen_rest = chosen n inBody' count' (trim_cr <$> rest) /\
     stuff_lines n inBody count (line :: rest) =
       ((if HasPrefix (trim_cr line) "." then "." else "") +:+ trim_cr line +:+ CRLF) +:+ stuff_lines n inBody' count' rest) \/
  (chosen n inBody count (trim_cr <$> line :: rest) = [] /\ stuff_lines n inBody count (line :: rest) = "").
Proof.
  intros Hc. cbn [stuff_lines fmap list_fmap]. unfold chosen. destruct (Z.ltb_spec n 0) as [Hn|Hn].
  - replace (0 <=? n) with false by lia. rewrite andb_false_r. cbn [andb]. left.
    destruct (negb inBody && String.eqb (trim_cr line) "") eqn:E.
    + apply andb_true_iff in E as [_ ->%String.eqb_eq]. exists true, count, (trim_cr <$> rest). done.
    + exists inBody, count, (trim_cr <$> rest). by rewrite !str_app_assoc.
  - replace (0 <=? n) with true by lia. destruct inBody; cbn [negb andb].
    + destruct (Z.leb_spec n count).
      * right. replace (Z.to_nat (n - count)) with 0%nat by lia. done.
      * left. replace (Z.to_nat (n - count)) with (S (Z.to_nat (n - (count + 1)))) by lia. cbn [take].
        exists true, (count + 1). eexists. split_and!; [lia|done|done|]. by rewrite !str_app_assoc.
    + cbn [top_lines]. left. destruct (String.eqb_spec (trim_cr line) "") as [->|Hne].
      * exists true, count. eexists. done.
      * exists false, count. eexists. split_and!; [done..|]. by rewrite !str_app_assoc.
Qed.

Lemma stuff_lines_read n lines inBody count fuel rest :
  0 <= count -> Forall (fun l => has_char LF l = false) lines ->
  (length (chosen n inBody count (trim_cr <$> lines)) < fuel)%nat ->
  client_read fuel (stuff_lines n inBody count lines +:+ ("." +:+ CRLF) +:+ rest) = Some (chosen n inBody count (trim_cr <$> lines), rest) /\
  (length (chosen n inBody count (trim_cr <$> lines)) <= String.length (stuff_lines n inBody count lines))%nat.
Proof.
  revert inBody count fuel. induction lines as [|line lines IH]; intros inBody count fuel Hc Hall Hf.
  - replace (chosen n inBody count (trim_cr <$> [])) with (@nil string) in * by (unfold chosen; cbn [fmap list_fmap]; destruct (n <? 0), inBody; by rewrite ?take_nil).
    destruct fuel as [|fuel]; [cbn in Hf; lia|]. split; [|cbn; lia]. apply (client_dot fuel rest).
  - apply Forall_cons in Hall as [Hl Hall].
    destruct (stuff_lines_cons n inBody count line lines Hc) as [(b&k&cr&Hk&Hch&->&Hst)|[Hch Hst]]; rewrite Hch, Hst in *.
    + destruct fuel as [|fuel]; [cbn in Hf; lia|]. cbn [length] in *.
      destruct (IH b k fuel Hk Hall ltac:(lia)) as [IH1 IH2]. split.
      * rewrite str_app_assoc, client_line, IH1 by (by apply trim_right_char). done.
      * rewrite !str_length_app. cbn [String.length CRLF]. lia.
    + destruct fuel as [|fuel]; [cbn in Hf; lia|]. split; [apply (client_dot fuel rest)|cbn; lia].
Qed.

(** Text in canonical form: every line ends in CRLF and holds no other CR or
    LF, and the last line is not blank. *)
Fixpoint crlf_text (lines : list string) : string :=
  match lines with [] => "" | l :: rest => l +:+ CRLF +:+ crlf_text rest end.
Definition canonical (lines : list string) : Prop :=
  Forall (fun l => str_all (fun c => negb (is_crlf c)) l = true) lines /\ exists l, last lines = Some l /\ l <> "".

Lemma trim_right_app p a s : str_all p s = true -> trim_right p (a +:+ s) = trim_right p a.
Proof.
  intros Hs. induction a as [|c a IH]; [|rewrite app_cons'; cbn [trim_right]; by rewrite IH].
  rewrite app_nil_l'. induction s as [|c s IHs]; [done|]. cbn in Hs |- *. apply andb_true_iff in Hs as [-> Hs]. cbn in IHs. by rewrite IHs.
Qed.
Lemma trim_right_keep p a l : l <> "" -> str_all (fun c => negb (p c)) l = true -> trim_right p (a +:+ l) = a +:+ l.
Proof.
  intros Hne Hl. assert (Hll : trim_right p l = l).
  { induction l as [|c l IH]; [done|]. cbn in Hl |- *. apply andb_true_iff in Hl as [Hc Hl]. destruct l as [|d l].
    - cbn. by apply negb_true_iff in Hc as ->.
    - by rewrite (IH ltac:(done) Hl). }
  induction a as [|c a IH]; [by rewrite app_nil_l'|]. rewrite app_cons'. cbn [trim_right]. rewrite IH.
  destruct (a +:+ l) eqn:E; [|done]. by destruct a, l.
Qed.
Lemma no_crlf_LF l : str_all (fun c => negb (is_crlf c)) l = true -> has_char LF l = false.
Proof.
  intros Hl. unfold has_char. apply negb_false_iff. revert Hl. apply str_all_impl. intros c Hc. unfold is_crlf in Hc.
  apply negb_true_iff, orb_false_iff in Hc as [_ ->]. done.
Qed.
Lemma trim_cr_end l : str_all (fun c => negb (is_crlf c)) l = true -> trim_cr (l +:+ String CR "") = l /\ trim_cr l = l.
Proof.
  intros Hl. assert (Hk : trim_cr l = l).
  { destruct l as [|c l]; [done|]. apply (trim_right_keep _ ""); [done|]. revert Hl. apply str_all_impl. intros x Hx. unfold is_crlf in Hx.
    apply negb_true_iff, orb_false_iff in Hx as [-> _]. done. }
  split; [|done]. by rewrite trim_right_app.
Qed.

Lemma Join_cons2 x y l sep : Join (x :: y :: l) sep = x +:+ sep +:+ Join (y :: l) sep.
Proof. done. Qed.
Lemma canonical_split lines n :
  Forall (fun l => str_all (fun c => negb (is_crlf c)) l = true) lines -> lines <> [] ->
  (String.length (Join lines CRLF) < n)%nat -> trim_cr <$> SplitN (Join lines CRLF) (String LF "") n = lines.
Proof.
  revert n. induction lines as [|l lines IH]; intros n Hall Hne Hn; [done|]. apply Forall_cons in Hall as [Hl Hall].
  destruct lines as [|l2 lines].
  - cbn [Join] in *. destruct n as [|n]; [lia|]. rewrite SplitN_one by (by apply no_crlf_LF). cbn [fmap list_fmap]. by rewrite (proj2 (trim_cr_end l Hl)).
  - rewrite Join_cons2 in *. remember (l2 :: lines) as more.
    rewrite !str_length_app in Hn. cbn [CRLF String.length] in Hn. destruct n as [|[|n]]; [lia..|].
    replace (l +:+ CRLF +:+ Join more CRLF) with ((l +:+ String CR "") +:+ String LF "" +:+ Join more CRLF)
      by (unfold CRLF; by rewrite !str_app_assoc).
    rewrite SplitN_cons by (rewrite has_char_app, no_crlf_LF by done; done). cbn [fmap list_fmap].
    rewrite (proj1 (trim_cr_end l Hl)). f_equal. apply IH; [done|by subst|lia].
Qed.
Lemma crlf_text_Join lines : lines <> [] -> crlf_text lines = Join lines CRLF +:+ CRLF.
Proof.
  induction lines as [|l lines IH]; [done|]. intros _. destruct lines as [|l2 lines]; [cbn [crlf_text Join]; by rewrite str_app_nil_r|].
  rewrite Join_cons2. cbn [crlf_text] in *. rewrite IH by done. by rewrite !str_app_assoc.
Qed.
Lemma Join_last lines l : last lines = Some l -> exists a, Join lines CRLF = a +:+ l.
Proof.
  induction lines as [|x lines IH]; [done|]. destruct lines as [|y lines]; [intros [= ->]; by exists ""|].
  intros [a Ha]%IH. exists (x +:+ CRLF +:+ a). rewrite Join_cons2, Ha. by rewrite !str_app_assoc.
Qed.
Lemma canonical_lines lines : canonical lines -> message_lines (crlf_text lines) = lines.
Proof.
  intros [Hall (l&Hl&Hne)]. assert (Hn : lines <> []) by (by intros ->). unfold message_lines.
  rewrite crlf_text_Join, trim_right_app by done. destruct (Join_last _ _ Hl) as [a Ha]. rewrite Ha, trim_right_keep, <- Ha.
  - unfold Split. apply canonical_split; [done|done|lia].
  - done.
  - rewrite Forall_forall in Hall. apply Hall. by apply last_Some_elem_of.
Qed.


(** * What a session may change *)

Section Safety.
Context {DB A B : Type} `{PebbleDB DB} `{MailCodecs} `{GoUnicode} `{RaftApplier DB} `{BlobOps B} `{MimeHeaders} `{Sha256}.
Context (auth : authenticator DB A) (c : popConfig).
Implicit Types (w : PopState DB A) (s : session) (blobs : B).

(** Marks exist only in a session that is logged in, and point into its
    snapshot. *)
Definition marks_ok s : Prop :=
  (se_authenticated s = false -> se_deleted s = ∅) /\
  forall n, n ∈ se_deleted s -> 1 <= n <= Z.of_nat (length (se_messages s)).

Lemma message_number_range s args num :
  message_number s args = Some num -> 1 <= num <= Z.of_nat (length (se_messages s)).
Proof. unfold message_number. destruct (ParseInt args) as [n|]; [|done]. case_match eqn:E; [done|]. intros [= <-]. lia. Qed.
Lemma message_at_in s num : 1 <= num <= Z.of_nat (length (se_messages s)) -> exists m, message_at s num = Some m.
Proof. intros Hn. apply lookup_lt_is_Some_2. lia. Qed.
Lemma new_session_ok isTLS : marks_ok (newSession isTLS).
Proof. split; [done|]. intros n Hn. by apply not_elem_of_empty in Hn. Qed.

(** A step that keeps the store, and the well-formedness of the marks. *)
Definition quiet w (o : option (PopState DB A)) : Prop :=
  exists w', o = Some w' /\ po_db w' = po_db w /\ (marks_ok (po_session w) -> marks_ok (po_session w')) /\
    (se_authenticated (po_session w) = true -> se_authenticated (po_session w') = true).

Lemma quiet_respond w msg : quiet w (Some (respond w msg)).
Proof. by eexists. Qed.
Lemma quiet_write w v : quiet w (Some (writeString w v)).
Proof. by eexists. Qed.
Lemma quiet_auth w f : quiet w (f w) -> quiet w (requireAuth f w).
Proof. intros. unfold requireAuth. case_match; [done|apply quiet_respond]. Qed.
Hint Resolve quiet_respond quiet_write : core.

Lemma quiet_message w args (f : popMsg -> option (PopState DB A)) :
  (forall m, quiet w (f m)) -> forall num, message_number (po_session w) args = Some num ->
  quiet w (m ← message_at (po_session w) num; f m).
Proof. intros Hf num Hn%message_number_range. destruct (message_at_in _ _ Hn) as [m ->]. apply Hf. Qed.
Lemma quiet_list_one show args w : quiet w (list_one show args w).
Proof.
  unfold list_one. destruct (message_number _ _) as [num|] eqn:E; [|done]. case_decide; [done|].
  eapply (quiet_message w args (fun m => Some _)); [|exact E]. intros m. apply quiet_respond.
Qed.
Lemma quiet_retr blobs args w : quiet w (handleRetr blobs args w).
Proof.
  apply quiet_auth. destruct (message_number _ _) as [num|] eqn:E; [|done]. case_decide; [done|].
  eapply (quiet_message w args (fun m => Some _)); [|exact E]. intros m. case_match; [by eexists|apply quiet_respond].
Qed.
Lemma quiet_top blobs args w : quiet w (handleTop blobs args w).
Proof.
  apply quiet_auth. destruct (SplitN args " " 2) as [|first [|second [|]]]; [done|done| |done].
  destruct (message_number _ _) as [num|] eqn:E; [|done]. case_decide; [done|].
  destruct (ParseInt second) as [n|]; [|done]. case_match; [done|].
  eapply (quiet_message w first (fun m => Some _)); [|exact E]. intros m. case_match; [by eexists|apply quiet_respond].
Qed.
Lemma quiet_dele args w : quiet w (handleDele args w).
Proof.
  unfold handleDele, requireAuth. destruct (se_authenticated (po_session w)) eqn:Ha; [|done].
  destruct (message_number _ _) as [num|] eqn:E; [|done]. case_decide; [done|]. eexists. split; [done|]. split; [done|].
  split; [|done]. intros [H1' H2']. split; [cbn; congruence|]. cbn. apply message_number_range in E. intros n [->%elem_of_singleton|?]%elem_of_union; [done|auto].
Qed.
Lemma quiet_rset w : quiet w (handleRset w).
Proof.
  apply quiet_auth. eexists. split; [done|]. split; [done|]. split; [|done]. intros _. split; [done|]. intros n Hn. by apply not_elem_of_empty in Hn.
Qed.
Lemma blocked_same now ip w w' b : blocked now ip w = (w', b) -> po_session w' = po_session w /\ po_db w' = po_db w.
Proof. unfold blocked. destruct (po_limiter w) as [l|]; [destruct (Auth.Blocked _ _ _)|]; by intros [= <- _]. Qed.
Lemma quiet_pass now args w : quiet w (Some (handlePass auth c now args w)).
Proof.
  unfold handlePass. destruct (se_authenticated (po_session w)) eqn:Ha; [done|]. repeat (case_match; [done|]).
  destruct (blocked now (pc_clientIP c) w) as [w1 b] eqn:Eb. apply blocked_same in Eb as [Hs Hdb].
  assert (Hquiet : forall w2, po_db w2 = po_db w -> (marks_ok (po_session w) -> marks_ok (po_session w2)) -> quiet w (Some w2)).
  { intros w2 ? ?. exists w2. split_and!; [done..|]. congruence. }
  assert (Hforget : forall w2 msg, po_session w2 = po_session w -> po_db w2 = po_db w -> quiet w (Some (respond (forget w2) msg))).
  { intros w2 msg Hs2 Hd2. apply Hquiet; [done|]. cbn. by rewrite Hs2. }
  destruct b; [by apply Hforget|]. destruct (authn_protocol _ _ _ _ _ _) as [a' [[[userID profile] app]|e]]; [|by apply Hforget].
  assert (Hif : forall (b : bool) f (w2 : PopState DB A), po_session (if b then with_limiter w2 f else w2) = po_session w2 /\
    po_db (if b then with_limiter w2 f else w2) = po_db w2) by (by intros []).
  destruct profile as [p|]; [|apply Hforget; [by rewrite (proj1 (Hif _ _ _))|by rewrite (proj2 (Hif _ _ _))]].
  case_match; [apply Hforget; [by rewrite (proj1 (Hif _ _ _))|by rewrite (proj2 (Hif _ _ _))]|].
  case_match; (apply Hquiet; [cbn; by rewrite (proj2 (Hif _ _ _))|]); intros [Hm _]; specialize (Hm Ha); cbn;
    (split; cbn; rewrite Hm; [done|]; intros n Hn; by apply not_elem_of_empty in Hn).
Qed.

Lemma dispatch_quiet blobs now hs cmd args w : quiet w (dispatch auth c blobs now hs cmd args w).
Proof.
  unfold dispatch. case_match; [eexists; split; [done|]; unfold handleCapa; cbv zeta; by case_match|]. case_match.
  { unfold handleUser. destruct (se_authenticated (po_session w)) eqn:Ha; [done|]. case_match; [done|]. by eexists. }
  case_match; [apply quiet_pass|]. case_match.
  { unfold handleSTLS. repeat case_match; try done. by eexists. }
  case_match; [apply quiet_auth; case_match; done|]. case_match; [apply quiet_auth; case_match; [apply quiet_list_one|case_match; by eexists]|].
  case_match; [apply quiet_auth; case_match; [apply quiet_list_one|by eexists]|]. case_match; [apply quiet_retr|].
  case_match; [apply quiet_top|]. case_match; [apply quiet_dele|]. case_match; [by apply quiet_auth|]. case_match; [apply quiet_rset|done].
Qed.

(** ** QUIT *)

Definition marked (order : list Z) (messages : list popMsg) : list popMsg := omap (fun num => messages !! Z.to_nat (num - 1)) order.
Definition moves (u : string) (msgs : list popMsg) (db : DB) : DB :=
  foldl (fun db m => (MoveMessage u "INBOX" (pm_uid m) "Trash" db).1) db msgs.
Lemma applyDeletions_run order u messages db :
  (forall n, n ∈ order -> 1 <= n <= Z.of_nat (length messages)) ->
  applyDeletions order u messages db = Some (moves u (marked order messages) db).
Proof.
  revert db. induction order as [|num order IH]; intros db Hall; [done|]. cbn [applyDeletions marked omap list_omap].
  assert (1 <= num <= Z.of_nat (length messages)) as Hn by (apply Hall; by left).
  replace (num <? 1) with false by lia. destruct (lookup_lt_is_Some_2 messages (Z.to_nat (num - 1)) ltac:(lia)) as [m ->].
  apply IH. intros n Hin. apply Hall. by right.
Qed.

(** ** Sessions among other activity *)

Definition cmd_of (line : string) : string := ToUpper (parseCommand (trim_right is_crlf line)).1.
Definition elsewhere w (db : DB) (a : A) (l : option Auth.Limiter) : PopState DB A := mkPopState (po_session w) db a l (po_out w).

(** The session handles a line, with some iteration order of its marks, or the
    rest of the server changes anything but the session. *)
Inductive pop_step : PopState DB A -> PopState DB A -> Prop :=
| PopLine blobs now hs order line w w' :
    order ≡ₚ elements (se_deleted (po_session w)) ->
    handle_line auth c blobs now hs order line w = Some (Serving w') -> pop_step w w'
| PopElsewhere w db a l : pop_step w (elsewhere w db a l).

Lemma handle_line_Serving blobs now hs order line w w' :
  handle_line auth c blobs now hs order line w = Some (Serving w') -> marks_ok (po_session w) -> marks_ok (po_session w').
Proof.
  unfold handle_line. case_match; [by intros [= <-]|]. destruct (parseCommand _) as [cmd args].
  assert (Hserve : (if String.eqb (ToUpper cmd) "QUIT" then Closed <$> handleQuit order w
    else Serving <$> dispatch auth c blobs now hs (ToUpper cmd) args w) = Some (Serving w') ->
    marks_ok (po_session w) -> marks_ok (po_session w')).
  { case_match; [by destruct (handleQuit order w)|]. destruct (dispatch_quiet blobs now hs (ToUpper cmd) args w) as (w2&->&_&Hm&_). by intros [= <-]. }
  repeat case_match; (exact Hserve || done).
Qed.
Lemma reachable_marks isTLS db a l w : rtc pop_step (greeted isTLS db a l) w -> marks_ok (po_session w).
Proof.
  assert (Hstep : forall x y, rtc pop_step x y -> marks_ok (po_session x) -> marks_ok (po_session y)).
  { induction 1 as [x|x y z Hxy _ IH]; [done|]. intros Hx. apply IH. destruct Hxy; [by eapply handle_line_Serving|exact Hx]. }
  intros Hr. by apply (Hstep _ _ Hr), new_session_ok.
Qed.

(** The reply to a command other than PASS outside a login is the same
    whatever the store and the blobs hold. *)
Lemma dispatch_blind blobs blobs' now hs cmd args w db' w1 :
  se_authenticated (po_session w) = false -> cmd <> "PASS" -> dispatch auth c blobs now hs cmd args w = Some w1 ->
  exists w2, dispatch auth c blobs' now hs cmd args (elsewhere w db' (po_auth w) (po_limiter w)) = Some w2 /\ po_out w2 = po_out w1.
Proof.
  intros Ha Hp. unfold dispatch, handleStat, handleList, handleUidl, handleRetr, handleTop, handleDele, handleNoop, handleRset, requireAuth.
  cbn [elsewhere po_session]. rewrite Ha.
  repeat match goal with |- (if String.eqb cmd ?k then _ else _) = Some _ -> _ => destruct (String.eqb_spec cmd k) end;
    intros [= <-]; (eexists; split; [reflexivity|]); try done.
  - unfold handleCapa. cbv zeta. cbn. by destruct (negb _ && _).
  - unfold handleUser. cbn [elsewhere po_session]. rewrite Ha. by destruct (String.eqb args "").
  - unfold handleSTLS. cbn [elsewhere po_session]. rewrite Ha. by destruct (se_isTLS _), (pc_hasTLS c), hs.
Qed.

(** C28: a session is safe.  However a session came about, with whatever
    happened elsewhere in between, no line makes it panic; the store is as it
    was after every line but QUIT, and QUIT changes it only in a login whose
    account is live at that moment, by moving the marked messages; a login that
    is not live, or cannot be checked, is only told so and closed; and without
    a login no reply but that to PASS depends on what is stored. *)
Theorem pop3_session_safe isTLS db a l w blobs now hs order line :
  rtc pop_step (greeted isTLS db a l) w -> order ≡ₚ elements (se_deleted (po_session w)) ->
  exists o, handle_line auth c blobs now hs order line w = Some o /\
    let s := po_session w in
    (po_db (outcome_state o) = po_db w \/
     cmd_of line = "QUIT" /\ se_authenticated s = true /\ accountLive auth w = Ok true /\
     po_db (outcome_state o) = moves (se_userID s) (marked order (se_messages s)) (po_db w)) /\
    (se_authenticated s = true -> accountLive auth w <> Ok true -> o = Serving w \/ exists msg, o = Closed (respond w msg)) /\
    (se_authenticated s = false -> cmd_of line <> "PASS" -> forall db' blobs', exists o',
       handle_line auth c blobs' now hs order line (elsewhere w db' (po_auth w) (po_limiter w)) = Some o' /\
       po_out (outcome_state o') = po_out (outcome_state o)).
Proof.
  intros Hr Hord. pose proof (reachable_marks _ _ _ _ _ Hr) as Hm. clear Hr. unfold handle_line, cmd_of.
  destruct (String.eqb_spec (trim_right is_crlf line) "") as [E|_].
  { exists (Serving w). split; [done|]. split; [by left|]. split; [by left|]. intros _ _ db' blobs'. by eexists. }
  destruct (parseCommand (trim_right is_crlf line)) as [cmd args]. cbn [fst elsewhere po_session].
  assert (Hquit : handleQuit order w = Some (respond (elsewhere w (if se_authenticated (po_session w)
     then moves (se_userID (po_session w)) (marked order (se_messages (po_session w))) (po_db w) else po_db w) (po_auth w) (po_limiter w)) "+OK bye")).
  { unfold handleQuit. destruct (se_authenticated (po_session w)); [|done]. rewrite applyDeletions_run; [done|].
    intros n Hn. apply (proj2 Hm). by rewrite Hord, elem_of_elements in Hn. }
  destruct (dispatch_quiet blobs now hs (ToUpper cmd) args w) as (w1&Hw1&Hdb&_&_).
  destruct (se_authenticated (po_session w)) eqn:Ha.
  - destruct (accountLive auth w) as [[]|e] eqn:El; [|eexists; split; [done|]; split; [by left|]; split; [right; by eexists|done]..].
    destruct (String.eqb_spec (ToUpper cmd) "QUIT") as [Eq|_].
    + rewrite Hquit. eexists. split; [done|]. split; [right; by split_and!|]. done.
    + rewrite Hw1. eexists. split; [done|]. split; [by left|]. done.
  - destruct (String.eqb_spec (ToUpper cmd) "QUIT") as [Eq|_].
    + rewrite Hquit. eexists. split; [done|]. split; [by left|]. split; [done|]. intros _ _ db' blobs'. unfold handleQuit.
      cbn [elsewhere po_session]. rewrite Ha. by eexists.
    + rewrite Hw1. eexists. split; [done|]. split; [by left|]. split; [done|]. intros _ Hp db' blobs'.
      destruct (dispatch_blind blobs blobs' now hs _ args w db' w1 Ha Hp Hw1) as (w2&->&Hout). by eexists.
Qed.
End Safety.

(** * QUIT and the mailbox *)

(** What a sequence of mailbox commands relies on: each is refused without
    effect or applied to the local store, up to keys that are the applier's
    own, and the applier can take [n] more when [sready n]. *)
Class MailboxSeqApplier (DB : Type) `{PebbleLaws DB} `{MailCodecs} `{GoUnicode} `{RaftApplier DB} := {
  sown : string -> bool;
  sready : nat -> DB -> Prop;
  sown_user k : sown k = true -> HasPrefix k "/user/" = false;
  sready_le n n' s : (n' <= n)%nat -> sready n s -> sready n' s;
  seq_synthetic n cmd s s' r :
    sready (S n) s -> healthy s -> cmd_Op cmd = OP_PUT -> IsMailboxSyntheticCommand (cmd_Key cmd) = true ->
    ApplyCommand cmd s = (s', r) ->
    healthy s' /\ sready n s' /\
    ((forall k, sown k = false -> contents s' !! k = contents s !! k) \/
     exists s1 x, ApplyMailboxCommand cmd s = (s1, Ok x) /\ forall k, sown k = false -> contents s' !! k = contents s1 !! k);
}.

Section Quit.
Context {DB : Type} `{PebbleLaws DB} `{MailCodecLaws} `{GoUnicode} `{RaftApplier DB} `{!MailboxSeqApplier DB}.
Implicit Types (cn : gmap string string) (db : DB).

(** [n] more messages fit below every mailbox's 32-bit limit. *)
Definition room (n : nat) cn : Prop :=
  forall u m meta, safe u -> meta_at cn u m = Some meta -> mb_UidNext meta + Z.of_nat n < 2 ^ 32.
(** Stores that agree on all user data. *)
Definition agree cn cn' : Prop := forall k, HasPrefix k "/user/" = true -> cn' !! k = cn !! k.

Lemma agree_meta cn cn' u m : agree cn cn' -> meta_at cn' u m = meta_at cn u m.
Proof. intros Ha. apply meta_at_congr, Ha, metaKey_user. Qed.
Lemma agree_msg cn cn' u m uid : agree cn cn' -> msg_at cn' u m uid = msg_at cn u m uid.
Proof. intros Ha. apply msg_at_congr, Ha, msgKey_user. Qed.
Lemma agree_inv cn cn' : agree cn cn' -> mbox_inv cn -> mbox_inv cn'.
Proof.
  intros Ha [I1 I2]. split.
  - intros u m v Hu Hv. rewrite Ha in Hv by apply metaKey_user. rewrite (agree_meta _ _ _ _ Ha). eauto.
  - intros u m uid v Hu Hd Hv. rewrite Ha in Hv by apply msgKey_user. rewrite (agree_msg _ _ _ _ _ Ha), (agree_meta _ _ _ _ Ha). eauto.
Qed.
Lemma agree_room n cn cn' : agree cn cn' -> room n cn -> room n cn'.
Proof. intros Ha Hr u m meta Hu Hm. rewrite (agree_meta _ _ _ _ Ha) in Hm. by eapply Hr. Qed.
Lemma sown_agree db' cn : (forall k, sown k = false -> contents db' !! k = cn !! k) -> agree cn (contents db').
Proof. intros Hc k Hk. apply Hc. destruct (sown k) eqn:E; [|done]. apply sown_user in E. congruence. Qed.

Lemma move_key_synthetic u : IsMailboxSyntheticCommand (mailboxMoveKey u) = true.
Proof.
  unfold IsMailboxSyntheticCommand. replace (HasPrefix (mailboxMoveKey u) mailboxMovePrefix) with true
    by (symmetry; apply prefix_app). by rewrite ?orb_true_r.
Qed.

(** Every message of [cn] is in [cn'] where it was, or was the one at [uid] in
    the INBOX of [u] and is in Trash. *)
Definition moved_or_kept (u : string) (uids : list Z) cn cn' : Prop :=
  forall u' m uid x, safe u' -> in_u32 uid -> msg_at cn u' m uid = Some x ->
    msg_at cn' u' m uid = Some x \/
    u' = u /\ m = "INBOX" /\ uid ∈ uids /\ exists new, in_u32 new /\ msg_at cn' u "Trash" new = Some (transferred x new).

Lemma applied_move n u uid v db db1 x :
  mbox_inv (contents db) -> room (S n) (contents db) -> safe u -> in_u32 uid ->
  healthy db -> marshal (mkTransfer "INBOX" uid "Trash") = Ok v ->
  ApplyMailboxCommand (mkCmd OP_PUT (mailboxMoveKey u) v) db = (db1, Ok x) ->
  mbox_inv (contents db1) /\ room n (contents db1) /\ moved_or_kept u [uid] (contents db) (contents db1).
Proof.
  intros I Hr Hu Hd Hs Hv Hrun.
  assert (Hroom : uid_room (contents db)) by (intros u' m' meta' Hu' Hm'; specialize (Hr _ _ _ Hu' Hm'); lia).
  pose proof (json_roundtrip _ _ Hv (ml_transfer_clean "INBOX" uid "Trash" eq_refl eq_refl Hd)) as Hp.
  destruct (move_spec u v db db1 x I Hu Hroom Hrun) as (p&src&dst&Hp'&Hdst&Hsrc&Hfree&Hnew&Hgone&Hkeep).
  rewrite Hp in Hp'. injection Hp' as <-. cbn [tp_SrcMailbox tp_SrcUID tp_DstMailbox] in *.
  assert (Hnd : in_u32 (mb_UidNext dst)) by (eapply alloc_from_range; by left).
  split; [|split].
  - rewrite move_dispatch in Hrun. eapply move_step; [exact Hrun| |done|done]. cbn [cmd_Key]. unfold mailboxMoveKey. by rewrite TrimPrefix_app.
  - rewrite move_dispatch in Hrun. apply move_effect in Hrun as (p&src'&dst'&c1&Hp''&_&Hdst'&(vm&vg&Hvm&_&_&Hc1)&Hc&_).
    cbn [cmd_Key cmd_Value] in *. unfold mailboxMoveKey in *. rewrite TrimPrefix_app in *. rewrite Hp in Hp''. injection Hp'' as <-.
    cbn [tp_SrcMailbox tp_SrcUID tp_DstMailbox] in *. rewrite Hdst in Hdst'. injection Hdst' as <-.
    intros u' m' meta' Hu' Hm'. rewrite (meta_at_congr _ c1) in Hm' by (rewrite Hc; by apply lookup_delete_ne, not_eq_sym, metaKey_msgKey).
    rewrite Hc1, meta_at_insert_msg in Hm' by done. pose proof (Hr _ _ _ Hu Hdst) as Hrd.
    destruct (decide (mailboxMetaKey u' m' = mailboxMetaKey u "Trash")) as [E|E].
    + rewrite (meta_at_congr _ (<[mailboxMetaKey u' m' := vm]> (contents db))) in Hm' by (by rewrite E).
      rewrite (meta_at_insert _ _ _ _ _ Hvm) in Hm'. injection Hm' as <-. destruct Hnd. rewrite bump_next by (split; lia). lia.
    + rewrite (meta_at_congr _ (contents db)) in Hm' by (by apply lookup_insert_ne, not_eq_sym). specialize (Hr _ _ _ Hu' Hm'). lia.
  - intros u' m uid' y Hu' Hd' Hy. destruct (decide ((u', m, uid') = (u, "INBOX", uid))) as [[= -> -> ->]|Hne].
    + right. split_and!; [done|done|by left|]. exists (mb_UidNext dst). split; [done|]. congruence.
    + left. rewrite Hkeep; [done|done|done| |done]. intros [= -> -> ->]. congruence.
Qed.

Lemma MoveMessage_step n u uid db :
  sready (S n) db -> healthy db -> mbox_inv (contents db) -> room (S n) (contents db) -> safe u -> in_u32 uid ->
  let db' := (MoveMessage u "INBOX" uid "Trash" db).1 in
  healthy db' /\ sready n db' /\ mbox_inv (contents db') /\ room n (contents db') /\ moved_or_kept u [uid] (contents db) (contents db').
Proof.
  intros Hrd Hs I Hr Hu Hd. assert (Hr0 : room n (contents db)) by (intros u' m' meta' Hu' Hm'; specialize (Hr _ _ _ Hu' Hm'); lia).
  unfold MoveMessage, gbind, glift. destruct (marshal (mkTransfer "INBOX" uid "Trash")) as [v|e] eqn:Hv; cbn [wrapf fst].
  2:{ split_and!; [done|by eapply sready_le; [|exact Hrd]; lia|done|done|]. intros u' m' uid' y ? ? ?. by left. }
  destruct (ApplyCommand _ db) as [db' r] eqn:Ha. cbn [fst].
  destruct (seq_synthetic n (mkCmd OP_PUT (mailboxMoveKey u) v) _ _ _ Hrd Hs eq_refl (move_key_synthetic u) Ha) as (Hs'&Hrd'&[Hc|(db1&x&Hrun&Hc)]);
    apply sown_agree in Hc.
  - split_and!; [done|done|by eapply agree_inv|by eapply agree_room|]. intros u' m' uid' y ? ? ?. left. by rewrite (agree_msg _ _ _ _ _ Hc).
  - destruct (applied_move n u uid v db db1 x I Hr Hu Hd Hs Hv Hrun) as (I1&Hr1&Hm). split_and!; [done|done|by eapply agree_inv|by eapply agree_room|].
    intros u' m' uid' y Hu' Hd' Hy. rewrite (agree_msg _ _ _ _ _ Hc). destruct (Hm _ _ _ _ Hu' Hd' Hy) as [?|(?&?&?&new&?&?)]; [by left|].
    right. split_and!; [done..|]. exists new. by rewrite (agree_msg _ _ _ _ _ Hc).
Qed.

Lemma moves_spec u msgs db :
  sready (length msgs) db -> healthy db -> mbox_inv (contents db) -> room (length msgs) (contents db) -> safe u ->
  Forall (fun m => in_u32 (pm_uid m)) msgs ->
  moved_or_kept u (pm_uid <$> msgs) (contents db) (contents (moves u msgs db)).
Proof.
  revert db. induction msgs as [|m msgs IH]; intros db Hrd Hs I Hr Hu Hall; [intros u' m' uid' y ? ? ?; by left|].
  apply Forall_cons in Hall as [Hd Hall].
  destruct (MoveMessage_step (length msgs) u (pm_uid m) db Hrd Hs I Hr Hu Hd) as (Hs1&Hrd1&I1&Hr1&Hm1).
  specialize (IH _ Hrd1 Hs1 I1 Hr1 Hu Hall). cbn [moves foldl] in *. fold (moves u msgs) in *.
  intros u' m' uid' y Hu' Hd' Hy. destruct (Hm1 _ _ _ _ Hu' Hd' Hy) as [Hy1|(->&->&Hin&new&Hnew&Ht)].
  - destruct (IH _ _ _ _ Hu' Hd' Hy1) as [?|(?&?&?&?)]; [by left|]. right. split_and!; [done|done|by right|done].
  - right. apply list_elem_of_singleton in Hin as ->. split_and!; [done|done|by left|]. exists new. split; [done|].
    destruct (IH u "Trash" new _ Hu Hnew Ht) as [?|(_&?&_)]; done.
Qed.

(** ** From the listing to the move *)

Lemma run_inv u m s s' : mailbox_run u m s s' -> mbox_inv (contents s) -> mbox_inv (contents s').
Proof. induction 1 as [|s s1 s2 cmd r Hs Hroom Hadm Hstep _ _ IH]; [done|]. intros I. apply IH. by eapply command_step. Qed.

Lemma applyDeletions_Some order u messages db db' :
  applyDeletions order u messages db = Some db' ->
  db' = moves u (marked order messages) db /\ length (marked order messages) = length order /\
  forall pm, pm ∈ marked order messages -> exists num, num ∈ order /\ messages !! Z.to_nat (num - 1) = Some pm.
Proof.
  revert db. induction order as [|num order IH]; intros db Hrun; cbn [applyDeletions marked omap list_omap] in *.
  { injection Hrun as <-. split_and!; [done|done|]. intros pm Hin. by apply not_elem_of_nil in Hin. }
  case_match; [done|]. destruct (messages !! Z.to_nat (num - 1)) as [pm|] eqn:E; [|done].
  apply IH in Hrun as (Hm&Hl&Hin). split_and!; [done|cbn; by f_equal|].
  intros pm' [->|Hpm]%elem_of_cons; [exists num; split; [by left|done]|]. destruct (Hin _ Hpm) as (n&?&?). exists n. split; [by right|done].
Qed.

Lemma snapshot_listed db u msgs pm :
  pm ∈ snapshot_of db u msgs -> exists msg, msg ∈ msgs /\ pm_uid pm = msg_Uid msg /\ pm_guid pm = msg_MailGuid msg.
Proof.
  induction msgs as [|msg msgs IH]; cbn [snapshot_of]; [by intros ?%not_elem_of_nil|].
  assert (Hrest : pm ∈ snapshot_of db u msgs -> exists msg', msg' ∈ msg :: msgs /\ pm_uid pm = msg_Uid msg' /\ pm_guid pm = msg_MailGuid msg').
  { intros (x&?&?)%IH. exists x. split; [by right|done]. }
  case_match; [|exact Hrest]. case_match; [|exact Hrest]. intros [->|Hin]%elem_of_cons; [|by apply Hrest]. exists msg. split; [by left|done].
Qed.
Lemma snapshot_sound db u messages pm :
  healthy db -> safe u -> mbox_inv (contents db) -> unnested (contents db) u "INBOX" ->
  loadInboxSnapshot db u = Ok messages -> pm ∈ messages ->
  exists msg, in_u32 (pm_uid pm) /\ msg_at (contents db) u "INBOX" (pm_uid pm) = Some msg /\ msg_MailGuid msg = pm_guid pm.
Proof.
  intros Hs Hu I Hn Hl Hin. destruct (list_total db u "INBOX") as [msgs Hm]; [done..|].
  assert (Hlist : ListMessages db u "INBOX" = Ok msgs).
  { unfold ListMessages. pose proof Hm as Hm'. unfold listMailboxMessages in Hm'. ginv.
    match goal with Hp : PrefixScan _ _ = _ |- _ => rewrite Hp end. cbn. by apply list_parsed_parse. }
  unfold loadInboxSnapshot in Hl. rewrite Hlist in Hl. injection Hl as <-. apply snapshot_listed in Hin as (msg&Hmsg&->&->).
  exists msg. destruct (list_sound db u "INBOX" msgs msg) as [? ?]; done.
Qed.

(** QUIT moves what the client was shown.  A session lists the INBOX,
    other mailbox commands run while it is open, and QUIT then applies the
    marks: every message of every user is where it was, or it is one that was
    listed to this client under the unique id UIDL showed and marked by its
    number, and it is in the user's Trash with its content, date and tags.
    Nothing is lost, even when some moves are refused. *)
Theorem pop3_quit_moves_what_was_listed u db0 messages db1 order db2 :
  healthy db0 -> safe u -> mbox_inv (contents db0) -> unnested (contents db0) u "INBOX" ->
  loadInboxSnapshot db0 u = Ok messages ->
  mailbox_run u "INBOX" db0 db1 ->
  healthy db1 -> sready (length order) db1 -> room (length order) (contents db1) ->
  applyDeletions order u messages db1 = Some db2 ->
  forall u' m uid x, safe u' -> in_u32 uid -> msg_at (contents db1) u' m uid = Some x ->
    msg_at (contents db2) u' m uid = Some x \/
    u' = u /\ m = "INBOX" /\
    (exists num pm, num ∈ order /\ messages !! Z.to_nat (num - 1) = Some pm /\ pm_uid pm = uid /\ pm_guid pm = msg_MailGuid x) /\
    exists new, in_u32 new /\ msg_at (contents db2) u "Trash" new = Some (transferred x new).
Proof.
  intros Hs0 Hu I0 Hn Hl Hrun Hs1 Hrd Hroom Hdel u' m uid x Hu' Hd Hx.
  apply applyDeletions_Some in Hdel as (->&Hlen&Hin). pose proof (run_inv _ _ _ _ Hrun I0) as I1.
  assert (Hsound : forall pm, pm ∈ marked order messages -> exists msg, in_u32 (pm_uid pm) /\
    msg_at (contents db0) u "INBOX" (pm_uid pm) = Some msg /\ msg_MailGuid msg = pm_guid pm).
  { intros pm (num&_&Hnum)%Hin. eapply snapshot_sound; [done..|]. by eapply list_elem_of_lookup_2. }
  destruct (moves_spec u (marked order messages) db1) with (u' := u') (m := m) (uid := uid) (x := x)
    as [?|(->&->&Huid&Htrash)]; [by rewrite Hlen|done|done|by rewrite Hlen|done| |done|done|done|by left|].
  { apply Forall_forall. intros pm Hpm. destruct (Hsound pm Hpm) as (?&?&_). done. }
  right. apply list_elem_of_fmap in Huid as (pm&->&Hpm). split_and!; [done|done| |done].
  destruct (Hin pm Hpm) as (num&Hnum&Hlook). exists num, pm. split_and!; [done..|].
  destruct (Hsound pm Hpm) as (msg&_&Hmsg&Hguid). unfold msg_at in Hmsg.
  destruct (contents db0 !! mailboxMsgKey u "INBOX" (pm_uid pm)) as [v|] eqn:Hv; [|done].
  destruct (proj2 I0 _ _ _ _ Hu Hd Hv) as (msg'&meta&Hmsg'&_&Hmeta&Hlt).
  destruct (run_stable u "INBOX" db0 db1 meta Hu Hrun I0 Hmeta) as (meta'&_&_&_&Hst).
  destruct (Hst (pm_uid pm) Hd Hlt) as [E|E]; [|congruence]. rewrite Hx in E. unfold msg_at in E. rewrite Hv in E. cbn in Hmsg, E. congruence.
Qed.
End Quit.

(** * Evaluation *)

Section Demo.
#[local] Existing Instances demo_codecs demo_codec_laws bytewise_unicode demo_cred demo_cred_laws demo_profile_codec demo_bcrypt demo_sha direct_applier.

#[local] Instance direct_seq : MailboxSeqApplier MemDB.
Proof.
  refine {| sown := fun _ => false; sready := fun _ _ => True |}; [done|done|].
  intros n cmd s s' r _ Hs Hop Hk. unfold ApplyCommand, direct_applier, direct_apply, gbind, gret. rewrite Hop, Hk.
  destruct (ApplyMailboxCommand cmd s) as [s1 r1] eqn:E. pose proof (keeps_mailbox cmd s _ _ Hs E) as Hh.
  destruct r1 as [x|e]; intros [= <- <-].
  - split; [exact Hh|]. split; [done|]. right. by exists s1, x.
  - split; [exact Hh|]. split; [done|]. left. intros k _. by rewrite (command_error _ _ _ _ E).
Defined.

#[local] Instance demo_blobs_ops : BlobOps (string -> string) := {|
  blob_Put data := gret data; blob_Exists _ _ := true; blob_Get bs h := Ok (bs h) |}.
#[local] Instance demo_no_mime : MimeHeaders := {| parseContentType _ := ("text/plain", ""); parsePartHeaders _ := mkPartHeaders "" "" "" "" "" |}.

(** ** A session *)

Definition pop_auth : authenticator MemDB AuthState := local_authenticator demo_auth.
Definition pop_config : popConfig := mkPopConfig true false "192.0.2.1".
Definition pop_db : MemDB := apply_all [demo_deliver "INBOX" "g1" 0; demo_deliver "INBOX" "g2" 0; demo_deliver "Trash" "g3" 0] demo_db.
Definition pop_blobs (h : string) : string := "Subject: " +:+ h +:+ CRLF +:+ CRLF +:+ ".hidden" +:+ CRLF.
Definition pop_line (line : string) (w : PopState MemDB AuthState) : option (popOutcome (PopState MemDB AuthState)) :=
  handle_line pop_auth pop_config pop_blobs 0 true (elements (se_deleted (po_session w))) (line +:+ CRLF) w.
Definition served (o : option (popOutcome (PopState MemDB AuthState))) : option (PopState MemDB AuthState) :=
  match o with Some (Serving w) => Some w | _ => None end.
Definition pop_start : PopState MemDB AuthState := greeted true pop_db demo_state (Some (Auth.New pop3MaxAuthFailures pop3AuthFailWindow)).
Definition pop_login (lines : list string) : option (PopState MemDB AuthState) :=
  foldl (fun o line => w ← o; served (pop_line line w)) (Some pop_start) lines.
Lemma pop_login_steps lines w : pop_login lines = Some w -> rtc (pop_step (B := string -> string) pop_auth pop_config) pop_start w.
Proof.
  unfold pop_login. revert w. induction lines as [|line lines IH] using rev_ind; intros w; [intros [= <-]; apply rtc_refl|].
  rewrite foldl_app. cbn [foldl]. destruct (foldl _ _ lines) as [w1|]; [|done]. cbn. intros Hw. eapply rtc_r; [by apply IH|].
  destruct (pop_line line w1) as [[w2|]|] eqn:E; [|done..]. injection Hw as ->. by eapply PopLine.
Qed.

(** Logged in, with the first message marked. *)
Definition pop_marked : PopState MemDB AuthState :=
  default pop_start (pop_login ["user ann@example.org"; "PASS hunter2"; "DELE 1"]).
Lemma pop_marked_ok : pop_login ["user ann@example.org"; "PASS hunter2"; "DELE 1"] = Some pop_marked.
Proof.
  unfold pop_marked. destruct (pop_login _) eqn:E; [done|]. exfalso.
  assert (bool_decide (is_Some (pop_login ["user ann@example.org"; "PASS hunter2"; "DELE 1"])) = true) as Hs by (vm_compute; reflexivity).
  apply bool_decide_eq_true in Hs as [w Hs]. congruence.
Qed.
Example pop_marked_out : po_out pop_marked =
  "+OK bongo POP3 ready" +:+ CRLF +:+ "+OK" +:+ CRLF +:+ "+OK 2 messages" +:+ CRLF +:+ "+OK message 1 deleted" +:+ CRLF.
Proof. vm_compute. reflexivity. Qed.

Lemma pop3_session_safe_witness :
  exists o, handle_line pop_auth pop_config pop_blobs 0 true [1] ("Quit" +:+ CRLF) pop_marked = Some o /\
    (po_db (outcome_state o) = po_db pop_marked \/
     cmd_of ("Quit" +:+ CRLF) = "QUIT" /\ se_authenticated (po_session pop_marked) = true /\ accountLive pop_auth pop_marked = Ok true /\
     po_db (outcome_state o) = moves "u1" (marked [1] (se_messages (po_session pop_marked))) (po_db pop_marked)).
Proof.
  destruct (pop3_session_safe pop_auth pop_config true pop_db demo_state (Some (Auth.New pop3MaxAuthFailures pop3AuthFailWindow))
    pop_marked pop_blobs 0 true [1] ("Quit" +:+ CRLF)) as (o&Ho&Hdb&_).
  - exact (pop_login_steps _ _ pop_marked_ok).
  - assert (Hd : elements (se_deleted (po_session pop_marked)) = [1]) by (vm_compute; reflexivity). rewrite Hd. reflexivity.
  - exists o. split; [exact Ho|]. assert (Hu : se_userID (po_session pop_marked) = "u1") by (vm_compute; reflexivity).
    rewrite Hu in Hdb. exact Hdb.
Defined.
(** And that QUIT does move the message. *)
Example quit_moves : match pop_line "QUIT" pop_marked with
  | Some (Closed w) => msg_MailGuid <$> msg_at (contents (po_db w)) "u1" "Trash" 2 = Some "g1" /\ msg_at (contents (po_db w)) "u1" "INBOX" 1 = None
  | _ => False end.
Proof. vm_compute. split; reflexivity. Qed.

(** ** QUIT after other activity *)

Definition quit_db0 : MemDB := apply_all [demo_deliver "INBOX" "g1" 0; demo_deliver "INBOX" "g2" 0; demo_deliver "Trash" "g3" 0] (mem_of []).
Definition quit_db1 : MemDB := (ApplyMailboxCommand (demo_deliver "INBOX" "g4" 0) quit_db0).1.
Lemma quit_db0_ok : mbox_inv (mem quit_db0) /\ healthy quit_db0.
Proof. apply run_check_ok; [by vm_compute|apply inv_empty]. Qed.
Lemma quit_run : mailbox_run "u1" "INBOX" quit_db0 quit_db1.
Proof.
  apply (run_step "u1" "INBOX" quit_db0 quit_db1 quit_db1 (demo_deliver "INBOX" "g4" 0) (ApplyMailboxCommand (demo_deliver "INBOX" "g4" 0) quit_db0).2).
  - apply quit_db0_ok.
  - apply room_check_ok. by vm_compute.
  - apply plain_check_ok. by vm_compute.
  - unfold quit_db1. apply surjective_pairing.
  - apply (bool_decide_unpack _). vm_compute. exact I.
  - apply run_done.
Qed.
Definition quit_snapshot : list popMsg := match loadInboxSnapshot quit_db0 "u1" with Ok l => l | Err _ => [] end.
Definition quit_db2 : MemDB := default quit_db1 (applyDeletions [2] "u1" quit_snapshot quit_db1).
Definition room_check_n (n : nat) (cn : gmap string string) : bool :=
  forallb (fun kv => match unmarshal kv.2 with Ok meta => mb_UidNext meta + Z.of_nat n <? 2 ^ 32 | Err _ => true end) (map_to_list cn).
Lemma room_check_n_ok n cn : room_check_n n cn = true -> room n cn.
Proof.
  intros Hc u m meta _. unfold meta_at. destruct (cn !! _) as [v|] eqn:E; [|done]. cbn.
  apply elem_of_map_to_list in E. apply forallb_forall with (x := (mailboxMetaKey u m, v)) in Hc; [|by apply list_elem_of_In].
  cbn in Hc |- *. case_match; [|done]. intros [= <-]. by apply Z.ltb_lt.
Qed.

Lemma pop3_quit_moves_what_was_listed_witness :
  msg_at (contents quit_db2) "u1" "INBOX" 3 = Some (mkMailboxMessage 3 "g4" 0 0 []) \/
  exists num pm, num ∈ [2] /\ quit_snapshot !! Z.to_nat (num - 1) = Some pm /\ pm_guid pm = "g4".
Proof.
  assert (Hin : in_u32 3) by (clear; unfold in_u32; lia).
  destruct (pop3_quit_moves_what_was_listed "u1" quit_db0 quit_snapshot quit_db1 [2] quit_db2) with (u' := "u1") (m := "INBOX") (uid := 3)
    (x := mkMailboxMessage 3 "g4" 0 0 []) as [Hk|(_&_&(num&pm&Hn&Hl&_&Hg)&_)].
  - apply quit_db0_ok.
  - reflexivity.
  - apply quit_db0_ok.
  - apply (unnested_check_ok _ _ _ [1; 2]). by vm_compute.
  - vm_compute. reflexivity.
  - exact quit_run.
  - apply healthy_check_ok. by vm_compute.
  - exact I.
  - apply room_check_n_ok. by vm_compute.
  - vm_compute. reflexivity.
  - reflexivity.
  - exact Hin.
  - vm_compute. reflexivity.
  - left. exact Hk.
  - right. exists num, pm. split; [exact Hn|]. split; [exact Hl|exact Hg].
Defined.

Definition demo_lines : list string := ["Subject: x"; ""; "."; ".."; "end"].

(** ** What RETR does not send

    The octet count announced is that of the stored message; blank lines at
    its end, among them the one that ends a header without a body, are not
    sent, and bare line feeds become CRLF. *)
Theorem retr_drops_trailing_blank_lines :
  let data := "Subject: x" +:+ CRLF +:+ CRLF +:+ CRLF in
  byteStuffed data (-1) = "Subject: x" +:+ CRLF +:+ "." +:+ CRLF /\ len data = 16.
Proof. vm_compute. split; reflexivity. Qed.
End Demo.
