(* ===== verification/Node.v ===== *)
(** The state machine as a whole node: snapshots, and the proof that the Raft
    apply path implements the interface the mailbox store is written against
    ([MailboxApplier]), so that the store's theorems hold on a real node. *)

From S2P Require Import Prelude GoStrings Utf8 Pebble Proto Mailbox MailboxInv MailboxLemmas MailboxSteps MailboxSpec UserData.
From S2P Require Import MailboxStore MailboxClient Notify QueueCommand Bayes Acl AclThm Credentials Queue QueueThm Fsm FsmThm.
From S2P Require Import Rules RulesMigrate Pop3Thm QueueRun.
From Stdlib Require Import Ascii.

(** * Snapshots *)

(** Writing entries with distinct keys lays them over the map. *)
Lemma apply_sets (l : list (string * string)) m :
  NoDup l.*1 -> apply_batch ((fun kv => BSet kv.1 kv.2) <$> l) m = list_to_map l ∪ m.
Proof.
  revert m. induction l as [|[k v] l IH]; intros m Hnd.
  { cbn. by rewrite map_empty_union. }
  cbn in Hnd. apply NoDup_cons in Hnd as [Hk Hnd]. cbn [fmap list_fmap fst snd]. rewrite apply_batch_cons, IH by done.
  cbn. rewrite <- insert_union_l, <- insert_union_r; [done|]. by apply not_elem_of_list_to_map_1.
Qed.

Section Snapshot.
Context {DB : Type} `{PebbleLaws DB}.
Implicit Types f : FSM DB.

Lemma stage_snapshot_ok l :
  stage_snapshot ((fun kv => (kv.1, Ok kv.2)) <$> l) = Ok ((fun kv => BSet kv.1 kv.2) <$> l).
Proof. induction l as [|[k v] l IH]; [done|]. cbn in *. by rewrite IH. Qed.

(** "/" is followed by "0": the cleared range holds the keys under "/". *)
Lemma slash_range k : in_bounds "/" (Some "0") k <-> HasPrefix k "/" = true.
Proof. apply (prefix_bounds "/"). Qed.

(** Restore.  On a healthy node and a healthy snapshot [Restore] succeeds
    and replaces the state machine's keys, those under "/": each has exactly
    the snapshot's value, or is gone if the snapshot has none. Keys
    outside "/" are not touched. *)
Theorem restore_replaces f snap :
  healthy (f_store f) -> healthy snap ->
  exists f', Restore snap f = (f', Ok tt) /\ healthy (f_store f') /\
    forall k, contents (f_store f') !! k =
      if HasPrefix k "/" then contents snap !! k else contents (f_store f) !! k.
Proof.
  intros Hf Hs.
  set (b := BDeleteRange "/" "0" :: ((fun kv => BSet kv.1 kv.2) <$> scan "/" (contents snap))).
  destruct (commit_healthy (f_store f) b Hf) as (s'&Hc&Hs').
  exists (with_store f s'). split; [|split; [done|]].
  { unfold Restore, gbind, glift. rewrite PrefixScan_healthy by done. cbn [wrapf].
    rewrite stage_snapshot_ok. unfold on_store, gwrap. fold b. by rewrite Hc. }
  intros k. cbn [f_store with_store]. apply commit_Ok in Hc as ->. unfold b.
  rewrite apply_batch_cons, apply_sets by apply range_NoDup. cbn [apply_op].
  destruct (HasPrefix k "/") eqn:Hp.
  - rewrite lookup_union_l.
    + apply option_eq. intros v. rewrite <- elem_of_list_to_map by apply range_NoDup. rewrite elem_of_scan.
      unfold HasPrefix in Hp. naive_solver.
    + apply map_lookup_filter_None. right. intros v _ Hn. by apply Hn, slash_range.
  - rewrite lookup_union_r.
    + apply option_eq. intros v. rewrite map_lookup_filter_Some. split; [by intros [? _]|].
      intros Hv. split; [done|]. intros Hn%slash_range. cbn [fst] in Hn. congruence.
    + apply not_elem_of_list_to_map_1. intros ([k' v]&->&Hin)%list_elem_of_fmap.
      apply elem_of_scan in Hin as [_ Hin]. unfold HasPrefix in Hp. cbn in *. congruence.
Qed.
End Snapshot.

(** * The node as the store's applier *)

Section Applier.
Context {DB : Type} `{PebbleLaws DB} `{MailCodecs} `{GoUnicode} `{CredCodecs} `{AclCodecs} `{FsmCodecLaws}.
Notation Node := (Node (DB := DB)).
Implicit Types (n : Node) (s : DB).

Definition n_store n : DB := f_store (n_fsm n).
Definition n_with n s : Node := mkNode (with_store (n_fsm n) s) (n_last n) (n_leader n).

(** Local reads on a node are reads of its store. *)
#[export] Instance node_pebble : PebbleDB Node := {|
  db_get n k := db_get (n_store n) k;
  db_iter n lo hi := db_iter (n_store n) lo hi;
  db_commit n b := let (s', e) := db_commit (n_store n) b in (n_with n s', e);
|}.
#[export] Instance node_laws : PebbleLaws Node.
Proof.
  refine {| contents n := contents (n_store n); healthy n := healthy (n_store n) |}.
  - intros n. exact (db_get_ok (n_store n)).
  - intros n. exact (db_get_absent (n_store n)).
  - intros n. exact (db_get_foreign (n_store n)).
  - intros n. exact (db_get_healthy (n_store n)).
  - intros n. exact (db_iter_sound (n_store n)).
  - intros n. exact (db_iter_healthy (n_store n)).
  - intros n b n'. cbn. destruct (db_commit (n_store n) b) as [s' e] eqn:E. intros [= <- ->]. by apply db_commit_ok in E.
  - intros n b n' e. cbn. destruct (db_commit (n_store n) b) as [s' e'] eqn:E. intros [= <- ->]. by eapply db_commit_err in E.
  - intros n b Hn. cbn. destruct (db_commit_healthy _ b Hn) as (s'&->&?). by exists (n_with n s').
Defined.

(** A store operation means the same on a node and on the node's store. *)
Definition lifts {A} (mN : GoM Node A) (m : GoM DB A) : Prop :=
  forall n, mN n = let (s', r) := m (n_store n) in (n_with n s', r).

Lemma n_with_id n : n_with n (n_store n) = n.
Proof. by destruct n as [[] ? ?]. Qed.
Lemma lifts_read {A} (x : Node -> result A) (y : DB -> result A) :
  (forall n, x n = y (n_store n)) -> lifts (gread x) (gread y).
Proof. intros E n. unfold gread. by rewrite E, n_with_id. Qed.
Lemma lifts_lift {A} (x : result A) : lifts (glift x) (glift x).
Proof. intros n. unfold glift. by rewrite n_with_id. Qed.
Lemma lifts_fail {A} e : lifts (A := A) (gfail e) (gfail e).
Proof. intros n. unfold gfail. by rewrite n_with_id. Qed.
Lemma lifts_ret {A} (a : A) : lifts (gret a) (gret a).
Proof. intros n. unfold gret. by rewrite n_with_id. Qed.
Lemma lifts_bind {A B} (mN : GoM Node A) m (kN : A -> GoM Node B) k :
  lifts mN m -> (forall a, lifts (kN a) (k a)) -> lifts (gbind mN kN) (gbind m k).
Proof. intros Hm Hk n. unfold gbind. rewrite Hm. destruct (m (n_store n)) as [s' [a|e]]; [|done]. by rewrite Hk. Qed.
Lemma lifts_wrap {A} t (mN : GoM Node A) m : lifts mN m -> lifts (gwrap t mN) (gwrap t m).
Proof. intros Hm n. unfold gwrap. rewrite Hm. by destruct (m (n_store n)). Qed.
Lemma lifts_commit b : lifts (commit b) (commit b).
Proof. intros n. unfold commit. cbn. by destruct (db_commit (n_store n) b) as [s' []]. Qed.
Lemma lifts_sync fn : lifts (commitSyncBatch fn) (commitSyncBatch fn).
Proof. apply lifts_bind; [apply lifts_lift|]. intros b. apply lifts_wrap, lifts_commit. Qed.

Ltac lifts :=
  repeat first
    [ apply lifts_ret | apply lifts_fail | apply lifts_lift | apply lifts_sync
    | apply lifts_read; intros ?; reflexivity
    | apply lifts_bind; [|intros ?]
    | match goal with
      | |- lifts (if ?b then _ else _) _ => destruct b
      | |- lifts (match ?p with pair _ _ => _ end) _ => destruct p
      end ].

Lemma mailbox_lifts cmd : lifts (ApplyMailboxCommand cmd) (ApplyMailboxCommand cmd).
Proof.
  unfold ApplyMailboxCommand, no_result, applyMailboxAppend, applyMailboxCopy, applyMailboxDelete,
    applyMailboxDelivery, applyMailboxExpunge, applyMailboxMove, applyMailboxRename, applyMailboxSubscribe.
  lifts.
Qed.

(** ** The apply path *)

#[export] Instance node_applier : RaftApplier Node := node_ApplyCommand.

(** A leader whose store is not ahead of its log, with log indices left. *)
Definition node_ready n : Prop :=
  n_leader n = true /\ appliedIndex (n_store n) <= n_last n /\ 0 <= n_last n < 2 ^ 64 - 1.

Lemma setAppliedIndex_other idx (f : FSM DB) k :
  k <> raftAppliedIndexKey -> contents (f_store (setAppliedIndex idx f)) !! k = contents (f_store f) !! k.
Proof.
  intros Hk. unfold setAppliedIndex. cbn [f_store with_store].
  destruct (Set_ raftAppliedIndexKey (be_put 8 idx) (f_store f)) as [s' [u|e]] eqn:E; cbn [fst].
  - apply Set_Ok in E as ->. by rewrite lookup_insert_ne.
  - by apply Set_Err in E as ->.
Qed.

(** On a ready node a command takes the next index, is applied, and its answer returned. *)
Lemma node_apply cmd n :
  node_ready n -> cmd_Op cmd <> OP_UNSPECIFIED ->
  node_ApplyCommand cmd n =
    let (f1, r) := applyProto cmd (n_fsm n) in
    (mkNode (setAppliedIndex (n_last n + 1) f1) (n_last n + 1) true, wrapf "fsm apply" r).
Proof.
  intros (Hl&Hw&Hi) Hop. unfold node_ApplyCommand. rewrite Hl. cbn [negb].
  destruct (proto_total cmd (fl_cmd_clean cmd)) as [data Hd]. rewrite Hd.
  unfold Apply. cbn [log_Index]. unfold n_store in Hw.
  replace (n_last n + 1 =? 0) with false by lia.
  replace (n_last n + 1 <=? appliedIndex (f_store (n_fsm n))) with false by lia. cbn [negb andb].
  unfold applyEntry. cbn [log_Data]. rewrite (proto_roundtrip _ _ Hd).
  destruct (cmd_Op cmd); [done|by destruct (applyProto cmd (n_fsm n))..].
Qed.

Lemma node_stays_ready cmd n :
  healthy (n_store n) -> node_ready n -> cmd_Op cmd <> OP_UNSPECIFIED -> n_last n + 1 < 2 ^ 64 - 1 ->
  healthy (n_store (node_ApplyCommand cmd n).1) /\ node_ready (node_ApplyCommand cmd n).1.
Proof.
  intros Hs Hr Hop Hi. rewrite node_apply by done.
  destruct (applyProto cmd (n_fsm n)) as [f1 r] eqn:E. apply applyProto_keeps in E; [|done].
  destruct Hr as (_&_&?). destruct (setAppliedIndex_spec (n_last n + 1) f1) as [Hh Ha]; [done|lia|].
  unfold node_ready, n_store. cbn [fst n_fsm n_last n_leader]. rewrite Ha. split; [exact Hh|]. split; [done|]. lia.
Qed.

(** C20: refinement of the mailbox operations by the replicated path.  A
    mailbox command submitted on a ready leader is encoded, logged, decoded,
    applied with its notifications and index work, and the watermark moved.  The outcome is that of
    running the command directly on the store: same answer, an error wrapped as
    an FSM error, and the same contents but for the watermark, which is the
    entry's index; and the node stays ready. *)
Theorem node_refines_mailbox_command cmd n s1 r1 :
  healthy (n_store n) -> node_ready n -> n_last n + 1 < 2 ^ 64 - 1 ->
  cmd_Op cmd = OP_PUT -> IsMailboxSyntheticCommand (cmd_Key cmd) = true ->
  ApplyMailboxCommand cmd (n_store n) = (s1, r1) ->
  exists n', node_ApplyCommand cmd n = (n', wrapf "fsm apply" (let? _ := r1 in Ok tt)) /\
    (forall k, k <> raftAppliedIndexKey -> contents (n_store n') !! k = contents s1 !! k) /\
    appliedIndex (n_store n') = n_last n + 1 /\ healthy (n_store n') /\ node_ready n'.
Proof.
  intros Hs Hr Hi Hop Hk Hrun.
  assert (cmd_Op cmd <> OP_UNSPECIFIED) as Hop' by (by rewrite Hop).
  destruct (node_stays_ready cmd n Hs Hr Hop' Hi) as [Hs' Hr'].
  pose proof (node_apply cmd n Hr Hop') as Hn.
  assert (exists f1, applyProto cmd (n_fsm n) = (f1, let? _ := r1 in Ok tt) /\ f_store f1 = s1) as (f1&Hp&<-).
  { unfold applyProto, is_put. rewrite Hop, Hk. cbn [andb bool_decide decide decide_rel Op_eq_dec].
    unfold on_store. fold (n_store n). rewrite Hrun. destruct r1 as [x|e]; cbn [result_bind]; eexists; split; try reflexivity.
    cbn [f_store with_events]. rewrite handleResult_store. reflexivity. }
  rewrite Hp in Hn. rewrite Hn in Hs', Hr' |- *. eexists. split; [done|]. split; [|split; [|done]].
  - intros k Hne. by apply setAppliedIndex_other.
  - apply applyProto_keeps in Hp; [|done]. destruct Hr as (_&_&?).
    by apply setAppliedIndex_spec; [|lia].
Qed.

Lemma user_key_not_synthetic k :
  HasPrefix k "/user/" = true ->
  IsMailboxSyntheticCommand k = false /\ IsQueueSyntheticCommand k = false /\ IsBayesSyntheticCommand k = false /\
  IsACLSyntheticCommand k = false /\ IsAppPasswordSyntheticCommand k = false /\ IsAppPasswordTicketCommand k = false.
Proof. intros [r ->]%prefix_spec. by vm_compute. Qed.

(** A node discharges the interface of the mailbox store. *)
#[export] Instance node_mailbox_applier : MailboxApplier Node.
Proof.
  refine {| own k := String.eqb k raftAppliedIndexKey; ready := node_ready |}.
  - by intros k ->%String.eqb_eq.
  - intros cmd n n' Hr Hop Hk. unfold ApplyCommand, node_applier. rewrite node_apply by (done || by rewrite Hop).
    unfold applyProto, is_put. rewrite Hop, Hk. cbn [andb bool_decide decide decide_rel Op_eq_dec].
    unfold on_store. fold (n_store n). pose proof (mailbox_lifts cmd n) as Hl.
    destruct (ApplyMailboxCommand cmd (n_store n)) as [s1 [x|e]]; intros [= <-].
    exists (n_with n s1), x. split; [exact Hl|]. intros k Hne%String.eqb_neq.
    cbn [contents node_laws]. unfold n_store. cbn [n_fsm n_with f_store with_store]. rewrite setAppliedIndex_other by done. cbn [f_store with_events].
    by rewrite handleResult_store.
  - intros key v n n' Hr Hk. unfold ApplyCommand, node_applier. rewrite node_apply by done.
    destruct (user_key_not_synthetic key Hk) as (H1'&H2'&H3'&H4'&H5'&H6').
    unfold applyProto. cbn [cmd_Key cmd_Op cmd_Value]. rewrite H1', H2', H3', H4', H5', H6', !andb_false_r.
    cbn [plain_write]. unfold on_store. fold (n_store n).
    destruct (Set_ key v (n_store n)) as [s1 [x|e]] eqn:E; intros [= <-].
    intros k Hne%String.eqb_neq. cbn [contents node_laws]. unfold n_store in *. cbn [n_fsm]. rewrite setAppliedIndex_other by done.
    cbn [f_store with_events]. rewrite updateDerived_store. cbn [f_store with_store]. apply Set_Ok in E. by rewrite E.
Defined.

Lemma queue_key_not_synthetic k :
  HasPrefix k "/queue/" = true ->
  IsMailboxSyntheticCommand k = false /\ IsQueueSyntheticCommand k = false /\ IsBayesSyntheticCommand k = false /\
  IsACLSyntheticCommand k = false /\ IsAppPasswordSyntheticCommand k = false /\ IsAppPasswordTicketCommand k = false.
Proof. intros [r ->]%prefix_spec. by vm_compute. Qed.
Lemma queue_move_not_mailbox k : IsQueueSyntheticCommand k = true -> IsMailboxSyntheticCommand k = false.
Proof. intros [r ->]%prefix_spec. by vm_compute. Qed.

(** Applying a queue command: its effect, or an error and no change. *)
Lemma applyProto_queue cmd (f f' : FSM DB) r :
  queue_command cmd -> applyProto cmd f = (f', r) ->
  (is_ok r = false /\ contents (f_store f') = contents (f_store f)) \/
  queue_effect cmd (contents (f_store f)) = Some (contents (f_store f')).
Proof.
  intros Hc. unfold applyProto, queue_effect, is_put. cbv zeta.
  assert (is_put cmd && IsQueueSyntheticCommand (cmd_Key cmd) = true /\ IsMailboxSyntheticCommand (cmd_Key cmd) = false \/
    HasPrefix (cmd_Key cmd) "/queue/" = true /\ cmd_Op cmd <> OP_UNSPECIFIED) as [[Hq Hm]|[Hk Hop]].
  { destruct Hc as [[Hq Hp]|Hk]; [left|by right]. unfold is_put. rewrite Hp, Hq. split; [done|by apply queue_move_not_mailbox]. }
  - apply andb_true_iff in Hq as [Hp Hq]. unfold is_put in Hp. apply bool_decide_eq_true in Hp. rewrite Hp, Hm, Hq.
    cbn [andb bool_decide decide decide_rel Op_eq_dec]. unfold on_store.
    destruct (ApplyQueueCommand cmd (f_store f)) as [s1 [u|e]] eqn:E; intros [= <- <-]; cbn [f_store with_store].
    + right. by apply queue_move_Ok in E as (p&->&->).
    + left. by apply queue_move_Err in E.
  - destruct (queue_key_not_synthetic _ Hk) as (H1'&H2'&H3'&H4'&H5'&H6').
    rewrite H1', H2', H3', H4', H5', H6', !andb_false_r. unfold on_store.
    destruct (cmd_Op cmd) eqn:Ho; [done|..]; cbn [plain_write].
    + destruct (Set_ _ _ (f_store f)) as [s1 [u|e]] eqn:E; intros [= <- <-]; cbn [f_store with_store with_events].
      * right. rewrite updateDerived_store. cbn. by apply Set_Ok in E as ->.
      * left. by apply Set_Err in E.
    + destruct (Delete _ (f_store f)) as [s1 [u|e]] eqn:E; intros [= <- <-]; cbn [f_store with_store with_events].
      * right. rewrite updateDerived_store. cbn. by apply Delete_Ok in E as ->.
      * left. by apply Delete_Err in E.
Qed.

(** A node discharges the interface of the queue store, too. *)
#[export] Instance node_queue_applier : QueueApplier Node.
Proof.
  refine {| qown k := String.eqb k raftAppliedIndexKey; qready n := node_ready n |}.
  - intros k [r ->]%prefix_spec. by vm_compute.
  - intros cmd n n' r Hr Hc Ha. unfold ApplyCommand, node_applier in Ha.
    assert (cmd_Op cmd <> OP_UNSPECIFIED) as Ho by (destruct Hc as [[_ ->]|[_ ?]]; done).
    rewrite node_apply in Ha by done. destruct (applyProto cmd (n_fsm n)) as [f1 r1] eqn:E. injection Ha as <- <-.
    assert (forall k, String.eqb k raftAppliedIndexKey = false ->
      contents (f_store (setAppliedIndex (n_last n + 1) f1)) !! k = contents (f_store f1) !! k) as Hs.
    { intros k Hk%String.eqb_neq. by apply setAppliedIndex_other. }
    apply applyProto_queue in E as [[Hok Hcon]|Heff]; [left|right|done].
    + split; [by destruct r1|]. intros k Hk. cbn. unfold n_store. cbn [n_fsm]. rewrite Hs by done. by rewrite Hcon.
    + eexists. split; [exact Heff|]. intros k Hk. cbn. unfold n_store. cbn [n_fsm]. by apply Hs.
Defined.

(** On a healthy store a queue command that can be carried out is. *)
Lemma applyProto_queue_succeeds cmd (f : FSM DB) :
  healthy (f_store f) -> queue_doable cmd -> exists f', applyProto cmd f = (f', Ok tt).
Proof.
  intros Hs [Hc Hmove]. unfold applyProto, is_put. cbv zeta.
  destruct Hc as [[Hq Hp]|[Hk Hop]].
  - rewrite Hp, Hq, (queue_move_not_mailbox _ Hq). cbn [andb bool_decide decide decide_rel Op_eq_dec]. unfold on_store.
    destruct (Hmove Hq Hp) as (p&Hu&Hn). destruct (queue_move_succeeds cmd p (f_store f)) as (s'&->&_); [done..|]. eauto.
  - destruct (queue_key_not_synthetic _ Hk) as (H1'&H2'&H3'&H4'&H5'&H6').
    rewrite H1', H2', H3', H4', H5', H6', !andb_false_r. unfold on_store. destruct (cmd_Op cmd); [done|..]; cbn [plain_write].
    + destruct (Set_healthy (f_store f) (cmd_Key cmd) (cmd_Value cmd) Hs) as (s'&->&_). eauto.
    + destruct (Delete_healthy (f_store f) (cmd_Key cmd) Hs) as (s'&->&_). eauto.
Qed.

(** So a node is reliable for the queue worker, for as many commands as it has
    log indices left. *)
#[export] Instance node_reliable_queue : ReliableQueue Node.
Proof.
  refine {| qbudget c n := node_ready n /\ n_last n + Z.of_nat c < 2 ^ 64 - 1 |}.
  - intros b b' n Hb [Hr Hi]. split; [done|lia].
  - by intros b n [Hr _].
  - intros b cmd n Hs [Hr Hi] Hd. pose proof Hd as [Hc _].
    assert (cmd_Op cmd <> OP_UNSPECIFIED) as Ho by (destruct Hc as [[_ ->]|[_ ?]]; done).
    unfold ApplyCommand, node_applier. destruct (node_stays_ready cmd n Hs Hr Ho ltac:(lia)) as [Hs' Hr'].
    rewrite node_apply in Hs', Hr' |- * by done.
    destruct (applyProto_queue_succeeds cmd (n_fsm n) Hs Hd) as [f1 E]. rewrite E in Hs', Hr' |- *.
    eexists. split; [reflexivity|]. split; [exact Hs'|]. split; [exact Hr'|]. cbn [n_last]. lia.
Defined.

(** A node discharges the interface of sequences of plain writes: it is ready
    for as many commands as it has log indices left. *)
Lemma plain_not_synthetic cmd k :
  plain_command cmd -> k = cmd_Key cmd ->
  IsMailboxSyntheticCommand k = false /\ IsQueueSyntheticCommand k = false /\ IsBayesSyntheticCommand k = false /\
  IsACLSyntheticCommand k = false /\ IsAppPasswordSyntheticCommand k = false /\ IsAppPasswordTicketCommand k = false.
Proof. intros [[Hk|Hk] _] ->; [by apply user_key_not_synthetic|]. apply prefix_spec in Hk as [r ->]. by vm_compute. Qed.
Lemma applyProto_plain cmd (f f' : FSM DB) r :
  plain_command cmd -> applyProto cmd f = (f', r) ->
  contents (f_store f') = if is_ok r then plain_result cmd (contents (f_store f)) else contents (f_store f).
Proof.
  intros Hk. pose proof (proj2 Hk) as Hop. destruct (plain_not_synthetic _ _ Hk eq_refl) as (H1'&H2'&H3'&H4'&H5'&H6').
  unfold applyProto, plain_result, is_put. rewrite H1', H2', H3', H4', H5', H6', !andb_false_r. unfold on_store.
  destruct (cmd_Op cmd) eqn:Ho; [done|..]; cbn [plain_write].
  - destruct (Set_ _ _ (f_store f)) as [s1 [x|e]] eqn:E; intros [= <- <-]; cbn [f_store with_store with_events is_ok].
    + rewrite updateDerived_store. by apply Set_Ok in E.
    + by apply Set_Err in E.
  - destruct (Delete _ (f_store f)) as [s1 [x|e]] eqn:E; intros [= <- <-]; cbn [f_store with_store with_events is_ok].
    + rewrite updateDerived_store. by apply Delete_Ok in E.
    + by apply Delete_Err in E.
Qed.
#[export] Instance node_plain_applier : PlainApplier Node.
Proof.
  refine {| pown k := String.eqb k raftAppliedIndexKey; pready c n := node_ready n /\ n_last n + Z.of_nat c < 2 ^ 64 - 1 |}.
  - by intros k ->%String.eqb_eq.
  - intros c c' n Hc [Hr Hi]. split; [done|lia].
  - intros c cmd n n' r [Hr Hi] Hs Hk Ha. unfold ApplyCommand, node_applier in Ha. pose proof (proj2 Hk) as Hop.
    destruct (node_stays_ready cmd n Hs Hr Hop ltac:(lia)) as [Hs' Hr'].
    rewrite Ha in Hs', Hr'. rewrite node_apply in Ha by done. destruct (applyProto _ (n_fsm n)) as [f1 r1] eqn:E. injection Ha as <- <-.
    apply applyProto_plain in E; [|done]. split; [exact Hs'|]. split; [split; [exact Hr'|cbn [n_last]; lia]|].
    intros k Hne%String.eqb_neq. cbn [contents node_laws]. unfold n_store in *. cbn [n_fsm]. rewrite setAppliedIndex_other, E by done.
    by destruct r1.
Defined.
(** And that of sequences of mailbox commands. *)
#[export] Instance node_seq_applier : MailboxSeqApplier Node.
Proof.
  refine {| sown k := String.eqb k raftAppliedIndexKey; sready c n := node_ready n /\ n_last n + Z.of_nat c < 2 ^ 64 - 1 |}.
  - by intros k ->%String.eqb_eq.
  - intros c c' n Hc [Hr Hi]. split; [done|lia].
  - intros c cmd n n' r [Hr Hi] Hs Hop Hk Ha. unfold ApplyCommand, node_applier in Ha.
    assert (cmd_Op cmd <> OP_UNSPECIFIED) as Hop' by (by rewrite Hop).
    destruct (node_stays_ready cmd n Hs Hr Hop' ltac:(lia)) as [Hs' Hr']. rewrite Ha in Hs', Hr'.
    rewrite node_apply in Ha by done. unfold applyProto, is_put in Ha. rewrite Hop, Hk in Ha.
    cbn [andb bool_decide decide decide_rel Op_eq_dec] in Ha. unfold on_store in Ha. fold (n_store n) in Ha.
    pose proof (mailbox_lifts cmd n) as Hl. destruct (ApplyMailboxCommand cmd (n_store n)) as [s1 [x|e]] eqn:E; injection Ha as <- <-;
      (split; [exact Hs'|]; split; [split; [exact Hr'|cbn [n_last]; lia]|]).
    + right. exists (n_with n s1), x. split; [exact Hl|]. intros k Hne%String.eqb_neq.
      cbn [contents node_laws]. unfold n_store. cbn [n_fsm n_with f_store with_store]. rewrite setAppliedIndex_other by done. cbn [f_store with_events].
      by rewrite handleResult_store.
    + left. intros k Hne%String.eqb_neq. cbn [contents node_laws]. unfold n_store in *. cbn [n_fsm].
      rewrite setAppliedIndex_other by done. cbn [f_store with_store]. by rewrite (command_error _ _ _ _ E).
Defined.
#[export] Instance node_user_applier : UserApplier Node := plain_user.
End Applier.

(** * Concrete runs *)

Section Demo.
#[local] Existing Instances demo_codecs demo_codec_laws bytewise_unicode demo_cred demo_cred_laws demo_acl demo_acl_laws.

Definition demo_fsm_codecs : FsmCodecs := {|
  fc_cmd := tagged_codec "R"; fc_legacy := tagged_codec "J"; fc_profile := tagged_codec "P";
  fc_move := json_codec (fun _ => True); fc_train := json_codec (fun _ => True);
|}.
Definition demo_fsm_laws : @FsmCodecLaws demo_fsm_codecs :=
  @Build_FsmCodecLaws demo_fsm_codecs (tagged_proto "R") (fun _ => I).
#[local] Existing Instances demo_fsm_codecs demo_fsm_laws.

Definition fsm0 : FSM MemDB := mkFSM (mem_of []) true false (Some []) [] [].
Definition entry (i : Z) (cmd : RaftCommand) : RaftLog :=
  mkLog i (match marshal cmd with Ok v => v | Err _ => "" end).
Definition log1 : RaftLog := entry 1 (demo_deliver "INBOX" "g1" 0).
Definition log2 : RaftLog := entry 2 (demo_deliver "INBOX" "g2" 0).
Definition log3 : RaftLog := entry 3 (mkCmd OP_DELETE "/config/x" "").

Lemma fsm0_healthy : healthy (f_store fsm0).
Proof. split; [reflexivity|]. split; reflexivity. Defined.
Lemma demo_log_ok : log_ok ([log1] ++ [log2] ++ [log3]).
Proof. split; cbn [app]; repeat constructor. Defined.

(** A node started again on the store of [f]. *)
Definition restarted (f : FSM MemDB) : FSM MemDB := mkFSM (f_store f) false true None [] [].
Lemma restarted_store f : f_store (restarted f) = f_store f.
Proof. reflexivity. Qed.

(** A node restarted after two deliveries and fed the log from entry 2 on. *)
Lemma replay_after_restart_witness :
  f_store (run ([log2] ++ [log3]) (restarted (run ([log1] ++ [log2]) fsm0))) =
  f_store (run ([log1] ++ [log2] ++ [log3]) fsm0).
Proof.
  exact (replay_after_restart [log1] [log2] [log3] fsm0 (restarted (run ([log1] ++ [log2]) fsm0))
           fsm0_healthy demo_log_ok (restarted_store _)).
Defined.

Lemma replicas_agree_witness :
  f_store (run [log1] fsm0) = f_store (run [log1] (restarted fsm0)) /\
  (Apply log2 (run [log1] fsm0)).2 = (Apply log2 (run [log1] (restarted fsm0))).2.
Proof. exact (replicas_agree [log1] fsm0 (restarted fsm0) log2 (eq_sym (restarted_store fsm0))). Defined.

Definition del_g1 : RaftCommand := mkCmd OP_DELETE (mailMetaKey "u1" "g1") "".
Definition put_g1 : RaftCommand := mkCmd OP_PUT (mailMetaKey "u1" "g1") "g1".
Lemma index_updates_in_commit_order_witness :
  calls_on "u1" "g1" (f_index (drain (ix_run [IxUpdate put_g1; IxUpdate del_g1; IxWork; IxUpdate put_g1] fsm0))) =
  [IndexMail "u1" "g1" (demo_mail "g1"); DeleteMail "u1" "g1"; IndexMail "u1" "g1" (demo_mail "g1")].
Proof.
  rewrite (index_updates_in_commit_order "u1" "g1" _ fsm0); [reflexivity|reflexivity|].
  repeat split; apply Nat.ltb_lt; reflexivity.
Defined.

Lemma restore_replaces_witness :
  exists f', Restore (mem_of [("/a", "1")]) (mkFSM (mem_of [("/a", "0"); ("/b", "2")]) false false None [] []) = (f', Ok tt) /\
    contents (f_store f') !! "/a" = Some "1" /\ contents (f_store f') !! "/b" = None.
Proof.
  destruct (restore_replaces (mkFSM (mem_of [("/a", "0"); ("/b", "2")]) false false None [] []) (mem_of [("/a", "1")]))
    as (f'&Hr&_&Hk); [split; [reflexivity|split; reflexivity]..|].
  exists f'. split; [exact Hr|]. split; rewrite Hk; reflexivity.
Defined.

Definition node0 : Node := mkNode fsm0 0 true.
Lemma node_refines_mailbox_command_witness :
  exists n', node_ApplyCommand (demo_deliver "INBOX" "g1" 0) node0 = (n', Ok tt) /\ appliedIndex (n_store n') = 1.
Proof.
  destruct (ApplyMailboxCommand (demo_deliver "INBOX" "g1" 0) (n_store node0)) as [s1 r1] eqn:E.
  destruct (node_refines_mailbox_command (demo_deliver "INBOX" "g1" 0) node0 s1 r1) as (n'&Hn&_&Ha&_).
  - exact fsm0_healthy.
  - split; [reflexivity|]. split; [vm_compute; discriminate|]. split; [vm_compute; discriminate|vm_compute; reflexivity].
  - vm_compute. reflexivity.
  - reflexivity.
  - vm_compute. reflexivity.
  - exact E.
  - exists n'. split; [|exact Ha]. rewrite Hn.
    assert (r1 = (ApplyMailboxCommand (demo_deliver "INBOX" "g1" 0) (n_store node0)).2) as -> by (rewrite E; reflexivity).
    vm_compute. reflexivity.
Defined.

(** Two rules of the old shape, migrated on a node. *)
Definition demo_rule (id : string) (prio : Z) (value : string) (a : FilterAction) : FilterRule :=
  mkRule id "" prio true [mkCondition "subject" "contains" value] (Some a) false 0 0 [] "".
Definition rule_codec : Codec FilterRule := tagged_codec "F".
Definition rule_laws : @ProtoLaws FilterRule rule_codec := tagged_proto "F".
#[local] Existing Instances rule_codec rule_laws.
Definition rule_bytes (r : FilterRule) : string := match marshal r with Ok v => v | Err _ => "" end.
Definition demo_r1 : FilterRule := demo_rule "r1" 1 "sale" (mkAction "move" "Shop" []).
Definition demo_r2 : FilterRule := demo_rule "r2" 2 "big" (mkAction "delete" "" []).
Definition node_rules : Node :=
  mkNode (mkFSM (mem_of [(ruleKey "u1" "r1", rule_bytes demo_r1); (ruleKey "u1" "r2", rule_bytes demo_r2)]) true false None [] []) 7 true.
Definition no_regexp : GoRegexp := fun _ => None.
#[local] Existing Instance no_regexp.
Lemma node_rules_tidy : tidy (contents node_rules) "u1".
Proof.
  split; [reflexivity|]. intros k v Hk _.
  change ((list_to_map [(ruleKey "u1" "r1", rule_bytes demo_r1); (ruleKey "u1" "r2", rule_bytes demo_r2)] : gmap string string) !! k = Some v) in Hk.
  apply elem_of_list_to_map_2 in Hk. apply elem_of_cons in Hk as [E|[E|[]%not_elem_of_nil]%elem_of_cons].
  - exists "r1". split; [exact (f_equal fst E)|reflexivity].
  - exists "r2". split; [exact (f_equal fst E)|reflexivity].
Qed.
Lemma migration_keeps_first_match_witness :
  exists n' rules', MigrateFirstMatch None node_rules = (n', (2, None)) /\ Rules.List_ n' "u1" = Ok rules' /\
    forall msg, MatchingRules rules' msg ≫= RuleActions = option_list (Evaluate [demo_r1; demo_r2] msg).
Proof.
  assert (Hcr : (MigrateFirstMatch None node_rules).2 = (2, None)) by (vm_compute; reflexivity).
  destruct (MigrateFirstMatch None node_rules) as [n' [c r]] eqn:E. cbn [snd] in Hcr. injection Hcr as -> ->.
  destruct (migration_keeps_first_match None node_rules n' 2 None) as [_ Hl].
  - split; [reflexivity|]. split; reflexivity.
  - split; [|vm_compute; reflexivity]. split; [reflexivity|]. split; [vm_compute; discriminate|split; [vm_compute; discriminate|vm_compute; reflexivity]].
  - exact E.
  - destruct (Hl eq_refl "u1" [demo_r1; demo_r2] node_rules_tidy) as (rules'&HL&Hm); [vm_compute; reflexivity|repeat constructor|].
    exists n', rules'. split; [reflexivity|]. split; [exact HL|exact Hm].
Defined.

(** ** The gap between the entry and its watermark *)

(** A crash after the entry was written and before the watermark was: the
    replay applies the delivery again and the message is filed twice. *)
Theorem crash_before_watermark_delivers_twice :
  let crashed := (applyEntry log1 fsm0).1 in
  let s := f_store (Apply log1 crashed).1 in
  (msg_MailGuid <$> (match ListMessages s "u1" "INBOX" with Ok l => l | Err _ => [] end)) = ["g1"; "g1"].
Proof. vm_compute. reflexivity. Qed.

(** An entry that fails for a local reason, an unreadable mailbox record, is
    marked as applied: when the fault is gone, the replay skips it and this replica never
    has the message the others filed. *)
Definition fsm_faulty : FSM MemDB :=
  mkFSM (mkMemDB ∅ {[ mailboxMetaKey "u1" "INBOX" ]} false false) true false (Some []) [] [].
Theorem failed_entry_is_never_retried :
  let (f1, r) := Apply log1 fsm_faulty in
  is_ok r = false /\
  let healed := mkFSM (mkMemDB (mem (f_store f1)) ∅ false false) true false (Some []) [] [] in
  (Apply log1 healed).1 = healed /\ ListMessages (f_store healed) "u1" "INBOX" = Ok [].
Proof. vm_compute. repeat split. Qed.
End Demo.
