(* ===== verification/TagStore.v ===== *)
(** Tag definitions of a user ([internal/store/tag_store.go]) and the folding of
    labels into tag names ([internal/tagname/tagname.go]). *)

From S2P Require Import Prelude GoStrings Pebble Proto UserData Acl Directory Mailbox MailHeaders.
From Stdlib Require Import Ascii.

Record TagMeta := mkTag { tg_Name : string; tg_ColourIndex : Z; tg_CreatedAt : Z; tg_SortOrder : Z }.
#[global] Instance TagMeta_eq_dec : EqDecision TagMeta. Proof. solve_decision. Defined.
#[global] Instance TagMeta_countable : Countable TagMeta.
Proof.
  apply (inj_countable' (fun t => (tg_Name t, tg_ColourIndex t, tg_CreatedAt t, tg_SortOrder t)) (fun '(a, b, c, d) => mkTag a b c d)).
  by intros [].
Defined.
Record TagWithCount := mkTagCount { tc_Tag : TagMeta; tc_Count : Z }.

Definition tagColourPaletteSize : Z := 16.
Definition tagKey (userID name : string) : string := "/user/" +:+ userID +:+ "/tag/" +:+ name.
Definition tagPrefix (userID : string) : string := "/user/" +:+ userID +:+ "/tag/".

(** * The store *)

Section Tags.
Context {DB : Type} `{PebbleDB DB} `{Codec TagMeta} `{Codec MailMeta} `{RaftApplier DB}.
Implicit Types ps : DB.

Definition GetTag ps (userID name : string) : result TagMeta :=
  let? data := wrapf ("tag " +:+ quote name) (Get ps (tagKey userID name)) in
  wrapf ("parsing tag " +:+ quote name) (unmarshal data).

Definition countTags ps (userID : string) : result Z :=
  let? it := wrapf "counting tags" (PrefixScan ps (tagPrefix userID)) in Ok (Z.of_nat (length it)).

(** Tags with the same order are sorted by name. *)
Definition tag_less (a b : TagMeta) : bool :=
  (tg_SortOrder a <? tg_SortOrder b) || (tg_SortOrder a =? tg_SortOrder b) && bool_decide (str_lt (tg_Name a) (tg_Name b)).

Definition countTagsFromMailMeta ps (userID : string) (tags : list TagMeta) : result (gmap string Z) :=
  let? it := wrapf "scanning mail meta for tag counts" (PrefixScan ps (mailMetaPrefix userID)) in
  let? metas := collect (fun _ v =>
    let? val := wrapf "reading mail meta value" (iter_value v) in
    Ok (match unmarshal val with Ok meta => Some (mm_Tags meta) | Err _ => None end)) it in
  Ok (foldl (fun counts t => if bool_decide (t ∈ tg_Name <$> tags) then <[t := default 0 (counts !! t) + 1]> counts else counts)
        ∅ (concat metas)).

Definition ListTags ps (userID : string) : result (list TagWithCount) :=
  let? it := wrapf "listing tags" (PrefixScan ps (tagPrefix userID)) in
  let? tags := collect (fun _ v =>
    let? val := wrapf "reading tag value" (iter_value v) in
    Ok (match unmarshal val with Ok meta => Some meta | Err _ => None end)) it in
  let tags := SliceStable tag_less tags in
  let counts := match countTagsFromMailMeta ps userID tags with Ok m => m | Err _ => ∅ end in
  Ok ((fun t => mkTagCount t (default 0 (counts !! tg_Name t))) <$> tags).

Definition putTag (userID : string) (meta : TagMeta) (text failure : string) : GoM DB unit :=
  let! data := glift (wrapf text (marshal meta)) in
  gwrap failure (ApplyCommand (mkCmd OP_PUT (tagKey userID (tg_Name meta)) data)).

(** [now] is the clock in Unix seconds. *)
Definition CreateTag (now : Z) (userID name : string) : GoM DB TagMeta := fun ps =>
  match ValidateTagName name with
  | Some e => (ps, Err e)
  | None =>
      if is_ok (Get ps (tagKey userID name)) then (ps, Err (Errorf ("tag " +:+ quote name +:+ " already exists"))) else
      (let! existing := gread (fun ps => wrapf "counting tags" (countTags ps userID)) in
       if Z.of_nat MaxTagsPerUser <=? existing then gfail (Errorf "user has reached the maximum of 100 tags") else
       let meta := mkTag name (i32 (Z.rem existing tagColourPaletteSize)) now (i32 existing) in
       let! _ := putTag userID meta "marshaling tag" "applying create tag command" in
       gret meta) ps
  end.

(** The definition under the new name is written before the old one goes. *)
Definition RenameTag (userID oldName newName : string) : GoM DB TagMeta := fun ps =>
  match ValidateTagName newName with
  | Some e => (ps, Err e)
  | None =>
      if String.eqb oldName newName then (ps, Err (Errorf "new tag name is the same as the old name")) else
      match GetTag ps userID oldName with
      | Err e => (ps, Err (Wrap ("reading tag " +:+ quote oldName) e))
      | Ok old =>
          if is_ok (Get ps (tagKey userID newName)) then (ps, Err (Errorf ("tag " +:+ quote newName +:+ " already exists"))) else
          (let meta := mkTag newName (tg_ColourIndex old) (tg_CreatedAt old) (tg_SortOrder old) in
           let! _ := putTag userID meta "marshaling renamed tag" "writing renamed tag" in
           let! _ := gwrap "deleting old tag key" (ApplyCommand (mkCmd OP_DELETE (tagKey userID oldName) "")) in
           gret meta) ps
      end
  end.

Definition DeleteTag (userID name : string) : GoM DB unit := fun ps =>
  match Get ps (tagKey userID name) with
  | Err e => (ps, Err (Wrap ("tag " +:+ quote name) e))
  | Ok _ => gwrap "applying delete tag command" (ApplyCommand (mkCmd OP_DELETE (tagKey userID name) "")) ps
  end.

(** The record is written back under the name asked for. *)
Definition UpdateTagColour (userID name : string) (colourIndex : Z) : GoM DB TagMeta :=
  if (colourIndex <? 0) || (tagColourPaletteSize <=? colourIndex)
  then gfail (Errorf ("colour index " +:+ FormatInt colourIndex +:+ " out of range [0, 16)")) else
  let! meta := gread (fun ps => wrapf ("reading tag " +:+ quote name +:+ " for colour update") (GetTag ps userID name)) in
  let meta := mkTag (tg_Name meta) colourIndex (tg_CreatedAt meta) (tg_SortOrder meta) in
  let! data := glift (wrapf "marshaling tag" (marshal meta)) in
  let! _ := gwrap "applying update colour command" (ApplyCommand (mkCmd OP_PUT (tagKey userID name) data)) in
  gret meta.
End Tags.

(** * Folding labels into tag names *)

Definition tagname_maxLen : nat := 50.
Definition dash : ascii := "-".
(** The loop over the runes, of which those outside ASCII are skipped. *)
Fixpoint fold_label (s : string) : string :=
  match s with
  | "" => ""
  | String c s' =>
      if tag_edge c then String c (fold_label s')
      else if Ascii.eqb c " " || Ascii.eqb c "_" || Ascii.eqb c dash then String dash (fold_label s')
      else fold_label s'
  end.
(** [strings.ReplaceAll(s, "--", "-")]. *)
Fixpoint replace_dashes (s : string) : string :=
  match s with
  | String c (String d s' as t) =>
      if Ascii.eqb c dash && Ascii.eqb d dash then String dash (replace_dashes s') else String c (replace_dashes t)
  | _ => s
  end.
(** Every pass that changes something shortens the string. *)
Fixpoint collapse (fuel : nat) (s : string) : string :=
  match fuel with
  | O => s
  | S fuel' => if Contains s "--" then collapse fuel' (replace_dashes s) else s
  end.
Section Normalise.
Context `{GoUnicode}.
Definition Normalise (s : string) : string :=
  let s := fold_label (ToLower (TrimSpace s)) in
  let s := trim_right (Ascii.eqb dash) (trim_left (Ascii.eqb dash) s) in
  let s := collapse (String.length s) s in
  if (String.length s =? 0)%nat || (tagname_maxLen <? String.length s)%nat then "" else s.
End Normalise.

(** ** A folded label is a tag name *)

Definition tag_char (c : ascii) : bool := tag_edge c || Ascii.eqb c dash.
Fixpoint last_of (s : string) : option ascii :=
  match s with "" => None | String c "" => Some c | String _ s' => last_of s' end.
Definition first_of (s : string) : option ascii := match s with "" => None | String c _ => Some c end.

Lemma last_of_cons c d s : last_of (String c (String d s)) = last_of (String d s).
Proof. done. Qed.

(** [P] holds of the first and the last byte, if there are any. *)
Definition edges (P : ascii -> Prop) (s : string) : Prop :=
  (forall c, first_of s = Some c -> P c) /\ (forall c, last_of s = Some c -> P c).

Lemma fold_label_chars s : str_all tag_char (fold_label s) = true.
Proof.
  induction s as [|c s IH]; [done|]. cbn [fold_label]. destruct (tag_edge c) eqn:E.
  - cbn. unfold tag_char at 1. by rewrite E, IH.
  - case_match; [|done]. cbn. by rewrite IH.
Qed.

Lemma trim_left_keeps p q s :
  str_all q s = true -> str_all q (trim_left p s) = true /\ forall c, first_of (trim_left p s) = Some c -> p c = false.
Proof.
  induction s as [|c s IH]; [done|]. cbn. intros [Hc Hs]%andb_true_iff. destruct (p c) eqn:E; [by apply IH|].
  cbn. rewrite Hc, Hs. split; [done|]. by intros d [= <-].
Qed.
Lemma trim_right_keeps_all p q s : str_all q s = true ->
  str_all q (trim_right p s) = true /\ (forall c, last_of (trim_right p s) = Some c -> p c = false) /\
  (trim_right p s <> "" -> first_of (trim_right p s) = first_of s).
Proof.
  induction s as [|c s IH]; [done|]. cbn. intros [Hc Hs]%andb_true_iff. destruct (IH Hs) as (Ha & Hl & _).
  destruct (trim_right p s) as [|d t].
  - destruct (p c) eqn:E; [done|]. cbn. rewrite Hc. split; [done|]. split; [by intros d [= <-]|done].
  - cbn [str_all]. rewrite Hc. split; [exact Ha|]. split; [exact Hl|done].
Qed.

Lemma two_step_ind (P : string -> Prop) :
  P "" -> (forall c, P (String c "")) -> (forall c d s, P s -> P (String d s) -> P (String c (String d s))) -> forall s, P s.
Proof.
  intros H0 H1 H2 s. enough (P s /\ forall c, P (String c s)) by tauto.
  induction s as [|d s [IH1 IH2]]; [auto|]. split; [apply IH2|]. intros c. apply H2; auto.
Qed.

(** A pass keeps the characters and both edges. *)
Lemma replace_dashes_keeps s : str_all tag_char s = true ->
  str_all tag_char (replace_dashes s) = true /\ first_of (replace_dashes s) = first_of s /\ last_of (replace_dashes s) = last_of s.
Proof.
  induction s as [|c|c d s IH1 IH2] using two_step_ind; [done|done|]. intros [Hc Hd]%andb_true_iff. pose proof Hd as [_ Hs]%andb_true_iff.
  change (replace_dashes (String c (String d s)))
    with (if Ascii.eqb c dash && Ascii.eqb d dash then String dash (replace_dashes s) else String c (replace_dashes (String d s))).
  destruct (Ascii.eqb c dash && Ascii.eqb d dash) eqn:E.
  - apply andb_true_iff in E as [->%Ascii.eqb_eq ->%Ascii.eqb_eq]. destruct (IH1 Hs) as (Ha & Hf & Hl).
    split; [exact Ha|]. split; [done|]. rewrite last_of_cons. destruct (replace_dashes s) as [|x t] eqn:Er, s as [|y s]; try done.
  - destruct (IH2 Hd) as (Ha & Hf & Hl). split; [cbn [str_all]; by rewrite Hc|]. split; [done|]. rewrite last_of_cons, <- Hl.
    destruct (replace_dashes (String d s)); [done|]. by rewrite last_of_cons.
Qed.
Lemma collapse_keeps fuel s : str_all tag_char s = true ->
  str_all tag_char (collapse fuel s) = true /\ first_of (collapse fuel s) = first_of s /\ last_of (collapse fuel s) = last_of s.
Proof.
  revert s. induction fuel as [|fuel IH]; intros s Hs; [done|]. cbn. case_match; [|done].
  destruct (replace_dashes_keeps s Hs) as (Ha & Hf & Hl). destruct (IH _ Ha) as (? & ? & ?). split_and!; congruence.
Qed.

Lemma tag_tail_ok s : str_all tag_char s = true -> (forall c, last_of s = Some c -> tag_edge c = true) -> tag_tail s = true.
Proof.
  induction s as [|c s IH]; [done|]. intros [Hc Hs]%andb_true_iff Hl. destruct s as [|d s]; [by apply Hl|].
  cbn [tag_tail]. apply andb_true_iff. split; [exact Hc|]. apply IH; [done|]. intros x Hx. by apply Hl.
Qed.

Lemma Contains_cons c s sub : Contains (String c s) sub = String.prefix sub (String c s) || Contains s sub.
Proof.
  unfold Contains. change (Cut (String c s) sub) with
    (if String.prefix sub (String c s) then Some ("", str_drop (String.length sub) (String c s))
     else match Cut s sub with Some (a, b) => Some (String c a, b) | None => None end).
  destruct (String.prefix sub (String c s)); [done|]. by destruct (Cut s sub) as [[]|].
Qed.

(** The passes end with no two dashes in a row. *)
Lemma replace_dashes_shorter s : Contains s "--" = true -> (String.length (replace_dashes s) < String.length s)%nat.
Proof.
  assert (forall s, (String.length (replace_dashes s) <= String.length s)%nat) as Hle.
  { intros t. induction t as [|c|c d t IH1 IH2] using two_step_ind; [done|done|]. cbn [replace_dashes]. case_match; cbn in *; lia. }
  induction s as [|c|c d s IH1 IH2] using two_step_ind; [done|by destruct c as [[] [] [] [] [] [] [] []]|].
  change (replace_dashes (String c (String d s)))
    with (if Ascii.eqb c dash && Ascii.eqb d dash then String dash (replace_dashes s) else String c (replace_dashes (String d s))).
  destruct (Ascii.eqb c dash && Ascii.eqb d dash) eqn:E; [intros _; specialize (Hle s); cbn; lia|]. intros Hc.
  rewrite Contains_cons in Hc. apply orb_true_iff in Hc as [Hp|Hc]; [|apply IH2 in Hc; cbn [String.length] in *; lia].
  apply prefix_spec in Hp as [r [= -> -> _]]. by rewrite !Ascii.eqb_refl in E.
Qed.
Theorem collapse_complete s : Contains (collapse (String.length s) s) "--" = false.
Proof.
  remember (String.length s) as n eqn:Hn. assert (String.length s <= n)%nat as Hle by lia. clear Hn. revert s Hle.
  induction n as [|n IH]; intros s Hle; [destruct s; [done|cbn in Hle; lia]|]. cbn. destruct (Contains s "--") eqn:E; [|done].
  apply IH. apply replace_dashes_shorter in E. lia.
Qed.

(** A label folds to a valid tag name or to nothing. *)
Theorem normalised_label_is_tag `{GoUnicode} label : Normalise label = "" \/ ValidateTagName (Normalise label) = None.
Proof.
  unfold Normalise. cbv zeta. set (s0 := fold_label _). pose proof (fold_label_chars (ToLower (TrimSpace label))) as H0. fold s0 in H0.
  destruct (trim_left_keeps (Ascii.eqb dash) tag_char s0 H0) as [H1 Hf1]. set (s1 := trim_left _ s0) in *.
  destruct (trim_right_keeps_all (Ascii.eqb dash) tag_char s1 H1) as (H2 & Hl2 & Hf2). set (s2 := trim_right _ s1) in *.
  destruct (collapse_keeps (String.length s2) s2 H2) as (H3 & Hf3 & Hl3). set (s3 := collapse _ s2) in *.
  destruct ((String.length s3 =? 0)%nat || (tagname_maxLen <? String.length s3)%nat) eqn:E; [by left|right].
  apply orb_false_iff in E as [Hne%Nat.eqb_neq Hlen%Nat.ltb_ge].
  assert (forall c, tag_char c = true -> Ascii.eqb dash c = false -> tag_edge c = true) as Hedge.
  { intros c. unfold tag_char. rewrite (Ascii.eqb_sym dash c). by destruct (tag_edge c), (Ascii.eqb c dash). }
  assert (forall s c, str_all tag_char s = true -> last_of s = Some c -> tag_char c = true) as Hlast.
  { intros s c. induction s as [|x [|y s] IH]; [done| |]; intros [Hx Hs]%andb_true_iff; [by intros [= <-]|]. by apply IH. }
  destruct s3 as [|c s] eqn:E3; [done|]. assert (s2 <> "") as Hn2 by (intros E2; by rewrite E2 in Hf3).
  assert (tag_edge c = true) as Hc.
  { apply andb_true_iff in H3 as [Hc _]. apply Hedge; [exact Hc|]. apply Hf1. by rewrite <- Hf2, <- Hf3. }
  unfold ValidateTagName. cbn [String.eqb]. change MaxTagNameLen with tagname_maxLen. rewrite (proj2 (Nat.ltb_ge _ _) Hlen).
  assert (tag_name (String c s) = true) as Ht; [|by rewrite Ht]. cbn [tag_name]. rewrite Hc. apply andb_true_iff in H3 as [_ Hs]. apply tag_tail_ok; [exact Hs|].
  intros d Hd. destruct s as [|e s]; [done|]. assert (last_of (String c (String e s)) = Some d) as Hd' by exact Hd.
  apply Hedge; [exact (Hlast (String e s) d Hs Hd)|]. apply Hl2. by rewrite <- Hl3.
Qed.
