(* ===== verification/Imap.v ===== *)
(** The IMAP backend's sessions ([internal/imap/backend.go]) and the hub that
    feeds IDLE ([internal/imap/notify.go]).

    A session is called by the protocol library, one method per command.  The
    store, the authenticator, the login limiter and the blobs it shares with the
    rest of the server are fields of the state a handler passes on; what it
    writes to the client and the calls it makes on the derived indexes are
    collected.  Writing a response does not fail.  [None] is a panic.

    The first sections work on single messages: flags and keywords, addresses,
    envelopes, body structures and sections, and search criteria
    ([internal/imap/search.go]).  The MIME parser is the parameter
    [ReadEnvelope]; [time.Parse] is [time_Parse] of a layout. *)

From S2P Require Import Prelude GoStrings Utf8 Pebble Proto Mailbox MailboxStore AttSplit RateLimit UserData Credentials Accounts.
From S2P Require Import Acl Directory MailHeaders TagStore Pop3.
From Stdlib Require Import Ascii.

(** * Flags *)

Definition imapSeen : string := "\Seen".
Definition imapAnswered : string := "\Answered".
Definition imapFlagged : string := "\Flagged".
Definition imapDeleted : string := "\Deleted".
Definition imapDraft : string := "\Draft".

Definition flagsToIMAP (flags : Z) : list string :=
  (if has_bits flags FlagSeen then [imapSeen] else []) ++ (if has_bits flags FlagAnswered then [imapAnswered] else []) ++
  (if has_bits flags FlagFlagged then [imapFlagged] else []) ++ (if has_bits flags FlagDeleted then [imapDeleted] else []) ++
  (if has_bits flags FlagDraft then [imapDraft] else []).

Definition tagsToIMAPKeywords (tags : list string) : list string :=
  (fun tag => if HasPrefix tag "$" || HasPrefix tag "\" then tag else "$" +:+ tag) <$> List.filter (fun tag => negb (String.eqb tag "")) tags.

Definition messageToIMAPFlags (flags : Z) (tags : list string) : list string := flagsToIMAP flags ++ tagsToIMAPKeywords tags.

(** The bit of a system flag. *)
Definition flag_bit (f : string) : Z :=
  if String.eqb f imapSeen then FlagSeen else if String.eqb f imapAnswered then FlagAnswered
  else if String.eqb f imapFlagged then FlagFlagged else if String.eqb f imapDeleted then FlagDeleted
  else if String.eqb f imapDraft then FlagDraft else 0.
Definition imapFlagsToUint32 (flags : list string) : Z := foldl (fun result f => Z.lor result (flag_bit f)) 0 flags.
(** A flag that is not one of the five is never set. *)
Definition hasFlag (flags : Z) (flag : string) : bool := has_bits flags (flag_bit flag).

Section Keywords.
Context `{GoUnicode}.
Definition separateFlags (flags : list string) : list string * list string :=
  foldl (fun '(std, keywords) s =>
    if HasPrefix s "\" then (std ++ [s], keywords)
    else if HasPrefix s "$" then
      let name := ToLower (str_drop 1 s) in
      if String.eqb name "" then (std, keywords) else (std, keywords ++ [name])
    else (std, keywords)) ([], []) flags.
End Keywords.

(** * Addresses *)

Record Address := mkAddress { ad_Name : string; ad_Mailbox : string; ad_Host : string }.

(** Skip a backslash that is not the last byte. *)
Fixpoint unescape (s : string) : string :=
  match s with
  | "" => ""
  | String c s' =>
      match s' with
      | String d t => if Ascii.eqb c backslash then String d (unescape t) else String c (unescape s')
      | "" => String c ""
      end
  end.
Definition unescapeQuoted (s : string) : string := if has_char backslash s then unescape s else s.

Definition split_at_sign (name s : string) : Address :=
  match SplitN s "@" 2 with
  | [a; b] => mkAddress name a b
  | a :: _ => mkAddress name a ""
  | [] => mkAddress name "" ""
  end.
Section Addresses.
Context `{GoUnicode, NetMail}.
Definition parseAddress (s : string) : Address :=
  let s := TrimSpace s in
  match ParseAddress s with
  | Ok a => match CutLast (ma_Address a) "@" with
            | Some (l, h) => mkAddress (ma_Name a) l h
            | None => mkAddress (ma_Name a) (ma_Address a) ""
            end
  | Err _ =>
      match CutLast s "<" with
      | Some (before, after) =>
          let name := TrimSpace before in
          let q := String dquote "" in
          let name := if (2 <=? len name) && HasPrefix name q && HasSuffix name q
                      then unescapeQuoted (str_take (String.length name - 2) (str_drop 1 name)) else name in
          split_at_sign name (TrimSuffix after ">")
      | None => split_at_sign "" s
      end
  end.
Definition parseAddresses (parts : list string) : list Address := parseAddress <$> parts.
Definition parseAddressList (header : string) : list Address :=
  if String.eqb header "" then [] else parseAddresses (SplitAddressHeader header).
End Addresses.

(** * Parsed messages *)

(** [enmime.Envelope]; an attachment is its content, content type and file name. *)
Record Parsed := mkParsedMsg { pa_mail : ParsedMail; pa_Text : string; pa_HTML : string }.
Definition att_type (a : string * string * string) : string := a.1.2.
Definition att_content (a : string * string * string) : string := a.1.1.
Definition att_name (a : string * string * string) : string := a.2.
(** [mimesafe.ReadEnvelope] and [time.Parse]. *)
Class Enmime := {
  ReadEnvelope : string -> option Parsed * option err;
  time_Parse : string -> string -> option Z }.

Definition RFC1123Z : string := "Mon, 02 Jan 2006 15:04:05 -0700".
Definition looseDate : string := "Mon, 2 Jan 2006 15:04:05 -0700".
Definition zeroTime : Z := time_unix (-62135596800).
Definition clampUint32 (n : Z) : Z := if n <=? 0 then 0 else if 2 ^ 32 - 1 <? n then 2 ^ 32 - 1 else n.

Record ImapEnvelope := mkImapEnv {
  ie_Date : Z; ie_Subject : string; ie_From : list Address; ie_Sender : list Address; ie_ReplyTo : list Address;
  ie_To : list Address; ie_Cc : list Address; ie_Bcc : list Address; ie_InReplyTo : list string; ie_MessageID : string }.

(** [ext]: the part has its extension fields. *)
Inductive BodyStructure :=
| SinglePart (type subtype : string) (size : Z) (ext : bool)
| MultiPart (children : list BodyStructure) (subtype : string) (ext : bool).
Fixpoint ensureExtendedBodyStructure (bs : BodyStructure) : BodyStructure :=
  match bs with
  | SinglePart t st size _ => SinglePart t st size true
  | MultiPart children st _ => MultiPart (ensureExtendedBodyStructure <$> children) st true
  end.

Inductive PartSpecifier := SpecNone | SpecHeader | SpecText | SpecMIME.
Record BodySection := mkSection {
  bs_Specifier : PartSpecifier; bs_Part : list Z; bs_Partial : option (Z * Z); bs_Peek : bool }.

Section Content.
Context `{GoUnicode, NetMail, Enmime}.

(** A [Date] header in one of the two layouts; the zero time counts as none. *)
Definition header_date (d : string) : option Z :=
  if String.eqb d "" then None else
  match match time_Parse RFC1123Z d with Some t => Some t | None => time_Parse looseDate d end with
  | Some t => if t =? zeroTime then None else Some t
  | None => None
  end.

Definition buildEnvelope (meta : MailMeta) (rawMsg : string) : option ImapEnvelope :=
  match ReadEnvelope rawMsg with
  | (_, Some _) =>
      Some (mkImapEnv (time_unix (mm_ReceivedAt meta)) (mm_Subject meta) [mkAddress "" (mm_From meta) ""] [] [] [] [] [] [] (mm_MessageId meta))
  | (None, None) => None
  | (Some env, None) =>
      let h := pm_GetHeader (pa_mail env) in
      let addrs name := parseAddresses (EnvelopeAddresses (Some (pa_mail env)) name) in
      Some (mkImapEnv (default (time_unix (mm_ReceivedAt meta)) (header_date (h "Date"))) (h "Subject")
              (addrs "From") (addrs "Sender") (addrs "Reply-To") (addrs "To") (addrs "Cc") (addrs "Bcc")
              (if String.eqb (h "In-Reply-To") "" then [] else [h "In-Reply-To"]) (h "Message-Id"))
  end.

Definition type_parts (ct : string) : option (string * string) :=
  match SplitN ct "/" 2 with [a; b] => Some (a, b) | _ => None end.

Definition buildBodyStructure (rawMsg : string) : option BodyStructure :=
  match ReadEnvelope rawMsg with
  | (_, Some _) => Some (SinglePart "text" "plain" (clampUint32 (len rawMsg)) false)
  | (None, None) => None
  | (Some env, None) =>
      let contentType := pm_GetHeader (pa_mail env) "Content-Type" in
      let contentType := if String.eqb contentType "" then "text/plain" else contentType in
      let mediaType := TrimSpace (hd "" (SplitN contentType ";" 2)) in
      let '(mainType, subType) := match type_parts mediaType with Some (a, b) => (ToLower a, ToLower b) | None => ("text", "plain") end in
      if String.eqb mainType "multipart" then
        let children :=
          (if String.eqb (pa_Text env) "" then [] else [SinglePart "text" "plain" (clampUint32 (len (pa_Text env))) false]) ++
          (if String.eqb (pa_HTML env) "" then [] else [SinglePart "text" "html" (clampUint32 (len (pa_HTML env))) false]) ++
          ((fun att => let '(t, st) := default ("application", "octet-stream") (type_parts (att_type att)) in
                       SinglePart t st (clampUint32 (len (att_content att))) false) <$> pm_Attachments (pa_mail env)) in
        Some (MultiPart (match children with [] => [SinglePart "text" "plain" 0 false] | _ => children end) subType false)
      else Some (SinglePart mainType subType (clampUint32 (len rawMsg)) false)
  end.

Definition extractMIMEPart (rawMsg : string) (partPath : list Z) : string :=
  match ReadEnvelope rawMsg with
  | (Some env, None) =>
      match partPath with
      | [n] => if n =? 1 then pa_Text env else if n =? 2 then pa_HTML env
               else if 0 <=? n - 3 then default "" (att_content <$> pm_Attachments (pa_mail env) !! Z.to_nat (n - 3)) else ""
      | _ => ""
      end
  | _ => ""
  end.

Definition headerEnd : string := String "013" (String "010" (String "013" (String "010" ""))).
(** [content[offset:end]] with 64-bit [offset] and [size]. *)
Definition partial_content (content : string) (offset size : Z) : option string :=
  if len content <=? offset then Some "" else
  let e := i64 (offset + size) in
  let e := if len content <? e then len content else e in
  if (0 <=? offset) && (offset <=? e) then Some (str_take (Z.to_nat (e - offset)) (str_drop (Z.to_nat offset) content)) else None.
Definition section_content (section : BodySection) (rawMsg : string) : string :=
  match bs_Specifier section with
  | SpecHeader => match Cut rawMsg headerEnd with Some (h, _) => h +:+ headerEnd | None => rawMsg end
  | SpecText => match Cut rawMsg headerEnd with Some (_, t) => t | None => "" end
  | _ => match bs_Part section with [] => rawMsg | part => extractMIMEPart rawMsg part end
  end.
(** What [writeBodySection] writes. *)
Definition body_section (section : BodySection) (rawMsg : string) : option string :=
  let content := section_content section rawMsg in
  match bs_Partial section with
  | None => Some content
  | Some (offset, size) => partial_content content offset size
  end.
End Content.

(** * Search criteria *)

(** [imap.SearchCriteria]; a zero time is [None].  The sets of sequence numbers
    and UIDs and the size bounds are fields the backend does not look at. *)
Inductive Criteria := mkCriteria {
  cr_SeqNum : list (Z -> bool); cr_UID : list (Z -> bool);
  cr_Since : option Z; cr_Before : option Z; cr_Header : list (string * string); cr_Body : list string; cr_Text : list string;
  cr_Flag : list string; cr_NotFlag : list string; cr_Larger : Z; cr_Smaller : Z;
  cr_Not : list Criteria; cr_Or : list (Criteria * Criteria) }.

Fixpoint hasTextCriteria (c : Criteria) : bool :=
  negb (bool_decide (cr_Header c = []) && bool_decide (cr_Body c = []) && bool_decide (cr_Text c = [])) ||
  bool_decide (is_Some (cr_Since c)) || bool_decide (is_Some (cr_Before c)) ||
  existsb hasTextCriteria (cr_Not c) || existsb (fun p => hasTextCriteria p.1 || hasTextCriteria p.2) (cr_Or c).

(** The tests on flags and dates that both matchers make. *)
Definition flags_match (flags : Z) (c : Criteria) : bool :=
  forallb (hasFlag flags) (cr_Flag c) && forallb (fun f => negb (hasFlag flags f)) (cr_NotFlag c).
Definition dates_match (date : Z) (c : Criteria) : bool :=
  match cr_Since c with Some t => negb (time_unix date <? t) | None => true end &&
  match cr_Before c with Some t => time_unix date <? t | None => true end.

Fixpoint matchesFlagCriteria (flags date : Z) (c : Criteria) : bool :=
  flags_match flags c && dates_match date c &&
  forallb (fun n => negb (matchesFlagCriteria flags date n)) (cr_Not c) &&
  forallb (fun p => matchesFlagCriteria flags date p.1 || matchesFlagCriteria flags date p.2) (cr_Or c).

Section Search.
Context `{GoUnicode}.
(** [content] is what [loadMailContent] gives for the message, if anything. *)
Definition text_matches (content : option string) (c : Criteria) : bool :=
  if bool_decide (cr_Header c = []) && bool_decide (cr_Body c = []) && bool_decide (cr_Text c = []) then true else
  match content with
  | None => false
  | Some raw =>
      let rawStr := ToLower raw in
      forallb (fun h => Contains rawStr (ToLower h.2)) (cr_Header c) && forallb (fun b => Contains rawStr (ToLower b)) (cr_Body c) &&
      forallb (fun t => Contains rawStr (ToLower t)) (cr_Text c)
  end.
Fixpoint matchesCriteria (content : option string) (flags date : Z) (c : Criteria) : bool :=
  flags_match flags c && dates_match date c && text_matches content c &&
  forallb (fun n => negb (matchesCriteria content flags date n)) (cr_Not c) &&
  forallb (fun p => matchesCriteria content flags date p.1 || matchesCriteria content flags date p.2) (cr_Or c).

(** Queries of the text index. *)
Inductive bquery :=
| QMatch (field value : string) | QString (text : string) | QRange (min max : option Z)
| QOr (l r : bquery) | QAll | QBool (must mustNot : list bquery).

Definition header_query (h : string * string) : bquery :=
  let field := ToLower h.1 in
  if String.eqb field "subject" then QMatch "subject" h.2
  else if String.eqb field "from" then QMatch "from" h.2
  else if String.eqb field "to" || String.eqb field "cc" || String.eqb field "bcc" then QMatch "to" h.2
  else QOr (QMatch "subject" h.2) (QMatch "from" h.2).
Fixpoint buildBleveQuery (c : Criteria) : option bquery :=
  let must :=
    (header_query <$> cr_Header c) ++ (QMatch "body" <$> cr_Body c) ++ (QString <$> cr_Text c) ++
    (match cr_Since c, cr_Before c with
     | None, None => []
     | s, b => [QRange (unix_of <$> s) (unix_of <$> b)]
     end) ++
    omap (fun p => match buildBleveQuery p.1, buildBleveQuery p.2 with
                   | Some l, Some r => Some (QOr l r)
                   | Some l, None => Some l
                   | None, r => r
                   end) (cr_Or c) in
  let mustNot := omap buildBleveQuery (cr_Not c) in
  match must, mustNot with
  | [], [] => None
  | [], _ => Some (QBool [QAll] mustNot)
  | [q], [] => Some q
  | _, _ => Some (QBool must mustNot)
  end.
End Search.

(** * Data *)

(** An [imap.Error] with its response code. *)
Definition imap_error (code text : string) : err := Sentinel (code +:+ " " +:+ text).
Definition errAuthRateLimited : err := imap_error "[LIMIT]" "Too many failed login attempts; rate limit exceeded, try again later".
Definition errMailboxReadOnly : err := imap_error "" "Mailbox is read-only (opened with EXAMINE)".
Definition errNoSuchMailbox : err := imap_error "[NONEXISTENT]" "No such mailbox".
Definition errAlreadyExists : err := imap_error "[ALREADYEXISTS]" "Mailbox already exists".
Definition errTryCreate : err := imap_error "[TRYCREATE]" "No such mailbox".
Definition errAccountRevoked : err := imap_error "" "Account no longer available".
Definition errAccountStateUnavailable : err := imap_error "[UNAVAILABLE]" "Account state temporarily unavailable, try again later".
Definition ErrAuthFailed : err := imap_error "[AUTHENTICATIONFAILED]" "Authentication failed".
Definition errStorageLow : err := imap_error "[UNAVAILABLE]" "Insufficient system storage".
Definition errOverQuota : err := imap_error "[OVERQUOTA]" "Storage quota exceeded".
Definition errNoSelection : err := Errorf "no mailbox selected".

(** Who is logged in, what is selected, and the two views of it: [ss_cached] is
    the server's, [ss_reported] the UIDs the client has been told about. *)
Record imapSession := mkIS {
  ss_userID : string; ss_epoch : string; ss_appPassword : string; ss_selected : string; ss_readOnly : bool;
  ss_cached : list MailboxMessage; ss_reported : list Z }.
Definition newImapSession : imapSession := mkIS "" "" "" "" false [] [].

Inductive fetchItem :=
| ItemUID (uid : Z) | ItemFlags (flags : list string) | ItemInternalDate (date : Z) | ItemSize (n : Z)
| ItemEnvelope (e : ImapEnvelope) | ItemBody (b : BodyStructure) | ItemSection (s : BodySection) (content : string).
Record CopyData := mkCopyData { cd_UIDValidity : Z; cd_SourceUIDs : list Z; cd_DestUIDs : list Z }.
Record StatusData := mkStatus {
  sd_Mailbox : string; sd_NumMessages : option Z; sd_NumRecent : option Z; sd_NumUnseen : option Z; sd_UIDValidity : Z; sd_UIDNext : Z }.
Record ListData := mkListData { ld_Mailbox : string; ld_Attrs : list string; ld_Status : option StatusData }.
Inductive response :=
| RExists (n : Z) | RExpunge (seqNum : Z) | RFetch (seqNum : Z) (items : list fetchItem) | RList (d : ListData)
| RCopyData (d : CopyData) | RBye (text : string).

(** Calls on the metadata and text indexes; their failures are only logged. *)
Inductive indexCall :=
| IndexMail (userID guid subject from : string) (to : list string) (body : string) (date : Z) (tags : list string)
| IndexMailTags (userID guid : string) (tags : list string).

Record StatusOptions := mkStatusOpts { so_NumMessages : bool; so_NumRecent : bool; so_NumUnseen : bool; so_UIDValidity : bool; so_UIDNext : bool }.
(** A nil value has no option set. *)
Record ListOptions := mkListOpts { lo_SelectSubscribed : bool; lo_ReturnSubscribed : bool; lo_ReturnStatus : option StatusOptions }.
Record SelectData := mkSelectData { sl_NumMessages : Z; sl_NumRecent : Z; sl_UIDValidity : Z; sl_UIDNext : Z }.
Record AppendData := mkAppendData { ap_UID : Z; ap_UIDValidity : Z }.
Record FetchOptions := mkFetchOpts {
  fo_UID : bool; fo_Flags : bool; fo_InternalDate : bool; fo_Envelope : bool; fo_RFC822Size : bool; fo_BodyStructure : bool;
  fo_BodySection : list BodySection }.
Inductive StoreFlagsOp := StoreFlagsSet | StoreFlagsAdd | StoreFlagsDel.
Record StoreFlags := mkStoreFlags { sf_Op : StoreFlagsOp; sf_Silent : bool; sf_Flags : list string }.

(** A set of sequence numbers or of UIDs, by membership. *)
Inductive NumSet := SeqSet (contains : Z -> bool) | UIDSet (contains : Z -> bool).
Definition numSetContains (numSet : NumSet) (seqNum uid : Z) : bool :=
  match numSet with SeqSet f => f seqNum | UIDSet f => f uid end.

(** [imapserver.MatchList] of the library, for the delimiter [/]. *)
Class ImapLib := MatchList : string -> string -> string -> bool.

(** What a session is built with: [ic_reader], the authenticator can report the
    standing of an account; [ic_search], the text index, the message GUIDs it
    finds for a user's query. *)
Record imapConfig (DB : Type) := mkImapConfig {
  ic_ip : string; ic_reader : bool; ic_tags : bool; ic_metadata : bool; ic_notifier : bool;
  ic_search : option (string -> bquery -> result (gset string));
  ic_quota : option (DB -> string -> Z -> result bool) }.
Arguments mkImapConfig {DB} _ _ _ _ _ _ _.
Arguments ic_ip {DB} _.
Arguments ic_reader {DB} _.
Arguments ic_tags {DB} _.
Arguments ic_metadata {DB} _.
Arguments ic_notifier {DB} _.
Arguments ic_search {DB} _.
Arguments ic_quota {DB} _.

Record ImapState (DB A B : Type) := mkImap {
  im_session : imapSession; im_db : DB; im_auth : A; im_limiter : option Auth.Limiter; im_blobs : B;
  im_index : list indexCall; im_out : list response }.
Arguments mkImap {DB A B} _ _ _ _ _ _ _.
Arguments im_session {DB A B} _.
Arguments im_db {DB A B} _.
Arguments im_auth {DB A B} _.
Arguments im_limiter {DB A B} _.
Arguments im_blobs {DB A B} _.
Arguments im_index {DB A B} _.
Arguments im_out {DB A B} _.

(** * The two views *)

Definition setReported (s : imapSession) (msgs : list MailboxMessage) : imapSession :=
  mkIS (ss_userID s) (ss_epoch s) (ss_appPassword s) (ss_selected s) (ss_readOnly s) (ss_cached s) (msg_Uid <$> msgs).
Definition setCached (s : imapSession) (msgs : list MailboxMessage) : imapSession :=
  mkIS (ss_userID s) (ss_epoch s) (ss_appPassword s) (ss_selected s) (ss_readOnly s) msgs (ss_reported s).
(** The first occurrence goes. *)
Fixpoint drop_uid (uid : Z) (l : list Z) : list Z :=
  match l with [] => [] | x :: l' => if x =? uid then l' else x :: drop_uid uid l' end.
Definition dropReported (s : imapSession) (uid : Z) : imapSession :=
  mkIS (ss_userID s) (ss_epoch s) (ss_appPassword s) (ss_selected s) (ss_readOnly s) (ss_cached s) (drop_uid uid (ss_reported s)).
Fixpoint seq_of (i uid : Z) (l : list Z) : Z :=
  match l with [] => 0 | x :: l' => if x =? uid then u32 (i + 1) else seq_of (i + 1) uid l' end.
Definition reportedSeqNum (s : imapSession) (uid : Z) : Z := seq_of 0 uid (ss_reported s).
Fixpoint drop_msg (uid : Z) (l : list MailboxMessage) : list MailboxMessage :=
  match l with [] => [] | m :: l' => if msg_Uid m =? uid then l' else m :: drop_msg uid l' end.
Definition removeFromCache (s : imapSession) (uid : Z) : imapSession := setCached s (drop_msg uid (ss_cached s)).

(** The messages a command names, with the server's sequence numbers. *)
Definition number_from {X} (i : Z) (l : list X) : list (Z * X) := imap (fun k m => (u32 (i + Z.of_nat k + 1), m)) l.
Definition addressed (numSet : NumSet) (msgs : list MailboxMessage) : list (Z * MailboxMessage) :=
  List.filter (fun p => numSetContains numSet p.1 (msg_Uid p.2)) (number_from 0 msgs).

(** * Sessions *)

Section Session.
Context {DB A B : Type} `{PebbleDB DB} `{MailCodecs} `{Codec TagMeta} `{GoUnicode} `{RaftApplier DB} `{BlobOps B} `{NetMail} `{Enmime}
  `{Sha256} `{ImapLib}.
Notation W := (ImapState DB A B).
Implicit Types (w : ImapState DB A B) (s : imapSession).
Variable auth : authenticator DB A.
Variable c : imapConfig DB.

Definition with_is w s : W := mkImap s (im_db w) (im_auth w) (im_limiter w) (im_blobs w) (im_index w) (im_out w).
Definition with_imap_db w (db : DB) : W := mkImap (im_session w) db (im_auth w) (im_limiter w) (im_blobs w) (im_index w) (im_out w).
Definition with_imap_auth w (a : A) : W := mkImap (im_session w) (im_db w) a (im_limiter w) (im_blobs w) (im_index w) (im_out w).
Definition with_imap_limiter w (l : option Auth.Limiter) : W :=
  mkImap (im_session w) (im_db w) (im_auth w) l (im_blobs w) (im_index w) (im_out w).
Definition with_blobs w (b : B) : W := mkImap (im_session w) (im_db w) (im_auth w) (im_limiter w) b (im_index w) (im_out w).
Definition send w (r : response) : W :=
  mkImap (im_session w) (im_db w) (im_auth w) (im_limiter w) (im_blobs w) (im_index w) (im_out w ++ [r]).
Definition index_call w (i : indexCall) : W :=
  mkImap (im_session w) (im_db w) (im_auth w) (im_limiter w) (im_blobs w) (im_index w ++ [i]) (im_out w).

(** A call on the store, on the blobs, a change of the session, a response. *)
Definition on_store {X} (m : GoM DB X) : GoM W X := fun w => let (db, r) := m (im_db w) in (with_imap_db w db, r).
Definition on_blobs {X} (m : GoM B X) : GoM W X := fun w => let (b, r) := m (im_blobs w) in (with_blobs w b, r).
Definition from_store {X} (f : DB -> string -> result X) : GoM W X := gread (fun w => f (im_db w) (ss_userID (im_session w))).
Definition change (f : imapSession -> imapSession) : GoM W unit := fun w => (with_is w (f (im_session w)), Ok tt).
Definition respond_imap (r : response) : GoM W unit := fun w => (send w r, Ok tt).
Definition note_index (i : indexCall) : GoM W unit := fun w => (index_call w i, Ok tt).
(** A call whose error is only logged. *)
Definition best_effort {X} (m : GoM W X) : GoM W unit := fun w => ((m w).1, Ok tt).
Definition when_ (b : bool) (m : GoM W unit) : GoM W unit := if b then m else gret tt.
Definition refuse_if (b : bool) (e : err) : GoM W unit := if b then gfail e else gret tt.
Definition get_session : GoM W imapSession := gread (fun w => Ok (im_session w)).

Definition checkAccount : GoM W unit := fun w =>
  let s := im_session w in
  if negb (ic_reader c) || String.eqb (ss_userID s) "" then (w, Ok tt) else
  match authn_state auth (im_db w) (ss_userID s) (ss_appPassword s) with
  | Err _ => (w, Err errAccountStateUnavailable)
  | Ok st => if Live st (ss_epoch s) then (w, Ok tt) else (send w (RBye "Account no longer available"), Err errAccountRevoked)
  end.

Definition mailboxLookupError (name : string) (e notFound : err) : err :=
  if errors_is e ErrNotFound then notFound else Wrap ("looking up mailbox " +:+ quote name) e.
Definition requireMailbox (name : string) (notFound : err) : GoM W unit :=
  from_store (fun db user => match GetMailbox db user name with Ok _ => Ok tt | Err e => Err (mailboxLookupError name e notFound) end).
Definition requireNoMailbox (name : string) : GoM W unit :=
  if EqualFold name "INBOX" then gfail errAlreadyExists else
  from_store (fun db user => match GetMailbox db user name with
                             | Ok _ => Err errAlreadyExists
                             | Err e => if errors_is e ErrNotFound then Ok tt else Err (Wrap ("looking up mailbox " +:+ quote name) e)
                             end).

Definition Login (now : Z) (username password : string) : GoM W unit := fun w =>
  let ip := ic_ip c in
  let (l, is_blocked) := match im_limiter w with
                         | None => (None, false)
                         | Some l => let (l', b) := Auth.Blocked now ip l in (Some l', b)
                         end in
  let w := with_imap_limiter w l in
  if is_blocked then (w, Err errAuthRateLimited) else
  let (a', r) := authn_protocol auth (im_db w) now username password (im_auth w) in
  let w := with_imap_auth w a' in
  match r with
  | Err _ =>
      match im_limiter w with
      | None => (w, Err ErrAuthFailed)
      | Some l => let (l', b) := Auth.Fail_ now ip username l in
                  (with_imap_limiter w (Some l'), Err (if b then errAuthRateLimited else ErrAuthFailed))
      end
  | Ok (userID, profile, appPassword) =>
      match profile with
      | None => (w, Err ErrAuthFailed)
      | Some p =>
          if up_Disabled p then (w, Err ErrAuthFailed) else
          let s := im_session w in
          let w := with_is w (mkIS userID (ProtocolEpoch p) appPassword (ss_selected s) (ss_readOnly s) (ss_cached s) (ss_reported s)) in
          (if String.eqb appPassword "" then with_imap_limiter w (Auth.Succeed_ now ip username <$> im_limiter w) else w, Ok tt)
      end
  end.

(** * Mailboxes *)

Definition Select (mailbox : string) (readOnly : bool) : GoM W SelectData :=
  let! _ := checkAccount in
  let! meta := from_store (fun db user => match GetMailbox db user mailbox with
                                          | Ok meta => Ok meta
                                          | Err e => Err (mailboxLookupError mailbox e errNoSuchMailbox)
                                          end) in
  let! _ := change (fun s => mkIS (ss_userID s) (ss_epoch s) (ss_appPassword s) mailbox readOnly [] (ss_reported s)) in
  let! msgs := from_store (fun db user => wrapf "listing messages" (ListMessages db user mailbox)) in
  let! _ := change (fun s => setReported (setCached s msgs) msgs) in
  let! (total, recent, _) := from_store (fun db user => wrapf "counting messages" (CountMessages db user mailbox)) in
  gret (mkSelectData total recent (mb_UidValidity meta) (mb_UidNext meta)).

Definition Create (now : Z) (mailbox : string) : GoM W unit :=
  let! _ := checkAccount in
  let! _ := requireNoMailbox mailbox in
  let! s := get_session in
  on_store (CreateMailbox now (ss_userID s) mailbox).

Definition Delete (mailbox : string) : GoM W unit :=
  let! _ := checkAccount in
  let! _ := requireMailbox mailbox errNoSuchMailbox in
  let! s := get_session in
  on_store (DeleteMailbox (ss_userID s) mailbox).

Definition Rename (mailbox newName : string) : GoM W unit :=
  let! _ := checkAccount in
  let! _ := requireMailbox mailbox errNoSuchMailbox in
  let! _ := requireNoMailbox newName in
  let! s := get_session in
  on_store (RenameMailbox (ss_userID s) mailbox newName).

(** A mailbox that does not exist is an error to subscribe to, and nothing to
    unsubscribe from. *)
Definition set_subscribed (mailbox : string) (subscribed : bool) (absent : result unit) : GoM W unit := fun w =>
  match on_store (SetSubscribed (ss_userID (im_session w)) mailbox subscribed) w with
  | (w', Err e) => (w', if errors_is e ErrNotFound then absent else Err e)
  | r => r
  end.
Definition Subscribe (mailbox : string) : GoM W unit :=
  let! _ := checkAccount in set_subscribed mailbox true (Err errNoSuchMailbox).
Definition Unsubscribe (mailbox : string) : GoM W unit :=
  let! _ := checkAccount in set_subscribed mailbox false (Ok tt).

Definition statusForMailbox (mailbox : string) (o : StatusOptions) : GoM W StatusData :=
  let! meta := from_store (fun db user => match GetMailbox db user mailbox with
                                          | Ok meta => Ok meta
                                          | Err e => Err (mailboxLookupError mailbox e errNoSuchMailbox)
                                          end) in
  let! counts := if so_NumMessages o || so_NumUnseen o || so_NumRecent o
                 then from_store (fun db user => CountMessages db user mailbox) else gret (0, 0, 0) in
  let '(total, recent, unseen) := counts in
  gret (mkStatus mailbox (if so_NumMessages o then Some total else None) (if so_NumRecent o then Some recent else None)
          (if so_NumUnseen o then Some unseen else None) (if so_UIDValidity o then mb_UidValidity meta else 0)
          (if so_UIDNext o then mb_UidNext meta else 0)).
Definition Status (mailbox : string) (o : StatusOptions) : GoM W StatusData :=
  let! _ := checkAccount in statusForMailbox mailbox o.

Definition special_use (name : string) : list string :=
  if String.eqb name "Sent" then ["\Sent"] else if String.eqb name "Drafts" then ["\Drafts"] else if String.eqb name "Trash" then ["\Trash"]
  else if String.eqb name "Junk" then ["\Junk"] else if String.eqb name "Archive" then ["\Archive"] else [].
Definition list_entry (mailboxes : list MailboxMeta) (o : ListOptions) (mb : MailboxMeta) : list string :=
  (if existsb (fun other => HasPrefix (mb_Name other) (mb_Name mb +:+ "/")) mailboxes then ["\HasChildren"] else ["\HasNoChildren"]) ++
  (if negb (mb_Unsubscribed mb) && (lo_ReturnSubscribed o || lo_SelectSubscribed o) then ["\Subscribed"] else []) ++
  special_use (mb_Name mb).
Fixpoint list_loop (mailboxes : list MailboxMeta) (ref : string) (patterns : list string) (o : ListOptions) (todo : list MailboxMeta) : GoM W unit :=
  match todo with
  | [] => gret tt
  | mb :: todo' =>
      if negb (existsb (MatchList (mb_Name mb) ref) patterns) || (lo_SelectSubscribed o && mb_Unsubscribed mb)
      then list_loop mailboxes ref patterns o todo' else fun w =>
      let status := match lo_ReturnStatus o with
                    | None => None
                    | Some so => match statusForMailbox (mb_Name mb) so w with (_, Ok d) => Some d | (_, Err _) => None end
                    end in
      list_loop mailboxes ref patterns o todo' (send w (RList (mkListData (mb_Name mb) (list_entry mailboxes o mb) status)))
  end.
Definition List_ (ref : string) (patterns : list string) (o : ListOptions) : GoM W unit :=
  let! _ := checkAccount in
  let! mailboxes := from_store (fun db user => wrapf "listing mailboxes" (ListMailboxes db user)) in
  list_loop mailboxes ref patterns o mailboxes.

(** * APPEND *)

Definition maxAppendBytes : Z := 50 * 1024 * 1024.

(** The attachments that are not empty, each stored as a blob. *)
Fixpoint put_attachments (atts : list (string * string * string)) : GoM W (list BlobRef) :=
  match atts with
  | [] => gret []
  | att :: atts' =>
      if String.eqb (att_content att) "" then put_attachments atts' else fun w =>
      let (w', r) := on_blobs (blob_Put (att_content att)) w in
      match r with
      | Err _ => put_attachments atts' w'
      | Ok hash => (let! refs := put_attachments atts' in
                    gret (mkBlobRef hash (len (att_content att)) (att_type att) (att_name att) :: refs)) w'
      end
  end.

(** [literal] is the message, [time] and [flags] the options, [low] whether the
    data volume is nearly full; [now] in nanoseconds. *)
Definition Append (now : Z) (low : bool) (mailbox literal : string) (time : option Z) (flags : list string) : GoM W AppendData :=
  let! _ := checkAccount in
  let! _ := requireMailbox mailbox errTryCreate in
  let! _ := refuse_if low errStorageLow in
  let! over := from_store (fun db user => Ok (match ic_quota c with
                                              | None => false
                                              | Some check => match check db user (len literal) with Ok b => b | Err _ => false end
                                              end)) in
  let! _ := refuse_if over errOverQuota in
  let! hash := gwrap "storing message blob" (on_blobs (blob_Put literal)) in
  let! rawMsg := gread (fun w => wrapf "reading blob for parsing" (blob_Get (im_blobs w) hash)) in
  let envelope := (ReadEnvelope rawMsg).1 in
  let header name := match envelope with Some env => pm_GetHeader (pa_mail env) name | None => "" end in
  let '(toAddrs, ccAddrs, listID) := match envelope with Some env => MailAddressHeaders (pa_mail env) | None => ([], [], "") end in
  let internalDate := default now (match time with Some t => Some t | None => header_date (header "Date") end) in
  let guid := FormatInt now +:+ "-" +:+ str_take 8 hash in
  let! attachmentRefs := put_attachments (match envelope with Some env => pm_Attachments (pa_mail env) | None => [] end) in
  let meta := mkMailMeta guid (header "Message-Id") (header "Subject") (header "From") toAddrs (unix_of internalDate)
                (Some (mkBlobRef hash (len literal) "message/rfc822" "")) attachmentRefs "" 0 "" "" ccAddrs 0 "" "" "" "" [] [] "" listID "" in
  let! s := get_session in
  let! uid := gwrap "delivering to mailbox" (on_store (DeliverMessage (ss_userID s) mailbox meta (imapFlagsToUint32 flags))) in
  let! _ := when_ (bool_decide (is_Some (ic_search c)))
              (note_index (IndexMail (ss_userID s) guid (header "Subject") (header "From") (sanitizeUTF8 <$> toAddrs)
                 (match envelope with Some env => pa_Text env | None => "" end) (unix_of internalDate) [])) in
  let! validity := from_store (fun db user => Ok (match GetMailbox db user mailbox with Ok m => mb_UidValidity m | Err _ => 0 end)) in
  gret (mkAppendData uid validity).

(** * Updates *)

(** The client's sequence numbers of the reported UIDs that are gone. *)
Definition expunged_seqs (reported : list Z) (present : gset Z) : list Z :=
  omap (fun p => if decide (p.2 ∈ present) then None else Some p.1) (number_from 0 reported).
Fixpoint respond_all (l : list response) : GoM W unit :=
  match l with [] => gret tt | r :: l' => let! _ := respond_imap r in respond_all l' end.

Definition pollUpdates (allowExpunge : bool) : GoM W unit :=
  let! s := get_session in
  if String.eqb (ss_selected s) "" then gret tt else
  let! msgs := from_store (fun db user => wrapf ("polling mailbox " +:+ quote (ss_selected s)) (ListMessages db user (ss_selected s))) in
  let expunged := expunged_seqs (ss_reported s) (list_to_set (msg_Uid <$> msgs)) in
  if negb (bool_decide (expunged = [])) && negb allowExpunge then gret tt else
  let! _ := respond_all (RExpunge <$> reverse expunged) in
  let clientCount := Z.of_nat (length (ss_reported s)) - Z.of_nat (length expunged) in
  let! _ := when_ (negb (Z.of_nat (length msgs) =? clientCount)) (respond_imap (RExists (clampUint32 (Z.of_nat (length msgs))))) in
  change (fun s => setCached (setReported s msgs) msgs).

(** A store that cannot be read now skips the update. *)
Definition Poll (allowExpunge : bool) : GoM W unit := fun w =>
  match checkAccount w with
  | (w', Err e) => (w', if errors_is e errAccountStateUnavailable then Ok tt else Err e)
  | (w', Ok _) => pollUpdates allowExpunge w'
  end.

(** [Notification]; its type is the constructor. *)
Inductive Notification :=
| NotifNewMail (uid existsCount : Z) | NotifFlagChange (uid flags : Z) | NotifExpunge (uid : Z)
| NotifEventReminder (title : string) (start minutes : Z).

(** What the loop of [Idle] wakes up for. *)
Inductive idleEvent := IdleStop | IdleRecheck | IdleNotif (n : Notification) | IdleClosed.

Definition idle_notification (n : Notification) : GoM W unit :=
  let! s := get_session in
  match n with
  | NotifNewMail _ existsCount =>
      let! _ := (fun w => match ListMessages (im_db w) (ss_userID s) (ss_selected s) with
                          | Ok msgs => (with_is w (setReported (setCached (im_session w) msgs) msgs), Ok tt)
                          | Err _ => (w, Ok tt)
                          end) in
      respond_imap (RExists existsCount)
  | NotifExpunge uid =>
      let seqNum := reportedSeqNum s uid in
      if seqNum =? 0 then gret tt else
      let! _ := respond_imap (RExpunge seqNum) in
      change (fun s => dropReported s uid)
  | NotifFlagChange uid flags =>
      let seqNum := reportedSeqNum s uid in
      if seqNum =? 0 then gret tt else
      let! imapFlags := from_store (fun db user => Ok (match GetMessage db user (ss_selected s) uid with
                                                       | Ok m => messageToIMAPFlags (msg_Flags m) (msg_Tags m)
                                                       | Err _ => flagsToIMAP flags
                                                       end)) in
      respond_imap (RFetch seqNum [ItemUID uid; ItemFlags imapFlags])
  | NotifEventReminder _ _ _ => gret tt
  end.

(** One turn of the loop; [Some r]: [Idle] returns [r].  Without a selected
    mailbox or a hub there is no channel to receive from. *)
Definition idle_step (e : idleEvent) : W -> W * option (result unit) := fun w =>
  let failing (m : GoM W unit) := match m w with (w', Ok _) => (w', None) | (w', Err e) => (w', Some (Err e)) end in
  let watching := negb (String.eqb (ss_selected (im_session w)) "" || negb (ic_notifier c)) in
  match e with
  | IdleStop => (w, Some (Ok tt))
  | IdleRecheck => failing checkAccount
  | IdleNotif n => if watching then failing (idle_notification n) else (w, None)
  | IdleClosed => if watching then (w, Some (Ok tt)) else (w, None)
  end.
(** The store may have moved on each time the loop wakes up. *)
Fixpoint idle_loop (events : list (DB * idleEvent)) : W -> W * option (result unit) := fun w =>
  match events with
  | [] => (w, None)
  | (db, e) :: events' =>
      match idle_step e (with_imap_db w db) with
      | (w', None) => idle_loop events' w'
      | r => r
      end
  end.
Definition Idle (events : list (DB * idleEvent)) : W -> W * option (result unit) := fun w =>
  match checkAccount w with
  | (w', Err e) => (w', Some (Err e))
  | (w', Ok _) => idle_loop events w'
  end.

Definition Unselect : GoM W unit :=
  let! _ := checkAccount in
  change (fun s => mkIS (ss_userID s) (ss_epoch s) (ss_appPassword s) "" (ss_readOnly s) [] []).

(** * EXPUNGE *)

Fixpoint tell_expunged (uids : list Z) : GoM W unit :=
  match uids with
  | [] => gret tt
  | uid :: uids' =>
      let! s := get_session in
      let seqNum := reportedSeqNum s uid in
      let! _ := when_ (0 <? seqNum) (respond_imap (RExpunge seqNum)) in
      let! _ := change (fun s => dropReported (removeFromCache s uid) uid) in
      tell_expunged uids'
  end.
(** The set of UIDs of UID EXPUNGE is not looked at. *)
Definition Expunge (uids : option (Z -> bool)) : GoM W unit :=
  let! _ := checkAccount in
  let! s := get_session in
  let! _ := refuse_if (ss_readOnly s) errMailboxReadOnly in
  let! expunged := (fun w => let '(db, expunged, e) := MailboxStore.Expunge (ss_userID s) (ss_selected s) (im_db w) in
                             (with_imap_db w db, match e with Some e => Err e | None => Ok expunged end)) in
  tell_expunged (reverse expunged).

(** * Message content *)

Definition loadMailContent (db : DB) (blobs : B) (userID guid : string) : result (MailMeta * option string) :=
  let? data := wrapf "mail meta not found" (Get db (mailMetaKey userID guid)) in
  let? meta := wrapf "parsing mail meta" (unmarshal data) in
  match mm_RawMessage meta with
  | None => Ok (meta, None)
  | Some ref => if String.eqb (br_Hash ref) "" then Ok (meta, None) else
                let? raw := wrapf "reading raw message" (RawMessageBytes blobs meta) in Ok (meta, Some raw)
  end.

(** * SEARCH *)

Definition searchBleve (search : string -> bquery -> result (gset string)) (userID : string) (criteria : Criteria) : result (gset string) :=
  match buildBleveQuery criteria with
  | None => Err (Errorf "no text criteria to search")
  | Some q => wrapf "bleve search" (search userID q)
  end.
(** What [matchesCriteria] reads of a message, if it can be read. *)
Definition search_content w (msg : MailboxMessage) : option string :=
  match loadMailContent (im_db w) (im_blobs w) (ss_userID (im_session w)) (msg_MailGuid msg) with Ok (_, raw) => raw | Err _ => None end.
Definition search_matches w (criteria : Criteria) (hits : option (gset string)) (msg : MailboxMessage) : bool :=
  match hits with
  | Some guids => bool_decide (msg_MailGuid msg ∈ guids)
  | None => if hasTextCriteria criteria then matchesCriteria (search_content w msg) (msg_Flags msg) (msg_InternalDate msg) criteria else true
  end && matchesFlagCriteria (msg_Flags msg) (msg_InternalDate msg) criteria.

(** What the text index finds, when there is one and the criteria need it. *)
Definition index_hits (userID : string) (criteria : Criteria) : option (gset string) :=
  match ic_search c with
  | None => None
  | Some search => if hasTextCriteria criteria
                   then match searchBleve search userID criteria with Ok g => Some g | Err _ => None end
                   else None
  end.

(** The numbers found: the client's sequence numbers, or UIDs. *)
Definition Search (seqNumbers : bool) (criteria : Criteria) : GoM W (list Z) :=
  let! _ := checkAccount in
  let! s := get_session in
  let! _ := refuse_if (String.eqb (ss_selected s) "") errNoSelection in
  let! msgs := from_store (fun db user => ListMessages db user (ss_selected s)) in
  let! _ := change (fun s => setCached s msgs) in
  let hits := index_hits (ss_userID s) criteria in
  gread (fun w =>
    let matched := msg_Uid <$> List.filter (search_matches w criteria hits) msgs in
    Ok (if seqNumbers then List.filter (fun n => 0 <? n) (reportedSeqNum (im_session w) <$> matched) else matched)).

(** * FETCH *)

(** The sections asked for; reading one that is not a peek marks the message. *)
Fixpoint fetch_sections (msg : MailboxMessage) (rawMsg : string) (sections : list BodySection) (w : W) : option (W * list fetchItem) :=
  match sections with
  | [] => Some (w, [])
  | section :: sections' =>
      content ← body_section section rawMsg;
      let s := im_session w in
      let w := if negb (bs_Peek section) && negb (ss_readOnly s)
               then (on_store (AddFlags (ss_userID s) (ss_selected s) (msg_Uid msg) FlagSeen) w).1 else w in
      '(w, items) ← fetch_sections msg rawMsg sections' w;
      Some (w, ItemSection section content :: items)
  end.
Definition fetchMessage (seqNum : Z) (msg : MailboxMessage) (o : FetchOptions) (w : W) : option W :=
  let head := (if fo_UID o then [ItemUID (msg_Uid msg)] else []) ++
              (if fo_Flags o then [ItemFlags (messageToIMAPFlags (msg_Flags msg) (msg_Tags msg))] else []) ++
              (if fo_InternalDate o then [ItemInternalDate (msg_InternalDate msg)] else []) in
  let needContent := fo_Envelope o || fo_RFC822Size o || fo_BodyStructure o || negb (bool_decide (fo_BodySection o = [])) in
  if negb needContent then Some (send w (RFetch seqNum head)) else
  match loadMailContent (im_db w) (im_blobs w) (ss_userID (im_session w)) (msg_MailGuid msg) with
  | Err _ | Ok (_, None) => Some (send w (RFetch seqNum head))
  | Ok (mailMeta, Some rawMsg) =>
      envelope ← (if fo_Envelope o then e ← buildEnvelope mailMeta rawMsg; Some [ItemEnvelope e] else Some []);
      body ← (if fo_BodyStructure o then b ← buildBodyStructure rawMsg; Some [ItemBody (ensureExtendedBodyStructure b)] else Some []);
      '(w, sections) ← fetch_sections msg rawMsg (fo_BodySection o) w;
      Some (send w (RFetch seqNum (head ++ (if fo_RFC822Size o then [ItemSize (len rawMsg)] else []) ++ envelope ++ body ++ sections)))
  end.
Fixpoint fetch_loop (o : FetchOptions) (l : list (Z * MailboxMessage)) (w : W) : option W :=
  match l with
  | [] => Some w
  | (seqNum, msg) :: l' => w ← fetchMessage seqNum msg o w; fetch_loop o l' w
  end.
Definition Fetch (numSet : NumSet) (o : FetchOptions) (w : W) : option (W * result unit) :=
  match checkAccount w with
  | (w, Err e) => Some (w, Err e)
  | (w, Ok _) =>
      let s := im_session w in
      if String.eqb (ss_selected s) "" then Some (w, Err errNoSelection) else
      match ListMessages (im_db w) (ss_userID s) (ss_selected s) with
      | Err e => Some (w, Err e)
      | Ok msgs => w ← fetch_loop o (addressed numSet msgs) (with_is w (setCached s msgs)); Some (w, Ok tt)
      end
  end.

(** * STORE *)

(** Definitions for keywords that have none; failures are only logged. *)
Fixpoint create_tags (now : Z) (userID : string) (keywords : list string) : GoM W unit :=
  match keywords with
  | [] => gret tt
  | kw :: keywords' => fun w =>
      let w := if is_ok (GetTag (im_db w) userID kw) then w else (on_store (CreateTag now userID kw) w).1 in
      create_tags now userID keywords' w
  end.
Definition change_tags (op : StoreFlagsOp) (meta : MailMeta) (keywords : list string) : result MailMeta :=
  match op with
  | StoreFlagsAdd => wrapf "adding tags" (AddTags meta keywords)
  | StoreFlagsDel => Ok (RemoveTags meta keywords)
  | StoreFlagsSet => wrapf "setting tags" (SetTags meta keywords)
  end.
Definition defines_tags (op : StoreFlagsOp) : bool := match op with StoreFlagsDel => false | _ => true end.

Definition applyKeywords (now : Z) (mailGUID : string) (uid : Z) (op : StoreFlagsOp) (keywords : list string) : GoM W unit :=
  let! s := get_session in
  let! data := from_store (fun db user => wrapf "reading mail meta" (Get db (mailMetaKey user mailGUID))) in
  let! meta := glift (wrapf "parsing mail meta" (unmarshal data)) in
  let! _ := when_ (ic_tags c && defines_tags op) (create_tags now (ss_userID s) keywords) in
  let! meta := glift (change_tags op meta keywords) in
  let! _ := gwrap "persisting mail meta" (on_store (StoreMailMeta (ss_userID s) meta)) in
  let meta := SanitizeMailMeta meta in
  let! _ := best_effort (on_store (WriteMessageTags (ss_userID s) (ss_selected s) uid (mm_Tags meta))) in
  let! _ := when_ (ic_metadata c) (note_index (IndexMailTags (ss_userID s) mailGUID (mm_Tags meta))) in
  when_ (bool_decide (is_Some (ic_search c)))
    (note_index (IndexMail (ss_userID s) mailGUID (mm_Subject meta) (mm_From meta) (mm_To meta) "" (mm_ReceivedAt meta) (mm_Tags meta))).

Definition apply_flags (userID mailbox : string) (uid : Z) (op : StoreFlagsOp) (bits : Z) : GoM DB unit :=
  match op with
  | StoreFlagsSet => SetFlags userID mailbox uid bits
  | StoreFlagsAdd => AddFlags userID mailbox uid bits
  | StoreFlagsDel => RemoveFlags userID mailbox uid bits
  end.
Definition is_set (op : StoreFlagsOp) : bool := match op with StoreFlagsSet => true | _ => false end.

(** The body of the loop for one message the command names. *)
Definition store_one (now : Z) (flags : StoreFlags) (flagBits : Z) (keywords : list string) (seqNum : Z) (msg : MailboxMessage) : GoM W unit :=
  let! s := get_session in
  let! _ := when_ (negb (flagBits =? 0) || is_set (sf_Op flags))
              (on_store (apply_flags (ss_userID s) (ss_selected s) (msg_Uid msg) (sf_Op flags) flagBits)) in
  let! _ := when_ (negb (bool_decide (keywords = [])) || is_set (sf_Op flags))
              (best_effort (applyKeywords now (msg_MailGuid msg) (msg_Uid msg) (sf_Op flags) keywords)) in
  if sf_Silent flags then gret tt else fun w =>
  match GetMessage (im_db w) (ss_userID s) (ss_selected s) (msg_Uid msg) with
  | Ok updated => (send w (RFetch seqNum [ItemUID (msg_Uid msg); ItemFlags (messageToIMAPFlags (msg_Flags updated) (msg_Tags updated))]), Ok tt)
  | Err _ => (w, Ok tt)
  end.
Fixpoint store_loop (now : Z) (flags : StoreFlags) (flagBits : Z) (keywords : list string) (l : list (Z * MailboxMessage)) : GoM W unit :=
  match l with
  | [] => gret tt
  | (seqNum, msg) :: l' => let! _ := store_one now flags flagBits keywords seqNum msg in store_loop now flags flagBits keywords l'
  end.
Definition Store (now : Z) (numSet : NumSet) (flags : StoreFlags) : GoM W unit :=
  let! _ := checkAccount in
  let! s := get_session in
  let! _ := refuse_if (String.eqb (ss_selected s) "") errNoSelection in
  let! _ := refuse_if (ss_readOnly s) errMailboxReadOnly in
  let! msgs := from_store (fun db user => ListMessages db user (ss_selected s)) in
  let! _ := change (fun s => setCached s msgs) in
  let (stdFlags, keywords) := separateFlags (sf_Flags flags) in
  store_loop now flags (imapFlagsToUint32 stdFlags) keywords (addressed numSet msgs).

(** * COPY and MOVE *)

(** The last UID given out in the destination. *)
Definition last_uid (db : DB) (userID dest : string) : list Z :=
  match GetMailbox db userID dest with Ok m => [u32 (mb_UidNext m - 1)] | Err _ => [] end.
(** [transfer] one message after the other; the UIDs before and after. *)
Fixpoint transfer_loop (transfer : Z -> GoM DB unit) (userID dest : string) (l : list (Z * MailboxMessage)) : GoM W (list Z * list Z) :=
  match l with
  | [] => gret ([], [])
  | (_, msg) :: l' =>
      let! _ := on_store (transfer (msg_Uid msg)) in
      let! dst := gread (fun w => Ok (last_uid (im_db w) userID dest)) in
      let! (srcs, dsts) := transfer_loop transfer userID dest l' in
      gret (msg_Uid msg :: srcs, dst ++ dsts)
  end.
Definition validity_of (db : DB) (userID mailbox : string) : Z :=
  match GetMailbox db userID mailbox with Ok m => mb_UidValidity m | Err _ => 0 end.

Definition Copy (numSet : NumSet) (dest : string) : GoM W CopyData :=
  let! _ := checkAccount in
  let! s := get_session in
  let! _ := refuse_if (String.eqb (ss_selected s) "") errNoSelection in
  let! _ := requireMailbox dest errTryCreate in
  let! msgs := from_store (fun db user => ListMessages db user (ss_selected s)) in
  let! _ := change (fun s => setCached s msgs) in
  let! (srcUIDs, dstUIDs) := transfer_loop (fun uid => CopyMessage (ss_userID s) (ss_selected s) uid dest) (ss_userID s) dest (addressed numSet msgs) in
  let! validity := from_store (fun db user => Ok (validity_of db user dest)) in
  gret (mkCopyData validity srcUIDs dstUIDs).

Definition Move (numSet : NumSet) (dest : string) : GoM W unit :=
  let! _ := checkAccount in
  let! s := get_session in
  let! _ := refuse_if (String.eqb (ss_selected s) "") errNoSelection in
  let! _ := refuse_if (ss_readOnly s) errMailboxReadOnly in
  let! _ := requireMailbox dest errTryCreate in
  let! msgs := from_store (fun db user => ListMessages db user (ss_selected s)) in
  let! _ := change (fun s => setCached s msgs) in
  let moving := addressed numSet msgs in
  let! (srcUIDs, dstUIDs) := transfer_loop (fun uid => MoveMessage (ss_userID s) (ss_selected s) uid dest) (ss_userID s) dest moving in
  let! validity := from_store (fun db user => Ok (validity_of db user dest)) in
  let! _ := respond_imap (RCopyData (mkCopyData validity srcUIDs dstUIDs)) in
  let! _ := respond_all (RExpunge <$> reverse moving.*1) in
  let! _ := change (fun s => foldl dropReported s srcUIDs) in
  fun w => let s := im_session w in
           (with_is w (setCached s (match ListMessages (im_db w) (ss_userID s) (ss_selected s) with Ok l => l | Err _ => [] end)), Ok tt).
End Session.

(** * The hub of IDLE *)

(** Subscribers by mailbox key; a channel is its number, with the
    notifications waiting in its buffer. *)
Record Notifier := mkNotifier { nt_subscribers : gmap string (gmap nat (list Notification)); nt_next : nat }.
Definition NewNotifier : Notifier := mkNotifier ∅ 0.
Definition channelBuffer : nat := 64.
Definition subKey (userID mailbox : string) : string := userID +:+ ":" +:+ mailbox.
Definition subscribers_of (n : Notifier) (key : string) : gmap nat (list Notification) := default ∅ (nt_subscribers n !! key).

Definition NotifierSubscribe (n : Notifier) (userID mailbox : string) : Notifier * nat :=
  let key := subKey userID mailbox in
  let ch := nt_next n in
  (mkNotifier (<[key := <[ch := []]> (subscribers_of n key)]> (nt_subscribers n)) (S ch), ch).
(** A channel is subscribed under one key. *)
Definition NotifierUnsubscribe (n : Notifier) (ch : nat) : Notifier :=
  mkNotifier (omap (fun subs => match subs !! ch with
                                | None => Some subs
                                | Some _ => let subs := delete ch subs in if decide (subs = ∅) then None else Some subs
                                end) (nt_subscribers n)) (nt_next n).
(** A full buffer drops the notification. *)
Definition offer (notif : Notification) (buffer : list Notification) : list Notification :=
  if (length buffer <? channelBuffer)%nat then buffer ++ [notif] else buffer.
Definition Notify (n : Notifier) (userID mailbox : string) (notif : Notification) : Notifier :=
  mkNotifier (alter (fmap (offer notif)) (subKey userID mailbox) (nt_subscribers n)) (nt_next n).
Definition Receive (n : Notifier) (userID mailbox : string) (ch : nat) : option (Notification * Notifier) :=
  match subscribers_of n (subKey userID mailbox) !! ch with
  | Some (notif :: rest) =>
      Some (notif, mkNotifier (alter (insert ch rest) (subKey userID mailbox) (nt_subscribers n)) (nt_next n))
  | _ => None
  end.

(** The store's events, published into the hub if there is one. *)
Definition publish (n : option Notifier) (userID mailbox : string) (notif : Notification) : option Notifier :=
  (fun n => Notify n userID mailbox notif) <$> n.
Definition StoreNotifyNewMail (n : option Notifier) (userID mailbox : string) (uid existsCount : Z) : option Notifier :=
  publish n userID mailbox (NotifNewMail uid existsCount).
Definition StoreNotifyFlagChange (n : option Notifier) (userID mailbox : string) (uid flags : Z) : option Notifier :=
  publish n userID mailbox (NotifFlagChange uid flags).
Definition StoreNotifyExpunge (n : option Notifier) (userID mailbox : string) (uid : Z) : option Notifier :=
  publish n userID mailbox (NotifExpunge uid).
