(* ===== verification/ImapThm.v ===== *)
(** Theorems on IMAP sessions: the client's view of the selected mailbox, what
    read-only and revoked sessions can do, and where the code falls short. *)

From S2P Require Import Prelude GoStrings Utf8 Pebble Proto Mailbox MailboxInv MailboxLemmas MailboxSteps MailboxSpec MailboxStore MailboxClient.
From S2P Require Import AttSplit RateLimit UserData Credentials Accounts AccountsThm FsmThm Acl Directory MailHeaders TagStore Pop3 Pop3Thm Imap.
From Stdlib Require Import Ascii.

(** * The client's view

    A client holds the UIDs of the messages it knows, in order.  EXPUNGE removes
    one position; EXISTS tells it the length, and it then knows the messages
    [truth] has at the new positions. *)

Definition client_apply (truth view : list Z) (r : response) : list Z :=
  match r with
  | RExpunge n => base.delete (Z.to_nat (n - 1)) view
  | RExists n => view ++ drop (length view) (take (Z.to_nat n) truth)
  | _ => view
  end.
Definition client_view (truth view : list Z) (out : list response) : list Z := foldl (client_apply truth) view out.

Lemma client_view_app truth view o1 o2 : client_view truth view (o1 ++ o2) = client_view truth (client_view truth view o1) o2.
Proof. apply foldl_app. Qed.

Lemma number_from_cons {X} i (x : X) l : number_from i (x :: l) = (u32 (i + 1), x) :: number_from (i + 1) l.
Proof.
  unfold number_from. cbn [imap]. f_equal; [f_equal; f_equal; lia|]. apply imap_ext. intros k y _. cbn. do 2 f_equal. lia.
Qed.

(** Expunging the positions that fail a test, the last first, leaves the
    elements that pass it. *)
Definition failing {X} (keep : X -> bool) (i : Z) (l : list X) : list Z :=
  omap (fun p => if keep p.2 then None else Some p.1) (number_from i l).
Lemma failing_cons {X} (keep : X -> bool) i x l :
  failing keep i (x :: l) = (if keep x then [] else [u32 (i + 1)]) ++ failing keep (i + 1) l.
Proof. unfold failing. rewrite number_from_cons. cbn. by destruct (keep x). Qed.
Lemma expunge_failing {X} truth (uid : X -> Z) (keep : X -> bool) (pre : list Z) (l : list X) :
  Z.of_nat (length pre + length l) < 2 ^ 32 ->
  client_view truth (pre ++ (uid <$> l)) (RExpunge <$> reverse (failing keep (Z.of_nat (length pre)) l)) = pre ++ (uid <$> List.filter keep l).
Proof.
  revert pre. induction l as [|x l IH]; intros pre Hlen; [done|]. cbn [length] in Hlen. rewrite failing_cons.
  rewrite reverse_app, fmap_app, client_view_app.
  assert (Hs : Z.of_nat (length pre) + 1 = Z.of_nat (length (pre ++ [uid x]))) by (rewrite length_app; cbn; lia).
  rewrite Hs. replace (pre ++ (uid <$> x :: l)) with ((pre ++ [uid x]) ++ (uid <$> l)) by (by rewrite <- app_assoc).
  rewrite IH by (rewrite length_app; cbn; lia). cbn [List.filter]. destruct (keep x); cbn.
  - by rewrite <- app_assoc.
  - unfold client_view. cbn [foldl client_apply fmap list_fmap reverse rev_append]. rewrite <- Hs, u32_small by (unfold in_u32; lia).
    replace (Z.to_nat (Z.of_nat (length pre) + 1 - 1)) with (length pre) by lia. rewrite <- app_assoc. apply delete_middle.
Qed.

(** ** A later state of a mailbox

    [later old new]: messages may have gone from [old], and those that arrived
    have larger UIDs. *)
Definition later (old new : list Z) : Prop :=
  StronglySorted Z.lt old /\ StronglySorted Z.lt new /\ forall u, u ∈ new -> u ∉ old -> Forall (fun r => r < u) old.

#[local] Instance lt_antisymm : AntiSymm (=@{Z}) Z.lt.
Proof. intros x y; lia. Qed.
Lemma sorted_filter (P : Z -> bool) l : StronglySorted Z.lt l -> StronglySorted Z.lt (List.filter P l).
Proof.
  induction 1 as [|x l Hs IH Hx]; cbn; [constructor|]. destruct (P x); [|done]. constructor; [done|].
  rewrite Forall_forall in *. intros y [Hy _]%list_elem_of_In%filter_In. apply Hx. by apply list_elem_of_In.
Qed.
Lemma uids_sorted_app (l1 l2 : list Z) :
  StronglySorted Z.lt l1 -> StronglySorted Z.lt l2 -> (forall a b, a ∈ l1 -> b ∈ l2 -> a < b) -> StronglySorted Z.lt (l1 ++ l2).
Proof.
  induction 1 as [|x l1 Hs IH Hx]; intros H2 H12; cbn; [done|]. constructor; [apply IH; [done|]; set_solver|].
  apply Forall_app. split; [done|]. apply Forall_forall. set_solver.
Qed.
Lemma sorted_NoDup l : StronglySorted Z.lt l -> NoDup l.
Proof. induction 1 as [|x l Hs IH Hx]; constructor; [|done]. rewrite Forall_forall in Hx. intros Hin. specialize (Hx x Hin). lia. Qed.
Lemma filter_elem (P : Z -> bool) l u : u ∈ List.filter P l <-> u ∈ l /\ P u = true.
Proof. rewrite !list_elem_of_In. apply filter_In. Qed.

(** What the client keeps is the beginning of the new list. *)
Lemma later_splits old new : later old new ->
  exists arrived, new = List.filter (fun u => bool_decide (u ∈ new)) old ++ arrived.
Proof.
  intros (Ho&Hn&Hgt). exists (List.filter (fun u => negb (bool_decide (u ∈ old))) new).
  apply (StronglySorted_unique Z.lt); [done| |].
  - apply uids_sorted_app; [by apply sorted_filter..|]. intros a b [Ha _]%filter_elem [Hb Hb']%filter_elem.
    apply negb_true_iff, bool_decide_eq_false in Hb'. specialize (Hgt b Hb Hb'). rewrite Forall_forall in Hgt. by apply Hgt.
  - apply NoDup_Permutation; [by apply sorted_NoDup| |].
    + apply NoDup_app. split_and!; [apply sorted_NoDup, sorted_filter, Ho| |apply sorted_NoDup, sorted_filter, Hn].
      intros u [Hu _]%filter_elem [_ Hu']%filter_elem. by case_bool_decide.
    + intros u. rewrite elem_of_app, !filter_elem, bool_decide_eq_true, negb_true_iff, bool_decide_eq_false. destruct (decide (u ∈ old)); naive_solver.
Qed.

(** * Sessions *)

Section Sessions.
Context {DB A B : Type} `{PebbleDB DB} `{MailCodecs} `{Codec TagMeta} `{GoUnicode} `{RaftApplier DB} `{BlobOps B} `{NetMail} `{Enmime}
  `{Sha256} `{ImapLib}.
Notation W := (ImapState DB A B).
Implicit Types (w : ImapState DB A B) (s : imapSession).
Variable auth : authenticator DB A.
Variable c : imapConfig DB.

Definition sent w (out : list response) : W :=
  mkImap (im_session w) (im_db w) (im_auth w) (im_limiter w) (im_blobs w) (im_index w) (im_out w ++ out).
Lemma respond_all_run out w : respond_all out w = (sent w out, Ok tt).
Proof.
  revert w. induction out as [|r out IH]; intros w; cbn [respond_all].
  - unfold gret, sent. by rewrite app_nil_r; destruct w.
  - unfold gbind. cbn. rewrite IH. unfold sent. cbn. by rewrite <- app_assoc.
Qed.

(** What a poll tells a client that holds [reported] of a mailbox that has [new]. *)
Definition poll_responses (reported new : list Z) : list response :=
  let expunged := expunged_seqs reported (list_to_set new) in
  (RExpunge <$> reverse expunged) ++
  (if Z.of_nat (length new) =? Z.of_nat (length reported) - Z.of_nat (length expunged) then [] else [RExists (clampUint32 (Z.of_nat (length new)))]).
Lemma poll_run allow w msgs :
  let s := im_session w in
  ss_selected s <> "" -> ListMessages (im_db w) (ss_userID s) (ss_selected s) = Ok msgs ->
  pollUpdates allow w =
    (if negb (bool_decide (expunged_seqs (ss_reported s) (list_to_set (msg_Uid <$> msgs)) = [])) && negb allow then w
     else with_is (sent w (poll_responses (ss_reported s) (msg_Uid <$> msgs))) (setCached (setReported s msgs) msgs), Ok tt).
Proof.
  intros s Hsel Hl. unfold pollUpdates, get_session, from_store. unfold gbind at 1, gread at 1.
  fold s. destruct (String.eqb_spec (ss_selected s) "") as [|_]; [done|]. unfold gbind at 1, gread at 1. fold s. rewrite Hl. cbn [wrapf].
  destruct (negb _ && negb allow); [done|]. unfold gbind at 1. rewrite respond_all_run. unfold poll_responses. rewrite length_fmap.
  destruct (_ =? _); cbn; [by rewrite app_nil_r|]. unfold change, sent, with_is. cbn. by rewrite <- app_assoc.
Qed.

Lemma expunged_seqs_failing reported (present : gset Z) : expunged_seqs reported present = failing (fun u => bool_decide (u ∈ present)) 0 reported.
Proof.
  unfold expunged_seqs, failing. induction (number_from 0 reported) as [|[n u] l IH]; cbn; [done|].
  rewrite IH. by case_decide; case_bool_decide.
Qed.
Lemma failing_count {X} (keep : X -> bool) i l : (length (failing keep i l) + length (List.filter keep l))%nat = length l.
Proof. revert i. induction l as [|x l IH]; intros i; [done|]. rewrite failing_cons. cbn. specialize (IH (i + 1)). destruct (keep x); cbn; lia. Qed.
Lemma clamp_length n : Z.of_nat n < 2 ^ 32 -> Z.to_nat (clampUint32 (Z.of_nat n)) = n.
Proof. unfold clampUint32. intros. repeat case_match; lia. Qed.

Lemma poll_responses_in_step old new :
  later old new -> Z.of_nat (length old) < 2 ^ 32 -> Z.of_nat (length new) < 2 ^ 32 -> client_view new old (poll_responses old new) = new.
Proof.
  intros Hl Ho Hn. destruct (later_splits _ _ Hl) as [arrived E]. unfold poll_responses. rewrite client_view_app, expunged_seqs_failing.
  set (keep := fun u : Z => bool_decide (u ∈ (list_to_set new : gset Z))).
  assert (Ef : List.filter (fun u => bool_decide (u ∈ new)) old = List.filter keep old).
  { apply filter_ext. intros u. unfold keep. apply bool_decide_ext. by rewrite elem_of_list_to_set. }
  rewrite Ef in E. pose proof (expunge_failing new id keep [] old) as Hx. cbn [length app] in Hx. change (Z.of_nat 0) with 0 in Hx. rewrite !list_fmap_id in Hx.
  rewrite Hx by lia. pose proof (failing_count keep 0 old) as Hc. set (kept := List.filter keep old) in *.
  assert (Hlen : length new = (length kept + length arrived)%nat) by (rewrite E at 1; apply length_app).
  destruct (Z.eqb_spec (Z.of_nat (length new)) (Z.of_nat (length old) - Z.of_nat (length (failing keep 0 old)))) as [Heq|Hne].
  - destruct arrived; [|cbn in Hlen; lia]. cbn. by rewrite E, app_nil_r.
  - unfold client_view. cbn [foldl client_apply]. rewrite clamp_length by done. rewrite firstn_all. rewrite E at 1. by rewrite drop_app_length, <- E.
Qed.
End Sessions.

(** ** Catching up *)

Lemma sorted_length lo hi l : StronglySorted Z.lt l -> Forall (fun u => lo <= u < hi) l -> lo <= hi -> Z.of_nat (length l) <= hi - lo.
Proof.
  intros Hs. revert lo. induction Hs as [|x l Hs IH Hx]; intros lo Hf Hle; [cbn; lia|]. apply Forall_cons in Hf as [Hb Hf].
  assert (Z.of_nat (length l) <= hi - (x + 1)); [|cbn [length]; lia]. apply IH; [|lia].
  rewrite Forall_forall in *. intros u Hu. specialize (Hf u Hu). specialize (Hx u Hu). lia.
Qed.
Lemma sorted_uids (msgs : list MailboxMessage) : StronglySorted (fun a b => msg_Uid a < msg_Uid b) msgs -> StronglySorted Z.lt (msg_Uid <$> msgs).
Proof.
  induction 1 as [|x l Hs IH Hx]; cbn; [constructor|]. constructor; [done|]. apply Forall_fmap. exact Hx.
Qed.

Section CatchingUp.
Context {DB A B : Type} `{PebbleLaws DB} `{MailCodecLaws} `{GoUnicode}.

(** A mailbox as SELECT and polls see it. *)
Definition listed (db : DB) (u m : string) (msgs : list MailboxMessage) : Prop :=
  healthy db /\ mbox_inv (contents db) /\ unnested (contents db) u m /\ ListMessages db u m = Ok msgs.

Lemma listed_spec db u m msgs : safe u -> listed db u m msgs ->
  StronglySorted Z.lt (msg_Uid <$> msgs) /\
  forall uid, uid ∈ (msg_Uid <$> msgs) <-> in_u32 uid /\ is_Some (msg_at (contents db) u m uid).
Proof.
  intros Hu (Hs&I&Hn&Hl). destruct (list_messages_exact db u m Hs Hu I Hn) as (msgs'&Hl'&Hsort&Hel). rewrite Hl in Hl'. injection Hl' as <-.
  split; [by apply sorted_uids|]. intros uid. rewrite list_elem_of_fmap. split.
  - intros (msg&->&Hin). apply Hel in Hin as [? ?]. eauto.
  - intros [Hd [msg Hm]]. exists msg. assert (Hv : exists v, contents db !! mailboxMsgKey u m uid = Some v).
    { unfold msg_at in Hm. destruct (contents db !! _); [eauto|done]. }
    destruct Hv as [v Hv]. destruct I as [_ I2]. destruct (I2 _ _ _ _ Hu Hd Hv) as (msg'&_&Hm'&Huid&_). rewrite Hm in Hm'. injection Hm' as <-.
    split; [done|]. apply Hel. by rewrite Huid.
Qed.
Lemma listed_below db u m msgs : safe u -> listed db u m msgs -> msgs <> [] ->
  exists meta, meta_at (contents db) u m = Some meta /\ in_u32 (mb_UidNext meta) /\ Forall (fun uid => 0 <= uid < mb_UidNext meta) (msg_Uid <$> msgs).
Proof.
  intros Hu Hl Hne. destruct (listed_spec _ _ _ _ Hu Hl) as [_ Hel]. destruct Hl as (_&I&_&_).
  assert (Hall : forall uid, uid ∈ (msg_Uid <$> msgs) -> exists meta, meta_at (contents db) u m = Some meta /\ 0 <= uid < mb_UidNext meta).
  { intros uid Hin. apply Hel in Hin as [Hd [msg Hm]]. assert (exists v, contents db !! mailboxMsgKey u m uid = Some v) as [v Hv].
    { unfold msg_at in Hm. destruct (contents db !! _); [eauto|done]. }
    destruct (proj2 I _ _ _ _ Hu Hd Hv) as (_&meta&_&_&Hmeta&Hlt). exists meta. destruct Hd. split; [done|lia]. }
  destruct msgs as [|x msgs]; [done|]. destruct (Hall (msg_Uid x)) as (meta&Hm&_); [by left|]. exists meta. split; [done|]. split.
  - unfold meta_at in Hm. destruct (contents db !! mailboxMetaKey u m) as [v|] eqn:Hv; [|done].
    destruct (proj1 I u m v Hu Hv) as (meta'&Hm'&?). unfold meta_at in Hm'. rewrite Hv in Hm'. congruence.
  - apply Forall_forall. intros uid Hin. destruct (Hall uid Hin) as (meta'&Hm'&?). congruence.
Qed.
Lemma listed_length db u m msgs : safe u -> listed db u m msgs -> Z.of_nat (length (msg_Uid <$> msgs)) < 2 ^ 32.
Proof.
  intros Hu Hl. destruct (decide (msgs = [])) as [->|Hne]; [done|]. destruct (listed_below _ _ _ _ Hu Hl Hne) as (meta&_&[? ?]&Hf).
  pose proof (sorted_length 0 (mb_UidNext meta) _ (proj1 (listed_spec _ _ _ _ Hu Hl)) Hf). lia.
Qed.
(** What other sessions and deliveries do to a mailbox moves it to a later state. *)
Lemma run_later u m db0 db1 msgs0 msgs1 meta :
  safe u -> listed db0 u m msgs0 -> listed db1 u m msgs1 -> mailbox_run u m db0 db1 -> meta_at (contents db0) u m = Some meta ->
  later (msg_Uid <$> msgs0) (msg_Uid <$> msgs1).
Proof.
  intros Hu H0' H1' Hrun Hm. destruct (listed_spec _ _ _ _ Hu H0') as [Hs0 Hel0]. destruct (listed_spec _ _ _ _ Hu H1') as [Hs1 Hel1].
  split_and!; [done..|]. intros uid Hin Hout. apply Forall_forall. intros r Hr.
  destruct (run_stable u m db0 db1 meta Hu Hrun) as (_&_&_&_&Hkeep); [apply H0'|done|].
  destruct (listed_below _ _ _ _ Hu H0') as (meta0&Hm0&_&Hf); [by intros ->; apply list_elem_of_fmap in Hr as (?&_&?%elem_of_nil)|]. rewrite Hm in Hm0. injection Hm0 as <-.
  rewrite Forall_forall in Hf. specialize (Hf r Hr). apply Hel1 in Hin as [Hd [x Hx]].
  destruct (decide (uid < mb_UidNext meta)) as [Hlt|]; [|lia]. exfalso. apply Hout, Hel0. split; [done|].
  destruct (Hkeep uid Hd Hlt) as [E|E]; rewrite E in Hx; [eauto|done].
Qed.

End CatchingUp.

(** * Commands *)

(** The methods the protocol library calls, for a session that is logged in. *)
Inductive command :=
| CSelect (mailbox : string) (readOnly : bool) | CUnselect | CNoop (allowExpunge : bool)
| CCreate (now : Z) (mailbox : string) | CDelete (mailbox : string) | CRename (mailbox newName : string)
| CSubscribe (mailbox : string) | CUnsubscribe (mailbox : string)
| CList (ref : string) (patterns : list string) (o : ListOptions) | CStatus (mailbox : string) (o : StatusOptions)
| CAppend (now : Z) (low : bool) (mailbox literal : string) (time : option Z) (flags : list string)
| CExpunge (uids : option (Z -> bool)) | CSearch (seqNumbers : bool) (criteria : Criteria)
| CFetch (numSet : NumSet) (o : FetchOptions) | CStore (now : Z) (numSet : NumSet) (flags : StoreFlags)
| CCopy (numSet : NumSet) (dest : string) | CMove (numSet : NumSet) (dest : string).

Section Commands.
Context {DB A B : Type} `{PebbleDB DB} `{MailCodecs} `{Codec TagMeta} `{GoUnicode} `{RaftApplier DB} `{BlobOps B} `{NetMail} `{Enmime}
  `{Sha256} `{ImapLib}.
Notation W := (ImapState DB A B).
Implicit Types (w : ImapState DB A B) (s : imapSession).
Variable auth : authenticator DB A.
Variable c : imapConfig DB.

(** The state after a command, and the error it was answered with. *)
Definition answer {X} (m : GoM W X) w : option (W * option err) :=
  Some (match m w with (w', Ok _) => (w', None) | (w', Err e) => (w', Some e) end).
Definition serve (cmd : command) w : option (W * option err) :=
  match cmd with
  | CSelect mailbox readOnly => answer (Select auth c mailbox readOnly) w
  | CUnselect => answer (Unselect auth c) w
  | CNoop allowExpunge => answer (Poll auth c allowExpunge) w
  | CCreate now mailbox => answer (Create auth c now mailbox) w
  | CDelete mailbox => answer (Imap.Delete auth c mailbox) w
  | CRename mailbox newName => answer (Rename auth c mailbox newName) w
  | CSubscribe mailbox => answer (Subscribe auth c mailbox) w
  | CUnsubscribe mailbox => answer (Unsubscribe auth c mailbox) w
  | CList ref patterns o => answer (List_ auth c ref patterns o) w
  | CStatus mailbox o => answer (Status auth c mailbox o) w
  | CAppend now low mailbox literal time flags => answer (Append auth c now low mailbox literal time flags) w
  | CExpunge uids => answer (Imap.Expunge auth c uids) w
  | CSearch seqNumbers criteria => answer (Search auth c seqNumbers criteria) w
  | CFetch numSet o =>
      match Fetch auth c numSet o w with
      | None => None
      | Some (w', Ok _) => Some (w', None)
      | Some (w', Err e) => Some (w', Some e)
      end
  | CStore now numSet flags => answer (Store auth c now numSet flags) w
  | CCopy numSet dest => answer (Copy auth c numSet dest) w
  | CMove numSet dest => answer (Move auth c numSet dest) w
  end.

(** ** Steps of a handler *)

(** Whatever [m] does is a step of [R]. *)
Definition steps_in {X} (R : W -> W -> Prop) (m : GoM W X) : Prop := forall w, R w (m w).1.

Section Steps.
Context (R : W -> W -> Prop) `{!PreOrder R}.
Lemma steps_ret {X} (x : X) : steps_in R (gret x).
Proof. intros w. reflexivity. Qed.
Lemma steps_fail {X} e : steps_in R (gfail (A := X) e).
Proof. intros w. reflexivity. Qed.
Lemma steps_lift {X} (r : result X) : steps_in R (glift r).
Proof. intros w. reflexivity. Qed.
Lemma steps_read {X} (f : W -> result X) : steps_in R (gread f).
Proof. intros w. reflexivity. Qed.
Lemma steps_bind {X Y} (m : GoM W X) (k : X -> GoM W Y) : steps_in R m -> (forall x, steps_in R (k x)) -> steps_in R (gbind m k).
Proof.
  intros Hm Hk w. unfold gbind. specialize (Hm w). destruct (m w) as [w1 [x|e]]; [|done]. cbn in Hm. etrans; [exact Hm|]. apply Hk.
Qed.
Lemma steps_wrap {X} t (m : GoM W X) : steps_in R m -> steps_in R (gwrap t m).
Proof. intros Hm w. unfold gwrap. specialize (Hm w). by destruct (m w). Qed.
Lemma steps_when b m : steps_in R m -> steps_in R (when_ b m).
Proof. destruct b; [done|]. intros _. apply steps_ret. Qed.
Lemma steps_best_effort {X} (m : GoM W X) : steps_in R m -> steps_in R (best_effort m).
Proof. intros Hm w. apply Hm. Qed.
Lemma steps_refuse b e : steps_in R (refuse_if b e).
Proof. destruct b; [apply steps_fail|apply steps_ret]. Qed.
Lemma steps_answer {X} (m : GoM W X) w w' e : steps_in R m -> answer m w = Some (w', e) -> R w w'.
Proof. intros Hm. unfold answer. specialize (Hm w). destruct (m w) as [w1 [x|e1]]; intros [= <- _]; exact Hm. Qed.
End Steps.

(** A handler whose account check fails does nothing else. *)
Lemma checked_bind {X} (k : unit -> GoM W X) w w' e :
  checkAccount auth c w = (w', Err e) -> gbind (checkAccount auth c) k w = (w', Err e).
Proof. unfold gbind. by intros ->. Qed.

End Commands.

Create HintDb imap_steps.
