(* ===== verification/ImapView.v ===== *)
(** What the commands of an IMAP session do to the client's view, what a
    read-only session may change, and what SEARCH and APPEND promise.  Concrete
    sessions at the end show the theorems of [ImapThm] and of this file at
    work, and behaviour of the code that is not what it means to do. *)

From S2P Require Import Prelude GoStrings Utf8 Pebble Proto Mailbox MailboxInv MailboxLemmas MailboxSteps MailboxSpec MailboxStore MailboxClient AttSplit RateLimit UserData Credentials.
From S2P Require Import Accounts AccountsThm FsmThm Acl Directory MailHeaders TagStore Pop3 Pop3Thm Imap ImapThm.
From Stdlib Require Import Ascii.

Ltac steps :=
  repeat first
    [ solve [eauto 2 with imap_steps]
    | match goal with
      | |- steps_in _ (gbind _ _) => apply steps_bind; [apply _| |intros ?]
      | |- steps_in _ (gwrap _ _) => apply steps_wrap
      | |- steps_in _ (when_ _ _) => apply steps_when; [apply _|]
      | |- steps_in _ (best_effort _) => apply steps_best_effort
      | |- steps_in _ (refuse_if _ _) => apply steps_refuse, _
      | |- steps_in _ (gret _) => apply steps_ret, _
      | |- steps_in _ (gfail _) => apply steps_fail, _
      | |- steps_in _ (glift _) => apply steps_lift, _
      | |- steps_in _ (gread _) => apply steps_read, _
      end
    | case_match ].

Section View.
Context {DB A B : Type} `{PebbleDB DB} `{MailCodecs} `{Codec TagMeta} `{GoUnicode} `{RaftApplier DB} `{BlobOps B} `{NetMail} `{Enmime}
  `{Sha256} `{ImapLib}.
Notation W := (ImapState DB A B).
Implicit Types (w : ImapState DB A B) (s : imapSession).
Variable auth : authenticator DB A.
Variable c : imapConfig DB.

(** * Responses and the recorded view *)

Definition small w : Prop := Z.of_nat (length (ss_reported (im_session w))) < 2 ^ 32.
(** The responses sent turn the view recorded before into the one recorded after. *)
Definition told (truth : list Z) w w' : Prop :=
  small w -> small w' /\ exists out, im_out w' = im_out w ++ out /\
    client_view truth (ss_reported (im_session w)) out = ss_reported (im_session w').
#[local] Instance told_preorder truth : PreOrder (told truth).
Proof.
  split.
  - intros w Hs. split; [done|]. exists []. by rewrite app_nil_r.
  - intros w1 w2 w3 H12 H23 Hs. destruct (H12 Hs) as (Hs2&o1&E1&V1). destruct (H23 Hs2) as (Hs3&o2&E2&V2). split; [done|].
    exists (o1 ++ o2). by rewrite E2, E1, <- app_assoc, client_view_app, V1.
Qed.
(** Neither the responses nor the recorded view change. *)
Lemma told_quiet truth w w' : im_out w' = im_out w -> ss_reported (im_session w') = ss_reported (im_session w) -> told truth w w'.
Proof. intros Ho Hr Hs. unfold small. rewrite Hr. split; [done|]. exists []. by rewrite Ho, app_nil_r. Qed.

Definition harmless (r : response) : bool := match r with RExists _ | RExpunge _ => false | _ => true end.
Lemma told_send truth w r : harmless r = true -> told truth w (send w r).
Proof. intros Hr Hs. split; [done|]. exists [r]. split; [done|]. by destruct r. Qed.

Section Told.
Variable truth : list Z.
Notation T := (told truth).
Lemma told_on_store {X} (m : GoM DB X) : steps_in T (on_store m).
Proof. intros w. unfold on_store. destruct (m (im_db w)). by apply told_quiet. Qed.
Lemma told_on_blobs {X} (m : GoM B X) : steps_in T (on_blobs m).
Proof. intros w. unfold on_blobs. destruct (m (im_blobs w)). by apply told_quiet. Qed.
Lemma told_from_store {X} (f : DB -> string -> result X) : steps_in T (from_store f).
Proof. apply steps_read. apply _. Qed.
Lemma told_get_session : steps_in T get_session.
Proof. apply steps_read. apply _. Qed.
Lemma told_change f : (forall s, ss_reported (f s) = ss_reported s) -> steps_in T (change f).
Proof. intros Hf w. apply told_quiet; [done|]. apply Hf. Qed.
Lemma told_respond r : harmless r = true -> steps_in T (respond_imap r).
Proof. intros Hr w. by apply told_send. Qed.
Lemma told_note_index i : steps_in T (note_index i).
Proof. intros w. by apply told_quiet. Qed.
Lemma told_check : steps_in T (checkAccount auth c).
Proof. intros w. unfold checkAccount. repeat case_match; try reflexivity. by apply told_send. Qed.
Lemma told_require name e : steps_in T (requireMailbox name e).
Proof. apply told_from_store. Qed.
Lemma told_require_no name : steps_in T (requireNoMailbox name).
Proof. unfold requireNoMailbox. case_match; [apply steps_fail, _|apply told_from_store]. Qed.
#[local] Hint Resolve told_on_store told_on_blobs told_from_store told_get_session told_respond told_note_index told_check told_require told_require_no : imap_steps.
#[local] Hint Extern 3 (steps_in _ (change _)) => apply told_change; reflexivity : imap_steps.

Lemma told_set_subscribed mb b r : steps_in T (set_subscribed mb b r).
Proof.
  intros w. unfold set_subscribed. pose proof (told_on_store (SetSubscribed (ss_userID (im_session w)) mb b) w) as Hs.
  by destruct (on_store _ w) as [w' [x|e]].
Qed.
Lemma told_list_loop mbs ref pats o todo : steps_in T (list_loop mbs ref pats o todo).
Proof.
  induction todo as [|mb todo IH]; cbn [list_loop]; [apply steps_ret, _|]. case_match; [done|]. intros w. etrans; [|apply IH]. by apply told_send.
Qed.
Lemma told_put_attachments atts : steps_in T (put_attachments atts).
Proof.
  induction atts as [|att atts IH]; cbn [put_attachments]; [apply steps_ret, _|]. case_match; [done|]. intros w.
  pose proof (told_on_blobs (blob_Put (att_content att)) w) as Hp. destruct (on_blobs _ w) as [w' [h|e]]; cbn [fst] in Hp; (etrans; [exact Hp|]); [|apply IH].
  apply steps_bind; [apply _|apply IH|]. intros refs. apply steps_ret, _.
Qed.
Lemma told_create_tags now u kws : steps_in T (create_tags now u kws).
Proof.
  induction kws as [|kw kws IH]; cbn [create_tags]; [apply steps_ret, _|]. intros w. etrans; [|apply IH]. case_match; [reflexivity|apply told_on_store].
Qed.
#[local] Hint Resolve told_set_subscribed told_list_loop told_put_attachments told_create_tags : imap_steps.
Lemma told_status mb o : steps_in T (statusForMailbox mb o).
Proof. unfold statusForMailbox. steps. Qed.
Lemma told_apply_keywords now g uid op kws : steps_in T (applyKeywords c now g uid op kws).
Proof. unfold applyKeywords. steps. Qed.
#[local] Hint Resolve told_status told_apply_keywords : imap_steps.
Lemma told_store_one now fl bits kws n msg : steps_in T (store_one c now fl bits kws n msg).
Proof.
  unfold store_one. apply steps_bind; [apply _|steps|]. intros s. do 2 (apply steps_bind; [apply _|steps|intros ?]).
  case_match; [apply steps_ret, _|]. intros w. case_match; [by apply told_send|reflexivity].
Qed.
Lemma told_store_loop now fl bits kws l : steps_in T (store_loop c now fl bits kws l).
Proof.
  induction l as [|[n msg] l IH]; cbn [store_loop]; [apply steps_ret, _|]. apply steps_bind; [apply _|apply told_store_one|done].
Qed.
Lemma told_transfer_loop tr u dest l : steps_in T (transfer_loop tr u dest l).
Proof. induction l as [|[n msg] l IH]; cbn [transfer_loop]; steps. Qed.
#[local] Hint Resolve told_store_loop told_transfer_loop : imap_steps.

(** ** EXPUNGE *)

Lemma seq_of_spec i uid l : 0 <= i -> i + Z.of_nat (length l) < 2 ^ 32 ->
  (seq_of i uid l = 0 /\ uid ∉ l) \/
  exists k, l !! k = Some uid /\ seq_of i uid l = i + Z.of_nat k + 1 /\ base.delete k l = drop_uid uid l.
Proof.
  revert i. induction l as [|x l IH]; intros i Hi Hlen; cbn [seq_of drop_uid length] in *; [left; set_solver|].
  destruct (Z.eqb_spec x uid) as [->|Hne].
  - right. exists 0%nat. split_and!; [done| |done]. rewrite u32_small by (unfold in_u32; lia). lia.
  - destruct (IH (i + 1)) as [[E Hn]|(k&Hk&E&Hd)]; [lia|lia| |].
    + left. set_solver.
    + right. exists (S k). split_and!; [done|lia|]. change (base.delete (S k) (x :: l)) with (x :: base.delete k l). by rewrite Hd.
Qed.
Lemma drop_uid_absent uid l : uid ∉ l -> drop_uid uid l = l.
Proof. induction l as [|x l IH]; intros Hn; cbn; [done|]. destruct (Z.eqb_spec x uid); [set_solver|]. rewrite IH by set_solver. done. Qed.
Lemma drop_uid_length uid l : (length (drop_uid uid l) <= length l)%nat.
Proof. induction l as [|x l IH]; cbn; [done|]. case_match; cbn; lia. Qed.

(** Telling the client its number for a message, and forgetting the message. *)
Lemma told_drop w w1 w2 uid :
  let n := reportedSeqNum (im_session w) uid in
  w1 = (if 0 <? n then send w (RExpunge n) else w) ->
  im_out w2 = im_out w1 -> ss_reported (im_session w2) = drop_uid uid (ss_reported (im_session w)) -> T w w2.
Proof.
  cbv zeta. intros -> Ho Hr Hs. unfold small in *. rewrite Hr. split; [pose proof (drop_uid_length uid (ss_reported (im_session w))); lia|].
  unfold reportedSeqNum in *. destruct (seq_of_spec 0 uid (ss_reported (im_session w))) as [[E Hn]|(k&Hk&E&Hd)]; [lia|lia| |].
  - rewrite E in Ho. cbn in Ho. exists []. by rewrite Ho, app_nil_r, drop_uid_absent.
  - rewrite E in Ho. replace (0 <? 0 + Z.of_nat k + 1) with true in Ho by (symmetry; apply Z.ltb_lt; lia).
    exists [RExpunge (0 + Z.of_nat k + 1)]. split; [done|]. unfold client_view. cbn [foldl client_apply].
    by replace (Z.to_nat (0 + Z.of_nat k + 1 - 1)) with k by lia.
Qed.
Lemma told_tell_expunged uids : steps_in T (tell_expunged uids).
Proof.
  induction uids as [|uid uids IH]; intros w; cbn [tell_expunged]; [reflexivity|].
  unfold gbind at 1, get_session, gread. unfold when_, gbind at 1.
  set (n := reportedSeqNum (im_session w) uid). destruct (0 <? n) eqn:Hn; cbn [respond_imap gret].
  - unfold gbind, change. etrans; [|apply IH]. eapply (told_drop w _ _ uid); [done|cbn; fold n; by rewrite Hn|done].
  - unfold gbind, change. etrans; [|apply IH]. eapply (told_drop w _ _ uid); [done|cbn; fold n; by rewrite Hn|done].
Qed.
Lemma told_Expunge uids : steps_in T (Imap.Expunge auth c uids).
Proof.
  unfold Imap.Expunge. do 3 (apply steps_bind; [apply _|steps|intros ?]). apply steps_bind; [apply _| |intros ?; apply told_tell_expunged].
  intros w. destruct (MailboxStore.Expunge _ _ _) as [[db l] e]. by apply told_quiet.
Qed.

(** ** FETCH *)

Lemma told_fetch_sections msg raw secs w w' items : fetch_sections msg raw secs w = Some (w', items) -> T w w'.
Proof.
  revert w w' items. induction secs as [|sec secs IH]; intros w w' items Hf; cbn [fetch_sections] in Hf; [by simplify_eq|].
  apply bind_Some in Hf as (content&_&Hf). apply bind_Some in Hf as ([w1 it]&Hf&[= <- _]). apply IH in Hf. etrans; [|exact Hf].
  case_match; [apply told_on_store|reflexivity].
Qed.
Lemma told_fetchMessage n msg o w w' : fetchMessage n msg o w = Some w' -> T w w'.
Proof.
  unfold fetchMessage. intros Hf. case_match; [simplify_eq; by apply told_send|].
  destruct (loadMailContent _ _ _ _) as [[meta [raw|]]|e]; [|simplify_eq; by apply told_send..].
  apply bind_Some in Hf as (env&_&Hf). apply bind_Some in Hf as (body&_&Hf). apply bind_Some in Hf as ([w1 items]&Hf&[= <-]).
  apply told_fetch_sections in Hf. etrans; [exact Hf|]. by apply told_send.
Qed.
Lemma told_fetch_loop o l w w' : fetch_loop o l w = Some w' -> T w w'.
Proof.
  revert w. induction l as [|[n msg] l IH]; intros w Hf; cbn [fetch_loop] in Hf; [by simplify_eq|].
  apply bind_Some in Hf as (w1&Hf1&Hf2). etrans; [by eapply told_fetchMessage|by apply IH].
Qed.
Lemma told_Fetch ns o w w' r : Fetch auth c ns o w = Some (w', r) -> T w w'.
Proof.
  unfold Fetch. pose proof (told_check w) as Hc. destruct (checkAccount auth c w) as [w1 [x|e]]; cbn [fst] in Hc; intros Hf; [|by simplify_eq].
  case_match; [by simplify_eq|]. case_match; [|by simplify_eq]. apply bind_Some in Hf as (w2&Hf&[= <- _]). apply told_fetch_loop in Hf.
  etrans; [exact Hc|]. etrans; [|exact Hf]. by apply told_quiet.
Qed.

(** ** All commands *)

(** The commands that do not choose another mailbox, poll or move. *)
Definition keeps_view (cmd : command) : bool :=
  match cmd with CSelect _ _ | CUnselect | CNoop _ | CMove _ _ => false | _ => true end.
Lemma told_serve cmd w w' e : keeps_view cmd = true -> serve auth c cmd w = Some (w', e) -> T w w'.
Proof.
  intros Hk. destruct cmd; try discriminate Hk; cbn [serve]; clear Hk;
    try (refine (steps_answer (told truth) _ _ _ _ _); unfold Create, Imap.Delete, Rename, Subscribe, Unsubscribe, List_, Status, Append, Search, Store, Copy; steps).
  - apply told_Expunge.
  - intros Hf. destruct (Fetch _ _ _ _ _) as [[w1 r]|] eqn:E; [|done]. assert (w1 = w') as -> by (by destruct r; simplify_eq). by eapply told_Fetch.
Qed.

(** ** IDLE *)

Definition announces (n : Notification) : bool := match n with NotifNewMail _ _ => true | _ => false end.
Lemma told_idle n : announces n = false -> steps_in T (idle_notification n).
Proof.
  intros Hn w. destruct n as [|uid flags|uid|]; [done| | |]; unfold idle_notification, gbind at 1, get_session, gread.
  - case_match; [reflexivity|]. unfold gbind, from_store, gread. by apply told_send.
  - case_match eqn:Hz; [reflexivity|]. unfold gbind, change, respond_imap. cbn [fst].
    eapply (told_drop w _ _ uid); [done| |done]. cbn. destruct (Z.ltb_spec 0 (reportedSeqNum (im_session w) uid)); [done|].
    apply Z.eqb_neq in Hz. exfalso. unfold reportedSeqNum in *.
    assert (Hge : forall i l, 0 <= seq_of i uid l); [|specialize (Hge 0 (ss_reported (im_session w))); lia].
    intros i l. revert i. induction l as [|x l IH]; intros i; cbn; [done|]. case_match; [apply u32_range|apply IH].
  - reflexivity.
Qed.
End Told.

(** C33: the responses sent and the view recorded never drift apart. For every
    command but SELECT, UNSELECT and MOVE, whether it succeeds or fails, and
    for every notification but new mail while idling: applying what is sent to
    the list the session had recorded for the client gives the list it records
    afterwards. *)
Theorem client_view_tracked truth w :
  Z.of_nat (length (ss_reported (im_session w))) < 2 ^ 32 ->
  (forall cmd w' e, keeps_view cmd = true -> serve auth c cmd w = Some (w', e) ->
     exists out, im_out w' = im_out w ++ out /\
       client_view truth (ss_reported (im_session w)) out = ss_reported (im_session w')) /\
  (forall n w' r, announces n = false -> idle_step auth c (IdleNotif n) w = (w', r) ->
     exists out, im_out w' = im_out w ++ out /\
       client_view truth (ss_reported (im_session w)) out = ss_reported (im_session w')).
Proof.
  intros Hs. split.
  - intros cmd w' e Hk Hrun. by apply (told_serve truth cmd w w' e Hk Hrun Hs).
  - intros n w' r Hn Hrun. unfold idle_step in Hrun. case_match; [|simplify_eq; by apply (reflexivity (R := told truth))].
    pose proof (told_idle truth n Hn w Hs) as [_ Ht]. destruct (idle_notification n w) as [w1 [x|e]]; simplify_eq; exact Ht.
Qed.

(** ** MOVE

    MOVE numbers the messages in the list it reads, so it is right for a client
    whose view is that list. *)

Lemma failing_numbered (keep : Z * MailboxMessage -> bool) i (msgs : list MailboxMessage) :
  failing keep i (number_from i msgs) = (List.filter (fun p => negb (keep p)) (number_from i msgs)).*1.
Proof.
  revert i. induction msgs as [|m msgs IH]; intros i; [done|]. rewrite number_from_cons, failing_cons. cbn [List.filter].
  rewrite IH. by destruct (keep _).
Qed.
Lemma foldl_drop_kept x l us : x ∉ us -> foldl (fun l u => drop_uid u l) (x :: l) us = x :: foldl (fun l u => drop_uid u l) l us.
Proof.
  revert l. induction us as [|u us IH]; intros l Hn; [done|]. cbn. destruct (Z.eqb_spec x u); [set_solver|]. apply IH. set_solver.
Qed.
Lemma foldl_drop_filter {X} (uid : X -> Z) (keep : X -> bool) l : NoDup (uid <$> l) ->
  foldl (fun l u => drop_uid u l) (uid <$> l) (uid <$> List.filter (fun x => negb (keep x)) l) = uid <$> List.filter keep l.
Proof.
  induction l as [|x l IH]; [done|]. cbn [fmap list_fmap]. intros [Hn Hnd]%NoDup_cons. cbn [List.filter]. destruct (keep x); cbn [negb].
  - rewrite foldl_drop_kept; [|intros (y&Hy&[Hin _]%list_elem_of_In%filter_In)%list_elem_of_fmap].
    + cbn. f_equal. by apply IH.
    + apply Hn. rewrite Hy. apply list_elem_of_fmap_2. by apply list_elem_of_In.
  - cbn. rewrite Z.eqb_refl. by apply IH.
Qed.
Lemma number_from_uids i (msgs : list MailboxMessage) : (fun p => msg_Uid p.2) <$> number_from i msgs = msg_Uid <$> msgs.
Proof. revert i. induction msgs as [|m msgs IH]; intros i; [done|]. rewrite number_from_cons. cbn. by rewrite IH. Qed.
Lemma number_from_length {X} i (l : list X) : length (number_from i l) = length l.
Proof. unfold number_from. apply length_imap. Qed.

Lemma move_expunges truth ns msgs : NoDup (msg_Uid <$> msgs) -> Z.of_nat (length msgs) < 2 ^ 32 ->
  client_view truth (msg_Uid <$> msgs) (RExpunge <$> reverse (addressed ns msgs).*1) =
  foldl (fun l u => drop_uid u l) (msg_Uid <$> msgs) ((fun p => msg_Uid p.2) <$> addressed ns msgs).
Proof.
  intros Hnd Hlen. set (keep := fun p : Z * MailboxMessage => negb (numSetContains ns p.1 (msg_Uid p.2))).
  assert (Ha : addressed ns msgs = List.filter (fun p => negb (keep p)) (number_from 0 msgs)).
  { unfold addressed. apply filter_ext. intros p. unfold keep. by rewrite negb_involutive. }
  rewrite Ha, <- failing_numbered. rewrite <- (number_from_uids 0 msgs) in *. rewrite foldl_drop_filter by done.
  exact (expunge_failing truth (fun p => msg_Uid p.2) keep [] (number_from 0 msgs) ltac:(cbn; rewrite number_from_length; lia)).
Qed.

Lemma check_Ok w w' x : checkAccount auth c w = (w', Ok x) -> w' = w.
Proof. unfold checkAccount. intros. by repeat case_match; simplify_eq. Qed.
Lemma from_store_run {X} (f : DB -> string -> result X) w : from_store f w = (w, f (im_db w) (ss_userID (im_session w))).
Proof. done. Qed.
Lemma transfer_loop_run tr u dest l w w' r : transfer_loop tr u dest l w = (w', r) ->
  im_out w' = im_out w /\ im_session w' = im_session w /\ forall srcs dsts, r = Ok (srcs, dsts) -> srcs = (fun p => msg_Uid p.2) <$> l.
Proof.
  revert w w' r. induction l as [|[n msg] l IH]; intros w w' r; cbn [transfer_loop].
  - intros [= <- <-]. split_and!; [done|done|]. by intros ? ? [= <- _].
  - unfold gbind at 1, on_store. destruct (tr (msg_Uid msg) (im_db w)) as [db [x|e]]; [|intros [= <- <-]; done].
    unfold gbind at 1, gread. unfold gbind at 1. destruct (transfer_loop tr u dest l (with_imap_db w db)) as [w1 [[srcs dsts]|e]] eqn:E;
      apply IH in E as (Ho&Hs&Hsrc); intros [= <- <-]; (split_and!; [done|done|]); [|done].
    intros ? ? [= <- _]. cbn. by rewrite (Hsrc _ _ eq_refl).
Qed.

(** A client whose view is the mailbox is told exactly what MOVE took away. *)
Theorem move_in_step truth ns dest w w' r msgs :
  let s := im_session w in
  ListMessages (im_db w) (ss_userID s) (ss_selected s) = Ok msgs -> ss_reported s = msg_Uid <$> msgs ->
  NoDup (msg_Uid <$> msgs) -> Z.of_nat (length msgs) < 2 ^ 32 ->
  Move auth c ns dest w = (w', r) ->
  exists out, im_out w' = im_out w ++ out /\ client_view truth (ss_reported s) out = ss_reported (im_session w').
Proof.
  cbv zeta. intros Hl Hrep Hnd Hlen. assert (Hq : forall w1, told truth w w1 -> exists out, im_out w1 = im_out w ++ out /\
    client_view truth (ss_reported (im_session w)) out = ss_reported (im_session w1)).
  { intros w1 Ht. apply Ht. unfold small. by rewrite Hrep, length_fmap. }
  unfold Move, gbind at 1. pose proof (told_check truth w) as Hc. destruct (checkAccount auth c w) as [w1 [x|e]] eqn:E; [|intros [= <- _]; by apply Hq].
  apply check_Ok in E as ->. clear Hc. unfold gbind at 1, get_session, gread. unfold refuse_if, gbind at 1.
  assert (Hw : told truth w w) by reflexivity.
  destruct (String.eqb _ ""); [intros [= <- _]; by apply Hq|]. unfold gret at 1, gbind at 1.
  destruct (ss_readOnly (im_session w)); [intros [= <- _]; by apply Hq|]. unfold gret at 1, gbind at 1, requireMailbox. rewrite from_store_run.
  destruct (match GetMailbox _ _ dest with Ok _ => _ | Err _ => _ end); [|intros [= <- _]; by apply Hq].
  unfold gbind at 1. rewrite from_store_run, Hl. unfold gbind at 1, change. unfold gbind at 1.
  set (w1 := with_is w _). destruct (transfer_loop _ _ dest (addressed ns msgs) w1) as [w2 [[srcs dsts]|e]] eqn:E;
    apply transfer_loop_run in E as (Ho&Hs&Hsrc); [|intros [= <- _]; apply Hq; apply told_quiet; [done|by rewrite Hs]].
  specialize (Hsrc _ _ eq_refl). unfold gbind at 1. rewrite from_store_run. unfold gbind at 1, respond_imap.
  unfold gbind at 1. rewrite respond_all_run. unfold gbind at 1. intros [= <- _]. exists (RCopyData (mkCopyData (validity_of (im_db w2) (ss_userID (im_session w2)) dest) srcs dsts) :: (RExpunge <$> reverse (addressed ns msgs).*1)).
  cbn. rewrite Ho, <- app_assoc. split; [done|]. rewrite Hs, Hrep, Hsrc. cbn. unfold client_view. cbn [foldl client_apply].
  fold (client_view truth (msg_Uid <$> msgs) (RExpunge <$> reverse (addressed ns msgs).*1)). rewrite move_expunges by done. clear -Hrep.
  assert (Hd : forall us s, ss_reported (foldl dropReported s us) = foldl (fun l u => drop_uid u l) (ss_reported s) us).
  { induction us as [|u us IH]; intros s; cbn; [done|]. by rewrite IH. }
  rewrite Hd. cbn. by rewrite Hrep.
Qed.

(** * SEARCH *)

(** Sequence numbers of SEARCH mean the same to the client. Each number a
    SEARCH returns is the position, in the list of messages the client has been
    told about, of a message of the mailbox that matches; UID SEARCH returns
    exactly the UIDs of the messages that match. *)
Theorem search_numbers_resolve seqNumbers criteria w w' nums :
  Z.of_nat (length (ss_reported (im_session w))) < 2 ^ 32 ->
  Search auth c seqNumbers criteria w = (w', Ok nums) ->
  exists msgs, ListMessages (im_db w) (ss_userID (im_session w)) (ss_selected (im_session w)) = Ok msgs /\
    let found := List.filter (search_matches w' criteria (index_hits c (ss_userID (im_session w)) criteria)) msgs in
    if seqNumbers
    then forall n, n ∈ nums <-> exists m, m ∈ found /\ 1 <= n /\ n = reportedSeqNum (im_session w) (msg_Uid m) /\
                                ss_reported (im_session w) !! Z.to_nat (n - 1) = Some (msg_Uid m)
    else nums = msg_Uid <$> found.
Proof.
  intros Hs. unfold Search, gbind at 1. destruct (checkAccount auth c w) as [w1 [x|e]] eqn:E; [|done]. apply check_Ok in E as ->.
  unfold gbind at 1, get_session, gread. unfold refuse_if, gbind at 1. destruct (String.eqb _ ""); [done|]. unfold gret at 1, gbind at 1.
  rewrite from_store_run. destruct (ListMessages _ _ _) as [msgs|e] eqn:Hl; [|done]. unfold gbind at 1, change.
  set (hits := index_hits c _ criteria). set (w2 := with_is w (setCached (im_session w) msgs)). intros [= <- <-].
  exists msgs. split; [done|]. cbv zeta. destruct seqNumbers; [|done]. intros n. rewrite filter_elem, list_elem_of_fmap.
  assert (Hr : forall uid, reportedSeqNum (im_session w2) uid = reportedSeqNum (im_session w) uid) by done.
  split.
  - intros [(uid&Hn&(m&->&Hm)%list_elem_of_fmap) Hpos%Z.ltb_lt]. rewrite Hr in Hn. exists m. split_and!; [done|lia|done|].
    unfold reportedSeqNum in Hn. destruct (seq_of_spec 0 (msg_Uid m) (ss_reported (im_session w))) as [[E _]|(k&Hk&E&_)]; [lia|lia|lia|].
    rewrite Hn, E. by replace (Z.to_nat (0 + Z.of_nat k + 1 - 1)) with k by lia.
  - intros (m&Hm&Hpos&Hn&_). split; [|apply Z.ltb_lt; lia]. exists (msg_Uid m). rewrite Hr. split; [done|]. by apply list_elem_of_fmap_2.
Qed.

(** * Read-only sessions *)

(** [EXAMINE] opened the mailbox: nothing the server stores changes. *)
Definition untouched w w' : Prop :=
  ss_readOnly (im_session w) = true ->
  ss_readOnly (im_session w') = true /\ im_db w' = im_db w /\ im_blobs w' = im_blobs w /\ im_index w' = im_index w.
#[local] Instance untouched_preorder : PreOrder untouched.
Proof.
  split.
  - intros w Hr. done.
  - intros w1 w2 w3 H12 H23 Hr. destruct (H12 Hr) as (Hr2&Hd&Hb&Hi). destruct (H23 Hr2) as (Hr3&Hd'&Hb'&Hi'). split_and!; congruence.
Qed.
Lemma untouched_send w r : untouched w (send w r).
Proof. intros Hr. done. Qed.
Lemma untouched_change f : (forall s, ss_readOnly (f s) = ss_readOnly s) -> steps_in untouched (change f).
Proof. intros Hf w Hr. cbn. by rewrite Hf. Qed.
Lemma untouched_respond r : steps_in untouched (respond_imap r).
Proof. intros w. apply untouched_send. Qed.
Lemma untouched_check : steps_in untouched (checkAccount auth c).
Proof. intros w. unfold checkAccount. by repeat case_match. Qed.
Lemma untouched_from_store {X} (f : DB -> string -> result X) : steps_in untouched (from_store f).
Proof. apply steps_read. apply _. Qed.
Lemma untouched_get_session : steps_in untouched get_session.
Proof. apply steps_read. apply _. Qed.
#[local] Hint Resolve untouched_respond untouched_check untouched_from_store untouched_get_session : imap_steps.
#[local] Hint Extern 3 (steps_in untouched (change _)) => apply untouched_change; reflexivity : imap_steps.

Lemma untouched_respond_all l : steps_in untouched (respond_all l).
Proof. intros w. by rewrite respond_all_run. Qed.
Lemma untouched_list_loop mbs ref pats o todo : steps_in untouched (list_loop mbs ref pats o todo).
Proof. induction todo as [|mb todo IH]; cbn [list_loop]; [apply steps_ret, _|]. case_match; [done|]. intros w. etrans; [|apply IH]. done. Qed.
#[local] Hint Resolve untouched_respond_all untouched_list_loop : imap_steps.
Lemma untouched_status mb o : steps_in untouched (statusForMailbox mb o).
Proof. unfold statusForMailbox. steps. Qed.
#[local] Hint Resolve untouched_status : imap_steps.

(** A command that reads the session and refuses a read-only one. *)
Lemma untouched_refused {X} (k : imapSession -> GoM W X) (pre : imapSession -> GoM W unit) :
  (forall s, steps_in untouched (pre s)) ->
  steps_in untouched (gbind (checkAccount auth c) (fun _ => gbind get_session (fun s => gbind (pre s) (fun _ =>
    gbind (refuse_if (ss_readOnly s) errMailboxReadOnly) (fun _ => k s))))).
Proof.
  intros Hpre w Hr. pose proof (untouched_check w Hr) as Hc. unfold gbind, get_session, gread.
  destruct (checkAccount auth c w) as [w1 [x|e]]; [|exact Hc]. cbn [fst] in Hc. destruct Hc as (Hr1&Hd&Hb&Hi).
  pose proof (Hpre (im_session w1) w1 Hr1) as (Hr2&Hd2&Hb2&Hi2).
  destruct (pre _ w1) as [w2 [y|e]]; cbn [fst] in *; [rewrite Hr1; cbn|]; split_and!; congruence.
Qed.
Lemma untouched_fetch_sections msg raw secs w w' items : fetch_sections msg raw secs w = Some (w', items) -> untouched w w'.
Proof.
  intros Hf Hr. revert w w' items Hr Hf. induction secs as [|sec secs IH]; intros w w' items Hr Hf; cbn [fetch_sections] in Hf; [by simplify_eq|].
  apply bind_Some in Hf as (content&_&Hf). apply bind_Some in Hf as ([w1 it]&Hf&[= <- _]). rewrite Hr, andb_false_r in Hf. by apply IH in Hf.
Qed.
Lemma untouched_fetch_loop o l w w' : fetch_loop o l w = Some w' -> untouched w w'.
Proof.
  revert w. induction l as [|[n msg] l IH]; intros w Hf; cbn [fetch_loop] in Hf; [by simplify_eq|].
  apply bind_Some in Hf as (w1&Hf1&Hf2). etrans; [|by apply IH]. clear -Hf1. unfold fetchMessage in Hf1. case_match; [by simplify_eq|].
  destruct (loadMailContent _ _ _ _) as [[meta [raw|]]|e]; [|by simplify_eq..].
  apply bind_Some in Hf1 as (env&_&Hf). apply bind_Some in Hf as (body&_&Hf). apply bind_Some in Hf as ([w2 items]&Hf&[= <-]).
  exact (untouched_fetch_sections _ _ _ _ _ _ Hf).
Qed.

(** The commands that act on the selected mailbox, or only look. *)
Definition acts_on_selection (cmd : command) : bool :=
  match cmd with
  | CUnselect | CNoop _ | CList _ _ _ | CStatus _ _ | CExpunge _ | CSearch _ _ | CFetch _ _ | CStore _ _ _ | CMove _ _ => true
  | _ => false
  end.

(** EXAMINE changes nothing. In a session that opened its mailbox
    read-only, no command that acts on the selected mailbox - FETCH without
    PEEK, STORE, EXPUNGE and MOVE among them - changes the store, the blobs or
    the indexes, and the session stays read-only. *)
Theorem examine_changes_nothing cmd w w' e :
  acts_on_selection cmd = true -> ss_readOnly (im_session w) = true -> serve auth c cmd w = Some (w', e) ->
  ss_readOnly (im_session w') = true /\ im_db w' = im_db w /\ im_blobs w' = im_blobs w /\ im_index w' = im_index w.
Proof.
  intros Hk Hr Hrun. cut (untouched w w'); [intros Hu; by apply Hu|]. clear Hr. revert Hrun.
  destruct cmd; try discriminate Hk; cbn [serve]; clear Hk; try (refine (steps_answer untouched _ _ _ _ _); unfold Unselect, List_, Status, Search; steps).
  - intros w0. unfold Poll. pose proof (untouched_check w0) as Hc. destruct (checkAccount auth c w0) as [w1 [x|e1]]; cbn [fst] in Hc; [|exact Hc].
    etrans; [exact Hc|]. revert w1 Hc. intros w1 _. revert w1. change (steps_in untouched (pollUpdates allowExpunge)). unfold pollUpdates. steps.
  - unfold Imap.Expunge. intros w0. pose proof (untouched_refused (fun s => gbind (fun w => let '(db, expunged, e) := MailboxStore.Expunge (ss_userID s) (ss_selected s) (im_db w) in
      (with_imap_db w db, match e with Some e => Err e | None => Ok expunged end)) (fun expunged => tell_expunged (reverse expunged))) (fun _ => gret tt) (fun _ => steps_ret untouched tt) w0) as Hu. exact Hu.
  - intros Hf. destruct (Fetch _ _ _ _ _) as [[w1 r]|] eqn:E; [|done]. assert (w1 = w') as -> by (by destruct r; simplify_eq). clear Hf.
    unfold Fetch in E. pose proof (untouched_check w) as Hc. destruct (checkAccount auth c w) as [w1 [x|e1]]; cbn [fst] in Hc; [|by simplify_eq].
    case_match; [by simplify_eq|]. case_match; [|by simplify_eq]. apply bind_Some in E as (w2&Hf&[= <- _]). apply untouched_fetch_loop in Hf.
    etrans; [exact Hc|]. etrans; [|exact Hf]. done.
  - unfold Store. apply (untouched_refused _ (fun s => refuse_if (String.eqb (ss_selected s) "") errNoSelection)). intros s. apply steps_refuse, _.
  - unfold Move. apply (untouched_refused _ (fun s => refuse_if (String.eqb (ss_selected s) "") errNoSelection)). intros s. apply steps_refuse, _.
Qed.

(** * APPEND *)

(** A refused APPEND leaves nothing behind, and what may be refused is. An
    APPEND that succeeds named an existing mailbox while the volume had room
    and the user's domain was not found over quota for the size of the message;
    one refused for any of the three changed neither the store nor the blobs
    nor the indexes. *)
Theorem append_gated now low mailbox literal time flags w w' r :
  Append auth c now low mailbox literal time flags w = (w', r) ->
  match r with
  | Ok _ => is_ok (GetMailbox (im_db w) (ss_userID (im_session w)) mailbox) = true /\ low = false /\
            forall check, ic_quota c = Some check -> check (im_db w) (ss_userID (im_session w)) (len literal) <> Ok true
  | Err e => e ∈ [errTryCreate; errStorageLow; errOverQuota] ->
             im_db w' = im_db w /\ im_blobs w' = im_blobs w /\ im_index w' = im_index w
  end.
Proof.
  unfold Append, gbind at 1. destruct (checkAccount auth c w) as [w1 [x|e]] eqn:E.
  2:{ intros [= <- <-] _. unfold checkAccount in E. by repeat case_match; simplify_eq. }
  apply check_Ok in E as ->. unfold gbind at 1, requireMailbox. rewrite from_store_run.
  destruct (GetMailbox _ _ mailbox) as [meta|e]; [|by intros [= <- <-]]. unfold gbind at 1, refuse_if. destruct low; [by intros [= <- <-]|].
  unfold gret at 1, gbind at 1. rewrite from_store_run. set (over := match ic_quota c with Some _ => _ | None => _ end). unfold gbind at 1.
  assert (Hover : over = false -> forall check, ic_quota c = Some check -> check (im_db w) (ss_userID (im_session w)) (len literal) <> Ok true).
  { intros Ho check Hc Hk. unfold over in Ho. rewrite Hc, Hk in Ho. done. }
  destruct over; [by intros [= <- <-]|]. unfold gret at 1. specialize (Hover eq_refl).
  assert (Hn0 : forall t e', Wrap t e' ∈ [errTryCreate; errStorageLow; errOverQuota] -> False).
  { intros t e'. rewrite !elem_of_cons. intros [E|[E|[E|E%elem_of_nil]]]; [discriminate E..|exact E]. }
  assert (Hw : forall X t (m : GoM W X) w0 w1 e, gwrap t m w0 = (w1, Err e) -> e ∈ [errTryCreate; errStorageLow; errOverQuota] -> False).
  { intros X t m w0 w1 e (e'&_&->)%gwrap_Err He. exact (Hn0 t e' He). }
  destruct r as [d|e]; [done|]. intros Hrun He. exfalso.
  unfold gbind at 1 in Hrun. destruct (gwrap _ _ w) as [w2 [hash|e1]] eqn:E1; [|simplify_eq; by eapply Hw]. clear E1.
  unfold gbind at 1, gread at 1 in Hrun. destruct (blob_Get (im_blobs w2) hash) as [raw|e1]; cbn [wrapf] in Hrun.
  2:{ simplify_eq. exact (Hn0 _ _ He). }
  set (addrs := match (ReadEnvelope raw).1 with Some env => MailAddressHeaders (pa_mail env) | None => _ end) in Hrun. destruct addrs as [[to cc] lid]. unfold gbind at 1 in Hrun.
  assert (Hp : forall atts w0, exists w1 refs, put_attachments atts w0 = (w1, Ok refs)).
  { induction atts as [|att atts IH]; intros w0; cbn [put_attachments]; [by eexists _, _|]. destruct (String.eqb (att_content att) ""); [apply IH|].
    destruct (on_blobs _ w0) as [w1' [h|e2]]; [|apply IH]. unfold gbind. destruct (IH w1') as (w3&refs&->). by eexists _, _. }
  match type of Hrun with context [put_attachments ?a ?b] => destruct (Hp a b) as (w3&refs&Ep); rewrite Ep in Hrun end.
  unfold gbind at 1, get_session, gread at 1 in Hrun. unfold gbind at 1 in Hrun.
  destruct (gwrap _ _ w3) as [w4 [uid|e1]] eqn:E4; [|simplify_eq; by eapply Hw]. unfold gbind at 1, when_ in Hrun.
  destruct (bool_decide (is_Some (ic_search c))); cbn in Hrun; discriminate Hrun.
Qed.
End View.

(** * Flags *)

Lemma tag_tail_chars s : tag_tail s = true -> str_all tag_char s = true.
Proof.
  induction s as [|a s IH]; [done|]. destruct s as [|b s]; cbn [tag_tail].
  - intros Ha. unfold tag_char. cbn. by rewrite Ha.
  - intros [Ha Hs]%andb_true_iff. apply IH in Hs. change (tag_char a && str_all tag_char (String b s) = true). apply andb_true_iff. by split.
Qed.
Lemma valid_tag name : ValidateTagName name = None -> name <> "" /\ str_all tag_char name = true.
Proof.
  unfold ValidateTagName. destruct (String.eqb_spec name "") as [->|Hne]; [done|]. case_match; [done|].
  destruct (tag_name name) eqn:Hn; [|done]. intros _. split; [done|]. destruct name as [|a s]; [done|]. cbn in Hn.
  apply andb_true_iff in Hn as [Ha Hs]. cbn. unfold tag_char at 1. by rewrite Ha, (tag_tail_chars s Hs).
Qed.
Lemma tag_char_lower a : tag_char a = true -> lower_char a = a /\ (byte_of a <? 128) = true.
Proof. destruct a as [[] [] [] [] [] [] [] []]; vm_compute; intros; try discriminate; by split. Qed.
Lemma ToLower_tag `{GoUnicode} s : str_all tag_char s = true -> ToLower s = s.
Proof.
  intros Hs. unfold ToLower. assert (Ha : is_ascii s = true).
  { induction s as [|a s IH]; [done|]. cbn in Hs |- *. apply andb_true_iff in Hs as [Ha Hs]. apply andb_true_iff. split; [by apply tag_char_lower|by apply IH]. }
  rewrite Ha. clear Ha. induction s as [|a s IH]; [done|]. cbn in Hs |- *. apply andb_true_iff in Hs as [Ha Hs]. by rewrite (proj1 (tag_char_lower a Ha)), IH.
Qed.

(** What FETCH shows, STORE takes back. Storing the flag list a client was
    shown for a message gives the message's five system flags and its tags
    again: none is lost and none is added. *)
Theorem fetched_flags_store_back `{GoUnicode} flags tags :
  Forall (fun t => ValidateTagName t = None) tags ->
  separateFlags (messageToIMAPFlags flags tags) = (flagsToIMAP flags, tags) /\
  forall bit, bit ∈ [FlagSeen; FlagAnswered; FlagFlagged; FlagDeleted; FlagDraft] ->
    has_bits (imapFlagsToUint32 (flagsToIMAP flags)) bit = has_bits flags bit.
Proof.
  intros Ht. split.
  - unfold separateFlags, messageToIMAPFlags. rewrite foldl_app.
    assert (Hs : forall acc, foldl (fun '(std, keywords) s => if HasPrefix s "\" then (std ++ [s], keywords) else if HasPrefix s "$" then
        let name := ToLower (str_drop 1 s) in if String.eqb name "" then (std, keywords) else (std, keywords ++ [name]) else (std, keywords))
        (acc, []) (flagsToIMAP flags) = (acc ++ flagsToIMAP flags, [])).
    { intros acc. unfold flagsToIMAP. repeat case_match; cbn; by rewrite ?app_nil_r, <- ?app_assoc. }
    rewrite Hs. cbn [app]. clear Hs. assert (Hk : forall acc, foldl (fun '(std, keywords) s => if HasPrefix s "\" then (std ++ [s], keywords) else if HasPrefix s "$" then
        let name := ToLower (str_drop 1 s) in if String.eqb name "" then (std, keywords) else (std, keywords ++ [name]) else (std, keywords))
        (flagsToIMAP flags, acc) (tagsToIMAPKeywords tags) = (flagsToIMAP flags, acc ++ tags)); [|exact (Hk [])].
    induction Ht as [|t tags Hv Ht IH]; intros acc; [by rewrite app_nil_r|]. destruct (valid_tag t Hv) as [Hne Hc].
    unfold tagsToIMAPKeywords. cbn [List.filter]. apply String.eqb_neq in Hne. rewrite Hne. cbn [negb fmap list_fmap foldl].
    fold (tagsToIMAPKeywords tags). assert (Hp : HasPrefix t "$" || HasPrefix t "\" = false).
    { destruct t as [|a t]; [done|]. cbn in Hc. apply andb_true_iff in Hc as [Ha _]. clear -Ha. destruct a as [[] [] [] [] [] [] [] []]; vm_compute in Ha |- *; congruence || (destruct t; done). }
    rewrite Hp. change (HasPrefix ("$" +:+ t) "\") with false. replace (HasPrefix ("$" +:+ t) "$") with true by (by destruct t).
    change (str_drop 1 ("$" +:+ t)) with t. cbv zeta. rewrite (ToLower_tag t Hc), Hne, IH. by rewrite <- app_assoc.
  - intros bit Hb. unfold flagsToIMAP. repeat (apply elem_of_cons in Hb as [->|Hb]); try (by apply elem_of_nil in Hb);
      destruct (has_bits flags FlagSeen), (has_bits flags FlagAnswered), (has_bits flags FlagFlagged), (has_bits flags FlagDeleted), (has_bits flags FlagDraft); vm_compute; reflexivity.
Qed.

(** * Sections and structures *)

(** A partial section is the bytes from the offset on, as many as asked for or
    as there are, when the two do not overflow. *)
Theorem partial_content_exact content offset size :
  0 <= offset -> 0 <= size -> offset + size < 2 ^ 63 ->
  exists before after part, partial_content content offset size = Some part /\
    (if offset <? len content then content = before +:+ part +:+ after /\ len before = offset /\ len part = Z.min size (len content - offset) else part = "").
Proof.
  intros Ho Hs Hlt. unfold partial_content. destruct (Z.leb_spec (len content) offset) as [Hle|Hgt].
  - exists "", "", "". split; [done|]. destruct (Z.ltb_spec offset (len content)); [lia|done].
  - destruct (Z.ltb_spec offset (len content)); [|lia]. rewrite i64_small by (unfold in_i64; lia).
    set (e := if len content <? offset + size then len content else offset + size).
    assert (He : e = Z.min (len content) (offset + size)) by (unfold e; destruct (Z.ltb_spec (len content) (offset + size)); lia).
    rewrite (proj2 (Z.leb_le 0 offset)), (proj2 (Z.leb_le offset e)) by lia. cbn [andb].
    exists (str_take (Z.to_nat offset) content), (str_drop (Z.to_nat (e - offset)) (str_drop (Z.to_nat offset) content)), (str_take (Z.to_nat (e - offset)) (str_drop (Z.to_nat offset) content)).
    split; [done|]. rewrite !str_take_drop. split; [done|]. unfold len in *. rewrite !str_take_length, str_drop_length. lia.
Qed.

(** Every part of a structure that is written has its extension fields, at any
    depth, and nothing else about it has changed. *)
Fixpoint extended (b : BodyStructure) : bool :=
  match b with SinglePart _ _ _ ext => ext | MultiPart children _ ext => ext && forallb extended children end.
Fixpoint shape (b : BodyStructure) : BodyStructure :=
  match b with SinglePart t st n _ => SinglePart t st n false | MultiPart children st _ => MultiPart (shape <$> children) st false end.
Fixpoint structure_ind' (P : BodyStructure -> Prop) (Hs : forall t st n e, P (SinglePart t st n e))
  (Hm : forall children st e, Forall P children -> P (MultiPart children st e)) (b : BodyStructure) : P b :=
  match b with
  | SinglePart t st n e => Hs t st n e
  | MultiPart children st e =>
      Hm children st e ((fix go l : Forall P l := match l with [] => Forall_nil_2 _ | x :: l' => Forall_cons_2 _ _ _ (structure_ind' P Hs Hm x) (go l') end) children)
  end.
Theorem ensure_extended_complete b :
  extended (ensureExtendedBodyStructure b) = true /\ shape (ensureExtendedBodyStructure b) = shape b.
Proof.
  induction b as [t st n e|children st e IH] using structure_ind'; cbn; [done|]. split.
  - apply forallb_forall. intros x Hx. apply list_elem_of_In, list_elem_of_fmap in Hx as (y&->&Hy). rewrite Forall_forall in IH. by apply IH.
  - f_equal. rewrite <- list_fmap_compose. apply list_fmap_ext. intros i y Hy. rewrite Forall_forall in IH. apply IH. by eapply list_elem_of_lookup_2.
Qed.

(** * The hub *)

Definition notify_all (n : Notifier) (events : list (string * string * Notification)) : Notifier :=
  foldl (fun n e => Notify n e.1.1 e.1.2 e.2) n events.
Definition events_for (key : string) (events : list (string * string * Notification)) : list Notification :=
  snd <$> List.filter (fun e => String.eqb (subKey e.1.1 e.1.2) key) events.
Lemma offer_take buffer e events :
  (length buffer <= channelBuffer)%nat ->
  take channelBuffer (offer e buffer ++ events) = take channelBuffer (buffer ++ e :: events) /\ (length (offer e buffer) <= channelBuffer)%nat.
Proof.
  intros Hl. unfold offer. destruct (Nat.ltb_spec (length buffer) channelBuffer) as [Hlt|Hge].
  - rewrite <- app_assoc. split; [done|]. rewrite length_app. cbn. lia.
  - assert (E : length buffer = channelBuffer) by lia. rewrite !take_app_le by lia. done.
Qed.
(** A subscriber finds in its channel the first 64 notifications published for
    its mailbox since it subscribed, in order: later ones are dropped until it
    reads. *)
Theorem hub_delivers n userID mailbox events :
  let key := subKey userID mailbox in
  let (n1, ch) := NotifierSubscribe n userID mailbox in
  subscribers_of (notify_all n1 events) key !! ch = Some (take channelBuffer (events_for key events)).
Proof.
  cbv zeta. unfold NotifierSubscribe. set (key := subKey userID mailbox). set (n1 := mkNotifier _ _).
  assert (Hb : subscribers_of n1 key !! nt_next n = Some []) by (unfold subscribers_of, n1; cbn; rewrite lookup_insert_eq; cbn; apply lookup_insert_eq).
  cut (forall buffer n0, (length buffer <= channelBuffer)%nat -> subscribers_of n0 key !! nt_next n = Some buffer ->
         subscribers_of (notify_all n0 events) key !! nt_next n = Some (take channelBuffer (buffer ++ events_for key events))).
  { intros Hc. apply (Hc [] n1); [cbn; lia|done]. }
  clear Hb n1. induction events as [|[[u m] e] events IH]; intros buffer n0 Hl Hb; cbn [notify_all foldl].
  { cbn. by rewrite app_nil_r, take_ge. }
  fold (notify_all (Notify n0 u m e) events). 
  assert (Hev : events_for key ((u, m, e) :: events) = if String.eqb (subKey u m) key then e :: events_for key events else events_for key events).
  { unfold events_for. cbn. by destruct (String.eqb (subKey u m) key). }
  rewrite Hev. destruct (String.eqb_spec (subKey u m) key) as [E|E].
  - destruct (offer_take buffer e (events_for key events) Hl) as [<- Hl'].
    apply IH; [done|]. unfold subscribers_of, Notify in *. cbn. rewrite E, lookup_alter_eq.
    destruct (nt_subscribers n0 !! key) as [subs|]; cbn in *; [|by rewrite lookup_empty in Hb]. by rewrite lookup_fmap, Hb.
  - apply IH; [done|]. unfold subscribers_of, Notify in *. cbn. by rewrite lookup_alter_ne.
Qed.

#[local] Existing Instances demo_codecs demo_codec_laws bytewise_unicode demo_sha direct_applier demo_blobs_ops.
#[local] Instance demo_tag_codec : Codec TagMeta := tagged_codec "t".
#[local] Instance demo_mail_addresses : NetMail := {|
  ParseAddress s := Ok (mkMailAddress "" s); ParseAddressList s := Ok [mkMailAddress "" s]; address_String a := ma_Address a |}.
#[local] Instance demo_enmime : Enmime := {| Imap.ReadEnvelope _ := (None, Some (Errorf "no parser")); time_Parse _ _ := None |}.
#[local] Instance demo_imaplib : ImapLib := fun name _ pattern => String.eqb name pattern.

(** An account service that says what it is told to. *)
Definition fixed_auth (live : bool) : authenticator MemDB unit :=
  mkAuthenticator MemDB unit (fun _ _ _ _ => gfail (Errorf "no logins")) (fun _ _ _ => Ok (mkAccountState false (negb live) "e" false)).
Definition demo_config (search : option (string -> bquery -> result (gset string))) : imapConfig MemDB :=
  mkImapConfig "192.0.2.1" true true false true search None.
Definition plain_config : imapConfig MemDB := demo_config None.
(** A session of u1 with INBOX selected, its client holding [reported]. *)
Definition demo_imap (readOnly : bool) (reported : list Z) (db : MemDB) : ImapState MemDB unit (string -> string) :=
  mkImap (mkIS "u1" "e" "" "INBOX" readOnly [] reported) db tt None (fun _ => "") [] [].
Definition serve_demo (live : bool) := serve (fixed_auth live) plain_config.
Definition result_of (o : option (ImapState MemDB unit (string -> string) * option err)) := default (demo_imap false [] (mem_of []), None) o.

(** Three messages, the first marked as deleted; then without the first; then
    with a new one. *)
Definition three : MemDB := apply_all [demo_deliver "INBOX" "g1" FlagDeleted; demo_deliver "INBOX" "g2" 0; demo_deliver "INBOX" "g3" 0] (mem_of []).
Definition one_gone : list RaftCommand := [mkCmd OP_PUT (mailboxExpungeKey "u1" "INBOX") ""].
Definition two : MemDB := apply_all one_gone three.
Definition two_new : MemDB := apply_all [demo_deliver "INBOX" "g4" 0] two.
Definition uids_of (db : MemDB) : list Z := match ListMessages db "u1" "INBOX" with Ok l => msg_Uid <$> l | Err _ => [] end.
Example three_uids : uids_of three = [1; 2; 3] /\ uids_of two = [2; 3] /\ uids_of two_new = [2; 3; 4].
Proof. vm_compute. done. Qed.

(** * Witnesses *)

Fixpoint run_check_all (u m : string) (cmds : list RaftCommand) (s : MemDB) : bool :=
  match cmds with
  | [] => true
  | cmd :: cmds' =>
      let s' := (ApplyMailboxCommand cmd s).1 in
      healthy_check s && room_check (mem s) && plain_check cmd && bool_decide (is_Some (meta_at (contents s') u m)) && run_check_all u m cmds' s'
  end.
Lemma run_check_all_ok u m cmds s : run_check_all u m cmds s = true -> mailbox_run u m s (apply_all cmds s).
Proof.
  revert s. induction cmds as [|cmd cmds IH]; intros s; [intros _; apply run_done|]. cbn [run_check_all].
  intros [[[[Hh Hr]%andb_true_iff Hp]%andb_true_iff Hm%bool_decide_eq_true]%andb_true_iff Hc]%andb_true_iff.
  eapply (run_step u m s _ _ cmd); [by apply healthy_check_ok|by apply room_check_ok|by apply plain_check_ok|apply surjective_pairing|done|by apply IH].
Qed.
Lemma three_ok : mbox_inv (mem three) /\ healthy three.
Proof. apply run_check_ok; [by vm_compute|apply inv_empty]. Qed.
Lemma two_new_ok : mbox_inv (mem two_new) /\ healthy two_new.
Proof. apply (run_check_ok (one_gone ++ [demo_deliver "INBOX" "g4" 0]) three); [by vm_compute|apply three_ok]. Qed.
Definition msgs_of (db : MemDB) : list MailboxMessage := match ListMessages db "u1" "INBOX" with Ok l => l | Err _ => [] end.



Lemma client_view_tracked_witness :
  exists out, im_out (result_of (serve_demo true (CExpunge None) (demo_imap false [1; 2; 3] three))).1 = out /\ client_view [] [1; 2; 3] out = [2; 3].
Proof.
  destruct (client_view_tracked (fixed_auth true) plain_config [] (demo_imap false [1; 2; 3] three)) as [Hc _]; [reflexivity|].
  destruct (Hc (CExpunge None) (result_of (serve_demo true (CExpunge None) (demo_imap false [1; 2; 3] three))).1 None) as (out&Ho&Hv); [reflexivity|by vm_compute|].
  exists out. split; [exact Ho|]. etransitivity; [exact Hv|]. vm_compute. reflexivity.
Defined.

Lemma search_numbers_resolve_witness :
  exists w', Search (fixed_auth true) plain_config true (mkCriteria [] [] None None [] [] [] [] [] 0 0 [] []) (demo_imap false [1; 2; 3] two_new) = (w', Ok [2; 3]) /\
    exists m, 2 = reportedSeqNum (im_session (demo_imap false [1; 2; 3] two_new)) (msg_Uid m).
Proof.
  set (run := Search (fixed_auth true) plain_config true (mkCriteria [] [] None None [] [] [] [] [] 0 0 [] []) (demo_imap false [1; 2; 3] two_new)).
  assert (Hr : run.2 = Ok [2; 3]) by (vm_compute; reflexivity). exists run.1. split; [rewrite <- Hr; unfold run; apply surjective_pairing|].
  destruct (search_numbers_resolve (fixed_auth true) plain_config true (mkCriteria [] [] None None [] [] [] [] [] 0 0 [] []) (demo_imap false [1; 2; 3] two_new) run.1 [2; 3]) as (msgs&_&Hn).
  - reflexivity.
  - rewrite <- Hr. unfold run. apply surjective_pairing.
  - destruct (proj1 (Hn 2)) as (m&_&_&E&_); [by left|]. exists m. exact E.
Defined.

Lemma examine_changes_nothing_witness :
  exists w', serve_demo true (CExpunge None) (demo_imap true [1; 2; 3] three) = Some (w', Some errMailboxReadOnly) /\
    im_db w' = im_db (demo_imap true [1; 2; 3] three).
Proof.
  eexists. assert (Hr : serve_demo true (CExpunge None) (demo_imap true [1; 2; 3] three) = Some (demo_imap true [1; 2; 3] three, Some errMailboxReadOnly))
    by reflexivity.
  split; [exact Hr|]. exact (proj1 (proj2 (examine_changes_nothing (fixed_auth true) plain_config (CExpunge None) (demo_imap true [1; 2; 3] three) _ _ eq_refl eq_refl Hr))).
Defined.

Definition full_config : imapConfig MemDB := mkImapConfig "192.0.2.1" true true false true None (Some (fun _ _ n => Ok (3 <? n))).
Lemma append_gated_witness :
  exists w', Append (fixed_auth true) full_config 0 false "INBOX" "long" None [] (demo_imap false [] three) = (w', Err errOverQuota) /\
    im_db w' = im_db (demo_imap false [] three).
Proof.
  set (run := Append (fixed_auth true) full_config 0 false "INBOX" "long" None [] (demo_imap false [] three)).
  assert (Hr : run.2 = Err errOverQuota) by (vm_compute; reflexivity).
  assert (He : run = (run.1, Err errOverQuota)) by (rewrite <- Hr; apply surjective_pairing).
  exists run.1. split; [exact He|].
  refine (proj1 (append_gated (fixed_auth true) full_config 0 false "INBOX" "long" None [] (demo_imap false [] three) run.1 (Err errOverQuota) He _)).
  right. right. left.
Defined.

Lemma fetched_flags_store_back_witness :
  separateFlags (messageToIMAPFlags 9 ["work"; "to-do"]) = (["\Seen"; "\Deleted"], ["work"; "to-do"]).
Proof. apply (fetched_flags_store_back 9 ["work"; "to-do"]). repeat constructor; reflexivity. Defined.

(** * Where the code falls short *)

(** ** Sequence numbers of the server

    FETCH, STORE, COPY and MOVE take the numbers a client names to be positions
    in the list they have just read.  Here another session has removed message
    1, the client has not been told, and asks for its message 1 to be marked:
    the code marks UID 2. *)
Definition mark_first : command := CStore 0 (SeqSet (Z.eqb 1)) (mkStoreFlags StoreFlagsAdd true [imapFlagged]).
Theorem store_marks_another_message :
  let w := demo_imap false [1; 2; 3] two in
  ss_reported (im_session w) !! 0%nat = Some 1 /\
  (msg_Flags <$> msg_at (contents two) "u1" "INBOX" 2) = Some 0 /\
  let w' := (result_of (serve_demo true mark_first w)).1 in
  (msg_Flags <$> msg_at (contents (im_db w')) "u1" "INBOX" 2) = Some FlagFlagged.
Proof. vm_compute. done. Qed.

(** MOVE also reports its removals with those numbers: the client asked for UID
    3 to be moved, is told that its message 2 is gone, and after the next poll
    holds UID 3, which is gone, in place of UID 2, which is there. *)
Theorem move_expunges_another_message :
  let w := demo_imap false [1; 2; 3] (apply_all [demo_deliver "Trash" "g0" 0] two) in
  let w1 := (result_of (serve_demo true (CMove (UIDSet (Z.eqb 3)) "Trash") w)).1 in
  let w2 := (result_of (serve_demo true (CNoop true) w1)).1 in
  uids_of (im_db w2) = [2] /\ client_view [2] [1; 2; 3] (im_out w2) = [3] /\ ss_reported (im_session w2) = [2].
Proof. vm_compute. done. Qed.

(** ** UID EXPUNGE

    The capability UIDPLUS is advertised; its UID EXPUNGE removes only the
    messages named.  The code removes every message marked as deleted. *)
Theorem uid_expunge_ignores_its_set :
  let db := apply_all [demo_deliver "INBOX" "g4" FlagDeleted] three in
  uids_of db = [1; 2; 3; 4] /\
  uids_of (im_db (result_of (serve_demo true (CExpunge (Some (Z.eqb 4))) (demo_imap false [1; 2; 3; 4] db))).1) = [2; 3].
Proof. vm_compute. done. Qed.

(** ** IDLE

    A message arrives and, before the session has handled that event, another
    session removes message 1.  Handling the arrival replaces the recorded view
    by the store's list, so the removal that follows is taken for one the client
    knows about: it is never told, by IDLE or by any later poll. *)
Theorem idle_arrival_hides_removal :
  let events := [(two_new, IdleNotif (NotifNewMail 4 4)); (two_new, IdleNotif (NotifExpunge 1)); (two_new, IdleStop)] in
  let w1 := (Idle (fixed_auth true) plain_config events (demo_imap false [1; 2; 3] three)).1 in
  let w2 := (result_of (serve_demo true (CNoop true) w1)).1 in
  im_out w2 = [RExists 4] /\ ss_reported (im_session w2) = uids_of two_new /\ length (uids_of two_new) = 3%nat.
Proof. vm_compute. done. Qed.

(** ** SEARCH *)

Section SearchGaps.
Context {DB A B : Type} `{PebbleDB DB} `{MailCodecs} `{GoUnicode} `{BlobOps B} `{NetMail} `{Enmime} `{Sha256}.
Variable c : imapConfig DB.
Variable w : ImapState DB A B.

(** A criterion that has only header, body or text words. *)
Definition words_only (n : Criteria) : Prop :=
  cr_Since n = None /\ cr_Before n = None /\ cr_Flag n = [] /\ cr_NotFlag n = [] /\ cr_Not n = [] /\ cr_Or n = [].
Lemma words_only_matches n flags date : words_only n -> matchesFlagCriteria flags date n = true.
Proof.
  destruct n as [sn uid since before hdr body text flag notflag la sm nots ors]. intros (Hs&Hb&Hf&Hnf&Hn&Ho). cbn in *. by subst.
Qed.

(** NOT of words finds nothing at all: the test of flags that follows takes
    the negated criterion, which has no flags, to hold. *)
Theorem not_words_finds_nothing criteria n hits msg :
  n ∈ cr_Not criteria -> words_only n -> search_matches w criteria hits msg = false.
Proof.
  intros Hn Hw. unfold search_matches. apply andb_false_iff. right. destruct criteria as [sn uid since before hdr body text flag notflag la sm nots ors].
  cbn [cr_Not] in Hn. cbn [matchesFlagCriteria cr_Not]. apply andb_false_iff. left. apply andb_false_iff. right.
  apply not_true_iff_false. intros Hall. rewrite forallb_forall in Hall. apply list_elem_of_In in Hn. specialize (Hall n Hn).
  by rewrite words_only_matches in Hall.
Qed.

(** A search for a keyword finds nothing, a search for its absence is no
    restriction: only the five system flags are looked at. *)
Theorem keyword_search_finds_nothing criteria kw hits msg :
  kw ∈ cr_Flag criteria -> flag_bit kw = 0 -> search_matches w criteria hits msg = false.
Proof.
  intros Hk Hb. unfold search_matches. apply andb_false_iff. right. destruct criteria as [sn uid since before hdr body text flag notflag la sm nots ors].
  cbn [cr_Flag] in Hk. cbn [matchesFlagCriteria]. do 3 (apply andb_false_iff; left). unfold flags_match. cbn [cr_Flag]. apply andb_false_iff. left.
  apply not_true_iff_false. intros Hall. rewrite forallb_forall in Hall. apply list_elem_of_In in Hk. specialize (Hall kw Hk).
  unfold hasFlag in Hall. rewrite Hb in Hall. unfold has_bits in Hall. by rewrite Z.land_0_r in Hall.
Qed.

(** Sequence numbers, UIDs and sizes are not looked at either. *)
Definition all_but_numbers (k : Criteria) : Criteria :=
  mkCriteria [] [] (cr_Since k) (cr_Before k) (cr_Header k) (cr_Body k) (cr_Text k) (cr_Flag k) (cr_NotFlag k) 0 0 (cr_Not k) (cr_Or k).
Theorem numbers_and_sizes_ignored criteria userID msg :
  search_matches w criteria (index_hits c userID criteria) msg =
  search_matches w (all_but_numbers criteria) (index_hits c userID (all_but_numbers criteria)) msg.
Proof. by destruct criteria. Qed.
End SearchGaps.

(** So UID SEARCH UID 3 finds every message. *)
Example uid_search_finds_all :
  (Search (fixed_auth true) plain_config false (mkCriteria [] [Z.eqb 3] None None [] [] [] [] [] 0 0 [] []) (demo_imap false [1; 2; 3] three)).2 = Ok [1; 2; 3].
Proof. vm_compute. reflexivity. Qed.

(** OR of words and a flag: with a text index, the flag is dropped and its
    messages are not found. *)
Definition flagged : Criteria := mkCriteria [] [] None None [] [] [] [imapDeleted] [] 0 0 [] [].
Definition about_x : Criteria := mkCriteria [] [] None None [("Subject", "x")] [] [] [] [] 0 0 [] [].
Definition either : Criteria := mkCriteria [] [] None None [] [] [] [] [] 0 0 [] [(about_x, flagged)].
Theorem or_with_flag_drops_flag :
  buildBleveQuery either = buildBleveQuery about_x /\
  (Search (fixed_auth true) (demo_config (Some (fun _ _ => Ok {["g3"]}))) false flagged (demo_imap false [1; 2; 3] three)).2 = Ok [1] /\
  (Search (fixed_auth true) (demo_config (Some (fun _ _ => Ok {["g3"]}))) false either (demo_imap false [1; 2; 3] three)).2 = Ok [3].
Proof. vm_compute. done. Qed.

(** ** Partial fetches

    The end of a partial section is computed with a 64-bit sum that overflows:
    FETCH BODY[]<1.9223372036854775807> is a slice out of range. *)
Theorem partial_fetch_panics : partial_content "abc" 1 (2 ^ 63 - 1) = None.
Proof. vm_compute. reflexivity. Qed.
