(* ===== verification/Netx.v ===== *)
(** Network addresses: [internal/netx/trustedproxies.go] and the fetcher of
    user-supplied URLs, [internal/netx/safeclient.go].

    An address is a [netip.Addr]: its number, and for version 6 its zone.
    Parsing of addresses and URLs is the class [NetParse]; everything the code
    decides about a parsed address is written out.  A fetch is a function of
    the answer of [http.Client.Do]; connecting and following redirects belong
    to [net/http], which calls [dialControl] and [checkRedirect] here. *)

From S2P Require Import Prelude GoStrings Utf8 Accounts Relay.
From Stdlib Require Import Ascii.

(** * [net/netip] *)

Inductive Addr : Type :=
| Addr4 (n : Z)
| Addr6 (n : Z) (zone : string).
#[global] Instance Addr_eq_dec : EqDecision Addr.
Proof. solve_decision. Defined.

Definition Is4In6 (a : Addr) : bool := match a with Addr6 n _ => n / 2 ^ 32 =? 65535 | Addr4 _ => false end.
Definition Unmap (a : Addr) : Addr := match a with Addr6 n _ => if Is4In6 a then Addr4 (n mod 2 ^ 32) else a | _ => a end.
Definition IsUnspecified (a : Addr) : bool := match a with Addr4 n => n =? 0 | Addr6 n z => (n =? 0) && String.eqb z "" end.
Definition BitLen (a : Addr) : Z := match a with Addr4 _ => 32 | Addr6 _ _ => 128 end.
Definition addr_num (a : Addr) : Z := match a with Addr4 n => n | Addr6 n _ => n end.
Definition withoutZone (a : Addr) : Addr := match a with Addr6 n _ => Addr6 n "" | _ => a end.
(** The numbers that fit the version's width. *)
Definition addr_ok (a : Addr) : Prop := 0 <= addr_num a < 2 ^ BitLen a.

Record Prefix := mkPrefix { px_Addr : Addr; px_Bits : Z }.
Definition PrefixFrom (a : Addr) (bits : Z) : Prefix := mkPrefix (withoutZone a) bits.
Definition masked_num (w bits n : Z) : Z := n / 2 ^ (w - bits) * 2 ^ (w - bits).
Definition Masked (p : Prefix) : Prefix :=
  mkPrefix (match px_Addr p with
            | Addr4 n => Addr4 (masked_num 32 (px_Bits p) n)
            | Addr6 n _ => Addr6 (masked_num 128 (px_Bits p) n) ""
            end) (px_Bits p).
(** An address with a zone is in no prefix. *)
Definition px_Contains (p : Prefix) (a : Addr) : bool :=
  match px_Addr p, a with
  | Addr4 m, Addr4 n => Z.shiftr (Z.lxor n m) (32 - px_Bits p) =? 0
  | Addr6 m _, Addr6 n z => String.eqb z "" && (Z.shiftr (Z.lxor n m) (128 - px_Bits p) =? 0)
  | _, _ => false
  end.

(** * Parsing, by the standard library *)

(** The parts of a [url.URL] that the code reads. *)
Record Url := mkUrl {
  u_Scheme : string; u_User : bool; u_Host : string; u_Hostname : string; u_Port : string; u_Rest : string }.
Definition with_scheme (s : string) (u : Url) : Url := mkUrl s (u_User u) (u_Host u) (u_Hostname u) (u_Port u) (u_Rest u).

Class NetParse := {
  ParseAddr : string -> option Addr;
  ParsePrefix : string -> option Prefix;
  ParseAddrPort : string -> option (Addr * Z);
  url_Parse : string -> option Url;
  url_String : Url -> string;
}.

Section Netx.
Context `{NetParse} `{GoUnicode}.

(** [net.ParseIP]: a zone is refused, and a version 4 address takes its
    version 6 form, which the predicates below undo. *)
Definition ParseIP (s : string) : option Addr :=
  match ParseAddr s with
  | Some (Addr6 n z) => if String.eqb z "" then Some (Unmap (Addr6 n z)) else None
  | r => r
  end.
Definition IsLoopback (a : Addr) : bool := match a with Addr4 n => n / 2 ^ 24 =? 127 | Addr6 n _ => n =? 1 end.
Definition IsPrivate (a : Addr) : bool :=
  match a with
  | Addr4 n => (n / 2 ^ 24 =? 10) || (n / 2 ^ 20 =? 172 * 16 + 1) || (n / 2 ^ 16 =? 192 * 256 + 168)
  | Addr6 n _ => n / 2 ^ 121 =? 126
  end.
Definition IsLinkLocalUnicast (a : Addr) : bool :=
  match a with Addr4 n => n / 2 ^ 16 =? 169 * 256 + 254 | Addr6 n _ => n / 2 ^ 118 =? 1018 end.

(** * Trusted proxies, [trustedproxies.go]; [None] is the nil set *)

Definition TrustedProxies := option (list Prefix).

Definition proxy_prefix (entry : string) : option Prefix :=
  if Contains entry "/" then ParsePrefix entry
  else (fun a => PrefixFrom a (BitLen a)) <$> ParseAddr entry.
Definition normalised (p : Prefix) : Prefix :=
  if Is4In6 (px_Addr p) && (96 <=? px_Bits p) then PrefixFrom (Unmap (px_Addr p)) (px_Bits p - 96) else p.
Fixpoint parse_proxies (entries : list string) : result (list Prefix) :=
  match entries with
  | [] => Ok []
  | entry :: rest =>
      let entry := TrimSpace entry in
      match proxy_prefix entry with
      | None => Err (Errorf ("invalid trusted proxy " +:+ quote entry))
      | Some p => let? ps := parse_proxies rest in Ok (Masked (normalised p) :: ps)
      end
  end.
Definition ParseTrustedProxies (entries : list string) : result TrustedProxies :=
  match entries with [] => Ok None | _ => let? ps := parse_proxies entries in Ok (Some ps) end.

Definition tp_Empty (t : TrustedProxies) : bool := match t with None | Some [] => true | _ => false end.
Definition TrustsHost (t : TrustedProxies) (host : string) : bool :=
  if tp_Empty t then false else
  let host := default host (SplitHostPort host) in
  match ParseAddr host with
  | None => false
  | Some ip => existsb (fun p => px_Contains p (Unmap ip)) (default [] t)
  end.

(** * The fetcher, [safeclient.go] *)

Definition maxRedirects : Z := 3.
Definition maxFeedBody : Z := 5 * 2 ^ 20.
Definition ErrForbiddenAddress : err := Sentinel "address not allowed".
Definition ErrForbiddenPort : err := Sentinel "port not allowed".
Definition ErrBodyTooLarge : err := Sentinel "response body too large".
Definition ErrInvalidURL : err := Sentinel "invalid URL".

Definition quad (a b c d : Z) : Addr := Addr4 (((a * 256 + b) * 256 + c) * 256 + d).
(** The eight groups of a version 6 address. *)
Definition hextets (a b c d e f g h : Z) : Addr := Addr6 (foldl (fun n x => n * 65536 + x) 0 [a; b; c; d; e; f; g; h]) "".
Definition forbiddenPrefixes : list Prefix :=
  [ mkPrefix (quad 0 0 0 0) 8; mkPrefix (quad 10 0 0 0) 8; mkPrefix (quad 100 64 0 0) 10; mkPrefix (quad 127 0 0 0) 8;
    mkPrefix (quad 169 254 0 0) 16; mkPrefix (quad 172 16 0 0) 12; mkPrefix (quad 192 0 0 0) 24; mkPrefix (quad 192 0 2 0) 24;
    mkPrefix (quad 192 168 0 0) 16; mkPrefix (quad 198 18 0 0) 15; mkPrefix (quad 198 51 100 0) 24; mkPrefix (quad 203 0 113 0) 24;
    mkPrefix (quad 224 0 0 0) 4; mkPrefix (quad 240 0 0 0) 4;
    mkPrefix (hextets 0 0 0 0 0 0 0 0) 128; mkPrefix (hextets 0 0 0 0 0 0 0 1) 128; mkPrefix (hextets 0xfc00 0 0 0 0 0 0 0) 7;
    mkPrefix (hextets 0xfe80 0 0 0 0 0 0 0) 10; mkPrefix (hextets 0xff00 0 0 0 0 0 0 0) 8; mkPrefix (hextets 0x2001 2 0 0 0 0 0 0) 48;
    mkPrefix (hextets 0x2001 0xdb8 0 0 0 0 0 0) 32; mkPrefix (hextets 0x64 0xff9b 0 0 0 0 0 0) 96; mkPrefix (hextets 0x2002 0 0 0 0 0 0 0) 16 ].
(** The zero [netip.Addr], which is not valid, does not come out of parsing. *)
Definition IsForbiddenAddr (addr : Addr) : bool :=
  let addr := Unmap addr in
  if IsUnspecified addr then true else existsb (fun p => px_Contains p addr) forbiddenPrefixes.

(** [extraPorts] is set by tests of the package only. *)
Record Client := mkClient { cl_AllowPrivateNetworks : bool; cl_maxBody : Z; cl_extraPorts : list string }.
Definition NewClient (allowPrivate : bool) : Client := mkClient allowPrivate maxFeedBody [].
Definition fixedPort (port : string) : bool := String.eqb port "80" || String.eqb port "443" || String.eqb port "8443".
Definition portAllowed (c : Client) (port : string) : bool := fixedPort port || bool_decide (port ∈ cl_extraPorts c).

(** The [ControlContext] hook, run before every connection. *)
Definition dialControl (c : Client) (address : string) : result unit :=
  match ParseAddrPort address with
  | None => Err (Wrap "unparsable dial address" ErrForbiddenAddress)
  | Some (a, port) =>
      if negb (portAllowed c (FormatInt port)) then Err ErrForbiddenPort else
      if negb (cl_AllowPrivateNetworks c) && IsForbiddenAddr a then Err ErrForbiddenAddress else Ok tt
  end.

Definition invalidURL {A} (why : string) : result A := Err (Wrap why ErrInvalidURL).
Definition validateURL (raw : string) (extraPorts : list string) : result Url :=
  if String.eqb raw "" || existsb IsControl (runes raw) then invalidURL "empty or contains control characters" else
  match url_Parse raw with
  | None => invalidURL "unparsable"
  | Some u =>
      let scheme := ToLower (u_Scheme u) in
      let? u := if String.eqb scheme "https" || String.eqb scheme "http" then Ok (with_scheme scheme u)
                else if String.eqb scheme "webcal" || String.eqb scheme "webcals" then Ok (with_scheme "https" u)
                else invalidURL "scheme must be https, http or webcal" in
      if u_User u then invalidURL "user information is not allowed" else
      if String.eqb (u_Hostname u) "" then invalidURL "no host" else
      if negb (String.eqb (u_Port u) "") && negb (fixedPort (u_Port u)) && negb (bool_decide (u_Port u ∈ extraPorts))
      then invalidURL "port must be 80, 443 or 8443" else Ok u
  end.
Definition ValidateURL (raw : string) : result Url := validateURL raw [].

Definition checkRedirect (c : Client) (target : Url) (via : Z) : result unit :=
  if maxRedirects <? via then Err (Errorf "stopped after 3 redirects") else
  let? _ := wrapf "redirect refused" (validateURL (url_String target) (cl_extraPorts c)) in Ok tt.

Record Validators := mkValidators { va_ETag : string; va_LastModified : string }.
Record FetchResult := mkFetchResult { fr_NotModified : bool; fr_Body : option string; fr_Validators : Validators }.
(** An answer: its body is what the network yields, or a read error.  An error
    may be a [*url.Error] around another one. *)
Inductive net_error := PlainError (e : err) | UrlError (url : string) (e : err).
Definition inner_error (e : net_error) : err := match e with PlainError e | UrlError _ e => e end.
Record HttpAnswer := mkAnswer {
  ha_Status : Z; ha_ContentLength : Z; ha_Validators : Validators; ha_Body : string + net_error }.

Definition Fetch (Do : Url -> Validators -> HttpAnswer + net_error) (c : Client) (rawURL : string) (v : Validators) : result FetchResult :=
  let? u := validateURL rawURL (cl_extraPorts c) in
  let host := u_Hostname u in
  match Do u v with
  | inr e => Err (Wrap ("fetching " +:+ host) (inner_error e))
  | inl resp =>
      if ha_Status resp =? 304 then Ok (mkFetchResult true None (ha_Validators resp)) else
      if negb (ha_Status resp =? 200) then Err (Errorf ("fetching " +:+ host +:+ ": status " +:+ FormatInt (ha_Status resp))) else
      if cl_maxBody c <? ha_ContentLength resp then Err (Wrap ("fetching " +:+ host) ErrBodyTooLarge) else
      match ha_Body resp with
      | inr e => Err (Wrap ("reading " +:+ host) (inner_error e))
      | inl all =>
          let body := str_take (Z.to_nat (cl_maxBody c + 1)) all in
          if cl_maxBody c <? len body then Err (Wrap ("fetching " +:+ host) ErrBodyTooLarge)
          else Ok (mkFetchResult false (Some body) (ha_Validators resp))
      end
  end.

Definition HostOf (rawURL : string) : string := match url_Parse rawURL with Some u => u_Hostname u | None => "" end.
End Netx.

(** * Prefixes as ranges *)

Lemma shared_high_bits n m k : 0 <= k -> (Z.shiftr (Z.lxor n m) k =? 0) = (n / 2 ^ k =? m / 2 ^ k).
Proof.
  intros Hk. rewrite Z.shiftr_lxor, !Z.shiftr_div_pow2 by done. apply eq_true_iff_eq.
  by rewrite !Z.eqb_eq, Z.lxor_eq_0_iff.
Qed.
Lemma same_block n m k : 0 <= k -> n / 2 ^ k = m / 2 ^ k <-> masked_num k 0 m <= n <= masked_num k 0 m + (2 ^ k - 1).
Proof.
  intros Hk. unfold masked_num. rewrite Z.sub_0_r. assert (0 < 2 ^ k) by (apply Z.pow_pos_nonneg; lia). split.
  - intros <-. pose proof (Z.div_mod n (2 ^ k)). pose proof (Z.mod_pos_bound n (2 ^ k)). lia.
  - intros Hn. symmetry. apply Z.div_unique with (n - m / 2 ^ k * 2 ^ k); lia.
Qed.
Definition bits_ok (p : Prefix) : Prop := 0 <= px_Bits p <= BitLen (px_Addr p).
(** What a prefix covers: the addresses of its version, without a zone, from
    its first to its last. *)
Definition covers (p : Prefix) (a : Addr) : Prop :=
  BitLen a = BitLen (px_Addr p) /\ withoutZone a = a /\
  let k := BitLen a - px_Bits p in
  masked_num k 0 (addr_num (px_Addr p)) <= addr_num a <= masked_num k 0 (addr_num (px_Addr p)) + (2 ^ k - 1).

Lemma px_Contains_covers p a : bits_ok p -> px_Contains p a = true <-> covers p a.
Proof.
  unfold bits_ok, px_Contains, covers. destruct (px_Addr p) as [m|m mz], a as [n|n z]; cbn [BitLen withoutZone addr_num]; intros Hb.
  - rewrite shared_high_bits, Z.eqb_eq, same_block by lia. naive_solver.
  - naive_solver.
  - naive_solver.
  - rewrite andb_true_iff, shared_high_bits, Z.eqb_eq, same_block by lia. destruct (String.eqb_spec z ""); naive_solver.
Qed.
Lemma Masked_Contains p a : bits_ok p -> px_Contains (Masked p) a = px_Contains p a.
Proof.
  unfold bits_ok, px_Contains, Masked, masked_num. destruct p as [[m|m mz] bits], a as [n|n z]; cbn; intros Hb; try done;
    rewrite !shared_high_bits by lia; (rewrite Z.div_mul; [done|apply Z.pow_nonzero; lia]).
Qed.

(** * Addresses a subscription may not reach *)

Definition between (lo hi a : Addr) : Prop := BitLen a = BitLen lo /\ addr_num lo <= addr_num a <= addr_num hi.
(** The ranges of the file's comments, as first and last address. *)
Definition internal_ranges : list (Addr * Addr) :=
  [ (quad 0 0 0 0, quad 0 255 255 255); (quad 10 0 0 0, quad 10 255 255 255); (quad 100 64 0 0, quad 100 127 255 255);
    (quad 127 0 0 0, quad 127 255 255 255); (quad 169 254 0 0, quad 169 254 255 255); (quad 172 16 0 0, quad 172 31 255 255);
    (quad 192 0 0 0, quad 192 0 0 255); (quad 192 0 2 0, quad 192 0 2 255); (quad 192 168 0 0, quad 192 168 255 255);
    (quad 198 18 0 0, quad 198 19 255 255); (quad 198 51 100 0, quad 198 51 100 255); (quad 203 0 113 0, quad 203 0 113 255);
    (quad 224 0 0 0, quad 239 255 255 255); (quad 240 0 0 0, quad 255 255 255 255);
    (hextets 0 0 0 0 0 0 0 0, hextets 0 0 0 0 0 0 0 0); (hextets 0 0 0 0 0 0 0 1, hextets 0 0 0 0 0 0 0 1);
    (hextets 0xfc00 0 0 0 0 0 0 0, hextets 0xfdff 0xffff 0xffff 0xffff 0xffff 0xffff 0xffff 0xffff);
    (hextets 0xfe80 0 0 0 0 0 0 0, hextets 0xfebf 0xffff 0xffff 0xffff 0xffff 0xffff 0xffff 0xffff);
    (hextets 0xff00 0 0 0 0 0 0 0, hextets 0xffff 0xffff 0xffff 0xffff 0xffff 0xffff 0xffff 0xffff);
    (hextets 0x2001 2 0 0 0 0 0 0, hextets 0x2001 2 0 0xffff 0xffff 0xffff 0xffff 0xffff);
    (hextets 0x2001 0xdb8 0 0 0 0 0 0, hextets 0x2001 0xdb8 0xffff 0xffff 0xffff 0xffff 0xffff 0xffff);
    (hextets 0x64 0xff9b 0 0 0 0 0 0, hextets 0x64 0xff9b 0 0 0 0 0xffff 0xffff);
    (hextets 0x2002 0 0 0 0 0 0 0, hextets 0x2002 0xffff 0xffff 0xffff 0xffff 0xffff 0xffff 0xffff) ].
Definition internal (a : Addr) : Prop := Exists (fun r => between r.1 r.2 a) internal_ranges.

Lemma forbidden_bits : Forall bits_ok forbiddenPrefixes.
Proof. repeat constructor; by vm_compute. Qed.
Lemma Unmap_zone a : withoutZone a = a -> withoutZone (Unmap a) = Unmap a.
Proof. unfold Unmap. destruct a; [done|]. case_match; done. Qed.
(** First and last address of a prefix. *)
Definition range_of (p : Prefix) : Addr * Addr :=
  let k := BitLen (px_Addr p) - px_Bits p in
  let m := masked_num k 0 (addr_num (px_Addr p)) in
  let at_ n := match px_Addr p with Addr4 _ => Addr4 n | Addr6 _ _ => Addr6 n "" end in (at_ m, at_ (m + (2 ^ k - 1))).
Lemma covers_range p a : withoutZone a = a -> covers p a <-> between (range_of p).1 (range_of p).2 a.
Proof. intros Hz. unfold covers, between, range_of. destruct (px_Addr p), a; cbn -[Z.pow]; naive_solver. Qed.
Lemma forbidden_ranges : range_of <$> forbiddenPrefixes = internal_ranges.
Proof. vm_compute. reflexivity. Qed.
Lemma forbidden_prefix_spec a :
  withoutZone a = a -> existsb (fun p => px_Contains p a) forbiddenPrefixes = true <-> internal a.
Proof.
  intros Hz. rewrite existsb_exists. unfold internal. rewrite <- forbidden_ranges, Exists_fmap, Exists_exists.
  pose proof forbidden_bits as Hb. rewrite Forall_forall in Hb. setoid_rewrite <- list_elem_of_In.
  split; intros (p&Hp&Hc); exists p; (split; [done|]); cbn in *.
  - apply covers_range, px_Contains_covers; auto.
  - apply px_Contains_covers; [auto|]. by apply covers_range.
Qed.

(** C35: a connection is refused exactly when the address, read as version 4 if
    it is an IPv4-mapped one, is in one of the ranges that the file lists
    (loopback, private, link-local, multicast, ...), and the dialer lets
    through only ports 80, 443 and 8443 on the others, for every address
    without a zone. *)
Theorem dialed_addresses_are_public `{NetParse} c address a port :
  ParseAddrPort address = Some (a, port) -> withoutZone a = a -> cl_AllowPrivateNetworks c = false -> cl_extraPorts c = [] ->
  dialControl c address = Ok tt <-> (FormatInt port = "80" \/ FormatInt port = "443" \/ FormatInt port = "8443") /\ ~ internal (Unmap a).
Proof.
  intros Hp Hz Hc He. unfold dialControl, portAllowed, fixedPort, IsForbiddenAddr. rewrite Hp, Hc, He.
  assert (Hu : (if IsUnspecified (Unmap a) then true else existsb (fun p => px_Contains p (Unmap a)) forbiddenPrefixes) = true <-> internal (Unmap a)).
  { rewrite <- forbidden_prefix_spec by by apply Unmap_zone. destruct (IsUnspecified (Unmap a)) eqn:E; [|done]. split; [intros _|done].
    destruct (Unmap a) as [n|n z]; cbn in E; [apply Z.eqb_eq in E as ->|apply andb_true_iff in E as [->%Z.eqb_eq ->%String.eqb_eq]]; by vm_compute. }
  destruct (String.eqb_spec (FormatInt port) "80"), (String.eqb_spec (FormatInt port) "443"), (String.eqb_spec (FormatInt port) "8443");
    rewrite (bool_decide_eq_false_2 (_ ∈ [])) by apply not_elem_of_nil; cbn [negb orb andb]; rewrite <- Hu;
    destruct (if IsUnspecified _ then _ else _); naive_solver.
Qed.

(** A prefix does not contain an address with a zone, so [http://[::1%25lo]/]
    and every other zoned internal address passes the check that refuses it
    without the zone. *)
Theorem zoned_addresses_are_dialed `{NetParse} c address n zone :
  ParseAddrPort address = Some (Addr6 n zone, 80) -> zone <> "" -> Is4In6 (Addr6 n zone) = false -> dialControl c address = Ok tt.
Proof.
  intros Hp Hz H4. unfold dialControl. rewrite Hp. change (portAllowed c (FormatInt 80)) with true. cbn [negb].
  unfold IsForbiddenAddr, Unmap. rewrite H4. cbn [IsUnspecified]. destruct (String.eqb_spec zone ""); [done|]. rewrite andb_false_r.
  assert (existsb (fun p => px_Contains p (Addr6 n zone)) forbiddenPrefixes = false) as ->; [|by rewrite andb_false_r].
  apply not_true_is_false. rewrite existsb_exists. intros (p&_&Hc). unfold px_Contains in Hc. destruct (px_Addr p); [done|].
  destruct (String.eqb_spec zone ""); done.
Qed.

(** * The fetcher *)

Section FetchThm.
Context `{NetParse} `{GoUnicode}.

(** What a URL must be to be fetched. *)
Lemma validateURL_Ok raw extra u :
  validateURL raw extra = Ok u ->
  (u_Scheme u = "https" \/ u_Scheme u = "http") /\ u_User u = false /\ u_Hostname u <> "" /\
  (u_Port u = "" \/ fixedPort (u_Port u) = true \/ u_Port u ∈ extra).
Proof.
  unfold validateURL. destruct (_ || existsb _ _); [done|]. destruct (url_Parse raw) as [v|]; [|done].
  intros (w&Hw&Hu)%result_bind_Ok.
  assert (Hs : (u_Scheme w = "https" \/ u_Scheme w = "http") /\ u_User w = u_User v).
  { destruct (String.eqb_spec (ToLower (u_Scheme v)) "https") as [E|_]; cbn [orb] in Hw; [injection Hw as <-; cbn; auto|].
    destruct (String.eqb_spec (ToLower (u_Scheme v)) "http") as [E|_]; cbn [orb] in Hw; [injection Hw as <-; cbn; auto|].
    destruct (_ || _); [injection Hw as <-; cbn; auto|done]. }
  destruct (u_User w) eqn:Hus; [done|]. destruct (String.eqb_spec (u_Hostname w) ""); [done|].
  destruct (String.eqb_spec (u_Port w) "") as [Hp|Hp]; cbn [negb andb] in Hu; [injection Hu as <-; naive_solver|].
  destruct (fixedPort (u_Port w)) eqn:Hf; cbn [negb andb] in Hu; [injection Hu as <-; naive_solver|].
  destruct (bool_decide (u_Port w ∈ extra)) eqn:Hb; cbn [negb] in Hu; [|done]. apply bool_decide_eq_true in Hb. injection Hu as <-. naive_solver.
Qed.

(** A feed is returned whole or not at all, and only from an http or https URL
    without user information. *)
Theorem fetched_feed_is_whole Do c raw v res b :
  Fetch Do c raw v = Ok res -> fr_Body res = Some b ->
  len b <= cl_maxBody c /\
  exists u resp, validateURL raw (cl_extraPorts c) = Ok u /\ Do u v = inl resp /\ ha_Status resp = 200 /\ ha_Body resp = inl b.
Proof.
  unfold Fetch. intros (u&Hu&Hf)%result_bind_Ok Hb. destruct (Do u v) as [resp|] eqn:Hd; [|done].
  destruct (ha_Status resp =? 304); [by injection Hf as <-|]. destruct (Z.eqb_spec (ha_Status resp) 200) as [H200|]; [|done].
  cbn [negb] in Hf. destruct (cl_maxBody c <? ha_ContentLength resp); [done|]. destruct (ha_Body resp) as [all|] eqn:Ha; [|done].
  destruct (Z.ltb_spec (cl_maxBody c) (len (str_take (Z.to_nat (cl_maxBody c + 1)) all))) as [|Hl]; [done|]. injection Hf as <-.
  cbn in Hb. injection Hb as <-. split; [lia|]. exists u, resp. split_and!; try done. rewrite Ha. f_equal.
  unfold len in Hl. rewrite str_take_length in Hl. symmetry. apply str_take_all.
  pose proof (Zle_0_nat (String.length all)). lia.
Qed.

(** * Trusted proxies *)

(** The entries are one range each; a host is trusted when its address is in
    one of them, an IPv4-mapped address counting as its version 4 one. *)
Lemma parse_proxies_spec entries ps :
  parse_proxies entries = Ok ps ->
  exists rs, mapM (fun e => proxy_prefix (TrimSpace e)) entries = Some rs /\ ps = (fun p => Masked (normalised p)) <$> rs.
Proof.
  revert ps. induction entries as [|e entries IH]; intros ps; cbn [parse_proxies]; [intros [= <-]; by exists []|].
  destruct (proxy_prefix (TrimSpace e)) as [p|] eqn:Hp; [|done]. intros (ps'&Hps&[= <-])%result_bind_Ok.
  destruct (IH _ Hps) as (rs&Hrs&->). exists (p :: rs). cbn. by rewrite Hp, Hrs.
Qed.
Theorem trusted_hosts_exact entries t host a :
  ParseTrustedProxies entries = Ok t -> ParseAddr (default host (SplitHostPort host)) = Some a ->
  (forall e p, e ∈ entries -> proxy_prefix (TrimSpace e) = Some p -> bits_ok (normalised p)) ->
  TrustsHost t host = true <-> exists e p, e ∈ entries /\ proxy_prefix (TrimSpace e) = Some p /\ covers (normalised p) (Unmap a).
Proof.
  intros Ht Ha Hb.
  assert (Hx : exists rs, mapM (fun e => proxy_prefix (TrimSpace e)) entries = Some rs /\ default [] t = (fun p => Masked (normalised p)) <$> rs).
  { unfold ParseTrustedProxies in Ht. destruct entries; [injection Ht as <-; by exists []|].
    apply result_bind_Ok in Ht as (ps&Hps&[= <-]). by apply parse_proxies_spec in Hps. }
  destruct Hx as (rs&Hrs&Hd). unfold TrustsHost. rewrite Ha.
  assert ((if tp_Empty t then false else existsb (fun p => px_Contains p (Unmap a)) (default [] t)) =
    existsb (fun p => px_Contains p (Unmap a)) (default [] t)) as -> by (by destruct t as [[|]|]).
  rewrite Hd, existsb_exists. clear Ht Hd. revert Hb. apply mapM_Some in Hrs. induction Hrs as [|e p entries rs He _ IH]; intros Hb.
  { split; [naive_solver|]. intros (?&?&?%not_elem_of_nil&_). done. }
  destruct IH as [IH1 IH2]; [intros; eapply Hb; [by right|done]|]. split.
  - intros (q&[<-|Hq]&Hc).
    + rewrite Masked_Contains in Hc by (eapply Hb; [by left|done]). apply px_Contains_covers in Hc; [|eapply Hb; [by left|done]].
      exists e, p. split_and!; [by left|done..].
    + destruct IH1 as (e'&p'&?&?); [by exists q|]. exists e', p'. split; [by right|done].
  - intros (e'&p'&Hin&Hp&Hc). apply elem_of_cons in Hin as [->|Hin].
    + rewrite He in Hp. injection Hp as ->. exists (Masked (normalised p')). split; [by left|].
      rewrite Masked_Contains by (eapply Hb; [by left|done]). apply px_Contains_covers; [eapply Hb; [by left|done]|done].
    + destruct IH2 as (q&Hq&?); [by exists e', p'|]. exists q. split; [by right|done].
Qed.
End FetchThm.

(** * Evaluation *)

Section Demo.
(** A few addresses and one URL. *)
#[local] Instance demo_net : NetParse := {|
  ParseAddr s := if String.eqb s "10.0.0.9" then Some (quad 10 0 0 9)
                 else if String.eqb s "::ffff:10.0.0.9" then Some (Addr6 (65535 * 2 ^ 32 + (10 * 2 ^ 24 + 9)) "") else None;
  ParsePrefix s := if String.eqb s "10.0.0.0/8" then Some (mkPrefix (quad 10 0 0 0) 8) else None;
  ParseAddrPort s := if String.eqb s "93.184.216.34:443" then Some (quad 93 184 216 34, 443)
                     else if String.eqb s "[::1]:80" then Some (hextets 0 0 0 0 0 0 0 1, 80)
                     else if String.eqb s "[::1%lo]:80" then Some (Addr6 1 "lo", 80) else None;
  url_Parse s := if String.eqb s "webcal://h/c.ics" then Some (mkUrl "webcal" false "h" "h" "" "/c.ics") else None;
  url_String u := u_Scheme u +:+ "://" +:+ u_Host u +:+ u_Rest u |}.
#[local] Existing Instance bytewise_unicode.

Lemma dialed_addresses_are_public_witness :
  dialControl (NewClient false) "93.184.216.34:443" = Ok tt /\ ~ internal (quad 93 184 216 34).
Proof.
  assert (Hr : dialControl (NewClient false) "93.184.216.34:443" = Ok tt) by (vm_compute; reflexivity). split; [exact Hr|].
  refine (proj2 (proj1 (dialed_addresses_are_public (NewClient false) "93.184.216.34:443" (quad 93 184 216 34) 443 _ _ _ _) Hr));
    vm_compute; reflexivity.
Defined.
Lemma zoned_addresses_are_dialed_witness :
  dialControl (NewClient false) "[::1]:80" = Err ErrForbiddenAddress /\ dialControl (NewClient false) "[::1%lo]:80" = Ok tt.
Proof.
  split; [vm_compute; reflexivity|].
  apply (zoned_addresses_are_dialed (NewClient false) "[::1%lo]:80" 1 "lo"); [reflexivity|discriminate|reflexivity].
Defined.
(** A mapped peer is trusted through a version 4 entry; a feed comes whole. *)
Example netx_runs :
  match ParseTrustedProxies [" 10.0.0.0/8 "] with Ok t => TrustsHost t "[::ffff:10.0.0.9]:4711" | Err _ => false end = true /\
  Fetch (fun u v => inl (mkAnswer 200 (-1) v (inl "BEGIN"))) (NewClient false) "webcal://h/c.ics" (mkValidators "" "")
    = Ok (mkFetchResult false (Some "BEGIN") (mkValidators "" "")).
Proof. split; vm_compute; reflexivity. Qed.
End Demo.
