(* ===== verification/Web.v ===== *)
(** Web sign-in and the guards in front of the web routes:
    [internal/web/middleware], [internal/security/derive.go] and
    [internal_http_auth.go], the handlers of [internal/web/handlers/auth.go],
    [security.go] and [reauth.go], and [sessionStateFromProfile] and the route
    groups of [internal/agent/agent.go].

    A guard (a Go middleware) maps a request and its context either to the
    context for the next handler or to a response.  A handler maps the state of
    the node to its new state and a response; the per-user lock makes each of
    them one step.  Every handler reads the clock once.  Parsing of forms and
    multipart bodies is the class [WebForms]; JSON and protobuf are codecs;
    HMAC, SHA-256, bcrypt and one-time passwords are parameters.  [InjectLocale]
    and rendering refuse nothing and are left out of the chains. *)

From S2P Require Import Prelude GoStrings Utf8 Pebble Proto UserData Acl Directory Credentials Accounts Srs RateLimit Preferences Domains Mailbox MailboxStore Relay Netx.
From Stdlib Require Import Ascii.

(** * Base 64 for URLs without padding, [encoding/base64] *)

Module B64.

Definition alphabet : string := "ABCDEFGHIJKLMNOPQRSTUVWXYZabcdefghijklmnopqrstuvwxyz0123456789-_".
Fixpoint chars (v : Z) (shift : Z) (n : nat) : string :=
  match n with
  | O => ""
  | S n' => String (char_at alphabet (Z.land (Z.shiftr v shift) 63)) (chars v (shift - 6) n')
  end.
Definition group3 (a b c : Z) : Z := Z.lor (Z.lor (Z.shiftl a 16) (Z.shiftl b 8)) c.
Fixpoint EncodeToString (s : string) : string :=
  match s with
  | String a (String b (String c s')) => chars (group3 (byte_of a) (byte_of b) (byte_of c)) 18 4 +:+ EncodeToString s'
  | String a (String b "") => chars (group3 (byte_of a) (byte_of b) 0) 18 3
  | String a "" => chars (group3 (byte_of a) 0 0) 18 2
  | "" => ""
  end.

Definition value (c : ascii) : option Z :=
  let n := byte_of c in
  if is_upper c then Some (n - 65) else if is_lower c then Some (n - 71) else if is_digit c then Some (n + 4)
  else if Ascii.eqb c "-" then Some 62 else if Ascii.eqb c "_" then Some 63 else None.
Definition group4 (a b c d : Z) : Z := Z.lor (Z.lor (Z.lor (Z.shiftl a 18) (Z.shiftl b 12)) (Z.shiftl c 6)) d.
(** The first [n] bytes of a group. *)
Definition bytes_of_group (v : Z) (n : nat) : string :=
  str_take n (String (char_of (Z.land (Z.shiftr v 16) 255)) (String (char_of (Z.land (Z.shiftr v 8) 255)) (String (char_of (Z.land v 255)) ""))).
(** Line breaks are skipped, and the unused bits of a last short group are not
    looked at (the encoding is not [Strict]). *)
Fixpoint unwrapped (s : string) : string :=
  match s with
  | "" => ""
  | String c s' => if (byte_of c =? 10) || (byte_of c =? 13) then unwrapped s' else String c (unwrapped s')
  end.
Fixpoint decode (s : string) : option string :=
  match s with
  | "" => Some ""
  | String _ "" => None
  | String a (String b "") =>
      match value a, value b with Some x, Some y => Some (bytes_of_group (group4 x y 0 0) 1) | _, _ => None end
  | String a (String b (String c "")) =>
      match value a, value b, value c with Some x, Some y, Some z => Some (bytes_of_group (group4 x y z 0) 2) | _, _, _ => None end
  | String a (String b (String c (String d s'))) =>
      match value a, value b, value c, value d, decode s' with
      | Some x, Some y, Some z, Some w, Some rest => Some (bytes_of_group (group4 x y z w) 3 +:+ rest)
      | _, _, _, _, _ => None
      end
  end.
Definition DecodeString (s : string) : result string := of_option (Errorf "illegal base64 data") (decode (unwrapped s)).

End B64.

(** * Requests and responses, [net/http] *)

(** [rq_Header] and [rq_Cookie] are [Header.Get] and the first cookie of a
    name.  A body is what reading it yields. *)
Record Request := mkRequest {
  rq_Method : string; rq_Path : string; rq_RequestURI : string; rq_Host : string; rq_RemoteAddr : string; rq_TLS : bool;
  rq_Header : string -> string; rq_Cookie : string -> option string; rq_Query : string -> string;
  rq_ContentLength : Z; rq_Body : option (result string) }.
Definition with_body (r : Request) (b : option (result string)) : Request :=
  mkRequest (rq_Method r) (rq_Path r) (rq_RequestURI r) (rq_Host r) (rq_RemoteAddr r) (rq_TLS r) (rq_Header r) (rq_Cookie r) (rq_Query r)
    (rq_ContentLength r) b.

Record Cookie := mkCookie {
  ck_Name : string; ck_Value : string; ck_Path : string; ck_HttpOnly : bool; ck_Secure : bool; ck_SameSite : string; ck_MaxAge : Z }.
Definition lax_cookie (name value : string) (secure : bool) (maxAge : Z) : Cookie := mkCookie name value "/" true secure "Lax" maxAge.

Inductive Page : Type :=
| Empty
| Text (msg : string)
| LoginForm (msg : string)
| TwoFactorForm (msg warning : string)
| TOTPSetupPage (qr key msg : string)
| RecoveryCodesPage (codes : list string) (next : string)
| Content (user : string).
Record Response := mkResponse { rs_Code : Z; rs_Header : list (string * string); rs_Cookies : list Cookie; rs_Page : Page }.
Definition http_Error (msg : string) (code : Z) : Response := mkResponse code [] [] (Text msg).
Definition http_Redirect (target : string) : Response := mkResponse 303 [("Location", target)] [] Empty.
Definition page (p : Page) : Response := mkResponse 200 [] [] p.
(** Set-Cookie headers come before what the handler writes next. *)
Definition set_cookies (cs : list Cookie) (rs : Response) : Response :=
  mkResponse (rs_Code rs) (rs_Header rs) (cs ++ rs_Cookies rs) (rs_Page rs).
Definition set_header (k v : string) (rs : Response) : Response :=
  mkResponse (rs_Code rs) ((k, v) :: rs_Header rs) (rs_Cookies rs) (rs_Page rs).

Class WebForms := {
  FormValue : Request -> string -> string;
  PostFormValue : Request -> string -> string;
  ParseMediaType : string -> option (string * (string -> string));
  (** First part of a multipart body with a boundary: form name, file name,
      content or the error of reading it. *)
  NextPart : string -> string -> option (string * string * result string);
}.

(** * Signed values, [derive.go] and [auth.go] of the middleware *)

Definition ErrNoCookie : err := Sentinel "http: named cookie not present".
Definition cookieName : string := "bongo_session".
Definition pendingCookieName : string := "bongo_2fa_pending".
Definition pendingCookieTTL : Z := 5 * Minute.
Definition sessionCookiePurpose : string := "bongo/session-cookie/v1".
Definition pendingCookiePurpose : string := "bongo/2fa-pending-cookie/v1".
Definition TOTPSetupCookiePurpose : string := "bongo/totp-setup-cookie/v1".

Record PendingData := mkPending { pd_UserID : string; pd_Email : string; pd_Remember : bool; pd_IsAdmin : bool; pd_Exp : Z; pd_Epoch : string }.
Record SessionData := mkSession { sd_UserID : string; sd_Email : string; sd_Exp : Z; sd_IsAdmin : bool; sd_Epoch : string }.
Record totpPendingPayload := mkTotpPending { tp_Secret : string; tp_Exp : Z }.

Section Signed.
Context `{Hmac}.

Definition DeriveKey (secret purpose : string) : string := hmac_sha256 secret purpose.
Definition sign (secret purpose payload : string) : string := hmac_sha256 (DeriveKey secret purpose) payload.
Definition SignValue (secret purpose payload : string) : string :=
  B64.EncodeToString payload +:+ "." +:+ B64.EncodeToString (sign secret purpose payload).
Definition VerifyValue (secret purpose value : string) : result string :=
  match CutLast value "." with
  | None => Err ErrNoCookie
  | Some (payloadB64, sigB64) =>
      if String.eqb payloadB64 "" || String.eqb sigB64 "" then Err ErrNoCookie else
      let? payload := B64.DecodeString payloadB64 in
      let? sig := B64.DecodeString sigB64 in
      if String.eqb sig (sign secret purpose payload) then Ok payload else Err ErrNoCookie
  end.
End Signed.

(** [payload, _ := json.Marshal(data)]. *)
Definition json_payload {A} `{Codec A} (a : A) : string := match marshal a with Ok b => b | Err _ => "" end.

Section Cookies.
Context `{Hmac} `{Codec SessionData} `{Codec PendingData}.

Definition CreateSessionCookie (now : Z) (secret userID email : string) (remember isAdmin secure : bool) (epoch : string) : Cookie :=
  let expiry := if remember then 30 * 24 * Hour else 24 * Hour in
  let data := mkSession userID email (unix_of (now + expiry)) isAdmin epoch in
  lax_cookie cookieName (SignValue secret sessionCookiePurpose (json_payload data)) secure (unix_of expiry).
Definition ReissueSessionCookie (now : Z) (secret : string) (data : SessionData) (secure : bool) (epoch : string) : Cookie :=
  let data := mkSession (sd_UserID data) (sd_Email data) (sd_Exp data) (sd_IsAdmin data) epoch in
  lax_cookie cookieName (SignValue secret sessionCookiePurpose (json_payload data)) secure (Z.max 1 (sd_Exp data - unix_of now)).
Definition ClearSessionCookie : Cookie := lax_cookie cookieName "" false (-1).
Definition CreatePendingCookie (now : Z) (secret userID email : string) (remember isAdmin secure : bool) (epoch : string) : Cookie :=
  let data := mkPending userID email remember isAdmin (unix_of (now + pendingCookieTTL)) epoch in
  lax_cookie pendingCookieName (SignValue secret pendingCookiePurpose (json_payload data)) secure (unix_of pendingCookieTTL).
Definition ClearPendingCookie : Cookie := lax_cookie pendingCookieName "" false (-1).

Definition validateCookie (secret value : string) : result SessionData :=
  let? payload := VerifyValue secret sessionCookiePurpose value in unmarshal payload.
Definition ParseSessionCookie (now : Z) (secret : string) (r : Request) : result SessionData :=
  match rq_Cookie r cookieName with
  | None => Err ErrNoCookie
  | Some value =>
      let? data := validateCookie secret value in
      if String.eqb (sd_UserID data) "" || (sd_Exp data <? unix_of now) then Err ErrNoCookie else Ok data
  end.
Definition ValidatePendingCookie (now : Z) (secret : string) (r : Request) : result PendingData :=
  match rq_Cookie r pendingCookieName with
  | None => Err ErrNoCookie
  | Some value =>
      let? payload := VerifyValue secret pendingCookiePurpose value in
      let? data := unmarshal payload in
      if pd_Exp data <? unix_of now then Err ErrNoCookie else Ok data
  end.
End Cookies.

(** * Guards *)

(** The values a request's context carries. *)
Record AdminScope := mkScope { sc_Global : bool; sc_Domains : gset string }.
Record Ctx := mkCtx {
  cx_userID : string; cx_email : string; cx_isAdmin : bool; cx_stateUnavailable : bool; cx_require2FA : bool;
  cx_scope : AdminScope; cx_csrf : string }.
Definition noCtx : Ctx := mkCtx "" "" false false false (mkScope false ∅) "".
Definition with_require2FA (cx : Ctx) : Ctx :=
  mkCtx (cx_userID cx) (cx_email cx) (cx_isAdmin cx) (cx_stateUnavailable cx) true (cx_scope cx) (cx_csrf cx).
Definition with_scope (cx : Ctx) (sc : AdminScope) : Ctx :=
  mkCtx (cx_userID cx) (cx_email cx) (cx_isAdmin cx) (cx_stateUnavailable cx) (cx_require2FA cx) sc (cx_csrf cx).
Definition with_csrf (cx : Ctx) (t : string) : Ctx :=
  mkCtx (cx_userID cx) (cx_email cx) (cx_isAdmin cx) (cx_stateUnavailable cx) (cx_require2FA cx) (cx_scope cx) t.

Inductive verdict := Next (cx : Ctx) | Respond (rs : Response).
Definition Guard := Request -> Ctx -> verdict.
(** [r.Use] in order. *)
Fixpoint chain (gs : list Guard) (r : Request) (cx : Ctx) : verdict :=
  match gs with
  | [] => Next cx
  | g :: gs' => match g r cx with Next cx' => chain gs' r cx' | Respond rs => Respond rs end
  end.

Record LiveSessionState := mkLive { ls_Found : bool; ls_Missing : bool; ls_Disabled : bool; ls_IsAdmin : bool; ls_Epoch : string }.
Definition redirectToLogin (r : Request) : Response :=
  if String.eqb (rq_Header r "HX-Request") "true" then mkResponse 200 [("HX-Redirect", "/login")] [] Empty else http_Redirect "/login".
Definition mutating (method : string) : bool :=
  String.eqb method "POST" || String.eqb method "PUT" || String.eqb method "PATCH" || String.eqb method "DELETE".

Section Guards.
Context `{Hmac} `{GoUnicode} `{NetParse} `{WebForms} `{Codec SessionData}.

Definition RequireAuth (now : Z) (secret : string) (stateFn : option (string -> LiveSessionState)) : Guard := fun r _ =>
  let login := Respond (redirectToLogin r) in
  let revoke := Respond (set_cookies [ClearSessionCookie] (redirectToLogin r)) in
  match rq_Cookie r cookieName with
  | None => login
  | Some value =>
      match validateCookie secret value with
      | Err _ => login
      | Ok data =>
          if String.eqb (sd_UserID data) "" || (sd_Exp data <? unix_of now) then login else
          let let_in isAdmin unavailable := Next (mkCtx (sd_UserID data) (sd_Email data) isAdmin unavailable false (mkScope false ∅) "") in
          match stateFn with
          | None => let_in (sd_IsAdmin data) false
          | Some f =>
              let st := f (sd_UserID data) in
              if ls_Missing st then revoke else
              if ls_Found st then
                if ls_Disabled st || (negb (String.eqb (sd_Epoch data) "") && negb (String.eqb (ls_Epoch st) "") &&
                                      negb (String.eqb (sd_Epoch data) (ls_Epoch st))) then revoke
                else let_in (ls_IsAdmin st) false
              else let_in false true
          end
      end
  end.

Definition RequireAdmin : Guard := fun _ cx =>
  if cx_stateUnavailable cx then Respond (http_Error "account state unavailable" 503) else
  if cx_isAdmin cx then Next cx else Respond (http_Error "Forbidden" 403).

Definition HasDomain (s : AdminScope) (d : string) : bool := sc_Global s || bool_decide (ToLower d ∈ sc_Domains s).
Definition RequireAdminOrDomainAdmin (authorizedFn : option (string -> bool -> result (list string))) : Guard := fun _ cx =>
  if cx_stateUnavailable cx then Respond (http_Error "account state unavailable" 503) else
  if cx_isAdmin cx then Next (with_scope cx (mkScope true ∅)) else
  match authorizedFn with
  | None => Respond (http_Error "Forbidden" 403)
  | Some f =>
      match f (cx_userID cx) false with
      | Err _ | Ok [] => Respond (http_Error "Forbidden" 403)
      | Ok domains => Next (with_scope cx (mkScope false (list_to_set (ToLower <$> domains))))
      end
  end.

(** ** Provenance of requests, [sameorigin.go], [csrf.go], [csrf_form.go] *)

Definition sameOrigin (r : Request) (raw : string) : bool :=
  match url_Parse raw with
  | None => false
  | Some u => if String.eqb (u_Host u) "" then false else EqualFold (u_Host u) (rq_Host r)
  end.
Definition RequireSameOrigin : Guard := fun r cx =>
  let refuse := Respond (http_Error "Forbidden" 403) in
  let foreign raw := negb (String.eqb raw "") && negb (sameOrigin r raw) in
  if negb (mutating (rq_Method r)) then Next cx else
  if EqualFold (rq_Header r "Sec-Fetch-Site") "cross-site" then refuse else
  if foreign (rq_Header r "Origin") then refuse else
  if foreign (rq_Header r "Referer") then refuse else Next cx.

Definition csrfHeaderName : string := "X-CSRF-Token".
Definition csrfFieldName : string := "_csrf".
Definition csrfPurpose : string := "bongo/csrf-token/v1".
Definition csrfPeekLimit : nat := 64 * 1024.
Definition csrfFieldMaxBytes : nat := 256.
Definition csrfFormMaxBytes : Z := 10 * 2 ^ 20.

Definition csrfToken (secret userID : string) : string := B64.EncodeToString (hmac_sha256 (DeriveKey secret csrfPurpose) userID).
Definition InjectCSRF (secret : string) : Guard := fun _ cx =>
  Next (if String.eqb (cx_userID cx) "" then cx else with_csrf cx (csrfToken secret (cx_userID cx))).
(** What was read of the body is put back, so the handler sees it whole. *)
Definition peekMultipartToken (r : Request) (boundary : string) : string :=
  match rq_Body r with
  | Some (Ok body) =>
      match NextPart (str_take csrfPeekLimit body) boundary with
      | Some (name, file, Ok content) =>
          if String.eqb name csrfFieldName && String.eqb file "" then
            let v := str_take (S csrfFieldMaxBytes) content in
            if Nat.leb (String.length v) csrfFieldMaxBytes then v else ""
          else ""
      | _ => ""
      end
  | _ => ""
  end.
(** [http.MaxBytesReader]. *)
Definition MaxBytes (limit : Z) (b : option (result string)) : option (result string) :=
  match b with
  | Some (Ok body) => if limit <? len body then Some (Err (Errorf "http: request body too large")) else b
  | _ => b
  end.
Definition formCSRFToken (r : Request) : string :=
  match ParseMediaType (rq_Header r "Content-Type") with
  | None => ""
  | Some (mediaType, params) =>
      if String.eqb mediaType "application/x-www-form-urlencoded"
      then PostFormValue (with_body r (MaxBytes csrfFormMaxBytes (rq_Body r))) csrfFieldName
      else if String.eqb mediaType "multipart/form-data"
      then (if String.eqb (params "boundary") "" then "" else peekMultipartToken r (params "boundary"))
      else ""
  end.
Definition RequireCSRF (secret : string) (enforce : bool) : Guard := fun r cx =>
  if negb enforce then Next cx else
  if negb (mutating (rq_Method r)) then Next cx else
  if String.eqb (cx_userID cx) "" then Next cx else
  let want := csrfToken secret (cx_userID cx) in
  let header := rq_Header r csrfHeaderName in
  let got := if String.eqb header "" then formCSRFToken r else header in
  if String.eqb got "" || negb (String.eqb got want) then Respond (http_Error "Forbidden: invalid CSRF token" 403) else Next cx.

(** ** Where a request comes from, [request.go] *)

Definition remote_host (r : Request) : string := default (rq_RemoteAddr r) (SplitHostPort (rq_RemoteAddr r)).
Definition ClientIP (trusted : TrustedProxies) (r : Request) : string :=
  let host := remote_host r in
  if negb (TrustsHost trusted host) then host else
  let xff := rq_Header r "X-Forwarded-For" in
  if String.eqb xff "" then host else
  let xff := TrimSpace (match CutLast xff "," with Some (_, last) => last | None => xff end) in
  if String.eqb xff "" then host else xff.
Definition IsHTTPS (trusted : TrustedProxies) (r : Request) : bool :=
  if rq_TLS r then true else
  if negb (TrustsHost trusted (remote_host r)) then false else
  EqualFold (TrimSpace (rq_Header r "X-Forwarded-Proto")) "https".
Definition PrivateOnly (trusted : TrustedProxies) (behindTLSProxy : bool) : Guard := fun r cx =>
  let refuse := Respond (http_Error "Forbidden" 403) in
  if behindTLSProxy && tp_Empty trusted then refuse else
  match ParseIP (ClientIP trusted r) with
  | None => refuse
  | Some ip => if IsLoopback ip || IsPrivate ip || IsLinkLocalUnicast ip then Next cx else refuse
  end.

(** The headers set before the handler runs, [security.go]; [cache] is the
    Cache-Control header so far. *)
Definition SecurityHeaders (trusted : TrustedProxies) (cache : string) (r : Request) : list (string * string) :=
  [ ("X-Frame-Options", "DENY"); ("X-Content-Type-Options", "nosniff"); ("Referrer-Policy", "strict-origin-when-cross-origin");
    ("X-XSS-Protection", "0"); ("Permissions-Policy", "camera=(), microphone=(), geolocation=()");
    ("Content-Security-Policy",
      "default-src 'self'; script-src 'self'; style-src 'self'; img-src 'self' data: cid:; font-src 'self'; connect-src 'self'; frame-ancestors 'none'; base-uri 'self'; form-action 'self'; object-src 'none'") ]
  ++ (if IsHTTPS trusted r then [("Strict-Transport-Security", "max-age=31536000; includeSubDomains")] else [])
  ++ (if String.eqb cache "" then [("Cache-Control", "no-store")] else []).
End Guards.

(** ** The login throttle, [ratelimit.go] *)

Definition DefaultMaxAttempts : Z := 5.
Definition DefaultWindow : Z := 15 * Minute.
Definition NewLoginRateLimiter (maxAttempts window : Z) : Auth.Limiter := Auth.New maxAttempts window.
Definition throttled (msg : string) (rl : Auth.Limiter) : Response :=
  set_header "Retry-After" (FormatInt (unix_of (Auth.l_window rl))) (http_Error msg 429).
Definition LoginRateLimit `{GoUnicode} `{NetParse} (now : Z) (trusted : TrustedProxies) (r : Request) (rl : Auth.Limiter)
  : Auth.Limiter * option Response :=
  let (rl', limited) := Auth.Blocked now (ClientIP trusted r) rl in
  (rl', if limited then Some (throttled "Too Many Requests" rl') else None).

(** * Requests between nodes, [internal_http_auth.go] *)

Definition InternalAuthHeader : string := "X-Bongo-Internal-Auth".
Definition internalSkew : Z := 90 * Second.
Definition internalAuthPurpose : string := "bongo/internal-auth/v1".
Definition blobSyncPurpose : string := "bongo/blob-sync/v1".
Definition maxInternalBodyBytes : Z := 2 ^ 20.

Definition signedPayload (ts : Z) (nonce method uri bodyHash : string) : string :=
  FormatInt ts +:+ "|" +:+ nonce +:+ "|" +:+ method +:+ "|" +:+ uri +:+ "|" +:+ bodyHash.

(** Nonces with their expiry. *)
Record nonceCache := mkNonces { nc_seen : gmap string Z; nc_lastSweep : Z }.
Definition checkAndRecord (nonce : string) (now : Z) (c : nonceCache) : nonceCache * bool :=
  let c := if internalSkew <? time_sub now (nc_lastSweep c)
           then mkNonces (filter (fun kv => now <= kv.2) (nc_seen c)) now else c in
  if match nc_seen c !! nonce with Some exp => now <? exp | None => false end then (c, false)
  else (mkNonces (<[nonce := now + 2 * internalSkew]> (nc_seen c)) (nc_lastSweep c), true).

(** Spaces only, unlike [strings.TrimSpace]. *)
Definition trimSpace (s : string) : string := let sp c := Ascii.eqb c " " in trim_right sp (trim_left sp s).
Definition splitComma (s : string) : list string := trimSpace <$> Split s ",".
Definition cutKV (s : string) : option (string * string) := (fun '(k, v) => (trimSpace k, trimSpace v)) <$> Cut s "=".
(** The last field of each name counts. *)
Definition auth_fields (raw : string) : string * string * string :=
  foldl (fun '(ts, nonce, sig) field =>
    match cutKV field with
    | None => (ts, nonce, sig)
    | Some (k, v) =>
        if String.eqb k "ts" then (v, nonce, sig) else
        if String.eqb k "nonce" then (ts, v, sig) else
        if String.eqb k "sig" then (ts, nonce, v) else (ts, nonce, sig)
    end) ("", "", "") (splitComma raw).

Section Internal.
Context `{Hmac} `{Sha256}.

Definition body_hash (body : string) : string := B64.EncodeToString (sha256_sum body).
Definition signature (secret purpose payload : string) : string := hmac_sha256 (DeriveKey secret purpose) payload.
(** [signWithPurpose]: the header added to a request whose body is [body], with
    a random nonce. *)
Definition signed_header (now : Z) (nonce secret purpose method uri body : string) : string :=
  let ts := unix_of now in
  "ts=" +:+ FormatInt ts +:+ ",nonce=" +:+ nonce +:+ ",sig=" +:+
    B64.EncodeToString (signature secret purpose (signedPayload ts nonce method uri (body_hash body))).

(** The body read for verification, at most one byte over the limit. *)
Definition bounded_body (b : option (result string)) : option string :=
  match b with
  | None => Some ""
  | Some (Err _) => None
  | Some (Ok body) => if maxInternalBodyBytes <? len body then None else Some body
  end.
Definition verifyWithPurpose (now : Z) (secret purpose : string) (r : Request) (c : nonceCache) : nonceCache * bool :=
  let refuse := (c, false) in
  if String.eqb secret "" then refuse else
  let raw := rq_Header r InternalAuthHeader in
  if String.eqb raw "" then refuse else
  let '(tsStr, nonce, sigB64) := auth_fields raw in
  if String.eqb tsStr "" || String.eqb nonce "" || String.eqb sigB64 "" then refuse else
  match ParseInt tsStr with
  | None => refuse
  | Some ts =>
      let reqTime := time_unix ts in
      if (reqTime <? now - internalSkew) || (now + internalSkew <? reqTime) then refuse else
      match B64.DecodeString sigB64 with
      | Err _ => refuse
      | Ok sig =>
          if negb (Nat.eqb (String.length sig) 32) || (maxInternalBodyBytes <? rq_ContentLength r) then refuse else
          match bounded_body (rq_Body r) with
          | None => refuse
          | Some body =>
              if String.eqb sig (signature secret purpose (signedPayload ts nonce (rq_Method r) (rq_RequestURI r) (body_hash body)))
              then checkAndRecord nonce now c else refuse
          end
      end
  end.
Definition VerifyInternalRequest (now : Z) (secret : string) := verifyWithPurpose now secret internalAuthPurpose.
Definition VerifyBlobSyncRequest (now : Z) (secret : string) := verifyWithPurpose now secret blobSyncPurpose.
(** [RequireInternalAuth] and [RequireBlobSyncAuth]: [None] lets the request
    through. *)
Definition RequireSigned (purpose : string) (now : Z) (secret : string) (r : Request) (c : nonceCache) : nonceCache * option Response :=
  let (c', ok) := verifyWithPurpose now secret purpose r c in (c', if ok then None else Some (http_Error "Unauthorized" 401)).
Definition RequireInternalAuth := RequireSigned internalAuthPurpose.
Definition RequireBlobSyncAuth := RequireSigned blobSyncPurpose.
End Internal.

(** * Second factors, [reauth.go] *)

Definition with_step (p : UserProfile) (step : Z) : UserProfile :=
  mkProfile (up_Email p) (up_DisplayName p) (up_PasswordHash p) (up_TotpSecret p) (up_QuotaBytes p) (up_IsAdmin p) (up_Disabled p)
    (up_RecoveryCodes p) (up_TotpEnabled p) (up_SessionGeneration p) step (up_Kind p) (up_Capacity p) (up_ResourceType p) (up_RequireAppPasswords p).
Definition with_codes (p : UserProfile) (codes : list string) : UserProfile :=
  mkProfile (up_Email p) (up_DisplayName p) (up_PasswordHash p) (up_TotpSecret p) (up_QuotaBytes p) (up_IsAdmin p) (up_Disabled p)
    codes (up_TotpEnabled p) (up_SessionGeneration p) (up_TotpLastStep p) (up_Kind p) (up_Capacity p) (up_ResourceType p) (up_RequireAppPasswords p).
(** The fields of the second factor. *)
Definition with_totp (p : UserProfile) (secret : string) (enabled : bool) (step : Z) (codes : list string) : UserProfile :=
  mkProfile (up_Email p) (up_DisplayName p) (up_PasswordHash p) secret (up_QuotaBytes p) (up_IsAdmin p) (up_Disabled p)
    codes enabled (up_SessionGeneration p) step (up_Kind p) (up_Capacity p) (up_ResourceType p) false.
(** [SessionGeneration++] on a uint64. *)
Definition next_generation (p : UserProfile) (hash : string) : UserProfile :=
  mkProfile (up_Email p) (up_DisplayName p) hash (up_TotpSecret p) (up_QuotaBytes p) (up_IsAdmin p) (up_Disabled p)
    (up_RecoveryCodes p) (up_TotpEnabled p) (u64 (up_SessionGeneration p + 1)) (up_TotpLastStep p) (up_Kind p) (up_Capacity p)
    (up_ResourceType p) (up_RequireAppPasswords p).

(** [base32.StdEncoding.WithPadding(NoPadding).DecodeString]: a last group of
    one, three or six characters yields nothing. *)
Definition b32_value (c : ascii) : option Z :=
  if is_upper c then Some (byte_of c - 65) else if in_range 50 55 c then Some (byte_of c - 24) else None.
Fixpoint b32_bits (s : string) : option (list Z) :=
  match s with
  | "" => Some []
  | String c s' => match b32_value c, b32_bits s' with Some v, Some vs => Some (v :: vs) | _, _ => None end
  end.
Fixpoint b32_groups (fuel : nat) (vs : list Z) : string :=
  match fuel, vs with
  | O, _ | _, [] => ""
  | S f, _ =>
      let q := firstn 8 vs in
      let v := foldl (fun n x => n * 32 + x) 0 (q ++ repeat 0 (8 - length q)) in
      let whole := match length q with 8%nat => 5%nat | 7%nat => 4%nat | 5%nat => 3%nat | 4%nat => 2%nat | 2%nat => 1%nat | _ => O end in
      str_take whole (be_put 5 v) +:+ b32_groups f (skipn 8 vs)
  end.
Definition b32_DecodeString (s : string) : result string :=
  match b32_bits (B64.unwrapped s) with
  | Some vs => Ok (b32_groups (length vs) vs)
  | None => Err (Errorf "illegal base32 data")
  end.

Section Factor.
Context `{Totp} `{Bcrypt}.
(** [None] is [ok = false]; the flag is [usedRecovery]. *)
Definition consumeSecondFactor (profile : UserProfile) (code : string) (now : Z) : option (UserProfile * bool) :=
  match ValidateTOTPStep (EncodeToString (up_TotpSecret profile)) code (unix_of now) (up_TotpLastStep profile) with
  | Some step => Some (with_step profile step, false)
  | None =>
      match ValidateRecoveryCode (up_RecoveryCodes profile) code with
      | None => None
      | Some idx => Some (with_codes profile (delete idx (up_RecoveryCodes profile)), true)
      end
  end.
End Factor.

(** * Live account state *)

Section Live.
Context {DB : Type} `{PebbleDB DB} `{Codec UserProfile} `{Sha256}.

Definition profile_epoch (p : UserProfile) : string :=
  SessionEpoch (up_PasswordHash p) (up_TotpSecret p) (up_TotpEnabled p) (up_SessionGeneration p).
Definition unreadable : LiveSessionState := mkLive false false false false "".
Definition sessionStateFromProfile (db : DB) (userID : string) : LiveSessionState :=
  match Get db (profileKey userID) with
  | Err e => if errors_is e ErrNotFound then mkLive false true false false "" else unreadable
  | Ok data =>
      if String.eqb data "" then unreadable else
      match unmarshal data with
      | Err _ => unreadable
      | Ok profile => mkLive true false (up_Disabled profile) (up_IsAdmin profile) (profile_epoch profile)
      end
  end.
(** [Agent.userSessionState]. *)
Definition userSessionState (db : DB) (userID : string) : LiveSessionState :=
  if String.eqb userID "" then unreadable else sessionStateFromProfile db userID.

(** [require2fa.go] *)
Definition require2FAKey : string := "/system/settings/require_2fa".
Definition TwoFactorPolicyEnforced (db : DB) : result bool :=
  match Get db require2FAKey with
  | Err e => if errors_is e ErrNotFound then Ok false else Err e
  | Ok data => Ok (String.eqb data "1")
  end.
Definition exempt_path (path : string) : bool :=
  HasPrefix path "/settings/security" || HasPrefix path "/logout" || HasPrefix path "/login" || HasPrefix path "/static/".
Definition Require2FA (db : DB) : Guard := fun r cx =>
  let unavailable := Respond (http_Error "Service temporarily unavailable" 503) in
  match TwoFactorPolicyEnforced db with
  | Err _ => unavailable
  | Ok false => Next cx
  | Ok true =>
      if String.eqb (cx_userID cx) "" then Next cx else
      match Get db (profileKey (cx_userID cx)) with
      | Err _ => unavailable
      | Ok data =>
          match unmarshal data with
          | Err _ => unavailable
          | Ok profile =>
              if up_TotpEnabled profile then Next cx else
              if exempt_path (rq_Path r) then Next (with_require2FA cx) else Respond (http_Redirect "/settings/security")
          end
      end
  end.

Definition loadProfile (db : DB) (userID : string) : result UserProfile := result_bind (Get db (profileKey userID)) unmarshal.
End Live.

(** ** The route groups of [agent.go] *)

Section Groups.
Context {DB : Type} `{PebbleDB DB} `{Codec UserProfile} `{Sha256} `{Hmac} `{GoUnicode} `{NetParse} `{WebForms} `{Codec SessionData}.

(** Pages of a signed-in user; [enforce] is off in the dev role only. *)
Definition protectedGroup (now : Z) (secret : string) (enforce : bool) (db : DB) : list Guard :=
  [ RequireAuth now secret (Some (userSessionState db)); Require2FA db; RequireSameOrigin; InjectCSRF secret; RequireCSRF secret enforce ].
Definition adminGroup (now : Z) (secret : string) (enforce : bool) (db : DB) : list Guard :=
  [ RequireAuth now secret (Some (userSessionState db)); Require2FA db; RequireAdminOrDomainAdmin (Some (AuthorizedDomains db));
    RequireSameOrigin; InjectCSRF secret; RequireCSRF secret enforce ].
(** The quarantine pages are for global administrators. *)
Definition quarantineGroup (now : Z) (secret : string) (enforce : bool) (db : DB) : list Guard :=
  [ RequireAuth now secret (Some (userSessionState db)); Require2FA db; RequireAdmin; RequireSameOrigin; InjectCSRF secret; RequireCSRF secret enforce ].
End Groups.

(** * Handlers *)

(** [withFlash]: allow-listed keys on a redirect. *)
Definition appendParams (path params : string) : string :=
  if String.eqb params "" then path else if Contains path "?" then path +:+ "&" +:+ params else path +:+ "?" +:+ params.
Definition withFlash (path : string) (keys : list string) : string := appendParams path (Join ((fun k => "flash=" +:+ k) <$> keys) "&").
Definition securityPath : string := "/settings/security".
Definition devicesSetupPath : string := "/settings/security/devices?setup=1".
Definition to_security (key : string) : Response := http_Redirect (withFlash securityPath [key]).

Definition hex_upper (n : Z) : ascii := if n <? 10 then char_of (48 + n) else char_of (55 + n).
Definition url_plain (c : ascii) : bool :=
  is_upper c || is_lower c || is_digit c || Ascii.eqb c "-" || Ascii.eqb c "_" || Ascii.eqb c "." || Ascii.eqb c "~".
Fixpoint urlEncode (s : string) : string :=
  match s with
  | "" => ""
  | String c s' =>
      if url_plain c then String c (urlEncode s')
      else String "%" (String (hex_upper (Z.shiftr (byte_of c) 4)) (String (hex_upper (Z.land (byte_of c) 15)) (urlEncode s')))
  end.

(** The state of a node that the handlers share: its store, the login limiter
    and the account service. *)
Record WebNode (DB : Type) := mkWeb { wn_db : DB; wn_lim : Auth.Limiter; wn_st : AuthState }.
Arguments mkWeb {DB} _ _ _.
Arguments wn_db {DB} _.
Arguments wn_lim {DB} _.
Arguments wn_st {DB} _.
Definition with_db {DB} (s : WebNode DB) (db : DB) : WebNode DB := mkWeb db (wn_lim s) (wn_st s).
Definition with_lim {DB} (s : WebNode DB) (l : Auth.Limiter) : WebNode DB := mkWeb (wn_db s) l (wn_st s).
Definition with_st {DB} (s : WebNode DB) (st : AuthState) : WebNode DB := mkWeb (wn_db s) (wn_lim s) st.

(** What is wired into [AuthHandler] and [SecurityHandler]; both save profiles
    through the agent, which refuses without Raft.  [wc_raft] and
    [wc_mailboxes] are off on edge nodes; [wc_prefs] without preferences;
    [wc_links] is [None] without app passwords, and says whether there are
    device links; [wc_enforce] is the CSRF switch. *)
Record WebConfig := mkConfig {
  wc_auth : LocalAuth; wc_secret : string; wc_tls : bool; wc_trusted : TrustedProxies;
  wc_raft : bool; wc_mailboxes : bool; wc_prefs : bool; wc_links : option bool; wc_enforce : bool }.

Section Handlers.
Context {DB : Type} `{PebbleDB DB} `{CredCodecs} `{Codec UserProfile} `{Codec UserPreferences} `{MailCodecs} `{Bcrypt} `{Sha256} `{GoUnicode} `{RaftApplier DB}.
Context `{Hmac} `{Totp} `{NetParse} `{WebForms} `{Codec SessionData} `{Codec PendingData} `{Codec totpPendingPayload}.
Variable c : WebConfig.
Notation Node := (WebNode DB).

Definition recordFailure (now : Z) (r : Request) (account : string) (s : Node) : Node :=
  with_lim s (Auth.Fail_ now (ClientIP (wc_trusted c) r) account (wn_lim s)).1.
Definition succeed (now : Z) (r : Request) (account : string) (s : Node) : Node :=
  with_lim s (Auth.Succeed_ now (ClientIP (wc_trusted c) r) account (wn_lim s)).

Definition saveProfile (userID : string) (profile : UserProfile) (s : Node) : Node * result unit :=
  if negb (wc_raft c) then (s, Err (Errorf "no raft applier")) else
  match marshal profile with
  | Err e => (s, Err (Wrap "marshaling profile" e))
  | Ok data => let (db, res) := ApplyCommand (mkCmd OP_PUT (profileKey userID) data) (wn_db s) in (with_db s db, wrapf "applying profile" res)
  end.

(** [redirectToStartWithWarning]: each branch is a literal path. *)
Definition redirectToStart (db : DB) (userID warning : string) : Response :=
  let query := if String.eqb warning "" then "" else "?warning=" +:+ urlEncode warning in
  let start := if wc_prefs c then StartPath (pref_Get db userID) else "/summary" in
  http_Redirect ((if String.eqb start "/mail/INBOX" then "/mail/INBOX" else "/summary") +:+ query).

Definition LoginPage (r : Request) (cx : Ctx) (s : Node) : Node * Response :=
  (s, if String.eqb (cx_userID cx) "" then page (LoginForm "") else redirectToStart (wn_db s) (cx_userID cx) "").

(** [Login]: [LocalAuth] hands over the profile the password was checked with. *)
Definition Login (now : Z) (r : Request) (s : Node) : Node * Response :=
  let email := FormValue r "email" in
  let password := FormValue r "password" in
  let remember := String.eqb (FormValue r "remember") "1" in
  let refused s := (recordFailure now r email s, page (LoginForm "Invalid email or password.")) in
  let (st, verified) := AuthenticateProfile (wc_auth c) (wn_db s) email password (wn_st s) in
  let s := with_st s st in
  match verified with
  | Err _ => refused s
  | Ok (userID, profile) =>
      let canonical := if String.eqb (up_Email profile) "" then NormaliseAddress email else up_Email profile in
      if up_Disabled profile then refused s else
      let epoch := profile_epoch profile in
      if up_TotpEnabled profile then
        (s, set_cookies [CreatePendingCookie now (wc_secret c) userID canonical remember (up_IsAdmin profile) (wc_tls c) epoch]
              (http_Redirect "/login/2fa"))
      else
        (succeed now r email s,
         set_cookies [CreateSessionCookie now (wc_secret c) userID canonical remember (up_IsAdmin profile) (wc_tls c) epoch]
           (redirectToStart (wn_db s) userID ""))
  end.

Definition TwoFactorPage (now : Z) (r : Request) (s : Node) : Node * Response :=
  (s, match ValidatePendingCookie now (wc_secret c) r with
      | Err _ => http_Redirect "/login"
      | Ok _ => page (TwoFactorForm (rq_Query r "error") (rq_Query r "warning"))
      end).

Definition twofa_error (msg : string) : Response := http_Redirect ("/login/2fa?error=" +:+ urlEncode msg).
Definition recovery_warning (profile : UserProfile) : string :=
  "Recovery code used. You have " +:+ FormatInt (Z.of_nat (length (up_RecoveryCodes profile))) +:+ " code(s) remaining.".
(** [pending.Email] once the profile is loaded. *)
Definition pending_email (pending : PendingData) (profile : UserProfile) : string :=
  if String.eqb (up_Email profile) "" then pd_Email pending else up_Email profile.
Definition TwoFactorVerify (now : Z) (r : Request) (s : Node) : Node * Response :=
  match ValidatePendingCookie now (wc_secret c) r with
  | Err _ => (s, http_Redirect "/login")
  | Ok pending =>
      let userID := pd_UserID pending in
      match loadProfile (wn_db s) userID with
      | Err _ => (recordFailure now r (pd_Email pending) s, twofa_error "Verification failed. Please try again.")
      | Ok profile =>
          if negb (String.eqb (pd_Epoch pending) "") && negb (String.eqb (pd_Epoch pending) (profile_epoch profile))
          then (s, set_cookies [ClearPendingCookie] (http_Redirect "/login")) else
          let email := pending_email pending profile in
          match consumeSecondFactor profile (FormValue r "code") now with
          | None => (recordFailure now r email s, twofa_error "Invalid code. Please try again.")
          | Some (profile, usedRecovery) =>
              match saveProfile userID profile s with
              | (s, Err _) => (recordFailure now r email s, twofa_error "Verification failed. Please try again.")
              | (s, Ok _) =>
                  let session := CreateSessionCookie now (wc_secret c) userID email (pd_Remember pending) (pd_IsAdmin pending) (wc_tls c)
                                   (profile_epoch profile) in
                  let s := succeed now r email s in
                  if usedRecovery then
                    (s, set_cookies [ClearPendingCookie; session] (redirectToStart (wn_db s) userID (recovery_warning profile)))
                  else
                    let s := if wc_mailboxes c then with_db s (EnsureDefaultMailboxes now userID (wn_db s)).1 else s in
                    (s, set_cookies [ClearPendingCookie; session] (redirectToStart (wn_db s) userID ""))
              end
          end
      end
  end.

Definition revokeSession (now : Z) (r : Request) (s : Node) : Node :=
  if negb (wc_raft c) then s else
  match ParseSessionCookie now (wc_secret c) r with
  | Err _ => s
  | Ok data =>
      if String.eqb (sd_Epoch data) "" then s else
      match loadProfile (wn_db s) (sd_UserID data) with
      | Err _ => s
      | Ok profile =>
          if String.eqb (sd_Epoch data) (profile_epoch profile)
          then (saveProfile (sd_UserID data) (next_generation profile (up_PasswordHash profile)) s).1 else s
      end
  end.
Definition Logout (now : Z) (r : Request) (s : Node) : Node * Response :=
  (revokeSession now r s, set_cookies [ClearSessionCookie] (http_Redirect "/login")).

(** ** The security page, [security.go] *)

Definition totpPendingCookieName : string := "bongo_totp_setup".
Definition totpPendingCookieTTL : Z := 10 * Minute.
Definition totpPendingCookie (now : Z) (key : string) : Cookie :=
  lax_cookie totpPendingCookieName
    (SignValue (wc_secret c) TOTPSetupCookiePurpose (json_payload (mkTotpPending key (unix_of (now + totpPendingCookieTTL)))))
    (wc_tls c) (unix_of totpPendingCookieTTL).
Definition clearTOTPPendingCookie : Cookie := lax_cookie totpPendingCookieName "" false (-1).
Definition getTOTPPendingCookie (now : Z) (r : Request) : result string :=
  match rq_Cookie r totpPendingCookieName with
  | None => Err ErrNoCookie
  | Some value =>
      let? data := VerifyValue (wc_secret c) TOTPSetupCookiePurpose value in
      let? payload := unmarshal data in
      if tp_Exp payload <? unix_of now then Err ErrNoCookie else Ok (tp_Secret payload)
  end.

Definition totpEnrolled (db : DB) (userID : string) : bool :=
  match loadProfile db userID with Ok profile => up_TotpEnabled profile | Err _ => true end.

(** The secret of [auth.GenerateTOTP] and its QR picture are arguments. *)
Definition SetupTOTP (now : Z) (generated : result string) (qr : string -> result string) (r : Request) (cx : Ctx) (s : Node) : Node * Response :=
  (s, if totpEnrolled (wn_db s) (cx_userID cx) then to_security "security-2fa-already-enabled" else
      match generated with
      | Err _ => http_Error "Failed to generate TOTP key" 500
      | Ok key =>
          match qr key with
          | Err _ => http_Error "Failed to generate QR code" 500
          | Ok png => set_cookies [totpPendingCookie now key] (page (TOTPSetupPage png key (rq_Query r "error")))
          end
      end).

(** The calling device's cookie for the new epoch, if it has one. *)
Definition reissueSessionCookie (now : Z) (r : Request) (userID : string) (profile : UserProfile) : list Cookie :=
  match ParseSessionCookie now (wc_secret c) r with
  | Ok data => if String.eqb (sd_UserID data) userID
               then [ReissueSessionCookie now (wc_secret c) data (wc_tls c) (profile_epoch profile)] else []
  | Err _ => []
  end.

Definition ConfirmTOTP (now : Z) (salt : nat -> string) (r : Request) (cx : Ctx) (s : Node) : Node * Response :=
  let userID := cx_userID cx in
  match getTOTPPendingCookie now r with
  | Err _ => (s, to_security "security-setup-expired")
  | Ok secret =>
      match ValidateTOTPStep secret (FormValue r "code") (unix_of now) 0 with
      | None => (s, to_security "security-invalid-code")
      | Some setupStep =>
          match loadProfile (wn_db s) userID with
          | Err _ => (s, http_Error "Failed to load profile" 500)
          | Ok profile =>
              if up_TotpEnabled profile then (s, to_security "security-2fa-already-enabled") else
              match b32_DecodeString secret with
              | Err _ => (s, http_Error "Failed to decode TOTP secret" 500)
              | Ok secretBytes =>
                  let (st, codes) := GenerateRecoveryCodes salt 8 (wn_st s) in
                  let s := with_st s st in
                  match codes with
                  | Err _ => (s, http_Error "Failed to generate recovery codes" 500)
                  | Ok (plain, hashed) =>
                      let profile := with_totp profile secretBytes true setupStep hashed in
                      match saveProfile userID profile s with
                      | (s, Err _) => (s, http_Error "Failed to save profile" 500)
                      | (s, Ok _) =>
                          (s, set_cookies (clearTOTPPendingCookie :: reissueSessionCookie now r userID profile)
                                (page (RecoveryCodesPage plain (if wc_links c then devicesSetupPath else securityPath))))
                      end
                  end
              end
          end
      end
  end.

(** [inl] is the response already written. *)
Definition reauthenticate (now : Z) (r : Request) (userID email password back : string) (s : Node) : Node * (Response + UserProfile) :=
  let (lim, limited) := Auth.Blocked now (ClientIP (wc_trusted c) r) (wn_lim s) in
  let s := with_lim s lim in
  if limited then (s, inl (throttled "Too many attempts. Please try again later." lim)) else
  let invalid key := (recordFailure now r email s, inl (http_Redirect (withFlash back [key]))) in
  match loadProfile (wn_db s) userID with
  | Err e => if errors_is e ErrNotFound then invalid "security-invalid-password" else (s, inl (http_Error "Failed to load profile" 500))
  | Ok profile =>
      if up_Disabled profile || negb (CompareHashAndPassword (up_PasswordHash profile) password) then invalid "security-invalid-password" else
      if up_TotpEnabled profile then
        match consumeSecondFactor profile (FormValue r "totp_code") now with
        | None => invalid "security-invalid-auth-code"
        | Some (profile, _) => (s, inr profile)
        end
      else (s, inr profile)
  end.

Definition DisableTOTP (now : Z) (r : Request) (cx : Ctx) (s : Node) : Node * Response :=
  let userID := cx_userID cx in
  let password := FormValue r "password" in
  if String.eqb password "" then (s, to_security "security-password-required") else
  match reauthenticate now r userID (cx_email cx) password securityPath s with
  | (s, inl rs) => (s, rs)
  | (s, inr profile) =>
      let profile' := with_totp profile "" false (up_TotpLastStep profile) [] in
      match saveProfile userID profile' s with
      | (s, Err _) => (s, http_Error "Failed to save profile" 500)
      | (s, Ok _) =>
          (succeed now r (cx_email cx) s,
           set_cookies (reissueSessionCookie now r userID profile')
             (http_Redirect (withFlash securityPath
               ("security-2fa-disabled" :: (if up_RequireAppPasswords profile then ["security-2fa-disabled-mail-again"] else [])))))
      end
  end.

(** The flash after the new password is saved and, if asked, the app passwords
    are revoked. *)
Definition revoke_after_change (r : Request) (userID : string) (profile : UserProfile) (s : Node) : Node * string :=
  match wc_links c with
  | Some links =>
      if String.eqb (FormValue r "revoke_app_passwords") "" then (s, "security-password-changed") else
      let (db, res) := RevokeAll links userID (wn_db s) in
      (with_db s db,
       match res.2 with
       | Some _ => "security-app-passwords-revoke-incomplete"
       | None => if up_TotpEnabled profile && up_RequireAppPasswords profile then "security-app-passwords-readd" else "security-password-changed"
       end)
  | None => (s, "security-password-changed")
  end.
Definition ChangePassword (now : Z) (salt : string) (r : Request) (cx : Ctx) (s : Node) : Node * Response :=
  let userID := cx_userID cx in
  let email := cx_email cx in
  let current := FormValue r "current_password" in
  let new := FormValue r "new_password" in
  let confirm := FormValue r "confirm_password" in
  if String.eqb current "" || String.eqb new "" || String.eqb confirm "" then (s, to_security "security-fields-required") else
  if negb (String.eqb new confirm) then (s, to_security "security-passwords-mismatch") else
  if len new <? 8 then (s, to_security "security-password-short") else
  if String.eqb current new then (s, to_security "security-password-same") else
  let (lim, limited) := Auth.Blocked now (ClientIP (wc_trusted c) r) (wn_lim s) in
  let s := with_lim s lim in
  if limited then (s, throttled "Too many attempts. Please try again later." lim) else
  match GenerateFromPassword salt new with
  | Err _ => (s, http_Error "Failed to hash password" 500)
  | Ok hash =>
      match reauthenticate now r userID email current securityPath s with
      | (s, inl rs) => (s, rs)
      | (s, inr profile) =>
          let profile := next_generation profile hash in
          match saveProfile userID profile s with
          | (s, Err _) => (s, http_Error "Failed to save profile" 500)
          | (s, Ok _) =>
              let s := succeed now r email s in
              let cookies := reissueSessionCookie now r userID profile in
              let (s, flash) := revoke_after_change r userID profile s in
              (s, set_cookies cookies (to_security flash))
          end
      end
  end.

(** ** The routes of [agent.go] that sign users in and change credentials *)

Inductive Route : Type :=
| GetLogin | PostLogin | GetLogin2FA | PostLogin2FA | PostLogout
| PostTOTPSetup | PostTOTPConfirm | PostTOTPDisable | PostPassword.
Definition route_method (rt : Route) : string := match rt with GetLogin | GetLogin2FA => "GET" | _ => "POST" end.

(** What a handler draws at random: salts, a one-time-password secret with its
    picture. *)
Record Draws := mkDraws { dr_salt : nat -> string; dr_key : result string; dr_qr : string -> result string }.

Definition behind (gs : list Guard) (h : Ctx -> Node -> Node * Response) (r : Request) (s : Node) : Node * Response :=
  match chain gs r noCtx with Respond rs => (s, rs) | Next cx => h cx s end.
Definition rate_limited (now : Z) (h : Ctx -> Node -> Node * Response) (r : Request) (cx : Ctx) (s : Node) : Node * Response :=
  let (lim, refused) := LoginRateLimit now (wc_trusted c) r (wn_lim s) in
  match refused with Some rs => (with_lim s lim, rs) | None => h cx (with_lim s lim) end.
Definition signed_in_only (now : Z) (h : Ctx -> Node -> Node * Response) (r : Request) (s : Node) : Node * Response :=
  behind (protectedGroup now (wc_secret c) (wc_enforce c) (wn_db s)) h r s.

Definition serve (rt : Route) (now : Z) (dr : Draws) (r : Request) (s : Node) : Node * Response :=
  if negb (String.eqb (rq_Method r) (route_method rt)) then (s, mkResponse 405 [] [] Empty) else
  match rt with
  | GetLogin => behind [] (LoginPage r) r s
  | PostLogin => behind [RequireSameOrigin] (rate_limited now (fun _ => Login now r) r) r s
  | GetLogin2FA => behind [] (fun _ => TwoFactorPage now r) r s
  | PostLogin2FA => behind [RequireSameOrigin] (rate_limited now (fun _ => TwoFactorVerify now r) r) r s
  | PostLogout => behind [RequireSameOrigin] (fun _ => Logout now r) r s
  | PostTOTPSetup => signed_in_only now (SetupTOTP now (dr_key dr) (dr_qr dr) r) r s
  | PostTOTPConfirm => signed_in_only now (ConfirmTOTP now (dr_salt dr) r) r s
  | PostTOTPDisable => signed_in_only now (DisableTOTP now r) r s
  | PostPassword => signed_in_only now (ChangePassword now (dr_salt dr O) r) r s
  end.
End Handlers.
