(* ===== verification/WebThm.v ===== *)
(** Theorems on web sign-in: signed values, requests between nodes, what the
    guards of the admin pages let through, sessions and their provenance,
    second factors, and changes of credentials. *)

From S2P Require Import Prelude GoStrings Utf8 Pebble Proto UserData Acl Directory Credentials Accounts AccountsThm Srs RateLimit Preferences Domains Mailbox MailboxStore Relay Netx Web.
From Stdlib Require Import Ascii.

(** * Base 64 *)

Lemma lor_shift x y k : 0 <= k -> 0 <= y < 2 ^ k -> Z.lor (Z.shiftl x k) y = x * 2 ^ k + y.
Proof.
  intros Hk Hy. pose proof (Z.add_lor_land (Z.shiftl x k) y) as Hs.
  assert (Hz : Z.land (Z.shiftl x k) y = 0); [|rewrite Hz in Hs; rewrite Z.shiftl_mul_pow2 in * by done; lia]. apply Z.bits_inj'. intros n Hn.
  rewrite Z.land_spec, Z.bits_0. destruct (Z.lt_ge_cases n k).
  - by rewrite Z.shiftl_spec_low.
  - destruct (Z.eq_dec y 0) as [->|]; [by rewrite Z.bits_0, andb_false_r|].
    rewrite (Z.bits_above_log2 y n), andb_false_r; [done|lia|]. apply Z.log2_lt_pow2; [lia|]. apply Z.lt_le_trans with (2 ^ k); [lia|]. apply Z.pow_le_mono_r; lia.
Qed.
Lemma group3_sum a b c : 0 <= b < 256 -> 0 <= c < 256 -> B64.group3 a b c = (a * 256 + b) * 256 + c.
Proof.
  intros. unfold B64.group3. rewrite (Z.shiftl_mul_pow2 b 8), (lor_shift a (b * 2 ^ 8) 16) by lia.
  replace (a * 2 ^ 16 + b * 2 ^ 8) with (Z.shiftl (a * 256 + b) 8) by (rewrite Z.shiftl_mul_pow2; lia). rewrite lor_shift; lia.
Qed.
Lemma group4_sum a b c d : 0 <= b < 64 -> 0 <= c < 64 -> 0 <= d < 64 -> B64.group4 a b c d = ((a * 64 + b) * 64 + c) * 64 + d.
Proof.
  intros. unfold B64.group4. rewrite (Z.shiftl_mul_pow2 b 12), (lor_shift a (b * 2 ^ 12) 18) by lia.
  replace (a * 2 ^ 18 + b * 2 ^ 12) with (Z.shiftl (a * 64 + b) 12) by (rewrite Z.shiftl_mul_pow2; lia).
  rewrite (Z.shiftl_mul_pow2 c 6), (lor_shift _ (c * 2 ^ 6) 12) by lia.
  replace ((a * 64 + b) * 2 ^ 12 + c * 2 ^ 6) with (Z.shiftl ((a * 64 + b) * 64 + c) 6) by (rewrite Z.shiftl_mul_pow2; lia). rewrite lor_shift; lia.
Qed.

(** The 64 digits. *)
Definition sextet (v k : Z) : Z := v / 2 ^ k mod 64.
Definition digit_ok (i : Z) : bool :=
  let c := char_at B64.alphabet i in
  bool_decide (B64.value c = Some i) && negb ((byte_of c =? 10) || (byte_of c =? 13)) && negb (Ascii.eqb c ".") && negb (Ascii.eqb c "|") && (byte_of c <? 128).
Lemma b64_digits i : 0 <= i < 64 -> digit_ok i = true.
Proof.
  intros Hi. assert (Hn : In (Z.to_nat i) (seq 0 64)) by (apply in_seq; lia). rewrite <- (Z2Nat.id i) by lia. revert Hn. generalize (Z.to_nat i).
  apply (proj1 (List.forallb_forall (fun n => digit_ok (Z.of_nat n)) _)). vm_compute. reflexivity.
Qed.
Lemma sextet_range v k : 0 <= sextet v k < 64.
Proof. apply Z.mod_pos_bound. lia. Qed.
Lemma land_shiftr v k : 0 <= k -> Z.land (Z.shiftr v k) 63 = sextet v k.
Proof. intros. rewrite Z.shiftr_div_pow2 by done. exact (Z.land_ones _ 6 ltac:(lia)). Qed.
Notation digit64 v k := (char_at B64.alphabet (sextet v k)).
Lemma digit64_ok v k :
  B64.value (digit64 v k) = Some (sextet v k) /\ (byte_of (digit64 v k) =? 10) || (byte_of (digit64 v k) =? 13) = false /\
  Ascii.eqb (digit64 v k) "." = false /\ Ascii.eqb (digit64 v k) "|" = false /\ (byte_of (digit64 v k) <? 128) = true.
Proof.
  pose proof (b64_digits _ (sextet_range v k)) as Hd. unfold digit_ok in Hd.
  rewrite !andb_true_iff, bool_decide_eq_true, !negb_true_iff in Hd. tauto.
Qed.

(** Induction by groups of three bytes, with the encoding of each. *)
Lemma by_threes (P : string -> Prop) :
  P "" -> (forall a, P (String a "")) -> (forall a b, P (String a (String b ""))) ->
  (forall a b c s, P s -> P (String a (String b (String c s)))) -> forall s, P s.
Proof.
  intros H0 H1 H2 H3. enough (forall n s, (String.length s <= n)%nat -> P s) by eauto.
  induction n as [|n IH]; intros [|a [|b [|c s]]] Hn; cbn in Hn; try lia; auto. apply H3, IH. lia.
Qed.
Lemma chars_4 v : B64.chars v 18 4 = String (digit64 v 18) (String (digit64 v 12) (String (digit64 v 6) (String (digit64 v 0) ""))).
Proof. cbn [B64.chars]. rewrite !land_shiftr by lia. done. Qed.
Lemma chars_3 v : B64.chars v 18 3 = String (digit64 v 18) (String (digit64 v 12) (String (digit64 v 6) "")).
Proof. cbn [B64.chars]. rewrite !land_shiftr by lia. done. Qed.
Lemma chars_2 v : B64.chars v 18 2 = String (digit64 v 18) (String (digit64 v 12) "").
Proof. cbn [B64.chars]. rewrite !land_shiftr by lia. done. Qed.

Lemma encode_plain s :
  B64.unwrapped (B64.EncodeToString s) = B64.EncodeToString s /\ has_char "." (B64.EncodeToString s) = false /\
  has_char "|" (B64.EncodeToString s) = false /\ is_ascii (B64.EncodeToString s) = true.
Proof.
  induction s as [|a|a b|a b c s IH] using by_threes; cbn [B64.EncodeToString].
  - done.
  - rewrite chars_2. generalize (B64.group3 (byte_of a) 0 0). intros v. destruct (digit64_ok v 18) as (_&?&?&?&?), (digit64_ok v 12) as (_&?&?&?&?).
    unfold is_ascii. rewrite !has_char_cons. cbn [B64.unwrapped str_all]. repeat (match goal with H : _ = _ |- _ => rewrite H end). done.
  - rewrite chars_3. generalize (B64.group3 (byte_of a) (byte_of b) 0). intros v.
    destruct (digit64_ok v 18) as (_&?&?&?&?), (digit64_ok v 12) as (_&?&?&?&?), (digit64_ok v 6) as (_&?&?&?&?).
    unfold is_ascii. rewrite !has_char_cons. cbn [B64.unwrapped str_all]. repeat (match goal with H : _ = _ |- _ => rewrite H end). done.
  - rewrite chars_4. generalize (B64.group3 (byte_of a) (byte_of b) (byte_of c)). intros v. destruct IH as (IH1&IH2&IH3&IH4).
    destruct (digit64_ok v 18) as (_&?&?&?&?), (digit64_ok v 12) as (_&?&?&?&?), (digit64_ok v 6) as (_&?&?&?&?), (digit64_ok v 0) as (_&?&?&?&?).
    unfold is_ascii in *. rewrite !app_cons', app_nil_l', !has_char_cons. cbn [B64.unwrapped str_all]. repeat (match goal with H : _ = _ |- _ => rewrite H end). done.
Qed.

Lemma bytes_of_sum a b c :
  0 <= a < 256 -> 0 <= b < 256 -> 0 <= c < 256 ->
  B64.bytes_of_group ((a * 256 + b) * 256 + c) 3 = String (char_of a) (String (char_of b) (String (char_of c) "")).
Proof.
  intros. unfold B64.bytes_of_group. cbn [str_take]. rewrite !Z.shiftr_div_pow2 by lia. change 255 with (Z.ones 8). rewrite !Z.land_ones by lia.
  repeat f_equal; Z.to_euclidean_division_equations; lia.
Qed.
Lemma group4_of_digits v : 0 <= v < 2 ^ 24 -> B64.group4 (sextet v 18) (sextet v 12) (sextet v 6) (sextet v 0) = v.
Proof. intros. rewrite group4_sum by apply sextet_range. unfold sextet. Z.to_euclidean_division_equations; lia. Qed.
Lemma group4_short2 v : 0 <= v < 2 ^ 24 -> v mod 2 ^ 12 = 0 -> B64.group4 (sextet v 18) (sextet v 12) 0 0 = v.
Proof. intros. rewrite group4_sum by (apply sextet_range || lia). unfold sextet. Z.to_euclidean_division_equations; lia. Qed.
Lemma group4_short3 v : 0 <= v < 2 ^ 24 -> v mod 2 ^ 6 = 0 -> B64.group4 (sextet v 18) (sextet v 12) (sextet v 6) 0 = v.
Proof. intros. rewrite group4_sum by (apply sextet_range || lia). unfold sextet. Z.to_euclidean_division_equations; lia. Qed.

Lemma decode_encode s : B64.decode (B64.EncodeToString s) = Some s.
Proof.
  induction s as [|a|a b|a b c s IH] using by_threes; cbn [B64.EncodeToString].
  - done.
  - rewrite chars_2. cbn [B64.decode]. rewrite !(proj1 (digit64_ok _ _)). pose proof (byte_of_range a). rewrite group3_sum by lia.
    rewrite group4_short2 by (Z.to_euclidean_division_equations; lia). unfold B64.bytes_of_group. cbn [str_take].
    rewrite Z.shiftr_div_pow2 by lia. change 255 with (Z.ones 8). rewrite Z.land_ones by lia.
    replace (((byte_of a * 256 + 0) * 256 + 0) / 2 ^ 16 mod 2 ^ 8) with (byte_of a) by (Z.to_euclidean_division_equations; lia). by rewrite char_of_byte.
  - rewrite chars_3. cbn [B64.decode]. rewrite !(proj1 (digit64_ok _ _)). pose proof (byte_of_range a). pose proof (byte_of_range b). rewrite group3_sum by lia.
    rewrite group4_short3 by (Z.to_euclidean_division_equations; lia). pose proof (bytes_of_sum (byte_of a) (byte_of b) 0) as Hs.
    unfold B64.bytes_of_group in *. cbn [str_take] in *. rewrite !char_of_byte in Hs. by injection (Hs ltac:(lia) ltac:(lia) ltac:(lia)) as -> ->.
  - rewrite chars_4. rewrite !app_cons', app_nil_l'. cbn [B64.decode]. rewrite !(proj1 (digit64_ok _ _)), IH.
    pose proof (byte_of_range a). pose proof (byte_of_range b). pose proof (byte_of_range c). rewrite group3_sum by lia.
    rewrite group4_of_digits by lia. rewrite bytes_of_sum by done. by rewrite !char_of_byte.
Qed.
(** What [EncodeToString] writes, [DecodeString] reads. *)
Theorem base64_roundtrip s : B64.DecodeString (B64.EncodeToString s) = Ok s.
Proof. unfold B64.DecodeString. by rewrite (proj1 (encode_plain s)), decode_encode. Qed.
Lemma encode_inj s t : B64.EncodeToString s = B64.EncodeToString t -> s = t.
Proof. intros E. pose proof (decode_encode s) as Hs. rewrite E, decode_encode in Hs. congruence. Qed.
Lemma encode_empty s : B64.EncodeToString s = "" -> s = "".
Proof. intros E. by apply encode_inj. Qed.

(** * Signed values *)

Section SignedThm.
Context `{Hmac}.
(** A value signed for a purpose is accepted for it, and for another purpose
    only if the two subkeys give the payload the same HMAC. *)
Lemma sign_verify secret p q payload :
  payload <> "" -> VerifyValue secret q (SignValue secret p payload) =
    if String.eqb (sign secret p payload) (sign secret q payload) then Ok payload else Err ErrNoCookie.
Proof.
  intros Hp. unfold VerifyValue, SignValue. change "." with (String "." "") at 1. rewrite CutLast_app by apply encode_plain.
  destruct (String.eqb_spec (B64.EncodeToString payload) "") as [E|_]; [by apply encode_empty in E|].
  destruct (String.eqb_spec (B64.EncodeToString (sign secret p payload)) "") as [E|_].
  { apply encode_empty in E. pose proof (hmac_length (DeriveKey secret p) payload) as Hl. unfold sign in E. by rewrite E in Hl. }
  cbn [orb]. by rewrite !base64_roundtrip.
Qed.
Lemma sign_verify_same secret p payload : payload <> "" -> VerifyValue secret p (SignValue secret p payload) = Ok payload.
Proof. intros. rewrite sign_verify by done. by rewrite String.eqb_refl. Qed.
End SignedThm.

(** * Decimal numbers are written without separators, each in one way *)

Lemma digit_facts d : 0 <= d < 10 -> is_digit (digit d) = true /\ byte_of (digit d) - 48 = d.
Proof.
  intros Hd. assert (d = 0 \/ d = 1 \/ d = 2 \/ d = 3 \/ d = 4 \/ d = 5 \/ d = 6 \/ d = 7 \/ d = 8 \/ d = 9) as Hc by lia.
  repeat (destruct Hc as [->|Hc]; [by vm_compute|]). by subst.
Qed.
Lemma dec_go_parse f z acc :
  0 <= z < 2 ^ Z.of_nat f -> (0 < f)%nat -> str_all is_digit acc = true ->
  parse_digits (dec_go f z acc) 0 = parse_digits acc z /\ str_all is_digit (dec_go f z acc) = true.
Proof.
  revert z acc. induction f as [|f IH]; intros z acc Hz Hf Ha; [lia|]. cbn [dec_go].
  pose proof (digit_facts (z mod 10) (Z.mod_pos_bound z 10 ltac:(lia))) as (Hd&Hv).
  destruct (Z.ltb_spec z 10).
  - cbn [parse_digits str_all]. rewrite Hd. split; [|done]. rewrite Hv. f_equal. rewrite Z.mod_small; lia.
  - assert (Hf' : (0 < f)%nat) by (destruct f; [cbn in Hz; lia|lia]).
    assert (Hq : 0 <= z / 10 < 2 ^ Z.of_nat f).
    { split; [apply Z.div_pos; lia|]. apply Z.div_lt_upper_bound; [lia|]. rewrite Nat2Z.inj_succ, Z.pow_succ_r in Hz by lia.
      assert (0 < 2 ^ Z.of_nat f) by (apply Z.pow_pos_nonneg; lia). lia. }
    destruct (IH (z / 10) (String (digit (z mod 10)) acc) Hq Hf') as [IH1 IH2]; [cbn [str_all]; by rewrite Hd|].
    split; [|done]. rewrite IH1. cbn [parse_digits]. rewrite Hd, Hv. f_equal. pose proof (Z.div_mod z 10). lia.
Qed.
Lemma digits_parse z : 0 <= z -> parse_digits (digits z) 0 = Some z /\ str_all is_digit (digits z) = true.
Proof.
  intros Hz. apply (dec_go_parse _ z ""); [|lia|done]. split; [done|]. rewrite Nat2Z.inj_succ, Z2Nat.id by apply Z.log2_nonneg.
  destruct (Z.eq_dec z 0) as [->|]; [done|]. apply Z.log2_spec. lia.
Qed.
Lemma FormatInt_inj a b : FormatInt a = FormatInt b -> a = b.
Proof.
  assert (Hm : forall z s, 0 <= z -> digits z = "-" +:+ s -> False).
  { intros z s Hz Hd. destruct (digits_parse z Hz) as [_ Ha]. by rewrite Hd in Ha. }
  unfold FormatInt. destruct (Z.ltb_spec a 0), (Z.ltb_spec b 0); intros E.
  - apply str_app_inv_head in E. pose proof (digits_parse (- a)) as [Ha _]; [lia|]. rewrite E in Ha.
    pose proof (digits_parse (- b)) as [Hb _]; [lia|]. rewrite Hb in Ha. injection Ha. lia.
  - by edestruct (Hm b); [|symmetry; exact E].
  - by edestruct (Hm a); [|exact E].
  - pose proof (digits_parse a) as [Ha _]; [lia|]. rewrite E in Ha. pose proof (digits_parse b) as [Hb _]; [lia|]. rewrite Hb in Ha. injection Ha. lia.
Qed.
Lemma digits_no_bar s : str_all is_digit s = true -> has_char "|" s = false.
Proof.
  induction s as [|x s IH]; [done|]. cbn [str_all]. intros [Hx Hs]%andb_true_iff. rewrite has_char_cons, IH, orb_false_r by done.
  destruct (Ascii.eqb_spec x "|") as [->|]; [by vm_compute in Hx|done].
Qed.
Lemma FormatInt_no_bar z : has_char "|" (FormatInt z) = false.
Proof.
  unfold FormatInt. destruct (Z.ltb_spec z 0).
  - rewrite has_char_app. change (has_char "|" "-") with false. apply digits_no_bar, digits_parse. lia.
  - apply digits_no_bar, digits_parse. lia.
Qed.

(** ** The signed text names its fields, when they hold no separator *)

Fixpoint count_char (c : ascii) (s : string) : nat :=
  match s with "" => O | String x s' => ((if Ascii.eqb x c then 1 else 0) + count_char c s')%nat end.
Lemma count_char_app c s t : count_char c (s +:+ t) = (count_char c s + count_char c t)%nat.
Proof. induction s as [|x s IH]; [done|]. rewrite app_cons'. cbn. rewrite IH. lia. Qed.
Lemma count_char_none c s : has_char c s = false <-> count_char c s = O.
Proof. induction s as [|x s IH]; [done|]. rewrite has_char_cons. cbn. destruct (Ascii.eqb x c); [done|]. by rewrite IH. Qed.
Lemma bar_split a b x y : has_char "|" a = false -> has_char "|" b = false -> a +:+ "|" +:+ x = b +:+ "|" +:+ y -> a = b /\ x = y.
Proof.
  intros Ha Hb E. pose proof (Cut_char "|" a x Ha) as H1. change (String "|" "") with "|" in H1. rewrite E in H1.
  rewrite (Cut_char "|" b y Hb) in H1. by injection H1 as -> ->.
Qed.
Lemma signedPayload_inj ts ts' nonce nonce' method method' uri uri' h h' :
  has_char "|" nonce = false -> has_char "|" method = false -> has_char "|" uri = false -> has_char "|" h = false -> has_char "|" h' = false ->
  signedPayload ts' nonce' method' uri' h' = signedPayload ts nonce method uri h ->
  ts' = ts /\ nonce' = nonce /\ method' = method /\ uri' = uri /\ h' = h.
Proof.
  intros Hn Hm Hu Hh Hh' E. unfold signedPayload in E. apply bar_split in E as [Ets E]; [|apply FormatInt_no_bar..]. apply FormatInt_inj in Ets.
  assert (Hc : (count_char "|" nonce' = 0 /\ count_char "|" method' = 0 /\ count_char "|" uri' = 0)%nat).
  { apply (f_equal (count_char "|")) in E. rewrite !count_char_app in E. apply count_char_none in Hn, Hm, Hu, Hh, Hh'.
    rewrite Hn, Hm, Hu, Hh, Hh' in E. cbn in E. lia. }
  destruct Hc as (Hn'&Hm'&Hu'). apply count_char_none in Hn', Hm', Hu'.
  apply bar_split in E as [-> E]; [|done..]. apply bar_split in E as [-> E]; [|done..]. by apply bar_split in E as [-> ->].
Qed.

(** * Requests between nodes *)

Section InternalThm.
Context `{Hmac} `{Sha256}.
Implicit Types (c : nonceCache) (r : Request).

(** A request as its sender signed it. *)
Record SignedReq := mkSigned { sg_ts : Z; sg_nonce : string; sg_method : string; sg_uri : string; sg_body : string }.
Definition sg_payload (g : SignedReq) : string := signedPayload (sg_ts g) (sg_nonce g) (sg_method g) (sg_uri g) (body_hash (sg_body g)).
Definition plain_fields (g : SignedReq) : Prop := has_char "|" (sg_nonce g) = false /\ has_char "|" (sg_method g) = false /\ has_char "|" (sg_uri g) = false.
(** The header's timestamp and nonce. *)
Definition claimed (r : Request) : option (Z * string) :=
  let '(ts, nonce, _) := auth_fields (rq_Header r InternalAuthHeader) in (fun t => (t, nonce)) <$> ParseInt ts.
(** The text that a request would have been signed over. *)
Definition presented (r : Request) : option string :=
  match claimed r, bounded_body (rq_Body r) with
  | Some (ts, nonce), Some body => Some (signedPayload ts nonce (rq_Method r) (rq_RequestURI r) (body_hash body))
  | _, _ => None
  end.
(** Nobody but the holders of the secret computes a signature: if the one it
    carries is that of its text, its text was signed for this purpose. *)
Definition signed_by_peers (secret purpose : string) (log : list SignedReq) (r : Request) : Prop :=
  forall sig payload, presented r = Some payload -> B64.DecodeString (auth_fields (rq_Header r InternalAuthHeader)).2 = Ok sig ->
    sig = signature secret purpose payload -> payload ∈ sg_payload <$> log.

(** An accepted request in parts. *)
Lemma verify_accepts now secret purpose r c c' :
  verifyWithPurpose now secret purpose r c = (c', true) ->
  exists ts nonce body sig, claimed r = Some (ts, nonce) /\ bounded_body (rq_Body r) = Some body /\
    - internalSkew <= time_unix ts - now <= internalSkew /\
    B64.DecodeString (auth_fields (rq_Header r InternalAuthHeader)).2 = Ok sig /\
    sig = signature secret purpose (signedPayload ts nonce (rq_Method r) (rq_RequestURI r) (body_hash body)) /\
    checkAndRecord nonce now c = (c', true).
Proof.
  unfold verifyWithPurpose, claimed. destruct (String.eqb secret ""); [done|]. destruct (String.eqb _ ""); [done|].
  destruct (auth_fields _) as [[tsStr nonce] sigB64]. destruct (_ || _ || _); [done|].
  destruct (ParseInt tsStr) as [ts|]; [|done]. destruct (Z.ltb_spec (time_unix ts) (now - internalSkew)); [done|].
  destruct (Z.ltb_spec (now + internalSkew) (time_unix ts)); [done|]. cbn [orb snd].
  destruct (B64.DecodeString sigB64) as [sig|] eqn:Hs; [|done]. destruct (_ || _); [done|].
  destruct (bounded_body (rq_Body r)) as [body|] eqn:Hb; [|done]. destruct (String.eqb_spec sig (signature secret purpose
    (signedPayload ts nonce (rq_Method r) (rq_RequestURI r) (body_hash body)))) as [E|]; [|done].
  intros Hc. exists ts, nonce, body, sig. split_and!; try done; lia.
Qed.

Lemma verify_is_bound now secret purpose log r c c' :
  Forall plain_fields log -> signed_by_peers secret purpose log r -> verifyWithPurpose now secret purpose r c = (c', true) ->
  exists g body, g ∈ log /\ rq_Method r = sg_method g /\ rq_RequestURI r = sg_uri g /\ bounded_body (rq_Body r) = Some body /\
    sha256_sum body = sha256_sum (sg_body g) /\ claimed r = Some (sg_ts g, sg_nonce g) /\
    - internalSkew <= time_unix (sg_ts g) - now <= internalSkew.
Proof.
  intros Hl Hu (ts&nonce&body&sig&Hc&Hb&Hr&Hd&Hs&_)%verify_accepts. pose proof (Hu sig (signedPayload ts nonce (rq_Method r) (rq_RequestURI r) (body_hash body))) as Hin.
  unfold presented in Hin. rewrite Hc, Hb in Hin. specialize (Hin eq_refl Hd Hs). apply list_elem_of_fmap in Hin as (g&Hg&Hin).
  rewrite Forall_forall in Hl. destruct (Hl g Hin) as (Hn&Hm&Huri).
  apply signedPayload_inj in Hg as (->&->&Em&Eu&Eh); [|done..|apply encode_plain|apply encode_plain].
  exists g, body. split_and!; try done; [by apply encode_inj|lia..].
Qed.

(** ** Each nonce is accepted once *)

(** The nonce is on record until a time. *)
Definition recorded (nonce : string) (until : Z) c : Prop := exists e, nc_seen c !! nonce = Some e /\ until <= e.

Lemma checkAndRecord_keeps nonce until n now c c' b :
  recorded nonce until c -> now <= until -> checkAndRecord n now c = (c', b) -> recorded nonce until c' /\ (n = nonce -> now < until -> b = false).
Proof.
  intros (e&He&Hle) Hnow. unfold checkAndRecord.
  set (c1 := if internalSkew <? _ then _ else _).
  assert (He1 : nc_seen c1 !! nonce = Some e).
  { unfold c1. case_match; [|done]. cbn. apply map_lookup_filter_Some. split; [done|cbn; lia]. }
  clearbody c1. destruct (nc_seen c1 !! n) as [e'|] eqn:Hn; [destruct (Z.ltb_spec now e')|]; intros [= <- <-].
  - split; [by exists e|done].
  - split.
    + unfold recorded. cbn. destruct (decide (n = nonce)) as [->|].
      * rewrite lookup_insert_eq. eexists. split; [done|]. rewrite He1 in Hn. injection Hn as ->. unfold internalSkew, Second. lia.
      * rewrite lookup_insert_ne by done. by exists e.
    + intros -> ?. rewrite He1 in Hn. injection Hn as ->. lia.
  - split.
    + unfold recorded. cbn. destruct (decide (n = nonce)) as [->|]; [congruence|]. rewrite lookup_insert_ne by done. by exists e.
    + intros ->. congruence.
Qed.
Lemma verify_keeps nonce until now secret purpose r c c' b :
  recorded nonce until c -> now <= until -> verifyWithPurpose now secret purpose r c = (c', b) -> recorded nonce until c'.
Proof.
  intros Hr Hn. destruct b.
  - intros (ts&n&body&sig&_&_&_&_&_&Hc)%verify_accepts. by eapply checkAndRecord_keeps.
  - unfold verifyWithPurpose. destruct (auth_fields _) as [[tsStr n] sigB64]. intros E.
    repeat match type of E with (if ?b then _ else _) = _ => destruct b | match ?x with _ => _ end = _ => destruct x end;
      try (injection E as <-; done). by eapply checkAndRecord_keeps.
Qed.

(** Calls of the check, for either purpose: the cache is shared. *)
Fixpoint verify_all (secret : string) (calls : list (string * Z * Request)) c : nonceCache :=
  match calls with
  | [] => c
  | (purpose, now, r) :: calls' => verify_all secret calls' (verifyWithPurpose now secret purpose r c).1
  end.
Lemma verify_all_keeps nonce until secret calls c :
  recorded nonce until c -> Forall (fun call => call.1.2 <= until) calls -> recorded nonce until (verify_all secret calls c).
Proof.
  intros Hr Hc. revert c Hr. induction Hc as [|[[p now] r] calls Hnow _ IH]; intros c Hr; [done|]. cbn. apply IH.
  destruct (verifyWithPurpose now secret p r c) as [c' b] eqn:E. cbn in *. by eapply verify_keeps.
Qed.

End InternalThm.

(** * Guards *)

Lemma chain_Next gs r cx cx' :
  chain gs r cx = Next cx' <-> match gs with [] => cx' = cx | g :: gs' => exists cx1, g r cx = Next cx1 /\ chain gs' r cx1 = Next cx' end.
Proof. destruct gs as [|g gs]; cbn [chain]; [naive_solver|]. destruct (g r cx); naive_solver. Qed.

Section GuardThm.
Context {DB : Type} `{PebbleDB DB} `{Codec UserProfile} `{Sha256} `{Hmac} `{GoUnicode} `{NetParse} `{WebForms} `{Codec SessionData}.
Implicit Types (db : DB) (r : Request) (cx : Ctx).

Lemma hex_of_length s : String.length (hex_of s) = (2 * String.length s)%nat.
Proof. induction s as [|x s IH]; [done|]. cbn. rewrite IH. lia. Qed.
Lemma profile_epoch_length p : String.length (profile_epoch p) = 16%nat.
Proof. unfold profile_epoch, SessionEpoch. by rewrite hex_of_length, str_take_length, sha256_length. Qed.
Lemma profile_epoch_nonempty p : profile_epoch p <> "".
Proof. intros E. pose proof (profile_epoch_length p) as Hl. by rewrite E in Hl. Qed.

(** Who [RequireAuth] lets in: the holder of a signed, unexpired cookie whose
    account is there, not disabled and at the cookie's epoch, or, without
    administrator rights, one whose account cannot be read. *)
Definition account_live db (data : SessionData) (isAdmin : bool) : Prop :=
  exists p, loadProfile db (sd_UserID data) = Ok p /\ up_Disabled p = false /\
    (sd_Epoch data = "" \/ sd_Epoch data = profile_epoch p) /\ isAdmin = up_IsAdmin p.
Lemma RequireAuth_Next now secret db r cx cx' :
  RequireAuth now secret (Some (userSessionState db)) r cx = Next cx' ->
  exists data, ParseSessionCookie now secret r = Ok data /\ cx_userID cx' = sd_UserID data /\ cx_email cx' = sd_Email data /\ sd_UserID data <> "" /\
    (cx_stateUnavailable cx' = false /\ account_live db data (cx_isAdmin cx') \/ cx_stateUnavailable cx' = true /\ cx_isAdmin cx' = false).
Proof.
  unfold RequireAuth, ParseSessionCookie. destruct (rq_Cookie r cookieName) as [value|]; [|done].
  destruct (validateCookie secret value) as [data|e]; [|done]. cbn [result_bind]. destruct (String.eqb_spec (sd_UserID data) "") as [|Hu]; [done|].
  destruct (sd_Exp data <? unix_of now); [done|]. cbn [orb]. unfold userSessionState. destruct (String.eqb_spec (sd_UserID data) ""); [done|].
  unfold sessionStateFromProfile, account_live, loadProfile. destruct (Get db (profileKey (sd_UserID data))) as [v|e] eqn:Hg; cbn [result_bind].
  2:{ destruct (errors_is e ErrNotFound); [done|]. intros [= <-]. exists data. cbn. auto 10. }
  destruct (String.eqb v ""); [intros [= <-]; exists data; cbn; auto 10|].
  destruct (unmarshal v) as [p|e] eqn:Hv; [|intros [= <-]; exists data; cbn; auto 10]. cbn [ls_Missing ls_Found ls_Disabled ls_Epoch ls_IsAdmin].
  destruct (up_Disabled p) eqn:Hd; [done|]. cbn [orb]. destruct (String.eqb_spec (profile_epoch p) "") as [E|_]; [by apply profile_epoch_nonempty in E|].
  destruct (String.eqb_spec (sd_Epoch data) ""), (String.eqb_spec (sd_Epoch data) (profile_epoch p)); cbn [negb andb]; try done;
    intros [= <-]; exists data; cbn; (split_and!; [done..|]); left; (split; [done|]); exists p; rewrite Hg; cbn; auto.
Qed.

(** Requests that come from this site's own pages: the origin headers do not
    speak against it, and the user's token came along. *)
Definition own_site r : Prop :=
  EqualFold (rq_Header r "Sec-Fetch-Site") "cross-site" = false /\
  (rq_Header r "Origin" = "" \/ sameOrigin r (rq_Header r "Origin") = true) /\
  (rq_Header r "Referer" = "" \/ sameOrigin r (rq_Header r "Referer") = true).
Definition has_token secret r (u : string) : Prop :=
  rq_Header r csrfHeaderName = csrfToken secret u \/ rq_Header r csrfHeaderName = "" /\ formCSRFToken r = csrfToken secret u.
Lemma RequireSameOrigin_Next r cx cx' : RequireSameOrigin r cx = Next cx' -> cx' = cx /\ (mutating (rq_Method r) = true -> own_site r).
Proof.
  unfold RequireSameOrigin, own_site. destruct (mutating (rq_Method r)); [|by intros [= <-]]. cbn [negb].
  destruct (EqualFold _ _); [done|]. destruct (String.eqb_spec (rq_Header r "Origin") "") as [|Ho], (String.eqb_spec (rq_Header r "Referer") "") as [|Hr];
    cbn [negb andb]; try destruct (sameOrigin r (rq_Header r "Origin")); try destruct (sameOrigin r (rq_Header r "Referer")); cbn [negb]; naive_solver.
Qed.
Lemma RequireCSRF_Next secret r cx cx' :
  RequireCSRF secret true r cx = Next cx' -> cx' = cx /\ (mutating (rq_Method r) = true -> cx_userID cx <> "" -> has_token secret r (cx_userID cx)).
Proof.
  unfold RequireCSRF, has_token. cbn [negb]. destruct (mutating (rq_Method r)); [|by intros [= <-]]. cbn [negb].
  destruct (String.eqb_spec (cx_userID cx) ""); [by intros [= <-]|].
  destruct (String.eqb_spec (rq_Header r csrfHeaderName) "") as [E|E].
  - destruct (String.eqb _ ""); [done|]. destruct (String.eqb_spec (formCSRFToken r) (csrfToken secret (cx_userID cx))); cbn; naive_solver.
  - destruct (String.eqb _ ""); [done|]. destruct (String.eqb_spec (rq_Header r csrfHeaderName) (csrfToken secret (cx_userID cx))); cbn; naive_solver.
Qed.
Lemma Require2FA_Next db r cx cx' :
  Require2FA db r cx = Next cx' ->
  cx_userID cx' = cx_userID cx /\ cx_isAdmin cx' = cx_isAdmin cx /\ cx_stateUnavailable cx' = cx_stateUnavailable cx /\
  exists enforced, TwoFactorPolicyEnforced db = Ok enforced /\
    (enforced = true -> cx_userID cx <> "" ->
     exists p, loadProfile db (cx_userID cx) = Ok p /\ (up_TotpEnabled p = true \/ exempt_path (rq_Path r) = true)).
Proof.
  unfold Require2FA, loadProfile. destruct (TwoFactorPolicyEnforced db) as [[]|]; [|intros [= <-]; split_and!; try done; by exists false|done].
  destruct (String.eqb_spec (cx_userID cx) ""); [intros [= <-]; split_and!; try done; by exists true|].
  destruct (Get db _) as [v|]; [|done]. cbn [result_bind]. destruct (unmarshal v) as [p|]; [|done].
  destruct (up_TotpEnabled p) eqn:Ht; [intros [= <-]; split_and!; try done; exists true; split; [done|]; intros _ _; exists p; auto|].
  destruct (exempt_path (rq_Path r)) eqn:He; [|done]. intros [= <-]. split_and!; try done. exists true. split; [done|]. intros _ _. exists p. auto.
Qed.

(** C37: a request reaches an admin handler only with a signed, unexpired
    cookie of an account that is readable, enabled and at the cookie's epoch;
    when the two-factor policy is on the account has a second factor; it is a
    global administrator now, or administers the domains of its scope and no
    others; and a request that changes something comes from this site and
    carries the user's token. *)
Theorem admin_requests_are_vetted now secret db r cx :
  chain (adminGroup now secret true db) r noCtx = Next cx ->
  exists data p enforced, ParseSessionCookie now secret r = Ok data /\ cx_userID cx = sd_UserID data /\
    loadProfile db (sd_UserID data) = Ok p /\ up_Disabled p = false /\ (sd_Epoch data = "" \/ sd_Epoch data = profile_epoch p) /\
    TwoFactorPolicyEnforced db = Ok enforced /\ (enforced = true -> up_TotpEnabled p = true \/ exempt_path (rq_Path r) = true) /\
    (up_IsAdmin p = true /\ cx_scope cx = mkScope true ∅ \/
     up_IsAdmin p = false /\ exists ds, AuthorizedDomains db (sd_UserID data) false = Ok ds /\ ds <> [] /\
       cx_scope cx = mkScope false (list_to_set (ToLower <$> ds))) /\
    (mutating (rq_Method r) = true -> own_site r /\ has_token secret r (sd_UserID data)).
Proof.
  unfold adminGroup. intros (cx1&Ha&(cx2&Hf&(cx3&Hd&(cx4&Hso&(cx5&Hi&(cx6&Hc&->%chain_Next)%chain_Next)%chain_Next)%chain_Next)%chain_Next)%chain_Next)%chain_Next.
  apply RequireAuth_Next in Ha as (data&Hp&Hu&_&Hne&Hst). apply Require2FA_Next in Hf as (Hu2&Hadm2&Hst2&enforced&He&Hpol).
  unfold RequireAdminOrDomainAdmin in Hd. rewrite Hst2, Hadm2 in Hd. destruct Hst as [(Hs&p&Hload&Hdis&Hep&Hadm)|(Hs&_)]; rewrite Hs in Hd; [|done].
  apply RequireSameOrigin_Next in Hso as [-> Ho]. injection Hi as <-. apply RequireCSRF_Next in Hc as [-> Ht].
  rewrite Hu2, Hu in *. exists data, p, enforced.
  assert (Hpol' : enforced = true -> up_TotpEnabled p = true \/ exempt_path (rq_Path r) = true).
  { intros E. destruct (Hpol E Hne) as (q&Hq&?). rewrite Hload in Hq. by injection Hq as <-. }
  assert (Hscope : cx_userID cx3 = sd_UserID data /\
    (up_IsAdmin p = true /\ cx_scope cx3 = mkScope true ∅ \/
     up_IsAdmin p = false /\ exists ds, AuthorizedDomains db (sd_UserID data) false = Ok ds /\ ds <> [] /\ cx_scope cx3 = mkScope false (list_to_set (ToLower <$> ds)))).
  { rewrite Hadm in Hd. destruct (up_IsAdmin p); [injection Hd as <-; cbn; rewrite ?Hu2, ?Hu; auto|].
    destruct (AuthorizedDomains db (sd_UserID data) false) as [[|d ds]|] eqn:Hds; try done. injection Hd as <-. cbn. rewrite ?Hu2, ?Hu. split; [done|]. right.
    split; [done|]. by exists (d :: ds). }
  destruct Hscope as [Hu3 Hscope]. rewrite Hu3 in *. destruct (String.eqb_spec (sd_UserID data) ""); [done|]. cbn in *. rewrite Hu3 in *. split_and!; try done; auto.
Qed.
End GuardThm.

(** * Where sessions come from *)

(** [encoding/json] writes every value of these structs, as a non-empty text,
    and only invalid UTF-8 reads back differently. *)
Class WebJson `{Codec SessionData} `{Codec PendingData} := {
  json_text : string -> string;
  json_text_valid s : ValidString s = true -> json_text s = s;
  session_json d : exists b, marshal d = Ok b /\ b <> "" /\
    unmarshal b = Ok (mkSession (json_text (sd_UserID d)) (json_text (sd_Email d)) (sd_Exp d) (sd_IsAdmin d) (json_text (sd_Epoch d)));
  pending_json d : exists b, marshal d = Ok b /\ b <> "" /\
    unmarshal b = Ok (mkPending (json_text (pd_UserID d)) (json_text (pd_Email d)) (pd_Remember d) (pd_IsAdmin d) (pd_Exp d) (json_text (pd_Epoch d)));
}.

Lemma ascii_valid s : is_ascii s = true -> ValidString s = true.
Proof.
  induction s as [|x s IH]; [done|]. unfold is_ascii. cbn [str_all]. intros [Hx Hs]%andb_true_iff. cbn [ValidString rune_width]. rewrite Hx. by apply IH.
Qed.
Lemma hex_of_ascii s : is_ascii (hex_of s) = true.
Proof. unfold is_ascii. induction s as [|[[] [] [] [] [] [] [] []] s IH]; cbn [hex_of str_all]; [done|..]; rewrite IH, !andb_true_r; vm_compute; reflexivity. Qed.

#[local] Arguments profile_epoch : simpl never.

Section Provenance.
Context {DB : Type} `{PebbleDB DB} `{CredCodecs} `{Codec UserProfile} `{Codec UserPreferences} `{MailCodecs} `{Bcrypt} `{Sha256} `{GoUnicode} `{RaftApplier DB}.
Context `{Hmac} `{Totp} `{NetParse} `{WebForms} `{WebJson} `{Codec totpPendingPayload}.
Variable c : WebConfig.
(** User IDs are UTF-8. *)
Hypothesis ids_valid : forall query name u, la_users (wc_auth c) = Some query -> query name = Ok u -> ValidString u = true.
Implicit Types (r : Request) (ck : Cookie) (p : UserProfile).
Notation Node := (WebNode DB).
Notation secret := (wc_secret c).

(** A request the server handled, with its state before. *)
Record Served := mkServed { sv_route : Route; sv_now : Z; sv_req : Request; sv_node : Node }.
Definition sv_form (sv : Served) : string -> string := FormValue (sv_req sv).

(** The password of [p] was entered for [u] in a login. *)
Definition password_entered (sv : Served) (u : string) p : Prop :=
  sv_route sv = PostLogin /\ up_Disabled p = false /\ exists st,
    AuthenticateProfile (wc_auth c) (wn_db (sv_node sv)) (sv_form sv "email") (sv_form sv "password") (wn_st (sv_node sv)) = (st, Ok (u, p)).
(** A code of [p] was entered for [u] in the second step of a login. *)
Definition code_entered (sv : Served) (u : string) p : Prop :=
  sv_route sv = PostLogin2FA /\ loadProfile (wn_db (sv_node sv)) u = Ok p /\ is_Some (consumeSecondFactor p (sv_form sv "code") (sv_now sv)).
(** [u] re-authenticated with the password of [p], and a code when it has a
    second factor; [q] is [p] with that code spent. *)
Definition reauthenticated (sv : Served) (u : string) p q : Prop :=
  loadProfile (wn_db (sv_node sv)) u = Ok p /\ up_Disabled p = false /\
  (sv_route sv = PostPassword /\ CompareHashAndPassword (up_PasswordHash p) (sv_form sv "current_password") = true \/
   sv_route sv = PostTOTPDisable /\ CompareHashAndPassword (up_PasswordHash p) (sv_form sv "password") = true) /\
  if up_TotpEnabled p then exists used, consumeSecondFactor p (sv_form sv "totp_code") (sv_now sv) = Some (q, used) else q = p.

(** [signed_in hist u e]: in the requests [hist], user [u] authenticated for
    the credential state with epoch [e], or carried an authenticated session
    over a change of credentials to it. *)
Inductive signed_in (hist : list Served) (u : string) : string -> Prop :=
| by_password sv p :
    sv ∈ hist -> password_entered sv u p -> up_TotpEnabled p = false -> signed_in hist u (profile_epoch p)
| by_two_factors sv p sv' p' :
    sv ∈ hist -> password_entered sv u p -> up_TotpEnabled p = true ->
    sv' ∈ hist -> code_entered sv' u p' -> profile_epoch p' = profile_epoch p -> signed_in hist u (profile_epoch p')
| by_new_password sv p q hash e :
    signed_in hist u e -> sv ∈ hist -> reauthenticated sv u p q -> sv_route sv = PostPassword -> signed_in hist u (profile_epoch (next_generation q hash))
| by_disabling sv p q e :
    signed_in hist u e -> sv ∈ hist -> reauthenticated sv u p q -> sv_route sv = PostTOTPDisable ->
    signed_in hist u (profile_epoch (with_totp q "" false (up_TotpLastStep q) []))
| by_enrolling sv p key step bytes codes e :
    signed_in hist u e -> sv ∈ hist -> sv_route sv = PostTOTPConfirm -> loadProfile (wn_db (sv_node sv)) u = Ok p -> up_TotpEnabled p = false ->
    ValidateTOTPStep key (sv_form sv "code") (unix_of (sv_now sv)) 0 = Some step ->
    signed_in hist u (profile_epoch (with_totp p bytes true step codes)).

(** The server's cookies so far; what a request carries under the name of a
    signed cookie verifies only if such a cookie was set with that payload. *)
Definition unforged (set : list Cookie) r : Prop :=
  forall name purpose value payload, (name, purpose) ∈ [(cookieName, sessionCookiePurpose); (pendingCookieName, pendingCookiePurpose)] ->
    rq_Cookie r name = Some value -> VerifyValue secret purpose value = Ok payload ->
    exists ck, ck ∈ set /\ ck_Name ck = name /\ VerifyValue secret purpose (ck_Value ck) = Ok payload.

(** Runs of a node: requests in any order, and in between its state may change
    in any way. *)
Inductive web_reach : list Served -> Node -> list Cookie -> Prop :=
| wr_start s : web_reach [] s []
| wr_serve hist s set rt now dr r s' rs :
    web_reach hist s set -> unforged set r -> serve c rt now dr r s = (s', rs) ->
    web_reach (mkServed rt now r s :: hist) s' (rs_Cookies rs ++ set)
| wr_other hist s set s' : web_reach hist s set -> web_reach hist s' set.

(** ** The invariant of the cookies *)

Definition session_ok (hist : list Served) (d : SessionData) : Prop :=
  ValidString (sd_UserID d) = true /\ sd_Epoch d <> "" /\ signed_in hist (sd_UserID d) (sd_Epoch d).
Definition pending_ok (hist : list Served) (d : PendingData) : Prop :=
  ValidString (pd_UserID d) = true /\ pd_Epoch d <> "" /\
  exists sv p, sv ∈ hist /\ password_entered sv (pd_UserID d) p /\ up_TotpEnabled p = true /\ profile_epoch p = pd_Epoch d.
Definition cookie_ok (hist : list Served) ck : Prop :=
  (ck_Name ck = cookieName -> forall payload d, VerifyValue secret sessionCookiePurpose (ck_Value ck) = Ok payload -> unmarshal payload = Ok d -> session_ok hist d) /\
  (ck_Name ck = pendingCookieName -> forall payload d, VerifyValue secret pendingCookiePurpose (ck_Value ck) = Ok payload -> unmarshal payload = Ok d -> pending_ok hist d).

Lemma signed_in_more hist hist' u e : hist ⊆ hist' -> signed_in hist u e -> signed_in hist' u e.
Proof.
  intros Hs Hi. induction Hi as [sv p Hin|sv p sv' p' Hin ? ? Hin'|sv p q hash e _ IH Hin|sv p q e _ IH Hin|sv p key step bytes codes e _ IH Hin].
  - by apply (by_password _ _ sv); [apply Hs|..].
  - by apply (by_two_factors _ _ sv p sv'); [apply Hs| | |apply Hs|..].
  - by apply (by_new_password _ _ sv p q hash e); [|apply Hs|..].
  - by apply (by_disabling _ _ sv p q e); [|apply Hs|..].
  - by eapply (by_enrolling _ _ sv p key step bytes codes e); [|apply Hs|..].
Qed.
Lemma cookie_ok_more hist hist' ck : hist ⊆ hist' -> cookie_ok hist ck -> cookie_ok hist' ck.
Proof.
  intros Hs [Hc Hp]. split.
  - intros Hn payload d Hv Hd. destruct (Hc Hn _ _ Hv Hd) as (?&?&?). split_and!; [done..|]. by eapply signed_in_more.
  - intros Hn payload d Hv Hd. destruct (Hp Hn _ _ Hv Hd) as (?&?&sv&p&?&?). split_and!; [done..|]. exists sv, p. split; [by apply Hs|done].
Qed.

Lemma epoch_valid p : ValidString (profile_epoch p) = true.
Proof. apply ascii_valid. unfold profile_epoch, SessionEpoch. apply hex_of_ascii. Qed.
Lemma cookie_ok_cleared hist name secure age : cookie_ok hist (lax_cookie name "" secure age).
Proof. split; intros _ payload d Hv; by cbn in Hv. Qed.
Lemma cookie_ok_setup hist now key : cookie_ok hist (totpPendingCookie c now key).
Proof. split; intros Hn; by cbn in Hn. Qed.
(** What the server signs as a session or a pending login reads back. *)
Lemma session_cookie_ok hist u email exp adm p secure age :
  ValidString u = true -> signed_in hist u (profile_epoch p) ->
  cookie_ok hist (lax_cookie cookieName (SignValue secret sessionCookiePurpose (json_payload (mkSession u email exp adm (profile_epoch p)))) secure age).
Proof.
  intros Hu Hs. split; intros Hn; [|by cbn in Hn]. intros payload d Hv Hd. cbn [ck_Value lax_cookie] in Hv. unfold json_payload in Hv.
  destruct (session_json (mkSession u email exp adm (profile_epoch p))) as (b&Hb&Hne&Hr). rewrite Hb, sign_verify_same in Hv by done.
  injection Hv as <-. cbn in Hr. rewrite (json_text_valid u), (json_text_valid (profile_epoch p)) in Hr by (done || apply epoch_valid). rewrite Hr in Hd. injection Hd as <-.
  split; [exact Hu|]. split; [apply profile_epoch_nonempty|exact Hs].
Qed.
Lemma pending_cookie_ok hist u email rem exp adm p sv secure age :
  ValidString u = true -> sv ∈ hist -> password_entered sv u p -> up_TotpEnabled p = true ->
  cookie_ok hist (lax_cookie pendingCookieName (SignValue secret pendingCookiePurpose (json_payload (mkPending u email rem adm exp (profile_epoch p)))) secure age).
Proof.
  intros Hu Hin Hp Ht. split; intros Hn; [by cbn in Hn|]. intros payload d Hv Hd. cbn [ck_Value lax_cookie] in Hv. unfold json_payload in Hv.
  destruct (pending_json (mkPending u email rem adm exp (profile_epoch p))) as (b&Hb&Hne&Hr). rewrite Hb, sign_verify_same in Hv by done.
  injection Hv as <-. cbn in Hr. rewrite (json_text_valid u), (json_text_valid (profile_epoch p)) in Hr by (done || apply epoch_valid). rewrite Hr in Hd. injection Hd as <-.
  split; [exact Hu|]. split; [apply profile_epoch_nonempty|]. by exists sv, p.
Qed.

(** A cookie that a request carries was set by the server. *)
Lemma carried_session hist set now r d :
  unforged set r -> Forall (cookie_ok hist) set -> ParseSessionCookie now secret r = Ok d -> session_ok hist d.
Proof.
  intros Hu Hs. unfold ParseSessionCookie, validateCookie. destruct (rq_Cookie r cookieName) as [value|] eqn:Hc; [|done].
  intros (d'&(payload&Hv&Hd)%result_bind_Ok&Hx)%result_bind_Ok. destruct (_ || _); [done|]. injection Hx as ->.
  destruct (Hu cookieName sessionCookiePurpose value payload) as (ck&Hin&Hn&Hv'); [set_solver|done..|].
  rewrite Forall_forall in Hs. by eapply (proj1 (Hs ck Hin)).
Qed.
Lemma carried_pending hist set now r d :
  unforged set r -> Forall (cookie_ok hist) set -> ValidatePendingCookie now secret r = Ok d -> pending_ok hist d.
Proof.
  intros Hu Hs. unfold ValidatePendingCookie. destruct (rq_Cookie r pendingCookieName) as [value|] eqn:Hc; [|done].
  intros (payload&Hv&(d'&Hd&Hx)%result_bind_Ok)%result_bind_Ok. destruct (_ <? _); [done|]. injection Hx as ->.
  destruct (Hu pendingCookieName pendingCookiePurpose value payload) as (ck&Hin&Hn&Hv'); [set_solver|done..|].
  rewrite Forall_forall in Hs. by eapply (proj2 (Hs ck Hin)).
Qed.

(** ** Every handler keeps it *)

Lemma authenticated_id db username pw st st' u p : AuthenticateProfile (wc_auth c) db username pw st = (st', Ok (u, p)) -> ValidString u = true.
Proof.
  unfold AuthenticateProfile. destruct (lookupUserID (wc_auth c) username) as [u'|] eqn:Hl; [|by intros (?&?&?&?)%gbind_Ok].
  intros Hr. assert (u = u') as ->.
  { destruct (Get db _) as [v|]; [|by apply gbind_Ok in Hr as (?&?&?&?)]. apply gbind_Ok in Hr as (?&?&_&Hr). apply gbind_Ok in Hr as (?&same&_&Hr).
    destruct same; cbn in Hr; [|done]. destruct (CheckStanding _); [|done]. unfold gret in Hr. by simplify_eq. }
  unfold lookupUserID in Hl. destruct (la_users (wc_auth c)) as [query|] eqn:Hq; [|done]. apply wrapf_Ok in Hl.
  destruct (query username) as [v|e] eqn:Hn; [injection Hl as <-; by eapply ids_valid|].
  destruct (errors_is e ErrNoRows); [|done]. destruct (String.eqb _ _); [done|]. by eapply ids_valid.
Qed.

Lemma clear_cookies hist cs : Forall (fun ck => ck = ClearSessionCookie) cs -> Forall (cookie_ok hist) cs.
Proof. intros Hc. eapply Forall_impl; [exact Hc|]. intros ? ->. apply cookie_ok_cleared. Qed.

(** Guards answer with no cookie, or clear the session's. *)
Lemma chain_Respond gs r cx rs : chain gs r cx = Respond rs -> exists g cx1, g ∈ gs /\ g r cx1 = Respond rs.
Proof.
  revert cx. induction gs as [|g gs IH]; intros cx; cbn [chain]; [done|]. destruct (g r cx) eqn:E.
  - intros (g'&cx1&Hg&?)%IH. exists g', cx1. split; [by right|done].
  - intros [= <-]. exists g, cx. split; [by left|done].
Qed.
Definition harmless (g : Guard) : Prop := forall r cx rs, g r cx = Respond rs -> Forall (fun ck => ck = ClearSessionCookie) (rs_Cookies rs).
Lemma RequireSameOrigin_harmless : harmless RequireSameOrigin.
Proof. intros r cx rs. unfold RequireSameOrigin. repeat case_match; try done; by intros [= <-]. Qed.
Lemma protected_harmless now db g : g ∈ protectedGroup now secret (wc_enforce c) db -> harmless g.
Proof.
  assert (Hl : forall r, rs_Cookies (redirectToLogin r) = []) by (intros r; unfold redirectToLogin; by case_match).
  unfold protectedGroup. rewrite !elem_of_cons, elem_of_nil. intros [->|[->|[->|[->|[->|[]]]]]] r cx rs.
  - unfold RequireAuth. repeat case_match; try done; intros [= <-]; cbn; rewrite Hl; repeat constructor.
  - unfold Require2FA. repeat case_match; try done; by intros [= <-].
  - apply RequireSameOrigin_harmless.
  - done.
  - unfold RequireCSRF. repeat case_match; try done; by intros [= <-].
Qed.
Lemma behind_cookies hist gs (h : Ctx -> Node -> Node * Response) r s s' rs :
  Forall harmless gs -> behind gs h r s = (s', rs) ->
  (forall cx s1 rs1, chain gs r noCtx = Next cx -> h cx s = (s1, rs1) -> Forall (cookie_ok hist) (rs_Cookies rs1)) -> Forall (cookie_ok hist) (rs_Cookies rs).
Proof.
  unfold behind. intros Hg. destruct (chain gs r noCtx) as [cx|rs0] eqn:E.
  - intros Hh Hc. by eapply Hc.
  - intros [= <- <-] _. apply chain_Respond in E as (g&cx1&Hin&E). rewrite Forall_forall in Hg. eapply clear_cookies, (Hg g Hin), E.
Qed.
Lemma rate_limited_cookies hist now (h : Ctx -> Node -> Node * Response) r cx s s' rs :
  rate_limited c now h r cx s = (s', rs) ->
  (forall lim s1 rs1, h cx (with_lim s lim) = (s1, rs1) -> Forall (cookie_ok hist) (rs_Cookies rs1)) -> Forall (cookie_ok hist) (rs_Cookies rs).
Proof.
  unfold rate_limited, LoginRateLimit. destruct (Auth.Blocked _ _ _) as [lim [|]]; [|intros Hh Hc; by eapply Hc].
  intros [= <- <-] _. constructor.
Qed.

Lemma start_cookies db u w : rs_Cookies (redirectToStart c db u w) = [].
Proof. done. Qed.
Lemma Login_cookies hist now r s lim s' rs :
  Login c now r (with_lim s lim) = (s', rs) -> Forall (cookie_ok (mkServed PostLogin now r s :: hist)) (rs_Cookies rs).
Proof.
  unfold Login. set (sv := mkServed PostLogin now r s). cbn [wn_db wn_st with_lim].
  destruct (AuthenticateProfile _ _ _ _ _) as [st [[u p]|e]] eqn:Ha; [|intros [= <- <-]; constructor].
  pose proof (authenticated_id _ _ _ _ _ _ _ Ha) as Hu. destruct (up_Disabled p) eqn:Hd; [intros [= <- <-]; constructor|].
  assert (Hp : password_entered sv u p) by (split; [done|]; split; [done|]; by exists st).
  destruct (up_TotpEnabled p) eqn:Ht; intros [= <- <-]; (constructor; [|constructor]).
  - apply (pending_cookie_ok _ _ _ _ _ _ _ sv); [done|by left|done..].
  - apply session_cookie_ok; [done|]. apply (by_password _ _ sv); [by left|done..].
Qed.

Lemma consume_epoch p code now q used : consumeSecondFactor p code now = Some (q, used) -> profile_epoch q = profile_epoch p.
Proof. unfold consumeSecondFactor. destruct (ValidateTOTPStep _ _ _ _); [by intros [= <- <-]|]. destruct (ValidateRecoveryCode _ _); [by intros [= <- <-]|done]. Qed.

Lemma TwoFactor_cookies hist set now r s lim s' rs :
  unforged set r -> Forall (cookie_ok hist) set -> TwoFactorVerify c now r (with_lim s lim) = (s', rs) ->
  Forall (cookie_ok (mkServed PostLogin2FA now r s :: hist)) (rs_Cookies rs).
Proof.
  intros Hu Hs. unfold TwoFactorVerify. set (sv := mkServed PostLogin2FA now r s).
  destruct (ValidatePendingCookie now secret r) as [pd|e] eqn:Hp; [|intros [= <- <-]; constructor].
  destruct (carried_pending hist set now r pd Hu Hs Hp) as (Hid&Hne&sv0&p0&Hin&Hpw&Ht&Hep). cbn [wn_db with_lim].
  destruct (loadProfile (wn_db s) (pd_UserID pd)) as [p|e] eqn:Hl; [|intros [= <- <-]; constructor].
  destruct (String.eqb_spec (pd_Epoch pd) ""); [done|]. destruct (String.eqb_spec (pd_Epoch pd) (profile_epoch p)) as [E|].
  2:{ intros [= <- <-]. constructor; [apply cookie_ok_cleared|constructor]. }
  cbn [negb andb]. destruct (consumeSecondFactor p (FormValue r "code") now) as [[q used]|] eqn:Hc; [|intros [= <- <-]; constructor].
  destruct (saveProfile _ _ _ _) as [s1 [[]|e]]; [|intros [= <- <-]; constructor].
  assert (Hok : cookie_ok (sv :: hist) (CreateSessionCookie now secret (pd_UserID pd) (pending_email pd p) (pd_Remember pd) (pd_IsAdmin pd) (wc_tls c) (profile_epoch q))).
  { apply session_cookie_ok; [done|]. rewrite (consume_epoch _ _ _ _ _ Hc). apply (by_two_factors _ _ sv0 p0 sv); [by right|done|done|by left| |congruence].
    split; [done|]. split; [done|]. by eexists. }
  destruct used; intros [= <- <-]; repeat (constructor; [by (apply cookie_ok_cleared || exact Hok)|]); constructor.
Qed.

Lemma reissue_ok hist now r u p :
  (forall d, ParseSessionCookie now secret r = Ok d -> sd_UserID d = u -> ValidString u = true /\ signed_in hist u (profile_epoch p)) ->
  Forall (cookie_ok hist) (reissueSessionCookie c now r u p).
Proof.
  unfold reissueSessionCookie. intros Hd. destruct (ParseSessionCookie now secret r) as [d|] eqn:E; [|constructor].
  destruct (String.eqb_spec (sd_UserID d) u) as [<-|]; [|constructor]. destruct (Hd d eq_refl eq_refl). constructor; [|constructor].
  by apply session_cookie_ok.
Qed.

(** What a successful re-authentication has checked. *)
Lemma reauthenticate_Ok now r u email pw back s s' q :
  reauthenticate c now r u email pw back s = (s', inr q) ->
  wn_db s' = wn_db s /\ exists p, loadProfile (wn_db s) u = Ok p /\ up_Disabled p = false /\ CompareHashAndPassword (up_PasswordHash p) pw = true /\
    if up_TotpEnabled p then exists used, consumeSecondFactor p (FormValue r "totp_code") now = Some (q, used) else q = p.
Proof.
  unfold reauthenticate. destruct (Auth.Blocked _ _ _) as [lim []]; [done|]. cbn [wn_db with_lim].
  destruct (loadProfile (wn_db s) u) as [p|e]; [|by destruct (errors_is e ErrNotFound)].
  destruct (up_Disabled p) eqn:Hd; [done|]. destruct (CompareHashAndPassword _ pw) eqn:Hc; [|done]. cbn [orb negb].
  destruct (up_TotpEnabled p) eqn:Ht.
  - destruct (consumeSecondFactor p _ now) as [[q' used]|] eqn:Hs; [|done]. intros [= <- <-]. split; [done|]. exists p. rewrite Ht. eauto 10.
  - intros [= <- <-]. split; [done|]. exists p. rewrite Ht. auto.
Qed.

Lemma Confirm_cookies hist set now dr r cx s s' rs :
  unforged set r -> Forall (cookie_ok hist) set -> ConfirmTOTP c now dr r cx s = (s', rs) ->
  Forall (cookie_ok (mkServed PostTOTPConfirm now r s :: hist)) (rs_Cookies rs).
Proof.
  intros Hu Hs. unfold ConfirmTOTP. set (sv := mkServed PostTOTPConfirm now r s).
  destruct (getTOTPPendingCookie c now r) as [key|]; [|intros [= <- <-]; constructor].
  destruct (ValidateTOTPStep key _ _ 0) as [step|] eqn:Hv; [|intros [= <- <-]; constructor].
  destruct (loadProfile (wn_db s) (cx_userID cx)) as [p|] eqn:Hl; [|intros [= <- <-]; constructor].
  destruct (up_TotpEnabled p) eqn:Ht; [intros [= <- <-]; constructor|].
  destruct (b32_DecodeString key) as [bytes|]; [|intros [= <- <-]; constructor].
  destruct (GenerateRecoveryCodes dr 8 (wn_st s)) as [st [[plain hashed]|]]; [|intros [= <- <-]; constructor].
  destruct (saveProfile _ _ _ _) as [s1 [[]|]]; intros [= <- <-]; [|constructor].
  unfold set_cookies. cbn [rs_Cookies page]. rewrite app_nil_r. constructor; [apply cookie_ok_cleared|].
  apply reissue_ok. intros d Hd E. rewrite <- E in *. destruct (carried_session hist set now r d Hu Hs Hd) as (Hid&_&Hi). split; [done|].
  apply (by_enrolling _ _ sv p key step bytes hashed (sd_Epoch d)); [|by left|done..]. eapply signed_in_more; [|exact Hi]. set_solver.
Qed.
Lemma Disable_cookies hist set now r cx s s' rs :
  unforged set r -> Forall (cookie_ok hist) set -> DisableTOTP c now r cx s = (s', rs) ->
  Forall (cookie_ok (mkServed PostTOTPDisable now r s :: hist)) (rs_Cookies rs).
Proof.
  intros Hu Hs. unfold DisableTOTP. set (sv := mkServed PostTOTPDisable now r s). destruct (String.eqb _ ""); [intros [= <- <-]; constructor|].
  destruct (reauthenticate _ _ _ _ _ _ _ _) as [s1 [rs1|q]] eqn:Hr.
  { intros [= <- <-]. unfold reauthenticate in Hr. repeat case_match; simplify_eq; constructor. }
  apply reauthenticate_Ok in Hr as (_&p&Hl&Hd&Hc&Hq). destruct (saveProfile _ _ _ _) as [s2 [[]|]]; intros [= <- <-]; [|constructor].
  unfold set_cookies, http_Redirect. cbn [rs_Cookies]. rewrite app_nil_r.
  apply reissue_ok. intros d Hd' E. rewrite <- E in *. destruct (carried_session hist set now r d Hu Hs Hd') as (Hid&_&Hi). split; [done|].
  apply (by_disabling _ _ sv p q (sd_Epoch d)); [|by left| |done]; [eapply signed_in_more; [|exact Hi]; set_solver|]. split_and!; auto.
Qed.
Lemma Change_cookies hist set now salt r cx s s' rs :
  unforged set r -> Forall (cookie_ok hist) set -> ChangePassword c now salt r cx s = (s', rs) ->
  Forall (cookie_ok (mkServed PostPassword now r s :: hist)) (rs_Cookies rs).
Proof.
  intros Hu Hs. unfold ChangePassword. set (sv := mkServed PostPassword now r s).
  destruct (_ || _); [intros [= <- <-]; constructor|]. destruct (negb _); [intros [= <- <-]; constructor|].
  destruct (_ <? 8); [intros [= <- <-]; constructor|]. destruct (String.eqb _ _); [intros [= <- <-]; constructor|].
  destruct (Auth.Blocked _ _ _) as [lim []]; [intros [= <- <-]; constructor|]. destruct (GenerateFromPassword _ _) as [hash|]; [|intros [= <- <-]; constructor].
  destruct (reauthenticate _ _ _ _ _ _ _ _) as [s1 [rs1|q]] eqn:Hr.
  { intros [= <- <-]. unfold reauthenticate in Hr. repeat case_match; simplify_eq; constructor. }
  apply reauthenticate_Ok in Hr as (_&p&Hl&Hd&Hc&Hq). destruct (saveProfile _ _ _ _) as [s2 [[]|]]; [|intros [= <- <-]; constructor].
  destruct (revoke_after_change _ _ _ _ _) as [s3 flash]. intros [= <- <-].
  unfold set_cookies, to_security, http_Redirect. cbn [rs_Cookies]. rewrite app_nil_r.
  apply reissue_ok. intros d Hd' E. rewrite <- E in *. destruct (carried_session hist set now r d Hu Hs Hd') as (Hid&_&Hi). split; [done|].
  apply (by_new_password _ _ sv p q hash (sd_Epoch d)); [|by left| |done]; [eapply signed_in_more; [|exact Hi]; set_solver|]. split_and!; auto.
Qed.

Lemma serve_cookies hist set rt now dr r s s' rs :
  unforged set r -> Forall (cookie_ok hist) set -> serve c rt now dr r s = (s', rs) -> Forall (cookie_ok (mkServed rt now r s :: hist)) (rs_Cookies rs).
Proof.
  intros Hu Hs. unfold serve, signed_in_only. destruct (negb _); [intros [= <- <-]; constructor|].
  assert (Hso : Forall harmless [RequireSameOrigin]) by (repeat constructor; exact RequireSameOrigin_harmless).
  assert (Hpg : Forall harmless (protectedGroup now secret (wc_enforce c) (wn_db s))) by (apply Forall_forall; apply protected_harmless).
  destruct rt; intros Hb; (eapply behind_cookies; [|exact Hb|]; [by (assumption || constructor)|]); intros cx s1 rs1 _.
  - unfold LoginPage. intros [= <- <-]. destruct (String.eqb _ ""); constructor.
  - intros Hh. eapply rate_limited_cookies; [exact Hh|]. intros lim s2 rs2. apply Login_cookies.
  - unfold TwoFactorPage. intros [= <- <-]. destruct (ValidatePendingCookie _ _ _); constructor.
  - intros Hh. eapply rate_limited_cookies; [exact Hh|]. intros lim s2 rs2. by apply (TwoFactor_cookies hist set).
  - unfold Logout. intros [= <- <-]. constructor; [apply cookie_ok_cleared|constructor].
  - unfold SetupTOTP. intros [= <- <-]. repeat case_match; repeat constructor; done.
  - by apply (Confirm_cookies hist set).
  - by apply (Disable_cookies hist set).
  - by apply (Change_cookies hist set).
Qed.
Lemma reach_cookies hist s set : web_reach hist s set -> Forall (cookie_ok hist) set.
Proof.
  induction 1 as [|hist s set rt now dr r s' rs _ IH Hu Hserve|]; [constructor| |done].
  apply Forall_app. split; [by eapply serve_cookies|]. eapply Forall_impl; [exact IH|]. intros ck. apply cookie_ok_more. set_solver.
Qed.

End Provenance.

(** * Second factors are spent before they sign anyone in *)

Section FactorThm.
Context {DB : Type} `{PebbleDB DB} `{CredCodecs} `{Codec UserProfile} `{Codec UserPreferences} `{MailCodecs} `{Bcrypt} `{Sha256} `{GoUnicode} `{RaftApplier DB}.
Context `{Hmac} `{Totp} `{NetParse} `{WebForms} `{Codec SessionData} `{Codec PendingData} `{Codec totpPendingPayload}.
Variable c : WebConfig.

(** What using a code leaves of the profile: the one-time password's step,
    which is later than the last one and within one period of now, is on
    record, or the one recovery code that matched is gone. *)
Definition spent (p q : UserProfile) (code : string) (now : Z) (used : bool) : Prop :=
  if used then
    exists i h, up_RecoveryCodes p !! i = Some h /\ CompareHashAndPassword h code = true /\ q = with_codes p (delete i (up_RecoveryCodes p))
  else
    exists step, q = with_step p step /\ up_TotpLastStep p < step /\ Z.abs (step - Z.quot (unix_of now) totpPeriod) <= 1 /\
      ValidateCustom code (EncodeToString (up_TotpSecret p)) (step * totpPeriod) = Ok true.

Lemma try_steps_Some secret code last step n k :
  try_steps secret code last step n = Some k -> last < k /\ step <= k < step + Z.of_nat n /\ ValidateCustom code secret (k * totpPeriod) = Ok true.
Proof.
  revert step. induction n as [|n IH]; intros step; cbn [try_steps]; [done|].
  destruct (Z.leb_spec step last); [intros ?%IH; naive_solver lia|].
  destruct (ValidateCustom code secret (step * _)) as [[]|] eqn:E; [intros [= <-]; split_and!; [lia..|done]|intros ?%IH; naive_solver lia..].
Qed.
Lemma recovery_Some hashes code i : ValidateRecoveryCode hashes code = Some i -> exists h, hashes !! i = Some h /\ CompareHashAndPassword h code = true.
Proof.
  revert i. induction hashes as [|h hashes IH]; intros i; cbn [ValidateRecoveryCode]; [done|].
  destruct (CompareHashAndPassword h code) eqn:E; [intros [= <-]; by exists h|]. intros (j&Hj&->)%fmap_Some. by apply IH in Hj.
Qed.
Lemma consume_spent p code now q used : consumeSecondFactor p code now = Some (q, used) -> spent p q code now used.
Proof.
  unfold consumeSecondFactor, ValidateTOTPStep, spent. destruct (try_steps _ _ _ _ _) as [step|] eqn:Hs.
  - intros [= <- <-]. apply try_steps_Some in Hs as (?&?&?). exists step. split_and!; [done|done|lia|done].
  - destruct (ValidateRecoveryCode _ _) as [i|] eqn:Hi; [|done]. intros [= <- <-]. apply recovery_Some in Hi as (h&?&?). by exists i, h.
Qed.

(** C39: a code opens a session only after the profile in which it is spent has
    been written: with a one-time password no step up to this one is accepted
    from that profile again, with a recovery code the code is gone; and a code
    that is not accepted opens nothing and changes nothing in the store. *)
Theorem code_is_spent_before_session now r s s' rs ck :
  TwoFactorVerify c now r s = (s', rs) -> ck ∈ rs_Cookies rs -> ck_Name ck = cookieName ->
  exists pd p q used s1, ValidatePendingCookie now (wc_secret c) r = Ok pd /\ loadProfile (wn_db s) (pd_UserID pd) = Ok p /\
    (pd_Epoch pd = "" \/ pd_Epoch pd = profile_epoch p) /\ spent p q (FormValue r "code") now used /\
    saveProfile c (pd_UserID pd) q s = (s1, Ok tt) /\
    (forall code' now' q', consumeSecondFactor q code' now' = Some (q', false) -> used = false -> up_TotpLastStep q < up_TotpLastStep q').
Proof.
  unfold TwoFactorVerify. destruct (ValidatePendingCookie _ _ _) as [pd|] eqn:Hp; [|intros [= <- <-]; by intros ?%not_elem_of_nil].
  destruct (loadProfile _ _) as [p|] eqn:Hl; [|intros [= <- <-]; by intros ?%not_elem_of_nil].
  destruct (negb _ && negb _) eqn:He.
  { intros [= <- <-]. cbn [rs_Cookies set_cookies app http_Redirect]. intros ->%list_elem_of_singleton Hn. discriminate Hn. }
  destruct (consumeSecondFactor p _ now) as [[q used]|] eqn:Hc; [|intros [= <- <-]; by intros ?%not_elem_of_nil].
  destruct (saveProfile _ _ _ _) as [s1 [[]|]] eqn:Hs; [|intros [= <- <-]; by intros ?%not_elem_of_nil].
  intros _ _ _. exists pd, p, q, used, s1. split_and!; try done.
  - destruct (String.eqb_spec (pd_Epoch pd) ""); [by left|]. destruct (String.eqb_spec (pd_Epoch pd) (profile_epoch p)); [by right|done].
  - by apply consume_spent.
  - intros code' now' q' Hq' _. apply consume_spent in Hq' as (step&->&?&_). cbn. lia.
Qed.
Theorem refused_code_changes_nothing now r s s' rs pd p :
  ValidatePendingCookie now (wc_secret c) r = Ok pd -> loadProfile (wn_db s) (pd_UserID pd) = Ok p ->
  consumeSecondFactor p (FormValue r "code") now = None -> TwoFactorVerify c now r s = (s', rs) ->
  wn_db s' = wn_db s /\ Forall (fun ck => ck = ClearPendingCookie) (rs_Cookies rs).
Proof.
  unfold TwoFactorVerify. intros -> -> ->. destruct (_ && _); intros [= <- <-]; (split; [done|]); repeat constructor.
Qed.

(** The login page is outside the session's guards, so it never knows a
    visitor who is signed in. *)
Theorem login_page_ignores_sessions now dr r s : rq_Method r = "GET" -> serve c GetLogin now dr r s = (s, page (LoginForm "")).
Proof. intros Hm. unfold serve. by rewrite Hm. Qed.
End FactorThm.

(** * Revocation *)

Section Revocation.
Context {DB : Type} `{UserApplier DB} `{CredCodecs} `{ProtoLaws UserProfile} `{Codec UserPreferences} `{MailCodecs} `{BcryptLaws} `{Sha256} `{GoUnicode}.
Context `{Hmac} `{Totp} `{NetParse} `{WebForms} `{WebJson} `{Codec totpPendingPayload}.
Variable c : WebConfig.
(** A record with a password hash is not the empty message. *)
Hypothesis profile_written : forall p : UserProfile, up_PasswordHash p <> "" -> marshal p <> Ok "".
Notation secret := (wc_secret c).
Notation auth db now r := (RequireAuth now secret (Some (userSessionState db)) r noCtx).

Lemma saved_reads_back n u p (s s' : WebNode DB) :
  healthy (wn_db s) -> uready (S n) (wn_db s) -> saveProfile c u p s = (s', Ok tt) ->
  healthy (wn_db s') /\ uready n (wn_db s') /\ wn_lim s' = wn_lim s /\
  exists data, marshal p = Ok data /\ Get (wn_db s') (profileKey u) = Ok data /\ unmarshal data = Ok p.
Proof.
  intros Hs Hr. unfold saveProfile. destruct (wc_raft c); [|done]. cbn [negb]. destruct (marshal p) as [data|] eqn:Hm; [|done].
  destruct (ApplyCommand _ _) as [db res] eqn:Ha. intros [= <- Hres]. apply wrapf_Ok in Hres as ->.
  destruct (uap_put n (profileKey u) data (wn_db s) db (Ok tt) Hr Hs) as (Hs'&Hr'&Hc); [apply prefix_app|done|]. cbn [wn_db with_db].
  split_and!; [done..|]. exists data. split; [done|]. rewrite Get_healthy by done. rewrite Hc, lookup_insert_eq; [|apply user_not_uown, prefix_app].
  split; [done|]. by apply proto_roundtrip.
Qed.

Lemma loadProfile_of (db : DB) u data p : Get db (profileKey u) = Ok data -> unmarshal data = Ok p -> loadProfile db u = Ok p.
Proof. intros Hg Hu. unfold loadProfile. by rewrite Hg. Qed.
(** The verdict on a cookie once the profile is known. *)
Lemma RequireAuth_known now (db : DB) r d data p :
  ParseSessionCookie now secret r = Ok d -> Get db (profileKey (sd_UserID d)) = Ok data -> data <> "" -> unmarshal data = Ok p ->
  auth db now r =
    if up_Disabled p || negb (String.eqb (sd_Epoch d) "") && negb (String.eqb (sd_Epoch d) (profile_epoch p))
    then Respond (set_cookies [ClearSessionCookie] (redirectToLogin r))
    else Next (mkCtx (sd_UserID d) (sd_Email d) (up_IsAdmin p) false false (mkScope false ∅) "").
Proof.
  unfold ParseSessionCookie, RequireAuth. destruct (rq_Cookie r cookieName) as [v|]; [|done]. intros (d'&Hv&Hd)%result_bind_Ok. rewrite Hv.
  destruct (String.eqb_spec (sd_UserID d') "") as [E|E]; [done|]. destruct (sd_Exp d' <? unix_of now); [done|]. injection Hd as ->. cbn [orb].
  intros Hg Hne Hu. unfold userSessionState, sessionStateFromProfile. destruct (String.eqb_spec (sd_UserID d) ""); [done|]. rewrite Hg.
  destruct (String.eqb_spec data ""); [done|]. rewrite Hu. cbn [ls_Missing ls_Found ls_Disabled ls_Epoch ls_IsAdmin].
  destruct (String.eqb_spec (profile_epoch p) "") as [E'|_]; [by apply profile_epoch_nonempty in E'|]. by rewrite andb_true_r.
Qed.

(** A logout with a current cookie ends every web session of the user, on
    every device: no cookie of the old credential state is let in any more (the
    fingerprints of the two states differing). *)
Theorem logout_ends_every_session now r s s' rs d p s1 :
  healthy (wn_db s) -> uready 1 (wn_db s) -> wc_raft c = true ->
  ParseSessionCookie now secret r = Ok d -> loadProfile (wn_db s) (sd_UserID d) = Ok p -> sd_Epoch d = profile_epoch p -> up_PasswordHash p <> "" ->
  saveProfile c (sd_UserID d) (next_generation p (up_PasswordHash p)) s = (s1, Ok tt) ->
  profile_epoch (next_generation p (up_PasswordHash p)) <> profile_epoch p ->
  Logout c now r s = (s', rs) ->
  rs_Cookies rs = [ClearSessionCookie] /\ loadProfile (wn_db s') (sd_UserID d) = Ok (next_generation p (up_PasswordHash p)) /\
  forall now' r' d', ParseSessionCookie now' secret r' = Ok d' -> sd_UserID d' = sd_UserID d -> sd_Epoch d' = profile_epoch p ->
    auth (wn_db s') now' r' = Respond (set_cookies [ClearSessionCookie] (redirectToLogin r')).
Proof.
  intros Hs Hr Hraft Hd Hl He Hp Hsave Hne. unfold Logout, revokeSession. rewrite Hraft, Hd, Hl, He, String.eqb_refl. cbn [negb].
  destruct (String.eqb_spec (profile_epoch p) "") as [E|_]; [by apply profile_epoch_nonempty in E|]. rewrite Hsave. cbn [fst]. intros [= <- <-].
  destruct (saved_reads_back 0 _ _ _ _ Hs Hr Hsave) as (_&_&_&data&Hm&Hg&Hu). split; [done|]. split; [by eapply loadProfile_of|].
  intros now' r' d' Hd' Hid Hep. rewrite <- Hid in Hg. rewrite (RequireAuth_known now' _ r' d' data (next_generation p (up_PasswordHash p)) Hd' Hg).
  - destruct (String.eqb_spec (sd_Epoch d') ""); [by rewrite Hep in *; apply profile_epoch_nonempty in e|].
    destruct (String.eqb_spec (sd_Epoch d') (profile_epoch (next_generation p (up_PasswordHash p)))); [congruence|]. by rewrite orb_true_r.
  - intros ->. by apply (profile_written (next_generation p (up_PasswordHash p))) in Hm.
  - done.
Qed.

(** The redirect of an uneventful change. *)
Definition changed_flash : list (string * string) := [("Location", withFlash securityPath ["security-password-changed"])].

(** What a change that reports success has done. *)
Lemma ChangePassword_done now salt r cx s s' rs :
  FormValue r "revoke_app_passwords" = "" -> rs_Header rs = changed_flash -> ChangePassword c now salt r cx s = (s', rs) ->
  exists q hash s1 s2, GenerateFromPassword salt (FormValue r "new_password") = Ok hash /\
    reauthenticate c now r (cx_userID cx) (cx_email cx) (FormValue r "current_password") securityPath s1 = (s2, inr q) /\ wn_db s1 = wn_db s /\
    (exists s3, saveProfile c (cx_userID cx) (next_generation q hash) s2 = (s3, Ok tt) /\ wn_db s' = wn_db s3) /\
    rs_Cookies rs = reissueSessionCookie c now r (cx_userID cx) (next_generation q hash).
Proof.
  intros Hrev Hh. unfold ChangePassword. destruct (_ || _); [by intros [= <- <-]|]. destruct (negb _); [by intros [= <- <-]|].
  destruct (_ <? 8); [by intros [= <- <-]|]. destruct (String.eqb (FormValue r "current_password") _); [by intros [= <- <-]|].
  destruct (Auth.Blocked _ _ _) as [lim []]; [by intros [= <- <-]|]. destruct (GenerateFromPassword _ _) as [hash|] eqn:Hg; [|by intros [= <- <-]].
  destruct (reauthenticate _ _ _ _ _ _ _ _) as [s2 [rs1|q]] eqn:Hr.
  { intros [= <- <-]. exfalso. unfold reauthenticate in Hr. repeat case_match; simplify_eq; done. }
  destruct (saveProfile _ _ _ _) as [s3 [[]|]] eqn:Hs; [|by intros [= <- <-]].
  assert (Hd : revoke_after_change c r (cx_userID cx) (next_generation q hash) (succeed c now r (cx_email cx) s3)
    = (succeed c now r (cx_email cx) s3, "security-password-changed")) by (unfold revoke_after_change; rewrite Hrev; by destruct (wc_links c)).
  rewrite Hd. intros [= <- <-]. exists q, hash, (with_lim s lim), s2. split_and!; try done; [by exists s3|].
  unfold set_cookies, to_security, http_Redirect. cbn [rs_Cookies]. by rewrite app_nil_r.
Qed.

(** C40: a password change that reports success was made with the old password
    (and a code, if there is a second factor); the new password is the
    account's, every web session of the old credential state is refused from
    then on, and the calling device's new cookie is let in until the old one
    would have expired. *)
Theorem password_change_keeps_this_device now salt r cx s s' rs d :
  healthy (wn_db s) -> uready 1 (wn_db s) -> (String.length (FormValue r "new_password") <= 72)%nat ->
  FormValue r "revoke_app_passwords" = "" -> rs_Header rs = changed_flash -> ChangePassword c now salt r cx s = (s', rs) ->
  ParseSessionCookie now secret r = Ok d -> sd_UserID d = cx_userID cx -> ValidString (cx_userID cx) = true ->
  exists p p' ck, loadProfile (wn_db s) (cx_userID cx) = Ok p /\ CompareHashAndPassword (up_PasswordHash p) (FormValue r "current_password") = true /\
    loadProfile (wn_db s') (cx_userID cx) = Ok p' /\ CompareHashAndPassword (up_PasswordHash p') (FormValue r "new_password") = true /\
    rs_Cookies rs = [ck] /\
    (forall now' r', rq_Cookie r' cookieName = Some (ck_Value ck) -> unix_of now' <= sd_Exp d ->
       exists cx', auth (wn_db s') now' r' = Next cx' /\ cx_userID cx' = cx_userID cx /\ cx_stateUnavailable cx' = false) /\
    (profile_epoch p' <> profile_epoch p -> forall now' r' d', ParseSessionCookie now' secret r' = Ok d' -> sd_UserID d' = cx_userID cx -> sd_Epoch d' = profile_epoch p ->
       auth (wn_db s') now' r' = Respond (set_cookies [ClearSessionCookie] (redirectToLogin r'))).
Proof.
  intros Hs Hr Hlen Hrev Hh Hc Hd Hid Hval. destruct (ChangePassword_done _ _ _ _ _ _ _ Hrev Hh Hc) as (q&hash&s1&s2&Hg&Hre&Hdb&(s3&Hsave&Hdb')&Hck).
  apply reauthenticate_Ok in Hre as (Hdb2&p&Hl&Hdis&Hpw&Hq). rewrite Hdb in *.
  destruct (saved_reads_back 0 (cx_userID cx) (next_generation q hash) s2 s3) as (_&_&_&data&Hm&Hget&Hun); [by rewrite Hdb2|by rewrite Hdb2|done|].
  destruct (bcrypt_accepts salt _ Hlen) as (h&Hh'&Hne&Hcmp). rewrite Hg in Hh'. injection Hh' as <-.
  assert (Hdata : data <> "") by (intros ->; by apply (profile_written (next_generation q hash)) in Hm).
  assert (Hqd : up_Disabled q = false).
  { destruct (up_TotpEnabled p); [|by subst]. destruct Hq as (used&Hq). unfold consumeSecondFactor in Hq.
    destruct (ValidateTOTPStep _ _ _ _); [by injection Hq as <- <-|]. destruct (ValidateRecoveryCode _ _); [by injection Hq as <- <-|done]. }
  unfold reissueSessionCookie in Hck. rewrite Hd, Hid, String.eqb_refl in Hck. rewrite <- Hdb' in Hget.
  exists p, (next_generation q hash). eexists. split_and!; [done|done|by eapply loadProfile_of|done|exact Hck| |].
  - intros now' r' Hck' Hexp.
    destruct (session_json (mkSession (sd_UserID d) (sd_Email d) (sd_Exp d) (sd_IsAdmin d) (profile_epoch (next_generation q hash)))) as (b&Hb&Hbne&Hbr).
    cbn [sd_UserID sd_Email sd_Exp sd_IsAdmin sd_Epoch] in Hbr. rewrite Hid, (json_text_valid (cx_userID cx) Hval) in Hbr.
    rewrite (json_text_valid _ (epoch_valid _)) in Hbr.
    assert (Hne2 : sd_UserID d <> "").
    { intros E. unfold ParseSessionCookie in Hd. destruct (rq_Cookie r cookieName); [|done]. apply result_bind_Ok in Hd as (d0&_&Hd).
      destruct (String.eqb_spec (sd_UserID d0) "") as [|Hn]; [done|]. destruct (_ <? _); [done|]. injection Hd as ->. done. }
    assert (Hp' : ParseSessionCookie now' secret r' =
      Ok (mkSession (cx_userID cx) (json_text (sd_Email d)) (sd_Exp d) (sd_IsAdmin d) (profile_epoch (next_generation q hash)))).
    { unfold ParseSessionCookie. rewrite Hck'. unfold validateCookie, ReissueSessionCookie. cbn [ck_Value lax_cookie].
      unfold json_payload. rewrite Hb, sign_verify_same by done. cbn [result_bind]. rewrite Hbr. cbn [result_bind sd_UserID sd_Exp].
      destruct (String.eqb_spec (cx_userID cx) ""); [congruence|]. destruct (Z.ltb_spec (sd_Exp d) (unix_of now')); [lia|done]. }
    eexists. rewrite (RequireAuth_known _ _ _ _ _ _ Hp' Hget Hdata Hun). cbn [sd_Epoch sd_UserID up_Disabled next_generation]. rewrite Hqd.
    rewrite String.eqb_refl, andb_false_r. by split.
  - intros Hdiff now' r' d' Hd' Hid' Hep. rewrite <- Hid' in Hget. rewrite (RequireAuth_known _ _ _ _ _ _ Hd' Hget Hdata Hun).
    destruct (String.eqb_spec (sd_Epoch d') "") as [E|_]; [rewrite Hep in E; by apply profile_epoch_nonempty in E|].
    destruct (String.eqb_spec (sd_Epoch d') (profile_epoch (next_generation q hash))); [congruence|]. by rewrite orb_true_r.
Qed.
End Revocation.

(** * Client addresses *)

Section ClientThm.
Context `{GoUnicode} `{NetParse}.
(** A client that is not a listed proxy is known by its own address whatever
    headers it sends: it cannot choose the address its failures count on. *)
Theorem headers_of_strangers_are_ignored trusted r :
  TrustsHost trusted (remote_host r) = false -> ClientIP trusted r = remote_host r /\ (rq_TLS r = false -> IsHTTPS trusted r = false).
Proof. intros Ht. unfold ClientIP, IsHTTPS. rewrite Ht. cbn [negb]. split; [done|]. by intros ->. Qed.
(** Behind a trusted proxy it is the entry that proxy appended. *)
Theorem last_forwarded_entry_counts trusted r before entry :
  TrustsHost trusted (remote_host r) = true -> rq_Header r "X-Forwarded-For" = before +:+ "," +:+ entry ->
  has_char "," entry = false -> TrimSpace entry <> "" -> ClientIP trusted r = TrimSpace entry.
Proof.
  intros Ht Hx Hc Hne. unfold ClientIP. rewrite Ht, Hx. cbn [negb]. destruct (String.eqb_spec (before +:+ "," +:+ entry) "") as [E|_].
  { by destruct before. }
  change (before +:+ "," +:+ entry) with (before +:+ String "," "" +:+ entry). rewrite CutLast_app by done. by destruct (String.eqb_spec (TrimSpace entry) "").
Qed.
End ClientThm.

(** * Evaluation *)

#[global] Instance SessionData_eq_dec : EqDecision SessionData.
Proof. solve_decision. Defined.
#[global] Instance SessionData_countable : Countable SessionData.
Proof.
  apply (inj_countable' (fun d => (sd_UserID d, sd_Email d, sd_Exp d, sd_IsAdmin d, sd_Epoch d)) (fun '(a, b, x, y, e) => mkSession a b x y e)).
  by intros [].
Defined.
#[global] Instance PendingData_eq_dec : EqDecision PendingData.
Proof. solve_decision. Defined.
#[global] Instance PendingData_countable : Countable PendingData.
Proof.
  apply (inj_countable' (fun d => (pd_UserID d, pd_Email d, pd_Remember d, pd_IsAdmin d, pd_Exp d, pd_Epoch d)) (fun '(a, b, x, y, z, e) => mkPending a b x y z e)).
  by intros [].
Defined.
#[global] Instance totpPending_eq_dec : EqDecision totpPendingPayload.
Proof. solve_decision. Defined.
#[global] Instance totpPending_countable : Countable totpPendingPayload.
Proof. apply (inj_countable' (fun d => (tp_Secret d, tp_Exp d)) (fun '(a, b) => mkTotpPending a b)). by intros []. Defined.

Section Demo.
#[local] Existing Instances plain_raft plain_applier demo_bcrypt demo_bcrypt_laws demo_cred bytewise_unicode Netx.demo_net.
#[local] Instance web_user_applier : UserApplier MemDB := plain_user.
#[local] Instance web_profile_codec : Codec UserProfile := tagged_codec "U".
#[local] Instance web_profile_laws : ProtoLaws UserProfile := tagged_proto "U".
#[local] Instance web_prefs_codec : Codec UserPreferences := tagged_codec "P".
#[local] Instance web_session_codec : Codec SessionData := tagged_codec "S".
#[local] Instance web_pending_codec : Codec PendingData := tagged_codec "W".
#[local] Instance web_totp_codec : Codec totpPendingPayload := tagged_codec "T".
#[local] Instance web_mail_codecs : MailCodecs := {|
  mc_meta := countable_codec; mc_msg := countable_codec; mc_mail := countable_codec; mc_transfer := countable_codec;
  mc_rename := countable_codec; mc_delivery := countable_codec; mc_subscribe := countable_codec |}.
(** Checksums in place of the hashes; a code is the number of its step. *)
Definition digest (s : string) : string := be_put 8 (rolling 7 s) +:+ be_put 24 0.
Lemma digest_length s : String.length (digest s) = 32%nat.
Proof. unfold digest. by rewrite str_length_app, !be_put_length. Qed.
#[local] Instance web_hmac : Hmac := {| hmac_sha256 k m := digest (k +:+ "/" +:+ m); hmac_length k m := digest_length _ |}.
#[local] Instance web_sha : Sha256 := {| sha256_sum := digest; sha256_length := digest_length |}.
#[local] Instance web_totp : Totp := fun code _ t => Ok (String.eqb code (FormatInt (t / totpPeriod))).
#[local] Instance web_forms : WebForms := {|
  FormValue r k := rq_Query r k; PostFormValue r k := rq_Query r k; ParseMediaType _ := None; NextPart _ _ := None |}.
#[local] Instance web_json : WebJson.
Proof.
  refine {| json_text s := s |}; [done|..]; intros d; (eexists; split; [reflexivity|]); (split; [discriminate|]).
  - destruct d. exact (@proto_roundtrip _ _ (tagged_proto "S") _ _ eq_refl).
  - destruct d. exact (@proto_roundtrip _ _ (tagged_proto "W") _ _ eq_refl).
Defined.
Lemma web_profile_written p : up_PasswordHash p <> "" -> marshal p <> Ok "".
Proof. intros _ [=]. Qed.

(** Ann has a second factor, Bob has none and administers everything. *)
Definition ann : UserProfile := mkProfile "ann@example.org" "Ann" "$hunter2" "key" 0 false false [] true 0 0 "" 0 "" false.
Definition bob : UserProfile := mkProfile "bob@example.org" "Bob" "$swordfish" "" 0 true false [] false 0 0 "" 0 "" false.
Definition written (p : UserProfile) : string := match marshal p with Ok v => v | Err _ => "" end.
Definition web_db : MemDB := mem_of [(profileKey "u1", written ann); (profileKey "u2", written bob)].
Definition web_users (name : string) : result string :=
  if String.eqb name "ann@example.org" then Ok "u1" else if String.eqb name "bob@example.org" then Ok "u2" else Err ErrNoRows.
Definition web_config : WebConfig := mkConfig (mkLocalAuth (Some web_users) false) "secret" true None true false false None true.
Lemma web_ids_valid query name u : la_users (wc_auth web_config) = Some query -> query name = Ok u -> ValidString u = true.
Proof.
  intros [= <-]. unfold web_users. destruct (String.eqb name "ann@example.org"); [intros [= <-]; reflexivity|].
  destruct (String.eqb name "bob@example.org"); [intros [= <-]; reflexivity|done].
Qed.
Definition web_node : WebNode MemDB := mkWeb web_db (NewLoginRateLimiter DefaultMaxAttempts DefaultWindow) demo_state.
Definition web_now : Z := 3000000 * Second.
Definition web_draws : Draws := mkDraws (fun _ => "salt") (Ok "MFRGG") Ok.
Definition form (fields : list (string * string)) (k : string) : string := default "" ((list_to_map fields : gmap string string) !! k).
Definition request (method path : string) (headers cookies fields : list (string * string)) : Request :=
  mkRequest method path path "mail.example.org" "192.0.2.7:4711" true (form headers) (fun k => (list_to_map cookies : gmap string string) !! k)
    (form fields) 0 None.
Definition post_login (email pw : string) : Request := request "POST" "/login" [] [] [("email", email); ("password", pw)].
Definition serve_at (rt : Route) (r : Request) (s : WebNode MemDB) : WebNode MemDB * Response := serve web_config rt web_now web_draws r s.
Definition cookie_of (name : string) (rs : Response) : string :=
  match List.find (fun ck => String.eqb (ck_Name ck) name && negb (String.eqb (ck_Value ck) "")) (rs_Cookies rs) with
  | Some ck => ck_Value ck | None => "" end.

(** Bob signs in; Ann gets past the password, then past the code. *)
Definition bob_in : WebNode MemDB * Response := serve_at PostLogin (post_login "bob@example.org" "swordfish") web_node.
Definition bob_cookie : string := cookie_of cookieName bob_in.2.
Definition ann_pending : WebNode MemDB * Response := serve_at PostLogin (post_login "ann@example.org" "hunter2") web_node.
Definition ann_code : Request := request "POST" "/login/2fa" [] [(pendingCookieName, cookie_of pendingCookieName ann_pending.2)] [("code", "100000")].
Definition ann_in : WebNode MemDB * Response := serve_at PostLogin2FA ann_code ann_pending.1.
Example sign_in_runs :
  rs_Header bob_in.2 = [("Location", "/summary")] /\ rs_Header ann_pending.2 = [("Location", "/login/2fa")] /\
  rs_Header ann_in.2 = [("Location", "/summary")] /\
  rs_Header (serve_at PostLogin2FA ann_code ann_in.1).2 = [("Location", "/login/2fa?error=Invalid%20code.%20Please%20try%20again.")].
Proof. vm_compute. repeat split. Qed.

Definition admin_get : Request := request "POST" "/admin/users" [(csrfHeaderName, csrfToken "secret" "u2")] [(cookieName, bob_cookie)] [].
Lemma admin_requests_are_vetted_witness :
  exists cx, chain (adminGroup web_now "secret" true (wn_db bob_in.1)) admin_get noCtx = Next cx /\ cx_userID cx = "u2" /\
    exists data, ParseSessionCookie web_now "secret" admin_get = Ok data /\ cx_userID cx = sd_UserID data.
Proof.
  assert (Hc : exists cx, chain (adminGroup web_now "secret" true (wn_db bob_in.1)) admin_get noCtx = Next cx /\ cx_userID cx = "u2")
    by (eexists; split; vm_compute; reflexivity).
  destruct Hc as (cx&Hc&Hu). exists cx. split; [exact Hc|]. split; [exact Hu|].
  destruct (admin_requests_are_vetted web_now "secret" (wn_db bob_in.1) admin_get cx Hc) as (data&p&enforced&Hd&Hid&_). exists data. split; [exact Hd|exact Hid].
Defined.

Definition bob_get : Request := request "GET" "/summary" [] [(cookieName, bob_cookie)] [].
(** A request that carries only a cookie the server set. *)
Lemma one_cookie_unforged set method path headers fields value :
  (exists ck, ck ∈ set /\ ck_Name ck = cookieName /\ ck_Value ck = value) -> unforged web_config set (request method path headers [(cookieName, value)] fields).
Proof.
  intros (ck&Hin&Hn&<-) name purpose v payload Hk Hc Hv. exists ck. split; [exact Hin|].
  apply elem_of_cons in Hk as [[= -> ->]|[[= -> ->]|Hk%elem_of_nil]%elem_of_cons]; [|discriminate Hc|destruct Hk].
  injection Hc as <-. split; [exact Hn|exact Hv].
Qed.

Lemma code_is_spent_before_session_witness :
  exists ck p q used, ck ∈ rs_Cookies (TwoFactorVerify web_config web_now ann_code ann_pending.1).2 /\ ck_Name ck = cookieName /\ loadProfile (wn_db ann_pending.1) "u1" = Ok p /\ spent p q "100000" web_now used.
Proof.
  set (run := TwoFactorVerify web_config web_now ann_code ann_pending.1).
  assert (Hck : nth 1 (rs_Cookies run.2) ClearSessionCookie ∈ rs_Cookies run.2) by (apply list_elem_of_In, nth_In; vm_compute; lia).
  destruct (code_is_spent_before_session web_config web_now ann_code ann_pending.1 run.1 run.2 _ (surjective_pairing _) Hck) as (pd&p&q&used&s1&Hp&Hl&_&Hs&_&_);
    [vm_compute; reflexivity|].
  assert (Hid : pd_UserID pd = "u1").
  { assert (Hv : exists d, ValidatePendingCookie web_now "secret" ann_code = Ok d /\ pd_UserID d = "u1") by (eexists; split; vm_compute; reflexivity).
    destruct Hv as (d&Hv&Hd). change (ValidatePendingCookie web_now "secret" ann_code = Ok pd) in Hp. rewrite Hv in Hp. injection Hp as <-. exact Hd. }
  rewrite Hid in Hl. exists (nth 1 (rs_Cookies run.2) ClearSessionCookie), p, q, used. split; [exact Hck|]. split; [vm_compute; reflexivity|]. split; [exact Hl|exact Hs].
Defined.

(** ** Revocation *)

Definition bob_logout : Request := request "POST" "/logout" [] [(cookieName, bob_cookie)] [].
Definition bob_out : WebNode MemDB * Response := Logout web_config web_now bob_logout bob_in.1.
Lemma logout_ends_every_session_witness :
  rs_Cookies bob_out.2 = [ClearSessionCookie] /\
  RequireAuth web_now "secret" (Some (userSessionState (wn_db bob_out.1))) bob_get noCtx = Respond (set_cookies [ClearSessionCookie] (redirectToLogin bob_get)).
Proof.
  assert (Hd : exists d, ParseSessionCookie web_now "secret" bob_logout = Ok d /\ ParseSessionCookie web_now "secret" bob_get = Ok d /\
    sd_UserID d = "u2" /\ sd_Epoch d = profile_epoch bob) by (eexists; split_and!; vm_compute; reflexivity).
  destruct Hd as (d&Hd&Hd'&Hid&He).
  assert (Hs : exists s1, saveProfile web_config "u2" (next_generation bob (up_PasswordHash bob)) bob_in.1 = (s1, Ok tt)) by (eexists; vm_compute; reflexivity).
  destruct Hs as (s1&Hs). rewrite <- Hid in Hs.
  destruct (logout_ends_every_session web_config web_profile_written web_now bob_logout bob_in.1 bob_out.1 bob_out.2 d bob s1) as (Hc&_&Hall);
    [vm_compute; repeat split|exact I|reflexivity|exact Hd|rewrite Hid; vm_compute; reflexivity|exact He|discriminate|exact Hs|vm_compute; discriminate|
     exact (surjective_pairing _)|].
  split; [exact Hc|]. exact (Hall web_now bob_get d Hd' eq_refl He).
Defined.

Definition bob_change : Request :=
  request "POST" "/settings/security/password" [] [(cookieName, bob_cookie)]
    [("current_password", "swordfish"); ("new_password", "correct horse"); ("confirm_password", "correct horse")].
Definition bob_ctx : Ctx := mkCtx "u2" "bob@example.org" true false false (mkScope false ∅) "".
Definition bob_changed : WebNode MemDB * Response := ChangePassword web_config web_now "salt" bob_change bob_ctx bob_in.1.
Lemma password_change_keeps_this_device_witness :
  exists p', loadProfile (wn_db bob_changed.1) "u2" = Ok p' /\ CompareHashAndPassword (up_PasswordHash p') "correct horse" = true /\
    RequireAuth web_now "secret" (Some (userSessionState (wn_db bob_changed.1))) bob_get noCtx = Respond (set_cookies [ClearSessionCookie] (redirectToLogin bob_get)).
Proof.
  assert (Hd : exists d, ParseSessionCookie web_now "secret" bob_change = Ok d /\ ParseSessionCookie web_now "secret" bob_get = Ok d /\
    sd_UserID d = "u2" /\ sd_Epoch d = profile_epoch bob) by (eexists; split_and!; vm_compute; reflexivity).
  destruct Hd as (d&Hd&Hd'&Hid&He).
  destruct (password_change_keeps_this_device web_config web_profile_written web_now "salt" bob_change bob_ctx bob_in.1 bob_changed.1 bob_changed.2 d)
    as (p&p'&ck&Hl&_&Hl'&Hc&_&_&Hold);
    [vm_compute; repeat split|exact I|vm_compute; lia|vm_compute; reflexivity|vm_compute; reflexivity|exact (surjective_pairing _)|exact Hd|exact Hid|reflexivity|].
  assert (Hp : loadProfile (wn_db bob_in.1) "u2" = Ok bob) by (vm_compute; reflexivity).
  assert (Hp' : loadProfile (wn_db bob_changed.1) "u2" = Ok (next_generation bob "$correct horse")) by (vm_compute; reflexivity).
  assert (E : p = bob) by (change (loadProfile (wn_db bob_in.1) "u2" = Ok p) in Hl; rewrite Hp in Hl; injection Hl as <-; reflexivity).
  assert (E' : p' = next_generation bob "$correct horse") by (change (loadProfile (wn_db bob_changed.1) "u2" = Ok p') in Hl'; rewrite Hp' in Hl'; injection Hl' as <-; reflexivity).
  exists p'. split; [exact Hl'|]. split; [exact Hc|]. refine (Hold _ web_now bob_get d Hd' Hid _); [rewrite E, E'; vm_compute; discriminate|rewrite E; exact He].
Defined.

(** ** Requests between nodes *)

Definition join_header : string := signed_header (web_now + internalSkew) "n0" "secret" internalAuthPurpose "POST" "/internal/cluster/join" "{}".
Definition join_request : Request :=
  mkRequest "POST" "/internal/cluster/join" "/internal/cluster/join" "node2" "10.0.0.9:99" true
    (fun k => if String.eqb k InternalAuthHeader then join_header else "") (fun _ => None) (fun _ => "") 2 (Some (Ok "{}")).
Definition join_signed : SignedReq := mkSigned (unix_of (web_now + internalSkew)) "n0" "POST" "/internal/cluster/join" "{}".
Definition no_nonces : nonceCache := mkNonces ∅ MinInt64.
Definition joined : nonceCache * bool := VerifyInternalRequest web_now "secret" join_request no_nonces.

(** A request stamped 90 seconds ahead by its sender's clock is accepted a
    second time, 180 seconds later: the record of its nonce has just ended and
    its timestamp is still within bounds. *)
Theorem internal_request_replays_at_the_edge :
  joined.2 = true /\ (VerifyInternalRequest (web_now + 2 * internalSkew) "secret" join_request joined.1).2 = true.
Proof. split; vm_compute; reflexivity. Qed.
(** The fields of the signed text are only separated by a bar: the signature of
    a GET whose query holds bars is one of another method and path. *)
Theorem signed_text_is_ambiguous ts nonce hash :
  signedPayload ts nonce "GET" "/internal/blob/0?x|DELETE|/internal/user/u1" hash =
  signedPayload ts (nonce +:+ "|GET|/internal/blob/0?x") "DELETE" "/internal/user/u1" hash.
Proof. unfold signedPayload. rewrite !str_app_assoc. reflexivity. Qed.
End Demo.
